(* ===== verification/_CoqProject ===== *)
-Q . S2P
Prelude.v
PidHash.v
Slab.v
Pages.v
Policy.v
PolicyProofs.v
PolicySafety.v
PolicyTheorems.v
UserLib.v
Bitmap.v
Sched.v
SchedInv.v
SchedCalls.v
SchedSafety.v
SchedPick.v
SchedCallsWf.v
SchedTheorems.v
SchedBehaviour.v
SchedPrio.v
Proc.v
ProcFamily.v
ProcPids.v
ProcJobs.v
User.v
UserTheorems.v
Cred.v
CredInv.v
CredTheorems.v
Limits.v
Timer.v
TimerProofs.v
TimerTheorems.v
Notifier.v
Resource.v
ResourceTheorems.v
Sigset.v
Signal.v
SigCalls.v
SigFrame.v
SigInv.v
SigSend.v
SigSteps.v
SigTheorems.v
Clock.v
ClockTheorems.v
Itimer.v
ItimerTheorems.v
Ipc.v
IpcProofs.v
Sem.v
SemOps.v
SemInv.v
SemSteps.v
SemCalls.v
SemTheorems.v
Buddy.v
ZoneInit.v
BuddyInv.v
BuddySteps.v
BuddyPages.v
BuddyTheorems.v
AllocPages.v
AllocTheorems.v
Bootmem.v
BootmemInv.v
BootHandover.v
BootTheorems.v
Msg.v
MsgInv.v
MsgSteps.v
MsgCalls.v
MsgCtl.v
MsgTheorems.v
Cache.v
CacheInv.v
CacheGrow.v
CacheCalls.v
CacheCreate.v
CacheBoot.v
CacheTheorems.v
