(* ===== verification/Prelude.v ===== *)
(** * A verification library for the process-policy kernel (Linux 2.4.18-14custom)

    The program is a Linux 2.4.18 kernel for i386, configured for one processor with
    HZ = 512 (src/linux-2.4.18-14custom/.config), extended with a per-process policy: four
    system calls turn a policy on and off for a process, set its level and read the log
    of the calls the policy has refused, and hooks in fork, wait4 and sched_yield consult it.
    User programs reach the calls through src/user_files/hw1_syscalls.h.  The library
    models the policy and the parts of kernel/ that surround it: the pid hash table,
    the scheduler, the process table, the credentials, the user cache, the resource
    limits, the timers, signals and their delivery, the clock, interval timers and
    sleeping, the notifier chains and the I/O resource tree; the semaphores and message
    queues of ipc/; and of mm/ the slab caches behind kmalloc, the page allocator below them with
    its choice of zones, and the boot-time allocator that fills it.

    ** Conventions

    Structures are records, with [r <| field := v |>] for an assignment to a field; a store of
    structures is a function from pointers (numbers), changed by [alter] or [insert].  An
    operation is a function from a state to a state and a result, [- EINVAL] and the like being
    the error results; where the C code would follow a null pointer, panic or run
    out of bounds, the model returns [None] or an explicit fault.  Machine integers are
    numbers of [Z], with the wrap-around of 32 bits written out by [u32] and [s32] where
    the code can reach it.  Accesses to user space are arguments that say which bytes can
    be read or whether a copy faults.  Interrupts do not preempt an operation that the
    code runs with interrupts off or under a lock; operations interleave as the steps of the
    step relations named below.  A call that sleeps or unlocks in the middle takes what the
    rest of the system does meanwhile as an argument ([gap] in [Sem], the schedule in
    [Itimer]), or is split there ([semop_resume], [msgsnd_resume], [msgrcv_resume], and
    [call_back] for the two policy calls that allocate or copy to the user).  Where the code
    relies on its callers, the step relations state the contract: which calls may overlap
    ([pvalid]), which requests are made ([mruns]), which arguments an allocation has
    ([boot_held]); for each such condition a theorem shows what the code does without it.

    Loops over lists are structural.  The others carry a bound: [PID_FUEL], twice the number
    of pids, for the restarts of get_pid; the number of children, of linked timers or of
    tasks for the loops that shorten a list or walk a ring; two passes for schedule.  Where
    a bound is not a structural one the theorems prove that it is enough (the result is
    [Some]), for [schedule], [get_pid], [exit_notify], [cascade_timers] and
    [run_timer_list].  The loops that normalise microseconds carry [USEC_FUEL], which the
    theorems prove enough in the states the clock can reach.  The merging of buddies
    carries [MAX_ORDER], the search of the boot-time bitmap its number of pages; both are
    proved enough (the restarts of the search are an argument: on a node that does not start at
    a multiple of the alignment a search that fails never ends, and [Scanning] says so), and so is the length of a text for the blocks [load_segs] reads.  An
    allocation from a cache carries [ALLOC_FUEL]: two passes, and one for the structure of a
    slab that another cache holds, which is never in a third; the loops of [describe] carry the
    number of orders and of halvings, a shrinking cache the number of its free slabs; these
    are proved enough too, and so is the number of clean pages ([clean_fuel]) for the loops that
    free them.  The passes of [__alloc_pages] are an argument, because a task can wait for a
    page forever: the verdict [Again] says that it still waits.  The descents of the resource tree take a depth as an argument.

    ** Files

    - [Prelude]: record update, machine integers, error numbers, tactics, the hint database.
    - [PidHash]: hash_pid, unhash_pid, find_task_by_pid (include/linux/sched.h), and that a
      lookup finds exactly the hashed task with that pid.
    - [Slab]: kmalloc and kfree (mm/slab.c) over a heap of objects, for their callers; the
      caches behind them are the class [Slab] with its laws [SlabLaws], which the caches of
      [Cache] keep.
    - [Pages]: blocks of pages, and the class [Pages] of an allocator of pages with its laws
      [PagesLaws].
    - [Policy]: kernel/hw1_syscalls.c, the hooks in kernel/fork.c, kernel/exit.c and
      kernel/sched.c, the reset of the fields in do_fork and their release in release_task.
      sys_enable_policy and sys_get_process_log are there twice: whole, and cut at their
      sleeps ([enable_begin], [get_log_begin], [call_back]); a call that is not kept waiting is
      the whole one ([enable_runs_through], [get_log_runs_through]).  [PolicyProofs] relates
      the ring of records to a queue, [PolicySafety] proves memory safety of every operation
      and of every part of a call, [PolicyTheorems] holds the results: in every interleaving
      (steps [pstep]) within the contract [pvalid] no operation makes a memory error and
      nothing is leaked, a refusal appends to the queue and get_process_log removes from it,
      every outcome of the calls, and the cases in which the code goes wrong: four overlaps of
      calls on one target, a size that wraps around, a log of size 0, a full log.
    - [UserLib]: the wrappers of src/user_files/hw1_syscalls.h.
    - [Bitmap]: the bit operations of include/asm-i386/bitops.h on the priority bitmap.
    - [Sched]: kernel/sched.c, its runqueue, wakeups, timer tick and schedule; [SchedCalls]: the
      scheduler's system calls, setpriority and getpriority (kernel/sys.c), wait queues,
      boot and the scheduling part of do_fork.  [SchedInv], [SchedSafety], [SchedPick] and
      [SchedCallsWf] prove that every operation preserves the consistency of the runqueue;
      [SchedTheorems] states it for all reachable states (steps [sstep]) with what
      schedule picks; [SchedBehaviour] and [SchedPrio] say what the calls do.
    - [Proc]: process table, get_pid, fork, exit, wait4, process groups and sessions
      (kernel/fork.c, kernel/exit.c, kernel/sys.c).  [ProcFamily]: parents and children agree
      and an exiting task leaves no children; [ProcPids]: pids are fresh; [ProcJobs]: a
      process group lies within one session (steps [jstep]; failed forks are among them, as
      long as few enough tasks exist for get_pid to find a pid, since after a search that fails
      it hands out a pid in use).
    - [User], [UserTheorems]: kernel/user.c and the code that takes and drops references to
      user structures (steps [ustep]; reparent_to_init called by threads of root, since for
      others it breaks the counts: [reparent_breaks_counts]).
    - [Cred], [CredInv], [CredTheorems]: user and group ids, groups, prctl (kernel/sys.c),
      capabilities (kernel/capability.c) and the credentials of a new program
      (prepare_binprm and compute_creds of fs/exec.c); what sequences of calls, execve
      among them, can gain (steps [cstep]).
    - [Limits]: rlimits, getrusage, umask and the host name (kernel/sys.c).
    - [Timer], [TimerProofs], [TimerTheorems]: the timer wheel of kernel/timer.c refines a map
      from timers to due times.
    - [Notifier]: the notifier chains of kernel/sys.c.
    - [Resource], [ResourceTheorems]: kernel/resource.c, whose tree keeps disjoint ranges.
    - [Sigset], [Signal], [SigCalls], [SigFrame]: the signal sets of include/linux/signal.h,
      sending and queueing and the system calls of kernel/signal.c, and the delivery to user
      space of arch/i386/kernel/signal.c.  [SigInv], [SigSend] and [SigSteps] prove the
      invariant of the queues, [SigTheorems] states it for all histories (steps [gstep]) with
      the queue discipline, what SIGKILL reaches, who may send, and that sigreturn and
      rt_sigreturn, whichever the frame's trampoline calls, restore what the delivery saved.
    - [Clock], [ClockTheorems]: the wall clock of kernel/timer.c with its phase-lock loop, time
      of day and adjtimex (kernel/time.c, arch/i386/kernel/time.c).
    - [Itimer], [ItimerTheorems]: interval timers (kernel/itimer.c), the accounting of a tick,
      alarm, schedule_timeout and nanosleep (kernel/timer.c).
    - [Ipc], [IpcProofs]: identifiers and permissions (ipc/util.c); [Sem]: semaphores (ipc/sem.c).  [SemOps]:
      a request is all or nothing; [SemInv], [SemSteps], [SemCalls]: the invariant of the
      queue of sleeping requests; [SemTheorems]: no wakeup is lost in any history (steps
      [mruns]) of requests that do not mix, one that does loses it, and what sem_exit takes
      back.
    - [Msg]: message queues (ipc/msg.c).  [MsgInv]: the blocks of a text, and that queues, sleepers,
      counters and blocks agree; [MsgSteps], [MsgCalls], [MsgCtl]: every call keeps it;
      [MsgTheorems]: no message waits for a receiver that sleeps for it in any history (steps
      [nruns]) and no call ends in BUG, a receive takes the message the code promises, and its
      text is the one sent.
    - [Buddy]: pages, zones and their free lists (mm/page_alloc.c, mm/swap.c), with blocks
      of pages freed, merged, split and allocated; [ZoneInit]: free_area_init.  [BuddyInv] and
      [BuddySteps] relate lists, bitmaps and counters of a zone to its free pages,
      [BuddyPages] to the set [page_avail] of available pages on all zones, from boot
      on; [BuddyTheorems]: free and allocation refine putting a block into the set and taking
      one out, and allocated blocks are disjoint in every history ([held]).
    - [AllocPages]: alloc_pages and __alloc_pages (mm/page_alloc.c), which look for pages in
      a list of zones under falling limits, and reclaim_page (mm/vmscan.c), which takes a clean
      page from its file; the daemons that free memory are the class [Pageout] with its laws
      [PageoutLaws theirs], which let them give back blocks of [theirs] (slabs, pages of other
      tasks) but no others.  [AllocTheorems]: an allocation never ends in BUG and hands out a clean block
      that nobody holds, only a single page is waited for, and the zones satisfy the laws
      [PagesLaws] ([zone_laws]).
    - [Bootmem]: mm/bootmem.c.  [BootmemInv]: allocated ranges of bytes stay in
      reserved pages and disjoint; [BootHandover]: releasing pages to the zones;
      [BootTheorems]: the ranges of every history ([boot_held]) are disjoint, which searches
      never end, and free_all_bootmem makes the unreserved pages and those of the bitmap
      available, but for one page of the bitmap on some sizes.
    - [Cache]: the slab caches (mm/slab.c).  [CacheInv]: the invariant of slabs, free lists, pages
      and objects, kept by taking an object and giving it back; [CacheGrow]: slabs come and
      go; [CacheCalls]: growing, allocation, shrinking and reclaim; [CacheCreate]: the layout
      kmem_cache_create chooses, caches come and go; [CacheBoot]: the general caches at
      boot; [CacheTheorems]: in every history ([heap_run]) objects are disjoint, caches are well
      formed, no call ends in BUG, a call fails only when the pages it asked for were refused, and kmalloc and kfree implement the heap of [Slab].

    ** Interaction

    The policy finds its tasks through the pid hash ([PidHash]) and its memory through kmalloc
    (the class [Slab]; [kmalloc_refines] proves that the caches of [Cache] answer as its laws
    ask); the caches take pages through the class [Pages], of which the zones with alloc_pages and
    free_pages are an instance ([zone_pages]); the hooks run inside the fork, wait4 and
    sched_yield of [Proc] and [SchedCalls].  do_fork, release_task and reparent_to_init are modelled once per component
    they touch: [do_fork_policy], [fork_sched], [fork_proc] and [fork_user]; [release_task_policy],
    [sched_exit], [release_proc] and [release_user]; [reparent_to_init_proc], [reparent_user],
    [reparent_cred] and [reparent_rlim].  [sys_setuid] and its relatives change the user cache
    through [set_user_ref].  Signals wake tasks in the scheduler's state; interval timers
    run on the timer wheel and send signals; semaphores and message queues
    share the identifiers of [Ipc], wake tasks in the scheduler and check permissions against
    the credentials.  free_all_bootmem frees pages through
    __free_pages into the zones that free_area_init has set up ([BootTheorems] joins
    the three).

    ** Not modelled

    Code under CONFIG_SMP (the load balancer, migration threads, del_timer_sync); address
    spaces and files at fork, exit and execve; ptrace; the shared memory of ipc/;
    the architecture code but for signal frames; in mm the daemons that free memory, the page
    cache, swapping and paging; fs, net and drivers.  Calls on caches run one after another,
    except that the caches may shrink while one waits for pages (the argument [reclaim]).  /proc
    listings and console output are left out of the operations that are modelled. *)
From stdpp Require Import base gmap list numbers option sets.

#[export] Set Default Goal Selector "!".

(** ** Record update

    [r <| field := v |>] is the C assignment [r.field = v] on a struct value.
    A record type opts in with an [Eta] instance that rebuilds it field by field. *)
Class Eta (R : Type) := eta : R -> R.
Class Setter {R E : Type} (proj : R -> E) := update : (E -> E) -> R -> R.
Arguments update {R E} proj {_} f r /.

Ltac build_setter :=
  match goal with
  | |- @Setter ?R ?E ?p =>
      let h := constr:(ltac:(typeclasses eauto) : Eta R) in
      exact (fun (f : E -> E) (r : R) =>
        ltac:(let whole := eval unfold eta in (@eta R h r) in
              let whole := eval hnf in whole in
              let shape := eval pattern (p r) in whole in
              match shape with
              | ?g _ => let res := eval cbv beta in (g (f (p r))) in exact res
              end))
  end.
#[export] Hint Extern 0 (Setter _) => build_setter : typeclass_instances.

Declare Scope kernel_scope.
Delimit Scope kernel_scope with kernel.
Notation "r <| p := v |>" := (update p (fun _ => v) r)
  (at level 1, left associativity, p constr at level 9, v constr at level 200) : kernel_scope.
Notation "r <| p ::= f |>" := (update p f r)
  (at level 1, left associativity, p constr at level 9, f constr at level 200) : kernel_scope.
Global Open Scope kernel_scope.
Global Open Scope Z_scope.

(** ** Machine integers (i386: [int], [long] and pointers are 32 bits wide) *)

Definition u32 (x : Z) : Z := x mod 2 ^ 32.
Definition s32 (x : Z) : Z := (x + 2 ^ 31) mod 2 ^ 32 - 2 ^ 31.

Lemma u32_range x : 0 <= u32 x < 2 ^ 32.
Proof. apply Z.mod_pos_bound. lia. Qed.

Lemma u32_small x : 0 <= x < 2 ^ 32 -> u32 x = x.
Proof. apply Z.mod_small. Qed.

Lemma s32_range x : - 2 ^ 31 <= s32 x < 2 ^ 31.
Proof. unfold s32. pose proof (Z.mod_pos_bound (x + 2 ^ 31) (2 ^ 32)). lia. Qed.

Lemma s32_small x : - 2 ^ 31 <= x < 2 ^ 31 -> s32 x = x.
Proof. intros. unfold s32. rewrite Z.mod_small; lia. Qed.

(** C's test [x & m]. *)
Definition has (x m : Z) : bool := negb (Z.land x m =? 0).

(** Reduction modulo [n] of a value at most one period away. *)
Lemma mod_once a n : 0 <= a < 2 * n -> a mod n = if a <? n then a else a - n.
Proof.
  intros. destruct (Z.ltb_spec a n); [by apply Z.mod_small; lia|].
  symmetry. apply (Z.mod_unique _ _ 1); lia.
Qed.

Lemma mod_diff a n : - n <= a < n -> a mod n = if a <? 0 then a + n else a.
Proof.
  intros. destruct (Z.ltb_spec a 0); [|by apply Z.mod_small; lia].
  symmetry. apply (Z.mod_unique _ _ (-1)); lia.
Qed.

(** ** Lists of pointers *)

Lemma filter_out_not_in (t : Z) (l : list Z) : t ∉ l -> filter (fun u => u <> t) l = l.
Proof.
  induction l as [|b l IH]; [done|]. intros. rewrite filter_cons_True by set_solver.
  f_equal. apply IH. set_solver.
Qed.

Lemma filter_out (t : Z) (l : list Z) u : u ∈ filter (fun v => v <> t) l -> u ∈ l /\ u <> t.
Proof. intros [? ?]%list_elem_of_filter. done. Qed.


(** ** Error numbers (include/asm-i386/errno.h) *)
Definition EPERM := 1.
Definition ESRCH := 3.
Definition EAGAIN := 11.
Definition ENOMEM := 12.
Definition EACCES := 13.
Definition EFAULT := 14.
Definition EBUSY := 16.
Definition EINVAL := 22.

(** ** Automation *)

Create HintDb kernel discriminated.

(** Split every boolean test and match of the goal and of the hypotheses. *)
Ltac case_step :=
  match goal with
  | |- context [if ?b then _ else _] => destruct b eqn:?
  | |- context [match ?x with _ => _ end] => destruct x eqn:?
  | H : context [if ?b then _ else _] |- _ => destruct b eqn:?
  | H : context [match ?x with _ => _ end] |- _ => destruct x eqn:?
  end.

(** Turn boolean comparisons into propositions. *)
Ltac b2p :=
  repeat match goal with
  | H : (_ && _) = true |- _ => apply andb_true_iff in H as [? ?]
  | H : (_ || _) = false |- _ => apply orb_false_iff in H as [? ?]
  | H : (_ || _) = true |- _ => apply orb_true_iff in H
  | H : (_ && _) = false |- _ => apply andb_false_iff in H
  | H : negb _ = true |- _ => apply negb_true_iff in H
  | H : negb _ = false |- _ => apply negb_false_iff in H
  | H : (_ =? _) = true |- _ => apply Z.eqb_eq in H
  | H : (_ =? _) = false |- _ => apply Z.eqb_neq in H
  | H : (_ <? _) = true |- _ => apply Z.ltb_lt in H
  | H : (_ <? _) = false |- _ => apply Z.ltb_ge in H
  | H : (_ <=? _) = true |- _ => apply Z.leb_le in H
  | H : (_ <=? _) = false |- _ => apply Z.leb_gt in H
  end.

Ltac crush_cases := repeat (case_step; simplify_eq/=); b2p; try done.
