(* ===== verification/PidHash.v ===== *)
(** * The pid hash table (include/linux/sched.h)

    [pidhash] is an array of [PIDHASH_SZ] chains of tasks, linked through
    [pidhash_next]; a chain is the list of its task pointers in link order.
    [pids] is the [pid] field of every task. *)
From stdpp Require Import base gmap list.
From S2P Require Import Prelude.

Abbreviation tid := Z (only parsing).

Definition PIDHASH_SZ : Z := Z.shiftr 4096 2.

Definition pid_hashfn (x : Z) : Z := Z.land (Z.lxor (Z.shiftr x 8) x) (PIDHASH_SZ - 1).

(** The chain headed by bucket [b]; a bucket never written is the NULL chain. *)
Definition chain (h : gmap Z (list tid)) (b : Z) : list tid := default [] (h !! b).

(** Push [p] at the head of the chain of its pid. *)
Definition hash_pid (pid : Z) (p : tid) (h : gmap Z (list tid)) : gmap Z (list tid) :=
  <[pid_hashfn pid := p :: chain h (pid_hashfn pid)]> h.

(** Unlink [p] from the chain it is on. *)
Definition unhash_pid (pid : Z) (p : tid) (h : gmap Z (list tid)) : gmap Z (list tid) :=
  <[pid_hashfn pid := filter (fun q => q <> p) (chain h (pid_hashfn pid))]> h.

(** The [for] loop of [find_task_by_pid]: the first task of the chain with that pid. *)
Fixpoint chain_find (pids : gmap tid Z) (pid : Z) (c : list tid) : option tid :=
  match c with
  | [] => None
  | p :: c' => if bool_decide (pids !! p = Some pid) then Some p else chain_find pids pid c'
  end.

Definition find_task_by_pid (pids : gmap tid Z) (h : gmap Z (list tid)) (pid : Z) : option tid :=
  chain_find pids pid (chain h (pid_hashfn pid)).

(** The table is well formed: every chained task has the pid its chain is for,
    and no two chained tasks share a pid. *)
Record pidhash_wf (pids : gmap tid Z) (h : gmap Z (list tid)) : Prop := PidhashWf {
  ph_chain : forall b p, p ∈ chain h b -> exists pid, pids !! p = Some pid /\ b = pid_hashfn pid;
  ph_unique : forall b b' p q pid, p ∈ chain h b -> q ∈ chain h b' ->
    pids !! p = Some pid -> pids !! q = Some pid -> p = q
}.

Definition hashed (h : gmap Z (list tid)) (p : tid) : Prop := exists b, p ∈ chain h b.

Lemma pid_hashfn_range x : 0 <= pid_hashfn x < PIDHASH_SZ.
Proof.
  unfold pid_hashfn. change (PIDHASH_SZ - 1) with (Z.ones 10).
  rewrite Z.land_ones by lia. apply Z.mod_pos_bound. reflexivity.
Qed.

Lemma chain_insert h b c b' :
  chain (<[b := c]> h) b' = if decide (b = b') then c else chain h b'.
Proof. unfold chain. rewrite lookup_insert. by case_decide. Qed.

Lemma chain_find_sound pids pid c p :
  chain_find pids pid c = Some p -> p ∈ c /\ pids !! p = Some pid.
Proof.
  induction c as [|q c IH]; simpl; [done|].
  case_bool_decide as E; [intros [= ->]|intros H; apply IH in H as [? ?]]; set_solver.
Qed.

Lemma chain_find_complete pids pid c p :
  p ∈ c -> pids !! p = Some pid -> is_Some (chain_find pids pid c).
Proof.
  induction c as [|q c IH]; simpl; [set_solver|].
  intros Hp Hpid. case_bool_decide; [by eexists|].
  apply elem_of_cons in Hp as [->|Hp]; [done|by apply IH].
Qed.

Section lookup.
Context (pids : gmap tid Z) (h : gmap Z (list tid)) (Hwf : pidhash_wf pids h).

(** A successful lookup returns a hashed task with the pid asked for. *)
Lemma find_task_sound pid p :
  find_task_by_pid pids h pid = Some p -> hashed h p /\ pids !! p = Some pid.
Proof using.
  intros H. apply chain_find_sound in H as [? ?]. split; [by eexists|done].
Qed.

(** Every hashed task is found by its pid. *)
Lemma find_task_complete pid p :
  hashed h p -> pids !! p = Some pid -> find_task_by_pid pids h pid = Some p.
Proof using Hwf.
  intros [b Hb] Hpid.
  destruct (ph_chain _ _ Hwf b p Hb) as (pid' & Hpid' & ->). simplify_eq.
  destruct (chain_find_complete pids pid _ p Hb Hpid) as [q Hq].
  unfold find_task_by_pid. rewrite Hq. f_equal.
  apply chain_find_sound in Hq as [Hq Hqpid].
  by apply (ph_unique _ _ Hwf _ _ _ _ pid Hq Hb).
Qed.

Lemma find_task_None pid :
  find_task_by_pid pids h pid = None -> forall p, hashed h p -> pids !! p <> Some pid.
Proof using Hwf.
  intros Hn p Hp Hpid. by rewrite (find_task_complete pid p Hp Hpid) in Hn.
Qed.
End lookup.

(** [hash_pid] of a task whose pid no hashed task has keeps the table well formed. *)
Lemma hash_pid_wf pids h pid p :
  pidhash_wf pids h -> pids !! p = Some pid ->
  find_task_by_pid pids h pid = None ->
  pidhash_wf pids (hash_pid pid p h).
Proof.
  intros Hwf Hp Hnone.
  assert (Hin : forall b q, q ∈ chain (hash_pid pid p h) b -> q = p /\ b = pid_hashfn pid \/ q ∈ chain h b).
  { intros b q. unfold hash_pid. rewrite chain_insert. case_decide; set_solver. }
  assert (Hno : forall b q, q ∈ chain h b -> pids !! q <> Some pid).
  { intros b q Hq. apply (find_task_None _ _ Hwf pid Hnone). by exists b. }
  split.
  - intros b q [[-> ->]|Hq]%Hin; [by eexists|by apply (ph_chain _ _ Hwf)].
  - intros b b' q q' pid' [[-> ->]|Hq]%Hin [[-> ->]|Hq']%Hin E E'; simplify_eq; [done| | |].
    + by destruct (Hno _ _ Hq').
    + by destruct (Hno _ _ Hq).
    + by apply (ph_unique _ _ Hwf _ _ _ _ pid' Hq Hq').
Qed.

Lemma unhash_pid_in pids h pid p :
  pidhash_wf pids h -> pids !! p = Some pid ->
  forall b q, q ∈ chain (unhash_pid pid p h) b <-> q ∈ chain h b /\ q <> p.
Proof.
  intros Hwf Hp b q. unfold unhash_pid. rewrite chain_insert. case_decide as E.
  - subst. rewrite list_elem_of_filter. tauto.
  - split; [|tauto]. intros Hq. split; [done|]. intros ->.
    destruct (ph_chain _ _ Hwf b p Hq) as (pid' & ? & ->). by simplify_eq.
Qed.

Lemma unhash_pid_wf pids h pid p :
  pidhash_wf pids h -> pids !! p = Some pid -> pidhash_wf pids (unhash_pid pid p h).
Proof.
  intros Hwf Hp. split.
  - intros b q Hq. apply (unhash_pid_in _ _ _ _ Hwf Hp) in Hq as [Hq _].
    by apply (ph_chain _ _ Hwf).
  - intros b b' q q' pid' Hq Hq'.
    apply (unhash_pid_in _ _ _ _ Hwf Hp) in Hq as [Hq _], Hq' as [Hq' _].
    by apply (ph_unique _ _ Hwf _ _ _ _ pid' Hq Hq').
Qed.

(** After [unhash_pid] the pid is free and every other task is still found. *)
Lemma find_unhash pids h pid p q qpid :
  pidhash_wf pids h -> hashed h p -> pids !! p = Some pid -> pids !! q = Some qpid ->
  find_task_by_pid pids (unhash_pid pid p h) qpid =
    if decide (qpid = pid) then None else find_task_by_pid pids h qpid.
Proof.
  intros Hwf [bp Hbp] Hp Hq.
  pose proof (unhash_pid_wf _ _ _ _ Hwf Hp) as Hwf'.
  pose proof (unhash_pid_in _ _ _ _ Hwf Hp) as Hin.
  destruct (find_task_by_pid pids (unhash_pid pid p h) qpid) as [r|] eqn:E.
  - apply find_task_sound in E as [[b Hb] Hr].
    apply Hin in Hb as [Hb Hne]. case_decide as D.
    + subst. destruct Hne. by apply (ph_unique _ _ Hwf _ _ _ _ pid Hb Hbp).
    + symmetry. apply find_task_complete; [done|by eexists|done].
  - case_decide as D; [done|].
    destruct (find_task_by_pid pids h qpid) as [r|] eqn:E'; [|done].
    apply find_task_sound in E' as [[b Hb] Hr].
    destruct (find_task_None _ _ Hwf' _ E r); [|done].
    exists b. apply Hin. split; [done|]. intros ->. by simplify_eq.
Qed.
