(* ===== verification/Slab.v ===== *)
(** * The general-purpose slab allocator as its callers see it (mm/slab.c)

    [kmalloc] picks the smallest general cache that holds the request and asks
    that cache for an object; [kfree] gives an object back.  Here
    [slab_alloc] stands for [__kmem_cache_alloc], and the class [SlabLaws] states
    what it promises to the callers; the caches themselves are modelled in
    [Cache], and [CacheTheorems.kmalloc_refines] proves that they keep these
    promises.  The heap holds the live objects, so that a use of a freed or wild pointer is visible
    as a failed lookup. *)
From stdpp Require Import base gmap list.
From S2P Require Import Prelude.

Record kheap (O : Type) := KHeap {
  objs : gmap Z O;      (** the live objects, by address *)
  epoch : nat           (** allocation attempts so far; the caches may depend on it *)
}.
Arguments KHeap {O}.
Arguments objs {O}.
Arguments epoch {O}.
#[export] Instance eta_kheap O : Eta (kheap O) := fun h => KHeap (objs h) (epoch h).

(** The object sizes of the general caches (PAGE_SIZE is 4096). *)
Definition cache_sizes : list Z :=
  [32; 64; 128; 256; 512; 1024; 2048; 4096; 8192; 16384; 32768; 65536; 131072].

(** The [for] loop of [kmalloc]: the first cache whose objects are large enough. *)
Fixpoint pick_cache (size : Z) (cs : list Z) : option Z :=
  match cs with
  | [] => None
  | c :: cs' => if c <? size then pick_cache size cs' else Some c
  end.

(** [slab_alloc h c] is [__kmem_cache_alloc] on the cache of object size [c]. *)
Class Slab (O : Type) := slab_alloc : kheap O -> Z -> option Z.

(** An object handed out is not NULL and is not live already. *)
Class SlabLaws (O : Type) `{Slab O} := {
  slab_nonnull : forall h c a, slab_alloc h c = Some a -> a <> 0;
  slab_fresh : forall h c a, slab_alloc h c = Some a -> objs h !! a = None
}.

Section slab.
Context {O : Type} `{Slab O}.

(** [kmalloc(size, flags)]: the address (0 is NULL) and the heap in which it
    holds [o], the initial content of the memory. *)
Definition kmalloc (size : Z) (o : O) (h : kheap O) : Z * kheap O :=
  match pick_cache size cache_sizes with
  | None => (0, h)
  | Some c =>
      match slab_alloc h c with
      | None => (0, h <| epoch ::= S |>)
      | Some a => (a, h <| epoch ::= S |> <| objs ::= <[a := o]> |>)
      end
  end.

(** [kfree(objp)]: freeing NULL does nothing; freeing what is not live is a
    memory error ([None]). *)
Definition kfree (a : Z) (h : kheap O) : option (kheap O) :=
  if a =? 0 then Some h
  else match objs h !! a with
  | None => None
  | Some _ => Some (h <| objs ::= delete a |>)
  end.

Context `{!SlabLaws O}.

(** Either the request failed and no object changed, or a fresh object was added. *)
Lemma kmalloc_cases size o h a h' :
  kmalloc size o h = (a, h') ->
  (a = 0 /\ objs h' = objs h) \/
  (a <> 0 /\ objs h !! a = None /\ objs h' = <[a := o]> (objs h)).
Proof.
  unfold kmalloc. intros E.
  crush_cases; first [by left | right; eauto using slab_nonnull, slab_fresh].
Qed.

Lemma kmalloc_too_big size o h : 131072 < size -> kmalloc size o h = (0, h).
Proof.
  intros Hs. unfold kmalloc.
  replace (pick_cache size cache_sizes) with (@None Z); [done|].
  unfold cache_sizes, pick_cache. repeat (rewrite (proj2 (Z.ltb_lt _ _)) by lia). done.
Qed.

Lemma kfree_live a o h :
  a <> 0 -> objs h !! a = Some o -> kfree a h = Some (h <| objs ::= delete a |>).
Proof. intros Ha Ho. unfold kfree. rewrite (proj2 (Z.eqb_neq _ _) Ha), Ho. done. Qed.
End slab.

(** An allocator that always succeeds, at the first address after every live object. *)
Definition bump_alloc {O} : Slab O := fun h _ =>
  Some (1 + map_fold (fun k _ m => Z.max k m) 0 (objs h)).

Lemma bump_bound {O} (m : gmap Z O) a o :
  m !! a = Some o -> a <= map_fold (fun k _ r => Z.max k r) 0 m.
Proof.
  revert a o. apply (map_fold_weak_ind (fun r m => forall a o, m !! a = Some o -> a <= r)).
  - intros a o. by rewrite lookup_empty.
  - intros i x m' r Hi IH a o. rewrite lookup_insert. case_decide; subst; [lia|].
    intros Ha. apply IH in Ha. lia.
Qed.

Lemma bump_nonneg {O} (m : gmap Z O) : 0 <= map_fold (fun k _ r => Z.max k r) 0 m.
Proof. apply (map_fold_weak_ind (fun r _ => 0 <= r)); [done|]. intros. lia. Qed.

#[export] Instance bump_laws {O} : @SlabLaws O bump_alloc.
Proof.
  split; unfold slab_alloc, bump_alloc; intros h c a [= <-].
  - pose proof (bump_nonneg (objs h)). lia.
  - destruct (objs h !! _) as [o|] eqn:E; [|done]. apply bump_bound in E. lia.
Qed.
