(* ===== verification/Pages.v ===== *)
(** * Blocks of pages, and what an allocator of pages promises

    A block is the number of its first page and its order.  The class [Pages] has the
    operations of a page allocator that the slab caches use, [PagesLaws] what they rely
    on; [AllocTheorems] proves it of the zones. *)
From stdpp Require Import base list.
From S2P Require Import Prelude.

Definition PAGE_SHIFT : Z := 12.
Definition PAGE_SIZE : Z := 4096.
Definition PAGE_OFFSET : Z := 3221225472.
Definition MAX_ORDER : Z := 10.

(** Allocation flags (include/linux/mm.h). *)
Definition __GFP_DMA : Z := 1.
Definition __GFP_HIGHMEM : Z := 2.
Definition __GFP_WAIT : Z := 16.
Definition __GFP_HIGH : Z := 32.
Definition __GFP_IO : Z := 64.
Definition __GFP_HIGHIO : Z := 128.
Definition __GFP_FS : Z := 256.
Definition GFP_ATOMIC : Z := __GFP_HIGH.
Definition GFP_KERNEL : Z := Z.lor __GFP_HIGH (Z.lor __GFP_WAIT (Z.lor __GFP_IO (Z.lor __GFP_HIGHIO __GFP_FS))).

(** The address of a page, and the page of an address. *)
Definition page_address (p : Z) : Z := PAGE_OFFSET + p * PAGE_SIZE.
Definition virt_to_page (addr : Z) : Z := (addr - PAGE_OFFSET) / PAGE_SIZE.

Definition ord (o : Z) : Prop := 0 <= o < MAX_ORDER.
Definition in_block (p o q : Z) : Prop := p <= q < p + 2 ^ o.
Definition disjoint_from (p o : Z) (l : list (Z * Z)) : Prop := forall p' o' q, (p', o') ∈ l -> in_block p o q -> in_block p' o' q -> False.
Fixpoint apart (l : list (Z * Z)) : Prop :=
  match l with [] => True | (p, o) :: l => disjoint_from p o l /\ apart l end.

Lemma apart_app l1 l2 : apart (l1 ++ l2) <-> apart l1 /\ apart l2 /\ forall p o, (p, o) ∈ l1 -> disjoint_from p o l2.
Proof.
  induction l1 as [|[p o] l1 IH]; simpl.
  - split; [intros ?; split_and!; [done|done|]|tauto]. intros p o ?%not_elem_of_nil. done.
  - rewrite IH. split.
    + intros [H1 (H2 & H3 & H4)]. split_and!; [|done|done|].
      * intros p' o' q Hin. apply H1. apply elem_of_app. by left.
      * intros p' o' [[= -> ->]|Hin]%elem_of_cons; [|by apply H4]. intros p'' o'' q Hin. apply H1. apply elem_of_app. by right.
    + intros ((H1 & H2) & H3 & H4). split_and!; [|done|done|].
      * intros p' o' q [Hin|Hin]%elem_of_app; [by apply H1|]. apply (H4 p o); [apply list_elem_of_here|done].
      * intros p' o' Hin. apply H4. apply elem_of_cons. by right.
Qed.

Lemma apart_perm l l' : l ≡ₚ l' -> apart l -> apart l'.
Proof.
  induction 1 as [|[p o] l l' P IH|[p o] [p' o'] l|l l' l'' _ IH1 _ IH2]; simpl.
  - done.
  - intros [H1 H2]. split; [|auto]. intros p' o' q Hin. apply H1. by rewrite P.
  - intros (H1 & H2 & H3). split_and!; [|intros p1 o1 q Hin; apply H1; apply elem_of_cons; by right|done].
    intros p1 o1 q [[= -> ->]|Hin]%elem_of_cons Hq Hq'; [|by apply (H2 p1 o1 q)]. apply (H1 p o q); [apply list_elem_of_here|done|done].
  - auto.
Qed.

Lemma page_of_address p d : 0 <= d < PAGE_SIZE -> virt_to_page (page_address p + d) = p.
Proof. intros. unfold virt_to_page, page_address, PAGE_SIZE in *. symmetry. apply (Z.div_unique_pos _ _ _ d); lia. Qed.

(** [get_pages] is __get_free_pages with flags and an order, [put_pages] is free_pages; [None]
    is [BUG()]. *)
Class Pages (A : Type) := {
  get_pages : Z -> Z -> A -> A * option Z;
  put_pages : Z -> Z -> A -> option A
}.

(** [holds l a]: the blocks of [l] are allocated.  They do not overlap; a block that is
    returned is added; an allocated block can be given back. *)
Class PagesLaws (A : Type) `{Pages A} := {
  holds : list (Z * Z) -> A -> Prop;
  holds_perm : forall l l' a, l ≡ₚ l' -> holds l a -> holds l' a;
  holds_apart : forall l a, holds l a -> apart l;
  holds_range : forall l a p o, holds l a -> (p, o) ∈ l -> 0 <= p;
  get_law : forall l a f o, holds l a -> ord o ->
    match get_pages f o a with (a', Some p) => holds ((p, o) :: l) a' | (a', None) => holds l a' end;
  put_law : forall l a p o, holds ((p, o) :: l) a -> exists a', put_pages p o a = Some a' /\ holds l a'
}.
