(* ===== verification/Policy.v ===== *)
(** * The process policy and its log (kernel/hw1_syscalls.c and its hooks)

    Each task has [policy_on], [policy_level] and a pointer [logArray] to a
    kmalloc'ed ring of denied calls.  System calls 243-246 switch the policy,
    set the level and read the log; [do_fork], [sys_wait4] and [sys_sched_yield]
    consult it on entry; [release_task] frees the log of a dead task and
    [do_fork] starts a child with the policy off.

    A result of [None] is a memory error: a use of a pointer that is not live,
    an access outside a block, or a read of memory never written. *)
From stdpp Require Import base gmap list option.
From S2P Require Import Prelude PidHash Slab.

Record forbidden_activity_info := Fai {
  syscall_req_level : Z;
  proc_level : Z;
  time : Z
}.

Record log_array := LogArray {
  indexWrite : Z;
  indexRead : Z;
  size : Z;
  full : Z;
  array : Z            (** address of the records *)
}.
#[export] Instance eta_log_array : Eta log_array :=
  fun l => LogArray (indexWrite l) (indexRead l) (size l) (full l) (array l).

(** What the policy keeps in kmalloc'ed memory: a ring descriptor, or a block of
    a number of bytes holding the records written to it so far. *)
Inductive kobj :=
  | OLog (l : log_array)
  | OArr (bytes : Z) (recs : gmap Z forbidden_activity_info).

(** sizeof on i386. *)
Definition SIZEOF_FAI : Z := 12.
Definition SIZEOF_LOG : Z := 20.

(** The fields of [struct task_struct] the policy uses. *)
Record ptask := PTask {
  pid : Z;
  policy_on : Z;       (** 0-off, 1-on *)
  policy_level : Z;    (** 0,1,2 *)
  logArray : Z         (** 0 is NULL *)
}.
#[export] Instance eta_ptask : Eta ptask :=
  fun p => PTask (pid p) (policy_on p) (policy_level p) (logArray p).

Record pstate := PState {
  tasks : gmap tid ptask;
  pidhash : gmap Z (list tid);
  heap : kheap kobj
}.
#[export] Instance eta_pstate : Eta pstate :=
  fun s => PState (tasks s) (pidhash s) (heap s).

Definition PASSWORD : Z := 234123.

(** ** Loads and stores *)

Definition load_log (a : Z) (h : kheap kobj) : option log_array :=
  match objs h !! a with Some (OLog l) => Some l | _ => None end.

Definition store_log (a : Z) (f : log_array -> log_array) (h : kheap kobj) : option (kheap kobj) :=
  l ← load_log a h; Some (h <| objs ::= <[a := OLog (f l)]> |>).

Definition in_block (bytes i : Z) : bool := (0 <=? i) && (SIZEOF_FAI * (i + 1) <=? bytes).

(** [a[i]] on a block of records. *)
Definition load_rec (a i : Z) (h : kheap kobj) : option forbidden_activity_info :=
  match objs h !! a with
  | Some (OArr bytes recs) => if in_block bytes i then recs !! i else None
  | _ => None
  end.

Definition store_rec (a i : Z) (r : forbidden_activity_info) (h : kheap kobj) : option (kheap kobj) :=
  match objs h !! a with
  | Some (OArr bytes recs) =>
      if in_block bytes i then Some (h <| objs ::= <[a := OArr bytes (<[i := r]> recs)]> |>) else None
  | _ => None
  end.

Definition set_task (t : tid) (p : ptask) (s : pstate) : pstate := s <| tasks ::= <[t := p]> |>.

(** [find_task_by_pid(pid)], with the fields of the task found. *)
Definition task_by_pid (s : pstate) (n : Z) : option (tid * ptask) :=
  t ← find_task_by_pid (pid <$> tasks s) (pidhash s) n;
  p ← tasks s !! t;
  Some (t, p).

(** [++i; if (i == size) i = 0;] *)
Definition ring_next (sz i : Z) : Z := if i + 1 =? sz then 0 else i + 1.

(** "adding log": one record at [indexWrite], then the index and [full]. *)
Definition log_forbidden (la req level jiffies : Z) (h : kheap kobj) : option (kheap kobj) :=
  l ← load_log la h;
  h1 ← store_rec (array l) (indexWrite l) (Fai req level jiffies) h;
  store_log la (fun l =>
    let l1 := l <| indexWrite := ring_next (size l) (indexWrite l) |> in
    if indexWrite l1 =? indexRead l1 then l1 <| full := 1 |> else l1) h1.

(** ** The hooks *)

(** A hook either lets the call go on ([None] as the verdict) or ends it with an
    error number. *)
Definition policy_hook (req : Z) (cur : tid) (jiffies : Z) (s : pstate) : option (pstate * option Z) :=
  p ← tasks s !! cur;
  if (policy_on p =? 1) && (policy_level p <? req) then
    h ← log_forbidden (logArray p) req (policy_level p) jiffies (heap s);
    Some (s <| heap := h |>, Some (- EINVAL))
  else Some (s, None).

Definition do_fork_hook := policy_hook 2.
Definition sys_wait4_hook := policy_hook 1.
Definition sys_sched_yield_hook := policy_hook 1.

(** [do_fork] after [*p = *current]: the child starts with the policy off. *)
Definition do_fork_reset (p : ptask) : ptask :=
  p <| policy_level := 2 |> <| policy_on := 0 |> <| logArray := 0 |>.

(** ** System calls 243-246 and the release of a task *)

Section syscalls.
Context `{Slab kobj}.
(** The content of a descriptor just allocated. *)
Context (uninit : log_array).
(** [copy_to_user(to, from, n)]: the number of bytes that could not be copied. *)
Context (copy_to_user : Z -> list forbidden_activity_info -> Z).

Definition sys_enable_policy (n sz password : Z) (s : pstate) : option (pstate * Z) :=
  match task_by_pid s n with
  | None => Some (s, - ESRCH)
  | Some (t, p) =>
      if negb (password =? PASSWORD) then Some (s, - EINVAL)
      else if policy_on p =? 1 then Some (s, - EINVAL)
      else if sz <? 0 then Some (s, - EINVAL)
      else
        let '(la, h1) := kmalloc SIZEOF_LOG (OLog uninit) (heap s) in
        let p1 := p <| logArray := la |> in
        if la =? 0 then Some (set_task t p1 (s <| heap := h1 |>), - ENOMEM)
        else
          let finish h :=
            h' ← store_log la (fun l => l <| indexRead := 0 |> <| indexWrite := 0 |>
                                          <| size := sz |> <| full := 0 |>) h;
            Some (set_task t (p1 <| policy_level := 2 |> <| policy_on := 1 |>)
                    (s <| heap := h' |>), 0) in
          if negb (sz =? 0) then
            let bytes := u32 (sz * SIZEOF_FAI) in
            let '(arr, h2) := kmalloc bytes (OArr bytes ∅) h1 in
            h3 ← store_log la (fun l => l <| array := arr |>) h2;
            if arr =? 0 then
              h4 ← kfree la h3;
              Some (set_task t p1 (s <| heap := h4 |>), - ENOMEM)
            else finish h3
          else finish h1
  end.

Definition sys_disable_policy (n password : Z) (s : pstate) : option (pstate * Z) :=
  match task_by_pid s n with
  | None => Some (s, - ESRCH)
  | Some (t, p) =>
      if policy_on p =? 0 then Some (s, - EINVAL)
      else if negb (password =? PASSWORD) then Some (s, - EINVAL)
      else
        let p1 := p <| policy_on := 0 |> <| policy_level := 2 |> in
        l ← load_log (logArray p) (heap s);
        h1 ← (if negb (size l =? 0) then kfree (array l) (heap s) else Some (heap s));
        h2 ← kfree (logArray p) h1;
        Some (set_task t p1 (s <| heap := h2 |>), 0)
  end.

Definition sys_set_process_capabilities (n new_level password : Z) (s : pstate)
  : option (pstate * Z) :=
  match task_by_pid s n with
  | None => Some (s, - ESRCH)
  | Some (t, p) =>
      if (2 <? new_level) || (new_level <? 0) then Some (s, - EINVAL)
      else if negb (password =? PASSWORD) then Some (s, - EINVAL)
      else if policy_on p =? 0 then Some (s, - EINVAL)
      else Some (set_task t (p <| policy_level := new_level |>) s, 0)
  end.

(** The tests that refuse a read of more records than the ring holds. *)
Definition too_few (l : log_array) (sz : Z) : bool :=
  if negb (full l =? 1) then
    if (indexWrite l =? indexRead l) && (0 <? sz) then true
    else if indexRead l <=? indexWrite l then indexWrite l - indexRead l <? sz
    else size l - indexRead l + indexWrite l <? sz
  else false.

(** The copy loop, [k] iterations from [tempArray[w]] on. *)
Fixpoint copy_records (k : nat) (w la tmp : Z) (h : kheap kobj) : option (kheap kobj) :=
  match k with
  | O => Some h
  | S k' =>
      l ← load_log la h;
      r ← load_rec (array l) (indexRead l) h;
      h1 ← store_rec tmp w r h;
      h2 ← store_log la (fun l => l <| indexRead := ring_next (size l) (indexRead l) |>) h1;
      copy_records k' (w + 1) la tmp h2
  end.

(** The bytes [copy_to_user] reads: the first [k] records of the block. *)
Fixpoint load_recs (k : nat) (a i : Z) (h : kheap kobj) : option (list forbidden_activity_info) :=
  match k with
  | O => Some []
  | S k' => r ← load_rec a i h; rs ← load_recs k' a (i + 1) h; Some (r :: rs)
  end.

(** The state, the return value, and the records that reached [user_mem]. *)
Definition sys_get_process_log (n sz user_mem : Z) (s : pstate)
  : option (pstate * Z * list forbidden_activity_info) :=
  match task_by_pid s n with
  | None => Some (s, - ESRCH, [])
  | Some (t, p) =>
      if policy_on p =? 0 then Some (s, - EINVAL, [])
      else
        l ← load_log (logArray p) (heap s);
        if (size l <? sz) || (sz <? 0) then Some (s, - EINVAL, [])
        else if too_few l sz then Some (s, - EINVAL, [])
        else
          let prev_indexRead := indexRead l in
          let bytes := u32 (sz * SIZEOF_FAI) in
          let '(tmp, h1) := kmalloc bytes (OArr bytes ∅) (heap s) in
          if tmp =? 0 then Some (s <| heap := h1 |>, - ENOMEM, [])
          else
            h2 ← copy_records (Z.to_nat sz) 0 (logArray p) tmp h1;
            out ← load_recs (Z.to_nat sz) tmp 0 h2;
            if negb (copy_to_user user_mem out =? 0) then
              h3 ← kfree tmp h2;
              h4 ← store_log (logArray p) (fun l => l <| indexRead := prev_indexRead |>) h3;
              Some (s <| heap := h4 |>, - ENOMEM, [])
            else
              h3 ← kfree tmp h2;
              h4 ← store_log (logArray p) (fun l => l <| full := 0 |>) h3;
              h5 ← (if sz =? size l
                  then store_log (logArray p)
                    (fun l => l <| indexWrite := 0 |> <| indexRead := 0 |>) h4
                  else Some h4);
              Some (s <| heap := h5 |>, 0, out)
  end.

(** *** The same two calls, cut where they can sleep

    [kmalloc] with [GFP_KERNEL] and [copy_to_user] may sleep, and no lock is
    held: the other tasks run, and the call then goes on with what it kept in its
    local variables.  A call that sleeps is a value of [pcall], and its target
    ([p], found before the first sleep) is given to the function that goes on.
    After a sleep the fields of the target are read again, as the code does:
    when the descriptor of the target is gone this is a memory error. *)

Inductive pcall :=
  | EnableLog (sz : Z)                      (** in [kmalloc(sizeof(struct log_array))] *)
  | EnableArr (sz : Z)                      (** in [kmalloc] of the records *)
  | GetTmp (sz user_mem prev_indexRead : Z) (** in [kmalloc] of [tempArray] *)
  | GetCopy (sz user_mem prev_indexRead tempArray : Z).  (** in [copy_to_user] *)

(** A call that goes on returns (a value, and the records that reached the user)
    or sleeps again. *)
Inductive call_outcome :=
  | Returned (r : Z) (out : list forbidden_activity_info)
  | Asleep (c : pcall).

(** [sys_enable_policy] up to its first [kmalloc]: it returns, or sleeps there
    with the target [t]. *)
Definition enable_begin (n sz password : Z) (s : pstate) : Z + tid * pcall :=
  match task_by_pid s n with
  | None => inl (- ESRCH)
  | Some (t, p) =>
      if negb (password =? PASSWORD) then inl (- EINVAL)
      else if policy_on p =? 1 then inl (- EINVAL)
      else if sz <? 0 then inl (- EINVAL)
      else inr (t, EnableLog sz)
  end.

(** [sys_enable_policy] after its last allocation. *)
Definition enable_finish (t : tid) (sz : Z) (s : pstate) : option (pstate * call_outcome) :=
  p ← tasks s !! t;
  h ← store_log (logArray p) (fun l => l <| indexRead := 0 |> <| indexWrite := 0 |>
                                <| size := sz |> <| full := 0 |>) (heap s);
  Some (set_task t (p <| policy_level := 2 |> <| policy_on := 1 |>) (s <| heap := h |>),
        Returned 0 []).

Definition enable_log_back (t : tid) (sz : Z) (s : pstate) : option (pstate * call_outcome) :=
  let '(la, h1) := kmalloc SIZEOF_LOG (OLog uninit) (heap s) in
  p ← tasks s !! t;
  let s1 := set_task t (p <| logArray := la |>) (s <| heap := h1 |>) in
  if la =? 0 then Some (s1, Returned (- ENOMEM) [])
  else if negb (sz =? 0) then Some (s1, Asleep (EnableArr sz))
  else enable_finish t sz s1.

Definition enable_arr_back (t : tid) (sz : Z) (s : pstate) : option (pstate * call_outcome) :=
  let bytes := u32 (sz * SIZEOF_FAI) in
  let '(arr, h1) := kmalloc bytes (OArr bytes ∅) (heap s) in
  p ← tasks s !! t;
  h2 ← store_log (logArray p) (fun l => l <| array := arr |>) h1;
  if arr =? 0 then
    h3 ← kfree (logArray p) h2;
    Some (s <| heap := h3 |>, Returned (- ENOMEM) [])
  else enable_finish t sz (s <| heap := h2 |>).

(** [sys_get_process_log] up to the [kmalloc] of [tempArray]. *)
Definition get_log_begin (n sz user_mem : Z) (s : pstate) : option (Z + tid * pcall) :=
  match task_by_pid s n with
  | None => Some (inl (- ESRCH))
  | Some (t, p) =>
      if policy_on p =? 0 then Some (inl (- EINVAL))
      else
        l ← load_log (logArray p) (heap s);
        if (size l <? sz) || (sz <? 0) then Some (inl (- EINVAL))
        else if too_few l sz then Some (inl (- EINVAL))
        else Some (inr (t, GetTmp sz user_mem (indexRead l)))
  end.

(** From there to [copy_to_user]: the copy loop. *)
Definition get_log_tmp_back (t : tid) (sz user_mem prev_indexRead : Z) (s : pstate)
  : option (pstate * call_outcome) :=
  let bytes := u32 (sz * SIZEOF_FAI) in
  let '(tmp, h1) := kmalloc bytes (OArr bytes ∅) (heap s) in
  if tmp =? 0 then Some (s <| heap := h1 |>, Returned (- ENOMEM) [])
  else
    p ← tasks s !! t;
    h2 ← copy_records (Z.to_nat sz) 0 (logArray p) tmp h1;
    Some (s <| heap := h2 |>, Asleep (GetCopy sz user_mem prev_indexRead tmp)).

(** From [copy_to_user], which has read [tempArray], to the end. *)
Definition get_log_copy_back (t : tid) (sz user_mem prev_indexRead tmp : Z) (s : pstate)
  : option (pstate * call_outcome) :=
  out ← load_recs (Z.to_nat sz) tmp 0 (heap s);
  h1 ← kfree tmp (heap s);
  p ← tasks s !! t;
  if negb (copy_to_user user_mem out =? 0) then
    h2 ← store_log (logArray p) (fun l => l <| indexRead := prev_indexRead |>) h1;
    Some (s <| heap := h2 |>, Returned (- ENOMEM) [])
  else
    h2 ← store_log (logArray p) (fun l => l <| full := 0 |>) h1;
    l ← load_log (logArray p) h2;
    h3 ← (if sz =? size l
          then store_log (logArray p) (fun l => l <| indexWrite := 0 |> <| indexRead := 0 |>) h2
          else Some h2);
    Some (s <| heap := h3 |>, Returned 0 out).

(** A sleeping call goes on. *)
Definition call_back (t : tid) (c : pcall) (s : pstate) : option (pstate * call_outcome) :=
  match c with
  | EnableLog sz => enable_log_back t sz s
  | EnableArr sz => enable_arr_back t sz s
  | GetTmp sz um prev => get_log_tmp_back t sz um prev s
  | GetCopy sz um prev tmp => get_log_copy_back t sz um prev tmp s
  end.

(** A call that is never kept waiting: it goes on at once after each sleep. *)
Fixpoint run_through (k : nat) (t : tid) (c : pcall) (s : pstate)
  : option (pstate * Z * list forbidden_activity_info) :=
  match k with
  | O => None
  | S k' =>
      '(s1, g) ← call_back t c s;
      match g with
      | Returned r out => Some (s1, r, out)
      | Asleep c' => run_through k' t c' s1
      end
  end.

(** What [release_task] does to a dead task here: it is unhashed, its log is
    freed if the policy is on, and its descriptor is freed. *)
Definition release_task_policy (t : tid) (s : pstate) : option pstate :=
  p ← tasks s !! t;
  let ph := unhash_pid (pid p) t (pidhash s) in
  h ← (if negb (policy_on p =? 0) then
      l ← load_log (logArray p) (heap s);
      h1 ← (if 0 <? size l then kfree (array l) (heap s) else Some (heap s));
      kfree (logArray p) h1
    else Some (heap s));
  Some (PState (delete t (tasks s)) ph h).
End syscalls.

(** What [do_fork] does here once the child has its pid: the child is a copy of
    the parent, reset, hashed under its own pid. *)
Definition do_fork_policy (cur child : tid) (newpid : Z) (s : pstate) : option pstate :=
  p ← tasks s !! cur;
  Some ((set_task child ((do_fork_reset p) <| pid := newpid |>) s)
        <| pidhash ::= hash_pid newpid child |>).
