(* ===== verification/PolicyProofs.v ===== *)
(** * The log as a queue

    The ring of one log: [log_at h la l rs] says that the descriptor at [la] is [l]
    and its ring holds the unread records [rs]; what a refused call and a read do
    to it, also when they overlap.  Then every outcome of [sys_get_process_log] on
    one task, and that a call that is not kept waiting at its sleeps is the call
    of the source. *)
From stdpp Require Import base gmap list option.
From S2P Require Import Prelude PidHash Slab Policy.

(** ** The ring *)

(** How many records a reader may take, and where the [k]-th of them is. *)
Definition count (l : log_array) : Z :=
  if full l =? 1 then size l else (indexWrite l - indexRead l) mod size l.
Definition slot (l : log_array) (k : Z) : Z := (indexRead l + k) mod size l.

(** Bounds of the descriptor fields. *)
Record ring_ok (l : log_array) : Prop := RingOk {
  ro_size : 0 < size l;
  ro_bytes : size l * SIZEOF_FAI < 2 ^ 32;
  ro_write : 0 <= indexWrite l < size l;
  ro_read : 0 <= indexRead l < size l;
  ro_full : full l = 0 \/ full l = 1
}.

(** The ring [l], whose records are in the block [recs], holds [rs]. *)
Record ring_holds (l : log_array) (recs : gmap Z forbidden_activity_info)
    (rs : list forbidden_activity_info) : Prop := RingHolds {
  rh_ok : ring_ok l;
  rh_count : Z.of_nat (length rs) = count l;
  rh_recs : forall k r, rs !! k = Some r -> recs !! slot l (Z.of_nat k) = Some r
}.

(** An empty log of size 0 has no block. *)
Definition empty_log (l : log_array) : Prop :=
  size l = 0 /\ indexWrite l = 0 /\ indexRead l = 0 /\ full l = 0.

(** The descriptor at [la] is [l] and its ring holds [rs]. *)
Definition log_at (h : kheap kobj) (la : Z) (l : log_array)
    (rs : list forbidden_activity_info) : Prop :=
  load_log la h = Some l /\
  (empty_log l /\ rs = [] \/
   exists recs, array l <> 0 /\
     objs h !! array l = Some (OArr (size l * SIZEOF_FAI) recs) /\ ring_holds l recs rs).

Lemma ring_next_mod sz i : 0 <= i < sz -> ring_next sz i = (i + 1) mod sz.
Proof.
  intros. unfold ring_next. rewrite mod_once by lia.
  destruct (Z.eqb_spec (i + 1) sz), (Z.ltb_spec (i + 1) sz); lia.
Qed.

Lemma ring_next_range sz i : 0 <= i < sz -> 0 <= ring_next sz i < sz.
Proof. intros. rewrite ring_next_mod by lia. apply Z.mod_pos_bound. lia. Qed.

Lemma slot_range l k : ring_ok l -> 0 <= slot l k < size l.
Proof. intros [? _ _ _ _]. apply Z.mod_pos_bound. lia. Qed.

Lemma in_block_slot l i : ring_ok l -> 0 <= i < size l -> in_block (size l * SIZEOF_FAI) i = true.
Proof. intros ? ?. unfold in_block, SIZEOF_FAI. apply andb_true_iff. lia. Qed.

Lemma count_range l : ring_ok l -> 0 <= count l <= size l.
Proof.
  intros [? ? ? ? ?]. unfold count. destruct (full l =? 1); [lia|].
  pose proof (Z.mod_pos_bound (indexWrite l - indexRead l) (size l)). lia.
Qed.

(** The guard of [sys_get_process_log] refuses exactly the reads of more than
    [count] records. *)
Lemma too_few_spec l n : ring_ok l -> 0 <= n <= size l ->
  too_few l n = (count l <? n).
Proof.
  intros [? ? ? ? ?] ?. unfold too_few, count.
  destruct (Z.eqb_spec (full l) 1); simpl; [lia|].
  rewrite mod_diff by lia.
  destruct (Z.ltb_spec (indexWrite l - indexRead l) 0), (Z.eqb_spec (indexWrite l) (indexRead l)),
    (Z.ltb_spec 0 n), (Z.leb_spec (indexRead l) (indexWrite l)); simpl; lia.
Qed.

Lemma slot_inj l j k : ring_ok l -> 0 <= j < size l -> 0 <= k < size l ->
  slot l j = slot l k -> j = k.
Proof.
  intros [? ? ? ? ?] ? ?. unfold slot. rewrite !mod_once by lia.
  destruct (Z.ltb_spec (indexRead l + j) (size l)), (Z.ltb_spec (indexRead l + k) (size l)); lia.
Qed.

(** The descriptor after one record was added. *)
Definition pushed (l : log_array) : log_array :=
  let l1 := l <| indexWrite := ring_next (size l) (indexWrite l) |> in
  if indexWrite l1 =? indexRead l1 then l1 <| full := 1 |> else l1.

Lemma pushed_fields l :
  size (pushed l) = size l /\ array (pushed l) = array l /\ indexRead (pushed l) = indexRead l /\
  indexWrite (pushed l) = ring_next (size l) (indexWrite l) /\
  full (pushed l) = if ring_next (size l) (indexWrite l) =? indexRead l then 1 else full l.
Proof. unfold pushed; simpl. by destruct (_ =? _). Qed.

Lemma pushed_ok l : ring_ok l -> ring_ok (pushed l).
Proof.
  intros [? ? ? ? ?]. destruct (pushed_fields l) as (E1 & E2 & E3 & E4 & E5).
  pose proof (ring_next_range (size l) (indexWrite l)).
  split; rewrite ?E1, ?E3, ?E4, ?E5; try lia. destruct (_ =? _); auto.
Qed.

(** Position, among the unread records, of the slot the next record goes to. *)
Definition write_pos (l : log_array) : Z := (indexWrite l - indexRead l) mod size l.

Lemma slot_write_pos l : ring_ok l -> slot l (write_pos l) = indexWrite l.
Proof.
  intros [? ? ? ? ?]. unfold slot, write_pos. rewrite Zplus_mod_idemp_r.
  replace (indexRead l + (indexWrite l - indexRead l)) with (indexWrite l) by lia.
  by apply Z.mod_small.
Qed.

Lemma count_pushed l : ring_ok l ->
  count (pushed l) = if full l =? 1 then size l else count l + 1.
Proof.
  intros [? ? ? ? ?]. destruct (pushed_fields l) as (E1 & E2 & E3 & E4 & E5).
  unfold count. rewrite E1, E3, E4, E5. unfold ring_next.
  destruct (Z.eqb_spec (indexWrite l + 1) (size l)) as [F|F].
  - destruct (Z.eqb_spec 0 (indexRead l)); simpl.
    + destruct (Z.eqb_spec (full l) 1); [done|]. rewrite mod_diff by lia.
      destruct (Z.ltb_spec (indexWrite l - indexRead l) 0); lia.
    + destruct (Z.eqb_spec (full l) 1); [done|]. rewrite !mod_diff by lia.
      destruct (Z.ltb_spec (indexWrite l - indexRead l) 0), (Z.ltb_spec (0 - indexRead l) 0); lia.
  - destruct (Z.eqb_spec (indexWrite l + 1) (indexRead l)); simpl.
    + destruct (Z.eqb_spec (full l) 1); [done|]. rewrite mod_diff by lia.
      destruct (Z.ltb_spec (indexWrite l - indexRead l) 0); lia.
    + destruct (Z.eqb_spec (full l) 1); [done|]. rewrite !mod_diff by lia.
      destruct (Z.ltb_spec (indexWrite l - indexRead l) 0),
        (Z.ltb_spec (indexWrite l + 1 - indexRead l) 0); lia.
Qed.

(** What the ring holds after one record was added: the record is last when
    there was room; otherwise it takes the place of the record at [write_pos]. *)
Definition push_records (l : log_array) (r : forbidden_activity_info)
    (rs : list forbidden_activity_info) : list forbidden_activity_info :=
  if full l =? 1 then <[Z.to_nat (write_pos l) := r]> rs else rs ++ [r].

Lemma ring_push l recs rs r :
  ring_holds l recs rs ->
  ring_holds (pushed l) (<[indexWrite l := r]> recs) (push_records l r rs).
Proof.
  intros [Hok Hc Hr]. pose proof (slot_write_pos l Hok) as Hw.
  pose proof (count_pushed l Hok) as Hcp. pose proof (count_range l Hok) as Hcr.
  pose proof (Z.mod_pos_bound (indexWrite l - indexRead l) (size l) (ro_size _ Hok)) as Hp.
  fold (write_pos l) in Hp.
  assert (Hslot : forall k, slot (pushed l) k = slot l k).
  { intros k. destruct (pushed_fields l) as (E1 & _ & E3 & _). unfold slot. by rewrite E1, E3. }
  split; [by apply pushed_ok|..]; unfold push_records.
  - rewrite Hcp. destruct (full l =? 1) eqn:F; [|rewrite length_app; simpl; lia].
    rewrite length_insert, Hc. unfold count. by rewrite F.
  - intros k x. rewrite Hslot, lookup_insert.
    destruct (full l =? 1) eqn:F.
    + unfold count in Hc. rewrite F in Hc. intros Hk.
      assert (k < length rs)%nat by (apply lookup_lt_Some in Hk; by rewrite length_insert in Hk).
      rewrite list_lookup_insert in Hk. case_decide as D; case_decide as E.
      * destruct D as [<- _]. by simplify_eq.
      * destruct D as [<- _]. rewrite Z2Nat.id, Hw in E by lia. done.
      * destruct D. rewrite <- Hw in E. apply slot_inj in E; [lia|done|lia|lia].
      * by apply Hr.
    + assert (Hcl : count l = write_pos l) by (unfold count; by rewrite F).
      intros Hk. case_decide as E.
      * rewrite <- Hw in E. pose proof (lookup_lt_Some _ _ _ Hk) as Hlt.
        rewrite length_app in Hlt; simpl in Hlt. apply slot_inj in E; [|done|lia|lia].
        replace k with (length rs) in Hk by lia.
        rewrite lookup_app_r, Nat.sub_diag in Hk by lia. by simplify_eq/=.
      * apply Hr. rewrite lookup_app_Some in Hk. destruct Hk as [?|[? Hk]]; [done|].
        destruct E. rewrite <- Hw. f_equal.
        apply list_lookup_singleton_Some in Hk as [? _]. lia.
Qed.

(** The descriptor after [n] records were read. *)
Definition consumed (l : log_array) (n : Z) : log_array :=
  let l1 := l <| indexRead := slot l n |> <| full := 0 |> in
  if n =? size l then l1 <| indexWrite := 0 |> <| indexRead := 0 |> else l1.

Lemma consumed_fields l n : size (consumed l n) = size l /\ array (consumed l n) = array l.
Proof. unfold consumed. by destruct (_ =? _). Qed.

Lemma consumed_ok l n : ring_ok l -> ring_ok (consumed l n).
Proof.
  intros Hok. pose proof (slot_range l n Hok). destruct Hok.
  unfold consumed. destruct (_ =? _); split; simpl; auto; lia.
Qed.

Lemma count_consumed l n : ring_ok l -> 0 <= n <= count l ->
  (full l = 1 -> indexWrite l = indexRead l /\ 0 < n) ->
  count (consumed l n) = count l - n.
Proof.
  intros Hok Hn Hf. pose proof (count_range l Hok) as Hcr.
  destruct Hok as [Hs ? ? ? ?]. unfold consumed. destruct (Z.eqb_spec n (size l)) as [->|].
  { unfold count at 1. simpl. rewrite Z.mod_0_l by lia. lia. }
  unfold count at 1. simpl. unfold slot. rewrite Zminus_mod_idemp_r.
  unfold count in *. destruct (Z.eqb_spec (full l) 1) as [F|F].
  - destruct (Hf F) as [-> ?]. rewrite mod_diff by lia.
    destruct (Z.ltb_spec (indexRead l - (indexRead l + n)) 0); lia.
  - replace (indexWrite l - (indexRead l + n)) with (indexWrite l - indexRead l - n) by lia.
    rewrite <- Zminus_mod_idemp_l. apply Z.mod_small.
    pose proof (Z.mod_pos_bound (indexWrite l - indexRead l) (size l)). lia.
Qed.

Lemma slot_consumed l n k : ring_ok l -> n <> size l ->
  slot (consumed l n) k = slot l (n + k).
Proof.
  intros [? ? ? ? ?] Hn. unfold consumed. rewrite (proj2 (Z.eqb_neq _ _) Hn).
  unfold slot. simpl. rewrite Zplus_mod_idemp_l. f_equal. lia.
Qed.

(** Reading [n] records of a ring that was not overrun removes the [n] oldest. *)
Lemma ring_consume l recs rs n :
  ring_holds l recs rs -> 0 <= n <= count l ->
  (full l = 1 -> indexWrite l = indexRead l /\ 0 < n) ->
  ring_holds (consumed l n) recs (drop (Z.to_nat n) rs).
Proof.
  intros [Hok Hc Hr] Hn Hf. split; [by apply consumed_ok|..].
  - rewrite length_drop, count_consumed by done. lia.
  - intros k r. rewrite lookup_drop. intros Hk. pose proof (lookup_lt_Some _ _ _ Hk).
    pose proof (count_range l Hok).
    rewrite slot_consumed by (done || lia).
    replace (n + Z.of_nat k) with (Z.of_nat (Z.to_nat n + k)) by lia. by apply Hr.
Qed.

(** The [k] records from a position on, if all of them were written. *)
Lemma window_exists (recs : gmap Z forbidden_activity_info) (f : nat -> Z) k :
  (forall j, (j < k)%nat -> is_Some (recs !! f j)) ->
  exists rs, length rs = k /\ forall j r, rs !! j = Some r -> recs !! f j = Some r.
Proof.
  induction k as [|k IH]; intros Hall; [by exists []|].
  destruct IH as (rs & Hl & Hrs); [intros; apply Hall; lia|].
  destruct (Hall k) as [r Hr]; [lia|]. exists (rs ++ [r]). split; [rewrite length_app; simpl; lia|].
  intros j x. rewrite lookup_app_Some. intros [?|[? Hx]]; [by apply Hrs|].
  apply list_lookup_singleton_Some in Hx as [? <-]. by replace j with k by lia.
Qed.

(** A full ring has every slot written. *)
Lemma full_all_written l recs rs i :
  ring_holds l recs rs -> full l = 1 -> 0 <= i < size l -> is_Some (recs !! i).
Proof.
  intros [Hok Hc Hr] F Hi. unfold count in Hc. rewrite F in Hc. simpl in Hc.
  destruct Hok as [? ? ? ? ?]. set (k := (i - indexRead l) mod size l).
  pose proof (Z.mod_pos_bound (i - indexRead l) (size l)).
  destruct (lookup_lt_is_Some_2 rs (Z.to_nat k)) as [r Hk]; [lia|].
  exists r. rewrite <- (Hr _ _ Hk). f_equal. unfold slot. rewrite Z2Nat.id by lia.
  unfold k. rewrite Zplus_mod_idemp_r.
  replace (indexRead l + (i - indexRead l)) with i by lia. by rewrite Z.mod_small.
Qed.

(** Whatever was overrun, a read leaves a ring whose records were all written. *)
Lemma ring_consume_safe l recs rs n :
  ring_holds l recs rs -> 0 <= n <= count l ->
  exists rs', ring_holds (consumed l n) recs rs'.
Proof.
  intros Hh Hn. pose proof Hh as [Hok Hc Hr].
  destruct (Z.eq_dec (full l) 1) as [F|F].
  - pose proof (consumed_ok l n Hok) as Hok'.
    pose proof (count_range _ Hok') as Hcr. destruct (consumed_fields l n) as [Es _].
    destruct (window_exists recs (fun j => slot (consumed l n) (Z.of_nat j))
                (Z.to_nat (count (consumed l n)))) as (rs' & Hl & Hrs').
    { intros j _. eapply full_all_written; [done..|].
      pose proof (slot_range _ (Z.of_nat j) Hok') as Hs. by rewrite Es in Hs. }
    exists rs'. split; [done|lia|done].
  - eexists. apply ring_consume; [done..|]. intros; lia.
Qed.

(** A ring all of whose readable slots were written holds some records. *)
Lemma ring_written l recs : ring_ok l ->
  (forall k, 0 <= k < count l -> is_Some (recs !! slot l k)) -> exists rs, ring_holds l recs rs.
Proof.
  intros Hok Hall. pose proof (count_range l Hok).
  destruct (window_exists recs (fun j => slot l (Z.of_nat j)) (Z.to_nat (count l)))
    as (rs & Hl & Hrs); [intros; apply Hall; lia|].
  exists rs. split; [done|lia|done].
Qed.

Lemma ring_holds_slot l recs rs k : ring_holds l recs rs -> 0 <= k < count l ->
  is_Some (recs !! slot l k).
Proof.
  intros [_ Hc Hr] Hk. destruct (lookup_lt_is_Some_2 rs (Z.to_nat k)) as [r Hrk]; [lia|].
  exists r. rewrite <- (Hr _ _ Hrk). by rewrite Z2Nat.id by lia.
Qed.

(** Moving [indexRead] over [n] records, and clearing [full], leave a ring whose
    records were all written. *)
Lemma ring_advance l recs rs n : ring_holds l recs rs -> 0 <= n <= count l ->
  exists rs', ring_holds (l <| indexRead := slot l n |>) recs rs'.
Proof.
  intros Hh Hn. pose proof (rh_ok _ _ _ Hh) as Hok. pose proof (slot_range l n Hok) as Hs.
  pose proof Hok as [Hsz ? ? ? ?].
  apply ring_written; [by split|]. intros k Hk. unfold slot at 1. simpl.
  destruct (Z.eq_dec (full l) 1) as [F|F].
  { eapply full_all_written; [done..|]. by apply Z.mod_pos_bound. }
  unfold slot. rewrite Zplus_mod_idemp_l.
  replace (indexRead l + n + k) with (indexRead l + (n + k)) by lia.
  apply (ring_holds_slot l recs rs); [done|]. revert Hn Hk. unfold count. simpl.
  rewrite (proj2 (Z.eqb_neq _ _) F). unfold slot. rewrite Zminus_mod_idemp_r.
  replace (indexWrite l - (indexRead l + n)) with (indexWrite l - indexRead l - n) by lia.
  rewrite <- (Zminus_mod_idemp_l (indexWrite l - indexRead l) n). intros Hn.
  pose proof (Z.mod_pos_bound (indexWrite l - indexRead l) (size l) Hsz).
  rewrite (Z.mod_small (_ - n)) by lia. lia.
Qed.

Lemma ring_unfull l recs rs : ring_holds l recs rs ->
  exists rs', ring_holds (l <| full := 0 |>) recs rs'.
Proof.
  intros Hh. pose proof (rh_ok _ _ _ Hh) as Hok. pose proof Hok as [? ? ? ? ?].
  apply ring_written; [by split; simpl; auto|]. intros k Hk. change (is_Some (recs !! slot l k)).
  destruct (Z.eq_dec (full l) 1) as [F|F].
  - eapply full_all_written; [done..|]. by apply slot_range.
  - apply (ring_holds_slot l recs rs); [done|]. revert Hk. unfold count. simpl.
    by rewrite (proj2 (Z.eqb_neq _ _) F).
Qed.

(** While [indexRead] is ahead, the ring seen from where it was keeps being
    readable when a record is added. *)
Lemma ring_push_back l recs rs rs1 i r :
  ring_holds l recs rs -> ring_holds (l <| indexRead := i |>) recs rs1 ->
  exists rs', ring_holds ((pushed l) <| indexRead := i |>) (<[indexWrite l := r]> recs) rs'.
Proof.
  intros Hh Hb. pose proof (rh_ok _ _ _ Hb) as Hok1. pose proof (slot_write_pos _ Hok1) as Hw.
  pose proof (pushed_ok l (rh_ok _ _ _ Hh)) as [? ? ? _ ?]. pose proof Hok1 as [Hs _ Hiw Hi _].
  simpl in Hi, Hs, Hiw.
  destruct (pushed_fields l) as (E1 & _ & _ & E4 & E5).
  apply ring_written; [split; simpl; try done; by rewrite E1|]. intros k Hk.
  assert (Hsl : slot ((pushed l) <| indexRead := i |>) k = slot (l <| indexRead := i |>) k)
    by (unfold slot; simpl; by rewrite E1).
  destruct (Z.eq_dec (full (pushed l)) 1) as [F|F].
  { eapply full_all_written; [by apply ring_push, Hh|done|]. rewrite Hsl, E1.
    exact (slot_range _ k Hok1). }
  rewrite Hsl, lookup_insert. case_decide as D; [by eexists|].
  apply (ring_holds_slot _ _ _ k Hb). simpl in Hw.
  assert (Hkw : k <> write_pos (l <| indexRead := i |>)) by (intros ->; by apply D).
  assert (Hfl : full l <> 1) by (intros E; rewrite E5, E in F; by destruct (_ =? _) in F).
  revert Hk Hkw. unfold count, write_pos. simpl.
  rewrite (proj2 (Z.eqb_neq _ _) F), (proj2 (Z.eqb_neq _ _) Hfl), E1, E4.
  rewrite ring_next_mod, Zminus_mod_idemp_l by done.
  replace (indexWrite l + 1 - i) with (indexWrite l - i + 1) by lia.
  rewrite <- Zplus_mod_idemp_l. pose proof (Z.mod_pos_bound (indexWrite l - i) (size l) Hs).
  rewrite mod_once by lia. destruct (Z.ltb_spec ((indexWrite l - i) mod size l + 1) (size l)); lia.
Qed.

(** ** The ring in memory *)

(** [h'] differs from [h] at most at the addresses of [A]. *)
Definition same_except (A : gset Z) (h h' : kheap kobj) : Prop :=
  forall a, a ∉ A -> objs h' !! a = objs h !! a.

Lemma load_log_Some a h l : load_log a h = Some l <-> objs h !! a = Some (OLog l).
Proof. unfold load_log. split; [by intros; crush_cases|by intros ->]. Qed.

Lemma store_log_eq a f h l : load_log a h = Some l ->
  store_log a f h = Some (h <| objs ::= <[a := OLog (f l)]> |>).
Proof. intros H. unfold store_log. by rewrite H. Qed.

Lemma log_at_distinct h la l rs : log_at h la l rs -> 0 < size l -> la <> array l.
Proof.
  intros [Hl%load_log_Some [[[? _] _]|(recs & _ & Ha & _)]] ? ->; [lia|by simplify_eq].
Qed.

(** A denied call on a log of size at least 1 is recorded; only the log changes. *)
Lemma log_forbidden_spec h la l rs req lev j :
  log_at h la l rs -> 0 < size l ->
  exists h', log_forbidden la req lev j h = Some h' /\
    log_at h' la (pushed l) (push_records l (Fai req lev j) rs) /\
    same_except {[la; array l]} h h' /\ is_Some (objs h' !! array l) /\
    forall recs, objs h !! array l = Some (OArr (size l * SIZEOF_FAI) recs) ->
      objs h' !! array l = Some (OArr (size l * SIZEOF_FAI) (<[indexWrite l := Fai req lev j]> recs)).
Proof.
  intros Hat Hs. pose proof (log_at_distinct _ _ _ _ Hat Hs) as Hne.
  destruct Hat as [Hl [[[? _] _]|(recs & Hnz & Ha & Hh)]]; [lia|].
  pose proof (rh_ok _ _ _ Hh) as Hok.
  unfold log_forbidden. rewrite Hl. simpl. unfold store_rec.
  rewrite Ha, (in_block_slot l _ Hok (ro_write _ Hok)). simpl.
  erewrite store_log_eq; [|apply load_log_Some; simpl; rewrite lookup_insert_ne by done;
    by apply load_log_Some].
  eexists. split; [done|].
  destruct (pushed_fields l) as (E1 & E2 & _).
  split; [split|split; [|split]].
  - apply load_log_Some. simpl. by rewrite lookup_insert_eq.
  - right. exists (<[indexWrite l := Fai req lev j]> recs). rewrite E1, E2. simpl.
    rewrite lookup_insert_ne, lookup_insert_eq by done. auto using ring_push.
  - intros a Ha'. simpl. rewrite !lookup_insert_ne by set_solver. done.
  - simpl. rewrite lookup_insert_ne, lookup_insert_eq by done. eauto.
  - intros recs' Hr. simplify_eq. simpl. by rewrite lookup_insert_ne, lookup_insert_eq by done.
Qed.

Lemma indexRead_id l : l <| indexRead := indexRead l |> = l.
Proof. by destruct l. Qed.

Lemma slot_0 l : ring_ok l -> slot l 0 = indexRead l.
Proof. intros [? ? ? ? ?]. unfold slot. rewrite Z.add_0_r. by apply Z.mod_small. Qed.

Lemma slot_step l k : ring_ok l ->
  slot (l <| indexRead := ring_next (size l) (indexRead l) |>) k = slot l (k + 1).
Proof.
  intros [? ? ? ? ?]. unfold slot. simpl. rewrite ring_next_mod, Zplus_mod_idemp_l by done.
  f_equal. lia.
Qed.

Lemma ring_ok_read l i : ring_ok l -> 0 <= i < size l -> ring_ok (l <| indexRead := i |>).
Proof. intros [? ? ? ? ?] ?. by split. Qed.

(** The copy loop moves the [length rs] oldest records to [tempArray] and
    advances [indexRead]; nothing else changes. *)
Lemma copy_records_spec (rs : list forbidden_activity_info) : forall w la tmp h l recs bytes tr,
  load_log la h = Some l -> ring_ok l -> la <> array l -> tmp <> la -> tmp <> array l ->
  objs h !! array l = Some (OArr (size l * SIZEOF_FAI) recs) ->
  objs h !! tmp = Some (OArr bytes tr) ->
  (forall j r, rs !! j = Some r -> recs !! slot l (Z.of_nat j) = Some r) ->
  0 <= w -> SIZEOF_FAI * (w + Z.of_nat (length rs)) <= bytes ->
  exists h' tr', copy_records (length rs) w la tmp h = Some h' /\
    objs h' = <[tmp := OArr bytes tr']>
      (<[la := OLog (l <| indexRead := slot l (Z.of_nat (length rs)) |>)]> (objs h)) /\
    (forall j r, rs !! j = Some r -> tr' !! (w + Z.of_nat j) = Some r) /\
    (forall i, i < w -> tr' !! i = tr !! i).
Proof.
  induction rs as [|r rs IH]; intros w la tmp h l recs bytes tr Hl Hok Hne1 Hne2 Hne3 Ha Ht Hrs Hw Hb.
  - exists h, tr. change (Z.of_nat (length [])) with 0. rewrite slot_0, indexRead_id by done.
    rewrite insert_id; [|rewrite lookup_insert_ne by done; done].
    rewrite insert_id by by apply load_log_Some. split_and!; done.
  - pose proof (Hrs 0%nat r eq_refl) as Hr0. simpl in Hr0. rewrite slot_0 in Hr0 by done.
    simpl length in Hb. unfold SIZEOF_FAI in Hb.
    set (l' := l <| indexRead := ring_next (size l) (indexRead l) |>).
    set (h2 := h <| objs ::= <[tmp := OArr bytes (<[w := r]> tr)]> |>
                 <| objs ::= <[la := OLog l']> |>).
    destruct (IH (w + 1) la tmp h2 l' recs bytes (<[w := r]> tr)) as (h' & tr' & Hc & Ho & Hj & Hi).
    + apply load_log_Some. simpl. by rewrite lookup_insert_eq.
    + apply ring_ok_read; [done|]. apply ring_next_range, Hok.
    + done.
    + done.
    + done.
    + simpl. rewrite !lookup_insert_ne by done. done.
    + simpl. rewrite lookup_insert_ne, lookup_insert_eq by done. done.
    + intros j x Hx. unfold l'. rewrite slot_step by done.
      replace (Z.of_nat j + 1) with (Z.of_nat (S j)) by lia. by apply Hrs.
    + lia.
    + unfold SIZEOF_FAI. lia.
    + exists h', tr'. split_and!.
      * simpl. rewrite Hl. simpl. unfold load_rec.
        rewrite Ha, (in_block_slot l _ Hok (ro_read _ Hok)), Hr0. simpl.
        unfold store_rec. rewrite Ht.
        replace (in_block bytes w) with true
          by (symmetry; unfold in_block, SIZEOF_FAI; apply andb_true_iff; lia). simpl.
        erewrite store_log_eq; [exact Hc|].
        apply load_log_Some. simpl. rewrite lookup_insert_ne by done. by apply load_log_Some.
      * rewrite Ho.
        change (objs h2) with (<[la := OLog l']> (<[tmp := OArr bytes (<[w := r]> tr)]> (objs h))).
        rewrite (slot_step l (Z.of_nat (length rs)) Hok : slot l' _ = _).
        replace (Z.of_nat (length (r :: rs))) with (Z.of_nat (length rs) + 1) by (simpl; lia).
        rewrite insert_insert_eq, (insert_insert_ne _ la tmp), insert_insert_eq by done.
        reflexivity.
      * intros [|j] x Hx; simpl in Hx.
        -- simplify_eq. rewrite Z.add_0_r, Hi by lia. by rewrite lookup_insert_eq.
        -- replace (w + Z.of_nat (S j)) with (w + 1 + Z.of_nat j) by lia. by apply Hj.
      * intros i ?. rewrite Hi by lia. by rewrite lookup_insert_ne by lia.
Qed.

Lemma load_recs_spec (rs : list forbidden_activity_info) : forall a i h bytes tr,
  objs h !! a = Some (OArr bytes tr) -> 0 <= i -> SIZEOF_FAI * (i + Z.of_nat (length rs)) <= bytes ->
  (forall j r, rs !! j = Some r -> tr !! (i + Z.of_nat j) = Some r) ->
  load_recs (length rs) a i h = Some rs.
Proof.
  induction rs as [|r rs IH]; intros a i h bytes tr Ha Hi Hb Hrs; [done|].
  simpl length in Hb. unfold SIZEOF_FAI in Hb. simpl. unfold load_rec. rewrite Ha.
  replace (in_block bytes i) with true
    by (symmetry; unfold in_block, SIZEOF_FAI; apply andb_true_iff; lia).
  pose proof (Hrs 0%nat r eq_refl) as H0. simpl in H0. rewrite Z.add_0_r in H0. rewrite H0. simpl.
  rewrite (IH a (i + 1) h bytes tr); [done..|lia|unfold SIZEOF_FAI; lia|].
  intros j x Hx. replace (i + 1 + Z.of_nat j) with (i + Z.of_nat (S j)) by lia. by apply Hrs.
Qed.

(** ** The calls on one task *)

Lemma count_empty l : empty_log l -> count l = 0.
Proof. intros (E1 & E2 & E3 & E4). unfold count. by rewrite E1, E2, E3, E4. Qed.

Lemma log_at_count h la l rs : log_at h la l rs -> Z.of_nat (length rs) = count l.
Proof.
  intros [_ [[He ->]|(recs & _ & _ & Hh)]]; [by rewrite count_empty|by apply Hh].
Qed.

Lemma log_at_size h la l rs :
  log_at h la l rs -> 0 <= count l <= size l /\ size l * SIZEOF_FAI < 2 ^ 32.
Proof.
  intros [_ [[He ->]|(recs & _ & _ & [Hok _ _])]].
  - rewrite count_empty by done. destruct He as [-> _]. done.
  - split; [by apply count_range|apply Hok].
Qed.

(** The size tests of [sys_get_process_log] accept exactly [0 <= n <= count]. *)
Lemma read_guard_spec h la l rs n : log_at h la l rs ->
  ((size l <? n) || (n <? 0)) || too_few l n = negb ((0 <=? n) && (n <=? count l)).
Proof.
  intros Hat. pose proof (log_at_size _ _ _ _ Hat) as [Hc _].
  destruct (Z.ltb_spec (size l) n), (Z.ltb_spec n 0), (Z.leb_spec 0 n), (Z.leb_spec n (count l));
    simpl; try lia.
  - destruct Hat as [_ [[He _]|(recs & _ & _ & Hh)]].
    + pose proof (count_empty _ He). destruct He as (E1 & E2 & E3 & E4).
      unfold too_few. rewrite E1, E2, E3, E4. replace n with 0 by lia. done.
    + rewrite too_few_spec by (apply Hh || lia). lia.
  - destruct Hat as [_ [[He _]|(recs & _ & _ & Hh)]].
    + pose proof (count_empty _ He). destruct He as (E1 & _). lia.
    + rewrite too_few_spec by (apply Hh || lia). lia.
Qed.

Lemma slot_empty l : empty_log l -> l <| indexRead := slot l 0 |> = l.
Proof. destruct l. unfold empty_log, slot. simpl. intros (-> & -> & -> & ->). done. Qed.

(** Copying [n] records out through a temporary block and freeing the block. *)
Lemma copy_free_spec h la l rs n tmp h1 :
  log_at h la l rs -> 0 <= n <= count l ->
  tmp <> 0 -> objs h !! tmp = None ->
  objs h1 = <[tmp := OArr (n * SIZEOF_FAI) ∅]> (objs h) ->
  exists h2 h3, copy_records (Z.to_nat n) 0 la tmp h1 = Some h2 /\
    load_recs (Z.to_nat n) tmp 0 h2 = Some (take (Z.to_nat n) rs) /\
    kfree tmp h2 = Some h3 /\
    objs h3 = <[la := OLog (l <| indexRead := slot l n |>)]> (objs h).
Proof.
  intros Hat Hn Hnz Hfr Ho1. pose proof (log_at_count _ _ _ _ Hat) as Hc.
  destruct Hat as [Hl Hcase]. apply load_log_Some in Hl as Hl'.
  assert (Hne : tmp <> la) by congruence.
  destruct Hcase as [[He ->]|(recs & Hanz & Ha & Hh)].
  - pose proof (count_empty _ He). replace n with 0 in * by lia.
    rewrite slot_empty by done. exists h1. simpl. rewrite (kfree_live tmp (OArr 0 ∅)); [|done|by rewrite Ho1, lookup_insert_eq].
    eexists. split_and!; [done..|]. simpl.
    rewrite Ho1, delete_insert_id by done. by rewrite insert_id.
  - assert (Hlen : length (take (Z.to_nat n) rs) = Z.to_nat n) by (rewrite length_take; lia).
    assert (la <> array l) by congruence. assert (tmp <> array l) by congruence.
    destruct (copy_records_spec (take (Z.to_nat n) rs) 0 la tmp h1 l recs (n * SIZEOF_FAI) ∅)
      as (h2 & tr & Hcp & Ho2 & Htr & _); rewrite ?Hlen in *; try done.
    + apply load_log_Some. by rewrite Ho1, lookup_insert_ne.
    + apply Hh.
    + by rewrite Ho1, lookup_insert_ne.
    + by rewrite Ho1, lookup_insert_eq.
    + intros j r Hj. apply (rh_recs _ _ _ Hh). by apply lookup_take_Some in Hj as [? _].
    + unfold SIZEOF_FAI. lia.
    + exists h2. erewrite kfree_live; [|done|by rewrite Ho2, lookup_insert_eq].
      eexists. split; [done|]. split; [|split; [done|]].
      * rewrite <- Hlen at 1. eapply load_recs_spec; [by rewrite Ho2, lookup_insert_eq|done| |done].
        rewrite Hlen. unfold SIZEOF_FAI. lia.
      * simpl. rewrite Ho2, Ho1, (insert_insert_ne _ la tmp), insert_insert_eq by done.
        rewrite delete_insert_id by (by rewrite lookup_insert_ne).
        rewrite Z2Nat.id by lia. done.
Qed.

(** The copy loop leaves the size of the log alone. *)
Lemma copy_records_size k : forall w la tmp h h' l, load_log la h = Some l ->
  copy_records k w la tmp h = Some h' ->
  exists l', load_log la h' = Some l' /\ size l' = size l.
Proof.
  induction k as [|k IH]; intros w la tmp h h' l Hl Hc; simpl in Hc; [simplify_eq; eauto|].
  rewrite Hl in Hc. simpl in Hc. destruct (load_rec _ _ _) as [rc|]; [|done]. simpl in Hc.
  destruct (store_rec tmp w rc h) as [h1|] eqn:E1; [|done]. simpl in Hc.
  assert (Hl1 : load_log la h1 = Some l).
  { unfold store_rec in E1. apply load_log_Some in Hl. apply load_log_Some.
    destruct (objs h !! tmp) as [[?|bytes recs]|] eqn:Et; try done.
    destruct (in_block bytes w); [|done]. simplify_eq/=. rewrite lookup_insert_ne; [done|].
    congruence. }
  rewrite (store_log_eq _ _ _ _ Hl1) in Hc. simpl in Hc.
  eapply (IH _ _ _ _ _ (l <| indexRead := ring_next (size l) (indexRead l) |>)) in Hc
    as (l' & ? & ?); [by eauto|]. apply load_log_Some. simpl. apply lookup_insert_eq.
Qed.

(** A call that is not kept waiting is the call of the source, for both calls
    that sleep. *)
Section run_through.
Context `{SlabLaws kobj} (uninit : log_array)
  (copy_to_user : Z -> list forbidden_activity_info -> Z).

Lemma enable_runs_through n sz pw s :
  sys_enable_policy uninit n sz pw s =
  match enable_begin n sz pw s with
  | inl r => Some (s, r)
  | inr (t, c) => fst <$> run_through uninit copy_to_user 2 t c s
  end.
Proof.
  unfold sys_enable_policy, enable_begin. destruct (task_by_pid s n) as [[t p]|] eqn:E; [|done].
  assert (Hp : tasks s !! t = Some p).
  { unfold task_by_pid in E. apply bind_Some in E as (t' & _ & E).
    by apply bind_Some in E as (p' & ? & [= -> ->]). }
  destruct (negb (pw =? PASSWORD)), (policy_on p =? 1), (sz <? 0); try done. simpl.
  unfold enable_log_back. destruct (kmalloc SIZEOF_LOG _ _) as [la h1]. rewrite Hp. simpl.
  destruct (la =? 0); [done|]. destruct (sz =? 0); simpl.
  - unfold enable_finish. simpl. rewrite lookup_insert_eq. simpl.
    destruct (store_log _ _ _); simpl; [|done]. unfold set_task. simpl. by rewrite insert_insert_eq.
  - unfold enable_arr_back. simpl. destruct (kmalloc _ _ _) as [arr h2]. rewrite lookup_insert_eq. simpl.
    destruct (store_log _ _ h2) as [h3|]; [|done]. simpl. destruct (arr =? 0).
    + by destruct (kfree _ _).
    + unfold enable_finish. simpl. rewrite lookup_insert_eq. simpl.
      destruct (store_log _ _ _); simpl; [|done]. unfold set_task. simpl. by rewrite insert_insert_eq.
Qed.

Lemma get_log_runs_through n sz um s :
  sys_get_process_log copy_to_user n sz um s =
  (g ← get_log_begin n sz um s;
   match g with
   | inl r => Some (s, r, [])
   | inr (t, c) => run_through uninit copy_to_user 2 t c s
   end).
Proof.
  unfold sys_get_process_log, get_log_begin. destruct (task_by_pid s n) as [[t p]|] eqn:E; [|done].
  assert (Hp : tasks s !! t = Some p).
  { unfold task_by_pid in E. apply bind_Some in E as (t' & _ & E).
    by apply bind_Some in E as (p' & ? & [= -> ->]). }
  destruct (policy_on p =? 0); [done|]. destruct (load_log _ (heap s)) as [l|] eqn:Hl; [|done]. simpl.
  destruct ((size l <? sz) || (sz <? 0)); [done|]. destruct (too_few l sz); [done|]. simpl.
  unfold get_log_tmp_back. destruct (kmalloc _ _ _) as [tmp h1] eqn:K.
  destruct (tmp =? 0); [done|]. rewrite Hp. simpl.
  destruct (copy_records _ _ _ _ _) as [h2|] eqn:Ec; [|done]. simpl.
  unfold get_log_copy_back. simpl. destruct (load_recs _ _ _ _) as [out|]; [|done]. simpl.
  destruct (kfree tmp h2) as [h3|] eqn:Ek; simpl; rewrite ?Hp; [|by destruct (_ =? _)]. simpl.
  destruct (negb (_ =? 0)); [by destruct (store_log _ _ _)|].
  assert (Hl1 : load_log (logArray p) h1 = Some l).
  { apply load_log_Some. apply load_log_Some in Hl. apply kmalloc_cases in K as [[_ ->]|(_ & Hf & ->)]; [done|].
    rewrite lookup_insert_ne by congruence. done. }
  destruct (copy_records_size _ _ _ _ _ _ _ Hl1 Ec) as (l2 & Hl2 & Hs2).
  destruct (load_log (logArray p) h3) as [l3|] eqn:Hl3; [|unfold store_log; by rewrite Hl3].
  assert (size l3 = size l) as Hs3.
  { rewrite <- Hs2. apply load_log_Some in Hl3, Hl2. unfold kfree in Ek.
    destruct (tmp =? 0); [simplify_eq; congruence|]. destruct (objs h2 !! tmp); [|done]. simplify_eq/=.
    apply lookup_delete_Some in Hl3 as [_ Hl3]. congruence. }
  rewrite (store_log_eq _ _ _ _ Hl3). simpl. unfold load_log at 1. simpl.
  rewrite lookup_insert_eq. simpl. rewrite Hs3. by destruct (if sz =? size l then _ else _).
Qed.
End run_through.

Section calls.
Context `{SlabLaws kobj} (uninit : log_array)
  (copy_to_user : Z -> list forbidden_activity_info -> Z).

(** Every outcome of [sys_get_process_log] on a task whose policy is on. *)
Lemma get_log_cases s n sz um t p l rs :
  task_by_pid s n = Some (t, p) -> policy_on p <> 0 ->
  log_at (heap s) (logArray p) l rs ->
  exists h' ret out,
  sys_get_process_log copy_to_user n sz um s = Some (s <| heap := h' |>, ret, out) /\
  ((~ 0 <= sz <= count l /\ ret = - EINVAL /\ out = [] /\ objs h' = objs (heap s)) \/
  (0 <= sz <= count l /\ ret = - ENOMEM /\ out = [] /\ objs h' = objs (heap s) /\
  (fst (kmalloc (sz * SIZEOF_FAI) (OArr (sz * SIZEOF_FAI) ∅) (heap s)) = 0 \/
  copy_to_user um (take (Z.to_nat sz) rs) <> 0)) \/
  (0 <= sz <= count l /\ ret = 0 /\ out = take (Z.to_nat sz) rs /\
  objs h' = <[logArray p := OLog (consumed l sz)]> (objs (heap s)))).
Proof.
  intros Ht Hon Hat. pose proof (log_at_size _ _ _ _ Hat) as [Hcs Hby].
  pose proof (read_guard_spec _ _ _ _ sz Hat) as Hg.
  pose proof Hat as [Hl _]. unfold sys_get_process_log. rewrite Ht.
  rewrite (proj2 (Z.eqb_neq _ _) Hon), Hl. simpl.
  assert (Hs : PState (tasks s) (pidhash s) (heap s) = s) by by destruct s.
  destruct ((size l <? sz) || (sz <? 0)) eqn:G1.
  { exists (heap s), (- EINVAL), []. rewrite Hs. split; [done|]. left. simpl in Hg. split_and!; [lia|done..]. }
  simpl in Hg. rewrite Hg. destruct ((0 <=? sz) && (sz <=? count l)) eqn:G2; simpl.
  2: { exists (heap s), (- EINVAL), []. rewrite Hs. split; [done|]. left. split_and!; [lia|done..]. }
  assert (Hsz : 0 <= sz <= count l) by lia.
  rewrite u32_small by (unfold SIZEOF_FAI in *; lia).
  destruct (kmalloc _ _ _) as [tmp h1] eqn:Ek. apply kmalloc_cases in Ek as [[-> Ho]|(Hnz & Hfr & Ho)].
  { exists h1, (- ENOMEM), []. split; [done|]. right. left. split_and!; [lia || done..|]. by left. }
  rewrite (proj2 (Z.eqb_neq _ _) Hnz).
  destruct (copy_free_spec _ _ _ _ sz tmp h1 Hat Hsz Hnz Hfr Ho) as (h2 & h3 & -> & Hlr & Hkf & Ho3).
  simpl. rewrite Hlr. simpl. rewrite Hkf. simpl.
  assert (Hl3 : load_log (logArray p) h3 = Some (l <| indexRead := slot l sz |>))
    by (apply load_log_Some; by rewrite Ho3, lookup_insert_eq).
  destruct (Z.eqb_spec (copy_to_user um (take (Z.to_nat sz) rs)) 0); simpl.
  - rewrite (store_log_eq _ _ _ _ Hl3). simpl. destruct (sz =? size l) eqn:Esz.
    + erewrite store_log_eq; [|apply load_log_Some; simpl; apply lookup_insert_eq].
      eexists _, _, _. split; [done|]. right. right. split_and!; [lia || done..|].
      simpl. rewrite Ho3, !insert_insert_eq. unfold consumed. by rewrite Esz.
    + eexists _, _, _. split; [done|]. right. right. split_and!; [lia || done..|].
      simpl. rewrite Ho3, !insert_insert_eq. unfold consumed. by rewrite Esz.
  - rewrite (store_log_eq _ _ _ _ Hl3). simpl. eexists _, _, _. split; [done|]. right. left.
    split_and!; [lia || done..| |by right]. simpl. rewrite Ho3, insert_insert_eq, insert_id; [done|].
    apply load_log_Some in Hl. rewrite Hl. by destruct l.
Qed.
End calls.
