(* ===== verification/PolicySafety.v ===== *)
(** * The invariant of the policy component

    Every kmalloc'ed object of the policy is owned by exactly one task: it is
    part of the log of a task whose policy is on, or it is held by the call
    asleep on that task.  Every log is a well-formed ring, and a call that
    sleeps finds its target as it needs it.  Each operation, and each part of a
    call that sleeps, keeps this and never touches memory it does not own. *)
From stdpp Require Import base gmap list option.
From S2P Require Import Prelude PidHash Slab Policy PolicyProofs.

(** The objects a task owns: its descriptor and the block of its records. *)
Definition owns (h : kheap kobj) (p : ptask) (a : Z) : Prop :=
  policy_on p = 1 /\
  (a = logArray p \/ exists l, load_log (logArray p) h = Some l /\ 0 < size l /\ a = array l).

Record task_ok (h : kheap kobj) (p : ptask) : Prop := TaskOk {
  to_on : policy_on p = 0 \/ policy_on p = 1;
  to_level : 0 <= policy_level p <= 2;
  to_log : policy_on p = 1 -> logArray p <> 0 /\ exists l rs, log_at h (logArray p) l rs
}.

(** ** Calls asleep *)

(** What the call asleep on a task holds beside the log of the task. *)
Definition held (c : option pcall) (p : ptask) (a : Z) : Prop :=
  match c with
  | Some (EnableArr _) => a = logArray p
  | Some (GetCopy _ _ _ tmp) => a = tmp
  | _ => False
  end.

#[export] Instance held_dec c p a : Decision (held c p a).
Proof. destruct c as [[]|]; simpl; apply _. Defined.

Definition owned (h : kheap kobj) (c : option pcall) (p : ptask) (a : Z) : Prop :=
  owns h p a \/ held c p a.

(** The records a reader of [l] may take were all written. *)
Definition readable (h : kheap kobj) (l : log_array) : Prop :=
  empty_log l \/
  exists recs rs, array l <> 0 /\
    objs h !! array l = Some (OArr (size l * SIZEOF_FAI) recs) /\ ring_holds l recs rs.

(** What a call asleep on [p] relies on. *)
Definition call_ok (h : kheap kobj) (c : option pcall) (p : ptask) : Prop :=
  match c with
  | None => True
  | Some (EnableLog sz) => policy_on p <> 1 /\ 0 <= sz /\ sz * SIZEOF_FAI < 2 ^ 32
  | Some (EnableArr sz) =>
      policy_on p <> 1 /\ 0 < sz /\ sz * SIZEOF_FAI < 2 ^ 32 /\ logArray p <> 0 /\
      is_Some (load_log (logArray p) h)
  | Some (GetTmp sz _ prev) =>
      policy_on p = 1 /\
      exists l, load_log (logArray p) h = Some l /\ indexRead l = prev /\ 0 <= sz <= count l
  | Some (GetCopy sz _ prev tmp) =>
      policy_on p = 1 /\ tmp <> 0 /\ ~ owns h p tmp /\ is_Some (objs h !! tmp) /\
      is_Some (load_recs (Z.to_nat sz) tmp 0 h) /\
      exists l, load_log (logArray p) h = Some l /\ readable h (l <| indexRead := prev |>)
  end.

(** The invariant; [cs] gives the call asleep on each task. *)
Record calls_wf (cs : gmap tid pcall) (s : pstate) : Prop := CallsWf {
  pw_hash : pidhash_wf (pid <$> tasks s) (pidhash s);
  pw_task : forall t p, tasks s !! t = Some p -> task_ok (heap s) p;
  pw_call : forall t p, tasks s !! t = Some p -> call_ok (heap s) (cs !! t) p;
  pw_dom : forall t, is_Some (cs !! t) -> is_Some (tasks s !! t);
  pw_own : forall t t' p p' a, tasks s !! t = Some p -> tasks s !! t' = Some p' ->
    owned (heap s) (cs !! t) p a -> owned (heap s) (cs !! t') p' a -> t = t';
  pw_live : forall a, is_Some (objs (heap s) !! a) ->
    exists t p, tasks s !! t = Some p /\ owned (heap s) (cs !! t) p a
}.
Arguments pw_hash {_ _}.
Arguments pw_task {_ _}.
Arguments pw_call {_ _}.
Arguments pw_dom {_ _}.
Arguments pw_own {_ _}.
Arguments pw_live {_ _}.

(** The invariant while no call sleeps. *)
Definition policy_wf (s : pstate) : Prop := calls_wf ∅ s.

Lemma log_at_readable h la l :
  (exists rs, log_at h la l rs) <-> load_log la h = Some l /\ readable h l.
Proof.
  unfold readable. split.
  - intros (rs & Hl & [[He _]|(recs & ? & ? & ?)]); (split; [done|]); [by left|right; eauto 6].
  - intros (Hl & [He|(recs & rs & ? & ? & ?)]); [exists []|exists rs]; (split; [done|]); [by left|].
    right. eauto 6.
Qed.

Lemma owned_live h c p a : task_ok h p -> call_ok h c p -> owned h c p a -> is_Some (objs h !! a).
Proof.
  intros [_ _ Hlog] Hc [[Hon Ha]|Hh].
  - destruct (Hlog Hon) as (_ & l & rs & Hl & Hcase).
    apply load_log_Some in Hl as Hl'. destruct Ha as [->|(l' & Hl2 & Hs & ->)]; [by eexists|].
    simplify_eq. destruct Hcase as [[[? _] _]|(recs & _ & Ha & _)]; [lia|by eexists].
  - destruct c as [[]|]; simpl in *; try done; subst.
    + destruct Hc as (_ & _ & _ & _ & l & Hl). apply load_log_Some in Hl. by eexists.
    + by destruct Hc as (_ & _ & _ & ? & _).
Qed.

(** Ownership and well-formedness of a task depend only on what it owns. *)
Lemma owns_frame h h' q a :
  (forall a, owns h q a -> objs h' !! a = objs h !! a) -> owns h' q a <-> owns h q a.
Proof.
  intros Hf. assert (Hl : policy_on q = 1 -> load_log (logArray q) h' = load_log (logArray q) h).
  { intros Hon. unfold load_log. rewrite Hf; [done|]. split; [done|by left]. }
  split; intros [Hon Ha]; (split; [done|]); rewrite Hl in * by done; done.
Qed.

Lemma owned_frame h h' c q a :
  (forall a, owned h c q a -> objs h' !! a = objs h !! a) -> owned h' c q a <-> owned h c q a.
Proof.
  intros Hf. unfold owned. rewrite (owns_frame h h'); [done|]. intros b Hb. apply Hf. by left.
Qed.

Lemma task_ok_frame h h' q :
  (forall a, owns h q a -> objs h' !! a = objs h !! a) -> task_ok h q -> task_ok h' q.
Proof.
  intros Hf [Hon Hlev Hlog]. split; [done..|]. intros H1. destruct (Hlog H1) as (Hnz & l & rs & Hl & Hcase).
  split; [done|]. exists l, rs. split.
  - unfold load_log. rewrite Hf; [done|]. split; [done|by left].
  - destruct Hcase as [?|(recs & Hz & Ha & Hh)]; [by left|]. right. exists recs.
    rewrite Hf; [done|]. split; [done|]. right. exists l. split_and!; [done|apply Hh|done].
Qed.

Lemma load_recs_frame k : forall a i h h', objs h' !! a = objs h !! a ->
  load_recs k a i h' = load_recs k a i h.
Proof.
  induction k as [|k IH]; intros a i h h' E; simpl; [done|]. rewrite (IH a (i + 1) h h' E).
  unfold load_rec. by rewrite E.
Qed.

Lemma call_ok_frame h h' c q :
  (forall a, owned h c q a -> objs h' !! a = objs h !! a) -> call_ok h c q -> call_ok h' c q.
Proof.
  intros Hf Hc.
  assert (Ho : forall a, owns h q a -> objs h' !! a = objs h !! a) by (intros; apply Hf; by left).
  assert (Hl : policy_on q = 1 -> load_log (logArray q) h' = load_log (logArray q) h).
  { intros Hon. unfold load_log. rewrite Ho; [done|]. split; [done|by left]. }
  destruct c as [[sz|sz|sz um prev|sz um prev tmp]|]; simpl in *; [done| | | |done].
  - unfold load_log. rewrite Hf by (by right). done.
  - destruct Hc as (Hon & Hc). by rewrite Hl.
  - destruct Hc as (Hon & Hnz & Hno & Ht & Hr & l & Hlog & Hb). rewrite (owns_frame h h') by done.
    rewrite (load_recs_frame _ _ _ h h') by (apply Hf; by right).
    rewrite (Hf tmp) by (by right). rewrite Hl by done. split_and!; [done..|]. exists l. split; [done|].
    destruct Hb as [?|(recs & rs & Hz & Ha & Hh)]; [by left|]. right. exists recs, rs. simpl in *.
    split_and!; [done| |done]. rewrite Ho; [done|]. split; [done|]. right. exists l.
    split_and!; [done|apply Hh|done].
Qed.

Section update.
Context (cs : gmap tid pcall) (s : pstate) (Hwf : calls_wf cs s).
Context (t : tid) (p : ptask) (Hp : tasks s !! t = Some p).

(** A live object is owned by [t] or by another task. *)
Lemma live_split a : is_Some (objs (heap s) !! a) ->
  owned (heap s) (cs !! t) p a \/
  exists t1 p1, t1 <> t /\ tasks s !! t1 = Some p1 /\ owned (heap s) (cs !! t1) p1 a.
Proof using Hwf Hp.
  intros Ha. destruct (pw_live Hwf a Ha) as (t1 & p1 & H1 & Ho).
  destruct (decide (t1 = t)) as [->|]; [left; by simplify_eq|right; eauto].
Qed.

(** A change by which [t] becomes [p'], the call asleep on it that of [cs'], and
    the heap [h'], touching only what [t] owns and what was free, keeps the
    invariant. *)
Lemma calls_wf_local cs' s' p' :
  tasks s' = <[t := p']> (tasks s) -> pid p' = pid p -> pidhash s' = pidhash s ->
  (forall t1, t1 <> t -> cs' !! t1 = cs !! t1) ->
  task_ok (heap s') p' -> call_ok (heap s') (cs' !! t) p' ->
  (forall a, is_Some (objs (heap s) !! a) -> ~ owned (heap s) (cs !! t) p a ->
  objs (heap s') !! a = objs (heap s) !! a) ->
  (forall a, owned (heap s') (cs' !! t) p' a ->
  owned (heap s) (cs !! t) p a \/ objs (heap s) !! a = None) ->
  (forall a, is_Some (objs (heap s') !! a) ->
  owned (heap s') (cs' !! t) p' a \/ is_Some (objs (heap s) !! a) /\ ~ owned (heap s) (cs !! t) p a) ->
  calls_wf cs' s'.
Proof using Hwf Hp.
  intros Et Epid Eh Ecs Hok' Hcall' HA HB HC.
  assert (Hfr : forall t1 q, t1 <> t -> tasks s !! t1 = Some q ->
    forall a, owned (heap s) (cs !! t1) q a -> objs (heap s') !! a = objs (heap s) !! a).
  { intros t1 q Hne Hq a Ha.
    apply HA; [by eapply owned_live, Ha; [apply (pw_task Hwf t1)|apply (pw_call Hwf t1)]|].
    intros Ha'. by destruct Hne; apply (pw_own Hwf t1 t q p a). }
  assert (Hex : forall t1 q a, t1 <> t -> tasks s !! t1 = Some q -> owned (heap s') (cs' !! t) p' a ->
    ~ owned (heap s') (cs !! t1) q a).
  { intros t1 q a Hne Hq Ha Ha'. apply (owned_frame _ _ _ _ _ (Hfr t1 q Hne Hq)) in Ha'.
    destruct (HB a Ha) as [Hb|Hb]; [by destruct Hne; apply (pw_own Hwf t1 t q p a)|].
    apply (owned_live _ _ _ _ (pw_task Hwf t1 q Hq) (pw_call Hwf t1 q Hq)) in Ha' as [? ?]. congruence. }
  split; rewrite ?Et.
  - rewrite fmap_insert, Epid, Eh, insert_id; [apply Hwf|]. by rewrite lookup_fmap, Hp.
  - intros t1 q. rewrite lookup_insert. case_decide; [by intros [= <-]|]. intros Hq.
    apply (task_ok_frame (heap s)); [|by apply (pw_task Hwf t1)].
    intros a Ha. apply (Hfr t1 q); [done..|by left].
  - intros t1 q. rewrite lookup_insert. case_decide; [intros [= <-]; by subst|]. intros Hq.
    rewrite Ecs by done. apply (call_ok_frame (heap s)); [by apply (Hfr t1)|by apply (pw_call Hwf t1)].
  - intros t1. rewrite lookup_insert. case_decide; [done|]. rewrite Ecs by done. apply (pw_dom Hwf).
  - intros t1 t2 q1 q2 a. rewrite !lookup_insert.
    case_decide; case_decide; intros E1 E2 H1 H2; simplify_eq; [done| | |].
    + rewrite Ecs in H2 by done. by destruct (Hex t2 q2 a).
    + rewrite Ecs in H1 by done. by destruct (Hex t1 q1 a).
    + rewrite Ecs in H1, H2 by done. apply (owned_frame (heap s)) in H1; [|by apply (Hfr t1)].
      apply (owned_frame (heap s)) in H2; [|by apply (Hfr t2)].
      by apply (pw_own Hwf t1 t2 q1 q2 a).
  - intros a Ha. destruct (HC a Ha) as [Hc|[Hc Hn]].
    + exists t, p'. by rewrite lookup_insert_eq.
    + destruct (live_split a Hc) as [?|(t1 & p1 & Hne & H1 & Ho)]; [done|].
      exists t1, p1. rewrite lookup_insert_ne, Ecs by done. split; [done|].
      by apply (owned_frame (heap s)); [apply (Hfr t1)|].
Qed.

(** The task descriptor changed, the heap and its ownership did not. *)
Lemma calls_wf_task p' :
  pid p' = pid p -> policy_on p' = policy_on p -> logArray p' = logArray p ->
  0 <= policy_level p' <= 2 -> calls_wf cs (set_task t p' s).
Proof using Hwf Hp.
  intros E1 E2 E3 Hlev.
  assert (Ho : forall a, owns (heap s) p' a <-> owns (heap s) p a)
    by (intros a; unfold owns; by rewrite E2, E3).
  assert (Hd : forall a, owned (heap s) (cs !! t) p' a <-> owned (heap s) (cs !! t) p a).
  { intros a. unfold owned. rewrite Ho. destruct (cs !! t) as [[]|]; simpl; by rewrite ?E3. }
  apply (calls_wf_local cs _ p'); simpl; try done.
  - destruct (pw_task Hwf t p Hp) as [? _ Hl]. split; rewrite ?E2, ?E3; done.
  - pose proof (pw_call Hwf t p Hp) as Hc.
    destruct (cs !! t) as [[]|]; simpl in *; rewrite ?Ho, ?E2, ?E3; done.
  - intros a Ha%Hd. by left.
  - intros a Ha. rewrite Hd.
    destruct (live_split a Ha) as [?|(t1 & p1 & Hne & H1 & Hoa)]; [by left|right].
    split; [done|]. intros Hc. destruct Hne. by apply (pw_own Hwf t1 t p1 p a).
Qed.

(** A task whose policy is on: its log was written, and the call asleep on it
    gave back or took what it holds. *)
Lemma calls_wf_log cs' h' l l' :
  policy_on p = 1 -> load_log (logArray p) (heap s) = Some l ->
  load_log (logArray p) h' = Some l' -> readable h' l' -> size l' = size l -> array l' = array l ->
  (forall t1, t1 <> t -> cs' !! t1 = cs !! t1) -> call_ok h' (cs' !! t) p ->
  (forall a, a <> logArray p -> (0 < size l -> a <> array l) ->
  ~ held (cs !! t) p a -> ~ held (cs' !! t) p a -> objs h' !! a = objs (heap s) !! a) ->
  (forall a, held (cs' !! t) p a -> ~ held (cs !! t) p a -> objs (heap s) !! a = None) ->
  (forall a, held (cs !! t) p a -> ~ held (cs' !! t) p a -> objs h' !! a = None) ->
  calls_wf cs' (s <| heap := h' |>).
Proof using Hwf Hp.
  intros Hon Hl Hl' Hrd Es Ea Ecs Hcall Hf Htook Hgave.
  assert (Ho : forall a, owns h' p a <-> a = logArray p \/ 0 < size l /\ a = array l).
  { intros a. unfold owns. rewrite Hl'. split.
    - intros [_ [?|(k & [= <-] & ? & ->)]]; [by left|right]. by rewrite <- Es, <- Ea.
    - intros [->|[? ->]]; (split; [done|]); [by left|right]. exists l'. by rewrite Es, Ea. }
  assert (Ho2 : forall a, owns (heap s) p a <-> a = logArray p \/ 0 < size l /\ a = array l).
  { intros a. unfold owns. rewrite Hl. split.
    - intros [_ [?|(k & [= <-] & ? & ->)]]; [by left|by right].
    - intros [->|[? ->]]; (split; [done|]); [by left|right]. by exists l. }
  destruct (pw_task Hwf t p Hp) as [H1 H2 H3].
  apply (calls_wf_local cs' _ p); simpl; [by rewrite insert_id|done..| |done| | |].
  - split; [done..|]. intros _. split; [apply (H3 Hon)|]. exists l'. by apply log_at_readable.
  - intros a [x Hx] Hn. unfold owned in Hn. rewrite Ho2 in Hn. apply Hf; try tauto.
    intros Hd. rewrite Htook in Hx; [done|done|tauto].
  - intros a [Ha|Ha]; [left; left; apply Ho2, Ho, Ha|].
    destruct (decide (held (cs !! t) p a)); [left; by right|right; by apply Htook].
  - intros a [x Hx]. unfold owned. rewrite Ho, Ho2.
    destruct (decide (held (cs' !! t) p a)); [tauto|].
    destruct (decide (a = logArray p)); [tauto|].
    destruct (decide (0 < size l /\ a = array l)); [tauto|].
    destruct (decide (held (cs !! t) p a)); [rewrite Hgave in Hx; done|].
    rewrite Hf in Hx by tauto. right. split; [by eexists|tauto].
Qed.

(** A task whose policy is off and stays off. *)
Lemma calls_wf_off cs' p' h' :
  policy_on p <> 1 -> pid p' = pid p -> policy_on p' = policy_on p -> policy_level p' = policy_level p ->
  (forall t1, t1 <> t -> cs' !! t1 = cs !! t1) -> call_ok h' (cs' !! t) p' ->
  (forall a, ~ held (cs !! t) p a -> ~ held (cs' !! t) p' a -> objs h' !! a = objs (heap s) !! a) ->
  (forall a, held (cs' !! t) p' a -> ~ held (cs !! t) p a -> objs (heap s) !! a = None) ->
  (forall a, held (cs !! t) p a -> ~ held (cs' !! t) p' a -> objs h' !! a = None) ->
  calls_wf cs' (set_task t p' (s <| heap := h' |>)).
Proof using Hwf Hp.
  intros Hoff Epid Eon Elev Ecs Hcall Hf Htook Hgave.
  assert (Hn : forall h q a, policy_on q <> 1 -> owns h q a -> False) by (intros h q a Hq [? _]; done).
  destruct (pw_task Hwf t p Hp) as [H1 H2 _].
  apply (calls_wf_local cs' _ p'); simpl; [done..| |done| | |].
  - split; rewrite ?Eon, ?Elev; done.
  - intros a [x Hx] Hd. apply Hf; [intros ?; by apply Hd; right|].
    intros Hd'. rewrite Htook in Hx; [done|done|intros ?; by apply Hd; right].
  - intros a [Ha|Ha]; [exfalso; eapply Hn, Ha; congruence|].
    destruct (decide (held (cs !! t) p a)); [left; by right|right; by apply Htook].
  - intros a [x Hx]. destruct (decide (held (cs' !! t) p' a)); [left; by right|].
    destruct (decide (held (cs !! t) p a)); [rewrite Hgave in Hx; done|].
    rewrite Hf in Hx by done. right. split; [by eexists|]. intros [Ha|Ha]; [by eapply Hn, Ha|done].
Qed.

(** A task whose policy was off got a new, empty log at [la]. *)
Lemma calls_wf_enabled cs' la h' l :
  policy_on p <> 1 -> la <> 0 -> (forall a, held (cs !! t) p a -> a = la) ->
  objs (heap s) !! la = None \/ held (cs !! t) p la ->
  log_at h' la l [] -> (0 < size l -> objs (heap s) !! array l = None) ->
  (forall a, a <> la -> (0 < size l -> a <> array l) -> objs h' !! a = objs (heap s) !! a) ->
  (forall t1, t1 <> t -> cs' !! t1 = cs !! t1) -> cs' !! t = None ->
  calls_wf cs' (set_task t (p <| logArray := la |> <| policy_level := 2 |> <| policy_on := 1 |>)
                  (s <| heap := h' |>)).
Proof using Hwf Hp.
  intros Hon Hla Hh Hfr Hat Hfr2 Hf Ecs Enone. pose proof Hat as [Hl _].
  assert (Hn : forall a, ~ owns (heap s) p a) by (intros a [? _]; done).
  eapply (calls_wf_local cs'); [done..| | | | |]; rewrite ?Enone; simpl.
  - split; simpl; [by right|lia|]. intros _. split; [done|]. by exists l, [].
  - done.
  - intros a [x Hx] Hd. apply Hf.
    + intros ->. destruct Hfr as [Hfr|Hfr]; [congruence|]. apply Hd. by right.
    + intros Hpos ->. rewrite Hfr2 in Hx by done. done.
  - intros a [[_ Ha]|[]]. simpl in Ha. destruct Ha as [->|(k & Hk & Hpos & ->)].
    + destruct Hfr; [by right|left; by right].
    + right. rewrite Hl in Hk. simplify_eq. by apply Hfr2.
  - intros a [x Hx]. destruct (decide (a = la)) as [->|Hn1]; [left; left; split; [done|by left]|].
    destruct (decide (0 < size l /\ a = array l)) as [[? ->]|Hn2].
    { left. left. split; [done|right]. by exists l. }
    right. rewrite Hf in Hx by (done || tauto). split; [by eexists|].
    intros [Ha|Ha]; [by apply Hn in Ha|by apply Hh in Ha].
Qed.
End update.
Lemma task_by_pid_Some s n t p :
  task_by_pid s n = Some (t, p) -> tasks s !! t = Some p /\ pid p = n /\ hashed (pidhash s) t.
Proof.
  unfold task_by_pid. intros H. apply bind_Some in H as (t' & Hf & H).
  apply bind_Some in H as (p' & Hp & [= -> ->]).
  apply find_task_sound in Hf as [? Hpid]. rewrite lookup_fmap, Hp in Hpid. by simplify_eq/=.
Qed.

(** A task whose policy is off owns nothing. *)
Lemma off_owns h p a : policy_on p <> 1 -> ~ owns h p a.
Proof. by intros Hn [? _]. Qed.

(** A policy that is on has a log. *)
Lemma on_log cs s t p : calls_wf cs s -> tasks s !! t = Some p -> policy_on p <> 0 ->
  policy_on p = 1 /\ logArray p <> 0 /\ exists l rs, log_at (heap s) (logArray p) l rs.
Proof.
  intros Hwf Hp Hon. destruct (pw_task Hwf t p Hp) as [[?|H1] _ Hl]; [done|].
  split; [done|]. by apply Hl.
Qed.

(** Freeing the block (if there is one) and the descriptor of a log. *)
Definition free_log (la : Z) (l : log_array) (h : kheap kobj) : option (kheap kobj) :=
  h1 ← (if 0 <? size l then kfree (array l) h else Some h); kfree la h1.

Lemma free_log_spec h la l rs : log_at h la l rs -> la <> 0 ->
  exists h', free_log la l h = Some h' /\
    forall a, objs h' !! a =
      if decide (a = la \/ 0 < size l /\ a = array l) then None else objs h !! a.
Proof.
  intros [Hl Hcase] Hnz. apply load_log_Some in Hl. unfold free_log.
  destruct Hcase as [[[Hs _] _]|(recs & Haz & Ha & [[Hs _ _ _ _] _ _])].
  - rewrite Hs. simpl. rewrite (kfree_live _ _ _ Hnz Hl). eexists. split; [done|].
    intros a. simpl. rewrite lookup_delete.
    destruct (decide (la = a)), (decide (_ \/ _)); naive_solver lia.
  - rewrite (proj2 (Z.ltb_lt _ _) Hs), (kfree_live _ _ _ Haz Ha). simpl.
    erewrite kfree_live; [|done|simpl; rewrite lookup_delete_ne by congruence; done].
    eexists. split; [done|]. intros a. simpl. rewrite !lookup_delete.
    destruct (decide (la = a)), (decide (array l = a)), (decide (_ \/ _)); naive_solver.
Qed.

(** An object that survives the release of [p]'s log is one [p] did not own. *)
Lemma free_log_owned s p l rs (h' : kheap kobj) : policy_on p = 1 ->
  log_at (heap s) (logArray p) l rs ->
  (forall a, objs h' !! a =
      if decide (a = logArray p \/ 0 < size l /\ a = array l) then None else objs (heap s) !! a) ->
  (forall a, ~ owns (heap s) p a -> objs h' !! a = objs (heap s) !! a) /\
  (forall a, is_Some (objs h' !! a) -> is_Some (objs (heap s) !! a) /\ ~ owns (heap s) p a).
Proof.
  intros Hon [Hl _] Hh. split.
  - intros a Hn. rewrite Hh. destruct (decide (_ \/ _)) as [D|D]; [|done]. destruct Hn. split; [done|].
    destruct D as [->|[? ->]]; [by left|right; by exists l].
  - intros a. rewrite Hh. destruct (decide (_ \/ _)) as [D|D]; [by intros []|]. intros Ha. split; [done|].
    intros [_ [?|(k & ? & ? & ?)]]; simplify_eq; tauto.
Qed.

(** Which of the two calls sleeps. *)
Definition enabling (c : pcall) : bool :=
  match c with EnableLog _ | EnableArr _ => true | _ => false end.

(** No call of a kind sleeps on a task. *)
Definition none_asleep (cs : gmap tid pcall) (P : pcall -> bool) (t : tid) : Prop :=
  forall c, cs !! t = Some c -> P c = false.

(** Only readers sleep on a task whose policy is on, only enablers on one whose
    policy is off. *)
Lemma on_not_enabling cs s t p : calls_wf cs s -> tasks s !! t = Some p -> policy_on p = 1 ->
  none_asleep cs enabling t.
Proof.
  intros Hwf Hp Hon c Hc. pose proof (pw_call Hwf t p Hp) as H. rewrite Hc in H.
  destruct c; simpl in *; naive_solver.
Qed.

Lemma off_not_reading cs s t p : calls_wf cs s -> tasks s !! t = Some p -> policy_on p <> 1 ->
  none_asleep cs (negb ∘ enabling) t.
Proof.
  intros Hwf Hp Hon c Hc. pose proof (pw_call Hwf t p Hp) as H. rewrite Hc in H.
  destruct c; simpl in *; naive_solver.
Qed.

Lemma none_asleep_both cs t : none_asleep cs enabling t -> none_asleep cs (negb ∘ enabling) t ->
  cs !! t = None.
Proof.
  intros H1 H2. destruct (cs !! t) as [c|] eqn:E; [|done]. apply H1 in E as E1. apply H2 in E as E2.
  simpl in E2. by rewrite E1 in E2.
Qed.

(** The log of a task on which no call sleeps is freed and its policy switched
    off. *)
Lemma calls_wf_freed cs s t p p' l rs h' :
  calls_wf cs s -> tasks s !! t = Some p -> policy_on p = 1 -> cs !! t = None ->
  log_at (heap s) (logArray p) l rs -> pid p' = pid p -> policy_on p' = 0 -> 0 <= policy_level p' <= 2 ->
  (forall a, objs h' !! a =
    if decide (a = logArray p \/ 0 < size l /\ a = array l) then None else objs (heap s) !! a) ->
  calls_wf cs (set_task t p' (s <| heap := h' |>)).
Proof.
  intros Hwf Hp Hon Hnone Hat Epid Eoff Hlev Hh.
  destruct (free_log_owned s p l rs h' Hon Hat Hh) as [HA HC].
  assert (Hoff : forall h a, ~ owns h p' a) by (intros; apply off_owns; lia).
  apply (calls_wf_local cs s Hwf t p Hp cs _ p'); rewrite ?Hnone; simpl; try done.
  - split; [by left|done|]. intros; lia.
  - intros a _ Hn. apply HA. intros ?. apply Hn. by left.
  - intros a [Ha|[]]. by apply Hoff in Ha.
  - intros a Ha. right. destruct (HC a Ha) as [? Hn]. split; [done|]. intros [?|[]]. done.
Qed.

Section calls.
Context `{SlabLaws kobj} (uninit : log_array)
  (copy_to_user : Z -> list forbidden_activity_info -> Z).

Lemma set_capabilities_safe cs n lev pw s : calls_wf cs s ->
  exists s' r, sys_set_process_capabilities n lev pw s = Some (s', r) /\ calls_wf cs s'.
Proof.
  intros Hwf. unfold sys_set_process_capabilities.
  destruct (task_by_pid s n) as [[t p]|] eqn:E; [|by eauto].
  apply task_by_pid_Some in E as (Hp & _ & _).
  destruct ((2 <? lev) || (lev <? 0)) eqn:Hlev; [by eauto|].
  destruct (pw =? PASSWORD); simpl; [|by eauto].
  destruct (policy_on p =? 0); [by eauto|].
  eexists _, _. split; [done|]. eapply calls_wf_task; [done..|simpl; lia].
Qed.

Lemma disable_safe cs n pw s : calls_wf cs s ->
  (forall t p, task_by_pid s n = Some (t, p) -> none_asleep cs (negb ∘ enabling) t) ->
  exists s' r, sys_disable_policy n pw s = Some (s', r) /\ calls_wf cs s'.
Proof.
  intros Hwf Hno. unfold sys_disable_policy.
  destruct (task_by_pid s n) as [[t p]|] eqn:E; [|by eauto].
  pose proof (task_by_pid_Some _ _ _ _ E) as (Hp & _ & _).
  destruct (policy_on p =? 0) eqn:Hoff; [by eauto|]. destruct (pw =? PASSWORD); simpl; [|by eauto].
  apply Z.eqb_neq in Hoff. destruct (on_log _ _ _ _ Hwf Hp Hoff) as (Hon & Hnz & l & rs & Hat).
  pose proof Hat as [Hl _]. rewrite Hl. simpl.
  destruct (free_log_spec _ _ _ _ Hat Hnz) as (h' & Hf & Hh).
  assert (Hsz : negb (size l =? 0) = (0 <? size l))
    by (pose proof (log_at_size _ _ _ _ Hat); lia).
  rewrite Hsz. unfold free_log in Hf. destruct (if 0 <? size l then _ else _) as [h1|]; [|done].
  simpl in *. rewrite Hf. simpl. eexists _, _. split; [done|].
  eapply (calls_wf_freed cs s t p); [done..| |done|done|done|simpl; lia|done].
  apply none_asleep_both; [by eapply on_not_enabling|by eapply Hno].
Qed.

(** An allocation of [sys_enable_policy] fails: that of the descriptor, or that of
    the records, asked for when the descriptor was there. *)
Definition enable_starved (sz : Z) (h : kheap kobj) : Prop :=
  let '(la, h1) := kmalloc SIZEOF_LOG (OLog uninit) h in
  la = 0 \/ sz <> 0 /\ fst (kmalloc (sz * SIZEOF_FAI) (OArr (sz * SIZEOF_FAI) ∅) h1) = 0.

(** [sys_enable_policy] past its checks: a failed allocation, or a new empty log
    in fresh memory.  [sz] is such that [sz * sizeof(record)] does not wrap. *)
Lemma enable_cases n sz s t p :
  task_by_pid s n = Some (t, p) -> policy_on p <> 1 -> 0 <= sz -> sz * SIZEOF_FAI < 2 ^ 32 ->
  exists la h',
  (sys_enable_policy uninit n sz PASSWORD s =
  Some (set_task t (p <| logArray := la |>) (s <| heap := h' |>), - ENOMEM) /\
  objs h' = objs (heap s) /\ enable_starved sz (heap s)) \/
  (exists l, sys_enable_policy uninit n sz PASSWORD s =
  Some (set_task t (p <| logArray := la |> <| policy_level := 2 |> <| policy_on := 1 |>)
  (s <| heap := h' |>), 0) /\
  ~ enable_starved sz (heap s) /\
  la <> 0 /\ objs (heap s) !! la = None /\ log_at h' la l [] /\ size l = sz /\ full l = 0 /\
  (0 < size l -> objs (heap s) !! array l = None) /\
  (forall a, a <> la -> (0 < size l -> a <> array l) -> objs h' !! a = objs (heap s) !! a)).
Proof.
  intros E Hon Hneg Hsz. unfold sys_enable_policy, enable_starved. rewrite E. simpl.
  rewrite (proj2 (Z.eqb_neq _ _) Hon), (proj2 (Z.ltb_ge _ _) Hneg).
  destruct (kmalloc SIZEOF_LOG _ _) as [la h1] eqn:K1. exists la.
  apply kmalloc_cases in K1 as [[-> Ho1]|(Hla & Hfr1 & Ho1)]; simpl; [eauto 6|].
  rewrite (proj2 (Z.eqb_neq _ _) Hla).
  destruct (Z.eqb_spec sz 0) as [->|Hsz0]; simpl.
  { erewrite store_log_eq; [|apply load_log_Some; by rewrite Ho1, lookup_insert_eq]. simpl.
    eexists. right. eexists. split; [done|]. split; [by intros [?|[? _]]|]. split; [done|]. split; [done|].
    split; [split; [apply load_log_Some; apply lookup_insert_eq|by left]|].
    split_and!; [done..|simpl; lia|].
    intros a Ha _. simpl. by rewrite Ho1, !lookup_insert_ne. }
  unfold SIZEOF_FAI in *. rewrite u32_small by lia.
  destruct (kmalloc (sz * 12) _ _) as [arr h2] eqn:K2.
  apply kmalloc_cases in K2 as [[-> Ho2]|(Harr & Hfr2 & Ho2)]; simpl.
  { erewrite store_log_eq; [|apply load_log_Some; by rewrite Ho2, Ho1, lookup_insert_eq]. simpl.
    erewrite kfree_live; [|done|apply lookup_insert_eq]. simpl. eexists. left. split; [done|].
    split; [|by right]. simpl. by rewrite Ho2, Ho1, !delete_insert_eq, delete_id. }
  assert (Hne : arr <> la) by (intros ->; by rewrite Ho1, lookup_insert_eq in Hfr2).
  rewrite Ho1, lookup_insert_ne in Hfr2 by done.
  erewrite store_log_eq;
    [|apply load_log_Some; by rewrite Ho2, lookup_insert_ne, Ho1, lookup_insert_eq]. simpl.
  rewrite (proj2 (Z.eqb_neq _ _) Harr).
  erewrite store_log_eq; [|apply load_log_Some; apply lookup_insert_eq]. simpl.
  eexists. right. eexists. split; [done|]. split; [by intros [?|[_ ?]]|]. split; [done|]. split; [done|].
  split; [split; [apply load_log_Some; apply lookup_insert_eq|]|split_and!; [done..|]].
  - right. exists ∅. simpl.
    split_and!; [done|by rewrite !lookup_insert_ne, Ho2, lookup_insert_eq|].
    split; [split; simpl; unfold SIZEOF_FAI; lia|done|done].
  - intros a Ha Ha2. simpl in *. assert (a <> arr) by (apply Ha2; lia).
    by rewrite !lookup_insert_ne, Ho2, lookup_insert_ne, Ho1, lookup_insert_ne.
Qed.

Lemma enable_safe n sz pw s : policy_wf s -> sz * SIZEOF_FAI < 2 ^ 32 ->
  exists s' r, sys_enable_policy uninit n sz pw s = Some (s', r) /\ policy_wf s'.
Proof.
  intros Hwf Hsz. destruct (task_by_pid s n) as [[t p]|] eqn:E.
  2: { unfold sys_enable_policy. rewrite E. by eauto. }
  pose proof (task_by_pid_Some _ _ _ _ E) as (Hp & _ & _).
  destruct (Z.eq_dec pw PASSWORD) as [->|Hpw], (Z.eq_dec (policy_on p) 1) as [Hon|Hon],
    (Z.lt_ge_cases sz 0) as [Hneg|Hneg].
  4: { destruct (enable_cases n sz s t p E Hon Hneg Hsz) as (la & h' & [(-> & Ho & _)|(l & -> & Hc)]).
  - eexists _, _. split; [done|]. eapply (calls_wf_off ∅); try done.
    intros a _ _. simpl. by rewrite Ho.
  - destruct_and!. eexists _, _. split; [done|]. eapply (calls_wf_enabled ∅); try done.
    by left. }
  all: unfold sys_enable_policy; rewrite E.
  all: match goal with |- context [negb (?w =? PASSWORD)] =>
    destruct (Z.eqb_spec w PASSWORD), (Z.eqb_spec (policy_on p) 1), (Z.ltb_spec sz 0) end.
  all: first [done | lia | simpl; by eauto].
Qed.

(** *** The parts of the calls that sleep *)

Lemma set_task_id t p s : tasks s !! t = Some p -> set_task t p (s <| heap := heap s |>) = s.
Proof. intros Hp. destruct s. unfold set_task. simpl in *. by rewrite insert_id. Qed.

Lemma same_heap_id s : s <| heap := heap s |> = s.
Proof. by destruct s. Qed.

Lemma enable_begin_safe cs n sz pw s : calls_wf cs s -> sz * SIZEOF_FAI < 2 ^ 32 ->
  (forall t p, task_by_pid s n = Some (t, p) -> none_asleep cs enabling t) ->
  match enable_begin n sz pw s with
  | inl _ => True
  | inr (t, c) => cs !! t = None /\ calls_wf (<[t := c]> cs) s
  end.
Proof.
  intros Hwf Hsz Hno. unfold enable_begin. destruct (task_by_pid s n) as [[t p]|] eqn:E; [|done].
  pose proof (task_by_pid_Some _ _ _ _ E) as (Hp & _ & _).
  destruct (negb _); [done|]. destruct (Z.eqb_spec (policy_on p) 1) as [|Hoff]; [done|].
  destruct (Z.ltb_spec sz 0); [done|].
  assert (Hnone : cs !! t = None)
    by (apply none_asleep_both; [by eapply Hno|by eapply off_not_reading]).
  split; [done|]. rewrite <- (set_task_id t p s Hp).
  apply (calls_wf_off cs s Hwf t p Hp); rewrite ?Hnone, ?lookup_insert_eq; simpl; try done.
  intros t1 Hne. by rewrite lookup_insert_ne.
Qed.

Lemma get_log_begin_safe cs n sz um s : calls_wf cs s ->
  (forall t p, task_by_pid s n = Some (t, p) -> none_asleep cs (negb ∘ enabling) t) ->
  exists g, get_log_begin n sz um s = Some g /\
  match g with
  | inl _ => True
  | inr (t, c) => cs !! t = None /\ calls_wf (<[t := c]> cs) s
  end.
Proof.
  intros Hwf Hno. unfold get_log_begin. destruct (task_by_pid s n) as [[t p]|] eqn:E; [|by eexists].
  pose proof (task_by_pid_Some _ _ _ _ E) as (Hp & _ & _).
  destruct (Z.eqb_spec (policy_on p) 0) as [|Hoff]; [by eexists|].
  destruct (on_log _ _ _ _ Hwf Hp Hoff) as (Hon & Hnz & l & rs & Hat).
  pose proof (read_guard_spec _ _ _ _ sz Hat) as Hg. pose proof Hat as [Hl _]. rewrite Hl. simpl.
  destruct ((size l <? sz) || (sz <? 0)); [by eexists|]. simpl in Hg. rewrite Hg.
  destruct ((0 <=? sz) && (sz <=? count l)) eqn:G; simpl; [|by eexists]. b2p.
  eexists. split; [done|]. simpl.
  assert (Hnone : cs !! t = None)
    by (apply none_asleep_both; [by eapply on_not_enabling|by eapply Hno]).
  split; [done|]. rewrite <- (same_heap_id s).
  apply (calls_wf_log cs s Hwf t p Hp _ _ l l); rewrite ?Hnone, ?lookup_insert_eq; simpl; try done.
  - eapply log_at_readable; eauto.
  - intros t1 Hne. by rewrite lookup_insert_ne.
  - split; [done|]. exists l. split_and!; done || lia.
Qed.

(** The calls asleep once a call on [t] went on. *)
Definition after_call (g : call_outcome) (t : tid) (cs : gmap tid pcall) : gmap tid pcall :=
  match g with Returned _ _ => delete t cs | Asleep c => <[t := c]> cs end.

Lemma enable_log_back_safe cs t sz s : calls_wf cs s -> cs !! t = Some (EnableLog sz) ->
  exists s' g, enable_log_back uninit t sz s = Some (s', g) /\ calls_wf (after_call g t cs) s'.
Proof.
  intros Hwf Hc. destruct (pw_dom Hwf t) as [p Hp]; [by eexists|].
  pose proof (pw_call Hwf t p Hp) as Hok. rewrite Hc in Hok. destruct Hok as (Hoff & Hsz0 & Hsz).
  unfold enable_log_back. destruct (kmalloc SIZEOF_LOG _ _) as [la h1] eqn:K. rewrite Hp. simpl.
  apply kmalloc_cases in K as [[-> Ho]|(Hla & Hfr & Ho)]; simpl.
  { eexists _, _. split; [done|].
    apply (calls_wf_off cs s Hwf t p Hp); rewrite ?Hc; simpl; try done.
    - intros; by rewrite lookup_delete_ne.
    - by rewrite lookup_delete_eq.
    - intros a _ _. by rewrite Ho.
    - intros a. by rewrite lookup_delete_eq. }
  rewrite (proj2 (Z.eqb_neq _ _) Hla). destruct (Z.eqb_spec sz 0) as [->|Hne]; simpl.
  - unfold enable_finish. simpl. rewrite lookup_insert_eq. simpl.
    erewrite store_log_eq; [|apply load_log_Some; by rewrite Ho, lookup_insert_eq]. simpl.
    eexists _, _. split; [done|]. simpl.
    match goal with |- calls_wf _ ?s1 => replace s1 with
      (set_task t (p <| logArray := la |> <| policy_level := 2 |> <| policy_on := 1 |>)
         (s <| heap := heap s1 |>)) by (unfold set_task; simpl; by rewrite insert_insert_eq) end.
    eapply (calls_wf_enabled cs s Hwf t p Hp); rewrite ?Hc; simpl; try done.
    + by left.
    + split; [apply load_log_Some; apply lookup_insert_eq|by left].
    + simpl. lia.
    + intros a Ha _. by rewrite lookup_insert_ne, Ho, lookup_insert_ne.
    + intros; by rewrite lookup_delete_ne.
    + apply lookup_delete_eq.
  - eexists _, _. split; [done|]. simpl.
    apply (calls_wf_off cs s Hwf t p Hp); rewrite ?Hc, ?lookup_insert_eq; simpl; try done.
    + intros; by rewrite lookup_insert_ne.
    + split_and!; [done|lia|done|done|]. eexists. apply load_log_Some. by rewrite Ho, lookup_insert_eq.
    + intros a _ Hn. by rewrite Ho, lookup_insert_ne.
    + by intros a ->.
Qed.

Lemma enable_arr_back_safe cs t sz s : calls_wf cs s -> cs !! t = Some (EnableArr sz) ->
  exists s' g, enable_arr_back t sz s = Some (s', g) /\ calls_wf (after_call g t cs) s'.
Proof.
  intros Hwf Hc. destruct (pw_dom Hwf t) as [p Hp]; [by eexists|].
  pose proof (pw_call Hwf t p Hp) as Hok. rewrite Hc in Hok.
  destruct Hok as (Hoff & Hsz0 & Hsz & Hla & l0 & Hl0). apply load_log_Some in Hl0 as Ho0.
  unfold enable_arr_back. rewrite u32_small by (unfold SIZEOF_FAI in *; lia).
  destruct (kmalloc (sz * SIZEOF_FAI) _ _) as [arr h1] eqn:K. rewrite Hp. simpl.
  apply kmalloc_cases in K as [[-> Ho]|(Harr & Hfr & Ho)].
  - erewrite store_log_eq; [|apply load_log_Some; by rewrite Ho]. simpl.
    erewrite kfree_live; [|done|apply lookup_insert_eq]. simpl. eexists _, _. split; [done|]. simpl.
    match goal with |- calls_wf _ ?s1 =>
      replace s1 with (set_task t p (s <| heap := heap s1 |>))
        by (destruct s; unfold set_task; simpl in *; by rewrite insert_id) end.
    apply (calls_wf_off cs s Hwf t p Hp); rewrite ?Hc, ?lookup_delete_eq; simpl; try done.
    + intros; by rewrite lookup_delete_ne.
    + intros a Hn _. by rewrite lookup_delete_ne, lookup_insert_ne, Ho by done.
    + intros a -> _. apply lookup_delete_eq.
  - assert (Hne : arr <> logArray p) by congruence.
    erewrite store_log_eq; [|apply load_log_Some; by rewrite Ho, lookup_insert_ne]. simpl.
    rewrite (proj2 (Z.eqb_neq _ _) Harr). unfold enable_finish. simpl. rewrite Hp. simpl.
    erewrite store_log_eq; [|apply load_log_Some; apply lookup_insert_eq]. simpl.
    eexists _, _. split; [done|]. simpl.
    match goal with |- calls_wf _ ?s1 => replace s1 with
      (set_task t (p <| logArray := logArray p |> <| policy_level := 2 |> <| policy_on := 1 |>)
         (s <| heap := heap s1 |>)) by done end.
    eapply (calls_wf_enabled cs s Hwf t p Hp); rewrite ?Hc; simpl; try done.
    + by right.
    + split; [apply load_log_Some; apply lookup_insert_eq|]. right. exists ∅. simpl.
      split_and!; [done|by rewrite !lookup_insert_ne, Ho, lookup_insert_eq|].
      split; [split; simpl; unfold SIZEOF_FAI in *; lia|done|done].
    + done.
    + intros a Ha Ha2. assert (a <> arr) by (apply Ha2; simpl; lia).
      by rewrite !lookup_insert_ne, Ho, lookup_insert_ne by done.
    + intros; by rewrite lookup_delete_ne.
    + apply lookup_delete_eq.
Qed.

Lemma readable_unread h l rs n la : log_at h la l rs -> 0 <= n <= count l ->
  readable h (l <| indexRead := slot l n |>).
Proof.
  intros [_ [[He ->]|(recs & Hz & Ha & Hh)]] Hn.
  - left. rewrite (count_empty _ He) in Hn. replace n with 0 by lia. by rewrite slot_empty.
  - right. destruct (ring_advance _ _ _ _ Hh Hn) as [rs' ?]. exists recs, rs'. done.
Qed.

(** A ring is readable wherever the block of its records is as it was. *)
Lemma readable_frame h h' l : (0 < size l -> objs h' !! array l = objs h !! array l) ->
  readable h l -> readable h' l.
Proof.
  intros Hf [?|(recs & rs & ? & ? & Hh)]; [by left|right]. exists recs, rs.
  rewrite Hf; [done|]. apply Hh.
Qed.

Lemma get_log_tmp_back_safe cs t sz um prev s : calls_wf cs s ->
  cs !! t = Some (GetTmp sz um prev) ->
  exists s' g, get_log_tmp_back t sz um prev s = Some (s', g) /\ calls_wf (after_call g t cs) s'.
Proof.
  intros Hwf Hc. destruct (pw_dom Hwf t) as [p Hp]; [by eexists|].
  pose proof (pw_call Hwf t p Hp) as Hok. rewrite Hc in Hok.
  destruct Hok as (Hon & l & Hl & Hprev & Hsz).
  destruct (on_log _ _ _ _ Hwf Hp) as (_ & Hnz & l1 & rs & Hat); [lia|].
  pose proof Hat as [Hl1 _]. rewrite Hl in Hl1. injection Hl1 as <-.
  pose proof (log_at_size _ _ _ _ Hat) as [Hcs Hby].
  assert (Hrd : readable (heap s) l) by (eapply log_at_readable; eauto).
  unfold get_log_tmp_back. rewrite u32_small by (unfold SIZEOF_FAI in *; lia).
  destruct (kmalloc (sz * SIZEOF_FAI) _ _) as [tmp h1] eqn:K.
  apply kmalloc_cases in K as [[-> Ho]|(Htmp & Hfr & Ho)]; simpl.
  { eexists _, _. split; [done|]. simpl.
    apply (calls_wf_log cs s Hwf t p Hp _ h1 l l); rewrite ?Hc, ?lookup_delete_eq; simpl; try done.
    - unfold load_log. by rewrite Ho.
    - apply (readable_frame (heap s)); [by rewrite Ho|done].
    - intros; by rewrite lookup_delete_ne.
    - intros a _ _ _ _. by rewrite Ho. }
  rewrite (proj2 (Z.eqb_neq _ _) Htmp), Hp. simpl.
  destruct (copy_free_spec _ _ _ _ sz tmp h1 Hat Hsz Htmp Hfr Ho) as (h2 & h3 & -> & Hlr & Hkf & Ho3).
  simpl. eexists _, _. split; [done|]. simpl.
  assert (Ht2 : is_Some (objs h2 !! tmp) /\ forall a, a <> tmp -> objs h2 !! a = objs h3 !! a).
  { unfold kfree in Hkf. rewrite (proj2 (Z.eqb_neq _ _) Htmp) in Hkf.
    destruct (objs h2 !! tmp) eqn:E2; [|done]. simplify_eq/=. split; [by eexists|].
    intros a Ha. by rewrite lookup_delete_ne. }
  destruct Ht2 as [Ht2 Hsame].
  apply load_log_Some in Hl as Hlo. assert (Hne : tmp <> logArray p) by congruence.
  assert (Hl2 : load_log (logArray p) h2 = Some (l <| indexRead := slot l sz |>))
    by (apply load_log_Some; by rewrite Hsame, Ho3, lookup_insert_eq).
  assert (Harr : 0 < size l -> objs h2 !! array l = objs (heap s) !! array l).
  { intros Hpos. pose proof (log_at_distinct _ _ _ _ Hat Hpos).
    destruct Hat as [_ [[[? _] _]|(recs & _ & Ha & _)]]; [lia|].
    rewrite Hsame, Ho3, lookup_insert_ne by congruence. done. }
  apply (calls_wf_log cs s Hwf t p Hp _ h2 l (l <| indexRead := slot l sz |>));
    rewrite ?Hc, ?lookup_insert_eq; simpl; try done.
  - apply (readable_frame (heap s)); [done|]. by eapply readable_unread.
  - intros; by rewrite lookup_insert_ne.
  - split_and!; [done|done| |done|by rewrite Hlr|].
    + intros [_ [?|(k & Hk & Hpos & ->)]]; [done|]. rewrite Hl2 in Hk. simplify_eq. simpl in *.
      destruct Hat as [_ [[[? _] _]|(recs & _ & Ha & _)]]; [lia|congruence].
    + eexists. split; [done|]. apply (readable_frame (heap s)); [done|]. subst prev.
      clear -Hrd. by destruct l.
  - intros a Ha _ _ Hn. by rewrite Hsame, Ho3, lookup_insert_ne by done.
  - by intros a -> _.
Qed.

Lemma readable_unfull h l : readable h l -> readable h (l <| full := 0 |>).
Proof.
  intros [(E1 & E2 & E3 & _)|(recs & rs & Hz & Ha & Hh)]; [by left|right].
  destruct (ring_unfull _ _ _ Hh) as [rs' ?]. by exists recs, rs'.
Qed.

Lemma readable_reset h l : readable h l ->
  readable h (l <| full := 0 |> <| indexWrite := 0 |> <| indexRead := 0 |>).
Proof.
  intros [(E1 & E2 & E3 & _)|(recs & rs & Hz & Ha & [[? ? ? ? ?] _ _])]; [by left|right].
  exists recs, []. split_and!; [done..|]. split; [split; simpl; auto; lia| |done].
  unfold count. simpl. by rewrite Zmod_0_l.
Qed.

Lemma get_log_copy_back_safe cs t sz um prev tmp s : calls_wf cs s ->
  cs !! t = Some (GetCopy sz um prev tmp) ->
  exists s' g, get_log_copy_back copy_to_user t sz um prev tmp s = Some (s', g) /\
    calls_wf (after_call g t cs) s'.
Proof.
  intros Hwf Hc. destruct (pw_dom Hwf t) as [p Hp]; [by eexists|].
  pose proof (pw_call Hwf t p Hp) as Hok. rewrite Hc in Hok.
  destruct Hok as (Hon & Htmp & Hno & [o Ho] & [out Hlr] & l & Hl & Hback).
  destruct (on_log _ _ _ _ Hwf Hp) as (_ & Hnz & l1 & rs & Hat); [lia|].
  pose proof Hat as [Hl1 _]. rewrite Hl in Hl1. injection Hl1 as <-.
  assert (Hrd : readable (heap s) l) by (eapply log_at_readable; eauto).
  assert (Hne : tmp <> logArray p) by (intros ->; apply Hno; split; [done|by left]).
  assert (Hfin : forall h' l', size l' = size l -> array l' = array l -> readable (heap s) l' ->
    objs h' = <[logArray p := OLog l']> (delete tmp (objs (heap s))) ->
    calls_wf (delete t cs) (s <| heap := h' |>)).
  { intros h' l' Es Ea Hr' Ho'.
    apply (calls_wf_log cs s Hwf t p Hp _ h' l l'); rewrite ?Hc, ?lookup_delete_eq; simpl; try done.
    - apply load_log_Some. by rewrite Ho', lookup_insert_eq.
    - apply (readable_frame (heap s)); [|done]. rewrite Es, Ea. intros Hpos.
      rewrite Ho', lookup_insert_ne by (by eapply log_at_distinct).
      apply lookup_delete_ne. intros ->. apply Hno. split; [done|]. right. by exists l.
    - intros; by rewrite lookup_delete_ne.
    - intros a Ha _ Hn _. by rewrite Ho', lookup_insert_ne, lookup_delete_ne.
    - intros a -> _. by rewrite Ho', lookup_insert_ne, lookup_delete_eq. }
  unfold get_log_copy_back. rewrite Hlr. simpl. rewrite (kfree_live _ _ _ Htmp Ho), Hp. simpl.
  assert (Hl3 : load_log (logArray p) ((heap s) <| objs ::= delete tmp |>) = Some l).
  { apply load_log_Some. simpl. rewrite lookup_delete_ne by done. by apply load_log_Some. }
  rewrite !(store_log_eq _ _ _ _ Hl3). simpl. unfold load_log at 1. simpl. rewrite lookup_insert_eq. simpl.
  destruct (_ =? 0); simpl.
  - destruct (sz =? size l); simpl.
    + erewrite store_log_eq; [|apply load_log_Some; apply lookup_insert_eq]. simpl.
      eexists _, _. split; [done|].
      apply (Hfin _ (l <| full := 0 |> <| indexWrite := 0 |> <| indexRead := 0 |>));
        [done|done|by apply readable_reset|]. simpl. by rewrite insert_insert_eq.
    + eexists _, _. split; [done|]. apply (Hfin _ (l <| full := 0 |>)); [done|done|by apply readable_unfull|done].
  - eexists _, _. split; [done|]. by apply (Hfin _ (l <| indexRead := prev |>)).
Qed.

(** A sleeping call goes on without a memory error. *)
Lemma call_back_safe cs t c s : calls_wf cs s -> cs !! t = Some c ->
  exists s' g, call_back uninit copy_to_user t c s = Some (s', g) /\ calls_wf (after_call g t cs) s'.
Proof.
  destruct c; simpl; eauto using enable_log_back_safe, enable_arr_back_safe, get_log_tmp_back_safe,
    get_log_copy_back_safe.
Qed.
End calls.

(** A refused call needs a slot to be recorded in. *)
Definition can_log (s : pstate) (cur : tid) : Prop :=
  forall p l, tasks s !! cur = Some p -> policy_on p = 1 ->
    load_log (logArray p) (heap s) = Some l -> 0 < size l.

(** A call asleep on a task that reads its log still finds it as it needs it after
    a record was added. *)
Lemma call_ok_pushed h h' c p l rs r :
  call_ok h c p -> policy_on p = 1 -> log_at h (logArray p) l rs -> 0 < size l ->
  load_log (logArray p) h' = Some (pushed l) ->
  (forall recs, objs h !! array l = Some (OArr (size l * SIZEOF_FAI) recs) ->
    objs h' !! array l = Some (OArr (size l * SIZEOF_FAI) (<[indexWrite l := r]> recs))) ->
  same_except {[logArray p; array l]} h h' -> call_ok h' c p.
Proof.
  intros Hc Hon Hat Hpos Hl' Harr Hf. pose proof Hat as [Hl [[[? _] _]|(recs & Hz & Ha & Hh)]]; [lia|].
  destruct (pushed_fields l) as (E1 & E2 & E3 & _).
  destruct c as [[sz|sz|sz um prev|sz um prev tmp]|]; simpl in *; try naive_solver.
  - destruct Hc as (_ & k & Hk & Hprev & Hsz). simplify_eq. split; [done|]. exists (pushed k).
    split; [done|]. split; [by rewrite E3|]. split; [lia|]. rewrite count_pushed by apply Hh.
    pose proof (count_range k (rh_ok _ _ _ Hh)). destruct (_ =? _); lia.
  - destruct Hc as (_ & Htmp & Hno & Ht & Hlr & k & Hk & Hb). simplify_eq.
    assert (Hsame : objs h' !! tmp = objs h !! tmp).
    { apply Hf. intros Hin. apply Hno. split; [done|].
      apply elem_of_union in Hin as [->%elem_of_singleton| ->%elem_of_singleton]; [by left|right; by exists k]. }
    rewrite Hsame, (load_recs_frame _ _ _ h h') by done. split_and!; [done|done| |done|done|].
    + intros [_ [?|(k' & Hk' & ? & ->)]]; apply Hno; (split; [done|]); [by left|].
      rewrite Hl' in Hk'. simplify_eq. right. exists k. by rewrite E2.
    + exists (pushed k). split; [done|].
      destruct Hb as [[? _]|(recs1 & rs1 & _ & Ha1 & Hh1)]; [simpl in *; lia|]. simpl in Ha1.
      rewrite Ha in Ha1. simplify_eq.
      destruct (ring_push_back _ _ _ _ _ r Hh Hh1) as [rs' Hr]. right. eexists _, rs'.
      split; [simpl; by rewrite E2|]. split; [simpl; rewrite E1, E2; by apply Harr|exact Hr].
Qed.

Lemma hook_safe cs req cur j s : calls_wf cs s -> is_Some (tasks s !! cur) -> can_log s cur ->
  exists s' v, policy_hook req cur j s = Some (s', v) /\ calls_wf cs s'.
Proof.
  intros Hwf [p Hp] Hcan. unfold policy_hook. rewrite Hp. simpl.
  destruct ((policy_on p =? 1) && (policy_level p <? req)) eqn:D; [|by eauto]. b2p.
  destruct (on_log _ _ _ _ Hwf Hp) as (Hon & Hnz & l & rs & Hat); [lia|].
  pose proof Hat as [Hl _]. pose proof (Hcan p l Hp Hon Hl) as Hpos.
  destruct (log_forbidden_spec _ _ _ _ req (policy_level p) j Hat Hpos)
    as (h' & -> & Hat' & Hf & _ & Harr).
  simpl. eexists _, _. split; [done|].
  destruct (pushed_fields l) as (E1 & E2 & _). pose proof Hat' as [Hl' _].
  apply (calls_wf_log cs s Hwf cur p Hp cs h' l (pushed l)); try done.
  - by eapply log_at_readable; eauto.
  - eapply call_ok_pushed; [by apply (pw_call Hwf)|done..].
  - intros a Ha Ha2 _ _. apply Hf. pose proof (Ha2 Hpos). set_solver.
Qed.

Lemma pidhash_chain_dom pids h b q : pidhash_wf pids h -> q ∈ chain h b -> is_Some (pids !! q).
Proof. intros Hwf Hq. destruct (ph_chain _ _ Hwf _ _ Hq) as (? & ? & _). by eexists. Qed.

(** A new child, hashed under a pid no hashed task has. *)
Lemma fork_safe cs cur child newpid s : calls_wf cs s -> is_Some (tasks s !! cur) ->
  tasks s !! child = None ->
  find_task_by_pid (pid <$> tasks s) (pidhash s) newpid = None ->
  exists s', do_fork_policy cur child newpid s = Some s' /\ calls_wf cs s'.
Proof.
  intros Hwf [p Hp] Hchild Hfree. unfold do_fork_policy. rewrite Hp. simpl.
  eexists. split; [done|]. set (c := (do_fork_reset p) <| pid := newpid |>).
  assert (Hcc : cs !! child = None).
  { apply eq_None_not_Some. intros Hs. apply (pw_dom Hwf) in Hs as [? Hs]. congruence. }
  assert (Hoff : forall h a, ~ owned h (cs !! child) c a)
    by (intros h a; rewrite Hcc; intros [Ho|[]]; by apply off_owns in Ho).
  pose proof (pw_hash Hwf) as Hph.
  assert (Hne : forall b q, q ∈ chain (pidhash s) b -> q <> child).
  { intros b q Hq ->. apply (pidhash_chain_dom _ _ _ _ Hph) in Hq as [? Hq].
    by rewrite lookup_fmap, Hchild in Hq. }
  split; simpl.
  - rewrite fmap_insert. apply hash_pid_wf; [|by rewrite lookup_insert_eq|].
    + split.
      * intros b q Hq. rewrite lookup_insert_ne by (symmetry; eauto). by apply (ph_chain _ _ Hph).
      * intros b b' q q' n Hq Hq'. rewrite !lookup_insert_ne by (symmetry; eauto).
        by apply (ph_unique _ _ Hph b b').
    + destruct (find_task_by_pid (<[_ := _]> _) _ _) as [q|] eqn:E; [|done].
      apply find_task_sound in E as [[b Hb] Hq]. rewrite lookup_insert_ne in Hq by (symmetry; eauto).
      exfalso. eapply (find_task_None _ _ Hph newpid Hfree q); [by exists b|done].
  - intros t q. rewrite lookup_insert. case_decide; [|by apply (pw_task Hwf)].
    intros [= <-]. split; simpl; [by left|lia|done].
  - intros t q. rewrite lookup_insert. case_decide; [subst; by rewrite Hcc|by apply (pw_call Hwf)].
  - intros t Ht. rewrite lookup_insert. case_decide; [done|by apply (pw_dom Hwf)].
  - intros t t' q q' a. rewrite !lookup_insert. case_decide; case_decide; intros E E' O1 O2; simplify_eq.
    + done.
    + by apply Hoff in O1.
    + by apply Hoff in O2.
    + by apply (pw_own Hwf t t' q q' a).
  - intros a Ha. destruct (pw_live Hwf a Ha) as (t & q & Hq & Ho).
    exists t, q. rewrite lookup_insert_ne by congruence. done.
Qed.

(** A task that owns nothing can be unhashed and freed. *)
Lemma forget_task_wf cs s t p : calls_wf cs s -> tasks s !! t = Some p -> cs !! t = None ->
  (forall a, ~ owns (heap s) p a) ->
  calls_wf cs (PState (delete t (tasks s)) (unhash_pid (pid p) t (pidhash s)) (heap s)).
Proof.
  intros Hwf Hp Hnone Hno. pose proof (pw_hash Hwf) as Hph.
  assert (Hpid : (pid <$> tasks s) !! t = Some (pid p)) by (by rewrite lookup_fmap, Hp).
  pose proof (unhash_pid_in _ _ _ _ Hph Hpid) as Hin.
  pose proof (unhash_pid_wf _ _ _ _ Hph Hpid) as Hph'.
  split; simpl.
  - rewrite fmap_delete. split.
    + intros b q Hq. pose proof Hq as [_ Hne]%Hin. rewrite lookup_delete_ne by done.
      by apply (ph_chain _ _ Hph').
    + intros b b' q q' n Hq Hq'. pose proof Hq as [_ Hne]%Hin. pose proof Hq' as [_ Hne']%Hin.
      rewrite !lookup_delete_ne by done. by apply (ph_unique _ _ Hph' b b').
  - intros t1 q [_ Hq]%lookup_delete_Some. by apply (pw_task Hwf t1).
  - intros t1 q [_ Hq]%lookup_delete_Some. by apply (pw_call Hwf t1).
  - intros t1 Ht1. rewrite lookup_delete_ne; [by apply (pw_dom Hwf)|].
    intros ->. rewrite Hnone in Ht1. by destruct Ht1.
  - intros t1 t2 q1 q2 a [_ H1]%lookup_delete_Some [_ H2]%lookup_delete_Some.
    by apply (pw_own Hwf t1 t2).
  - intros a Ha. destruct (pw_live Hwf a Ha) as (t1 & q & Hq & Ho). exists t1, q.
    rewrite lookup_delete_ne; [done|]. intros ->. simplify_eq. rewrite Hnone in Ho. destruct Ho as [Ho|[]]. by apply Hno in Ho.
Qed.

Lemma release_safe cs t s : calls_wf cs s -> is_Some (tasks s !! t) -> cs !! t = None ->
  exists s', release_task_policy t s = Some s' /\ calls_wf cs s'.
Proof.
  intros Hwf [p Hp] Hnone. unfold release_task_policy. rewrite Hp. simpl.
  destruct (Z.eqb_spec (policy_on p) 0) as [Hoff|Hoff]; simpl.
  { eexists. split; [done|]. apply forget_task_wf; [done..|]. intros a. by apply off_owns; lia. }
  destruct (on_log _ _ _ _ Hwf Hp Hoff) as (Hon & Hnz & l & rs & Hat).
  pose proof Hat as [Hl _]. rewrite Hl. simpl.
  destruct (free_log_spec _ _ _ _ Hat Hnz) as (h' & Hf & Hh).
  unfold free_log in Hf. rewrite Hf. simpl. eexists. split; [done|].
  set (s1 := set_task t (p <| policy_on := 0 |>) (s <| heap := h' |>)).
  assert (Hwf1 : calls_wf cs s1).
  { eapply (calls_wf_freed cs s t p); [done..| |done]. apply (pw_task Hwf t p Hp). }
  assert (Hp1 : tasks s1 !! t = Some (p <| policy_on := 0 |>)) by apply lookup_insert_eq.
  assert (Hno : forall a, ~ owns (heap s1) (p <| policy_on := 0 |>) a)
    by (intros a; apply off_owns; simpl; lia).
  pose proof (forget_task_wf cs s1 t _ Hwf1 Hp1 Hnone Hno) as Hr.
  unfold s1 in Hr. simpl in Hr. by rewrite delete_insert_eq in Hr.
Qed.
