(* ===== verification/PolicyTheorems.v ===== *)
(** * What the policy component guarantees

    Memory safety of every sequence of operations, with calls that sleep between
    others; the refinement of the log to a bounded queue, the verdict of the
    hooks, the outcome of each call; and the inputs, and the overlaps of calls,
    on which the code departs from what it means to do. *)
From stdpp Require Import base gmap list option.
From S2P Require Import Prelude PidHash Slab Policy PolicyProofs PolicySafety.

(** ** Sequences of operations *)

(** The policy state, and the calls asleep: caller, target, and where it sleeps. *)
Record pworld := PWorld {
  st : pstate;
  calls : gmap tid (tid * pcall)
}.
#[export] Instance eta_pworld : Eta pworld := fun w => PWorld (st w) (calls w).

(** What a task can do: [Enable] and [GetLog] are the calls 243 and 246 up to
    their first sleep, made by task [k]; [Continue k] is the rest of the call of
    [k] up to its next sleep or its return.  Everything else does not sleep. *)
Inductive pop :=
  | Enable (k : tid) (n sz password : Z)
  | GetLog (k : tid) (n sz user_mem : Z)
  | Continue (k : tid)
  | Disable (n password : Z)
  | SetCapabilities (n level password : Z)
  | Hook (req : Z) (cur : tid) (jiffies : Z)
  | Fork (cur child : tid) (newpid : Z)
  | Release (t : tid).

(** A call of a kind sleeps on task [t]. *)
Definition asleep (P : pcall -> bool) (t : tid) (w : pworld) : bool :=
  existsb (fun e => (fst (snd e) =? t) && P (snd (snd e))) (map_to_list (calls w)).

Definition reading (c : pcall) : bool := negb (enabling c).

(** Call [k] returned at once, or sleeps. *)
Definition start (k : tid) (g : Z + tid * pcall) (w : pworld) : pworld :=
  match g with inl _ => w | inr tc => w <| calls ::= <[k := tc]> |> end.

Section run.
Context `{SlabLaws kobj} (uninit : log_array)
  (copy_to_user : Z -> list forbidden_activity_info -> Z).

Definition pexec (o : pop) (w : pworld) : option pworld :=
  match o with
  | Enable k n sz pw => Some (start k (enable_begin n sz pw (st w)) w)
  | GetLog k n sz um => g ← get_log_begin n sz um (st w); Some (start k g w)
  | Continue k =>
      '(t, c) ← calls w !! k;
      '(s, g) ← call_back uninit copy_to_user t c (st w);
      Some (PWorld s (match g with
                      | Returned _ _ => delete k (calls w)
                      | Asleep c' => <[k := (t, c')]> (calls w)
                      end))
  | Disable n pw => (fun r => w <| st := fst r |>) <$> sys_disable_policy n pw (st w)
  | SetCapabilities n lev pw =>
      (fun r => w <| st := fst r |>) <$> sys_set_process_capabilities n lev pw (st w)
  | Hook req cur j => (fun r => w <| st := fst r |>) <$> policy_hook req cur j (st w)
  | Fork cur child newpid => (fun s => w <| st := s |>) <$> do_fork_policy cur child newpid (st w)
  | Release t => (fun s => w <| st := s |>) <$> release_task_policy t (st w)
  end.

(** No call of a kind sleeps on the task of pid [n]. *)
Definition free_of (P : pcall -> bool) (n : Z) (w : pworld) : Prop :=
  match task_by_pid (st w) n with Some (t, _) => asleep P t w = false | None => True end.

(** The contract.  Of the rest of the kernel: hooks run in an existing task, a
    child is new and has a free pid, a task that sleeps makes no other call.  Of
    the callers: a log is asked for with a size whose product with the record
    size does not wrap around; a refused call has a slot to be recorded in; and
    calls on ONE target keep out of each other's way in four cases: no second
    enable and no second read starts while one sleeps on that target, the policy
    is not disabled while its log is being read, and the task is not released
    while a call sleeps on it.  The code takes no lock, so nothing enforces these
    four; each of them is needed (see [disable_during_read], [two_enables_leak],
    [two_reads_uninitialised], [release_during_enable]).  Everything else may
    happen while a call sleeps: calls on other targets, and on this one its own
    refused calls, its forks, changes of its level, a disable or a read while it
    is being enabled, an enable while it is being read. *)
Definition pvalid (o : pop) (w : pworld) : Prop :=
  match o with
  | Enable k n sz pw => calls w !! k = None /\ sz * SIZEOF_FAI < 2 ^ 32 /\ free_of enabling n w
  | GetLog k n sz um => calls w !! k = None /\ free_of reading n w
  | Continue k => is_Some (calls w !! k)
  | Disable n pw => free_of reading n w
  | Hook req cur j => is_Some (tasks (st w) !! cur) /\ can_log (st w) cur
  | Fork cur child newpid => is_Some (tasks (st w) !! cur) /\ tasks (st w) !! child = None /\
      find_task_by_pid (pid <$> tasks (st w)) (pidhash (st w)) newpid = None
  | Release t => is_Some (tasks (st w) !! t) /\ asleep (fun _ => true) t w = false
  | _ => True
  end.

(** One operation, as a transition. *)
Inductive pstep (w w' : pworld) : Prop :=
      PStep o : pvalid o w -> pexec o w = Some w' -> pstep w w'.
End run.

(** [cs] gives for each target the one call asleep on it. *)
Record by_target (calls : gmap tid (tid * pcall)) (cs : gmap tid pcall) : Prop := ByTarget {
  bt_sound : forall k t c, calls !! k = Some (t, c) -> cs !! t = Some c;
  bt_complete : forall t c, cs !! t = Some c -> exists k, calls !! k = Some (t, c);
  bt_one : forall k k' t c c', calls !! k = Some (t, c) -> calls !! k' = Some (t, c') -> k = k'
}.

(** At most one call sleeps on each target, and the invariant holds. *)
Definition world_wf (w : pworld) : Prop := exists cs, by_target (calls w) cs /\ calls_wf cs (st w).

Lemma by_target_insert calls cs k t c : by_target calls cs -> calls !! k = None -> cs !! t = None ->
  by_target (<[k := (t, c)]> calls) (<[t := c]> cs).
Proof.
  intros [Hs Hc Ho] Hk Ht. split.
  - intros k1 t1 c1. rewrite !lookup_insert. case_decide as D.
    + intros [= <- <-]. by rewrite decide_True.
    + intros H1%Hs. rewrite decide_False by congruence. done.
  - intros t1 c1. rewrite lookup_insert. case_decide.
    + intros [= <-]. subst. exists k. apply lookup_insert_eq.
    + intros [k1 Hk1]%Hc. exists k1. rewrite lookup_insert_ne; [done|congruence].
  - intros k1 k2 t1 c1 c2. rewrite !lookup_insert. case_decide; case_decide; intros E1 E2; simplify_eq; [done| | |].
    + apply Hs in E2. congruence.
    + apply Hs in E1. congruence.
    + by eapply Ho.
Qed.

Lemma by_target_delete calls cs k t c : by_target calls cs -> calls !! k = Some (t, c) ->
  by_target (delete k calls) (delete t cs).
Proof.
  intros [Hs Hc Ho] Hk. split.
  - intros k1 t1 c1 [Hne H1]%lookup_delete_Some. rewrite lookup_delete_ne; [by apply Hs in H1|].
    intros ->. by destruct Hne; eapply Ho.
  - intros t1 c1 [Hne [k1 H1]%Hc]%lookup_delete_Some. exists k1. rewrite lookup_delete_ne; [done|congruence].
  - intros k1 k2 t1 c1 c2 [_ H1]%lookup_delete_Some [_ H2]%lookup_delete_Some. by eapply Ho.
Qed.

Lemma by_target_move calls cs k t c c' : by_target calls cs -> calls !! k = Some (t, c) ->
  by_target (<[k := (t, c')]> calls) (<[t := c']> cs).
Proof.
  intros Hb Hk. pose proof (by_target_insert _ _ k t c' (by_target_delete _ _ _ _ _ Hb Hk)) as H.
  rewrite !insert_delete_eq in H. apply H; apply lookup_delete_eq.
Qed.

Lemma asleep_false P t w cs : asleep P t w = false -> by_target (calls w) cs -> none_asleep cs P t.
Proof.
  intros Ha Hb c Hc. destruct (bt_complete _ _ Hb _ _ Hc) as [k Hk].
  destruct (P c) eqn:E; [|done]. unfold asleep in Ha. apply not_true_iff_false in Ha. destruct Ha.
  apply existsb_exists. exists (k, (t, c)). split; [|simpl; by rewrite Z.eqb_refl, E].
  apply list_elem_of_In, elem_of_map_to_list. done.
Qed.

Lemma free_of_none P n w cs : free_of P n w -> by_target (calls w) cs ->
  forall t p, task_by_pid (st w) n = Some (t, p) -> none_asleep cs P t.
Proof. unfold free_of. intros Hf Hb t p E. rewrite E in Hf. by eapply asleep_false. Qed.

Section safe.
Context `{SlabLaws kobj} (uninit : log_array)
  (copy_to_user : Z -> list forbidden_activity_info -> Z).
#[local] Notation pexec := (pexec uninit copy_to_user).
#[local] Notation pstep := (pstep uninit copy_to_user).

Lemma continue_safe k w : world_wf w -> is_Some (calls w !! k) ->
  exists w', pexec (Continue k) w = Some w' /\ world_wf w'.
Proof.
  intros (cs & Hb & Hwf) [[t c] Hk]. simpl. rewrite Hk. simpl.
  destruct (call_back_safe uninit copy_to_user cs t c (st w) Hwf) as (s' & g & -> & Hwf');
    [by eapply bt_sound|].
  simpl. eexists. split; [done|]. exists (after_call g t cs). split; [|done].
  destruct g; simpl; eauto using by_target_delete, by_target_move.
Qed.

Lemma pexec_safe o w : world_wf w -> pvalid o w -> exists w', pexec o w = Some w' /\ world_wf w'.
Proof.
  intros Hw Hv. pose proof Hw as (cs & Hb & Hwf). destruct o; simpl in Hv |- *.
  - destruct Hv as (Hk & Hsz & Hf). eexists. split; [done|].
    pose proof (enable_begin_safe cs n sz password (st w) Hwf Hsz (free_of_none _ _ _ _ Hf Hb)) as Hbeg.
    destruct (enable_begin _ _ _ _) as [r|[t c]]; [done|]. destruct Hbeg as [Ht Hwf'].
    exists (<[t := c]> cs). split; [by apply by_target_insert|done].
  - destruct Hv as (Hk & Hf).
    destruct (get_log_begin_safe cs n sz user_mem (st w) Hwf (free_of_none _ _ _ _ Hf Hb)) as (g & -> & Hg).
    simpl. eexists. split; [done|]. destruct g as [r|[t c]]; [done|]. destruct Hg as [Ht Hwf'].
    exists (<[t := c]> cs). split; [by apply by_target_insert|done].
  - by apply continue_safe.
  - destruct (disable_safe cs n password (st w) Hwf (free_of_none _ _ _ _ Hv Hb)) as (s' & r & -> & ?).
    eexists. split; [done|]. by exists cs.
  - destruct (set_capabilities_safe cs n level password (st w) Hwf) as (s' & r & -> & ?).
    eexists. split; [done|]. by exists cs.
  - destruct Hv. destruct (hook_safe cs req cur jiffies (st w)) as (s' & v & -> & ?); [done..|].
    eexists. split; [done|]. by exists cs.
  - destruct Hv as (? & ? & ?). destruct (fork_safe cs cur child newpid (st w)) as (s' & -> & ?); [done..|].
    eexists. split; [done|]. by exists cs.
  - destruct Hv as [? Ha]. destruct (release_safe cs t (st w)) as (s' & -> & ?); [done..| |].
    + pose proof (asleep_false _ _ _ _ Ha Hb) as Hn. destruct (cs !! t) as [c|] eqn:E; [|done].
      by apply Hn in E.
    + eexists. split; [done|]. by exists cs.
Qed.

Lemma psteps_wf w w' : world_wf w -> rtc pstep w w' -> world_wf w'.
Proof.
  intros Hw Hr. induction Hr as [|w1 w2 w3 [o Hv He] _ IH]; [done|]. apply IH.
  destruct (pexec_safe o w1 Hw Hv) as (? & ? & ?). by simplify_eq.
Qed.

(** C1. From a well-formed state, after any number of operations of any tasks,
    with the calls that sleep cut at each sleep and the others running in between
    within the contract [pvalid] (which excludes four overlaps of calls on one
    target), the state is well formed and the next operation or part of a
    call, whichever it is, runs without a memory error: no wild, dangling or
    out-of-bounds access, no double free, no read of uninitialised memory. *)
Theorem policy_memory_safe w w' : world_wf w -> rtc pstep w w' ->
  world_wf w' /\ forall o, pvalid o w' -> is_Some (pexec o w').
Proof.
  intros Hw Hr. pose proof (psteps_wf w w' Hw Hr) as Hw'. split; [done|]. intros o Hv.
  destruct (pexec_safe o w' Hw' Hv) as (? & ? & _). by eexists.
Qed.

(** C2. No operation leaks: in every state reached within the same contract, if no
    task has its policy on, then the objects of the policy left in kernel memory
    are exactly the descriptors of the logs that sleeping enables are about to
    complete; when no call sleeps there are none. *)
Theorem policy_no_leak w w' : world_wf w -> rtc pstep w w' ->
  (forall t p, tasks (st w') !! t = Some p -> policy_on p = 0) ->
  (forall a, is_Some (objs (heap (st w')) !! a) <->
    exists k t p sz, calls w' !! k = Some (t, EnableArr sz) /\ tasks (st w') !! t = Some p /\
      a = logArray p) /\
  (calls w' = ∅ -> objs (heap (st w')) = ∅).
Proof.
  intros Hw Hr Hoff. destruct (psteps_wf w w' Hw Hr) as (cs & Hb & Hwf).
  assert (Hex : forall a, is_Some (objs (heap (st w')) !! a) <->
    exists k t p sz, calls w' !! k = Some (t, EnableArr sz) /\ tasks (st w') !! t = Some p /\
      a = logArray p).
  { intros a. split.
    - intros Ha. destruct (pw_live Hwf a Ha) as (t & p & Hp & [[Hon _]|Hh]); [apply Hoff in Hp; lia|].
      pose proof (pw_call Hwf t p Hp) as Hc. destruct (cs !! t) as [c|] eqn:E; [|done].
      destruct (bt_complete _ _ Hb _ _ E) as [k Hk].
      destruct c; simpl in *; [done|by exists k, t, p, sz|done|]. destruct Hc as [Hon _].
      apply Hoff in Hp. lia.
    - intros (k & t & p & sz & Hk & Hp & ->). pose proof (pw_call Hwf t p Hp) as Hc.
      rewrite (bt_sound _ _ Hb _ _ _ Hk) in Hc. destruct Hc as (_ & _ & _ & _ & l & Hl).
      apply load_log_Some in Hl. by eexists. }
  split; [done|]. intros Hnone. apply map_empty. intros a. apply eq_None_not_Some.
  intros (k & t & p & sz & Hk & _)%Hex. by rewrite Hnone, lookup_empty in Hk.
Qed.
End safe.

(** The state at boot: one task, with pid 1 and the policy off. *)
Definition boot_state : pstate :=
  PState {[1 := PTask 1 0 2 0]} (hash_pid 1 1 ∅) (KHeap ∅ 0).

Lemma boot_wf : policy_wf boot_state.
Proof.
  split; simpl.
  - rewrite map_fmap_singleton. apply hash_pid_wf.
    + split; intros b; intros; exfalso; unfold chain in *; rewrite lookup_empty in *; set_solver.
    + by rewrite lookup_singleton_eq.
    + done.
  - intros t p [<- <-]%lookup_singleton_Some. by split; simpl; [left|lia|].
  - intros t p _. by rewrite lookup_empty.
  - intros t. rewrite lookup_empty. by intros [].
  - intros t t' p p' a [<- <-]%lookup_singleton_Some [<- <-]%lookup_singleton_Some. done.
  - intros a. rewrite lookup_empty. by intros [].
Qed.

Definition boot_world : pworld := PWorld boot_state ∅.

Lemma boot_world_wf : world_wf boot_world.
Proof.
  exists ∅. split; [split; simpl; intros *; by rewrite lookup_empty|exact boot_wf].
Qed.

(** An allocator that always succeeds, any initial memory content, and a
    [copy_to_user] that always succeeds, for evaluating the calls. *)
Definition junk : log_array := LogArray 7 7 7 7 0.
Definition copy_ok (_ : Z) (_ : list forbidden_activity_info) : Z := 0.
#[local] Existing Instance bump_alloc.

Fixpoint run (os : list pop) (w : pworld) : option pworld :=
  match os with [] => Some w | o :: os' => w1 ← pexec junk copy_ok o w; run os' w1 end.

(** Each operation is within its contract when it runs. *)
Fixpoint valid_run (os : list pop) (w : pworld) : Prop :=
  match os with
  | [] => True
  | o :: os' => pvalid o w /\
      match pexec junk copy_ok o w with Some w1 => valid_run os' w1 | None => False end
  end.

(** The world some operations lead to. *)
Definition after (os : list pop) : pworld := default boot_world (run os boot_world).

(** Task 2 enables the policy of task 1, and its level is lowered; a fork of task 1
    is refused; task 2 starts to read the log and sleeps in [copy_to_user]; another
    fork of task 1 is refused. *)
Definition ops_enabled : list pop := [Enable 2 1 3 PASSWORD; Continue 2; Continue 2].
Definition ops_denied : list pop := ops_enabled ++ [SetCapabilities 1 0 PASSWORD; Hook 2 1 100].
Definition ops_reading : list pop := ops_denied ++ [GetLog 2 1 1 0; Continue 2].
Definition ops_meanwhile : list pop := ops_reading ++ [Hook 2 1 200].

Definition st_enabled : pstate := st (after ops_enabled).
Definition st_level0 : pstate := st (after (ops_enabled ++ [SetCapabilities 1 0 PASSWORD])).
Definition st_denied : pstate := st (after ops_denied).

Lemma st_enabled_wf : policy_wf st_enabled.
Proof.
  destruct (enable_safe junk 1 3 PASSWORD boot_state boot_wf) as (s' & r & Hs & Hwf); [done|].
  vm_compute in Hs. by injection Hs as <- <-.
Qed.

Lemma valid_run_steps os : forall w, valid_run os w ->
  exists w', run os w = Some w' /\ rtc (pstep junk copy_ok) w w'.
Proof.
  induction os as [|o os IH]; intros w Hv; simpl in *; [eexists; split; [done|apply rtc_refl]|].
  destruct Hv as [Hv Hr]. destruct (pexec junk copy_ok o w) as [w1|] eqn:E; [|done]. simpl.
  destruct (IH w1 Hr) as (w' & -> & Hw'). exists w'. split; [done|].
  eapply rtc_l; [|done]. by exists o.
Qed.

Lemma after_steps os : valid_run os boot_world -> rtc (pstep junk copy_ok) boot_world (after os).
Proof. intros Hv. unfold after. by destruct (valid_run_steps os boot_world Hv) as (w' & -> & ?). Qed.

(** Evaluates the contract of each operation of a concrete run. *)
Ltac check_run := vm_compute; repeat split; try done; try (by eexists);
  intros ? ? [= <-] _ [= <-]; done.

Lemma ops_meanwhile_valid : valid_run ops_meanwhile boot_world.
Proof. check_run. Qed.

(** The read of task 2 sleeps in [copy_to_user] while a record is added. *)
Lemma policy_memory_safe_witness :
  calls (after ops_meanwhile) = {[2 := (1, GetCopy 1 0 0 3)]} /\
  world_wf (after ops_meanwhile) /\
  forall o, pvalid o (after ops_meanwhile) -> is_Some (pexec junk copy_ok o (after ops_meanwhile)).
Proof.
  split; [by vm_compute|].
  apply (policy_memory_safe junk copy_ok boot_world (after ops_meanwhile) boot_world_wf).
  apply after_steps, ops_meanwhile_valid.
Defined.

(** The log read and the policy disabled; task 3 enables it again and sleeps in its
    second [kmalloc]. *)
Definition ops_again : list pop :=
  ops_meanwhile ++ [Continue 2; Disable 1 PASSWORD; Enable 3 1 5 PASSWORD; Continue 3].

Lemma ops_again_valid : valid_run ops_again boot_world.
Proof. check_run. Qed.

Lemma policy_no_leak_witness :
  calls (after ops_again) = {[3 := (1, EnableArr 5)]} /\
  (forall a, is_Some (objs (heap (st (after ops_again))) !! a) <->
    exists k t p sz, calls (after ops_again) !! k = Some (t, EnableArr sz) /\
      tasks (st (after ops_again)) !! t = Some p /\ a = logArray p) /\
  (calls (after ops_again) = ∅ -> objs (heap (st (after ops_again))) = ∅).
Proof.
  split; [by vm_compute|].
  apply (policy_no_leak junk copy_ok boot_world (after ops_again) boot_world_wf).
  - apply after_steps, ops_again_valid.
  - intros t p Hp. vm_compute in Hp.
    destruct t as [|[t|t|]|t]; simplify_eq; try done.
    all: vm_compute in Hp; simplify_eq; done.
Defined.

(** *** The overlaps the contract excludes

    Each of the four runs is one in which every operation but one is within the
    contract: the two calls are on one target and both sleep, or one sleeps while
    the other runs. *)

(** A policy disabled while its log is being copied to the user: the descriptor
    that [sys_get_process_log] goes on to write is freed memory. *)
Theorem disable_during_read :
  exists w, run (ops_reading ++ [Disable 1 PASSWORD]) boot_world = Some w /\
    pexec junk copy_ok (Continue 2) w = None.
Proof. exists (after (ops_reading ++ [Disable 1 PASSWORD])). split; vm_compute; reflexivity. Qed.

(** Two enables of one task that both found its policy off: the second one replaces
    [p->logArray], and what the first one allocated stays in memory when every
    policy is off and no call sleeps. *)
Theorem two_enables_leak :
  exists w, run [Enable 2 1 3 PASSWORD; Enable 3 1 3 PASSWORD; Continue 2; Continue 2; Continue 3;
                 Continue 3; Disable 1 PASSWORD] boot_world = Some w /\
    calls w = ∅ /\ tasks (st w) = {[1 := PTask 1 0 2 3]} /\
    objs (heap (st w)) = {[1 := OLog (LogArray 0 0 3 0 2); 2 := OArr 36 ∅]}.
Proof. exists (after ([Enable 2 1 3 PASSWORD; Enable 3 1 3 PASSWORD; Continue 2; Continue 2;
    Continue 3; Continue 3; Disable 1 PASSWORD])). split_and!; vm_compute; reflexivity. Qed.

(** Two reads of one record that both found it there: the second one copies to the
    user a slot that was never written. *)
Theorem two_reads_uninitialised :
  exists w, run (ops_denied ++ [GetLog 2 1 1 0; GetLog 3 1 1 0; Continue 2]) boot_world = Some w /\
    pexec junk copy_ok (Continue 3) w = None.
Proof. exists (after (ops_denied ++ [GetLog 2 1 1 0; GetLog 3 1 1 0; Continue 2])). split; vm_compute; reflexivity. Qed.

(** A task released while its policy is being enabled: the call goes on to write
    to its descriptor, which is gone. *)
Theorem release_during_enable :
  exists w, run [Enable 2 1 3 PASSWORD; Release 1] boot_world = Some w /\
    pexec junk copy_ok (Continue 2) w = None.
Proof. exists (after ([Enable 2 1 3 PASSWORD; Release 1])). split; vm_compute; reflexivity. Qed.

(** ** The log is a bounded queue *)

(** The abstract log: a capacity and the unread records, oldest first. *)
Record alog := ALog { cap : Z; unread : list forbidden_activity_info }.

Definition a_deny (r : forbidden_activity_info) (a : alog) : alog :=
  ALog (cap a) (unread a ++ [r]).

Definition a_read (n : Z) (a : alog) : option (list forbidden_activity_info * alog) :=
  if (0 <=? n) && (n <=? Z.of_nat (length (unread a)))
  then Some (take (Z.to_nat n) (unread a), ALog (cap a) (drop (Z.to_nat n) (unread a)))
  else None.

Definition a_full (a : alog) : Prop := cap a <= Z.of_nat (length (unread a)).

(** The log of task [t] implements [a]; a ring that is full was not overrun. *)
Definition log_refines (s : pstate) (t : tid) (a : alog) : Prop :=
  exists p l, tasks s !! t = Some p /\ policy_on p = 1 /\
    log_at (heap s) (logArray p) l (unread a) /\ cap a = size l /\
    (full l = 1 -> indexWrite l = indexRead l).

Lemma log_refines_heap s t a h' : log_refines s t a -> objs h' = objs (heap s) ->
  log_refines (s <| heap := h' |>) t a.
Proof.
  intros (p & l & Hp & Hon & Hat & Hc & Hf) Ho. exists p, l. split_and!; [done..| |done|done].
  unfold log_at, load_log in *. simpl. by rewrite Ho.
Qed.

(** C3. A call refused to a task whose log has room appends one record (the level
    the call needs, the level of the task, the time) to the abstract log. *)
Theorem deny_refines s cur p req j a :
  log_refines s cur a -> ~ a_full a -> tasks s !! cur = Some p -> policy_level p < req ->
  exists s', policy_hook req cur j s = Some (s', Some (- EINVAL)) /\
    log_refines s' cur (a_deny (Fai req (policy_level p) j) a).
Proof.
  intros (p' & l & Hp' & Hon & Hat & Hc & Hf) Hroom Hp Hlev. assert (p' = p) as -> by congruence. clear Hp'.
  pose proof (log_at_count _ _ _ _ Hat) as Hcnt. unfold a_full in Hroom.
  assert (Hnf : (full l =? 1) = false).
  { apply Z.eqb_neq. intros F. unfold count in Hcnt. rewrite F in Hcnt. simpl in Hcnt. lia. }
  destruct (log_forbidden_spec _ _ _ _ req (policy_level p) j Hat) as (h' & Hlf & Hat' & _ & _); [lia|].
  unfold policy_hook. rewrite Hp. simpl. rewrite Hon, (proj2 (Z.ltb_lt _ _) Hlev). simpl.
  rewrite Hlf. simpl. eexists. split; [done|]. exists p, (pushed l).
  unfold push_records in Hat'. rewrite Hnf in Hat'.
  destruct (pushed_fields l) as (E1 & _ & E3 & E4 & E5). rewrite E1, E3, E4, E5. split_and!; [done..|].
  destruct (Z.eqb_spec (ring_next (size l) (indexWrite l)) (indexRead l)); [done|].
  apply Z.eqb_neq in Hnf. done.
Qed.

Section read.
Context `{SlabLaws kobj} (copy_to_user : Z -> list forbidden_activity_info -> Z).

(** C4. [sys_get_process_log] reads the abstract log: a request for more records
    than there are is refused and changes nothing; otherwise, unless memory or the
    copy to the user fails (and then nothing changes), it delivers the oldest
    records in order and removes exactly those.  The one excluded input is a read
    of no records from a full log. *)
Theorem get_log_refines s n sz um t p a :
  log_refines s t a -> task_by_pid s n = Some (t, p) -> (sz <> 0 \/ ~ a_full a) ->
  exists s' r out, sys_get_process_log copy_to_user n sz um s = Some (s', r, out) /\
  match a_read sz a with
  | None => r = - EINVAL /\ out = [] /\ log_refines s' t a
  | Some (taken, a') =>
  (r = 0 /\ out = taken /\ log_refines s' t a') \/
  (r = - ENOMEM /\ out = [] /\ log_refines s' t a /\
  (fst (kmalloc (sz * SIZEOF_FAI) (OArr (sz * SIZEOF_FAI) ∅) (heap s)) = 0 \/
  copy_to_user um taken <> 0))
  end.
Proof.
  intros Href Ht Hex. pose proof Href as (p' & l & Hp & Hon & Hat & Hc & Hf).
  pose proof (task_by_pid_Some _ _ _ _ Ht) as (Hp2 & _ & _).
  assert (p' = p) as -> by congruence. clear Hp2.
  pose proof (log_at_count _ _ _ _ Hat) as Hcnt. unfold a_full in Hex.
  destruct (get_log_cases copy_to_user s n sz um t p l (unread a) Ht) as (h' & r & out & -> & Hcase);
    [lia|done|].
  eexists _, _, _. split; [done|]. unfold a_read. rewrite Hcnt.
  destruct Hcase as [(Hn & -> & -> & Ho)|[(Hn & -> & -> & Ho & Hwhy)|(Hn & -> & -> & Ho)]].
  - replace ((0 <=? sz) && (sz <=? count l)) with false by lia.
    split_and!; [done..|]. by apply log_refines_heap.
  - replace ((0 <=? sz) && (sz <=? count l)) with true by lia. right.
    split_and!; [done..| |done]. by apply log_refines_heap.
  - replace ((0 <=? sz) && (sz <=? count l)) with true by lia. left. split_and!; [done..|].
    pose proof Hat as [Hl Hring]. apply load_log_Some in Hl.
    exists p, (consumed l sz). simpl. destruct (consumed_fields l sz) as [Es Ea].
    split_and!; [done|done| |by rewrite Es|].
    + split; [apply load_log_Some; simpl; by rewrite Ho, lookup_insert_eq|]. simpl.
      destruct Hring as [[He Hnil]|(recs & Haz & Ha & Hh)].
      * left. pose proof (count_empty _ He). rewrite Hnil, drop_nil. split; [|done].
        destruct He as (F1 & F2 & F3 & F4). unfold consumed. replace sz with 0 by lia. by rewrite F1.
      * right. exists recs. rewrite Es, Ea, Ho, lookup_insert_ne by congruence.
        split_and!; [done..|]. apply ring_consume; [done|lia|]. intros F. split; [auto|].
        unfold count in *. rewrite F in *. simpl in *. lia.
    + unfold consumed. by destruct (_ =? _).
Qed.
End read.

(** A log of three records, one of them written, for the witnesses. *)
Definition rec100 : forbidden_activity_info := Fai 2 0 100.

Lemma st_level0_log : log_refines st_level0 1 (ALog 3 []).
Proof.
  exists (PTask 1 1 0 1), (LogArray 0 0 3 0 2). split_and!; [by vm_compute..| |done|done].
  split; [by vm_compute|]. right. exists ∅. split_and!; [done|by vm_compute|].
  split; [split; simpl; unfold SIZEOF_FAI; lia|done|done].
Qed.

Lemma st_denied_log : log_refines st_denied 1 (ALog 3 [rec100]).
Proof.
  exists (PTask 1 1 0 1), (LogArray 1 0 3 0 2). split_and!; [by vm_compute..| |done|done].
  split; [by vm_compute|]. right. exists {[0 := rec100]}. split_and!; [done|by vm_compute|].
  split; [split; simpl; unfold SIZEOF_FAI; lia|done|].
  intros [|k] r; [by intros [= <-]|done].
Qed.

Lemma deny_refines_witness :
  exists s', policy_hook 2 1 100 st_level0 = Some (s', Some (- EINVAL)) /\
    log_refines s' 1 (ALog 3 [rec100]).
Proof.
  apply (deny_refines st_level0 1 (PTask 1 1 0 1) 2 100 (ALog 3 []) st_level0_log).
  - by vm_compute.
  - by vm_compute.
  - done.
Defined.

Lemma get_log_refines_witness :
  exists s' r out, sys_get_process_log copy_ok 1 1 0 st_denied = Some (s', r, out) /\
    ((r = 0 /\ out = [rec100] /\ log_refines s' 1 (ALog 3 [])) \/
     (r = - ENOMEM /\ out = [] /\ log_refines s' 1 (ALog 3 [rec100]) /\
      (fst (kmalloc 12 (OArr 12 ∅) (heap st_denied)) = 0 \/ copy_ok 0 [rec100] <> 0))).
Proof.
  apply (get_log_refines copy_ok st_denied 1 1 0 1 (PTask 1 1 0 1) (ALog 3 [rec100]) st_denied_log).
  - by vm_compute.
  - by left.
Defined.

(** ** The calls *)

(** What a hook answers a task of level [lev] for a call that needs level [req]. *)
Definition verdict (req lev : Z) : option Z := if lev <? req then Some (- EINVAL) else None.

(** The same objects are live, with the same content. *)
Definition same_memory (s s' : pstate) : Prop := forall a, objs (heap s') !! a = objs (heap s) !! a.

(** C5. After [sys_set_process_capabilities] set the level of a task, that task may
    fork only at level 2, and may wait or yield only at level 1 or 2; and the
    hooks that let a call go on change nothing. *)
Theorem level_controls_calls n lev pw s s' t p j :
  policy_wf s -> can_log s t -> task_by_pid s n = Some (t, p) ->
  sys_set_process_capabilities n lev pw s = Some (s', 0) ->
  exists f w, do_fork_hook t j s' = Some f /\ sys_wait4_hook t j s' = Some w /\
    sys_sched_yield_hook t j s' = Some w /\
    snd f = verdict 2 lev /\ snd w = verdict 1 lev /\
    (lev = 2 -> fst f = s') /\ (1 <= lev -> fst w = s').
Proof.
  intros Hwf Hcan Ht Hset. pose proof (task_by_pid_Some _ _ _ _ Ht) as (Hp & _ & _).
  unfold sys_set_process_capabilities in Hset. rewrite Ht in Hset.
  destruct ((2 <? lev) || (lev <? 0)) eqn:Hr; [done|].
  destruct (pw =? PASSWORD); [|done]. destruct (policy_on p =? 0) eqn:Hoff; [done|].
  simpl in Hset. injection Hset as <-. b2p.
  destruct (on_log _ _ _ _ Hwf Hp Hoff) as (Hon & Hnz & l & rs & Hat).
  set (s' := set_task t (p <| policy_level := lev |>) s).
  assert (Hwf' : policy_wf s') by (eapply calls_wf_task; [done..|simpl; lia]).
  assert (Hp' : tasks s' !! t = Some (p <| policy_level := lev |>)) by apply lookup_insert_eq.
  assert (Hcan' : can_log s' t).
  { intros q k Hq _ Hk. rewrite Hp' in Hq. injection Hq as <-. by apply (Hcan p k). }
  destruct (hook_safe ∅ 2 t j s' Hwf' (mk_is_Some _ _ Hp') Hcan') as (f & vf & Hf & _).
  destruct (hook_safe ∅ 1 t j s' Hwf' (mk_is_Some _ _ Hp') Hcan') as (w & vw & Hw & _).
  exists (f, vf), (w, vw). split_and!; [done..| | | |]; simpl.
  all: unfold policy_hook in Hf, Hw; rewrite Hp' in Hf, Hw; simpl in Hf, Hw;
    rewrite Hon in Hf, Hw; simpl in Hf, Hw.
  - unfold verdict. destruct (lev <? 2); [|by simplify_eq].
    by apply bind_Some in Hf as (? & _ & [= _ <-]).
  - unfold verdict. destruct (lev <? 1); [|by simplify_eq].
    by apply bind_Some in Hw as (? & _ & [= _ <-]).
  - intros ->. by simplify_eq/=.
  - intros Hl. rewrite (proj2 (Z.ltb_ge _ _) Hl) in Hw. by simplify_eq/=.
Qed.

Lemma level_controls_calls_witness :
  exists f w, do_fork_hook 1 9 st_level0 = Some f /\ sys_wait4_hook 1 9 st_level0 = Some w /\
    sys_sched_yield_hook 1 9 st_level0 = Some w /\ snd f = verdict 2 0 /\
    snd w = verdict 1 0 /\ (0 = 2 -> fst f = st_level0) /\ (1 <= 0 -> fst w = st_level0).
Proof.
  apply (level_controls_calls 1 0 PASSWORD st_enabled st_level0 1 (PTask 1 1 2 1) 9).
  - exact st_enabled_wf.
  - intros p l Hp _ Hl. vm_compute in Hp. injection Hp as <-. vm_compute in Hl. by injection Hl as <-.
  - by vm_compute.
  - by vm_compute.
Defined.

Section results.
Context `{SlabLaws kobj} (uninit : log_array).

(** C6. The outcome of [sys_enable_policy], error by error, for a size whose product
    with the record size does not wrap around ([enable_size_wraps] shows one that
    does): an unknown pid, then a wrong password, a policy already on or a negative
    size, change nothing; past these checks the call returns -ENOMEM exactly when
    one of its two allocations fails, and then the policy stays off and no memory
    is kept; otherwise the policy is on, at level 2, with an empty log of the size
    asked for. *)
Theorem enable_outcome n sz pw s : policy_wf s -> sz * SIZEOF_FAI < 2 ^ 32 ->
  exists s' r, sys_enable_policy uninit n sz pw s = Some (s', r) /\
  match task_by_pid s n with
  | None => r = - ESRCH /\ s' = s
  | Some (t, p) =>
  if negb (pw =? PASSWORD) || (policy_on p =? 1) || (sz <? 0)
  then r = - EINVAL /\ s' = s
  else (r = - ENOMEM /\ enable_starved uninit sz (heap s) /\
  policy_wf s' /\ objs (heap s') = objs (heap s) /\
  exists la, tasks s' = <[t := p <| logArray := la |>]> (tasks s)) \/
  (r = 0 /\ ~ enable_starved uninit sz (heap s) /\ policy_wf s' /\ log_refines s' t (ALog sz []) /\
  exists la, tasks s' =
  <[t := PTask (pid p) 1 2 la]> (tasks s))
  end.
Proof.
  intros Hwf Hsz. destruct (enable_safe uninit n sz pw s Hwf Hsz) as (s' & r & He & Hwf').
  exists s', r. split; [done|].
  destruct (task_by_pid s n) as [[t p]|] eqn:E.
  2: { unfold sys_enable_policy in He. rewrite E in He. by simplify_eq. }
  destruct (negb (pw =? PASSWORD) || (policy_on p =? 1) || (sz <? 0)) eqn:G.
  { unfold sys_enable_policy in He. rewrite E in He.
    destruct (pw =? PASSWORD), (policy_on p =? 1), (sz <? 0); by simplify_eq/=. }
  b2p. subst pw.
  destruct (enable_cases uninit n sz s t p E) as (la & h' & Hc); [done..|].
  destruct Hc as [(He' & Ho & Hst)|(l & He' & Hst & Hla & Hfr & Hat & Hs & Hf & _)];
    rewrite He' in He; simplify_eq.
  - left. split_and!; [done..|]. by exists la.
  - right. split_and!; [done..| |by exists la].
    eexists _, l. split_and!; [apply lookup_insert_eq|done..|]. lia.
Qed.

(** C7. Enabling a policy and disabling it again gives all its memory back: the
    objects in kernel memory are those from before, the policy is off. *)
Theorem enable_disable_roundtrip n sz s s1 :
  policy_wf s -> sz * SIZEOF_FAI < 2 ^ 32 ->
  sys_enable_policy uninit n sz PASSWORD s = Some (s1, 0) ->
  exists s2 t p, sys_disable_policy n PASSWORD s1 = Some (s2, 0) /\
  same_memory s s2 /\
  tasks s2 !! t = Some p /\ pid p = n /\ policy_on p = 0 /\ policy_level p = 2.
Proof.
  intros Hwf Hsz He. destruct (task_by_pid s n) as [[t p]|] eqn:E.
  2: { unfold sys_enable_policy in He. by rewrite E in He. }
  pose proof (task_by_pid_Some _ _ _ _ E) as (Hp & Hpid & Hh).
  destruct (Z.eq_dec (policy_on p) 1) as [Hon|Hon].
  { unfold sys_enable_policy in He. by rewrite E, Hon in He. }
  destruct (Z.lt_ge_cases sz 0) as [Hneg|Hneg].
  { unfold sys_enable_policy in He. rewrite E in He. simpl in He.
    by rewrite (proj2 (Z.eqb_neq _ _) Hon), (proj2 (Z.ltb_lt _ _) Hneg) in He. }
  destruct (enable_cases uninit n sz s t p E Hon Hneg Hsz)
    as (la & h' & [[He' _]|(l & He' & _ & Hla & Hfr & Hat & Hs & _ & Hfr2 & Hfrm)]);
    rewrite He' in He; simplify_eq.
  set (p1 := p <| logArray := la |> <| policy_level := 2 |> <| policy_on := 1 |>).
  set (s1 := set_task t p1 (s <| heap := h' |>)).
  assert (Ht1 : task_by_pid s1 (pid p) = Some (t, p1)).
  { unfold task_by_pid in *.
    assert (Hpids : pid <$> tasks s1 = pid <$> tasks s).
    { unfold s1, set_task. simpl tasks. rewrite fmap_insert. apply insert_id.
      by rewrite lookup_fmap, Hp. }
    rewrite Hpids. apply bind_Some in E as (t' & Hf & E). apply bind_Some in E as (? & _ & [= -> ->]).
    change (pidhash s1) with (pidhash s). rewrite Hf. simpl. by rewrite lookup_insert_eq. }
  destruct (free_log_spec _ _ _ _ Hat Hla) as (h2 & Hfree & Hh2).
  unfold sys_disable_policy. rewrite Ht1. simpl.
  pose proof Hat as [-> _]. simpl. unfold free_log in Hfree.
  replace (negb (size l =? 0)) with (0 <? size l) by lia.
  destruct (if 0 <? size l then _ else _) as [h3|]; [|done]. simpl in *. rewrite Hfree. simpl.
  eexists _, t, _. split; [done|]. split; [|split; [apply lookup_insert_eq|done]].
  intros a. simpl. rewrite Hh2. destruct (decide (_ \/ _)) as [[->|[? ->]]|D].
  - done.
  - by rewrite Hfr2.
  - apply Hfrm; tauto.
Qed.
End results.

Lemma enable_outcome_witness :
  exists s' r, sys_enable_policy junk 1 3 PASSWORD boot_state = Some (s', r) /\
    ((r = - ENOMEM /\ enable_starved junk 3 (heap boot_state) /\ policy_wf s' /\ objs (heap s') = ∅ /\
      exists la, tasks s' = <[1 := PTask 1 0 2 la]> (tasks boot_state)) \/
     (r = 0 /\ ~ enable_starved junk 3 (heap boot_state) /\ policy_wf s' /\ log_refines s' 1 (ALog 3 []) /\
      exists la, tasks s' = <[1 := PTask 1 1 2 la]> (tasks boot_state))).
Proof. apply (enable_outcome junk 1 3 PASSWORD boot_state boot_wf). done. Defined.

Lemma enable_disable_roundtrip_witness :
  exists s2 t p, sys_disable_policy 1 PASSWORD st_enabled = Some (s2, 0) /\
    same_memory boot_state s2 /\
    tasks s2 !! t = Some p /\ pid p = 1 /\ policy_on p = 0 /\ policy_level p = 2.
Proof.
  apply (enable_disable_roundtrip junk 1 3 boot_state st_enabled boot_wf); [done|by vm_compute].
Defined.


(** ** Inputs on which the code departs from its intent *)

(** A call refused to a task whose log is full is not queued: its record takes
    the place of the oldest one, ahead of the older records that remain. *)
Theorem deny_when_full s cur p req j a :
  log_refines s cur a -> a_full a -> 0 < cap a ->
  tasks s !! cur = Some p -> policy_level p < req ->
  exists s' l', policy_hook req cur j s = Some (s', Some (- EINVAL)) /\
    log_at (heap s') (logArray p) l' (Fai req (policy_level p) j :: tail (unread a)).
Proof.
  intros (p' & l & Hp' & Hon & Hat & Hc & Hf) Hfull Hpos Hp Hlev.
  assert (p' = p) as -> by congruence. clear Hp'.
  pose proof (log_at_count _ _ _ _ Hat) as Hcnt. unfold a_full in Hfull.
  destruct (log_forbidden_spec _ _ _ _ req (policy_level p) j Hat) as (h' & Hlf & Hat' & _ & _); [lia|].
  unfold policy_hook. rewrite Hp. simpl. rewrite Hon, (proj2 (Z.ltb_lt _ _) Hlev). simpl.
  rewrite Hlf. simpl. eexists _, _. split; [done|]. simpl.
  assert (F : full l = 1).
  { unfold count in Hcnt. destruct (Z.eqb_spec (full l) 1); [done|].
    pose proof (Z.mod_pos_bound (indexWrite l - indexRead l) (size l)). lia. }
  unfold push_records, write_pos in Hat'. rewrite F, (Hf F), Z.sub_diag, Z.mod_0_l in Hat' by lia.
  simpl in Hat'. destruct (unread a); simpl in *; [lia|exact Hat'].
Qed.

(** Reading no records from a full log through system call 246 succeeds and
    discards every record it holds. *)
Theorem zero_read_of_full_log `{SlabLaws kobj} copy_to_user s n um t p a s' out :
  log_refines s t a -> a_full a -> 0 < cap a -> task_by_pid s n = Some (t, p) ->
  sys_get_process_log copy_to_user n 0 um s = Some (s', 0, out) ->
  out = [] /\ log_refines s' t (ALog (cap a) []).
Proof.
  intros (p' & l & Hp & Hon & Hat & Hc & Hf) Hfull Hpos Ht Hget.
  pose proof (task_by_pid_Some _ _ _ _ Ht) as (Hp2 & _ & _).
  assert (p' = p) as -> by congruence. clear Hp2.
  pose proof (log_at_count _ _ _ _ Hat) as Hcnt. unfold a_full in Hfull.
  destruct (get_log_cases copy_to_user s n 0 um t p l (unread a) Ht) as (h' & r & o & Hr & Hcase);
    [lia|done|].
  rewrite Hr in Hget. simplify_eq.
  destruct Hcase as [(_ & ? & _)|[(_ & ? & _)|(_ & _ & -> & Ho)]]; [done..|]. split; [done|].
  pose proof Hat as [Hl [[[? _] _]|(recs & Haz & Ha & Hh)]]; [lia|]. apply load_log_Some in Hl.
  assert (F : full l = 1).
  { unfold count in Hcnt. destruct (Z.eqb_spec (full l) 1); [done|].
    pose proof (Z.mod_pos_bound (indexWrite l - indexRead l) (size l)). lia. }
  pose proof (rh_ok _ _ _ Hh) as Hok. destruct (consumed_fields l 0) as [Es Ea].
  assert (Hcons : consumed l 0 = l <| full := 0 |>).
  { unfold consumed. rewrite slot_0 by done. destruct (Z.eqb_spec 0 (size l)); [lia|]. by destruct l. }
  exists p, (consumed l 0). split_and!; [done|done| |simpl; lia|by rewrite Hcons].
  split; [apply load_log_Some; simpl; by rewrite Ho, lookup_insert_eq|]. right. exists recs.
  rewrite Es, Ea. simpl. rewrite Ho, lookup_insert_ne by congruence. split_and!; [done..|].
  split; [by apply consumed_ok| |done].
  rewrite Hcons. unfold count. simpl. rewrite (Hf F), Z.sub_diag, Z.mod_0_l; [done|lia].
Qed.

(** The product [size * sizeof(struct forbidden_activity_info)] is computed in
    32 bits: a log of 357913942 records gets a block of 8 bytes, and the first
    refused call writes outside it. *)
Theorem enable_size_wraps :
  u32 (357913942 * SIZEOF_FAI) = 8 /\
  exists w, run [Enable 2 1 357913942 PASSWORD; Continue 2; Continue 2; SetCapabilities 1 0 PASSWORD]
    boot_world = Some w /\ do_fork_hook 1 100 (st w) = None.
Proof.
  split; [done|]. exists (after [Enable 2 1 357913942 PASSWORD; Continue 2; Continue 2;
    SetCapabilities 1 0 PASSWORD]). split; vm_compute; reflexivity.
Qed.

(** With a log of size 0 (which [sys_enable_policy] accepts) the record of a
    refused call is written through the pointer [array], which was never set. *)
Theorem empty_log_wild_write :
  exists w, run [Enable 2 1 0 PASSWORD; Continue 2; SetCapabilities 1 0 PASSWORD] boot_world = Some w /\
    load_log 1 (heap (st w)) = Some (LogArray 0 0 0 0 (array junk)) /\
    sys_wait4_hook 1 100 (st w) = None.
Proof.
  exists (after [Enable 2 1 0 PASSWORD; Continue 2; SetCapabilities 1 0 PASSWORD]).
  split_and!; vm_compute; reflexivity.
Qed.

(** A full log of one record. *)
Definition st_full : pstate := st (after [Enable 2 1 1 PASSWORD; Continue 2; Continue 2;
  SetCapabilities 1 0 PASSWORD; Hook 2 1 100]).

Lemma st_full_log : log_refines st_full 1 (ALog 1 [rec100]).
Proof.
  exists (PTask 1 1 0 1), (LogArray 0 0 1 1 2). split_and!; [by vm_compute..| |done|done].
  split; [by vm_compute|]. right. exists {[0 := rec100]}. split_and!; [done|by vm_compute|].
  split; [split; simpl; unfold SIZEOF_FAI; lia|done|].
  intros [|k] r; [by intros [= <-]|done].
Qed.

Lemma deny_when_full_witness :
  exists s' l', policy_hook 1 1 200 st_full = Some (s', Some (- EINVAL)) /\
    log_at (heap s') 1 l' [Fai 1 0 200].
Proof.
  apply (deny_when_full st_full 1 (PTask 1 1 0 1) 1 200 (ALog 1 [rec100]) st_full_log);
    [done|done|by vm_compute|done].
Defined.

Lemma zero_read_of_full_log_witness :
  exists s', sys_get_process_log copy_ok 1 0 0 st_full = Some (s', 0, []) /\
    log_refines s' 1 (ALog 1 []).
Proof.
  eexists. split; [by vm_compute|].
  eapply (zero_read_of_full_log copy_ok st_full 1 0 1 (PTask 1 1 0 1) (ALog 1 [rec100]) _ []
            st_full_log); [done|done|by vm_compute|by vm_compute].
Defined.
