(* ===== verification/UserLib.v ===== *)
(** * The user-space wrappers (user_files/hw1_syscalls.h)

    Each wrapper checks some arguments, traps into the kernel, and turns the
    value in [eax] into a return value and [errno]. *)
From stdpp Require Import base gmap list option.
From S2P Require Import Prelude PidHash Slab Policy.

(** The return value of the wrapper and the new [errno], from the kernel's return
    value and the old [errno]; [res] is an [unsigned int]. *)
Definition wrap_result (kret errno : Z) : Z * Z :=
  let res := u32 kret in
  if res =? 0 then (0, errno)
  else (-1, if u32 (-125) <=? res then s32 (u32 (- res)) else errno).

Section wrappers.
Context `{Slab kobj} (uninit : log_array)
  (copy_to_user : Z -> list forbidden_activity_info -> Z).

(** Each wrapper gives the new kernel state, its return value and [errno]. *)
Definition enable_policy (n sz password errno : Z) (s : pstate) : option (pstate * (Z * Z)) :=
  if n <? 0 then Some (s, (-1, ESRCH))
  else if sz <? 0 then Some (s, (-1, EINVAL))
  else r ← sys_enable_policy uninit n sz password s; Some (fst r, wrap_result (snd r) errno).

Definition disable_policy (n password errno : Z) (s : pstate) : option (pstate * (Z * Z)) :=
  if n <? 0 then Some (s, (-1, ESRCH))
  else r ← sys_disable_policy n password s; Some (fst r, wrap_result (snd r) errno).

Definition set_process_capabilities (n new_level password errno : Z) (s : pstate)
  : option (pstate * (Z * Z)) :=
  if n <? 0 then Some (s, (-1, ESRCH))
  else r ← sys_set_process_capabilities n new_level password s;
  Some (fst r, wrap_result (snd r) errno).

(** Also the records stored at [user_mem]. *)
Definition get_process_log (n sz user_mem errno : Z) (s : pstate)
  : option (pstate * (Z * Z) * list forbidden_activity_info) :=
  if n <? 0 then Some (s, (-1, ESRCH), [])
  else if sz =? 0 then Some (s, (0, errno), [])
  else r ← sys_get_process_log copy_to_user n sz user_mem s;
  let '(s', kret, out) := r in Some (s', wrap_result kret errno, out).
End wrappers.

Lemma wrap_result_ok errno : wrap_result 0 errno = (0, errno).
Proof. done. Qed.

Lemma wrap_result_error e errno : 1 <= e <= 125 -> wrap_result (- e) errno = (-1, e).
Proof.
  intros He. unfold wrap_result.
  assert (E : u32 (- e) = 2 ^ 32 - e).
  { unfold u32. symmetry. apply (Z.mod_unique _ _ (-1)); lia. }
  rewrite E. destruct (Z.eqb_spec (2 ^ 32 - e) 0); [lia|].
  assert (E' : u32 (- (2 ^ 32 - e)) = e).
  { unfold u32. symmetry. apply (Z.mod_unique _ _ (-1)); lia. }
  rewrite E'. change (u32 (-125)) with (2 ^ 32 - 125).
  destruct (Z.leb_spec (2 ^ 32 - 125) (2 ^ 32 - e)); [|lia]. by rewrite s32_small by lia.
Qed.

Section errno.
Context `{Slab kobj} (uninit : log_array)
  (copy_to_user : Z -> list forbidden_activity_info -> Z).

(** What a program sees of [set_process_capabilities]: it returns 0 and leaves
    [errno] alone exactly when the task exists, the level is 0, 1 or 2, the
    password is right and the policy is on; otherwise it returns -1 and [errno]
    is ESRCH for a missing task and EINVAL for the rest, and nothing changed. *)
Theorem set_process_capabilities_errno n lev pw errno s :
  exists s' r, set_process_capabilities n lev pw errno s = Some (s', r) /\
  match (if n <? 0 then None else task_by_pid s n) with
  | None => r = (-1, ESRCH) /\ s' = s
  | Some (t, p) =>
  if (0 <=? lev) && (lev <=? 2) && (pw =? PASSWORD) && negb (policy_on p =? 0)
  then r = (0, errno) /\ s' = set_task t (p <| policy_level := lev |>) s
  else r = (-1, EINVAL) /\ s' = s
  end.
Proof.
  unfold set_process_capabilities, sys_set_process_capabilities.
  destruct (n <? 0); [by eauto|].
  destruct (task_by_pid s n) as [[t p]|]; simpl.
  2: { rewrite wrap_result_error by done. by eauto. }
  destruct (Z.ltb_spec 2 lev), (Z.ltb_spec lev 0), (Z.leb_spec 0 lev), (Z.leb_spec lev 2);
    try lia; simpl; rewrite ?wrap_result_error by done; eauto.
  destruct (pw =? PASSWORD), (policy_on p =? 0); simpl; rewrite ?wrap_result_error by done; eauto.
Qed.

(** [get_process_log] with size 0 reports success for a task that does not
    exist or whose policy is off, where the system call itself refuses. *)
Theorem get_process_log_zero n um errno s : 0 <= n ->
  match task_by_pid s n with None => True | Some (_, p) => policy_on p = 0 end ->
  get_process_log copy_to_user n 0 um errno s = Some (s, (0, errno), []) /\
  exists e, e <> 0 /\ sys_get_process_log copy_to_user n 0 um s = Some (s, e, []).
Proof.
  intros Hn Ht. unfold get_process_log, sys_get_process_log.
  rewrite (proj2 (Z.ltb_ge _ _) Hn). split; [done|].
  destruct (task_by_pid s n) as [[t p]|]; [rewrite Ht|]; eexists; (split; [|done]); done.
Qed.
End errno.

Lemma get_process_log_zero_witness :
  get_process_log (H := bump_alloc) (fun _ _ => 0) 5 0 0 0 (PState ∅ ∅ (KHeap ∅ 0)) =
    Some (PState ∅ ∅ (KHeap ∅ 0), (0, 0), []) /\
  exists e, e <> 0 /\ sys_get_process_log (H := bump_alloc) (fun _ _ => 0) 5 0 0 (PState ∅ ∅ (KHeap ∅ 0)) =
    Some (PState ∅ ∅ (KHeap ∅ 0), e, []).
Proof. apply (get_process_log_zero (H := bump_alloc) (fun _ _ => 0)); done. Defined.
