(* ===== verification/Bitmap.v ===== *)
(** * The priority bitmap (include/asm-i386/bitops.h)

    A bitmap is its list of 32-bit words.  [_sched_find_first_bit] is the
    hand-coded search of the 160-bit map of the scheduler; it is proved to find
    the least set bit. *)
From stdpp Require Import base list.
From S2P Require Import Prelude.

Definition word (bm : list Z) (i : Z) : Z := nth (Z.to_nat i) bm 0.

Definition test_bit (nr : Z) (bm : list Z) : bool := Z.testbit (word bm (nr / 32)) (nr mod 32).

Definition __set_bit (nr : Z) (bm : list Z) : list Z :=
  <[Z.to_nat (nr / 32) := Z.setbit (word bm (nr / 32)) (nr mod 32)]> bm.

Definition __clear_bit (nr : Z) (bm : list Z) : list Z :=
  <[Z.to_nat (nr / 32) := Z.clearbit (word bm (nr / 32)) (nr mod 32)]> bm.

(** [bsfl]: the index of the lowest set bit, scanning up from [i]. *)
Fixpoint bsf (n : nat) (i w : Z) : Z :=
  match n with
  | O => i
  | S n' => if Z.testbit w i then i else bsf n' (i + 1) w
  end.

Definition __ffs (w : Z) : Z := bsf 32 0 w.

Definition _sched_find_first_bit (b : list Z) : Z :=
  if negb (word b 0 =? 0) then __ffs (word b 0)
  else if negb (word b 1 =? 0) then __ffs (word b 1) + 32
  else if negb (word b 2 =? 0) then __ffs (word b 2) + 64
  else if negb (word b 3 =? 0) then __ffs (word b 3) + 96
  else __ffs (word b 4) + 128.

(** Five 32-bit words. *)
Definition words_ok (bm : list Z) : Prop :=
  length bm = 5%nat /\ Forall (fun w => 0 <= w < 2 ^ 32) bm.

Lemma word_range bm i : words_ok bm -> 0 <= word bm i < 2 ^ 32.
Proof.
  intros [Hl Hf]. unfold word. destruct (nth_lookup_or_length bm (Z.to_nat i) 0) as [E|E].
  - rewrite Forall_lookup in Hf. by apply Hf in E.
  - rewrite nth_overflow by done. lia.
Qed.

Lemma word_insert bm i x j : words_ok bm -> 0 <= i < 5 -> 0 <= j ->
  word (<[Z.to_nat i := x]> bm) j = if decide (i = j) then x else word bm j.
Proof.
  intros [Hl _] Hi Hj. unfold word. rewrite !nth_lookup, list_lookup_insert.
  case_decide; case_decide; try lia; done.
Qed.

Lemma bit_words n : 0 <= n < 160 -> 0 <= n / 32 < 5 /\ 0 <= n mod 32 < 32.
Proof.
  intros. split; [|by apply Z.mod_pos_bound].
  split; [by apply Z.div_pos; lia|apply Z.div_lt_upper_bound; lia].
Qed.

Lemma bit_index_eq n k : n / 32 = k / 32 -> n mod 32 = k mod 32 -> n = k.
Proof. intros. rewrite (Z.div_mod n 32), (Z.div_mod k 32) by lia. congruence. Qed.

Lemma words_ok_insert bm i x : words_ok bm -> 0 <= x < 2 ^ 32 -> words_ok (<[i := x]> bm).
Proof. intros [Hl Hf] Hx. split; [by rewrite length_insert|by apply Forall_insert]. Qed.

(** A number below [2^32] has no bit from 32 on, and conversely. *)
Lemma bits_below x : 0 <= x -> (forall i, 32 <= i -> Z.testbit x i = false) -> x < 2 ^ 32.
Proof.
  intros Hx Hb. destruct (Z.lt_ge_cases x (2 ^ 32)) as [|Hge]; [done|].
  assert (Hl : 32 <= Z.log2 x) by (apply Z.log2_le_pow2; lia).
  assert (E : Z.testbit x (Z.log2 x) = true) by (apply Z.bit_log2; lia).
  rewrite Hb in E by lia. done.
Qed.

Lemma bits_above x i : 0 <= x < 2 ^ 32 -> 32 <= i -> Z.testbit x i = false.
Proof.
  intros Hx Hi. destruct (Z.eq_dec x 0) as [->|]; [apply Z.bits_0|].
  apply Z.bits_above_log2; [lia|]. apply Z.log2_lt_pow2; [lia|].
  assert (2 ^ 32 <= 2 ^ i) by (apply Z.pow_le_mono_r; lia). lia.
Qed.

Lemma setbit_range x i : 0 <= x < 2 ^ 32 -> 0 <= i < 32 -> 0 <= Z.setbit x i < 2 ^ 32.
Proof.
  intros Hx Hi.
  assert (0 <= Z.setbit x i)
    by (rewrite Z.setbit_spec'; apply Z.lor_nonneg; split; [lia|apply Z.pow_nonneg; lia]).
  split; [done|]. apply bits_below; [done|]. intros j Hj.
  rewrite Z.setbit_neq by lia. by apply bits_above.
Qed.

Lemma clearbit_range x i : 0 <= x < 2 ^ 32 -> 0 <= i < 32 -> 0 <= Z.clearbit x i < 2 ^ 32.
Proof.
  intros Hx Hi.
  assert (0 <= Z.clearbit x i) by (rewrite Z.clearbit_spec'; apply Z.ldiff_nonneg; lia).
  split; [done|]. apply bits_below; [done|]. intros j Hj.
  rewrite Z.clearbit_neq by lia. by apply bits_above.
Qed.

Lemma set_bit_ok nr bm : words_ok bm -> 0 <= nr < 160 -> words_ok (__set_bit nr bm).
Proof.
  intros Hok Hnr. destruct (bit_words nr Hnr). apply words_ok_insert; [done|].
  apply setbit_range; [by apply word_range|done].
Qed.

Lemma clear_bit_ok nr bm : words_ok bm -> 0 <= nr < 160 -> words_ok (__clear_bit nr bm).
Proof.
  intros Hok Hnr. destruct (bit_words nr Hnr). apply words_ok_insert; [done|].
  apply clearbit_range; [by apply word_range|done].
Qed.

Lemma test_set_bit k nr bm : words_ok bm -> 0 <= nr < 160 -> 0 <= k < 160 ->
  test_bit k (__set_bit nr bm) = if decide (k = nr) then true else test_bit k bm.
Proof.
  intros Hok Hnr Hk. destruct (bit_words nr Hnr), (bit_words k Hk). unfold test_bit, __set_bit.
  rewrite word_insert by (done || lia). case_decide as E; case_decide as D; subst.
  - by rewrite Z.setbit_eq by lia.
  - rewrite <- E. apply Z.setbit_neq; [lia|]. intros F. destruct D. by apply bit_index_eq.
  - done.
  - done.
Qed.

Lemma test_clear_bit k nr bm : words_ok bm -> 0 <= nr < 160 -> 0 <= k < 160 ->
  test_bit k (__clear_bit nr bm) = if decide (k = nr) then false else test_bit k bm.
Proof.
  intros Hok Hnr Hk. destruct (bit_words nr Hnr), (bit_words k Hk). unfold test_bit, __clear_bit.
  rewrite word_insert by (done || lia). case_decide as E; case_decide as D; subst.
  - by rewrite Z.clearbit_eq by lia.
  - rewrite <- E. apply Z.clearbit_neq. intros F. destruct D. by apply bit_index_eq.
  - done.
  - done.
Qed.

Lemma bsf_spec n : forall i w j, i <= j < i + Z.of_nat n -> Z.testbit w j = true ->
  i <= bsf n i w <= j /\ Z.testbit w (bsf n i w) = true /\
  forall k, i <= k < bsf n i w -> Z.testbit w k = false.
Proof.
  induction n as [|n IH]; intros i w j Hj Hb; [lia|]. simpl.
  destruct (Z.testbit w i) eqn:E; [split_and!; [lia..|done|intros; lia]|].
  assert (i <> j) by congruence.
  destruct (IH (i + 1) w j) as (H1 & H2 & H3); [lia|done|]. split_and!; [lia..|done|].
  intros k Hk. destruct (Z.eq_dec k i) as [->|]; [done|]. apply H3. lia.
Qed.

Lemma ffs_spec w : 0 <= w < 2 ^ 32 -> w <> 0 ->
  0 <= __ffs w < 32 /\ Z.testbit w (__ffs w) = true /\
  forall k, 0 <= k < __ffs w -> Z.testbit w k = false.
Proof.
  intros Hw Hnz. assert (Hl : 0 <= Z.log2 w < 32).
  { split; [apply Z.log2_nonneg|apply Z.log2_lt_pow2; lia]. }
  destruct (bsf_spec 32 0 w (Z.log2 w)) as (H1 & H2 & H3); [lia|apply Z.bit_log2; lia|].
  fold (__ffs w) in *. split_and!; [lia..|done|done].
Qed.

Lemma test_bit_word bm i r : 0 <= i -> 0 <= r < 32 ->
  test_bit (r + 32 * i) bm = Z.testbit (word bm i) r.
Proof.
  intros. unfold test_bit.
  replace ((r + 32 * i) / 32) with i by (apply (Z.div_unique _ _ _ r); lia).
  by replace ((r + 32 * i) mod 32) with r by (apply (Z.mod_unique _ _ i); lia).
Qed.

Lemma zero_word_bits bm i k : word bm i = 0 -> 0 <= i -> 32 * i <= k < 32 * i + 32 ->
  test_bit k bm = false.
Proof.
  intros Hw Hi Hk. replace k with ((k - 32 * i) + 32 * i) by lia.
  rewrite test_bit_word by lia. rewrite Hw. apply Z.bits_0.
Qed.

(** The search inside the first non-zero word [i]. *)
Lemma first_word bm i : words_ok bm -> 0 <= i < 5 -> word bm i <> 0 ->
  (forall j, 0 <= j < i -> word bm j = 0) ->
  let r := __ffs (word bm i) + 32 * i in
  0 <= r < 160 /\ test_bit r bm = true /\ forall k, 0 <= k < r -> test_bit k bm = false.
Proof.
  intros Hok Hi Hnz Hz r. destruct (ffs_spec (word bm i)) as (H1 & H2 & H3);
    [by apply word_range|done|].
  unfold r. split_and!; [lia..|by rewrite test_bit_word by lia|].
  intros k Hk. destruct (Z.lt_ge_cases k (32 * i)).
  - assert (k / 32 < i) by (apply Z.div_lt_upper_bound; lia).
    assert (0 <= k / 32) by (apply Z.div_pos; lia).
    apply (zero_word_bits bm (k / 32)); [apply Hz; lia|done|].
    pose proof (Z.div_mod k 32). pose proof (Z.mod_pos_bound k 32). lia.
  - replace k with ((k - 32 * i) + 32 * i) by lia. rewrite test_bit_word by lia. apply H3. lia.
Qed.

Lemma find_first_least bm n :
  words_ok bm -> 0 <= n < 160 -> test_bit n bm = true ->
  0 <= _sched_find_first_bit bm < 160 /\ test_bit (_sched_find_first_bit bm) bm = true /\
  forall k, 0 <= k < _sched_find_first_bit bm -> test_bit k bm = false.
Proof.
  intros Hok Hn Hb.
  assert (Hfirst : forall i, 0 <= i < 5 -> word bm i <> 0 ->
    (forall j, 0 <= j < i -> word bm j = 0) ->
    _sched_find_first_bit bm = __ffs (word bm i) + 32 * i ->
    0 <= _sched_find_first_bit bm < 160 /\ test_bit (_sched_find_first_bit bm) bm = true /\
    forall k, 0 <= k < _sched_find_first_bit bm -> test_bit k bm = false).
  { intros i Hi Hnz Hz ->. by apply first_word. }
  assert (Hall : ~ forall j, 0 <= j < 5 -> word bm j = 0).
  { intros Hz. destruct (bit_words n Hn) as [Hd Hm].
    rewrite (zero_word_bits bm (n / 32) n) in Hb; [done|by apply Hz|lia|].
    pose proof (Z.div_mod n 32). lia. }
  unfold _sched_find_first_bit in *.
  destruct (Z.eqb_spec (word bm 0) 0) as [E0|E0]; simpl in *.
  2: { apply (Hfirst 0); [lia|done|intros; lia|lia]. }
  destruct (Z.eqb_spec (word bm 1) 0) as [E1|E1]; simpl in *.
  2: { apply (Hfirst 1); [lia|done| |lia]. intros j Hj. by replace j with 0 by lia. }
  destruct (Z.eqb_spec (word bm 2) 0) as [E2|E2]; simpl in *.
  2: { apply (Hfirst 2); [lia|done| |lia]. intros j Hj. assert (j = 0 \/ j = 1) as [->| ->] by lia; done. }
  destruct (Z.eqb_spec (word bm 3) 0) as [E3|E3]; simpl in *.
  2: { apply (Hfirst 3); [lia|done| |lia]. intros j Hj.
       assert (j = 0 \/ j = 1 \/ j = 2) as [->|[->| ->]] by lia; done. }
  assert (Hz : forall j, 0 <= j < 4 -> word bm j = 0).
  { intros j Hj. assert (j = 0 \/ j = 1 \/ j = 2 \/ j = 3) as [->|[->|[->| ->]]] by lia; done. }
  apply (Hfirst 4); [lia| |done|lia].
  intros E4. apply Hall. intros j Hj. destruct (Z.eq_dec j 4) as [->|]; [done|apply Hz; lia].
Qed.
