(* ===== verification/Sched.v ===== *)
(** * The O(1) scheduler (kernel/sched.c), uniprocessor configuration

    The configuration of the repository has CONFIG_SMP off: there is one
    runqueue, [task_rq(p)] is that runqueue, [current] is [rq->curr], locks and
    the load balancer are compiled out.  HZ is 512.

    Task structures form a total store [tasks : tid -> task]; a queue is the list
    of the tasks linked on it, head first.  [list_del] unlinks a task from
    whichever queue it is on. *)
From stdpp Require Import base list functions.
From S2P Require Import Prelude PidHash Bitmap.

Definition HZ : Z := 512.
Definition MAX_USER_RT_PRIO : Z := 100.
Definition MAX_RT_PRIO : Z := MAX_USER_RT_PRIO.
Definition MAX_PRIO : Z := MAX_RT_PRIO + 40.

Definition TASK_RUNNING : Z := 0.
Definition TASK_INTERRUPTIBLE : Z := 1.
Definition TASK_UNINTERRUPTIBLE : Z := 2.
Definition TASK_ZOMBIE : Z := 4.
Definition TASK_STOPPED : Z := 8.

Definition SCHED_OTHER : Z := 0.
Definition SCHED_FIFO : Z := 1.
Definition SCHED_RR : Z := 2.

Definition NICE_TO_PRIO (nice : Z) : Z := MAX_RT_PRIO + nice + 20.
Definition PRIO_TO_NICE (prio : Z) : Z := prio - MAX_RT_PRIO - 20.
Definition USER_PRIO (p : Z) : Z := p - MAX_RT_PRIO.
Definition MAX_USER_PRIO : Z := USER_PRIO MAX_PRIO.

Definition MIN_TIMESLICE : Z := 10 * HZ ÷ 1000.
Definition MAX_TIMESLICE : Z := 300 * HZ ÷ 1000.
Definition CHILD_PENALTY : Z := 95.
Definition PARENT_PENALTY : Z := 100.
Definition EXIT_WEIGHT : Z := 3.
Definition PRIO_BONUS_RATIO : Z := 25.
Definition INTERACTIVE_DELTA : Z := 2.
Definition MAX_SLEEP_AVG : Z := 2 * HZ.
Definition STARVATION_LIMIT : Z := 2 * HZ.

(** The fields of [struct task_struct] the scheduler uses; [t_array] is the index
    of the priority array the task is on, if any. *)
Record task := Task {
  t_state : Z;
  t_sigpending : Z;
  t_need_resched : Z;
  t_prio : Z;
  t_static_prio : Z;
  t_array : option bool;
  t_sleep_avg : Z;
  t_sleep_timestamp : Z;
  t_policy : Z;
  t_rt_priority : Z;
  t_time_slice : Z;
  t_first_time_slice : Z;
  t_uid : Z;
  t_euid : Z;
  t_flags : Z;
  t_cap_effective : Z;
  t_cpus_allowed : Z;
  t_cpus_allowed_mask : Z
}.
#[export] Instance eta_task : Eta task := fun p =>
  Task (t_state p) (t_sigpending p) (t_need_resched p) (t_prio p) (t_static_prio p) (t_array p)
    (t_sleep_avg p) (t_sleep_timestamp p) (t_policy p) (t_rt_priority p) (t_time_slice p)
    (t_first_time_slice p) (t_uid p) (t_euid p) (t_flags p) (t_cap_effective p) (t_cpus_allowed p)
    (t_cpus_allowed_mask p).

Record prio_array := PrioArray {
  nr_active : Z;
  bitmap : list Z;
  queue : Z -> list tid
}.
#[export] Instance eta_prio_array : Eta prio_array := fun a =>
  PrioArray (nr_active a) (bitmap a) (queue a).

Record runqueue := Runqueue {
  nr_running : Z;
  nr_switches : Z;
  expired_timestamp : Z;
  nr_uninterruptible : Z;
  curr : tid;
  idle : tid;
  active : bool;          (** index of the active array *)
  expired : bool;
  arrays : bool -> prio_array
}.
#[export] Instance eta_runqueue : Eta runqueue := fun r =>
  Runqueue (nr_running r) (nr_switches r) (expired_timestamp r) (nr_uninterruptible r)
    (curr r) (idle r) (active r) (expired r) (arrays r).

(** [kstat]: the ticks spent in user, nice and system time. *)
Record kstat := KStat { k_user : Z; k_nice : Z; k_system : Z }.
#[export] Instance eta_kstat : Eta kstat := fun k => KStat (k_user k) (k_nice k) (k_system k).

Record sched := Sched {
  tasks : tid -> task;
  rq : runqueue;
  stat : kstat;
  jiffies : Z
}.
#[export] Instance eta_sched : Eta sched := fun s => Sched (tasks s) (rq s) (stat s) (jiffies s).

(** ** Access *)

Definition set_task (t : tid) (f : task -> task) (s : sched) : sched :=
  s <| tasks ::= alter f t |>.
Definition set_rq (f : runqueue -> runqueue) (s : sched) : sched := s <| rq ::= f |>.
Definition set_array (b : bool) (f : prio_array -> prio_array) (s : sched) : sched :=
  set_rq (fun r => r <| arrays ::= alter f b |>) s.
Definition arr (s : sched) (b : bool) : prio_array := arrays (rq s) b.
Definition q (s : sched) (b : bool) (k : Z) : list tid := queue (arr s b) k.

Definition rt_task (p : task) : bool := t_prio p <? MAX_RT_PRIO.
Definition TASK_NICE (p : task) : Z := PRIO_TO_NICE (t_static_prio p).

Definition SCALE (v1 v1_max v2_max : Z) : Z := v1 * v2_max ÷ v1_max.
Definition DELTA (p : task) : Z :=
  SCALE (TASK_NICE p) 40 (MAX_USER_PRIO * PRIO_BONUS_RATIO ÷ 100) + INTERACTIVE_DELTA.
Definition TASK_INTERACTIVE (p : task) : bool := t_prio p <=? t_static_prio p - DELTA p.
Definition TASK_TIMESLICE (p : task) : Z :=
  MIN_TIMESLICE + (MAX_TIMESLICE - MIN_TIMESLICE) * (MAX_PRIO - 1 - t_static_prio p) ÷ 39.

(** ** Linking and unlinking *)

(** [list_del(&p->run_list)] *)
Definition list_del (t : tid) (s : sched) : sched :=
  set_rq (fun r => r <| arrays ::= fun a b =>
    (a b) <| queue ::= fun qs k => filter (fun u => u <> t) (qs k) |> |>) s.

(** [list_add_tail(&p->run_list, array->queue + k)] *)
Definition list_add_tail (t : tid) (b : bool) (k : Z) (s : sched) : sched :=
  set_array b (fun a => a <| queue ::= alter (fun l => l ++ [t]) k |>) s.

(** [list_add(&p->run_list, array->queue[k].next)]: after the first task of the
    queue, or first if the queue is empty. *)
Definition list_add_second (t : tid) (b : bool) (k : Z) (s : sched) : sched :=
  set_array b (fun a => a <| queue ::= alter (fun l =>
    match l with [] => [t] | u :: l' => u :: t :: l' end) k |>) s.

Definition dequeue_task (t : tid) (b : bool) (s : sched) : sched :=
  let s1 := set_array b (fun a => a <| nr_active ::= Z.pred |>) s in
  let s2 := list_del t s1 in
  let k := t_prio (tasks s t) in
  if bool_decide (q s2 b k = []) then set_array b (fun a => a <| bitmap ::= __clear_bit k |>) s2
  else s2.

Definition enqueue_task (t : tid) (b : bool) (s : sched) : sched :=
  let k := t_prio (tasks s t) in
  let s1 := list_add_tail t b k s in
  let s2 := set_array b (fun a => a <| bitmap ::= __set_bit k |> <| nr_active ::= Z.succ |>) s1 in
  set_task t (fun p => p <| t_array := Some b |>) s2.

(** The sum is computed in [unsigned long], then converted to [int]. *)
Definition effective_prio (p : task) : Z :=
  let bonus := s32 (u32 (MAX_USER_PRIO * PRIO_BONUS_RATIO * t_sleep_avg p) / MAX_SLEEP_AVG / 100 -
                    MAX_USER_PRIO * PRIO_BONUS_RATIO ÷ 100 ÷ 2) in
  let prio := t_static_prio p - bonus in
  let prio := if prio <? MAX_RT_PRIO then MAX_RT_PRIO else prio in
  if MAX_PRIO - 1 <? prio then MAX_PRIO - 1 else prio.

Definition activate_task (t : tid) (s : sched) : sched :=
  let p := tasks s t in
  let sleep_time := u32 (jiffies s - t_sleep_timestamp p) in
  let b := active (rq s) in
  let s1 :=
    if negb (rt_task p) && negb (sleep_time =? 0) then
      set_task t (fun p =>
        let avg := u32 (t_sleep_avg p + sleep_time) in
        let avg := if MAX_SLEEP_AVG <? avg then MAX_SLEEP_AVG else avg in
        let p := p <| t_sleep_avg := avg |> in
        p <| t_prio := effective_prio p |>) s
    else s in
  let s2 := enqueue_task t b s1 in
  set_rq (fun r => r <| nr_running ::= Z.succ |>) s2.

(** With [p->array] NULL the C code would follow a null pointer; the callers
    never do that. *)
Definition deactivate_task (t : tid) (s : sched) : sched :=
  let p := tasks s t in
  let s1 := set_rq (fun r => r <| nr_running ::= Z.pred |>) s in
  let s2 := if t_state p =? TASK_UNINTERRUPTIBLE
            then set_rq (fun r => r <| nr_uninterruptible ::= Z.succ |>) s1 else s1 in
  let s3 := match t_array p with Some b => dequeue_task t b s2 | None => s2 end in
  set_task t (fun p => p <| t_array := None |>) s3.

(** [set_tsk_need_resched(p)] is all [resched_task] does without CONFIG_SMP. *)
Definition resched_task (t : tid) (s : sched) : sched :=
  set_task t (fun p => p <| t_need_resched := 1 |>) s.

(** ** Waking up *)

(** Without CONFIG_SMP every task is on CPU 0 and the fast migration of a
    synchronous wakeup never applies. *)
Definition try_to_wake_up (t : tid) (s : sched) : sched * bool :=
  let old_state := t_state (tasks s t) in
  let '(s1, success) :=
    match t_array (tasks s t) with
    | None =>
        let sa := if old_state =? TASK_UNINTERRUPTIBLE
                  then set_rq (fun r => r <| nr_uninterruptible ::= Z.pred |>) s else s in
        let sb := activate_task t sa in
        let c := curr (rq sb) in
        let sc := if t_prio (tasks sb t) <? t_prio (tasks sb c) then resched_task c sb else sb in
        (sc, true)
    | Some _ => (s, false)
    end in
  (set_task t (fun p => p <| t_state := TASK_RUNNING |>) s1, success).

Definition wake_up_process (t : tid) (s : sched) : sched * bool := try_to_wake_up t s.

Definition wake_up_forked_process (t : tid) (s : sched) : sched :=
  let c := curr (rq s) in
  let s1 := set_task t (fun p => p <| t_state := TASK_RUNNING |>) s in
  let s2 :=
    if negb (rt_task (tasks s1 t)) then
      let sa := set_task c (fun p =>
        p <| t_sleep_avg := u32 (t_sleep_avg p * PARENT_PENALTY) / 100 |>) s1 in
      set_task t (fun p =>
        let p := p <| t_sleep_avg := u32 (t_sleep_avg p * CHILD_PENALTY) / 100 |> in
        p <| t_prio := effective_prio p |>) sa
    else s1 in
  activate_task t s2.

(** [sched_exit(p)]: the parent, [current], gets back what is left of the first
    time slice of the dead child [p]. *)
Definition sched_exit (t : tid) (s : sched) : sched :=
  let p := tasks s t in
  let c := curr (rq s) in
  let s1 :=
    if negb (t_first_time_slice p =? 0) then
      set_task c (fun r =>
        let ts := u32 (t_time_slice r + t_time_slice p) in
        r <| t_time_slice := if MAX_TIMESLICE <? ts then MAX_TIMESLICE else ts |>) s
    else s in
  if t_sleep_avg (tasks s1 t) <? t_sleep_avg (tasks s1 c) then
    set_task c (fun r =>
      r <| t_sleep_avg := u32 (u32 (t_sleep_avg r * EXIT_WEIGHT) + t_sleep_avg (tasks s1 t))
                          / (EXIT_WEIGHT + 1) |>) s1
  else s1.

(** ** The timer tick *)

Definition EXPIRED_STARVING (s : sched) : bool :=
  negb (expired_timestamp (rq s) =? 0) &&
  (u32 (STARVATION_LIMIT * nr_running (rq s) + 1) <=? u32 (jiffies s - expired_timestamp (rq s))).

Definition set_need_resched (t : tid) (s : sched) : sched :=
  set_task t (fun p => p <| t_need_resched := 1 |>) s.

(** [in_irq] is [local_bh_count(cpu) || local_irq_count(cpu) > 1]. *)
Definition scheduler_tick (in_irq : bool) (user_tick system : Z) (s : sched) : sched :=
  let t := curr (rq s) in
  if t =? idle (rq s) then
    if in_irq then s <| stat ::= fun k => k <| k_system ::= Z.add system |> |> else s
  else
    let s0 := s <| stat ::= fun k =>
      (if 0 <? TASK_NICE (tasks s t) then k <| k_nice ::= Z.add user_tick |>
       else k <| k_user ::= Z.add user_tick |>) <| k_system ::= Z.add system |> |> in
    let a := active (rq s0) in
    if negb (bool_decide (t_array (tasks s0 t) = Some a)) then set_need_resched t s0
    else if rt_task (tasks s0 t) then
      if t_policy (tasks s0 t) =? SCHED_RR then
        let s1 := set_task t (fun p => p <| t_time_slice ::= fun x => u32 (x - 1) |>) s0 in
        if t_time_slice (tasks s1 t) =? 0 then
          let s2 := set_task t (fun p => p <| t_time_slice := TASK_TIMESLICE p |>
                                            <| t_first_time_slice := 0 |>) s1 in
          enqueue_task t a (dequeue_task t a (set_need_resched t s2))
        else s1
      else s0
    else
      let s1 := if negb (t_sleep_avg (tasks s0 t) =? 0)
                then set_task t (fun p => p <| t_sleep_avg ::= Z.pred |>) s0 else s0 in
      let s2 := set_task t (fun p => p <| t_time_slice ::= fun x => u32 (x - 1) |>) s1 in
      if t_time_slice (tasks s2 t) =? 0 then
        let s3 := set_need_resched t (dequeue_task t a s2) in
        let s4 := set_task t (fun p =>
          let p := p <| t_prio := effective_prio p |> in
          p <| t_first_time_slice := 0 |> <| t_time_slice := TASK_TIMESLICE p |>) s3 in
        if negb (TASK_INTERACTIVE (tasks s4 t)) || EXPIRED_STARVING s4 then
          let s5 := if expired_timestamp (rq s4) =? 0
                    then set_rq (fun r => r <| expired_timestamp := jiffies s4 |>) s4 else s4 in
          enqueue_task t (expired (rq s5)) s5
        else enqueue_task t a s4
      else s2.

(** ** schedule *)

(** One pass of [schedule()] from [need_resched:] on.  The switch of address
    space, registers and stack is not modelled: afterwards [current] is the task
    chosen. *)
Definition schedule_pass (s : sched) : sched :=
  let prev := curr (rq s) in
  let s1 := set_task prev (fun p => p <| t_sleep_timestamp := jiffies s |>) s in
  let st := t_state (tasks s1 prev) in
  let s2 :=
    if st =? TASK_RUNNING then s1
    else if (st =? TASK_INTERRUPTIBLE) && negb (t_sigpending (tasks s1 prev) =? 0)
    then set_task prev (fun p => p <| t_state := TASK_RUNNING |>) s1
    else deactivate_task prev s1 in
  let '(s3, next) :=
    if nr_running (rq s2) =? 0
    then (set_rq (fun r => r <| expired_timestamp := 0 |>) s2, idle (rq s2))
    else
      let sa := if nr_active (arr s2 (active (rq s2))) =? 0
                then set_rq (fun r => r <| active := expired r |> <| expired := active r |>
                                        <| expired_timestamp := 0 |>) s2
                else s2 in
      let b := active (rq sa) in
      let idx := _sched_find_first_bit (bitmap (arr sa b)) in
      (sa, default (idle (rq sa)) (head (q sa b idx))) in
  let s4 := set_task prev (fun p => p <| t_need_resched := 0 |>) s3 in
  if prev =? next then s4
  else set_rq (fun r => r <| nr_switches ::= Z.succ |> <| curr := next |>) s4.

(** The loop back to [need_resched:]; [None] when [n] passes were not enough. *)
Fixpoint schedule (n : nat) (s : sched) : option sched :=
  match n with
  | O => None
  | S n' =>
      let s' := schedule_pass s in
      if t_need_resched (tasks s' (curr (rq s'))) =? 0 then Some s' else schedule n' s'
  end.
