(* ===== verification/SchedInv.v ===== *)
(** * The runqueue invariant

    [awf None s]: the two priority arrays are consistent (bitmap, queues, counts)
    with the task structures.  [awf (Some t) s] is the same while task [t] is
    unlinked and its [t_array] may be stale, as between [dequeue_task] and
    [enqueue_task].  [sched_wf] is the invariant of the whole component. *)
From stdpp Require Import base list functions sets.
From S2P Require Import Prelude PidHash Bitmap Sched.

(** Number of tasks linked on the queues of an array. *)
Definition qlen (f : Z -> list tid) : nat := sum_list_with (fun k => length (f k)) (seqZ 0 MAX_PRIO).

(** Two arrays with the same counter, bitmap and queues. *)
#[export] Instance array_equiv : Equiv prio_array := fun a a' =>
  nr_active a = nr_active a' /\ bitmap a = bitmap a' /\ forall k, queue a k = queue a' k.
#[export] Instance array_equivalence : Equivalence (≡@{prio_array}).
Proof.
  split.
  - done.
  - intros a a' (? & ? & H). split_and!; [done..|]. intros k. by rewrite H.
  - intros a b c (? & ? & H) (? & ? & H'). split_and!; [congruence..|]. intros k. by rewrite H.
Qed.

(** One priority array: the bitmap has a bit per non-empty queue and the
    delimiter, no task is linked twice, and [nr_active] counts the tasks. *)
Record array_ok (a : prio_array) : Prop := ArrayOk {
  ao_words : words_ok (bitmap a);
  ao_bit : forall k, 0 <= k < MAX_PRIO -> test_bit k (bitmap a) = negb (bool_decide (queue a k = []));
  ao_delim : test_bit MAX_PRIO (bitmap a) = true;
  ao_range : forall k t, t ∈ queue a k -> 0 <= k < MAX_PRIO;
  ao_nodup : forall k, NoDup (queue a k);
  ao_count : nr_active a = Z.of_nat (qlen (queue a))
}.

Record awf (ex : option tid) (s : sched) : Prop := Awf {
  aw_array : forall b, array_ok (arr s b);
  aw_in : forall b k t, t ∈ q s b k -> t_prio (tasks s t) = k /\ t_array (tasks s t) = Some b;
  aw_on : forall t b, ex <> Some t -> t_array (tasks s t) = Some b ->
    t ∈ q s b (t_prio (tasks s t));
  aw_ex : forall t b k, ex = Some t -> t ∉ q s b k
}.

(** The number of runnable tasks the arrays account for. *)
Definition total (s : sched) : Z := nr_active (arr s true) + nr_active (arr s false).

(** ** Projections of updates *)

Lemma tasks_set_task t f s u :
  tasks (set_task t f s) u = if decide (t = u) then f (tasks s t) else tasks s u.
Proof. unfold set_task. simpl. unfold alter, fn_alter. by case_decide. Qed.

Lemma tasks_set_task_eq t f s : tasks (set_task t f s) t = f (tasks s t).
Proof. rewrite tasks_set_task. by rewrite decide_True. Qed.

Lemma tasks_set_task_ne t f s u : t <> u -> tasks (set_task t f s) u = tasks s u.
Proof. intros. rewrite tasks_set_task. by rewrite decide_False. Qed.

Lemma arr_set_array b f s b' : arr (set_array b f s) b' = if decide (b = b') then f (arr s b) else arr s b'.
Proof. unfold set_array, arr. simpl. unfold alter, fn_alter. by case_decide. Qed.

Lemma arr_list_del t s b :
  arr (list_del t s) b = (arr s b) <| queue ::= fun qs k => filter (fun u => u <> t) (qs k) |>.
Proof. done. Qed.

Lemma fn_alter_spec {A} (f : A -> A) (k : Z) (g : Z -> A) (j : Z) :
  alter f k g j = if decide (k = j) then f (g k) else g j.
Proof. done. Qed.

(** ** Counting *)

Lemma sum_list_with_change {A} (f g : A -> nat) (l : list A) (x : A) :
  NoDup l -> x ∈ l -> (forall y, y ∈ l -> y <> x -> g y = f y) ->
  (sum_list_with g l + f x = sum_list_with f l + g x)%nat.
Proof.
  induction l as [|a l IH]; intros Hnd Hx Heq; [by apply not_elem_of_nil in Hx|].
  apply list.NoDup_cons in Hnd as [Ha Hnd]. simpl. apply elem_of_cons in Hx as [->|Hx].
  - assert (E : sum_list_with g l = sum_list_with f l); [|lia].
    clear IH. induction l as [|b l IH]; [done|]. simpl.
    rewrite (Heq b) by set_solver. f_equal. apply IH; [set_solver|by apply list.NoDup_cons in Hnd as [??]|].
    intros y Hy. apply Heq. set_solver.
  - assert (a <> x) by congruence. rewrite (Heq a) by set_solver.
    assert (IH' : (sum_list_with g l + f x = sum_list_with f l + g x)%nat); [|lia].
    apply IH; [done..|]. intros y Hy. apply Heq. set_solver.
Qed.

Lemma qlen_change (f g : Z -> list tid) k : 0 <= k < MAX_PRIO ->
  (forall j, j <> k -> length (g j) = length (f j)) ->
  (qlen g + length (f k) = qlen f + length (g k))%nat.
Proof.
  intros Hk Heq.
  apply (sum_list_with_change (fun j => length (f j)) (fun j => length (g j)) _ k);
    [apply NoDup_seqZ|apply elem_of_seqZ; lia|auto].
Qed.

Lemma length_filter_out (t : tid) (l : list tid) : NoDup l -> t ∈ l ->
  S (length (filter (fun u => u <> t) l)) = length l.
Proof.
  induction l as [|a l IH]; intros Hnd Ht; [by apply not_elem_of_nil in Ht|].
  apply list.NoDup_cons in Hnd as [Ha Hnd]. rewrite filter_cons. case_decide as D; simpl.
  - f_equal. apply IH; [done|]. set_solver.
  - assert (a = t) as -> by (by destruct (decide (a = t))).
    by rewrite filter_out_not_in.
Qed.

Lemma qlen_ext (f g : Z -> list tid) : (forall k, length (f k) = length (g k)) -> qlen f = qlen g.
Proof.
  intros H. unfold qlen. induction (seqZ 0 MAX_PRIO) as [|k l IH]; [done|]. simpl. by rewrite H, IH.
Qed.

(** ** One array *)

#[export] Instance array_ok_proper : Proper ((≡) ==> iff) array_ok.
Proof.
  assert (H : forall a a', a ≡ a' -> array_ok a -> array_ok a').
  { intros a a' (En & Eb & Eq) [H1 H2 H3 H4 H5 H6].
    split; intros *; rewrite <- ?Eb, <- ?Eq, <- ?En; try by auto.
    - apply H4.
    - rewrite H6. f_equal. apply qlen_ext. intros k. by rewrite Eq. }
  intros a a' E. split; apply H; [done|by symmetry].
Qed.

(** [dequeue_task] on the array. *)
Definition array_remove (t : tid) (k : Z) (a : prio_array) : prio_array :=
  let qs := fun j => filter (fun u => u <> t) (queue a j) in
  PrioArray (Z.pred (nr_active a))
    (if bool_decide (qs k = []) then __clear_bit k (bitmap a) else bitmap a) qs.

(** Linking a task anywhere in the queue [k]. *)
Definition array_insert (l : list tid) (k : Z) (a : prio_array) : prio_array :=
  PrioArray (Z.succ (nr_active a)) (__set_bit k (bitmap a)) (alter (fun _ => l) k (queue a)).

Lemma prio_bit k : 0 <= k < MAX_PRIO -> 0 <= k < 160.
Proof. unfold MAX_PRIO, MAX_RT_PRIO, MAX_USER_RT_PRIO. lia. Qed.

Lemma array_remove_ok t k a : array_ok a -> t ∈ queue a k -> (forall j, t ∈ queue a j -> j = k) ->
  array_ok (array_remove t k a).
Proof.
  intros [H1 H2 H3 H4 H5 H6] Hin Huniq. pose proof (H4 _ _ Hin) as Hk.
  pose proof (prio_bit k Hk) as Hk'.
  assert (Hother : forall j, j <> k -> filter (fun u => u <> t) (queue a j) = queue a j).
  { intros j Hj. apply filter_out_not_in. auto. }
  assert (Hne : queue a k <> []) by (intros E; rewrite E in Hin; by apply not_elem_of_nil in Hin).
  split; simpl.
  - case_bool_decide; [|done]. by apply clear_bit_ok.
  - intros j Hj. destruct (decide (j = k)) as [->|E].
    + case_bool_decide as D; [by rewrite test_clear_bit, decide_True|].
      rewrite H2 by done. by rewrite bool_decide_eq_false_2.
    + rewrite (Hother j E), <- (H2 j Hj). case_bool_decide; [|done].
      rewrite test_clear_bit by (done || by apply prio_bit). by rewrite decide_False.
  - case_bool_decide; [|done]. rewrite test_clear_bit by done. rewrite decide_False by lia. done.
  - intros j u [_ Hu]%list_elem_of_filter. by apply H4 in Hu.
  - intros j. apply NoDup_filter, H5.
  - assert (Hl := length_filter_out t _ (H5 k) Hin).
    pose proof (qlen_change (queue a) (fun j => filter (fun u => u <> t) (queue a j)) k Hk) as Hq.
    specialize (Hq ltac:(intros j Hj; cbv beta; by rewrite Hother)). simpl in Hq. lia.
Qed.

Lemma array_insert_ok t l k a : array_ok a -> 0 <= k < MAX_PRIO -> t ∉ queue a k ->
  l ≡ₚ t :: queue a k -> array_ok (array_insert l k a).
Proof.
  intros [H1 H2 H3 H4 H5 H6] Hk Hnin Hl. pose proof (prio_bit k Hk) as Hk'.
  assert (Hq : forall j, alter (fun _ => l) k (queue a) j = if decide (k = j) then l else queue a j).
  { intros j. by rewrite fn_alter_spec. }
  assert (Hne : l <> []) by (intros ->; by apply Permutation_nil_cons in Hl).
  split; simpl.
  - by apply set_bit_ok.
  - intros j Hj. rewrite Hq, test_set_bit by (done || by apply prio_bit).
    destruct (decide (k = j)) as [->|E]; [rewrite decide_True by done; by rewrite bool_decide_eq_false_2|].
    rewrite decide_False by done. by apply H2.
  - rewrite test_set_bit by done. by case_decide.
  - intros j u. rewrite Hq. case_decide as D; [by subst|apply H4].
  - intros j. rewrite Hq. case_decide; [|apply H5]. rewrite Hl. by apply list.NoDup_cons.
  - pose proof (qlen_change (queue a) (alter (fun _ => l) k (queue a)) k Hk) as HL.
    specialize (HL ltac:(intros j Hj; rewrite Hq; by rewrite decide_False)).
    rewrite (Hq k), decide_True, Hl in HL by done. simpl in HL. lia.
Qed.

(** Reordering the queues. *)
Lemma array_perm_ok a a' : array_ok a -> nr_active a' = nr_active a -> bitmap a' = bitmap a ->
  (forall k, queue a' k ≡ₚ queue a k) -> array_ok a'.
Proof.
  intros [H1 H2 H3 H4 H5 H6] En Eb Hp.
  split; intros *; rewrite ?Eb, ?Hp, ?En; [done| |done|apply H4|apply H5|].
  - intros Hk. rewrite H2 by done. f_equal. apply bool_decide_ext.
    split; intros E; specialize (Hp k); rewrite E in Hp; [by apply Permutation_nil_r in Hp|by apply Permutation_nil_l in Hp].
  - rewrite H6. f_equal. apply qlen_ext. intros k. by rewrite Hp.
Qed.

(** ** Updates the arrays do not see *)

(** Changing fields other than the priority and the array of a task, or
    anything of the unlinked task. *)
Lemma awf_set_task ex t f s : awf ex s ->
  (ex = Some t \/
   t_prio (f (tasks s t)) = t_prio (tasks s t) /\ t_array (f (tasks s t)) = t_array (tasks s t)) ->
  awf ex (set_task t f s).
Proof.
  intros [H1 H2 H3 H4] Hf. split; try done.
  - intros b k u Hu. pose proof Hu as (? & ?)%H2.
    destruct (decide (t = u)) as [->|Hne]; [|by rewrite tasks_set_task_ne].
    rewrite tasks_set_task_eq.
    destruct Hf as [Hf|[-> ->]]; [by apply (H4 u b k) in Hf|done].
  - intros u b Hex. destruct (decide (t = u)) as [->|Hne]; [|by rewrite tasks_set_task_ne; [apply H3|]].
    rewrite tasks_set_task_eq. destruct Hf as [Hf|[-> ->]]; [done|by apply H3].
Qed.

(** Changing the counters of the runqueue. *)
Lemma awf_set_rq ex f s : awf ex s -> arrays (f (rq s)) = arrays (rq s) -> awf ex (set_rq f s).
Proof.
  intros [H1 H2 H3 H4] Ha.
  assert (E : forall b, arr (set_rq f s) b = arr s b) by (intros b; unfold arr; simpl; by rewrite Ha).
  assert (Eq : forall b k, q (set_rq f s) b k = q s b k) by (intros; unfold q; by rewrite E).
  split; intros *; rewrite ?E, ?Eq;
    [apply H1|apply H2|apply H3|apply H4].
Qed.

Lemma awf_stat ex g s : awf ex s -> awf ex (s <| stat ::= g |>).
Proof. by intros [H1 H2 H3 H4]. Qed.

Lemma total_set_task t f s : total (set_task t f s) = total s.
Proof. done. Qed.

Lemma total_set_rq f s : arrays (f (rq s)) = arrays (rq s) -> total (set_rq f s) = total s.
Proof. intros Ha. unfold total, arr. simpl. by rewrite Ha. Qed.

(** A task on no array may be considered unlinked, and conversely. *)
Lemma awf_unlinked t s : awf None s -> t_array (tasks s t) = None -> awf (Some t) s.
Proof.
  intros [H1 H2 H3 H4] Ht. split; try done.
  - intros u b _. by apply H3.
  - intros u b k [= <-] Hin. apply H2 in Hin as (_ & ?). congruence.
Qed.

Lemma awf_array_None t s : awf (Some t) s ->
  awf None (set_task t (fun p => p <| t_array := None |>) s).
Proof.
  intros Hw. apply (awf_set_task (Some t) t (fun p => p <| t_array := None |>)) in Hw; [|by left].
  destruct Hw as [H1 H2 H3 H4]. split; try done.
  intros u b _ Hu. destruct (decide (t = u)) as [->|Hne]; [by rewrite tasks_set_task_eq in Hu|].
  apply H3; [congruence|done].
Qed.


(** ** Linking and unlinking *)

Lemma q_equiv s b (a : prio_array) k : arr s b ≡ a -> q s b k = queue a k.
Proof. intros (_ & _ & H). apply H. Qed.

Lemma awf_unlink t b s s' : awf None s -> t_array (tasks s t) = Some b -> tasks s' = tasks s ->
  (forall b', arr s' b' ≡ if decide (b = b') then array_remove t (t_prio (tasks s t)) (arr s b) else arr s b') ->
  awf (Some t) s' /\ total s' = total s - 1.
Proof.
  intros [H1 H2 H3 H4] Ht Et Ea.
  assert (Hq : forall b' k, q s' b' k = filter (fun u => u <> t) (q s b' k)).
  { intros b' k. rewrite (q_equiv _ _ _ _ (Ea b')). case_decide; [by subst|].
    symmetry. apply filter_out_not_in. intros [_ ?]%H2. congruence. }
  split.
  - split; intros *; rewrite ?Et, ?Hq.
    + rewrite Ea. case_decide; [|done]. apply array_remove_ok; [done|by apply H3|].
      intros j Hj. by apply H2 in Hj as [-> _].
    + intros [_ Hu]%list_elem_of_filter. by apply H2.
    + intros Hex Hu. apply list_elem_of_filter. split; [congruence|by apply H3].
    + intros [= <-] [? _]%list_elem_of_filter. done.
  - unfold total. destruct (Ea true) as [-> _], (Ea false) as [-> _]. destruct b; simpl; lia.
Qed.

Lemma awf_link t b l s s' : awf (Some t) s ->
  let k := t_prio (tasks s' t) in
  0 <= k < MAX_PRIO -> t_array (tasks s' t) = Some b ->
  (forall u, u <> t -> tasks s' u = tasks s u) -> l ≡ₚ t :: q s b k ->
  (forall b', arr s' b' ≡ if decide (b = b') then array_insert l k (arr s b) else arr s b') ->
  awf None s' /\ total s' = total s + 1.
Proof.
  intros [H1 H2 H3 H4] k Hk Ht Eu Hl Ea.
  assert (Hq : forall b' j, q s' b' j = if decide (b = b' /\ k = j) then l else q s b' j).
  { intros b' j. rewrite (q_equiv _ _ _ _ (Ea b')). destruct (decide (b = b')) as [<-|E].
    - simpl. rewrite fn_alter_spec. repeat case_decide; naive_solver.
    - rewrite decide_False; naive_solver. }
  split.
  - split; intros *; rewrite ?Hq.
    + rewrite Ea. case_decide; [|done]. by apply (array_insert_ok t); [..|by apply H4|].
    + case_decide as D; intros Hu.
      * destruct D as [<- <-]. rewrite Hl in Hu. apply elem_of_cons in Hu as [->|Hu]; [done|].
        rewrite Eu; [by apply H2|]. intros ->. by apply (H4 t b k) in Hu.
      * rewrite Eu; [by apply H2|]. intros ->. by apply (H4 t b0 k0) in Hu.
    + intros _ Hu. destruct (decide (t0 = t)) as [->|E].
      * rewrite decide_True by naive_solver. rewrite Hl. by left.
      * rewrite (Eu t0 E) in Hu |- *. apply H3 in Hu; [|congruence].
        case_decide as D; [|done]. destruct D as [<- Ek]. rewrite Hl, Ek. by right.
    + done.
  - unfold total. destruct (Ea true) as [-> _], (Ea false) as [-> _]. destruct b; simpl; lia.
Qed.

Lemma tasks_dequeue t b s : tasks (dequeue_task t b s) = tasks s.
Proof. unfold dequeue_task. by case_match. Qed.

(** Everything of the runqueue but its arrays. *)
Definition rq_core (r : runqueue) : runqueue := r <| arrays := fun _ => PrioArray 0 [] (fun _ => []) |>.

Lemma core_dequeue t b s : rq_core (rq (dequeue_task t b s)) = rq_core (rq s).
Proof. unfold dequeue_task. by case_match. Qed.

Lemma core_enqueue t b s : rq_core (rq (enqueue_task t b s)) = rq_core (rq s).
Proof. done. Qed.

Lemma tasks_enqueue t b s u :
  tasks (enqueue_task t b s) u = if decide (t = u) then (tasks s t) <| t_array := Some b |> else tasks s u.
Proof. unfold enqueue_task. by rewrite tasks_set_task. Qed.

Lemma arr_dequeue t b s b' : (b <> b' -> forall k, t ∉ q s b' k) ->
  arr (dequeue_task t b s) b' ≡
  if decide (b = b') then array_remove t (t_prio (tasks s t)) (arr s b) else arr s b'.
Proof.
  intros Hn. unfold dequeue_task.
  replace (q (list_del t _) b _) with (filter (fun u => u <> t) (q s b (t_prio (tasks s t)))).
  2: { unfold q. rewrite arr_list_del, arr_set_array, decide_True by done. done. }
  unfold array_remove. fold (q s b (t_prio (tasks s t))).
  case_bool_decide; rewrite ?arr_set_array, ?arr_list_del, ?arr_set_array;
    destruct (decide (b = b')) as [->|E]; rewrite ?decide_True by done; try done;
    (split_and!; [done..|]); intros k; simpl; by apply filter_out_not_in, Hn.
Qed.

Lemma arr_enqueue t b s b' :
  arr (enqueue_task t b s) b' ≡
  if decide (b = b') then array_insert (q s b (t_prio (tasks s t)) ++ [t]) (t_prio (tasks s t)) (arr s b)
  else arr s b'.
Proof.
  unfold enqueue_task.
  change (arr (set_task ?t ?f ?s) b') with (arr s b'). unfold list_add_tail. rewrite !arr_set_array.
  destruct (decide (b = b')) as [->|E]; rewrite ?decide_True by done; [|done].
  split_and!; [done..|]. intros k. simpl. rewrite !fn_alter_spec. by case_decide.
Qed.

Lemma awf_dequeue t b s : awf None s -> t_array (tasks s t) = Some b ->
  awf (Some t) (dequeue_task t b s) /\ total (dequeue_task t b s) = total s - 1.
Proof.
  intros Hw Ht. apply (awf_unlink t b); [done..|apply tasks_dequeue|]. intros b'. apply arr_dequeue.
  intros Hne k [_ Hc]%(aw_in _ _ Hw). congruence.
Qed.

Lemma awf_enqueue t b s : awf (Some t) s -> 0 <= t_prio (tasks s t) < MAX_PRIO ->
  awf None (enqueue_task t b s) /\ total (enqueue_task t b s) = total s + 1.
Proof.
  intros Hw Hk. assert (E := tasks_enqueue t b s t). rewrite decide_True in E by done.
  assert (Ek : t_prio (tasks (enqueue_task t b s) t) = t_prio (tasks s t)) by (by rewrite E).
  apply (awf_link t b (q s b (t_prio (tasks s t)) ++ [t])); rewrite ?Ek; [done..|by rewrite E| | |].
  - intros u Hu. rewrite tasks_enqueue. by rewrite decide_False.
  - by rewrite Permutation_app_comm.
  - apply arr_enqueue.
Qed.
