(* ===== verification/SchedCalls.v ===== *)
(** * The scheduler's system calls and the wakeup of wait queues (kernel/sched.c)

    The same uniprocessor configuration as [Sched].  Calls that look a task up
    by pid take the lookup of the pid hash table, [find], as an argument.  A user
    pointer is an address, 0 is NULL; [copy_from_user]'s result is the integer
    read or [None] for a fault, and [copy_to_user]'s is a boolean, [true] for a
    fault. *)
From stdpp Require Import base list functions.
From S2P Require Import Prelude PidHash Bitmap Sched.

Definition CAP_SYS_NICE : Z := 23.
Definition PF_SUPERPRIV : Z := 256.

Definition cap_raised (c flag : Z) : bool := negb (Z.land c (Z.shiftl 1 flag) =? 0).

(** [capable(cap)]: the privilege of [current]; using it is recorded. *)
Definition capable (cap : Z) (s : sched) : sched * bool :=
  let c := curr (rq s) in
  if cap_raised (t_cap_effective (tasks s c)) cap
  then (set_task c (fun p => p <| t_flags ::= fun f => Z.lor f PF_SUPERPRIV |>) s, true)
  else (s, false).

(** [if (guard && !capable(cap))]: [capable] is only called when the guard holds. *)
Definition lacks (guard : bool) (cap : Z) (s : sched) : sched * bool :=
  if guard then let '(s', ok) := capable cap s in (s', negb ok) else (s, false).

(** ** Nice values *)

Definition set_user_nice (t : tid) (nice : Z) (s : sched) : sched :=
  let p := tasks s t in
  if (TASK_NICE p =? nice) || (nice <? -20) || (19 <? nice) then s
  else if rt_task p then set_task t (fun p => p <| t_static_prio := NICE_TO_PRIO nice |>) s
  else
    let set := set_task t (fun p => p <| t_static_prio := NICE_TO_PRIO nice |>
                                      <| t_prio := NICE_TO_PRIO nice |>) in
    match t_array p with
    | Some b =>
        let s1 := enqueue_task t b (set (dequeue_task t b s)) in
        if (NICE_TO_PRIO nice <? t_static_prio (tasks s1 t)) || (t =? curr (rq s1))
        then resched_task (curr (rq s1)) s1 else s1
    | None => set s
    end.

Definition sys_nice (increment : Z) (s : sched) : sched * Z :=
  let '(s1, refused) := lacks (increment <? 0) CAP_SYS_NICE s in
  if refused then (s1, - EPERM)
  else
    let increment := if (increment <? 0) && (increment <? -40) then -40 else increment in
    let increment := if 40 <? increment then 40 else increment in
    let c := curr (rq s1) in
    let nice := PRIO_TO_NICE (t_static_prio (tasks s1 c)) + increment in
    let nice := if nice <? -20 then -20 else nice in
    let nice := if 19 <? nice then 19 else nice in
    (set_user_nice c nice s1, 0).

Definition task_prio (p : task) : Z := t_prio p - MAX_USER_RT_PRIO.
Definition task_nice (p : task) : Z := TASK_NICE p.
Definition idle_cpu (s : sched) : bool := curr (rq s) =? idle (rq s).

(** ** setpriority and getpriority (kernel/sys.c) *)

Definition PRIO_PROCESS : Z := 0.
Definition PRIO_PGRP : Z := 1.
Definition PRIO_USER : Z := 2.

Section priority.
(** The pid and the process group of each task. *)
Context (pid_of pgrp_of : tid -> Z).

Definition proc_sel (t : tid) (which who : Z) (s : sched) : bool :=
  let c := curr (rq s) in
  if negb (pid_of t =? 0) then
    if which =? PRIO_PROCESS then ((who =? 0) && (t =? c)) || (pid_of t =? who)
    else if which =? PRIO_PGRP then pgrp_of t =? (if who =? 0 then pgrp_of c else who)
    else if which =? PRIO_USER then
      t_uid (tasks s t) =? (if who =? 0 then t_uid (tasks s c) else who)
    else false
  else false.

(** The body of the loop of [sys_setpriority]. *)
Definition setpriority_one (which who niceval : Z) (st : sched * Z) (t : tid) : sched * Z :=
  let '(s, error) := st in
  let c := tasks s (curr (rq s)) in
  if negb (proc_sel t which who s) then (s, error)
  else
    let '(s1, refused) := lacks (negb (t_uid (tasks s t) =? t_euid c) && negb (t_uid (tasks s t) =? t_uid c))
    CAP_SYS_NICE s in
    if refused then (s1, - EPERM)
    else
      let error := if error =? - ESRCH then 0 else error in
      let '(s2, refused) := lacks (niceval <? task_nice (tasks s1 t)) CAP_SYS_NICE s1 in
      if refused then (s2, - EACCES) else (set_user_nice t niceval s2, error).

(** [all] are the tasks [for_each_task] visits. *)
Definition sys_setpriority (all : list tid) (which who niceval : Z) (s : sched) : sched * Z :=
  if (2 <? which) || (which <? 0) then (s, - EINVAL)
  else
    let niceval := if niceval <? -20 then -20 else niceval in
    let niceval := if 19 <? niceval then 19 else niceval in
    fold_left (setpriority_one which who niceval) all (s, - ESRCH).

Definition sys_getpriority (all : list tid) (which who : Z) (s : sched) : Z :=
  if (2 <? which) || (which <? 0) then - EINVAL
  else fold_left (fun retval t =>
  if negb (proc_sel t which who s) then retval
  else let niceval := 20 - task_nice (tasks s t) in if retval <? niceval then niceval else retval)
  all (- ESRCH).
End priority.

(** ** Scheduling policies *)

Section lookup.
(** [find_task_by_pid] *)
Context (find : Z -> option tid).

Definition find_process_by_pid (pid : Z) (s : sched) : option tid :=
  if negb (pid =? 0) then find pid else Some (curr (rq s)).

(** [current->euid != p->euid && current->euid != p->uid] *)
Definition other_owner (t : tid) (s : sched) : bool :=
  let c := tasks s (curr (rq s)) in
  negb (t_euid c =? t_euid (tasks s t)) && negb (t_euid c =? t_uid (tasks s t)).

(** The end of [setscheduler]: the new policy and priority, requeueing. *)
Definition set_policy (t : tid) (policy prio : Z) (s : sched) : sched :=
  let queued := bool_decide (is_Some (t_array (tasks s t))) in
  let s1 := if queued then deactivate_task t s else s in
  let s2 := set_task t (fun p =>
  let p := p <| t_policy := policy |> <| t_rt_priority := prio |> in
  p <| t_prio := if negb (policy =? SCHED_OTHER) then MAX_USER_RT_PRIO - 1 - t_rt_priority p
  else t_static_prio p |>) s1 in
  if queued then activate_task t s2 else s2.

Definition setscheduler (pid policy param : Z) (copy_from_user : Z -> option Z) (s : sched)
  : sched * Z :=
  if (param =? 0) || (pid <? 0) then (s, - EINVAL)
  else match copy_from_user param with
  | None => (s, - EFAULT)
  | Some prio =>
      match find_process_by_pid pid s with
      | None => (s, - ESRCH)
      | Some t =>
          let given := policy in
          let policy := if given <? 0 then t_policy (tasks s t) else given in
          if negb (given <? 0) && negb (policy =? SCHED_FIFO) && negb (policy =? SCHED_RR) &&
          negb (policy =? SCHED_OTHER) then (s, - EINVAL)
          else if (prio <? 0) || (MAX_USER_RT_PRIO - 1 <? prio) then (s, - EINVAL)
          else if negb (eqb (policy =? SCHED_OTHER) (prio =? 0)) then (s, - EINVAL)
          else
            let '(s1, refused) := lacks ((policy =? SCHED_FIFO) || (policy =? SCHED_RR)) CAP_SYS_NICE s in
            if refused then (s1, - EPERM)
            else
              let '(s2, refused) := lacks (other_owner t s1) CAP_SYS_NICE s1 in
              if refused then (s2, - EPERM) else (set_policy t policy prio s2, 0)
      end
  end.

Definition sys_sched_setscheduler (pid policy param : Z) := setscheduler pid policy param.
Definition sys_sched_setparam (pid param : Z) := setscheduler pid (-1) param.

Definition sys_sched_getscheduler (pid : Z) (s : sched) : Z :=
  if pid <? 0 then - EINVAL
  else match find_process_by_pid pid s with
  | Some t => t_policy (tasks s t)
  | None => - ESRCH
  end.

(** The result, and the priority stored at [param]. *)
Definition sys_sched_getparam (pid param : Z) (fault : bool) (s : sched) : Z * option Z :=
  if (param =? 0) || (pid <? 0) then (- EINVAL, None)
  else match find_process_by_pid pid s with
  | None => (- ESRCH, None)
  | Some t => if fault then (- EFAULT, None) else (0, Some (t_rt_priority (tasks s t)))
  end.

(** [set_cpus_allowed] is empty and [cpu_online_map] is 1 without CONFIG_SMP. *)
Definition cpu_online_map : Z := 1.

Definition sys_sched_setaffinity (pid len : Z) (user_mask : option Z) (s : sched) : sched * Z :=
  if len <? 4 then (s, - EINVAL)
  else match user_mask with
  | None => (s, - EFAULT)
  | Some mask =>
      let new_mask := Z.land mask cpu_online_map in
      if new_mask =? 0 then (s, - EINVAL)
      else match find_process_by_pid pid s with
      | None => (s, - ESRCH)
      | Some t =>
          let '(s1, ok) := capable CAP_SYS_NICE s in
          let new_mask := if ok then new_mask
          else Z.land new_mask (t_cpus_allowed_mask (tasks s1 t)) in
          let '(s2, ok) := capable CAP_SYS_NICE s1 in
          let s3 := if ok then set_task t (fun p =>
          p <| t_cpus_allowed_mask ::= fun m => Z.lor m new_mask |>) s2 else s2 in
          if new_mask =? 0 then (s3, - EINVAL)
          else
            let '(s4, refused) := lacks (other_owner t s3) CAP_SYS_NICE s3 in
            if refused then (s4, - EPERM) else (s4, 0)
      end
  end.

Definition sys_sched_getaffinity (pid len : Z) (fault : bool) (s : sched) : Z * option Z :=
  if len <? 4 then (- EINVAL, None)
  else match find_process_by_pid pid s with
  | None => (- ESRCH, None)
  | Some t => if fault then (- EFAULT, None)
      else (4, Some (Z.land (t_cpus_allowed (tasks s t)) cpu_online_map))
  end.

(** [jiffies_to_timespec]: seconds and nanoseconds. *)
Definition jiffies_to_timespec (j : Z) : Z * Z := (j / HZ, (j mod HZ) * (1000000000 ÷ HZ)).

Definition sys_sched_rr_get_interval (pid : Z) (fault : bool) (s : sched) : Z * option (Z * Z) :=
  if pid <? 0 then (- EINVAL, None)
  else match find_process_by_pid pid s with
  | None => (- ESRCH, None)
  | Some t =>
      let p := tasks s t in
      let j := if negb (Z.land (t_policy p) SCHED_FIFO =? 0) then 0 else TASK_TIMESLICE p in
      if fault then (- EFAULT, None) else (0, Some (jiffies_to_timespec (u32 j)))
  end.
End lookup.

Definition sys_sched_get_priority_max (policy : Z) : Z :=
  if (policy =? SCHED_FIFO) || (policy =? SCHED_RR) then MAX_USER_RT_PRIO - 1
  else if policy =? SCHED_OTHER then 0 else - EINVAL.

Definition sys_sched_get_priority_min (policy : Z) : Z :=
  if (policy =? SCHED_FIFO) || (policy =? SCHED_RR) then 1
  else if policy =? SCHED_OTHER then 0 else - EINVAL.

(** ** Yielding *)

(** [sys_sched_yield] past the policy hook and up to its call of [schedule]; [b]
    is [current->array]. *)
Definition yield_queue (b : bool) (s : sched) : sched :=
  let c := curr (rq s) in
  let k := t_prio (tasks s c) in
  let s1 := list_del c s in
  if rt_task (tasks s c) then list_add_tail c b k s1
  else if negb (bool_decide (q s1 b k = [])) then list_add_second c b k s1
  else
    let s2 := set_array b (fun a => a <| bitmap ::= __clear_bit k |>) s1 in
    let i := _sched_find_first_bit (bitmap (arr s2 b)) in
    let '(i, s3) := if (i =? MAX_PRIO) || (i <=? k) then (k, s2)
                    else (i, set_task c (fun p => p <| t_prio := i |>) s2) in
    set_array b (fun a => a <| bitmap ::= __set_bit i |>) (list_add_second c b i s3).

(** The idle task, on no array, never yields. *)
Definition sys_sched_yield (n : nat) (s : sched) : option (sched * Z) :=
  match t_array (tasks s (curr (rq s))) with
  | Some b => s' ← schedule n (yield_queue b s); Some (s', 0)
  | None => None
  end.

(** ** Wait queues *)

Definition WQ_FLAG_EXCLUSIVE : Z := 1.

Record wait_queue := WaitQueue { wq_flags : Z; wq_task : tid }.

(** The loop of [__wake_up_common] over the entries from the head of the list.
    [nr_exclusive] counts down to the exclusive wakeup that ends the scan. *)
Fixpoint __wake_up_common (l : list wait_queue) (mode nr_exclusive : Z) (s : sched) : sched :=
  match l with
  | [] => s
  | w :: l' =>
      if negb (Z.land (t_state (tasks s (wq_task w))) mode =? 0) then
        let '(s1, woken) := try_to_wake_up (wq_task w) s in
        if woken && negb (Z.land (wq_flags w) WQ_FLAG_EXCLUSIVE =? 0) then
          let nr := nr_exclusive - 1 in
          if nr =? 0 then s1 else __wake_up_common l' mode nr s1
        else __wake_up_common l' mode nr_exclusive s1
      else __wake_up_common l' mode nr_exclusive s
  end.

(** A NULL queue is [None]. *)
Definition __wake_up (q : option (list wait_queue)) (mode nr_exclusive : Z) (s : sched) : sched :=
  match q with None => s | Some l => __wake_up_common l mode nr_exclusive s end.

(** ** What do_fork does to the scheduler *)

(** The child's scheduling fields: [*p = *current] with the fields [do_fork] sets
    before it shares the time slice. *)
Definition fork_copy (p : task) : task :=
  p <| t_cpus_allowed_mask := Z.land (t_cpus_allowed_mask p) (t_cpus_allowed p) |>
    <| t_state := TASK_UNINTERRUPTIBLE |> <| t_sigpending := 0 |> <| t_array := None |>.

(** "Share the timeslice between parent and child". *)
Definition share_timeslice (child : tid) (s : sched) : sched :=
  let c := curr (rq s) in
  let ts := t_time_slice (tasks s c) in
  let s1 := set_task child (fun p => p <| t_time_slice := Z.shiftr (u32 (ts + 1)) 1 |>
                                       <| t_first_time_slice := 1 |>
                                       <| t_sleep_timestamp := jiffies s |>) s in
  let s2 := set_task c (fun p => p <| t_time_slice ::= fun x => Z.shiftr x 1 |>) s1 in
  if t_time_slice (tasks s2 c) =? 0
  then scheduler_tick false 0 0 (set_task c (fun p => p <| t_time_slice := 1 |>) s2)
  else s2.

(** From [*p = *current] to the end of a fork without CLONE_VFORK. *)
Definition fork_sched (child : tid) (s : sched) : sched :=
  let c := curr (rq s) in
  let s1 := set_task child (fun _ => fork_copy (tasks s c)) s in
  let s2 := wake_up_forked_process child (share_timeslice child s1) in
  set_task c (fun p => p <| t_need_resched := 1 |>) s2.

(** ** Boot *)

(** [sched_init]: the runqueue of the boot CPU, starting from a zeroed [runqueues];
    the boot task [t] is [current] and becomes the idle task. *)
Definition sched_init_queues (s : sched) : sched :=
  set_rq (fun r => r <| active := false |> <| expired := true |>
    <| arrays ::= fun a b => PrioArray (nr_active (a b))
         (__set_bit MAX_PRIO (fold_left (fun bm k => __clear_bit k bm) (seqZ 0 MAX_PRIO) (bitmap (a b))))
         (fun _ => []) |>) s.

Definition sched_init (t : tid) (s : sched) : sched :=
  let s1 := sched_init_queues s in
  let s2 := set_rq (fun r => r <| curr := t |> <| idle := t |>) s1 in
  fst (wake_up_process t s2).

Definition init_idle (t : tid) (s : sched) : sched :=
  let s1 := set_rq (fun r => r <| curr := t |> <| idle := t |>) s in
  let s2 := deactivate_task t s1 in
  let s3 := set_task t (fun p => p <| t_array := None |> <| t_prio := MAX_PRIO |>
                                   <| t_state := TASK_RUNNING |>) s2 in
  set_task t (fun p => p <| t_need_resched := 1 |>) s3.
