(* ===== verification/SchedSafety.v ===== *)
(** * The scheduler keeps its runqueue consistent

    [swf ex st d s] is the invariant with task [ex] unlinked, the state and time
    slice of task [st] not yet set and [nr_running] off by [d], as in the middle of an operation; [sched_wf] is the invariant
    between operations.  Each operation of [Sched] and [SchedCalls] is shown to
    preserve it. *)
From stdpp Require Import base list functions sets.
From S2P Require Import Prelude PidHash Bitmap Sched SchedInv SchedCalls.

(** The scheduling fields of a task other than the idle task are in range. *)
Record task_ok (p : task) : Prop := TaskOk {
  to_prio : 0 <= t_prio p < MAX_PRIO;
  to_static : MAX_RT_PRIO <= t_static_prio p < MAX_PRIO;
  to_avg : 0 <= t_sleep_avg p <= MAX_SLEEP_AVG
}.

Definition slice_ok (p : task) : Prop := 1 <= t_time_slice p <= HZ.

Record swf (ex st : option tid) (d : Z) (s : sched) : Prop := Swf {
  sw_awf : awf ex s;
  sw_active : active (rq s) = negb (expired (rq s));
  sw_count : nr_running (rq s) = total s + d;
  sw_idle : ex <> Some (idle (rq s)) /\ t_array (tasks s (idle (rq s))) = None /\
            t_state (tasks s (idle (rq s))) = TASK_RUNNING;
  sw_task : forall t, t <> idle (rq s) -> task_ok (tasks s t);
  sw_slice : forall t, t <> idle (rq s) -> st <> Some t -> slice_ok (tasks s t);
  sw_state : forall t, t <> curr (rq s) -> ex <> Some t -> st <> Some t -> t_array (tasks s t) <> None ->
             t_state (tasks s t) = TASK_RUNNING
}.

(** [current] is the idle task or a queued task. *)
Definition curr_ok (s : sched) : Prop :=
  curr (rq s) = idle (rq s) \/ t_array (tasks s (curr (rq s))) <> None.

Definition sched_wf (s : sched) : Prop := swf None None 0 s /\ curr_ok s.

(** ** Building blocks *)

Ltac rq_same := cbv zeta; split_and!; simpl; try done; lia.

Ltac core H :=
  let E := fresh in pose proof H as E; unfold rq_core in E; injection E as ????????.

Lemma swf_idle_ne ex st d s t b : swf ex st d s -> t_array (tasks s t) = Some b -> t <> idle (rq s).
Proof. intros Hw Ht ->. destruct (sw_idle _ _ _ _ Hw) as (_ & ? & _). congruence. Qed.

(** The updates of a task that keep the invariant. *)
Definition task_update_ok (ex st : option tid) (s : sched) (t : tid) (p' : task) : Prop :=
  let p := tasks s t in
  (ex = Some t \/ t_prio p' = t_prio p /\ t_array p' = t_array p) /\
  (t <> idle (rq s) -> task_ok p -> task_ok p') /\
  (t_state p' = t_state p \/ t_state p' = TASK_RUNNING \/
   t = curr (rq s) /\ t <> idle (rq s) \/ ex = Some t) /\
  (st = Some t \/ t = idle (rq s) \/ t_time_slice p' = t_time_slice p \/ slice_ok p').

(** Solves [task_update_ok] up to the range of the new values. *)
Ltac task_upd :=
  unfold task_update_ok; split_and!;
  [first [by left | by right]
  |intros _ [O1 O2 O3]; split; simpl; try done
  |first [by left | by right; left | by do 3 right]
  |first [by left | by right; right; left | do 3 right; unfold slice_ok; simpl]].

Lemma swf_set_task ex st d t f s : swf ex st d s -> task_update_ok ex st s t (f (tasks s t)) ->
  swf ex st d (set_task t f s).
Proof.
  intros [H1 H2 H3 (H4 & H5 & H6) H7 Hsl H8] (U1 & U2 & U3 & U4). split; try done.
  - by apply awf_set_task.
  - simpl. split; [done|]. fold (set_task t f s).
    change (alter f t (tasks s)) with (tasks (set_task t f s)).
    rewrite tasks_set_task. case_decide as E; [|done]. subst t. split.
    + destruct U1 as [?|[_ ->]]; [congruence|done].
    + destruct U3 as [->|[->|[[]|]]]; [done|done|congruence|congruence].
  - intros u Hu. rewrite tasks_set_task. case_decide; [subst u|]; auto.
  - intros u Hu Hs. rewrite tasks_set_task. case_decide; [subst u|by apply Hsl].
    unfold slice_ok in *. destruct U4 as [?|[?|[->|?]]]; [done|by destruct Hu|by apply Hsl|done].
  - intros u Hu Hex Hs. rewrite tasks_set_task. case_decide; [subst u|by apply H8].
    destruct U1 as [?|[_ ->]]; [congruence|]. intros Ha.
    destruct U3 as [->|[->|[[]|]]]; [by apply H8|done|by destruct Hu|congruence].
Qed.

(** A change of the runqueue's counters. *)
Lemma swf_set_rq ex st d d' f s : swf ex st d s ->
  (let r := rq s in let r' := f r in arrays r' = arrays r /\ active r' = active r /\
     expired r' = expired r /\ curr r' = curr r /\ idle r' = idle r /\
     nr_running r' - nr_running r = d' - d) ->
  swf ex st d' (set_rq f s).
Proof.
  intros [H1 H2 H3 H4 H7 Hsl H8] (E1 & E2 & E3 & E4 & E5 & E6).
  split; simpl; rewrite ?E2, ?E3, ?E4, ?E5; try done.
  - by apply awf_set_rq.
  - rewrite total_set_rq by done. lia.
Qed.

Lemma swf_stat ex st d g s : swf ex st d s -> swf ex st d (s <| stat ::= g |>).
Proof. intros [H1 H2 H3 H4 H7 Hsl H8]. split; try done. by apply (awf_stat ex g). Qed.

Lemma swf_dequeue st d t b s : swf None st d s -> t_array (tasks s t) = Some b ->
  swf (Some t) st (d + 1) (dequeue_task t b s).
Proof.
  intros Hw Ht. assert (Hne := swf_idle_ne _ _ _ _ _ _ Hw Ht).
  destruct Hw as [H1 H2 H3 (H4 & H5 & H6) H7 Hsl H8].
  destruct (awf_dequeue t b s H1 Ht) as [Ha Htot].
  core (core_dequeue t b s).
  split; rewrite ?tasks_dequeue; try (congruence || done).
  - lia.
  - replace (idle (rq (dequeue_task t b s))) with (idle (rq s)). split_and!; congruence.
  - replace (idle (rq (dequeue_task t b s))) with (idle (rq s)). done.
  - replace (idle (rq (dequeue_task t b s))) with (idle (rq s)). done.
  - replace (curr (rq (dequeue_task t b s))) with (curr (rq s)). intros u Hu Hex Hs. by apply H8.
Qed.

Lemma swf_enqueue st d t b s : swf (Some t) st d s ->
  (t <> curr (rq s) -> st <> Some t -> t_state (tasks s t) = TASK_RUNNING) ->
  swf None st (d - 1) (enqueue_task t b s).
Proof.
  intros [H1 H2 H3 (H4 & H5 & H6) H7 Hsl H8] Hst.
  assert (Hne : t <> idle (rq s)) by congruence.
  destruct (awf_enqueue t b s H1) as [Ha Htot]; [by apply H7|].
  split; [done|done| | | | |].
  - change (nr_running (rq (enqueue_task t b s))) with (nr_running (rq s)). lia.
  - change (idle (rq (enqueue_task t b s))) with (idle (rq s)). rewrite !tasks_enqueue.
    by rewrite decide_False.
  - change (idle (rq (enqueue_task t b s))) with (idle (rq s)). intros u Hu. rewrite tasks_enqueue.
    case_decide; [subst u|by apply H7]. by destruct (H7 t Hu).
  - change (idle (rq (enqueue_task t b s))) with (idle (rq s)). intros u Hu Hs. rewrite tasks_enqueue.
    case_decide; [subst u|]; by apply Hsl.
  - change (curr (rq (enqueue_task t b s))) with (curr (rq s)). intros u Hu _ Hs. rewrite tasks_enqueue.
    case_decide as E; [subst u; intros _; by apply Hst|]. apply H8; congruence.
Qed.

Lemma swf_unlinked st d t s : swf None st d s -> t_array (tasks s t) = None -> t <> idle (rq s) ->
  swf (Some t) st d s.
Proof.
  intros [H1 H2 H3 (H4 & H5 & H6) H7 Hsl H8] Ht Hne.
  split; try done; [by apply awf_unlinked|naive_solver|]. intros u Hu _ Hs. by apply H8.
Qed.

Lemma swf_relinked st d t s : swf (Some t) st d s -> t_array (tasks s t) = None -> swf None st d s.
Proof.
  intros [[B1 B2 B3 B4] H2 H3 (H4 & H5 & H6) H7 Hsl H8] Ht. split; try done.
  - split; try done. intros u b _ Hu. apply B3; [congruence|done].
  - intros u Hu _ Hs Hx. apply H8; congruence.
Qed.

Lemma swf_array_None st d t s : swf (Some t) st d s ->
  swf None st d (set_task t (fun p => p <| t_array := None |>) s).
Proof.
  intros [H1 H2 H3 (H4 & H5 & H6) H7 Hsl H8].
  assert (Hne : t <> idle (rq s)) by congruence.
  split; [by apply awf_array_None|done|done| | | |].
  - change (idle (rq (set_task t _ s))) with (idle (rq s)). rewrite !tasks_set_task_ne by done. done.
  - change (idle (rq (set_task t _ s))) with (idle (rq s)). intros u Hu. rewrite tasks_set_task.
    case_decide; [subst u|by apply H7]. by destruct (H7 t Hu).
  - change (idle (rq (set_task t _ s))) with (idle (rq s)). intros u Hu Hs. rewrite tasks_set_task.
    case_decide; [subst u|]; by apply Hsl.
  - change (curr (rq (set_task t _ s))) with (curr (rq s)). intros u Hu _ Hs. rewrite tasks_set_task.
    case_decide as E; [done|]. apply H8; congruence.
Qed.

(** ** Priorities and time slices *)

Lemma effective_prio_range p : MAX_RT_PRIO <= effective_prio p < MAX_PRIO.
Proof. unfold effective_prio, MAX_PRIO. crush_cases; lia. Qed.

Lemma timeslice_range p : MAX_RT_PRIO <= t_static_prio p < MAX_PRIO ->
  MIN_TIMESLICE <= TASK_TIMESLICE p <= MAX_TIMESLICE.
Proof.
  unfold TASK_TIMESLICE, MAX_PRIO, MAX_RT_PRIO, MAX_USER_RT_PRIO.
  change MIN_TIMESLICE with 5. change MAX_TIMESLICE with 153. intros Hs.
  assert (0 <= (153 - 5) * (100 + 40 - 1 - t_static_prio p) ÷ 39 <= 148); [|lia].
  split; [apply Z.quot_pos; lia|]. apply Z.quot_le_upper_bound; lia.
Qed.

Lemma timeslice_slice p : MAX_RT_PRIO <= t_static_prio p < MAX_PRIO -> 1 <= TASK_TIMESLICE p <= HZ.
Proof.
  intros H%timeslice_range. change MIN_TIMESLICE with 5 in H. change MAX_TIMESLICE with 153 in H.
  unfold HZ. lia.
Qed.

Lemma eff_task_ok p : 0 <= effective_prio p < MAX_PRIO.
Proof. pose proof (effective_prio_range p). unfold MAX_RT_PRIO, MAX_USER_RT_PRIO in *. lia. Qed.
#[export] Hint Resolve effective_prio_range timeslice_slice eff_task_ok : kernel.

(** [current] stays idle or queued when the queued tasks stay queued. *)
Lemma curr_ok_mono s s' : curr_ok s -> curr (rq s') = curr (rq s) -> idle (rq s') = idle (rq s) ->
  (t_array (tasks s (curr (rq s))) <> None -> t_array (tasks s' (curr (rq s))) <> None) ->
  curr_ok s'.
Proof. unfold curr_ok. intros Hc -> -> Hm. destruct Hc as [?|?]; [by left|right; auto]. Qed.

(** ** Activation *)

(** The bonus [activate_task] gives for the time slept. *)
Definition sleep_bonus (s : sched) (p : task) : task :=
  let sleep_time := u32 (jiffies s - t_sleep_timestamp p) in
  if negb (rt_task p) && negb (sleep_time =? 0) then
    let avg := u32 (t_sleep_avg p + sleep_time) in
    let avg := if MAX_SLEEP_AVG <? avg then MAX_SLEEP_AVG else avg in
    let p := p <| t_sleep_avg := avg |> in
    p <| t_prio := effective_prio p |>
  else p.

Lemma sleep_bonus_ok s p : task_ok p -> task_ok (sleep_bonus s p).
Proof.
  intros [H1 H2 H3]. unfold sleep_bonus. case_match; [|done].
  split; simpl; [apply eff_task_ok|done|].
  pose proof (u32_range (t_sleep_avg p + u32 (jiffies s - t_sleep_timestamp p))).
  case_match; b2p; unfold MAX_SLEEP_AVG, HZ in *; lia.
Qed.

Lemma sleep_bonus_fields s p :
  t_array (sleep_bonus s p) = t_array p /\ t_state (sleep_bonus s p) = t_state p /\
  t_time_slice (sleep_bonus s p) = t_time_slice p.
Proof. unfold sleep_bonus. by case_match. Qed.

Lemma tasks_activate t s u : tasks (activate_task t s) u =
  if decide (t = u) then (sleep_bonus s (tasks s t)) <| t_array := Some (active (rq s)) |> else tasks s u.
Proof.
  unfold activate_task, sleep_bonus. change (tasks (set_rq ?f ?s)) with (tasks s).
  rewrite tasks_enqueue. destruct (decide (t = u)) as [<-|Hne]; case_match;
    rewrite ?tasks_set_task_eq, ?tasks_set_task_ne by done; done.
Qed.

Lemma core_activate t s :
  rq_core (rq (activate_task t s)) = rq_core ((rq s) <| nr_running ::= Z.succ |>).
Proof. unfold activate_task. by case_match. Qed.

Lemma activate_swf st d t s : swf None st d s -> t_array (tasks s t) = None -> t <> idle (rq s) ->
  (t <> curr (rq s) -> st <> Some t -> t_state (tasks s t) = TASK_RUNNING) ->
  swf None st d (activate_task t s).
Proof.
  intros Hw Ha Hne Hst. apply (swf_unlinked _ _ t) in Hw; [|done..].
  unfold activate_task. cbv zeta.
  match goal with |- context [enqueue_task t _ ?e] => set (s1 := e) end.
  assert (E : tasks s1 t = sleep_bonus s (tasks s t)).
  { unfold s1, sleep_bonus. case_match; [|done]. by rewrite tasks_set_task_eq. }
  assert (Hw1 : swf (Some t) st d s1).
  { unfold s1. case_match eqn:C; [|done]. apply swf_set_task; [done|].
    split_and!; [by left| |by left|by right; right; left]. intros _ Hok. apply (sleep_bonus_ok s) in Hok.
    unfold sleep_bonus in Hok. by rewrite C in Hok. }
  apply (swf_set_rq _ _ (d - 1)).
  - apply swf_enqueue; [done|]. rewrite E. destruct (sleep_bonus_fields s (tasks s t)) as (_ & -> & _).
    unfold s1. by case_match.
  - unfold s1. case_match; rq_same.
Qed.

Lemma activate_curr_ok t s : curr_ok s -> curr_ok (activate_task t s).
Proof.
  intros Hc. core (core_activate t s). eapply curr_ok_mono; [done..|].
  rewrite tasks_activate. by case_decide.
Qed.

(** ** Deactivation *)

Lemma tasks_deactivate t s u : tasks (deactivate_task t s) u =
  if decide (t = u) then (tasks s t) <| t_array := None |> else tasks s u.
Proof.
  unfold deactivate_task. rewrite tasks_set_task.
  repeat case_match; rewrite ?tasks_dequeue; done.
Qed.

Lemma deactivate_swf st d t b s : swf None st d s -> t_array (tasks s t) = Some b ->
  swf None st d (deactivate_task t s).
Proof.
  intros Hw Hb. unfold deactivate_task. rewrite Hb. apply swf_array_None.
  replace d with (d - 1 + 1) by lia. apply swf_dequeue.
  - case_match.
    + apply (swf_set_rq _ _ (d - 1)); [|rq_same].
      apply (swf_set_rq _ _ d); [done|rq_same].
    + apply (swf_set_rq _ _ d); [done|rq_same].
  - by case_match.
Qed.

(** ** Fields the invariant does not read *)

Definition sched_fields (p : task) :=
  (t_prio p, t_array p, t_static_prio p, t_sleep_avg p, t_time_slice p, t_state p).

Lemma swf_set_other ex st d t f s : swf ex st d s ->
  sched_fields (f (tasks s t)) = sched_fields (tasks s t) -> swf ex st d (set_task t f s).
Proof.
  intros Hw [= E1 E2 E3 E4 E5 E6]. apply swf_set_task; [done|]. split_and!; [by right| |by left|by right; right; left].
  intros _ [H1 H2 H3]. split; by rewrite ?E1, ?E3, ?E4.
Qed.

Lemma curr_ok_set_task t f s : curr_ok s ->
  (t_array (tasks s t) <> None -> t_array (f (tasks s t)) <> None) -> curr_ok (set_task t f s).
Proof.
  intros Hc Hf. eapply curr_ok_mono; [done..|]. rewrite tasks_set_task. case_decide; [|done]. by subst t.
Qed.

Lemma wf_set_other t f s : sched_wf s ->
  sched_fields (f (tasks s t)) = sched_fields (tasks s t) -> sched_wf (set_task t f s).
Proof.
  intros [Hw Hc] E. split; [by apply swf_set_other|]. apply curr_ok_set_task; [done|].
  injection E as _ -> _ _ _ _. done.
Qed.

Lemma wf_set_ok t f s : sched_wf s ->
  t_prio (f (tasks s t)) = t_prio (tasks s t) -> t_array (f (tasks s t)) = t_array (tasks s t) ->
  t_state (f (tasks s t)) = t_state (tasks s t) ->
  (t <> idle (rq s) -> task_ok (tasks s t) -> slice_ok (tasks s t) ->
   task_ok (f (tasks s t)) /\ slice_ok (f (tasks s t))) -> sched_wf (set_task t f s).
Proof.
  intros [Hw Hc] E1 E2 E3 Hok. split; [|by apply curr_ok_set_task; [|rewrite E2]].
  apply swf_set_task; [done|]. pose proof (sw_slice _ _ _ _ Hw t). split_and!; [by right|naive_solver|by left|].
  destruct (decide (t = idle (rq s))); [by right; left|]. do 3 right. apply Hok; auto.
  by apply (sw_task _ _ _ _ Hw).
Qed.

Lemma resched_wf t s : sched_wf s -> sched_wf (resched_task t s).
Proof. intros. by apply wf_set_other. Qed.

(** ** Waking up *)

Lemma swf_set_running d t s : swf None (Some t) d s -> (t <> idle (rq s) -> slice_ok (tasks s t)) ->
  swf None None d (set_task t (fun p => p <| t_state := TASK_RUNNING |>) s).
Proof.
  intros Hw Hs. apply (swf_set_task _ _ _ t (fun p => p <| t_state := TASK_RUNNING |>)) in Hw; [|task_upd].
  destruct Hw as [H1 H2 H3 H4 H7 Hsl H8]. split; try done.
  { intros u Hu _. destruct (decide (t = u)) as [<-|E]; [|apply Hsl; congruence].
    rewrite tasks_set_task_eq. by apply Hs. }
  intros u Hu Hex _ Ha. destruct (decide (t = u)) as [->|E]; [by rewrite tasks_set_task_eq|].
  apply H8; congruence.
Qed.

Lemma swf_weaken_state st d s : swf None None d s -> swf None st d s.
Proof. intros [H1 H2 H3 H4 H7 Hsl H8]. split; try done; intros; [by apply Hsl|by apply H8]. Qed.

Lemma wake_wf t s : sched_wf s -> t <> idle (rq s) -> sched_wf (fst (try_to_wake_up t s)).
Proof.
  intros [Hw Hc] Hne. unfold try_to_wake_up. destruct (t_array (tasks s t)) as [b|] eqn:Ha; simpl.
  { split; [|by apply curr_ok_set_task]. apply swf_set_running; [by apply swf_weaken_state|].
    intros. by apply (sw_slice _ _ _ _ Hw). }
  match goal with |- context [activate_task t ?e] => set (s1 := e) end.
  assert (H1 : swf None (Some t) 0 s1).
  { unfold s1. apply (swf_weaken_state (Some t)) in Hw.
    case_match; [|done]. apply (swf_set_rq _ _ 0); [done|rq_same]. }
  assert (E : tasks s1 = tasks s /\ idle (rq s1) = idle (rq s)) by (unfold s1; by case_match).
  destruct E as [E1 E2].
  assert (H2 : swf None (Some t) 0 (activate_task t s1)).
  { apply activate_swf; [done|congruence|congruence|]. by intros _ []. }
  assert (C2 : curr_ok (activate_task t s1)).
  { apply activate_curr_ok. unfold s1. by case_match. }
  split.
  - assert (Hsl : slice_ok (tasks (activate_task t s1) t)).
    { rewrite tasks_activate, decide_True by done. unfold slice_ok. simpl.
      destruct (sleep_bonus_fields s1 (tasks s1 t)) as (_ & _ & ->). rewrite E1.
      by apply (sw_slice _ _ _ _ Hw). }
    apply swf_set_running; case_match; try done; [by apply swf_set_other|].
    unfold resched_task. rewrite tasks_set_task. intros _. by case_decide as D; [rewrite D|].
  - apply curr_ok_set_task; [|done]. case_match; [by apply curr_ok_set_task|done].
Qed.

Lemma penalty_range a c : 0 <= a <= MAX_SLEEP_AVG -> 0 <= c <= 100 ->
  0 <= u32 (a * c) / 100 <= MAX_SLEEP_AVG.
Proof.
  unfold MAX_SLEEP_AVG, HZ. intros Ha Hc. assert (0 <= a * c <= 2 * 512 * 100) by nia.
  rewrite u32_small by lia. split; [by apply Z.div_pos; lia|apply Z.div_le_upper_bound; lia].
Qed.

Lemma wake_forked_wf t s : sched_wf s -> t <> idle (rq s) -> t <> curr (rq s) ->
  t_array (tasks s t) = None -> sched_wf (wake_up_forked_process t s).
Proof.
  intros [Hw Hc] Hi Hne Ha. unfold wake_up_forked_process. cbv zeta.
  set (s1 := set_task t _ s).
  match goal with |- context [activate_task t ?e] => set (s2 := e) end.
  assert (W1 : swf None None 0 s1).
  { apply swf_set_running; [by apply swf_weaken_state|]. intros. by apply (sw_slice _ _ _ _ Hw). }
  assert (C1 : curr_ok s1) by (by apply curr_ok_set_task).
  assert (A1 : t_array (tasks s1 t) = None) by (unfold s1; by rewrite tasks_set_task_eq).
  assert (R1 : t_state (tasks s1 t) = TASK_RUNNING) by (unfold s1; by rewrite tasks_set_task_eq).
  assert (H2 : swf (Some t) None 0 s2 /\ curr_ok s2 /\ t_array (tasks s2 t) = None /\
    t_state (tasks s2 t) = TASK_RUNNING /\ rq s2 = rq s).
  { apply (swf_unlinked _ _ t) in W1; [|done..]. unfold s2. case_match; [|done].
    rewrite !tasks_set_task_eq, !tasks_set_task_ne by done. split_and!; try done.
    - apply swf_set_task.
      2: { unfold task_update_ok. rewrite tasks_set_task_ne by done.
           task_upd; [apply eff_task_ok|by apply penalty_range]. }
      apply swf_set_task; [done|]. task_upd. by apply penalty_range.
    - by apply curr_ok_set_task; [apply curr_ok_set_task|]. }
  destruct H2 as (W2 & C2 & A2 & R2 & Er).
  split; [|by apply activate_curr_ok].
  apply activate_swf; [|done|by rewrite Er|done].
  by apply (swf_relinked _ _ t).
Qed.

(** ** Exit and the timer tick *)

Lemma wf_tasks s t : sched_wf s -> t <> idle (rq s) -> task_ok (tasks s t) /\ slice_ok (tasks s t).
Proof. intros [Hw _] Ht. by split; [apply (sw_task _ _ _ _ Hw)|apply (sw_slice _ _ _ _ Hw)]. Qed.

Lemma exit_avg_range a b : 0 <= a <= MAX_SLEEP_AVG -> 0 <= b <= MAX_SLEEP_AVG ->
  0 <= u32 (u32 (a * EXIT_WEIGHT) + b) / (EXIT_WEIGHT + 1) <= MAX_SLEEP_AVG.
Proof.
  unfold MAX_SLEEP_AVG, EXIT_WEIGHT, HZ. intros. rewrite (u32_small (a * 3)) by lia.
  rewrite u32_small by lia. split; [by apply Z.div_pos; lia|apply Z.div_le_upper_bound; lia].
Qed.

Lemma sched_exit_wf t s : sched_wf s -> t <> idle (rq s) -> sched_wf (sched_exit t s).
Proof.
  intros Hw Ht. unfold sched_exit. cbv zeta.
  match goal with |- context [set_task (curr (rq s)) _ (if ?c then ?x else s)] => set (s1 := if c then x else s) end.
  assert (H1 : sched_wf s1 /\ rq s1 = rq s).
  { unfold s1. case_match; [|done]. split; [|done]. apply wf_set_ok; [done..|].
    intros Hne [O1 O2 O3] O4. split; [by split|]. destruct (wf_tasks s t Hw Ht) as [_ P4].
    unfold slice_ok in *. simpl.
    change MAX_TIMESLICE with 153. unfold HZ in *. rewrite u32_small by lia.
    case_match; b2p; lia. }
  destruct H1 as [W1 E1]. case_match; [|done]. rewrite <- E1. apply wf_set_ok; [done..|].
  intros Hne [O1 O2 O3] O4. split; [|done]. split; simpl; try done. apply exit_avg_range; [done|].
  apply (wf_tasks s1 t); [done|]. by rewrite E1.
Qed.

(** Moving a task: off its array, an update while it is unlinked, onto [b]. *)
Lemma requeue_swf st d t a b f s : swf None st d s -> t_array (tasks s t) = Some a ->
  (task_ok (tasks s t) -> task_ok (f (tasks s t))) -> t_state (f (tasks s t)) = t_state (tasks s t) ->
  t_time_slice (f (tasks s t)) = t_time_slice (tasks s t) ->
  swf None st d (enqueue_task t b (set_task t f (dequeue_task t a s))).
Proof.
  intros Hw Ha Hok Hs Ht. replace d with (d + 1 - 1) by lia.
  assert (Hr : t <> curr (rq s) -> st <> Some t -> t_state (tasks s t) = TASK_RUNNING).
  { intros Hc Hst. apply (sw_state _ _ _ _ Hw); congruence. }
  apply swf_enqueue.
  - apply swf_set_task; [by apply swf_dequeue|]. unfold task_update_ok. rewrite tasks_dequeue.
    split_and!; [by left|by intros _|by do 3 right|by do 2 right; left].
  - rewrite tasks_set_task_eq, tasks_dequeue, Hs. core (core_dequeue t a s).
    change (curr (rq (set_task t f (dequeue_task t a s)))) with (curr (rq (dequeue_task t a s))).
    intros. apply Hr; congruence.
Qed.

Lemma requeue_curr_ok t a b f s : curr_ok s ->
  curr_ok (enqueue_task t b (set_task t f (dequeue_task t a s))).
Proof.
  intros Hc. core (core_dequeue t a s). eapply curr_ok_mono; [done..|].
  rewrite tasks_enqueue. case_decide; [done|]. rewrite tasks_set_task_ne by done. by rewrite tasks_dequeue.
Qed.

(** The time slice of [current] runs down without wrapping. *)
Lemma slice_dec p : slice_ok p -> u32 (t_time_slice p - 1) = t_time_slice p - 1.
Proof. unfold slice_ok, HZ. intros. apply u32_small. lia. Qed.

Lemma swf_slice_done d s : swf None (Some (curr (rq s))) d s ->
  slice_ok (tasks s (curr (rq s))) -> swf None None d s.
Proof.
  intros [H1 H2 H3 H4 H7 Hsl H8] Ht. split; try done.
  - intros u Hu _. destruct (decide (curr (rq s) = u)) as [<-|E]; [done|apply Hsl; congruence].
  - intros u Hu Hex _. apply H8; congruence.
Qed.

(** An expired [current] goes to the end of a queue, with a new time slice. *)
Lemma expire_wf (b : sched -> bool) (g : sched -> runqueue -> runqueue) a s (t := curr (rq s)) :
  swf None (Some t) 0 s -> t_array (tasks s t) = Some a ->
  (forall s r, let r' := g s r in arrays r' = arrays r /\ active r' = active r /\
     expired r' = expired r /\ curr r' = curr r /\ idle r' = idle r /\ nr_running r' = nr_running r) ->
  let s3 := set_need_resched t (dequeue_task t a s) in
  let s4 := set_task t (fun p => let p := p <| t_prio := effective_prio p |> in
              p <| t_first_time_slice := 0 |> <| t_time_slice := TASK_TIMESLICE p |>) s3 in
  let s5 := set_rq (g s4) s4 in
  sched_wf (enqueue_task t (b s5) s5).
Proof.
  intros Hw Ha Hg s3 s4 s5. assert (Hi := swf_idle_ne _ _ _ _ _ _ Hw Ha).
  assert (W3 : swf (Some t) (Some t) 1 s3) by (apply swf_set_other; [by apply (swf_dequeue _ 0)|done]).
  assert (W4 : swf (Some t) (Some t) 1 s4).
  { apply swf_set_task; [done|]. task_upd. apply eff_task_ok. }
  destruct (Hg s4 (rq s4)) as (G1 & G2 & G3 & G4 & G5 & G6).
  assert (W5 : swf (Some t) (Some t) 1 s5).
  { apply (swf_set_rq _ _ 1); [done|]. cbv zeta. split_and!; [done..|]. rewrite G6. lia. }
  assert (Ec : curr (rq s5) = t).
  { change (curr (rq s5)) with (curr (g s4 (rq s4))). rewrite G4. core (core_dequeue t a s). done. }
  assert (Ec' : curr (rq (enqueue_task t (b s5) s5)) = t) by done.
  split.
  - apply swf_slice_done; rewrite Ec'; [by apply (swf_enqueue _ 1)|].
    rewrite tasks_enqueue, decide_True by done. unfold slice_ok.
    assert (E4 : t_time_slice (tasks s4 t) = TASK_TIMESLICE (tasks s t)).
    { unfold s4, s3, set_need_resched. by rewrite !tasks_set_task_eq, tasks_dequeue. }
    change (1 <= t_time_slice (tasks s4 t) <= HZ). rewrite E4.
    by apply timeslice_slice, (sw_task _ _ _ _ Hw).
  - right. by rewrite Ec', tasks_enqueue, decide_True.
Qed.

(** A tick of a round-robin task whose slice is used up. *)
Lemma rr_expire_wf a s (t := curr (rq s)) : sched_wf s -> t_array (tasks s t) = Some a ->
  let s1 := set_task t (fun p => p <| t_time_slice ::= fun x => u32 (x - 1) |>) s in
  let s2 := set_task t (fun p => p <| t_time_slice := TASK_TIMESLICE p |> <| t_first_time_slice := 0 |>) s1 in
  sched_wf (enqueue_task t a (dequeue_task t a (set_need_resched t s2))).
Proof.
  intros [Hw Hc] Ha s1 s2. assert (Hi := swf_idle_ne _ _ _ _ _ _ Hw Ha).
  assert (W2 : swf None (Some t) 0 (set_need_resched t s2)).
  { apply swf_set_other; [|done]. apply swf_set_task; [|task_upd].
    apply swf_set_task; [by apply swf_weaken_state|task_upd]. }
  assert (E : tasks (set_need_resched t s2) t =
    (tasks s t) <| t_time_slice := TASK_TIMESLICE (tasks s t) |> <| t_first_time_slice := 0 |>
                <| t_need_resched := 1 |>).
  { unfold set_need_resched, s2, s1. by rewrite !tasks_set_task_eq. }
  set (s3 := set_need_resched t s2) in *.
  assert (Ec : curr (rq (dequeue_task t a s3)) = t) by (core (core_dequeue t a s3); done).
  assert (Ec' : curr (rq (enqueue_task t a (dequeue_task t a s3))) = t) by done.
  split.
  - apply swf_slice_done; rewrite Ec'.
    + apply (swf_enqueue _ 1); [apply (swf_dequeue _ 0); [done|by rewrite E]|]. by rewrite Ec.
    + rewrite tasks_enqueue, decide_True, tasks_dequeue, E by done.
      change (1 <= TASK_TIMESLICE (tasks s t) <= HZ). by apply timeslice_slice, (sw_task _ _ _ _ Hw).
  - right. by rewrite Ec', tasks_enqueue, decide_True.
Qed.

Lemma slice_set p f : t_time_slice (p <| t_time_slice ::= f |>) = f (t_time_slice p).
Proof. done. Qed.

Lemma tick_wf in_irq u sy s : sched_wf s -> sched_wf (scheduler_tick in_irq u sy s).
Proof.
  intros Hw. unfold scheduler_tick.
  destruct (Z.eqb_spec (curr (rq s)) (idle (rq s))) as [Hi|Hi].
  { case_match; [|done]. destruct Hw. split; [by apply swf_stat|done]. }
  match goal with |- context [s <| stat ::= ?k |>] => set (s0 := s <| stat ::= k |>) end.
  assert (W0 : sched_wf s0) by (destruct Hw; split; [by apply swf_stat|done]).
  change (curr (rq s)) with (curr (rq s0)).
  assert (Hi0 : curr (rq s0) <> idle (rq s0)) by done.
  clearbody s0. clear s Hw Hi. rename s0 into s, Hi0 into Hi. set (t := curr (rq s)) in *.
  cbv zeta. case_bool_decide as Ha; simpl negb; cbv iota; [|by apply wf_set_other].
  destruct (wf_tasks s t W0 Hi) as [Hok Hsl].
  assert (Hdec : forall s', sched_wf s' -> curr (rq s') = t -> t_time_slice (tasks s' t) = t_time_slice (tasks s t) ->
    t_time_slice (tasks s t) - 1 <> 0 ->
    sched_wf (set_task t (fun p => p <| t_time_slice ::= fun x => u32 (x - 1) |>) s')).
  { intros s' W Ec E Hne. apply wf_set_ok; [done..|]. intros _ [O1 O2 O3] O4. split; [by split|].
    unfold slice_ok in *. simpl. rewrite E, slice_dec by done. lia. }
  destruct (rt_task (tasks s t)); [destruct (t_policy (tasks s t) =? SCHED_RR); [|done]|].
  - rewrite tasks_set_task_eq, slice_set, slice_dec by done.
    destruct (Z.eqb_spec (t_time_slice (tasks s t) - 1) 0); [|by apply Hdec].
    by apply rr_expire_wf.
  - match goal with |- context [set_task t _ (if ?c then ?x else s)] => set (s1 := if c then x else s) end.
    assert (H1 : sched_wf s1 /\ curr (rq s1) = t /\ t_time_slice (tasks s1 t) = t_time_slice (tasks s t) /\
      t_array (tasks s1 t) = Some (active (rq s)) /\ active (rq s1) = active (rq s)).
    { unfold s1. case_match; [|done]. rewrite tasks_set_task_eq. split_and!; try done.
      apply wf_set_ok; [done..|]. intros _ [O1 O2 O3] O4. split; [|done]. split; simpl; try done. b2p. lia. }
    destruct H1 as (W1 & C1 & T1 & A1 & B1). clearbody s1.
    rewrite tasks_set_task_eq, slice_set, T1, slice_dec by done.
    destruct (Z.eqb_spec (t_time_slice (tasks s t) - 1) 0); [|by apply Hdec].
    set (s2 := set_task t _ s1).
    assert (W2 : swf None (Some t) 0 s2).
    { apply swf_set_task; [by apply swf_weaken_state, W1|task_upd]. }
    assert (A2 : t_array (tasks s2 t) = Some (active (rq s))) by (unfold s2; by rewrite tasks_set_task_eq).
    assert (C2 : curr (rq s2) = t) by done. clearbody s2. rewrite <- C2 in *.
    match goal with |- sched_wf (if ?c then _ else _) => destruct c end;
      [match goal with |- context [if ?c then _ else _] => destruct c end|].
    + by apply (expire_wf (fun s => expired (rq s)) (fun s r => r <| expired_timestamp := jiffies s |>)).
    + by apply (expire_wf (fun s => expired (rq s)) (fun s r => r)).
    + by apply (expire_wf (fun _ => active (rq s)) (fun s r => r)).
Qed.
