(* ===== verification/SchedPick.v ===== *)
(** * schedule() and the system calls preserve the invariant

    [schedule] picks the head of the queue of best priority of the active array,
    exchanging the arrays first if the active one is empty. *)
From stdpp Require Import base list functions sets.
From S2P Require Import Prelude PidHash Bitmap Sched SchedInv SchedCalls SchedSafety.

(** ** The search of the best priority *)

Lemma qlen_pos (f : Z -> list tid) : (0 < qlen f)%nat -> exists k, 0 <= k < MAX_PRIO /\ f k <> [].
Proof.
  unfold qlen. intros H.
  assert (Hl : exists k, k ∈ seqZ 0 MAX_PRIO /\ f k <> []).
  { induction (seqZ 0 MAX_PRIO) as [|k l IH]; simpl in H; [lia|].
    destruct (f k) eqn:E; [|exists k; rewrite E; set_solver].
    destruct IH as (j & ? & ?); [simpl in H; lia|]. exists j. set_solver. }
  destruct Hl as (k & Hk & Hne). exists k. split; [|done]. apply elem_of_seqZ in Hk. lia.
Qed.

(** The pick: the head of the first non-empty queue. *)
Lemma pick_best a : array_ok a -> nr_active a <> 0 ->
  let idx := _sched_find_first_bit (bitmap a) in
  exists t, head (queue a idx) = Some t /\ 0 <= idx < MAX_PRIO /\
    forall k u, u ∈ queue a k -> idx <= k.
Proof.
  intros Ha Hn idx. destruct (qlen_pos (queue a)) as (k & Hk & Hne).
  { rewrite (ao_count _ Ha) in Hn. lia. }
  assert (Hbit : forall j, 0 <= j < MAX_PRIO -> queue a j <> [] -> test_bit j (bitmap a) = true).
  { intros j Hj Hq. rewrite (ao_bit _ Ha) by done. by rewrite bool_decide_eq_false_2. }
  destruct (find_first_least (bitmap a) k) as (H1 & H2 & H3);
    [apply Ha|by apply prio_bit|by apply Hbit|]. fold idx in H1, H2, H3.
  assert (Hle : forall j, 0 <= j < MAX_PRIO -> queue a j <> [] -> idx <= j).
  { intros j Hj Hq. destruct (Z.le_gt_cases idx j) as [|Hgt]; [done|].
    specialize (H3 j ltac:(lia)). rewrite Hbit in H3 by done. done. }
  assert (Hidx : 0 <= idx < MAX_PRIO) by (specialize (Hle k Hk Hne); lia).
  rewrite (ao_bit _ Ha) in H2 by done. apply negb_true_iff, bool_decide_eq_false in H2.
  destruct (queue a idx) as [|t l] eqn:E; [done|]. exists t. split_and!; [done|lia|lia|].
  intros j u Hu. apply Hle; [by eapply (ao_range _ Ha)|]. intros Ej. rewrite Ej in Hu.
  by apply not_elem_of_nil in Hu.
Qed.

(** ** One pass of schedule *)

(** Every queued task is in state [TASK_RUNNING]. *)
Definition all_running (s : sched) : Prop :=
  forall t, t_array (tasks s t) <> None -> t_state (tasks s t) = TASK_RUNNING.

(** The state after the [switch] on [prev->state]. *)
Definition pass_prev (s : sched) : sched :=
  let prev := curr (rq s) in
  let s1 := set_task prev (fun p => p <| t_sleep_timestamp := jiffies s |>) s in
  let st := t_state (tasks s1 prev) in
  if st =? TASK_RUNNING then s1
  else if (st =? TASK_INTERRUPTIBLE) && negb (t_sigpending (tasks s1 prev) =? 0)
  then set_task prev (fun p => p <| t_state := TASK_RUNNING |>) s1
  else deactivate_task prev s1.

(** The choice of [next]. *)
Definition pass_pick (s : sched) : sched * tid :=
  if nr_running (rq s) =? 0
  then (set_rq (fun r => r <| expired_timestamp := 0 |>) s, idle (rq s))
  else
    let sa := if nr_active (arr s (active (rq s))) =? 0
              then set_rq (fun r => r <| active := expired r |> <| expired := active r |>
                                      <| expired_timestamp := 0 |>) s
              else s in
    let b := active (rq sa) in
    let idx := _sched_find_first_bit (bitmap (arr sa b)) in
    (sa, default (idle (rq sa)) (head (q sa b idx))).

Definition pass_switch (prev next : tid) (s : sched) : sched :=
  let s4 := set_task prev (fun p => p <| t_need_resched := 0 |>) s in
  if prev =? next then s4
  else set_rq (fun r => r <| nr_switches ::= Z.succ |> <| curr := next |>) s4.

Lemma schedule_pass_eq s : schedule_pass s =
  let '(s3, next) := pass_pick (pass_prev s) in pass_switch (curr (rq s)) next s3.
Proof. reflexivity. Qed.

Lemma all_running_of ex d s : swf ex None d s -> ex = None ->
  (t_array (tasks s (curr (rq s))) <> None -> t_state (tasks s (curr (rq s))) = TASK_RUNNING) ->
  all_running s.
Proof.
  intros Hw -> Hc t Ht. destruct (decide (t = curr (rq s))) as [->|]; [by apply Hc|].
  by apply (sw_state _ _ _ _ Hw).
Qed.

Lemma core_deactivate t s : let r' := rq (deactivate_task t s) in let r := rq s in
  curr r' = curr r /\ idle r' = idle r /\ active r' = active r /\ expired r' = expired r.
Proof.
  unfold deactivate_task. repeat case_match; try done;
    match goal with |- context [dequeue_task ?t ?b ?s] => core (core_dequeue t b s) end;
    simpl in *; by split_and!.
Qed.

Lemma pass_prev_wf s : sched_wf s ->
  swf None None 0 (pass_prev s) /\ all_running (pass_prev s) /\
  curr (rq (pass_prev s)) = curr (rq s) /\ idle (rq (pass_prev s)) = idle (rq s).
Proof.
  intros Hw. unfold pass_prev. cbv zeta. set (prev := curr (rq s)).
  set (s1 := set_task prev _ s).
  assert (W1 : sched_wf s1) by (by apply wf_set_other). destruct W1 as [W1 C1].
  assert (E1 : curr (rq s1) = prev /\ idle (rq s1) = idle (rq s)) by done. destruct E1 as [E1 E2].
  clearbody s1. clear Hw.
  destruct (Z.eqb_spec (t_state (tasks s1 prev)) TASK_RUNNING) as [Hr|Hr].
  { split_and!; [done| |done..]. eapply all_running_of; [done..|]. by rewrite E1. }
  assert (Hi : prev <> idle (rq s1)).
  { intros Hi. destruct (sw_idle _ _ _ _ W1) as (_ & _ & Hx). by rewrite <- Hi in Hx. }
  destruct (_ && _).
  - assert (W : swf None None 0 (set_task prev (fun p => p <| t_state := TASK_RUNNING |>) s1)).
    { apply swf_set_task; [done|task_upd]. }
    split_and!; [done| |done..]. eapply all_running_of; [done..|].
    change (curr (rq (set_task ?t ?f ?s))) with (curr (rq s)). by rewrite E1, tasks_set_task_eq.
  - destruct C1 as [C1|C1]; [congruence|]. rewrite E1 in C1.
    destruct (t_array (tasks s1 prev)) as [b|] eqn:Ha; [|done].
    destruct (core_deactivate prev s1) as (F1 & F2 & _).
    assert (W := deactivate_swf _ _ _ _ _ W1 Ha).
    split_and!; [done| |congruence..]. eapply all_running_of; [done..|].
    by rewrite F1, E1, tasks_deactivate, decide_True.
Qed.

(** What the choice guarantees: the idle task if nothing is runnable; otherwise a
    queued task of the active array such that no task of that array has a better
    priority, the arrays having been exchanged if the active one was empty. *)
Definition picked (s s3 : sched) (next : tid) : Prop :=
  if nr_running (rq s) =? 0 then next = idle (rq s) /\ forall u, t_array (tasks s u) = None
  else let b := active (rq s3) in
    t_array (tasks s next) = Some b /\
    head (q s3 b (t_prio (tasks s next))) = Some next /\
    (forall u, t_array (tasks s u) = Some b -> t_prio (tasks s next) <= t_prio (tasks s u)) /\
    (b = active (rq s) \/ b = expired (rq s) /\ forall u, t_array (tasks s u) <> Some (active (rq s))).

Lemma array_empty s b : awf None s -> nr_active (arr s b) = 0 -> forall u, t_array (tasks s u) <> Some b.
Proof.
  intros Hw Hn u Hu. apply (aw_on _ _ Hw) in Hu; [|done]. rewrite (ao_count _ (aw_array _ _ Hw b)) in Hn.
  assert (Hr := ao_range _ (aw_array _ _ Hw b) _ _ Hu).
  unfold q in Hu. destruct (queue (arr s b) (t_prio (tasks s u))) as [|x l] eqn:E;
    [by apply not_elem_of_nil in Hu|].
  unfold qlen in Hn. assert (Hin : t_prio (tasks s u) ∈ seqZ 0 MAX_PRIO) by (apply elem_of_seqZ; lia).
  apply (sum_list_with_in _ (fun k => length (queue (arr s b) k))) in Hin.
  cbv beta in Hin. rewrite E in Hin. cbn [length] in Hin. lia.
Qed.

Lemma total_zero s : awf None s -> total s = 0 -> forall u, t_array (tasks s u) = None.
Proof.
  intros Hw Ht u. unfold total in Ht.
  assert (H1 := ao_count _ (aw_array _ _ Hw true)). assert (H2 := ao_count _ (aw_array _ _ Hw false)).
  destruct (t_array (tasks s u)) as [b|] eqn:E; [|done].
  exfalso. apply (array_empty s b Hw) in E; [done|]. destruct b; lia.
Qed.

Lemma swap_swf s : swf None None 0 s ->
  swf None None 0 (set_rq (fun r => r <| active := expired r |> <| expired := active r |>
                                      <| expired_timestamp := 0 |>) s).
Proof.
  intros [H1 H2 H3 H4 H7 Hsl H8]. split; try done; [by apply awf_set_rq|].
  simpl. rewrite H2. by rewrite negb_involutive.
Qed.

Lemma pass_pick_spec s : swf None None 0 s -> all_running s ->
  let '(s3, next) := pass_pick s in
  swf None None 0 s3 /\ all_running s3 /\ tasks s3 = tasks s /\ curr (rq s3) = curr (rq s) /\
  idle (rq s3) = idle (rq s) /\ nr_running (rq s3) = nr_running (rq s) /\ picked s s3 next.
Proof.
  intros Hw Hall. unfold pass_pick, picked. destruct (Z.eqb_spec (nr_running (rq s)) 0) as [Hz|Hz].
  { split_and!; try done; [by apply (swf_set_rq _ _ 0); [|rq_same]|].
    apply total_zero; [apply Hw|]. pose proof (sw_count _ _ _ _ Hw). lia. }
  match goal with |- context [if ?c then ?x else s] => set (sa := if c then x else s) end.
  cbv zeta.
  assert (Wa : swf None None 0 sa) by (unfold sa; case_match; [by apply swap_swf|done]).
  assert (Ea : tasks sa = tasks s /\ curr (rq sa) = curr (rq s) /\ idle (rq sa) = idle (rq s) /\
    nr_running (rq sa) = nr_running (rq s)) by (unfold sa; by case_match).
  destruct Ea as (E1 & E2 & E3 & E4).
  assert (Hb : active (rq sa) = active (rq s) \/ active (rq sa) = expired (rq s) /\
    forall u, t_array (tasks s u) <> Some (active (rq s))).
  { unfold sa. case_match; [right; split; [done|]|by left]. b2p. apply array_empty; [apply Hw|done]. }
  assert (Hn : nr_active (arr sa (active (rq sa))) <> 0).
  { assert (Hc := sw_count _ _ _ _ Hw). unfold total in Hc. unfold sa.
    destruct (Z.eqb_spec (nr_active (arr s (active (rq s)))) 0) as [Hx|Hx]; [|done].
    change (nr_active (arr s (expired (rq s))) <> 0).
    rewrite (sw_active _ _ _ _ Hw) in Hx. destruct (expired (rq s)); simpl in Hx; lia. }
  destruct (pick_best _ (aw_array _ _ (sw_awf _ _ _ _ Wa) _) Hn) as (t & Ht & Hidx & Hbest).
  change (queue (arr sa ?b) ?k) with (q sa b k) in Ht. rewrite Ht. simpl default.
  assert (Hin := head_Some_elem_of _ _ Ht).
  apply (aw_in _ _ (sw_awf _ _ _ _ Wa)) in Hin as [Hp Hq]. rewrite E1 in Hp, Hq.
  split_and!; try done; [by intros u; rewrite E1; apply Hall|by rewrite Hp|].
  intros u Hu. rewrite Hp. apply (Hbest _ u). rewrite <- E1 in Hu |- *.
  by apply (aw_on _ _ (sw_awf _ _ _ _ Wa)).
Qed.

Lemma pass_switch_wf s prev next : swf None None 0 s -> all_running s -> prev = curr (rq s) ->
  next = idle (rq s) \/ t_array (tasks s next) <> None ->
  sched_wf (pass_switch prev next s) /\ curr (rq (pass_switch prev next s)) = next /\
  t_need_resched (tasks (pass_switch prev next s) prev) = 0.
Proof.
  intros Hw Hall -> Hn. unfold pass_switch.
  set (s4 := set_task _ _ s).
  assert (W4 : swf None None 0 s4) by (by apply swf_set_other).
  assert (R4 : all_running s4).
  { intros t. unfold s4. rewrite tasks_set_task. case_decide; apply Hall. }
  assert (A4 : next = idle (rq s4) \/ t_array (tasks s4 next) <> None).
  { unfold s4. rewrite tasks_set_task. case_decide; [subst next|]; done. }
  assert (N4 : t_need_resched (tasks s4 (curr (rq s))) = 0) by (unfold s4; by rewrite tasks_set_task_eq).
  destruct (Z.eqb_spec (curr (rq s)) next) as [<-|Hne].
  - split_and!; [|done..]. split; [done|]. by destruct A4; [left|right].
  - split_and!; [|done..]. split; [|by destruct A4; [left|right]].
    destruct W4 as [H1 H2 H3 H4 H7 Hsl H8]. split; try done; [by apply awf_set_rq|].
    intros t Ht _ _. apply R4.
Qed.

Lemma schedule_pass_wf s : sched_wf s ->
  sched_wf (schedule_pass s) /\ all_running (schedule_pass s) /\
  t_need_resched (tasks (schedule_pass s) (curr (rq s))) = 0.
Proof.
  intros Hw. destruct (pass_prev_wf s Hw) as (W1 & R1 & C1 & I1).
  rewrite schedule_pass_eq. assert (Hp := pass_pick_spec _ W1 R1).
  destruct (pass_pick (pass_prev s)) as [s3 next]. destruct Hp as (W3 & R3 & T3 & C3 & I3 & N3 & P3).
  destruct (pass_switch_wf s3 (curr (rq s)) next) as (W4 & C4 & N4); [done|done|congruence| |].
  - unfold picked in P3. rewrite T3. case_match; [left; destruct P3; congruence|].
    right. destruct P3 as (-> & _). done.
  - split_and!; [done| |done]. intros t. unfold pass_switch.
    destruct (_ =? _); simpl tasks; unfold alter, fn_alter; case_decide; apply R3.
Qed.

(** [current] is what the choice would give: the idle task if nothing is runnable,
    otherwise a task of the active array that no task of that array beats. *)
Definition best_running (s : sched) : Prop :=
  let c := curr (rq s) in
  if nr_running (rq s) =? 0 then c = idle (rq s) /\ forall u, t_array (tasks s u) = None
  else t_array (tasks s c) = Some (active (rq s)) /\
       forall u, t_array (tasks s u) = Some (active (rq s)) -> t_prio (tasks s c) <= t_prio (tasks s u).

(** Choosing again from the arrays left by a choice gives the same task. *)
Definition chosen (s : sched) : Prop := snd (pass_pick s) = curr (rq s).

Lemma pass_pick_again s s' : swf None None 0 s -> all_running s ->
  let '(s3, next) := pass_pick s in
  nr_running (rq s') = nr_running (rq s3) -> arrays (rq s') = arrays (rq s3) ->
  active (rq s') = active (rq s3) -> idle (rq s') = idle (rq s3) ->
  snd (pass_pick s') = next.
Proof.
  intros Hw Hall. unfold pass_pick at 1.
  destruct (Z.eqb_spec (nr_running (rq s)) 0) as [Hz|Hz].
  { simpl. intros En _ _ Ei. unfold pass_pick. by rewrite En, Hz. }
  match goal with |- context [if ?c then ?x else s] => set (sa := if c then x else s) end.
  intros En Ear Ea Ei. cbv zeta.
  assert (Hn : nr_active (arr sa (active (rq sa))) <> 0).
  { assert (Hc := sw_count _ _ _ _ Hw). unfold total in Hc. unfold sa.
    destruct (Z.eqb_spec (nr_active (arr s (active (rq s)))) 0) as [Hx|Hx]; [|done].
    change (nr_active (arr s (expired (rq s))) <> 0).
    rewrite (sw_active _ _ _ _ Hw) in Hx. destruct (expired (rq s)); simpl in Hx; lia. }
  assert (Enr : nr_running (rq sa) = nr_running (rq s)) by (unfold sa; by case_match).
  unfold pass_pick. destruct (Z.eqb_spec (nr_running (rq s')) 0); [congruence|].
  assert (Earr : forall b, arr s' b = arr sa b) by (intros b; unfold arr; by rewrite Ear).
  rewrite Earr, Ea. destruct (Z.eqb_spec (nr_active (arr sa (active (rq sa)))) 0); [done|].
  simpl. unfold q. by rewrite !Earr, Ea, Ei.
Qed.

Lemma schedule_pass_chosen s : sched_wf s -> chosen (schedule_pass s) /\ best_running (schedule_pass s).
Proof.
  intros Hw. destruct (pass_prev_wf s Hw) as (W1 & R1 & C1 & I1).
  rewrite schedule_pass_eq. assert (Hp := pass_pick_spec _ W1 R1).
  assert (Hagain := fun s' => pass_pick_again _ s' W1 R1).
  destruct (pass_pick (pass_prev s)) as [s3 next]. destruct Hp as (W3 & R3 & T3 & C3 & I3 & N3 & P3).
  assert (Cs : curr (rq (pass_switch (curr (rq s)) next s3)) = next).
  { unfold pass_switch. destruct (Z.eqb_spec (curr (rq s)) next); simpl; congruence. }
  split.
  - unfold chosen. rewrite Cs. apply Hagain; unfold pass_switch; by destruct (_ =? _).
  - assert (Ht : forall u, t_array (tasks (pass_switch (curr (rq s)) next s3) u) = t_array (tasks s3 u) /\
      t_prio (tasks (pass_switch (curr (rq s)) next s3) u) = t_prio (tasks s3 u)).
    { intros u. unfold pass_switch. destruct (_ =? _); simpl tasks; unfold alter, fn_alter; by case_decide; subst. }
    assert (Er : nr_running (rq (pass_switch (curr (rq s)) next s3)) = nr_running (rq s3) /\
      active (rq (pass_switch (curr (rq s)) next s3)) = active (rq s3) /\
      idle (rq (pass_switch (curr (rq s)) next s3)) = idle (rq s3)) by (unfold pass_switch; by destruct (_ =? _)).
    destruct Er as (Er & Ea & Ei). unfold best_running. rewrite Cs, Er, Ea, Ei, N3, I3.
    unfold picked in P3. case_match.
    + destruct P3 as [? P3]. split; [congruence|]. intros u. destruct (Ht u) as [-> _]. by rewrite T3.
    + destruct P3 as (P3 & _ & P4 & _). split; [destruct (Ht next) as [-> _]; by rewrite T3|].
      intros u. destruct (Ht u) as [-> ->], (Ht next) as [_ ->]. rewrite T3. apply P4.
Qed.

Lemma pass_pick_rq s s' : rq s' = rq s -> snd (pass_pick s') = snd (pass_pick s).
Proof.
  intros E. unfold pass_pick, q, arr. rewrite E. destruct (_ =? 0); [done|].
  destruct (_ =? 0); simpl; by rewrite E.
Qed.

(** A second pass runs the same task, whose flag it clears. *)
Lemma schedule_pass_again s : sched_wf s -> all_running s -> chosen s ->
  curr (rq (schedule_pass s)) = curr (rq s).
Proof.
  intros Hw Hall Hch. assert (Hst : t_state (tasks s (curr (rq s))) = TASK_RUNNING).
  { destruct Hw as [W [C|C]]; [|by apply Hall]. rewrite C. apply (sw_idle _ _ _ _ W). }
  rewrite schedule_pass_eq. unfold pass_prev. cbv zeta.
  rewrite tasks_set_task_eq. simpl t_state. rewrite Hst. simpl Z.eqb. cbv iota.
  set (s1 := set_task _ _ s). assert (E : snd (pass_pick s1) = curr (rq s)) by (by rewrite (pass_pick_rq s)).
  assert (Ec : curr (rq (fst (pass_pick s1))) = curr (rq s)).
  { unfold pass_pick. case_match; [done|]. simpl. by case_match. }
  destruct (pass_pick s1) as [s3 next]. simpl in E, Ec. subst next.
  unfold pass_switch. by rewrite Z.eqb_refl.
Qed.

Lemma schedule_result s : sched_wf s ->
  exists s', schedule 2 s = Some s' /\ sched_wf s' /\ best_running s' /\
    t_need_resched (tasks s' (curr (rq s'))) = 0 /\ all_running s'.
Proof.
  intros Hw. destruct (schedule_pass_wf s Hw) as (W1 & R1 & N1).
  destruct (schedule_pass_chosen s Hw) as (Ch1 & B1). unfold schedule. cbv zeta.
  destruct (Z.eqb_spec (t_need_resched (tasks (schedule_pass s) (curr (rq (schedule_pass s))))) 0).
  { by exists (schedule_pass s). }
  destruct (schedule_pass_wf _ W1) as (W2 & R2 & N2).
  destruct (schedule_pass_chosen _ W1) as (Ch2 & B2).
  rewrite (schedule_pass_again _ W1 R1 Ch1), N2. exists (schedule_pass (schedule_pass s)).
  split; [reflexivity|]. rewrite (schedule_pass_again _ W1 R1 Ch1). split_and!; assumption.
Qed.
