(* ===== verification/SchedCallsWf.v ===== *)
(** * The scheduler's system calls preserve the invariant *)
From stdpp Require Import base list functions sets.
From S2P Require Import Prelude PidHash Bitmap Sched SchedInv SchedCalls SchedSafety SchedPick.

(** ** Privilege *)

Lemma capable_wf cap s : sched_wf s -> sched_wf (fst (capable cap s)).
Proof. intros. unfold capable. case_match; simpl; [by apply wf_set_other|done]. Qed.

Lemma lacks_wf g cap s : sched_wf s -> sched_wf (fst (lacks g cap s)).
Proof.
  intros Hw. unfold lacks. destruct g; [|done]. apply (capable_wf cap) in Hw.
  by destruct (capable cap s).
Qed.

(** [capable] changes only the flags of [current]. *)
Lemma lacks_frame g cap s : let s' := fst (lacks g cap s) in
  rq s' = rq s /\ forall t, sched_fields (tasks s' t) = sched_fields (tasks s t).
Proof.
  unfold lacks, capable. repeat case_match; simplify_eq; simpl; try done. split; [done|].
  intros t. unfold alter, fn_alter. by case_decide; subst.
Qed.

(** ** Nice values *)

Lemma nice_prio nice : -20 <= nice <= 19 -> MAX_RT_PRIO <= NICE_TO_PRIO nice < MAX_PRIO.
Proof. unfold NICE_TO_PRIO, MAX_PRIO. lia. Qed.

Lemma set_user_nice_wf t nice s : sched_wf s -> t <> idle (rq s) -> sched_wf (set_user_nice t nice s).
Proof.
  intros Hw Hi. unfold set_user_nice. cbv zeta.
  destruct ((TASK_NICE (tasks s t) =? nice) || (nice <? -20) || (19 <? nice)) eqn:Hg; [done|].
  b2p. assert (Hn : -20 <= nice <= 19) by lia. apply nice_prio in Hn.
  assert (Hn0 : 0 <= NICE_TO_PRIO nice < MAX_PRIO) by (unfold MAX_RT_PRIO, MAX_USER_RT_PRIO in Hn; lia).
  destruct (rt_task (tasks s t)).
  { apply wf_set_ok; [done..|]. by intros _ [O1 O2 O3] O4. }
  destruct (t_array (tasks s t)) as [b|] eqn:Ha.
  - match goal with |- context [enqueue_task t b ?x] => set (s1 := enqueue_task t b x) end.
    assert (W1 : sched_wf s1).
    { destruct Hw as [Hw Hc]. split; [|by apply requeue_curr_ok].
      apply requeue_swf; [done..| |done|done]. by intros [O1 O2 O3]. }
    destruct (_ || _); [by apply resched_wf|done].
  - destruct Hw as [Hw Hc]. split; [|by apply curr_ok_set_task].
    apply (swf_relinked _ _ t); [|by rewrite tasks_set_task_eq].
    apply swf_set_task; [by apply swf_unlinked|task_upd].
Qed.

Lemma sys_nice_wf inc s : sched_wf s -> curr (rq s) <> idle (rq s) -> sched_wf (fst (sys_nice inc s)).
Proof.
  intros Hw Hc. unfold sys_nice. assert (W := lacks_wf (inc <? 0) CAP_SYS_NICE s Hw).
  destruct (lacks_frame (inc <? 0) CAP_SYS_NICE s) as [E _].
  destruct (lacks (inc <? 0) CAP_SYS_NICE s) as [s1 r]. simpl in W, E. destruct r; [done|].
  cbv zeta. simpl fst. apply set_user_nice_wf; [done|]. by rewrite E.
Qed.

(** The idle task stays the idle task. *)
Lemma set_user_nice_idle t nice s : idle (rq (set_user_nice t nice s)) = idle (rq s).
Proof.
  unfold set_user_nice. cbv zeta. destruct (_ || _); [done|]. destruct (rt_task _); [done|].
  destruct (t_array _) as [b|]; [|done].
  match goal with |- context [enqueue_task t b ?x] => set (s1 := enqueue_task t b x) end.
  assert (E : idle (rq s1) = idle (rq s)).
  { transitivity (idle (rq (dequeue_task t b s))); [done|]. unfold dequeue_task. cbv zeta. by destruct (bool_decide _). }
  clearbody s1.
  destruct (_ || _); [|done]. rewrite <- E. done.
Qed.

Lemma setpriority_one_wf pid_of pgrp_of which who nice s e t : sched_wf s -> t <> idle (rq s) ->
  let r := setpriority_one pid_of pgrp_of which who nice (s, e) t in
  sched_wf (fst r) /\ idle (rq (fst r)) = idle (rq s).
Proof.
  intros Hw Ht. cbv zeta. unfold setpriority_one. destruct (negb _); [done|]. cbv zeta.
  match goal with |- context [lacks ?g _ s] => pose proof (lacks_wf g CAP_SYS_NICE s Hw) as W1;
    destruct (lacks_frame g CAP_SYS_NICE s) as [E1 _]; destruct (lacks g CAP_SYS_NICE s) as [s1 r1] end.
  simpl in W1, E1. destruct r1; [simpl; by rewrite E1|].
  match goal with |- context [lacks ?g _ s1] => pose proof (lacks_wf g CAP_SYS_NICE s1 W1) as W2;
    destruct (lacks_frame g CAP_SYS_NICE s1) as [E2 _]; destruct (lacks g CAP_SYS_NICE s1) as [s2 r2] end.
  simpl in W2, E2. destruct r2; cbn [fst]; [by rewrite E2, E1|].
  rewrite set_user_nice_idle, E2, E1. split; [|done]. apply set_user_nice_wf; [done|]. by rewrite E2, E1.
Qed.

Lemma setpriority_wf pid_of pgrp_of all which who nice s : sched_wf s -> (forall t, t ∈ all -> t <> idle (rq s)) ->
  sched_wf (fst (sys_setpriority pid_of pgrp_of all which who nice s)).
Proof.
  intros Hw Ha. unfold sys_setpriority. destruct (_ || _); [done|]. cbv zeta.
  match goal with |- context [setpriority_one _ _ _ _ ?n] => generalize n end. intros n.
  revert s Hw Ha. generalize (- ESRCH). induction all as [|t all IH]; intros e s Hw Ha; [done|]. cbn [fold_left].
  destruct (setpriority_one_wf pid_of pgrp_of which who n s e t Hw) as [W1 E1]; [apply Ha; by left|].
  destruct (setpriority_one _ _ _ _ _ _ _) as [s1 e1]. simpl in W1, E1. apply IH; [done|].
  intros u Hu. rewrite E1. apply Ha. by right.
Qed.

(** ** Scheduling policies *)

Lemma set_policy_wf t policy prio s : sched_wf s -> t <> idle (rq s) ->
  0 <= prio < MAX_USER_RT_PRIO -> sched_wf (set_policy t policy prio s).
Proof.
  intros [Hw Hc] Hi Hp. unfold set_policy. cbv zeta.
  match goal with |- context [set_task t ?f _] => set (upd := f) end.
  assert (Hupd : forall p, task_ok p -> task_ok (upd p)).
  { intros p [O1 O2 O3]. split; simpl; try done. unfold MAX_PRIO, MAX_RT_PRIO, MAX_USER_RT_PRIO in *.
    case_match; lia. }
  assert (Hset : forall s', swf None None 0 s' -> idle (rq s') = idle (rq s) -> t_array (tasks s' t) = None ->
    swf None None 0 (set_task t upd s')).
  { intros s' W E A. apply (swf_relinked _ _ t); [|by rewrite tasks_set_task_eq].
    apply swf_set_task; [by apply swf_unlinked; rewrite ?E|].
    split_and!; [by left|auto|by left|by do 2 right; left]. }
  case_bool_decide as Hq.
  - destruct Hq as [b Hb]. destruct (core_deactivate t s) as (F1 & F2 & _).
    assert (Hr : t <> curr (rq s) -> t_state (tasks s t) = TASK_RUNNING).
    { intros. apply (sw_state _ _ _ _ Hw); congruence. }
    assert (W1 := deactivate_swf _ _ _ _ _ Hw Hb).
    assert (E1 := tasks_deactivate t s t). rewrite decide_True in E1 by done.
    set (s1 := deactivate_task t s) in *.
    split.
    + apply activate_swf; [apply Hset; [done|done|by rewrite E1]| | |].
      * by rewrite tasks_set_task_eq, E1.
      * by change (t <> idle (rq s1)); rewrite F2.
      * change (curr (rq (set_task t upd s1))) with (curr (rq s1)).
        rewrite F1, tasks_set_task_eq, E1. intros. by apply Hr.
    + core (core_activate t (set_task t upd s1)).
      eapply (curr_ok_mono s); [done|etransitivity; [eassumption|exact F1]|etransitivity; [eassumption|exact F2]|].
      rewrite tasks_activate. case_decide as D; [done|]. rewrite tasks_set_task_ne by done.
      unfold s1. rewrite tasks_deactivate. by rewrite decide_False.
  - assert (Ha : t_array (tasks s t) = None) by (by apply eq_None_not_Some).
    split; [by apply Hset|by apply curr_ok_set_task].
Qed.

Section lookup.
Context (find : Z -> option tid) (s : sched).
Hypothesis Hfind : forall pid t, find pid = Some t -> t <> idle (rq s).
Hypothesis Hcurr : curr (rq s) <> idle (rq s).
Hypothesis Hw : sched_wf s.

Lemma find_process_not_idle pid t : find_process_by_pid find pid s = Some t -> t <> idle (rq s).
Proof using Hfind Hcurr. unfold find_process_by_pid. case_match; [apply Hfind|congruence]. Qed.

Lemma setscheduler_wf pid policy param cfu : sched_wf (fst (setscheduler find pid policy param cfu s)).
Proof using Hfind Hcurr Hw.
  unfold setscheduler. destruct (_ || _); [done|]. destruct (cfu param) as [prio|]; [|done].
  destruct (find_process_by_pid find pid s) as [t|] eqn:Hf; [|done]. apply find_process_not_idle in Hf.
  cbv zeta. destruct (_ && _); [done|].
  destruct ((prio <? 0) || (MAX_USER_RT_PRIO - 1 <? prio)) eqn:Hp; [done|].
  destruct (negb (eqb _ _)); [done|].
  match goal with |- context [lacks ?g ?c s] =>
    assert (W1 := lacks_wf g c s Hw); destruct (lacks_frame g c s) as [E1 _]; destruct (lacks g c s) as [s1 r1] end.
  simpl in W1, E1. destruct r1; [done|].
  match goal with |- context [lacks ?g ?c s1] =>
    assert (W2 := lacks_wf g c s1 W1); destruct (lacks_frame g c s1) as [E2 _]; destruct (lacks g c s1) as [s2 r2] end.
  simpl in W2, E2. destruct r2; [done|]. simpl fst. apply set_policy_wf; [done|congruence|]. b2p. lia.
Qed.

Lemma setaffinity_wf pid len mask : sched_wf (fst (sys_sched_setaffinity find pid len mask s)).
Proof using Hfind Hcurr Hw.
  unfold sys_sched_setaffinity. destruct (_ <? _); [done|]. destruct mask as [m|]; [|done]. cbv zeta.
  destruct (_ =? _); [done|]. destruct (find_process_by_pid find pid s) as [t|]; [|done].
  assert (W1 := capable_wf CAP_SYS_NICE s Hw). destruct (capable CAP_SYS_NICE s) as [s1 o1]. simpl in W1.
  assert (W2 := capable_wf CAP_SYS_NICE s1 W1). destruct (capable CAP_SYS_NICE s1) as [s2 o2]. simpl in W2.
  match goal with |- context [other_owner t ?x] => set (s3 := x) end.
  assert (W3 : sched_wf s3) by (unfold s3; destruct o2; [by apply wf_set_other|done]).
  destruct (_ =? _); [done|].
  match goal with |- context [lacks ?g ?c s3] => assert (W4 := lacks_wf g c s3 W3); destruct (lacks g c s3) as [s4 r] end.
  by destruct r.
Qed.
End lookup.

(** ** Yielding *)

(** The invariant only depends on the arrays through [awf] and [total], and allows
    a change of dynamic priority. *)
Lemma swf_transfer st d s s' : swf None st d s -> awf None s' -> total s' = total s ->
  rq_core (rq s') = rq_core (rq s) ->
  (forall u, exists k, tasks s' u = (tasks s u) <| t_prio := k |> /\
     (u <> idle (rq s) -> 0 <= k < MAX_PRIO)) ->
  swf None st d s'.
Proof.
  intros [H1 H2 H3 (H4 & H5 & H6) H7 Hsl H8] Ha Ht Hr Hu. unfold rq_core in Hr.
  injection Hr as R1 R2 R3 R4 R5 R6 R7 R8. split; rewrite ?R7, ?R8, ?R6, ?R5; try done.
  - lia.
  - destruct (Hu (idle (rq s))) as (k & -> & _). done.
  - intros t Hne. destruct (Hu t) as (k & -> & Hk). destruct (H7 t Hne). split; simpl; auto.
  - intros t Hne Hs. destruct (Hu t) as (k & -> & _). by apply (Hsl t).
  - intros t Hne Hex Hs. destruct (Hu t) as (k & -> & _). by apply (H8 t).
Qed.

Lemma keep_prio p : p = p <| t_prio := t_prio p |>.
Proof. by destruct p. Qed.

(** Reordering queues. *)
Lemma awf_perm s s' : awf None s -> tasks s' = tasks s ->
  (forall b, nr_active (arr s' b) = nr_active (arr s b) /\ bitmap (arr s' b) = bitmap (arr s b) /\
     forall k, q s' b k ≡ₚ q s b k) -> awf None s' /\ total s' = total s.
Proof.
  intros [H1 H2 H3 H4] Et Ha. split.
  - split; try done.
    + intros b. destruct (Ha b) as (? & ? & ?). by apply (array_perm_ok (arr s b)).
    + intros b k t. destruct (Ha b) as (_ & _ & ->). rewrite Et. apply H2.
    + intros t b Hex. rewrite Et. intros Ht. destruct (Ha b) as (_ & _ & ->). by apply H3.
  - unfold total. destruct (Ha true) as (-> & _), (Ha false) as (-> & _). done.
Qed.

Lemma filter_out_cons (t : tid) l : NoDup l -> t ∈ l -> t :: filter (fun u => u <> t) l ≡ₚ l.
Proof.
  intros Hnd Hin. apply list_elem_of_split in Hin as (l1 & l2 & ->).
  apply NoDup_app in Hnd as (N1 & N2 & N3). apply list.NoDup_cons in N3 as [N3 N4].
  rewrite filter_app, filter_cons_False by naive_solver.
  rewrite !filter_out_not_in by (done || (intros Hc; apply N2 in Hc; set_solver)).
  by rewrite Permutation_middle.
Qed.

(** Where a queue is after [list_del] and one of the two insertions. *)
Lemma q_relink t b k ins s b' j :
  q (set_array b (fun a => a <| queue ::= alter ins k |>) (list_del t s)) b' j =
  if decide (b = b' /\ k = j) then ins (filter (fun u => u <> t) (q s b k))
  else filter (fun u => u <> t) (q s b' j).
Proof.
  unfold q. rewrite arr_set_array, !arr_list_del. case_decide as D; [subst b'|].
  - simpl. rewrite fn_alter_spec. repeat case_decide; naive_solver.
  - simpl. by rewrite decide_False by naive_solver.
Qed.

Lemma relink_same_wf t b ins s : sched_wf s -> t_array (tasks s t) = Some b ->
  (forall l, ins l ≡ₚ t :: l) ->
  sched_wf (set_array b (fun a => a <| queue ::= alter ins (t_prio (tasks s t)) |>) (list_del t s)).
Proof.
  intros [Hw Hc] Hb Hins. set (k := t_prio (tasks s t)). set (s' := set_array _ _ _).
  destruct (awf_perm s s') as [Ha Ht]; [apply Hw|done| |].
  - intros b'. unfold s'. split_and!.
    + rewrite arr_set_array, !arr_list_del. by case_decide; subst.
    + rewrite arr_set_array, !arr_list_del. by case_decide; subst.
    + intros j. rewrite q_relink. assert (Hwa := sw_awf _ _ _ _ Hw). case_decide as D.
      * destruct D as [<- <-]. rewrite Hins. apply filter_out_cons; [apply (aw_array _ _ Hwa)|].
        by apply (aw_on _ _ Hwa).
      * rewrite filter_out_not_in; [done|]. intros [E1 E2]%(aw_in _ _ Hwa). naive_solver.
  - split; [|done]. apply (swf_transfer _ _ s); [done..|].
    intros u. exists (t_prio (tasks s u)). split; [apply keep_prio|]. apply (sw_task _ _ _ _ Hw).
Qed.

Definition second (t : tid) (l : list tid) : list tid :=
  match l with [] => [t] | u :: l' => u :: t :: l' end.

Lemma second_perm t l : second t l ≡ₚ t :: l.
Proof. destruct l; simpl; [done|]. apply Permutation_swap. Qed.

(** The move to the next used priority. *)
Lemma yield_next_wf t b i s : sched_wf s -> t_array (tasks s t) = Some b ->
  let k := t_prio (tasks s t) in
  filter (fun u => u <> t) (q s b k) = [] -> 0 <= i < MAX_PRIO ->
  forall s3, (forall u, tasks s3 u = alter (fun p => p <| t_prio := i |>) t (tasks s) u) ->
  rq s3 = rq (set_array b (fun a => a <| bitmap ::= __clear_bit k |>) (list_del t s)) ->
  sched_wf (set_array b (fun a => a <| bitmap ::= __set_bit i |>) (list_add_second t b i s3)).
Proof.
  intros [Hw Hc] Hb k Hemp Hi s3 Et Er.
  set (s' := set_array b _ (list_add_second t b i s3)).
  assert (Hwa := sw_awf _ _ _ _ Hw). destruct (awf_dequeue t b s Hwa Hb) as [Hd Htd].
  assert (Harr : forall b', arr s' b' ≡ if decide (b = b')
      then array_insert (second t (q (dequeue_task t b s) b i)) i (arr (dequeue_task t b s) b)
      else arr (dequeue_task t b s) b').
  { intros b'. unfold q.
    assert (Hdq : forall b'', arr (dequeue_task t b s) b'' ≡ if decide (b = b'')
      then array_remove t k (arr s b) else arr s b'').
    { intros b''. apply arr_dequeue. intros Hne j [_ Hx]%(aw_in _ _ Hwa). congruence. }
    destruct (decide (b = b')) as [<-|Hne].
    - destruct (Hdq b) as (D1 & D2 & D3). rewrite decide_True in D1, D2, D3 by done.
      unfold array_insert. rewrite D1, D2, D3. unfold array_remove. simpl.
      unfold q in Hemp. rewrite bool_decide_eq_true_2 by done.
      unfold s', list_add_second. rewrite !arr_set_array, !decide_True by done.
      unfold arr at 1. rewrite Er. change (arrays (rq ?x) b) with (arr x b).
      rewrite arr_set_array, arr_list_del, decide_True by done.
      split_and!; simpl; [lia|done|]. intros j. rewrite !fn_alter_spec.
      case_decide as D; [done|]. destruct (D3 j) as []. done.
    - destruct (Hdq b') as (D1 & D2 & D3). rewrite decide_False in D1, D2, D3 by done.
      unfold s', list_add_second. rewrite !arr_set_array, !decide_False by done.
      unfold arr at 1. rewrite Er. change (arrays (rq ?x) b') with (arr x b').
      rewrite arr_set_array, arr_list_del, decide_False by done.
      split_and!; simpl; [done..|]. intros j. rewrite D3. apply filter_out_not_in.
      intros [_ Hx]%(aw_in _ _ Hwa). congruence. }
  assert (Etu : forall u, tasks s' u = if decide (t = u) then (tasks s t) <| t_prio := i |> else tasks s u).
  { intros u. change (tasks s' u) with (tasks s3 u). by rewrite Et. }
  destruct (awf_link t b (second t (q (dequeue_task t b s) b i)) (dequeue_task t b s) s')
    as [Ha Ht]; rewrite ?Etu, ?decide_True by done; try done.
  - intros u Hu. rewrite Etu, tasks_dequeue. by rewrite decide_False.
  - apply second_perm.
  - assert (Ecore : rq_core (rq s') = rq_core (rq s)).
    { unfold s', list_add_second, set_array. simpl. rewrite Er. done. }
    split.
    + apply (swf_transfer _ _ s); [done..|lia|done|]. intros u. rewrite Etu.
      case_decide as D; [subst u; by exists i|].
      exists (t_prio (tasks s u)). split; [apply keep_prio|]. apply (sw_task _ _ _ _ Hw).
    + core Ecore. eapply curr_ok_mono; [done..|]. rewrite Etu. case_decide as D; [|done]. by rewrite D.
Qed.

Lemma yield_queue_wf b s : sched_wf s -> t_array (tasks s (curr (rq s))) = Some b ->
  sched_wf (yield_queue b s).
Proof.
  intros Hw Hb. unfold yield_queue. cbv zeta. set (c := curr (rq s)) in *.
  destruct (rt_task (tasks s c)).
  { apply (relink_same_wf c b (fun l => l ++ [c])); [done..|]. intros l. by rewrite Permutation_app_comm. }
  assert (Eq : q (list_del c s) b (t_prio (tasks s c)) = filter (fun u => u <> c) (q s b (t_prio (tasks s c))))
    by (unfold q; by rewrite arr_list_del).
  case_bool_decide as Hemp; simpl negb; cbv iota.
  2: { apply (relink_same_wf c b (second c)); [done..|]. apply second_perm. }
  rewrite Eq in Hemp. set (s2 := set_array b _ (list_del c s)).
  assert (Hok : task_ok (tasks s c)).
  { apply (wf_tasks s c Hw). by eapply swf_idle_ne; [apply Hw|]. }
  destruct (_ || _) eqn:Hor.
  - apply (yield_next_wf c b (t_prio (tasks s c)) s); [done..|apply Hok| |done].
    intros u. unfold alter, fn_alter. case_decide as D; [subst u; apply keep_prio|done].
  - apply (yield_next_wf c b _ s); [done..| |done|done]. b2p.
    assert (Hk := prio_bit _ (to_prio _ Hok)).
    assert (Ha : array_ok (arr s b)) by apply Hw.
    assert (Eb : bitmap (arr s2 b) = __clear_bit (t_prio (tasks s c)) (bitmap (arr s b))).
    { unfold s2. rewrite arr_set_array, arr_list_del, decide_True by done. done. }
    destruct (find_first_least (bitmap (arr s2 b)) MAX_PRIO) as (F1 & _ & F3); [|done| |].
    + rewrite Eb. apply clear_bit_ok; [apply Ha|done].
    + rewrite Eb, test_clear_bit by (done || apply Ha). rewrite decide_False by (destruct Hok; lia).
      apply Ha.
    + destruct (Z.lt_ge_cases MAX_PRIO (_sched_find_first_bit (bitmap (arr s2 b)))); [|lia].
      specialize (F3 MAX_PRIO ltac:(done)). rewrite Eb, test_clear_bit in F3 by (done || apply Ha).
      rewrite decide_False, (ao_delim _ Ha) in F3 by (destruct Hok; lia). done.
Qed.

(** ** Wait queues *)

Lemma idle_wake t s : idle (rq (fst (try_to_wake_up t s))) = idle (rq s).
Proof.
  unfold try_to_wake_up. destruct (t_array (tasks s t)); [done|]. simpl.
  match goal with |- context [activate_task t ?x] => set (s1 := x) end.
  assert (E : idle (rq s1) = idle (rq s)) by (unfold s1; by case_match).
  core (core_activate t s1). destruct (_ <? _); simpl in *; congruence.
Qed.

Lemma wake_up_common_wf l mode nr s : sched_wf s ->
  (forall w, w ∈ l -> wq_task w <> idle (rq s)) -> sched_wf (__wake_up_common l mode nr s).
Proof.
  revert nr s. induction l as [|w l IH]; intros nr s Hw Hl; simpl; [done|].
  assert (W1 := wake_wf (wq_task w) s Hw (Hl w (list_elem_of_here _ _))).
  assert (I1 := idle_wake (wq_task w) s).
  assert (Hl' : forall v, v ∈ l -> wq_task v <> idle (rq s)) by set_solver.
  case_match; [|by apply IH].
  destruct (try_to_wake_up (wq_task w) s) as [s1 woken]. simpl in *.
  repeat case_match; try apply IH; rewrite ?I1; done.
Qed.

(** ** Fork *)

Lemma shiftr1 x : 0 <= x -> Z.shiftr x 1 = x / 2.
Proof. intros. by rewrite Z.shiftr_div_pow2. Qed.

(** [s'] differs from [s] in the task [c] and in the queues and counters only. *)
Definition frame (c : tid) (s s' : sched) : Prop :=
  curr (rq s') = curr (rq s) /\ idle (rq s') = idle (rq s) /\ forall t, t <> c -> tasks s' t = tasks s t.

Section frame.
Context (c : tid) (s : sched).

Lemma frame_refl : frame c s s.
Proof using. done. Qed.

Lemma frame_set_task f s' : frame c s s' -> frame c s (set_task c f s').
Proof using. intros (?&?&H). split_and!; [done..|]. intros t Ht. rewrite tasks_set_task_ne; auto. Qed.

Lemma frame_dequeue b s' : frame c s s' -> frame c s (dequeue_task c b s').
Proof using.
  intros (?&?&H). core (core_dequeue c b s'). split_and!; [congruence..|]. by rewrite tasks_dequeue.
Qed.

Lemma frame_enqueue b s' : frame c s s' -> frame c s (enqueue_task c b s').
Proof using. intros (?&?&H). split_and!; [done..|]. intros t Ht. rewrite tasks_enqueue, decide_False; auto. Qed.

Lemma frame_expired_ts x s' : frame c s s' -> frame c s (set_rq (fun r => r <| expired_timestamp := x |>) s').
Proof using. done. Qed.

Lemma frame_stat g s' : frame c s s' -> frame c s (s' <| stat ::= g |>).
Proof using. done. Qed.
End frame.
#[export] Hint Resolve frame_refl frame_set_task frame_dequeue frame_enqueue frame_expired_ts frame_stat : kernel.

Lemma tick_frame in_irq u sy s : frame (curr (rq s)) s (scheduler_tick in_irq u sy s).
Proof.
  unfold scheduler_tick, set_need_resched. cbv zeta.
  repeat lazymatch goal with
  | |- frame _ _ (if ?c then _ else _) => destruct c
  | |- frame _ _ (set_task _ _ _) => apply frame_set_task
  | |- frame _ _ (dequeue_task _ _ _) => apply frame_dequeue
  | |- frame _ _ (enqueue_task _ _ _) => apply frame_enqueue
  | |- frame _ _ (set_rq _ _) => apply frame_expired_ts
  | |- frame _ _ (update stat _ _) => apply frame_stat
  | |- frame _ ?s ?s => apply frame_refl
  end.
Qed.

(** Parent and child keep a time slice each. *)
Lemma share_timeslice_wf child s : sched_wf s -> child <> idle (rq s) -> child <> curr (rq s) ->
  curr (rq s) <> idle (rq s) ->
  sched_wf (share_timeslice child s) /\ frame (curr (rq s)) (set_task child (fun p =>
    p <| t_time_slice := Z.shiftr (u32 (t_time_slice (tasks s (curr (rq s))) + 1)) 1 |>
      <| t_first_time_slice := 1 |> <| t_sleep_timestamp := jiffies s |>) s) (share_timeslice child s).
Proof.
  intros Hw Hi Hc Hci. unfold share_timeslice. cbv zeta. set (c := curr (rq s)) in *.
  set (s1 := set_task child _ s).
  destruct (wf_tasks s c Hw Hci) as [_ Hsl]. unfold slice_ok, HZ in Hsl.
  assert (W1 : sched_wf s1).
  { apply wf_set_ok; [done..|]. intros _ [O1 O2 O3] O4. split; [by split|]. unfold slice_ok, HZ. simpl.
    rewrite u32_small by lia. rewrite shiftr1 by lia. split; [apply Z.div_le_lower_bound|apply Z.div_le_upper_bound]; lia. }
  assert (Ec : tasks s1 c = tasks s c) by (unfold s1; by rewrite tasks_set_task_ne).
  assert (Er : rq s1 = rq s) by done. clearbody s1.
  set (s2 := set_task c _ s1).
  assert (E2 : t_time_slice (tasks s2 c) = t_time_slice (tasks s c) / 2).
  { unfold s2. rewrite tasks_set_task_eq. simpl. rewrite Ec. apply shiftr1. lia. }
  rewrite E2. destruct (Z.eqb_spec (t_time_slice (tasks s c) / 2) 0) as [Hz|Hz].
  - set (s3 := set_task c (fun p => p <| t_time_slice := 1 |>) s2).
    assert (W3 : sched_wf s3).
    { destruct W1 as [W1 C1]. split; [|by apply curr_ok_set_task; [apply curr_ok_set_task|]].
      apply (swf_slice_done 0).
      - change (curr (rq s3)) with (curr (rq s1)). rewrite Er.
        apply swf_set_task; [|task_upd]. apply swf_set_task; [by apply swf_weaken_state|task_upd].
      - change (curr (rq s3)) with (curr (rq s1)). rewrite Er. unfold s3. rewrite tasks_set_task_eq.
        unfold slice_ok. simpl. done. }
    split; [by apply tick_wf|].
    assert (Hf : frame c s1 s3) by (unfold s3, s2; eauto with kernel).
    assert (Hf' := tick_frame false 0 0 s3). change (curr (rq s3)) with (curr (rq s1)) in Hf'. rewrite Er in Hf'.
    destruct Hf as (?&?&F), Hf' as (?&?&F'). split_and!; [congruence..|].
    intros t Ht. rewrite F' by done. by apply F.
  - split; [|apply frame_set_task, frame_refl].
    apply wf_set_ok; [done..|]. intros _ [O1 O2 O3] O4. split; [by split|]. unfold slice_ok in *. simpl.
    rewrite Ec, shiftr1 by lia. unfold HZ in *.
    assert (0 <= t_time_slice (tasks s c) / 2) by (apply Z.div_pos; lia).
    assert (t_time_slice (tasks s c) / 2 <= 512) by (apply Z.div_le_upper_bound; lia). lia.
Qed.

Lemma fork_wf child s : sched_wf s -> child <> idle (rq s) -> child <> curr (rq s) ->
  curr (rq s) <> idle (rq s) -> t_array (tasks s child) = None -> sched_wf (fork_sched child s).
Proof.
  intros Hw Hi Hc Hci Ha. unfold fork_sched. cbv zeta. apply wf_set_other; [|done].
  set (s1 := set_task child _ s).
  destruct (wf_tasks s (curr (rq s)) Hw Hci) as [Hok Hsl].
  assert (W1 : sched_wf s1).
  { destruct Hw as [Hw Hcu]. split; [|by apply curr_ok_set_task; rewrite ?Ha].
    apply (swf_relinked _ _ child); [|unfold s1; by rewrite tasks_set_task_eq].
    apply swf_set_task; [by apply swf_unlinked|]. split_and!; [by left| |by do 3 right|by do 3 right].
    intros _ _. by destruct Hok. }
  destruct (share_timeslice_wf child s1) as [W2 (F1 & F2 & F3)]; [done..|].
  apply wake_forked_wf; rewrite ?F1, ?F2; try done.
  rewrite F3 by done. rewrite tasks_set_task_eq. unfold s1. by rewrite tasks_set_task_eq.
Qed.

(** ** Boot *)

Lemma clear_bits_words l bm : words_ok bm -> Forall (fun k => 0 <= k < 160) l ->
  words_ok (fold_left (fun bm k => __clear_bit k bm) l bm).
Proof.
  revert bm. induction l as [|k l IH]; intros bm Hbm Hl; [done|]. apply Forall_cons in Hl as [??].
  apply IH; [by apply clear_bit_ok|done].
Qed.

Lemma clear_bits_test l bm j : words_ok bm -> Forall (fun k => 0 <= k < 160) l -> 0 <= j < 160 ->
  test_bit j (fold_left (fun bm k => __clear_bit k bm) l bm) =
  if bool_decide (j ∈ l) then false else test_bit j bm.
Proof.
  revert bm. induction l as [|k l IH]; intros bm Hbm Hl Hj; cbn [fold_left];
    [by rewrite bool_decide_eq_false_2 by set_solver|].
  apply Forall_cons in Hl as [Hk Hl]. rewrite IH by (done || by apply clear_bit_ok).
  rewrite test_clear_bit by done.
  destruct (decide (j = k)) as [->|Hne].
  - rewrite (bool_decide_eq_true_2 (k ∈ k :: l)) by set_solver. by case_bool_decide.
  - erewrite (bool_decide_ext (j ∈ k :: l) (j ∈ l)) by set_solver. done.
Qed.

Lemma init_array_ok n bm : n = 0 -> words_ok bm ->
  array_ok (PrioArray n (__set_bit MAX_PRIO (fold_left (fun bm k => __clear_bit k bm) (seqZ 0 MAX_PRIO) bm))
                      (fun _ => [])).
Proof.
  intros -> Hbm.
  assert (Hall : Forall (fun k => 0 <= k < 160) (seqZ 0 MAX_PRIO)).
  { apply Forall_forall. intros k Hk%elem_of_seqZ. unfold MAX_PRIO, MAX_RT_PRIO, MAX_USER_RT_PRIO in *. lia. }
  assert (Hw := clear_bits_words _ _ Hbm Hall).
  split; cbn [bitmap queue nr_active].
  - by apply set_bit_ok.
  - intros k Hk. rewrite test_set_bit by (done || by apply prio_bit). rewrite decide_False by lia.
    rewrite clear_bits_test by (done || by apply prio_bit).
    rewrite bool_decide_eq_true_2 by (apply elem_of_seqZ; lia). done.
  - rewrite test_set_bit by done. by rewrite decide_True.
  - intros k t Ht. by apply not_elem_of_nil in Ht.
  - intros k. apply NoDup_nil_2.
  - vm_compute. reflexivity.
Qed.

Lemma activate_frame t s : let r' := rq (activate_task t s) in let r := rq s in
  curr r' = curr r /\ idle r' = idle r /\ active r' = active r /\ expired r' = expired r /\
  nr_running r' = Z.succ (nr_running r).
Proof. unfold activate_task. by case_match. Qed.

Lemma activate_awf t s : awf None s -> t_array (tasks s t) = None -> task_ok (tasks s t) ->
  awf None (activate_task t s) /\ total (activate_task t s) = total s + 1.
Proof.
  intros Hw Ha Hok. unfold activate_task. cbv zeta.
  match goal with |- context [enqueue_task t _ ?e] => set (s1 := e) end.
  assert (E : tasks s1 t = sleep_bonus s (tasks s t)).
  { unfold s1, sleep_bonus. case_match; [|done]. by rewrite tasks_set_task_eq. }
  assert (W1 : awf (Some t) s1).
  { apply (awf_unlinked t) in Hw; [|done]. unfold s1. case_match; [|done]. by apply awf_set_task; [|left]. }
  assert (T1 : total s1 = total s) by (unfold s1; by case_match).
  destruct (awf_enqueue t (active (rq s)) s1 W1) as [W2 T2].
  { rewrite E. by apply sleep_bonus_ok. }
  split; [by apply awf_set_rq|]. rewrite total_set_rq by done. lia.
Qed.

(** Before [sched_init]: empty arrays and counters, no task linked. *)
Record boot_state (s : sched) : Prop := BootState {
  bs_words : forall b, words_ok (bitmap (arr s b));
  bs_nr : forall b, nr_active (arr s b) = 0;
  bs_running : nr_running (rq s) = 0;
  bs_array : forall t, t_array (tasks s t) = None;
  bs_task : forall t, task_ok (tasks s t) /\ slice_ok (tasks s t)
}.

Lemma init_queues_awf s : boot_state s ->
  awf None (sched_init_queues s) /\ total (sched_init_queues s) = 0.
Proof.
  intros [B1 B2 B3 B4 B5]. split.
  - split.
    + intros b. change (array_ok (PrioArray (nr_active (arr s b))
        (__set_bit MAX_PRIO (fold_left (fun bm k => __clear_bit k bm) (seqZ 0 MAX_PRIO) (bitmap (arr s b))))
        (fun _ => []))). by apply init_array_ok.
    + intros b k t Ht. by apply not_elem_of_nil in Ht.
    + intros t b _ Hx. change (t_array (tasks s t) = Some b) in Hx. congruence.
    + done.
  - unfold total. change (nr_active (arr s true) + nr_active (arr s false) = 0). rewrite !B2. done.
Qed.

(** [sched_init] leaves the boot task running, alone on the active array. *)
Lemma sched_init_state t s : boot_state s ->
  let s' := sched_init t s in
  awf None s' /\ total s' = 1 /\ nr_running (rq s') = 1 /\ t_array (tasks s' t) = Some false /\
  t_state (tasks s' t) = TASK_RUNNING /\ active (rq s') = false /\ expired (rq s') = true /\
  (forall u, u <> t -> tasks s' u = tasks s u).
Proof.
  intros Hb. destruct (init_queues_awf s Hb) as [W1 T1].
  unfold sched_init. cbv zeta. set (s2 := set_rq _ (sched_init_queues s)).
  assert (W2 : awf None s2) by (by apply awf_set_rq).
  assert (T2 : total s2 = 0) by done.
  assert (R2 : nr_running (rq s2) = 0) by (change (nr_running (rq s2)) with (nr_running (rq s)); apply Hb).
  assert (Et : tasks s2 = tasks s) by done.
  assert (Er : active (rq s2) = false /\ expired (rq s2) = true /\ curr (rq s2) = t) by done.
  clearbody s2. destruct Er as (A2 & X2 & C2).
  unfold wake_up_process, try_to_wake_up. rewrite Et, (bs_array _ Hb).
  match goal with |- context [activate_task t ?x] => set (s3 := x) end.
  assert (H3 : awf None s3 /\ total s3 = 0 /\ rq_core (rq s3) =
    rq_core ((rq s2) <| nr_uninterruptible := nr_uninterruptible (rq s3) |>) /\ tasks s3 = tasks s).
  { unfold s3. case_match; [split_and!; [by apply awf_set_rq|done..]|]. by split_and!. }
  destruct H3 as (W3 & T3 & K3 & E3). clearbody s3. unfold rq_core in K3. injection K3 as ???????.
  destruct (activate_awf t s3 W3) as [W4 T4]; [by rewrite E3; apply Hb|by rewrite E3; apply Hb|].
  assert (E4 := tasks_activate t s3).
  destruct (activate_frame t s3) as (C4 & _ & A4 & X4 & N4). set (s4 := activate_task t s3) in *.
  clearbody s4. replace (curr (rq s4)) with t by congruence. rewrite Z.ltb_irrefl.
  cbn [fst]. rewrite tasks_set_task_eq.
  change (rq (set_task ?t ?f ?s)) with (rq s). split_and!; try done; try (congruence || lia).
  - apply awf_set_task; [done|by right].
  - change (total s4 = 1). lia.
  - rewrite E4, decide_True by done. simpl. congruence.
  - intros u Hu. rewrite tasks_set_task_ne by done. rewrite E4, decide_False by done. by rewrite E3.
Qed.

Lemma deactivate_awf t b s : awf None s -> t_array (tasks s t) = Some b ->
  awf None (deactivate_task t s) /\ total (deactivate_task t s) = total s - 1 /\
  nr_running (rq (deactivate_task t s)) = nr_running (rq s) - 1.
Proof.
  intros Hw Hb. unfold deactivate_task. rewrite Hb.
  match goal with |- context [dequeue_task t b ?x] => set (s1 := x) end.
  assert (H1 : awf None s1 /\ total s1 = total s /\ nr_running (rq s1) = nr_running (rq s) - 1 /\ tasks s1 = tasks s).
  { unfold s1. case_match; split_and!; try done; repeat (apply awf_set_rq; [|done]); done. }
  destruct H1 as (W1 & T1 & N1 & E1). clearbody s1.
  destruct (awf_dequeue t b s1) as [W2 T2]; [done|by rewrite E1|]. core (core_dequeue t b s1).
  split_and!; [by apply awf_array_None| |].
  - change (total (dequeue_task t b s1) = total s - 1). lia.
  - change (nr_running (rq (dequeue_task t b s1)) = nr_running (rq s) - 1). congruence.
Qed.

Lemma boot_swf t s : boot_state s -> sched_wf (init_idle t (sched_init t s)).
Proof.
  intros Hb. destruct (sched_init_state t s Hb) as (W & T & R & A & St & Ac & Ex & Eu).
  set (s1 := sched_init t s) in *. clearbody s1. unfold init_idle. cbv zeta.
  set (s2 := set_rq _ s1).
  assert (W2 : awf None s2) by (by apply awf_set_rq).
  destruct (deactivate_awf t false s2 W2 A) as (W5 & T5 & R5).
  destruct (core_deactivate t s2) as (F1 & F2 & F3 & F4).
  assert (E5 := tasks_deactivate t s2). set (s5 := deactivate_task t s2) in *.
  assert (H5 : active (rq s5) = false /\ expired (rq s5) = true /\ total s5 = 0 /\ nr_running (rq s5) = 0 /\
    idle (rq s5) = t /\ curr (rq s5) = t).
  { assert (Ht2 : total s2 = total s1) by (unfold s2; by rewrite total_set_rq).
    rewrite F1, F2, F3, F4. split_and!; [done|done|lia| |done|done].
    rewrite R5. change (nr_running (rq s1) - 1 = 0). lia. }
  assert (Hu : forall u, u <> t -> tasks s5 u = tasks s u).
  { intros u Hne. rewrite E5, decide_False by done. by apply Eu. }
  assert (Et : t_array (tasks s5 t) = None) by (by rewrite E5, decide_True).
  clearbody s5. clear E5 F1 F2 F3 F4 W2 T5 R5. clear s2 W T R A St Ac Ex Eu s1.
  destruct H5 as (A5 & X5 & T5 & R5 & I5 & C5).
  set (s6 := set_task t _ s5).
  assert (H6 : awf (Some t) s6) by (apply awf_set_task; [by apply awf_unlinked|by left]).
  assert (A6 : forall u, t_array (tasks s6 u) = None).
  { intros u. unfold s6. rewrite tasks_set_task. case_decide; [done|]. rewrite Hu by congruence. apply Hb. }
  assert (S6 : t_state (tasks s6 t) = TASK_RUNNING) by (unfold s6; by rewrite tasks_set_task_eq).
  assert (W6 : awf None s6).
  { destruct H6 as [H1 H2 H3 H4]. split; try done. intros u b _ Hx. by rewrite A6 in Hx. }
  assert (E6 : rq s6 = rq s5) by done. assert (T6 : total s6 = 0) by done.
  assert (U6 : forall u, u <> t -> tasks s6 u = tasks s u).
  { intros u Hne. unfold s6. rewrite tasks_set_task_ne by done. by apply Hu. }
  clearbody s6. apply wf_set_other; [|done].
  split; [|left; by rewrite E6, I5, C5].
  split; rewrite ?E6, ?I5; [done|by rewrite A5, X5|lia|by split_and!| | |].
  - intros u Hne. rewrite U6 by done. apply Hb.
  - intros u Hne _. rewrite U6 by done. apply Hb.
  - intros u _ _ _ Hx. by rewrite A6 in Hx.
Qed.
