(* ===== verification/SchedTheorems.v ===== *)
(** * What the scheduler guarantees

    The step relation [sstep] has a rule for each way the rest of the kernel uses
    the scheduler; the runqueue invariant holds in every state reachable from
    boot.  Then the behaviour of single operations. *)
From stdpp Require Import base list functions sets relations.
From S2P Require Import Prelude PidHash Bitmap Sched SchedInv SchedCalls SchedSafety SchedPick SchedCallsWf.

(** ** Reachable states *)

Inductive sstep (s : sched) : sched -> Prop :=
  | step_time j : sstep s (s <| jiffies := j |>)
  | step_tick in_irq u sy : sstep s (scheduler_tick in_irq u sy s)
  | step_state x : curr (rq s) <> idle (rq s) ->      (** [current->state = x] *)
      sstep s (set_task (curr (rq s)) (fun p => p <| t_state := x |>) s)
  | step_signal t x :                                 (** [t->sigpending = x] *)
      sstep s (set_task t (fun p => p <| t_sigpending := x |>) s)
  | step_schedule n s' : schedule n s = Some s' -> sstep s s'
  | step_wake t : t <> idle (rq s) -> sstep s (fst (wake_up_process t s))
  | step_wake_up l mode nr : (forall w, w ∈ l -> wq_task w <> idle (rq s)) ->
      sstep s (__wake_up (Some l) mode nr s)
  | step_fork child : curr (rq s) <> idle (rq s) -> child <> idle (rq s) -> child <> curr (rq s) ->
      t_array (tasks s child) = None -> sstep s (fork_sched child s)
  | step_exit t : t <> idle (rq s) -> sstep s (sched_exit t s)
  | step_set_nice t n : t <> idle (rq s) -> sstep s (set_user_nice t n s)
  | step_nice inc : curr (rq s) <> idle (rq s) -> sstep s (fst (sys_nice inc s))
  | step_setpriority pid_of pgrp_of all which who n : (forall t, t ∈ all -> t <> idle (rq s)) ->
      sstep s (fst (sys_setpriority pid_of pgrp_of all which who n s))
  | step_setscheduler find pid policy param cfu : curr (rq s) <> idle (rq s) ->
      (forall pid t, find pid = Some t -> t <> idle (rq s)) ->
      sstep s (fst (sys_sched_setscheduler find pid policy param cfu s))
  | step_setparam find pid param cfu : curr (rq s) <> idle (rq s) ->
      (forall pid t, find pid = Some t -> t <> idle (rq s)) ->
      sstep s (fst (sys_sched_setparam find pid param cfu s))
  | step_setaffinity find pid len mask : curr (rq s) <> idle (rq s) ->
      (forall pid t, find pid = Some t -> t <> idle (rq s)) ->
      sstep s (fst (sys_sched_setaffinity find pid len mask s))
  | step_yield n s' r : sys_sched_yield n s = Some (s', r) -> sstep s s'.

Lemma schedule_wf n s s' : sched_wf s -> schedule n s = Some s' -> sched_wf s'.
Proof.
  revert s. induction n as [|n IH]; intros s Hw H; simpl in H; [done|].
  destruct (schedule_pass_wf s Hw) as (W & _). destruct (_ =? _); [by injection H as <-|by eapply IH].
Qed.

Lemma yield_wf n s s' r : sched_wf s -> sys_sched_yield n s = Some (s', r) -> sched_wf s'.
Proof.
  intros Hw. unfold sys_sched_yield. destruct (t_array (tasks s (curr (rq s)))) as [b|] eqn:Hb; [|done].
  destruct (schedule n (yield_queue b s)) eqn:Hs; simpl; [|done]. intros [= <- _].
  eapply schedule_wf; [|done]. by apply yield_queue_wf.
Qed.

Lemma sstep_wf s s' : sched_wf s -> sstep s s' -> sched_wf s'.
Proof.
  intros Hw Hs. destruct Hs.
  - destruct Hw as [[[] ????? ] ?]. by repeat (split; try done).
  - by apply tick_wf.
  - destruct Hw as [Hw Hc]. split; [|by apply curr_ok_set_task]. apply swf_set_task; [done|].
    split_and!; [by right|by intros _ []|by right; right; left|by right; right; left].
  - by apply wf_set_other.
  - by eapply schedule_wf.
  - by apply wake_wf.
  - by apply wake_up_common_wf.
  - by apply fork_wf.
  - by apply sched_exit_wf.
  - by apply set_user_nice_wf.
  - by apply sys_nice_wf.
  - by apply setpriority_wf.
  - by apply setscheduler_wf.
  - by apply setscheduler_wf.
  - by apply setaffinity_wf.
  - by eapply yield_wf.
Qed.

(** The boot task is made idle by [init_idle]; then any sequence of steps. *)
Definition reachable (s0 : sched) (t : tid) : sched -> Prop :=
  rtc sstep (init_idle t (sched_init t s0)).

(** What the invariant says of the queues: a task is linked once, on the queue of
    its priority, exactly when [p->array] says so; the bitmap of an array has the bit of
    a priority exactly when its queue is not empty, and the delimiter behind them; [nr_active]
    counts the tasks of an array and [nr_running] those of both; one array is active, the other
    expired; every linked task but [current] is in state [TASK_RUNNING]; [current] is linked or
    idle; the scheduling fields are in range.  ([nr_uninterruptible], which only the load
    average uses, is not part of it.) *)
Definition queues_consistent (s : sched) : Prop :=
  (forall t b k, t ∈ q s b k <-> t_array (tasks s t) = Some b /\ t_prio (tasks s t) = k) /\
  (forall b k, NoDup (q s b k)) /\
  (forall b k, 0 <= k < MAX_PRIO -> test_bit k (bitmap (arr s b)) = true <-> q s b k <> []) /\
  (forall b, test_bit MAX_PRIO (bitmap (arr s b)) = true) /\
  (forall b, nr_active (arr s b) = Z.of_nat (qlen (q s b))) /\
  active (rq s) = negb (expired (rq s)) /\
  nr_running (rq s) = Z.of_nat (qlen (q s true)) + Z.of_nat (qlen (q s false)) /\
  (forall t, t_array (tasks s t) <> None -> t <> curr (rq s) -> t_state (tasks s t) = TASK_RUNNING) /\
  (curr (rq s) = idle (rq s) \/ t_array (tasks s (curr (rq s))) <> None) /\
  forall t, t <> idle (rq s) -> 0 <= t_prio (tasks s t) < MAX_PRIO /\
    0 <= t_sleep_avg (tasks s t) <= MAX_SLEEP_AVG /\ 1 <= t_time_slice (tasks s t) <= HZ.

Lemma wf_consistent s : sched_wf s -> queues_consistent s.
Proof.
  intros [[Ha H2 H3 H4 H5 H6 H7] Hc]. split_and!; [| | | | |done| | |done|].
  - intros t b k. split; [intros Hin; by apply (aw_in _ _ Ha) in Hin as [? ?]|].
    intros [Hb <-]. by apply (aw_on _ _ Ha).
  - intros b k. apply (aw_array _ _ Ha).
  - intros b k Hk. rewrite (ao_bit _ (aw_array _ _ Ha b) k Hk), negb_true_iff. unfold q. apply bool_decide_eq_false.
  - intros b. apply (ao_delim _ (aw_array _ _ Ha b)).
  - intros b. apply (ao_count _ (aw_array _ _ Ha b)).
  - rewrite H3. unfold total. rewrite !(ao_count _ (aw_array _ _ Ha _)).
    change (qlen (q s ?b)) with (qlen (queue (arr s b))). lia.
  - intros t Ht Hne. by apply H7.
  - intros t Ht. destruct (H5 t Ht). split; [done|]. split; [done|]. by apply (H6 t Ht).
Qed.

(** C8. In every state reachable from boot by ticks, wakeups, forks, exits, priority
    and policy changes, yields and context switches, in any order, the runqueue is
    consistent: queues, bitmaps, the counters nr_active and nr_running, states and
    field ranges. *)
Theorem runqueue_always_consistent s0 t s :
  boot_state s0 -> reachable s0 t s -> queues_consistent s.
Proof.
  intros Hb Hr. apply wf_consistent. assert (Hw := boot_swf t s0 Hb). clear Hb.
  induction Hr as [|s1 s2 s3 Hs _ IH]; [done|]. apply IH. by eapply sstep_wf.
Qed.

(** A machine at boot: the boot task and free task structures, all zero but for
    the fields INIT_TASK sets. *)
Definition init_task : task :=
  Task 0 0 0 (MAX_PRIO - 20) (MAX_PRIO - 20) None 0 0 SCHED_OTHER 0 HZ 0 0 0 0 (2 ^ 32 - 1) 1 1.
Definition boot0 : sched :=
  Sched (fun _ => init_task)
    (Runqueue 0 0 0 0 0 0 false true (fun _ => PrioArray 0 [0; 0; 0; 0; 0] (fun _ => [])))
    (KStat 0 0 0) 0.

Lemma boot0_ok : boot_state boot0.
Proof. split; try done. intros b. split; [done|]. by repeat constructor. Qed.

Lemma runqueue_always_consistent_witness :
  queues_consistent (fst (wake_up_process 1 (init_idle 0 (sched_init 0 boot0)))).
Proof.
  apply (runqueue_always_consistent boot0 0).
  - exact boot0_ok.
  - eapply rtc_l; [|apply rtc_refl]. apply step_wake. vm_compute. discriminate.
Defined.

Lemma reachable_wf s0 t s : boot_state s0 -> reachable s0 t s -> sched_wf s.
Proof.
  intros Hb Hr. assert (Hw := boot_swf t s0 Hb). clear Hb.
  induction Hr as [|s1 s2 s3 Hs _ IH]; [done|]. apply IH. by eapply sstep_wf.
Qed.

(** C10. schedule() returns after at most two passes.  It leaves the runqueue
    consistent and [current] without a pending reschedule; [current] is the idle
    task if nothing is runnable, and otherwise a task of the active array with no
    better priority in that array. *)
Theorem schedule_runs_best s0 t s : boot_state s0 -> reachable s0 t s ->
  exists s', schedule 2 s = Some s' /\ best_running s' /\ queues_consistent s' /\
    t_need_resched (tasks s' (curr (rq s'))) = 0.
Proof.
  intros Hb Hr. destruct (schedule_result s) as (s' & Hs & W & B & N & _); [by eapply reachable_wf|].
  exists s'. split_and!; [done..|by apply wf_consistent|done].
Qed.

Lemma schedule_runs_best_witness :
  exists s', schedule 2 (fst (wake_up_process 1 (init_idle 0 (sched_init 0 boot0)))) = Some s' /\
    best_running s' /\ queues_consistent s' /\ t_need_resched (tasks s' (curr (rq s'))) = 0.
Proof.
  apply (schedule_runs_best boot0 0).
  - exact boot0_ok.
  - eapply rtc_l; [|apply rtc_refl]. apply step_wake. vm_compute. discriminate.
Defined.

(** A runnable machine: tasks 1 and 2 are awake and task 1 runs. *)
Definition machine (n1 n2 : Z) : sched :=
  let s1 := set_user_nice 2 n2 (set_user_nice 1 n1 (init_idle 0 (sched_init 0 boot0))) in
  let s2 := fst (wake_up_process 2 (fst (wake_up_process 1 s1))) in
  default s2 (schedule 2 s2).

Lemma machine_reachable n1 n2 : reachable boot0 0 (machine n1 n2).
Proof.
  unfold reachable, machine. set (s0 := init_idle 0 (sched_init 0 boot0)).
  assert (I0 : idle (rq s0) = 0) by reflexivity.
  assert (Hn : forall t n s, idle (rq (set_user_nice t n s)) = idle (rq s)).
  { intros t n s. unfold set_user_nice. destruct (_ || _); [done|]. destruct (rt_task _); [done|].
    destruct (t_array _) as [b|]; [|done]. cbv zeta.
    core (core_dequeue t b s). destruct (_ || _); simpl in *; done. }
  eapply rtc_l; [apply (step_set_nice _ 1 n1); rewrite I0; lia|].
  eapply rtc_l; [apply (step_set_nice _ 2 n2); rewrite Hn, I0; lia|].
  set (s1 := set_user_nice 2 n2 _). assert (I1 : idle (rq s1) = 0) by (unfold s1; by rewrite !Hn).
  clearbody s1. clear Hn I0 s0.
  eapply rtc_l; [apply (step_wake _ 1); rewrite I1; lia|].
  eapply rtc_l; [apply (step_wake _ 2); rewrite idle_wake, I1; lia|].
  set (s2 := fst (wake_up_process 2 _)). cbv zeta.
  destruct (schedule 2 s2) as [s3|] eqn:E; [|apply rtc_refl].
  eapply rtc_l; [by eapply step_schedule|apply rtc_refl].
Qed.

(** ** Fork *)

(** The time slices of a fork: the parent had [ts]; afterwards parent and child
    have [parent] and [child]. *)
Definition fork_slices (child : tid) (s : sched) : Z * Z :=
  let s1 := share_timeslice child s in
  (t_time_slice (tasks s1 (curr (rq s))), t_time_slice (tasks s1 child)).

(** A fork creates no time: with at least two ticks left the parent's slice is
    divided between parent and child, each getting at least one tick; with one
    tick left the child gets it and the parent is charged a tick. *)
Theorem fork_conserves_time s0 t s child : boot_state s0 -> reachable s0 t s ->
  curr (rq s) <> idle (rq s) -> child <> idle (rq s) -> child <> curr (rq s) ->
  let ts := t_time_slice (tasks s (curr (rq s))) in
  let '(p, c) := fork_slices child s in
  1 <= p /\ 1 <= c /\ (2 <= ts -> p + c = ts) /\ (ts = 1 -> c = 1).
Proof.
  intros Hb Hr Hci Hi Hc ts. assert (Hw : sched_wf s) by (by eapply reachable_wf).
  destruct (share_timeslice_wf child s Hw Hi Hc Hci) as [Hw' (F1 & F2 & F3)].
  destruct (wf_tasks s (curr (rq s)) Hw Hci) as [_ Hsl]. unfold slice_ok, HZ in Hsl.
  unfold fork_slices. cbv zeta.
  assert (Ec : t_time_slice (tasks (share_timeslice child s) child) = (ts + 1) / 2).
  { rewrite F3 by done. rewrite tasks_set_task_eq. simpl. rewrite u32_small, shiftr1 by (unfold ts; lia). done. }
  destruct (wf_tasks _ (curr (rq s)) Hw') as [_ Hp]; [by rewrite F2|].
  destruct (wf_tasks _ child Hw') as [_ Hch]; [by rewrite F2|]. unfold slice_ok in Hp, Hch.
  split_and!; [apply Hp|apply Hch| |].
  - intros Hts. rewrite Ec. unfold share_timeslice. cbv zeta.
    rewrite tasks_set_task_eq, tasks_set_task_ne by done.
    change (t_time_slice (update t_time_slice (fun x => Z.shiftr x 1) (tasks s (curr (rq s)))))
      with (Z.shiftr ts 1). rewrite shiftr1 by lia.
    destruct (Z.eqb_spec (ts / 2) 0) as [Hz|Hz].
    + pose proof (Z.div_mod ts 2). pose proof (Z.mod_pos_bound ts 2). lia.
    + rewrite tasks_set_task_eq, tasks_set_task_ne by done.
      change (t_time_slice (update t_time_slice (fun x => Z.shiftr x 1) (tasks s (curr (rq s)))))
        with (Z.shiftr ts 1). rewrite shiftr1 by lia.
      pose proof (Z.div_mod ts 2). pose proof (Z.div_mod (ts + 1) 2).
      pose proof (Z.mod_pos_bound ts 2). pose proof (Z.mod_pos_bound (ts + 1) 2). lia.
  - intros ->. rewrite Ec. reflexivity.
Qed.

Lemma fork_conserves_time_witness : let '(p, c) := fork_slices 3 (machine 0 0) in
  1 <= p /\ 1 <= c /\ (2 <= 512 -> p + c = 512) /\ (512 = 1 -> c = 1).
Proof.
  apply (fork_conserves_time boot0 0 (machine 0 0) 3 boot0_ok (machine_reachable 0 0));
    vm_compute; discriminate.
Defined.

(** ** Waking up *)

(** [t] is queued on the active array and runnable. *)
Definition awake (t : tid) (s : sched) : Prop :=
  t_array (tasks s t) = Some (active (rq s)) /\ t_state (tasks s t) = TASK_RUNNING.

(** Waking a task that is on no queue succeeds, puts it on the active array, and
    asks for a reschedule when its priority beats that of [current]; waking a
    queued task fails and leaves the queues alone. *)
Theorem wake_up_preempts t s : t <> curr (rq s) ->
  let '(s', woken) := wake_up_process t s in
  t_state (tasks s' t) = TASK_RUNNING /\
  match t_array (tasks s t) with
  | None => woken = true /\ awake t s' /\
      (t_prio (tasks s' t) < t_prio (tasks s' (curr (rq s'))) ->
       t_need_resched (tasks s' (curr (rq s'))) = 1)
  | Some _ => woken = false /\ rq s' = rq s
  end.
Proof.
  intros Hne. unfold wake_up_process, try_to_wake_up, awake.
  destruct (t_array (tasks s t)) as [b|] eqn:Ha; [by rewrite tasks_set_task_eq|].
  match goal with |- context [activate_task t ?x] => set (s1 := x) end.
  assert (E1 : tasks s1 = tasks s /\ curr (rq s1) = curr (rq s)) by (unfold s1; by case_match).
  destruct E1 as [E1 E2]. assert (E3 := tasks_activate t s1).
  destruct (activate_frame t s1) as (F1 & _ & F3 & _ & _).
  set (s2 := activate_task t s1) in *. clearbody s2. cbv zeta. rewrite tasks_set_task_eq. split; [done|].
  assert (Hc : curr (rq s2) <> t) by congruence.
  destruct (Z.ltb_spec (t_prio (tasks s2 t)) (t_prio (tasks s2 (curr (rq s2))))) as [Hlt|Hge];
    unfold resched_task.
  - change (rq (set_task t ?f (set_task ?c ?g s2))) with (rq s2).
    rewrite !(tasks_set_task_ne t _ _ (curr (rq s2))), tasks_set_task_eq by done.
    rewrite (tasks_set_task_ne _ _ _ t) by done.
    split_and!; try done. rewrite E3, decide_True by done. simpl. congruence.
  - change (rq (set_task t ?f s2)) with (rq s2).
    rewrite !(tasks_set_task_ne t _ _ (curr (rq s2))) by done.
    split_and!; try done; [rewrite E3, decide_True by done; simpl; congruence|].
    change (t_prio (update t_state ?f ?p)) with (t_prio p). lia.
Qed.

Lemma wake_up_preempts_witness :
  let s := init_idle 0 (sched_init 0 boot0) in
  let '(s', woken) := wake_up_process 1 s in
  t_state (tasks s' 1) = TASK_RUNNING /\
  match t_array (tasks s 1) with
  | None => woken = true /\ awake 1 s' /\
      (t_prio (tasks s' 1) < t_prio (tasks s' (curr (rq s'))) ->
       t_need_resched (tasks s' (curr (rq s'))) = 1)
  | Some _ => woken = false /\ rq s' = rq s
  end.
Proof. apply wake_up_preempts. vm_compute. discriminate. Defined.
