(* ===== verification/SchedBehaviour.v ===== *)
(** * Wait queues, yielding and priority changes

    The effect of the scheduler's calls on the tasks they are about. *)
From stdpp Require Import base list functions sets relations.
From S2P Require Import Prelude PidHash Bitmap Sched SchedInv SchedCalls SchedSafety SchedPick SchedCallsWf.
From S2P Require Import SchedTheorems.

(** ** Exclusive wakeups *)

Definition exclusive (w : wait_queue) : bool := negb (Z.land (wq_flags w) WQ_FLAG_EXCLUSIVE =? 0).

(** [w] waits asleep, in a state that [mode] wakes. *)
Definition sleeper (mode : Z) (s : sched) (w : wait_queue) : Prop :=
  t_array (tasks s (wq_task w)) = None /\ Z.land (t_state (tasks s (wq_task w))) mode <> 0 /\
  wq_task w <> curr (rq s).

Definition woken (s : sched) (w : wait_queue) : Prop :=
  t_array (tasks s (wq_task w)) <> None /\ t_state (tasks s (wq_task w)) = TASK_RUNNING.

Lemma wake_effect t s : t <> curr (rq s) -> t_array (tasks s t) = None ->
  let '(s', ok) := try_to_wake_up t s in
  ok = true /\ curr (rq s') = curr (rq s) /\
  t_array (tasks s' t) <> None /\ t_state (tasks s' t) = TASK_RUNNING /\
  forall u, u <> t -> u <> curr (rq s) -> tasks s' u = tasks s u.
Proof.
  intros Hne Ha. unfold try_to_wake_up. rewrite Ha.
  match goal with |- context [activate_task t ?x] => set (s1 := x) end.
  assert (E1 : tasks s1 = tasks s /\ curr (rq s1) = curr (rq s)) by (unfold s1; by case_match).
  destruct E1 as [E1 E2]. assert (E3 := tasks_activate t s1).
  destruct (activate_frame t s1) as (F1 & _).
  set (s2 := activate_task t s1) in *. clearbody s2. rewrite tasks_set_task_eq, F1, E2.
  split_and!; try done; destruct (_ <? _); unfold resched_task; simpl; try congruence.
  - unfold alter, fn_alter. rewrite decide_False by done. rewrite E3. by rewrite decide_True.
  - rewrite E3. by rewrite decide_True.
  - intros u H1 H2. unfold alter, fn_alter. rewrite !decide_False by done. rewrite E3, decide_False by done. by rewrite E1.
  - intros u H1 H2. unfold alter, fn_alter. rewrite !decide_False by done. rewrite E3, decide_False by done. by rewrite E1.
Qed.

Lemma wake_common_frame l mode nr s u : u <> curr (rq s) ->
  (forall w, w ∈ l -> wq_task w <> u) -> Forall (sleeper mode s) l -> NoDup (wq_task <$> l) ->
  tasks (__wake_up_common l mode nr s) u = tasks s u.
Proof.
  revert nr s. induction l as [|w l IH]; intros nr s Hu Hl Hsl Hnd; simpl; [done|].
  apply Forall_cons in Hsl as [(S1 & S2 & S3) Hsl].
  apply list.NoDup_cons in Hnd as [N1 N2].
  destruct (Z.eqb_spec (Z.land (t_state (tasks s (wq_task w))) mode) 0); [done|]. simpl.
  assert (He := wake_effect (wq_task w) s S3 S1).
  destruct (try_to_wake_up (wq_task w) s) as [s1 ok]. destruct He as (-> & C1 & _ & _ & F).
  assert (Eu : tasks s1 u = tasks s u) by (apply F; [intros ->; by apply (Hl w (list_elem_of_here _ _))|done]).
  assert (Hsl1 : Forall (sleeper mode s1) l).
  { rewrite Forall_forall in Hsl |- *. intros v Hv. destruct (Hsl v Hv) as (V1 & V2 & V3).
    assert (wq_task v <> wq_task w) by (intros E; apply N1; rewrite <- E; by apply list_elem_of_fmap_2).
    unfold sleeper. rewrite F, C1 by done. done. }
  assert (IH' : forall nr, tasks (__wake_up_common l mode nr s1) u = tasks s u).
  { intros nr'. rewrite <- Eu. apply IH; [by rewrite C1| |done|done]. set_solver. }
  simpl. repeat case_match; auto.
Qed.

(** A wakeup with [nr_exclusive] 1 wakes every non-exclusive waiter before the
    first exclusive one and that one, and nobody after it: no thundering herd. *)
Theorem wake_up_one l1 w l2 mode s :
  NoDup (wq_task <$> l1 ++ w :: l2) -> Forall (sleeper mode s) (l1 ++ w :: l2) ->
  Forall (fun v => exclusive v = false) l1 -> exclusive w = true ->
  let s' := __wake_up (Some (l1 ++ w :: l2)) mode 1 s in
  Forall (woken s') (l1 ++ [w]) /\
  Forall (fun v => tasks s' (wq_task v) = tasks s (wq_task v)) l2.
Proof.
  simpl. revert s. induction l1 as [|v l1 IH]; intros s Hnd Hsl Hne He; simpl in *.
  - apply Forall_cons in Hsl as [(S1 & S2 & S3) Hsl]. apply list.NoDup_cons in Hnd as [N1 N2].
    destruct (Z.eqb_spec (Z.land (t_state (tasks s (wq_task w))) mode) 0); [done|]. simpl.
    assert (Hw := wake_effect (wq_task w) s S3 S1).
    destruct (try_to_wake_up (wq_task w) s) as [s1 ok]. destruct Hw as (-> & C1 & A1 & R1 & F).
    unfold exclusive in He. rewrite He. simpl. split; [by repeat constructor|].
    rewrite Forall_forall in Hsl |- *. intros u Hu. destruct (Hsl u Hu) as (_ & _ & ?).
    apply F; [|done]. intros E. apply N1. rewrite <- E. by apply list_elem_of_fmap_2.
  - apply Forall_cons in Hsl as [(S1 & S2 & S3) Hsl]. apply list.NoDup_cons in Hnd as [N1 N2].
    apply Forall_cons in Hne as [Hv Hne].
    destruct (Z.eqb_spec (Z.land (t_state (tasks s (wq_task v))) mode) 0); [done|]. simpl.
    assert (Hw := wake_effect (wq_task v) s S3 S1).
    destruct (try_to_wake_up (wq_task v) s) as [s1 ok]. destruct Hw as (-> & C1 & A1 & R1 & F).
    unfold exclusive in Hv. rewrite Hv. simpl.
    assert (Hdiff : forall u, u ∈ l1 ++ w :: l2 -> wq_task u <> wq_task v).
    { intros u Hu E. apply N1. rewrite <- E. by apply list_elem_of_fmap_2. }
    assert (Hsl1 : Forall (sleeper mode s1) (l1 ++ w :: l2)).
    { rewrite Forall_forall in Hsl |- *. intros u Hu. destruct (Hsl u Hu) as (V1 & V2 & V3).
      unfold sleeper. rewrite F, C1 by auto. done. }
    destruct (IH s1 N2 Hsl1 Hne He) as [I1 I2]. split.
    + constructor; [|done]. unfold woken. rewrite wake_common_frame; [done|by rewrite C1|auto|done|done].
    + rewrite Forall_forall in Hsl, I2 |- *. intros u Hu. rewrite I2 by done.
      assert (u ∈ l1 ++ w :: l2) by set_solver. apply F; [auto|]. by apply Hsl.
Qed.

Definition waiter (t : tid) (excl : bool) : wait_queue := WaitQueue (if excl then 1 else 0) t.
Definition asleep (s : sched) : sched :=
  s <| tasks := fun t => (tasks s t) <| t_state := if 4 <=? t then TASK_INTERRUPTIBLE else t_state (tasks s t) |> |>.

Lemma wake_up_one_witness :
  let s' := __wake_up (Some [waiter 4 false; waiter 5 true; waiter 6 true]) TASK_INTERRUPTIBLE 1
              (asleep (machine 0 0)) in
  Forall (woken s') [waiter 4 false; waiter 5 true] /\
  Forall (fun v => tasks s' (wq_task v) = tasks (asleep (machine 0 0)) (wq_task v)) [waiter 6 true].
Proof.
  apply (wake_up_one [waiter 4 false] (waiter 5 true) [waiter 6 true]).
  - apply (bool_decide_unpack _). vm_compute. exact I.
  - repeat constructor; vm_compute; discriminate.
  - by repeat constructor.
  - done.
Defined.

(** ** Yielding *)

(** Another task waits on the same queue as [current]. *)
Definition has_rival (b : bool) (s : sched) : Prop :=
  exists u, u <> curr (rq s) /\ u ∈ q s b (t_prio (tasks s (curr (rq s)))).

(** [current] cannot be chosen again unless it heads its queue. *)
Lemma schedule_pass_head s b : sched_wf s -> t_array (tasks s (curr (rq s))) = Some b ->
  curr (rq (schedule_pass s)) = curr (rq s) ->
  head (q s b (t_prio (tasks s (curr (rq s))))) = Some (curr (rq s)).
Proof.
  intros Hw Hb. destruct (pass_prev_wf s Hw) as (W1 & R1 & C1 & I1).
  assert (Hi : curr (rq s) <> idle (rq s)) by (eapply swf_idle_ne; [apply Hw|done]).
  rewrite schedule_pass_eq. assert (Hp := pass_pick_spec _ W1 R1).
  assert (Ha : arrays (rq (fst (pass_pick (pass_prev s)))) = arrays (rq (pass_prev s))).
  { unfold pass_pick. destruct (_ =? 0); [done|]. simpl. by destruct (_ =? 0). }
  destruct (pass_pick (pass_prev s)) as [s3 next]. destruct Hp as (W3 & R3 & T3 & C3 & I3 & N3 & P3).
  intros Hc. assert (En : next = curr (rq s)).
  { unfold pass_switch in Hc. destruct (Z.eqb_spec (curr (rq s)) next); [done|]. done. }
  subst next. unfold picked in P3. destruct (_ =? 0).
  { destruct P3 as [P3 _]. congruence. }
  destruct P3 as (P1 & P2 & _). unfold pass_prev in P1, P2, Ha, C1. cbv zeta in P1, P2, Ha, C1.
  set (s1 := set_task (curr (rq s)) _ s) in *.
  assert (Hq : forall s', tasks s' (curr (rq s)) = (tasks s (curr (rq s)))
      <| t_sleep_timestamp := jiffies s |> <| t_state := t_state (tasks s' (curr (rq s))) |> ->
    rq s' = rq s -> arrays (rq s3) = arrays (rq s') -> t_array (tasks s' (curr (rq s))) = Some (active (rq s3)) ->
    head (q s3 (active (rq s3)) (t_prio (tasks s' (curr (rq s))))) = Some (curr (rq s)) ->
    head (q s b (t_prio (tasks s (curr (rq s))))) = Some (curr (rq s))).
  { intros s' Et Er Ea Hx Hy. rewrite Et in Hx, Hy. simpl in Hx, Hy. rewrite Hb in Hx. injection Hx as Hx.
    rewrite <- Hx in Hy. unfold q, arr in *. by rewrite Ea, Er in Hy. }
  destruct (_ =? TASK_RUNNING); [|destruct (_ && _)].
  - apply (Hq s1); try done. unfold s1. by rewrite tasks_set_task_eq.
  - eapply (Hq (set_task (curr (rq s)) (fun p => p <| t_state := TASK_RUNNING |>) s1)); try done.
    unfold s1. by rewrite !tasks_set_task_eq.
  - exfalso. rewrite tasks_deactivate, decide_True in P1 by done. done.
Qed.

Lemma yield_head b s : sched_wf s -> t_array (tasks s (curr (rq s))) = Some b -> has_rival b s ->
  let s' := yield_queue b s in let c := curr (rq s) in
  curr (rq s') = c /\ t_array (tasks s' c) = Some b /\
  head (q s' b (t_prio (tasks s' c))) <> Some c.
Proof.
  intros Hw Hb (u & Hu & Hin). unfold yield_queue. cbv zeta. set (c := curr (rq s)) in *.
  assert (Eq : q (list_del c s) b (t_prio (tasks s c)) = filter (fun u => u <> c) (q s b (t_prio (tasks s c))))
    by (unfold q; by rewrite arr_list_del).
  assert (Hf : u ∈ filter (fun u => u <> c) (q s b (t_prio (tasks s c)))) by (by apply list_elem_of_filter).
  assert (Hnin : c ∉ filter (fun u => u <> c) (q s b (t_prio (tasks s c)))).
  { intros [? _]%list_elem_of_filter. done. }
  destruct (rt_task (tasks s c)).
  - split_and!; [done..|]. unfold list_add_tail. rewrite q_relink, decide_True by done.
    destruct (filter _ _) as [|h l] eqn:E; [by apply not_elem_of_nil in Hf|]. simpl. set_solver.
  - rewrite Eq. rewrite bool_decide_eq_false_2 by (intros E; rewrite E in Hf; by apply not_elem_of_nil in Hf).
    simpl negb. cbv iota. split_and!; [done..|]. unfold list_add_second. rewrite q_relink, decide_True by done.
    destruct (filter _ _) as [|h l] eqn:E; [by apply not_elem_of_nil in Hf|]. simpl. set_solver.
Qed.

(** sched_yield() gives way: when another task is on the same queue as [current],
    the call returns 0 and another task than the caller runs next. *)
Theorem yield_gives_way s0 t s b : boot_state s0 -> reachable s0 t s ->
  t_array (tasks s (curr (rq s))) = Some b -> has_rival b s ->
  exists s', sys_sched_yield 2 s = Some (s', 0) /\ curr (rq s') <> curr (rq s).
Proof.
  intros Hb Hr Ha Hriv. assert (Hw : sched_wf s) by (by eapply reachable_wf).
  destruct (yield_head b s Hw Ha Hriv) as (C1 & A1 & H1).
  assert (W1 : sched_wf (yield_queue b s)) by (by apply yield_queue_wf).
  unfold sys_sched_yield. rewrite Ha. set (s1 := yield_queue b s) in *. clearbody s1.
  assert (Hne : curr (rq (schedule_pass s1)) <> curr (rq s1)).
  { intros E. apply (schedule_pass_head s1 b W1) in E; [|by rewrite C1]. rewrite C1 in E. done. }
  destruct (schedule_pass_wf s1 W1) as (W2 & R2 & N2). destruct (schedule_pass_chosen s1 W1) as (Ch & B2).
  unfold schedule. cbv zeta.
  destruct (_ =? 0); [exists (schedule_pass s1); rewrite <- C1; done|].
  rewrite (schedule_pass_again _ W2 R2 Ch).
  destruct (schedule_pass_wf _ W2) as (_ & _ & N3). rewrite N3.
  exists (schedule_pass (schedule_pass s1)). rewrite (schedule_pass_again _ W2 R2 Ch), <- C1. done.
Qed.

Lemma yield_gives_way_witness :
  exists s', sys_sched_yield 2 (machine 0 0) = Some (s', 0) /\ curr (rq s') <> curr (rq (machine 0 0)).
Proof.
  apply (yield_gives_way boot0 0 (machine 0 0) false boot0_ok (machine_reachable 0 0)).
  - vm_compute. reflexivity.
  - exists 2. split; [vm_compute; discriminate|]. apply (bool_decide_unpack _). vm_compute. exact I.
Defined.

(** ** The timer tick *)

(** [current] is an ordinary task on the active array. *)
Definition running_other (s : sched) : Prop :=
  curr (rq s) <> idle (rq s) /\ t_array (tasks s (curr (rq s))) = Some (active (rq s)) /\
  rt_task (tasks s (curr (rq s))) = false.

(** A tick takes one tick off the slice of [current], which stays where it is
    while ticks are left.  When the slice is used up, [current] gets a new slice
    and a new priority, is asked to reschedule, and unless it counts as
    interactive it moves to the expired array. *)
Theorem tick_outcome s0 t s in_irq u sy : boot_state s0 -> reachable s0 t s -> running_other s ->
  let c := curr (rq s) in
  let s' := scheduler_tick in_irq u sy s in
  if t_time_slice (tasks s c) =? 1
  then t_need_resched (tasks s' c) = 1 /\ t_time_slice (tasks s' c) = TASK_TIMESLICE (tasks s c) /\
       (TASK_INTERACTIVE (tasks s' c) = false -> t_array (tasks s' c) = Some (expired (rq s)))
  else t_time_slice (tasks s' c) = t_time_slice (tasks s c) - 1 /\
       t_array (tasks s' c) = Some (active (rq s)) /\ rq s' = rq s.
Proof.
  intros Hb Hr (Hi & Ha & Hrt). assert (Hw : sched_wf s) by (by eapply reachable_wf).
  destruct (wf_tasks s (curr (rq s)) Hw Hi) as [_ Hsl]. cbv zeta. unfold scheduler_tick.
  destruct (Z.eqb_spec (curr (rq s)) (idle (rq s))); [done|].
  match goal with |- context [s <| stat ::= ?k |>] => set (s0' := s <| stat ::= k |>) end.
  assert (E0 : tasks s0' = tasks s /\ rq s0' = rq s) by done. destruct E0 as [E1 E2]. clearbody s0'.
  set (c := curr (rq s)) in *. rewrite E1, E2. rewrite bool_decide_eq_true_2 by done.
  change (negb true) with false. cbv iota zeta.
  rewrite Hrt.
  match goal with |- context [set_task c _ (if ?x then ?y else s0')] => set (s1 := if x then y else s0') end.
  assert (H1 : rq s1 = rq s /\ t_time_slice (tasks s1 c) = t_time_slice (tasks s c) /\
    t_static_prio (tasks s1 c) = t_static_prio (tasks s c) /\ t_array (tasks s1 c) = t_array (tasks s c)).
  { unfold s1. destruct (negb _); [|by rewrite E1, E2]. rewrite tasks_set_task_eq, E1. by rewrite <- E2. }
  destruct H1 as (R1 & T1 & P1 & A1). clearbody s1.
  rewrite tasks_set_task_eq, slice_set, T1, slice_dec by done.
  destruct (Z.eqb_spec (t_time_slice (tasks s c)) 1) as [->|Hne].
  - change (1 - 1 =? 0) with true. cbv iota.
    set (s2 := set_task c _ s1). set (s3 := set_need_resched c _).
    set (s4 := set_task c _ s3).
    assert (E4 : t_time_slice (tasks s4 c) = TASK_TIMESLICE (tasks s c) /\ t_need_resched (tasks s4 c) = 1).
    { unfold s4, s3, set_need_resched. rewrite !tasks_set_task_eq, tasks_dequeue.
      unfold s2. rewrite tasks_set_task_eq. split; [|reflexivity].
      unfold TASK_TIMESLICE. simpl. by rewrite P1. }
    destruct E4 as (E4 & Np).
    assert (X4 : expired (rq s4) = expired (rq s)).
    { core (core_dequeue c (active (rq s)) s2). unfold s4, s3, s2 in *. simpl in *. by rewrite R1 in *. }
    clearbody s4.
    destruct (TASK_INTERACTIVE (tasks s4 c)) eqn:Hint;
      [change (negb true) with false|change (negb false) with true]; rewrite ?orb_false_l, ?orb_true_l.
    + assert (Hi' : forall b s5, tasks s5 c = tasks s4 c ->
        t_need_resched (tasks (enqueue_task c b s5) c) = 1 /\
        t_time_slice (tasks (enqueue_task c b s5) c) = TASK_TIMESLICE (tasks s c) /\
        (TASK_INTERACTIVE (tasks (enqueue_task c b s5) c) = false ->
         t_array (tasks (enqueue_task c b s5) c) = Some (expired (rq s)))).
      { intros b s5 E5. rewrite tasks_enqueue, decide_True, E5 by done. split_and!; [done|done|].
        change (TASK_INTERACTIVE (tasks s4 c) = false -> Some b = Some (expired (rq s))). congruence. }
      destruct (EXPIRED_STARVING s4); [|by apply Hi']. by destruct (expired_timestamp (rq s4) =? 0); apply Hi'.
    + destruct (expired_timestamp (rq s4) =? 0); rewrite tasks_enqueue, decide_True by done;
        (split_and!; [done..|]); intros _; simpl; congruence.
  - destruct (Z.eqb_spec (t_time_slice (tasks s c) - 1) 0); [lia|].
    rewrite tasks_set_task_eq, slice_set, T1, slice_dec by done.
    split_and!; [done|by rewrite <- Ha|done].
Qed.

Lemma tick_outcome_witness :
  let s := machine 0 0 in let s' := scheduler_tick false 1 0 s in
  if t_time_slice (tasks s 1) =? 1
  then t_need_resched (tasks s' 1) = 1 /\ t_time_slice (tasks s' 1) = TASK_TIMESLICE (tasks s 1) /\
       (TASK_INTERACTIVE (tasks s' 1) = false -> t_array (tasks s' 1) = Some (expired (rq s)))
  else t_time_slice (tasks s' 1) = t_time_slice (tasks s 1) - 1 /\
       t_array (tasks s' 1) = Some (active (rq s)) /\ rq s' = rq s.
Proof.
  apply (tick_outcome boot0 0 (machine 0 0) false 1 0 boot0_ok (machine_reachable 0 0)).
  split_and!; vm_compute; [discriminate|reflexivity..].
Defined.

(** ** Changing priorities *)

(** Task [t] has a better priority than [current]. *)
Definition beats_current (t : tid) (s : sched) : bool :=
  t_prio (tasks s t) <? t_prio (tasks s (curr (rq s))).

(** Giving another task a better nice value never asks for a reschedule, even when
    the task now beats [current]: set_user_nice compares the new priority with the
    priority it has just stored. *)
Theorem set_user_nice_no_preemption t nice s : t <> curr (rq s) ->
  let s' := set_user_nice t nice s in
  tasks s' (curr (rq s)) = tasks s (curr (rq s)) /\
  (beats_current t s' = true -> t_need_resched (tasks s' (curr (rq s'))) = t_need_resched (tasks s (curr (rq s)))).
Proof.
  intros Hne s'. assert (Hc : curr (rq s') = curr (rq s) /\ tasks s' (curr (rq s)) = tasks s (curr (rq s))).
  { unfold s', set_user_nice. destruct (_ || _); [done|].
    destruct (rt_task _); [split; [done|]; by rewrite tasks_set_task_ne|].
    destruct (t_array (tasks s t)) as [b|]; [|split; [done|]; by rewrite tasks_set_task_ne].
    cbv zeta. set (s1 := enqueue_task t b _).
    assert (E1 : t_static_prio (tasks s1 t) = NICE_TO_PRIO nice).
    { unfold s1. rewrite tasks_enqueue, decide_True by done. by rewrite tasks_set_task_eq. }
    assert (C1 : curr (rq s1) = curr (rq s)) by (core (core_dequeue t b s); done).
    assert (T1 : tasks s1 (curr (rq s)) = tasks s (curr (rq s))).
    { unfold s1. rewrite tasks_enqueue, decide_False, tasks_set_task_ne by done. by rewrite tasks_dequeue. }
    rewrite E1, Z.ltb_irrefl, C1. destruct (Z.eqb_spec t (curr (rq s))); [done|]. done. }
  destruct Hc as [-> ->]. done.
Qed.

Lemma set_user_nice_no_preemption_witness :
  let s := machine 0 0 in let s' := set_user_nice 2 (-20) s in
  beats_current 2 s' = true /\
  tasks s' (curr (rq s)) = tasks s (curr (rq s)) /\
  (beats_current 2 s' = true -> t_need_resched (tasks s' (curr (rq s'))) = t_need_resched (tasks s (curr (rq s)))).
Proof.
  split; [vm_compute; reflexivity|]. apply (set_user_nice_no_preemption 2 (-20) (machine 0 0)).
  vm_compute. discriminate.
Defined.

(** The caller has CAP_SYS_NICE. *)
Definition privileged (s : sched) : bool := cap_raised (t_cap_effective (tasks s (curr (rq s)))) CAP_SYS_NICE.

Lemma lacks_cases g s s' r : lacks g CAP_SYS_NICE s = (s', r) ->
  r = g && negb (privileged s) /\ rq s' = rq s /\ privileged s' = privileged s /\
  forall t, exists x, tasks s' t = (tasks s t) <| t_flags := x |>.
Proof.
  assert (Hid : forall t, exists x, tasks s t = (tasks s t) <| t_flags := x |>).
  { intros t. exists (t_flags (tasks s t)). by destruct (tasks s t). }
  unfold lacks, capable, privileged. destruct g; [|by intros [= <- <-]].
  destruct (cap_raised _ _) eqn:E; intros [= <- <-]; [|done].
  split_and!; try done.
  - change (rq (set_task ?t ?f s)) with (rq s). by rewrite tasks_set_task_eq.
  - intros t. rewrite tasks_set_task. case_decide; [subst t; by eexists|done].
Qed.

Lemma set_policy_fields t policy prio s : let p' := tasks (set_policy t policy prio s) t in
  t_policy p' = policy /\ t_rt_priority p' = prio /\
  (policy <> SCHED_OTHER -> 1 <= prio < MAX_USER_RT_PRIO -> t_prio p' = MAX_USER_RT_PRIO - 1 - prio).
Proof.
  unfold set_policy. cbv zeta. set (upd := fun p : task => _).
  assert (Hbonus : forall s' p, t_prio p < MAX_RT_PRIO -> sleep_bonus s' p = p).
  { intros s' p Hp. unfold sleep_bonus, rt_task. destruct (Z.ltb_spec (t_prio p) MAX_RT_PRIO); [done|lia]. }
  assert (Hsame : forall s' p, t_policy (sleep_bonus s' p) = t_policy p /\
    t_rt_priority (sleep_bonus s' p) = t_rt_priority p).
  { intros s' p. unfold sleep_bonus. by case_match. }
  assert (Hupd : forall p, policy <> SCHED_OTHER -> t_prio (upd p) = MAX_USER_RT_PRIO - 1 - prio).
  { intros p Hne. unfold upd. simpl. by destruct (Z.eqb_spec policy SCHED_OTHER). }
  case_bool_decide as Hq.
  - rewrite tasks_activate, decide_True, tasks_set_task_eq by done. set (p1 := tasks _ t).
    split_and!; [apply Hsame|apply Hsame|]. intros Hne Hp.
    match goal with |- context [sleep_bonus ?x (upd p1)] =>
      change (t_prio (sleep_bonus x (upd p1)) = MAX_USER_RT_PRIO - 1 - prio) end.
    rewrite Hbonus; [by apply Hupd|]. rewrite Hupd by done. unfold MAX_RT_PRIO. lia.
  - rewrite tasks_set_task_eq. split_and!; [done..|]. intros Hne _. by apply Hupd.
Qed.

(** C11. sched_setscheduler() and sched_setparam() succeed only for a valid policy and
    priority, with CAP_SYS_NICE for a real-time policy and for a task of another
    user; the task then has the policy and priority asked for.  A call that fails
    changes no scheduling state. *)
Theorem setscheduler_outcome find pid policy param cfu s :
  let '(s', ret) := setscheduler find pid policy param cfu s in
  if ret =? 0 then
    exists t prio, find_process_by_pid find pid s = Some t /\ cfu param = Some prio /\
      let policy' := if policy <? 0 then t_policy (tasks s t) else policy in
      (0 <= policy -> policy = SCHED_OTHER \/ policy = SCHED_FIFO \/ policy = SCHED_RR) /\
      (policy' = SCHED_OTHER <-> prio = 0) /\ 0 <= prio < MAX_USER_RT_PRIO /\
      (policy' = SCHED_FIFO \/ policy' = SCHED_RR -> privileged s = true) /\
      (other_owner t s = true -> privileged s = true) /\
      t_policy (tasks s' t) = policy' /\ t_rt_priority (tasks s' t) = prio /\
      (policy' <> SCHED_OTHER -> t_prio (tasks s' t) = MAX_USER_RT_PRIO - 1 - prio)
  else rq s' = rq s /\ forall t, sched_fields (tasks s' t) = sched_fields (tasks s t).
Proof.
  unfold setscheduler. destruct (_ || _); [done|]. destruct (cfu param) as [prio|] eqn:Hcf; [|done].
  destruct (find_process_by_pid find pid s) as [t|] eqn:Hf; [|done]. cbv zeta.
  set (policy' := if policy <? 0 then _ else policy).
  destruct (_ && negb (policy' =? SCHED_OTHER)) eqn:Hv; [done|].
  destruct ((prio <? 0) || (MAX_USER_RT_PRIO - 1 <? prio)) eqn:Hp; [done|].
  destruct (negb (eqb (policy' =? SCHED_OTHER) (prio =? 0))) eqn:He; [done|].
  match goal with |- context [lacks ?g ?c s] => destruct (lacks g c s) as [s1 r1] eqn:L1 end.
  apply lacks_cases in L1 as (-> & R1 & P1 & T1).
  assert (Hfield : forall s'' : sched, (forall t, exists x, tasks s'' t = (tasks s t) <| t_flags := x |>) ->
    forall t, sched_fields (tasks s'' t) = sched_fields (tasks s t)).
  { intros s'' H u. by destruct (H u) as [x ->]. }
  destruct (_ && negb (privileged s)) eqn:Hr1; [split; auto|].
  match goal with |- context [lacks ?g ?c s1] => destruct (lacks g c s1) as [s2 r2] eqn:L2 end.
  apply lacks_cases in L2 as (-> & R2 & P2 & T2). rewrite P1.
  assert (T2' : forall t, exists x, tasks s2 t = (tasks s t) <| t_flags := x |>).
  { intros u. destruct (T2 u) as [x ->], (T1 u) as [y ->]. by exists x. }
  destruct (other_owner t s1 && negb (privileged s)) eqn:Hr2.
  { change (rq s2 = rq s /\ forall t, sched_fields (tasks s2 t) = sched_fields (tasks s t)).
    split; [congruence|auto]. }
  simpl. exists t, prio. destruct (set_policy_fields t policy' prio s2) as (F1 & F2 & F3).
  assert (Ho : other_owner t s1 = other_owner t s).
  { unfold other_owner. rewrite R1. by destruct (T1 t) as [x ->], (T1 (curr (rq s))) as [y ->]. }
  rewrite Ho in Hr2. b2p. apply eqb_prop in He.
  assert (Hiff : policy' = SCHED_OTHER <-> prio = 0).
  { rewrite <- !Z.eqb_eq. by rewrite He. }
  split_and!; try done; try lia.
  - intros Hpol. unfold policy' in Hv. destruct (Z.ltb_spec policy 0); [lia|]. simpl in Hv.
    destruct (Z.eqb_spec policy SCHED_FIFO), (Z.eqb_spec policy SCHED_RR), (Z.eqb_spec policy SCHED_OTHER);
      naive_solver.
  - intros Hrt. destruct Hr1 as [Hr1|Hr1]; [|by apply negb_false_iff in Hr1].
    apply orb_false_iff in Hr1 as [E1 E2]. b2p. naive_solver.
  - intros Hoth. destruct Hr2 as [Hr2|Hr2]; [congruence|by apply negb_false_iff in Hr2].
Qed.

Example setscheduler_outcome_demo :
  let '(s', ret) := sys_sched_setscheduler (fun n => if n =? 2 then Some 2 else None) 2 SCHED_FIFO 4096
                      (fun _ => Some 50) (machine 0 0) in
  ret = 0 /\ t_prio (tasks s' 2) = 49 /\ curr (rq s') = 1.
Proof. vm_compute. done. Qed.
