(* ===== verification/SchedPrio.v ===== *)
(** * Dynamic priorities and time slices

    What the comments of kernel/sched.c say of the interactivity bonus and of time
    slices, against the macros. *)
From stdpp Require Import base list.
From S2P Require Import Prelude PidHash Bitmap Sched.

(** A task of nice value [n] with sleep average [avg]. *)
Definition nice_task (n avg : Z) : task :=
  Task 0 0 0 (NICE_TO_PRIO n) (NICE_TO_PRIO n) None avg 0 SCHED_OTHER 0 1 0 0 0 0 0 1 1.

Definition dyn_prio (n avg : Z) : Z := effective_prio (nice_task n avg).

Lemma dyn_prio_eq n avg : -20 <= n <= 19 -> 0 <= avg <= MAX_SLEEP_AVG ->
  dyn_prio n avg = Z.max MAX_RT_PRIO (Z.min (MAX_PRIO - 1) (NICE_TO_PRIO n - (avg * 10 / MAX_SLEEP_AVG - 5))).
Proof.
  intros Hn Ha. unfold dyn_prio, effective_prio, nice_task, t_static_prio, t_sleep_avg.
  change MAX_SLEEP_AVG with 1024 in *.
  change (MAX_USER_PRIO * PRIO_BONUS_RATIO) with 1000. change (1000 ÷ 100 ÷ 2) with 5.
  rewrite u32_small by lia. rewrite Z.div_div by lia.
  replace (1000 * avg) with ((avg * 10) * 100) by lia. rewrite Z.div_mul_cancel_r by lia.
  assert (0 <= avg * 10 / 1024 <= 10).
  { split; [apply Z.div_pos; lia|apply Z.div_le_upper_bound; lia]. }
  rewrite s32_small by lia. unfold MAX_PRIO, MAX_RT_PRIO, MAX_USER_RT_PRIO, NICE_TO_PRIO in *.
  repeat case_match; b2p; unfold MAX_RT_PRIO, MAX_USER_RT_PRIO in *; lia.
Qed.

Lemma bonus_range avg : 0 <= avg <= MAX_SLEEP_AVG -> -5 <= avg * 10 / MAX_SLEEP_AVG - 5 <= 5.
Proof.
  unfold MAX_SLEEP_AVG, HZ. intros.
  assert (0 <= avg * 10 / (2 * 512) <= 10); [|lia].
  split; [apply Z.div_pos; lia|apply Z.div_le_upper_bound; lia].
Qed.

(** The interactivity bonus does not mix nice levels the way the comment on
    effective_prio asks: whatever their sleep averages, a nice 19 task never
    preempts a nice 0 task, and a nice 0 task never preempts a nice -20 task; more
    sleep never worsens the priority, which stays within 5 of the static one. *)
Theorem nice_levels_do_not_mix n a b :
  -20 <= n <= 19 -> 0 <= a <= MAX_SLEEP_AVG -> 0 <= b <= MAX_SLEEP_AVG ->
  dyn_prio 0 b < dyn_prio 19 a /\ dyn_prio (-20) b < dyn_prio 0 a /\
  (a <= b -> dyn_prio n b <= dyn_prio n a) /\ Z.abs (dyn_prio n a - NICE_TO_PRIO n) <= 5.
Proof.
  intros Hn Ha Hb. rewrite !dyn_prio_eq by lia.
  pose proof (bonus_range a Ha) as Ba. pose proof (bonus_range b Hb) as Bb.
  assert (Hmono : a <= b -> a * 10 / MAX_SLEEP_AVG <= b * 10 / MAX_SLEEP_AVG).
  { intros. apply Z.div_le_mono; [done|lia]. }
  revert Ba Bb Hmono. generalize (a * 10 / MAX_SLEEP_AVG) (b * 10 / MAX_SLEEP_AVG). intros x y ???.
  unfold NICE_TO_PRIO, MAX_PRIO, MAX_RT_PRIO, MAX_USER_RT_PRIO. split_and!; lia.
Qed.

Lemma nice_levels_do_not_mix_witness :
  dyn_prio 0 0 < dyn_prio 19 1024 /\ dyn_prio (-20) 0 < dyn_prio 0 1024 /\
  (1024 <= 0 -> dyn_prio 5 0 <= dyn_prio 5 1024) /\ Z.abs (dyn_prio 5 1024 - NICE_TO_PRIO 5) <= 5.
Proof. apply (nice_levels_do_not_mix 5 1024 0); unfold MAX_SLEEP_AVG, HZ; lia. Defined.

(** The rows of the comment on TASK_INTERACTIVE: whether a task of nice value [n]
    is interactive, for a dynamic priority 5 better to 5 worse than static. *)
Definition interactive_row (n : Z) : list bool :=
  (fun d => TASK_INTERACTIVE ((nice_task n 0) <| t_prio := NICE_TO_PRIO n + d |>)) <$> seqZ (-5) 11.

(** The table of the comment on TASK_INTERACTIVE is what the macro computes for
    nice -20, 0, 10 and 19; for nice -10 the comment lists seven interactive
    positions and the macro has six. *)
Theorem interactive_table :
  interactive_row (-20) = [true; true; true; true; true; true; true; true; true; false; false] /\
  interactive_row (-10) = [true; true; true; true; true; true; false; false; false; false; false] /\
  interactive_row 0 = [true; true; true; true; false; false; false; false; false; false; false] /\
  interactive_row 10 = [true; true; false; false; false; false; false; false; false; false; false] /\
  interactive_row 19 = replicate 11 false.
Proof. vm_compute. done. Qed.
