(* ===== verification/Proc.v ===== *)
(** * The process table: pids, sessions, families
    (kernel/fork.c, kernel/exit.c, kernel/sys.c)

    [ptab] is the store of task structures, [plist] the tasks [for_each_task]
    visits, in order; the idle task [INIT_TASK_ID] is not on it.  [p_children] is
    the list that starts at [p_cptr] and goes on through [p_osptr], youngest
    child first.  Signals go to kernel/signal.c: what is sent is appended to
    [events]. *)
From stdpp Require Import base list functions.
From S2P Require Import Prelude PidHash Sched.

Definition CSIGNAL : Z := 255.
Definition CLONE_PID : Z := 4096.
Definition CLONE_PTRACE : Z := 8192.
Definition CLONE_PARENT : Z := 32768.
Definition CLONE_THREAD : Z := 65536.
Definition PID_MAX : Z := 32768.
Definition PF_EXITING : Z := 4.
Definition PF_FORKNOEXEC : Z := 64.
Definition PF_SUPERPRIV : Z := 256.
Definition PF_USEDFPU : Z := 1048576.
Definition PT_PTRACED : Z := 1.
Definition SIGHUP : Z := 1.
Definition SIGCHLD : Z := 17.
Definition SIGCONT : Z := 18.
Definition SIGSTOP : Z := 19.
Definition INIT_TASK_ID : tid := 0.

Record proc := Proc {
  p_pid : Z;
  p_pgrp : Z;
  p_session : Z;
  p_tgid : Z;
  p_leader : Z;
  p_did_exec : Z;
  p_tty : Z;
  p_tty_old_pgrp : Z;
  p_state : Z;
  p_flags : Z;
  p_ptrace : Z;
  p_exit_code : Z;
  p_exit_signal : Z;
  p_pdeath_signal : Z;
  p_self_exec_id : Z;
  p_parent_exec_id : Z;
  p_sigpending : Z;
  p_utime : Z; p_stime : Z; p_cutime : Z; p_cstime : Z;
  p_opptr : tid;
  p_pptr : tid;
  p_children : list tid;
  p_next_thread : tid
}.
#[export] Instance eta_proc : Eta proc := fun p =>
  Proc (p_pid p) (p_pgrp p) (p_session p) (p_tgid p) (p_leader p) (p_did_exec p) (p_tty p)
    (p_tty_old_pgrp p) (p_state p) (p_flags p) (p_ptrace p) (p_exit_code p) (p_exit_signal p)
    (p_pdeath_signal p) (p_self_exec_id p) (p_parent_exec_id p) (p_sigpending p) (p_utime p)
    (p_stime p) (p_cutime p) (p_cstime p) (p_opptr p) (p_pptr p) (p_children p) (p_next_thread p).

(** Calls into kernel/signal.c. *)
Inductive event :=
  | SendSig (sig : Z) (t : tid)
  | NotifyParent (t : tid) (sig : Z)
  | KillPg (pgrp sig : Z).

Record procs := Procs {
  ptab : tid -> proc;
  plist : list tid;
  cur : tid;
  child_reaper : tid;
  last_pid : Z;
  next_safe : Z;
  nr_threads : Z;
  events : list event
}.
#[export] Instance eta_procs : Eta procs := fun s =>
  Procs (ptab s) (plist s) (cur s) (child_reaper s) (last_pid s) (next_safe s) (nr_threads s) (events s).

Definition set_proc (t : tid) (f : proc -> proc) (s : procs) : procs := s <| ptab ::= alter f t |>.
Definition emit (e : event) (s : procs) : procs := s <| events ::= fun l => l ++ [e] |>.

(** ** get_pid *)

(** [x & 0xffff8000] *)
Definition over_pid (x : Z) : bool := negb (Z.land x 4294934528 =? 0).

Definition id_taken (p : proc) (n : Z) : bool :=
  (p_pid p =? n) || (p_pgrp p =? n) || (p_tgid p =? n) || (p_session p =? n).

(** The four tests that lower [next_safe]. *)
Definition lower (last id next : Z) : Z := if (last <? id) && (id <? next) then id else next.
Definition lower_all (p : proc) (last next : Z) : Z :=
  lower last (p_session p) (lower last (p_tgid p) (lower last (p_pgrp p) (lower last (p_pid p) next))).

(** The body of [for_each_task]: [inl next_safe] when a task has the id
    [last_pid], [inr next_safe] at the end of the list. *)
Fixpoint scan (l : list proc) (last next : Z) : Z + Z :=
  match l with
  | [] => inr next
  | p :: l' => if id_taken p last then inl next else scan l' last (lower_all p last next)
  end.

(** From [repeat:] on; the result is the new [last_pid] and [next_safe] and
    whether a pid was found.  [None] when [n] restarts were not enough. *)
Fixpoint pid_loop (n : nat) (l : list proc) (begin last next : Z) : option (Z * Z * bool) :=
  match n with
  | O => None
  | S n' =>
      match scan l last next with
      | inr next' => Some (last, next', true)
      | inl next' =>
          let last1 := last + 1 in
          let '(last2, next2) :=
            if next' <=? last1 then (if over_pid last1 then 300 else last1, PID_MAX) else (last1, next') in
          if last2 =? begin then Some (last2, next2, false) else pid_loop n' l begin last2 next2
      end
  end.

(** Fuel: every restart moves to the next pid, so twice [PID_MAX] is enough
    whenever the loop ends at all. *)
Definition PID_FUEL : nat := Z.to_nat (2 * PID_MAX).
#[global] Opaque PID_FUEL.

Definition get_pid (flags : Z) (s : procs) : option (procs * Z) :=
  if has flags CLONE_PID then Some (s, p_pid (ptab s (cur s)))
  else
    let begin := last_pid s in
    let last := begin + 1 in
    let slow last :=
      r ← pid_loop PID_FUEL (ptab s <$> plist s) begin last PID_MAX;
      let '(last', next', found) := r in
      Some (s <| last_pid := last' |> <| next_safe := next' |>, if found : bool then last' else 0) in
    if over_pid last then slow 300
    else if next_safe s <=? last then slow last
    else Some (s <| last_pid := last |>, last).

(** ** Links *)

(** REMOVE_LINKS *)
Definition REMOVE_LINKS (t : tid) (s : procs) : procs :=
  (set_proc (p_pptr (ptab s t)) (fun q => q <| p_children ::= filter (fun u => u <> t) |>) s)
    <| plist ::= filter (fun u => u <> t) |>.

(** SET_LINKS: last on the list of all tasks, first of its siblings. *)
Definition SET_LINKS (t : tid) (s : procs) : procs :=
  (set_proc (p_pptr (ptab s t)) (fun q => q <| p_children ::= cons t |>) s)
    <| plist ::= fun l => l ++ [t] |>.

(** [list_del(&p->thread_group)] *)
Definition unlink_thread (t : tid) (s : procs) : procs :=
  s <| ptab ::= fun f u => let q := f u in
         if bool_decide (u ∈ plist s) && (p_next_thread q =? t)
         then q <| p_next_thread := p_next_thread (f t) |> else q |>.

Definition unhash_process (t : tid) (s : procs) : procs :=
  unlink_thread t (REMOVE_LINKS t (s <| nr_threads ::= Z.pred |>)).

(** ** do_fork: the identity and the family of the child *)

Definition copy_flags (clone_flags : Z) (p : proc) : proc :=
  let new_flags := Z.lor (Z.ldiff (p_flags p) (Z.lor PF_SUPERPRIV PF_USEDFPU)) PF_FORKNOEXEC in
  let p := if negb (has clone_flags CLONE_PTRACE) then p <| p_ptrace := 0 |> else p in
  p <| p_flags := new_flags |>.

(** The child's structure, up to "ok, now we should be set up". *)
Definition fork_child (clone_flags pid : Z) (parent : proc) : proc :=
  let p := parent <| p_did_exec := 0 |> <| p_state := TASK_UNINTERRUPTIBLE |> in
  let p := copy_flags clone_flags p in
  p <| p_pid := pid |> <| p_children := [] |> <| p_sigpending := 0 |> <| p_leader := 0 |>
    <| p_tty_old_pgrp := 0 |> <| p_utime := 0 |> <| p_stime := 0 |> <| p_cutime := 0 |> <| p_cstime := 0 |>
    <| p_parent_exec_id := p_self_exec_id p |>
    <| p_exit_signal := Z.land clone_flags CSIGNAL |> <| p_pdeath_signal := 0 |>.

(** [do_fork], the part on the process table; the copies of files, memory and
    signal handlers are taken to succeed. *)
Definition fork_proc (clone_flags : Z) (child : tid) (s : procs) : option (procs * Z) :=
  let c := cur s in
  r ← get_pid clone_flags s;
  let '(s1, pid) := r in
  if (pid =? 0) && negb (p_pid (ptab s c) =? 0) then Some (s1, - EAGAIN)
  else
    let p0 := fork_child clone_flags pid (ptab s c) in
    let p1 := p0 <| p_tgid := pid |> <| p_next_thread := child |> in
    let p2 := if negb (has clone_flags CLONE_PARENT) then
                let p := p1 <| p_opptr := c |> in
                if negb (has (p_ptrace p) PT_PTRACED) then p <| p_pptr := c |> else p
              else p1 in
    let s2 := set_proc child (fun _ => p2) s1 in
    let s3 := if has clone_flags CLONE_THREAD then
                set_proc c (fun q => q <| p_next_thread := child |>)
                  (set_proc child (fun p => p <| p_tgid := p_tgid (ptab s c) |>
                                              <| p_next_thread := p_next_thread (ptab s c) |>) s2)
              else s2 in
    let s4 := (SET_LINKS child s3) <| nr_threads ::= Z.succ |> in
    let s5 := if has (p_ptrace (ptab s4 child)) PT_PTRACED then emit (SendSig SIGSTOP child) s4 else s4 in
    Some (s5, pid).

(** ** Process groups and sessions (kernel/sys.c) *)

Section lookup.
(** [find_task_by_pid] *)
Context (find : Z -> option tid).

Definition sys_setpgid (pid pgid : Z) (s : procs) : procs * Z :=
  let pc := ptab s (cur s) in
  let pid := if pid =? 0 then p_pid pc else pid in
  let pgid := if pgid =? 0 then pid else pgid in
  if pgid <? 0 then (s, - EINVAL)
  else match find pid with
  | None => (s, - ESRCH)
  | Some t =>
      let p := ptab s t in
      let check :=
        if (p_pptr p =? cur s) || (p_opptr p =? cur s) then
          if negb (p_session p =? p_session pc) then Some (- EPERM)
          else if negb (p_did_exec p =? 0) then Some (- EACCES) else None
        else if negb (t =? cur s) then Some (- ESRCH) else None in
      match check with
      | Some err => (s, err)
      | None =>
          if negb (p_leader p =? 0) then (s, - EPERM)
          else if negb (pgid =? pid) &&
                  negb (existsb (fun u => (p_pgrp (ptab s u) =? pgid) &&
                                          (p_session (ptab s u) =? p_session pc)) (plist s))
          then (s, - EPERM)
          else (set_proc t (fun p => p <| p_pgrp := pgid |>) s, 0)
      end
  end.

Definition sys_getpgid (pid : Z) (s : procs) : Z :=
  if pid =? 0 then p_pgrp (ptab s (cur s))
  else match find pid with Some t => p_pgrp (ptab s t) | None => - ESRCH end.

Definition sys_getsid (pid : Z) (s : procs) : Z :=
  if pid =? 0 then p_session (ptab s (cur s))
  else match find pid with Some t => p_session (ptab s t) | None => - ESRCH end.
End lookup.

Definition sys_getpgrp (s : procs) : Z := p_pgrp (ptab s (cur s)).

Definition sys_setsid (s : procs) : procs * Z :=
  let c := cur s in
  let pid := p_pid (ptab s c) in
  if existsb (fun u => p_pgrp (ptab s u) =? pid) (plist s) then (s, - EPERM)
  else (set_proc c (fun p => p <| p_leader := 1 |> <| p_session := pid |> <| p_pgrp := pid |>
                               <| p_tty := 0 |> <| p_tty_old_pgrp := 0 |>) s, pid).

(** ** Orphaned process groups (kernel/exit.c) *)

(** The loop of [session_of_pgrp]. *)
Fixpoint session_loop (s : procs) (pgrp fallback : Z) (l : list tid) : Z :=
  match l with
  | [] => fallback
  | t :: l' =>
      let p := ptab s t in
      if p_session p <=? 0 then session_loop s pgrp fallback l'
      else if p_pgrp p =? pgrp then p_session p
      else session_loop s pgrp (if p_pid p =? pgrp then p_session p else fallback) l'
  end.
Definition session_of_pgrp (pgrp : Z) (s : procs) : Z := session_loop s pgrp (-1) (plist s).

(** [ignored] is the task left out, if any. *)
Definition will_become_orphaned_pgrp (pgrp : Z) (ignored : option tid) (s : procs) : bool :=
  negb (existsb (fun t =>
    let p := ptab s t in
    let parent := ptab s (p_pptr p) in
    negb (bool_decide (ignored = Some t) || negb (p_pgrp p =? pgrp) || (p_state p =? TASK_ZOMBIE) ||
          (p_pid parent =? 1)) &&
    (negb (p_pgrp parent =? pgrp) && (p_session parent =? p_session p))) (plist s)).

Definition is_orphaned_pgrp (pgrp : Z) (s : procs) : bool := will_become_orphaned_pgrp pgrp None s.

Definition has_stopped_jobs (pgrp : Z) (s : procs) : bool :=
  existsb (fun t => (p_pgrp (ptab s t) =? pgrp) && (p_state (ptab s t) =? TASK_STOPPED)) (plist s).

(** ** Exit *)

(** The thread after [t] that is not exiting, or [father]; [n] bounds the ring. *)
Fixpoint find_reaper (n : nat) (s : procs) (father t : tid) : tid :=
  match n with
  | O => father
  | S n' =>
      let r := p_next_thread (ptab s t) in
      if negb (has (p_flags (ptab s r)) PF_EXITING) then r
      else if r =? father then r else find_reaper n' s father r
  end.

(** The body of the loop of [forget_original_parent]; its [p->first_time_slice = 0] is a
    field of the scheduler, which is modelled apart. *)
Definition forget_one (father reaper : tid) (s : procs) (t : tid) : procs :=
  if p_opptr (ptab s t) =? father then
    let s1 := set_proc t (fun p => p <| p_exit_signal := SIGCHLD |> <| p_self_exec_id ::= fun x => u32 (x + 1) |>
      <| p_opptr := if t =? reaper then child_reaper s else reaper |>) s in
    if negb (p_pdeath_signal (ptab s1 t) =? 0) then emit (SendSig (p_pdeath_signal (ptab s1 t)) t) s1 else s1
  else s.

Definition forget_original_parent (father : tid) (s : procs) : procs :=
  let r := find_reaper (S (length (plist s))) s father father in
  let reaper := if r =? father then child_reaper s else r in
  fold_left (forget_one father reaper) (plist s) s.

(** One turn of the loop of [exit_notify] on the youngest child [t]. *)
Definition reparent_one (t : tid) (s : procs) : procs :=
  let c := cur s in
  let s1 := set_proc c (fun q => q <| p_children ::= tail |>) s in
  let s2 := set_proc t (fun p => p <| p_ptrace := 0 |> <| p_pptr := p_opptr p |>) s1 in
  let s3 := set_proc (p_pptr (ptab s2 t)) (fun q => q <| p_children ::= cons t |>) s2 in
  let s4 := if p_state (ptab s3 t) =? TASK_ZOMBIE then emit (NotifyParent t (p_exit_signal (ptab s3 t))) s3 else s3 in
  let p := ptab s4 t in
  if negb (p_pgrp p =? p_pgrp (ptab s4 c)) && (p_session p =? p_session (ptab s4 c)) then
    if is_orphaned_pgrp (p_pgrp p) s4 && has_stopped_jobs (p_pgrp p) s4
    then emit (KillPg (p_pgrp p) SIGCONT) (emit (KillPg (p_pgrp p) SIGHUP) s4) else s4
  else s4.

(** [while (current->p_cptr != NULL)]; [None] when [n] turns were not enough. *)
Fixpoint reparent_children (n : nat) (s : procs) : option procs :=
  match p_children (ptab s (cur s)) with
  | [] => Some s
  | t :: _ => match n with O => None | S n' => reparent_children n' (reparent_one t s) end
  end.

(** [capable_kill] is [capable(CAP_KILL)]. *)
Definition exit_notify (capable_kill : bool) (s : procs) : option procs :=
  let c := cur s in
  let s1 := forget_original_parent c s in
  let pc := ptab s1 c in
  let t := ptab s1 (p_pptr pc) in
  let s2 := if negb (p_pgrp t =? p_pgrp pc) && (p_session t =? p_session pc) &&
               will_become_orphaned_pgrp (p_pgrp pc) (Some c) s1 && has_stopped_jobs (p_pgrp pc) s1
            then emit (KillPg (p_pgrp pc) SIGCONT) (emit (KillPg (p_pgrp pc) SIGHUP) s1) else s1 in
  let s3 := if negb (p_exit_signal pc =? SIGCHLD) &&
               (negb (p_parent_exec_id pc =? p_self_exec_id t) ||
                negb (p_self_exec_id pc =? p_parent_exec_id pc)) && negb capable_kill
            then set_proc c (fun p => p <| p_exit_signal := SIGCHLD |>) s2 else s2 in
  let s4 := set_proc c (fun p => p <| p_state := TASK_ZOMBIE |>) s3 in
  let s5 := emit (NotifyParent c (p_exit_signal (ptab s4 c))) s4 in
  reparent_children (length (p_children (ptab s5 c))) s5.

(** [do_exit] as far as the process table goes, up to its call of [schedule]:
    killing the idle task or init is a panic, [None]. *)
Definition do_exit (capable_kill : bool) (code : Z) (s : procs) : option procs :=
  let c := cur s in
  if (p_pid (ptab s c) =? 0) || (p_pid (ptab s c) =? 1) then None
  else
    let s1 := set_proc c (fun p => p <| p_flags ::= fun f => Z.lor f PF_EXITING |>) s in
    let s2 := set_proc c (fun p => p <| p_exit_code := code |>) s1 in
    exit_notify capable_kill s2.

Definition sys_exit (capable_kill : bool) (error_code : Z) (s : procs) : option procs :=
  do_exit capable_kill (Z.shiftl (Z.land error_code 255) 8) s.

Definition reparent_to_init_proc (s : procs) : procs :=
  let c := cur s in
  let s1 := REMOVE_LINKS c s in
  let s2 := set_proc c (fun p => p <| p_pptr := child_reaper s |> <| p_opptr := child_reaper s |>) s1 in
  let s3 := SET_LINKS c s2 in
  set_proc c (fun p => p <| p_exit_signal := SIGCHLD |> <| p_ptrace := 0 |>) s3.

Definition daemonize_proc (s : procs) : procs :=
  set_proc (cur s) (fun p => p <| p_session := 1 |> <| p_pgrp := 1 |> <| p_tty := 0 |>) s.

(** ** wait4 *)

Definition WNOHANG : Z := 1.
Definition WUNTRACED : Z := 2.
Definition __WNOTHREAD : Z := 536870912.
Definition __WALL : Z := 1073741824.
Definition __WCLONE : Z := 2147483648.
Definition ECHILD : Z := 10.
Definition ERESTARTSYS : Z := 512.

(** Does a child answer to [pid]? *)
Definition pid_selects (pid : Z) (c p : proc) : bool :=
  if 0 <? pid then p_pid p =? pid
  else if pid =? 0 then p_pgrp p =? p_pgrp c
  else if negb (pid =? -1) then p_pgrp p =? - pid
  else true.

(** Is it a child of the kind [options] asks for? *)
Definition kind_selects (options : Z) (p : proc) : bool :=
  negb (xorb (negb (p_exit_signal p =? SIGCHLD)) (has options __WCLONE) && negb (has options __WALL)).

Section wait4.
(** Whether the copies to [ru] and [stat_addr] fault; both pointers may be NULL. *)
Context (ru_fault stat_fault : bool) (ru_null stat_null : bool).

Definition copy_status : Z :=
  let retval := if ru_null then 0 else if ru_fault then - EFAULT else 0 in
  if (retval =? 0) && negb stat_null then (if stat_fault then - EFAULT else 0) else retval.

(** [release_task(p)], the part on the process table. *)
Definition release_proc (t : tid) (s : procs) : procs :=
  set_proc t (fun p => p <| p_pid := 0 |>) (unhash_process t s).

(** A zombie child: its times are added to the caller's, then it is reported. *)
Definition wait_zombie (t : tid) (s : procs) : procs * Z :=
  let p := ptab s t in
  let s1 := set_proc (cur s) (fun q => q <| p_cutime ::= Z.add (p_utime p + p_cutime p) |>
  <| p_cstime ::= Z.add (p_stime p + p_cstime p) |>) s in
  if negb (copy_status =? 0) then (s1, copy_status)
  else if negb (p_opptr p =? p_pptr p) then
    let s2 := REMOVE_LINKS t s1 in
    let s3 := set_proc t (fun p => p <| p_pptr := p_opptr p |>) s2 in
    (emit (NotifyParent t SIGCHLD) (SET_LINKS t s3), p_pid p)
  else (release_proc t s1, p_pid p).

(** The inner [for] loop: [Some] ends the call, else whether an eligible child
    was seen. *)
Fixpoint wait_children (pid options : Z) (flag : bool) (l : list tid) (s : procs)
  : (procs * Z) + bool :=
  match l with
  | [] => inr flag
  | t :: l' =>
      let p := ptab s t in
      if negb (pid_selects pid (ptab s (cur s)) p) || negb (kind_selects options p)
      then wait_children pid options flag l' s
      else if p_state p =? TASK_STOPPED then
        if (p_exit_code p =? 0) || (negb (has options WUNTRACED) && negb (has (p_ptrace p) PT_PTRACED))
        then wait_children pid options true l' s
        else if copy_status =? 0 then inl (set_proc t (fun p => p <| p_exit_code := 0 |>) s, p_pid p)
        else inl (s, copy_status)
      else if p_state p =? TASK_ZOMBIE then inl (wait_zombie t s)
      else wait_children pid options true l' s
  end.

(** The [do ... while (tsk != current)] loop over the thread group; [n] bounds the
    ring. *)
Fixpoint wait_threads (n : nat) (pid options : Z) (flag : bool) (t : tid) (s : procs)
  : (procs * Z) + bool :=
  match n with
  | O => inr flag
  | S n' =>
      match wait_children pid options flag (p_children (ptab s t)) s with
      | inl r => inl r
      | inr flag' =>
          if has options __WNOTHREAD then inr flag'
          else
            let t' := p_next_thread (ptab s t) in
            if t' =? cur s then inr flag' else wait_threads n' pid options flag' t' s
      end
  end.

(** One turn from [repeat:]: the call returns ([inl]) or sleeps ([inr]) and starts
    over when woken. *)
Definition sys_wait4 (pid options : Z) (s : procs) : (procs * Z) + procs :=
  if negb (Z.ldiff options (Z.lor (Z.lor (Z.lor (Z.lor WNOHANG WUNTRACED) __WNOTHREAD) __WCLONE) __WALL) =? 0)
  then inl (s, - EINVAL)
  else
    let running := set_proc (cur s) (fun p => p <| p_state := TASK_RUNNING |>) in
    let s1 := set_proc (cur s) (fun p => p <| p_state := TASK_INTERRUPTIBLE |>) s in
    match wait_threads (S (length (plist s))) pid options false (cur s) s1 with
    | inl (s2, ret) => inl (running s2, ret)
    | inr true =>
        if has options WNOHANG then inl (running s1, 0)
        else if negb (p_sigpending (ptab s1 (cur s)) =? 0) then inl (running s1, - ERESTARTSYS)
        else inr s1
    | inr false => inl (running s1, - ECHILD)
    end.
End wait4.
