(* ===== verification/ProcFamily.v ===== *)
(** * The family tree

    The lists of children agree with the parent pointers, through forks, exits and
    waits; an exiting task leaves no children behind. *)
From stdpp Require Import base list functions sets.
From S2P Require Import Prelude PidHash Sched Proc.

Lemma ptab_set_proc t f s u :
  ptab (set_proc t f s) u = if decide (t = u) then f (ptab s t) else ptab s u.
Proof. unfold set_proc. simpl. unfold alter, fn_alter. by case_decide. Qed.

Lemma ptab_set_proc_eq t f s : ptab (set_proc t f s) t = f (ptab s t).
Proof. rewrite ptab_set_proc. by rewrite decide_True. Qed.

Lemma ptab_set_proc_ne t f s u : t <> u -> ptab (set_proc t f s) u = ptab s u.
Proof. intros. rewrite ptab_set_proc. by rewrite decide_False. Qed.

(** ** The invariant *)

Record family (s : procs) : Prop := Family {
  f_child : forall f t, t ∈ p_children (ptab s f) -> t ∈ plist s /\ p_pptr (ptab s t) = f;
  f_parent : forall t, t ∈ plist s -> t ∈ p_children (ptab s (p_pptr (ptab s t)));
  f_list : NoDup (plist s);
  f_nodup : forall f, NoDup (p_children (ptab s f))
}.

(** Updates that leave the links alone. *)
Lemma family_set t f s : family s -> p_children (f (ptab s t)) = p_children (ptab s t) ->
  (t ∈ plist s -> p_pptr (f (ptab s t)) = p_pptr (ptab s t)) -> family (set_proc t f s).
Proof.
  intros [F1 F2 F3 F4] Hc Hp.
  assert (Ec : forall u, p_children (ptab (set_proc t f s) u) = p_children (ptab s u)).
  { intros u. rewrite ptab_set_proc. case_decide; [by subst u|done]. }
  assert (Ep : forall u, u ∈ plist s -> p_pptr (ptab (set_proc t f s) u) = p_pptr (ptab s u)).
  { intros u Hu. rewrite ptab_set_proc. case_decide; [subst u; by apply Hp|done]. }
  split; try done.
  - intros u v. rewrite Ec. intros Hv. destruct (F1 u v Hv) as [H1 H2]. rewrite Ep; done.
  - intros u Hu. rewrite Ec, Ep by done. by apply F2.
  - intros u. rewrite Ec. apply F4.
Qed.

Lemma family_emit e s : family s -> family (emit e s).
Proof. by intros [F1 F2 F3 F4]. Qed.

Lemma family_ext s s' : family s -> plist s' = plist s ->
  (forall t, p_children (ptab s' t) = p_children (ptab s t) /\ p_pptr (ptab s' t) = p_pptr (ptab s t)) ->
  family s'.
Proof.
  intros [F1 F2 F3 F4] El Et. split; rewrite ?El; try done.
  - intros f t. destruct (Et f) as [-> _], (Et t) as [_ ->]. apply F1.
  - intros t Ht. destruct (Et t) as [_ ->], (Et (p_pptr (ptab s t))) as [-> _]. by apply F2.
  - intros f. destruct (Et f) as [-> _]. apply F4.
Qed.

(** ** Unlinking and linking *)

Lemma children_remove t s f : family s -> t ∈ plist s ->
  p_children (ptab (REMOVE_LINKS t s) f) = filter (fun u => u <> t) (p_children (ptab s f)).
Proof.
  intros Hf Ht. unfold REMOVE_LINKS. change (ptab (?s <| plist ::= ?g |>)) with (ptab s).
  rewrite ptab_set_proc. case_decide as D; [by subst f|].
  symmetry. apply filter_out_not_in. intros [_ E]%(f_child _ Hf). done.
Qed.

Lemma pptr_remove t s u : p_pptr (ptab (REMOVE_LINKS t s) u) = p_pptr (ptab s u).
Proof.
  unfold REMOVE_LINKS. change (ptab (?s <| plist ::= ?g |>)) with (ptab s).
  rewrite ptab_set_proc. case_decide; [by subst u|done].
Qed.

Lemma plist_remove t s u : u ∈ plist (REMOVE_LINKS t s) <-> u <> t /\ u ∈ plist s.
Proof. unfold REMOVE_LINKS. simpl. by rewrite list_elem_of_filter. Qed.

Lemma family_remove t s : family s -> t ∈ plist s -> family (REMOVE_LINKS t s).
Proof.
  intros Hf Ht. split.
  - intros f u. rewrite children_remove by done. intros [Hne Hu]%list_elem_of_filter.
    rewrite plist_remove, pptr_remove. apply (f_child _ Hf) in Hu. naive_solver.
  - intros u [Hne Hu]%plist_remove. rewrite pptr_remove, children_remove by done.
    apply list_elem_of_filter. split; [done|]. by apply (f_parent _ Hf).
  - apply NoDup_filter, Hf.
  - intros f. rewrite children_remove by done. apply NoDup_filter, Hf.
Qed.

Lemma children_link t s f :
  p_children (ptab (SET_LINKS t s) f) =
  if decide (p_pptr (ptab s t) = f) then t :: p_children (ptab s f) else p_children (ptab s f).
Proof.
  unfold SET_LINKS. change (ptab (?s <| plist ::= ?g |>)) with (ptab s).
  rewrite ptab_set_proc. case_decide; [by subst f|done].
Qed.

Lemma pptr_link t s u : p_pptr (ptab (SET_LINKS t s) u) = p_pptr (ptab s u).
Proof.
  unfold SET_LINKS. change (ptab (?s <| plist ::= ?g |>)) with (ptab s).
  rewrite ptab_set_proc. case_decide; [by subst u|done].
Qed.

Lemma plist_link t s u : u ∈ plist (SET_LINKS t s) <-> u ∈ plist s \/ u = t.
Proof. unfold SET_LINKS. simpl. rewrite elem_of_app, list_elem_of_singleton. done. Qed.

Lemma family_link t s : family s -> t ∉ plist s -> family (SET_LINKS t s).
Proof.
  intros Hf Ht. assert (Hnc : forall f, t ∉ p_children (ptab s f)).
  { intros f [? _]%(f_child _ Hf). done. }
  split.
  - intros f u. rewrite children_link, plist_link, pptr_link. case_decide as D.
    + intros [->|Hu]%elem_of_cons; [auto|]. apply (f_child _ Hf) in Hu. naive_solver.
    + intros Hu. apply (f_child _ Hf) in Hu. naive_solver.
  - intros u. rewrite plist_link, pptr_link, children_link. intros [Hu| ->].
    + apply (f_parent _ Hf) in Hu. case_decide; [by right|done].
    + rewrite decide_True by done. by left.
  - unfold SET_LINKS. simpl. apply NoDup_app. split_and!; [apply Hf| |apply NoDup_singleton].
    intros u Hu ->%list_elem_of_singleton. done.
  - intros f. rewrite children_link. case_decide; [|apply Hf]. apply list.NoDup_cons. split; [done|apply Hf].
Qed.

(** ** Fork *)

(** A task structure that belongs to no task. *)
Definition free_slot (t : tid) (s : procs) : Prop := t ∉ plist s /\ p_children (ptab s t) = [].

Lemma fork_child_children flags pid p : p_children (fork_child flags pid p) = [].
Proof. done. Qed.

(** [get_pid] changes nothing but its two counters. *)
Lemma get_pid_frame flags s s' n : get_pid flags s = Some (s', n) ->
  ptab s' = ptab s /\ plist s' = plist s /\ cur s' = cur s /\ child_reaper s' = child_reaper s.
Proof.
  unfold get_pid. cbv zeta. repeat case_match; try (by intros [= <- <-]).
  - destruct (pid_loop _ _ _ _ _) as [[[? ?] ?]|]; simpl; [by intros [= <- <-]|done].
  - destruct (pid_loop _ _ _ _ _) as [[[? ?] ?]|]; simpl; [by intros [= <- <-]|done].
Qed.

(** A successful fork: the tree has the child as the youngest of its parent; ids
    of the child and of the others. *)
Record forked (s s1 s' : procs) (child : tid) (n : Z) : Prop := Forked {
  fk_family : family s';
  fk_list : forall t, t ∈ plist s' <-> t ∈ plist s \/ t = child;
  fk_cur : cur s' = cur s /\ child_reaper s' = child_reaper s;
  fk_pid : last_pid s' = last_pid s1 /\ next_safe s' = next_safe s1;
  fk_child : p_pid (ptab s' child) = n /\ p_pgrp (ptab s' child) = p_pgrp (ptab s (cur s)) /\
    p_session (ptab s' child) = p_session (ptab s (cur s)) /\
    (p_tgid (ptab s' child) = n \/ p_tgid (ptab s' child) = p_tgid (ptab s (cur s))) /\
    p_children (ptab s' child) = [];
  fk_others : forall t, t <> child -> p_pid (ptab s' t) = p_pid (ptab s t) /\
    p_pgrp (ptab s' t) = p_pgrp (ptab s t) /\ p_session (ptab s' t) = p_session (ptab s t) /\
    p_tgid (ptab s' t) = p_tgid (ptab s t)
}.

Lemma fork_spec flags child s s' n : family s -> free_slot child s -> cur s ∈ plist s ->
  p_pptr (ptab s (cur s)) <> child ->
  fork_proc flags child s = Some (s', n) ->
  exists s1 pid, get_pid flags s = Some (s1, pid) /\
    (pid = 0 /\ n = - EAGAIN /\ s' = s1 \/ n = pid /\ forked s s1 s' child n).
Proof.
  intros Hf [Hnl Hnc] Hcl Hpc. assert (Hne : child <> cur s) by (intros ->; done).
  unfold fork_proc. destruct (get_pid flags s) as [[s1 pid]|] eqn:Eg; [|done].
  unfold mbind, option_bind. cbv beta iota zeta.
  destruct (get_pid_frame _ _ _ _ Eg) as (E1 & E2 & E3 & E4).
  destruct ((pid =? 0) && negb (p_pid (ptab s (cur s)) =? 0)) eqn:Hz.
  { intros [= <- <-]. b2p. exists s1, pid. split; [done|]. by left. }
  match goal with |- context [set_proc child (fun _ => ?p) s1] => set (p2 := p) end.
  assert (Hp2 : p_children p2 = [] /\ p_pid p2 = pid /\ p_tgid p2 = pid /\
    p_pgrp p2 = p_pgrp (ptab s (cur s)) /\ p_session p2 = p_session (ptab s (cur s)) /\
    (p_pptr p2 = p_pptr (ptab s (cur s)) \/ p_pptr p2 = cur s)).
  { unfold p2, fork_child, copy_flags. repeat case_match; simpl; split_and!; auto. }
  destruct Hp2 as (P1 & P2 & P3 & P4 & P5 & P6). clearbody p2.
  set (s2 := set_proc child (fun _ => p2) s1).
  assert (F2 : family s2).
  { apply family_set; [by eapply family_ext; [exact Hf|done|intros; by rewrite E1]| |].
    - by rewrite E1, P1, Hnc.
    - rewrite E2. done. }
  match goal with |- context [SET_LINKS child ?x] => set (s3 := x) end.
  assert (H3 : family s3 /\ plist s3 = plist s /\ cur s3 = cur s /\ child_reaper s3 = child_reaper s /\
    last_pid s3 = last_pid s1 /\ next_safe s3 = next_safe s1 /\
    (p_children (ptab s3 child) = [] /\ p_pid (ptab s3 child) = pid /\ p_pgrp (ptab s3 child) = p_pgrp p2 /\
     p_session (ptab s3 child) = p_session p2 /\ p_pptr (ptab s3 child) = p_pptr p2 /\
     (p_tgid (ptab s3 child) = pid \/ p_tgid (ptab s3 child) = p_tgid (ptab s (cur s)))) /\
    forall t, t <> child -> p_pid (ptab s3 t) = p_pid (ptab s t) /\ p_pgrp (ptab s3 t) = p_pgrp (ptab s t) /\
      p_session (ptab s3 t) = p_session (ptab s t) /\ p_tgid (ptab s3 t) = p_tgid (ptab s t)).
  { unfold s3. destruct (has flags CLONE_THREAD).
    - split; [apply family_set; [|done|done]; by apply family_set|]. do 5 (split; [done|]). split.
      + rewrite ptab_set_proc_ne, ptab_set_proc_eq by done. unfold s2. rewrite ptab_set_proc_eq. simpl.
        split_and!; auto.
      + intros t Ht. rewrite ptab_set_proc. unfold s2.
        case_decide; [subst t|]; rewrite !ptab_set_proc_ne by done; by rewrite E1.
    - split; [done|]. do 5 (split; [done|]). split.
      + unfold s2. rewrite ptab_set_proc_eq. split_and!; auto.
      + intros t Ht. unfold s2. rewrite ptab_set_proc_ne by done. by rewrite E1. }
  clearbody s3. destruct H3 as (F3 & L3 & C3 & R3 & A3 & B3 & (K1 & K2 & K3 & K4 & K5 & K6) & O3).
  intros [= <- <-]. exists s1, pid. split; [done|]. right. split; [done|].
  match goal with |- forked _ _ ?x _ _ => set (s5 := x) end.
  assert (E5 : ptab s5 = ptab (SET_LINKS child s3) /\ plist s5 = plist (SET_LINKS child s3) /\
    cur s5 = cur s3 /\ child_reaper s5 = child_reaper s3 /\ last_pid s5 = last_pid s3 /\ next_safe s5 = next_safe s3).
  { unfold s5. by destruct (has _ PT_PTRACED). }
  destruct E5 as (T5 & L5 & C5 & R5 & A5 & B5). clearbody s5.
  assert (Hids : forall t, p_pid (ptab (SET_LINKS child s3) t) = p_pid (ptab s3 t) /\
    p_pgrp (ptab (SET_LINKS child s3) t) = p_pgrp (ptab s3 t) /\
    p_session (ptab (SET_LINKS child s3) t) = p_session (ptab s3 t) /\
    p_tgid (ptab (SET_LINKS child s3) t) = p_tgid (ptab s3 t)).
  { intros t. unfold SET_LINKS. change (ptab (?s <| plist ::= ?g |>)) with (ptab s).
    rewrite ptab_set_proc. by case_decide; [subst t|]. }
  split; rewrite ?T5, ?L5.
  - eapply family_ext; [apply (family_link child s3 F3); by rewrite L3|done|]. intros t. by rewrite T5.
  - intros t. rewrite plist_link, L3. done.
  - split; congruence.
  - split; congruence.
  - destruct (Hids child) as (-> & -> & -> & ->). rewrite children_link, K1, K5.
    rewrite decide_False by (destruct P6; congruence). split_and!; congruence || done.
  - intros t Ht. destruct (Hids t) as (-> & -> & -> & ->). by apply O3.
Qed.

(** ** Exit *)

Lemma p_children_set t f s u : (forall p, p_children (f p) = p_children p) ->
  p_children (ptab (set_proc t f s) u) = p_children (ptab s u).
Proof. intros H. rewrite ptab_set_proc. case_decide; [subst u; apply H|done]. Qed.

(** [s'] has the same tree as [s]. *)
Record same_tree (s s' : procs) : Prop := SameTree {
  st_list : plist s' = plist s;
  st_cur : cur s' = cur s;
  st_reaper : child_reaper s' = child_reaper s;
  st_tree : forall t, p_children (ptab s' t) = p_children (ptab s t) /\ p_pptr (ptab s' t) = p_pptr (ptab s t)
}.

#[export] Instance same_tree_preorder : PreOrder same_tree.
Proof.
  split; [by split|]. intros a b c [A1 A2 A3 A4] [B1 B2 B3 B4]. split; try congruence.
  intros t. destruct (A4 t), (B4 t). split; congruence.
Qed.

Lemma same_tree_set s0 t f s : same_tree s0 s ->
  (forall p, p_children (f p) = p_children p /\ p_pptr (f p) = p_pptr p) -> same_tree s0 (set_proc t f s).
Proof.
  intros H Hf. etransitivity; [exact H|]. split; try done. intros u. rewrite ptab_set_proc.
  case_decide; [subst u; apply Hf|done].
Qed.

Lemma same_tree_emit s0 e s : same_tree s0 s -> same_tree s0 (emit e s).
Proof. intros H. etransitivity; [exact H|]. by split. Qed.

Lemma same_tree_family s s' : family s -> same_tree s s' -> family s'.
Proof. intros Hf [H1 H2 H3 H4]. by eapply family_ext. Qed.

Ltac tree :=
  repeat lazymatch goal with
  | |- same_tree ?s ?s => reflexivity
  | |- same_tree _ (if ?c then _ else _) => destruct c
  | |- same_tree _ (set_proc _ _ _) => apply same_tree_set; [|done]
  | |- same_tree _ (emit _ _) => apply same_tree_emit
  end.

Lemma forget_one_tree f r s t : same_tree s (forget_one f r s t).
Proof. unfold forget_one. cbv zeta. tree. Qed.

Lemma opptr_forget_one f r s t u : r <> f -> child_reaper s <> f ->
  p_opptr (ptab (forget_one f r s t) u) =
  if decide (u = t /\ p_opptr (ptab s t) = f) then (if t =? r then child_reaper s else r)
  else p_opptr (ptab s u).
Proof.
  intros Hr Hc. unfold forget_one. destruct (Z.eqb_spec (p_opptr (ptab s t)) f) as [E|E].
  - cbv zeta. set (s1 := set_proc t _ s).
    replace (ptab (if negb (p_pdeath_signal (ptab s1 t) =? 0) then _ else s1)) with (ptab s1) by (by case_match).
    unfold s1. rewrite ptab_set_proc. destruct (decide (t = u)) as [<-|]; [by rewrite decide_True|].
    rewrite decide_False; [done|]. naive_solver.
  - rewrite decide_False; [done|]. naive_solver.
Qed.

Lemma forget_fold f r l : forall s, r <> f -> child_reaper s <> f ->
  let s' := fold_left (forget_one f r) l s in
  same_tree s s' /\
  forall t, t ∈ l \/ p_opptr (ptab s t) <> f -> p_opptr (ptab s' t) <> f.
Proof.
  induction l as [|u l IH]; intros s Hr Hc; simpl.
  - split; [done|]. intros t [Ht|Ht]; [by apply not_elem_of_nil in Ht|done].
  - assert (T1 := forget_one_tree f r s u). destruct (IH (forget_one f r s u) Hr) as [T2 H2].
    { by rewrite (st_reaper _ _ T1). }
    split; [by etransitivity|]. intros t Ht. apply H2. rewrite opptr_forget_one by done.
    destruct (decide (t = u /\ p_opptr (ptab s u) = f)) as [|Hn].
    + right. by case_match.
    + destruct Ht as [[->|Ht]%elem_of_cons|Ht]; [right; naive_solver|by left|by right].
Qed.

Lemma forget_fold_exit_code f r l : forall s t,
  p_exit_code (ptab (fold_left (forget_one f r) l s) t) = p_exit_code (ptab s t).
Proof.
  induction l as [|u l IH]; intros s t; [done|]. simpl. rewrite IH. unfold forget_one. cbv zeta.
  repeat case_match; try done; simpl; unfold alter, fn_alter; by case_decide; subst.
Qed.

Lemma forget_exit_code f s t : p_exit_code (ptab (forget_original_parent f s) t) = p_exit_code (ptab s t).
Proof. apply forget_fold_exit_code. Qed.

Lemma reaper_ne f r c : c <> f -> (if r =? f then c else r) <> f.
Proof. intros. destruct (Z.eqb_spec r f); done. Qed.

Lemma forget_spec f s : child_reaper s <> f ->
  same_tree s (forget_original_parent f s) /\
  forall t, t ∈ plist s -> p_opptr (ptab (forget_original_parent f s) t) <> f.
Proof.
  intros Hc. unfold forget_original_parent. cbv zeta.
  match goal with |- context [forget_one f ?x] => set (r := x) end.
  assert (Hr : r <> f) by (by apply reaper_ne).
  destruct (forget_fold f r (plist s) s Hr Hc) as [T H]. split; [done|]. intros t Ht. apply H. by left.
Qed.

(** One child is handed to its original parent. *)
Lemma reparent_one_spec t l s : family s -> p_children (ptab s (cur s)) = t :: l ->
  p_opptr (ptab s t) <> cur s ->
  let s' := reparent_one t s in
  family s' /\ p_children (ptab s' (cur s)) = l /\ plist s' = plist s /\ cur s' = cur s /\
  child_reaper s' = child_reaper s /\
  (forall u, p_opptr (ptab s' u) = p_opptr (ptab s u) /\ p_state (ptab s' u) = p_state (ptab s u) /\
             p_exit_code (ptab s' u) = p_exit_code (ptab s u)).
Proof.
  intros Hf Hch Hop. unfold reparent_one. cbv zeta. set (c := cur s) in *.
  set (s1 := set_proc c _ s). set (s2 := set_proc t _ s1). set (s3 := set_proc (p_pptr _) _ s2).
  assert (Htl : t ∈ plist s /\ p_pptr (ptab s t) = c) by (apply (f_child _ Hf); rewrite Hch; by left).
  destruct Htl as [Htl Htp].
  assert (Hnd : t ∉ l) by (pose proof (f_nodup _ Hf c) as N; rewrite Hch in N; by apply list.NoDup_cons in N as [? _]).
  assert (Ep2 : p_pptr (ptab s2 t) = p_opptr (ptab s t)).
  { transitivity (p_opptr (ptab s1 t)); [unfold s2; by rewrite ptab_set_proc_eq|].
    unfold s1. rewrite ptab_set_proc. by case_decide as D; [rewrite <- D|]. }
  assert (Hch3 : forall u, p_children (ptab s3 u) = if decide (u = c) then l else
    if decide (u = p_opptr (ptab s t)) then t :: p_children (ptab s u) else p_children (ptab s u)).
  { intros u. unfold s3. rewrite Ep2, ptab_set_proc. unfold s2, s1.
    destruct (decide (u = c)) as [->|Hu].
    - rewrite decide_False by done. rewrite p_children_set by done. rewrite ptab_set_proc_eq. simpl. by rewrite Hch.
    - case_decide as D;
        [subst u; rewrite decide_True by done;
         match goal with |- p_children (update p_children ?g ?p) = _ => change (t :: p_children p = t :: p_children (ptab s (p_opptr (ptab s t)))) end;
         f_equal|rewrite decide_False by congruence];
        rewrite p_children_set by done; by rewrite ptab_set_proc_ne. }
  assert (Hpp3 : forall u, p_pptr (ptab s3 u) = if decide (u = t) then p_opptr (ptab s t) else p_pptr (ptab s u)).
  { intros u. unfold s3. rewrite Ep2, ptab_set_proc.
    assert (E : p_pptr (ptab s2 u) = if decide (u = t) then p_opptr (ptab s t) else p_pptr (ptab s u)).
    { destruct (decide (u = t)) as [->|]; [done|]. unfold s2, s1. rewrite ptab_set_proc_ne by done.
      rewrite ptab_set_proc. by case_decide as D; [rewrite <- D|]. }
    etransitivity; [|exact E]. destruct (decide (p_opptr (ptab s t) = u)) as [<-|]; reflexivity. }
  assert (Hsame : forall u, p_opptr (ptab s3 u) = p_opptr (ptab s u) /\ p_state (ptab s3 u) = p_state (ptab s u) /\
    p_exit_code (ptab s3 u) = p_exit_code (ptab s u)).
  { intros u. unfold s3. rewrite ptab_set_proc.
    assert (E : forall v, p_opptr (ptab s2 v) = p_opptr (ptab s v) /\ p_state (ptab s2 v) = p_state (ptab s v) /\
      p_exit_code (ptab s2 v) = p_exit_code (ptab s v)).
    { intros v. unfold s2, s1. rewrite ptab_set_proc. case_decide as D; [rewrite <- D|];
        rewrite ptab_set_proc; by case_decide as D'; [rewrite <- D'|]. }
    case_decide as D; [rewrite <- D|]; apply E. }
  assert (L3 : plist s3 = plist s /\ cur s3 = c /\ child_reaper s3 = child_reaper s) by done.
  assert (F3 : family s3).
  { destruct L3 as (L3 & _). split; rewrite ?L3.
    - intros f u. rewrite Hch3, Hpp3. repeat case_decide; subst; intros Hu.
      + done.
      + split; [|apply (f_child _ Hf c u); rewrite Hch; by right].
        apply (f_child _ Hf c u). rewrite Hch. by right.
      + done.
      + apply elem_of_cons in Hu as [?|Hu]; [done|]. by apply (f_child _ Hf) in Hu.
      + apply (f_child _ Hf) in Hu as [? ?]. congruence.
      + by apply (f_child _ Hf) in Hu.
    - intros u Hu. rewrite Hpp3. destruct (decide (u = t)) as [->|Hut].
      + rewrite Hch3. rewrite decide_False, decide_True by done. by left.
      + rewrite Hch3. apply (f_parent _ Hf) in Hu. repeat case_decide; subst; [|by right|done].
        assert (E : p_pptr (ptab s u) = c) by done. rewrite E, Hch in Hu. by apply elem_of_cons in Hu as [?|?].
    - apply Hf.
    - intros f. rewrite Hch3. repeat case_decide; subst.
      + pose proof (f_nodup _ Hf c) as N. rewrite Hch in N. by apply list.NoDup_cons in N as [_ ?].
      + apply list.NoDup_cons. split; [|apply Hf]. intros [_ E]%(f_child _ Hf). congruence.
      + apply Hf. }
  assert (Hc3 := Hch3 c). rewrite decide_True in Hc3 by done. clearbody s3. destruct L3 as (L3 & C3 & R3).
  match goal with |- family ?x /\ _ => set (s5 := x) end.
  assert (T5 : same_tree s3 s5 /\ forall u, ptab s5 u = ptab s3 u).
  { unfold s5. split; [tree|]. intros u. by repeat case_match. }
  destruct T5 as [T5 E5]. clearbody s5. destruct T5 as [T1 T2 T3 T4].
  split; [by eapply same_tree_family|]. split; [by rewrite E5|].
  do 3 (split; [congruence|]). intros u. rewrite E5. apply Hsame.
Qed.

Lemma reparent_all n : forall s, family s -> cur s ∈ plist s ->
  (length (p_children (ptab s (cur s))) <= n)%nat ->
  (forall t, t ∈ plist s -> p_opptr (ptab s t) <> cur s) ->
  exists s', reparent_children n s = Some s' /\ family s' /\ p_children (ptab s' (cur s)) = [] /\
    plist s' = plist s /\ cur s' = cur s /\
    forall u, p_opptr (ptab s' u) = p_opptr (ptab s u) /\ p_state (ptab s' u) = p_state (ptab s u) /\
              p_exit_code (ptab s' u) = p_exit_code (ptab s u).
Proof.
  induction n as [|n IH]; intros s Hf Hc Hlen Hop; simpl.
  - destruct (p_children (ptab s (cur s))) as [|t l] eqn:E; [|simpl in Hlen; lia]. by exists s.
  - destruct (p_children (ptab s (cur s))) as [|t l] eqn:E; [by exists s|].
    assert (Ht : t ∈ plist s) by (eapply (f_child _ Hf (cur s)); rewrite E; by left).
    destruct (reparent_one_spec t l s Hf E (Hop t Ht)) as (F1 & C1 & L1 & U1 & R1 & H1).
    destruct (IH (reparent_one t s)) as (s' & E2 & F2 & C2 & L2 & U2 & H2); rewrite ?U1, ?L1; try done.
    + rewrite C1. simpl in Hlen. lia.
    + intros u Hu. destruct (H1 u) as [-> _]. by apply Hop.
    + exists s'. rewrite U1 in C2. split_and!; try congruence.
      intros u. destruct (H1 u) as (<- & <- & <-). apply H2.
Qed.

(** The whole exit. *)
Lemma do_exit_spec k code s : family s -> cur s ∈ plist s ->
  p_pid (ptab s (cur s)) <> 0 -> p_pid (ptab s (cur s)) <> 1 -> p_pid (ptab s (child_reaper s)) = 1 ->
  exists s', do_exit k code s = Some s' /\ family s' /\ plist s' = plist s /\
    p_children (ptab s' (cur s)) = [] /\ p_state (ptab s' (cur s)) = TASK_ZOMBIE /\
    p_exit_code (ptab s' (cur s)) = code /\
    forall t, t ∈ plist s -> p_opptr (ptab s' t) <> cur s /\ p_pptr (ptab s' t) <> cur s.
Proof.
  intros Hf Hc H0 H1 Hr. unfold do_exit. rewrite (proj2 (Z.eqb_neq _ _) H0), (proj2 (Z.eqb_neq _ _) H1).
  cbv zeta. cbn [orb]. set (s1 := set_proc (cur s) _ (set_proc (cur s) _ s)).
  assert (T1 : same_tree s s1) by (unfold s1; tree).
  assert (X1 : p_exit_code (ptab s1 (cur s)) = code) by (unfold s1; by rewrite ptab_set_proc_eq).
  assert (Hrc : child_reaper s1 <> cur s).
  { rewrite (st_reaper _ _ T1). intros E. rewrite E in Hr. congruence. }
  clearbody s1. unfold exit_notify. rewrite (st_cur _ _ T1). cbv zeta.
  destruct (forget_spec (cur s) s1 Hrc) as [T2 H2].
  assert (X2 : p_exit_code (ptab (forget_original_parent (cur s) s1) (cur s)) = code).
  { rewrite <- X1. apply forget_exit_code. }
  set (s2 := forget_original_parent (cur s) s1) in *. clearbody s2.
  match goal with |- context [reparent_children _ (emit ?e ?x)] => set (s4 := x) end.
  assert (T4 : same_tree s2 s4) by (unfold s4; tree).
  assert (E4 : p_exit_code (ptab s4 (cur s)) = code /\ p_state (ptab s4 (cur s)) = TASK_ZOMBIE /\
    forall u, p_opptr (ptab s4 u) = p_opptr (ptab s2 u)).
  { unfold s4. rewrite ptab_set_proc_eq. split_and!; [|done|].
    - match goal with |- context [ptab (if ?c then set_proc _ _ ?x else ?x)] => set (x3 := x) end.
      replace (p_exit_code (update p_state _ _)) with (p_exit_code (ptab x3 (cur s))).
      + unfold x3. by case_match.
      + case_match; [by rewrite ptab_set_proc_eq|done].
    - intros u. rewrite ptab_set_proc. case_decide as D; [rewrite <- D|];
        repeat case_match; rewrite ?ptab_set_proc; repeat case_decide; subst; done. }
  clearbody s4. destruct E4 as (X4 & Z4 & O4).
  assert (T : same_tree s (emit (NotifyParent (cur s) (p_exit_signal (ptab s4 (cur s)))) s4)).
  { apply same_tree_emit. by do 2 (etransitivity; [|eassumption]). }
  set (s5 := emit _ s4) in *. destruct T as [L5 C5 R5 T5].
  assert (F5 : family s5) by (eapply family_ext; [exact Hf|done|done]).
  destruct (reparent_all (length (p_children (ptab s5 (cur s)))) s5) as (s' & E & F' & Ch & L' & U' & H').
  - done.
  - by rewrite C5, L5.
  - by rewrite C5.
  - intros t. rewrite L5, C5. change (ptab s5) with (ptab s4). rewrite O4. intros Ht. apply H2.
    by rewrite (st_list _ _ T1).
  - exists s'. rewrite C5 in Ch. rewrite L5 in L'. split_and!; try done.
    + destruct (H' (cur s)) as (_ & -> & _). done.
    + destruct (H' (cur s)) as (_ & _ & ->). done.
    + intros t Ht. split.
      * destruct (H' t) as (-> & _). change (ptab s5) with (ptab s4). rewrite O4. apply H2.
        by rewrite (st_list _ _ T1).
      * intros Hp. rewrite <- L' in Ht. apply (f_parent _ F') in Ht. rewrite Hp, Ch in Ht.
        by apply not_elem_of_nil in Ht.
Qed.

(** C13. An exiting task, other than the idle task and init, becomes a zombie with its
    exit code and leaves no children: each child has gone to another thread of
    the group or to init, and no task has the dead one as its original parent.
    The loop over the children ends, and the tree stays consistent. *)
Theorem exit_leaves_no_children k code s : family s -> cur s ∈ plist s ->
  p_pid (ptab s (cur s)) <> 0 -> p_pid (ptab s (cur s)) <> 1 -> p_pid (ptab s (child_reaper s)) = 1 ->
  exists s', do_exit k code s = Some s' /\ family s' /\ plist s' = plist s /\
    p_children (ptab s' (cur s)) = [] /\ p_state (ptab s' (cur s)) = TASK_ZOMBIE /\
    p_exit_code (ptab s' (cur s)) = code /\
    forall t, t ∈ plist s -> p_opptr (ptab s' t) <> cur s /\ p_pptr (ptab s' t) <> cur s.
Proof. apply do_exit_spec. Qed.

(** Init (task 1) has the child 2, whose child is 3; task 2 runs. *)
Definition tree3_tab (t : tid) : proc :=
  let mk pid pptr ch := Proc pid 1 1 pid 0 0 0 0 0 0 0 0 SIGCHLD 0 0 0 0 0 0 0 0 pptr pptr ch t in
  if t =? 0 then mk 0 0 [1] else if t =? 1 then mk 1 0 [2] else if t =? 2 then mk 2 1 [3]
  else if t =? 3 then mk 3 2 [] else mk 0 0 [].
Definition tree3 : procs := Procs tree3_tab [1; 2; 3] 2 1 3 PID_MAX 3 [].

Lemma tree3_family : family tree3.
Proof.
  split.
  - intros f t. cbn [ptab tree3 plist]. unfold tree3_tab.
    destruct (Z.eqb_spec f 0) as [->|]; [|destruct (Z.eqb_spec f 1) as [->|];
      [|destruct (Z.eqb_spec f 2) as [->|]; [|destruct (Z.eqb_spec f 3)]]]; simpl;
      intros Ht; try (by apply not_elem_of_nil in Ht); apply list_elem_of_singleton in Ht as ->; split;
      (set_solver || done).
  - intros t Ht. cbn [plist tree3] in Ht. repeat (apply elem_of_cons in Ht as [->|Ht]); [by left..|].
    by apply not_elem_of_nil in Ht.
  - apply (bool_decide_unpack _). vm_compute. exact I.
  - intros f. cbn [ptab tree3]. unfold tree3_tab. repeat case_match; simpl; try apply NoDup_singleton; apply NoDup_nil_2.
Qed.

Lemma exit_leaves_no_children_witness :
  exists s', do_exit false 7 tree3 = Some s' /\ family s' /\ plist s' = plist tree3 /\
    p_children (ptab s' 2) = [] /\ p_state (ptab s' 2) = TASK_ZOMBIE /\ p_exit_code (ptab s' 2) = 7 /\
    forall t, t ∈ plist tree3 -> p_opptr (ptab s' t) <> 2 /\ p_pptr (ptab s' t) <> 2.
Proof.
  apply (exit_leaves_no_children false 7 tree3).
  - exact tree3_family.
  - right. left.
  - discriminate.
  - discriminate.
  - reflexivity.
Defined.

(** ** Waiting *)

Lemma family_release t s : family s -> t ∈ plist s -> family (release_proc t s).
Proof.
  intros Hf Ht. unfold release_proc, unhash_process. apply family_set; [|done|done].
  eapply (family_ext (REMOVE_LINKS t s)); [by apply family_remove|done|].
  intros u. unfold unlink_thread. simpl. by destruct (_ && _).
Qed.

Lemma wait_zombie_family rf sf rn sn t s : family s -> t ∈ plist s ->
  family (fst (wait_zombie rf sf rn sn t s)).
Proof.
  intros Hf Ht. unfold wait_zombie. cbv zeta. set (s1 := set_proc (cur s) _ s).
  assert (F1 : family s1) by (by apply family_set). assert (L1 : plist s1 = plist s) by done. clearbody s1.
  destruct (negb _); [done|]. destruct (negb _); simpl fst.
  - apply family_emit. apply family_link.
    + apply family_set; [apply family_remove; [done|by rewrite L1]|done|].
      intros [? _]%plist_remove. done.
    + change (t ∉ plist (REMOVE_LINKS t s1)). rewrite plist_remove. naive_solver.
  - apply family_release; [done|by rewrite L1].
Qed.
