(* ===== verification/ProcPids.v ===== *)
(** * Fresh pids

    [get_pid] caches in [next_safe] a bound below which no id in use lies above
    [last_pid].  The invariant of the cache, freshness of the pid returned,
    termination of the search, and what happens after the search has failed. *)
From stdpp Require Import base list functions sets.
From S2P Require Import Prelude PidHash Sched Proc.

(** No id in use lies strictly between [last] and [next]. *)
Definition gap_free (l : list proc) (last next : Z) : Prop :=
  forall p id, p ∈ l -> id_taken p id = true -> last < id -> next <= id.

Definition all_procs (s : procs) : list proc := ptab s <$> plist s.

Record pid_inv (s : procs) : Prop := PidInv {
  pi_last : 0 <= last_pid s < PID_MAX;
  pi_next : next_safe s <= PID_MAX;
  pi_gap : gap_free (all_procs s) (last_pid s) (next_safe s)
}.

(** ** The pid range test *)

Lemma over_pid_small x : 0 <= x < PID_MAX -> over_pid x = false.
Proof.
  intros Hx. unfold over_pid. change 4294934528 with (Z.shiftl (2 ^ 17 - 1) 15).
  replace (Z.land x _) with 0; [done|]. symmetry. apply Z.bits_inj'. intros n Hn.
  rewrite Z.land_spec, Z.bits_0. destruct (Z.lt_ge_cases n 15).
  - rewrite Z.shiftl_spec_low by lia. apply andb_false_r.
  - replace (Z.testbit x n) with false; [done|]. symmetry.
    destruct (Z.eq_dec x 0) as [->|]; [apply Z.bits_0|].
    apply Z.bits_above_log2; [lia|]. apply Z.log2_lt_pow2; [lia|].
    assert (2 ^ 15 <= 2 ^ n) by (apply Z.pow_le_mono_r; lia). unfold PID_MAX in Hx. lia.
Qed.

Lemma over_pid_max : over_pid PID_MAX = true.
Proof. reflexivity. Qed.

(** ** One scan *)

Lemma lower_spec last id next :
  lower last id next <= next /\ (last < id -> lower last id next <= id).
Proof. unfold lower. crush_cases; split; intros; b2p; lia. Qed.

Lemma lower_all_spec p last next :
  lower_all p last next <= next /\
  forall id, id_taken p id = true -> last < id -> lower_all p last next <= id.
Proof.
  unfold lower_all. set (n1 := lower last (p_pid p) next). set (n2 := lower last (p_pgrp p) n1).
  set (n3 := lower last (p_tgid p) n2).
  destruct (lower_spec last (p_pid p) next) as [A1 B1], (lower_spec last (p_pgrp p) n1) as [A2 B2],
    (lower_spec last (p_tgid p) n2) as [A3 B3], (lower_spec last (p_session p) n3) as [A4 B4].
  fold n1 in A1, B1. fold n2 in A2, B2. fold n3 in A3, B3. split; [lia|].
  intros id Hid Hlt. unfold id_taken in Hid.
  repeat (apply orb_true_iff in Hid as [Hid|Hid]); b2p; subst id; lia.
Qed.

Lemma scan_done l last next next' : scan l last next = inr next' ->
  next' <= next /\ gap_free l last next' /\ Forall (fun p => id_taken p last = false) l.
Proof.
  revert next. induction l as [|p l IH]; intros next; simpl.
  - intros [= ->]. split_and!; [lia| |done]. intros p id Hp. by apply not_elem_of_nil in Hp.
  - destruct (id_taken p last) eqn:E; [done|]. intros H. apply IH in H as (H1 & H2 & H3).
    destruct (lower_all_spec p last next) as [L1 L2]. split_and!; [lia| |by constructor].
    intros q id [->|Hq]%elem_of_cons Hid Hlt; [specialize (L2 id Hid Hlt); lia|by eapply H2].
Qed.

Lemma scan_hit l last next next' : scan l last next = inl next' ->
  next' <= next /\ exists p, p ∈ l /\ id_taken p last = true.
Proof.
  revert next. induction l as [|p l IH]; intros next; simpl; [done|].
  destruct (id_taken p last) eqn:E.
  - intros [= ->]. split; [lia|]. exists p. split; [by left|done].
  - intros H. apply IH in H as (H1 & q & H2 & H3). destruct (lower_all_spec p last next) as [L1 _].
    split; [lia|]. exists q. split; [by right|done].
Qed.

(** ** The search *)

(** The pid tried after [last], given the [next_safe] of the scan that hit. *)
Definition next_try (last next' : Z) : Z * Z :=
  if next' <=? last + 1 then (if over_pid (last + 1) then 300 else last + 1, PID_MAX) else (last + 1, next').

Lemma next_try_spec last next' : 0 <= last < PID_MAX -> next' <= PID_MAX ->
  let '(l2, n2) := next_try last next' in
  l2 = (if last + 1 =? PID_MAX then 300 else last + 1) /\ 1 <= l2 < PID_MAX /\ n2 <= PID_MAX.
Proof.
  intros Hl Hn. unfold next_try. destruct (Z.leb_spec next' (last + 1)).
  - destruct (Z.eqb_spec (last + 1) PID_MAX) as [->|].
    + rewrite over_pid_max. split_and!; done.
    + rewrite over_pid_small by lia. split_and!; lia.
  - destruct (Z.eqb_spec (last + 1) PID_MAX); split_and!; lia.
Qed.

Lemma pid_loop_unfold n l begin last next :
  pid_loop (S n) l begin last next =
  match scan l last next with
  | inr next' => Some (last, next', true)
  | inl next' => let '(last2, next2) := next_try last next' in
      if last2 =? begin then Some (last2, next2, false) else pid_loop n l begin last2 next2
  end.
Proof. reflexivity. Qed.

Lemma pid_loop_found n l begin last next last' next' :
  1 <= last < PID_MAX -> next <= PID_MAX ->
  pid_loop n l begin last next = Some (last', next', true) ->
  1 <= last' < PID_MAX /\ next' <= PID_MAX /\ gap_free l last' next' /\
  Forall (fun p => id_taken p last' = false) l.
Proof.
  revert last next. induction n as [|n IH]; intros last next Hl Hn; [done|].
  rewrite pid_loop_unfold. destruct (scan l last next) as [nx|nx] eqn:Es.
  - apply scan_hit in Es as [Hnx _]. pose proof (next_try_spec last nx ltac:(lia) ltac:(lia)) as Ht.
    destruct (next_try last nx) as [l2 n2]. destruct Ht as (_ & H1 & H2).
    destruct (l2 =? begin); [done|]. by apply IH.
  - intros [= <- <-]. apply scan_done in Es as (H1 & H2 & H3). split_and!; [lia..| |]; done.
Qed.

(** Restarts left until [target] is tried. *)
Definition distance (target last : Z) : Z :=
  if last <=? target then target - last else PID_MAX - last + (target - 300).

(** The search ends when it has a free pid or its starting point ahead. *)
Lemma pid_loop_ends n l begin last next target :
  1 <= last < PID_MAX -> next <= PID_MAX -> 300 <= target < PID_MAX ->
  (target = begin /\ last <> target \/ Forall (fun p => id_taken p target = false) l) ->
  distance target last < Z.of_nat n ->
  exists r, pid_loop n l begin last next = Some r.
Proof.
  revert last next. induction n as [|n IH]; intros last next Hl Hn Ht Htgt Hd.
  { unfold distance in Hd. destruct (Z.leb_spec last target); lia. }
  rewrite pid_loop_unfold. destruct (scan l last next) as [nx|nx] eqn:Es; [|by eexists].
  apply scan_hit in Es as (Hnx & p & Hp & Hid).
  pose proof (next_try_spec last nx ltac:(lia) ltac:(lia)) as Hnt.
  destruct (next_try last nx) as [l2 n2]. destruct Hnt as (E2 & H1 & H2).
  destruct (Z.eqb_spec l2 begin) as [|Hb]; [by eexists|].
  assert (Hne : last <> target).
  { destruct Htgt as [[_ ?]|Hf]; [done|]. intros ->. rewrite Forall_forall in Hf. rewrite Hf in Hid; done. }
  apply IH; [done..| |].
  - destruct Htgt as [[-> _]|Hf]; [by left|by right].
  - unfold distance in *. destruct (Z.leb_spec last target), (Z.leb_spec l2 target);
      destruct (Z.eqb_spec (last + 1) PID_MAX); lia.
Qed.

(** The search from [begin + 1], or from 300 past the end. *)
Lemma get_pid_unfold flags s : has flags CLONE_PID = false ->
  get_pid flags s =
  let first := if over_pid (last_pid s + 1) then 300 else last_pid s + 1 in
  if over_pid (last_pid s + 1) || (next_safe s <=? last_pid s + 1) then
    r ← pid_loop PID_FUEL (all_procs s) (last_pid s) first PID_MAX;
    let '(last', next', found) := r in
    Some (s <| last_pid := last' |> <| next_safe := next' |>, if found : bool then last' else 0)
  else Some (s <| last_pid := last_pid s + 1 |>, last_pid s + 1).
Proof. intros Hf. unfold get_pid. rewrite Hf. cbv zeta. destruct (over_pid _); [done|]. by destruct (_ <=? _). Qed.

Lemma first_range s : 0 <= last_pid s < PID_MAX ->
  1 <= (if over_pid (last_pid s + 1) then 300 else last_pid s + 1) < PID_MAX.
Proof.
  intros H. destruct (Z.eq_dec (last_pid s + 1) PID_MAX) as [->|].
  - by rewrite over_pid_max.
  - rewrite over_pid_small by lia. lia.
Qed.

(** A pid found is fresh and the cache stays valid. *)
Lemma get_pid_found flags s s' n : pid_inv s -> has flags CLONE_PID = false ->
  get_pid flags s = Some (s', n) -> n <> 0 ->
  1 <= n < PID_MAX /\ Forall (fun p => id_taken p n = false) (all_procs s) /\ pid_inv s' /\
  s' = s <| last_pid := n |> <| next_safe := next_safe s' |>.
Proof.
  intros [H1 H2 H3] Hf Hg Hn. rewrite get_pid_unfold in Hg by done. cbv zeta in Hg.
  assert (Hfr := first_range s H1).
  destruct (over_pid (last_pid s + 1) || (next_safe s <=? last_pid s + 1)) eqn:Ho.
  - destruct (pid_loop _ _ _ _ _) as [[[l' n'] found]|] eqn:El; simpl in Hg; [|done].
    injection Hg as <- <-. destruct found; [|done].
    apply pid_loop_found in El as (E1 & E2 & E3 & E4); [|done..]. split_and!; [lia..|done| |done].
    split; [simpl; lia|done|done].
  - injection Hg as <- <-. apply orb_false_iff in Ho as [Ho1 Ho2]. rewrite Ho1 in Hfr. b2p.
    split_and!; [lia..| | |by destruct s].
    + apply Forall_forall. intros p Hp. destruct (id_taken p (last_pid s + 1)) eqn:E; [|done].
      specialize (H3 p _ Hp E). lia.
    + split; simpl; [lia|done|]. intros p id Hp Hid Hlt. eapply H3; [done..|lia].
Qed.

(** [target] is tried before the search is back at [begin]. *)
Definition ahead (target begin last : Z) : Prop :=
  last <= target /\ (begin <= last \/ target < begin) \/
  target < last /\ begin <= last /\ (begin < 300 \/ target < begin).

Lemma pid_loop_finds n l begin last next target :
  1 <= last < PID_MAX -> next <= PID_MAX -> 300 <= target < PID_MAX -> ahead target begin last ->
  Forall (fun p => id_taken p target = false) l -> distance target last < Z.of_nat n ->
  exists last' next', pid_loop n l begin last next = Some (last', next', true).
Proof.
  revert last next. induction n as [|n IH]; intros last next Hl Hn Ht Ha Hf Hd.
  { unfold distance in Hd. destruct (Z.leb_spec last target); lia. }
  rewrite pid_loop_unfold. destruct (scan l last next) as [nx|nx] eqn:Es; [|by do 2 eexists].
  apply scan_hit in Es as (Hnx & p & Hp & Hid).
  pose proof (next_try_spec last nx ltac:(lia) ltac:(lia)) as Hnt.
  destruct (next_try last nx) as [l2 n2]. destruct Hnt as (E2 & H1 & H2).
  assert (Hne : last <> target).
  { intros ->. rewrite Forall_forall in Hf. rewrite Hf in Hid; done. }
  unfold ahead in Ha. destruct (Z.eqb_spec l2 begin) as [Hb|Hb].
  { exfalso. destruct (Z.eqb_spec (last + 1) PID_MAX); lia. }
  apply IH; try done.
  - unfold ahead. destruct (Z.eqb_spec (last + 1) PID_MAX); lia.
  - unfold distance in *. destruct (Z.leb_spec last target), (Z.leb_spec l2 target);
      destruct (Z.eqb_spec (last + 1) PID_MAX); lia.
Qed.

Lemma fuel_enough target last : 300 <= target < PID_MAX -> 1 <= last -> distance target last < Z.of_nat PID_FUEL.
Proof.
  intros Ht Hl. with_strategy transparent [PID_FUEL] unfold PID_FUEL. rewrite Z2Nat.id by done.
  unfold distance, PID_MAX in *. destruct (_ <=? _); lia.
Qed.

(** As long as some pid from 300 on other than the last one given out is in no
    use, get_pid ends and returns a pid that is no task's pid, process group,
    thread group or session, and leaves its cache valid. *)
Theorem get_pid_fresh flags s : pid_inv s -> has flags CLONE_PID = false ->
  (exists n, 300 <= n < PID_MAX /\ n <> last_pid s /\ Forall (fun p => id_taken p n = false) (all_procs s)) ->
  exists s' n, get_pid flags s = Some (s', n) /\ 1 <= n < PID_MAX /\
    Forall (fun p => id_taken p n = false) (all_procs s) /\ pid_inv s'.
Proof.
  intros Hi Hf (t & Ht & Hne & Hfree). assert (Hr := first_range s (pi_last _ Hi)).
  assert (Hex : exists s' n, get_pid flags s = Some (s', n) /\ n <> 0).
  { rewrite get_pid_unfold by done. cbv zeta. destruct (_ || _) eqn:Ho.
    - destruct (pid_loop_finds PID_FUEL (all_procs s) (last_pid s)
        (if over_pid (last_pid s + 1) then 300 else last_pid s + 1) PID_MAX t) as (l' & n' & E); try done.
      + destruct Hi as [H1 _ _]. unfold ahead.
        destruct (Z.eq_dec (last_pid s + 1) PID_MAX) as [E|E].
        * rewrite E, over_pid_max. lia.
        * rewrite over_pid_small by lia. lia.
      + apply fuel_enough; [done|apply Hr].
      + rewrite E. simpl. do 2 eexists. split; [done|]. apply pid_loop_found in E as (E & _); [lia|done..].
    - do 2 eexists. split; [done|]. destruct Hi. lia. }
  destruct Hex as (s' & n & Hg & Hn). exists s', n.
  destruct (get_pid_found flags s s' n) as (G1 & G2 & G3 & _); done.
Qed.

(** A system with one task of pid 1. *)
Definition pid_proc (n : Z) : proc :=
  Proc n n n n 0 0 0 0 0 0 0 0 SIGCHLD 0 0 0 0 0 0 0 0 0 0 [] 1.
Definition one_task : procs := Procs (fun _ => pid_proc 1) [1] 1 1 1 PID_MAX 1 [].

Lemma one_task_inv : pid_inv one_task.
Proof.
  split; [done|done|]. intros p id Hp Hid Hlt. apply list_elem_of_singleton in Hp as ->.
  unfold id_taken in Hid. cbn [p_pid p_pgrp p_tgid p_session pid_proc one_task ptab] in Hid. simpl in Hlt.
  destruct (Z.eqb_spec 1 id); [lia|discriminate].
Qed.

Lemma get_pid_fresh_witness : exists s' n, get_pid 17 one_task = Some (s', n) /\ 1 <= n < PID_MAX /\
  Forall (fun p => id_taken p n = false) (all_procs one_task) /\ pid_inv s'.
Proof.
  apply get_pid_fresh.
  - exact one_task_inv.
  - reflexivity.
  - exists 300. split; [unfold PID_MAX; lia|]. split; [discriminate|]. by repeat constructor.
Defined.

(** ** After the search has failed *)

(** Every pid is in use, and the first task of the list has the last pid. *)
Record exhausted (s : procs) : Prop := Exhausted {
  ex_last : 300 < last_pid s < PID_MAX - 1;
  ex_next : next_safe s <= last_pid s + 1;
  ex_all : forall n, 300 <= n < PID_MAX -> exists p, p ∈ all_procs s /\ id_taken p n = true;
  ex_head : exists p l, all_procs s = p :: l /\ p_pid p = last_pid s /\ p_pgrp p = last_pid s /\
              p_tgid p = last_pid s /\ p_session p = last_pid s
}.

Lemma scan_in_use l last next : (exists p, p ∈ l /\ id_taken p last = true) ->
  exists next', scan l last next = inl next'.
Proof.
  revert next. induction l as [|p l IH]; intros next (q & Hq & Hid); [by apply not_elem_of_nil in Hq|].
  simpl. destruct (id_taken p last) eqn:E; [by eexists|]. apply IH. exists q. split; [|done].
  apply elem_of_cons in Hq as [->|]; [congruence|done].
Qed.

(** The last restart comes back to [begin] with [next_safe] reset. *)
Lemma head_lowers p l begin next next' : p_pid p = begin -> p_pgrp p = begin -> p_tgid p = begin ->
  p_session p = begin -> scan (p :: l) (begin - 1) next = inl next' -> next' <= begin.
Proof.
  intros E1 E2 E3 E4. simpl. unfold id_taken. rewrite E1, E2, E3, E4.
  destruct (Z.eqb_spec begin (begin - 1)); [lia|]. simpl. intros H%scan_hit. destruct H as [H _].
  destruct (lower_all_spec p (begin - 1) next) as [_ L]. specialize (L begin).
  unfold id_taken in L. rewrite E1, Z.eqb_refl in L. specialize (L eq_refl). lia.
Qed.

Lemma pid_loop_exhausted n s last next : exhausted s -> 1 <= last < PID_MAX -> next <= PID_MAX ->
  300 <= last -> last <> last_pid s -> distance (last_pid s) last < Z.of_nat n ->
  pid_loop n (all_procs s) (last_pid s) last next = Some (last_pid s, PID_MAX, false).
Proof.
  intros Hx. revert last next. induction n as [|n IH]; intros last next Hl Hn H300 Hne Hd.
  { destruct Hx. unfold distance in Hd. destruct (Z.leb_spec last (last_pid s)); lia. }
  rewrite pid_loop_unfold. destruct (scan_in_use (all_procs s) last next) as [nx Es].
  { apply Hx. lia. }
  rewrite Es. assert (Hnx : nx <= next) by (by apply scan_hit in Es as [? _]).
  pose proof (next_try_spec last nx ltac:(lia) ltac:(lia)) as Hnt.
  destruct (Z.eq_dec last (last_pid s - 1)) as [->|Hb].
  - destruct Hx as [X1 X2 X3 (p & l & E & P1 & P2 & P3 & P4)]. rewrite E in Es.
    apply head_lowers in Es; [|done..]. unfold next_try.
    destruct (Z.leb_spec nx (last_pid s - 1 + 1)); [|lia].
    replace (last_pid s - 1 + 1) with (last_pid s) by lia. rewrite over_pid_small by lia.
    by rewrite Z.eqb_refl.
  - destruct (next_try last nx) as [l2 n2]. destruct Hnt as (E2 & H1 & H2).
    destruct Hx as [X1 X2 X3 X4]. unfold distance in Hd.
    destruct (Z.eqb_spec l2 (last_pid s)) as [Eb|Eb].
    { exfalso. destruct (Z.eqb_spec (last + 1) PID_MAX); lia. }
    apply IH; try done.
    + destruct (Z.eqb_spec (last + 1) PID_MAX); lia.
    + unfold distance. destruct (Z.leb_spec last (last_pid s)), (Z.leb_spec l2 (last_pid s));
        destruct (Z.eqb_spec (last + 1) PID_MAX); lia.
Qed.

(** When every pid is taken get_pid fails, but it leaves next_safe at PID_MAX: the
    next call returns last_pid + 1 without looking, a pid that is in use. *)
Theorem get_pid_reuses_after_failure flags s : exhausted s -> has flags CLONE_PID = false ->
  exists s1 s2 n, get_pid flags s = Some (s1, 0) /\ get_pid flags s1 = Some (s2, n) /\ n <> 0 /\
    exists p, p ∈ all_procs s1 /\ id_taken p n = true.
Proof.
  intros Hx Hf. assert (H1 : 0 <= last_pid s < PID_MAX) by (destruct Hx; lia).
  exists (s <| last_pid := last_pid s |> <| next_safe := PID_MAX |>).
  exists (s <| last_pid := last_pid s + 1 |> <| next_safe := PID_MAX |>), (last_pid s + 1).
  rewrite !get_pid_unfold by done. cbv zeta.
  change (last_pid (s <| last_pid := last_pid s |> <| next_safe := PID_MAX |>)) with (last_pid s).
  change (next_safe (s <| last_pid := last_pid s |> <| next_safe := PID_MAX |>)) with PID_MAX.
  rewrite over_pid_small by (destruct Hx; lia). rewrite !orb_false_l.
  destruct (Z.leb_spec (next_safe s) (last_pid s + 1)); [|destruct Hx; lia].
  rewrite pid_loop_exhausted; [|done|destruct Hx; lia|done|destruct Hx; lia|lia|apply fuel_enough; destruct Hx; lia].
  destruct (Z.leb_spec PID_MAX (last_pid s + 1)); [destruct Hx; lia|].
  split_and!; [done|done|lia|]. apply Hx. destruct Hx; lia.
Qed.

(** A task for every pid from 300 on, the holder of pid 1000 first. *)
Definition full_table : procs :=
  Procs pid_proc (1000 :: seqZ 300 (PID_MAX - 300)) 1000 1 1000 1000 1 [].

Lemma full_table_exhausted : exhausted full_table.
Proof.
  split.
  - change (300 < 1000 < PID_MAX - 1). unfold PID_MAX. lia.
  - change (1000 <= 1000 + 1). lia.
  - intros n Hn. exists (pid_proc n). split; [|unfold id_taken; cbn [p_pid pid_proc]; by rewrite Z.eqb_refl].
    unfold all_procs. apply list_elem_of_fmap. exists n. split; [reflexivity|].
    change (n ∈ 1000 :: seqZ 300 (PID_MAX - 300)). apply elem_of_cons. right. apply elem_of_seqZ. lia.
  - exists (pid_proc 1000), (pid_proc <$> seqZ 300 (PID_MAX - 300)).
    split; [apply (fmap_cons pid_proc)|]. split_and!; reflexivity.
Qed.

Lemma get_pid_reuses_after_failure_witness :
  exists s1 s2 n, get_pid 17 full_table = Some (s1, 0) /\ get_pid 17 s1 = Some (s2, n) /\ n <> 0 /\
    exists p, p ∈ all_procs s1 /\ id_taken p n = true.
Proof. apply get_pid_reuses_after_failure; [exact full_table_exhausted|reflexivity]. Defined.
