(* ===== verification/ProcJobs.v ===== *)
(** * Sessions and process groups

    Every process group lies within one session, whatever sequence of forks,
    exits, waits, setpgid and setsid calls leads to it.  The proof rests on the
    freshness of new pids ([ProcPids]). *)
From stdpp Require Import base list functions sets relations.
From S2P Require Import Prelude PidHash Sched Proc ProcFamily ProcPids.

(** ** Frames *)

Definition ids (p : proc) : Z * Z * Z * Z := (p_pid p, p_pgrp p, p_tgid p, p_session p).

(** [s'] has the tasks of [s], perhaps fewer, with the same ids. *)
Record shrinks (s s' : procs) : Prop := Shrinks {
  sh_list : forall t, t ∈ plist s' -> t ∈ plist s;
  sh_ids : forall t, t ∈ plist s' -> ids (ptab s' t) = ids (ptab s t);
  sh_cur : cur s' = cur s;
  sh_last : last_pid s' = last_pid s;
  sh_next : next_safe s' = next_safe s
}.

#[export] Instance shrinks_preorder : PreOrder shrinks.
Proof.
  split; [by intros s|]. intros a b c [A1 A2 A3 A4 A5] [B1 B2 B3 B4 B5]. split; try congruence; [auto|].
  intros t Ht. rewrite B2, A2; auto.
Qed.

Lemma shrinks_set s0 t f s : shrinks s0 s -> (forall p, ids (f p) = ids p) -> shrinks s0 (set_proc t f s).
Proof.
  intros H Hf. etransitivity; [exact H|]. split; try done. intros u _. rewrite ptab_set_proc.
  case_decide; [subst u; apply Hf|done].
Qed.

Lemma shrinks_emit s0 e s : shrinks s0 s -> shrinks s0 (emit e s).
Proof. intros H. etransitivity; [exact H|]. by split. Qed.

Lemma shrinks_list s0 g s : shrinks s0 s -> (forall l t, t ∈ g l -> t ∈ l) -> shrinks s0 (s <| plist ::= g |>).
Proof. intros H Hg. etransitivity; [exact H|]. split; try done. intros t. apply Hg. Qed.

Ltac shrink :=
  repeat lazymatch goal with
  | |- shrinks ?s ?s => reflexivity
  | |- shrinks _ (if ?c then _ else _) => destruct c
  | |- shrinks _ (set_proc _ _ _) => apply shrinks_set; [|done]
  | |- shrinks _ (emit _ _) => apply shrinks_emit
  end.

Lemma forget_one_shrinks f r s0 s t : shrinks s0 s -> shrinks s0 (forget_one f r s t).
Proof. intros. unfold forget_one. cbv zeta. shrink; done. Qed.

Lemma forget_all_shrinks f r l s0 s : shrinks s0 s -> shrinks s0 (fold_left (forget_one f r) l s).
Proof. revert s. induction l as [|t l IH]; intros s H; [done|]. simpl. apply IH. by apply forget_one_shrinks. Qed.

Lemma forget_shrinks f s : shrinks s (forget_original_parent f s).
Proof. unfold forget_original_parent. by apply forget_all_shrinks. Qed.

Lemma reparent_one_shrinks t s0 s : shrinks s0 s -> shrinks s0 (reparent_one t s).
Proof. intros. unfold reparent_one. cbv zeta. shrink; done. Qed.

Lemma reparent_children_shrinks n s s' : reparent_children n s = Some s' -> shrinks s s'.
Proof.
  revert s. induction n as [|n IH]; intros s; simpl; destruct (p_children _) as [|t l]; try done.
  - by intros [= <-].
  - by intros [= <-].
  - intros H. apply IH in H. etransitivity; [|exact H]. by apply reparent_one_shrinks.
Qed.

Lemma do_exit_shrinks k code s s' : do_exit k code s = Some s' -> shrinks s s'.
Proof.
  unfold do_exit, exit_notify. cbv zeta. destruct (_ || _); [done|]. intros H.
  apply reparent_children_shrinks in H. etransitivity; [|exact H]. shrink;
    (etransitivity; [|apply forget_shrinks]); shrink.
Qed.

(** ** Removing and moving tasks *)

Lemma remove_links_shrinks s0 t s : shrinks s0 s -> shrinks s0 (REMOVE_LINKS t s).
Proof.
  intros H. unfold REMOVE_LINKS. apply shrinks_list; [by apply shrinks_set|].
  intros l u Hu. by apply filter_out in Hu as [? _].
Qed.

Lemma release_shrinks s0 t s : shrinks s0 s -> shrinks s0 (release_proc t s).
Proof.
  intros H. unfold release_proc, unhash_process.
  set (s1 := REMOVE_LINKS t _).
  assert (H1 : shrinks s0 s1).
  { apply remove_links_shrinks. etransitivity; [exact H|]. by split. }
  assert (Hnin : t ∉ plist s1).
  { unfold s1, REMOVE_LINKS. simpl. intros [_ ?]%filter_out. done. }
  etransitivity; [exact H1|]. split; try done. intros u Hu.
  assert (u <> t) by (intros ->; done). rewrite ptab_set_proc_ne by done. unfold unlink_thread. simpl.
  by destruct (_ && _).
Qed.

(** ** The invariant *)

Record jobs_ok (s : procs) : Prop := JobsOk {
  j_pids : pid_inv s;
  j_cur : cur s ∈ plist s;
  j_unique : forall t u, t ∈ plist s -> u ∈ plist s -> p_pid (ptab s t) = p_pid (ptab s u) -> t = u;
  j_group : forall t u, t ∈ plist s -> u ∈ plist s -> p_pgrp (ptab s t) = p_pgrp (ptab s u) ->
    p_session (ptab s t) = p_session (ptab s u);
  j_leader : forall t u, t ∈ plist s -> u ∈ plist s -> p_pgrp (ptab s t) = p_pid (ptab s u) ->
    p_session (ptab s t) = p_session (ptab s u)
}.

Lemma taken_ids p q id : ids p = ids q -> id_taken p id = id_taken q id.
Proof. unfold ids, id_taken. by intros [= -> -> -> ->]. Qed.

Lemma gap_elem s last next : gap_free (all_procs s) last next <->
  forall t id, t ∈ plist s -> id_taken (ptab s t) id = true -> last < id -> next <= id.
Proof.
  unfold gap_free, all_procs. split.
  - intros H t id Ht. apply H. by apply list_elem_of_fmap_2.
  - intros H p id (t & -> & Ht)%list_elem_of_fmap. by apply H.
Qed.

Lemma jobs_shrinks s s' : jobs_ok s -> shrinks s s' -> cur s' ∈ plist s' -> jobs_ok s'.
Proof.
  intros [[P1 P2 P3] J2 J3 J4 J5] [S1 S2 S3 S4 S5] Hc.
  assert (Hid : forall t, t ∈ plist s' -> p_pid (ptab s' t) = p_pid (ptab s t) /\
    p_pgrp (ptab s' t) = p_pgrp (ptab s t) /\ p_session (ptab s' t) = p_session (ptab s t)).
  { intros t Ht. apply S2 in Ht. unfold ids in Ht. by injection Ht as -> -> _ ->. }
  split; try done.
  - split; rewrite ?S4, ?S5; try done. rewrite gap_elem in P3 |- *. intros t id Ht.
    rewrite (taken_ids _ _ _ (S2 t Ht)). apply P3. by apply S1.
  - intros t u Ht Hu. destruct (Hid t Ht) as (-> & _), (Hid u Hu) as (-> & _). auto.
  - intros t u Ht Hu. destruct (Hid t Ht) as (_ & -> & ->), (Hid u Hu) as (_ & -> & ->). auto.
  - intros t u Ht Hu. destruct (Hid t Ht) as (_ & -> & ->), (Hid u Hu) as (-> & _ & ->). auto.
Qed.

(** A change of the group (and session) of one task. *)
Lemma jobs_regroup s t p' : jobs_ok s -> t ∈ plist s -> p_pid p' = p_pid (ptab s t) ->
  p_tgid p' = p_tgid (ptab s t) ->
  (exists u, u ∈ plist s /\ id_taken (ptab s u) (p_pgrp p') = true) ->
  (exists u, u ∈ plist s /\ id_taken (ptab s u) (p_session p') = true) ->
  (forall u, u ∈ plist s -> u <> t -> p_pgrp (ptab s u) = p_pgrp p' -> p_session (ptab s u) = p_session p') ->
  (forall u, u ∈ plist s -> u <> t -> p_pgrp p' = p_pid (ptab s u) -> p_session p' = p_session (ptab s u)) ->
  (forall u, u ∈ plist s -> u <> t -> p_pgrp (ptab s u) = p_pid (ptab s t) ->
     p_session (ptab s u) = p_session p') ->
  jobs_ok (set_proc t (fun _ => p') s).
Proof.
  intros [[P1 P2 P3] J2 J3 J4 J5] Ht E1 E2 (x & Hx & Tx) (y & Hy & Ty) G1 G2 G3.
  split; try done.
  - split; try done. rewrite gap_elem in P3 |- *. intros u id Hu. rewrite ptab_set_proc.
    case_decide; [|by apply P3]. subst u. intros Hid Hlt. unfold id_taken in Hid. rewrite E1, E2 in Hid.
    repeat (apply orb_true_iff in Hid as [Hid|Hid]).
    + eapply (P3 t); [done| |done]. unfold id_taken. by rewrite Hid.
    + b2p. subst id. by apply (P3 x).
    + eapply (P3 t); [done| |done]. unfold id_taken. rewrite Hid. by rewrite !orb_true_r.
    + b2p. subst id. by apply (P3 y).
  - intros u v Hu Hv. rewrite !ptab_set_proc. repeat case_decide; subst; rewrite ?E1; auto.
  - intros u v Hu Hv. rewrite !ptab_set_proc. repeat case_decide; subst; auto.
    intros E. symmetry. apply G1; auto.
  - intros u v Hu Hv. rewrite !ptab_set_proc. repeat case_decide; subst; rewrite ?E1; auto.
Qed.

Lemma set_proc_const t f s : set_proc t f s = set_proc t (fun _ => f (ptab s t)) s.
Proof. reflexivity. Qed.

(** ** The calls *)

(** [find_task_by_pid] only returns live tasks with that pid. *)
Definition lookup_ok (find : Z -> option tid) (s : procs) : Prop :=
  forall n t, find n = Some t -> t ∈ plist s /\ p_pid (ptab s t) = n.

Lemma existsb_elem {A} (f : A -> bool) l : existsb f l = true -> exists x, x ∈ l /\ f x = true.
Proof. intros (x & Hx & Hf)%existsb_exists. exists x. split; [by apply list_elem_of_In|done]. Qed.

Lemma existsb_none {A} (f : A -> bool) l x : existsb f l = false -> x ∈ l -> f x = false.
Proof.
  intros H Hx. destruct (f x) eqn:E; [|done]. assert (existsb f l = true); [|congruence].
  apply existsb_exists. exists x. split; [by apply list_elem_of_In|done].
Qed.

Lemma taken_pid p : id_taken p (p_pid p) = true.
Proof. unfold id_taken. by rewrite Z.eqb_refl. Qed.
Lemma taken_pgrp p : id_taken p (p_pgrp p) = true.
Proof. unfold id_taken. rewrite Z.eqb_refl. by rewrite orb_true_r. Qed.
Lemma taken_session p : id_taken p (p_session p) = true.
Proof. unfold id_taken. rewrite Z.eqb_refl. by rewrite orb_true_r. Qed.
#[export] Hint Resolve taken_pid taken_pgrp taken_session : kernel.

Lemma setpgid_jobs find pid pgid s : jobs_ok s -> lookup_ok find s ->
  jobs_ok (fst (sys_setpgid find pid pgid s)).
Proof.
  intros Hj Hl. unfold sys_setpgid. cbv zeta. set (c := cur s).
  set (pid' := if pid =? 0 then _ else pid). set (pgid' := if pgid =? 0 then pid' else pgid).
  destruct (pgid' <? 0); [done|]. destruct (find pid') as [t|] eqn:Ef; [|done].
  destruct (Hl _ _ Ef) as [Ht Hpid].
  match goal with |- context [match ?x with Some err => _ | None => _ end] => destruct x eqn:Hcheck end; [done|].
  destruct (negb (p_leader _ =? 0)); [done|].
  match goal with |- context [if ?x then _ else _] => destruct x eqn:Hgrp end; [done|]. cbn [fst].
  assert (Hs : p_session (ptab s t) = p_session (ptab s c)).
  { revert Hcheck. destruct (_ || _).
    - destruct (Z.eqb_spec (p_session (ptab s t)) (p_session (ptab s c))); [done|done].
    - destruct (Z.eqb_spec t c) as [->|]; done. }
  pose proof Hj as [J1 J2 J3 J4 J5].
  rewrite set_proc_const. apply (jobs_regroup s t ((ptab s t) <| p_pgrp := pgid' |>)); try done.
  - apply andb_false_iff in Hgrp as [Hgrp|Hgrp]; b2p.
    + exists t. split; [done|]. change (id_taken (ptab s t) pgid' = true). rewrite Hgrp, <- Hpid. apply taken_pid.
    + apply existsb_elem in Hgrp as (u & Hu & Eu). b2p. exists u. split; [done|].
      change (id_taken (ptab s u) pgid' = true).
      match goal with H : p_pgrp (ptab s u) = pgid' |- _ => rewrite <- H end. apply taken_pgrp.
  - exists t. split; [done|]. exact (taken_session (ptab s t)).
  - intros u Hu Hne. change (p_pgrp (ptab s u) = pgid' -> p_session (ptab s u) = p_session (ptab s t)). intros Eu.
    apply andb_false_iff in Hgrp as [Hgrp|Hgrp]; b2p.
    + apply J5; [done..|]. congruence.
    + apply existsb_elem in Hgrp as (v & Hv & Ev). b2p. rewrite Hs, <- H0. apply J4; [done..|congruence].
  - intros u Hu Hne. change (pgid' = p_pid (ptab s u) -> p_session (ptab s t) = p_session (ptab s u)). intros Eu.
    apply andb_false_iff in Hgrp as [Hgrp|Hgrp]; b2p.
    + exfalso. apply Hne. apply J3; [done..|]. congruence.
    + apply existsb_elem in Hgrp as (v & Hv & Ev). b2p. rewrite Hs, <- H0. apply J5; [done..|congruence].
  - intros u Hu Hne. change (p_pgrp (ptab s u) = p_pid (ptab s t) -> p_session (ptab s u) = p_session (ptab s t)).
    by apply J5.
Qed.

Lemma setsid_jobs s : jobs_ok s -> jobs_ok (fst (sys_setsid s)).
Proof.
  intros Hj. unfold sys_setsid. cbv zeta. destruct (existsb _ _) eqn:He; [done|]. cbn [fst].
  pose proof Hj as [J1 J2 J3 J4 J5].
  assert (Hno : forall u, u ∈ plist s -> p_pgrp (ptab s u) <> p_pid (ptab s (cur s))).
  { intros u Hu. apply (existsb_none _ _ u) in He; [|done]. apply Z.eqb_neq. exact He. }
  rewrite set_proc_const. apply (jobs_regroup s (cur s) ((ptab s (cur s)) <| p_leader := 1 |> <| p_session := p_pid (ptab s (cur s)) |>
    <| p_pgrp := p_pid (ptab s (cur s)) |> <| p_tty := 0 |> <| p_tty_old_pgrp := 0 |>)); try done.
  - exists (cur s). split; [done|]. exact (taken_pid (ptab s (cur s))).
  - exists (cur s). split; [done|]. exact (taken_pid (ptab s (cur s))).
  - intros u Hu Hne Eu. by apply Hno in Eu.
  - intros u Hu Hne Eu. exfalso. apply Hne. symmetry. by apply J3.
  - intros u Hu Hne Eu. by apply Hno in Eu.
Qed.

Lemma fork_jobs flags child s s' n : jobs_ok s -> family s -> free_slot child s ->
  has flags CLONE_PID = false -> fork_proc flags child s = Some (s', n) -> 0 < n ->
  jobs_ok s' /\ family s'.
Proof.
  intros Hj Hf Hfree Hfl Hfork Hn. pose proof Hj as [J1 J2 J3 J4 J5].
  assert (Hpp : p_pptr (ptab s (cur s)) <> child).
  { intros E. apply (f_parent _ Hf) in J2. rewrite E, (proj2 Hfree) in J2. by apply not_elem_of_nil in J2. }
  apply fork_spec in Hfork as (s1 & pid & Hg & Hcase); [|done..].
  destruct Hcase as [(_ & -> & _)|(-> & [K1 K2 [K3 _] [K4 K4'] (C1 & C2 & C3 & C4 & _) K6])]; [done|].
  destruct (get_pid_found _ _ _ _ J1 Hfl Hg) as (G1 & G2 & [G3 G4 G5] & G6); [lia|].
  assert (Hfresh : forall t, t ∈ plist s -> id_taken (ptab s t) pid = false).
  { rewrite Forall_forall in G2. intros t Ht. apply G2. by apply list_elem_of_fmap_2. }
  assert (Hc : child ∉ plist s) by apply Hfree.
  assert (Hfp : forall t, t ∈ plist s -> p_pid (ptab s t) <> pid /\ p_pgrp (ptab s t) <> pid).
  { intros t Ht. apply Hfresh in Ht. split; intros <-; [by rewrite taken_pid in Ht|by rewrite taken_pgrp in Ht]. }
  assert (El : last_pid s' = pid) by (rewrite K4, G6; done).
  assert (Hold : forall t, t ∈ plist s -> t <> child) by (intros t Ht ->; done).
  split; [|done]. split.
  - split; rewrite ?El; [lia|by rewrite K4'|]. rewrite gap_elem. intros t id Ht Hid Hlt.
    assert (Hg5 : forall u, u ∈ plist s -> id_taken (ptab s u) id = true -> next_safe s' <= id).
    { intros u Hu Hu'. rewrite K4'. rewrite gap_elem in G5. rewrite G6 in G5. simpl in G5. eapply G5; done. }
    apply K2 in Ht as [Ht| ->].
    + apply (Hg5 t Ht). rewrite <- Hid. apply taken_ids. unfold ids.
      destruct (K6 t (Hold t Ht)) as (-> & -> & -> & ->). done.
    + unfold id_taken in Hid. rewrite C1, C2, C3 in Hid.
      repeat (apply orb_true_iff in Hid as [Hid|Hid]); b2p; subst id.
      * lia.
      * apply (Hg5 (cur s)); [done|]. apply taken_pgrp.
      * destruct C4 as [C4|C4]; rewrite C4 in *; [lia|]. apply (Hg5 (cur s)); [done|].
        unfold id_taken. rewrite Z.eqb_refl. by rewrite !orb_true_r.
      * apply (Hg5 (cur s)); [done|]. apply taken_session.
  - rewrite K3. apply K2. by left.
  - intros t u Ht%K2 Hu%K2. destruct Ht as [Ht| ->], Hu as [Hu| ->].
    + destruct (K6 t (Hold t Ht)) as (-> & _), (K6 u (Hold u Hu)) as (-> & _). by apply J3.
    + destruct (K6 t (Hold t Ht)) as (-> & _). rewrite C1. intros E. by apply Hfp in Ht as [? _].
    + destruct (K6 u (Hold u Hu)) as (-> & _). rewrite C1. intros E. by apply Hfp in Hu as [? _].
    + done.
  - intros t u Ht%K2 Hu%K2. destruct Ht as [Ht| ->], Hu as [Hu| ->].
    + destruct (K6 t (Hold t Ht)) as (_ & -> & -> & _), (K6 u (Hold u Hu)) as (_ & -> & -> & _). by apply J4.
    + destruct (K6 t (Hold t Ht)) as (_ & -> & -> & _). rewrite C2, C3. by apply J4.
    + destruct (K6 u (Hold u Hu)) as (_ & -> & -> & _). rewrite C2, C3. by apply J4.
    + done.
  - intros t u Ht%K2 Hu%K2. destruct Ht as [Ht| ->], Hu as [Hu| ->].
    + destruct (K6 t (Hold t Ht)) as (_ & -> & -> & _), (K6 u (Hold u Hu)) as (-> & _ & -> & _). by apply J5.
    + destruct (K6 t (Hold t Ht)) as (_ & -> & -> & _). rewrite C1. intros E. by apply Hfp in Ht as [_ ?].
    + destruct (K6 u (Hold u Hu)) as (-> & _ & -> & _). rewrite C2, C3. by apply J5.
    + rewrite C1, C2. intros E. by apply Hfp in J2 as [_ ?].
Qed.

(** ** Waiting *)

Lemma shrinks_link s0 t s : shrinks s0 s -> t ∈ plist s0 -> ids (ptab s t) = ids (ptab s0 t) ->
  shrinks s0 (SET_LINKS t s).
Proof.
  intros [S1 S2 S3 S4 S5] Ht Hid.
  assert (E : forall u, ids (ptab (SET_LINKS t s) u) = ids (ptab s u)).
  { intros u. unfold SET_LINKS. change (ptab (?x <| plist ::= ?g |>)) with (ptab x).
    rewrite ptab_set_proc. by case_decide; [subst u|]. }
  split; try done; intros u [Hu| ->]%plist_link; rewrite ?E; auto.
Qed.

Lemma ids_remove t s u : ids (ptab (REMOVE_LINKS t s) u) = ids (ptab s u).
Proof.
  unfold REMOVE_LINKS. change (ptab (?x <| plist ::= ?g |>)) with (ptab x).
  rewrite ptab_set_proc. by case_decide; [subst u|].
Qed.

Section wait.
Context (rf sf rn sn : bool).

(** What a call of wait4 that ends leaves. *)
Record waited (s s' : procs) : Prop := Waited {
  w_shrinks : shrinks s s';
  w_family : family s';
  w_cur : cur s' ∈ plist s'
}.

Lemma wait_zombie_waited t s : family s -> cur s ∈ plist s -> t ∈ plist s -> t <> cur s ->
  waited s (fst (wait_zombie rf sf rn sn t s)).
Proof.
  intros Hf Hc Ht Hne. pose proof (wait_zombie_family rf sf rn sn t s Hf Ht) as Hf'.
  revert Hf'. unfold wait_zombie. cbv zeta.
  match goal with |- context [release_proc t ?x] => set (s1 := x) end.
  assert (H1 : shrinks s s1) by (by apply shrinks_set). assert (L1 : plist s1 = plist s) by done.
  assert (C1 : cur s1 = cur s) by done. clearbody s1.
  destruct (negb _); [intros Hf'; split; [done|done|simpl; by rewrite C1, L1]|].
  destruct (negb _); intros Hf'; split; try done; cbn [fst].
  - apply shrinks_emit, shrinks_link; [apply shrinks_set; [by apply remove_links_shrinks|done]|done|].
    rewrite ptab_set_proc_eq. transitivity (ids (ptab s1 t)); [exact (ids_remove t s1 t)|].
    apply (sh_ids _ _ H1). by rewrite L1.
  - change (cur s1 ∈ plist (SET_LINKS t (REMOVE_LINKS t s1))). rewrite plist_link, plist_remove, C1, L1. left.
    by split.
  - by apply release_shrinks.
  - change (cur s1 ∈ plist (REMOVE_LINKS t s1)). rewrite plist_remove, C1, L1. by split.
Qed.

Lemma wait_children_waited pid options l s : family s -> cur s ∈ plist s ->
  p_state (ptab s (cur s)) <> TASK_ZOMBIE -> (forall t, t ∈ l -> t ∈ plist s) ->
  forall flag s' n, wait_children rf sf rn sn pid options flag l s = inl (s', n) -> waited s s'.
Proof.
  intros Hf Hc Hz. induction l as [|t l IH]; intros Hl flag s' n; [done|].
  assert (IH' : forall flag s' n, wait_children rf sf rn sn pid options flag l s = inl (s', n) -> waited s s').
  { apply IH. intros u Hu. apply Hl. by right. }
  clear IH. cbn [wait_children].
  destruct (_ || _); [apply IH'|]. destruct (p_state (ptab s t) =? TASK_STOPPED).
  - destruct (_ || _); [apply IH'|]. destruct (_ =? 0); intros [= <- <-]; [|by split].
    split; [by apply shrinks_set|by apply family_set|done].
  - destruct (Z.eqb_spec (p_state (ptab s t)) TASK_ZOMBIE) as [E|E]; [|apply IH'].
    intros [= Ew]. replace s' with (fst (wait_zombie rf sf rn sn t s)) by (by rewrite Ew).
    apply wait_zombie_waited; [done|done|apply Hl; by left|congruence].
Qed.

Lemma wait_threads_waited pid options m s : family s -> cur s ∈ plist s ->
  p_state (ptab s (cur s)) <> TASK_ZOMBIE ->
  forall flag t s' n, wait_threads rf sf rn sn m pid options flag t s = inl (s', n) -> waited s s'.
Proof.
  intros Hf Hc Hz. induction m as [|m IH]; intros flag t s' n; [done|]. cbn [wait_threads].
  destruct (wait_children _ _ _ _ _ _ _ _ _) as [[s1 n1]|flag'] eqn:E.
  - intros [= <- <-]. eapply wait_children_waited; [done..| |exact E].
    intros u [Hu _]%(f_child _ Hf). done.
  - destruct (has _ _); [done|]. cbv zeta. destruct (_ =? _); [done|]. apply IH.
Qed.

Lemma waited_set f s s' t : waited s s' -> (forall p, ids (f p) = ids p) ->
  (forall p, p_children (f p) = p_children p /\ p_pptr (f p) = p_pptr p) -> waited s (set_proc t f s').
Proof.
  intros [W1 W2 W3] Hid Hf. split; [by apply shrinks_set| |done].
  apply family_set; [done|apply Hf|intros _; apply Hf].
Qed.

Lemma wait4_waited pid options s : family s -> cur s ∈ plist s ->
  match sys_wait4 rf sf rn sn pid options s with inl (s', _) => waited s s' | inr s' => waited s s' end.
Proof.
  intros Hf Hc. unfold sys_wait4. destruct (negb _); [by split|]. cbv zeta.
  set (s1 := set_proc (cur s) _ s).
  assert (W1 : waited s s1) by (apply waited_set; [by split|done|done]).
  assert (Z1 : p_state (ptab s1 (cur s1)) <> TASK_ZOMBIE).
  { change (cur s1) with (cur s). unfold s1. by rewrite ptab_set_proc_eq. }
  clearbody s1. destruct (wait_threads _ _ _ _ _ _ _ _ _ _) as [[s2 n]|[]] eqn:E.
  - apply wait_threads_waited in E; [|apply W1|apply W1|done]. apply waited_set; [|done|done].
    destruct W1, E. split; [by etransitivity|done|done].
  - destruct (has _ _); [by apply waited_set|]. destruct (negb _); [by apply waited_set|done].
  - by apply waited_set.
Qed.
End wait.

(** ** Runs *)

(** The calls that change the process table, and the switch to another task.  A
    fork that fails for want of pids is not among them: it leaves [next_safe] wrong
    (see [ProcPids]).  Init is alive when a task exits. *)
(** Some pid from 300 on, other than the last one given out, is in no use.  Each task uses at most
    four ids, so this holds with up to 8116 tasks ([few_tasks_pid_left]). *)
Definition pid_left (s : procs) : Prop :=
  exists n, 300 <= n < PID_MAX /\ n <> last_pid s /\ Forall (fun p => id_taken p n = false) (all_procs s).

Lemma few_tasks_pid_left s : Z.of_nat (length (plist s)) <= 8116 -> pid_left s.
Proof.
  intros Hl. set (used := last_pid s :: flat_map (fun p => [p_pid p; p_pgrp p; p_tgid p; p_session p]) (all_procs s)).
  assert (Hu : Z.of_nat (length used) <= 32465).
  { assert (Hf : forall l, length (flat_map (fun p => [p_pid p; p_pgrp p; p_tgid p; p_session p]) l) = (4 * length l)%nat)
      by (induction l as [|p l IH]; simpl; lia).
    unfold used, all_procs. cbn [length]. rewrite Hf, length_fmap. lia. }
  destruct (decide (Exists (fun n => n ∉ used) (seqZ 300 (PID_MAX - 300)))) as [He|He].
  - apply Exists_exists in He as (n & Hn & Hx). apply elem_of_seqZ in Hn. exists n. unfold used in Hx. apply not_elem_of_cons in Hx as [Hne Hx].
    split; [lia|]. split; [done|]. apply Forall_forall. intros p Hp. destruct (id_taken p n) eqn:E; [|done]. destruct Hx.
    apply list_elem_of_In, in_flat_map. exists p. split; [by apply list_elem_of_In|]. unfold id_taken in E.
    repeat (apply orb_true_iff in E as [E|E]); apply Z.eqb_eq in E; simpl; auto.
  - exfalso. assert (Hs : seqZ 300 (PID_MAX - 300) ⊆+ used).
    { apply NoDup_submseteq; [apply NoDup_seqZ|]. intros n Hn. destruct (decide (n ∈ used)); [done|]. destruct He. apply Exists_exists. by exists n. }
    apply submseteq_length in Hs. rewrite length_seqZ in Hs. unfold PID_MAX in Hs. lia.
Qed.

(** A task forks while a pid is left; do_fork may give up before get_pid, when nothing has changed, or
    after it, when the pid is not used.  CLONE_PID is refused to tasks other than the boot
    task. *)
Inductive jstep (s : procs) : procs -> Prop :=
  | j_fork flags child s' n : has flags CLONE_PID = false -> free_slot child s -> pid_left s ->
      fork_proc flags child s = Some (s', n) -> jstep s s'
  | j_fork_undone flags s' n : has flags CLONE_PID = false -> pid_left s -> get_pid flags s = Some (s', n) -> jstep s s'
  | j_setpgid find pid pgid : lookup_ok find s -> jstep s (fst (sys_setpgid find pid pgid s))
  | j_setsid : jstep s (fst (sys_setsid s))
  | j_exit k code s' : p_pid (ptab s (child_reaper s)) = 1 -> do_exit k code s = Some s' -> jstep s s'
  | j_wait rf sf rn sn pid options s' n : sys_wait4 rf sf rn sn pid options s = inl (s', n) -> jstep s s'
  | j_wait_sleep rf sf rn sn pid options s' : sys_wait4 rf sf rn sn pid options s = inr s' -> jstep s s'
  | j_switch t : t ∈ plist s -> jstep s (s <| cur := t |>).

Lemma jobs_waited s s' : jobs_ok s -> waited s s' -> jobs_ok s' /\ family s'.
Proof. intros Hj [W1 W2 W3]. split; [by eapply jobs_shrinks|done]. Qed.

Lemma family_regroup t p' s : family s -> p_children p' = p_children (ptab s t) -> p_pptr p' = p_pptr (ptab s t) ->
  family (set_proc t (fun _ => p') s).
Proof. intros. by apply family_set. Qed.

Lemma setpgid_family find pid pgid s : family s -> family (fst (sys_setpgid find pid pgid s)).
Proof. intros Hf. unfold sys_setpgid. cbv zeta. repeat case_match; try done; by apply family_set. Qed.

Lemma setsid_family s : family s -> family (fst (sys_setsid s)).
Proof. intros Hf. unfold sys_setsid. cbv zeta. destruct (existsb _ _); [done|]. by apply family_set. Qed.

(** A fork that finds a pid succeeds. *)
Lemma fork_succeeds flags child s s' n : jobs_ok s -> has flags CLONE_PID = false -> pid_left s ->
  fork_proc flags child s = Some (s', n) -> 0 < n.
Proof.
  intros Hj Hfl Hp. destruct (get_pid_fresh flags s (j_pids _ Hj) Hfl Hp) as (s2 & m & E2 & Hm & _). unfold fork_proc. rewrite E2. simpl.
  rewrite (proj2 (Z.eqb_neq m 0)) by lia. simpl. intros [= _ <-]. lia.
Qed.

Lemma jstep_ok s s' : jobs_ok s /\ family s -> jstep s s' -> jobs_ok s' /\ family s'.
Proof.
  intros [Hj Hf] Hst. destruct Hst as [flags child s' n Hfl Hfree Hp E|flags s' n Hfl Hp E|find pid pgid Hl| |k code s' Hr E|
    rf sf rn sn pid options s' n E|rf sf rn sn pid options s' E|t Ht].
  - apply (fork_jobs flags child s s' n Hj Hf Hfree Hfl E). by apply (fork_succeeds flags child s s').
  - destruct (get_pid_fresh flags s (j_pids _ Hj) Hfl Hp) as (s2 & m & E2 & Hm & _ & I2). rewrite E in E2. injection E2 as <- <-.
    destruct (get_pid_found flags s s' n (j_pids _ Hj) Hfl E) as (_ & _ & _ & Es); [lia|]. revert I2 Es. generalize (next_safe s').
    intros x I2 ->. destruct Hj as [_ J2 J3 J4 J5]. split; [by split|by destruct Hf].
  - split; [by apply setpgid_jobs|by apply setpgid_family].
  - split; [by apply setsid_jobs|by apply setsid_family].
  - assert (Hid : p_pid (ptab s (cur s)) <> 0 /\ p_pid (ptab s (cur s)) <> 1).
    { split; intros E0; unfold do_exit in E; rewrite E0 in E; done. }
    destruct (do_exit_spec k code s Hf (j_cur _ Hj) (proj1 Hid) (proj2 Hid) Hr) as (s2 & E2 & F2 & L2 & _).
    rewrite E in E2. injection E2 as <-. apply do_exit_shrinks in E.
    split; [|done]. eapply jobs_shrinks; [done..|]. rewrite (sh_cur _ _ E), L2. apply Hj.
  - pose proof (wait4_waited rf sf rn sn pid options s Hf (j_cur _ Hj)) as W. rewrite E in W.
    by eapply jobs_waited.
  - pose proof (wait4_waited rf sf rn sn pid options s Hf (j_cur _ Hj)) as W. rewrite E in W.
    by eapply jobs_waited.
  - split; [|by destruct Hf]. destruct Hj as [[P1 P2 P3] J2 J3 J4 J5]. by split.
Qed.

(** C12. Job control: whatever forks (successful or not), exits, waits, [setpgid] and [setsid]
    calls and switches happen, as long as tasks fork only while a pid is left, pids stay
    distinct, all members of a process group belong to the same session, and so does the task
    whose pid is the group's number.  Once the pids are exhausted the code gives one out
    twice ([get_pid_reuses_after_failure]). *)
Theorem groups_stay_in_one_session s s' : jobs_ok s -> family s -> rtc jstep s s' ->
  forall t u, t ∈ plist s' -> u ∈ plist s' ->
    (p_pid (ptab s' t) = p_pid (ptab s' u) -> t = u) /\
    (p_pgrp (ptab s' t) = p_pgrp (ptab s' u) \/ p_pgrp (ptab s' t) = p_pid (ptab s' u) ->
     p_session (ptab s' t) = p_session (ptab s' u)).
Proof.
  intros Hj Hf Hr t u Ht Hu.
  assert (H : jobs_ok s' /\ family s').
  { clear t u Ht Hu. induction Hr as [|a b c Hab _ IH]; [done|]. destruct (jstep_ok a b (conj Hj Hf) Hab). auto. }
  destruct H as [J _]. split; [by apply (j_unique _ J)|].
  intros [E|E]; [by apply (j_group _ J)|by apply (j_leader _ J)].
Qed.

Lemma tree3_jobs : jobs_ok tree3.
Proof.
  assert (Hl : forall t, t ∈ plist tree3 -> t = 1 \/ t = 2 \/ t = 3) by (intros t; set_solver).
  split.
  - split; [done|done|]. rewrite gap_elem. intros t id Ht%Hl Hid Hlt. change (3 < id) in Hlt.
    destruct Ht as [->|[->| ->]]; unfold id_taken in Hid;
      repeat (apply orb_true_iff in Hid as [Hid|Hid]); apply Z.eqb_eq in Hid; subst id; vm_compute in Hlt; discriminate.
  - right. left.
  - intros t u Ht%Hl Hu%Hl. destruct Ht as [->|[->| ->]], Hu as [->|[->| ->]]; done.
  - intros t u Ht%Hl Hu%Hl. destruct Ht as [->|[->| ->]], Hu as [->|[->| ->]]; done.
  - intros t u Ht%Hl Hu%Hl. destruct Ht as [->|[->| ->]], Hu as [->|[->| ->]]; done.
Qed.

(** Task 2 starts a session, then exits; init waits for it. *)
Lemma groups_stay_in_one_session_witness :
  exists s', rtc jstep tree3 s' /\ plist s' = [1; 3] /\ p_session (ptab s' 3) = p_session (ptab s' 1).
Proof.
  set (s1 := fst (sys_setsid tree3)).
  assert (H1 : jstep tree3 s1) by apply j_setsid.
  destruct (do_exit false 0 s1) as [s2|] eqn:E2; [|vm_compute in E2; discriminate].
  assert (H2 : jstep s1 s2) by (apply (j_exit s1 false 0); [reflexivity|exact E2]).
  set (s3 := s2 <| cur := 1 |>).
  assert (L2 : plist s2 = [1; 2; 3]).
  { vm_compute in E2. injection E2 as <-. reflexivity. }
  assert (H3 : jstep s2 s3) by (apply j_switch; rewrite L2; left).
  destruct (sys_wait4 false false true true (-1) 0 s3) as [[s4 n]|s4] eqn:E4.
  - assert (H4 : jstep s3 s4) by (eapply j_wait; exact E4).
    assert (Hr : rtc jstep tree3 s4) by (do 4 (eapply rtc_l; [eassumption|]); apply rtc_refl).
    assert (L4 : plist s4 = [1; 3] /\ p_pgrp (ptab s4 3) = p_pgrp (ptab s4 1)).
    { unfold s3 in E4. vm_compute in E2. injection E2 as <-. vm_compute in E4. injection E4 as <- _. split; reflexivity. }
    destruct L4 as [L4 G4]. exists s4. split; [exact Hr|]. split; [exact L4|].
    apply (groups_stay_in_one_session tree3 s4 tree3_jobs tree3_family Hr 3 1).
    + rewrite L4. right. left.
    + rewrite L4. left.
    + left. exact G4.
  - exfalso. unfold s3 in E4. vm_compute in E2. injection E2 as <-. vm_compute in E4. discriminate.
Defined.

(** ** wait4 and the times of dead children *)

(** When the copy of the usage or of the status to the caller faults, wait4 reports
    EFAULT and leaves the zombie in place, but the zombie's times have already been
    added to the caller's: each repetition of the call adds them again. *)
Theorem failed_wait_counts_again rf sf rn sn t s :
  copy_status rf sf rn sn <> 0 -> t <> cur s ->
  let s1 := fst (wait_zombie rf sf rn sn t s) in
  let s2 := fst (wait_zombie rf sf rn sn t s1) in
  snd (wait_zombie rf sf rn sn t s) = - EFAULT /\ ptab s2 t = ptab s t /\ plist s2 = plist s /\
  p_cutime (ptab s2 (cur s)) = p_cutime (ptab s (cur s)) + 2 * (p_utime (ptab s t) + p_cutime (ptab s t)) /\
  p_cstime (ptab s2 (cur s)) = p_cstime (ptab s (cur s)) + 2 * (p_stime (ptab s t) + p_cstime (ptab s t)).
Proof.
  intros Hcs Hne. unfold wait_zombie. cbv zeta. rewrite (proj2 (Z.eqb_neq _ _) Hcs). cbn [negb fst snd].
  set (s1 := set_proc (cur s) _ s). change (cur s1) with (cur s). change (plist s1) with (plist s).
  assert (E1 : ptab s1 t = ptab s t) by (apply ptab_set_proc_ne; congruence). rewrite !E1.
  split; [|split; [by rewrite ptab_set_proc_ne|split; [done|]]].
  - revert Hcs. unfold copy_status. by destruct rn, rf, sn, sf.
  - rewrite ptab_set_proc_eq. unfold s1. rewrite ptab_set_proc_eq. cbn. split; lia.
Qed.

Lemma failed_wait_counts_again_witness :
  exists s, p_utime (ptab s 3) = 5 /\
    p_cutime (ptab (fst (wait_zombie false true true false 3 (fst (wait_zombie false true true false 3 s)))) 2) = 10.
Proof.
  exists (set_proc 3 (fun p => p <| p_utime := 5 |>) tree3). split; [reflexivity|].
  etransitivity; [apply (failed_wait_counts_again false true true false 3)|reflexivity]; discriminate.
Defined.
