(* ===== verification/User.v ===== *)
(** * The user cache (kernel/user.c) and its users

    One [user_struct] per uid counts the tasks of that user.  A chain of the hash
    table is the list of its entries from the head on; [ulive] is the set of objects
    taken from [uid_cachep].  The static [root_user] is not one of them.  The second
    half of the file holds the code of kernel/fork.c, kernel/exit.c and kernel/sys.c
    that moves references: a task holds one reference through [p->user]. *)
From stdpp Require Import base gmap list functions sets relations.
From S2P Require Import Prelude PidHash Sched.

Definition uptr : Type := Z.
Definition ROOT_USER : uptr := 0.

Definition __uidhashfn (uid : Z) : Z := Z.land (Z.lxor (Z.shiftr uid 8) uid) 255.

Record user_struct := UserStruct {
  u_count : Z;
  u_processes : Z;
  u_files : Z;
  u_uid : Z
}.
#[export] Instance eta_user_struct : Eta user_struct := fun u =>
  UserStruct (u_count u) (u_processes u) (u_files u) (u_uid u).

Record users := Users {
  utab : uptr -> user_struct;
  uidhash_table : Z -> list uptr;
  ulive : list uptr
}.
#[export] Instance eta_users : Eta users := fun s => Users (utab s) (uidhash_table s) (ulive s).

Definition set_ustruct (up : uptr) (f : user_struct -> user_struct) (s : users) : users := s <| utab ::= alter f up |>.
Definition on_count (f : Z -> Z) (up : uptr) : users -> users := set_ustruct up (fun u => u <| u_count ::= f |>).
Definition on_processes (f : Z -> Z) (up : uptr) : users -> users := set_ustruct up (fun u => u <| u_processes ::= f |>).

Definition uid_hash_insert (up : uptr) (h : Z) (s : users) : users :=
  s <| uidhash_table ::= alter (cons up) h |>.

Definition uid_hash_remove (up : uptr) (s : users) : users :=
  s <| uidhash_table ::= alter (filter (fun v => v <> up)) (__uidhashfn (u_uid (utab s up))) |>.

(** The loop of [uid_hash_find]. *)
Fixpoint uid_chain_find (s : users) (uid : Z) (l : list uptr) : option uptr :=
  match l with
  | [] => None
  | up :: l' => if negb (u_uid (utab s up) =? uid) then uid_chain_find s uid l' else Some up
  end.

Definition uid_hash_find (uid h : Z) (s : users) : users * option uptr :=
  match uid_chain_find s uid (uidhash_table s h) with
  | Some up => (on_count Z.succ up s, Some up)
  | None => (s, None)
  end.

(** [kmem_cache_free(uid_cachep, up)] *)
Definition ucache_free (up : uptr) (s : users) : users := s <| ulive ::= filter (fun v => v <> up) |>.

Definition free_uid (up : uptr) (s : users) : users :=
  let s := on_count Z.pred up s in
  if u_count (utab s up) =? 0 then ucache_free up (uid_hash_remove up s) else s.

(** [alloc_uid] after the allocation of [new]: the allocation may have slept, so the
    table is searched again. *)
Definition alloc_uid_late (uid : Z) (new : option uptr) (s : users) : users * option uptr :=
  match new with
  | None => (s, None)
  | Some up =>
      let s := set_ustruct up (fun _ => UserStruct 1 0 0 uid) (s <| ulive ::= cons up |>) in
      match uid_hash_find uid (__uidhashfn uid) s with
      | (s', Some old) => (ucache_free up s', Some old)
      | (s', None) => (uid_hash_insert up (__uidhashfn uid) s', Some up)
      end
  end.

(** [sleep] is what other tasks do to the table during the allocation. *)
Definition alloc_uid (uid : Z) (new : option uptr) (sleep : users -> users) (s : users) : users * option uptr :=
  match uid_hash_find uid (__uidhashfn uid) s with
  | (s', Some up) => (s', Some up)
  | (s', None) => alloc_uid_late uid new (sleep s')
  end.

(** [uid_cache_init] *)
Definition uid_cache_init (s : users) : users := uid_hash_insert ROOT_USER (__uidhashfn 0) s.

(** ** Tasks *)

(** The table with each task's [p->user]. *)
Record tusers := Tusers {
  cache : users;
  user_of : gmap tid uptr
}.
#[export] Instance eta_tusers : Eta tusers := fun s => Tusers (cache s) (user_of s).

(** do_fork: the limit and the new reference; [limit] is the soft RLIMIT_NPROC of the
    parent and [privileged] the two [capable] tests. *)
Definition fork_user (limit : Z) (privileged : bool) (parent child : tid) (s : tusers) : tusers * Z :=
  match user_of s !! parent with
  | None => (s, 0)
  | Some up =>
      if (limit <=? u_processes (utab (cache s) up)) && negb privileged then (s, - EAGAIN)
      else (s <| cache ::= fun c => on_processes Z.succ up (on_count Z.succ up c) |>
              <| user_of ::= <[child := up]> |>, 0)
  end.

(** release_task, and do_fork at [bad_fork_cleanup_count]. *)
Definition release_user (t : tid) (s : tusers) : tusers :=
  match user_of s !! t with
  | None => s
  | Some up => s <| cache ::= fun c => free_uid up (on_processes Z.pred up c) |> <| user_of ::= delete t |>
  end.

(** [set_user], without the uid itself: the result of [alloc_uid] replaces the
    reference of the task. *)
Definition set_user_ref (t : tid) (allocated : users * option uptr) (s : tusers) : tusers * Z :=
  match allocated with
  | (c, None) => (s <| cache := c |>, - EAGAIN)
  | (c, Some new_user) =>
      match user_of s !! t with
      | None => (s, 0)
      | Some old_user =>
          let c := on_processes Z.pred old_user (on_processes Z.succ new_user c) in
          (Tusers (free_uid old_user c) (<[t := new_user]> (user_of s)), 0)
      end
  end.

(** reparent_to_init: [current->user = INIT_USER]. *)
Definition reparent_user (t : tid) (s : tusers) : tusers := s <| user_of ::= <[t := ROOT_USER]> |>.
