(* ===== verification/UserTheorems.v ===== *)
(** * Reference counts of the user cache

    [cache_ok c refs procs]: the table is well formed, an entry's count is [refs] of it
    and its number of processes [procs]; an entry exists exactly while it is
    referenced. *)
From stdpp Require Import base gmap list functions sets relations.
From S2P Require Import Prelude PidHash Sched User.

(** [up] is in the chain of its uid. *)
Definition hashed (c : users) (up : uptr) : Prop := up ∈ uidhash_table c (__uidhashfn (u_uid (utab c up))).

Record cache_ok (c : users) (refs procs : uptr -> Z) : Prop := CacheOk {
  co_chain : forall h up, up ∈ uidhash_table c h -> h = __uidhashfn (u_uid (utab c up)) /\ 0 < refs up;
  co_refs : forall up, 0 < refs up -> hashed c up;
  co_live : forall up, up ∈ ulive c <-> hashed c up /\ up <> ROOT_USER;
  co_nodup : forall h, NoDup (uidhash_table c h);
  co_uid : forall up v, hashed c up -> hashed c v -> u_uid (utab c up) = u_uid (utab c v) -> up = v;
  co_count : forall up, hashed c up -> u_count (utab c up) = refs up /\ u_processes (utab c up) = procs up;
  co_bound : forall up, 0 <= procs up <= refs up;
  co_root : 0 < refs ROOT_USER
}.

Lemma cache_ok_ext c refs procs refs' procs' : cache_ok c refs procs ->
  (forall up, refs' up = refs up) -> (forall up, procs' up = procs up) -> cache_ok c refs' procs'.
Proof.
  intros [C1 C2 C3 C4 C5 C6 C7 C8] Hr Hp. split; intros; rewrite ?Hr, ?Hp in *; eauto.
Qed.

(** Updates that keep uids keep the table's shape. *)
Lemma utab_set up f c v : utab (set_ustruct up f c) v = if decide (up = v) then f (utab c up) else utab c v.
Proof. unfold set_ustruct. simpl. unfold alter, fn_alter. by case_decide. Qed.

Lemma uid_on up f c v : (forall u, u_uid (f u) = u_uid u) -> u_uid (utab (set_ustruct up f c) v) = u_uid (utab c v).
Proof. intros H. rewrite utab_set. case_decide; [subst v; apply H|done]. Qed.

Lemma hashed_on up f c v : (forall u, u_uid (f u) = u_uid u) -> hashed (set_ustruct up f c) v <-> hashed c v.
Proof. intros H. unfold hashed. by rewrite uid_on. Qed.

(** ** Counters *)

Lemma cache_update up f c refs procs refs' procs' : cache_ok c refs procs -> (forall u, u_uid (f u) = u_uid u) ->
  u_count (f (utab c up)) = refs' up /\ u_processes (f (utab c up)) = procs' up ->
  (forall v, v <> up -> refs' v = refs v /\ procs' v = procs v) ->
  0 < refs' up -> 0 <= procs' up <= refs' up -> 0 < refs up ->
  cache_ok (set_ustruct up f c) refs' procs'.
Proof.
  intros [C1 C2 C3 C4 C5 C6 C7 C8] Hf [Hc Hp] Ho H1 H2 H3.
  assert (Hpos : forall v, 0 < refs' v <-> 0 < refs v).
  { intros v. destruct (decide (v = up)) as [->|Hne]; [tauto|]. by destruct (Ho v Hne) as [-> _]. }
  split.
  - intros h v Hv. rewrite uid_on by done. rewrite Hpos. by apply C1.
  - intros v. rewrite Hpos, hashed_on by done. apply C2.
  - intros v. rewrite hashed_on by done. apply C3.
  - done.
  - intros v w. rewrite !hashed_on, !uid_on by done. apply C5.
  - intros v. rewrite hashed_on by done. intros Hv. rewrite utab_set. case_decide as D; [by subst v|].
    destruct (Ho v) as [-> ->]; [done|]. by apply C6.
  - intros v. destruct (decide (v = up)) as [->|Hne]; [done|]. destruct (Ho v Hne) as [-> ->]. apply C7.
  - by apply Hpos.
Qed.

Definition bump (d : Z) (up : uptr) (f : uptr -> Z) : uptr -> Z := fun v => if decide (v = up) then f v + d else f v.

Lemma bump_eq d up f : bump d up f up = f up + d.
Proof. unfold bump. by rewrite decide_True. Qed.
Lemma bump_ne d up f v : v <> up -> bump d up f v = f v.
Proof. intros. unfold bump. by rewrite decide_False. Qed.

Lemma count_succ_ok up c refs procs : cache_ok c refs procs -> 0 < refs up ->
  cache_ok (on_count Z.succ up c) (bump 1 up refs) procs.
Proof.
  intros Hc Hr. pose proof (co_bound _ _ _ Hc up). destruct (co_count _ _ _ Hc up) as [E1 E2]; [by apply (co_refs _ _ _ Hc)|].
  eapply cache_update; try done; simpl; rewrite ?bump_eq; try lia.
  intros v Hv. by rewrite bump_ne.
Qed.

Lemma processes_ok (g : Z -> Z) d up c refs procs : cache_ok c refs procs -> 0 < refs up ->
  (forall x, g x = x + d) -> 0 <= procs up + d <= refs up ->
  cache_ok (on_processes g up c) refs (bump d up procs).
Proof.
  intros Hc Hr Hg Hb. destruct (co_count _ _ _ Hc up) as [E1 E2]; [by apply (co_refs _ _ _ Hc)|].
  eapply cache_update; try done; simpl; rewrite ?bump_eq; try done.
  - split; [done|]. rewrite Hg, E2. done.
  - intros v Hv. by rewrite bump_ne.
Qed.

(** ** free_uid *)

Lemma chain_remove up c h : uidhash_table (uid_hash_remove up c) h =
  if decide (__uidhashfn (u_uid (utab c up)) = h) then filter (fun v => v <> up) (uidhash_table c h)
  else uidhash_table c h.
Proof. unfold uid_hash_remove. simpl. unfold alter, fn_alter. case_decide; by subst. Qed.

Lemma free_uid_ok up c refs procs : cache_ok c refs procs -> 0 < refs up -> procs up < refs up ->
  (up = ROOT_USER -> 1 < refs up) -> cache_ok (free_uid up c) (bump (-1) up refs) procs.
Proof.
  intros Hc Hr Hp Hroot. pose proof (co_bound _ _ _ Hc up) as Hb.
  destruct (co_count _ _ _ Hc up) as [E1 E2]; [by apply (co_refs _ _ _ Hc)|].
  unfold free_uid. cbv zeta. set (c1 := on_count Z.pred up c).
  assert (E : u_count (utab c1 up) = refs up - 1).
  { unfold c1, on_count. rewrite utab_set, decide_True by done. simpl. lia. }
  rewrite E. destruct (Z.eqb_spec (refs up - 1) 0) as [Hz|Hz].
  2:{ eapply cache_update; try done; simpl; rewrite ?bump_eq; try lia. intros v Hv. by rewrite bump_ne. }
  assert (Hne : up <> ROOT_USER) by (intros ->; specialize (Hroot eq_refl); lia).
  destruct Hc as [C1 C2 C3 C4 C5 C6 C7 C8].
  assert (U1 : forall v, u_uid (utab c1 v) = u_uid (utab c v)) by (intros v; unfold c1; by apply uid_on).
  set (c2 := ucache_free up (uid_hash_remove up c1)).
  assert (Hh : forall v, hashed c2 v <-> hashed c v /\ v <> up).
  { intros v. unfold hashed. change (uidhash_table c2) with (uidhash_table (uid_hash_remove up c1)).
    change (utab c2) with (utab c1). rewrite chain_remove, !U1.
    change (uidhash_table c1) with (uidhash_table c). case_decide as D.
    - rewrite <- D, list_elem_of_filter. tauto.
    - split; [|tauto]. intros Hv. split; [done|]. intros ->. done. }
  assert (Hch : forall h v, v ∈ uidhash_table c2 h -> v ∈ uidhash_table c h /\ v <> up).
  { intros h v Hv. change (v ∈ uidhash_table (uid_hash_remove up c1) h) in Hv. rewrite chain_remove, U1 in Hv.
    change (uidhash_table c1) with (uidhash_table c) in Hv. case_decide as D.
    - apply list_elem_of_filter in Hv. naive_solver.
    - split; [done|]. intros ->. by apply C1 in Hv as [? _]. }
  split.
  - intros h v [Hv Hvu]%Hch. rewrite bump_ne by done. change (utab c2 v) with (utab c1 v). rewrite U1. by apply C1.
  - intros v Hv. apply Hh. destruct (decide (v = up)) as [->|Hvu]; [rewrite bump_eq in Hv; lia|].
    rewrite bump_ne in Hv by done. auto.
  - intros v. rewrite Hh. unfold c2, ucache_free. simpl. rewrite list_elem_of_filter.
    change (ulive (uid_hash_remove up c1)) with (ulive c). rewrite C3. tauto.
  - intros h. change (NoDup (uidhash_table (uid_hash_remove up c1) h)). rewrite chain_remove.
    case_decide; [apply NoDup_filter|]; apply C4.
  - intros v w [Hv _]%Hh [Hw _]%Hh. change (utab c2) with (utab c1). rewrite !U1. by apply C5.
  - intros v [Hv Hvu]%Hh. change (utab c2 v) with (utab c1 v). unfold c1, on_count. rewrite utab_set, decide_False by done.
    rewrite bump_ne by done. by apply C6.
  - intros v. destruct (decide (v = up)) as [->|Hvu]; [rewrite bump_eq|rewrite bump_ne by done]; [lia|apply C7].
  - rewrite bump_ne by done. done.
Qed.

(** ** alloc_uid *)

Lemma chain_find_some c uid l up : uid_chain_find c uid l = Some up -> up ∈ l /\ u_uid (utab c up) = uid.
Proof.
  induction l as [|v l IH]; simpl; [done|]. destruct (Z.eqb_spec (u_uid (utab c v)) uid); simpl.
  - intros [= ->]. split; [by left|done].
  - intros [? ?]%IH. split; [by right|done].
Qed.

Lemma chain_find_none c uid l : uid_chain_find c uid l = None -> forall up, up ∈ l -> u_uid (utab c up) <> uid.
Proof.
  induction l as [|v l IH]; simpl; [intros _ up H; by apply not_elem_of_nil in H|].
  destruct (Z.eqb_spec (u_uid (utab c v)) uid); simpl; [done|]. intros H up [->|Hu]%elem_of_cons; [done|by apply IH].
Qed.

(** The allocator returns an object that is not in use. *)
Definition fresh_user (c : users) (new : option uptr) : Prop :=
  forall up, new = Some up -> up ∉ ulive c /\ up <> ROOT_USER.

Lemma chain_find_ext c c' uid l : (forall up, up ∈ l -> utab c' up = utab c up) ->
  uid_chain_find c' uid l = uid_chain_find c uid l.
Proof.
  induction l as [|v l IH]; intros H; [done|]. simpl. rewrite H by (by left).
  rewrite IH; [done|]. intros up Hu. apply H. by right.
Qed.

Lemma fresh_unhashed c refs procs up : cache_ok c refs procs -> up ∉ ulive c -> up <> ROOT_USER ->
  ~ hashed c up /\ refs up = 0 /\ procs up = 0 /\ forall h, up ∉ uidhash_table c h.
Proof.
  intros Hc H1 H2. assert (Hn : ~ hashed c up) by (intros Hh; apply H1, (co_live _ _ _ Hc); done).
  pose proof (co_bound _ _ _ Hc up). assert (~ 0 < refs up) by (intros ?%(co_refs _ _ _ Hc); done).
  split_and!; [done|lia|lia|]. intros h Hh. apply Hn. pose proof Hh as [-> _]%(co_chain _ _ _ Hc). done.
Qed.

(** The entry is found after all: the new object goes back. *)
Lemma alloc_hit_ok uid up x old c refs procs : cache_ok c refs procs ->
  ~ hashed c up -> up ∉ ulive c -> (forall h, up ∉ uidhash_table c h) ->
  old ∈ uidhash_table c (__uidhashfn uid) -> u_uid (utab c old) = uid ->
  let c' := ucache_free up (on_count Z.succ old (set_ustruct up (fun _ => x) (c <| ulive ::= cons up |>))) in
  cache_ok c' (bump 1 old refs) procs /\ u_uid (utab c' old) = uid.
Proof.
  intros Hc Hnh Hnl Hnc Hin Hu. cbv zeta.
  assert (Hho : hashed c old) by (unfold hashed; by rewrite Hu).
  assert (Hou : old <> up) by (intros ->; done).
  assert (Hro : 0 < refs old) by (by apply (co_chain _ _ _ Hc) in Hin as [_ ?]).
  pose proof (count_succ_ok old c refs procs Hc Hro) as [C1 C2 C3 C4 C5 C6 C7 C8].
  match goal with |- cache_ok ?x _ _ /\ _ => set (c2 := x) end.
  assert (T2 : forall v, v <> up -> utab c2 v = utab (on_count Z.succ old c) v).
  { intros v Hv. unfold c2, ucache_free, on_count. change (utab (update ulive ?g ?x)) with (utab x).
    rewrite !utab_set. case_decide; [subst v; by rewrite decide_False by done|by rewrite decide_False by done]. }
  assert (Hnc2 : forall h, up ∉ uidhash_table c2 h) by apply Hnc.
  assert (Hh2 : forall v, hashed c2 v <-> hashed (on_count Z.succ old c) v).
  { intros v. unfold hashed at 1 2. destruct (decide (v = up)) as [->|Hv].
    - split; intros []%Hnc.
    - by rewrite T2. }
  split; [|rewrite T2 by done; unfold on_count; rewrite uid_on by done; done]. split.
  - intros h v Hv. assert (v <> up) by (intros ->; by apply Hnc2 in Hv). rewrite T2 by done. by apply C1.
  - intros v Hv. apply Hh2. by apply C2.
  - intros v. rewrite Hh2, <- C3. unfold c2, ucache_free, on_count. simpl. rewrite filter_cons_False by tauto.
    rewrite list_elem_of_filter. split; [tauto|]. intros Hv. split; [by intros ->|done].
  - done.
  - intros v w Hv%Hh2 Hw%Hh2. assert (v <> up) by (intros ->; by apply Hnc in Hv).
    assert (w <> up) by (intros ->; by apply Hnc in Hw). rewrite !T2 by done. by apply C5.
  - intros v Hv%Hh2. assert (v <> up) by (intros ->; by apply Hnc in Hv). rewrite T2 by done. by apply C6.
  - done.
  - done.
Qed.

(** The uid has no entry: the new object becomes it. *)
Lemma alloc_miss_ok uid up c refs procs : cache_ok c refs procs -> up <> ROOT_USER ->
  ~ hashed c up -> refs up = 0 -> procs up = 0 -> (forall h, up ∉ uidhash_table c h) ->
  (forall v, v ∈ uidhash_table c (__uidhashfn uid) -> u_uid (utab c v) <> uid) ->
  let c' := uid_hash_insert up (__uidhashfn uid)
    (set_ustruct up (fun _ => UserStruct 1 0 0 uid) (c <| ulive ::= cons up |>)) in
  cache_ok c' (bump 1 up refs) procs /\ u_uid (utab c' up) = uid.
Proof.
  intros Hc Hnr Hnh R0 P0 Hnc Hnone. cbv zeta. destruct Hc as [C1 C2 C3 C4 C5 C6 C7 C8].
  match goal with |- cache_ok ?x _ _ /\ _ => set (c2 := x) end.
  assert (T2 : forall v, v <> up -> utab c2 v = utab c v).
  { intros v Hv. unfold c2, uid_hash_insert. change (utab (update uidhash_table ?g ?x)) with (utab x).
    rewrite utab_set. by rewrite decide_False by done. }
  assert (Tu : utab c2 up = UserStruct 1 0 0 uid).
  { unfold c2, uid_hash_insert. change (utab (update uidhash_table ?g ?x)) with (utab x).
    rewrite utab_set. by rewrite decide_True. }
  assert (Hch : forall h v, v ∈ uidhash_table c2 h <-> v ∈ uidhash_table c h \/ v = up /\ h = __uidhashfn uid).
  { intros h v. unfold c2, uid_hash_insert. simpl. unfold alter, fn_alter. case_decide as D.
    - subst h. rewrite elem_of_cons. tauto.
    - naive_solver. }
  assert (Hh2 : forall v, hashed c2 v <-> hashed c v \/ v = up).
  { intros v. unfold hashed at 1. rewrite Hch. destruct (decide (v = up)) as [->|Hv].
    - rewrite Tu. simpl. tauto.
    - rewrite T2 by done. unfold hashed. tauto. }
  split; [|by rewrite Tu]. split.
  - intros h v [Hv|[-> ->]]%Hch.
    + assert (v <> up) by (intros ->; by apply Hnc in Hv). rewrite T2, bump_ne by done. by apply C1.
    + rewrite Tu, bump_eq, R0. split; [done|lia].
  - intros v Hv. apply Hh2. destruct (decide (v = up)) as [->|Hne]; [by right|].
    rewrite bump_ne in Hv by done. left. by apply C2.
  - intros v. rewrite Hh2. unfold c2. simpl. rewrite elem_of_cons, C3. naive_solver.
  - intros h. unfold c2, uid_hash_insert. simpl. unfold alter, fn_alter. case_decide; [|apply C4].
    subst h. apply list.NoDup_cons. split; [apply Hnc|apply C4].
  - intros v w Hv%Hh2 Hw%Hh2. destruct Hv as [Hv| ->], Hw as [Hw| ->]; [| | |done].
    + assert (v <> up) by (intros ->; done). assert (w <> up) by (intros ->; done). rewrite !T2 by done. by apply C5.
    + assert (v <> up) by (intros ->; done). rewrite T2, Tu by done. intros E. exfalso. eapply Hnone; [|exact E].
      unfold hashed in Hv. by rewrite E in Hv.
    + assert (w <> up) by (intros ->; done). rewrite (T2 w), Tu by done. intros E. exfalso. simpl in E.
      eapply Hnone; [|symmetry; exact E]. unfold hashed in Hw. by rewrite <- E in Hw.
  - intros v [Hv| ->]%Hh2.
    + assert (v <> up) by (intros ->; done). rewrite T2, bump_ne by done. by apply C6.
    + rewrite Tu, bump_eq, R0, P0. done.
  - intros v. destruct (decide (v = up)) as [->|Hne]; [rewrite bump_eq|rewrite bump_ne by done]; [lia|apply C7].
  - rewrite bump_ne by done. done.
Qed.

Lemma alloc_late_ok uid new c c' r refs procs : cache_ok c refs procs -> fresh_user c new ->
  alloc_uid_late uid new c = (c', r) ->
  match r with
  | None => cache_ok c' refs procs
  | Some up => cache_ok c' (bump 1 up refs) procs /\ u_uid (utab c' up) = uid
  end.
Proof.
  intros Hc Hfr. unfold alloc_uid_late. destruct new as [up|]; [|by intros [= <- <-]].
  destruct (Hfr up eq_refl) as [Hnl Hnr]. destruct (fresh_unhashed c refs procs up Hc Hnl Hnr) as (Hnh & R0 & P0 & Hnc).
  cbv zeta. unfold uid_hash_find.
  rewrite (chain_find_ext c).
  2:{ intros v Hv. rewrite utab_set. rewrite decide_False; [done|]. intros <-. by apply Hnc in Hv. }
  change (uidhash_table (set_ustruct _ _ ?x)) with (uidhash_table x).
  change (uidhash_table (update ulive ?g c)) with (uidhash_table c).
  destruct (uid_chain_find c uid _) as [old|] eqn:Ef; intros [= <- <-].
  - apply chain_find_some in Ef as [Hin Hu]. by apply alloc_hit_ok.
  - apply alloc_miss_ok; try done. by apply chain_find_none.
Qed.

Lemma alloc_ok uid new c c' r refs procs : cache_ok c refs procs -> fresh_user c new ->
  alloc_uid uid new id c = (c', r) ->
  match r with
  | None => cache_ok c' refs procs
  | Some up => cache_ok c' (bump 1 up refs) procs /\ u_uid (utab c' up) = uid
  end.
Proof.
  intros Hc Hfr. unfold alloc_uid, uid_hash_find.
  destruct (uid_chain_find c uid _) as [up|] eqn:Ef; [|by apply alloc_late_ok].
  intros [= <- <-]. apply chain_find_some in Ef as [Hin Hu].
  split; [apply count_succ_ok; [done|]; by apply (co_chain _ _ _ Hc) in Hin as [_ ?]|].
  unfold on_count. by rewrite uid_on.
Qed.

(** ** References of tasks *)

(** The number of tasks of a user. *)
Definition holders (up : uptr) (m : gmap tid uptr) : Z := Z.of_nat (size (filter (fun kv => snd kv = up) m)).

Lemma holders_insert up m t v : m !! t = None ->
  holders up (<[t := v]> m) = (if decide (v = up) then 1 else 0) + holders up m.
Proof.
  intros Hm. unfold holders. rewrite map_filter_insert. simpl. case_decide as D.
  - rewrite map_size_insert_None; [lia|]. apply map_lookup_filter_None. by left.
  - rewrite delete_id by done. lia.
Qed.

Lemma holders_delete up m t v : m !! t = Some v ->
  holders up m = (if decide (v = up) then 1 else 0) + holders up (delete t m).
Proof.
  intros Hm. rewrite <- (holders_insert up (delete t m) t v) by apply lookup_delete_eq.
  by rewrite insert_delete_id.
Qed.

Lemma holders_replace up m t v w : m !! t = Some v ->
  holders up (<[t := w]> m) =
  holders up m - (if decide (v = up) then 1 else 0) + (if decide (w = up) then 1 else 0).
Proof.
  intros Hm. rewrite <- insert_delete_eq, holders_insert by apply lookup_delete_eq.
  rewrite (holders_delete up m t v Hm). lia.
Qed.

(** The swapper, task 0, holds [root_user] for ever. *)
Record tusers_ok (s : tusers) : Prop := TusersOk {
  to_cache : cache_ok (cache s) (fun up => holders up (user_of s)) (fun up => holders up (user_of s));
  to_swapper : user_of s !! 0 = Some ROOT_USER
}.

Lemma holders_nonneg up m : 0 <= holders up m.
Proof. unfold holders. lia. Qed.

Lemma held_pos m t up : m !! t = Some up -> 0 < holders up m.
Proof. intros H. rewrite (holders_delete up m t up H), decide_True by done. pose proof (holders_nonneg up (delete t m)). lia. Qed.

(** Dropping the reference of a task other than the swapper. *)
Lemma drop_root m t up : m !! 0 = Some ROOT_USER -> t <> 0 -> m !! t = Some up -> up = ROOT_USER -> 1 < holders up m.
Proof.
  intros H0 Ht Hup ->. rewrite (holders_delete _ m t _ Hup), decide_True by done.
  assert (0 < holders ROOT_USER (delete t m)); [|lia]. apply (held_pos _ 0). by rewrite lookup_delete_ne.
Qed.

Lemma fork_user_ok limit priv parent child s : tusers_ok s -> user_of s !! child = None ->
  tusers_ok (fst (fork_user limit priv parent child s)).
Proof.
  intros [Hc H0] Hn. unfold fork_user. destruct (user_of s !! parent) as [up|] eqn:Hp; [|done].
  destruct (_ && _); [done|]. pose proof (held_pos _ _ _ Hp) as Hr. split; simpl fst; cbn [cache user_of update].
  - eapply cache_ok_ext.
    + apply (processes_ok _ 1); [by apply count_succ_ok| | |].
      * rewrite bump_eq. lia.
      * intros x. lia.
      * rewrite bump_eq. lia.
    + intros v. unfold bump. cbv beta. rewrite holders_insert by done. repeat case_decide; subst; try done; lia.
    + intros v. unfold bump. cbv beta. rewrite holders_insert by done. repeat case_decide; subst; try done; lia.
  - simpl. rewrite lookup_insert_ne; [done|]. intros ->. congruence.
Qed.

Lemma release_user_ok t s : tusers_ok s -> t <> 0 -> tusers_ok (release_user t s).
Proof.
  intros [Hc H0] Ht. unfold release_user. destruct (user_of s !! t) as [up|] eqn:Hp; [|done].
  pose proof (held_pos _ _ _ Hp) as Hr. split; simpl.
  - eapply cache_ok_ext.
    + apply free_uid_ok; [apply (processes_ok _ (-1)); [done|done|intros x; lia|lia]|done| |].
      * rewrite bump_eq. lia.
      * by apply (drop_root _ t).
    + intros v. unfold bump. cbv beta. rewrite (holders_delete v (user_of s) t up Hp). repeat case_decide; subst; try done; lia.
    + intros v. unfold bump. cbv beta. rewrite (holders_delete v (user_of s) t up Hp). repeat case_decide; subst; try done; lia.
  - by rewrite lookup_delete_ne.
Qed.

Lemma set_user_ok t c r s : tusers_ok s -> t <> 0 ->
  match r with
  | None => cache_ok c (fun up => holders up (user_of s)) (fun up => holders up (user_of s))
  | Some up => cache_ok c (bump 1 up (fun up => holders up (user_of s))) (fun up => holders up (user_of s))
  end -> tusers_ok (fst (set_user_ref t (c, r) s)).
Proof.
  intros [Hc H0] Ht Hr. unfold set_user_ref. destruct r as [new|]; [|by split].
  destruct (user_of s !! t) as [old|] eqn:Hp; [|done]. pose proof (held_pos _ _ _ Hp) as Ho.
  pose proof (holders_nonneg new (user_of s)) as Hn. pose proof (drop_root _ t old H0 Ht Hp) as Hroot.
  split; simpl fst; cbn [cache user_of].
  - eapply cache_ok_ext.
    + apply free_uid_ok; [apply (processes_ok _ (-1)); [apply (processes_ok _ 1); [exact Hr| | |]| | |]| | |].
      all: unfold bump; intros; repeat case_decide; subst; try done; lia.
    + intros v. unfold bump. cbv beta. rewrite (holders_replace v (user_of s) t old new Hp). repeat case_decide; subst; try done; lia.
    + intros v. unfold bump. cbv beta. rewrite (holders_replace v (user_of s) t old new Hp). repeat case_decide; subst; try done; lia.
  - by rewrite lookup_insert_ne.
Qed.

(** ** Runs *)

(** The swapper forks tasks, tasks fork, change user and are released.  A change of
    user that slept in the allocator continues in [us_set_user_late].  Threads whose user is
    root call reparent_to_init; that one of another user does is left out, because then
    the counts go wrong ([reparent_breaks_counts]). *)
Inductive ustep (s : tusers) : tusers -> Prop :=
  | us_fork limit priv parent child : user_of s !! child = None -> ustep s (fst (fork_user limit priv parent child s))
  | us_release t : t <> 0 -> ustep s (release_user t s)
  | us_set_user t uid new : t <> 0 -> fresh_user (cache s) new ->
      ustep s (fst (set_user_ref t (alloc_uid uid new id (cache s)) s))
  | us_set_user_late t uid new : t <> 0 -> fresh_user (cache s) new ->
      ustep s (fst (set_user_ref t (alloc_uid_late uid new (cache s)) s))
  | us_reparent t : user_of s !! t = Some ROOT_USER -> ustep s (reparent_user t s).

(** After [uid_cache_init], with the swapper only. *)
Definition users_boot : tusers :=
  Tusers (uid_cache_init (Users (fun _ => UserStruct 1 1 0 0) (fun _ => []) [])) {[0 := ROOT_USER]}.

Lemma users_boot_ok : tusers_ok users_boot.
Proof.
  assert (Hh : forall up, holders up (user_of users_boot) = if decide (up = ROOT_USER) then 1 else 0).
  { intros up. cbn [users_boot user_of]. rewrite <- insert_empty, holders_insert by done.
    unfold holders. rewrite map_filter_empty, map_size_empty. repeat case_decide; subst; done. }
  assert (Hc : forall h up, up ∈ uidhash_table (cache users_boot) h <-> h = 0 /\ up = ROOT_USER).
  { intros h up. unfold users_boot, uid_cache_init, uid_hash_insert. simpl. unfold alter, fn_alter.
    change (__uidhashfn 0) with 0. case_decide as D; [subst h|]; set_solver. }
  split; [|done]. split.
  - intros h up [-> ->]%Hc. rewrite Hh. by rewrite decide_True.
  - intros up. rewrite Hh. case_decide; [subst up|lia]. intros _. by apply Hc.
  - intros up. split; [intros Hx; by apply not_elem_of_nil in Hx|]. intros [[_ ?]%Hc ?]. done.
  - intros h. unfold users_boot, uid_cache_init, uid_hash_insert. simpl. unfold alter, fn_alter.
    case_decide; [apply NoDup_singleton|apply NoDup_nil_2].
  - by intros up v [_ ->]%Hc [_ ->]%Hc.
  - intros up [_ ->]%Hc. rewrite Hh. by rewrite decide_True.
  - intros up. rewrite Hh. case_decide; lia.
  - rewrite Hh. by rewrite decide_True.
Qed.

Lemma ustep_ok s s' : tusers_ok s -> ustep s s' -> tusers_ok s'.
Proof.
  intros H [limit priv parent child Hn|t Ht|t uid new Ht Hf|t uid new Ht Hf|t Ht].
  - by apply fork_user_ok.
  - by apply release_user_ok.
  - destruct (alloc_uid uid new id (cache s)) as [c r] eqn:E. apply set_user_ok; [done|done|].
    eapply alloc_ok in E; [|apply H|done]. by destruct r; [destruct E|].
  - destruct (alloc_uid_late uid new (cache s)) as [c r] eqn:E. apply set_user_ok; [done|done|].
    eapply alloc_late_ok in E; [|apply H|done]. by destruct r; [destruct E|].
  - destruct H as [Hc H0]. split; unfold reparent_user; cbn [cache user_of update eta eta_tusers]; by rewrite insert_id.
Qed.

(** C14. In every state the system can reach from boot while only threads of root call
    reparent_to_init, the user cache is exact: a task's
    user structure is in the table under its uid, both its counts are the number of
    tasks that hold it, tasks with the same uid share it, and an allocated structure
    is held by some task (none is leaked or freed too early).  This covers changes of user
    that slept while another task added the same uid.  A thread of another user that calls
    reparent_to_init makes the counts wrong ([reparent_breaks_counts]). *)
Theorem user_cache_exact s : rtc ustep users_boot s ->
  (forall t up, user_of s !! t = Some up ->
     uid_chain_find (cache s) (u_uid (utab (cache s) up))
       (uidhash_table (cache s) (__uidhashfn (u_uid (utab (cache s) up)))) = Some up /\
     u_count (utab (cache s) up) = holders up (user_of s) /\
     u_processes (utab (cache s) up) = holders up (user_of s)) /\
  (forall t t' up up', user_of s !! t = Some up -> user_of s !! t' = Some up' ->
     u_uid (utab (cache s) up) = u_uid (utab (cache s) up') -> up = up') /\
  (forall up, up ∈ ulive (cache s) <-> up <> ROOT_USER /\ exists t, user_of s !! t = Some up).
Proof.
  intros Hr. assert (H : tusers_ok s).
  { assert (Hb := users_boot_ok). induction Hr as [|a b c Hab _ IH]; [done|]. apply IH. by eapply ustep_ok. }
  destruct H as [Hc H0].
  assert (Hh : forall t up, user_of s !! t = Some up -> hashed (cache s) up).
  { intros t up Hup. apply (co_refs _ _ _ Hc). by eapply held_pos. }
  split; [|split].
  - intros t up Hup. pose proof (Hh _ _ Hup) as Hi. split; [|by apply (co_count _ _ _ Hc)].
    destruct (uid_chain_find _ _ _) as [v|] eqn:E.
    + apply chain_find_some in E as [Hv Hu]. f_equal. apply (co_uid _ _ _ Hc); [|done|done].
      unfold hashed. by rewrite Hu.
    + by eapply chain_find_none in E.
  - intros t t' up up' H1 H2. apply (co_uid _ _ _ Hc); eauto.
  - intros up. rewrite (co_live _ _ _ Hc). split; [|intros [? [t Ht]]; eauto].
    intros [Hi Hne]. split; [done|]. pose proof (co_chain _ _ _ Hc _ _ Hi) as [_ Hpos].
    unfold holders in Hpos. destruct (map_choose (filter (fun kv => snd kv = up) (user_of s))) as (t & v & Hv).
    { intros E. rewrite E, map_size_empty in Hpos. lia. }
    apply map_lookup_filter_Some in Hv as [Hv E]. simpl in E. subst v. by exists t.
Qed.

(** Task 1 is forked and becomes user 1000, with the structure 7. *)
Lemma user_cache_exact_witness :
  exists s, rtc ustep users_boot s /\ user_of s !! 1 = Some 7 /\ u_count (utab (cache s) 7) = holders 7 (user_of s).
Proof.
  set (s1 := fst (fork_user 100 true 0 1 users_boot)).
  set (s2 := fst (set_user_ref 1 (alloc_uid 1000 (Some 7) id (cache s1)) s1)).
  assert (H : rtc ustep users_boot s2).
  { apply (rtc_l _ _ s1); [by apply us_fork|]. apply (rtc_l _ _ s2); [|apply rtc_refl].
    apply us_set_user; [done|]. intros up [= <-]. split; [apply not_elem_of_nil|done]. }
  exists s2. split; [exact H|]. split; [reflexivity|].
  apply (proj1 (user_cache_exact s2 H) 1 7). reflexivity.
Defined.

(** ** reparent_to_init *)

(** A kernel thread that a task of another user has started moves to [root_user] in
    [reparent_to_init] without any change of the counts: when it is gone, the
    user it came from is left with one process and one reference too many, and
    [root_user] has lost one of each. *)
Theorem reparent_breaks_counts limit parent child up s :
  user_of s !! parent = Some up -> up <> ROOT_USER -> u_count (utab (cache s) ROOT_USER) <> 1 ->
  let s1 := fst (fork_user limit true parent child s) in
  let s2 := release_user child (reparent_user child s1) in
  (forall t, t <> child -> user_of s2 !! t = user_of s !! t) /\ user_of s2 !! child = None /\
  u_count (utab (cache s2) up) = u_count (utab (cache s) up) + 1 /\
  u_processes (utab (cache s2) up) = u_processes (utab (cache s) up) + 1 /\
  u_count (utab (cache s2) ROOT_USER) = u_count (utab (cache s) ROOT_USER) - 1 /\
  u_processes (utab (cache s2) ROOT_USER) = u_processes (utab (cache s) ROOT_USER) - 1.
Proof.
  intros Hp Hne Hc. unfold fork_user. rewrite Hp, andb_false_r. cbn [fst]. cbv zeta.
  set (c1 := on_processes Z.succ up (on_count Z.succ up (cache s))).
  assert (E1 : utab c1 ROOT_USER = utab (cache s) ROOT_USER).
  { unfold c1, on_processes, on_count. rewrite !utab_set. by rewrite !decide_False by done. }
  assert (E2 : u_count (utab c1 up) = u_count (utab (cache s) up) + 1 /\
               u_processes (utab c1 up) = u_processes (utab (cache s) up) + 1).
  { unfold c1, on_processes, on_count. rewrite !utab_set. by rewrite !decide_True by done. }
  match goal with |- context [release_user child ?x] => set (s1 := x) end.
  assert (S1 : cache s1 = c1 /\ user_of s1 = <[child := ROOT_USER]> (<[child := up]> (user_of s))) by done.
  destruct S1 as [Sc Su]. clearbody s1. unfold release_user.
  replace (user_of s1 !! child) with (Some ROOT_USER) by (by rewrite Su, lookup_insert_eq).
  cbn [update cache user_of eta]. unfold free_uid. cbv zeta. rewrite Sc.
  set (c2 := on_count Z.pred ROOT_USER (on_processes Z.pred ROOT_USER c1)).
  assert (E3 : u_count (utab c2 ROOT_USER) = u_count (utab (cache s) ROOT_USER) - 1 /\
    u_processes (utab c2 ROOT_USER) = u_processes (utab (cache s) ROOT_USER) - 1 /\ utab c2 up = utab c1 up).
  { unfold c2, on_processes, on_count. rewrite !utab_set. rewrite !decide_True, !decide_False by done.
    cbn [update u_count u_processes eta]. rewrite E1. simpl. split_and!; [lia|lia|done]. }
  destruct E3 as (E3 & E4 & E5). rewrite (proj2 (Z.eqb_neq (u_count (utab c2 ROOT_USER)) 0)) by lia.
  change (cache (update user_of ?f (update cache ?g ?x))) with (g (cache x)) in *.
  split; [|split; [|rewrite E5; lia]].
  - intros t Ht. simpl. rewrite Su. by rewrite lookup_delete_ne, !lookup_insert_ne by done.
  - simpl. rewrite Su. apply lookup_delete_eq.
Qed.

Lemma reparent_breaks_counts_witness :
  let s0 := fst (fork_user 100 true 0 1 (fst (fork_user 100 true 0 2 users_boot))) in
  let s := fst (set_user_ref 1 (alloc_uid 1000 (Some 7) id (cache s0)) s0) in
  let s' := release_user 3 (reparent_user 3 (fst (fork_user 100 true 1 3 s))) in
  holders 7 (user_of s') = 1 /\ u_count (utab (cache s') 7) = 2.
Proof.
  cbv zeta. split; [vm_compute; reflexivity|].
  etransitivity; [apply (reparent_breaks_counts 100 1 3 7)|]; [reflexivity|discriminate| |reflexivity].
  vm_compute. discriminate.
Defined.
