(* ===== verification/Cred.v ===== *)
(** * Credentials: user and group ids, groups, capabilities
    (kernel/sys.c, kernel/capability.c)

    [ctab] is the store of task structures, [clist] the tasks [for_each_task]
    visits, [ccur] the running task.  [dumpable] belongs to the address space, which
    tasks may share.  [NO_ID] is [(uid_t) -1].  The user cache is that of [User]; here
    the allocation of an entry does not sleep. *)
From stdpp Require Import base gmap list functions.
From S2P Require Import Prelude PidHash Sched SchedCalls Proc User.

Definition NO_ID : Z := 4294967295.
Definition NGROUPS : Z := 32.
Definition _NSIG : Z := 64.
Definition CAP_SETGID : Z := 6.
Definition CAP_SETUID : Z := 7.
Definition CAP_SETPCAP : Z := 8.
Definition CAP_FS_MASK : Z := 31.
Definition _LINUX_CAPABILITY_VERSION : Z := 429392688.
Definition SECUREBITS_DEFAULT : Z := 0.
Definition SECURE_NO_SETUID_FIXUP : Z := 2.

Record cred := Cred {
  c_uid : Z; c_euid : Z; c_suid : Z; c_fsuid : Z;
  c_gid : Z; c_egid : Z; c_sgid : Z; c_fsgid : Z;
  c_ngroups : Z;
  c_groups : list Z;
  cap_effective : Z; cap_inheritable : Z; cap_permitted : Z;
  keep_capabilities : Z;
  c_flags : Z;
  c_pdeath_signal : Z;
  c_pid : Z;
  c_pgrp : Z;
  c_mm : Z
}.
#[export] Instance eta_cred : Eta cred := fun c =>
  Cred (c_uid c) (c_euid c) (c_suid c) (c_fsuid c) (c_gid c) (c_egid c) (c_sgid c) (c_fsgid c) (c_ngroups c)
    (c_groups c) (cap_effective c) (cap_inheritable c) (cap_permitted c) (keep_capabilities c) (c_flags c)
    (c_pdeath_signal c) (c_pid c) (c_pgrp c) (c_mm c).

Record ck := Ck {
  ctab : tid -> cred;
  clist : list tid;
  ccur : tid;
  cusers : tusers;
  dumpable : Z -> Z;
  securebits : Z
}.
#[export] Instance eta_ck : Eta ck := fun s =>
  Ck (ctab s) (clist s) (ccur s) (cusers s) (dumpable s) (securebits s).

Definition me (s : ck) : cred := ctab s (ccur s).
Definition set_cred (t : tid) (f : cred -> cred) (s : ck) : ck := s <| ctab ::= alter f t |>.
Definition set_me (f : cred -> cred) (s : ck) : ck := set_cred (ccur s) f s.
(** [current->mm->dumpable = v] *)
Definition set_dumpable (v : Z) (s : ck) : ck := s <| dumpable ::= <[c_mm (me s) := v]> |>.
Definition clear_dumpable_if (b : bool) (s : ck) : ck := if b then set_dumpable 0 s else s.

Definition issecure (x : Z) (s : ck) : bool :=
  if negb (Z.land (Z.shiftl 1 (x + 1)) SECUREBITS_DEFAULT =? 0)
  then negb (Z.land (Z.shiftl 1 x) SECUREBITS_DEFAULT =? 0)
  else negb (Z.land (Z.shiftl 1 x) (securebits s) =? 0).

Definition capable (cap : Z) (s : ck) : ck * bool :=
  if cap_raised (cap_effective (me s)) cap
  then (set_me (fun c => c <| c_flags ::= fun f => Z.lor f PF_SUPERPRIV |>) s, true)
  else (s, false).

(** [if (guard && !capable(cap))] *)
Definition lacks (guard : bool) (cap : Z) (s : ck) : ck * bool :=
  if guard then let '(s', ok) := capable cap s in (s', negb ok) else (s, false).

(** An id argument: [NO_ID] keeps the old value. *)
Definition given (id : Z) : bool := negb (id =? NO_ID).
Definition choose (id old : Z) : Z := if given id then id else old.

(** ** Group ids *)

Definition sys_setregid (rgid egid : Z) (s : ck) : ck * Z :=
  let old_rgid := c_gid (me s) in
  let old_egid := c_egid (me s) in
  let old_sgid := c_sgid (me s) in
  let '(s1, refused) := lacks (given rgid && negb ((old_rgid =? rgid) || (old_egid =? rgid))) CAP_SETGID s in
  if refused then (s1, - EPERM)
  else
    let '(s2, refused) := lacks (given egid && negb ((old_rgid =? egid) || (old_egid =? egid) ||
                                                     (old_sgid =? egid))) CAP_SETGID s1 in
    if refused then (s2, - EPERM)
    else
      let new_rgid := choose rgid old_rgid in
      let new_egid := choose egid old_egid in
      let s3 := clear_dumpable_if (negb (new_egid =? old_egid)) s2 in
      let save := given rgid || (given egid && negb (egid =? old_rgid)) in
      let s4 := if save then set_me (fun c => c <| c_sgid := new_egid |>) s3 else s3 in
      (set_me (fun c => c <| c_fsgid := new_egid |> <| c_egid := new_egid |> <| c_gid := new_rgid |>) s4, 0).

Definition sys_setgid (gid : Z) (s : ck) : ck * Z :=
  let old_egid := c_egid (me s) in
  let '(s1, ok) := capable CAP_SETGID s in
  if ok then
    (set_me (fun c => c <| c_fsgid := gid |> <| c_sgid := gid |> <| c_egid := gid |> <| c_gid := gid |>)
       (clear_dumpable_if (negb (old_egid =? gid)) s1), 0)
  else if (gid =? c_gid (me s1)) || (gid =? c_sgid (me s1)) then
    (set_me (fun c => c <| c_fsgid := gid |> <| c_egid := gid |>) (clear_dumpable_if (negb (old_egid =? gid)) s1), 0)
  else (s1, - EPERM).

(** Neither of the three ids. *)
Definition foreign (id a b c : Z) : bool := given id && negb (id =? a) && negb (id =? b) && negb (id =? c).

Definition sys_setresgid (rgid egid sgid : Z) (s : ck) : ck * Z :=
  let '(s1, ok) := capable CAP_SETGID s in
  let c := me s1 in
  if negb ok && (foreign rgid (c_gid c) (c_egid c) (c_sgid c) || foreign egid (c_gid c) (c_egid c) (c_sgid c) ||
                 foreign sgid (c_gid c) (c_egid c) (c_sgid c))
  then (s1, - EPERM)
  else
    let s2 := clear_dumpable_if (given egid && negb (egid =? c_egid c)) s1 in
    (set_me (fun c => c <| c_egid ::= choose egid |> <| c_fsgid := choose egid (c_egid c) |>
                        <| c_gid ::= choose rgid |> <| c_sgid ::= choose sgid |>) s2, 0).

Definition sys_setfsgid (gid : Z) (s : ck) : ck * Z :=
  let c := me s in
  let old_fsgid := c_fsgid c in
  let mine := (gid =? c_gid c) || (gid =? c_egid c) || (gid =? c_sgid c) || (gid =? c_fsgid c) in
  let '(s1, refused) := lacks (negb mine) CAP_SETGID s in
  if refused then (s1, old_fsgid)
  else (set_me (fun c => c <| c_fsgid := gid |>) (clear_dumpable_if (negb (gid =? old_fsgid)) s1), old_fsgid).

(** ** User ids *)

Definition cap_emulate_setxuid (old_ruid old_euid old_suid : Z) (c : cred) : cred :=
  let c1 := if ((old_ruid =? 0) || (old_euid =? 0) || (old_suid =? 0)) &&
               (negb (c_uid c =? 0) && negb (c_euid c =? 0) && negb (c_suid c =? 0)) &&
               (keep_capabilities c =? 0)
            then c <| cap_permitted := 0 |> <| cap_effective := 0 |> else c in
  let c2 := if (old_euid =? 0) && negb (c_euid c1 =? 0) then c1 <| cap_effective := 0 |> else c1 in
  if negb (old_euid =? 0) && (c_euid c2 =? 0) then c2 <| cap_effective := cap_permitted c2 |> else c2.

Section users.
(** The object [kmem_cache_alloc] returns to [alloc_uid]. *)
Context (new : option uptr).

Definition set_user (new_ruid : Z) (dumpclear : bool) (s : ck) : ck * Z :=
  match set_user_ref (ccur s) (alloc_uid new_ruid new id (cache (cusers s))) (cusers s) with
  | (u, 0) => (set_me (fun c => c <| c_uid := new_ruid |>) (clear_dumpable_if dumpclear (s <| cusers := u |>)), 0)
  | (u, err) => (s <| cusers := u |>, err)
  end.

(** [guard && set_user(...) < 0] *)
Definition set_user_fails (guard : bool) (new_ruid : Z) (dumpclear : bool) (s : ck) : ck * bool :=
  if guard then let '(s', err) := set_user new_ruid dumpclear s in (s', err <? 0) else (s, false).

Definition fixup (old_ruid old_euid old_suid : Z) (s : ck) : ck :=
  if negb (issecure SECURE_NO_SETUID_FIXUP s) then set_me (cap_emulate_setxuid old_ruid old_euid old_suid) s else s.

Definition sys_setreuid (ruid euid : Z) (s : ck) : ck * Z :=
  let old_ruid := c_uid (me s) in
  let old_euid := c_euid (me s) in
  let old_suid := c_suid (me s) in
  let '(s1, refused) := lacks (given ruid && negb (old_ruid =? ruid) && negb (old_euid =? ruid)) CAP_SETUID s in
  if refused then (s1, - EPERM)
  else
    let '(s2, refused) := lacks (given euid && negb (old_ruid =? euid) && negb (old_euid =? euid) &&
    negb (old_suid =? euid)) CAP_SETUID s1 in
    if refused then (s2, - EPERM)
    else
      let new_ruid := choose ruid old_ruid in
      let new_euid := choose euid old_euid in
      let '(s3, failed) := set_user_fails (negb (new_ruid =? old_ruid)) new_ruid (negb (new_euid =? old_euid)) s2 in
      if failed then (s3, - EAGAIN)
      else
        let s4 := clear_dumpable_if (negb (new_euid =? old_euid)) s3 in
        let s5 := set_me (fun c => c <| c_euid := new_euid |> <| c_fsuid := new_euid |>) s4 in
        let save := given ruid || (given euid && negb (euid =? old_ruid)) in
        let s6 := if save then set_me (fun c => c <| c_suid := c_euid c |>) s5 else s5 in
        (fixup old_ruid old_euid old_suid (set_me (fun c => c <| c_fsuid := c_euid c |>) s6), 0).

Definition sys_setuid (uid : Z) (s : ck) : ck * Z :=
  let old_ruid := c_uid (me s) in
  let old_euid := c_euid (me s) in
  let old_suid := c_suid (me s) in
  let finish (new_suid : Z) (s : ck) : ck * Z :=
  let s1 := clear_dumpable_if (negb (old_euid =? uid)) s in
  (fixup old_ruid old_euid old_suid
    (set_me (fun c => c <| c_euid := uid |> <| c_fsuid := uid |> <| c_suid := new_suid |>) s1), 0) in
  let '(s1, ok) := capable CAP_SETUID s in
  if ok then
    let '(s2, failed) := set_user_fails (negb (uid =? old_ruid)) uid (negb (old_euid =? uid)) s1 in
    if failed then (s2, - EAGAIN) else finish uid s2
  else if negb (uid =? c_uid (me s1)) && negb (uid =? old_suid) then (s1, - EPERM)
  else finish old_suid s1.

Definition sys_setresuid (ruid euid suid : Z) (s : ck) : ck * Z :=
  let old_ruid := c_uid (me s) in
  let old_euid := c_euid (me s) in
  let old_suid := c_suid (me s) in
  let '(s1, ok) := capable CAP_SETUID s in
  if negb ok && (foreign ruid old_ruid old_euid old_suid || foreign euid old_ruid old_euid old_suid ||
  foreign suid old_ruid old_euid old_suid)
  then (s1, - EPERM)
  else
    let '(s2, failed) := set_user_fails (given ruid && negb (ruid =? c_uid (me s1))) ruid
    (negb (euid =? c_euid (me s1))) s1 in
    if failed then (s2, - EAGAIN)
    else
      let s3 := clear_dumpable_if (given euid && negb (euid =? c_euid (me s2))) s2 in
      let s4 := set_me (fun c => c <| c_euid ::= choose euid |>) s3 in
      let s5 := set_me (fun c => c <| c_fsuid := c_euid c |> <| c_suid ::= choose suid |>) s4 in
      (fixup old_ruid old_euid old_suid s5, 0).
End users.

Definition sys_setfsuid (uid : Z) (s : ck) : ck * Z :=
  let c := me s in
  let old_fsuid := c_fsuid c in
  let mine := (uid =? c_uid c) || (uid =? c_euid c) || (uid =? c_suid c) || (uid =? c_fsuid c) in
  let '(s1, refused) := lacks (negb mine) CAP_SETUID s in
  let s2 := if refused then s1
            else set_me (fun c => c <| c_fsuid := uid |>) (clear_dumpable_if (negb (uid =? old_fsuid)) s1) in
  let s3 := if negb (issecure SECURE_NO_SETUID_FIXUP s2) then
              let s := if (old_fsuid =? 0) && negb (c_fsuid (me s2) =? 0)
                       then set_me (fun c => c <| cap_effective ::= fun e => Z.ldiff e CAP_FS_MASK |>) s2 else s2 in
              if negb (old_fsuid =? 0) && (c_fsuid (me s) =? 0)
              then set_me (fun c => c <| cap_effective ::= fun e => Z.lor e (Z.land (cap_permitted c) CAP_FS_MASK) |>) s
              else s
            else s2 in
  (s3, old_fsuid).

(** Three [put_user], each of which may fault: the result and what was written. *)
Definition put3 (f1 f2 f3 : bool) (a b c : Z) : Z * list Z :=
  if f1 then (- EFAULT, []) else if f2 then (- EFAULT, [a]) else if f3 then (- EFAULT, [a; b]) else (0, [a; b; c]).

Definition sys_getresuid (f1 f2 f3 : bool) (s : ck) : Z * list Z :=
  put3 f1 f2 f3 (c_uid (me s)) (c_euid (me s)) (c_suid (me s)).
Definition sys_getresgid (f1 f2 f3 : bool) (s : ck) : Z * list Z :=
  put3 f1 f2 f3 (c_gid (me s)) (c_egid (me s)) (c_sgid (me s)).

(** ** Supplementary groups *)

(** The result and the groups copied to user space. *)
Definition sys_getgroups (gidsetsize : Z) (fault : bool) (s : ck) : Z * list Z :=
  if gidsetsize <? 0 then (- EINVAL, [])
  else
    let i := c_ngroups (me s) in
    if gidsetsize =? 0 then (i, [])
    else if gidsetsize <? i then (- EINVAL, [])
    else if fault then (- EFAULT, []) else (i, take (Z.to_nat i) (c_groups (me s))).

(** [copy_from_user] of [n] words: from the first word that cannot be read on, the
    destination is filled with zeroes. *)
Fixpoint copy_from_user (n : nat) (src : list (option Z)) : list Z * bool :=
  match n, src with
  | O, _ => ([], false)
  | S n', Some v :: src' => let '(l, fault) := copy_from_user n' src' in (v :: l, fault)
  | S n', _ => (replicate n 0, true)
  end.

Definition sys_setgroups (gidsetsize : Z) (grouplist : list (option Z)) (s : ck) : ck * Z :=
  let '(s1, ok) := capable CAP_SETGID s in
  if negb ok then (s1, - EPERM)
  else if NGROUPS <? u32 gidsetsize then (s1, - EINVAL)
  else
    let '(l, fault) := copy_from_user (Z.to_nat gidsetsize) grouplist in
    let s2 := set_me (fun c => c <| c_groups ::= fun g => l ++ drop (length l) g |>) s1 in
    if fault then (s2, - EFAULT) else (set_me (fun c => c <| c_ngroups := gidsetsize |>) s2, 0).

Fixpoint group_loop (i : nat) (groups : list Z) (grp : Z) : bool :=
  match i, groups with
  | S i', g :: groups' => if g =? grp then true else group_loop i' groups' grp
  | _, _ => false
  end.
Definition supplemental_group_member (grp : Z) (s : ck) : bool :=
  group_loop (Z.to_nat (c_ngroups (me s))) (c_groups (me s)) grp.
Definition in_group_p (grp : Z) (s : ck) : bool :=
  if negb (grp =? c_fsgid (me s)) then supplemental_group_member grp s else true.
Definition in_egroup_p (grp : Z) (s : ck) : bool :=
  if negb (grp =? c_egid (me s)) then supplemental_group_member grp s else true.

(** ** prctl *)

(** The result and the word written to user space; [fault] is [put_user]'s. *)
Definition sys_prctl (option arg2 : Z) (fault : bool) (s : ck) : ck * Z * list Z :=
  if option =? 1 (* PR_SET_PDEATHSIG *) then
    let sig := s32 arg2 in
    if (sig <? 0) || (_NSIG <? sig) then (s, - EINVAL, [])
    else (set_me (fun c => c <| c_pdeath_signal := sig |>) s, 0, [])
  else if option =? 2 (* PR_GET_PDEATHSIG *) then
    if fault then (s, - EFAULT, []) else (s, 0, [c_pdeath_signal (me s)])
  else if option =? 3 (* PR_GET_DUMPABLE *) then
    (s, if negb (dumpable s (c_mm (me s)) =? 0) then 1 else 0, [])
  else if option =? 4 (* PR_SET_DUMPABLE *) then
    if negb (arg2 =? 0) && negb (arg2 =? 1) then (s, - EINVAL, []) else (set_dumpable arg2 s, 0, [])
  else if option =? 7 (* PR_GET_KEEPCAPS *) then
    (s, if negb (keep_capabilities (me s) =? 0) then 1 else 0, [])
  else if option =? 8 (* PR_SET_KEEPCAPS *) then
    if negb (arg2 =? 0) && negb (arg2 =? 1) then (s, - EINVAL, [])
    else (set_me (fun c => c <| keep_capabilities := arg2 |>) s, 0, [])
  else (s, - EINVAL, []).

(** ** Capabilities (kernel/capability.c) *)

Definition cap_combine (a b : Z) : Z := Z.lor a b.
Definition cap_issubset (a b : Z) : bool := Z.ldiff a b =? 0.

Definition set_caps (effective inheritable permitted : Z) (c : cred) : cred :=
  c <| cap_effective := effective |> <| cap_inheritable := inheritable |> <| cap_permitted := permitted |>.

(** reparent_to_init: the capabilities of a kernel thread. *)
Definition CAP_INIT_EFF_SET : Z := Z.ldiff (2 ^ 32 - 1) (Z.shiftl 1 CAP_SETPCAP).
Definition reparent_cred (c : cred) : cred := set_caps CAP_INIT_EFF_SET 0 (2 ^ 32 - 1) c <| keep_capabilities := 0 |>.

Definition cap_set_pg (pgrp effective inheritable permitted : Z) (s : ck) : ck :=
  fold_left (fun s t => if negb (c_pgrp (ctab s t) =? pgrp) then s
                        else set_cred t (set_caps effective inheritable permitted) s) (clist s) s.

Definition cap_set_all (effective inheritable permitted : Z) (s : ck) : ck :=
  fold_left (fun s t => if (t =? ccur s) || (c_pid (ctab s t) =? 1) then s
                        else set_cred t (set_caps effective inheritable permitted) s) (clist s) s.

(** The header: its version and pid words, [None] when they cannot be read, and
    whether the version can be written back; the version written, if any, is
    [_LINUX_CAPABILITY_VERSION]. *)
Record cap_header := CapHeader {
  h_version : option Z;
  h_writable : bool;
  h_pid : option Z
}.

Section find.
(** [find_task_by_pid] *)
Context (find : Z -> option tid).


(** The result and the three sets copied to [dataptr]. *)
Definition sys_capget (h : cap_header) (fault : bool) (s : ck) : Z * option (Z * Z * Z) :=
  match h_version h with
  | None => (- EFAULT, None)
  | Some version =>
      if negb (version =? _LINUX_CAPABILITY_VERSION)
      then (if h_writable h then - EINVAL else - EFAULT, None)
      else match h_pid h with
      | None => (- EFAULT, None)
      | Some pid =>
          if pid <? 0 then (- EINVAL, None)
          else
            match (if negb (pid =? 0) && negb (pid =? c_pid (me s)) then find pid else Some (ccur s)) with
            | None => (- ESRCH, None)
            | Some target =>
                let c := ctab s target in
                if fault then (- EFAULT, None)
                else (0, Some (cap_permitted c, cap_inheritable c, cap_effective c))
            end
      end
  end.

(** [data] holds the effective, inheritable and permitted sets, [None] when one of
    them cannot be read. *)
Definition sys_capset (h : cap_header) (data : option (Z * Z * Z)) (s : ck) : ck * Z :=
  match h_version h with
  | None => (s, - EFAULT)
  | Some version =>
      if negb (version =? _LINUX_CAPABILITY_VERSION)
      then (s, if h_writable h then - EINVAL else - EFAULT)
      else match h_pid h with
      | None => (s, - EFAULT)
      | Some pid =>
          let '(s, refused) := lacks (negb (pid =? 0)) CAP_SETPCAP s in
          if refused then (s, - EPERM)
          else match data with
          | None => (s, - EFAULT)
          | Some (effective, inheritable, permitted) =>
              match (if (0 <? pid) && negb (pid =? c_pid (me s)) then find pid else Some (ccur s)) with
              | None => (s, - ESRCH)
              | Some target =>
                  if negb (cap_issubset inheritable
                  (cap_combine (cap_inheritable (ctab s target)) (cap_permitted (me s)))) ||
                  negb (cap_issubset permitted
                  (cap_combine (cap_permitted (ctab s target)) (cap_permitted (me s)))) ||
                  negb (cap_issubset effective permitted)
                  then (s, - EPERM)
                  else if pid <? 0 then
                    (if pid =? -1 then cap_set_all effective inheritable permitted s
                    else cap_set_pg (- pid) effective inheritable permitted s, 0)
                  else (set_cred target (set_caps effective inheritable permitted) s, 0)
              end
          end
      end
  end.
End find.

(** ** The credentials of a new program (fs/exec.c) *)

Definition SECURE_NOROOT : Z := 0.
Definition CAP_FULL_SET : Z := 4294967295.
Definition S_ISUID : Z := 2048.
Definition S_ISGID : Z := 1024.
Definition S_IXGRP : Z := 8.
Definition cap_intersect (a b : Z) : Z := Z.land a b.

(** The credentials in [struct linux_binprm]. *)
Record linux_binprm := Binprm {
  e_uid : Z;
  e_gid : Z;
  b_inheritable : Z;
  b_permitted : Z;
  b_effective : Z
}.

(** What the code reads of the file: its mode and owner, whether it was mounted with
    MNT_NOSUID, and whether it has file operations. *)
Record exec_file := ExecFile {
  i_mode : Z;
  i_uid : Z;
  i_gid : Z;
  mnt_nosuid : bool;
  f_op : bool
}.

(** The first bytes of the file, which [kernel_read] reads at the end, play no part here. *)
Definition prepare_binprm (file : exec_file) (s : ck) : linux_binprm + Z :=
  if Z.land (i_mode file) 73 =? 0 then inr (- EACCES)
  else if negb (f_op file) then inr (- EACCES)
  else
    let suid := negb (mnt_nosuid file) && negb (Z.land (i_mode file) S_ISUID =? 0) in
    let sgid := negb (mnt_nosuid file) && (Z.land (i_mode file) (Z.lor S_ISGID S_IXGRP) =? Z.lor S_ISGID S_IXGRP) in
    let uid := if suid then i_uid file else c_euid (me s) in
    let gid := if sgid then i_gid file else c_egid (me s) in
    let root := negb (issecure SECURE_NOROOT s) in
    let raise := if root && ((uid =? 0) || (c_uid (me s) =? 0)) then CAP_FULL_SET else 0 in
    inl (Binprm uid gid raise raise (if root && (uid =? 0) then CAP_FULL_SET else 0)).

(** [bset] is [cap_bset]; [watched]: the task is traced by one without CAP_SYS_PTRACE, or shares its
    files, directories or signal handlers. *)
Definition compute_creds (b : linux_binprm) (bset : Z) (watched : bool) (s : ck) : ck :=
  let new_permitted := cap_combine (cap_intersect (b_permitted b) bset)
                         (cap_intersect (b_inheritable b) (cap_inheritable (me s))) in
  let '(s1, uid, gid, new_permitted) :=
    if negb (e_uid b =? c_uid (me s)) || negb (e_gid b =? c_gid (me s)) ||
       negb (cap_issubset new_permitted (cap_permitted (me s)))
    then
      let s1 := set_dumpable 0 s in
      if watched then
        let '(s2, may_setuid) := capable CAP_SETUID s1 in
        let '(s3, may_setpcap) := capable CAP_SETPCAP s2 in
        (s3, if may_setuid then e_uid b else c_uid (me s), if may_setuid then e_gid b else c_gid (me s),
         if may_setpcap then new_permitted else cap_intersect new_permitted (cap_permitted (me s)))
      else (s1, e_uid b, e_gid b, new_permitted)
    else (s, e_uid b, e_gid b, new_permitted) in
  let s2 := if negb (c_pid (me s1) =? 1)
            then set_me (fun c => c <| cap_permitted := new_permitted |>
                                    <| cap_effective := cap_intersect new_permitted (b_effective b) |>) s1
            else s1 in
  set_me (fun c => c <| c_suid := uid |> <| c_euid := uid |> <| c_fsuid := uid |> <| c_sgid := gid |> <| c_egid := gid |>
                     <| c_fsgid := gid |> <| keep_capabilities := 0 |>) s2.

(** The credentials after an execve that gets as far as [compute_creds]. *)
Definition exec_creds (file : exec_file) (bset : Z) (watched : bool) (s : ck) : ck * Z :=
  match prepare_binprm file s with
  | inr err => (s, err)
  | inl b => (compute_creds b bset watched s, 0)
  end.

(** Reads of user memory that all succeed. *)
Lemma copy_from_user_all l tl : copy_from_user (length l) ((Some <$> l) ++ tl) = (l, false).
Proof. induction l as [|v l IH]; [done|]. csimpl. by rewrite IH. Qed.
