(* ===== verification/CredInv.v ===== *)
(** * How the calls change credentials

    [evolves c c']: what the credentials of a task can become in one call of its own. *)
From stdpp Require Import base gmap list functions sets.
From S2P Require Import Prelude PidHash Sched SchedCalls Proc User Cred.

(** ** Capability sets *)

Definition cap_sub (a b : Z) : Prop := Z.ldiff a b = 0.

Lemma cap_sub_bits a b : cap_sub a b <-> forall i, 0 <= i -> Z.testbit a i = true -> Z.testbit b i = true.
Proof.
  unfold cap_sub. split.
  - intros H i Hi Ha. assert (E : Z.testbit (Z.ldiff a b) i = false) by (rewrite H; apply Z.bits_0).
    rewrite Z.ldiff_spec, Ha in E by done. by destruct (Z.testbit b i).
  - intros H. apply Z.bits_inj'. intros i Hi. rewrite Z.ldiff_spec, Z.bits_0 by done.
    destruct (Z.testbit a i) eqn:Ha; [|done]. by rewrite (H i Hi Ha).
Qed.

#[export] Instance cap_sub_preorder : PreOrder cap_sub.
Proof.
  split; [intros a; apply Z.ldiff_diag|]. intros a b c. rewrite !cap_sub_bits. auto.
Qed.

Lemma cap_sub_0 a : cap_sub 0 a.
Proof. apply Z.ldiff_0_l. Qed.

Lemma cap_sub_lor a b c : cap_sub (Z.lor a b) c <-> cap_sub a c /\ cap_sub b c.
Proof.
  rewrite !cap_sub_bits. setoid_rewrite Z.lor_spec. setoid_rewrite orb_true_iff. naive_solver.
Qed.

Lemma cap_sub_lor_l a b c : cap_sub a b -> cap_sub a (Z.lor b c).
Proof. rewrite !cap_sub_bits. setoid_rewrite Z.lor_spec. setoid_rewrite orb_true_iff. naive_solver. Qed.
Lemma cap_sub_lor_r a b c : cap_sub a c -> cap_sub a (Z.lor b c).
Proof. rewrite Z.lor_comm. apply cap_sub_lor_l. Qed.
Lemma cap_sub_land a b c : cap_sub a c -> cap_sub (Z.land a b) c.
Proof. rewrite !cap_sub_bits. setoid_rewrite Z.land_spec. setoid_rewrite andb_true_iff. naive_solver. Qed.
Lemma cap_sub_ldiff a b c : cap_sub a c -> cap_sub (Z.ldiff a b) c.
Proof. rewrite !cap_sub_bits. intros H i Hi. rewrite Z.ldiff_spec, andb_true_iff by done. intros [? _]. auto. Qed.
Lemma cap_sub_refl a : cap_sub a a.
Proof. reflexivity. Qed.
#[export] Hint Resolve cap_sub_0 cap_sub_refl cap_sub_lor_l cap_sub_lor_r cap_sub_land cap_sub_ldiff : kernel.

Lemma issubset_sub a b : cap_issubset a b = true <-> cap_sub a b.
Proof. unfold cap_issubset, cap_sub. apply Z.eqb_eq. Qed.

Lemma raised_bit c cap : 0 <= cap -> cap_raised c cap = Z.testbit c cap.
Proof.
  intros H. unfold cap_raised. rewrite Z.shiftl_1_l.
  destruct (Z.testbit c cap) eqn:E.
  - apply negb_true_iff, Z.eqb_neq. intros E0. assert (F : Z.testbit (Z.land c (2 ^ cap)) cap = false) by (rewrite E0; apply Z.bits_0).
    rewrite Z.land_spec, E, Z.pow2_bits_true in F by done. done.
  - apply negb_false_iff, Z.eqb_eq. apply Z.bits_inj'. intros i Hi. rewrite Z.land_spec, Z.bits_0.
    destruct (decide (i = cap)) as [->|Hne]; [by rewrite E|]. rewrite Z.pow2_bits_false by done. apply andb_false_r.
Qed.

Lemma raised_sub a b cap : 0 <= cap -> cap_sub a b -> cap_raised b cap = false -> cap_raised a cap = false.
Proof.
  intros H. rewrite !raised_bit, cap_sub_bits by done. intros Hs Hb.
  destruct (Z.testbit a cap) eqn:E; [|done]. rewrite (Hs cap H E) in Hb. done.
Qed.

Lemma raised_lor a b cap : 0 <= cap -> cap_raised (Z.lor a b) cap = cap_raised a cap || cap_raised b cap.
Proof. intros. rewrite !raised_bit by done. apply Z.lor_spec. Qed.

(** ** The running task *)

Lemma ctab_set_cred t f s u : ctab (set_cred t f s) u = if decide (t = u) then f (ctab s t) else ctab s u.
Proof. unfold set_cred. simpl. unfold alter, fn_alter. by case_decide. Qed.

Lemma me_set_me f s : me (set_me f s) = f (me s).
Proof. unfold set_me, me. change (ccur (set_cred (ccur s) f s)) with (ccur s). by rewrite ctab_set_cred, decide_True. Qed.

Lemma me_dump b s : me (clear_dumpable_if b s) = me s.
Proof. by destruct b. Qed.

(** Everything but the flags. *)
Definition sans (c : cred) : cred := c <| c_flags := 0 |>.

Lemma capable_spec cap s s' b : capable cap s = (s', b) ->
  b = cap_raised (cap_effective (me s)) cap /\ sans (me s') = sans (me s) /\ ccur s' = ccur s /\
  securebits s' = securebits s.
Proof. unfold capable. destruct (cap_raised _ _) eqn:E; intros [= <- <-]; [by rewrite me_set_me|done]. Qed.

Lemma lacks_spec g cap s s' r : lacks g cap s = (s', r) ->
  r = g && negb (cap_raised (cap_effective (me s)) cap) /\ sans (me s') = sans (me s) /\ ccur s' = ccur s /\
  securebits s' = securebits s.
Proof.
  unfold lacks. destruct g; [|by intros [= <- <-]]. destruct (capable cap s) as [s1 b] eqn:E. intros [= <- <-].
  destruct (capable_spec _ _ _ _ E) as (-> & H). done.
Qed.

(** A task's ids. *)
Definition uids (c : cred) : list Z := [c_uid c; c_euid c; c_suid c; c_fsuid c].
Definition gids (c : cred) : list Z := [c_gid c; c_egid c; c_sgid c; c_fsgid c].

Record evolves (c c' : cred) : Prop := Evolves {
  ev_uid : cap_raised (cap_effective c) CAP_SETUID = false -> forall x, x ∈ uids c' -> x ∈ uids c;
  ev_gid : cap_raised (cap_effective c) CAP_SETGID = false -> forall x, x ∈ gids c' -> x ∈ gids c;
  ev_permitted : cap_sub (cap_permitted c') (cap_permitted c);
  ev_effective : cap_sub (cap_effective c') (Z.lor (cap_effective c) (cap_permitted c));
  ev_within : cap_sub (cap_effective c) (cap_permitted c) -> cap_sub (cap_effective c') (cap_permitted c');
  ev_inheritable : cap_sub (cap_inheritable c') (Z.lor (cap_inheritable c) (cap_permitted c))
}.

Lemma sans_proj c c' : sans c' = sans c ->
  uids c' = uids c /\ gids c' = gids c /\ cap_effective c' = cap_effective c /\
  cap_permitted c' = cap_permitted c /\ cap_inheritable c' = cap_inheritable c /\
  keep_capabilities c' = keep_capabilities c.
Proof.
  intros H. pose proof (f_equal uids H) as H1. pose proof (f_equal gids H) as H2.
  pose proof (f_equal cap_effective H). pose proof (f_equal cap_permitted H).
  pose proof (f_equal cap_inheritable H). by pose proof (f_equal keep_capabilities H).
Qed.

Lemma evolves_sans c c1 c2 : sans c1 = sans c -> evolves c1 c2 -> evolves c c2.
Proof.
  intros (E1 & E2 & E3 & E4 & E5 & _)%sans_proj [V1 V2 V3 V4 V5 V6].
  rewrite E1, E2, E3, E4, E5 in *. by split.
Qed.

Lemma evolves_refl c c' : sans c' = sans c -> evolves c c'.
Proof.
  intros (E1 & E2 & E3 & E4 & E5 & _)%sans_proj. split; rewrite ?E1, ?E2, ?E3, ?E4, ?E5; eauto with kernel.
Qed.

(** A change of ids that leaves the capabilities alone. *)
Lemma evolves_ids c c' :
  (cap_raised (cap_effective c) CAP_SETUID = false -> forall x, x ∈ uids c' -> x ∈ uids c) ->
  (cap_raised (cap_effective c) CAP_SETGID = false -> forall x, x ∈ gids c' -> x ∈ gids c) ->
  cap_effective c' = cap_effective c -> cap_permitted c' = cap_permitted c ->
  cap_inheritable c' = cap_inheritable c -> evolves c c'.
Proof. intros H1 H2 H3 H4 H5. split; rewrite ?H3, ?H4, ?H5; eauto with kernel. Qed.

(** The repair of the capabilities after a change of uid. *)
Lemma emulate_spec r e u c : let c' := cap_emulate_setxuid r e u c in
  uids c' = uids c /\ gids c' = gids c /\ cap_inheritable c' = cap_inheritable c /\
  (cap_permitted c' = cap_permitted c /\
     (cap_effective c' = cap_effective c \/ cap_effective c' = 0 \/ cap_effective c' = cap_permitted c) \/
   cap_permitted c' = 0 /\ cap_effective c' = 0).
Proof.
  cbv zeta. unfold cap_emulate_setxuid. destruct (_ && (keep_capabilities c =? 0)); cbv zeta;
    repeat (match goal with |- context [if ?b then _ else _] => destruct b end);
    (split; [done|split; [done|split; [done|]]]); simpl; tauto.
Qed.

Lemma evolves_emulate r e u c c' : evolves c c' -> evolves c (cap_emulate_setxuid r e u c').
Proof.
  intros [V1 V2 V3 V4 V5 V6]. destruct (emulate_spec r e u c') as (E1 & E2 & E3 & [(E4 & E5)|(E4 & E5)]).
  - split; rewrite ?E1, ?E2, ?E3, ?E4; auto.
    + destruct E5 as [->|[->| ->]]; eauto with kernel.
    + intros H. destruct E5 as [->|[->| ->]]; eauto with kernel.
  - split; rewrite ?E1, ?E2, ?E3, ?E4, ?E5; auto with kernel.
Qed.

Lemma evolves_fixup r e u c s : evolves c (me s) -> evolves c (me (fixup r e u s)).
Proof. intros H. unfold fixup. destruct (negb _); [|done]. rewrite me_set_me. by apply evolves_emulate. Qed.

(** ** Each call *)

Lemma choose_in id old (l : list Z) : old ∈ l -> (given id = true -> id ∈ l) -> choose id old ∈ l.
Proof. unfold choose. destruct (given id); auto. Qed.

Lemma in4 (x a b c d : Z) : x ∈ [a; b; c; d] <-> x = a \/ x = b \/ x = c \/ x = d.
Proof. set_solver. Qed.

(** The ids of the caller, when no privilege is used. *)
Lemma mine2 id a b (l : list Z) : given id && negb ((a =? id) || (b =? id)) = false -> a ∈ l -> b ∈ l ->
  given id = true -> id ∈ l.
Proof. intros H Ha Hb Hg. rewrite Hg in H. simpl in H. b2p. destruct H as [H|H]; b2p; by subst. Qed.

Lemma mine3 id a b c (l : list Z) : given id && negb ((a =? id) || (b =? id) || (c =? id)) = false ->
  a ∈ l -> b ∈ l -> c ∈ l -> given id = true -> id ∈ l.
Proof.
  intros H Ha Hb Hc Hg. rewrite Hg in H. simpl in H. b2p. destruct H as [H|H]; b2p; [destruct H as [H|H]|]; b2p; by subst.
Qed.

Lemma not_foreign id a b c (l : list Z) : foreign id a b c = false -> a ∈ l -> b ∈ l -> c ∈ l -> given id = true -> id ∈ l.
Proof.
  unfold foreign. intros H Ha Hb Hc Hg. rewrite Hg in H. simpl in H. b2p.
  destruct H as [[H|H]%andb_false_iff|H]; b2p; by subst.
Qed.

Lemma in_gids c : c_gid c ∈ gids c /\ c_egid c ∈ gids c /\ c_sgid c ∈ gids c /\ c_fsgid c ∈ gids c.
Proof. unfold gids. set_solver. Qed.
Lemma in_uids c : c_uid c ∈ uids c /\ c_euid c ∈ uids c /\ c_suid c ∈ uids c /\ c_fsuid c ∈ uids c.
Proof. unfold uids. set_solver. Qed.

(** A call that changes group ids only. *)
Lemma evolves_gids c c1 c' : sans c1 = sans c -> uids c' = uids c1 -> cap_effective c' = cap_effective c1 ->
  cap_permitted c' = cap_permitted c1 -> cap_inheritable c' = cap_inheritable c1 ->
  (cap_raised (cap_effective c) CAP_SETGID = false ->
     c_gid c' ∈ gids c /\ c_egid c' ∈ gids c /\ c_sgid c' ∈ gids c /\ c_fsgid c' ∈ gids c) -> evolves c c'.
Proof.
  intros Hs H1 H2 H3 H4 Hg. apply sans_proj in Hs as (E1 & E2 & E3 & E4 & E5 & _).
  apply evolves_ids; [intros _ x; by rewrite H1, E1| |congruence..].
  intros Hc x. destruct (Hg Hc) as (G1 & G2 & G3 & G4). unfold gids at 1. rewrite in4. intros [->|[->|[->| ->]]]; done.
Qed.

Lemma sans_gids c c1 : sans c1 = sans c -> c_gid c1 = c_gid c /\ c_egid c1 = c_egid c /\ c_sgid c1 = c_sgid c /\
  c_fsgid c1 = c_fsgid c.
Proof. intros (_ & H & _)%sans_proj. unfold gids in H. by injection H as -> -> -> ->. Qed.
Lemma sans_uids c c1 : sans c1 = sans c -> c_uid c1 = c_uid c /\ c_euid c1 = c_euid c /\ c_suid c1 = c_suid c /\
  c_fsuid c1 = c_fsuid c.
Proof. intros (H & _)%sans_proj. unfold uids in H. by injection H as -> -> -> ->. Qed.

Lemma setregid_evolves rgid egid s : evolves (me s) (me (fst (sys_setregid rgid egid s))).
Proof.
  unfold sys_setregid. cbv zeta.
  destruct (lacks _ _ s) as [s1 r1] eqn:L1. apply lacks_spec in L1 as (R1 & S1 & _).
  destruct r1; [by apply evolves_refl|].
  destruct (lacks _ _ s1) as [s2 r2] eqn:L2. apply lacks_spec in L2 as (R2 & S2 & _). rewrite S1 in S2.
  destruct (sans_proj _ _ S1) as (_ & _ & E1 & _). rewrite E1 in R2.
  destruct r2; [by apply evolves_refl|]. cbn [fst].
  destruct (in_gids (me s)) as (G1 & G2 & G3 & G4). destruct (sans_gids _ _ S2) as (F1 & F2 & F3 & F4).
  rewrite me_set_me. apply (evolves_gids _ (me s2)); try done.
  1-4: destruct (given rgid || _); rewrite ?me_set_me, me_dump; done.
  intros Hc. rewrite Hc, andb_true_r in R1, R2. symmetry in R1, R2.
  assert (N1 : choose rgid (c_gid (me s)) ∈ gids (me s)) by (apply choose_in; [done|by eapply mine2]).
  assert (N2 : choose egid (c_egid (me s)) ∈ gids (me s)) by (apply choose_in; [done|by eapply mine3]).
  split_and!; try done. destruct (given rgid || _); rewrite ?me_set_me, me_dump; [done|].
  change (c_sgid (me s2) ∈ gids (me s)). by rewrite F3.
Qed.

Lemma setgid_evolves gid s : evolves (me s) (me (fst (sys_setgid gid s))).
Proof.
  unfold sys_setgid. cbv zeta. destruct (capable _ s) as [s1 ok] eqn:E. apply capable_spec in E as (R & S & _).
  destruct (in_gids (me s)) as (G1 & G2 & G3 & G4). destruct (sans_gids _ _ S) as (F1 & F2 & F3 & F4).
  destruct ok.
  - cbn [fst]. rewrite me_set_me, me_dump. apply (evolves_gids _ (me s1)); try done. congruence.
  - rewrite F1, F3. destruct (_ || _) eqn:Eg; [|by apply evolves_refl].
    assert (Hg : gid ∈ gids (me s)) by (b2p; destruct Eg; b2p; by subst).
    cbn [fst]. rewrite me_set_me, me_dump. apply (evolves_gids _ (me s1)); try done. intros _.
    split_and!; try done; [change (c_gid (me s1) ∈ gids (me s)); by rewrite F1|].
    change (c_sgid (me s1) ∈ gids (me s)). by rewrite F3.
Qed.

Lemma setresgid_evolves rgid egid sgid s : evolves (me s) (me (fst (sys_setresgid rgid egid sgid s))).
Proof.
  unfold sys_setresgid. cbv zeta. destruct (capable _ s) as [s1 ok] eqn:E. apply capable_spec in E as (R & S & _).
  destruct (in_gids (me s)) as (G1 & G2 & G3 & G4). destruct (sans_gids _ _ S) as (F1 & F2 & F3 & F4).
  rewrite F1, F2, F3. destruct (negb ok && _) eqn:Eg; [by apply evolves_refl|].
  cbn [fst]. rewrite me_set_me, me_dump. apply (evolves_gids _ (me s1)); try done. intros Hc.
  rewrite Hc in R. subst ok. simpl negb in Eg. cbn [andb] in Eg. b2p.
  split_and!; simpl; rewrite ?F1, ?F2, ?F3; apply choose_in; try done; by eapply not_foreign.
Qed.

Lemma setfsgid_evolves gid s : evolves (me s) (me (fst (sys_setfsgid gid s))).
Proof.
  unfold sys_setfsgid. cbv zeta. destruct (lacks _ _ s) as [s1 r] eqn:L. apply lacks_spec in L as (R & S & _).
  destruct (in_gids (me s)) as (G1 & G2 & G3 & G4). destruct (sans_gids _ _ S) as (F1 & F2 & F3 & F4).
  destruct r; cbn [fst]; [by apply evolves_refl|].
  rewrite me_set_me, me_dump. apply (evolves_gids _ (me s1)); try done. intros Hc.
  rewrite Hc, andb_true_r in R. symmetry in R. apply negb_false_iff in R.
  assert (Hg : gid ∈ gids (me s)).
  { repeat (apply orb_true_iff in R as [R|R]); apply Z.eqb_eq in R; by subst. }
  split_and!; [change (c_gid (me s1) ∈ gids (me s)); by rewrite F1|change (c_egid (me s1) ∈ gids (me s)); by rewrite F2|
    change (c_sgid (me s1) ∈ gids (me s)); by rewrite F3|exact Hg].
Qed.

(** ** User ids *)

Lemma evolves_uids c c1 c' : sans c1 = sans c -> gids c' = gids c1 -> cap_effective c' = cap_effective c1 ->
  cap_permitted c' = cap_permitted c1 -> cap_inheritable c' = cap_inheritable c1 ->
  (cap_raised (cap_effective c) CAP_SETUID = false ->
     c_uid c' ∈ uids c /\ c_euid c' ∈ uids c /\ c_suid c' ∈ uids c /\ c_fsuid c' ∈ uids c) -> evolves c c'.
Proof.
  intros Hs H1 H2 H3 H4 Hg. apply sans_proj in Hs as (E1 & E2 & E3 & E4 & E5 & _).
  apply evolves_ids; [|intros _ x; by rewrite H1, E2|congruence..].
  intros Hc x. destruct (Hg Hc) as (G1 & G2 & G3 & G4). unfold uids at 1. rewrite in4. intros [->|[->|[->| ->]]]; done.
Qed.

Lemma set_user_ref_ret t a s u n : set_user_ref t a s = (u, n) -> n = 0 \/ n = - EAGAIN.
Proof. unfold set_user_ref. destruct a as [c [up|]]; [destruct (user_of s !! t)|]; intros [= _ <-]; auto. Qed.

Lemma set_user_fails_spec new g r d s s' failed : set_user_fails new g r d s = (s', failed) ->
  me s' = (if g && negb failed then (me s) <| c_uid := r |> else me s) /\ ccur s' = ccur s /\
  securebits s' = securebits s.
Proof.
  unfold set_user_fails, set_user. destruct g; [|by intros [= <- <-]].
  destruct (set_user_ref _ _ _) as [u n] eqn:E. apply set_user_ref_ret in E as [-> | ->]; intros [= <- <-].
  - rewrite me_set_me, me_dump. by destruct d.
  - done.
Qed.

Lemma fixup_frame r e u s : securebits (fixup r e u s) = securebits s /\ ccur (fixup r e u s) = ccur s.
Proof. unfold fixup. by destruct (issecure _ s). Qed.

(** Real, effective, saved and file-system uid after a call that did not fail. *)
Lemma setreuid_success new ruid euid s s' : sys_setreuid new ruid euid s = (s', 0) ->
  let c := me s in
  exists c1, sans c1 = sans c /\ securebits s' = securebits s /\ ccur s' = ccur s /\
    let ru := choose ruid (c_uid c) in
    let eu := choose euid (c_euid c) in
    let su := if given ruid || (given euid && negb (euid =? c_uid c)) then eu else c_suid c in
    let c2 := c1 <| c_uid := ru |> <| c_euid := eu |> <| c_suid := su |> <| c_fsuid := eu |> in
    me s' = (if negb (issecure SECURE_NO_SETUID_FIXUP s)
             then cap_emulate_setxuid (c_uid c) (c_euid c) (c_suid c) c2 else c2) /\
    (cap_raised (cap_effective c) CAP_SETUID = false -> ru ∈ uids c /\ eu ∈ uids c).
Proof.
  cbv zeta. unfold sys_setreuid. cbv zeta.
  destruct (lacks _ _ s) as [s1 r1] eqn:L1. apply lacks_spec in L1 as (R1 & S1 & C1 & B1). destruct r1; [done|].
  destruct (lacks _ _ s1) as [s2 r2] eqn:L2. apply lacks_spec in L2 as (R2 & S2 & C2 & B2). rewrite S1 in S2.
  destruct (sans_proj _ _ S1) as (_ & _ & E1 & _). rewrite E1 in R2. destruct r2; [done|].
  destruct (set_user_fails _ _ _ _ s2) as [s3 failed] eqn:U. apply set_user_fails_spec in U as (U & C3 & B3).
  destruct failed; [done|]. rewrite andb_true_r in U. intros [= <-].
  destruct (sans_uids _ _ S2) as (F1 & F2 & F3 & F4). destruct (in_uids (me s)) as (G1 & G2 & G3 & G4).
  exists (me s2). split; [done|].
  match goal with |- context [fixup _ _ _ ?x] => set (s7 := x) end.
  assert (B7 : securebits s7 = securebits s /\ ccur s7 = ccur s).
  { unfold s7. split; [transitivity (securebits s3); [|congruence]|transitivity (ccur s3); [|congruence]];
      by destruct (given ruid || _), (negb (choose euid _ =? _)). }
  destruct B7 as [B7 C7].
  assert (M7 : me s7 = (me s2) <| c_uid := choose ruid (c_uid (me s)) |> <| c_euid := choose euid (c_euid (me s)) |>
    <| c_suid := if given ruid || (given euid && negb (euid =? c_uid (me s)))
                 then choose euid (c_euid (me s)) else c_suid (me s) |> <| c_fsuid := choose euid (c_euid (me s)) |>).
  { unfold s7. rewrite me_set_me.
    assert (M4 : forall b, me (clear_dumpable_if b s3) = (me s2) <| c_uid := choose ruid (c_uid (me s)) |>).
    { intros b. rewrite me_dump, U. destruct (Z.eqb_spec (choose ruid (c_uid (me s))) (c_uid (me s))) as [->|]; [|done].
      rewrite <- F1. by destruct (me s2). }
    destruct (given ruid || _); rewrite ?me_set_me, M4; [done|]. rewrite <- F3. done. }
  clearbody s7. assert (Hsec : issecure SECURE_NO_SETUID_FIXUP s7 = issecure SECURE_NO_SETUID_FIXUP s).
  { unfold issecure. by rewrite B7. }
  destruct (fixup_frame (c_uid (me s)) (c_euid (me s)) (c_suid (me s)) s7) as [-> ->]. do 2 (split; [done|]). split.
  - unfold fixup. rewrite Hsec, <- M7. destruct (issecure _ s); [done|apply me_set_me].
  - intros Hc. rewrite Hc, andb_true_r in R1, R2. symmetry in R1, R2.
    split; apply choose_in; try done; intros Hg; rewrite Hg in *; simpl in R1, R2; b2p.
    + destruct R1; b2p; by subst.
    + destruct R2 as [[?|?]%andb_false_iff|?]; b2p; by subst.
Qed.

Lemma evolves_emulated b r e u c c1 c' : evolves c c1 ->
  c' = (if b : bool then cap_emulate_setxuid r e u c1 else c1) -> evolves c c'.
Proof. intros H ->. destruct b; [by apply evolves_emulate|done]. Qed.

Lemma setreuid_evolves new ruid euid s : evolves (me s) (me (fst (sys_setreuid new ruid euid s))).
Proof.
  destruct (sys_setreuid new ruid euid s) as [s' n] eqn:E. cbn [fst]. destruct (decide (n = 0)) as [->|Hn].
  - apply setreuid_success in E. cbv zeta in E. destruct E as (c1 & S1 & _ & _ & Em & Hin).
    eapply evolves_emulated; [|exact Em]. apply (evolves_uids _ c1); try done.
    intros Hc. destruct (Hin Hc) as [I1 I2]. destruct (in_uids (me s)) as (G1 & G2 & G3 & G4).
    split_and!; try done. simpl. by destruct (_ || _).
  - revert E. unfold sys_setreuid. cbv zeta.
    destruct (lacks _ _ s) as [s1 r1] eqn:L1. apply lacks_spec in L1 as (R1 & S1 & _).
    destruct r1; [intros [= <- _]; by apply evolves_refl|].
    destruct (lacks _ _ s1) as [s2 r2] eqn:L2. apply lacks_spec in L2 as (R2 & S2 & _). rewrite S1 in S2.
    destruct r2; [intros [= <- _]; by apply evolves_refl|].
    destruct (set_user_fails _ _ _ _ s2) as [s3 failed] eqn:U. apply set_user_fails_spec in U as (U & _).
    destruct failed; [|congruence]. rewrite andb_false_r in U. intros [= <- _]. apply evolves_refl. by rewrite U.
Qed.

Lemma setuid_evolves new uid s : evolves (me s) (me (fst (sys_setuid new uid s))).
Proof.
  unfold sys_setuid. cbv zeta. destruct (capable _ s) as [s1 ok] eqn:E. apply capable_spec in E as (R & S & _).
  destruct (in_uids (me s)) as (G1 & G2 & G3 & G4). destruct (sans_uids _ _ S) as (F1 & F2 & F3 & F4). destruct ok.
  - destruct (set_user_fails _ _ _ _ s1) as [s2 failed] eqn:U. apply set_user_fails_spec in U as (U & _).
    destruct failed; [rewrite andb_false_r in U; apply evolves_refl; cbn [fst]; by rewrite U|].
    cbn [fst]. apply evolves_fixup. rewrite me_set_me, me_dump, U, andb_true_r.
    destruct (uid =? c_uid (me s)); (apply (evolves_uids _ (me s1)); [done..|congruence]).
  - destruct (_ && _) eqn:Eg; [by apply evolves_refl|]. cbn [fst]. apply evolves_fixup. rewrite me_set_me, me_dump.
    assert (Hu : uid ∈ uids (me s)) by (b2p; destruct Eg; b2p; subst uid; rewrite ?F1; done).
    apply (evolves_uids _ (me s1)); try done. intros _.
    split_and!; try done. change (c_uid (me s1) ∈ uids (me s)). by rewrite F1.
Qed.

Lemma setresuid_evolves new ruid euid suid s : evolves (me s) (me (fst (sys_setresuid new ruid euid suid s))).
Proof.
  unfold sys_setresuid. cbv zeta. destruct (capable _ s) as [s1 ok] eqn:E. apply capable_spec in E as (R & S & _).
  destruct (in_uids (me s)) as (G1 & G2 & G3 & G4). destruct (sans_uids _ _ S) as (F1 & F2 & F3 & F4).
  destruct (negb ok && _) eqn:Eg; [by apply evolves_refl|].
  destruct (set_user_fails _ _ _ _ s1) as [s2 failed] eqn:U. apply set_user_fails_spec in U as (U & _).
  destruct failed; [rewrite andb_false_r in U; apply evolves_refl; cbn [fst]; by rewrite U|].
  cbn [fst]. apply evolves_fixup. rewrite !me_set_me, me_dump, U, andb_true_r, F1.
  apply (evolves_uids _ (me s1)); [done|by destruct (given ruid && negb (ruid =? c_uid (me s)))..|]. intros Hc.
  rewrite Hc in R. subst ok. cbn [negb andb] in Eg. b2p.
  assert (N1 : given ruid = true -> ruid ∈ uids (me s)) by (by eapply not_foreign).
  assert (N2 : given euid = true -> euid ∈ uids (me s)) by (by eapply not_foreign).
  assert (N3 : given suid = true -> suid ∈ uids (me s)) by (by eapply not_foreign).
  destruct (given ruid && negb (ruid =? c_uid (me s))) eqn:Er; simpl; rewrite ?F1, ?F2, ?F3;
    split_and!; try apply choose_in; auto.
  apply N1. by b2p.
Qed.

Lemma setfsuid_evolves uid s : evolves (me s) (me (fst (sys_setfsuid uid s))).
Proof.
  unfold sys_setfsuid. cbv zeta. destruct (lacks _ _ s) as [s1 r] eqn:L. apply lacks_spec in L as (R & S & _).
  destruct (in_uids (me s)) as (G1 & G2 & G3 & G4). destruct (sans_uids _ _ S) as (F1 & F2 & F3 & F4). cbn [fst].
  match goal with |- context [issecure _ ?x] => set (s2 := x) end.
  assert (V2 : evolves (me s) (me s2) /\ cap_effective (me s2) = cap_effective (me s) /\
    cap_permitted (me s2) = cap_permitted (me s)).
  { destruct (sans_proj _ _ S) as (_ & _ & E1 & E2 & _). unfold s2.
    destruct r; [split; [by apply evolves_refl|done]|]. rewrite me_set_me, me_dump. split; [|done].
    apply (evolves_uids _ (me s1)); try done. intros Hc. rewrite Hc, andb_true_r in R.
    symmetry in R. apply negb_false_iff in R.
    assert (Hg : uid ∈ uids (me s)) by (repeat (apply orb_true_iff in R as [R|R]); apply Z.eqb_eq in R; by subst).
    simpl. rewrite F1, F2, F3. split_and!; done. }
  clearbody s2. destruct V2 as (V2 & E1 & E2). destruct (issecure _ s2); [done|].
  change (negb false) with true. cbv iota.
  assert (Hv : forall e, cap_sub e (Z.lor (cap_effective (me s2)) (cap_permitted (me s2))) ->
    (cap_sub (cap_effective (me s2)) (cap_permitted (me s2)) -> cap_sub e (cap_permitted (me s2))) ->
    evolves (me s) ((me s2) <| cap_effective := e |>)).
  { intros e H1 H2. destruct V2 as [V1 V2 V3 V4 V5 V6]. split; try done; simpl.
    - by rewrite <- E1, <- E2.
    - auto. }
  destruct ((c_fsuid (me s) =? 0) && _) eqn:D1.
  - assert (D2 : negb (c_fsuid (me s) =? 0) = false) by (b2p; by rewrite H, Z.eqb_refl). rewrite D2. simpl andb. cbv iota.
    rewrite me_set_me. apply Hv; [auto with kernel|eauto with kernel].
  - destruct (negb (c_fsuid (me s) =? 0) && _); [|exact V2]. rewrite me_set_me. apply Hv.
    + apply cap_sub_lor. eauto with kernel.
    + intros. apply cap_sub_lor. eauto with kernel.
Qed.
