(* ===== verification/CredTheorems.v ===== *)
(** * What tasks can do with their credentials

    Sequences of calls, by one task and by all of them. *)
From stdpp Require Import base gmap list functions sets relations.
From S2P Require Import Prelude PidHash Sched SchedCalls Proc User Cred CredInv.

(** ** The remaining calls *)

Lemma setgroups_evolves n l s : evolves (me s) (me (fst (sys_setgroups n l s))).
Proof.
  unfold sys_setgroups. destruct (capable _ s) as [s1 ok] eqn:E. apply capable_spec in E as (R & S & _).
  destruct (negb ok); [by apply evolves_refl|]. destruct (NGROUPS <? _); [by apply evolves_refl|].
  destruct (copy_from_user _ _) as [g fault]. cbv zeta.
  apply (evolves_sans _ (me s1)); [done|]. destruct fault; cbn [fst]; rewrite !me_set_me; by apply evolves_ids.
Qed.

Lemma prctl_evolves o a f s : evolves (me s) (me (fst (fst (sys_prctl o a f s)))).
Proof.
  unfold sys_prctl. cbv zeta.
  repeat (match goal with |- context [if ?b then _ else _] => destruct b end);
    cbn [fst]; rewrite ?me_set_me; by apply evolves_ids.
Qed.

(** The test of [sys_capset] on a target. *)
Definition allowed (cur target : cred) (effective inheritable permitted : Z) : Prop :=
  cap_sub inheritable (Z.lor (cap_inheritable target) (cap_permitted cur)) /\
  cap_sub permitted (Z.lor (cap_permitted target) (cap_permitted cur)) /\ cap_sub effective permitted.

(** [sys_capset] changes nothing but capability sets, and those only as allowed. *)
Record capset_effect (s s' : ck) : Prop := CapsetEffect {
  ce_cur : ccur s' = ccur s;
  ce_list : clist s' = clist s;
  ce_tab : forall t, sans (ctab s' t) = sans (ctab s t) \/
    exists e i p, sans (ctab s' t) = sans (set_caps e i p (ctab s t)) /\
      (allowed (me s) (ctab s t) e i p \/ allowed (me s) (me s) e i p)
}.

Lemma capset_one t e i p s s1 : sans (me s1) = sans (me s) -> ccur s1 = ccur s -> clist s1 = clist s ->
  (forall t, sans (ctab s1 t) = sans (ctab s t)) ->
  allowed (me s) (ctab s t) e i p -> capset_effect s (set_cred t (set_caps e i p) s1).
Proof.
  intros Hs Hc Hl Ht Ha. split; [done|done|]. intros u. rewrite ctab_set_cred. case_decide as D; [|by left].
  subst u. right. exists e, i, p. split; [|by left].
  change (set_caps e i p (sans (ctab s1 t)) = set_caps e i p (sans (ctab s t))). by rewrite Ht.
Qed.

(** The loops over all tasks. *)
Lemma capset_loop (skip : ck -> tid -> bool) e i p s1 s : allowed (me s) (me s) e i p ->
  ccur s1 = ccur s -> clist s1 = clist s -> (forall t, sans (ctab s1 t) = sans (ctab s t)) ->
  forall l, capset_effect s (fold_left (fun s t => if skip s t then s else set_cred t (set_caps e i p) s) l s1).
Proof.
  intros Ha Hc Hl Ht l.
  assert (Hinv : forall s2, ccur s2 = ccur s -> clist s2 = clist s ->
    (forall t, sans (ctab s2 t) = sans (ctab s t) \/ sans (ctab s2 t) = sans (set_caps e i p (ctab s t))) ->
    capset_effect s (fold_left (fun s t => if skip s t then s else set_cred t (set_caps e i p) s) l s2)).
  { clear s1 Hc Hl Ht. induction l as [|t l IH]; intros s2 Hc Hl Ht; simpl.
    - split; [done|done|]. intros u. destruct (Ht u) as [H|H]; [by left|right; exists e, i, p; auto].
    - apply IH; [by destruct (skip s2 t)|by destruct (skip s2 t)|]. intros u. destruct (skip s2 t); [done|].
      rewrite ctab_set_cred. case_decide as D; [subst u|done]. right.
      change (set_caps e i p (sans (ctab s2 t)) = set_caps e i p (sans (ctab s t))).
      destruct (Ht t) as [->| ->]; done. }
  apply Hinv; [done|done|]. auto.
Qed.

Lemma capset_effect_refl s s' : ccur s' = ccur s -> clist s' = clist s ->
  (forall t, sans (ctab s' t) = sans (ctab s t)) -> capset_effect s s'.
Proof. intros. split; auto. Qed.

Lemma lacks_tab g cap s s' r t : lacks g cap s = (s', r) -> sans (ctab s' t) = sans (ctab s t) /\ clist s' = clist s.
Proof.
  unfold lacks, capable. destruct g; [|by intros [= <- <-]]. destruct (cap_raised _ _); intros [= <- <-]; [|done].
  unfold set_me. rewrite ctab_set_cred. by case_decide; subst.
Qed.

Lemma capset_spec find h data s : capset_effect s (fst (sys_capset find h data s)).
Proof.
  unfold sys_capset. destruct (h_version h); [|by apply capset_effect_refl].
  destruct (negb _); [by apply capset_effect_refl|]. destruct (h_pid h) as [pid|]; [|by apply capset_effect_refl].
  destruct (lacks _ _ s) as [s1 r] eqn:L. pose proof (fun t => lacks_tab _ _ _ _ _ t L) as Lt.
  apply lacks_spec in L as (_ & S & C & _).
  assert (Hr : capset_effect s s1) by (apply capset_effect_refl; [done|apply (Lt 0)|intros t; apply Lt]).
  destruct r; [done|]. destruct data as [[[e i] p]|]; [|done].
  match goal with |- context [match ?x with Some _ => _ | None => _ end] => destruct x as [target|] eqn:Et end; [|done].
  destruct (_ || _) eqn:Hok; [done|]. b2p. rewrite !issubset_sub in *. unfold cap_combine in *.
  destruct (sans_proj _ _ S) as (_ & _ & _ & P1 & _). destruct (sans_proj _ _ (proj1 (Lt target))) as (_ & _ & _ & P2 & I2 & _).
  rewrite P1, ?P2, ?I2 in *.
  assert (Ha : allowed (me s) (ctab s target) e i p) by done.
  destruct (Z.ltb_spec pid 0) as [Hn|Hn].
  - assert (target = ccur s1) as ->.
    { destruct (Z.ltb_spec 0 pid); [lia|]. simpl in Et. by injection Et. }
    rewrite C in Ha. destruct (pid =? -1); cbn [fst]; [unfold cap_set_all|unfold cap_set_pg];
      eapply (capset_loop (fun s t => _)); try done; try apply (Lt 0); intros t; apply Lt.
  - cbn [fst]. apply capset_one; try done; [apply (Lt 0)|intros t; apply Lt].
Qed.

Lemma capset_evolves find h data s : evolves (me s) (me (fst (sys_capset find h data s))).
Proof.
  destruct (capset_spec find h data s) as [E1 E2 E3]. unfold me at 2. rewrite E1.
  destruct (E3 (ccur s)) as [H|(e & i & p & H & Ha)]; [by apply evolves_refl|].
  assert (Ha' : allowed (me s) (me s) e i p) by (by destruct Ha). destruct Ha' as (A1 & A2 & A3).
  rewrite cap_sub_bits in A2. setoid_rewrite Z.lor_diag in A2. rewrite <- cap_sub_bits in A2.
  apply sans_proj in H as (H1 & H2 & H3 & H4 & H5 & _). fold (me s) in *.
  split; rewrite ?H1, ?H2, ?H3, ?H4, ?H5; auto; simpl.
  apply cap_sub_lor_r. by transitivity p.
Qed.

(** ** Sequences of calls of one task *)

Inductive call :=
  | SetRegid (rgid egid : Z)
  | SetGid (gid : Z)
  | SetResgid (rgid egid sgid : Z)
  | SetFsgid (gid : Z)
  | SetReuid (new : option uptr) (ruid euid : Z)
  | SetUid (new : option uptr) (uid : Z)
  | SetResuid (new : option uptr) (ruid euid suid : Z)
  | SetFsuid (uid : Z)
  | SetGroups (n : Z) (l : list (option Z))
  | Prctl (option arg2 : Z) (fault : bool)
  | Capset (find : Z -> option tid) (h : cap_header) (data : option (Z * Z * Z)).

Definition run_call (s : ck) (c : call) : ck :=
  match c with
  | SetRegid rgid egid => fst (sys_setregid rgid egid s)
  | SetGid gid => fst (sys_setgid gid s)
  | SetResgid rgid egid sgid => fst (sys_setresgid rgid egid sgid s)
  | SetFsgid gid => fst (sys_setfsgid gid s)
  | SetReuid new ruid euid => fst (sys_setreuid new ruid euid s)
  | SetUid new uid => fst (sys_setuid new uid s)
  | SetResuid new ruid euid suid => fst (sys_setresuid new ruid euid suid s)
  | SetFsuid uid => fst (sys_setfsuid uid s)
  | SetGroups n l => fst (sys_setgroups n l s)
  | Prctl o a f => fst (fst (sys_prctl o a f s))
  | Capset find h data => fst (sys_capset find h data s)
  end.
Definition run_calls (l : list call) (s : ck) : ck := fold_left run_call l s.

#[export] Hint Resolve setregid_evolves setgid_evolves setresgid_evolves setfsgid_evolves setreuid_evolves
  setuid_evolves setresuid_evolves setfsuid_evolves setgroups_evolves prctl_evolves capset_evolves : kernel.

Lemma call_evolves c s : evolves (me s) (me (run_call s c)).
Proof. destruct c; simpl; auto with kernel. Qed.

(** Neither in the effective nor in the permitted set. *)
Definition without (cap : Z) (c : cred) : Prop :=
  cap_raised (cap_effective c) cap = false /\ cap_raised (cap_permitted c) cap = false.

Lemma without_evolves cap c c' : 0 <= cap -> evolves c c' -> without cap c -> without cap c'.
Proof.
  intros Hc [_ _ V3 V4 _ _] [W1 W2]. split; [|by eapply raised_sub].
  eapply raised_sub; [done|exact V4|]. by rewrite raised_lor, W1, W2.
Qed.

Lemma run_calls_ids l s :
  (without CAP_SETUID (me s) -> forall x, x ∈ uids (me (run_calls l s)) -> x ∈ uids (me s)) /\
  (without CAP_SETGID (me s) -> forall x, x ∈ gids (me (run_calls l s)) -> x ∈ gids (me s)).
Proof.
  revert s. induction l as [|c l IH]; intros s; [done|]. simpl.
  pose proof (call_evolves c s) as V. destruct (IH (run_call s c)) as [I1 I2]. split.
  - intros W x Hx. apply (ev_uid _ _ V); [apply W|]. apply I1; [|done]. by eapply without_evolves.
  - intros W x Hx. apply (ev_gid _ _ V); [apply W|]. apply I2; [|done]. by eapply without_evolves.
Qed.

(** A task without CAP_SETUID in its permitted and effective sets never gets, by any
    sequence of the calls that change credentials, a real, effective, saved or
    file-system uid it did not have; likewise for group ids and CAP_SETGID. *)
Theorem unprivileged_ids_bounded l s :
  (without CAP_SETUID (me s) -> forall x, x ∈ uids (me (run_calls l s)) -> x ∈ uids (me s)) /\
  (without CAP_SETGID (me s) -> forall x, x ∈ gids (me (run_calls l s)) -> x ∈ gids (me s)).
Proof. apply run_calls_ids. Qed.

(** ** All tasks *)

(** Only the running task has changed. *)
Record own (s s' : ck) : Prop := Own {
  own_cur : ccur s' = ccur s;
  own_others : forall t, t <> ccur s -> ctab s' t = ctab s t
}.

#[export] Instance own_preorder : PreOrder own.
Proof.
  split; [by split|]. intros a b c [A1 A2] [B1 B2]. split; [congruence|]. intros t Ht. rewrite B2, A2; congruence.
Qed.

Lemma own_set_me s0 f s : own s0 s -> own s0 (set_me f s).
Proof.
  intros H. etransitivity; [exact H|]. split; [done|]. intros t Ht. unfold set_me. rewrite ctab_set_cred.
  by rewrite decide_False.
Qed.

Lemma own_dump s0 b s : own s0 s -> own s0 (clear_dumpable_if b s).
Proof. intros H. etransitivity; [exact H|]. by destruct b. Qed.

Lemma own_fixup s0 r e u s : own s0 s -> own s0 (fixup r e u s).
Proof. intros H. unfold fixup. destruct (negb _); [by apply own_set_me|done]. Qed.

Lemma capable_own s0 cap s s' b : own s0 s -> capable cap s = (s', b) -> own s0 s'.
Proof. intros H. unfold capable. destruct (cap_raised _ _); intros [= <- _]; [by apply own_set_me|done]. Qed.

Lemma lacks_own s0 g cap s s' b : own s0 s -> lacks g cap s = (s', b) -> own s0 s'.
Proof.
  intros H. unfold lacks. destruct g; [|by intros [= <- _]]. destruct (capable cap s) as [s1 ok] eqn:E.
  intros [= <- _]. by eapply capable_own.
Qed.

Lemma set_user_own s0 new g r d s s' b : own s0 s -> set_user_fails new g r d s = (s', b) -> own s0 s'.
Proof.
  intros H. unfold set_user_fails, set_user. destruct g; [|by intros [= <- _]].
  destruct (set_user_ref _ _ _) as [u n] eqn:E. apply set_user_ref_ret in E as [-> | ->]; intros [= <- _].
  - apply own_set_me, own_dump. etransitivity; [exact H|]. by split.
  - etransitivity; [exact H|]. by split.
Qed.

Ltac frame_calls :=
  repeat match goal with
  | |- context [capable ?c ?x] => let E := fresh in destruct (capable c x) eqn:E; apply (capable_own _ _ _ _ _ ltac:(eassumption)) in E
  | |- context [lacks ?g ?c ?x] => let E := fresh in destruct (lacks g c x) eqn:E; apply (lacks_own _ _ _ _ _ _ ltac:(eassumption)) in E
  | |- context [set_user_fails ?n ?g ?r ?d ?x] =>
      let E := fresh in destruct (set_user_fails n g r d x) eqn:E; apply (set_user_own _ _ _ _ _ _ _ _ ltac:(eassumption)) in E
  end.
Ltac owned :=
  cbv zeta; frame_calls;
  repeat match goal with |- context [fst (if ?b then _ else _)] => destruct b end; cbn [fst];
  repeat first [assumption | apply own_set_me | apply own_dump | apply own_fixup
               | match goal with |- own _ (if ?b then _ else _) => destruct b end].

Lemma setfsuid_own uid s : own s (fst (sys_setfsuid uid s)).
Proof. assert (own s s) by reflexivity. unfold sys_setfsuid. owned. Qed.

Lemma ids_own s c : match c with Capset _ _ _ => True | _ => own s (run_call s c) end.
Proof.
  assert (own s s) by reflexivity. destruct c; simpl; try done; try apply setfsuid_own;
    unfold sys_setregid, sys_setgid, sys_setresgid, sys_setfsgid, sys_setreuid, sys_setuid, sys_setresuid, sys_setgroups, sys_prctl.
  1-7: owned.
  - owned. destruct (copy_from_user _ _) as [g []]; cbn [fst]; repeat apply own_set_me; assumption.
  - cbv zeta. repeat match goal with |- context [if ?b then _ else _] => destruct b end; cbn [fst];
      try assumption; try (by apply own_set_me). by split.
Qed.

(** A task's sets lie within [U], the effective one within the permitted one. *)
Definition capped (U : Z) (c : cred) : Prop :=
  cap_sub (cap_permitted c) U /\ cap_sub (cap_inheritable c) U /\ cap_sub (cap_effective c) (cap_permitted c).

Lemma capped_evolves U c c' : evolves c c' -> capped U c -> capped U c'.
Proof.
  intros [_ _ V3 _ V5 V6] (C1 & C2 & C3). split_and!; [by etransitivity| |auto].
  etransitivity; [exact V6|]. by apply cap_sub_lor.
Qed.

Lemma capset_capped U s s' : (forall t, capped U (ctab s t)) -> capset_effect s s' -> forall t, capped U (ctab s' t).
Proof.
  intros H [E1 E2 E3] t. destruct (H t) as (T1 & T2 & T3). destruct (H (ccur s)) as (M1 & M2 & M3). fold (me s) in *.
  destruct (E3 t) as [(_ & _ & H3 & H4 & H5 & _)%sans_proj|(e & i & p & (_ & _ & H3 & H4 & H5 & _)%sans_proj & Ha)];
    unfold capped; rewrite H3, H4, H5; [done|]. simpl.
  destruct Ha as [(A1 & A2 & A3)|(A1 & A2 & A3)]; split_and!; try done;
    (etransitivity; [eassumption|]); by apply cap_sub_lor.
Qed.

(** ** execve *)

(** [exec_creds] gives the caller at most the bounding set and what it could inherit; the effective
    set lies within the permitted one. *)
Lemma exec_capped U bset file w s : (forall t, capped U (ctab s t)) -> cap_sub bset U ->
  forall t, capped U (ctab (fst (exec_creds file bset w s)) t).
Proof.
  intros H Hb t. unfold exec_creds. destruct (prepare_binprm file s) as [b|err]; cbn [fst]; [|apply H]. unfold compute_creds.
  set (np := cap_combine _ _). cbv zeta.
  assert (Hnp : cap_sub np U).
  { apply cap_sub_lor. split; unfold cap_intersect; rewrite Z.land_comm; apply cap_sub_land; [done|apply (H (ccur s))]. }
  match goal with |- context [ctab (let '(_, _) := ?x in _)] => set (r := x) end.
  assert (R : exists s1 u g np1, r = (s1, u, g, np1) /\ own s s1 /\ sans (me s1) = sans (me s) /\ cap_sub np1 U).
  { assert (O0 : own s s) by reflexivity. unfold r. destruct (_ || _); [|by do 4 eexists].
    assert (O1 : own s (set_dumpable 0 s)) by (by apply (own_dump s true)). destruct w; [|by do 4 eexists].
    destruct (capable CAP_SETUID _) as [s2 m] eqn:E2. destruct (capable CAP_SETPCAP s2) as [s3 m2] eqn:E3.
    assert (O2 : own s s2) by (by eapply capable_own). assert (O3 : own s s3) by (by eapply capable_own).
    apply capable_spec in E2 as (_ & E2 & _). apply capable_spec in E3 as (_ & E3 & _).
    do 4 eexists. split; [reflexivity|]. split; [done|]. split; [by rewrite E3, E2|].
    destruct m2; [done|]. unfold cap_intersect. by apply cap_sub_land. }
  destruct R as (s1 & u & g & np1 & -> & [O1 O2] & (_ & _ & S3 & S4 & S5 & _)%sans_proj & Hn1). unfold set_me. rewrite ctab_set_cred.
  assert (C1 : forall t, capped U (ctab (if negb (c_pid (me s1) =? 1) then set_cred (ccur s1) (fun c => c <| cap_permitted := np1 |>
      <| cap_effective := cap_intersect np1 (b_effective b) |>) s1 else s1) t)).
  { clear t. intros t. assert (C0 : capped U (ctab s1 t)).
    { destruct (decide (t = ccur s)) as [->|Ht]; [|rewrite O2 by done; apply H]. rewrite <- O1. fold (me s1). unfold capped. rewrite S3, S4, S5. apply H. }
    destruct (negb _); [|done]. rewrite ctab_set_cred. case_decide as D; [|done]. subst t. destruct C0 as (_ & C0 & _).
    split_and!; cbn [cap_permitted cap_inheritable cap_effective update eta eta_cred]; [done|done|]. by apply cap_sub_land. }
  case_decide as D; [|apply C1]. destruct (C1 (ccur s1)) as (D1 & D2 & D3). subst t. destruct (negb _); by split_and!.
Qed.

(** The running task makes a call, executes a file or forks, or another task runs.  The bounding set
    cap_bset is at most [X].  What the kernel's own threads do to themselves (reparent_to_init,
    exec_usermodehelper) is not a call of a task. *)
Inductive cstep (X : Z) (s : ck) : ck -> Prop :=
  | cs_call c : cstep X s (run_call s c)
  | cs_exec file bset watched : cap_sub bset X -> cstep X s (fst (exec_creds file bset watched s))
  | cs_fork child : cstep X s (set_cred child (fun c => (me s) <| c_pid := c_pid c |>) s)
  | cs_switch t : cstep X s (s <| ccur := t |>).

Lemma cstep_capped U X s s' : cap_sub X U -> (forall t, capped U (ctab s t)) -> cstep X s s' -> forall t, capped U (ctab s' t).
Proof.
  intros HX H [c|file bset w Hb|child|u]; [|apply exec_capped; [done|by etransitivity]| |done].
  - assert (Hc : (exists f h d, c = Capset f h d) \/ own s (run_call s c)).
    { pose proof (ids_own s c). destruct c; eauto. }
    destruct Hc as [(f & h & d & ->)|[O1 O2]]; [by eapply capset_capped, capset_spec|].
    intros t. destruct (decide (t = ccur s)) as [->|Ht]; [|by rewrite O2].
    pose proof (call_evolves c s) as V. unfold me in V. rewrite O1 in V. by eapply capped_evolves.
  - intros t. rewrite ctab_set_cred. case_decide; [|done]. apply (H (ccur s)).
Qed.

(** C15. Capabilities are never created by system calls: if all tasks' permitted and inheritable
    sets lie within a set [U] and their effective sets within their permitted ones, and the
    bounding set cap_bset stays within [X], then after any credential calls ([capset] on other
    tasks, on groups and on everybody included), forks and executions of any files, set-uid
    root ones too, by any tasks, all sets lie within the union of [U] and [X] and the effective ones
    within the permitted ones.  Kernel threads, which give themselves capabilities in
    reparent_to_init and exec_usermodehelper, are not covered. *)
Theorem capabilities_never_created U X s s' : (forall t, capped U (ctab s t)) -> rtc (cstep X) s s' ->
  forall t, capped (Z.lor U X) (ctab s' t).
Proof.
  intros H Hr. assert (H' : forall t, capped (Z.lor U X) (ctab s t)).
  { intros t. destruct (H t) as (? & ? & ?). split_and!; auto using cap_sub_lor_l. }
  clear H. induction Hr as [|a b c Hab _ IH]; [done|]. apply IH. eapply cstep_capped; [|done..]. auto with kernel.
Qed.

(** Two tasks: root with all capabilities but CAP_SETPCAP, and user 1000 with none. *)
Definition cred_root : cred := Cred 0 0 0 0 0 0 0 0 0 (replicate 32 0) 4294967039 0 4294967039 0 0 0 1 1 0.
Definition cred_user : cred := Cred 1000 1000 1000 1000 100 100 100 100 0 (replicate 32 0) 0 0 0 0 0 0 2 2 1.
Definition two_tasks : ck :=
  Ck (fun t => if t =? 1 then cred_root else cred_user) [1; 2] 1
    (Tusers (Users (fun u => if u =? 0 then UserStruct 2 2 0 0 else UserStruct 1 1 0 1000)
               (fun h => if h =? 0 then [0] else if h =? __uidhashfn 1000 then [9] else []) [9])
       {[0 := 0; 1 := 0; 2 := 9]}) (fun _ => 1) 0.

(** Task 2 executes a set-uid root file while the bounding set is that of boot. *)
Lemma capabilities_never_created_witness :
  exists s', rtc (cstep CAP_INIT_EFF_SET) two_tasks s' /\ cap_effective (ctab s' 2) = CAP_INIT_EFF_SET /\ forall t, capped 4294967039 (ctab s' t).
Proof.
  set (s1 := two_tasks <| ccur := 2 |>). set (s2 := fst (exec_creds (ExecFile 2541 0 0 false true) CAP_INIT_EFF_SET false s1)).
  assert (H : rtc (cstep CAP_INIT_EFF_SET) two_tasks s2).
  { apply (rtc_l _ _ s1); [apply (cs_switch CAP_INIT_EFF_SET two_tasks 2)|]. apply rtc_once. apply cs_exec. vm_compute. reflexivity. }
  exists s2. split; [exact H|]. split; [vm_compute; reflexivity|].
  apply (capabilities_never_created 4294967039 CAP_INIT_EFF_SET two_tasks); [|exact H].
  intros t. unfold two_tasks. cbn [ctab]. destruct (t =? 1); vm_compute; split_and!; reflexivity.
Defined.

Lemma unprivileged_ids_bounded_witness :
  let s := two_tasks <| ccur := 2 |> in
  without CAP_SETUID (me s) /\ forall x, x ∈ uids (me (run_calls [SetUid None 0; SetReuid None 0 0] s)) -> x ∈ uids (me s).
Proof.
  cbv zeta. assert (W : without CAP_SETUID (me (two_tasks <| ccur := 2 |>))) by (split; reflexivity).
  split; [exact W|]. apply (unprivileged_ids_bounded [SetUid None 0; SetReuid None 0 0] (two_tasks <| ccur := 2 |>)), W.
Defined.

(** ** Giving up privileges *)

(** Without capabilities, and with one uid throughout. *)
Definition bare (r : Z) (c : cred) : Prop :=
  uids c = [r; r; r; r] /\ cap_effective c = 0 /\ cap_permitted c = 0.

Lemma cap_sub_0_inv a : cap_sub a 0 -> a = 0.
Proof. unfold cap_sub. by rewrite Z.ldiff_0_r. Qed.

Lemma issecure_default s : securebits s = 0 -> issecure SECURE_NO_SETUID_FIXUP s = false.
Proof. intros H. unfold issecure. rewrite H. reflexivity. Qed.

Lemma dump_bits f b s : securebits (set_me f (clear_dumpable_if b s)) = securebits s.
Proof. by destruct b. Qed.

Lemma bare_call r s c : bare r (me s) -> bare r (me (run_call s c)).
Proof.
  intros (H1 & H2 & H3). pose proof (call_evolves c s) as [V1 V2 V3 V4 V5 V6].
  rewrite H3 in V3, V4. rewrite H2 in V4. apply cap_sub_0_inv in V3. apply cap_sub_0_inv in V4.
  split_and!; try done. rewrite H2 in V1. specialize (V1 eq_refl). rewrite H1 in V1.
  assert (Hr : forall x, x ∈ uids (me (run_call s c)) -> x = r) by (intros x Hx; apply V1 in Hx; set_solver).
  destruct (in_uids (me (run_call s c))) as (G1 & G2 & G3 & G4). unfold uids at 1.
  by rewrite (Hr _ G1), (Hr _ G2), (Hr _ G3), (Hr _ G4).
Qed.

Lemma bare_calls r l s : bare r (me s) -> bare r (me (run_calls l s)).
Proof. revert s. induction l as [|c l IH]; intros s H; [done|]. simpl. apply IH. by apply bare_call. Qed.

(** Leaving root with all uids. *)
Lemma emulate_bare r ru eu su c : uids c = [r; r; r; r] -> keep_capabilities c = 0 -> r <> 0 ->
  ru = 0 \/ eu = 0 \/ su = 0 -> bare r (cap_emulate_setxuid ru eu su c).
Proof.
  intros P K Hr Hz. pose proof P as P'. unfold uids in P'. injection P' as P1 P2 P3 P4.
  unfold cap_emulate_setxuid. rewrite P1, P2, P3, K, (proj2 (Z.eqb_neq r 0) Hr).
  replace ((ru =? 0) || (eu =? 0) || (su =? 0)) with true.
  2:{ symmetry. rewrite !orb_true_iff, !Z.eqb_eq. tauto. }
  cbn [andb negb Z.eqb]. cbv zeta iota.
  set (c3 := c <| cap_permitted := 0 |> <| cap_effective := 0 |>).
  assert (B3 : bare r c3) by (split; [exact P|done]). assert (E3 : c_euid c3 = r) by done. clearbody c3.
  rewrite E3, (proj2 (Z.eqb_neq r 0) Hr). destruct B3 as (B1 & B2 & B3).
  destruct (eu =? 0); cbn [andb negb]; cbv iota.
  - by split.
  - rewrite E3, (proj2 (Z.eqb_neq r 0) Hr). by split.
Qed.

(** "This makes it possible for a setuid program to completely drop its privileges":
    once [setreuid(r, r)] has succeeded with [r] not root, in a task that had
    a root uid and did not ask to keep its capabilities, all four uids are [r], no
    capability is left, and no later sequence of calls of the task changes that. *)
Theorem setreuid_drops_for_good new r s s' l :
  sys_setreuid new r r s = (s', 0) -> r <> 0 -> r <> NO_ID -> keep_capabilities (me s) = 0 -> securebits s = 0 ->
  c_uid (me s) = 0 \/ c_euid (me s) = 0 \/ c_suid (me s) = 0 ->
  bare r (me (run_calls l s')).
Proof.
  intros H Hr Hn Hk Hs Hz. apply bare_calls. apply setreuid_success in H. cbv zeta in H.
  destruct H as (c1 & S1 & _ & _ & Em & _). rewrite Em.
  assert (Hg : given r = true) by (by apply negb_true_iff, Z.eqb_neq). unfold choose. rewrite Hg. cbn [orb].
  rewrite issecure_default by done. cbn [negb].
  destruct (sans_proj _ _ S1) as (_ & _ & _ & _ & _ & K1). rewrite Hk in K1.
  match goal with |- bare r (cap_emulate_setxuid _ _ _ ?x) => set (c2 := x) end.
  assert (P2 : uids c2 = [r; r; r; r]) by done. assert (K2 : keep_capabilities c2 = 0) by done. clearbody c2.
  by apply emulate_bare.
Qed.

Lemma setreuid_drops_for_good_witness :
  bare 1000 (me (run_calls [SetUid None 0; SetResuid None 0 0 0] (fst (sys_setreuid None 1000 1000 two_tasks)))).
Proof.
  apply (setreuid_drops_for_good None 1000 two_tasks); [vm_compute; reflexivity|discriminate|discriminate|reflexivity|
    reflexivity|left; reflexivity].
Defined.

(** A root task that has asked to keep its capabilities and calls [setuid] for another
    user keeps its permitted set but loses its effective set, in spite of the
    comment that both are retained. *)
Theorem keepcaps_clears_effective new uid s s' :
  sys_setuid new uid s = (s', 0) -> c_euid (me s) = 0 -> uid <> 0 -> keep_capabilities (me s) <> 0 ->
  securebits s = 0 -> cap_permitted (me s') = cap_permitted (me s) /\ cap_effective (me s') = 0.
Proof.
  intros H He Hu Hk Hs.
  assert (Hend : forall (s1 : ck) c r su, me s1 = c -> c_euid c = uid -> keep_capabilities c <> 0 -> securebits s1 = 0 ->
    cap_permitted c = cap_permitted (me s) ->
    cap_permitted (me (fixup r 0 su s1)) = cap_permitted (me s) /\ cap_effective (me (fixup r 0 su s1)) = 0).
  { intros s1 c r su <- E1 E2 E3 E4. unfold fixup. rewrite issecure_default by done. cbn [negb].
    rewrite me_set_me. unfold cap_emulate_setxuid. rewrite (proj2 (Z.eqb_neq _ _) E2), andb_false_r. cbv zeta iota.
    rewrite E1, (proj2 (Z.eqb_neq _ _) Hu). done. }
  revert H. unfold sys_setuid. cbv zeta. rewrite He.
  destruct (capable _ s) as [s1 ok] eqn:E. apply capable_spec in E as (_ & S & _ & B).
  destruct (sans_proj _ _ S) as (_ & _ & _ & E4 & _ & E6). destruct ok.
  - destruct (set_user_fails _ _ _ _ s1) as [s2 failed] eqn:U. apply set_user_fails_spec in U as (U & _ & B2).
    destruct failed; [done|]. rewrite andb_true_r in U. intros [= <-]. eapply Hend; [by rewrite me_set_me|done| | |].
    + rewrite me_dump, U. destruct (uid =? c_uid (me s)); simpl; by rewrite E6.
    + transitivity (securebits s2); [apply dump_bits|congruence].
    + rewrite me_dump, U. by destruct (uid =? c_uid (me s)).
  - destruct (_ && _); [done|]. intros [= <-]. eapply Hend; [by rewrite me_set_me|done| | |].
    + rewrite me_dump. simpl. by rewrite E6.
    + transitivity (securebits s1); [apply dump_bits|congruence].
    + by rewrite me_dump.
Qed.

Lemma keepcaps_clears_effective_witness :
  let s := fst (fst (sys_prctl 8 1 false two_tasks)) in
  let s' := fst (sys_setuid None 1000 s) in
  cap_permitted (me s') = 4294967039 /\ cap_effective (me s') = 0.
Proof.
  cbv zeta. set (s := fst (fst (sys_prctl 8 1 false two_tasks))).
  apply (keepcaps_clears_effective None 1000 s); [vm_compute; reflexivity|reflexivity|discriminate|discriminate|reflexivity].
Defined.

(** ** Supplementary groups *)

Lemma copy_fault l n tl : copy_from_user (length l + S n) ((Some <$> l) ++ None :: tl) = (l ++ replicate (S n) 0, true).
Proof. induction l as [|v l IH]; [done|]. csimpl. by rewrite IH. Qed.

Lemma group_zero l tl m : (length l < m)%nat -> group_loop m (l ++ 0 :: tl) 0 = true.
Proof.
  revert m. induction l as [|v l IH]; intros [|m] Hm; simpl in *; try lia; try done.
  destruct (v =? 0); [done|]. apply IH. lia.
Qed.

(** [setgroups] followed by [getgroups] gives the list back.  But when the user's list
    cannot be read to its end, the call fails with EFAULT after it has overwritten the
    groups: the entries read take effect, and the rest are 0, so that the
    task is in root's group if its number of groups reaches that far. *)
Theorem setgroups_outcome s l tl :
  cap_raised (cap_effective (me s)) CAP_SETGID = true -> Z.of_nat (length l) <= NGROUPS ->
  (let '(s', ret) := sys_setgroups (Z.of_nat (length l)) ((Some <$> l) ++ tl) s in
   ret = 0 /\ sys_getgroups NGROUPS false s' = (Z.of_nat (length l), l)) /\
  (forall n, Z.of_nat (length l + S n) <= NGROUPS -> (length l < Z.to_nat (c_ngroups (me s)))%nat ->
   let '(s', ret) := sys_setgroups (Z.of_nat (length l + S n)) ((Some <$> l) ++ None :: tl) s in
   ret = - EFAULT /\ c_ngroups (me s') = c_ngroups (me s) /\ in_group_p 0 s' = true).
Proof.
  intros Hc Hlen. assert (Hu : forall k, Z.of_nat k <= NGROUPS -> (NGROUPS <? u32 (Z.of_nat k)) = false).
  { intros k Hk. apply Z.ltb_ge. unfold NGROUPS in *. rewrite u32_small; lia. }
  unfold sys_setgroups. destruct (capable _ s) as [s1 ok] eqn:E. apply capable_spec in E as (-> & S & _).
  rewrite Hc. cbn [negb]. split; [|intros n Hn Hng]; rewrite Hu, Nat2Z.id by done.
  - rewrite copy_from_user_all. split; [done|]. unfold sys_getgroups. rewrite !me_set_me. cbn [c_ngroups c_groups update eta].
    unfold NGROUPS in *. cbn [Z.ltb Z.compare Z.eqb]. destruct (Z.ltb_spec 32 (Z.of_nat (length l))); [lia|].
    rewrite Nat2Z.id, take_app_length. done.
  - rewrite copy_fault. pose proof (f_equal c_ngroups S) as Eg. simpl in Eg.
    split; [done|]. unfold in_group_p, supplemental_group_member. rewrite !me_set_me. cbn [c_ngroups c_groups c_fsgid update eta].
    split; [done|]. destruct (negb _); [|done]. rewrite Eg, <- app_assoc. by apply group_zero.
Qed.

Lemma setgroups_outcome_witness :
  let s := fst (sys_setgroups 2 [Some 5; Some 6] two_tasks) in
  sys_getgroups NGROUPS false s = (2, [5; 6]) /\
  let s' := fst (sys_setgroups 2 [Some 7; None] (set_me (fun c => c <| c_fsgid := 5 |>) s)) in
  snd (sys_setgroups 2 [Some 7; None] (set_me (fun c => c <| c_fsgid := 5 |>) s)) = - EFAULT /\ in_group_p 0 s' = true.
Proof.
  cbv zeta. set (s := fst (sys_setgroups 2 [Some 5; Some 6] two_tasks)). split.
  - apply (proj1 (setgroups_outcome two_tasks [5; 6] [] eq_refl ltac:(discriminate))).
  - set (s1 := set_me (fun c => c <| c_fsgid := 5 |>) s).
    pose proof (proj2 (setgroups_outcome s1 [7] [] eq_refl ltac:(discriminate)) 0%nat ltac:(discriminate)
      ltac:(vm_compute; lia)) as H.
    change (Z.of_nat (length [7] + 1)) with 2 in H. change ((Some <$> [7]) ++ [None]) with [Some 7; None] in H.
    destruct (sys_setgroups 2 [Some 7; None] s1) as [s' r]. split; apply H.
Defined.
