(* ===== verification/Limits.v ===== *)
(** * Resource limits, usage, umask and the host name (kernel/sys.c)

    [privileged] stands for the [capable] test of the call.  Values a call copies to
    user space are part of its result. *)
From stdpp Require Import base list functions relations.
From S2P Require Import Prelude Pages Sched Cred.

Definition RLIM_NLIMITS : Z := 11.
Definition RLIMIT_RSS : Z := 5.
Definition RLIMIT_NOFILE : Z := 7.
Definition RLIM_INFINITY : Z := 4294967295.
Definition NR_OPEN : Z := 1048576.

(** [struct rlimit] *)
Record rlimit := Rlimit {
  rlim_cur : Z;
  rlim_max : Z
}.

(** The limits of a task and [mm->rlimit_rss], [None] for a task without [mm]. *)
Record limits := Limits {
  rlim : Z -> rlimit;
  rlimit_rss : option Z
}.
#[export] Instance eta_limits : Eta limits := fun s => Limits (rlim s) (rlimit_rss s).

Definition sys_getrlimit (resource : Z) (fault : bool) (s : limits) : Z * option rlimit :=
  if RLIM_NLIMITS <=? resource then (- EINVAL, None)
  else if fault then (- EFAULT, None) else (0, Some (rlim s resource)).

Definition clamp31 (x : Z) : Z := if 2147483647 <? x then 2147483647 else x.
Definition sys_old_getrlimit (resource : Z) (fault : bool) (s : limits) : Z * option rlimit :=
  if RLIM_NLIMITS <=? resource then (- EINVAL, None)
  else
    let x := rlim s resource in
    if fault then (- EFAULT, None) else (0, Some (Rlimit (clamp31 (rlim_cur x)) (clamp31 (rlim_max x)))).

(** [new] is the structure read from user space, [None] on a fault. *)
Definition sys_setrlimit (resource : Z) (new : option rlimit) (privileged : bool) (s : limits) : limits * Z :=
  if RLIM_NLIMITS <=? resource then (s, - EINVAL)
  else match new with
  | None => (s, - EFAULT)
  | Some new_rlim =>
      let old_rlim := rlim s resource in
      if ((rlim_max old_rlim <? rlim_cur new_rlim) || (rlim_max old_rlim <? rlim_max new_rlim)) && negb privileged
      then (s, - EPERM)
      else if (resource =? RLIMIT_NOFILE) && ((NR_OPEN <? rlim_cur new_rlim) || (NR_OPEN <? rlim_max new_rlim))
      then (s, - EPERM)
      else
        let s1 := if negb (resource =? RLIMIT_NOFILE) && (resource =? RLIMIT_RSS) then
                    s <| rlimit_rss ::= fmap (fun _ => if negb (rlim_cur new_rlim =? RLIM_INFINITY)
                                                       then Z.shiftr (rlim_cur new_rlim) PAGE_SHIFT
                                                       else RLIM_INFINITY) |>
                  else s in
        (s1 <| rlim ::= <[resource := new_rlim]> |>, 0)
  end.

(** reparent_to_init: the [memcpy] of [init_task.rlim] has the size of one element. *)
Definition reparent_rlim (init s : limits) : limits := s <| rlim ::= <[0 := rlim init 0]> |>.

(** ** getrusage *)

Definition CT_TO_SECS (x : Z) : Z := Z.quot x HZ.
Definition CT_TO_USECS (x : Z) : Z := Z.quot (Z.rem x HZ * 1000000) HZ.

(** The counters of a task and of its dead children. *)
Record usage := Usage {
  tms_utime : Z; tms_stime : Z; tms_cutime : Z; tms_cstime : Z;
  min_flt : Z; maj_flt : Z; nswap : Z; cmin_flt : Z; cmaj_flt : Z; cnswap : Z
}.
(** The fields of [struct rusage] that are not zero. *)
Record rusage := Rusage {
  ru_utime : Z * Z; ru_stime : Z * Z; ru_minflt : Z; ru_majflt : Z; ru_nswap : Z
}.
Definition ct_timeval (x : Z) : Z * Z := (CT_TO_SECS x, CT_TO_USECS x).

Definition RUSAGE_SELF : Z := 0.
Definition RUSAGE_CHILDREN : Z := -1.

Definition getrusage (p : usage) (who : Z) (fault : bool) : Z * option rusage :=
  let r :=
    if who =? RUSAGE_SELF then
      Rusage (ct_timeval (tms_utime p)) (ct_timeval (tms_stime p)) (min_flt p) (maj_flt p) (nswap p)
    else if who =? RUSAGE_CHILDREN then
      Rusage (ct_timeval (tms_cutime p)) (ct_timeval (tms_cstime p)) (cmin_flt p) (cmaj_flt p) (cnswap p)
    else
      Rusage (ct_timeval (tms_utime p + tms_cutime p)) (ct_timeval (tms_stime p + tms_cstime p))
        (min_flt p + cmin_flt p) (maj_flt p + cmaj_flt p) (nswap p + cnswap p) in
  if fault then (- EFAULT, None) else (0, Some r).

Definition sys_getrusage (current : usage) (who : Z) (fault : bool) : Z * option rusage :=
  if negb (who =? RUSAGE_SELF) && negb (who =? RUSAGE_CHILDREN) then (- EINVAL, None)
  else getrusage current who fault.

(** The new umask and the old one. *)
Definition sys_umask (mask : Z) (umask : Z) : Z * Z := (Z.land mask 511, umask).

(** ** Host and domain name *)

Definition __NEW_UTS_LEN : Z := 64.

(** The two names of [system_utsname] that can be set, arrays of 65 bytes. *)
Record utsname := Utsname {
  nodename : list Z;
  domainname : list Z
}.
#[export] Instance eta_utsname : Eta utsname := fun u => Utsname (nodename u) (domainname u).

(** [copy_from_user(array, name, len)], then [array[len] = 0] if it did not fault. *)
Definition set_name (name : list (option Z)) (len : Z) (array : list Z) : list Z * Z :=
  let '(l, fault) := copy_from_user (Z.to_nat len) name in
  let array := l ++ drop (length l) array in
  if fault then (array, - EFAULT) else (<[Z.to_nat len := 0]> array, 0).

Definition sys_sethostname (name : list (option Z)) (len : Z) (privileged : bool) (u : utsname) : utsname * Z :=
  if negb privileged then (u, - EPERM)
  else if (len <? 0) || (__NEW_UTS_LEN <? len) then (u, - EINVAL)
  else let '(a, err) := set_name name len (nodename u) in (u <| nodename := a |>, err).

Definition sys_setdomainname (name : list (option Z)) (len : Z) (privileged : bool) (u : utsname) : utsname * Z :=
  if negb privileged then (u, - EPERM)
  else if (len <? 0) || (__NEW_UTS_LEN <? len) then (u, - EINVAL)
  else let '(a, err) := set_name name len (domainname u) in (u <| domainname := a |>, err).

Fixpoint strlen (s : list Z) : option nat :=
  match s with
  | [] => None
  | c :: s' => if c =? 0 then Some O else S <$> strlen s'
  end.

(** The result and the bytes copied out; [None] when there is no end of string within
    the array. *)
Definition sys_gethostname (len : Z) (fault : bool) (u : utsname) : option (Z * list Z) :=
  if len <? 0 then Some (- EINVAL, [])
  else
    n ← strlen (nodename u);
    let i := 1 + Z.of_nat n in
    let i := if len <? i then len else i in
    Some (if fault then (- EFAULT, []) else (0, take (Z.to_nat i) (nodename u))).

Definition sys_newuname (fault : bool) (u : utsname) : Z * option utsname :=
  if fault then (- EFAULT, None) else (0, Some u).

(** ** Limits only shrink *)

Inductive lstep (s : limits) : limits -> Prop :=
  | l_set resource new : 0 <= resource -> lstep s (fst (sys_setrlimit resource new false s)).

(** No task without CAP_SYS_RESOURCE has got beyond the hard limits [s0] had. *)
Record shrunk (s0 s : limits) : Prop := Shrunk {
  sk_max : forall r, rlim_max (rlim s r) <= rlim_max (rlim s0 r);
  sk_cur : forall r, rlim_cur (rlim s r) <= rlim_cur (rlim s0 r) \/ rlim_cur (rlim s r) <= rlim_max (rlim s0 r)
}.

Lemma setrlimit_shrunk s0 s resource new : shrunk s0 s -> shrunk s0 (fst (sys_setrlimit resource new false s)).
Proof.
  intros [H1 H2]. unfold sys_setrlimit. destruct (_ <=? _); [done|]. destruct new as [new|]; [|done]. cbv zeta.
  rewrite andb_true_r. destruct (_ || _) eqn:E; [done|]. b2p. destruct (_ && (_ || _)); [done|]. cbn [fst].
  match goal with |- shrunk _ (update rlim _ ?x) => set (s1 := x) end.
  assert (E1 : rlim s1 = rlim s) by (unfold s1; by destruct (_ && _)). clearbody s1.
  specialize (H1 resource) as Hm. split; intros r; simpl; rewrite E1;
    (destruct (decide (r = resource)) as [->|Hne]; [rewrite fn_lookup_insert|rewrite fn_lookup_insert_ne by done]); auto; lia.
Qed.

(** A task without CAP_SYS_RESOURCE can only lower its hard limits, whatever sequence of
    [setrlimit] calls it makes, and its soft limits never pass the original hard
    limits; a refused call changes nothing. *)
Theorem rlimits_only_shrink s s' : rtc lstep s s' ->
  (forall r, rlim_max (rlim s' r) <= rlim_max (rlim s r)) /\
  (forall r, rlim_cur (rlim s r) <= rlim_max (rlim s r) -> rlim_cur (rlim s' r) <= rlim_max (rlim s r)) /\
  (forall r new p, snd (sys_setrlimit r new p s') <> 0 -> fst (sys_setrlimit r new p s') = s').
Proof.
  intros Hr. assert (H : shrunk s s').
  { assert (H0 : shrunk s s) by (split; intros r; lia). revert H0. generalize s at 1 3 as s0.
    induction Hr as [|a b c Hab _ IH]; intros s0 H0; [done|]. apply IH. destruct Hab. by apply setrlimit_shrunk. }
  destruct H as [H1 H2]. split; [done|]. split.
  - intros r Hc. specialize (H2 r). lia.
  - intros r new p. unfold sys_setrlimit. repeat case_match; done.
Qed.

Lemma rlimits_only_shrink_witness :
  exists s', rtc lstep (Limits (fun _ => Rlimit 10 20) None) s' /\ rlim_max (rlim s' 6) <= 20.
Proof.
  set (s := Limits (fun _ => Rlimit 10 20) None).
  exists (fst (sys_setrlimit 6 (Some (Rlimit 5 7)) false s)).
  assert (H : rtc lstep s (fst (sys_setrlimit 6 (Some (Rlimit 5 7)) false s))) by (apply rtc_once, l_set; lia).
  split; [exact H|]. apply (proj1 (rlimits_only_shrink s _ H) 6).
Defined.

(** ** Host name *)

(** A string of at most 64 bytes in its array. *)
Definition terminated (a : list Z) : Prop := length a = 65%nat /\ a !! 64%nat = Some 0.

Lemma copy_length n src : length (fst (copy_from_user n src)) = n.
Proof.
  revert src. induction n as [|n IH]; intros src; [done|]. cbn [copy_from_user]. destruct src as [|[v|] src].
  - simpl. by rewrite length_replicate.
  - specialize (IH src). destruct (copy_from_user n src). simpl in *. by rewrite IH.
  - simpl. by rewrite length_replicate.
Qed.

Lemma set_name_terminated name len a : terminated a -> 0 <= len <= 64 -> terminated (fst (set_name name len a)).
Proof.
  intros [H1 H2] Hl. unfold set_name. pose proof (copy_length (Z.to_nat len) name) as Hn.
  destruct (copy_from_user _ name) as [l fault]. simpl in Hn.
  assert (Ha : terminated (l ++ drop (length l) a)).
  { split; [rewrite length_app, length_drop; lia|]. rewrite lookup_app_r by lia. rewrite lookup_drop.
    by replace (length l + (64 - length l))%nat with 64%nat by lia. }
  destruct fault; [done|]. cbn [fst]. destruct Ha as [A1 A2]. split; [by rewrite length_insert|].
  destruct (decide (Z.to_nat len = 64%nat)) as [->|Hne]; [apply list_lookup_insert_eq; lia|by rewrite list_lookup_insert_ne].
Qed.

Lemma strlen_terminated a i : a !! i = Some 0 -> exists n, strlen a = Some n.
Proof.
  revert i. induction a as [|c a IH]; intros i; [done|]. simpl. destruct (c =? 0) eqn:E; [by exists O|].
  destruct i as [|i]; [intros [= ->]; done|]. intros (n & ->)%IH. by exists (S n).
Qed.

Lemma strlen_app l tl : Forall (fun c => c <> 0) l -> strlen (l ++ 0 :: tl) = Some (length l).
Proof.
  induction 1 as [|c l Hc _ IH]; [done|]. simpl. rewrite (proj2 (Z.eqb_neq _ _) Hc), IH. done.
Qed.

(** The array after a successful [set_name]. *)
Lemma set_name_value l a : length a = 65%nat -> (length l <= 64)%nat ->
  set_name (Some <$> l) (Z.of_nat (length l)) a = (l ++ 0 :: drop (S (length l)) a, 0).
Proof.
  intros Ha Hl. unfold set_name. rewrite Nat2Z.id. rewrite <- (app_nil_r (Some <$> l)), copy_from_user_all. f_equal.
  rewrite insert_app_r_alt by lia. rewrite Nat.sub_diag. f_equal.
  destruct (drop (length l) a) as [|x tl] eqn:E.
  - apply (f_equal length) in E. rewrite length_drop in E. simpl in E. lia.
  - rewrite <- Nat.add_1_r, <- drop_drop, E. done.
Qed.

(** The host name is always a terminated string within its 65 bytes, also after a call
    whose copy faulted half way, so that [gethostname] never runs off its end; and a
    name of up to 64 bytes that has been set is read back, with its terminator
    if the buffer has room for it and cut off without one if it has not. *)
Theorem hostname_roundtrip u l len privileged :
  terminated (nodename u) ->
  (forall name n, terminated (nodename (fst (sys_sethostname name n privileged u)))) /\
  (exists r, sys_gethostname len false u = Some r) /\
  (Forall (fun c => c <> 0) l -> (length l <= 64)%nat -> 0 <= len ->
   let u' := fst (sys_sethostname (Some <$> l) (Z.of_nat (length l)) true u) in
   sys_gethostname len false u' = Some (0, take (Z.to_nat len) (l ++ [0]))).
Proof.
  intros Hu. split; [|split].
  - intros name n. unfold sys_sethostname. destruct (negb privileged); [done|].
    destruct (_ || _) eqn:E; [done|]. b2p. pose proof (set_name_terminated name n (nodename u) Hu) as Ht.
    destruct (set_name _ _ _). apply Ht. unfold __NEW_UTS_LEN in *. lia.
  - unfold sys_gethostname. destruct (len <? 0); [by eexists|].
    destruct (strlen_terminated _ _ (proj2 Hu)) as (n & ->). by eexists.
  - intros Hz Hl Hn. cbv zeta. unfold sys_sethostname. cbn [negb].
    replace ((Z.of_nat (length l) <? 0) || (__NEW_UTS_LEN <? Z.of_nat (length l))) with false.
    2:{ symmetry. apply orb_false_iff. unfold __NEW_UTS_LEN. lia. }
    rewrite set_name_value by (done || apply Hu). unfold sys_gethostname. simpl fst.
    destruct (Z.ltb_spec len 0); [lia|]. cbn [nodename]. rewrite strlen_app by done. unfold mbind, option_bind. cbv zeta.
    do 2 f_equal. destruct (Z.ltb_spec len (1 + Z.of_nat (length l))).
    + rewrite !take_app_le by lia. done.
    + replace (Z.to_nat (1 + Z.of_nat (length l))) with (length (l ++ [0])) by (rewrite length_app; simpl; lia).
      rewrite (take_ge (l ++ [0])) by (rewrite length_app; simpl; lia).
      change (0 :: drop (S (length l)) (nodename u)) with ([0] ++ drop (S (length l)) (nodename u)).
      rewrite app_assoc. apply take_app_length.
Qed.

Lemma hostname_roundtrip_witness :
  let u := Utsname (replicate 65 0) (replicate 65 0) in
  sys_gethostname 3 false (fst (sys_sethostname (Some <$> [104; 111; 115; 116]) 4 true u)) = Some (0, [104; 111; 115]).
Proof.
  cbv zeta. apply (hostname_roundtrip (Utsname (replicate 65 0) (replicate 65 0)) [104; 111; 115; 116] 3 true).
  - split; reflexivity.
  - repeat constructor; discriminate.
  - simpl. lia.
  - lia.
Defined.
