(* ===== verification/Timer.v ===== *)
(** * Kernel timers (kernel/timer.c)

    The timer wheel: five vectors of lists, [tvec n] being [tvecs[n]] ([tv1] is number 0).
    [running] is [run_timer_list_running], with the contents of the list [queued] it
    points to.  [linked t] says that [timer->list.next] is not NULL.  A timer's function
    may add, modify and delete timers: [fn t] is the list of what it does. *)
From stdpp Require Import base list functions.
From S2P Require Import Prelude.

Definition tm : Type := Z.
Definition TVN_BITS : Z := 6.
Definition TVR_BITS : Z := 8.
Definition TVN_MASK : Z := 63.
Definition TVR_SIZE : Z := 256.
Definition TVR_MASK : Z := 255.
Definition NOOF_TVECS : Z := 5.

Record wheel := Wheel {
  tvec : Z -> Z -> list tm;
  tindex : Z -> Z;
  timer_jiffies : Z;
  running : option (list tm);
  expires : tm -> Z;
  linked : tm -> bool
}.
#[export] Instance eta_wheel : Eta wheel := fun w =>
  Wheel (tvec w) (tindex w) (timer_jiffies w) (running w) (expires w) (linked w).

Definition alter_slot (n i : Z) (f : list tm -> list tm) (v : Z -> Z -> list tm) : Z -> Z -> list tm :=
  fun n' i' => if (n' =? n) && (i' =? i) then f (v n' i') else v n' i'.

(** [INIT_LIST_HEAD] of all slots; the indices and [timer_jiffies] are zero at boot. *)
Definition init_timervecs (w : wheel) : wheel := w <| tvec := fun _ _ => [] |>.

(** [list_add(&timer->list, vec->prev)] *)
Definition add_tail (n i : Z) (t : tm) (w : wheel) : wheel :=
  w <| tvec ::= alter_slot n i (fun l => l ++ [t]) |>.

Definition internal_add_timer (t : tm) (w : wheel) : wheel :=
  let e := expires w t in
  let idx := u32 (e - timer_jiffies w) in
  let w := w <| linked ::= <[t := true]> |> in
  match running w with
  | Some q => w <| running := Some (q ++ [t]) |>
  | None =>
      if idx <? TVR_SIZE then add_tail 0 (Z.land e TVR_MASK) t w
      else if idx <? Z.shiftl 1 (TVR_BITS + TVN_BITS) then
        add_tail 1 (Z.land (Z.shiftr e TVR_BITS) TVN_MASK) t w
      else if idx <? Z.shiftl 1 (TVR_BITS + 2 * TVN_BITS) then
        add_tail 2 (Z.land (Z.shiftr e (TVR_BITS + TVN_BITS)) TVN_MASK) t w
      else if idx <? Z.shiftl 1 (TVR_BITS + 3 * TVN_BITS) then
        add_tail 3 (Z.land (Z.shiftr e (TVR_BITS + 2 * TVN_BITS)) TVN_MASK) t w
      else if s32 idx <? 0 then add_tail 0 (tindex w 0) t w
      else add_tail 4 (Z.land (Z.shiftr e (TVR_BITS + 3 * TVN_BITS)) TVN_MASK) t w
  end.

Definition add_timer (t : tm) (w : wheel) : wheel := if linked w t then w else internal_add_timer t w.

(** [list_del(&timer->list)] *)
Definition list_del (t : tm) (w : wheel) : wheel :=
  w <| tvec ::= fun v n i => filter (fun u => u <> t) (v n i) |>
    <| running ::= fmap (filter (fun u => u <> t)) |>.

Definition detach_timer (t : tm) (w : wheel) : wheel * Z :=
  if negb (linked w t) then (w, 0) else (list_del t w, 1).

Definition set_expires (t : tm) (e : Z) (w : wheel) : wheel := w <| expires ::= <[t := u32 e]> |>.

Definition mod_timer (t : tm) (e : Z) (w : wheel) : wheel * Z :=
  let '(w, ret) := detach_timer t (set_expires t e w) in (internal_add_timer t w, ret).

Definition del_timer (t : tm) (w : wheel) : wheel * Z :=
  let '(w, ret) := detach_timer t w in (w <| linked ::= <[t := false]> |>, ret).

(** ** Running the timers *)

(** The loop of [cascade_timers]: [next] is taken before the timer moves, so the loop
    ends with the timer that was last; [None] when [k] turns were not enough. *)
Fixpoint cascade_loop (k : nat) (n i : Z) (w : wheel) : option wheel :=
  match tvec w n i with
  | [] => Some w
  | t :: rest =>
      match k with
      | O => None
      | S k' =>
          let w' := internal_add_timer t (list_del t w) in
          match rest with [] => Some w' | _ => cascade_loop k' n i w' end
      end
  end.

Definition cascade_timers (n : Z) (w : wheel) : option wheel :=
  let i := tindex w n in
  w1 ← cascade_loop (length (tvec w n i)) n i w;
  Some (w1 <| tvec ::= alter_slot n i (fun _ => []) |>
           <| tindex ::= <[n := Z.land (tindex w1 n + 1) TVN_MASK]> |>).

(** The [do ... while] over the vectors, [k] of which are left. *)
Fixpoint cascade_levels (k : nat) (n : Z) (w : wheel) : option wheel :=
  match k with
  | O => None
  | S k' =>
      w1 ← cascade_timers n w;
      if (tindex w1 n =? 1) && (n + 1 <? NOOF_TVECS) then cascade_levels k' (n + 1) w1 else Some w1
  end.

(** What a timer's function can do. *)
Inductive top :=
  | OAdd (t : tm) (e : Z)
  | OMod (t : tm) (e : Z)
  | ODel (t : tm).

(** [OAdd] sets [expires] of a timer that is not pending and adds it. *)
Definition run_op (w : wheel) (o : top) : wheel :=
  match o with
  | OAdd t e => if linked w t then w else add_timer t (set_expires t e w)
  | OMod t e => fst (mod_timer t e w)
  | ODel t => fst (del_timer t w)
  end.

Section run.
Context (fn : tm -> list top).

(** From [repeat:] on: the timers run, in order. *)
Fixpoint fire_loop (k : nat) (w : wheel) : option (wheel * list tm) :=
  match tvec w 0 (tindex w 0) with
  | [] => Some (w, [])
  | t :: _ =>
      match k with
      | O => None
      | S k' =>
          let w1 := (fst (detach_timer t w)) <| linked ::= <[t := false]> |> in
          r ← fire_loop k' (fold_left run_op (fn t) w1);
          Some (fst r, t :: snd r)
      end
  end.

(** One turn of the outer loop of [run_timer_list]. *)
Definition timer_turn (w : wheel) : option (wheel * list tm) :=
  w1 ← (if tindex w 0 =? 0 then cascade_levels 4 1 w else Some w);
  let w2 := w1 <| running := Some [] |> in
  r ← fire_loop (length (tvec w2 0 (tindex w2 0))) w2;
  let '(w3, fired) := r in
  let queued := default [] (running w3) in
  let w4 := w3 <| running := None |> <| timer_jiffies ::= fun j => u32 (j + 1) |>
  <| tindex ::= <[0 := Z.land (tindex w3 0 + 1) TVR_MASK]> |> in
  Some (fold_left (fun w t => internal_add_timer t w) queued w4, fired).

(** [while ((long)(jiffies - timer_jiffies) >= 0)]; the timers run in each turn. *)
Fixpoint run_timer_list (k : nat) (jiffies : Z) (w : wheel) : option (wheel * list (list tm)) :=
  if 0 <=? s32 (jiffies - timer_jiffies w) then
    match k with
    | O => None
    | S k' =>
        r ← timer_turn w;
        r' ← run_timer_list k' jiffies (fst r);
        Some (fst r', snd r :: snd r')
    end
  else Some (w, []).
End run.
