(* ===== verification/TimerProofs.v ===== *)
(** * The timer wheel keeps time

    [slots_ok w T L due q]: at time [T] the wheel holds the timers with their due times
    [due], in the slots where the cascade finds them in time; [L n] is [T], or
    [T + 1] when vector [n] has already been dealt with in this turn, and [q] is the
    list of timers still to be added to the wheel. *)
From stdpp Require Import base list functions sets relations.
From S2P Require Import Prelude Timer.

(** ** Arithmetic of the vectors *)

(** Jiffies per slot, and slots, of vector [n]. *)
Definition gran (n : Z) : Z := if n =? 0 then 1 else 2 ^ (2 + 6 * n).
Definition slots (n : Z) : Z := if n =? 0 then 256 else 64.
Definition cdiv (a g : Z) : Z := (a + g - 1) / g.

Lemma level_cases n : 0 <= n < 5 -> n = 0 \/ n = 1 \/ n = 2 \/ n = 3 \/ n = 4.
Proof. lia. Qed.

Ltac levels H := apply level_cases in H as [->|[->|[->|[->| ->]]]].

Lemma gran_pos n : 0 <= n < 6 -> 0 < gran n.
Proof. intros H. unfold gran. destruct (n =? 0); [lia|]. apply Z.pow_pos_nonneg; lia. Qed.

Lemma gran_succ n : 0 <= n < 5 -> gran (n + 1) = gran n * slots n.
Proof. intros H. levels H; reflexivity. Qed.

Lemma gran_mono n m : 0 <= n <= m -> m < 6 -> (gran n | gran m) /\ gran n <= gran m.
Proof.
  intros Hn Hm. assert (Hd : (gran n | gran m)).
  { replace m with (n + Z.of_nat (Z.to_nat (m - n))) in * by lia. remember (Z.to_nat (m - n)) as k eqn:Hk. clear Hk.
    induction k as [|k IH]; [rewrite Z.add_0_r; reflexivity|].
    replace (n + Z.of_nat (S k)) with (n + Z.of_nat k + 1) by lia. rewrite gran_succ by lia.
    apply Z.divide_mul_l, IH; lia. }
  split; [done|]. apply Z.divide_pos_le; [apply gran_pos; lia|done].
Qed.

(** The slot the code computes from the low 32 bits. *)
Lemma slot_bits D s b : 0 <= s -> 0 <= b -> s + b <= 32 ->
  Z.land (Z.shiftr (D mod 2 ^ 32) s) (Z.ones b) = (D / 2 ^ s) mod 2 ^ b.
Proof.
  intros Hs Hb Hsb. rewrite Z.land_ones, Z.shiftr_div_pow2 by lia. apply Z.bits_inj'. intros i Hi.
  destruct (Z.lt_ge_cases i b).
  - rewrite !Z.mod_pow2_bits_low, !Z.div_pow2_bits, Z.mod_pow2_bits_low by lia. done.
  - rewrite !Z.mod_pow2_bits_high by lia. done.
Qed.

(** A multiple of [g] at most [g] below. *)
Lemma floor_above D T g : 0 < g -> T + g <= D -> T + 1 <= D / g * g.
Proof. intros Hg H. pose proof (Z.mod_pos_bound D g Hg). pose proof (Z.div_mod D g). nia. Qed.

Lemma floor_below D g : 0 < g -> D / g * g <= D.
Proof. intros Hg. pose proof (Z.mod_pos_bound D g Hg). pose proof (Z.div_mod D g). nia. Qed.

(** Two numbers less than a period apart, congruent. *)
Lemma same_mod a b m : 0 < m -> a <= b < a + m -> a mod m = b mod m -> a = b.
Proof.
  intros Hm H E. pose proof (Z.div_mod a m ltac:(lia)). pose proof (Z.div_mod b m ltac:(lia)).
  assert (b / m = a / m); nia.
Qed.

Lemma cdiv_multiple T g : 0 < g -> (g | T) -> cdiv T g = T / g /\ cdiv (T + 1) g = T / g + 1.
Proof.
  intros Hg [k ->]. unfold cdiv. rewrite Z.div_mul by lia. split.
  - replace (k * g + g - 1) with ((g - 1) + k * g) by lia. rewrite Z.div_add by lia. rewrite Z.div_small; lia.
  - replace (k * g + 1 + g - 1) with ((k + 1) * g) by lia. apply Z.div_mul. lia.
Qed.

Lemma cdiv_other T g : 0 < g -> ~ (g | T) -> cdiv (T + 1) g = cdiv T g.
Proof.
  intros Hg Hn. unfold cdiv. replace (T + 1 + g - 1) with (T + 1 * g) by lia. rewrite Z.div_add by lia.
  assert (Hm : T mod g <> 0) by (intros E; apply Hn, Z.mod_divide; [lia|done]).
  pose proof (Z.div_mod T g ltac:(lia)). pose proof (Z.mod_pos_bound T g Hg).
  apply (Z.div_unique _ _ _ (T mod g - 1)); lia.
Qed.

(** ** Due times *)

(** When a timer added at time [B] with [expires = e] is due: a time in the past means
    at once. *)
Definition due_of (B e : Z) : Z := B + (if u32 (e - B) <? 2 ^ 31 then u32 (e - B) else 0).

Lemma u32_sub_r a b : u32 (a - u32 b) = u32 (a - b).
Proof. unfold u32. by rewrite Zminus_mod_idemp_r. Qed.

Lemma due_bounds B e : B <= due_of B e < B + 2 ^ 31.
Proof. unfold due_of. pose proof (u32_range (e - B)). destruct (Z.ltb_spec (u32 (e - B)) (2 ^ 31)); lia. Qed.

Lemma due_again T D e : e = D mod 2 ^ 32 -> T <= D < T + 2 ^ 31 -> due_of T e = D.
Proof.
  intros -> H. unfold due_of, u32. rewrite Zminus_mod_idemp_l, Z.mod_small by lia.
  destruct (Z.ltb_spec (D - T) (2 ^ 31)); lia.
Qed.

Lemma due_expires T e : 0 <= e < 2 ^ 32 -> due_of T e <> T -> due_of T e mod 2 ^ 32 = e.
Proof.
  intros He. unfold due_of, u32. destruct (_ <? _); [|lia]. intros _.
  rewrite Zplus_mod_idemp_r. replace (T + (e - T)) with e by lia. by apply Z.mod_small.
Qed.

(** ** The invariant *)

(** A timer with [expires = e] and due time [D] in slot [i] of vector [n]. *)
Record in_slot (T : Z) (L : Z -> Z) (n i e D : Z) : Prop := InSlot {
  is_level : 0 <= n < 5;
  is_time : T <= D < T + gran (n + 1);
  is_slot : i = (D / gran n) mod slots n;
  is_next : L n <= D / gran n * gran n;
  is_expires : 1 <= n -> D mod 2 ^ 32 = e /\ D < T + 2 ^ 31
}.

Record slots_ok (w : wheel) (T : Z) (L : Z -> Z) (due : tm -> option Z) (B : Z) (q : list tm) : Prop := SlotsOk {
  so_time : timer_jiffies w = u32 T;
  so_index : forall n, 0 <= n < 5 -> tindex w n = cdiv (L n) (gran n) mod slots n;
  so_slot : forall n i t, t ∈ tvec w n i -> exists D, due t = Some D /\ in_slot T L n i (expires w t) D;
  so_all : forall t D, due t = Some D -> t ∈ q \/ exists n i, t ∈ tvec w n i;
  so_uniq : forall t n i n' i', t ∈ tvec w n i -> t ∈ tvec w n' i' -> n = n' /\ i = i';
  so_nodup : forall n i, NoDup (tvec w n i);
  so_queued : forall t, t ∈ q -> due t = Some (due_of B (expires w t)) /\ forall n i, t ∉ tvec w n i;
  so_q_nodup : NoDup q;
  so_expires : forall t, 0 <= expires w t < 2 ^ 32
}.

Definition linked_ok (w : wheel) (due : tm -> option Z) : Prop := forall t, linked w t = bool_decide (is_Some (due t)).

Lemma slots_ext w T L due due' B q : slots_ok w T L due B q -> (forall t, due' t = due t) -> slots_ok w T L due' B q.
Proof. intros [S1 S2 S3 S4 S5 S6 S7 S8 S9] E. split; auto; intros; rewrite ?E in *; eauto. Qed.

(** The invariant sees the lists, indices, time and expiry times only. *)
Lemma slots_same w w' T L due B q : slots_ok w T L due B q -> tvec w' = tvec w -> tindex w' = tindex w ->
  timer_jiffies w' = timer_jiffies w -> expires w' = expires w -> slots_ok w' T L due B q.
Proof.
  intros [S1 S2 S3 S4 S5 S6 S7 S8 S9] E1 E2 E3 E4. split; rewrite ?E1, ?E2, ?E3, ?E4; auto.
Qed.

(** ** Putting a timer into a slot *)

Lemma slots_place w T L due B q t n i D : slots_ok w T L due B q -> t ∉ q -> (forall n i, t ∉ tvec w n i) ->
  in_slot T L n i (expires w t) D -> slots_ok (add_tail n i t w) T L (<[t := Some D]> due) B q.
Proof.
  intros [S1 S2 S3 S4 S5 S6 S7 S8 S9] Hq Hn Hi.
  assert (Hv : forall n' i' u, u ∈ tvec (add_tail n i t w) n' i' <-> u ∈ tvec w n' i' \/ u = t /\ n' = n /\ i' = i).
  { intros n' i' u. unfold add_tail. simpl. unfold alter_slot.
    destruct (Z.eqb_spec n' n), (Z.eqb_spec i' i); simpl; rewrite ?elem_of_app, ?list_elem_of_singleton; naive_solver. }
  split; try done.
  - intros n' i' u [Hu|(-> & -> & ->)]%Hv.
    + assert (u <> t) by (intros ->; by apply Hn in Hu). rewrite fn_lookup_insert_ne by done. by apply S3.
    + rewrite fn_lookup_insert. exists D. by split.
  - intros u D' Hu. destruct (decide (u = t)) as [->|Hne].
    + right. exists n, i. apply Hv. by right.
    + rewrite fn_lookup_insert_ne in Hu by done. destruct (S4 u D' Hu) as [?|(n' & i' & ?)]; [by left|].
      right. exists n', i'. apply Hv. by left.
  - intros u n1 i1 n2 i2 [H1|(-> & -> & ->)]%Hv [H2|(E & -> & ->)]%Hv.
    + by eapply S5.
    + subst u. by apply Hn in H1.
    + by apply Hn in H2.
    + done.
  - intros n' i'. unfold add_tail. simpl. unfold alter_slot. destruct (_ && _); [|done].
    apply NoDup_app. split_and!; [done| |apply NoDup_singleton]. intros u Hu ->%list_elem_of_singleton. by apply Hn in Hu.
  - intros u Hu. assert (u <> t) by (intros ->; done). rewrite fn_lookup_insert_ne by done.
    destruct (S7 u Hu) as [E H7]. split; [done|]. intros n' i' [Hin|(-> & _)]%Hv; [by apply H7 in Hin|done].
Qed.

(** ** Taking a timer out *)

Lemma slots_remove w T L due B q t : slots_ok w T L due B q ->
  slots_ok (list_del t w) T L (<[t := None]> due) B (filter (fun u => u <> t) q).
Proof.
  intros [S1 S2 S3 S4 S5 S6 S7 S8 S9].
  assert (Hv : forall n i u, u ∈ tvec (list_del t w) n i <-> u <> t /\ u ∈ tvec w n i).
  { intros n i u. unfold list_del. simpl. by rewrite list_elem_of_filter. }
  split; try done.
  - intros n i u [Hne Hu]%Hv. rewrite fn_lookup_insert_ne by done. by apply S3.
  - intros u D. destruct (decide (u = t)) as [->|Hne]; [by rewrite fn_lookup_insert|].
    rewrite fn_lookup_insert_ne by done. intros [Hq|(n & i & Hi)]%S4.
    + left. by apply list_elem_of_filter.
    + right. exists n, i. by apply Hv.
  - intros u n1 i1 n2 i2 [_ H1]%Hv [_ H2]%Hv. by eapply S5.
  - intros n i. unfold list_del. simpl. by apply NoDup_filter.
  - intros u [Hne Hu]%list_elem_of_filter. destruct (S7 u Hu) as [E H7].
    rewrite fn_lookup_insert_ne by done. split; [done|]. intros n i [_ H]%Hv. by apply H7 in H.
  - by apply NoDup_filter.
Qed.

(** ** internal_add_timer *)

Lemma code_slot n D : 1 <= n < 5 -> Z.land (Z.shiftr (D mod 2 ^ 32) (2 + 6 * n)) TVN_MASK = (D / gran n) mod slots n.
Proof.
  intros H. unfold gran, slots. rewrite (proj2 (Z.eqb_neq n 0)) by lia.
  change TVN_MASK with (Z.ones 6). change 64 with (2 ^ 6). apply slot_bits; lia.
Qed.

Lemma level_slot T L n D e : 1 <= n < 5 -> L n <= T + 1 -> gran n <= D - T < gran (n + 1) -> D < T + 2 ^ 31 ->
  D mod 2 ^ 32 = e -> in_slot T L n ((D / gran n) mod slots n) e D.
Proof.
  intros Hn HL Hg HD He. pose proof (gran_pos n ltac:(lia)). split; try done; try lia.
  pose proof (floor_above D T (gran n)). lia.
Qed.

Lemma root_slot T L D e : L 0 = T -> T <= D < T + 256 -> in_slot T L 0 (D mod 256) e D.
Proof.
  intros HL HD. split; try lia.
  - change (gran (0 + 1)) with 256. lia.
  - change (gran 0) with 1. by rewrite Z.div_1_r.
  - change (gran 0) with 1. rewrite Z.div_1_r, HL. lia.
Qed.

Lemma add_level t w T L due B q : slots_ok w T L due B q -> running w = None -> L 0 = T ->
  (forall n, 0 <= n < 5 -> L n <= T + 1) ->
  exists n i, internal_add_timer t w = add_tail n i t (w <| linked ::= <[t := true]> |>) /\
    in_slot T L n i (expires w t) (due_of T (expires w t)) /\
    (n = 0 \/ gran n <= due_of T (expires w t) - T).
Proof.
  intros Hs Hr H0 HL. pose proof (so_expires _ _ _ _ _ _ Hs t) as He. set (e := expires w t) in *.
  unfold internal_add_timer. cbv zeta. fold e. rewrite (so_time _ _ _ _ _ _ Hs), u32_sub_r.
  change (running (update linked ?f w)) with (running w). rewrite Hr.
  change (tindex (update linked ?f w)) with (tindex w).
  pose proof (u32_range (e - T)) as Hidx. set (idx := u32 (e - T)) in *.
  assert (Hmod : (T + idx) mod 2 ^ 32 = e).
  { unfold idx, u32. rewrite Zplus_mod_idemp_r. replace (T + (e - T)) with e by lia. by apply Z.mod_small. }
  assert (Hdue : idx < 2 ^ 31 -> due_of T e = T + idx).
  { intros H. unfold due_of. fold idx. destruct (Z.ltb_spec idx (2 ^ 31)); lia. }
  assert (Hlev : forall n, 1 <= n < 5 -> gran n <= idx < gran (n + 1) -> idx < 2 ^ 31 -> exists n0 i,
    add_tail n (Z.land (Z.shiftr e (2 + 6 * n)) TVN_MASK) t (w <| linked ::= <[t := true]> |>) =
    add_tail n0 i t (w <| linked ::= <[t := true]> |>) /\
    in_slot T L n0 i e (due_of T e) /\ (n0 = 0 \/ gran n0 <= due_of T e - T)).
  { intros n Hn Hg Hi. exists n, ((T + idx) / gran n mod slots n). rewrite <- Hmod at 1. rewrite code_slot by done.
    split; [done|]. rewrite Hdue by done. split; [|right; lia]. apply level_slot; auto; try lia. apply HL. lia. }
  destruct (Z.ltb_spec idx TVR_SIZE) as [H1|H1]; unfold TVR_SIZE in H1.
  { exists 0, ((T + idx) mod 256). split.
    - f_equal. rewrite <- Hmod. change TVR_MASK with (Z.ones 8). rewrite <- (Z.shiftr_0_r (_ mod 2 ^ 32)).
      rewrite slot_bits by lia. by rewrite Z.div_1_r.
    - rewrite Hdue by lia. split; [|by left]. apply root_slot; [done|lia]. }
  destruct (Z.ltb_spec idx (Z.shiftl 1 (TVR_BITS + TVN_BITS))) as [H2|H2].
  { apply (Hlev 1); [lia| |]; change (gran 1) with 256; change (gran (1 + 1)) with 16384;
      change (Z.shiftl 1 (TVR_BITS + TVN_BITS)) with 16384 in H2; lia. }
  destruct (Z.ltb_spec idx (Z.shiftl 1 (TVR_BITS + 2 * TVN_BITS))) as [H3|H3];
    change (Z.shiftl 1 (TVR_BITS + TVN_BITS)) with 16384 in H2;
    change (Z.shiftl 1 (TVR_BITS + 2 * TVN_BITS)) with 1048576 in H3.
  { apply (Hlev 2); [lia| |lia]. change (gran 2) with 16384. change (gran (2 + 1)) with 1048576. lia. }
  destruct (Z.ltb_spec idx (Z.shiftl 1 (TVR_BITS + 3 * TVN_BITS))) as [H4|H4];
    change (Z.shiftl 1 (TVR_BITS + 3 * TVN_BITS)) with 67108864 in H4.
  { apply (Hlev 3); [lia| |lia]. change (gran 3) with 1048576. change (gran (3 + 1)) with 67108864. lia. }
  assert (Hs32 : s32 idx = if idx <? 2 ^ 31 then idx else idx - 2 ^ 32).
  { unfold s32. destruct (Z.ltb_spec idx (2 ^ 31)); [rewrite Z.mod_small; lia|].
    replace (idx + 2 ^ 31) with ((idx - 2 ^ 31) + 1 * 2 ^ 32) by lia. rewrite Z.mod_add, Z.mod_small by lia. lia. }
  rewrite Hs32. destruct (Z.ltb_spec idx (2 ^ 31)) as [H5|H5].
  - rewrite (proj2 (Z.ltb_ge idx 0)) by lia. apply (Hlev 4); [lia| |lia]. change (gran 4) with 67108864.
    change (gran (4 + 1)) with (2 ^ 32). lia.
  - rewrite (proj2 (Z.ltb_lt (idx - 2 ^ 32) 0)) by lia. exists 0, (tindex w 0). split; [done|].
    assert (Hd : due_of T e = T) by (unfold due_of; fold idx; rewrite (proj2 (Z.ltb_ge idx (2 ^ 31))) by lia; lia).
    rewrite Hd. split; [|by left]. rewrite (so_index _ _ _ _ _ _ Hs 0) by lia. rewrite H0. unfold cdiv.
    change (gran 0) with 1. rewrite Z.div_1_r. change (slots 0) with 256. replace (T + 1 - 1) with T by lia.
    apply root_slot; [done|lia].
Qed.

Lemma add_spec t w T L due B q : slots_ok w T L due B q -> running w = None -> L 0 = T ->
  (forall n, 0 <= n < 5 -> L n <= T + 1) -> t ∉ q -> (forall n i, t ∉ tvec w n i) ->
  let w' := internal_add_timer t w in
  slots_ok w' T L (<[t := Some (due_of T (expires w t))]> due) B q /\
  running w' = None /\ tindex w' = tindex w /\ expires w' = expires w /\ linked w' = <[t := true]> (linked w) /\
  forall n i, 1 <= n -> due_of T (expires w t) - T < gran n -> tvec w' n i = tvec w n i.
Proof.
  intros Hs Hr H0 HL Hq Hn. cbv zeta. destruct (add_level t w T L due B q Hs Hr H0 HL) as (n & i & -> & Hi & Hlow).
  split; [|split; [done|split; [done|split; [done|split; [done|]]]]].
  - apply slots_place; [by eapply slots_same|done|done|done].
  - intros n' i' Hn' Hlt. unfold add_tail. simpl. unfold alter_slot. destruct (Z.eqb_spec n' n) as [->|]; [|done].
    destruct Hlow as [->|?]; lia.
Qed.

(** ** Cascading *)

(** The timers in the slot at hand of vector [n] are due within one slot. *)
Lemma slot_at_hand T L n e D : in_slot T L n ((T / gran n) mod slots n) e D -> (gran n | T) -> L n = T -> D / gran n = T / gran n /\ D - T < gran n.
Proof.
  intros [I1 I2 I3 I4 I5] [k Hk] HL. pose proof (gran_pos n ltac:(lia)) as Hg. rewrite HL in I4.
  assert (E : T / gran n = D / gran n).
  { apply (same_mod _ _ (slots n)); [unfold slots; destruct (n =? 0); lia| |done].
    rewrite Hk, Z.div_mul by lia. rewrite gran_succ in I2 by done. subst T.
    split; [nia|]. apply Z.div_lt_upper_bound; [lia|]. nia. }
  split; [done|]. pose proof (Z.mod_pos_bound D (gran n) Hg). pose proof (Z.div_mod D (gran n) ltac:(lia)).
  rewrite <- E, Hk, Z.div_mul in H0 by lia. lia.
Qed.

Lemma linked_set w w' due t D : linked_ok w due -> linked w' = <[t := true]> (linked w) -> linked_ok w' (<[t := Some D]> due).
Proof.
  intros H E u. rewrite E. destruct (decide (u = t)) as [->|Hne].
  - rewrite !fn_lookup_insert. done.
  - rewrite !fn_lookup_insert_ne by done. apply H.
Qed.

Lemma linked_ext w due due' : linked_ok w due -> (forall t, due' t = due t) -> linked_ok w due'.
Proof. intros H E t. rewrite E. apply H. Qed.

Lemma fn_insert_same (due : tm -> option Z) t x : due t = x -> forall u, due u = <[t := x]> due u.
Proof. intros E u. destruct (decide (u = t)) as [->|]; [by rewrite fn_lookup_insert|by rewrite fn_lookup_insert_ne]. Qed.

(** One timer moves down; the wheel holds the same timers. *)
Lemma cascade_one t w T L due B n : slots_ok w T L due B [] -> linked_ok w due -> running w = None -> L 0 = T ->
  (forall n, 0 <= n < 5 -> L n <= T + 1) -> 1 <= n < 5 -> L n = T -> (gran n | T) ->
  t ∈ tvec w n ((T / gran n) mod slots n) ->
  let w' := internal_add_timer t (list_del t w) in
  slots_ok w' T L due B [] /\ linked_ok w' due /\ running w' = None /\ tindex w' = tindex w /\
  tvec w' n ((T / gran n) mod slots n) = filter (fun u => u <> t) (tvec w n ((T / gran n) mod slots n)).
Proof.
  intros Hs Hl Hr H0 HL Hn HLn Hd Ht. cbv zeta. destruct (so_slot _ _ _ _ _ _ Hs _ _ _ Ht) as (D & HD & Hi).
  destruct (is_expires _ _ _ _ _ _ Hi) as [E1 E2]; [lia|]. destruct (slot_at_hand _ _ _ _ _ Hi Hd HLn) as [_ Hlt].
  pose proof (slots_remove _ _ _ _ _ _ t Hs) as Hs1. cbn [filter list_filter] in Hs1.
  assert (Hn1 : forall n i, t ∉ tvec (list_del t w) n i).
  { intros n' i'. unfold list_del. simpl. intros [? _]%list_elem_of_filter. done. }
  destruct (add_spec t (list_del t w) T L _ B [] Hs1) as (A1 & A2 & A3 & A4 & A5 & A6); try done.
  { simpl. by rewrite Hr. }
  { apply not_elem_of_nil. }
  change (expires (list_del t w) t) with (expires w t) in *.
  assert (Edue : due_of T (expires w t) = D) by (apply due_again; [done|]; pose proof (is_time _ _ _ _ _ _ Hi); lia).
  rewrite Edue in *. split_and!; try done.
  - eapply slots_ext; [exact A1|]. intros u. destruct (decide (u = t)) as [->|Hne].
    + by rewrite fn_lookup_insert.
    + by rewrite !fn_lookup_insert_ne by done.
  - eapply linked_ext; [eapply linked_set; [exact Hl|exact A5]|]. by apply fn_insert_same.
  - rewrite A6 by lia. done.
Qed.

Lemma cascade_loop_spec k n T L due B : forall w, slots_ok w T L due B [] -> linked_ok w due -> running w = None ->
  L 0 = T -> (forall n, 0 <= n < 5 -> L n <= T + 1) -> 1 <= n < 5 -> L n = T -> (gran n | T) ->
  (length (tvec w n ((T / gran n) mod slots n)) <= k)%nat ->
  exists w', cascade_loop k n ((T / gran n) mod slots n) w = Some w' /\
    slots_ok w' T L due B [] /\ linked_ok w' due /\ running w' = None /\ tindex w' = tindex w /\
    tvec w' n ((T / gran n) mod slots n) = [].
Proof.
  set (i := (T / gran n) mod slots n). induction k as [|k IH]; intros w Hs Hl Hr H0 HL Hn HLn Hd Hk; cbn [cascade_loop].
  - destruct (tvec w n i) eqn:E; [|simpl in Hk; lia]. by exists w.
  - destruct (tvec w n i) as [|t rest] eqn:E; [by exists w|].
    assert (Ht : t ∈ tvec w n i) by (rewrite E; by left).
    destruct (cascade_one t w T L due B n Hs Hl Hr H0 HL Hn HLn Hd Ht) as (C1 & C2 & C3 & C4 & C5).
    fold i in C5. rewrite E, filter_cons_False in C5 by tauto.
    rewrite filter_out_not_in in C5.
    2:{ pose proof (so_nodup _ _ _ _ _ _ Hs n i) as Hnd. rewrite E in Hnd. by apply list.NoDup_cons in Hnd as [? _]. }
    cbv zeta. destruct rest as [|u rest]; [by eexists|].
    destruct (IH (internal_add_timer t (list_del t w))) as (w' & E' & D1 & D2 & D3 & D4 & D5); try done.
    { rewrite C5. simpl in Hk. simpl. lia. }
    exists w'. split; [done|]. split_and!; try done. congruence.
Qed.

Lemma next_index a b : 0 <= b -> Z.land (a mod 2 ^ b + 1) (Z.ones b) = (a + 1) mod 2 ^ b.
Proof. intros. rewrite Z.land_ones by done. by rewrite Zplus_mod_idemp_l. Qed.

Lemma cascade_timers_spec n w T L due B : slots_ok w T L due B [] -> linked_ok w due -> running w = None -> L 0 = T ->
  (forall n, 0 <= n < 5 -> L n <= T + 1) -> 1 <= n < 5 -> L n = T -> (gran n | T) ->
  exists w', cascade_timers n w = Some w' /\ slots_ok w' T (<[n := T + 1]> L) due B [] /\ linked_ok w' due /\
    running w' = None /\ tindex w' n = (T / gran n + 1) mod 64.
Proof.
  intros Hs Hl Hr H0 HL Hn HLn Hd. pose proof (gran_pos n ltac:(lia)) as Hg.
  destruct (cdiv_multiple T (gran n) Hg Hd) as [Ec Ec1].
  assert (Ei : tindex w n = (T / gran n) mod slots n).
  { rewrite (so_index _ _ _ _ _ _ Hs n) by lia. by rewrite HLn, Ec. }
  assert (Esl : slots n = 64) by (unfold slots; rewrite (proj2 (Z.eqb_neq n 0)) by lia; done).
  unfold cascade_timers. rewrite Ei. set (i := (T / gran n) mod slots n).
  destruct (cascade_loop_spec (length (tvec w n i)) n T L due B w) as (w1 & E1 & S1 & L1 & R1 & I1 & Z1); try done.
  fold i in E1, Z1. rewrite E1. clear E1. unfold mbind, option_bind. cbv zeta. eexists. split; [done|].
  assert (En : Z.land (tindex w1 n + 1) TVN_MASK = (T / gran n + 1) mod 64).
  { rewrite I1, Ei, Esl. change TVN_MASK with (Z.ones 6). change 64 with (2 ^ 6). by apply next_index. }
  rewrite En. split_and!; try done; [|simpl; apply fn_lookup_insert].
  match goal with |- slots_ok ?x _ _ _ _ _ => set (w2 := x) end.
  assert (V2 : forall n' i', tvec w2 n' i' = tvec w1 n' i').
  { intros n' i'. unfold w2. simpl. unfold alter_slot. destruct (Z.eqb_spec n' n) as [->|], (Z.eqb_spec i' i) as [->|]; done. }
  assert (I2 : forall m, tindex w2 m = <[n := (T / gran n + 1) mod 64]> (tindex w1) m) by done.
  destruct S1 as [S1 S2 S3 S4 S5 S6 S7 S8 S9]. split; try done.
  - intros m Hm. rewrite I2. destruct (decide (m = n)) as [->|Hne].
    + by rewrite !fn_lookup_insert, Ec1, Esl.
    + rewrite !fn_lookup_insert_ne by done. by apply S2.
  - intros m j t. rewrite V2. intros Ht. destruct (S3 m j t Ht) as (D & HD & Hi). exists D. split; [done|].
    destruct (decide (m = n)) as [->|Hne].
    + destruct Hi as [J1 J2 J3 J4 J5]. split; try done. rewrite fn_lookup_insert.
      rewrite HLn in J4. destruct (decide (D / gran n * gran n = T)) as [E|?]; [|lia]. exfalso.
      assert (j = i) as ->.
      { rewrite J3. unfold i. assert (Eq : D / gran n = T / gran n) by (rewrite <- E, Z.div_mul by lia; done). by rewrite Eq. }
      rewrite Z1 in Ht. by apply not_elem_of_nil in Ht.
    + destruct Hi as [J1 J2 J3 J4 J5]. split; try done. by rewrite fn_lookup_insert_ne.
  - intros t D Hdue. destruct (S4 t D Hdue) as [?|(m & j & ?)]; [by left|]. right. exists m, j. by rewrite V2.
  - intros t m j m' j'. rewrite !V2. apply S5.
  - intros m j. rewrite V2. apply S6.
  - intros t Ht. by apply not_elem_of_nil in Ht.
Qed.

(** A vector with nothing to cascade in this turn. *)
Lemma slots_raise w T L L' due B q : slots_ok w T L due B q ->
  (forall n, 0 <= n < 5 -> L' n = L n \/ L n = T /\ L' n = T + 1 /\ ~ (gran n | T)) -> slots_ok w T L' due B q.
Proof.
  intros [S1 S2 S3 S4 S5 S6 S7 S8 S9] HL. split; try done.
  - intros n Hn. rewrite S2 by done. destruct (HL n Hn) as [->|(-> & -> & Hd)]; [done|].
    rewrite cdiv_other; [done|apply gran_pos; lia|done].
  - intros n i t Ht. destruct (S3 n i t Ht) as (D & HD & [J1 J2 J3 J4 J5]). exists D. split; [done|]. split; try done.
    destruct (HL n J1) as [->|(E1 & -> & Hd)]; [done|]. rewrite E1 in J4.
    destruct (decide (D / gran n * gran n = T)) as [E|?]; [|lia]. exfalso. apply Hd. by exists (D / gran n).
Qed.

(** Where vectors 1 to 4 stand at the end of the cascade. *)
Definition raised (T : Z) : Z -> Z := fun n => if n =? 0 then T else T + 1.

Lemma cascade_levels_spec k : forall n w T L due B, slots_ok w T L due B [] -> linked_ok w due -> running w = None ->
  L 0 = T -> 1 <= n -> Z.of_nat k = 5 - n -> (0 < k)%nat -> (forall m, 1 <= m < n -> L m = T + 1) ->
  (forall m, n <= m < 5 -> L m = T) -> (gran n | T) ->
  exists w', cascade_levels k n w = Some w' /\ slots_ok w' T (raised T) due B [] /\ linked_ok w' due /\ running w' = None.
Proof.
  induction k as [|k IH]; intros n w T L due B Hs Hl Hr H0 Hn Hk Hpos Hlo Hhi Hd; [lia|]. cbn [cascade_levels].
  assert (HL : forall m, 0 <= m < 5 -> L m <= T + 1).
  { intros m Hm. destruct (decide (m = 0)) as [->|]; [lia|]. destruct (Z.lt_ge_cases m n); [rewrite Hlo|rewrite Hhi]; lia. }
  destruct (cascade_timers_spec n w T L due B) as (w1 & -> & S1 & L1 & R1 & I1); try done; [lia|apply Hhi; lia|].
  unfold mbind, option_bind. pose proof (gran_pos n ltac:(lia)) as Hg. rewrite I1.
  destruct (Z.eqb_spec ((T / gran n + 1) mod 64) 1) as [E1|E1]; [destruct (Z.ltb_spec (n + 1) NOOF_TVECS) as [E2|E2]|];
    cbn [andb]; unfold NOOF_TVECS in *.
  - assert (Hd1 : (gran (n + 1) | T)).
    { rewrite gran_succ by lia. unfold slots. rewrite (proj2 (Z.eqb_neq n 0)) by lia. destruct Hd as [a ->].
      rewrite Z.div_mul in E1 by lia. exists (a / 64).
      assert (Ha : a = 64 * (a / 64)) by (Z.to_euclidean_division_equations; lia). rewrite Ha at 1. lia. }
    apply (IH (n + 1) w1 T (<[n := T + 1]> L)); try done; try lia.
    + rewrite fn_lookup_insert_ne by lia. done.
    + intros m Hm. destruct (decide (m = n)) as [->|]; [apply fn_lookup_insert|].
      rewrite fn_lookup_insert_ne by lia. apply Hlo. lia.
    + intros m Hm. rewrite fn_lookup_insert_ne by lia. apply Hhi. lia.
  - exists w1. split; [done|]. split_and!; try done. eapply slots_raise; [exact S1|]. intros m Hm. left. unfold raised.
    destruct (Z.eqb_spec m 0) as [->|]; [by rewrite fn_lookup_insert_ne by lia|].
    destruct (decide (m = n)) as [->|]; [by rewrite fn_lookup_insert|].
    rewrite fn_lookup_insert_ne by lia. symmetry. apply Hlo. lia.
  - exists w1. split; [done|]. split_and!; try done. eapply slots_raise; [exact S1|]. intros m Hm. unfold raised.
    destruct (Z.eqb_spec m 0) as [->|]; [left; by rewrite fn_lookup_insert_ne by lia|].
    destruct (decide (m = n)) as [->|]; [left; by rewrite fn_lookup_insert|]. rewrite fn_lookup_insert_ne by lia.
    destruct (Z.lt_ge_cases m n); [left; symmetry; apply Hlo; lia|]. right. split; [apply Hhi; lia|]. split; [done|].
    intros Hdm. apply E1. assert (Hd1 : (gran (n + 1) | T)) by (etransitivity; [apply (gran_mono (n + 1) m); lia|done]).
    rewrite gran_succ in Hd1 by lia. unfold slots in Hd1. rewrite (proj2 (Z.eqb_neq n 0)) in Hd1 by lia.
    destruct Hd1 as [a ->]. replace (a * (gran n * 64)) with (a * 64 * gran n) by lia. rewrite Z.div_mul by lia.
    rewrite Z.add_comm, Z.mod_add by lia. done.
Qed.

(** The first step of a turn. *)
Lemma cascade_spec w T due B : slots_ok w T (fun _ => T) due B [] -> linked_ok w due -> running w = None ->
  exists w', (if tindex w 0 =? 0 then cascade_levels 4 1 w else Some w) = Some w' /\
    slots_ok w' T (raised T) due B [] /\ linked_ok w' due /\ running w' = None.
Proof.
  intros Hs Hl Hr. assert (E0 : tindex w 0 = T mod 256).
  { rewrite (so_index _ _ _ _ _ _ Hs 0) by lia. unfold cdiv. change (gran 0) with 1. rewrite Z.div_1_r.
    change (slots 0) with 256. f_equal. lia. }
  rewrite E0. destruct (Z.eqb_spec (T mod 256) 0) as [E|E].
  - eapply cascade_levels_spec; try done; try lia. change (gran 1) with 256. by apply Z.mod_divide.
  - exists w. split; [done|]. split_and!; try done. eapply slots_raise; [exact Hs|]. intros n Hn. unfold raised.
    destruct (Z.eqb_spec n 0) as [->|]; [by left|]. right. split_and!; try done.
    intros Hd. apply E. apply Z.mod_divide; [done|]. etransitivity; [|exact Hd]. apply (gran_mono 1 n); lia.
Qed.

(** ** Timer functions *)

(** What the operations mean: [due] at a time base [B]. *)
Definition abs_op (B : Z) (due : tm -> option Z) (o : top) : tm -> option Z :=
  match o with
  | OAdd t e => match due t with Some _ => due | None => <[t := Some (due_of B (u32 e))]> due end
  | OMod t e => <[t := Some (due_of B (u32 e))]> due
  | ODel t => <[t := None]> due
  end.

(** While timers run, at time [T]; [q] has been queued. *)
Record busy (w : wheel) (T : Z) (due : tm -> option Z) (q : list tm) : Prop := Busy {
  b_slots : slots_ok w T (raised T) due (T + 1) q;
  b_linked : linked_ok w due;
  b_running : running w = Some q
}.

(** No list of [w'] is longer than in [w]. *)
Definition shorter (w w' : wheel) : Prop :=
  tindex w' = tindex w /\ forall n i, (length (tvec w' n i) <= length (tvec w n i))%nat.

Lemma shorter_trans a b c : shorter a b -> shorter b c -> shorter a c.
Proof. intros [A1 A2] [B1 B2]. split; [congruence|]. intros n i. specialize (A2 n i). specialize (B2 n i). lia. Qed.

Lemma list_del_shorter t w : shorter w (list_del t w).
Proof. split; [done|]. intros n i. unfold list_del. simpl. apply length_filter. Qed.

Lemma slots_queue w T L due B q t : slots_ok w T L due B q -> t ∉ q -> (forall n i, t ∉ tvec w n i) ->
  running w = Some q ->
  let w' := internal_add_timer t w in
  slots_ok w' T L (<[t := Some (due_of B (expires w t))]> due) B (q ++ [t]) /\ running w' = Some (q ++ [t]) /\
  linked w' = <[t := true]> (linked w) /\ shorter w w'.
Proof.
  intros [S1 S2 S3 S4 S5 S6 S7 S8 S9] Hq Hn Hr. cbv zeta. unfold internal_add_timer. cbv zeta.
  change (running (update linked ?f w)) with (running w). rewrite Hr. split_and!; try done. split; try done.
  - intros n i u Hu. assert (u <> t) by (intros ->; by apply Hn in Hu). rewrite fn_lookup_insert_ne by done. by apply S3.
  - intros u D. destruct (decide (u = t)) as [->|Hne].
    + intros _. left. apply elem_of_app. right. by left.
    + rewrite fn_lookup_insert_ne by done. intros [?|?]%S4; [left; apply elem_of_app; by left|by right].
  - intros u [Hu|Hu%list_elem_of_singleton]%elem_of_app.
    + assert (u <> t) by (intros ->; done). rewrite fn_lookup_insert_ne by done. by apply S7.
    + subst u. rewrite fn_lookup_insert. done.
  - apply NoDup_app. split_and!; [done| |apply NoDup_singleton]. intros u Hu ->%list_elem_of_singleton. done.
Qed.

Lemma slots_set_expires w T L due B q t e : slots_ok w T L due B q -> t ∉ q -> (forall n i, t ∉ tvec w n i) ->
  slots_ok (set_expires t e w) T L due B q.
Proof.
  intros [S1 S2 S3 S4 S5 S6 S7 S8 S9] Hq Hn.
  assert (E : forall u, u <> t -> expires (set_expires t e w) u = expires w u).
  { intros u Hu. unfold set_expires. simpl. by rewrite fn_lookup_insert_ne. }
  split; try done.
  - intros n i u Hu. rewrite E by (intros ->; by apply Hn in Hu). by apply S3.
  - intros u Hu. rewrite E by (intros ->; done). by apply S7.
  - intros u. destruct (decide (u = t)) as [->|Hne]; [|rewrite E by done; apply S9].
    unfold set_expires. simpl. rewrite fn_lookup_insert. apply u32_range.
Qed.

Lemma not_pending w T L due B q t : slots_ok w T L due B q -> due t = None -> t ∉ q /\ forall n i, t ∉ tvec w n i.
Proof.
  intros [S1 S2 S3 S4 S5 S6 S7 S8 S9] Hd. split.
  - intros [E _]%S7. congruence.
  - intros n i (D & E & _)%S3. congruence.
Qed.

Lemma linked_unset w w' due t : linked_ok w due -> linked w' = <[t := false]> (linked w) -> linked_ok w' (<[t := None]> due).
Proof.
  intros H E u. rewrite E. destruct (decide (u = t)) as [->|Hne].
  - by rewrite !fn_lookup_insert.
  - rewrite !fn_lookup_insert_ne by done. apply H.
Qed.

Lemma linked_none w due t : linked_ok w due -> linked w t = false -> due t = None.
Proof. intros H E. rewrite (H t) in E. apply bool_decide_eq_false in E. by apply eq_None_not_Some. Qed.

(** Adding a timer that is in no list. *)
Lemma busy_add w T due q t e : busy w T due q -> due t = None ->
  let w' := internal_add_timer t (set_expires t e w) in
  busy w' T (<[t := Some (due_of (T + 1) (u32 e))]> due) (q ++ [t]) /\ shorter w w'.
Proof.
  intros [Bs Bl Br] Hd. cbv zeta. destruct (not_pending _ _ _ _ _ _ t Bs Hd) as [Hq Hn].
  pose proof (slots_set_expires _ _ _ _ _ _ t e Bs Hq Hn) as Hs.
  destruct (slots_queue _ _ _ _ _ _ t Hs Hq Hn Br) as (S1 & S2 & S3 & S4).
  replace (expires (set_expires t e w) t) with (u32 e) in S1.
  2:{ unfold set_expires. simpl. by rewrite fn_lookup_insert. }
  split; [split; [done|by eapply linked_set|done]|]. exact S4.
Qed.

(** Taking one out, with its link fields cleared. *)
Lemma busy_del w T due q t : busy w T due q -> linked w t = true ->
  let w' := (list_del t w) <| linked ::= <[t := false]> |> in
  busy w' T (<[t := None]> due) (filter (fun u => u <> t) q) /\ shorter w w'.
Proof.
  intros [Bs Bl Br] Hl. cbv zeta. split; [split|apply list_del_shorter].
  - eapply slots_same; [by apply slots_remove|done..].
  - by eapply linked_unset.
  - simpl. by rewrite Br.
Qed.

Lemma busy_ext w T due due' q : busy w T due q -> (forall t, due' t = due t) -> busy w T due' q.
Proof. intros [B1 B2 B3] E. split; [by eapply slots_ext|by eapply linked_ext|done]. Qed.

Lemma op_spec w T due q o : busy w T due q ->
  exists q', busy (run_op w o) T (abs_op (T + 1) due o) q' /\ shorter w (run_op w o).
Proof.
  intros HB. pose proof (b_linked _ _ _ _ HB) as Hl. destruct o as [t e|t e|t]; cbn [run_op abs_op].
  - destruct (linked w t) eqn:E.
    + rewrite (Hl t) in E. apply bool_decide_eq_true in E as [D ->]. exists q. split; [done|]. by split.
    + pose proof (linked_none _ _ _ Hl E) as Hd. rewrite Hd. unfold add_timer.
      change (linked (set_expires t e w) t) with (linked w t). rewrite E. eexists. by apply busy_add.
  - unfold mod_timer, detach_timer. change (linked (set_expires t e w) t) with (linked w t).
    destruct (linked w t) eqn:E; cbn [negb fst].
    + change (list_del t (set_expires t e w)) with (set_expires t e (list_del t w)).
      destruct (busy_del w T due q t HB E) as [B1 S1].
      assert (B1' : slots_ok (list_del t w) T (raised T) (<[t := None]> due) (T + 1) (filter (fun u => u <> t) q)).
      { apply slots_remove, HB. }
      destruct (not_pending _ _ _ _ _ _ t B1' (fn_lookup_insert _ _ _)) as [Hq Hn].
      pose proof (slots_set_expires _ _ _ _ _ _ t e B1' Hq Hn) as Hs.
      destruct (slots_queue _ _ _ _ _ _ t Hs Hq Hn) as (Q1 & Q2 & Q3 & Q4); [simpl; by rewrite (b_running _ _ _ _ HB)|].
      replace (expires (set_expires t e (list_del t w)) t) with (u32 e) in Q1.
      2:{ unfold set_expires. simpl. by rewrite fn_lookup_insert. }
      eexists. split; [split; [|by eapply linked_set; [exact Hl|exact Q3]|exact Q2]|].
      * eapply slots_ext; [exact Q1|]. intros u. destruct (decide (u = t)) as [->|]; [by rewrite !fn_lookup_insert|].
        by rewrite !fn_lookup_insert_ne.
      * eapply shorter_trans; [apply list_del_shorter|exact Q4].
    + pose proof (linked_none _ _ _ Hl E) as Hd. eexists. by apply busy_add.
  - unfold del_timer, detach_timer. destruct (linked w t) eqn:E; cbn [negb fst].
    + eexists. by apply busy_del.
    + pose proof (linked_none _ _ _ Hl E) as Hd. exists q. split; [|by split].
      destruct HB as [B1 B2 B3]. split; [|by eapply linked_unset|done].
      eapply slots_ext; [by eapply slots_same|]. intros u. symmetry. by apply fn_insert_same.
Qed.
