(* ===== verification/TimerTheorems.v ===== *)
(** * Timers run when they are due

    The wheel implements a map from pending timers to due times. *)
From stdpp Require Import base list functions sets relations.
From S2P Require Import Prelude Timer TimerProofs.

Section run.
Context (fn : tm -> list top).

(** The specification of a turn at time [T]: timers with due time [T] run one after the
    other, each removed before its function runs, until there is none left. *)
Inductive fires (T : Z) : (tm -> option Z) -> list tm -> (tm -> option Z) -> Prop :=
  | fires_done due : (forall t, due t <> Some T) -> fires T due [] due
  | fires_next due t l due' : due t = Some T ->
      fires T (fold_left (abs_op (T + 1)) (fn t) (<[t := None]> due)) l due' -> fires T due (t :: l) due'.

Lemma ops_spec l : forall w T due q, busy w T due q ->
  exists q', busy (fold_left run_op l w) T (fold_left (abs_op (T + 1)) l due) q' /\ shorter w (fold_left run_op l w).
Proof.
  induction l as [|o l IH]; intros w T due q HB; [exists q; split; [done|by split]|]. cbn [fold_left].
  destruct (op_spec w T due q o HB) as (q1 & B1 & S1). destruct (IH _ _ _ _ B1) as (q2 & B2 & S2).
  exists q2. split; [done|]. by eapply shorter_trans.
Qed.

Lemma busy_index w T due q : busy w T due q -> tindex w 0 = T mod 256.
Proof.
  intros [Bs _ _]. rewrite (so_index _ _ _ _ _ _ Bs 0) by lia. unfold cdiv, raised. change (gran 0) with 1.
  change (slots 0) with 256. rewrite Z.div_1_r. simpl. f_equal. lia.
Qed.

(** The slot at hand holds the timers that are due now. *)
Lemma slot_now w T due q t : busy w T due q -> t ∈ tvec w 0 (T mod 256) -> due t = Some T.
Proof.
  intros [Bs _ _] Ht. destruct (so_slot _ _ _ _ _ _ Bs _ _ _ Ht) as (D & -> & [J1 J2 J3 J4 J5]). f_equal.
  change (gran (0 + 1)) with 256 in J2. change (gran 0) with 1 in J3. change (slots 0) with 256 in J3.
  rewrite Z.div_1_r in J3. symmetry. apply (same_mod T D 256); [lia|lia|done].
Qed.

(** When it is empty, nothing is due. *)
Lemma tvec_empty w T due q : busy w T due q -> tvec w 0 (T mod 256) = [] -> forall t D, due t = Some D -> T + 1 <= D.
Proof.
  intros [Bs _ _] E t D Hd. destruct (so_all _ _ _ _ _ _ Bs t D Hd) as [Hq|(n & i & Hi)].
  - destruct (so_queued _ _ _ _ _ _ Bs t Hq) as [Hd' _]. rewrite Hd in Hd'. injection Hd' as ->. apply due_bounds.
  - destruct (so_slot _ _ _ _ _ _ Bs _ _ _ Hi) as (D' & Hd' & [J1 J2 J3 J4 J5]). rewrite Hd in Hd'. injection Hd' as <-.
    unfold raised in J4. destruct (Z.eqb_spec n 0) as [->|Hn].
    + destruct (decide (D = T)) as [->|]; [|lia]. change (gran 0) with 1 in J3. rewrite Z.div_1_r in J3.
      change (slots 0) with 256 in J3. rewrite J3, E in Hi. by apply not_elem_of_nil in Hi.
    + pose proof (floor_below D (gran n)). pose proof (gran_pos n). lia.
Qed.

Lemma fire_spec k : forall w T due q, busy w T due q -> (length (tvec w 0 (T mod 256)) <= k)%nat ->
  exists w' fired due' q', fire_loop fn k w = Some (w', fired) /\ fires T due fired due' /\ busy w' T due' q' /\
  tvec w' 0 (T mod 256) = [].
Proof.
  induction k as [|k IH]; intros w T due q HB Hk; cbn [fire_loop]; rewrite (busy_index _ _ _ _ HB).
  - destruct (tvec w 0 (T mod 256)) eqn:E; [|simpl in Hk; lia]. exists w, [], due, q. split_and!; try done.
    apply fires_done. intros t Ht. pose proof (tvec_empty _ _ _ _ HB E t T Ht). lia.
  - destruct (tvec w 0 (T mod 256)) as [|t rest] eqn:E.
    + exists w, [], due, q. split_and!; try done. apply fires_done. intros t Ht.
      pose proof (tvec_empty _ _ _ _ HB E t T Ht). lia.
    + assert (Hd : due t = Some T) by (eapply slot_now; [done|]; rewrite E; by left).
      assert (Hl : linked w t = true) by (rewrite (b_linked _ _ _ _ HB t), Hd; done).
      unfold detach_timer. rewrite Hl. cbn [negb fst]. cbv zeta.
      destruct (busy_del w T due q t HB Hl) as [B1 S1].
      assert (Hlen : (length (tvec (list_del t w) 0 (T mod 256)) <= k)%nat).
      { unfold list_del. simpl. rewrite E, filter_cons_False by tauto. pose proof (length_filter (fun u => u <> t) rest).
        simpl in Hk. lia. }
      destruct (ops_spec (fn t) _ _ _ _ B1) as (q2 & B2 & [_ S2]).
      destruct (IH _ _ _ _ B2) as (w' & fired & due' & q' & E' & F' & B' & Z').
      { etransitivity; [apply S2|exact Hlen]. }
      rewrite E'. unfold mbind, option_bind. cbn [fst snd]. exists w', (t :: fired), due', q'. split_and!; try done.
      by eapply fires_next.
Qed.

(** At rest, between two runs, at time [T]. *)
Record wheel_ok (w : wheel) (T : Z) (due : tm -> option Z) : Prop := WheelOk {
  w_slots : slots_ok w T (fun _ => T) due T [];
  w_linked : linked_ok w due;
  w_running : running w = None
}.

(** The queued timers enter the wheel. *)
Lemma requeue_spec q : forall w T due, slots_ok w T (fun _ => T) due T q -> linked_ok w due -> running w = None ->
  wheel_ok (fold_left (fun w t => internal_add_timer t w) q w) T due.
Proof.
  induction q as [|t q IH]; intros w T due Hs Hl Hr; [done|]. cbn [fold_left].
  pose proof (so_q_nodup _ _ _ _ _ _ Hs) as [Hnq Hnd]%list.NoDup_cons.
  destruct (so_queued _ _ _ _ _ _ Hs t) as [Hd Hn]; [by left|].
  assert (Hs1 : slots_ok w T (fun _ => T) (<[t := None]> due) T q).
  { pose proof (slots_remove _ _ _ _ _ _ t Hs) as Hx. rewrite filter_cons_False, filter_out_not_in in Hx by tauto.
    destruct Hx as [S1 S2 S3 S4 S5 S6 S7 S8 S9].
    assert (Hv : forall n i, tvec (list_del t w) n i = tvec w n i).
    { intros n i. unfold list_del. simpl. by apply filter_out_not_in. }
    split; try done.
    - intros n i u Hu. apply (S3 n i u). by rewrite Hv.
    - intros u D Hu. destruct (S4 u D Hu) as [?|(n & i & ?)]; [by left|]. right. exists n, i. by rewrite <- Hv.
    - intros u n i n' i'. rewrite <- !Hv. apply S5.
    - intros n i. rewrite <- Hv. apply S6.
    - intros u Hu. destruct (S7 u Hu) as [? H7]. split; [done|]. intros n i. rewrite <- Hv. apply H7. }
  destruct (add_spec t w T _ _ _ _ Hs1 Hr) as (A1 & A2 & A3 & A4 & A5 & A6); try done; [intros; lia|].
  apply IH; [|eapply linked_ext; [by eapply linked_set|by apply fn_insert_same]|done].
  eapply slots_ext; [exact A1|]. intros u. destruct (decide (u = t)) as [->|]; [by rewrite fn_lookup_insert|].
  by rewrite !fn_lookup_insert_ne.
Qed.

(** The end of a turn: time moves on. *)
Lemma advance_spec w T due q : busy w T due q -> tvec w 0 (T mod 256) = [] ->
  let w' := w <| running := None |> <| timer_jiffies ::= fun j => u32 (j + 1) |>
  <| tindex ::= <[0 := Z.land (tindex w 0 + 1) TVR_MASK]> |> in
  slots_ok w' (T + 1) (fun _ => T + 1) due (T + 1) q.
Proof.
  intros HB E. cbv zeta. pose proof (tvec_empty _ _ _ _ HB E) as Hlate. rewrite (busy_index _ _ _ _ HB).
  destruct HB as [[S1 S2 S3 S4 S5 S6 S7 S8 S9] _ _]. split; try done.
  - simpl. rewrite S1. unfold u32. by rewrite Zplus_mod_idemp_l.
  - intros n Hn. simpl. destruct (decide (n = 0)) as [->|Hne].
    + rewrite fn_lookup_insert. change TVR_MASK with (Z.ones 8). change 256 with (2 ^ 8). rewrite next_index by lia.
      unfold cdiv. change (gran 0) with 1. rewrite Z.div_1_r. change (slots 0) with (2 ^ 8). f_equal. lia.
    + rewrite fn_lookup_insert_ne by done. rewrite S2 by done. unfold raised. by rewrite (proj2 (Z.eqb_neq n 0) Hne).
  - intros n i t Ht. destruct (S3 n i t Ht) as (D & Hd & [J1 J2 J3 J4 J5]). exists D. split; [done|].
    pose proof (Hlate t D Hd). split; try done; try lia.
    + unfold raised in J4. destruct (Z.eqb_spec n 0) as [->|]; [|done]. change (gran 0) with 1 in *. rewrite Z.div_1_r. lia.
    + intros Hn. destruct (J5 Hn). split; [done|lia].
Qed.

Lemma turn_spec w T due : wheel_ok w T due ->
  exists w' fired due', timer_turn fn w = Some (w', fired) /\ fires T due fired due' /\ wheel_ok w' (T + 1) due'.
Proof.
  intros [Hs Hl Hr]. unfold timer_turn. destruct (cascade_spec w T due T Hs Hl Hr) as (w1 & -> & S1 & L1 & R1).
  unfold mbind, option_bind. cbv zeta. set (w2 := w1 <| running := Some [] |>).
  assert (HB : busy w2 T due []).
  { split; [|done|done]. destruct S1 as [A1 A2 A3 A4 A5 A6 A7 A8 A9]. split; try done.
    intros t Ht. by apply not_elem_of_nil in Ht. }
  rewrite (busy_index _ _ _ _ HB).
  destruct (fire_spec (length (tvec w2 0 (T mod 256))) w2 T due [] HB) as (w3 & fired & due' & q & -> & F & B3 & Z3); [done|].
  do 3 eexists. split; [done|]. split; [exact F|]. rewrite (b_running _ _ _ _ B3). cbn [default id].
  apply requeue_spec; [by apply advance_spec|apply B3|done].
Qed.

(** ** Whole runs *)

(** The turns from [T] on. *)
Inductive turns : Z -> (tm -> option Z) -> list (list tm) -> (tm -> option Z) -> Prop :=
  | turns_done T due : turns T due [] due
  | turns_next T due l due1 ls due' : fires T due l due1 -> turns (T + 1) due1 ls due' -> turns T due (l :: ls) due'.

Lemma behind T k : 0 <= k < 2 ^ 31 -> s32 (u32 (T + k) - u32 T) = k.
Proof.
  intros Hk. unfold s32, u32. rewrite <- Zplus_mod_idemp_l. rewrite <- Zminus_mod. replace (T + k - T) with k by lia.
  rewrite Zplus_mod_idemp_l. rewrite Z.mod_small; lia.
Qed.

Lemma caught_up T : s32 (u32 T - u32 (T + 1)) = -1.
Proof.
  unfold s32, u32. rewrite <- Zplus_mod_idemp_l, <- Zminus_mod. replace (T - (T + 1)) with (-1) by lia.
  rewrite Zplus_mod_idemp_l. reflexivity.
Qed.

Lemma run_spec k : forall w T due, wheel_ok w T due -> Z.of_nat k < 2 ^ 31 ->
  exists w' ls due', run_timer_list fn k (u32 (T + Z.of_nat k - 1)) w = Some (w', ls) /\ length ls = k /\
  turns T due ls due' /\ wheel_ok w' (T + Z.of_nat k) due'.
Proof.
  induction k as [|k IH]; intros w T due Hw Hk; cbn [run_timer_list]; rewrite (so_time _ _ _ _ _ _ (w_slots _ _ _ Hw)).
  - replace (T + Z.of_nat 0 - 1) with (T - 1) by lia. pose proof (caught_up (T - 1)) as E.
    replace (T - 1 + 1) with T in E by lia. rewrite E. change (0 <=? -1) with false. cbv iota. exists w, [], due.
    split_and!; [done|done|apply turns_done|]. by replace (T + Z.of_nat 0) with T by lia.
  - replace (T + Z.of_nat (S k) - 1) with (T + Z.of_nat k) by lia. rewrite behind by lia.
    rewrite (proj2 (Z.leb_le 0 (Z.of_nat k))) by lia.
    destruct (turn_spec w T due Hw) as (w1 & fired & due1 & -> & F & W1). unfold mbind, option_bind. cbn [fst snd].
    destruct (IH w1 (T + 1) due1 W1) as (w2 & ls & due2 & E & Hlen & Ht & W2); [lia|].
    replace (T + 1 + Z.of_nat k - 1) with (T + Z.of_nat k) in E by lia. rewrite E. cbn [fst snd].
    exists w2, (fired :: ls), due2. split_and!; [done|simpl; by rewrite Hlen|by eapply turns_next|].
    by replace (T + Z.of_nat (S k)) with (T + 1 + Z.of_nat k) by lia.
Qed.

(** C9. The timer wheel refines a map from pending timers to due times: when the clock is
    [k] jiffies on, [run_timer_list] ends after exactly [k] turns, and in the turn
    for time [T'] it runs exactly timers whose due time is [T'], until there is none
    left, whatever the timers' functions add, modify and delete.  No timer is lost in
    the cascades between the five vectors, runs early or runs late. *)
Theorem timer_wheel_refines w T due k : wheel_ok w T due -> Z.of_nat k < 2 ^ 31 ->
  exists w' ls due', run_timer_list fn k (u32 (T + Z.of_nat k - 1)) w = Some (w', ls) /\ length ls = k /\
  turns T due ls due' /\ wheel_ok w' (T + Z.of_nat k) due'.
Proof. apply run_spec. Qed.

(** ** One timer *)

(** The functions of other timers leave [t] alone. *)
Definition touches (t : tm) (o : top) : bool :=
  match o with OAdd u _ | OMod u _ | ODel u => u =? t end.
Definition undisturbed (t : tm) : Prop := forall u, Forall (fun o => touches t o = false) (fn u).

Lemma op_untouched B t o due : touches t o = false -> abs_op B due o t = due t.
Proof.
  destruct o as [u e|u e|u]; simpl; intros Hne%Z.eqb_neq; try (by rewrite fn_lookup_insert_ne).
  destruct (due u); [done|]. by rewrite fn_lookup_insert_ne.
Qed.

Lemma ops_untouched B t l : Forall (fun o => touches t o = false) l -> forall due, fold_left (abs_op B) l due t = due t.
Proof. induction 1 as [|o l Ho _ IH]; intros due; [done|]. simpl. rewrite IH. by apply op_untouched. Qed.

Lemma fires_other T t due l due' : undisturbed t -> fires T due l due' ->
  (due t <> Some T -> t ∉ l /\ due' t = due t) /\
  (due t = Some T -> exists l1 l2, l = l1 ++ t :: l2 /\ t ∉ l1 /\ t ∉ l2 /\ due' t = None).
Proof.
  intros Hu H. induction H as [due Hn|due u l due' Hd H IH].
  - split; [intros _; split; [apply not_elem_of_nil|done]|]. intros E. by apply Hn in E.
  - assert (E : forall due, fold_left (abs_op (T + 1)) (fn u) due t = due t) by (apply ops_untouched, Hu).
    rewrite E in IH. destruct (decide (u = t)) as [->|Hne].
    + rewrite fn_lookup_insert in IH. split; [done|]. intros _. destruct IH as [[Hin Hd'] _]; [done|]. exists [], l.
      split_and!; [done|apply not_elem_of_nil|done|congruence].
    + rewrite fn_lookup_insert_ne in IH by done. destruct IH as [I1 I2]. split.
      * intros Hd1. destruct (I1 Hd1) as [Hin Hd']. split; [|done]. by rewrite not_elem_of_cons.
      * intros Hd1. destruct (I2 Hd1) as (l1 & l2 & -> & H1 & H2 & H3). exists (u :: l1), l2.
        split_and!; try done. by rewrite not_elem_of_cons.
Qed.
End run.

Lemma turns_none fn t T due ls due' : undisturbed fn t -> turns fn T due ls due' -> due t = None ->
  forall j l, ls !! j = Some l -> t ∉ l.
Proof.
  intros Hu H. induction H as [|T due l due1 ls due' F H IH]; intros Hd j l' Hj; [done|].
  destruct (fires_other fn T t due l due1 Hu F) as [F1 _]. destruct F1 as [Hin Hd1]; [congruence|].
  destruct j as [|j]; [by injection Hj as <-|]. apply (IH ltac:(congruence) j l' Hj).
Qed.

Lemma turns_on_time fn t T due ls due' D : undisturbed fn t -> turns fn T due ls due' -> due t = Some D -> T <= D ->
  forall j l, ls !! j = Some l -> t ∈ l <-> T + Z.of_nat j = D.
Proof.
  intros Hu H. induction H as [|T due l due1 ls due' F H IH]; intros Hd HT j l' Hj; [done|].
  destruct (fires_other fn T t due l due1 Hu F) as [F1 F2]. destruct (decide (D = T)) as [->|Hne].
  - destruct (F2 Hd) as (l1 & l2 & -> & H1 & H2 & Hd1). destruct j as [|j].
    + injection Hj as <-. split; [intros _; lia|]. intros _. apply elem_of_app. right. by left.
    + pose proof (turns_none fn t _ _ _ _ Hu H Hd1 j l' Hj) as Hn. split; [done|lia].
  - destruct F1 as [Hin Hd1]; [congruence|]. destruct j as [|j].
    + injection Hj as <-. split; [done|lia].
    + rewrite (IH ltac:(congruence) ltac:(lia) j l' Hj). lia.
Qed.

(** Adding a timer between two runs. *)
Lemma rest_add w T due t e : wheel_ok w T due -> due t = None ->
  wheel_ok (add_timer t (set_expires t e w)) T (<[t := Some (due_of T (u32 e))]> due).
Proof.
  intros [Hs Hl Hr] Hd. destruct (not_pending _ _ _ _ _ _ t Hs Hd) as [Hq Hn]. unfold add_timer.
  change (linked (set_expires t e w) t) with (linked w t). rewrite (Hl t), Hd. change (bool_decide (is_Some None)) with false.
  cbv iota. pose proof (slots_set_expires _ _ _ _ _ _ t e Hs Hq Hn) as Hs1.
  destruct (add_spec t _ T _ _ _ _ Hs1 Hr) as (A1 & A2 & A3 & A4 & A5 & A6); try done; [intros; lia|].
  replace (expires (set_expires t e w) t) with (u32 e) in A1.
  2:{ unfold set_expires. simpl. by rewrite fn_lookup_insert. }
  split; [done|by eapply linked_set|done].
Qed.

(** Deleting one, pending or not. *)
Lemma rest_del w T due t : wheel_ok w T due -> wheel_ok (fst (del_timer t w)) T (<[t := None]> due).
Proof.
  intros [Hs Hl Hr]. unfold del_timer, detach_timer. destruct (linked w t) eqn:E; simpl.
  - split; simpl; [|by eapply linked_unset|by rewrite Hr]. by apply (slots_same (list_del t w)); [exact (slots_remove w T _ due T [] t Hs)|..].
  - pose proof (linked_none _ _ _ Hl E) as Hd. split; [|by eapply linked_unset|done].
    apply (slots_ext _ _ _ due); [by apply (slots_same w)|]. intros u. symmetry. by apply fn_insert_same.
Qed.

(** A timer added between two runs, over [k] turns. *)
Lemma add_and_run fn w T due t e k :
  wheel_ok w T due -> due t = None -> undisturbed fn t -> 0 <= e - T < Z.of_nat k -> Z.of_nat k < 2 ^ 31 ->
  exists w' ls, run_timer_list fn k (u32 (T + Z.of_nat k - 1)) (add_timer t (set_expires t e w)) = Some (w', ls) /\
    length ls = k /\ forall j l, ls !! j = Some l -> t ∈ l <-> T + Z.of_nat j = e.
Proof.
  intros Hw Hd Hu He Hk. pose proof (rest_add w T due t e Hw Hd) as Hw1.
  replace (due_of T (u32 e)) with e in Hw1 by (symmetry; apply due_again; [done|lia]).
  destruct (run_spec fn k _ T _ Hw1 Hk) as (w' & ls & due' & E & Hlen & Ht & _). exists w', ls. split; [done|].
  split; [done|]. eapply turns_on_time; [done|exact Ht|apply fn_lookup_insert|lia].
Qed.

(** C16. A timer that is added with [expires = e] up to 2{^31} jiffies ahead, and that no timer
    function touches, runs in the turn for time [e], and in no other. *)
Theorem timer_fires_on_time fn w T due t e k :
  wheel_ok w T due -> due t = None -> undisturbed fn t -> 0 <= e - T < Z.of_nat k -> Z.of_nat k < 2 ^ 31 ->
  exists w' ls, run_timer_list fn k (u32 (T + Z.of_nat k - 1)) (add_timer t (set_expires t e w)) = Some (w', ls) /\
    length ls = k /\ forall j l, ls !! j = Some l -> t ∈ l <-> T + Z.of_nat j = e.
Proof. apply add_and_run. Qed.

(** The wheel at boot. *)
Definition wheel0 : wheel := init_timervecs (Wheel (fun _ _ => []) (fun _ => 0) 0 None (fun _ => 0) (fun _ => false)).

Lemma wheel0_ok : wheel_ok wheel0 0 (fun _ => None).
Proof.
  split; [|done|done]. split; try done.
  - intros n Hn. levels Hn; reflexivity.
  - intros n i t Ht. by apply not_elem_of_nil in Ht.
  - intros t n i n' i' Ht. by apply not_elem_of_nil in Ht.
  - intros. apply NoDup_nil_2.
  - intros t Ht. by apply not_elem_of_nil in Ht.
  - apply NoDup_nil_2.
Qed.

Lemma timer_wheel_refines_witness :
  exists w' ls due', run_timer_list (fun _ => []) 3 (u32 2) wheel0 = Some (w', ls) /\ length ls = 3%nat /\
    turns (fun _ => []) 0 (fun _ => None) ls due' /\ wheel_ok w' 3 due'.
Proof. apply (timer_wheel_refines (fun _ => []) wheel0 0 (fun _ => None) 3); [exact wheel0_ok|reflexivity]. Defined.

Lemma timer_fires_on_time_witness :
  exists w' ls, run_timer_list (fun _ => []) 301 (u32 300) (add_timer 5 (set_expires 5 300 wheel0)) = Some (w', ls) /\
    length ls = 301%nat /\ forall j l, ls !! j = Some l -> 5 ∈ l <-> 0 + Z.of_nat j = 300.
Proof.
  apply (timer_fires_on_time (fun _ => []) wheel0 0 (fun _ => None) 5 300 301);
    [exact wheel0_ok|reflexivity|intros u; constructor|lia|lia].
Defined.
