(* ===== verification/Notifier.v ===== *)
(** * Notifier chains (kernel/sys.c)

    A chain is the list of its blocks from the head on; a block is a pointer, and
    [priority] its field.  The functions of the blocks are a parameter. *)
From stdpp Require Import base list.
From S2P Require Import Prelude.
From Stdlib Require Import Sorting.Sorted.

Definition nblock : Type := Z.
Definition ENOENT : Z := 2.
Definition NOTIFY_DONE : Z := 0.
Definition NOTIFY_STOP_MASK : Z := 32768.

Section chain.
Context (priority : nblock -> Z).

Fixpoint notifier_chain_register (l : list nblock) (n : nblock) : list nblock :=
  match l with
  | [] => [n]
  | b :: l' => if priority b <? priority n then n :: l else b :: notifier_chain_register l' n
  end.

Fixpoint notifier_chain_unregister (l : list nblock) (n : nblock) : list nblock * Z :=
  match l with
  | [] => ([], - ENOENT)
  | b :: l' => if b =? n then (l', 0) else let '(r, err) := notifier_chain_unregister l' n in (b :: r, err)
  end.

(** The value of the last function called, and the blocks called. *)
Fixpoint call_loop (call : nblock -> Z) (ret : Z) (l : list nblock) : Z * list nblock :=
  match l with
  | [] => (ret, [])
  | b :: l' =>
      let ret := call b in
      if negb (Z.land ret NOTIFY_STOP_MASK =? 0) then (ret, [b])
      else let '(r, called) := call_loop call ret l' in (r, b :: called)
  end.
Definition notifier_call_chain (call : nblock -> Z) (l : list nblock) : Z * list nblock := call_loop call NOTIFY_DONE l.

(** Priorities never increase along the chain. *)
Definition ordered : list nblock -> Prop := Sorted (fun a b => priority b <= priority a).

Lemma register_head l n x : HdRel (fun a b => priority b <= priority a) x l -> priority n <= priority x ->
  HdRel (fun a b => priority b <= priority a) x (notifier_chain_register l n).
Proof.
  intros H Hn. destruct l as [|b l]; simpl; [by constructor|]. destruct (Z.ltb_spec (priority b) (priority n)).
  - by constructor.
  - inversion H. by constructor.
Qed.

Lemma register_ordered l n : ordered l -> ordered (notifier_chain_register l n).
Proof.
  unfold ordered. induction 1 as [|b l Hs IH Hh]; simpl; [by repeat constructor|].
  destruct (Z.ltb_spec (priority b) (priority n)).
  - repeat constructor; [done|done|lia].
  - constructor; [done|]. by apply register_head.
Qed.

(** A block comes after those of the same priority, before those of a lower one. *)
Lemma register_place l n : ordered l -> exists l1 l2, l = l1 ++ l2 /\ notifier_chain_register l n = l1 ++ n :: l2 /\
  Forall (fun b => priority n <= priority b) l1 /\ Forall (fun b => priority b < priority n) l2.
Proof.
  intros H%Sorted_StronglySorted; [|intros a b c; lia]. induction H as [|b l Hs IH Hh]; simpl.
  - by exists [], [].
  - destruct (Z.ltb_spec (priority b) (priority n)).
    + exists [], (b :: l). split_and!; [done|done|constructor|]. constructor; [done|].
      eapply Forall_impl; [exact Hh|]. simpl. lia.
    + destruct IH as (l1 & l2 & -> & -> & H1 & H2). exists (b :: l1), l2. split_and!; try done. by constructor.
Qed.

(** Registering and unregistering gives the chain back. *)
Lemma unregister_register l n : n ∉ l -> notifier_chain_unregister (notifier_chain_register l n) n = (l, 0).
Proof.
  induction l as [|b l IH]; intros Hn; simpl.
  - by rewrite Z.eqb_refl.
  - apply not_elem_of_cons in Hn as [Hb Hn]. destruct (_ <? _); simpl; [by rewrite Z.eqb_refl|].
    rewrite (proj2 (Z.eqb_neq b n)) by done. by rewrite IH.
Qed.

(** The blocks called are a first part of the chain: all of it, or up to the first
    whose result has the stop bit, which is then the result. *)
Lemma call_chain_prefix call l ret r called : call_loop call ret l = (r, called) ->
  exists rest, l = called ++ rest /\
  (rest <> [] -> exists b, last called = Some b /\ r = call b /\ Z.land r NOTIFY_STOP_MASK <> 0).
Proof.
  revert ret r called. induction l as [|b l IH]; intros ret r called; simpl.
  - intros [= <- <-]. by exists [].
  - destruct (Z.eqb_spec (Z.land (call b) NOTIFY_STOP_MASK) 0) as [E|E]; simpl.
    + destruct (call_loop call (call b) l) as [r' c'] eqn:Er. intros [= <- <-].
      destruct (IH _ _ _ Er) as (rest & -> & H). exists rest. split; [done|]. intros (b' & Hb & Hr)%H.
      exists b'. split; [|done]. destruct c'; [done|]. exact Hb.
    + intros [= <- <-]. exists l. split; [done|]. intros _. by exists b.
Qed.
End chain.
