(* ===== verification/Resource.v ===== *)
(** * The tree of I/O resources (kernel/resource.c)

    [r_children] is the list that starts at [child] and goes on through [sibling].
    Pointers to new structures (from [kmalloc], or on the stack) are arguments. *)
From stdpp Require Import base list functions.
From S2P Require Import Prelude.

Definition rptr : Type := Z.
Definition IORESOURCE_BUSY : Z := 2147483648.

Record resource := Resource {
  r_start : Z;
  r_end : Z;
  r_flags : Z;
  r_parent : option rptr;
  r_children : list rptr
}.
#[export] Instance eta_resource : Eta resource := fun r =>
  Resource (r_start r) (r_end r) (r_flags r) (r_parent r) (r_children r).

Definition rtab : Type := rptr -> resource.
Definition set_res (r : rptr) (f : resource -> resource) (s : rtab) : rtab := alter f r s.
Definition busy_res (s : rtab) (r : rptr) : bool := negb (Z.land (r_flags (s r)) IORESOURCE_BUSY =? 0).

(** The loop of [__request_resource]: the new list of children, or the conflict. *)
Fixpoint place (s : rtab) (new : rptr) (l : list rptr) : list rptr + rptr :=
  match l with
  | [] => inl [new]
  | tmp :: l' =>
      if r_end (s new) <? r_start (s tmp) then inl (new :: l)
      else if r_end (s tmp) <? r_start (s new) then
        match place s new l' with inl r => inl (tmp :: r) | inr c => inr c end
      else inr tmp
  end.

Definition __request_resource (root new : rptr) (s : rtab) : rtab * option rptr :=
  if r_end (s new) <? r_start (s new) then (s, Some root)
  else if r_start (s new) <? r_start (s root) then (s, Some root)
  else if r_end (s root) <? r_end (s new) then (s, Some root)
  else match place s new (r_children (s root)) with
  | inl l => (set_res new (fun r => r <| r_parent := Some root |>) (set_res root (fun r => r <| r_children := l |>) s), None)
  | inr c => (s, Some c)
  end.

(** The children without [old], if it is among them. *)
Fixpoint unlink (old : rptr) (l : list rptr) : option (list rptr) :=
  match l with
  | [] => None
  | tmp :: l' => if tmp =? old then Some l' else cons tmp <$> unlink old l'
  end.

(** [None]: [old->parent] is a null pointer. *)
Definition __release_resource (old : rptr) (s : rtab) : option (rtab * Z) :=
  p ← r_parent (s old);
  Some match unlink old (r_children (s p)) with
  | Some l => (set_res old (fun r => r <| r_parent := None |>) (set_res p (fun r => r <| r_children := l |>) s), 0)
  | None => (s, - EINVAL)
  end.

Definition request_resource (root new : rptr) (s : rtab) : rtab * Z :=
  match __request_resource root new s with
  | (s', None) => (s', 0)
  | (s', Some _) => (s', - EBUSY)
  end.

Definition release_resource (old : rptr) (s : rtab) : option (rtab * Z) := __release_resource old s.

(** [tmp] is the structure on the stack. *)
Definition check_resource (root : rptr) (start len : Z) (tmp : rptr) (s : rtab) : option (rtab * Z) :=
  let s1 := set_res tmp (fun r => r <| r_start := start |> <| r_end := u32 (start + len - 1) |>) s in
  match __request_resource root tmp s1 with
  | (s2, Some _) => Some (s2, - EBUSY)
  | (s2, None) => r ← __release_resource tmp s2; Some (fst r, 0)
  end.

(** ** Allocation *)

Section find.
Context (size min max align : Z) (alignf : Z * Z -> Z -> Z * Z).

(** [(x + align - 1) & ~(align - 1)] *)
Definition align_up (x : Z) : Z := Z.land (u32 (x + align - 1)) (Z.ldiff (2 ^ 32 - 1) (align - 1)).

(** The loop of [find_resource] from [this = l]; the last [start] and [end] of [new], and
    whether they fit. *)
Fixpoint find_loop (s : rtab) (root : rptr) (start : Z) (l : list rptr) : Z * Z * bool :=
  let e := match l with this :: _ => r_start (s this) | [] => r_end (s root) end in
  let start := if start <? min then min else start in
  let e := if max <? e then max else e in
  let start := align_up start in
  let '(start, e) := alignf (start, e) size in
  if (start <? e) && (size <=? u32 (e - start + 1)) then (start, u32 (start + size - 1), true)
  else match l with
  | [] => (start, e, false)
  | this :: l' => find_loop s root (u32 (r_end (s this) + 1)) l'
  end.

Definition find_resource (root new : rptr) (s : rtab) : rtab * Z :=
  let '(start, e, ok) := find_loop s root (r_start (s root)) (r_children (s root)) in
  (set_res new (fun r => r <| r_start := start |> <| r_end := e |>) s, if ok : bool then 0 else - EBUSY).

Definition allocate_resource (root new : rptr) (s : rtab) : rtab * Z :=
  match find_resource root new s with
  | (s1, err) =>
      if 0 <=? err then
        match __request_resource root new s1 with
        | (s2, None) => (s2, err)
        | (s2, Some _) => (s2, - EBUSY)
        end
      else (s1, err)
  end.
End find.

(** ** Regions *)

(** The loop of [__request_region]; [n] bounds the depth of the tree.  The flag is the
    success; when it is false [res] has been freed. *)
Fixpoint request_region_loop (n : nat) (parent res : rptr) (s : rtab) : option (rtab * bool) :=
  match n with
  | O => None
  | S n' =>
      match __request_resource parent res s with
      | (s', None) => Some (s', true)
      | (s', Some conflict) =>
          if negb (conflict =? parent) && negb (busy_res s' conflict)
          then request_region_loop n' conflict res s'
          else Some (s', false)
      end
  end.

Definition __request_region (n : nat) (parent : rptr) (start len : Z) (res : option rptr) (s : rtab)
  : option (rtab * option rptr) :=
  match res with
  | None => Some (s, None)
  | Some r =>
      let s1 := set_res r (fun _ => Resource start (u32 (start + len - 1)) IORESOURCE_BUSY None []) s in
      x ← request_region_loop n parent r s1;
      Some (fst x, if snd x : bool then Some r else None)
  end.

Definition __check_region (n : nat) (parent : rptr) (start len : Z) (res : option rptr) (s : rtab) : option (rtab * Z) :=
  x ← __request_region n parent start len res s;
  match x with
  | (s1, None) => Some (s1, - EBUSY)
  | (s1, Some r) => y ← release_resource r s1; Some (fst y, 0)
  end.

(** [__release_region] from the remaining children [l] of [p], with those already passed
    in [before]: the freed resource, if a matching one was found; [n] bounds the steps. *)
Fixpoint release_region_loop (n : nat) (start e : Z) (p : rptr) (before l : list rptr) (s : rtab)
  : option (rtab * option rptr) :=
  match l with
  | [] => Some (s, None)
  | res :: l' =>
      match n with
      | O => None
      | S n' =>
          if (r_start (s res) <=? start) && (e <=? r_end (s res)) then
            if negb (busy_res s res) then release_region_loop n' start e res [] (r_children (s res)) s
            else if negb (r_start (s res) =? start) || negb (r_end (s res) =? e) then Some (s, None)
            else Some (set_res p (fun r => r <| r_children := before ++ l' |>) s, Some res)
          else release_region_loop n' start e p (before ++ [res]) l' s
      end
  end.

Definition __release_region (n : nat) (parent : rptr) (start len : Z) (s : rtab) : option (rtab * option rptr) :=
  release_region_loop n start (u32 (start + len - 1)) parent [] (r_children (s parent)) s.
