(* ===== verification/ResourceTheorems.v ===== *)
(** * The resource tree stays a tree of disjoint ranges *)
From stdpp Require Import base list functions sets relations.
From Stdlib Require Import Sorting.Sorted.
From S2P Require Import Prelude Resource.

(** The children of [r]: in order, disjoint, each a range within that of [r]. *)
Record kids_ok (s : rtab) (r : rptr) : Prop := KidsOk {
  k_sorted : StronglySorted (fun a b => r_end (s a) < r_start (s b)) (r_children (s r));
  k_range : forall c, c ∈ r_children (s r) -> r_start (s c) <= r_end (s c) /\
    r_start (s r) <= r_start (s c) /\ r_end (s c) <= r_end (s r)
}.

Record tree_ok (s : rtab) : Prop := TreeOk {
  t_kids : forall r, kids_ok s r;
  t_parent : forall r c, c ∈ r_children (s r) -> r_parent (s c) = Some r
}.

Definition overlap (s : rtab) (a b : rptr) : Prop := r_start (s a) <= r_end (s b) /\ r_start (s b) <= r_end (s a).
(** In nobody's list of children. *)
Definition detached (s : rtab) (r : rptr) : Prop := forall p, r ∉ r_children (s p).

Lemma set_res_at r f s x : set_res r f s x = if decide (r = x) then f (s r) else s x.
Proof. unfold set_res, alter, fn_alter. by case_decide. Qed.

(** ** The list of children *)

Lemma place_spec s new l : r_start (s new) <= r_end (s new) ->
  StronglySorted (fun a b => r_end (s a) < r_start (s b)) l -> (forall c, c ∈ l -> r_start (s c) <= r_end (s c)) ->
  match place s new l with
  | inl l' => (forall x, x ∈ l' <-> x = new \/ x ∈ l) /\ StronglySorted (fun a b => r_end (s a) < r_start (s b)) l' /\
              forall c, c ∈ l -> ~ overlap s new c
  | inr c => c ∈ l /\ overlap s new c
  end.
Proof.
  intros Hn Hs. induction Hs as [|tmp l Hs IH Hh]; intros Hv; simpl.
  - split; [intros x; set_solver|]. split; [by repeat constructor|]. intros c Hc. by apply not_elem_of_nil in Hc.
  - rewrite Forall_forall in Hh. destruct (Z.ltb_spec (r_end (s new)) (r_start (s tmp))) as [H1|H1].
    + assert (Hall : forall c, c ∈ tmp :: l -> r_end (s new) < r_start (s c)).
      { intros c [->|Hc]%elem_of_cons; [done|]. apply Hh in Hc. pose proof (Hv tmp ltac:(by left)). lia. }
      split; [intros x; set_solver|]. split; [constructor; [by constructor; [|rewrite Forall_forall]|by rewrite Forall_forall]|].
      intros c Hc%Hall [_ ?]. lia.
    + destruct (Z.ltb_spec (r_end (s tmp)) (r_start (s new))) as [H2|H2]; [|split; [by left|split; lia]].
      assert (IH' := IH ltac:(intros c Hc; apply Hv; by right)).
      destruct (place s new l) as [l'|c].
      * destruct IH' as (I1 & I2 & I3). split; [intros x; rewrite !elem_of_cons, I1; tauto|]. split.
        -- constructor; [done|]. rewrite Forall_forall. intros x [->|Hx]%I1; [done|by apply Hh].
        -- intros c [->|Hc]%elem_of_cons; [intros [? _]; lia|by apply I3].
      * destruct IH' as [I1 I2]. split; [by right|done].
Qed.

Lemma unlink_spec old l l' : unlink old l = Some l' -> exists l1 l2, l = l1 ++ old :: l2 /\ l' = l1 ++ l2.
Proof.
  revert l'. induction l as [|x l IH]; intros l'; simpl; [done|]. destruct (Z.eqb_spec x old) as [->|].
  - intros [= <-]. by exists [], l.
  - destruct (unlink old l) as [m|]; simpl; [|done]. intros [= <-]. destruct (IH m eq_refl) as (l1 & l2 & -> & ->).
    by exists (x :: l1), l2.
Qed.

Lemma sorted_drop (R : rptr -> rptr -> Prop) l1 x l2 : StronglySorted R (l1 ++ x :: l2) -> StronglySorted R (l1 ++ l2).
Proof.
  induction l1 as [|y l1 IH]; simpl; inversion 1; subst; [done|]. constructor; [by apply IH|].
  rewrite Forall_forall in *. intros z Hz. set_solver.
Qed.

Lemma sorted_once (R : rptr -> rptr -> Prop) l1 x l2 : StronglySorted R (l1 ++ x :: l2) -> ~ R x x -> x ∉ l1 ++ l2.
Proof.
  intros Hs Hx. induction l1 as [|y l1 IH]; simpl in *; inversion Hs as [|? ? Hs' Hh]; subst; rewrite Forall_forall in Hh.
  - intros Hin. by apply Hx, Hh.
  - rewrite not_elem_of_cons. split; [|auto]. intros ->. apply Hx, Hh. set_solver.
Qed.

Lemma unlink_none old l : unlink old l = None -> old ∉ l.
Proof.
  induction l as [|x l IH]; intros H; [apply not_elem_of_nil|]. simpl in H. destruct (Z.eqb_spec x old); [done|].
  destruct (unlink old l); [done|]. rewrite not_elem_of_cons. auto.
Qed.

(** Every list of children is replaced by a part of it, ranges staying. *)
Lemma kids_ext s s' : (forall r, r_start (s' r) = r_start (s r) /\ r_end (s' r) = r_end (s r)) ->
  forall r l, r_children (s' r) = l ->
  StronglySorted (fun a b => r_end (s a) < r_start (s b)) l ->
  (forall c, c ∈ l -> r_start (s c) <= r_end (s c) /\ r_start (s r) <= r_start (s c) /\ r_end (s c) <= r_end (s r)) ->
  kids_ok s' r.
Proof.
  intros E r l <- Hs Hr. split.
  - clear Hr. induction Hs as [|a l' Hs IH Hh]; [constructor|]. constructor; [done|]. rewrite Forall_forall in *.
    intros b Hb. destruct (E a) as [_ ->], (E b) as [-> _]. by apply Hh.
  - intros c Hc. destruct (E c) as [-> ->], (E r) as [-> ->]. by apply Hr.
Qed.

(** A change of the children of [p] and of parent pointers. *)
Lemma tree_change s s' p l : tree_ok s ->
  (forall r, r_start (s' r) = r_start (s r) /\ r_end (s' r) = r_end (s r)) ->
  (forall r, r_children (s' r) = if decide (r = p) then l else r_children (s r)) ->
  StronglySorted (fun a b => r_end (s a) < r_start (s b)) l ->
  (forall c, c ∈ l -> r_start (s c) <= r_end (s c) /\ r_start (s p) <= r_start (s c) /\ r_end (s c) <= r_end (s p)) ->
  (forall c, c ∈ l -> r_parent (s' c) = Some p) ->
  (forall r c, r <> p -> c ∈ r_children (s r) -> r_parent (s' c) = Some r) -> tree_ok s'.
Proof.
  intros [T1 T2] E Ec Hs Hr Hp Ho. split.
  - intros r. specialize (Ec r). case_decide as D.
    + subst r. by eapply kids_ext.
    + destruct (T1 r) as [K1 K2]. by eapply kids_ext.
  - intros r c. rewrite Ec. case_decide as D; [subst r; apply Hp|by apply Ho].
Qed.

(** ** Request and release *)

Lemma request_spec root new s : tree_ok s -> detached s new ->
  match __request_resource root new s with
  | (s', None) => tree_ok s' /\ new ∈ r_children (s' root) /\
      (forall r, r_start (s' r) = r_start (s r) /\ r_end (s' r) = r_end (s r)) /\
      (forall r, r <> root -> r_children (s' r) = r_children (s r)) /\
      (forall c, c ∈ r_children (s root) -> ~ overlap s new c) /\ r_parent (s' new) = Some root
  | (s', Some c) => s' = s /\ (c = root \/ c ∈ r_children (s root) /\ overlap s new c)
  end.
Proof.
  intros Ht Hd. unfold __request_resource.
  destruct (Z.ltb_spec (r_end (s new)) (r_start (s new))) as [|H1]; [by split; [|left]|].
  destruct (Z.ltb_spec (r_start (s new)) (r_start (s root))) as [|H2]; [by split; [|left]|].
  destruct (Z.ltb_spec (r_end (s root)) (r_end (s new))) as [|H3]; [by split; [|left]|].
  destruct (t_kids _ Ht root) as [K1 K2].
  pose proof (place_spec s new (r_children (s root)) H1 K1 (fun c Hc => proj1 (K2 c Hc))) as Hp.
  destruct (place s new (r_children (s root))) as [l|c]; [|by split; [|right]].
  destruct Hp as (P1 & P2 & P3). set (s' := set_res new _ _).
  assert (E : forall r, r_start (s' r) = r_start (s r) /\ r_end (s' r) = r_end (s r) /\
    r_children (s' r) = (if decide (r = root) then l else r_children (s r)) /\
    r_parent (s' r) = (if decide (r = new) then Some root else r_parent (s r))).
  { intros r. unfold s'. rewrite !set_res_at. repeat (case_decide; subst; try done). }
  split_and!.
  - eapply (tree_change s s' root l); [done|intros r; split; apply E|intros r; apply E|done| | |].
    + intros c [->|Hc]%P1; [lia|by apply K2].
    + intros c Hc. destruct (E c) as (_ & _ & _ & ->). case_decide; [done|]. apply (t_parent _ Ht).
      apply P1 in Hc as [?|?]; done.
    + intros r c Hr Hc. destruct (E c) as (_ & _ & _ & ->). rewrite decide_False; [by apply (t_parent _ Ht)|].
      intros ->. by apply Hd in Hc.
  - destruct (E root) as (_ & _ & -> & _). rewrite decide_True by done. apply P1. by left.
  - intros r. split; apply E.
  - intros r Hr. destruct (E r) as (_ & _ & -> & _). by rewrite decide_False.
  - done.
  - destruct (E new) as (_ & _ & _ & ->). by rewrite decide_True.
Qed.

Lemma release_spec old s : tree_ok s -> forall p, r_parent (s old) = Some p ->
  exists s' n, __release_resource old s = Some (s', n) /\ tree_ok s' /\
    (old ∈ r_children (s p) -> n = 0 /\ detached s' old).
Proof.
  intros Ht p Hp. unfold __release_resource. rewrite Hp. cbn [mbind option_bind].
  destruct (unlink old (r_children (s p))) as [l|] eqn:El.
  2:{ exists s, (- EINVAL). split_and!; try done. intros Hin. by apply unlink_none in El. }
  apply unlink_spec in El as (l1 & l2 & El & ->). set (s' := set_res old _ _).
  destruct (t_kids _ Ht p) as [K1 K2]. rewrite El in K1.
  assert (E : forall r, r_start (s' r) = r_start (s r) /\ r_end (s' r) = r_end (s r) /\
    r_children (s' r) = (if decide (r = p) then l1 ++ l2 else r_children (s r)) /\
    (r <> old -> r_parent (s' r) = r_parent (s r))).
  { intros r. unfold s'. rewrite !set_res_at. repeat (case_decide; subst; try done). }
  assert (Hno : old ∉ l1 ++ l2).
  { eapply sorted_once; [exact K1|]. cbv beta. assert (r_start (s old) <= r_end (s old)); [|lia]. apply (K2 old). rewrite El. set_solver. }
  assert (Hin : forall c, c ∈ l1 ++ l2 -> c ∈ r_children (s p)) by (rewrite El; set_solver).
  exists s', 0. split; [done|]. split.
  - eapply (tree_change s s' p (l1 ++ l2)); [done|intros r; split; apply E|intros r; apply E|by eapply sorted_drop| | |].
    + intros c Hc. by apply K2, Hin.
    + intros c Hc. destruct (E c) as (_ & _ & _ & ->); [by apply (t_parent _ Ht), Hin|by intros ->].
    + intros r c Hr Hc. destruct (E c) as (_ & _ & _ & ->); [by apply (t_parent _ Ht)|].
      intros ->. apply (t_parent _ Ht) in Hc. congruence.
  - intros _. split; [done|]. intros r. destruct (E r) as (_ & _ & -> & _). case_decide; [done|].
    intros Hc. apply (t_parent _ Ht) in Hc. congruence.
Qed.

(** A structure outside the tree and without children is set up. *)
Lemma setup_ok r f s : tree_ok s -> detached s r -> r_children (f (s r)) = [] -> tree_ok (set_res r f s) /\ detached (set_res r f s) r.
Proof.
  intros [T1 T2] Hd Hc.
  assert (Ec : forall x, r_children (set_res r f s x) = if decide (x = r) then [] else r_children (s x)).
  { intros x. rewrite set_res_at. repeat (case_decide; subst; try done). }
  assert (Eo : forall x, x <> r -> set_res r f s x = s x) by (intros x Hx; rewrite set_res_at; by rewrite decide_False).
  split; [split|].
  - intros x. destruct (decide (x = r)) as [->|Hx].
    + split; rewrite Ec, decide_True by done; [constructor|]. intros c Hc'. by apply not_elem_of_nil in Hc'.
    + destruct (T1 x) as [K1 K2]. assert (Hne : forall c, c ∈ r_children (s x) -> c <> r) by (intros c Hin ->; by apply Hd in Hin).
      split; rewrite Ec, decide_False by done.
      * clear K2. induction K1 as [|a l Hs IH Hh]; [constructor|]. constructor; [apply IH; set_solver|].
        rewrite Forall_forall in *. intros b Hb. rewrite !Eo by set_solver. by apply Hh.
      * intros c Hin. rewrite !Eo by (done || by apply Hne). by apply K2.
  - intros x c. rewrite Ec. case_decide; [intros Hin; by apply not_elem_of_nil in Hin|]. intros Hin.
    rewrite Eo; [by apply T2|]. intros ->. by apply Hd in Hin.
  - intros x. rewrite Ec. case_decide; [apply not_elem_of_nil|apply Hd].
Qed.

(** ** The other calls *)

Lemma check_resource_ok root start len tmp s s' n : tree_ok s -> detached s tmp -> r_children (s tmp) = [] ->
  check_resource root start len tmp s = Some (s', n) -> tree_ok s'.
Proof.
  intros Ht Hd Hc. unfold check_resource. cbv zeta. set (s1 := set_res tmp _ s).
  destruct (setup_ok tmp (fun r => r <| r_start := start |> <| r_end := u32 (start + len - 1) |>) s Ht Hd) as [T1 D1]; [exact Hc|].
  pose proof (request_spec root tmp s1 T1 D1) as Hr. destruct (__request_resource root tmp s1) as [s2 [c|]].
  - intros [= <- <-]. by destruct Hr as [-> _].
  - destruct Hr as (T2 & H2 & _ & _ & _ & P2). destruct (release_spec tmp s2 T2 root P2) as (s3 & m & -> & T3 & _).
    cbn [mbind option_bind fst]. by intros [= <- <-].
Qed.

Lemma allocate_ok size min max align alignf root new s : tree_ok s -> detached s new -> r_children (s new) = [] ->
  tree_ok (fst (allocate_resource size min max align alignf root new s)).
Proof.
  intros Ht Hd Hc. unfold allocate_resource, find_resource. destruct (find_loop _ _ _ _ _ _ _ _ _) as [[start e] ok].
  set (s1 := set_res new _ s).
  destruct (setup_ok new (fun r => r <| r_start := start |> <| r_end := e |>) s Ht Hd) as [T1 D1]; [exact Hc|].
  destruct (0 <=? _); [|done]. pose proof (request_spec root new s1 T1 D1) as Hr.
  destruct (__request_resource root new s1) as [s2 [c|]]; [by destruct Hr as [-> _]|apply Hr].
Qed.

Lemma region_loop_ok n : forall parent res s s' ok, tree_ok s -> detached s res ->
  request_region_loop n parent res s = Some (s', ok) -> tree_ok s' /\ (ok = true -> exists p, r_parent (s' res) = Some p).
Proof.
  induction n as [|n IH]; intros parent res s s' ok Ht Hd; [done|]. cbn [request_region_loop].
  pose proof (request_spec parent res s Ht Hd) as Hr. destruct (__request_resource parent res s) as [s1 [c|]].
  - destruct Hr as [-> _]. destruct (_ && _); [by apply IH|]. intros [= <- <-]. by split.
  - intros [= <- <-]. split; [apply Hr|]. intros _. exists parent. apply Hr.
Qed.

Lemma request_region_ok n parent start len res s s' r : tree_ok s -> (forall p, res = Some p -> detached s p) ->
  __request_region n parent start len res s = Some (s', r) ->
  tree_ok s' /\ forall x, r = Some x -> exists p, r_parent (s' x) = Some p.
Proof.
  intros Ht Hd. unfold __request_region. destruct res as [x|]; [|intros [= <- <-]; by split].
  destruct (setup_ok x (fun _ => Resource start (u32 (start + len - 1)) IORESOURCE_BUSY None []) s Ht (Hd x eq_refl) eq_refl) as [T1 D1].
  cbv zeta. destruct (request_region_loop n parent x _) as [[s1 ok]|] eqn:E; [|done]. cbn [mbind option_bind fst snd].
  intros [= <- <-]. destruct (region_loop_ok _ _ _ _ _ _ T1 D1 E) as [T2 P2]. split; [done|].
  destruct ok; [|done]. intros y [= <-]. auto.
Qed.

Lemma check_region_ok n parent start len res s s' m : tree_ok s -> (forall p, res = Some p -> detached s p) ->
  __check_region n parent start len res s = Some (s', m) -> tree_ok s'.
Proof.
  intros Ht Hd. unfold __check_region. destruct (__request_region n parent start len res s) as [[s1 r]|] eqn:E; [|done].
  destruct (request_region_ok _ _ _ _ _ _ _ _ Ht Hd E) as [T1 P1]. cbn [mbind option_bind].
  destruct r as [x|]; [|by intros [= <- _]]. destruct (P1 x eq_refl) as [p Hp]. unfold release_resource.
  destruct (release_spec x s1 T1 p Hp) as (s2 & k & -> & T2 & _). cbn [mbind option_bind fst]. by intros [= <- _].
Qed.

Lemma release_region_ok n : forall start e p before l s s' r, tree_ok s -> r_children (s p) = before ++ l ->
  release_region_loop n start e p before l s = Some (s', r) -> tree_ok s'.
Proof.
  induction n as [|n IH]; intros start e p before l s s' r Ht Hc; destruct l as [|res l]; cbn [release_region_loop];
    try (by intros [= <- _]).
  destruct (_ && _).
  - destruct (negb (busy_res s res)); [by apply IH|]. destruct (_ || _); [by intros [= <- _]|]. intros [= <- _].
    destruct (t_kids _ Ht p) as [K1 K2]. rewrite Hc in K1.
    assert (Hin : forall c, c ∈ before ++ l -> c ∈ r_children (s p)) by (rewrite Hc; set_solver).
    set (s' := set_res p _ s).
    assert (E : forall x, r_start (s' x) = r_start (s x) /\ r_end (s' x) = r_end (s x) /\
      r_children (s' x) = (if decide (x = p) then before ++ l else r_children (s x)) /\ r_parent (s' x) = r_parent (s x)).
    { intros x. unfold s'. rewrite !set_res_at. repeat (case_decide; subst; try done). }
    eapply (tree_change s s' p (before ++ l)); [done|intros x; split; apply E|intros x; apply E|by eapply sorted_drop| | |].
    + intros c Hc'. by apply K2, Hin.
    + intros c Hc'. destruct (E c) as (_ & _ & _ & ->). by apply (t_parent _ Ht), Hin.
    + intros x c _ Hc'. destruct (E c) as (_ & _ & _ & ->). by apply (t_parent _ Ht).
  - apply IH; [done|]. by rewrite <- app_assoc.
Qed.

(** ** Runs *)

(** The calls of kernel/resource.c, each with structures that are not in use: a new one is
    in nobody's list and has no children. *)
Inductive rstep (s : rtab) : rtab -> Prop :=
  | rs_request root new : detached s new -> rstep s (fst (request_resource root new s))
  | rs_release old s' n : release_resource old s = Some (s', n) -> rstep s s'
  | rs_check root start len tmp s' n : detached s tmp -> r_children (s tmp) = [] ->
      check_resource root start len tmp s = Some (s', n) -> rstep s s'
  | rs_allocate size min max align alignf root new : detached s new -> r_children (s new) = [] ->
      rstep s (fst (allocate_resource size min max align alignf root new s))
  | rs_request_region n parent start len res s' r : (forall p, res = Some p -> detached s p) ->
      __request_region n parent start len res s = Some (s', r) -> rstep s s'
  | rs_check_region n parent start len res s' m : (forall p, res = Some p -> detached s p) ->
      __check_region n parent start len res s = Some (s', m) -> rstep s s'
  | rs_release_region n parent start len s' r : __release_region n parent start len s = Some (s', r) -> rstep s s'.

Lemma rstep_ok s s' : tree_ok s -> rstep s s' -> tree_ok s'.
Proof.
  intros Ht H. destruct H.
  - unfold request_resource. pose proof (request_spec root new s Ht H) as Hr.
    destruct (__request_resource root new s) as [s1 [c|]]; [by destruct Hr as [-> _]|apply Hr].
  - unfold release_resource in H. destruct (r_parent (s old)) as [p|] eqn:Hp.
    + destruct (release_spec old s Ht p Hp) as (s2 & m & E & T2 & _). rewrite E in H. by injection H as <- <-.
    + unfold __release_resource in H. by rewrite Hp in H.
  - by eapply check_resource_ok.
  - by apply allocate_ok.
  - by eapply request_region_ok.
  - by eapply check_region_ok.
  - unfold __release_region in H. by eapply release_region_ok in H.
Qed.

(** C17. Whatever requests, allocations and releases of resources and regions are made, the
    children of every resource stay in order, pairwise disjoint and within their parent,
    so that no two drivers ever hold overlapping ranges of the same parent. *)
Theorem resource_tree_consistent s s' : tree_ok s -> rtc rstep s s' ->
  forall r, StronglySorted (fun a b => r_end (s' a) < r_start (s' b)) (r_children (s' r)) /\
    (forall c, c ∈ r_children (s' r) -> r_start (s' r) <= r_start (s' c) <= r_end (s' c) /\ r_end (s' c) <= r_end (s' r)) /\
    (forall c d, c ∈ r_children (s' r) -> d ∈ r_children (s' r) -> overlap s' c d -> c = d).
Proof.
  intros Ht Hr. assert (T : tree_ok s').
  { induction Hr as [|a b c Hab _ IH]; [done|]. apply IH. by eapply rstep_ok. }
  intros r. destruct (t_kids _ T r) as [K1 K2]. split; [done|]. split.
  - intros c Hc. destruct (K2 c Hc) as (? & ? & ?). lia.
  - clear K2. induction K1 as [|a l Hs IH Hh]; intros c d Hc Hd Ho; [by apply not_elem_of_nil in Hc|].
    rewrite Forall_forall in Hh. apply elem_of_cons in Hc as [->|Hc], Hd as [->|Hd]; [done| | |by apply IH].
    + apply Hh in Hd. destruct Ho. lia.
    + apply Hh in Hc. destruct Ho. lia.
Qed.

(** The I/O ports, with one busy range. *)
Definition ports : rtab := fun r =>
  if r =? 1 then Resource 0 65535 0 None [2]
  else if r =? 2 then Resource 100 199 IORESOURCE_BUSY (Some 1) []
  else Resource 0 0 0 None [].

Lemma ports_ok : tree_ok ports.
Proof.
  assert (Hk : forall r c, c ∈ r_children (ports r) -> r = 1 /\ c = 2).
  { intros r c. unfold ports. destruct (Z.eqb_spec r 1) as [->|]; [set_solver|]. destruct (Z.eqb_spec r 2); set_solver. }
  split.
  - intros r. split.
    + unfold ports at 3. destruct (r =? 1); [by repeat constructor|]. destruct (r =? 2); constructor.
    + intros c [-> ->]%Hk. vm_compute. done.
  - by intros r c [-> ->]%Hk.
Qed.

Lemma resource_tree_consistent_witness :
  exists s', rtc rstep ports s' /\ r_children (s' 1) = [2; 3] /\ forall c, c ∈ r_children (s' 1) -> r_end (s' c) <= r_end (s' 1).
Proof.
  destruct (__request_region 5 1 200 10 (Some 3) ports) as [[s' r]|] eqn:E; [|vm_compute in E; discriminate].
  assert (H : rtc rstep ports s').
  { apply rtc_once. eapply rs_request_region; [|exact E]. intros p [= <-] q. unfold ports.
    destruct (q =? 1); [set_solver|]. destruct (q =? 2); set_solver. }
  exists s'. split; [exact H|]. split.
  - vm_compute in E. injection E as <- _. reflexivity.
  - intros c Hc. apply (resource_tree_consistent ports s' ports_ok H 1), Hc.
Defined.

(** ** A gap that is one too small *)

(** [find_resource] takes the start of the next child as the end of a gap: a request that
    is one byte larger than the gap in front of the first child is placed there, overlaps
    the child and is refused, whatever free space there is behind it. *)
Theorem allocate_misses_space s root new c l min max :
  r_children (s root) = c :: l -> r_start (s root) < r_start (s c) -> r_start (s c) <= r_end (s c) ->
  0 <= min <= r_start (s root) -> r_start (s c) <= max -> r_end (s c) < 2 ^ 32 - 1 -> new <> root -> new <> c ->
  snd (allocate_resource (r_start (s c) - r_start (s root) + 1) min max 1 (fun x _ => x) root new s) = - EBUSY.
Proof.
  intros Hl H1 H2 H3 H4 H5 Hr Hc. set (a := r_start (s root)) in *. set (b := r_start (s c)) in *.
  assert (Ea : align_up 1 a = a).
  { unfold align_up. replace (a + 1 - 1) with a by lia. rewrite u32_small by lia. change (1 - 1) with 0.
    rewrite Z.ldiff_0_r. change (2 ^ 32 - 1) with (Z.ones 32). rewrite Z.land_ones by lia. apply Z.mod_small. lia. }
  assert (Ef : find_loop (b - a + 1) min max 1 (fun x _ => x) s root a (c :: l) = (a, b, true)).
  { cbn [find_loop]. fold b. rewrite (proj2 (Z.ltb_ge a min)), (proj2 (Z.ltb_ge max b)) by lia. rewrite Ea.
    rewrite (proj2 (Z.ltb_lt a b)) by lia. rewrite (u32_small (b - a + 1)) by lia.
    rewrite Z.leb_refl. cbn [andb]. rewrite u32_small by lia. do 2 f_equal. lia. }
  unfold allocate_resource, find_resource. rewrite Hl. fold a. rewrite Ef. cbv zeta iota.
  change (0 <=? 0) with true. cbv iota. set (s1 := set_res new _ s).
  assert (En : r_start (s1 new) = a /\ r_end (s1 new) = b) by (unfold s1; by rewrite set_res_at, decide_True).
  assert (Eo : forall x, x <> new -> s1 x = s x) by (intros x Hx; unfold s1; by rewrite set_res_at, decide_False).
  unfold __request_resource. destruct En as [-> ->]. rewrite (Eo root), Hl by done. fold a.
  rewrite (proj2 (Z.ltb_ge b a)), (proj2 (Z.ltb_ge a a)) by lia. destruct (r_end (s root) <? b); [done|]. cbn [place].
  replace (r_end (s1 new)) with b by (unfold s1; by rewrite set_res_at, decide_True).
  replace (r_start (s1 new)) with a by (unfold s1; by rewrite set_res_at, decide_True).
  rewrite (Eo c) by done. fold b. rewrite Z.ltb_irrefl, (proj2 (Z.ltb_ge (r_end (s c)) a)) by lia. done.
Qed.

Lemma allocate_misses_space_witness :
  snd (allocate_resource 101 0 65535 1 (fun x _ => x) 1 3 ports) = - EBUSY /\
  snd (allocate_resource 102 0 65535 1 (fun x _ => x) 1 3 ports) = 0.
Proof.
  split; [|vm_compute; reflexivity].
  apply (allocate_misses_space ports 1 3 2 [] 0 65535); [reflexivity|..]; vm_compute; try reflexivity; try discriminate.
  split; discriminate.
Defined.
