(* ===== verification/Sigset.v ===== *)
(** * Signal numbers and sets (include/asm-i386/signal.h, include/linux/signal.h)

    A [sigset_t] is its two 32-bit words.  The bit operations are those of the
    i386 header ([btsl], [btrl], [btl] on the bit string that starts at the set), for
    signals 1 to [_NSIG].  The lemmas relate every operation to membership, so that
    the other files reason about sets and not about words. *)
From stdpp Require Import base list.
From S2P Require Import Prelude Bitmap.

Definition _NSIG : Z := 64.
Definition SIGHUP : Z := 1.
Definition SIGQUIT : Z := 3.
Definition SIGILL : Z := 4.
Definition SIGTRAP : Z := 5.
Definition SIGABRT : Z := 6.
Definition SIGBUS : Z := 7.
Definition SIGFPE : Z := 8.
Definition SIGKILL : Z := 9.
Definition SIGUSR1 : Z := 10.
Definition SIGSEGV : Z := 11.
Definition SIGALRM : Z := 14.
Definition SIGCHLD : Z := 17.
Definition SIGCONT : Z := 18.
Definition SIGSTOP : Z := 19.
Definition SIGTSTP : Z := 20.
Definition SIGTTIN : Z := 21.
Definition SIGTTOU : Z := 22.
Definition SIGURG : Z := 23.
Definition SIGXCPU : Z := 24.
Definition SIGXFSZ : Z := 25.
Definition SIGVTALRM : Z := 26.
Definition SIGPROF : Z := 27.
Definition SIGWINCH : Z := 28.
Definition SIGSYS : Z := 31.
Definition SIGRTMIN : Z := 32.

Record sigset := Sigset { sig0 : Z; sig1 : Z }.
#[export] Instance eta_sigset : Eta sigset := fun m => Sigset (sig0 m) (sig1 m).

#[export] Instance sigset_eq_dec : EqDecision sigset.
Proof. solve_decision. Defined.

(** ** Operations *)

Definition sigaddset (m : sigset) (sig : Z) : sigset :=
  let n := sig - 1 in
  if n / 32 =? 0 then m <| sig0 ::= fun w => Z.setbit w (n mod 32) |>
  else m <| sig1 ::= fun w => Z.setbit w (n mod 32) |>.

Definition sigdelset (m : sigset) (sig : Z) : sigset :=
  let n := sig - 1 in
  if n / 32 =? 0 then m <| sig0 ::= fun w => Z.clearbit w (n mod 32) |>
  else m <| sig1 ::= fun w => Z.clearbit w (n mod 32) |>.

Definition sigismember (m : sigset) (sig : Z) : bool :=
  let n := sig - 1 in
  if n / 32 =? 0 then Z.testbit (sig0 m) (n mod 32) else Z.testbit (sig1 m) (n mod 32).

Definition sigmask (sig : Z) : Z := Z.shiftl 1 (sig - 1).

(** [x & ~y], and [~x] on 32 bits *)
Definition andn (x y : Z) : Z := Z.ldiff x y.
Definition not32 (x : Z) : Z := Z.lxor x (Z.ones 32).

Definition sigorsets (a b : sigset) : sigset :=
  Sigset (Z.lor (sig0 a) (sig0 b)) (Z.lor (sig1 a) (sig1 b)).
Definition sigandsets (a b : sigset) : sigset :=
  Sigset (Z.land (sig0 a) (sig0 b)) (Z.land (sig1 a) (sig1 b)).
Definition signandsets (a b : sigset) : sigset :=
  Sigset (andn (sig0 a) (sig0 b)) (andn (sig1 a) (sig1 b)).
Definition signotset (m : sigset) : sigset := Sigset (not32 (sig0 m)) (not32 (sig1 m)).
Definition sigemptyset : sigset := Sigset 0 0.

(** The operations on the low word. *)
Definition sigaddsetmask (m : sigset) (mask : Z) : sigset := m <| sig0 ::= fun w => Z.lor w mask |>.
Definition sigdelsetmask (m : sigset) (mask : Z) : sigset := m <| sig0 ::= fun w => andn w mask |>.
Definition siginitset (mask : Z) : sigset := Sigset mask 0.

(** [sigmask(SIGKILL) | sigmask(SIGSTOP)], the complement of [_BLOCKABLE] *)
Definition UNBLOCKABLE : Z := Z.lor (sigmask SIGKILL) (sigmask SIGSTOP).

Definition has_pending_signals (signal blocked : sigset) : bool :=
  negb (Z.lor (andn (sig1 signal) (sig1 blocked)) (andn (sig0 signal) (sig0 blocked)) =? 0).

(** [next_signal]: the case of two words; [ffz(~x)] is the lowest set bit of [x]. *)
Definition next_signal (signal mask : sigset) : Z :=
  let x0 := andn (sig0 signal) (sig0 mask) in
  let x1 := andn (sig1 signal) (sig1 mask) in
  if negb (x0 =? 0) then 1 + __ffs x0
  else if negb (x1 =? 0) then 32 + 1 + __ffs x1
  else 0.

(** ** Membership *)

Definition valid_signal (sig : Z) : Prop := 1 <= sig <= _NSIG.
Definition sigset_ok (m : sigset) : Prop := 0 <= sig0 m < 2 ^ 32 /\ 0 <= sig1 m < 2 ^ 32.

Ltac vsig := unfold valid_signal, _NSIG in *; lia.

Lemma bit_pos sig : valid_signal sig ->
  (sig <= 32 /\ (sig - 1) / 32 = 0 /\ (sig - 1) mod 32 = sig - 1) \/
  (32 < sig /\ (sig - 1) / 32 = 1 /\ (sig - 1) mod 32 = sig - 33).
Proof.
  unfold valid_signal, _NSIG. intros. destruct (decide (sig <= 32)); [left|right].
  - rewrite Z.div_small, Z.mod_small by lia. lia.
  - assert ((sig - 1) / 32 = 1) by (symmetry; apply Z.div_unique with (sig - 33); lia).
    assert ((sig - 1) mod 32 = sig - 33) by (symmetry; apply Z.mod_unique with 1; lia). lia.
Qed.

(** Splits a goal about valid signals into the cases of the low and the high word. *)
Ltac sig_word H :=
  let B := fresh "B" in pose proof H as B; unfold valid_signal, _NSIG in B;
  destruct (bit_pos _ H) as [(? & ?E & ?E)|(? & ?E & ?E)].

(** Decides equations between boolean comparisons of integers. *)
Ltac eqb_cases :=
  repeat match goal with |- context [?a =? ?b] => destruct (Z.eqb_spec a b) end; simpl; done || lia.

Lemma mem_word m sig : valid_signal sig -> sigismember m sig =
  if sig <=? 32 then Z.testbit (sig0 m) (sig - 1) else Z.testbit (sig1 m) (sig - 33).
Proof. intros H. unfold sigismember. sig_word H; rewrite E, E0; simpl; destruct (Z.leb_spec sig 32); done || lia. Qed.

Lemma sig_bits x y : valid_signal x -> valid_signal y ->
  (x - 1) / 32 = (y - 1) / 32 -> (x - 1) mod 32 = (y - 1) mod 32 -> x = y.
Proof. intros Hx Hy. sig_word Hx; sig_word Hy; lia. Qed.

Lemma mem_add m x y : valid_signal x -> valid_signal y ->
  sigismember (sigaddset m x) y = (x =? y) || sigismember m y.
Proof.
  intros Hx Hy. unfold sigismember, sigaddset. sig_word Hx; sig_word Hy; rewrite E, E0, E1, E2; simpl.
  1,4: rewrite Z.setbit_eqb by lia; f_equal; by eqb_cases.
  all: destruct (Z.eqb_spec x y); [lia|done].
Qed.

Lemma mem_del m x y : valid_signal x -> valid_signal y ->
  sigismember (sigdelset m x) y = sigismember m y && negb (x =? y).
Proof.
  intros Hx Hy. unfold sigismember, sigdelset. sig_word Hx; sig_word Hy; rewrite E, E0, E1, E2; simpl.
  1,4: rewrite Z.clearbit_eqb by lia; f_equal; f_equal; by eqb_cases.
  all: destruct (Z.eqb_spec x y); [lia|by rewrite andb_true_r].
Qed.

Lemma mem_or a b x : valid_signal x -> sigismember (sigorsets a b) x = sigismember a x || sigismember b x.
Proof. intros H. rewrite !mem_word by done. simpl. rewrite !Z.lor_spec. by case_match. Qed.

Lemma mem_and a b x : valid_signal x -> sigismember (sigandsets a b) x = sigismember a x && sigismember b x.
Proof. intros H. rewrite !mem_word by done. simpl. rewrite !Z.land_spec. by case_match. Qed.

Lemma mem_nand a b x : valid_signal x ->
  sigismember (signandsets a b) x = sigismember a x && negb (sigismember b x).
Proof. intros H. rewrite !mem_word by done. simpl. unfold andn. rewrite !Z.ldiff_spec. by case_match. Qed.

Lemma mem_not m x : valid_signal x -> sigismember (signotset m) x = negb (sigismember m x).
Proof.
  intros H. rewrite !mem_word by done. unfold valid_signal, _NSIG in H. simpl. unfold not32.
  case_match; b2p; rewrite Z.lxor_spec, Z.ones_spec_low by lia; by destruct (Z.testbit _ _).
Qed.

Lemma mem_empty x : sigismember sigemptyset x = false.
Proof. unfold sigismember. simpl. rewrite Z.testbit_0_l. by case_match. Qed.

Lemma mem_delmask m mask x : valid_signal x ->
  sigismember (sigdelsetmask m mask) x = sigismember m x && negb ((x <=? 32) && Z.testbit mask (x - 1)).
Proof.
  intros H. rewrite !mem_word by done. simpl. unfold andn. rewrite Z.ldiff_spec.
  case_match; [done|]. by rewrite andb_true_r.
Qed.

Lemma mem_addmask m mask x : valid_signal x ->
  sigismember (sigaddsetmask m mask) x = sigismember m x || ((x <=? 32) && Z.testbit mask (x - 1)).
Proof.
  intros H. rewrite !mem_word by done. simpl. rewrite Z.lor_spec.
  case_match; [done|]. by rewrite orb_false_r.
Qed.

Lemma mem_init mask x : valid_signal x ->
  sigismember (siginitset mask) x = (x <=? 32) && Z.testbit mask (x - 1).
Proof. intros H. rewrite !mem_word by done. simpl. rewrite Z.testbit_0_l. by case_match. Qed.

Lemma unblockable_bits x : valid_signal x ->
  (x <=? 32) && Z.testbit UNBLOCKABLE (x - 1) = (x =? SIGKILL) || (x =? SIGSTOP).
Proof.
  unfold valid_signal, _NSIG, UNBLOCKABLE, sigmask, SIGKILL, SIGSTOP. intros.
  rewrite Z.lor_spec, !Z.shiftl_1_l, !Z.pow2_bits_eqb by lia.
  destruct (Z.leb_spec x 32); rewrite ?andb_true_l, ?andb_false_l; eqb_cases.
Qed.

(** ** What a search finds *)

Lemma mem_ok_nand a b : sigset_ok a -> sigset_ok (signandsets a b).
Proof.
  assert (L : forall x y, 0 <= x < 2 ^ 32 -> 0 <= Z.ldiff x y < 2 ^ 32).
  { intros x y [H1 H2]. assert (N : 0 <= Z.ldiff x y) by (by apply Z.ldiff_nonneg; left). split; [done|].
    rewrite <- (Z.mod_small x (2 ^ 32)), <- Z.land_ones by lia. rewrite Z.ldiff_land, <- Z.land_assoc.
    rewrite (Z.land_comm (Z.ones 32)), Z.land_assoc, Z.land_ones by lia. by apply Z.mod_pos_bound. }
  intros [H0 H1]. unfold sigset_ok, signandsets, andn; simpl. by split; apply L.
Qed.

Lemma sigset_zero m : sigset_ok m -> (forall x, valid_signal x -> sigismember m x = false) -> sig0 m = 0 /\ sig1 m = 0.
Proof.
  intros [H0 H1] Hn.
  assert (L : forall w, 0 <= w < 2 ^ 32 -> (forall k, 0 <= k < 32 -> Z.testbit w k = false) -> w = 0).
  { intros w Hw Hb. apply Z.bits_inj'. intros n Hpos. rewrite Z.testbit_0_l.
    destruct (decide (n < 32)); [apply Hb; lia|].
    rewrite <- (Z.mod_small w (2 ^ 32)) by done. apply Z.mod_pow2_bits_high. lia. }
  split; apply L; try done; intros k Hk.
  - specialize (Hn (k + 1)). rewrite mem_word in Hn by vsig.
    case_match; b2p; [|lia]. replace (k + 1 - 1) with k in Hn by lia. apply Hn. vsig.
  - specialize (Hn (k + 33)). rewrite mem_word in Hn by vsig.
    case_match; b2p; [lia|]. replace (k + 33 - 33) with k in Hn by lia. apply Hn. vsig.
Qed.

Lemma word_pos w : 0 <= w < 2 ^ 32 -> w <> 0 -> exists k, 0 <= k < 32 /\ Z.testbit w k = true.
Proof. intros H1 H2. destruct (ffs_spec w H1 H2) as (?&?&_). eauto. Qed.

(** [next_signal] finds the lowest signal of the set outside the mask, or 0. *)
Lemma next_signal_spec signal mask : sigset_ok signal ->
  let n := next_signal signal mask in
  (n = 0 /\ forall x, valid_signal x -> sigismember signal x = true -> sigismember mask x = true) \/
  (valid_signal n /\ sigismember signal n = true /\ sigismember mask n = false /\
   forall x, 1 <= x < n -> sigismember signal x = true -> sigismember mask x = true).
Proof.
  intros Hok. cbv zeta. assert (Hn := mem_ok_nand signal mask Hok).
  assert (M : forall x, valid_signal x -> sigismember (signandsets signal mask) x = false ->
    sigismember signal x = true -> sigismember mask x = true).
  { intros x Hx. rewrite mem_nand by done. by destruct (sigismember signal x), (sigismember mask x). }
  destruct Hn as [H0 H1]. unfold next_signal.
  change (andn (sig0 signal) (sig0 mask)) with (sig0 (signandsets signal mask)).
  change (andn (sig1 signal) (sig1 mask)) with (sig1 (signandsets signal mask)).
  assert (Md := mem_nand signal mask). remember (signandsets signal mask) as d eqn:Ed. clear Ed. unfold valid_signal, _NSIG in *.
  case_match eqn:E0; [|case_match eqn:E1]; b2p.
  - right. destruct (ffs_spec _ H0 E0) as (F1 & F2 & F3).
    assert (Hm : sigismember d (1 + __ffs (sig0 d)) = true).
    { rewrite mem_word by vsig. case_match; b2p; [|lia]. rewrite <- F2. f_equal. lia. }
    rewrite Md, andb_true_iff, negb_true_iff in Hm by vsig.
    split_and!; [lia..|by apply Hm|by apply Hm|]. intros x Hx. apply M; [vsig|].
    rewrite mem_word by vsig. case_match; b2p; [|lia]. apply F3. lia.
  - right. destruct (ffs_spec _ H1 E1) as (F1 & F2 & F3).
    assert (Hm : sigismember d (32 + 1 + __ffs (sig1 d)) = true).
    { rewrite mem_word by vsig. case_match; b2p; [lia|]. rewrite <- F2. f_equal. lia. }
    rewrite Md, andb_true_iff, negb_true_iff in Hm by vsig.
    split_and!; [lia..|by apply Hm|by apply Hm|]. intros x Hx. apply M; [vsig|].
    rewrite mem_word by vsig. case_match; b2p; [by rewrite E0, Z.testbit_0_l|apply F3; lia].
  - left. split; [done|]. intros x Hx. apply M; [done|]. rewrite mem_word by done.
    rewrite E0, E1, !Z.testbit_0_l. by case_match.
Qed.

(** [recalc_sigpending] is true exactly when some signal is pending and not blocked. *)
Lemma has_pending_spec signal blocked : sigset_ok signal ->
  has_pending_signals signal blocked = true <->
  exists x, valid_signal x /\ sigismember signal x = true /\ sigismember blocked x = false.
Proof.
  intros Hok. assert (Hn := mem_ok_nand signal blocked Hok). unfold has_pending_signals.
  rewrite negb_true_iff, Z.eqb_neq. split.
  - intros Hnz. destruct (next_signal_spec signal blocked Hok) as [[_ Hall]|(?&?&?&_)]; [|eauto].
    exfalso. apply Hnz. destruct (sigset_zero (signandsets signal blocked) Hn) as [E0 E1].
    + intros x Hx. rewrite mem_nand by done. specialize (Hall x Hx).
      destruct (sigismember signal x); [by rewrite Hall|done].
    + simpl in E0, E1. by rewrite E0, E1.
  - intros (x & Hx & Hs & Hb) [E1 E0]%Z.lor_eq_0_iff.
    assert (Hm : sigismember (signandsets signal blocked) x = true) by (rewrite mem_nand by done; by rewrite Hs, Hb).
    rewrite mem_word in Hm by done. unfold signandsets in Hm. simpl in Hm. rewrite E0, E1, !Z.testbit_0_l in Hm. by case_match.
Qed.
