(* ===== verification/Signal.v ===== *)
(** * Signals: queues, sending, dequeuing (kernel/signal.c)

    The fields of a task that belong to signals are in [gtask]; its state, its
    [sigpending] flag, its uids and its capabilities are those of the scheduler's
    [task], since a signal wakes its target through [wake_up_process].  [sched_of] is
    the scheduler, [handlers] the store of the signal structures that threads share.
    A queue is the list of its [siginfo]s, [glist] the tasks in the order of
    [for_each_task].

    The union of [siginfo] is [si_pid], [si_uid] and the other words in order, which
    [si_status], [si_utime], [si_stime] or the value sent with the signal occupy. *)
From stdpp Require Import base list functions.
From S2P Require Import Prelude PidHash Bitmap Sched SchedCalls Sigset.

Definition EINTR : Z := 4.
Definition CAP_KILL : Z := 5.
Definition PT_PTRACED : Z := 1.
Definition PF_SIGNALED : Z := 1024.
Definition SI_USER : Z := 0.
Definition SI_KERNEL : Z := 128.
Definition SI_TKILL : Z := -6.
Definition SIG_DFL : Z := 0.
Definition SIG_IGN : Z := 1.
(** [__SI_CHLD | n] *)
Definition CLD_EXITED : Z := 262145.
Definition CLD_KILLED : Z := 262146.
Definition CLD_DUMPED : Z := 262147.
Definition CLD_TRAPPED : Z := 262148.
Definition CLD_STOPPED : Z := 262149.

Record siginfo := Siginfo {
  si_signo : Z;
  si_errno : Z;
  si_code : Z;
  si_pid : Z;
  si_uid : Z;
  si_rest : list Z
}.
#[export] Instance eta_siginfo : Eta siginfo := fun i =>
  Siginfo (si_signo i) (si_errno i) (si_code i) (si_pid i) (si_uid i) (si_rest i).

(** [struct sigaction] inside [struct k_sigaction] *)
Record k_sigaction := KSigaction {
  sa_handler : Z;
  sa_flags : Z;
  sa_restorer : Z;
  sa_mask : sigset
}.
#[export] Instance eta_k_sigaction : Eta k_sigaction := fun a =>
  KSigaction (sa_handler a) (sa_flags a) (sa_restorer a) (sa_mask a).

Record signal_struct := SignalStruct { sg_count : Z; sg_action : Z -> k_sigaction }.
#[export] Instance eta_signal_struct : Eta signal_struct := fun h => SignalStruct (sg_count h) (sg_action h).

Record sigpending := Sigpending { sp_queue : list siginfo; sp_signal : sigset }.
#[export] Instance eta_sigpending : Eta sigpending := fun p => Sigpending (sp_queue p) (sp_signal p).

Record gtask := GTask {
  g_pid : Z;
  g_tgid : Z;
  g_pgrp : Z;
  g_session : Z;
  g_leader : Z;
  g_suid : Z;
  g_ptrace : Z;
  g_exit_code : Z;
  g_utime : Z;
  g_stime : Z;
  g_pptr : tid;
  g_next_thread : tid;
  g_wait_chldexit : list wait_queue;
  g_sig : option Z;
  g_blocked : sigset;
  g_pending : sigpending;
  g_notifier : option Z;
  g_notifier_mask : sigset;
  g_sas_ss_sp : Z;
  g_sas_ss_size : Z
}.
#[export] Instance eta_gtask : Eta gtask := fun p =>
  GTask (g_pid p) (g_tgid p) (g_pgrp p) (g_session p) (g_leader p) (g_suid p) (g_ptrace p)
    (g_exit_code p) (g_utime p) (g_stime p) (g_pptr p) (g_next_thread p) (g_wait_chldexit p)
    (g_sig p) (g_blocked p) (g_pending p) (g_notifier p) (g_notifier_mask p) (g_sas_ss_sp p)
    (g_sas_ss_size p).

Record sigs := Sigs {
  sched_of : sched;
  gtab : tid -> gtask;
  glist : list tid;
  handlers : Z -> signal_struct;
  nr_queued_signals : Z;
  max_queued_signals : Z
}.
#[export] Instance eta_sigs : Eta sigs := fun s =>
  Sigs (sched_of s) (gtab s) (glist s) (handlers s) (nr_queued_signals s) (max_queued_signals s).

(** ** Access *)

Definition current (s : sigs) : tid := curr (rq (sched_of s)).
Definition stask (s : sigs) (t : tid) : task := tasks (sched_of s) t.
Definition set_gtask (t : tid) (f : gtask -> gtask) (s : sigs) : sigs := s <| gtab ::= alter f t |>.
Definition on_sched (f : sched -> sched) (s : sigs) : sigs := s <| sched_of ::= f |>.
Definition set_stask (t : tid) (f : task -> task) (s : sigs) : sigs := on_sched (set_task t f) s.
Definition set_blocked (t : tid) (m : sigset) (s : sigs) : sigs :=
  set_gtask t (fun p => p <| g_blocked := m |>) s.
Definition set_pending (t : tid) (f : sigpending -> sigpending) (s : sigs) : sigs :=
  set_gtask t (fun p => p <| g_pending ::= f |>) s.
Definition blocked (s : sigs) (t : tid) : sigset := g_blocked (gtab s t).
Definition queue_of (s : sigs) (t : tid) : list siginfo := sp_queue (g_pending (gtab s t)).
Definition pending (s : sigs) (t : tid) : sigset := sp_signal (g_pending (gtab s t)).
Definition struct_of (s : sigs) (t : tid) : option signal_struct := handlers s <$> g_sig (gtab s t).
Definition set_action (h : Z) (sig : Z) (f : k_sigaction -> k_sigaction) (s : sigs) : sigs :=
  s <| handlers ::= alter (fun x => x <| sg_action ::= alter f sig |>) h |>.

Definition recalc_sigpending (t : tid) (s : sigs) : sigs :=
  set_stask t (fun p => p <| t_sigpending :=
    if has_pending_signals (pending s t) (blocked s t) then 1 else 0 |>) s.

(** ** Flushing *)

Definition flush_sigqueue (t : tid) (s : sigs) : sigs :=
  let n := Z.of_nat (length (queue_of s t)) in
  set_pending t (fun _ => Sigpending [] sigemptyset) (s <| nr_queued_signals ::= fun k => k - n |>).

Definition flush_signals (t : tid) (s : sigs) : sigs :=
  flush_sigqueue t (set_stask t (fun p => p <| t_sigpending := 0 |>) s).

(** The structure is freed when the count reaches 0; no task points to it then. *)
Definition exit_sighand (t : tid) (s : sigs) : sigs :=
  let s1 := match g_sig (gtab s t) with
            | Some h => set_gtask t (fun p => p <| g_sig := None |>)
                          (s <| handlers ::= alter (fun x => x <| sg_count ::= Z.pred |>) h |>)
            | None => s
            end in
  flush_sigqueue t (set_stask t (fun p => p <| t_sigpending := 0 |>) s1).

(** The loop of [flush_signal_handlers] over the [_NSIG] actions. *)
Definition flush_action (a : k_sigaction) : k_sigaction :=
  KSigaction (if sa_handler a =? SIG_IGN then SIG_IGN else SIG_DFL) 0 (sa_restorer a) sigemptyset.
Definition flush_signal_handlers (t : tid) (s : sigs) : sigs :=
  match g_sig (gtab s t) with
  | Some h => fold_left (fun s sig => set_action h sig flush_action s) (seqZ 1 _NSIG) s
  | None => s
  end.

Definition block_all_signals (notifier : Z) (mask : sigset) (s : sigs) : sigs :=
  set_gtask (current s) (fun p => p <| g_notifier_mask := mask |> <| g_notifier := Some notifier |>) s.
Definition unblock_all_signals (s : sigs) : sigs :=
  recalc_sigpending (current s) (set_gtask (current s) (fun p => p <| g_notifier := None |>) s).

(** ** Taking a signal from a queue *)

(** The first entry for [sig] and the queue without it. *)
Fixpoint take_first (sig : Z) (q : list siginfo) : option (siginfo * list siginfo) :=
  match q with
  | [] => None
  | i :: q' =>
      if si_signo i =? sig then Some (i, q')
      else match take_first sig q' with Some (x, r) => Some (x, i :: r) | None => None end
  end.

(** [copy_siginfo]: without a negative [si_code] only the first five words of the union
    are copied. *)
Definition copy_siginfo (to from : siginfo) : siginfo :=
  if si_code from <? 0 then from
  else from <| si_rest := take 3 (si_rest from) ++ drop 3 (si_rest to) |>.

(** The first search stops at the entry; the second, for real-time signals, goes on from
    where it was. *)
Fixpoint rest_after (sig : Z) (q : list siginfo) : list siginfo :=
  match q with
  | [] => []
  | i :: q' => if si_signo i =? sig then q' else rest_after sig q'
  end.

Definition collect_signal (sig : Z) (t : tid) (info : siginfo) (s : sigs) : sigs * siginfo * bool :=
  if sigismember (pending s t) sig then
    match take_first sig (queue_of s t) with
    | None =>
        (set_pending t (fun p => p <| sp_signal ::= fun m => sigdelset m sig |>) s,
         info <| si_signo := sig |> <| si_errno := 0 |> <| si_code := 0 |> <| si_pid := 0 |> <| si_uid := 0 |>,
         true)
    | Some (i, q) =>
        let another := (SIGRTMIN <=? sig) &&
                       existsb (fun j => si_signo j =? sig) (rest_after sig (queue_of s t)) in
        (set_pending t (fun p => Sigpending q (if another then sp_signal p else sigdelset (sp_signal p) sig))
           (s <| nr_queued_signals ::= Z.pred |>),
         copy_siginfo info i, true)
    end
  else (s, info, false).

Section notifier.
(** The result of [(current->notifier)(current->notifier_data)]. *)
Context (notify : Z -> bool).

Definition dequeue_signal (mask : sigset) (info : siginfo) (s : sigs) : sigs * siginfo * Z :=
  let c := current s in
  let sig := next_signal (pending s c) mask in
  if negb (sig =? 0) then
    let refused := match g_notifier (gtab s c) with
                   | Some f => sigismember (g_notifier_mask (gtab s c)) sig && negb (notify f)
                   | None => false
                   end in
    if refused then (set_stask c (fun p => p <| t_sigpending := 0 |>) s, info, 0)
    else
      let '(s1, info, found) := collect_signal sig c info s in
      (recalc_sigpending c s1, info, if found : bool then sig else 0)
  else (recalc_sigpending c s, info, sig).
End notifier.

Definition rm_from_queue (sig : Z) (t : tid) (s : sigs) : sigs * bool :=
  if negb (sigismember (pending s t) sig) then (s, false)
  else
    let q := filter (fun i => si_signo i <> sig) (queue_of s t) in
    let n := Z.of_nat (length (queue_of s t)) - Z.of_nat (length q) in
    (set_pending t (fun p => Sigpending q (sigdelset (sp_signal p) sig))
       (s <| nr_queued_signals ::= fun k => k - n |>), true).
Definition rm_sig_from_queue (sig : Z) (t : tid) (s : sigs) : sigs := fst (rm_from_queue sig t s).

(** ** Sending *)

(** The argument [info]: NULL, the pointer 1, or a structure. *)
Inductive info_arg := InfoNull | InfoPriv | Info (i : siginfo).

Definition from_user (info : info_arg) : bool :=
  match info with InfoNull => true | InfoPriv => false | Info i => si_code i <=? 0 end.

Definition bad_signal (sig : Z) (info : info_arg) (t : tid) (s : sigs) : sigs * bool :=
  let c := current s in
  let '(sc, bad) := lacks
    (from_user info &&
     (negb (sig =? SIGCONT) || negb (g_session (gtab s c) =? g_session (gtab s t))) &&
     negb (t_euid (stask s c) =? g_suid (gtab s t)) && negb (t_euid (stask s c) =? t_uid (stask s t)) &&
     negb (t_uid (stask s c) =? g_suid (gtab s t)) && negb (t_uid (stask s c) =? t_uid (stask s t)))
    CAP_KILL (sched_of s) in
  (s <| sched_of := sc |>, bad).

Definition signal_type (sig : Z) (signals : option signal_struct) : Z :=
  match signals with
  | None => 0
  | Some h =>
      let handler := sa_handler (sg_action h sig) in
      if 1 <? handler then 1
      else if handler =? 1 then (if sig =? SIGCHLD then 1 else 0)
      else if (sig =? SIGCONT) || (sig =? SIGWINCH) || (sig =? SIGCHLD) || (sig =? SIGURG) then 0
      else if (sig =? SIGTSTP) || (sig =? SIGTTIN) || (sig =? SIGTTOU) then 1
      else -1
  end.

Definition ignored_signal (sig : Z) (t : tid) (s : sigs) : bool :=
  if negb (Z.land (g_ptrace (gtab s t)) PT_PTRACED =? 0) || sigismember (blocked s t) sig then false
  else signal_type sig (struct_of s t) =? 0.

Definition wake (t : tid) (s : sigs) : sigs := on_sched (fun sc => fst (wake_up_process t sc)) s.

Definition handle_stop_signal (sig : Z) (t : tid) (s : sigs) : sigs :=
  if (sig =? SIGKILL) || (sig =? SIGCONT) then
    let s1 := if t_state (stask s t) =? TASK_STOPPED then wake t s else s in
    let s2 := set_gtask t (fun p => p <| g_exit_code := 0 |>) s1 in
    rm_sig_from_queue SIGTTIN t (rm_sig_from_queue SIGTTOU t
      (rm_sig_from_queue SIGTSTP t (rm_sig_from_queue SIGSTOP t s2)))
  else if (sig =? SIGSTOP) || (sig =? SIGTSTP) || (sig =? SIGTTIN) || (sig =? SIGTTOU) then
    rm_sig_from_queue SIGCONT t s
  else s.

Definition signal_wake_up (t : tid) (s : sigs) : sigs :=
  let s1 := set_stask t (fun p => p <| t_sigpending := 1 |>) s in
  if negb (Z.land (t_state (stask s1 t)) TASK_INTERRUPTIBLE =? 0) then wake t s1 else s1.

Section send.
(** [kmem_cache_alloc(sigqueue_cachep, GFP_ATOMIC)]: the old content of the entry, or
    [None]. *)
Context (sigqueue_alloc : sigs -> option siginfo).

Definition send_signal (sig : Z) (info : info_arg) (t : tid) (s : sigs) : sigs * Z :=
  let q := if nr_queued_signals s <? max_queued_signals s then sigqueue_alloc s else None in
  let add := set_pending t (fun p => p <| sp_signal ::= fun m => sigaddset m sig |>) in
  match q with
  | Some old =>
      let c := current s in
      let i := match info with
               | InfoNull => old <| si_signo := sig |> <| si_errno := 0 |> <| si_code := SI_USER |>
                                 <| si_pid := g_pid (gtab s c) |> <| si_uid := t_uid (stask s c) |>
               | InfoPriv => old <| si_signo := sig |> <| si_errno := 0 |> <| si_code := SI_KERNEL |>
                                 <| si_pid := 0 |> <| si_uid := 0 |>
               | Info i => copy_siginfo old i
               end in
      (set_pending t (fun p => Sigpending (sp_queue p ++ [i]) (sigaddset (sp_signal p) sig))
         (s <| nr_queued_signals ::= Z.succ |>), 0)
  | None =>
      match info with
      | Info i => if (SIGRTMIN <=? sig) && negb (si_code i =? SI_USER) then (s, - EAGAIN) else (add s, 0)
      | _ => (add s, 0)
      end
  end.

Definition deliver_signal (sig : Z) (info : info_arg) (t : tid) (s : sigs) : sigs * Z :=
  let '(s1, retval) := send_signal sig info t s in
  (if (retval =? 0) && negb (sigismember (blocked s1 t) sig) then signal_wake_up t s1 else s1, retval).

Definition send_sig_info (sig : Z) (info : info_arg) (t : tid) (s : sigs) : sigs * Z :=
  if (sig <? 0) || (_NSIG <? sig) then (s, - EINVAL)
  else
    let '(s1, bad) := bad_signal sig info t s in
    if bad then (s1, - EPERM)
    else if (sig =? 0) || bool_decide (g_sig (gtab s1 t) = None) then (s1, 0)
    else
      let s2 := handle_stop_signal sig t s1 in
      if ignored_signal sig t s2 then (s2, 0)
      else if (sig <? SIGRTMIN) && sigismember (pending s2 t) sig then (s2, 0)
      else deliver_signal sig info t s2.

Definition force_sig_info (sig : Z) (info : info_arg) (t : tid) (s : sigs) : sigs * Z :=
  match g_sig (gtab s t) with
  | None => (s, - ESRCH)
  | Some h =>
      let s1 := if sa_handler (sg_action (handlers s h) sig) =? SIG_IGN
                then set_action h sig (fun a => a <| sa_handler := SIG_DFL |>) s else s in
      let s2 := set_blocked t (sigdelset (blocked s1 t) sig) s1 in
      send_sig_info sig info t (recalc_sigpending t s2)
  end.

(** The loops over [for_each_task] of [kill_pg_info] and [kill_sl_info]: the result is 0
    as soon as one task could be sent the signal, else the last error. *)
Definition send_each (sel : gtask -> bool) (sig : Z) (info : info_arg) (s : sigs) : sigs * Z :=
  fold_left (fun '(s, retval) t =>
    if sel (gtab s t) then
      let '(s1, err) := send_sig_info sig info t s in
      (s1, if negb (retval =? 0) then err else retval)
    else (s, retval)) (glist s) (s, - ESRCH).

Definition thread_group_leader (p : gtask) : bool := g_pid p =? g_tgid p.

Definition kill_pg_info (sig : Z) (info : info_arg) (pgrp : Z) (s : sigs) : sigs * Z :=
  if 0 <? pgrp then send_each (fun p => (g_pgrp p =? pgrp) && thread_group_leader p) sig info s
  else (s, - EINVAL).

Definition kill_sl_info (sig : Z) (info : info_arg) (sess : Z) (s : sigs) : sigs * Z :=
  if 0 <? sess then send_each (fun p => negb (g_leader p =? 0) && (g_session p =? sess)) sig info s
  else (s, - EINVAL).

(** [find] is [find_task_by_pid]. *)
Definition kill_proc_info (find : Z -> option tid) (sig : Z) (info : info_arg) (pid : Z) (s : sigs) : sigs * Z :=
  match find pid with
  | None => (s, - ESRCH)
  | Some t =>
      let t := if negb (thread_group_leader (gtab s t)) then default t (find (g_tgid (gtab s t))) else t in
      send_sig_info sig info t s
  end.

Definition kill_all (sig : Z) (info : info_arg) (s : sigs) : sigs * Z :=
  let '(s1, retval, count) :=
    fold_left (fun '(s, retval, count) t =>
      if (1 <? g_pid (gtab s t)) && negb (t =? current s) && thread_group_leader (gtab s t) then
        let '(s1, err) := send_sig_info sig info t s in
        (s1, if negb (err =? - EPERM) then err else retval, count + 1)
      else (s, retval, count)) (glist s) (s, 0, 0) in
  (s1, if negb (count =? 0) then retval else - ESRCH).

Definition kill_something_info (find : Z -> option tid) (sig : Z) (info : info_arg) (pid : Z) (s : sigs)
  : sigs * Z :=
  if pid =? 0 then kill_pg_info sig info (g_pgrp (gtab s (current s))) s
  else if pid =? -1 then kill_all sig info s
  else if pid <? 0 then kill_pg_info sig info (- pid) s
  else kill_proc_info find sig info pid s.

Definition priv_info (priv : Z) : info_arg := if negb (priv =? 0) then InfoPriv else InfoNull.
Definition send_sig (sig : Z) (t : tid) (priv : Z) (s : sigs) : sigs * Z :=
  send_sig_info sig (priv_info priv) t s.
Definition force_sig (sig : Z) (t : tid) (s : sigs) : sigs := fst (force_sig_info sig InfoPriv t s).
Definition kill_pg (pgrp sig priv : Z) (s : sigs) : sigs * Z := kill_pg_info sig (priv_info priv) pgrp s.
Definition kill_sl (sess sig priv : Z) (s : sigs) : sigs * Z := kill_sl_info sig (priv_info priv) sess s.
Definition kill_proc (find : Z -> option tid) (pid sig priv : Z) (s : sigs) : sigs * Z :=
  kill_proc_info find sig (priv_info priv) pid s.

(** The loop of [wake_up_parent] from [t] on; [None] when [n] threads were not enough. *)
Fixpoint wake_up_threads (n : nat) (parent t : tid) (s : sigs) : option sigs :=
  match n with
  | O => None
  | S n' =>
      let s1 := on_sched (__wake_up (Some (g_wait_chldexit (gtab s t))) TASK_INTERRUPTIBLE 1) s in
      let t' := g_next_thread (gtab s1 t) in
      if t' =? parent then Some s1 else wake_up_threads n' parent t' s1
  end.
Definition wake_up_parent (n : nat) (parent : tid) (s : sigs) : option sigs := wake_up_threads n parent parent s.

(** [do_notify_parent]; [hz_to_std] converts ticks to the clock user space sees. *)
Definition child_info (hz_to_std : Z -> Z) (sig : Z) (p : gtask) (q : task) : siginfo :=
  let '(why, status) :=
    if t_state q =? TASK_STOPPED then
      (if negb (Z.land (g_ptrace p) PT_PTRACED =? 0) then CLD_TRAPPED else CLD_STOPPED,
       Z.land (g_exit_code p) 127)
    else if negb (Z.land (g_exit_code p) 128 =? 0) then (CLD_DUMPED, Z.land (g_exit_code p) 127)
    else if negb (Z.land (g_exit_code p) 127 =? 0) then (CLD_KILLED, Z.land (g_exit_code p) 127)
    else (CLD_EXITED, Z.shiftr (g_exit_code p) 8) in
  Siginfo sig 0 why (g_pid p) (t_uid q) [status; hz_to_std (g_utime p); hz_to_std (g_stime p)].

Definition do_notify_parent (hz_to_std : Z -> Z) (n : nat) (t : tid) (sig : Z) (s : sigs) : option sigs :=
  let parent := g_pptr (gtab s t) in
  let s1 := fst (send_sig_info sig (Info (child_info hz_to_std sig (gtab s t) (stask s t))) parent s) in
  wake_up_parent n parent s1.

(** [for_each_thread] in [sig_exit]; [None] when [n] threads were not enough. *)
Fixpoint force_threads (n : nat) (sig : Z) (info : info_arg) (t : tid) (s : sigs) : option sigs :=
  if t =? current s then Some s
  else match n with
  | O => None
  | S n' =>
      let s1 := fst (force_sig_info sig info t s) in
      force_threads n' sig info (g_next_thread (gtab s1 t)) s1
  end.

(** [sig_exit] up to the call of [do_exit]. *)
Definition sig_exit (n : nat) (sig : Z) (info : info_arg) (s : sigs) : option sigs :=
  let c := current s in
  let s1 := recalc_sigpending c (set_pending c (fun p => p <| sp_signal ::= fun m => sigaddset m sig |>) s) in
  let s2 := set_stask c (fun p => p <| t_flags ::= fun f => Z.lor f PF_SIGNALED |>) s1 in
  match info with
  | Info i => if negb (si_code i =? SI_TKILL) then force_threads n sig info (g_next_thread (gtab s2 c)) s2
              else Some s2
  | _ => Some s2
  end.
End send.
