(* ===== verification/SigCalls.v ===== *)
(** * The signal system calls (kernel/signal.c, arch/i386/kernel/signal.c)

    A user pointer to read from is [None] for NULL, [Some None] for a fault and
    [Some (Some v)] for the value read; one to write to is [None] for NULL and
    [Some true] for a fault.  Calls that write return what they wrote.  A call that
    follows a null [current->sig] returns [None]. *)
From stdpp Require Import base list functions.
From S2P Require Import Prelude PidHash Bitmap Sched SchedCalls Sigset Signal.

Definition SIG_BLOCK : Z := 0.
Definition SIG_UNBLOCK : Z := 1.
Definition SIG_SETMASK : Z := 2.
Definition SA_ONESHOT : Z := 2147483648.
Definition SA_NOMASK : Z := 1073741824.
Definition SS_ONSTACK : Z := 1.
Definition SS_DISABLE : Z := 2.
Definition MINSIGSTKSZ : Z := 2048.
Definition SIZEOF_SIGSET : Z := 8.
Definition MAX_JIFFY_OFFSET : Z := 2 ^ 31 - 2.
Definition MAX_SCHEDULE_TIMEOUT : Z := 2 ^ 31 - 1.

Definition user_in (A : Type) : Type := option (option A).
Definition user_out : Type := option bool.

(** The end of a call that stores [old] through [oset]. *)
Definition put_old {A} (s : sigs) (oset : user_out) (old : A) : sigs * Z * option A :=
  match oset with
  | None => (s, 0, None)
  | Some true => (s, - EFAULT, None)
  | Some false => (s, 0, Some old)
  end.

(** ** Masks *)

Definition sys_rt_sigprocmask (how : Z) (set : user_in sigset) (oset : user_out) (sigsetsize : Z) (s : sigs)
  : sigs * Z * option sigset :=
  let c := current s in
  if negb (sigsetsize =? SIZEOF_SIGSET) then (s, - EINVAL, None)
  else match set with
  | Some None => (s, - EFAULT, None)
  | Some (Some new_set) =>
      let new_set := sigdelsetmask new_set UNBLOCKABLE in
      let old_set := blocked s c in
      let '(new_set, error) :=
        if how =? SIG_BLOCK then (sigorsets old_set new_set, 0)
        else if how =? SIG_UNBLOCK then (signandsets old_set new_set, 0)
        else if how =? SIG_SETMASK then (new_set, 0)
        else (new_set, - EINVAL) in
      let s1 := recalc_sigpending c (set_blocked c new_set s) in
      if negb (error =? 0) then (s1, error, None) else put_old s1 oset old_set
  | None => put_old s oset (blocked s c)
  end.

Definition sys_sigprocmask (how : Z) (set : user_in Z) (oset : user_out) (s : sigs) : sigs * Z * option Z :=
  let c := current s in
  match set with
  | Some None => (s, - EFAULT, None)
  | Some (Some new_set) =>
      let new_set := andn new_set UNBLOCKABLE in
      let old_set := sig0 (blocked s c) in
      let '(b, error) :=
        if how =? SIG_BLOCK then (sigaddsetmask (blocked s c) new_set, 0)
        else if how =? SIG_UNBLOCK then (sigdelsetmask (blocked s c) new_set, 0)
        else if how =? SIG_SETMASK then ((blocked s c) <| sig0 := new_set |>, 0)
        else (blocked s c, - EINVAL) in
      let s1 := recalc_sigpending c (set_blocked c b s) in
      if negb (error =? 0) then (s1, error, None) else put_old s1 oset old_set
  | None => put_old s oset (sig0 (blocked s c))
  end.

Definition sys_sgetmask (s : sigs) : Z := sig0 (blocked s (current s)).

Definition sys_ssetmask (newmask : Z) (s : sigs) : sigs * Z :=
  let c := current s in
  (recalc_sigpending c (set_blocked c (siginitset (andn (u32 newmask) UNBLOCKABLE)) s),
   s32 (sig0 (blocked s c))).

(** The first [sigsetsize] bytes of the set of blocked pending signals. *)
Definition do_sigpending (fault : bool) (sigsetsize : Z) (s : sigs) : Z * option Z :=
  if SIZEOF_SIGSET <? sigsetsize then (- EINVAL, None)
  else
    let m := sigandsets (blocked s (current s)) (pending s (current s)) in
    if fault then (- EFAULT, None) else (0, Some ((sig0 m + 2 ^ 32 * sig1 m) mod 2 ^ (8 * sigsetsize))).
Definition sys_rt_sigpending (fault : bool) (sigsetsize : Z) (s : sigs) : Z * option Z :=
  do_sigpending fault sigsetsize s.
Definition sys_sigpending (fault : bool) (s : sigs) : Z * option Z := do_sigpending fault 4 s.

(** [sys_sigsuspend] and [sys_rt_sigsuspend] up to their loops: the mask to restore. *)
Definition sys_sigsuspend_mask (mask : Z) (s : sigs) : sigs * sigset :=
  let c := current s in
  (recalc_sigpending c (set_blocked c (siginitset (andn mask UNBLOCKABLE)) s), blocked s c).
Definition sys_rt_sigsuspend_mask (newset : option sigset) (sigsetsize : Z) (s : sigs) : sigs * (Z + sigset) :=
  let c := current s in
  if negb (sigsetsize =? SIZEOF_SIGSET) then (s, inl (- EINVAL))
  else match newset with
  | None => (s, inl (- EFAULT))
  | Some m => (recalc_sigpending c (set_blocked c (sigdelsetmask m UNBLOCKABLE) s), inr (blocked s c))
  end.

(** ** Actions *)

Definition discards (handler sig : Z) : bool :=
  (handler =? SIG_IGN) ||
  ((handler =? SIG_DFL) &&
   ((sig =? SIGCONT) || (sig =? SIGCHLD) || (sig =? SIGURG) || (sig =? SIGWINCH))).

(** The value stored through [oact] is the third component. *)
Definition do_sigaction (sig : Z) (act : option k_sigaction) (s : sigs) : option (sigs * Z * k_sigaction) :=
  let dflt := KSigaction 0 0 0 sigemptyset in
  if (sig <? 1) || (_NSIG <? sig) ||
     (bool_decide (act <> None) && ((sig =? SIGKILL) || (sig =? SIGSTOP)))
  then Some (s, - EINVAL, dflt)
  else
    h ← g_sig (gtab s (current s));
    let old := sg_action (handlers s h) sig in
    match act with
    | None => Some (s, 0, old)
    | Some a =>
        let s1 := set_action h sig (fun _ => a <| sa_mask ::= fun m => sigdelsetmask m UNBLOCKABLE |>) s in
        if discards (sa_handler a) sig then
          let '(s2, found) := rm_from_queue sig (current s1) s1 in
          Some (if found : bool then recalc_sigpending (current s2) s2 else s2, 0, old)
        else Some (s1, 0, old)
    end.

(** [sys_rt_sigaction]: the old action is stored when the call succeeds. *)
Definition sys_rt_sigaction (sig : Z) (act : user_in k_sigaction) (oact : user_out) (sigsetsize : Z) (s : sigs)
  : option (sigs * Z * option k_sigaction) :=
  if negb (sigsetsize =? SIZEOF_SIGSET) then Some (s, - EINVAL, None)
  else match act with
  | Some None => Some (s, - EFAULT, None)
  | _ =>
      r ← do_sigaction sig (mjoin act) s;
      let '(s1, ret, old) := r in
      if ret =? 0 then Some (put_old s1 oact old) else Some (s1, ret, None)
  end.

(** [sys_sigaction]: [act] is the handler, flags, restorer and low mask; the old call
    stores the low word of the mask only. *)
Definition sys_sigaction (sig : Z) (act : user_in (Z * Z * Z * Z)) (oact : user_out) (s : sigs)
  : option (sigs * Z * option (Z * Z * Z * Z)) :=
  match act with
  | Some None => Some (s, - EFAULT, None)
  | _ =>
      let new := (fun '(handler, flags, restorer, mask) => KSigaction handler flags restorer (siginitset mask))
                 <$> mjoin act in
      r ← do_sigaction sig new s;
      let '(s1, ret, old) := r in
      if ret =? 0
      then Some (put_old s1 oact (sa_handler old, sa_flags old, sa_restorer old, sig0 (sa_mask old)))
      else Some (s1, ret, None)
  end.

(** [sys_signal]; the restorer and the mask of [new_sa] are what the stack held. *)
Definition sys_signal (sig handler : Z) (junk_restorer : Z) (junk_mask : sigset) (s : sigs) : option (sigs * Z) :=
  r ← do_sigaction sig (Some (KSigaction handler (Z.lor SA_ONESHOT SA_NOMASK) junk_restorer junk_mask)) s;
  let '(s1, ret, old) := r in
  Some (s1, if negb (ret =? 0) then ret else sa_handler old).

(** ** The alternate stack *)

Definition on_sig_stack (sp : Z) (p : gtask) : bool := u32 (sp - g_sas_ss_sp p) <? g_sas_ss_size p.
Definition sas_ss_flags (sp : Z) (p : gtask) : Z :=
  if g_sas_ss_size p =? 0 then SS_DISABLE else if on_sig_stack sp p then SS_ONSTACK else 0.

(** A stack is its address, flags and size. *)
Definition do_sigaltstack (uss : user_in (Z * Z * Z)) (uoss : user_out) (sp : Z) (s : sigs)
  : sigs * Z * option (Z * Z * Z) :=
  let c := current s in
  let p := gtab s c in
  let oss := (g_sas_ss_sp p, sas_ss_flags sp p, g_sas_ss_size p) in
  match uss with
  | Some None => (s, - EFAULT, None)
  | Some (Some (ss_sp, ss_flags, ss_size)) =>
      if on_sig_stack sp p then (s, - EPERM, None)
      else if negb (ss_flags =? SS_DISABLE) && negb (ss_flags =? SS_ONSTACK) && negb (ss_flags =? 0)
      then (s, - EINVAL, None)
      else if negb (ss_flags =? SS_DISABLE) && (ss_size <? MINSIGSTKSZ) then (s, - ENOMEM, None)
      else
        let '(ss_size, ss_sp) := if ss_flags =? SS_DISABLE then (0, 0) else (ss_size, ss_sp) in
        put_old (set_gtask c (fun p => p <| g_sas_ss_sp := ss_sp |> <| g_sas_ss_size := ss_size |>) s) uoss oss
  | None => put_old s uoss oss
  end.

(** ** Sending *)

Section calls.
Context (sigqueue_alloc : sigs -> option siginfo).
(** What the kernel stack held in the words of a [siginfo] no assignment sets. *)
Context (junk : list Z).

Definition user_info (sig code : Z) (s : sigs) : siginfo :=
  Siginfo sig 0 code (g_pid (gtab s (current s))) (t_uid (stask s (current s))) junk.

Definition sys_kill (find : Z -> option tid) (pid sig : Z) (s : sigs) : sigs * Z :=
  kill_something_info sigqueue_alloc find sig (Info (user_info sig SI_USER s)) pid s.

Definition sys_tkill (find : Z -> option tid) (pid sig : Z) (s : sigs) : sigs * Z :=
  if pid <=? 0 then (s, - EINVAL)
  else match find pid with
  | None => (s, - ESRCH)
  | Some t => send_sig_info sigqueue_alloc sig (Info (user_info sig SI_TKILL s)) t s
  end.

Definition sys_rt_sigqueueinfo (find : Z -> option tid) (pid sig : Z) (uinfo : option siginfo) (s : sigs)
  : sigs * Z :=
  match uinfo with
  | None => (s, - EFAULT)
  | Some info =>
      if 0 <=? si_code info then (s, - EPERM)
      else kill_proc_info sigqueue_alloc find sig (Info (info <| si_signo := sig |>)) pid s
  end.

(** ** Waiting for a signal *)

Definition timespec_to_jiffies (sec nsec : Z) : Z :=
  if MAX_JIFFY_OFFSET / HZ <=? u32 sec then MAX_JIFFY_OFFSET
  else u32 (HZ * u32 sec + (nsec + 1000000000 ÷ HZ - 1) ÷ (1000000000 ÷ HZ)).

Context (notify : Z -> bool).
(** [schedule_timeout]: what happens until the task runs again, and the jiffies left. *)
Context (schedule_timeout : Z -> sigs -> sigs * Z).

(** From the first [dequeue_signal] on; [these] is the complement of the signals waited
    for. *)
Definition sigwait (these : sigset) (ts : option (Z * Z)) (info : siginfo) (s : sigs) : sigs * Z * Z * siginfo :=
  let c := current s in
  let '(s1, info, sig) := dequeue_signal notify these info s in
  if sig =? 0 then
    let timeout := match ts with
                   | None => MAX_SCHEDULE_TIMEOUT
                   | Some (sec, nsec) =>
                       s32 (timespec_to_jiffies sec nsec +
                            if negb (sec =? 0) || negb (nsec =? 0) then 1 else 0)
                   end in
    if negb (timeout =? 0) then
      let oldblocked := blocked s1 c in
      let s2 := recalc_sigpending c (set_blocked c (sigandsets oldblocked these) s1) in
      let s3 := set_stask c (fun p => p <| t_state := TASK_INTERRUPTIBLE |>) s2 in
      let '(s4, timeout) := schedule_timeout timeout s3 in
      let '(s5, info, sig) := dequeue_signal notify these info s4 in
      (recalc_sigpending c (set_blocked c oldblocked s5), timeout, sig, info)
    else (s1, timeout, sig, info)
  else (s1, 0, sig, info).

Definition sys_rt_sigtimedwait (uthese : option sigset) (uinfo : user_out) (uts : user_in (Z * Z))
  (sigsetsize : Z) (info : siginfo) (s : sigs) : sigs * Z * option siginfo :=
  if negb (sigsetsize =? SIZEOF_SIGSET) then (s, - EINVAL, None)
  else match uthese with
  | None => (s, - EFAULT, None)
  | Some these =>
      let these := signotset (sigdelsetmask these UNBLOCKABLE) in
      match uts with
      | Some None => (s, - EFAULT, None)
      | _ =>
          let bad := match mjoin uts with
                     | Some (sec, nsec) => (1000000000 <=? nsec) || (nsec <? 0) || (sec <? 0)
                     | None => false
                     end in
          if bad then (s, - EINVAL, None)
          else
            let '(s1, timeout, sig, info) := sigwait these (mjoin uts) info s in
            if negb (sig =? 0) then
              match uinfo with
              | None => (s1, sig, None)
              | Some true => (s1, - EFAULT, None)
              | Some false => (s1, sig, Some info)
              end
            else (s1, if negb (timeout =? 0) then - EINTR else - EAGAIN, None)
      end
  end.
End calls.
