(* ===== verification/SigFrame.v ===== *)
(** * Delivery of signals to user space (arch/i386/kernel/signal.c)

    [pt_regs] are the saved user registers, with [r_fs] and [r_gs], which live in the
    processor.  A frame is what [setup_frame] writes on the user stack and
    [sys_sigreturn] reads back.  Whether the user accesses succeed is an argument, as
    is the result of [save_i387]; the floating-point registers themselves are not
    modelled. *)
From stdpp Require Import base list functions.
From S2P Require Import Prelude PidHash Bitmap Sched SchedCalls Sigset Signal SigCalls.

Definition ERESTARTSYS : Z := 512.
Definition ERESTARTNOINTR : Z := 513.
Definition ERESTARTNOHAND : Z := 514.
Definition SA_NOCLDSTOP : Z := 1.
Definition SA_SIGINFO : Z := 4.
Definition SA_RESTORER : Z := 67108864.
Definition SA_ONSTACK : Z := 134217728.
Definition SA_RESTART : Z := 268435456.
Definition SA_NODEFER : Z := 1073741824.
Definition PF_FREEZE : Z := 65536.
Definition __USER_CS : Z := 35.
Definition __USER_DS : Z := 43.
Definition TF_MASK : Z := 256.
(** 0x40DD5: the flags a frame may set *)
Definition FLAGS_MASK : Z := 265685.

Definition flag_set (flags bit : Z) : bool := negb (Z.land flags bit =? 0).

Record pt_regs := PtRegs {
  r_ebx : Z; r_ecx : Z; r_edx : Z; r_esi : Z; r_edi : Z; r_ebp : Z; r_eax : Z;
  r_xds : Z; r_xes : Z; r_orig_eax : Z; r_eip : Z; r_xcs : Z; r_eflags : Z; r_esp : Z; r_xss : Z;
  r_fs : Z; r_gs : Z
}.
#[export] Instance eta_pt_regs : Eta pt_regs := fun r =>
  PtRegs (r_ebx r) (r_ecx r) (r_edx r) (r_esi r) (r_edi r) (r_ebp r) (r_eax r) (r_xds r) (r_xes r)
    (r_orig_eax r) (r_eip r) (r_xcs r) (r_eflags r) (r_esp r) (r_xss r) (r_fs r) (r_gs r).

(** The words of [struct sigcontext]; a selector is written as a word and read back as
    16 bits. *)
Record sigcontext := Sigcontext {
  sc_gs : Z; sc_fs : Z; sc_es : Z; sc_ds : Z; sc_edi : Z; sc_esi : Z; sc_ebp : Z; sc_esp : Z;
  sc_ebx : Z; sc_edx : Z; sc_ecx : Z; sc_eax : Z; sc_trapno : Z; sc_err : Z; sc_eip : Z; sc_cs : Z;
  sc_eflags : Z; sc_esp_at_signal : Z; sc_ss : Z; sc_fpstate : Z; sc_oldmask : Z; sc_cr2 : Z
}.

(** [struct sigframe] and [struct rt_sigframe]; the address the handler returns to. *)
Inductive frame :=
  | SigFrame (pretcode sig : Z) (sc : sigcontext) (extramask : Z)
  | RtSigFrame (pretcode sig : Z) (info : siginfo) (stack : Z * Z * Z) (sc : sigcontext) (mask : sigset).

(** The stack pointer at the system call of the trampoline, for a frame at [at_]: the handler returns
    through [pretcode]; the code of a [struct sigframe] also pops the number of the
    signal. *)
Definition trampoline_esp (f : frame) (at_ : Z) : Z :=
  match f with SigFrame _ _ _ _ => u32 (at_ + 8) | RtSigFrame _ _ _ _ _ _ => u32 (at_ + 4) end.

(** [current->thread]: trap number, error code and fault address; and the result of
    [save_i387] with the place in the frame for the floating-point state. *)
Record thread_state := ThreadState { m_trap_no : Z; m_error_code : Z; m_cr2 : Z; m_i387 : Z; m_fpstate : Z }.

Definition setup_sigcontext (m : thread_state) (regs : pt_regs) (mask : Z) : sigcontext :=
  Sigcontext (r_gs regs) (r_fs regs) (r_xes regs) (r_xds regs) (r_edi regs) (r_esi regs) (r_ebp regs)
    (r_esp regs) (r_ebx regs) (r_edx regs) (r_ecx regs) (r_eax regs) (m_trap_no m) (m_error_code m)
    (r_eip regs) (r_xcs regs) (r_eflags regs) (r_esp regs) (r_xss regs)
    (if negb (m_i387 m =? 0) then m_fpstate m else 0) mask (m_cr2 m).

Definition get_sigframe (ka : k_sigaction) (regs : pt_regs) (frame_size : Z) (p : gtask) : Z :=
  let esp := r_esp regs in
  let esp :=
    if flag_set (sa_flags ka) SA_ONSTACK then
      if sas_ss_flags esp p =? 0 then u32 (g_sas_ss_sp p + g_sas_ss_size p) else esp
    else if negb (Z.land (r_xss regs) 65535 =? __USER_DS) && negb (flag_set (sa_flags ka) SA_RESTORER) &&
            negb (sa_restorer ka =? 0)
    then sa_restorer ka else esp in
  Z.land (u32 (esp - frame_size)) (2 ^ 32 - 8).

(** The registers the handler starts with. *)
Definition handler_regs (at_ : Z) (ka : k_sigaction) (regs : pt_regs) : pt_regs :=
  regs <| r_esp := at_ |> <| r_eip := sa_handler ka |> <| r_xds := __USER_DS |> <| r_xes := __USER_DS |>
       <| r_xss := __USER_DS |> <| r_xcs := __USER_CS |> <| r_eflags ::= fun f => Z.ldiff f TF_MASK |>.

Section deliver.
Context (sigqueue_alloc : sigs -> option siginfo) (m : thread_state).
(** The sizes of the two frames, the offset of [retcode] in each, the number a signal
    has in the execution domain of the task. *)
Context (frame_size rt_frame_size retcode rt_retcode : Z) (invmap : Z -> Z).

(** [give_sigsegv]; [ka] is the action of [sig] in the handlers [h]. *)
Definition give_sigsegv (sig h : Z) (s : sigs) : sigs :=
  let s1 := if sig =? SIGSEGV then set_action h sig (fun a => a <| sa_handler := SIG_DFL |>) s else s in
  force_sig sigqueue_alloc SIGSEGV (current s) s1.

Definition setup_frame (ok : bool) (sig h : Z) (set : sigset) (regs : pt_regs) (s : sigs)
  : sigs * pt_regs * option frame :=
  let ka := sg_action (handlers s h) sig in
  let at_ := get_sigframe ka regs frame_size (gtab s (current s)) in
  if ok then
    let pretcode := if flag_set (sa_flags ka) SA_RESTORER then sa_restorer ka else u32 (at_ + retcode) in
    (s, handler_regs at_ ka regs,
     Some (SigFrame pretcode (invmap sig) (setup_sigcontext m regs (sig0 set)) (sig1 set)))
  else (give_sigsegv sig h s, regs, None).

Definition setup_rt_frame (ok : bool) (sig h : Z) (info : siginfo) (set : sigset) (regs : pt_regs) (s : sigs)
  : sigs * pt_regs * option frame :=
  let ka := sg_action (handlers s h) sig in
  let p := gtab s (current s) in
  let at_ := get_sigframe ka regs rt_frame_size p in
  if ok then
    let pretcode := if flag_set (sa_flags ka) SA_RESTORER then sa_restorer ka else u32 (at_ + rt_retcode) in
    (s, handler_regs at_ ka regs,
     Some (RtSigFrame pretcode (invmap sig) info
             (g_sas_ss_sp p, sas_ss_flags (r_esp regs) p, g_sas_ss_size p)
             (setup_sigcontext m regs (sig0 set)) set))
  else (give_sigsegv sig h s, regs, None).

(** The restart of an interrupted system call when a handler runs. *)
Definition restart_handler (ka : k_sigaction) (regs : pt_regs) : pt_regs :=
  let again := regs <| r_eax := r_orig_eax regs |> <| r_eip ::= fun x => u32 (x - 2) |> in
  if 0 <=? r_orig_eax regs then
    if r_eax regs =? - ERESTARTNOHAND then regs <| r_eax := - EINTR |>
    else if r_eax regs =? - ERESTARTSYS then
      if negb (flag_set (sa_flags ka) SA_RESTART) then regs <| r_eax := - EINTR |> else again
    else if r_eax regs =? - ERESTARTNOINTR then again
    else regs
  else regs.

Definition handle_signal (ok : bool) (sig h : Z) (info : siginfo) (oldset : sigset) (regs : pt_regs) (s : sigs)
  : sigs * pt_regs * option frame :=
  let c := current s in
  let regs := restart_handler (sg_action (handlers s h) sig) regs in
  let '(s1, regs, fr) :=
    if flag_set (sa_flags (sg_action (handlers s h) sig)) SA_SIGINFO
    then setup_rt_frame ok sig h info oldset regs s
    else setup_frame ok sig h oldset regs s in
  let s2 := if flag_set (sa_flags (sg_action (handlers s1 h) sig)) SA_ONESHOT
            then set_action h sig (fun a => a <| sa_handler := SIG_DFL |>) s1 else s1 in
  let ka := sg_action (handlers s2 h) sig in
  let s3 := if negb (flag_set (sa_flags ka) SA_NODEFER)
            then recalc_sigpending c
                   (set_blocked c (sigaddset (sigorsets (blocked s2 c) (sa_mask ka)) sig) s2)
            else s2 in
  (s3, regs, fr).

(** ** Return from a handler *)

(** [restore_sigcontext]: the registers and the value for [eax]. *)
Definition restore_sigcontext (sc : sigcontext) (regs : pt_regs) : pt_regs * Z :=
  let seg x := Z.land x 65535 in
  (regs <| r_gs := seg (sc_gs sc) |> <| r_fs := seg (sc_fs sc) |>
        <| r_xes := seg (sc_es sc) |> <| r_xds := seg (sc_ds sc) |>
        <| r_edi := sc_edi sc |> <| r_esi := sc_esi sc |> <| r_ebp := sc_ebp sc |> <| r_esp := sc_esp sc |>
        <| r_ebx := sc_ebx sc |> <| r_edx := sc_edx sc |> <| r_ecx := sc_ecx sc |> <| r_eip := sc_eip sc |>
        <| r_xcs := Z.lor (seg (sc_cs sc)) 3 |> <| r_xss := Z.lor (seg (sc_ss sc)) 3 |>
        <| r_eflags ::= fun f => Z.lor (Z.ldiff f FLAGS_MASK) (Z.land (sc_eflags sc) FLAGS_MASK) |>
        <| r_orig_eax := -1 |>,
   sc_eax sc).

(** The mask of a frame, then its context; [None] where the access faults.  Without
    registers the task got a SIGSEGV instead. *)
Definition sigreturn (set : option sigset) (sc : option sigcontext) (regs : pt_regs) (s : sigs)
  : sigs * option (pt_regs * Z) :=
  let c := current s in
  match set with
  | None => (force_sig sigqueue_alloc SIGSEGV c s, None)
  | Some set =>
      let s1 := recalc_sigpending c (set_blocked c (sigdelsetmask set UNBLOCKABLE) s) in
      match sc with
      | None => (force_sig sigqueue_alloc SIGSEGV c s1, None)
      | Some sc => (s1, Some (restore_sigcontext sc regs))
      end
  end.

(** [read] is the memory of the task, as a frame at an address: the mask and the context.  The frame
    is below the stack pointer, as the trampoline leaves it. *)
Definition sys_sigreturn (read : Z -> option (sigset * option sigcontext)) (regs : pt_regs) (s : sigs)
  : sigs * option (pt_regs * Z) :=
  let fr := read (u32 (r_esp regs - 8)) in
  sigreturn (fst <$> fr) (mjoin (snd <$> fr)) regs s.

(** [sys_rt_sigreturn] also restores the alternate stack, ignoring errors. *)
Definition sys_rt_sigreturn (read : Z -> option sigset * option sigcontext * option (Z * Z * Z))
  (regs : pt_regs) (s : sigs) : sigs * option (pt_regs * Z) :=
  let '(set, sc, st) := read (u32 (r_esp regs - 4)) in
  let '(s1, r) := sigreturn set sc regs s in
  match r with
  | None => (s1, None)
  | Some (regs', eax) =>
      match st with
      | None => (force_sig sigqueue_alloc SIGSEGV (current s1) s1, None)
      | Some st => (fst (fst (do_sigaltstack (Some (Some st)) None (r_esp regs') s1)), Some (regs', eax))
      end
  end.

(** ** do_signal *)

Context (notify : Z -> bool) (hz_to_std : Z -> Z) (is_orphaned_pgrp : Z -> bool) (do_coredump : Z -> bool).
(** [schedule()] and the while loop that reaps children, with what other tasks do
    meanwhile. *)
Context (resched reap : sigs -> sigs) (refrigerator : sigs -> sigs) (frame_ok : bool).

Inductive outcome :=
  | Handled (regs : pt_regs) (fr : option frame)   (** [return 1] *)
  | Nothing (regs : pt_regs)                       (** [return 0] *)
  | FromKernel                                     (** [return 1] at the first test *)
  | Dies (exit_code : Z).                          (** [do_exit] *)

Definition lethal_dump (sig : Z) : bool :=
  (sig =? SIGQUIT) || (sig =? SIGILL) || (sig =? SIGTRAP) || (sig =? SIGABRT) || (sig =? SIGFPE) ||
  (sig =? SIGSEGV) || (sig =? SIGBUS) || (sig =? SIGSYS) || (sig =? SIGXCPU) || (sig =? SIGXFSZ).

(** The tail of the loop, for [signr] with its action; [inl] goes on with the loop. *)
Definition act_on (n : nat) (signr : Z) (info : siginfo) (oldset : sigset) (regs : pt_regs) (s : sigs)
  : option (sigs + sigs * outcome) :=
  let c := current s in
  h ← g_sig (gtab s c);
  let ka := sg_action (handlers s h) signr in
  if sa_handler ka =? SIG_IGN then Some (inl (if negb (signr =? SIGCHLD) then s else reap s))
  else if sa_handler ka =? SIG_DFL then
    if g_pid (gtab s c) =? 1 then Some (inl s)
    else if (signr =? SIGCONT) || (signr =? SIGCHLD) || (signr =? SIGWINCH) || (signr =? SIGURG)
    then Some (inl s)
    else if ((signr =? SIGTSTP) || (signr =? SIGTTIN) || (signr =? SIGTTOU)) &&
            is_orphaned_pgrp (g_pgrp (gtab s c))
    then Some (inl s)
    else if (signr =? SIGTSTP) || (signr =? SIGTTIN) || (signr =? SIGTTOU) || (signr =? SIGSTOP) then
      let s1 := set_gtask c (fun p => p <| g_exit_code := signr |>)
                  (set_stask c (fun p => p <| t_state := TASK_STOPPED |>) s) in
      let tell := match struct_of s1 (g_pptr (gtab s1 c)) with
                  | Some x => negb (flag_set (sa_flags (sg_action x SIGCHLD)) SA_NOCLDSTOP)
                  | None => false
                  end in
      s2 ← (if tell then do_notify_parent sigqueue_alloc hz_to_std n c SIGCHLD s1 else Some s1);
      Some (inl (resched s2))
    else
      let exit_code := if lethal_dump signr && do_coredump signr then Z.lor signr 128 else signr in
      s1 ← sig_exit sigqueue_alloc n signr (Info info) s;
      Some (inr (s1, Dies exit_code))
  else
    let '(s1, regs, fr) := handle_signal frame_ok signr h info oldset regs s in
    Some (inr (s1, Handled regs fr)).

(** The stop of a traced task, and what is left of the signal when the debugger lets it
    go on. *)
Definition traced (n : nat) (signr : Z) (info : siginfo) (s : sigs) : option (sigs * option (Z * siginfo)) :=
  let c := current s in
  let s1 := set_gtask c (fun p => p <| g_exit_code := signr |>)
              (set_stask c (fun p => p <| t_state := TASK_STOPPED |>) s) in
  s2 ← do_notify_parent sigqueue_alloc hz_to_std n c SIGCHLD s1;
  let s3 := resched s2 in
  let signr := g_exit_code (gtab s3 c) in
  if signr =? 0 then Some (s3, None)
  else
    let s4 := set_gtask c (fun p => p <| g_exit_code := 0 |>) s3 in
    if signr =? SIGSTOP then Some (s4, None)
    else
      let parent := g_pptr (gtab s4 c) in
      let info := if negb (signr =? si_signo info)
                  then info <| si_signo := signr |> <| si_errno := 0 |> <| si_code := SI_USER |>
                            <| si_pid := g_pid (gtab s4 parent) |> <| si_uid := t_uid (stask s4 parent) |>
                  else info in
      if sigismember (blocked s4 c) signr
      then Some (fst (send_sig_info sigqueue_alloc signr (Info info) c s4), None)
      else Some (s4, Some (signr, info)).

(** One turn of the loop: [inl] to go round again, [inr None] when no signal was found. *)
Definition signal_turn (n : nat) (oldset : option sigset) (info : siginfo) (regs : pt_regs) (s : sigs)
  : option (sigs * siginfo + sigs * option outcome) :=
  let c := current s in
  let '(s1, info, signr) := dequeue_signal notify (blocked s c) info s in
  if signr =? 0 then Some (inr (s1, None))
  else
    x ← (if negb (Z.land (g_ptrace (gtab s1 c)) PT_PTRACED =? 0) && negb (signr =? SIGKILL)
         then traced n signr info s1 else Some (s1, Some (signr, info)));
    match x with
    | (s2, None) => Some (inl (s2, info))
    | (s2, Some (signr, info)) =>
        r ← act_on n signr info (default (blocked s2 c) oldset) regs s2;
        match r with
        | inl s3 => Some (inl (s3, info))
        | inr (s3, o) => Some (inr (s3, Some o))
        end
    end.

Fixpoint signal_loop (k n : nat) (oldset : option sigset) (info : siginfo) (regs : pt_regs) (s : sigs)
  : option (sigs * option outcome) :=
  match k with
  | O => None
  | S k' =>
      r ← signal_turn n oldset info regs s;
      match r with
      | inl (s1, info) => signal_loop k' n oldset info regs s1
      | inr x => Some x
      end
  end.

(** From [no_signal:] on. *)
Definition restart_call (regs : pt_regs) : pt_regs :=
  if (0 <=? r_orig_eax regs) &&
     ((r_eax regs =? - ERESTARTNOHAND) || (r_eax regs =? - ERESTARTSYS) || (r_eax regs =? - ERESTARTNOINTR))
  then regs <| r_eax := r_orig_eax regs |> <| r_eip ::= fun x => u32 (x - 2) |>
  else regs.

(** [do_signal]: [k] turns of the loop and [n] threads at most; [oldset] is [None] for
    NULL, when the current mask is used. *)
Definition do_signal (k n : nat) (oldset : option sigset) (info : siginfo) (regs : pt_regs) (s : sigs)
  : option (sigs * outcome) :=
  if negb (Z.land (r_xcs regs) 3 =? 3) then Some (s, FromKernel)
  else if flag_set (t_flags (stask s (current s))) PF_FREEZE
  then Some (refrigerator s, Nothing (restart_call regs))
  else
    r ← signal_loop k n oldset info regs s;
    match r with
    | (s1, None) => Some (s1, Nothing (restart_call regs))
    | (s1, Some o) => Some (s1, o)
    end.
End deliver.
