(* ===== verification/SigInv.v ===== *)
(** * Invariants of signals

    [sig_inv] holds of every state signals can reach: a queue only holds entries of
    pending signals, at most one per ordinary signal, and [nr_queued_signals] counts
    them all; SIGKILL and SIGSTOP are never blocked and keep their default action; and a
    task with a pending signal it does not block has its [sigpending] flag set.
    [framed] is what sending leaves alone, the runqueue's invariant included. *)
From stdpp Require Import base list functions sets.
From S2P Require Import Prelude PidHash Bitmap Sched SchedInv SchedCalls SchedSafety SchedCallsWf Sigset Signal.

Definition of_sig (sig : Z) (q : list siginfo) : list siginfo := filter (fun i => si_signo i = sig) q.

Record pending_ok (p : sigpending) : Prop := PendingOk {
  po_words : sigset_ok (sp_signal p);
  po_queued : forall i, i ∈ sp_queue p ->
    valid_signal (si_signo i) /\ sigismember (sp_signal p) (si_signo i) = true;
  po_once : forall sig, sig < SIGRTMIN -> (length (of_sig sig (sp_queue p)) <= 1)%nat
}.

Definition unblocking (m : sigset) : Prop := sigismember m SIGKILL = false /\ sigismember m SIGSTOP = false.

Definition action_ok (sig : Z) (a : k_sigaction) : Prop :=
  unblocking (sa_mask a) /\ (sig = SIGKILL \/ sig = SIGSTOP -> sa_handler a = SIG_DFL).

Definition total_queued (s : sigs) (n : Z) : Prop :=
  exists L, NoDup L /\ (forall t, queue_of s t <> [] -> t ∈ L) /\
    n = Z.of_nat (sum_list_with (fun t => length (queue_of s t)) L).

(** No signal is forgotten; a driver's notifier may clear the flag. *)
Definition flag_ok (s : sigs) (t : tid) : Prop :=
  g_notifier (gtab s t) = None -> has_pending_signals (pending s t) (blocked s t) = true ->
  t_sigpending (stask s t) <> 0.

Record sig_inv (s : sigs) : Prop := SigInv {
  inv_pending : forall t, pending_ok (g_pending (gtab s t));
  inv_blocked : forall t, unblocking (blocked s t);
  inv_actions : forall h sig, action_ok sig (sg_action (handlers s h) sig);
  inv_count : total_queued s (nr_queued_signals s);
  inv_max : nr_queued_signals s <= max_queued_signals s;
  inv_flag : forall t, flag_ok s t
}.

(** ** Sets *)

Lemma kill_valid : valid_signal SIGKILL. Proof. by split. Qed.
Lemma stop_valid : valid_signal SIGSTOP. Proof. by split. Qed.
#[export] Hint Resolve kill_valid stop_valid : kernel.

Lemma unblocking_del m sig : valid_signal sig -> unblocking m -> unblocking (sigdelset m sig).
Proof. intros Hv [H1 H2]. split; rewrite mem_del by auto with kernel; by rewrite ?H1, ?H2. Qed.

Lemma unblocking_mask m : unblocking (sigdelsetmask m UNBLOCKABLE).
Proof. split; rewrite mem_delmask, unblockable_bits by auto with kernel; apply andb_false_r. Qed.

Lemma unblocking_or a b : unblocking a -> unblocking b -> unblocking (sigorsets a b).
Proof. intros [H1 H2] [H3 H4]. split; rewrite mem_or by auto with kernel; by rewrite ?H1, ?H2, ?H3, ?H4. Qed.

Lemma unblocking_nand a b : unblocking a -> unblocking (signandsets a b).
Proof. intros [H1 H2]. split; rewrite mem_nand by auto with kernel; by rewrite ?H1, ?H2. Qed.

Lemma unblocking_and a b : unblocking a -> unblocking (sigandsets a b).
Proof. intros [H1 H2]. split; rewrite mem_and by auto with kernel; by rewrite ?H1, ?H2. Qed.

Lemma unblocking_add m sig : valid_signal sig -> sig <> SIGKILL -> sig <> SIGSTOP -> unblocking m ->
  unblocking (sigaddset m sig).
Proof.
  intros Hv Hk Hs [H1 H2]. split; rewrite mem_add by auto with kernel; rewrite ?H1, ?H2, orb_false_r; by apply Z.eqb_neq.
Qed.

Lemma andn_unblockable w x : 0 <= x < 32 -> Z.testbit UNBLOCKABLE x = true -> Z.testbit (andn w UNBLOCKABLE) x = false.
Proof. intros. unfold andn. rewrite Z.ldiff_spec. by rewrite H0, andb_false_r. Qed.

Lemma unblocking_init w : unblocking (siginitset (andn w UNBLOCKABLE)).
Proof. split; rewrite mem_init by auto with kernel; by rewrite andn_unblockable. Qed.

Lemma unblocking_set0 m w : unblocking (m <| sig0 := andn w UNBLOCKABLE |>).
Proof. by split; rewrite mem_word by auto with kernel; apply (andn_unblockable w). Qed.

Lemma unblocking_addmask m w : unblocking m -> unblocking (sigaddsetmask m (andn w UNBLOCKABLE)).
Proof. intros [H1 H2]. split; rewrite mem_addmask by auto with kernel; by rewrite ?H1, ?H2, andn_unblockable. Qed.

Lemma unblocking_delmask m w : unblocking m -> unblocking (sigdelsetmask m w).
Proof. intros [H1 H2]. split; rewrite mem_delmask by auto with kernel; by rewrite ?H1, ?H2. Qed.

Lemma unblocking_empty : unblocking sigemptyset.
Proof. by split. Qed.
#[export] Hint Resolve unblocking_mask unblocking_or unblocking_nand unblocking_and unblocking_init
  unblocking_set0 unblocking_addmask unblocking_delmask unblocking_empty unblocking_del unblocking_add : kernel.

Lemma add_words m sig : valid_signal sig -> sigset_ok m -> sigset_ok (sigaddset m sig).
Proof.
  intros Hv [H0 H1]. unfold sigset_ok, sigaddset. sig_word Hv; rewrite E, E0; simpl; split; try done;
    apply setbit_range; lia.
Qed.

Lemma del_words m sig : valid_signal sig -> sigset_ok m -> sigset_ok (sigdelset m sig).
Proof.
  intros Hv [H0 H1]. unfold sigset_ok, sigdelset. sig_word Hv; rewrite E, E0; simpl; split; try done;
    apply clearbit_range; lia.
Qed.

(** ** Queues *)

Lemma take_first_spec sig q :
  match take_first sig q with
  | None => forall i, i ∈ q -> si_signo i <> sig
  | Some (i, r) => si_signo i = sig /\ exists a b, q = a ++ i :: b /\ r = a ++ b /\ rest_after sig q = b /\
                   forall j, j ∈ a -> si_signo j <> sig
  end.
Proof.
  induction q as [|x q IH]; simpl; [by intros i ?%not_elem_of_nil|].
  destruct (Z.eqb_spec (si_signo x) sig) as [E|E].
  { split; [done|]. exists [], q. split_and!; try done. by intros j ?%not_elem_of_nil. }
  destruct (take_first sig q) as [[i r]|].
  - destruct IH as (Hi & a & b & -> & -> & Hr & Ha). split; [done|]. exists (x :: a), b.
    split_and!; try done. intros j [->|?]%elem_of_cons; auto.
  - intros i [->|?]%elem_of_cons; auto.
Qed.

Lemma of_sig_none sig q : (forall i, i ∈ q -> si_signo i <> sig) -> of_sig sig q = [].
Proof.
  intros H. unfold of_sig. induction q as [|x q IH]; [done|].
  rewrite filter_cons_False by (apply H; set_solver). apply IH. set_solver.
Qed.

Lemma of_sig_other sig sig' q : sig <> sig' -> of_sig sig' (filter (fun i => si_signo i <> sig) q) = of_sig sig' q.
Proof.
  intros Hne. unfold of_sig. rewrite list_filter_filter. apply list_filter_iff. intros i. naive_solver.
Qed.

Lemma existsb_of_sig sig q : existsb (fun j => si_signo j =? sig) q = false -> of_sig sig q = [].
Proof.
  intros H. apply of_sig_none. intros i Hi E. rewrite <- not_true_iff_false, existsb_exists in H.
  apply H. exists i. split; [by apply list_elem_of_In|by apply Z.eqb_eq].
Qed.

(** The counts of the ordinary signals in a queue without one of its entries. *)
Lemma of_sig_drop sig a i b : (length (of_sig sig (a ++ b)) <= length (of_sig sig (a ++ i :: b)))%nat.
Proof.
  unfold of_sig. rewrite !filter_app, !length_app. rewrite filter_cons. case_decide; simpl; lia.
Qed.

Lemma pending_init : pending_ok (Sigpending [] sigemptyset).
Proof.
  split; simpl; [by unfold sigset_ok|by intros i ?%not_elem_of_nil|by intros; simpl; lia].
Qed.

Lemma pending_bit p sig : valid_signal sig -> pending_ok p ->
  pending_ok (p <| sp_signal ::= fun m => sigaddset m sig |>).
Proof.
  intros Hv [H1 H2 H3]. split; simpl; [by apply add_words| |done].
  intros i Hi. destruct (H2 i Hi) as [V M]. split; [done|]. rewrite mem_add by done. by rewrite M, orb_true_r.
Qed.

Lemma pending_push p sig i : valid_signal sig -> si_signo i = sig ->
  (sig < SIGRTMIN -> sigismember (sp_signal p) sig = false) -> pending_ok p ->
  pending_ok (Sigpending (sp_queue p ++ [i]) (sigaddset (sp_signal p) sig)).
Proof.
  intros Hv Hi Hn [H1 H2 H3]. split; simpl; [by apply add_words| |].
  - intros j [Hj|Hj]%elem_of_app.
    + destruct (H2 j Hj) as [V M]. split; [done|]. rewrite mem_add by done. by rewrite M, orb_true_r.
    + apply list_elem_of_singleton in Hj as ->. rewrite Hi. split; [done|].
      rewrite mem_add by done. by rewrite Z.eqb_refl.
  - intros x Hx. unfold of_sig. rewrite filter_app, length_app, filter_cons. case_decide as E; simpl; [|specialize (H3 x Hx); unfold of_sig in H3; lia].
    assert (E0 : of_sig x (sp_queue p) = []).
    { apply of_sig_none. intros j Hj Ej. destruct (H2 j Hj) as [_ M]. rewrite Ej, <- E, Hi, Hn in M; [done|lia]. }
    unfold of_sig in E0. rewrite E0. simpl. lia.
Qed.

Lemma pending_remove p sig : valid_signal sig -> pending_ok p ->
  pending_ok (Sigpending (filter (fun i => si_signo i <> sig) (sp_queue p)) (sigdelset (sp_signal p) sig)).
Proof.
  intros Hv [H1 H2 H3]. split; simpl; [by apply del_words| |].
  - intros i [Hi Hq]%list_elem_of_filter. destruct (H2 i Hq) as [V M]. split; [done|].
    rewrite mem_del by done. rewrite M. simpl. apply negb_true_iff, Z.eqb_neq. congruence.
  - intros x Hx. destruct (decide (sig = x)) as [->|Hne]; [|rewrite of_sig_other by done; by apply H3].
    rewrite of_sig_none; [simpl; lia|]. by intros i [? _]%list_elem_of_filter.
Qed.

(** The entry [collect_signal] takes; the bit goes unless another entry is left. *)
Lemma pending_take p sig i q (keep : bool) : valid_signal sig -> pending_ok p ->
  take_first sig (sp_queue p) = Some (i, q) ->
  (keep = false -> sig < SIGRTMIN \/ of_sig sig q = []) ->
  pending_ok (Sigpending q (if keep then sp_signal p else sigdelset (sp_signal p) sig)).
Proof.
  intros Hv [H1 H2 H3] Ht Hk. assert (Hs := take_first_spec sig (sp_queue p)). rewrite Ht in Hs.
  destruct Hs as (Hi & a & b & Eq & -> & _ & Ha).
  assert (Hone : sig < SIGRTMIN -> of_sig sig (a ++ b) = []).
  { intros Hx. specialize (H3 sig Hx). rewrite Eq in H3. unfold of_sig in *.
    rewrite filter_app, length_app, filter_cons_True in H3 by done. simpl in H3.
    apply length_zero_iff_nil. rewrite filter_app, length_app. lia. }
  split; simpl.
  - destruct keep; [done|by apply del_words].
  - intros j Hj. assert (Hq : j ∈ sp_queue p) by (rewrite Eq; set_solver). destruct (H2 j Hq) as [V M].
    split; [done|]. destruct keep; [done|]. rewrite mem_del by done. rewrite M. simpl.
    apply negb_true_iff, Z.eqb_neq. intros Ej.
    assert (E : of_sig sig (a ++ b) = []) by (destruct (Hk eq_refl); auto).
    assert (Hin : j ∈ of_sig sig (a ++ b)) by (apply list_elem_of_filter; by split).
    rewrite E in Hin. by apply not_elem_of_nil in Hin.
  - intros x Hx. specialize (H3 x Hx). rewrite Eq in H3. pose proof (of_sig_drop x a i b). lia.
Qed.

(** ** Frames *)

(** What sending and receiving signals never changes of a task. *)
Definition kept (p : gtask) := (g_pid p, g_tgid p, g_pgrp p, g_session p, g_leader p, g_suid p, g_ptrace p,
  g_pptr p, g_next_thread p, g_wait_chldexit p, g_sig p, g_notifier p, g_notifier_mask p).
Definition ident (p : task) := (t_uid p, t_euid p, t_cap_effective p).

Record quiet (a b : sched) : Prop := Quiet {
  q_curr : curr (rq b) = curr (rq a);
  q_idle : idle (rq b) = idle (rq a);
  q_wf : sched_wf a -> sched_wf b;
  q_ident : forall t, ident (tasks b t) = ident (tasks a t)
}.

Record framed (s s' : sigs) : Prop := Framed {
  fr_quiet : quiet (sched_of s) (sched_of s');
  fr_list : glist s' = glist s;
  fr_max : max_queued_signals s' = max_queued_signals s;
  fr_kept : forall t, kept (gtab s' t) = kept (gtab s t)
}.

#[export] Instance quiet_preorder : PreOrder quiet.
Proof.
  split.
  - by intros a.
  - intros a b c [H1 H2 H3 H4] [K1 K2 K3 K4]. split; [congruence|congruence|auto|intros t; by rewrite K4].
Qed.

#[export] Instance framed_preorder : PreOrder framed.
Proof.
  split.
  - by intros a.
  - intros a b c [H1 H2 H3 H4] [K1 K2 K3 K4]. split; [by etrans|congruence|congruence|intros t; by rewrite K4].
Qed.

Lemma framed_current s s' : framed s s' -> current s' = current s.
Proof. intros [[H _ _ _] _ _ _]. done. Qed.

Lemma framed_sched s s' : framed s s' -> sched_wf (sched_of s) -> sched_wf (sched_of s').
Proof. intros [[_ _ H _] _ _ _]. done. Qed.

(** The fields of a task [framed] keeps, one by one. *)
Lemma framed_fields s s' u : framed s s' ->
  g_next_thread (gtab s' u) = g_next_thread (gtab s u) /\ g_pptr (gtab s' u) = g_pptr (gtab s u) /\
  g_sig (gtab s' u) = g_sig (gtab s u) /\ g_ptrace (gtab s' u) = g_ptrace (gtab s u) /\
  g_notifier (gtab s' u) = g_notifier (gtab s u).
Proof.
  intros [_ _ _ K]. specialize (K u). destruct (gtab s u), (gtab s' u). unfold kept in K. simpl in *. by simplify_eq.
Qed.

Lemma quiet_set t f a : sched_fields (f (tasks a t)) = sched_fields (tasks a t) ->
  ident (f (tasks a t)) = ident (tasks a t) -> quiet a (set_task t f a).
Proof.
  intros Hf Hi. split; [done|done|intros Hw; by apply wf_set_other|].
  intros u. rewrite tasks_set_task. by case_decide; subst.
Qed.

Lemma quiet_lacks g cap a : quiet a (fst (lacks g cap a)).
Proof.
  unfold lacks, capable. destruct g; [|done]. destruct (cap_raised _ _); simpl; [by apply quiet_set|done].
Qed.

Lemma wake_tasks t a u : let b := fst (wake_up_process t a) in
  ident (tasks b u) = ident (tasks a u) /\ t_sigpending (tasks b u) = t_sigpending (tasks a u).
Proof.
  cbv zeta. unfold wake_up_process, try_to_wake_up.
  destruct (t_array (tasks a t)); [simpl; unfold alter, fn_alter; by case_decide; subst|].
  match goal with |- context [activate_task t ?x] => set (s1 := x) end.
  assert (E : tasks s1 = tasks a) by (unfold s1; by case_match).
  assert (A : forall v, ident (tasks (activate_task t s1) v) = ident (tasks a v) /\
                        t_sigpending (tasks (activate_task t s1) v) = t_sigpending (tasks a v)).
  { intros v. rewrite tasks_activate, E. case_decide; subst; [|done].
    unfold sleep_bonus. by case_match. }
  specialize (A u). clearbody s1. clear E. set (s2 := activate_task t s1) in *. clearbody s2.
  destruct (_ <? _); simpl; unfold alter, fn_alter; repeat case_decide; subst; exact A.
Qed.

Lemma curr_wake t s : curr (rq (fst (try_to_wake_up t s))) = curr (rq s).
Proof.
  unfold try_to_wake_up. destruct (t_array (tasks s t)); [done|]. simpl.
  match goal with |- context [activate_task t ?x] => set (s1 := x) end.
  assert (E : curr (rq s1) = curr (rq s)) by (unfold s1; by case_match).
  core (core_activate t s1). destruct (_ <? _); simpl in *; congruence.
Qed.

Lemma quiet_wake t a : t <> idle (rq a) -> quiet a (fst (wake_up_process t a)).
Proof.
  intros Hne. split; [apply curr_wake|apply idle_wake|intros; by apply wake_wf|].
  intros u. by destruct (wake_tasks t a u).
Qed.

Lemma quiet_wake_up l mode nr a : (forall w, w ∈ l -> wq_task w <> idle (rq a)) ->
  quiet a (__wake_up (Some l) mode nr a) /\
  forall u, t_sigpending (tasks (__wake_up (Some l) mode nr a) u) = t_sigpending (tasks a u).
Proof.
  simpl. revert nr a. induction l as [|w l IH]; intros nr a Hl; simpl; [done|].
  assert (Q := quiet_wake (wq_task w) a (Hl w (list_elem_of_here _ _))).
  assert (P := fun u => proj2 (wake_tasks (wq_task w) a u)). unfold wake_up_process in *.
  assert (Hl0 : forall v, v ∈ l -> wq_task v <> idle (rq a)) by set_solver.
  case_match; [|by apply IH].
  destruct (try_to_wake_up (wq_task w) a) as [b ok]; simpl in *.
  assert (Hl' : forall v, v ∈ l -> wq_task v <> idle (rq b)) by (by rewrite (q_idle _ _ Q)).
  case_match; [case_match; [by split|]|]; match goal with |- context [__wake_up_common l mode ?k b] =>
    destruct (IH k b Hl') as [Q2 P2] end; (split; [by etrans|intros u; by rewrite P2]).
Qed.

Lemma stask_set t f s u : stask (set_stask t f s) u = if decide (t = u) then f (stask s t) else stask s u.
Proof. unfold set_stask, stask, on_sched. simpl. apply tasks_set_task. Qed.
Lemma gtab_set t f s u : gtab (set_gtask t f s) u = if decide (t = u) then f (gtab s t) else gtab s u.
Proof. unfold set_gtask. simpl. unfold alter, fn_alter. by case_decide. Qed.

Lemma framed_sched_only f s : quiet (sched_of s) (f (sched_of s)) -> framed s (on_sched f s).
Proof. intros. by split. Qed.

Lemma framed_gtask t f s : kept (f (gtab s t)) = kept (gtab s t) -> framed s (set_gtask t f s).
Proof. intros E. split; try done. intros u. rewrite gtab_set. by case_decide; subst. Qed.

Lemma framed_stask t f s : sched_fields (f (stask s t)) = sched_fields (stask s t) ->
  ident (f (stask s t)) = ident (stask s t) -> framed s (set_stask t f s).
Proof. intros. by apply framed_sched_only, quiet_set. Qed.

Lemma framed_recalc t s : framed s (recalc_sigpending t s).
Proof. by apply framed_stask. Qed.

Lemma framed_wake t s : t <> idle (rq (sched_of s)) -> framed s (wake t s).
Proof. intros. by apply framed_sched_only, quiet_wake. Qed.

Lemma framed_count f s : framed s (s <| nr_queued_signals ::= f |>).
Proof. by split. Qed.

Lemma framed_action h sig f s : framed s (set_action h sig f s).
Proof. by split. Qed.

(** ** The invariant under a change of one task *)

Lemma total_change t s s' n : total_queued s n -> (forall u, u <> t -> queue_of s' u = queue_of s u) ->
  total_queued s' (n - Z.of_nat (length (queue_of s t)) + Z.of_nat (length (queue_of s' t))).
Proof.
  intros (L & Hnd & HL & ->) Hf.
  assert (C : forall M, NoDup M -> t ∈ M -> (forall u, queue_of s u <> [] -> u ∈ M) ->
    sum_list_with (fun u => length (queue_of s u)) M = sum_list_with (fun u => length (queue_of s u)) L ->
    total_queued s' (Z.of_nat (sum_list_with (fun u => length (queue_of s u)) L) -
      Z.of_nat (length (queue_of s t)) + Z.of_nat (length (queue_of s' t)))).
  { intros M HM Ht HMs EM. exists M. split_and!; [done| |].
    - intros u Hu. destruct (decide (u = t)) as [->|]; [done|]. apply HMs. by rewrite <- Hf.
    - pose proof (sum_list_with_change (fun u => length (queue_of s u)) (fun u => length (queue_of s' u)) M t HM Ht
        (fun y _ Hy => f_equal length (Hf y Hy))) as E. simpl in E. lia. }
  destruct (decide (t ∈ L)) as [Ht|Ht]; [by apply (C L)|].
  assert (E : queue_of s t = []) by (destruct (decide (queue_of s t = [])); [done|by destruct (Ht (HL t n))]).
  apply (C (t :: L)); [by constructor|set_solver|set_solver|]. simpl. by rewrite E.
Qed.

Lemma inv_change t s s' : sig_inv s ->
  (forall u, u <> t -> gtab s' u = gtab s u /\ t_sigpending (stask s' u) = t_sigpending (stask s u)) ->
  pending_ok (g_pending (gtab s' t)) -> unblocking (blocked s' t) -> flag_ok s' t ->
  (forall h sig, action_ok sig (sg_action (handlers s' h) sig)) ->
  nr_queued_signals s' = nr_queued_signals s - Z.of_nat (length (queue_of s t)) + Z.of_nat (length (queue_of s' t)) ->
  nr_queued_signals s' <= max_queued_signals s' -> sig_inv s'.
Proof.
  intros [H1 H2 H3 H4 H5 H6] Hf Hp Hb Hfl Ha Hn Hm.
  assert (F : forall u, u <> t -> pending s' u = pending s u /\ blocked s' u = blocked s u /\ queue_of s' u = queue_of s u).
  { intros u Hu. unfold pending, blocked, queue_of. by rewrite (proj1 (Hf u Hu)). }
  split; try done.
  - intros u. destruct (decide (u = t)) as [->|Hu]; [done|]. by rewrite (proj1 (Hf u Hu)).
  - intros u. destruct (decide (u = t)) as [->|Hu]; [done|]. by rewrite (proj1 (proj2 (F u Hu))).
  - rewrite Hn. apply total_change; [done|]. intros u Hu. by apply F.
  - intros u. destruct (decide (u = t)) as [->|Hu]; [done|]. unfold flag_ok.
    destruct (F u Hu) as (-> & -> & _). destruct (Hf u Hu) as [-> ->]. apply H6.
Qed.

(** Operations that change the scheduler only, and not the [sigpending] flags. *)
Lemma inv_sched f s : sig_inv s ->
  (forall u, t_sigpending (tasks (f (sched_of s)) u) = t_sigpending (tasks (sched_of s) u)) -> sig_inv (on_sched f s).
Proof.
  intros [H1 H2 H3 H4 H5 H6] Hf. split; try done. intros t. unfold flag_ok, stask. simpl. rewrite Hf. apply H6.
Qed.

Lemma inv_stask t f s : sig_inv s -> t_sigpending (f (stask s t)) = t_sigpending (stask s t) -> sig_inv (set_stask t f s).
Proof. intros H Hf. apply inv_sched; [done|]. intros u. rewrite tasks_set_task. by case_decide; subst. Qed.

Lemma inv_wake t s : sig_inv s -> sig_inv (wake t s).
Proof. intros H. apply inv_sched; [done|]. intros u. apply wake_tasks. Qed.

(** A change of [t] that leaves its pending signals alone. *)
Lemma inv_gtask t f s : sig_inv s -> g_pending (f (gtab s t)) = g_pending (gtab s t) ->
  g_blocked (f (gtab s t)) = g_blocked (gtab s t) -> g_notifier (f (gtab s t)) = g_notifier (gtab s t) ->
  sig_inv (set_gtask t f s).
Proof.
  intros H E1 E2 E3. assert (F : forall u, g_pending (gtab (set_gtask t f s) u) = g_pending (gtab s u) /\
    g_blocked (gtab (set_gtask t f s) u) = g_blocked (gtab s u) /\ g_notifier (gtab (set_gtask t f s) u) = g_notifier (gtab s u)).
  { intros u. rewrite gtab_set. by case_decide; subst. }
  apply (inv_change t s); [done|intros u Hu; rewrite gtab_set, decide_False by done; done|..].
  - rewrite (proj1 (F t)). apply H.
  - unfold blocked. rewrite (proj1 (proj2 (F t))). apply H.
  - unfold flag_ok, pending, blocked. destruct (F t) as (-> & -> & ->). apply (inv_flag _ H).
  - apply H.
  - unfold queue_of. rewrite (proj1 (F t)). simpl. lia.
  - apply H.
Qed.

Lemma gtab_recalc t s : gtab (recalc_sigpending t s) = gtab s.
Proof. done. Qed.

Lemma recalc_flag t s : flag_ok (recalc_sigpending t s) t.
Proof.
  unfold flag_ok, recalc_sigpending. rewrite stask_set, decide_True by done. intros _.
  change (pending _ t) with (pending s t). change (blocked _ t) with (blocked s t). intros ->. done.
Qed.

(** A new mask, followed by [recalc_sigpending]. *)
Lemma inv_mask t m s : sig_inv s -> unblocking m -> sig_inv (recalc_sigpending t (set_blocked t m s)).
Proof.
  intros H Hm. apply (inv_change t s); [done| | | |apply recalc_flag|apply H| |apply H].
  - intros u Hu. split; [by rewrite gtab_recalc; unfold set_blocked; rewrite gtab_set, decide_False|].
    unfold recalc_sigpending. by rewrite stask_set, decide_False.
  - rewrite gtab_recalc. unfold set_blocked. rewrite gtab_set, decide_True by done. apply H.
  - unfold blocked. rewrite gtab_recalc. unfold set_blocked.
    by rewrite gtab_set, decide_True.
  - unfold queue_of. rewrite gtab_recalc. unfold set_blocked.
    rewrite gtab_set, decide_True by done. simpl. lia.
Qed.

Lemma inv_recalc t s : sig_inv s -> sig_inv (recalc_sigpending t s).
Proof.
  intros H. apply (inv_change t s); [done| |apply H|apply H|apply recalc_flag|apply H| |apply H].
  - intros u Hu. split; [done|]. unfold recalc_sigpending. by rewrite stask_set, decide_False.
  - change (queue_of (recalc_sigpending t s) t) with (queue_of s t). simpl. lia.
Qed.

(** New pending signals of [t]; [sc] is the scheduler afterwards. *)
Lemma inv_pend t f n sc s : sig_inv s ->
  let s' := (set_pending t f (s <| nr_queued_signals := n |>)) <| sched_of := sc |> in
  pending_ok (f (g_pending (gtab s t))) ->
  n = nr_queued_signals s - Z.of_nat (length (queue_of s t)) + Z.of_nat (length (sp_queue (f (g_pending (gtab s t))))) ->
  n <= max_queued_signals s ->
  (forall u, u <> t -> t_sigpending (tasks sc u) = t_sigpending (stask s u)) -> flag_ok s' t -> sig_inv s'.
Proof.
  intros H s' Hp Hn Hm Hs Hf.
  assert (E : forall u, gtab s' u = gtab (set_pending t f s) u) by done. unfold set_pending in E.
  assert (Et : gtab s' t = (gtab s t) <| g_pending ::= f |>) by (by rewrite E, gtab_set, decide_True).
  apply (inv_change t s); [done| |by rewrite Et| |done|apply H| |done].
  - intros u Hu. split; [by rewrite E, gtab_set, decide_False|by apply Hs].
  - unfold blocked. rewrite Et. apply H.
  - unfold queue_of at 2. rewrite Et. done.
Qed.

(** A task whose pending signals shrink keeps its flag right. *)
Lemma flag_shrink t f n s : sig_inv s ->
  (forall x, valid_signal x -> sigismember (sp_signal (f (g_pending (gtab s t)))) x = true ->
     sigismember (pending s t) x = true) ->
  pending_ok (f (g_pending (gtab s t))) -> flag_ok (set_pending t f (s <| nr_queued_signals := n |>)) t.
Proof.
  intros H Hs Hp. unfold flag_ok, pending, blocked, set_pending. rewrite gtab_set, decide_True by done. simpl.
  intros Hn. rewrite has_pending_spec by apply Hp. intros (x & Hv & Hx & Hb). apply (inv_flag _ H t); [done|].
  apply has_pending_spec; [apply H|]. exists x. split_and!; [done|by apply Hs|done].
Qed.

Lemma rm_spec sig t s : sig_inv s -> valid_signal sig ->
  sig_inv (rm_sig_from_queue sig t s) /\ framed s (rm_sig_from_queue sig t s) /\
  sched_of (rm_sig_from_queue sig t s) = sched_of s.
Proof.
  intros H Hv. unfold rm_sig_from_queue, rm_from_queue. destruct (negb _) eqn:E; simpl; [done|].
  assert (Hp := pending_remove _ sig Hv (inv_pending _ H t)).
  split_and!; [|split; try done; intros u; unfold set_pending; rewrite gtab_set; by case_decide; subst|done].
  match goal with |- sig_inv (set_pending t ?f ?x) => set (g := f); set (n := nr_queued_signals x) end.
  assert (Hs : forall x, valid_signal x -> sigismember (sp_signal (g (g_pending (gtab s t)))) x = true ->
    sigismember (pending s t) x = true).
  { intros x Hx. unfold g. simpl. rewrite mem_del by done. by intros [? _]%andb_true_iff. }
  apply (inv_pend t g n (sched_of s) s H); [done| | |done|by apply (flag_shrink t g n s)].
  - unfold n. simpl. unfold queue_of. lia.
  - unfold n. simpl. pose proof (inv_max _ H). pose proof (length_filter (fun i => si_signo i <> sig) (queue_of s t)). lia.
Qed.
