(* ===== verification/SigSend.v ===== *)
(** * Sending and taking signals keeps the invariants *)
From stdpp Require Import base list functions sets.
From S2P Require Import Prelude PidHash Bitmap Sched SchedInv SchedCalls SchedSafety SchedCallsWf.
From S2P Require Import Sigset Signal SigInv.

(** [s'] is a state the operation may leave after [s]. *)
Definition sound (s s' : sigs) : Prop := sig_inv s' /\ framed s s'.

Lemma sound_refl s : sig_inv s -> sound s s.
Proof. by split. Qed.

Lemma sound_trans a b c : sound a b -> (sig_inv b -> sound b c) -> sound a c.
Proof. intros [H1 H2] H. destruct (H H1) as [H3 H4]. split; [done|by etrans]. Qed.

Lemma sound_idle s s' t : sound s s' -> t <> idle (rq (sched_of s)) -> t <> idle (rq (sched_of s')).
Proof. intros [_ [[_ -> _ _] _ _ _]]. done. Qed.

Lemma sound_wake t s : sig_inv s -> t <> idle (rq (sched_of s)) -> sound s (wake t s).
Proof. intros H Hi. split; [by apply inv_wake|by apply framed_wake]. Qed.

Lemma sound_rm sig t s : sig_inv s -> valid_signal sig -> sound s (rm_sig_from_queue sig t s).
Proof. intros H Hv. destruct (rm_spec sig t s H Hv) as (? & ? & _). by split. Qed.

Lemma sound_exit_code t n s : sig_inv s -> sound s (set_gtask t (fun p => p <| g_exit_code := n |>) s).
Proof. intros H. split; [by apply inv_gtask|by apply framed_gtask]. Qed.

Lemma sound_bad sig info t s : sig_inv s -> sound s (fst (bad_signal sig info t s)).
Proof.
  intros H. unfold bad_signal.
  match goal with |- context [lacks ?g ?c ?x] => set (gd := g); assert (Q := quiet_lacks gd c x);
    assert (F : forall u, t_sigpending (tasks (fst (lacks gd c x)) u) = t_sigpending (tasks x u)) end.
  { intros u. unfold lacks, capable. destruct gd; [|done]. destruct (cap_raised _ _); [|done].
    cbn [fst]. rewrite tasks_set_task. by case_decide; subst. }
  destruct (lacks gd CAP_KILL (sched_of s)) as [sc bad]. simpl in *.
  split; [by apply (inv_sched (fun _ => sc))|by apply (framed_sched_only (fun _ => sc))].
Qed.

Lemma valid_lit n : 1 <= n <= 64 -> valid_signal n. Proof. done. Qed.

Lemma sound_stop sig t s : sig_inv s -> t <> idle (rq (sched_of s)) -> sound s (handle_stop_signal sig t s).
Proof.
  intros H Hi. unfold handle_stop_signal. destruct ((sig =? SIGKILL) || (sig =? SIGCONT)).
  - do 4 (eapply sound_trans; [|intros; apply sound_rm; [done|by apply valid_lit]]).
    eapply sound_trans; [|intros; by apply sound_exit_code].
    destruct (_ =? _); [by apply sound_wake|by apply sound_refl].
  - case_match; [by apply sound_rm|by apply sound_refl].
Qed.

(** ** Sending *)

Definition info_for (sig : Z) (info : info_arg) : Prop :=
  match info with Info i => si_signo i = sig | _ => True end.

Lemma copy_signo to from : si_signo (copy_siginfo to from) = si_signo from.
Proof. unfold copy_siginfo. by case_match. Qed.

Section send.
Context (alloc : sigs -> option siginfo).

(** [send_signal] refuses with [-EAGAIN], or makes the signal pending. *)
Lemma send_signal_cases sig info t s : sig_inv s -> valid_signal sig -> info_for sig info ->
  (sig < SIGRTMIN -> sigismember (pending s t) sig = false) ->
  send_signal alloc sig info t s = (s, - EAGAIN) \/
  exists f n, send_signal alloc sig info t s = (set_pending t f (s <| nr_queued_signals := n |>), 0) /\
    pending_ok (f (g_pending (gtab s t))) /\
    sp_signal (f (g_pending (gtab s t))) = sigaddset (pending s t) sig /\
    n = nr_queued_signals s - Z.of_nat (length (queue_of s t)) + Z.of_nat (length (sp_queue (f (g_pending (gtab s t))))) /\
    n <= max_queued_signals s.
Proof.
  intros H Hv Hi Hn. assert (Hp := inv_pending _ H t). unfold send_signal.
  assert (B : exists f n, (set_pending t (fun p => p <| sp_signal ::= fun m => sigaddset m sig |>) s, 0) =
    (set_pending t f (s <| nr_queued_signals := n |>), 0) /\
    pending_ok (f (g_pending (gtab s t))) /\ sp_signal (f (g_pending (gtab s t))) = sigaddset (pending s t) sig /\
    n = nr_queued_signals s - Z.of_nat (length (queue_of s t)) + Z.of_nat (length (sp_queue (f (g_pending (gtab s t))))) /\
    n <= max_queued_signals s).
  { exists (fun p => p <| sp_signal ::= fun m => sigaddset m sig |>), (nr_queued_signals s).
    split_and!; [by destruct s|by apply pending_bit|done|simpl; unfold queue_of; lia|apply H]. }
  destruct (nr_queued_signals s <? max_queued_signals s) eqn:E; [destruct (alloc s) as [old|]|].
  - right. b2p. eexists _, (Z.succ (nr_queued_signals s)). split; [done|]. split_and!; [|done| |lia].
    + apply pending_push; [done| |done|done].
      destruct info; simpl; [done..|by rewrite copy_signo].
    + simpl. rewrite length_app. simpl. unfold queue_of. lia.
  - destruct info as [| |i]; [by right..|]. case_match; [by left|by right].
  - destruct info as [| |i]; [by right..|]. case_match; [by left|by right].
Qed.

Lemma wake_up_flag t s u : t_sigpending (stask (signal_wake_up t s) u) = if decide (t = u) then 1 else t_sigpending (stask s u).
Proof.
  unfold signal_wake_up. set (s1 := set_stask _ _ _).
  assert (E : t_sigpending (stask s1 u) = if decide (t = u) then 1 else t_sigpending (stask s u)).
  { unfold s1. rewrite stask_set. by case_decide; subst. }
  destruct (negb _); [|done]. unfold wake, on_sched, stask in *. cbn [sched_of update]. by rewrite (proj2 (wake_tasks t (sched_of s1) u)).
Qed.

Lemma framed_wake_up t s : t <> idle (rq (sched_of s)) -> framed s (signal_wake_up t s).
Proof.
  intros Hi. unfold signal_wake_up. etrans; [by apply (framed_stask t (fun p => p <| t_sigpending := 1 |>))|].
  case_match; [by apply framed_wake|done].
Qed.

Lemma framed_pend t f n s : framed s (set_pending t f (s <| nr_queued_signals := n |>)).
Proof. split; try done. intros u. unfold set_pending. rewrite gtab_set. by case_decide; subst. Qed.

Lemma pending_set t f n s u : g_pending (gtab (set_pending t f (s <| nr_queued_signals := n |>)) u) =
  if decide (t = u) then f (g_pending (gtab s t)) else g_pending (gtab s u).
Proof. unfold set_pending. rewrite gtab_set. by case_decide; subst. Qed.

Lemma deliver_ok sig info t s : sig_inv s -> valid_signal sig -> info_for sig info ->
  (sig < SIGRTMIN -> sigismember (pending s t) sig = false) -> t <> idle (rq (sched_of s)) ->
  sound s (fst (deliver_signal alloc sig info t s)).
Proof.
  intros H Hv Hi Hn Hne. unfold deliver_signal.
  destruct (send_signal_cases sig info t s H Hv Hi Hn) as [->|(f & n & -> & Hp & Hs & Hc & Hm)]; [by apply sound_refl|].
  set (s1 := set_pending t f _). cbn [fst]. destruct (negb (sigismember (blocked s1 t) sig)) eqn:E; simpl.
  - split; [|etrans; [apply framed_pend|by apply framed_wake_up]].
    assert (W : forall u, t_sigpending (stask (signal_wake_up t s1) u) = if decide (t = u) then 1 else t_sigpending (stask s u))
      by (intros u; by rewrite wake_up_flag).
    assert (EW : signal_wake_up t s1 = s1 <| sched_of := sched_of (signal_wake_up t s1) |>).
    { unfold signal_wake_up. by case_match. }
    rewrite EW. apply (inv_pend t f n _ s H); try done.
    + intros u Hu. specialize (W u). rewrite decide_False in W by done. apply W.
    + intros _ _. specialize (W t). rewrite decide_True in W by done. fold s1. rewrite <- EW. by rewrite W.
  - split; [|apply framed_pend]. apply (inv_pend t f n (sched_of s) s H); try done.
    intros Hno. fold s1. change (has_pending_signals (pending s1 t) (blocked s1 t) = true -> t_sigpending (stask s t) <> 0).
    assert (Eb : blocked s1 t = blocked s t).
    { unfold s1, set_pending, blocked. rewrite gtab_set. by rewrite decide_True. }
    assert (Ep : pending s1 t = sigaddset (pending s t) sig).
    { unfold pending at 1, s1. rewrite pending_set, decide_True by done. done. }
    apply negb_false_iff in E. rewrite Eb in *. rewrite Ep, has_pending_spec by (apply add_words; [done|apply H]).
    intros (x & Hx & Hm' & Hb). apply (inv_flag _ H t); [|apply has_pending_spec; [apply H|]].
    + revert Hno. unfold s1, set_pending. cbn. unfold alter, fn_alter. by rewrite decide_True.
    + exists x. split_and!; [done| |done]. rewrite mem_add in Hm' by done. apply orb_true_iff in Hm' as [Ex|]; [|done].
      apply Z.eqb_eq in Ex as ->. congruence.
Qed.

Lemma send_sig_ok sig info t s : sig_inv s -> info_for sig info -> t <> idle (rq (sched_of s)) ->
  sound s (fst (send_sig_info alloc sig info t s)).
Proof.
  intros H Hi Hne. unfold send_sig_info. destruct ((sig <? 0) || (_NSIG <? sig)) eqn:E; [by apply sound_refl|].
  assert (B := sound_bad sig info t s H). destruct (bad_signal sig info t s) as [s1 bad]. simpl in B.
  destruct bad; [done|]. destruct ((sig =? 0) || _) eqn:E0; [done|]. b2p.
  assert (Hv : valid_signal sig) by vsig.
  assert (S2 : sound s (handle_stop_signal sig t s1)).
  { eapply sound_trans; [exact B|]. intros ?. apply sound_stop; [done|by eapply sound_idle]. }
  destruct (ignored_signal _ _ _); [done|]. destruct ((sig <? SIGRTMIN) && _) eqn:E1; [done|].
  eapply sound_trans; [exact S2|]. intros ?. apply deliver_ok; [done..| |by eapply sound_idle].
  intros Hl. apply andb_false_iff in E1 as [?%Z.ltb_ge|?]; [lia|done].
Qed.

Lemma inv_handlers h sig f s : sig_inv s -> (action_ok sig (sg_action (handlers s h) sig) -> action_ok sig (f (sg_action (handlers s h) sig))) ->
  sig_inv (set_action h sig f s).
Proof.
  intros [H1 H2 H3 H4 H5 H6] Hf. split; try done. intros h' x. unfold set_action. simpl. unfold alter, fn_alter.
  case_decide; subst; [|apply H3]. simpl. unfold alter, fn_alter. case_decide; subst; [|apply H3]. apply Hf, H3.
Qed.

Lemma sound_dfl h sig s : sig_inv s -> sound s (set_action h sig (fun a => a <| sa_handler := SIG_DFL |>) s).
Proof. intros H. split; [|apply framed_action]. apply inv_handlers; [done|]. intros [? _]. by split. Qed.

Lemma sound_mask t m s : sig_inv s -> unblocking m -> sound s (recalc_sigpending t (set_blocked t m s)).
Proof.
  intros H Hm. split; [by apply inv_mask|]. etrans; [by apply (framed_gtask t (fun p => p <| g_blocked := m |>))|apply framed_recalc].
Qed.

Lemma force_sig_ok sig info t s : sig_inv s -> valid_signal sig -> info_for sig info -> t <> idle (rq (sched_of s)) ->
  sound s (fst (force_sig_info alloc sig info t s)).
Proof.
  intros H Hv Hi Hne. unfold force_sig_info. destruct (g_sig (gtab s t)) as [h|]; [|by apply sound_refl].
  match goal with |- context [set_blocked t _ ?x] => set (s1 := x) end.
  assert (S1 : sound s s1) by (unfold s1; destruct (_ =? _); [by apply sound_dfl|by apply sound_refl]).
  eapply sound_trans; [eapply sound_trans; [exact S1|]|].
  - intros H1. apply sound_mask; [done|]. apply unblocking_del; [done|apply H1].
  - intros H2. apply send_sig_ok; [done|done|]. change (t <> idle (rq (sched_of s1))). by eapply sound_idle.
Qed.

(** The tasks of [for_each_task] are never the idle task. *)
Definition listed (s : sigs) : Prop := forall t, t ∈ glist s -> t <> idle (rq (sched_of s)).

Lemma listed_sound s s' : sound s s' -> listed s -> listed s'.
Proof. intros [_ [[_ E _ _] El _ _]] H t. rewrite El, E. apply H. Qed.

Lemma send_each_ok sel sig info s : sig_inv s -> info_for sig info -> listed s ->
  sound s (fst (send_each alloc sel sig info s)).
Proof.
  intros H Hi Hl. unfold send_each. assert (Hin : forall t, t ∈ glist s -> t <> idle (rq (sched_of s))) by done.
  generalize (- ESRCH). clear Hl. revert H Hin. generalize (glist s). intros l. revert s.
  induction l as [|t l IH]; intros s H Hin r; simpl; [by apply sound_refl|].
  assert (S1 := send_sig_ok sig info t s H Hi (Hin t (list_elem_of_here _ _))).
  destruct (sel (gtab s t)); [|apply IH; [done|set_solver]].
  destruct (send_sig_info alloc sig info t s) as [s1 err]. simpl in S1.
  eapply sound_trans; [exact S1|]. intros H1. apply IH; [done|]. intros u Hu.
  eapply sound_idle; [exact S1|]. apply Hin. set_solver.
Qed.

Lemma kill_all_ok sig info s : sig_inv s -> info_for sig info -> listed s -> sound s (fst (kill_all alloc sig info s)).
Proof.
  intros H Hi Hl. unfold kill_all. match goal with |- context [fold_left ?f _ _] => set (g := f) end.
  assert (L : forall l s r, sig_inv s -> (forall t, t ∈ l -> t <> idle (rq (sched_of s))) ->
    sound s (fst (fst (fold_left g l (s, r.1, r.2))))).
  { clear H Hl s. induction l as [|t l IH]; intros s [r c] H Hin; simpl; [by apply sound_refl|].
    assert (S1 := send_sig_ok sig info t s H Hi (Hin t (list_elem_of_here _ _))).
    destruct (_ && _); [|apply (IH s (r, c)); [done|set_solver]].
    destruct (send_sig_info alloc sig info t s) as [s1 err]. simpl in S1.
    eapply sound_trans; [exact S1|]. intros H1. apply (IH s1 (_, _)); [done|]. intros u Hu.
    eapply sound_idle; [exact S1|]. apply Hin. set_solver. }
  specialize (L (glist s) s (0, 0) H Hl). simpl in L. destruct (fold_left g (glist s) (s, 0, 0)) as [[s1 r] c].
  destruct (negb _); done.
Qed.

Lemma kill_proc_ok find sig info pid s : sig_inv s -> info_for sig info ->
  (forall n t, find n = Some t -> t <> idle (rq (sched_of s))) -> sound s (fst (kill_proc_info alloc find sig info pid s)).
Proof.
  intros H Hi Hf. unfold kill_proc_info. destruct (find pid) as [t|] eqn:E; [|by apply sound_refl].
  apply send_sig_ok; [done|done|]. destruct (negb _); [|by eapply Hf].
  destruct (find (g_tgid (gtab s t))) eqn:E1; simpl; by eapply Hf.
Qed.

Lemma kill_something_ok find sig info pid s : sig_inv s -> info_for sig info -> listed s ->
  (forall n t, find n = Some t -> t <> idle (rq (sched_of s))) ->
  sound s (fst (kill_something_info alloc find sig info pid s)).
Proof.
  intros H Hi Hl Hf. unfold kill_something_info, kill_pg_info. repeat case_match;
    first [by apply send_each_ok|by apply sound_refl|by apply kill_all_ok|by apply kill_proc_ok].
Qed.

(** ** Children and threads *)

(** The tasks that sleep in [wait4] are not the idle task. *)
Definition waiters_ok (s : sigs) : Prop := forall t w, w ∈ g_wait_chldexit (gtab s t) -> wq_task w <> idle (rq (sched_of s)).

Lemma waiters_sound s s' : sound s s' -> waiters_ok s -> waiters_ok s'.
Proof.
  intros [_ [[_ E _ _] _ _ K]] H t w. specialize (K t). unfold kept in K. injection K as _ _ _ _ _ _ _ _ _ -> _ _ _.
  rewrite E. apply H.
Qed.

Lemma sound_waitq t s : sig_inv s -> waiters_ok s ->
  sound s (on_sched (__wake_up (Some (g_wait_chldexit (gtab s t))) TASK_INTERRUPTIBLE 1) s).
Proof.
  intros H Hw. destruct (quiet_wake_up (g_wait_chldexit (gtab s t)) TASK_INTERRUPTIBLE 1 (sched_of s) (Hw t)) as [Q P].
  split; [by apply inv_sched|by apply framed_sched_only].
Qed.

Lemma wake_threads_ok n parent t s s' : sig_inv s -> waiters_ok s -> wake_up_threads n parent t s = Some s' -> sound s s'.
Proof.
  revert t s. induction n as [|n IH]; intros t s H Hw E; cbn [wake_up_threads] in E; [done|].
  assert (S1 := sound_waitq t s H Hw). set (s1 := on_sched _ s) in *.
  destruct (_ =? parent); [by injection E as <-|]. eapply sound_trans; [exact S1|].
  intros H1. eapply IH; [done|by eapply waiters_sound|done].
Qed.

Lemma notify_parent_ok hz n t sig s s' : sig_inv s -> waiters_ok s -> g_pptr (gtab s t) <> idle (rq (sched_of s)) ->
  do_notify_parent alloc hz n t sig s = Some s' -> sound s s'.
Proof.
  intros H Hw Hp E. unfold do_notify_parent in E.
  assert (S1 : sound s (fst (send_sig_info alloc sig (Info (child_info hz sig (gtab s t) (stask s t))) (g_pptr (gtab s t)) s))).
  { apply send_sig_ok; [done| |done]. unfold child_info. simpl. by repeat case_match. }
  eapply sound_trans; [exact S1|]. intros H1. eapply wake_threads_ok; [done| |exact E]. by eapply waiters_sound.
Qed.
End send.
