(* ===== verification/SigSteps.v ===== *)
(** * Every signal operation keeps the invariants

    The receiving side, the system calls and the delivery to user space, on top of
    [SigSend]; the step relation collects them all. *)
From stdpp Require Import base list functions sets.
From S2P Require Import Prelude PidHash Bitmap Sched SchedInv SchedCalls SchedSafety SchedCallsWf SchedTheorems.
From S2P Require Import Sigset Signal SigCalls SigFrame SigInv SigSend.

(** ** Taking signals *)

Lemma collect_ok sig t info s : sig_inv s -> valid_signal sig -> sound s (fst (fst (collect_signal sig t info s))).
Proof.
  intros H Hv. unfold collect_signal. destruct (sigismember _ _); [|by apply sound_refl].
  assert (Hp := inv_pending _ H t). destruct (take_first sig (queue_of s t)) as [[i q]|] eqn:E.
  - set (keep := (SIGRTMIN <=? sig) && _). cbn [fst].
    set (f := fun p => Sigpending q (if keep then sp_signal p else sigdelset (sp_signal p) sig)).
    assert (Hs := take_first_spec sig (queue_of s t)). rewrite E in Hs. destruct Hs as (Hi & a & b & Eq & -> & Er & Ha).
    assert (Hpo : pending_ok (f (g_pending (gtab s t)))).
    { apply (pending_take _ sig i); [done..|]. unfold keep. rewrite Er. intros [?%Z.leb_gt|Hx]%andb_false_iff; [by left|right].
      unfold of_sig. rewrite filter_app. apply existsb_of_sig in Hx. unfold of_sig in Hx. rewrite Hx, app_nil_r.
      by apply of_sig_none. }
    assert (Hn : Z.of_nat (length (queue_of s t)) = Z.of_nat (length (a ++ b)) + 1).
    { rewrite Eq, !length_app. simpl. lia. }
    split; [|apply (framed_pend t f (Z.pred (nr_queued_signals s)))].
    apply (inv_pend t f (Z.pred (nr_queued_signals s)) (sched_of s) s H); try done; [simpl; lia|pose proof (inv_max _ H); lia|].
    apply flag_shrink; [done| |done]. intros x Hx. unfold f. simpl. destruct keep; [done|].
    rewrite mem_del by done. by intros [? _]%andb_true_iff.
  - set (f := fun p => p <| sp_signal ::= fun m => sigdelset m sig |>). cbn [fst].
    assert (Hpo : pending_ok (f (g_pending (gtab s t)))).
    { destruct Hp as [P1 P2 P3]. split; [by apply del_words| |done]. intros j Hj. destruct (P2 j Hj) as [V M].
      split; [done|]. simpl. rewrite mem_del by done. rewrite M. simpl. apply negb_true_iff, Z.eqb_neq.
      pose proof (take_first_spec sig (queue_of s t)) as Hs. rewrite E in Hs. intros Ej. by apply (Hs j Hj). }
    split; [|apply (framed_pend t f (nr_queued_signals s))].
    apply (inv_pend t f (nr_queued_signals s) (sched_of s) s H); try done; [simpl; unfold queue_of; lia|apply H|].
    apply flag_shrink; [done| |done]. intros x Hx. unfold f. simpl.
    rewrite mem_del by done. by intros [? _]%andb_true_iff.
Qed.

Lemma sound_recalc t s : sig_inv s -> sound s (recalc_sigpending t s).
Proof. intros H. split; [by apply inv_recalc|apply framed_recalc]. Qed.

Lemma dequeue_ok notify mask info s : sig_inv s -> sound s (fst (fst (dequeue_signal notify mask info s))).
Proof.
  intros H. unfold dequeue_signal. set (sig := next_signal _ _).
  destruct (sig =? 0) eqn:E0; cbn [negb]; [by apply sound_recalc|]. b2p.
  destruct (next_signal_spec (pending s (current s)) mask) as [[? _]|(Hv & _)]; [apply H|done|].
  destruct (match g_notifier _ with Some _ => _ | None => _ end) eqn:En.
  - split; [|by apply framed_stask].
    apply (inv_change (current s) s); [done| |apply H|apply H| |apply H| |apply H].
    + intros u Hu. split; [done|]. cbn [fst]. rewrite stask_set. by rewrite decide_False.
    + intros Hno. cbn in Hno. by rewrite Hno in En.
    + change (queue_of (fst (fst _)) (current s)) with (queue_of s (current s)). simpl. lia.
  - assert (S1 := collect_ok sig (current s) info s H Hv).
    destruct (collect_signal sig (current s) info s) as [[s1 i] found]. simpl in *.
    eapply sound_trans; [exact S1|]. intros. by apply sound_recalc.
Qed.

(** The information that comes with a signal carries its number. *)
Lemma dequeue_info notify mask info s : sig_inv s ->
  let '(_, info', sig) := dequeue_signal notify mask info s in
  sig = 0 \/ valid_signal sig /\ si_signo info' = sig.
Proof.
  intros H. unfold dequeue_signal. set (sig := next_signal _ _).
  destruct (sig =? 0) eqn:E0; cbn [negb]; b2p; [by left|].
  destruct (next_signal_spec (pending s (current s)) mask) as [[? _]|(Hv & Hm & _)]; [apply H|done|].
  destruct (match g_notifier _ with Some _ => _ | None => _ end); [by left|]. unfold collect_signal.
  fold sig in Hm, Hv. rewrite Hm. assert (Hs := take_first_spec sig (queue_of s (current s))).
  destruct (take_first sig (queue_of s (current s))) as [[i q]|]; right; (split; [done|]); [|done].
  rewrite copy_signo. by apply Hs.
Qed.

(** ** The whole invariant *)

(** The links between processes lead to the idle task only from init, which is never
    traced. *)
Definition links (p : gtask) := (g_next_thread p, g_pptr p, g_ptrace p, g_pid p, g_wait_chldexit p).
Definition links_ok (s : sigs) : Prop := forall t,
  g_next_thread (gtab s t) <> idle (rq (sched_of s)) /\
  (g_pid (gtab s t) = 1 \/ g_pptr (gtab s t) <> idle (rq (sched_of s))) /\
  (Z.land (g_ptrace (gtab s t)) PT_PTRACED <> 0 -> g_pid (gtab s t) <> 1).

Record good (s : sigs) : Prop := Good {
  good_inv : sig_inv s;
  good_list : listed s;
  good_wait : waiters_ok s;
  good_links : links_ok s;
  good_sched : sched_wf (sched_of s)
}.

Lemma sound_good s s' : good s -> sound s s' -> good s'.
Proof.
  intros [H1 H2 H3 H4 H5] S. split; [by apply S|by eapply listed_sound|by eapply waiters_sound| |].
  - intros t. destruct S as [_ [[_ E _ _] _ _ K]]. specialize (K t). specialize (H4 t). rewrite E.
    destruct (gtab s t), (gtab s' t). unfold kept in K. simpl in *. by simplify_eq.
  - destruct S as [_ F]. by eapply framed_sched.
Qed.

Lemma good_sched_step s f : good s -> sched_wf (f (sched_of s)) -> idle (rq (f (sched_of s))) = idle (rq (sched_of s)) ->
  (forall u, t_sigpending (tasks (f (sched_of s)) u) = t_sigpending (tasks (sched_of s) u)) -> good (on_sched f s).
Proof.
  intros [H1 H2 H3 H4 H5] Hw Hi Hf. split; [by apply inv_sched| | | |done].
  - intros t. unfold on_sched. simpl. rewrite Hi. apply H2.
  - intros t w. unfold on_sched. simpl. rewrite Hi. apply H3.
  - intros t. unfold on_sched. simpl. rewrite Hi. apply H4.
Qed.

(** The signals of [t] are dropped and its flag is cleared. *)
Lemma flush_ok t s : sig_inv s -> sound s (flush_signals t s).
Proof.
  intros H. unfold flush_signals, flush_sigqueue. set (s1 := set_stask t _ s). cbv zeta.
  set (n := Z.of_nat (length (queue_of s1 t))).
  assert (En : n = Z.of_nat (length (queue_of s t))) by done. clearbody n.
  split.
  - apply (inv_pend t (fun _ => Sigpending [] sigemptyset) (nr_queued_signals s - n) (sched_of s1) s H).
    + apply pending_init.
    + simpl. lia.
    + pose proof (inv_max _ H). lia.
    + intros u Hu. change (t_sigpending (stask s1 u) = t_sigpending (stask s u)). unfold s1. rewrite stask_set.
      by rewrite decide_False.
    + unfold flag_ok, pending, set_pending. simpl. unfold alter, fn_alter. rewrite decide_True by done. simpl.
      done.
  - etrans; [|apply (framed_pend t (fun _ => Sigpending [] sigemptyset) (nr_queued_signals s - n) s1)].
    by apply framed_stask.
Qed.

Lemma good_ext s s' : good s -> gtab s' = gtab s -> sched_of s' = sched_of s -> glist s' = glist s ->
  nr_queued_signals s' = nr_queued_signals s -> max_queued_signals s' = max_queued_signals s ->
  (forall h sig, action_ok sig (sg_action (handlers s' h) sig)) -> good s'.
Proof.
  intros [[H1 H2 H3 H4 H5 H6] H7 H8 H9 H10] E1 E2 E3 E4 E5 Ha. destruct s, s'. simpl in *. by subst.
Qed.

Lemma inv_notifier t f s : sig_inv s -> g_pending (f (gtab s t)) = g_pending (gtab s t) ->
  g_blocked (f (gtab s t)) = g_blocked (gtab s t) ->
  (g_notifier (f (gtab s t)) = None -> flag_ok (set_gtask t f s) t) -> sig_inv (set_gtask t f s).
Proof.
  intros H E1 E2 E3. apply (inv_change t s); [done|intros u Hu; rewrite gtab_set, decide_False by done; done|..].
  - rewrite gtab_set, decide_True, E1 by done. apply H.
  - unfold blocked. rewrite gtab_set, decide_True, E2 by done. apply H.
  - intros Hn. apply E3; [|done]. revert Hn. by rewrite gtab_set, decide_True.
  - apply H.
  - unfold queue_of at 2. rewrite gtab_set, decide_True, E1 by done. simpl. unfold queue_of. lia.
  - apply H.
Qed.

Lemma good_gtask t f s : good s -> sig_inv (set_gtask t f s) ->
  links (f (gtab s t)) = links (gtab s t) -> good (set_gtask t f s).
Proof.
  intros [H1 H2 H3 H4 H5] Hi Hw. unfold links in Hw. injection Hw as W1 W2 W3 W4 W5. split; [done..| | |done].
  - intros u w. rewrite gtab_set.
    change (idle (rq (sched_of (set_gtask t f s)))) with (idle (rq (sched_of s))). case_decide; subst; [rewrite W5|]; apply H3.
  - intros u. rewrite gtab_set.
    change (idle (rq (sched_of (set_gtask t f s)))) with (idle (rq (sched_of s))).
    case_decide; subst; [rewrite W1, W2, W3, W4|]; apply H4.
Qed.

Lemma exit_sighand_good t s : good s -> good (exit_sighand t s).
Proof.
  intros H. unfold exit_sighand. set (s1 := match g_sig _ with Some _ => _ | None => _ end).
  assert (H1 : good s1).
  { unfold s1. destruct (g_sig (gtab s t)) as [h|]; [|done]. set (s0 := s <| handlers ::= _ |>).
    assert (G0 : good s0).
    { apply (good_ext s); try done. intros k sig. unfold s0. simpl. unfold alter, fn_alter. case_decide; subst; apply (inv_actions _ (good_inv _ H)). }
    apply good_gtask; [done| |done]. apply inv_gtask; [apply G0|done..]. }
  apply (sound_good s1); [done|]. apply flush_ok, H1.
Qed.

Lemma flush_handlers_good t s : good s -> good (flush_signal_handlers t s).
Proof.
  intros H. unfold flush_signal_handlers. destruct (g_sig (gtab s t)) as [h|]; [|done].
  generalize (seqZ 1 _NSIG). intros l. revert s H. induction l as [|sig l IH]; intros s H; simpl; [done|].
  apply IH. apply (sound_good s); [done|]. split; [|apply framed_action]. apply inv_handlers; [apply H|].
  intros [? Hd]. split; [apply unblocking_empty|]. intros Hs. unfold flush_action. simpl. by rewrite Hd by done.
Qed.

Lemma block_all_good f mask s : good s -> good (block_all_signals f mask s).
Proof. intros H. apply good_gtask; [done| |done]. apply inv_notifier; [apply H|done..]. Qed.

Lemma unblock_all_good s : good s -> good (unblock_all_signals s).
Proof.
  intros H. unfold unblock_all_signals. set (c := current s). set (f := fun p => p <| g_notifier := None |>).
  assert (E : forall u, gtab (set_gtask c f s) u = if decide (c = u) then f (gtab s c) else gtab s u) by apply gtab_set.
  split.
  - apply (inv_change c s); [apply H| | | |apply recalc_flag|apply H| |apply H].
    + intros u Hu. rewrite gtab_recalc, E, decide_False by done. split; [done|]. unfold recalc_sigpending. by rewrite stask_set, decide_False.
    + rewrite gtab_recalc, E, decide_True by done. apply H.
    + unfold blocked. rewrite gtab_recalc, E, decide_True by done. apply (inv_blocked _ (good_inv _ H)).
    + unfold queue_of at 2. rewrite gtab_recalc, E, decide_True by done. simpl. unfold queue_of. lia.
  - apply (good_list _ H).
  - intros u w. rewrite gtab_recalc, E. change (idle (rq (sched_of (recalc_sigpending _ _)))) with (idle (rq (sched_of s))).
    case_decide; subst; apply (good_wait _ H).
  - intros u. rewrite gtab_recalc, E. change (idle (rq (sched_of (recalc_sigpending _ _)))) with (idle (rq (sched_of s))).
    case_decide; subst; apply (good_links _ H).
  - apply (framed_sched _ _ (framed_recalc c (set_gtask c f s))). apply H.
Qed.

(** ** System calls *)

Lemma put_old_state {A} s o (x : A) : fst (fst (put_old s o x)) = s.
Proof. by destruct o as [[]|]. Qed.

Lemma procmask_ok how set oset size s : sig_inv s -> sound s (fst (fst (sys_rt_sigprocmask how set oset size s))).
Proof.
  intros H. unfold sys_rt_sigprocmask. destruct (negb _); [by apply sound_refl|].
  destruct set as [[new|]|]; [|by apply sound_refl|rewrite put_old_state; by apply sound_refl].
  assert (Hb := inv_blocked _ H (current s)).
  destruct (how =? SIG_BLOCK); [|destruct (how =? SIG_UNBLOCK); [|destruct (how =? SIG_SETMASK)]]; simpl;
    rewrite ?put_old_state; apply sound_mask; auto with kernel.
Qed.

Lemma old_procmask_ok how set oset s : sig_inv s -> sound s (fst (fst (sys_sigprocmask how set oset s))).
Proof.
  intros H. unfold sys_sigprocmask.
  destruct set as [[new|]|]; [|by apply sound_refl|rewrite put_old_state; by apply sound_refl].
  assert (Hb := inv_blocked _ H (current s)).
  destruct (how =? SIG_BLOCK); [|destruct (how =? SIG_UNBLOCK); [|destruct (how =? SIG_SETMASK)]]; simpl;
    rewrite ?put_old_state; apply sound_mask; auto with kernel.
  apply unblocking_set0.
Qed.

Lemma ssetmask_ok m s : sig_inv s -> sound s (fst (sys_ssetmask m s)).
Proof. intros H. apply sound_mask; auto with kernel. Qed.

Lemma sigsuspend_ok m s : sig_inv s -> sound s (fst (sys_sigsuspend_mask m s)).
Proof. intros H. apply sound_mask; auto with kernel. Qed.

Lemma rt_sigsuspend_ok m size s : sig_inv s -> sound s (fst (sys_rt_sigsuspend_mask m size s)).
Proof.
  intros H. unfold sys_rt_sigsuspend_mask. destruct (negb _); [by apply sound_refl|].
  destruct m; [apply sound_mask; auto with kernel|by apply sound_refl].
Qed.

Lemma sigaction_ok sig act s s' r old : sig_inv s -> do_sigaction sig act s = Some (s', r, old) -> sound s s'.
Proof.
  intros H E. unfold do_sigaction in E. destruct ((sig <? 1) || _ || _) eqn:Eg; [injection E as <- _ _; by apply sound_refl|].
  apply orb_false_iff in Eg as [Eg Ek]. b2p. assert (Hv : valid_signal sig) by vsig.
  destruct (g_sig (gtab s (current s))) as [h|]; [|done]. simpl in E.
  destruct act as [a|]; [|injection E as <- _ _; by apply sound_refl].
  set (s1 := set_action h sig _ s) in E.
  assert (S1 : sound s s1).
  { split; [|apply framed_action]. apply inv_handlers; [done|]. intros _. split; [apply unblocking_mask|].
    intros Hs. exfalso. rewrite bool_decide_true in Ek by done. simpl in Ek.
    destruct Ek as [|Ek]; [done|]. b2p. destruct Hs; congruence. }
  destruct (discards _ _); [|injection E as <- _ _; done].
  assert (S2 : sound s1 (fst (rm_from_queue sig (current s1) s1))) by (apply sound_rm; [apply S1|done]).
  destruct (rm_from_queue sig (current s1) s1) as [s2 found]. simpl in S2.
  injection E as <- _ _. eapply sound_trans; [exact S1|]. intros _. destruct found; [|done].
  eapply sound_trans; [exact S2|]. intros. by apply sound_recalc.
Qed.

Lemma sigaltstack_ok uss uoss sp s : sig_inv s -> sound s (fst (fst (do_sigaltstack uss uoss sp s))).
Proof.
  intros H. unfold do_sigaltstack. destruct uss as [[[[a b] c]|]|]; [|by apply sound_refl|rewrite put_old_state; by apply sound_refl].
  repeat (case_match; [by apply sound_refl|]). destruct (_ =? SS_DISABLE); rewrite put_old_state;
    (split; [by apply inv_gtask|by apply framed_gtask]).
Qed.

(** ** Delivery *)

Section delivery.
Context (alloc : sigs -> option siginfo) (m : thread_state) (sizes : Z * Z * Z * Z) (invmap : Z -> Z).
Notation handle := (handle_signal alloc m (sizes.1.1.1) (sizes.1.1.2) (sizes.1.2) (sizes.2) invmap).

Lemma segv_valid : valid_signal SIGSEGV. Proof. by split. Qed.

Lemma give_sigsegv_ok sig h s : sig_inv s -> current s <> idle (rq (sched_of s)) -> sound s (give_sigsegv alloc sig h s).
Proof.
  intros H Hi. unfold give_sigsegv. match goal with |- context [force_sig _ _ _ ?x] => set (s1 := x) end.
  assert (S1 : sound s s1) by (unfold s1; destruct (_ =? _); [by apply sound_dfl|by apply sound_refl]).
  eapply sound_trans; [exact S1|]. intros H1. apply force_sig_ok; [done|apply segv_valid|done|by eapply sound_idle].
Qed.

(** A handler runs for a signal with an action of its own, so for neither SIGKILL nor
    SIGSTOP. *)
Lemma handle_ok ok sig h info oldset regs s : sig_inv s -> current s <> idle (rq (sched_of s)) -> valid_signal sig ->
  sa_handler (sg_action (handlers s h) sig) <> SIG_DFL -> sound s (fst (fst (handle ok sig h info oldset regs s))).
Proof.
  intros H Hi Hv Hd. unfold handle_signal. set (c := current s).
  match goal with |- context [if flag_set ?f SA_SIGINFO then ?a else ?b] => set (fr := if flag_set f SA_SIGINFO then a else b) end.
  assert (S1 : sound s (fst (fst fr))).
  { unfold fr. destruct (flag_set _ _); unfold setup_rt_frame, setup_frame; destruct ok; simpl;
      [by apply sound_refl|by apply give_sigsegv_ok|by apply sound_refl|by apply give_sigsegv_ok]. }
  destruct fr as [[s1 r1] f1]. simpl in S1. cbn [fst]. set (s2 := if flag_set _ _ then set_action _ _ _ _ else s1).
  assert (S2 : sound s s2).
  { eapply sound_trans; [exact S1|]. intros. unfold s2. destruct (flag_set _ _); [by apply sound_dfl|by apply sound_refl]. }
  destruct (negb _); [|done]. eapply sound_trans; [exact S2|]. intros H2. apply sound_mask; [done|].
  assert (Hk : forall k, k = SIGKILL \/ k = SIGSTOP -> sig <> k).
  { intros k Hk ->. apply Hd. by apply (inv_actions _ H h k). }
  apply unblocking_add; [done|apply Hk; by left|apply Hk; by right|].
  apply unblocking_or; [apply H2|]. by destruct (inv_actions _ H2 h sig).
Qed.

Lemma sigreturn_ok set sc regs s : sig_inv s -> current s <> idle (rq (sched_of s)) ->
  sound s (fst (sigreturn alloc set sc regs s)).
Proof.
  intros H Hi. unfold sigreturn. destruct set as [set|]; [|apply force_sig_ok; [done|apply segv_valid|done|done]].
  assert (S1 := sound_mask (current s) _ s H (unblocking_mask set)). set (s1 := recalc_sigpending _ _) in *.
  destruct sc; [done|]. eapply sound_trans; [exact S1|]. intros.
  apply force_sig_ok; [done|apply segv_valid|done|by eapply sound_idle].
Qed.

Lemma rt_sigreturn_ok read regs s : sig_inv s -> current s <> idle (rq (sched_of s)) ->
  sound s (fst (sys_rt_sigreturn alloc read regs s)).
Proof.
  intros H Hi. unfold sys_rt_sigreturn. destruct (read _) as [[set sc] st]. assert (S1 := sigreturn_ok set sc regs s H Hi).
  destruct (sigreturn alloc set sc regs s) as [s1 [[r e]|]]; [|done]. simpl in S1.
  eapply sound_trans; [exact S1|]. intros H1. destruct st as [st|].
  - by apply sigaltstack_ok.
  - apply force_sig_ok; [done|apply segv_valid|done|]. eapply sound_idle; [exact S1|]. by rewrite (framed_current _ _ (proj2 S1)).
Qed.

Lemma force_threads_ok n sig info t s s' : sig_inv s -> valid_signal sig -> info_for sig info ->
  (forall u, g_next_thread (gtab s u) <> idle (rq (sched_of s))) -> t <> idle (rq (sched_of s)) ->
  force_threads alloc n sig info t s = Some s' -> sound s s'.
Proof.
  revert t s. induction n as [|n IH]; intros t s H Hv Hi Hn Ht E; simpl in E; destruct (t =? current s);
    [injection E as <-; by apply sound_refl|done|injection E as <-; by apply sound_refl|].
  assert (S1 := force_sig_ok alloc sig info t s H Hv Hi Ht). set (s1 := fst _) in *.
  assert (Hn1 : forall u, g_next_thread (gtab s1 u) <> idle (rq (sched_of s1))).
  { intros u. eapply sound_idle; [exact S1|]. destruct (framed_fields _ _ u (proj2 S1)) as (-> & _). apply Hn. }
  eapply sound_trans; [exact S1|]. intros. by eapply IH.
Qed.

Lemma sig_exit_ok n sig info s s' : sig_inv s -> valid_signal sig -> info_for sig info ->
  (forall u, g_next_thread (gtab s u) <> idle (rq (sched_of s))) -> sig_exit alloc n sig info s = Some s' -> sound s s'.
Proof.
  intros H Hv Hi Hn E. unfold sig_exit in E. set (c := current s) in E.
  match type of E with context [set_stask c _ ?x] => set (s1 := x) in E end.
  assert (S1 : sound s s1).
  { set (f := fun p => p <| sp_signal ::= fun m => sigaddset m sig |>) in s1.
    assert (Ep : forall u, g_pending (gtab s1 u) = if decide (c = u) then f (g_pending (gtab s c)) else g_pending (gtab s u)).
    { intros u. unfold s1. rewrite gtab_recalc. unfold set_pending. rewrite gtab_set. by case_decide; subst. }
    assert (Eg : forall u, u <> c -> gtab s1 u = gtab s u).
    { intros u Hu. unfold s1. rewrite gtab_recalc. unfold set_pending. rewrite gtab_set. by rewrite decide_False. }
    split.
    - apply (inv_change c s); [done| | | |apply recalc_flag|apply H| |apply H].
      + intros u Hu. split; [by apply Eg|]. unfold s1, recalc_sigpending. by rewrite stask_set, decide_False.
      + rewrite Ep, decide_True by done. apply pending_bit; [done|apply H].
      + unfold blocked, s1. rewrite gtab_recalc. unfold set_pending. rewrite gtab_set, decide_True by done. apply H.
      + unfold queue_of at 2. rewrite Ep, decide_True by done. simpl. unfold queue_of. lia.
    - unfold s1. etrans; [|apply framed_recalc]. by apply framed_gtask. }
  match type of E with context [set_stask c ?f s1] => set (s2 := set_stask c f s1) in E end.
  assert (S2 : sound s s2).
  { eapply sound_trans; [exact S1|]. intros H1. split; [by apply inv_stask|by apply framed_stask]. }
  assert (Hn2 : forall u, g_next_thread (gtab s2 u) <> idle (rq (sched_of s2))).
  { intros u. eapply sound_idle; [exact S2|]. destruct (framed_fields _ _ u (proj2 S2)) as (-> & _). apply Hn. }
  clearbody s2. destruct info as [| |i]; [by simplify_eq..|]. destruct (negb _); [|by simplify_eq].
  eapply sound_trans; [exact S2|]. intros. by eapply force_threads_ok.
Qed.
End delivery.

(** ** do_signal *)

Section do_signal.
Context (alloc : sigs -> option siginfo) (m : thread_state) (sizes : Z * Z * Z * Z) (invmap : Z -> Z).
Context (notify : Z -> bool) (hz_to_std : Z -> Z) (orphaned core : Z -> bool).
Context (resched reap refrigerator : sigs -> sigs) (frame_ok : bool).

(** What runs while the task is away keeps the invariant and brings it back; a debugger
    leaves a signal number or 0 as its exit code. *)
Definition returns (f : sigs -> sigs) : Prop := forall s, good s -> good (f s) /\ current (f s) = current s /\
  idle (rq (sched_of (f s))) = idle (rq (sched_of s)).
Hypothesis resched_returns : returns resched.
Hypothesis debugger_code : forall s, good s -> 0 <= g_exit_code (gtab (resched s) (current s)) <= _NSIG.
Hypothesis reap_returns : returns reap.
Hypothesis refrigerator_returns : returns refrigerator.

Definition running (s : sigs) : Prop := good s /\ current s <> idle (rq (sched_of s)).

Lemma running_sound s s' : running s -> sound s s' -> running s'.
Proof.
  intros [H1 H2] S. split; [by eapply sound_good|]. rewrite (framed_current _ _ (proj2 S)). by eapply sound_idle.
Qed.

Lemma running_returns f s : returns f -> running s -> running (f s).
Proof. intros Hf [H1 H2]. destruct (Hf s H1) as (H3 & H4 & H5). split; [done|congruence]. Qed.

Lemma running_gtask t f s : running s -> sig_inv (set_gtask t f s) -> links (f (gtab s t)) = links (gtab s t) ->
  running (set_gtask t f s).
Proof. intros [H1 H2] Hi Hl. split; [by apply good_gtask|done]. Qed.

(** [current->state = x] *)
Lemma running_state x s : running s -> running (set_stask (current s) (fun p => p <| t_state := x |>) s).
Proof.
  intros [H1 H2]. split; [|done]. apply good_sched_step; [done| |done|].
  - apply (sstep_wf (sched_of s)); [apply H1|by constructor].
  - intros u. rewrite tasks_set_task. by case_decide; subst.
Qed.

Lemma running_stop sig s : running s ->
  running (set_gtask (current s) (fun p => p <| g_exit_code := sig |>)
             (set_stask (current s) (fun p => p <| t_state := TASK_STOPPED |>) s)).
Proof.
  intros H. assert (R := running_state TASK_STOPPED s H). apply running_gtask; [done| |done].
  apply inv_gtask; [apply R|done..].
Qed.

Lemma running_notify n sig s s' : running s -> g_pid (gtab s (current s)) <> 1 ->
  do_notify_parent alloc hz_to_std n (current s) sig s = Some s' -> running s'.
Proof.
  intros H Hp E. eapply running_sound; [done|]. destruct H as [H _]. eapply notify_parent_ok; [apply H|apply H| |exact E].
  destruct (good_links _ H (current s)) as (_ & [?|?] & _); done.
Qed.

Notation act := (act_on alloc m (sizes.1.1.1) (sizes.1.1.2) (sizes.1.2) (sizes.2) invmap hz_to_std orphaned core
  resched reap frame_ok).

Definition result_ok {A} (r : sigs + sigs * A) : Prop :=
  match r with inl s => running s | inr (s, _) => running s end.

Lemma act_on_ok n sig info old regs s r : running s -> valid_signal sig -> si_signo info = sig ->
  act n sig info old regs s = Some r -> result_ok r.
Proof.
  intros H Hv Hi E. unfold act_on in E. set (c := current s) in E.
  destruct (g_sig (gtab s c)) as [h|]; [|done]. cbn [mbind option_bind] in E.
  destruct (sa_handler _ =? SIG_IGN) eqn:Eign.
  { injection E as <-. simpl. destruct (negb _); [done|by apply running_returns]. }
  destruct (sa_handler _ =? SIG_DFL) eqn:Edfl.
  - destruct (g_pid (gtab s c) =? 1) eqn:Epid; [by injection E as <-|].
    destruct ((sig =? SIGCONT) || _ || _ || _); [by injection E as <-|].
    destruct (((sig =? SIGTSTP) || _ || _) && _); [by injection E as <-|].
    destruct ((sig =? SIGTSTP) || (sig =? SIGTTIN) || (sig =? SIGTTOU) || (sig =? SIGSTOP)).
    + assert (R1 := running_stop sig s H). fold c in R1. set (s1 := set_gtask c _ _) in *.
      assert (Ep : g_pid (gtab s1 (current s1)) <> 1).
      { change (current s1) with c. unfold s1. rewrite gtab_set, decide_True by done. b2p. done. }
      destruct (match struct_of _ _ with Some _ => _ | None => _ end).
      * destruct (do_notify_parent alloc hz_to_std n c SIGCHLD s1) as [s2|] eqn:E2; [|done].
        injection E as <-. simpl. apply running_returns; [done|]. by apply (running_notify n SIGCHLD s1).
      * injection E as <-. simpl. by apply running_returns.
    + destruct (sig_exit alloc n sig (Info info) s) as [s1|] eqn:E1; simpl in E; [|done]. injection E as <-. simpl.
      eapply running_sound; [done|]. destruct H as [H _].
      eapply (sig_exit_ok alloc n sig (Info info)); [apply H|done|exact Hi| |exact E1]. intros u. apply (good_links _ H u).
  - b2p. assert (S1 := handle_ok alloc m sizes invmap frame_ok sig h info old regs s (good_inv _ (proj1 H)) (proj2 H) Hv Edfl).
    destruct (handle_signal _ _ _ _ _ _ _ _ _ _ _ _ _ _) as [[s1 r1] f1]. simpl in S1. injection E as <-. simpl.
    by eapply running_sound.
Qed.

Lemma traced_ok n sig info s s' r : running s -> valid_signal sig -> si_signo info = sig -> g_pid (gtab s (current s)) <> 1 ->
  traced alloc hz_to_std resched n sig info s = Some (s', r) ->
  running s' /\ match r with Some (sig', info') => valid_signal sig' /\ si_signo info' = sig' | None => True end.
Proof.
  intros H Hv Hi Hp E. unfold traced in E. set (c := current s) in E.
  assert (R1 := running_stop sig s H). fold c in R1. set (s1 := set_gtask c _ _) in *.
  assert (Ep : g_pid (gtab s1 (current s1)) <> 1).
  { change (current s1) with c. unfold s1. by rewrite gtab_set, decide_True. }
  destruct (do_notify_parent alloc hz_to_std n c SIGCHLD s1) as [s2|] eqn:E2; [|done]. simpl in E.
  assert (R2 : running s2) by (by apply (running_notify n SIGCHLD s1)).
  assert (R3 := running_returns resched s2 resched_returns R2).
  assert (C2 : current s2 = c).
  { assert (S : sound s1 s2).
    { destruct R1 as [G1 _]. eapply notify_parent_ok; [apply G1|apply G1| |exact E2].
      destruct (good_links _ G1 c) as (_ & [?|?] & _); done. }
    by rewrite (framed_current _ _ (proj2 S)). }
  assert (D := debugger_code s2 (proj1 R2)). rewrite C2 in D. set (s3 := resched s2) in *.
  set (code := g_exit_code (gtab s3 c)) in *.
  destruct (code =? 0) eqn:E0; [by injection E as <- <-|]. b2p.
  assert (Hc : valid_signal code) by vsig.
  assert (R4 : running (set_gtask c (fun p => p <| g_exit_code := 0 |>) s3)).
  { apply running_gtask; [done| |done]. apply inv_gtask; [apply R3|done..]. }
  set (s4 := set_gtask c _ s3) in *.
  destruct (code =? SIGSTOP); [by injection E as <- <-|].
  match type of E with context [Info ?i] => set (inf := i) in E end.
  assert (Hinf : si_signo inf = code).
  { unfold inf. destruct (negb (code =? si_signo info)) eqn:En; [done|]. by b2p. }
  destruct (sigismember _ _).
  - injection E as <- <-. split; [|done]. eapply running_sound; [done|]. apply send_sig_ok; [apply R4|done|].
    destruct R4 as [_ R4]. intros Ec. apply R4. change (current s4) with (current s3).
    destruct (resched_returns s2 (proj1 R2)) as (_ & C3 & _). fold s3 in C3. by rewrite C3, C2.
  - by injection E as <- <-.
Qed.

Notation turn := (signal_turn alloc m (sizes.1.1.1) (sizes.1.1.2) (sizes.1.2) (sizes.2) invmap notify hz_to_std
  orphaned core resched reap frame_ok).
Notation loop := (signal_loop alloc m (sizes.1.1.1) (sizes.1.1.2) (sizes.1.2) (sizes.2) invmap notify hz_to_std
  orphaned core resched reap frame_ok).

Lemma turn_ok n old info regs s r : running s -> turn n old info regs s = Some r ->
  match r with inl (s', _) => running s' | inr (s', _) => running s' end.
Proof.
  intros H E. unfold signal_turn in E. assert (S1 := dequeue_ok notify (blocked s (current s)) info s (good_inv _ (proj1 H))).
  assert (D1 := dequeue_info notify (blocked s (current s)) info s (good_inv _ (proj1 H))).
  destruct (dequeue_signal notify (blocked s (current s)) info s) as [[s1 i1] sig]. simpl in S1.
  assert (R1 : running s1) by (by eapply running_sound).
  destruct (sig =? 0) eqn:E0; [by injection E as <-|]. b2p. destruct D1 as [?|[Hv Hs]]; [done|].
  match type of E with (?x ≫= _) = _ => destruct x as [[s2 [[sig2 i2]|]]|] eqn:Ex end; simpl in E; [| |done].
  - assert (R2 : running s2 /\ valid_signal sig2 /\ si_signo i2 = sig2).
    { destruct (negb _ && _) eqn:Et; [|by simplify_eq]. b2p.
      assert (Ec : current s1 = current s) by apply (framed_current _ _ (proj2 S1)).
      apply (traced_ok n sig i1 s1 s2 (Some (sig2, i2))); [done..| |exact Ex].
      apply (good_links _ (proj1 R1)). by rewrite Ec. }
    destruct R2 as (R2 & V2 & I2).
    destruct (act n sig2 i2 _ regs s2) as [r2|] eqn:Ea; [|done]. simpl in E.
    apply act_on_ok in Ea; [|done..]. destruct r2 as [s3|[s3 o]]; by injection E as <-.
  - injection E as <-. destruct (negb _ && _) eqn:Et; [|by simplify_eq]. b2p.
    assert (Ec : current s1 = current s) by apply (framed_current _ _ (proj2 S1)).
    apply (traced_ok n sig i1 s1 s2 None); [done..| |exact Ex]. apply (good_links _ (proj1 R1)). by rewrite Ec.
Qed.

Lemma do_signal_ok k n old info regs s s' o : running s ->
  do_signal alloc m (sizes.1.1.1) (sizes.1.1.2) (sizes.1.2) (sizes.2) invmap notify hz_to_std
    orphaned core resched reap refrigerator frame_ok k n old info regs s = Some (s', o) -> running s'.
Proof.
  intros H E. unfold do_signal in E. destruct (negb _); [by injection E as <- _|].
  destruct (flag_set _ _); [injection E as <- _; by apply running_returns|].
  assert (L : forall k s info r, running s -> loop k n old info regs s = Some r -> running (fst r)).
  { clear H E. clear k s info. intros k. induction k as [|k IH]; intros s info r H E; simpl in E; [done|].
    destruct (turn n old info regs s) as [t|] eqn:Et; [|done]. apply turn_ok in Et; [|done]. simpl in E.
    destruct t as [[s1 i1]|[s1 o1]]; [by eapply IH|by injection E as <-]. }
  destruct (loop k n old info regs s) as [[s1 o1]|] eqn:El; [|done]. apply L in El; [|done]. simpl in *.
  destruct o1; by injection E as <- _.
Qed.
End do_signal.
