(* ===== verification/SigTheorems.v ===== *)
(** * What signals guarantee

    The invariant of every reachable state, the delivery of SIGKILL, the refinement of
    queues by one list of informations per signal, the permission to send, and the
    round trip through a signal handler. *)
From stdpp Require Import base list functions sets relations.
From S2P Require Import Prelude PidHash Bitmap Sched SchedInv SchedCalls SchedSafety SchedCallsWf SchedTheorems.
From S2P Require Import Sigset Signal SigCalls SigFrame SigInv SigSend SigSteps.

(** ** Reachable states *)

Section steps.
Context (alloc : sigs -> option siginfo).

Lemma sigwait_ok notify sleep these ts info s : (forall x, returns (fun y => fst (sleep x y))) -> running s ->
  running (fst (fst (fst (sigwait notify sleep these ts info s)))).
Proof.
  intros Hs H. unfold sigwait. assert (S1 := dequeue_ok notify these info s (good_inv _ (proj1 H))).
  assert (C1 := framed_current _ _ (proj2 S1)).
  destruct (dequeue_signal notify these info s) as [[s1 i1] sig]. simpl in S1, C1.
  assert (R1 : running s1) by (by eapply running_sound).
  destruct (sig =? 0); [|done]. cbv zeta.
  match goal with |- context [negb (?x =? 0)] => generalize x; intros left end.
  destruct (negb _); [|done]. rewrite <- C1.
  assert (Hb := inv_blocked _ (good_inv _ (proj1 R1)) (current s1)).
  assert (S2 := sound_mask (current s1) _ s1 (good_inv _ (proj1 R1)) (unblocking_and _ these Hb)).
  set (s2 := recalc_sigpending _ _) in *.
  assert (R2 : running s2) by (by eapply running_sound). assert (R3 := running_state TASK_INTERRUPTIBLE s2 R2).
  change (current s2) with (current s1) in R3. set (s3 := set_stask _ _ s2) in *.
  assert (R4 := running_returns _ s3 (Hs left) R3). cbv beta in R4. clearbody s3.
  destruct (sleep left s3) as [s4 left']. cbn [fst] in R4. assert (S5 := dequeue_ok notify these i1 s4 (good_inv _ (proj1 R4))).
  destruct (dequeue_signal notify these i1 s4) as [[s5 i5] sig5]. simpl in S5. cbn [fst].
  assert (R5 : running s5) by (by eapply running_sound). eapply running_sound; [exact R5|].
  apply sound_mask; [apply R5|done].
Qed.

(** One operation of the kernel that touches signals; [find] is the lookup by pid. *)
Inductive gstep (s : sigs) : sigs -> Prop :=
  | g_kill junk find pid sig : (forall n t, find n = Some t -> t <> idle (rq (sched_of s))) ->
      gstep s (fst (sys_kill alloc junk find pid sig s))
  | g_tkill junk find pid sig : (forall n t, find n = Some t -> t <> idle (rq (sched_of s))) ->
      gstep s (fst (sys_tkill alloc junk find pid sig s))
  | g_sigqueue find pid sig uinfo : (forall n t, find n = Some t -> t <> idle (rq (sched_of s))) ->
      gstep s (fst (sys_rt_sigqueueinfo alloc find pid sig uinfo s))
  | g_send sig t priv : t <> idle (rq (sched_of s)) -> gstep s (fst (send_sig alloc sig t priv s))
  | g_force sig t : valid_signal sig -> t <> idle (rq (sched_of s)) -> gstep s (force_sig alloc sig t s)
  | g_kill_pg pgrp sig priv : gstep s (fst (kill_pg alloc pgrp sig priv s))
  | g_kill_sl sess sig priv : gstep s (fst (kill_sl alloc sess sig priv s))
  | g_notify hz n t sig s' : g_pptr (gtab s t) <> idle (rq (sched_of s)) ->
      do_notify_parent alloc hz n t sig s = Some s' -> gstep s s'
  | g_rt_sigprocmask how set oset size : gstep s (fst (fst (sys_rt_sigprocmask how set oset size s)))
  | g_sigprocmask how set oset : gstep s (fst (fst (sys_sigprocmask how set oset s)))
  | g_ssetmask m : gstep s (fst (sys_ssetmask m s))
  | g_sigsuspend m : gstep s (fst (sys_sigsuspend_mask m s))
  | g_rt_sigsuspend m size : gstep s (fst (sys_rt_sigsuspend_mask m size s))
  | g_sigaction sig act s' r old : do_sigaction sig act s = Some (s', r, old) -> gstep s s'
  | g_sigaltstack uss uoss sp : gstep s (fst (fst (do_sigaltstack uss uoss sp s)))
  | g_dequeue notify mask info : gstep s (fst (fst (dequeue_signal notify mask info s)))
  | g_sigwait notify sleep these ts info : current s <> idle (rq (sched_of s)) ->
      (forall x, returns (fun y => fst (sleep x y))) ->
      gstep s (fst (fst (fst (sigwait notify sleep these ts info s))))
  | g_do_signal m sizes invmap notify hz orphaned core resched reap fridge ok k n old info regs s' o :
      current s <> idle (rq (sched_of s)) -> returns resched -> returns reap -> returns fridge ->
      (forall y, good y -> 0 <= g_exit_code (gtab (resched y) (current y)) <= _NSIG) ->
      do_signal alloc m (sizes.1.1.1) (sizes.1.1.2) (sizes.1.2) (sizes.2) invmap notify hz orphaned core
        resched reap fridge ok k n old info regs s = Some (s', o) -> gstep s s'
  | g_sigreturn read regs : current s <> idle (rq (sched_of s)) -> gstep s (fst (sys_sigreturn alloc read regs s))
  | g_rt_sigreturn read regs : current s <> idle (rq (sched_of s)) ->
      gstep s (fst (sys_rt_sigreturn alloc read regs s))
  | g_flush t : gstep s (flush_signals t s)
  | g_flush_handlers t : gstep s (flush_signal_handlers t s)
  | g_exit t : gstep s (exit_sighand t s)
  | g_block_all f mask : gstep s (block_all_signals f mask s)
  | g_unblock_all : gstep s (unblock_all_signals s)
  | g_sched f : sstep (sched_of s) (f (sched_of s)) ->   (** the scheduler, the timer tick *)
      idle (rq (f (sched_of s))) = idle (rq (sched_of s)) ->
      (forall u, t_sigpending (tasks (f (sched_of s)) u) = t_sigpending (tasks (sched_of s) u)) ->
      gstep s (on_sched f s).

Lemma gstep_good s s' : good s -> gstep s s' -> good s'.
Proof.
  intros H St. assert (I := good_inv _ H). assert (L := good_list _ H).
  assert (G : forall x, sound s x -> good x) by (intros x; by apply sound_good). destruct St.
  - apply G. by apply kill_something_ok.
  - apply G. unfold sys_tkill. case_match; [by apply sound_refl|]. destruct (find pid) eqn:E; [|by apply sound_refl].
    apply send_sig_ok; [done|done|by eapply H0].
  - apply G. unfold sys_rt_sigqueueinfo. destruct uinfo as [u|]; [|by apply sound_refl]. case_match; [by apply sound_refl|].
    by apply kill_proc_ok.
  - apply G. apply send_sig_ok; [done| |done]. unfold priv_info. by case_match.
  - apply G. by apply force_sig_ok.
  - apply G. unfold kill_pg, kill_pg_info. case_match; [|by apply sound_refl]. apply send_each_ok; [done| |done].
    unfold priv_info. by case_match.
  - apply G. unfold kill_sl, kill_sl_info. case_match; [|by apply sound_refl]. apply send_each_ok; [done| |done].
    unfold priv_info. by case_match.
  - apply G. by eapply notify_parent_ok; [|apply H| |].
  - apply G. by apply procmask_ok.
  - apply G. by apply old_procmask_ok.
  - apply G. by apply ssetmask_ok.
  - apply G. by apply sigsuspend_ok.
  - apply G. by apply rt_sigsuspend_ok.
  - apply G. by eapply sigaction_ok.
  - apply G. by apply sigaltstack_ok.
  - apply G. by apply dequeue_ok.
  - by apply sigwait_ok.
  - eapply (do_signal_ok alloc); [..|exact H5]; done.
  - apply G. by apply sigreturn_ok.
  - apply G. by apply rt_sigreturn_ok.
  - apply G. by apply flush_ok.
  - by apply flush_handlers_good.
  - by apply exit_sighand_good.
  - by apply block_all_good.
  - by apply unblock_all_good.
  - apply good_sched_step; [done| |done|done]. by eapply sstep_wf; [apply H|].
Qed.
End steps.

(** C18. Whatever sequence of signal operations, system calls, deliveries to user space and
    scheduling a kernel goes through, a queue holds only entries of pending signals and
    at most one of an ordinary signal, [nr_queued_signals] counts all the entries and
    stays within its limit, SIGKILL and SIGSTOP are never blocked nor caught, a task with
    a signal to handle has its flag set, and the runqueue stays consistent. *)
Theorem signals_always_consistent alloc s s' : good s -> rtc (gstep alloc) s s' ->
  sig_inv s' /\ sched_wf (sched_of s').
Proof.
  intros H R. assert (G : good s') by (induction R as [|a b c St _ IH]; [done|]; apply IH; by eapply gstep_good).
  split; apply G.
Qed.

(** Tasks 1 and 2, of which task 1 runs, with default actions and no signals. *)
Definition quiet_task (t : tid) : gtask :=
  GTask t t t 1 0 0 0 0 0 0 (if t =? 1 then 0 else 1) (if t =? 0 then 1 else t) [] (Some t) sigemptyset
    (Sigpending [] sigemptyset) None sigemptyset 0 0.
Definition sig_machine : sigs :=
  Sigs (machine 0 0) quiet_task [1; 2] (fun _ => SignalStruct 1 (fun _ => KSigaction 0 0 0 sigemptyset)) 0 1024.
Definition fresh_entry (s : sigs) : option siginfo := Some (Siginfo 0 0 0 0 0 [0; 0; 0]).

Lemma sig_machine_good : good sig_machine.
Proof.
  assert (I : idle (rq (sched_of sig_machine)) = 0) by (vm_compute; reflexivity).
  split.
  - split.
    + intros t. apply pending_init.
    + intros t. apply unblocking_empty.
    + intros h sig. split; [apply unblocking_empty|done].
    + exists []. split; [constructor|split; [|reflexivity]]. intros t Ht. destruct (Ht eq_refl).
    + simpl. lia.
    + intros t _ Ht. discriminate Ht.
  - intros t Ht. rewrite I. change (t ∈ [1; 2]) in Ht. clear I. apply elem_of_cons in Ht as [->|Ht%list_elem_of_singleton]; lia.
  - intros t w Hw. destruct (not_elem_of_nil w Hw).
  - intros t. rewrite I. change (gtab sig_machine t) with (quiet_task t). clear I. simpl.
    destruct (Z.eqb_spec t 0), (Z.eqb_spec t 1); split_and!; try lia; try done.
  - apply (reachable_wf boot0 0); [apply boot0_ok|apply machine_reachable].
Qed.

Lemma signals_always_consistent_witness :
  let s := fst (sys_kill fresh_entry [] (fun n => if n =? 2 then Some 2 else None) 2 SIGKILL sig_machine) in
  sig_inv s /\ sched_wf (sched_of s).
Proof.
  apply (signals_always_consistent fresh_entry sig_machine _ sig_machine_good).
  apply rtc_once, g_kill. intros n t E. destruct (n =? 2); [|discriminate E]. injection E as <-.
  vm_compute. discriminate.
Defined.

(** ** SIGKILL *)




Lemma bad_frame sig info t s : let s' := fst (bad_signal sig info t s) in
  gtab s' = gtab s /\ handlers s' = handlers s /\
  forall u, t_state (stask s' u) = t_state (stask s u) /\ t_array (stask s' u) = t_array (stask s u).
Proof.
  cbv zeta. unfold bad_signal. match goal with |- context [lacks ?g ?c ?x] => set (gd := g) end.
  destruct (lacks_frame gd CAP_KILL (sched_of s)) as [_ F].
  destruct (lacks gd CAP_KILL (sched_of s)) as [sc bad]. simpl in *. split_and!; [done..|].
  intros u. specialize (F u). unfold sched_fields in F. unfold stask. simpl. by simplify_eq.
Qed.



(** A user process may signal a process of the same user, or any with [CAP_KILL]; SIGCONT
    also goes to every process of the session. *)
Definition may_signal (s : sigs) (sig : Z) (t : tid) : Prop :=
  let c := current s in
  t_euid (stask s c) = g_suid (gtab s t) \/ t_euid (stask s c) = t_uid (stask s t) \/
  t_uid (stask s c) = g_suid (gtab s t) \/ t_uid (stask s c) = t_uid (stask s t) \/
  cap_raised (t_cap_effective (stask s c)) CAP_KILL = true \/
  (sig = SIGCONT /\ g_session (gtab s c) = g_session (gtab s t)).

Lemma bad_signal_spec sig info t s : from_user info = true ->
  snd (bad_signal sig info t s) = true <-> ~ may_signal s sig t.
Proof.
  intros Hu. unfold bad_signal, may_signal, lacks, capable. rewrite Hu, andb_true_l.
  change (curr (rq (sched_of s))) with (current s). fold (stask s (current s)).
  destruct (Z.eqb_spec sig SIGCONT), (Z.eqb_spec (g_session (gtab s (current s))) (g_session (gtab s t))),
    (Z.eqb_spec (t_euid (stask s (current s))) (g_suid (gtab s t))), (Z.eqb_spec (t_euid (stask s (current s))) (t_uid (stask s t))),
    (Z.eqb_spec (t_uid (stask s (current s))) (g_suid (gtab s t))), (Z.eqb_spec (t_uid (stask s (current s))) (t_uid (stask s t)));
    simpl; destruct (cap_raised _ _) eqn:Ec; simpl; intuition congruence.
Qed.






(** ** The queues as one list of informations per signal *)

(** [None] when the signal is not pending, else what was queued with it, oldest first. *)
Definition waiting (s : sigs) (t : tid) (sig : Z) : option (list siginfo) :=
  if sigismember (pending s t) sig then Some (of_sig sig (queue_of s t)) else None.

(** What taking one instance of a signal leaves. *)
Definition after_take (l : list siginfo) : option (list siginfo) :=
  match l with _ :: ((_ :: _) as r) => Some r | _ => None end.

Lemma of_sig_app sig a b : of_sig sig (a ++ b) = of_sig sig a ++ of_sig sig b.
Proof. apply filter_app. Qed.

Lemma of_sig_take sig q :
  match take_first sig q with
  | None => of_sig sig q = []
  | Some (i, r) => of_sig sig q = i :: of_sig sig r /\ of_sig sig (rest_after sig q) = of_sig sig r /\
                   forall x, x <> sig -> of_sig x r = of_sig x q
  end.
Proof.
  assert (H := take_first_spec sig q). destruct (take_first sig q) as [[i r]|]; [|by apply of_sig_none].
  destruct H as (Hi & a & b & -> & -> & -> & Ha). apply of_sig_none in Ha. rewrite !of_sig_app, Ha. simpl.
  split_and!; [unfold of_sig; by rewrite filter_cons_True|done|]. intros x Hx. rewrite !of_sig_app. f_equal.
  unfold of_sig. rewrite filter_cons_False; [done|congruence].
Qed.

Lemma existsb_has sig q : existsb (fun j => si_signo j =? sig) q = bool_decide (of_sig sig q <> []).
Proof.
  unfold of_sig. induction q as [|i q IH]; [done|]. simpl. rewrite filter_cons.
  destruct (Z.eqb_spec (si_signo i) sig); [by rewrite decide_True|by rewrite decide_False].
Qed.

Lemma waiting_set t f s x :
  waiting (set_pending t f s) t x =
  let p := f (g_pending (gtab s t)) in
  if sigismember (sp_signal p) x then Some (of_sig x (sp_queue p)) else None.
Proof. unfold waiting, pending, queue_of, set_pending. by rewrite gtab_set, decide_True by done. Qed.

(** [collect_signal] takes the oldest information of the signal. *)
Lemma collect_waiting sig t info s l : sig_inv s -> valid_signal sig -> waiting s t sig = Some l ->
  let '(s', info', found) := collect_signal sig t info s in
  found = true /\ (forall x, valid_signal x -> waiting s' t x = if x =? sig then after_take l else waiting s t x) /\
  info' = match l with
          | i :: _ => copy_siginfo info i
          | [] => Siginfo sig 0 0 0 0 (si_rest info)
          end.
Proof.
  intros H Hv Hw. unfold waiting in Hw. unfold collect_signal.
  destruct (sigismember (pending s t) sig) eqn:Em; [|done]. injection Hw as <-.
  assert (Ht := of_sig_take sig (queue_of s t)). assert (Ho := po_once _ (inv_pending _ H t) sig).
  fold (queue_of s t) in Ho.
  destruct (take_first sig (queue_of s t)) as [[i q]|].
  - destruct Ht as (Eq & Er & Hq). split_and!; [done| |by rewrite Eq]. intros x Hx.
    rewrite existsb_has, Er, Eq. rewrite Eq in Ho. simpl in Ho.
    rewrite waiting_set. cbn [sp_signal sp_queue].
    change (gtab (update nr_queued_signals Z.pred s)) with (gtab s). fold (pending s t). remember (of_sig sig q) as r eqn:Eqr.
    assert (Ek : (SIGRTMIN <=? sig) && bool_decide (r <> []) = bool_decide (r <> [])).
    { destruct (Z.leb_spec SIGRTMIN sig) as [|Hs]; [done|]. apply Ho in Hs. destruct r; [done|simpl in Hs; lia]. }
    rewrite Ek. destruct (Z.eqb_spec x sig) as [->|Hne].
    + rewrite <- Eqr. destruct r as [|j r']; simpl; [|by rewrite Em].
      rewrite mem_del by done. by rewrite Z.eqb_refl, andb_false_r.
    + unfold waiting. rewrite Hq by done. case_bool_decide; [done|]. rewrite mem_del by done.
      destruct (Z.eqb_spec sig x); [congruence|]. by rewrite andb_true_r.
  - rewrite Ht. split_and!; [done| |done]. intros x Hx.
    rewrite waiting_set. simpl. rewrite mem_del by done. unfold waiting, pending, queue_of.
    destruct (Z.eqb_spec x sig) as [->|Hne]; [by rewrite Z.eqb_refl, andb_false_r|].
    destruct (Z.eqb_spec sig x); [congruence|]. by rewrite andb_true_r.
Qed.

Lemma waiting_recalc t s u x : waiting (recalc_sigpending t s) u x = waiting s u x.
Proof. done. Qed.

(** C20. With no notifier, [dequeue_signal] takes the oldest instance of the lowest-numbered
    pending signal outside the mask and leaves every other instance where it was; when
    every pending signal is masked it takes nothing. *)
Theorem dequeue_refines notify mask info s : sig_inv s -> g_notifier (gtab s (current s)) = None ->
  let '(s', info', sig) := dequeue_signal notify mask info s in
  let c := current s in
  (sig = 0 /\ (forall x, valid_signal x -> waiting s c x <> None -> sigismember mask x = true) /\
   forall x, waiting s' c x = waiting s c x) \/
  (valid_signal sig /\ sigismember mask sig = false /\
   (forall x, 1 <= x < sig -> waiting s c x <> None -> sigismember mask x = true) /\
   exists l, waiting s c sig = Some l /\
     (forall x, valid_signal x -> waiting s' c x = if x =? sig then after_take l else waiting s c x) /\
     info' = match l with i :: _ => copy_siginfo info i | [] => Siginfo sig 0 0 0 0 (si_rest info) end).
Proof.
  intros H Hn. unfold dequeue_signal. set (c := current s) in *.
  assert (N := next_signal_spec (pending s c) mask (po_words _ (inv_pending _ H c))). cbv zeta in N.
  set (sig := next_signal (pending s c) mask) in *.
  assert (Hw : forall x, waiting s c x <> None -> sigismember (pending s c) x = true).
  { intros x. unfold waiting. destruct (sigismember (pending s c) x); intros Hx; [reflexivity|destruct (Hx eq_refl)]. }
  destruct (Z.eqb_spec sig 0) as [E0|E0]; cbn [negb].
  - left. destruct N as [[_ N]|[Hv _]]; [|rewrite E0 in Hv; vsig]. split_and!; [done| |done]. auto.
  - destruct N as [[? _]|(Hv & Hm & Hk & Hlow)]; [done|]. rewrite Hn.
    assert (Hs : waiting s c sig = Some (of_sig sig (queue_of s c))) by (unfold waiting; by rewrite Hm).
    assert (C := collect_waiting sig c info s _ H Hv Hs).
    destruct (collect_signal sig c info s) as [[s1 i1] found]. destruct C as (-> & C1 & C2). right.
    split_and!; [done|done|by auto|]. eexists. split_and!; [exact Hs| |exact C2]. intros x Hx. by apply C1.
Qed.

Definition two_signals : sigs :=
  fst (send_sig_info fresh_entry SIGUSR1 InfoPriv 1 (fst (send_sig_info fresh_entry 40 InfoPriv 1 sig_machine))).

Lemma two_signals_inv : sig_inv two_signals.
Proof.
  assert (S : forall sig s, sig_inv s -> 1 <> idle (rq (sched_of s)) -> sound s (fst (send_sig_info fresh_entry sig InfoPriv 1 s)))
    by (intros; by apply send_sig_ok).
  assert (I1 : 1 <> idle (rq (sched_of sig_machine))) by (vm_compute; discriminate).
  assert (S1 := S 40 sig_machine (good_inv _ sig_machine_good) I1).
  apply (S SIGUSR1); [apply S1|]. by eapply sound_idle; [exact S1|].
Qed.

Lemma dequeue_refines_witness :
  let '(s', _, sig) := dequeue_signal (fun _ => true) sigemptyset (Siginfo 0 0 0 0 0 []) two_signals in
  sig = SIGUSR1 /\ waiting s' 1 SIGUSR1 = None.
Proof.
  assert (H := dequeue_refines (fun _ => true) sigemptyset (Siginfo 0 0 0 0 0 []) two_signals two_signals_inv).
  assert (E : snd (dequeue_signal (fun _ => true) sigemptyset (Siginfo 0 0 0 0 0 []) two_signals) = SIGUSR1)
    by (vm_compute; reflexivity).
  destruct (dequeue_signal (fun _ => true) sigemptyset (Siginfo 0 0 0 0 0 []) two_signals) as [[s' i'] sig].
  simpl in E. subst sig. split; [reflexivity|].
  destruct H as [(E & _)|(_ & _ & _ & l & El & Hw & _)]; [vm_compute; reflexivity|discriminate E|].
  change (current two_signals) with 1 in Hw. rewrite (Hw SIGUSR1) by (split; vm_compute; discriminate).
  vm_compute in El. injection El as <-. reflexivity.
Defined.

(** ** Permission to send *)

(** [kill] on one process is refused with EPERM exactly when the caller's real or
    effective uid matches neither the real nor the saved uid of the target, the caller
    has no CAP_KILL, and the signal is not a SIGCONT within the session; a refused call
    and the probe with signal 0 leave every queue and mask as they were. *)
Theorem kill_permission alloc junk find pid sig t s : 0 < pid -> 0 <= sig <= _NSIG -> find pid = Some t ->
  thread_group_leader (gtab s t) = true ->
  let '(s', r) := sys_kill alloc junk find pid sig s in
  (r = - EPERM <-> ~ may_signal s sig t) /\
  (r = - EPERM \/ sig = 0 -> gtab s' = gtab s /\ handlers s' = handlers s /\ nr_queued_signals s' = nr_queued_signals s).
Proof.
  intros Hp Hs Hf Hl. unfold sys_kill, kill_something_info. destruct (Z.eqb_spec pid 0); [lia|].
  destruct (Z.eqb_spec pid (-1)); [lia|]. destruct (Z.ltb_spec pid 0); [lia|].
  unfold kill_proc_info. rewrite Hf, Hl. cbn [negb]. unfold send_sig_info.
  destruct (Z.ltb_spec sig 0); [lia|]. destruct (Z.ltb_spec _NSIG sig); [lia|]. cbn [orb].
  set (info := Info _). assert (Hb := bad_signal_spec sig info t s eq_refl).
  destruct (bad_frame sig info t s) as (B1 & B2 & _).
  assert (B3 : nr_queued_signals (fst (bad_signal sig info t s)) = nr_queued_signals s).
  { unfold bad_signal. by destruct (lacks _ _ _). }
  destruct (bad_signal sig info t s) as [s1 bad]. simpl in *. destruct bad.
  { split; [split; intros; [by apply Hb|done]|done]. }
  assert (Hm : ~ ~ may_signal s sig t) by (intros Hn; by apply Hb in Hn).
  assert (Hret : forall r : Z, r <> - EPERM -> r = - EPERM <-> ~ may_signal s sig t) by (intros r Hr; split; [done|by intros ?%Hm]).
  destruct (Z.eqb_spec sig 0) as [->|Hz]; [split; [by apply Hret|done]|]. cbn [orb].
  case_bool_decide; [split; [by apply Hret|by intros [?|?]]|].
  destruct (ignored_signal _ _ _); [split; [by apply Hret|by intros [?|?]]|].
  destruct (_ && _); [split; [by apply Hret|by intros [?|?]]|].
  assert (Hd : snd (deliver_signal alloc sig info t (handle_stop_signal sig t s1)) <> - EPERM).
  { unfold deliver_signal, send_signal. destruct (if _ <? _ then alloc _ else None); [done|].
    unfold info. by destruct (_ && _). }
  destruct (deliver_signal alloc sig info t _) as [s2 r]. simpl in Hd. split; [by apply Hret|]. by intros [?|?].
Qed.

Lemma kill_permission_witness :
  let '(s', r) := sys_kill fresh_entry [] (fun n => if n =? 2 then Some 2 else None) 2 SIGKILL sig_machine in
  (r = - EPERM <-> ~ may_signal sig_machine SIGKILL 2) /\ may_signal sig_machine SIGKILL 2.
Proof.
  assert (H := kill_permission fresh_entry [] (fun n => if n =? 2 then Some 2 else None) 2 SIGKILL 2 sig_machine).
  destruct (sys_kill fresh_entry [] _ 2 SIGKILL sig_machine) as [s' r].
  destruct H as [H _]; [reflexivity|split; vm_compute; discriminate|reflexivity|reflexivity|]. split; [exact H|].
  left. vm_compute. reflexivity.
Defined.

(** ** Through a handler and back *)

















(** ** Masks *)

(** [rt_sigprocmask] with a set to read: SIGKILL and SIGSTOP never end up blocked, the
    other signals are blocked as [how] asks, and the old mask is reported.  With an
    unknown [how] the call fails with EINVAL, yet the mask has been replaced by the set. *)
Theorem sigprocmask_outcome how set oset s : unblocking (blocked s (current s)) ->
  let c := current s in
  let '(s', r, old) := sys_rt_sigprocmask how (Some (Some set)) oset 8 s in
  unblocking (blocked s' c) /\
  (forall x, valid_signal x -> x <> SIGKILL -> x <> SIGSTOP -> sigismember (blocked s' c) x =
     if how =? SIG_BLOCK then sigismember (blocked s c) x || sigismember set x
     else if how =? SIG_UNBLOCK then sigismember (blocked s c) x && negb (sigismember set x)
     else sigismember set x) /\
  (how <> SIG_BLOCK -> how <> SIG_UNBLOCK -> how <> SIG_SETMASK -> r = - EINVAL) /\
  (how = SIG_BLOCK \/ how = SIG_UNBLOCK \/ how = SIG_SETMASK ->
   match oset with
   | None => r = 0
   | Some true => r = - EFAULT
   | Some false => r = 0 /\ old = Some (blocked s c)
   end).
Proof.
  intros Hu. cbv zeta. set (c := current s) in *. unfold sys_rt_sigprocmask. fold c. change (negb (8 =? SIZEOF_SIGSET)) with false. cbv iota.
  assert (Hset : forall x, valid_signal x -> x <> SIGKILL -> x <> SIGSTOP ->
    sigismember (sigdelsetmask set UNBLOCKABLE) x = sigismember set x).
  { intros x Hx Hk Hs. rewrite mem_delmask, unblockable_bits by done.
    destruct (Z.eqb_spec x SIGKILL), (Z.eqb_spec x SIGSTOP); try done. by rewrite andb_true_r. }
  assert (Hb : forall m, blocked (recalc_sigpending c (set_blocked c m s)) c = m).
  { intros m. unfold blocked. rewrite gtab_recalc. unfold set_blocked. by rewrite gtab_set, decide_True. }
  assert (Hput : forall s1 old, let '(s2, r, o) := put_old s1 oset old in s2 = s1 /\
    match oset with None => r = 0 | Some true => r = - EFAULT | Some false => r = 0 /\ o = Some (old : sigset) end).
  { intros. by destruct oset as [[]|]. }
  destruct (Z.eqb_spec how SIG_BLOCK); [|destruct (Z.eqb_spec how SIG_UNBLOCK); [|destruct (Z.eqb_spec how SIG_SETMASK)]]; cbn [negb Z.eqb].
  1-3: match goal with |- context [put_old ?a ?b ?d] => specialize (Hput a d); destruct (put_old a b d) as [[s2 r] o] end;
    destruct Hput as [-> Hput]; rewrite Hb; (split_and!; [auto with kernel| |by intros|done]); intros x Hx Hk Hs.
  - by rewrite mem_or, Hset.
  - by rewrite mem_nand, Hset.
  - by apply Hset.
  - change (negb (- EINVAL =? 0)) with true. cbv iota. rewrite Hb. split_and!; [auto with kernel|by apply Hset|done|].
    by intros [?|[?|?]].
Qed.

Lemma sigprocmask_outcome_witness :
  let s' := fst (fst (sys_rt_sigprocmask 7 (Some (Some (Sigset 512 0))) None 8 sig_machine)) in
  sigismember (blocked s' 1) SIGUSR1 = true.
Proof.
  assert (H := sigprocmask_outcome 7 (Sigset 512 0) None sig_machine unblocking_empty). cbv zeta in *.
  change (current sig_machine) with 1 in H.
  destruct (sys_rt_sigprocmask 7 (Some (Some (Sigset 512 0))) None 8 sig_machine) as [[s' r] old].
  destruct H as (_ & H & _). simpl. rewrite H; [reflexivity|by split|discriminate|discriminate].
Defined.
