(* ===== verification/Clock.v ===== *)
(** * The wall clock (kernel/timer.c, kernel/time.c, arch/i386/kernel/time.c)

    The variables of the clock and of its phase-lock loop are the record [clock]; [time_tolerance]
    and [time_precision] are never assigned and are constants.  Longs wrap by [s32], unsigned
    longs by [u32].  The hardware's [do_gettimeoffset] is an argument of the operations
    that read it.  Shifts by a variable count use the low five bits of the count, as the
    instructions of the i386 do.  [privileged] is the result of [capable(CAP_SYS_TIME)]. *)
From stdpp Require Import base list option.
From S2P Require Import Prelude Sched Limits SigCalls.

(** include/linux/timex.h, with HZ = 512 *)
Definition SHIFT_HZ : Z := 9.
Definition SHIFT_KG : Z := 6.
Definition SHIFT_KF : Z := 16.
Definition SHIFT_KH : Z := 2.
Definition MAXTC : Z := 6.
Definition SHIFT_SCALE : Z := 22.
Definition SHIFT_UPDATE : Z := SHIFT_KG + MAXTC.
Definition SHIFT_USEC : Z := 16.
Definition FINEUSEC : Z := 2 ^ 22.
Definition MAXPHASE : Z := 512000.
Definition MAXFREQ : Z := 512 * 2 ^ 16.
Definition PPS_AVG : Z := 2.
Definition PPS_SHIFT : Z := 2.
Definition PPS_VALID : Z := 120.
Definition MAXTIME : Z := 200 * 2 ^ 2.
Definition MINSEC : Z := 16.
Definition MAXSEC : Z := 1200.
Definition NTP_PHASE_LIMIT : Z := MAXPHASE * 2 ^ 5.
Definition ADJ_OFFSET : Z := 1.
Definition ADJ_FREQUENCY : Z := 2.
Definition ADJ_MAXERROR : Z := 4.
Definition ADJ_ESTERROR : Z := 8.
Definition ADJ_STATUS : Z := 16.
Definition ADJ_TIMECONST : Z := 32.
Definition ADJ_TICK : Z := 16384.
Definition ADJ_OFFSET_SINGLESHOT : Z := 32769.
Definition STA_PLL : Z := 1.
Definition STA_PPSFREQ : Z := 2.
Definition STA_PPSTIME : Z := 4.
Definition STA_FLL : Z := 8.
Definition STA_INS : Z := 16.
Definition STA_DEL : Z := 32.
Definition STA_UNSYNC : Z := 64.
Definition STA_FREQHOLD : Z := 128.
Definition STA_PPSSIGNAL : Z := 256.
Definition STA_PPSJITTER : Z := 512.
Definition STA_PPSWANDER : Z := 1024.
Definition STA_PPSERROR : Z := 2048.
Definition STA_CLOCKERR : Z := 4096.
(** [STA_PPSSIGNAL | STA_PPSJITTER | STA_PPSWANDER | STA_PPSERROR | STA_CLOCKERR] *)
Definition STA_RONLY : Z := 7936.
Definition TIME_OK : Z := 0.
Definition TIME_INS : Z := 1.
Definition TIME_DEL : Z := 2.
Definition TIME_OOP : Z := 3.
Definition TIME_WAIT : Z := 4.
Definition TIME_ERROR : Z := 5.
Definition time_tolerance : Z := MAXFREQ.
Definition time_precision : Z := 1.
Definition tickadj : Z := if 500 ÷ HZ =? 0 then 1 else 500 ÷ HZ.

Record clock := Clock {
  tick : Z;
  tv_sec : Z;
  tv_usec : Z;
  time_state : Z;
  time_status : Z;
  time_offset : Z;
  time_constant : Z;
  time_maxerror : Z;
  time_esterror : Z;
  time_phase : Z;
  time_freq : Z;
  time_adj : Z;
  time_reftime : Z;
  time_adjust : Z;
  time_adjust_step : Z;
  pps_offset : Z;
  pps_jitter : Z;
  pps_freq : Z;
  pps_stabil : Z;
  pps_valid : Z;
  sys_tz : Z * Z;
  firsttime : bool;
  jiffies : Z;
  wall_jiffies : Z;
  load_count : Z;
  avenrun : Z * Z * Z
}.
#[export] Instance eta_clock : Eta clock := fun c =>
  Clock (tick c) (tv_sec c) (tv_usec c) (time_state c) (time_status c) (time_offset c) (time_constant c)
    (time_maxerror c) (time_esterror c) (time_phase c) (time_freq c) (time_adj c) (time_reftime c)
    (time_adjust c) (time_adjust_step c) (pps_offset c) (pps_jitter c) (pps_freq c) (pps_stabil c)
    (pps_valid c) (sys_tz c) (firsttime c) (jiffies c) (wall_jiffies c) (load_count c) (avenrun c).

Definition LOAD_FREQ : Z := 5 * HZ.

(** The initial values of the variables; [sec] is the time read from the CMOS clock. *)
Definition boot_clock (sec : Z) : clock :=
  Clock ((1000000 + HZ ÷ 2) ÷ HZ) sec 0 TIME_OK STA_UNSYNC 0 2 NTP_PHASE_LIMIT NTP_PHASE_LIMIT 0
    (Z.shiftl (Z.rem (1000000 + HZ ÷ 2) HZ - HZ ÷ 2) SHIFT_USEC) 0 0 0 0 0 MAXTIME 0 MAXFREQ PPS_VALID
    (0, 0) true 0 0 LOAD_FREQ (0, 0, 0).

Definition shl (x n : Z) : Z := s32 (Z.shiftl x (Z.land n 31)).
Definition sar (x n : Z) : Z := Z.shiftr x (Z.land n 31).

(** ** The second *)

Definition bump_maxerror (c : clock) : clock :=
  let e := s32 (time_maxerror c + sar time_tolerance SHIFT_USEC) in
  if NTP_PHASE_LIMIT <? e
  then c <| time_maxerror := NTP_PHASE_LIMIT |> <| time_status ::= fun f => Z.lor f STA_UNSYNC |>
  else c <| time_maxerror := e |>.

(** The [switch (time_state)] of [second_overflow]. *)
Definition leap_second (c : clock) : clock :=
  if time_state c =? TIME_OK then
    if has (time_status c) STA_INS then c <| time_state := TIME_INS |>
    else if has (time_status c) STA_DEL then c <| time_state := TIME_DEL |>
    else c
  else if time_state c =? TIME_INS then
    if Z.rem (tv_sec c) 86400 =? 0
    then c <| tv_sec := s32 (tv_sec c - 1) |> <| time_state := TIME_OOP |> else c
  else if time_state c =? TIME_DEL then
    if Z.rem (s32 (tv_sec c + 1)) 86400 =? 0
    then c <| tv_sec := s32 (tv_sec c + 1) |> <| time_state := TIME_WAIT |> else c
  else if time_state c =? TIME_OOP then c <| time_state := TIME_WAIT |>
  else if time_state c =? TIME_WAIT then
    if has (time_status c) (Z.lor STA_INS STA_DEL) then c else c <| time_state := TIME_OK |>
  else c.

Definition phase_step (c : clock) (ltemp : Z) : Z :=
  let l := if has (time_status c) STA_FLL then ltemp else sar ltemp (s32 (SHIFT_KG + time_constant c)) in
  let most := shl (MAXPHASE ÷ MINSEC) SHIFT_UPDATE in
  if most <? l then most else l.

Definition phase_adjust (c : clock) : clock :=
  let n := SHIFT_SCALE - SHIFT_HZ - SHIFT_UPDATE in
  if time_offset c <? 0 then
    let ltemp := phase_step c (s32 (- time_offset c)) in
    c <| time_offset ::= fun o => s32 (o + ltemp) |> <| time_adj := shl (- ltemp) n |>
  else
    let ltemp := phase_step c (time_offset c) in
    c <| time_offset ::= fun o => s32 (o - ltemp) |> <| time_adj := shl ltemp n |>.

Definition andn32 (x m : Z) : Z := Z.land x (Z.lnot m).

Definition pps_watchdog (c : clock) : clock :=
  let c := c <| pps_valid ::= fun v => s32 (v + 1) |> in
  if pps_valid c =? PPS_VALID then
    c <| pps_jitter := MAXTIME |> <| pps_stabil := MAXFREQ |>
      <| time_status ::= fun f =>
           andn32 f (Z.lor STA_PPSSIGNAL (Z.lor STA_PPSJITTER (Z.lor STA_PPSWANDER STA_PPSERROR))) |>
  else c.

Definition freq_adjust (c : clock) : clock :=
  let ltemp := s32 (time_freq c + pps_freq c) in
  let n := SHIFT_USEC + SHIFT_HZ - SHIFT_SCALE in
  if ltemp <? 0 then c <| time_adj ::= fun a => s32 (a - sar (s32 (- ltemp)) n) |>
  else c <| time_adj ::= fun a => s32 (a + sar ltemp n) |>.

Definition second_overflow (c : clock) : clock :=
  freq_adjust (pps_watchdog (phase_adjust (leap_second (bump_maxerror c)))).

(** ** The tick *)

(** The step of [adjtime]. *)
Definition adjtime_step (c : clock) : clock :=
  if time_adjust c =? 0 then c <| time_adjust_step := 0 |>
  else
    let st := if tickadj <? time_adjust c then tickadj
              else if time_adjust c <? - tickadj then - tickadj else time_adjust c in
    c <| time_adjust_step := st |> <| time_adjust ::= fun a => s32 (a - st) |>.

Definition update_wall_time_one_tick (c : clock) : clock :=
  let c := adjtime_step c in
  let c := c <| tv_usec ::= fun u => s32 (u + s32 (tick c + time_adjust_step c)) |> in
  let c := c <| time_phase ::= fun p => s32 (p + time_adj c) |> in
  if time_phase c <=? - FINEUSEC then
    let ltemp := sar (s32 (- time_phase c)) SHIFT_SCALE in
    c <| time_phase ::= fun p => s32 (p + shl ltemp SHIFT_SCALE) |> <| tv_usec ::= fun u => s32 (u - ltemp) |>
  else if FINEUSEC <=? time_phase c then
    let ltemp := sar (time_phase c) SHIFT_SCALE in
    c <| time_phase ::= fun p => s32 (p - shl ltemp SHIFT_SCALE) |> <| tv_usec ::= fun u => s32 (u + ltemp) |>
  else c.

(** The [do ... while (ticks)] runs [ticks] times, 2^32 times for 0. *)
Definition update_wall_time (ticks : Z) (c : clock) : clock :=
  let c := Nat.iter (Z.to_nat (u32 (ticks - 1) + 1)) update_wall_time_one_tick c in
  if 1000000 <=? tv_usec c then
    second_overflow (c <| tv_usec ::= fun u => u - 1000000 |> <| tv_sec ::= fun t => s32 (t + 1) |>)
  else c.

(** ** Load averages *)

Definition FSHIFT : Z := 11.
Definition FIXED_1 : Z := 2048.
Definition EXP_1 : Z := 1884.
Definition EXP_5 : Z := 2014.
Definition EXP_15 : Z := 2037.

Definition count_active_tasks (r : runqueue) : Z := u32 (u32 (nr_running r + nr_uninterruptible r) * FIXED_1).
Definition CALC_LOAD (load exp n : Z) : Z := Z.shiftr (u32 (u32 (load * exp) + u32 (n * (FIXED_1 - exp)))) FSHIFT.

Definition calc_load (r : runqueue) (ticks : Z) (c : clock) : clock :=
  let c := c <| load_count ::= fun n => s32 (n - ticks) |> in
  if load_count c <? 0 then
    let n := count_active_tasks r in
    let '(a1, a5, a15) := avenrun c in
    c <| load_count ::= fun n => s32 (n + LOAD_FREQ) |>
      <| avenrun := (CALC_LOAD a1 EXP_1 n, CALC_LOAD a5 EXP_5 n, CALC_LOAD a15 EXP_15 n) |>
  else c.

Definition update_times (r : runqueue) (c : clock) : clock :=
  let ticks := u32 (jiffies c - wall_jiffies c) in
  let c := if negb (ticks =? 0)
           then update_wall_time ticks (c <| wall_jiffies ::= fun w => u32 (w + ticks) |>) else c in
  calc_load r ticks c.

(** The first line of [do_timer]; [jiffies] is the low word of [jiffies_64]. *)
Definition count_jiffy (c : clock) : clock := c <| jiffies ::= fun j => u32 (j + 1) |>.

(** ** Reading and setting the time *)

(** [while (usec >= 1000000)]; [None] when [k] turns were not enough. *)
Fixpoint carry_usec (k : nat) (sec usec : Z) : option (Z * Z) :=
  if 1000000 <=? usec then
    match k with O => None | S k' => carry_usec k' (u32 (sec + 1)) (usec - 1000000) end
  else Some (sec, usec).
(** [while (tv->tv_usec < 0)] *)
Fixpoint borrow_usec (k : nat) (sec usec : Z) : option (Z * Z) :=
  if usec <? 0 then
    match k with O => None | S k' => borrow_usec k' (s32 (sec - 1)) (usec + 1000000) end
  else Some (sec, usec).
(** An unsigned long holds less than 4295 seconds of microseconds. *)
Definition USEC_FUEL : nat := 4295.

Definition lost_usec (c : clock) : Z := u32 (jiffies c - wall_jiffies c) * (1000000 ÷ HZ).

Definition do_gettimeofday (offset : Z) (c : clock) : option (Z * Z) :=
  let usec := u32 (offset + lost_usec c + tv_usec c) in
  '(sec, usec) ← carry_usec USEC_FUEL (u32 (tv_sec c)) usec;
  Some (s32 sec, usec).

(** What [do_settimeofday] and [sys_stime] do besides setting [xtime]. *)
Definition clock_was_set (c : clock) : clock :=
  c <| time_adjust := 0 |> <| time_status ::= fun f => Z.lor f STA_UNSYNC |>
    <| time_maxerror := NTP_PHASE_LIMIT |> <| time_esterror := NTP_PHASE_LIMIT |>.

Definition do_settimeofday (offset : Z) (tv : Z * Z) (c : clock) : option clock :=
  let usec := s32 (s32 (snd tv - offset) - lost_usec c) in
  '(sec, usec) ← borrow_usec USEC_FUEL (fst tv) usec;
  Some (clock_was_set (c <| tv_sec := sec |> <| tv_usec := usec |>)).

Definition sys_time (offset : Z) (tloc : user_out) (c : clock) : option Z :=
  '(sec, _) ← do_gettimeofday offset c;
  Some (match tloc with Some true => - EFAULT | _ => sec end).

Definition sys_stime (privileged : bool) (tptr : option Z) (c : clock) : clock * Z :=
  if negb privileged then (c, - EPERM)
  else match tptr with
  | None => (c, - EFAULT)
  | Some value => (clock_was_set (c <| tv_sec := value |> <| tv_usec := 0 |>), 0)
  end.

(** The time and the time zone that were stored. *)
Definition sys_gettimeofday (offset : Z) (tv tz : user_out) (c : clock)
  : option (Z * option (Z * Z) * option (Z * Z)) :=
  now ← match tv with
        | None => Some (0, None)
        | Some fault => t ← do_gettimeofday offset c;
                        Some (if fault : bool then (- EFAULT, None) else (0, Some t))
        end;
  let '(err, t) := now : Z * option (Z * Z) in
  if negb (err =? 0) then Some (err, t, None)
  else match tz with
  | None => Some (0, t, None)
  | Some true => Some (- EFAULT, t, None)
  | Some false => Some (0, t, Some (sys_tz c))
  end.

Definition warp_clock (c : clock) : clock := c <| tv_sec ::= fun s => s32 (s + s32 (fst (sys_tz c) * 60)) |>.

Definition do_sys_settimeofday (offset : Z) (privileged : bool) (tv tz : option (Z * Z)) (c : clock)
  : option (clock * Z) :=
  if negb privileged then Some (c, - EPERM)
  else
    let c1 := match tz with
              | None => c
              | Some z =>
                  let c := c <| sys_tz := z |> in
                  if firsttime c then
                    let c := c <| firsttime := false |> in
                    match tv with None => warp_clock c | Some _ => c end
                  else c
              end in
    match tv with
    | Some t => c2 ← do_settimeofday offset t c1; Some (c2, 0)
    | None => Some (c1, 0)
    end.

Definition sys_settimeofday (offset : Z) (privileged : bool) (tv tz : user_in (Z * Z)) (c : clock)
  : option (clock * Z) :=
  match tv, tz with
  | Some None, _ => Some (c, - EFAULT)
  | _, Some None => Some (c, - EFAULT)
  | _, _ => do_sys_settimeofday offset privileged (mjoin tv) (mjoin tz) c
  end.

(** ** adjtimex *)

Record timex := Timex {
  x_modes : Z;
  x_offset : Z;
  x_freq : Z;
  x_maxerror : Z;
  x_esterror : Z;
  x_status : Z;
  x_constant : Z;
  x_precision : Z;
  x_tolerance : Z;
  x_time : Z * Z;
  x_tick : Z;
  x_ppsfreq : Z;
  x_jitter : Z;
  x_shift : Z;
  x_stabil : Z;
  x_jitcnt : Z;
  x_calcnt : Z;
  x_errcnt : Z;
  x_stbcnt : Z
}.
#[export] Instance eta_timex : Eta timex := fun x =>
  Timex (x_modes x) (x_offset x) (x_freq x) (x_maxerror x) (x_esterror x) (x_status x) (x_constant x)
    (x_precision x) (x_tolerance x) (x_time x) (x_tick x) (x_ppsfreq x) (x_jitter x) (x_shift x)
    (x_stabil x) (x_jitcnt x) (x_calcnt x) (x_errcnt x) (x_stbcnt x).

(** The processing of the modes carries the clock and [result]; [inl] is [goto leave]. *)
Definition adjusting : Type := (clock * Z) + (clock * Z).
Definition adj_bind (x : adjusting) (f : clock * Z -> adjusting) : adjusting :=
  match x with inl r => inl r | inr r => f r end.
(** [if (modes & bit) { if (bad) { result = -EINVAL; goto leave; } set; }] *)
Definition adj_stage (on bad : bool) (set : clock -> clock) (r : clock * Z) : adjusting :=
  if on then if bad then inl (fst r, - EINVAL) else inr (set (fst r), snd r) else inr r.

Definition clamp (most x : Z) : Z := if most <? x then most else if x <? - most then - most else x.

(** The frequency after an offset [ltemp] over the [mtemp] seconds since the last update,
    in the frequency-lock and in the phase-lock mode. *)
Definition fll_freq (mtemp : Z) (r : clock * Z) : clock * Z :=
  let '(c, result) := r in
  if MINSEC <=? mtemp then
    let l := shl (time_offset c ÷ mtemp) (SHIFT_USEC - SHIFT_UPDATE) in
    (c <| time_freq ::= fun f => if l <? 0 then s32 (f - sar (s32 (- l)) SHIFT_KH) else s32 (f + sar l SHIFT_KH) |>,
     result)
  else (c, TIME_ERROR).
Definition pll_freq (ltemp mtemp : Z) (r : clock * Z) : clock * Z :=
  let '(c, result) := r in
  if mtemp <? MAXSEC then
    let l := s32 (ltemp * mtemp) in
    let n := s32 (time_constant c + time_constant c + SHIFT_KF - SHIFT_USEC) in
    (c <| time_freq ::= fun f => if l <? 0 then s32 (f - sar (s32 (- l)) n) else s32 (f + sar l n) |>, result)
  else (c, TIME_ERROR).

Definition adj_offset (x : timex) (r : clock * Z) : clock * Z :=
  let '(c, result) := r in
  if x_modes x =? ADJ_OFFSET_SINGLESHOT then (c <| time_adjust := x_offset x |>, result)
  else if has (time_status c) (Z.lor STA_PLL STA_PPSTIME) then
    let both := Z.lor STA_PPSTIME STA_PPSSIGNAL in
    let ltemp := if Z.land (time_status c) both =? both then pps_offset c else x_offset x in
    let c := c <| time_offset := if MAXPHASE <? ltemp then shl MAXPHASE SHIFT_UPDATE
                                 else if ltemp <? - MAXPHASE then - shl MAXPHASE SHIFT_UPDATE
                                 else shl ltemp SHIFT_UPDATE |> in
    let ref := if has (time_status c) STA_FREQHOLD || (time_reftime c =? 0) then tv_sec c else time_reftime c in
    let mtemp := s32 (tv_sec c - ref) in
    let c := c <| time_reftime := tv_sec c |> in
    let '(c, result) := if has (time_status c) STA_FLL then fll_freq mtemp (c, result)
                        else pll_freq ltemp mtemp (c, result) in
    (c <| time_freq ::= clamp time_tolerance |>, result)
  else (c, result).

Definition bad_tick (x : timex) : bool := (x_tick x <? 900000 ÷ HZ) || (1100000 ÷ HZ <? x_tick x).
Definition bad_offset (x : timex) : bool := (x_offset x <=? - MAXPHASE) || (MAXPHASE <=? x_offset x).

(** From [if (txc->modes)] to [leave]. *)
Definition adj_modes (x : timex) (c : clock) : clock * Z :=
  let mode := has (x_modes x) in
  let limit v := (v <? 0) || (NTP_PHASE_LIMIT <=? v) in
  let r := adj_bind (adj_stage (mode ADJ_STATUS) false (fun c => c <| time_status ::= fun f =>
                       Z.lor (andn32 (x_status x) STA_RONLY) (Z.land f STA_RONLY) |>) (c, time_state c)) (fun r =>
           adj_bind (adj_stage (mode ADJ_FREQUENCY) ((MAXFREQ <? x_freq x) || (x_freq x <? - MAXFREQ))
                       (fun c => c <| time_freq := s32 (x_freq x - pps_freq c) |>) r) (fun r =>
           adj_bind (adj_stage (mode ADJ_MAXERROR) (limit (x_maxerror x))
                       (fun c => c <| time_maxerror := x_maxerror x |>) r) (fun r =>
           adj_bind (adj_stage (mode ADJ_ESTERROR) (limit (x_esterror x))
                       (fun c => c <| time_esterror := x_esterror x |>) r) (fun r =>
           adj_bind (adj_stage (mode ADJ_TIMECONST) (x_constant x <? 0)
                       (fun c => c <| time_constant := x_constant x |>) r) (fun r =>
           adj_bind (inr (if mode ADJ_OFFSET then adj_offset x r else r)) (fun r =>
           adj_stage (mode ADJ_TICK) (bad_tick x) (fun c => c <| tick := x_tick x |>) r)))))) in
  match r with inl r | inr r => r end.

Definition not_synchronized (st : Z) : bool :=
  has st (Z.lor STA_UNSYNC STA_CLOCKERR)
  || (has st (Z.lor STA_PPSFREQ STA_PPSTIME) && negb (has st STA_PPSSIGNAL))
  || (Z.land st (Z.lor STA_PPSTIME STA_PPSJITTER) =? Z.lor STA_PPSTIME STA_PPSJITTER)
  || (has st STA_PPSFREQ && has st (Z.lor STA_PPSWANDER STA_PPSERROR)).

(** The fields that [leave:] stores; the shift and the counters of the PPS code keep
    their initial values, no code of the kernel assigns them. *)
Definition adj_report (x : timex) (save_adjust : Z) (c : clock) : timex :=
  let offset := if Z.land (x_modes x) ADJ_OFFSET_SINGLESHOT =? ADJ_OFFSET_SINGLESHOT then save_adjust
                else if time_offset c <? 0 then s32 (- sar (s32 (- time_offset c)) SHIFT_UPDATE)
                else sar (time_offset c) SHIFT_UPDATE in
  Timex (x_modes x) offset (s32 (time_freq c + pps_freq c)) (time_maxerror c) (time_esterror c) (time_status c)
    (time_constant c) time_precision time_tolerance (x_time x) (tick c) (pps_freq c)
    (sar (pps_jitter c) PPS_AVG) PPS_SHIFT (pps_stabil c) 0 0 0 0.

Definition do_adjtimex (offset : Z) (privileged : bool) (x : timex) (c : clock) : option (clock * Z * timex) :=
  let single := Z.land (x_modes x) ADJ_OFFSET_SINGLESHOT =? ADJ_OFFSET_SINGLESHOT in
  if negb (x_modes x =? 0) && negb privileged then Some (c, - EPERM, x)
  else if single && negb (x_modes x =? ADJ_OFFSET_SINGLESHOT) then Some (c, - EINVAL, x)
  else if negb (x_modes x =? ADJ_OFFSET_SINGLESHOT) && has (x_modes x) ADJ_OFFSET && bad_offset x
  then Some (c, - EINVAL, x)
  else if has (x_modes x) ADJ_TICK && bad_tick x then Some (c, - EINVAL, x)
  else
    let '(c1, result) := if negb (x_modes x =? 0) then adj_modes x c else (c, time_state c) in
    let result := if not_synchronized (time_status c1) then TIME_ERROR else result in
    now ← do_gettimeofday offset c1;
    Some (c1, result, (adj_report x (time_adjust c) c1) <| x_time := now |>).

(** The structure is copied back also when the call is refused. *)
Definition sys_adjtimex (offset : Z) (privileged : bool) (txc_p : option timex) (fault_out : bool) (c : clock)
  : option (clock * Z * option timex) :=
  match txc_p with
  | None => Some (c, - EFAULT, None)
  | Some x =>
      '(c1, ret, x1) ← do_adjtimex offset privileged x c;
      Some (if fault_out then (c1, - EFAULT, None) else (c1, ret, Some x1))
  end.
