(* ===== verification/ClockTheorems.v ===== *)
(** * The wall clock runs forward

    [clock_ok] bounds the variables of the clock; [kstep] are the operations that change
    them, timer interrupts and the delayed updates of the wall time among them.  The
    clock stays within the bounds, moves forward by the period of the ticks give or take
    the adjustments, and loses no fraction of a microsecond. *)
From stdpp Require Import base list option relations.
From S2P Require Import Prelude Sched Limits SigCalls Clock.

(** ** Arithmetic of the shifts *)

Definition MAX_OFFSET : Z := 512000 * 2 ^ 12.
Definition MAX_STEP : Z := 32000 * 2 ^ 12.
Definition MAX_ADJ : Z := 2 * MAX_STEP + 2 ^ 22.

Ltac kconst := unfold MAX_ADJ, MAX_OFFSET, MAX_STEP, NTP_PHASE_LIMIT, MAXPHASE, MAXFREQ, FINEUSEC, HZ, tickadj,
  time_tolerance in *; change (500 ÷ 512 =? 0) with true in *; cbn iota in *.

Lemma sar_le x n : 0 <= x -> 0 <= sar x n <= x.
Proof.
  intros Hx. unfold sar. assert (0 <= Z.land n 31) by (apply Z.land_nonneg; lia).
  rewrite Z.shiftr_div_pow2 by done. pose proof (Z.pow_pos_nonneg 2 (Z.land n 31)) as Hp.
  split; [apply Z.div_pos; lia|]. apply Z.div_le_upper_bound; nia.
Qed.

Lemma sar_div x n d : Z.land n 31 = n -> 2 ^ n = d -> 0 <= n -> sar x n = x `div` d.
Proof. intros E <- Hn. unfold sar. rewrite E. by apply Z.shiftr_div_pow2. Qed.

Lemma shl_mul x n d : Z.land n 31 = n -> 2 ^ n = d -> 0 <= n -> shl x n = s32 (x * d).
Proof. intros E <- Hn. unfold shl. rewrite E. by rewrite Z.shiftl_mul_pow2. Qed.

(** ** The invariant *)

(** [B] is a bound on the microseconds of xtime: a million, unless a time was set that has more. *)
Section clock.
Context (B : Z) (HB : 1000000 <= B <= 2 ^ 30).

Record clock_ok (c : clock) : Prop := ClockOk {
  ok_tick : 1757 <= tick c <= 2148;
  ok_usec : 0 <= tv_usec c < B;
  ok_offset : - MAX_OFFSET <= time_offset c <= MAX_OFFSET;
  ok_freq : - MAXFREQ <= time_freq c <= MAXFREQ;
  ok_pps : pps_freq c = 0;
  ok_adj : - MAX_ADJ <= time_adj c <= MAX_ADJ;
  ok_phase : - FINEUSEC < time_phase c < FINEUSEC;
  ok_state : 0 <= time_state c <= 4;
  ok_maxerror : 0 <= time_maxerror c <= NTP_PHASE_LIMIT;
  ok_adjust : - 2 ^ 31 <= time_adjust c < 2 ^ 31
}.

(** [clock_ok] but for the microseconds, which a tick may carry beyond a second. *)
Definition clock_core (c : clock) : Prop := clock_ok (c <| tv_usec := 0 |>).

Lemma core_of c : clock_ok c -> clock_core c.
Proof. intros []. split; simpl; done || lia. Qed.
Lemma ok_of c : clock_core c -> 0 <= tv_usec c < B -> clock_ok c.
Proof. intros [] ?. by split. Qed.

(** ** One second *)

Lemma core_bump c : clock_core c -> clock_core (bump_maxerror c).
Proof.
  intros []. unfold bump_maxerror. change (sar time_tolerance SHIFT_USEC) with 512. kconst. simpl in *.
  rewrite s32_small by lia. case_match eqn:E; b2p; split; simpl; kconst; lia || done.
Qed.

Lemma core_leap c : clock_core c -> clock_core (leap_second c).
Proof.
  intros []. unfold leap_second. repeat case_match; split; simpl in *; done || (unfold TIME_OOP, TIME_WAIT, TIME_INS, TIME_DEL, TIME_OK; lia).
Qed.

Lemma phase_step_range c x : 0 <= x -> 0 <= phase_step c x <= x /\ phase_step c x <= MAX_STEP.
Proof.
  intros Hx. unfold phase_step. change (shl (MAXPHASE ÷ MINSEC) SHIFT_UPDATE) with MAX_STEP.
  pose proof (sar_le x (s32 (SHIFT_KG + time_constant c)) Hx) as Hs. revert Hs.
  generalize (sar x (s32 (SHIFT_KG + time_constant c))). intros y Hs.
  destruct (has (time_status c) STA_FLL); destruct (Z.ltb_spec MAX_STEP x), (Z.ltb_spec MAX_STEP y); kconst; lia.
Qed.

(** After the phase step the adjustment leaves room for the frequency's. *)
Lemma core_phase c : clock_core c ->
  clock_core (phase_adjust c) /\ - (2 * MAX_STEP) <= time_adj (phase_adjust c) <= 2 * MAX_STEP.
Proof.
  intros []. unfold phase_adjust. simpl in *.
  assert (Hsh : forall x, - MAX_STEP <= x <= MAX_STEP -> shl x (SHIFT_SCALE - SHIFT_HZ - SHIFT_UPDATE) = x * 2).
  { intros x Hx. rewrite (shl_mul x _ 2); [|done..]. apply s32_small. kconst. lia. }
  destruct (Z.ltb_spec (time_offset c) 0).
  - rewrite (s32_small (- time_offset c)) by (kconst; lia).
    pose proof (phase_step_range c (- time_offset c)) as Hp. rewrite Hsh by lia.
    rewrite (s32_small (_ + _)) by (kconst; lia). split; [|simpl; lia].
    split; simpl; kconst; lia || done.
  - pose proof (phase_step_range c (time_offset c)) as Hp. rewrite Hsh by lia.
    rewrite (s32_small (_ - _)) by (kconst; lia). split; [|simpl; lia].
    split; simpl; kconst; lia || done.
Qed.

Lemma core_watchdog c : clock_core c ->
  clock_core (pps_watchdog c) /\ time_adj (pps_watchdog c) = time_adj c.
Proof. intros []. unfold pps_watchdog. case_match; (split; [by split|done]). Qed.

Lemma core_freq c : clock_core c -> - (2 * MAX_STEP) <= time_adj c <= 2 * MAX_STEP -> clock_core (freq_adjust c).
Proof.
  intros [] Ha. unfold freq_adjust. simpl in *. rewrite ok_pps0, Z.add_0_r.
  rewrite (s32_small (time_freq c)) by (kconst; lia).
  assert (Hsar : forall x, 0 <= x <= MAXFREQ -> 0 <= sar x (SHIFT_USEC + SHIFT_HZ - SHIFT_SCALE) <= 2 ^ 22).
  { intros x Hx. rewrite (sar_div x _ 8) by done. kconst. split; [apply Z.div_pos; lia|].
    apply Z.div_le_upper_bound; lia. }
  destruct (Z.ltb_spec (time_freq c) 0).
  - rewrite (s32_small (- time_freq c)) by (kconst; lia). pose proof (Hsar (- time_freq c)) as Hs.
    rewrite s32_small by (kconst; lia). split; simpl; kconst; lia || done.
  - pose proof (Hsar (time_freq c)) as Hs.
    rewrite s32_small by (kconst; lia). split; simpl; kconst; lia || done.
Qed.

Lemma core_second c : clock_core c -> clock_core (second_overflow c).
Proof.
  intros Hc. unfold second_overflow. destruct (core_phase _ (core_leap _ (core_bump _ Hc))) as [Hp Ha].
  destruct (core_watchdog _ Hp) as [Hw E]. apply core_freq; [done|]. by rewrite E.
Qed.

(** ** One tick *)

(** The time of the second in units of 2^-22 microseconds. *)
Definition fine (c : clock) : Z := tv_usec c * FINEUSEC + time_phase c.

(** The clock moves by the tick, the step of adjtime and the phase adjustment, exactly. *)
Lemma one_tick_spec c : clock_core c -> 0 <= tv_usec c < 2 ^ 30 + 2 ^ 20 ->
  let c' := update_wall_time_one_tick c in
  clock_core c' /\ tv_sec c' = tv_sec c /\ tick c' = tick c /\ time_adj c' = time_adj c /\
  - 1 <= time_adjust c - time_adjust c' <= 1 /\
  time_adjust c' = (if 0 <? time_adjust c then time_adjust c - 1 else if time_adjust c <? 0 then time_adjust c + 1 else 0) /\
  fine c' = fine c + tick c * FINEUSEC + time_adj c + (time_adjust c - time_adjust c') * FINEUSEC /\
  tv_usec c + 1692 <= tv_usec c' <= tv_usec c + 2213 /\
  time_state c' = time_state c /\ jiffies c' = jiffies c /\ wall_jiffies c' = wall_jiffies c.
Proof.
  intros [] Hu. simpl in *. unfold update_wall_time_one_tick.
  set (c1 := adjtime_step c).
  assert (Hadj : c1 = c <| time_adjust_step := time_adjust_step c1 |> <| time_adjust := time_adjust c1 |> /\
    time_adjust_step c1 = time_adjust c - time_adjust c1 /\ - 1 <= time_adjust c - time_adjust c1 <= 1 /\
    time_adjust c1 = if 0 <? time_adjust c then time_adjust c - 1 else if time_adjust c <? 0 then time_adjust c + 1 else 0).
  { subst c1. unfold adjtime_step. kconst. destruct c; simpl in *.
    destruct (Z.eqb_spec time_adjust 0) as [->|]; [by repeat split|].
    destruct (Z.ltb_spec 1 time_adjust), (Z.ltb_spec time_adjust (Z.opp 1)); simpl; try lia;
      (rewrite s32_small by lia); repeat split; try lia; destruct (Z.ltb_spec 0 time_adjust), (Z.ltb_spec time_adjust 0); lia. }
  clearbody c1. destruct Hadj as (Hc1 & Hst & Hb & Ha). rewrite Hc1. clear Hc1.
  revert Hst Hb Ha. generalize (time_adjust_step c1), (time_adjust c1). clear c1. intros st adj -> Hb Ha. simpl.
  assert (Hadj : - 2 ^ 31 <= adj < 2 ^ 31).
  { subst adj. destruct (Z.ltb_spec 0 (time_adjust c)), (Z.ltb_spec (time_adjust c) 0); lia. }
  rewrite (s32_small (tick c + _)) by lia. rewrite (s32_small (tv_usec c + _)) by lia.
  rewrite (s32_small (time_phase c + _)) by (kconst; lia).
  set (p := time_phase c + time_adj c).
  assert (Hp : - (2 * MAX_STEP + 2 * 2 ^ 22) < p < 2 * MAX_STEP + 2 * 2 ^ 22) by (subst p; kconst; lia).
  set (u := tv_usec c + (tick c + (time_adjust c - adj))).
  assert (Hdiv : forall x, sar x SHIFT_SCALE = x `div` 2 ^ 22) by (intros x; by apply sar_div).
  assert (Hmul : forall x, 0 <= x <= 64 -> shl x SHIFT_SCALE = x * 2 ^ 22).
  { intros x Hx. rewrite (shl_mul x _ (2 ^ 22)); [|done..]. apply s32_small. lia. }
  assert (Hq : forall x, 0 <= x < 2 * MAX_STEP + 2 * 2 ^ 22 ->
    0 <= x `div` 2 ^ 22 <= 64 /\ 0 <= x - x `div` 2 ^ 22 * 2 ^ 22 < 2 ^ 22).
  { intros x Hx. pose proof (Z.div_mod x (2 ^ 22)). pose proof (Z.mod_pos_bound x (2 ^ 22)).
    split; [|lia]. split; [apply Z.div_pos; lia|]. enough (x `div` 2 ^ 22 < 65) by lia.
    apply Z.div_lt_upper_bound; [lia|]. kconst. lia. }
  destruct (Z.leb_spec p (- FINEUSEC)); [|destruct (Z.leb_spec FINEUSEC p)].
  - simpl. rewrite (s32_small (- p)) by (kconst; lia). rewrite Hdiv. destruct (Hq (- p)) as [Q1 Q2]; [kconst; lia|].
    rewrite Hmul by done. rewrite (s32_small (u - _)) by (subst u; lia).
    rewrite (s32_small (p + _)) by (kconst; lia). unfold fine. simpl. subst u p.
    repeat split; simpl; kconst; try lia; done.
  - simpl. rewrite Hdiv. destruct (Hq p) as [Q1 Q2]; [kconst; lia|].
    rewrite Hmul by done. rewrite (s32_small (u + _)) by (subst u; lia).
    rewrite (s32_small (p - _)) by (kconst; lia). unfold fine. simpl. subst u p.
    repeat split; simpl; kconst; try lia; done.
  - unfold fine. simpl. subst u p. repeat split; simpl; kconst; try lia; done.
Qed.

(** What is left of an adjustment [a] after [n] ticks. *)
Definition adjust_left (a n : Z) : Z := if 0 <? a then Z.max 0 (a - n) else Z.min 0 (a + n).

Lemma adjust_left_next a n : 0 <= n ->
  adjust_left a (n + 1) = let b := adjust_left a n in if 0 <? b then b - 1 else if b <? 0 then b + 1 else 0.
Proof.
  intros Hn. unfold adjust_left. cbv zeta. destruct (Z.ltb_spec 0 a).
  - destruct (Z.ltb_spec 0 (Z.max 0 (a - n))), (Z.ltb_spec (Z.max 0 (a - n)) 0); lia.
  - destruct (Z.ltb_spec 0 (Z.min 0 (a + n))), (Z.ltb_spec (Z.min 0 (a + n)) 0); lia.
Qed.

Lemma ticks_spec n c : clock_core c -> 0 <= tv_usec c -> tv_usec c + 2213 * Z.of_nat n < 2 ^ 30 + 2 ^ 20 ->
  let c' := Nat.iter n update_wall_time_one_tick c in
  clock_core c' /\ tv_sec c' = tv_sec c /\ tick c' = tick c /\ time_adj c' = time_adj c /\
  time_adjust c' = adjust_left (time_adjust c) (Z.of_nat n) /\
  fine c' = fine c + Z.of_nat n * (tick c * FINEUSEC + time_adj c) + (time_adjust c - time_adjust c') * FINEUSEC /\
  tv_usec c + 1692 * Z.of_nat n <= tv_usec c' <= tv_usec c + 2213 * Z.of_nat n /\
  time_state c' = time_state c /\ jiffies c' = jiffies c /\ wall_jiffies c' = wall_jiffies c.
Proof.
  intros Hc Hu. induction n as [|n IH]; intros Hn; cbv zeta.
  - cbn [Nat.iter nat_rect]. unfold adjust_left. change (Z.of_nat 0) with 0. split; [done|]. repeat split; try lia.
    destruct (Z.ltb_spec 0 (time_adjust c)); lia.
  - rewrite Nat2Z.inj_succ in *. destruct IH as (I1 & I2 & I3 & I4 & I5 & I6 & I7 & I8 & I9 & I10); [lia|].
    change (Nat.iter (S n) update_wall_time_one_tick c)
      with (update_wall_time_one_tick (Nat.iter n update_wall_time_one_tick c)).
    revert I1 I2 I3 I4 I5 I6 I7 I8 I9 I10. generalize (Nat.iter n update_wall_time_one_tick c). intros d. intros.
    destruct (one_tick_spec d I1) as (O1 & O2 & O3 & O4 & O5 & O6 & O7 & O8 & O9 & O10 & O11); [lia|].
    rewrite O2, O3, O4, O9, O10, O11. rewrite O7, O6, I6, I5, I3, I4.
    replace (Z.succ (Z.of_nat n)) with (Z.of_nat n + 1) by lia. rewrite adjust_left_next by lia. cbv zeta.
    split; [done|]. repeat split; lia.
Qed.

Lemma ticks_count n : 0 < n < 2 ^ 32 -> Z.to_nat (u32 (n - 1) + 1) = Z.to_nat n.
Proof. intros. rewrite u32_small by lia. f_equal. lia. Qed.

(** The time in microseconds. *)
Definition now_us (c : clock) : Z := tv_sec c * 1000000 + tv_usec c.
(** The seconds that a leap second adds or takes. *)
Definition leaps (c : clock) (d : Z) : Prop :=
  d = 0 \/ d = -1 /\ time_state c = TIME_INS \/ d = 1 /\ time_state c = TIME_DEL.

Lemma second_keeps c : clock_core c -> - 2 ^ 31 < tv_sec c < 2 ^ 31 - 1 ->
  let c' := second_overflow c in
  tv_usec c' = tv_usec c /\ jiffies c' = jiffies c /\ wall_jiffies c' = wall_jiffies c /\
  exists d, leaps c d /\ tv_sec c' = tv_sec c + d.
Proof.
  intros Hc Hs. cbv zeta.
  assert (Hf : forall c, tv_usec (freq_adjust c) = tv_usec c /\ jiffies (freq_adjust c) = jiffies c /\
    wall_jiffies (freq_adjust c) = wall_jiffies c /\ tv_sec (freq_adjust c) = tv_sec c)
    by (intros d; unfold freq_adjust; by case_match).
  assert (Hw : forall c, tv_usec (pps_watchdog c) = tv_usec c /\ jiffies (pps_watchdog c) = jiffies c /\
    wall_jiffies (pps_watchdog c) = wall_jiffies c /\ tv_sec (pps_watchdog c) = tv_sec c)
    by (intros d; unfold pps_watchdog; by case_match).
  assert (Hp : forall c, tv_usec (phase_adjust c) = tv_usec c /\ jiffies (phase_adjust c) = jiffies c /\
    wall_jiffies (phase_adjust c) = wall_jiffies c /\ tv_sec (phase_adjust c) = tv_sec c)
    by (intros d; unfold phase_adjust; by case_match).
  assert (Hb : tv_usec (bump_maxerror c) = tv_usec c /\ jiffies (bump_maxerror c) = jiffies c /\
    wall_jiffies (bump_maxerror c) = wall_jiffies c /\ tv_sec (bump_maxerror c) = tv_sec c /\
    time_state (bump_maxerror c) = time_state c) by (unfold bump_maxerror; by case_match).
  unfold second_overflow. destruct Hb as (Hb1 & Hb2 & Hb3 & Hb4 & Hb5).
  set (b := bump_maxerror c) in *. clearbody b.
  destruct (Hf (pps_watchdog (phase_adjust (leap_second b)))) as (-> & -> & -> & ->).
  destruct (Hw (phase_adjust (leap_second b))) as (-> & -> & -> & ->).
  destruct (Hp (leap_second b)) as (-> & -> & -> & ->).
  rewrite <- Hb1, <- Hb2, <- Hb3, <- Hb4. unfold leaps. rewrite <- Hb5. unfold leap_second.
  repeat case_match; b2p; simpl; rewrite ?s32_small by lia;
    repeat split; try done; first [by exists 0; split; [by left|lia] | by exists (-1); split; [right; by left|lia]
                                   | by exists 1; split; [right; by right|lia]].
Qed.

(** ** Updates of the wall time *)

(** The updates may be delayed by up to [MAX_LOST] ticks, most of a second. *)
Definition MAX_LOST : Z := 451.
Definition lost (c : clock) : Z := u32 (jiffies c - wall_jiffies c).

Lemma load_keeps r n c : let c' := calc_load r n c in
  c' = c <| load_count := load_count c' |> <| avenrun := avenrun c' |>.
Proof. unfold calc_load. destruct c, avenrun as [[a1 a5] a15]. simpl. by case_match. Qed.

Lemma wall_time_spec n c : clock_ok c -> 0 < n <= MAX_LOST -> - 2 ^ 31 <= tv_sec c < 2 ^ 31 - 2 ->
  let c' := update_wall_time n c in
  clock_ok c' /\ jiffies c' = jiffies c /\ wall_jiffies c' = wall_jiffies c /\
  exists d, leaps c d /\ 1692 * n <= now_us c' - now_us c - d * 1000000 <= 2213 * n.
Proof.
  unfold MAX_LOST. intros Hc Hn Hs. cbv zeta. unfold update_wall_time. rewrite ticks_count by lia.
  pose proof (ok_usec _ Hc) as Hu.
  destruct (ticks_spec (Z.to_nat n) c (core_of _ Hc)) as (T1 & T2 & T3 & T4 & _ & _ & T7 & T8 & T9 & T10); [lia..|].
  rewrite Z2Nat.id in T7 by lia. revert T1 T2 T3 T4 T7 T8 T9 T10.
  generalize (Nat.iter (Z.to_nat n) update_wall_time_one_tick c). intros b. intros.
  destruct (Z.leb_spec 1000000 (tv_usec b)) as [Hb|Hb].
  - set (b' := b <| tv_usec ::= fun u => u - 1000000 |> <| tv_sec ::= fun t => s32 (t + 1) |>).
    assert (Hc' : clock_core b') by (destruct T1; by split).
    assert (Hsec : tv_sec b' = tv_sec c + 1) by (simpl; rewrite T2; apply s32_small; lia).
    destruct (second_keeps b' Hc') as (S1 & S2 & S3 & d & Hd & S4); [lia|].
    rewrite S2, S3. change (tv_usec b') with (tv_usec b - 1000000) in S1. split; [|split; [done|split; [done|]]].
    + apply ok_of; [by apply core_second|]. rewrite S1. lia.
    + exists d. split; [unfold leaps in *; simpl in Hd; by rewrite <- T8|]. unfold now_us. lia.
  - split; [by apply ok_of; [|lia]|]. split; [done|]. split; [done|].
    exists 0. split; [by left|]. unfold now_us. lia.
Qed.

Lemma update_times_spec r c : clock_ok c -> lost c <= MAX_LOST -> - 2 ^ 31 <= tv_sec c < 2 ^ 31 - 2 ->
  let c' := update_times r c in
  clock_ok c' /\ lost c' = 0 /\
  exists d, leaps c d /\ 1692 * lost c <= now_us c' - now_us c - d * 1000000 <= 2213 * lost c.
Proof.
  intros Hc Hl Hs. cbv zeta. unfold update_times. fold (lost c).
  pose proof (u32_range (jiffies c - wall_jiffies c)) as Hr. fold (lost c) in Hr.
  assert (Hload : forall b, (clock_ok b /\ lost b = 0 /\
      exists d, leaps c d /\ 1692 * lost c <= now_us b - now_us c - d * 1000000 <= 2213 * lost c) ->
    clock_ok (calc_load r (lost c) b) /\ lost (calc_load r (lost c) b) = 0 /\
      exists d, leaps c d /\ 1692 * lost c <= now_us (calc_load r (lost c) b) - now_us c - d * 1000000 <= 2213 * lost c).
  { intros b ([] & H2 & H3). rewrite (load_keeps r (lost c) b). by split. }
  apply Hload. destruct (Z.eqb_spec (lost c) 0) as [E|E]; simpl negb; cbn iota.
  - split; [done|]. split; [done|]. exists 0. split; [by left|]. lia.
  - set (b := c <| wall_jiffies ::= fun w => u32 (w + lost c) |>).
    destruct (wall_time_spec (lost c) b) as (W1 & W2 & W3 & W4); [by destruct Hc|lia|done|].
    split; [done|]. split; [|done]. unfold lost at 1. rewrite W2, W3. simpl. unfold lost, u32.
    rewrite Zplus_mod_idemp_r, Zminus_mod_idemp_r.
    replace (jiffies c - (wall_jiffies c + (jiffies c - wall_jiffies c))) with 0 by lia. done.
Qed.

(** ** The calls *)

Lemma u32_idemp_add x y : u32 (u32 x + y) = u32 (x + y).
Proof. apply Zplus_mod_idemp_l. Qed.

Lemma carry_spec k : forall sec usec, 0 <= usec < (Z.of_nat k + 1) * 1000000 ->
  carry_usec k (u32 sec) usec = Some (u32 (sec + usec `div` 1000000), usec `mod` 1000000).
Proof.
  induction k as [|k IH]; intros sec usec Hu; cbn [carry_usec]; destruct (Z.leb_spec 1000000 usec); try lia.
  - rewrite Z.div_small, Z.mod_small, Z.add_0_r by lia. done.
  - rewrite u32_idemp_add, IH by lia. do 2 f_equal.
    + f_equal. replace usec with (usec - 1000000 + 1 * 1000000) at 2 by lia. rewrite Z.div_add by lia. lia.
    + replace usec with (usec - 1000000 + 1 * 1000000) at 2 by lia. by rewrite Z.mod_add by lia.
  - rewrite Z.div_small, Z.mod_small, Z.add_0_r by lia. done.
Qed.

Lemma s32_idemp_sub x y : s32 (s32 x - y) = s32 (x - y).
Proof.
  unfold s32. f_equal. replace ((x + 2 ^ 31) `mod` 2 ^ 32 - 2 ^ 31 - y + 2 ^ 31) with ((x + 2 ^ 31) `mod` 2 ^ 32 - y) by lia.
  rewrite Zminus_mod_idemp_l. f_equal. lia.
Qed.

Lemma borrow_spec k : forall sec usec, - Z.of_nat k * 1000000 <= usec < 1000000 ->
  borrow_usec k (s32 sec) usec = Some (s32 (sec + usec `div` 1000000), usec `mod` 1000000).
Proof.
  induction k as [|k IH]; intros sec usec Hu; cbn [borrow_usec]; destruct (Z.ltb_spec usec 0); try lia.
  - rewrite Z.div_small, Z.mod_small, Z.add_0_r by lia. done.
  - rewrite s32_idemp_sub. rewrite IH by lia. do 2 f_equal.
    + f_equal. replace (usec + 1000000) with (usec + 1 * 1000000) by lia. rewrite Z.div_add by lia. lia.
    + replace (usec + 1000000) with (usec + 1 * 1000000) by lia. by rewrite Z.mod_add by lia.
  - rewrite Z.div_small, Z.mod_small, Z.add_0_r by lia. done.
Qed.

(** The time of day is [xtime] with the hardware's offset and the lost ticks added. *)
Lemma gettimeofday_spec offset c : exists usec, 0 <= usec < 2 ^ 32 /\
  usec = u32 (offset + lost_usec c + tv_usec c) /\
  do_gettimeofday offset c = Some (s32 (u32 (tv_sec c + usec `div` 1000000)), usec `mod` 1000000).
Proof.
  exists (u32 (offset + lost_usec c + tv_usec c)). pose proof (u32_range (offset + lost_usec c + tv_usec c)) as Hu.
  split; [done|]. split; [done|]. unfold do_gettimeofday. rewrite carry_spec; [done|].
  change (Z.of_nat USEC_FUEL) with 4295. lia.
Qed.

Lemma lost_usec_range c : lost c <= MAX_LOST -> 0 <= lost_usec c <= 880803.
Proof.
  unfold MAX_LOST, lost_usec, lost. pose proof (u32_range (jiffies c - wall_jiffies c)).
  change (1000000 ÷ HZ) with 1953. lia.
Qed.

Lemma borrow_range k : forall sec usec, - Z.of_nat k * 1000000 <= usec < B ->
  exists sec' usec', borrow_usec k sec usec = Some (sec', usec') /\ 0 <= usec' < B.
Proof.
  induction k as [|k IH]; intros sec usec Hu; cbn [borrow_usec]; destruct (Z.ltb_spec usec 0); try lia.
  - do 2 eexists. split; [done|lia].
  - apply IH. lia.
  - do 2 eexists. split; [done|lia].
Qed.

Lemma settimeofday_range offset sec usec c : lost c <= MAX_LOST -> 0 <= offset < 2 ^ 30 -> - 2 ^ 29 <= usec < B ->
  exists sec' usec', do_settimeofday offset (sec, usec) c = Some (clock_was_set (c <| tv_sec := sec' |> <| tv_usec := usec' |>)) /\ 0 <= usec' < B.
Proof.
  intros Hl Ho Hu. unfold do_settimeofday. cbn [fst snd]. pose proof (lost_usec_range c Hl).
  rewrite s32_idemp_sub, (s32_small (usec - offset - _)) by lia.
  destruct (borrow_range USEC_FUEL sec (usec - offset - lost_usec c)) as (sec' & usec' & -> & Hr); [change (Z.of_nat USEC_FUEL) with 4295; lia|].
  by exists sec', usec'.
Qed.

Lemma settimeofday_spec offset sec usec c : lost c <= MAX_LOST -> 0 <= offset < 2 ^ 30 -> 0 <= usec < 1000000 ->
  let u := usec - offset - lost_usec c in
  do_settimeofday offset (s32 sec, usec) c =
    Some (clock_was_set (c <| tv_sec := s32 (sec + u `div` 1000000) |> <| tv_usec := u `mod` 1000000 |>)).
Proof.
  intros Hl Ho Hu. cbv zeta. unfold do_settimeofday. cbn [fst snd]. pose proof (lost_usec_range c Hl).
  rewrite s32_idemp_sub, (s32_small (usec - offset - _)) by lia. rewrite borrow_spec; [done|].
  change (Z.of_nat USEC_FUEL) with 4295. lia.
Qed.

Lemma ok_was_set c : clock_ok c -> clock_ok (clock_was_set c).
Proof. intros []. split; simpl; kconst; done || lia. Qed.

(** A stage of adjtimex keeps a property of the clock that its assignment keeps. *)
Lemma adj_stage_ok (P : clock -> Prop) on bad set r :
  P (fst r) -> (bad = false -> P (set (fst r))) ->
  match adj_stage on bad set r with inl r' | inr r' => P (fst r') end.
Proof. intros Hp Hs. unfold adj_stage. destruct on, bad; simpl; auto. Qed.

Lemma adj_bind_ok (P : clock -> Prop) x f :
  match x with inl r | inr r => P (fst r) end ->
  (forall r, P (fst r) -> match f r with inl r' | inr r' => P (fst r') end) ->
  match adj_bind x f with inl r | inr r => P (fst r) end.
Proof. intros H Hf. destruct x as [r|r]; [exact H|exact (Hf r H)]. Qed.

(** The bounds and the time of the tick. *)
Definition adj_good (c0 c : clock) : Prop :=
  clock_ok c /\ jiffies c = jiffies c0 /\ wall_jiffies c = wall_jiffies c0 /\ tv_sec c = tv_sec c0.

Lemma clamp_range m x : 0 <= m -> - m <= clamp m x <= m.
Proof. unfold clamp. intros. destruct (Z.ltb_spec m x), (Z.ltb_spec x (- m)); lia. Qed.

Lemma adj_offset_good x r c0 : - 2 ^ 31 <= x_offset x < 2 ^ 31 -> adj_good c0 (fst r) ->
  adj_good c0 (fst (adj_offset x r)).
Proof.
  intros Hx ([] & Hj & Hw & Hs). destruct r as [c result]. simpl in *. unfold adj_offset.
  case_match; [by split|]. case_match; [|by split].
  set (ltemp := if _ =? _ then _ else _).
  set (off := if MAXPHASE <? ltemp then _ else _).
  assert (Ho : - MAX_OFFSET <= off <= MAX_OFFSET).
  { subst off. destruct (Z.ltb_spec MAXPHASE ltemp); [done|].
    change (- shl MAXPHASE SHIFT_UPDATE) with (- MAX_OFFSET).
    destruct (Z.ltb_spec ltemp (- MAXPHASE)); [done|].
    rewrite (shl_mul ltemp _ (2 ^ 12)) by done. rewrite s32_small; kconst; lia. }
  clearbody off ltemp.
  set (ref := if _ || _ then _ else _). clearbody ref. cbv zeta.
  assert (Hfin : forall c', adj_good c0 (c' <| time_freq := 0 |>) -> adj_good c0 (c' <| time_freq ::= clamp time_tolerance |>)).
  { intros c' ([] & ? & ? & ?). simpl in *. split; [|done]. split; simpl; try done.
    apply clamp_range. kconst. lia. }
  match goal with |- adj_good c0 (fst (match ?R with _ => _ end)) =>
    enough (H1 : adj_good c0 ((fst R) <| time_freq := 0 |>)) by (destruct R as [c1 res]; exact (Hfin c1 H1)) end.
  unfold fll_freq, pll_freq. destruct (has _ STA_FLL); [destruct (MINSEC <=? _)|destruct (_ <? MAXSEC)];
    (split; [|done]); split; simpl; done || (kconst; lia).
Qed.

Lemma adj_modes_good x c : - 2 ^ 31 <= x_offset x < 2 ^ 31 -> clock_ok c -> adj_good c (fst (adj_modes x c)).
Proof.
  intros Hx Hc. assert (Hg : adj_good c c) by by split_and!. unfold adj_modes. cbv zeta.
  match goal with |- adj_good c (fst (match ?y with _ => _ end)) =>
    enough (match y with inl r | inr r => adj_good c (fst r) end) by (by destruct y) end.
  apply adj_bind_ok; [apply adj_stage_ok; [done|]|intros r1 H1].
  { destruct Hg as ([] & Hg). intros _. by split. }
  apply adj_bind_ok; [apply adj_stage_ok; [done|]|intros r2 H2].
  { destruct H1 as ([] & H1). intros H. split; [|done]. b2p. split; simpl; try done. rewrite ok_pps0.
    rewrite s32_small; kconst; lia. }
  apply adj_bind_ok; [apply adj_stage_ok; [done|]|intros r3 H3].
  { destruct H2 as ([] & H2). intros H. split; [|done]. b2p. split; simpl; try done. lia. }
  apply adj_bind_ok; [apply adj_stage_ok; [done|]|intros r4 H4].
  { destruct H3 as ([] & H3). intros H. by split. }
  apply adj_bind_ok; [apply adj_stage_ok; [done|]|intros r5 H5].
  { destruct H4 as ([] & H4). intros H. by split. }
  apply adj_bind_ok; [|intros r6 H6].
  { destruct (has (x_modes x) ADJ_OFFSET); [by apply adj_offset_good|done]. }
  apply adj_stage_ok; [done|].
  destruct H6 as ([] & H6). unfold bad_tick. intros H. split; [|done]. b2p. split; simpl; try done.
Qed.

(** ** Histories of the clock *)

(** Timer interrupts, updates delayed by at most [MAX_LOST] ticks, and the calls; a time that is set has
    fewer than [B] microseconds (sys_settimeofday does not check them), and not so many below
    zero that they overflow. *)
Inductive kstep : clock -> clock -> Prop :=
  | k_jiffy c : lost c < MAX_LOST -> kstep c (count_jiffy c)
  | k_update r c : - 2 ^ 31 <= tv_sec c < 2 ^ 31 - 2 -> kstep c (update_times r c)
  | k_stime privileged t c : kstep c (fst (sys_stime privileged t c))
  | k_settimeofday offset privileged tv tz c c' ret :
      0 <= offset < 2 ^ 30 -> (forall sec usec, tv = Some (Some (sec, usec)) -> - 2 ^ 29 <= usec < B) ->
      sys_settimeofday offset privileged tv tz c = Some (c', ret) -> kstep c c'
  | k_adjtimex offset privileged x fault c c' ret x' :
      (forall y, x = Some y -> - 2 ^ 31 <= x_offset y < 2 ^ 31) ->
      sys_adjtimex offset privileged x fault c = Some (c', ret, x') -> kstep c c'.

Definition good_clock (c : clock) : Prop := clock_ok c /\ lost c <= MAX_LOST.

Lemma good_jiffy c : clock_ok c -> lost c < MAX_LOST -> good_clock (count_jiffy c).
Proof.
  intros [] Hl. split; [by split|]. unfold lost in *. simpl. unfold u32 in *. rewrite Zminus_mod_idemp_l.
  replace (jiffies c + 1 - wall_jiffies c) with (jiffies c - wall_jiffies c + 1) by lia.
  rewrite <- Zplus_mod_idemp_l. pose proof (Z.mod_pos_bound (jiffies c - wall_jiffies c) (2 ^ 32)).
  unfold MAX_LOST in *. rewrite Z.mod_small; lia.
Qed.

Lemma good_settimeofday offset privileged tv tz c c' ret :
  0 <= offset < 2 ^ 30 -> (forall sec usec, tv = Some (Some (sec, usec)) -> - 2 ^ 29 <= usec < B) ->
  good_clock c -> sys_settimeofday offset privileged tv tz c = Some (c', ret) -> good_clock c'.
Proof.
  intros Ho Hv [Hc Hl] E.
  assert (Hdo : forall tv' tz', (forall sec usec, tv' = Some (sec, usec) -> - 2 ^ 29 <= usec < B) ->
    do_sys_settimeofday offset privileged tv' tz' c = Some (c', ret) -> good_clock c').
  { clear E Hv tv tz. intros tv tz Hv. unfold do_sys_settimeofday. destruct privileged; simpl negb; cbn iota; [|by intros [= <- _]].
    set (c1 := match tz with Some _ => _ | None => _ end).
    assert (H1 : clock_ok c1 /\ jiffies c1 = jiffies c /\ wall_jiffies c1 = wall_jiffies c)
      by (subst c1; destruct Hc, tz; simpl; [destruct (firsttime c), tv|]; split_and!; by try split).
    clearbody c1. destruct H1 as (K1 & K2 & K3).
    assert (L1 : lost c1 <= MAX_LOST) by (unfold lost in *; by rewrite K2, K3).
    destruct tv as [[sec usec]|]; [|by intros [= <- _]].
    destruct (settimeofday_range offset sec usec c1 L1 Ho (Hv sec usec eq_refl)) as (sec' & usec' & -> & Hr). intros [= <- _]. split; [|done].
    apply ok_was_set. destruct K1. by split. }
  unfold sys_settimeofday in E.
  destruct tv as [[[sec usec]|]|]; [|by injection E as <- _|]; (destruct tz as [[tz|]|]; [|by injection E as <- _|]);
    (eapply Hdo; [|exact E]); simpl; intros s u [= -> ->]; by apply (Hv s u).
Qed.

Lemma good_adjtimex offset privileged x fault c c' ret x' :
  (forall y, x = Some y -> - 2 ^ 31 <= x_offset y < 2 ^ 31) -> good_clock c ->
  sys_adjtimex offset privileged x fault c = Some (c', ret, x') -> good_clock c'.
Proof.
  intros Hx [Hc Hl] E. unfold sys_adjtimex in E. destruct x as [x|]; [|by injection E as <- _ _].
  specialize (Hx x eq_refl). unfold do_adjtimex in E.
  destruct (negb _ && negb privileged); [destruct fault; by injection E as <- _ _|].
  destruct (_ && negb (x_modes x =? _)); [destruct fault; by injection E as <- _ _|].
  destruct (_ && bad_offset x); [destruct fault; by injection E as <- _ _|].
  destruct (_ && bad_tick x); [destruct fault; by injection E as <- _ _|].
  set (m := if negb (x_modes x =? 0) then _ else _) in E.
  assert (Hm : adj_good c (fst m)) by (subst m; destruct (negb _); [by apply adj_modes_good|by split_and!]).
  destruct m as [c1 res]. simpl in Hm. destruct Hm as (K1 & K2 & K3 & _).
  destruct (gettimeofday_spec offset c1) as (u & _ & _ & G). simpl in E. rewrite G in E. simpl in E.
  assert (G1 : good_clock c1) by (split; [done|unfold lost in *; by rewrite K2, K3]).
  destruct fault; by injection E as <- _ _.
Qed.

Lemma good_step c c' : good_clock c -> kstep c c' -> good_clock c'.
Proof.
  intros Hg H. pose proof Hg as [Hc Hl]. destruct H as [c H|r c H|p t c|o p tv tz c c' ret H1 H2 H3|o p x f c c' ret x' H1 H2].
  - by apply good_jiffy.
  - destruct (update_times_spec r c Hc Hl H) as (U1 & U2 & _). split; [done|]. rewrite U2. unfold MAX_LOST. lia.
  - unfold sys_stime. destruct p; [|done]. destruct t as [t|]; [|done]. split; [|done].
    apply ok_was_set. destruct Hc. split; simpl; done || lia.
  - by apply (good_settimeofday o p tv tz c c' ret).
  - by apply (good_adjtimex o p x f c c' ret x').
Qed.

Lemma boot_good sec : good_clock (boot_clock sec).
Proof. split; [split; simpl; kconst; lia || (vm_compute; split; discriminate || reflexivity)|vm_compute; discriminate]. Qed.

End clock.

(** C22. Whatever sequence of timer interrupts, updates delayed by at most 451 ticks (most of a second)
    and clock calls leads from boot to a clock, its variables are within their bounds, and the next
    update moves the time forward: by 1692 to 2213 microseconds for each tick since the last
    one, one second more or less only when a leap second is due.  The microseconds of xtime stay
    below a bound [B] of a million or more if settimeofday is only given times with fewer: the call does
    not check them, so with invalid times xtime is not normalised ([unchecked_microseconds]).  The
    dates are those before 2038. *)
Theorem clock_runs_forward B sec0 c : 1000000 <= B <= 2 ^ 30 -> rtc (kstep B) (boot_clock sec0) c ->
  clock_ok B c /\ lost c <= MAX_LOST /\
  forall r, - 2 ^ 31 <= tv_sec c < 2 ^ 31 - 2 ->
    let c' := update_times r c in
    lost c' = 0 /\ exists d, leaps c d /\ 1692 * lost c <= now_us c' - now_us c - d * 1000000 <= 2213 * lost c.
Proof.
  intros HB H. assert (Hg : good_clock B c).
  { revert H. generalize (boot_good B HB sec0). generalize (boot_clock sec0). intros b Hb H.
    induction H as [|b b1 c H1 _ IH]; [done|]. apply IH. by apply (good_step B HB b). }
  destruct Hg as [Hc Hl]. split; [done|]. split; [done|]. intros r Hs. by apply (update_times_spec B HB r c).
Qed.

(** A valid time is set, and a tick passes. *)
Lemma clock_runs_forward_witness :
  exists c, tv_sec c = 1000 /\ clock_ok 1000000 c /\ lost c = 1 /\
  forall r, let c' := update_times r c in
  lost c' = 0 /\ exists d, leaps c d /\ 1692 * lost c <= now_us c' - now_us c - d * 1000000 <= 2213 * lost c.
Proof.
  destruct (sys_settimeofday 0 true (Some (Some (1000, 500))) None (boot_clock 0)) as [[c1 x]|] eqn:E; [|vm_compute in E; discriminate E].
  assert (H : rtc (kstep 1000000) (boot_clock 0) (count_jiffy c1)).
  { eapply rtc_l; [eapply k_settimeofday; [| |exact E]; [lia|intros ? ? [= <- <-]; lia]|]. apply rtc_once, k_jiffy.
    vm_compute in E. injection E as <- _. vm_compute. reflexivity. }
  destruct (clock_runs_forward 1000000 0 _ ltac:(lia) H) as (H1 & _ & H2).
  assert (E1 : tv_sec (count_jiffy c1) = 1000 /\ lost (count_jiffy c1) = 1) by (vm_compute in E; injection E as <- _; vm_compute; split; reflexivity).
  exists (count_jiffy c1). split; [apply E1|]. split; [exact H1|]. split; [apply E1|]. intros r. apply H2. destruct E1 as [-> _]. lia.
Defined.

(** settimeofday accepts any number of microseconds: a privileged caller can put xtime two seconds
    beyond its range, and the next update takes off one of them. *)
Theorem unchecked_microseconds :
  exists c, sys_settimeofday 0 true (Some (Some (1000, 3500000))) None (boot_clock 0) = Some (c, 0) /\ tv_usec c = 3500000 /\
    forall r, tv_usec (update_times r (count_jiffy c)) = 2501953.
Proof.
  eexists. split; [vm_compute; reflexivity|]. split; [vm_compute; reflexivity|]. intros r. unfold update_times.
  rewrite load_keeps. vm_compute. reflexivity.
Qed.

(** Over any number of ticks the time moves by exactly the tick, the phase adjustment
    and the part of the adjtime adjustment that is used up, counted in units of 2^-22 microseconds:
    nothing is lost to rounding, and the adjustment ends after as many ticks as it has
    microseconds. *)
Theorem ticks_are_exact n c : clock_ok 1000000 c -> tv_usec c + 2213 * Z.of_nat n < 2 ^ 30 ->
  let c' := Nat.iter n update_wall_time_one_tick c in
  fine c' = fine c + Z.of_nat n * (tick c * FINEUSEC + time_adj c) + (time_adjust c - time_adjust c') * FINEUSEC /\
  - FINEUSEC < time_phase c' < FINEUSEC /\
  time_adjust c' = (if 0 <? time_adjust c then Z.max 0 (time_adjust c - Z.of_nat n)
                    else Z.min 0 (time_adjust c + Z.of_nat n)).
Proof.
  intros Hc Hn. pose proof (ok_usec _ _ Hc) as Hu. assert (HB : 1000000 <= 1000000 <= 2 ^ 30) by lia.
  destruct (ticks_spec 1000000 HB n c (core_of _ HB _ Hc)) as (T1 & _ & _ & _ & T5 & T6 & _); [lia|lia|].
  split; [done|]. split; [exact (ok_phase _ _ T1)|exact T5].
Qed.

Lemma ticks_are_exact_witness :
  let c := (boot_clock 0) <| time_adjust := -2 |> <| time_adj := 3000000 |> in
  let c' := Nat.iter 3 update_wall_time_one_tick c in
  (tv_usec c', time_phase c', time_adjust c') = (3 * 1953 - 2 + 2, 9000000 - 2 * 2 ^ 22, 0) /\
  fine c' = fine c + Z.of_nat 3 * (tick c * FINEUSEC + time_adj c) + (time_adjust c - time_adjust c') * FINEUSEC /\
  - FINEUSEC < time_phase c' < FINEUSEC /\
  time_adjust c' = (if 0 <? time_adjust c then Z.max 0 (time_adjust c - Z.of_nat 3)
                    else Z.min 0 (time_adjust c + Z.of_nat 3)).
Proof.
  split; [vm_compute; reflexivity|]. apply (ticks_are_exact 3); [|vm_compute; reflexivity].
  destruct (boot_good 1000000 ltac:(lia) 0) as [[] _]. split; try assumption; vm_compute; split; discriminate || reflexivity.
Defined.

(** Setting the time of day and reading it at once gives the time that was set, whatever
    offset the hardware reports and however many ticks are not yet accounted for; the clock
    is then marked as not synchronized and an adjustment under way is dropped. *)
Theorem settimeofday_roundtrip offset sec usec c :
  lost c <= MAX_LOST -> 0 <= offset < 2 ^ 30 -> - 2 ^ 31 <= sec < 2 ^ 31 -> 0 <= usec < 1000000 ->
  exists c', sys_settimeofday offset true (Some (Some (sec, usec))) None c = Some (c', 0) /\
    sys_gettimeofday offset (Some false) None c' = Some (0, Some (sec, usec), None) /\
    has (time_status c') STA_UNSYNC = true /\ time_adjust c' = 0 /\ jiffies c' = jiffies c.
Proof.
  intros Hl Ho Hs Hu. unfold sys_settimeofday, do_sys_settimeofday. cbn [negb mjoin option_join].
  pose proof (settimeofday_spec offset sec usec c Hl Ho Hu) as E. rewrite (s32_small sec) in E by done.
  rewrite E. set (c' := clock_was_set _). exists c'. split; [done|]. split; [|split; [|done]].
  - unfold sys_gettimeofday. destruct (gettimeofday_spec offset c') as (u & Hu1 & Hu2 & ->). cbn [mbind option_bind].
    set (v := usec - offset - lost_usec c) in *. pose proof (lost_usec_range c Hl).
    assert (Hv : offset + lost_usec c' + tv_usec c' = usec + 1000000 * (- (v `div` 1000000))).
    { change (lost_usec c') with (lost_usec c). change (tv_usec c') with (v `mod` 1000000).
      pose proof (Z.div_mod v 1000000). lia. }
    assert (Hq : - 2148 <= v `div` 1000000 <= 0).
    { split; [apply Z.div_le_lower_bound; lia|]. enough (v `div` 1000000 < 1) by lia.
      apply Z.div_lt_upper_bound; lia. }
    rewrite Hv, u32_small in Hu2 by lia. rewrite Hu2.
    replace (usec + 1000000 * - (v `div` 1000000)) with (usec + - (v `div` 1000000) * 1000000) by lia.
    rewrite Z.div_add, Z.mod_add, Z.div_small, Z.mod_small by lia.
    change (tv_sec c') with (s32 (sec + v `div` 1000000)). simpl. do 3 f_equal. f_equal.
    enough (s32 (u32 (s32 (sec + v `div` 1000000) + (0 + - (v `div` 1000000)))) = s32 sec) as ->
      by by rewrite s32_small. unfold s32, u32. f_equal.
    rewrite Zplus_mod_idemp_l. replace (_ - 2 ^ 31 + _ + 2 ^ 31) with ((sec + v `div` 1000000 + 2 ^ 31) `mod` 2 ^ 32 - v `div` 1000000) by lia.
    rewrite Zminus_mod_idemp_l. f_equal. lia.
  - subst c'. unfold has, clock_was_set. simpl. apply negb_true_iff, Z.eqb_neq.
    intros H0. assert (Hb : Z.testbit (Z.land (Z.lor (time_status c) STA_UNSYNC) STA_UNSYNC) 6 = false) by (rewrite H0; done).
    rewrite Z.land_spec, Z.lor_spec in Hb. change (Z.testbit STA_UNSYNC 6) with true in Hb. by rewrite orb_true_r in Hb.
Qed.

Lemma settimeofday_roundtrip_witness :
  exists c', sys_settimeofday 1500 true (Some (Some (1000000000, 700))) None (boot_clock 5) = Some (c', 0) /\
    sys_gettimeofday 1500 (Some false) None c' = Some (0, Some (1000000000, 700), None) /\
    has (time_status c') STA_UNSYNC = true /\ time_adjust c' = 0 /\ jiffies c' = jiffies (boot_clock 5).
Proof. apply (settimeofday_roundtrip 1500 1000000000 700 (boot_clock 5)); vm_compute; split || discriminate; discriminate || reflexivity. Defined.

(** While the clock is not synchronized, as it is from boot on, adjtimex never reports
    that a frequency, an error bound or a time constant is out of range: the result is
    TIME_ERROR, which also stands for success, and the clock is left as it was. *)
Theorem adjtimex_hides_einval offset x c :
  not_synchronized (time_status c) = true ->
  (x_modes x = ADJ_FREQUENCY /\ (x_freq x < - MAXFREQ \/ MAXFREQ < x_freq x) \/
   x_modes x = ADJ_MAXERROR /\ (x_maxerror x < 0 \/ NTP_PHASE_LIMIT <= x_maxerror x) \/
   x_modes x = ADJ_ESTERROR /\ (x_esterror x < 0 \/ NTP_PHASE_LIMIT <= x_esterror x) \/
   x_modes x = ADJ_TIMECONST /\ x_constant x < 0) ->
  exists x', do_adjtimex offset true x c = Some (c, TIME_ERROR, x').
Proof.
  intros Hn Hx. destruct (gettimeofday_spec offset c) as (u & _ & _ & G).
  assert (Hm : adj_modes x c = (c, - EINVAL)).
  { unfold adj_modes, adj_stage. cbv zeta.
    destruct Hx as [[-> Hx]|[[-> Hx]|[[-> Hx]|[-> Hx]]]]; simpl;
      repeat match goal with |- context [(?a <? ?b) || ?r] => replace ((a <? b) || r) with true by
        (symmetry; apply orb_true_iff; rewrite ?Z.ltb_lt, ?Z.leb_le; lia) end; try done.
    replace (x_constant x <? 0) with true by (symmetry; apply Z.ltb_lt; lia). done. }
  assert (Hd : x_modes x = ADJ_FREQUENCY \/ x_modes x = ADJ_MAXERROR \/ x_modes x = ADJ_ESTERROR \/ x_modes x = ADJ_TIMECONST)
    by tauto.
  unfold do_adjtimex. rewrite Hm. destruct Hd as [-> | [-> | [-> | ->]]]; simpl; rewrite Hn, G; simpl; eauto.
Qed.

Lemma adjtimex_hides_einval_witness : exists x',
  do_adjtimex 0 true (Timex ADJ_FREQUENCY 0 (MAXFREQ + 1) 0 0 0 0 0 0 (0, 0) 0 0 0 0 0 0 0 0 0) (boot_clock 7)
  = Some (boot_clock 7, TIME_ERROR, x').
Proof. apply adjtimex_hides_einval; [reflexivity|]. left. split; [reflexivity|right; vm_compute; reflexivity]. Defined.
