(* ===== verification/Itimer.v ===== *)
(** * Interval timers, sleeping, process times (kernel/itimer.c, kernel/timer.c)

    The state joins the signals of [Signal], with the scheduler below them, the wheel of
    [Timer] and, for each task, the fields of its interval timers ([itm]).
    [real_timer t] is [&t->real_timer]; [sleep_timer t] the timer on the stack of
    [schedule_timeout].  The functions of these timers, [it_real_fn] and
    [process_timeout], act on the wheel by [timer_ops] and on the tasks by
    [timer_effect]; neither part reads what the other changes. *)
From stdpp Require Import base list functions.
From S2P Require Import Prelude PidHash Bitmap Sched SchedCalls Limits Timer Sigset Signal SigCalls.

Definition ITIMER_REAL : Z := 0.
Definition ITIMER_VIRTUAL : Z := 1.
Definition ITIMER_PROF : Z := 2.
Definition ULONG_MAX : Z := 2 ^ 32 - 1.
Definition LONG_MAX : Z := 2 ^ 31 - 1.
Definition RLIMIT_CPU : Z := 0.

(** A [timeval] is a pair, an [itimerval] the interval and the value. *)
Definition timeval : Type := Z * Z.
Record itimerval := Itimerval { it_interval : timeval; it_value : timeval }.

Record itm := Itm {
  it_real_value : Z;
  it_real_incr : Z;
  it_virt_value : Z;
  it_virt_incr : Z;
  it_prof_value : Z;
  it_prof_incr : Z;
  i_limits : limits;
  per_cpu_utime : Z;
  per_cpu_stime : Z
}.
#[export] Instance eta_itm : Eta itm := fun i =>
  Itm (it_real_value i) (it_real_incr i) (it_virt_value i) (it_virt_incr i) (it_prof_value i) (it_prof_incr i)
    (i_limits i) (per_cpu_utime i) (per_cpu_stime i).

Record times := Times { sg : sigs; wh : wheel; itab : tid -> itm }.
#[export] Instance eta_times : Eta times := fun s => Times (sg s) (wh s) (itab s).

Definition now (s : times) : Z := jiffies (sched_of (sg s)).
Definition me (s : times) : tid := current (sg s).
Definition set_itm (t : tid) (f : itm -> itm) (s : times) : times := s <| itab ::= alter f t |>.
Definition real_timer (t : tid) : tm := 2 * t.
Definition sleep_timer (t : tid) : tm := 2 * t + 1.

(** ** Conversions *)

Definition tvtojiffies (value : timeval) : Z :=
  let sec := u32 (fst value) in
  let usec := u32 (snd value) in
  if ULONG_MAX ÷ HZ <? sec then ULONG_MAX
  else u32 (HZ * sec + u32 (usec + (1000000 ÷ HZ - 1)) ÷ (1000000 ÷ HZ)).

Definition jiffiestotv (j : Z) : timeval := (j ÷ HZ, Z.rem j HZ * (1000000 ÷ HZ)).

(** ** getitimer and setitimer *)

Definition do_getitimer (which : Z) (s : times) : Z * option itimerval :=
  let i := itab s (me s) in
  let ret val interval := (0, Some (Itimerval (jiffiestotv interval) (jiffiestotv val))) in
  if which =? ITIMER_REAL then
    let val := if linked (wh s) (real_timer (me s)) then
                 let val := u32 (expires (wh s) (real_timer (me s)) - now s) in
                 if s32 val <=? 0 then 1 else val
               else 0 in
    ret val (it_real_incr i)
  else if which =? ITIMER_VIRTUAL then ret (it_virt_value i) (it_virt_incr i)
  else if which =? ITIMER_PROF then ret (it_prof_value i) (it_prof_incr i)
  else (- EINVAL, None).

Definition sys_getitimer (which : Z) (value : user_out) (s : times) : Z * option itimerval :=
  match value with
  | None => (- EFAULT, None)
  | Some fault =>
      let '(error, v) := do_getitimer which s in
      if (error =? 0) && fault then (- EFAULT, None) else (error, v)
  end.

Definition bump (j : Z) : Z := if negb (j =? 0) then u32 (j + 1) else j.

(** The old value is read when [want] holds. *)
Definition do_setitimer (which : Z) (value : itimerval) (want : bool) (s : times) : times * Z * option itimerval :=
  let i := tvtojiffies (it_interval value) in
  let j := tvtojiffies (it_value value) in
  let '(k, old) := if want then do_getitimer which s else (0, None) in
  if k <? 0 then (s, k, None)
  else if which =? ITIMER_REAL then
    let rt := real_timer (me s) in
    let s1 := set_itm (me s) (fun p => p <| it_real_value := j |> <| it_real_incr := i |>)
                (s <| wh ::= fun w => fst (del_timer rt w) |>) in
    if j =? 0 then (s1, 0, old)
    else
      let j := if LONG_MAX <? j then LONG_MAX else j in
      (s1 <| wh ::= fun w => add_timer rt (set_expires rt (u32 (j + now s1)) w) |>, 0, old)
  else if which =? ITIMER_VIRTUAL then
    (set_itm (me s) (fun p => p <| it_virt_value := bump j |> <| it_virt_incr := i |>) s, 0, old)
  else if which =? ITIMER_PROF then
    (set_itm (me s) (fun p => p <| it_prof_value := bump j |> <| it_prof_incr := i |>) s, 0, old)
  else (s, - EINVAL, None).

Definition sys_setitimer (which : Z) (value : user_in itimerval) (ovalue : user_out) (s : times)
  : times * Z * option itimerval :=
  match value with
  | Some None => (s, - EFAULT, None)
  | _ =>
      let set_buffer := default (Itimerval (0, 0) (0, 0)) (mjoin value) in
      let '(s1, error, old) := do_setitimer which set_buffer (bool_decide (ovalue <> None)) s in
      if negb (error =? 0) then (s1, error, None)
      else match ovalue with
      | None => (s1, error, None)
      | Some true => (s1, - EFAULT, None)
      | Some false => (s1, 0, old)
      end
  end.

Definition sys_alarm (seconds : Z) (s : times) : times * Z :=
  let '(s1, _, it_old) := do_setitimer ITIMER_REAL (Itimerval (0, 0) (seconds, 0)) true s in
  let old := it_value (default (Itimerval (0, 0) (0, 0)) it_old) in
  (s1, if negb (snd old =? 0) then u32 (fst old + 1) else u32 (fst old)).

(** ** Timers that expire *)

Section signals.
Context (sigqueue_alloc : sigs -> option siginfo).

Definition signal_task (sig : Z) (t : tid) (s : times) : times :=
  s <| sg ::= fun g => fst (send_sig sigqueue_alloc sig t 1 g) |>.

(** [it_real_fn] after [send_sig]: what it does to the wheel. *)
Definition it_real_ops (t : tid) (s : times) : list top :=
  let interval := it_real_incr (itab s t) in
  if negb (interval =? 0)
  then [OAdd (real_timer t) (u32 (now s + if LONG_MAX <? interval then LONG_MAX else interval))] else [].
Definition it_real_fn (t : tid) (s : times) : times := signal_task SIGALRM t s.
Definition process_timeout (t : tid) (s : times) : times := s <| sg ::= wake t |>.

Definition timer_ops (s : times) (x : tm) : list top := if Z.even x then it_real_ops (x `div` 2) s else [].
Definition timer_effect (x : tm) (s : times) : times :=
  if Z.even x then it_real_fn (x `div` 2) s else process_timeout (x `div` 2) s.

(** The part of [timer_bh] after [update_times]; [None] when [k] turns were not enough. *)
Definition timer_bh (k : nat) (s : times) : option times :=
  r ← run_timer_list (timer_ops s) k (now s) (wh s);
  let '(w, fired) := r in
  Some (fold_left (fun s x => timer_effect x s) (concat fired) (s <| wh := w |>)).

(** ** The tick of a process *)

Definition do_process_times (t : tid) (user system : Z) (s : times) : times :=
  let g := gtab (sg s) t in
  let utime := u32 (g_utime g + user) in
  let stime := u32 (g_stime g + system) in
  let s1 := s <| sg ::= set_gtask t (fun p => p <| g_utime := utime |> <| g_stime := stime |>) |> in
  let psecs := u32 (utime + stime) in
  let cpu := rlim (i_limits (itab s t)) RLIMIT_CPU in
  if rlim_cur cpu <? psecs ÷ HZ then
    let s2 := if Z.rem psecs HZ =? 0 then signal_task SIGXCPU t s1 else s1 in
    if rlim_max cpu <? psecs ÷ HZ then signal_task SIGKILL t s2 else s2
  else s1.

Definition do_it_virt (t : tid) (ticks : Z) (s : times) : times :=
  let it_virt := it_virt_value (itab s t) in
  if negb (it_virt =? 0) then
    let it_virt := u32 (it_virt - ticks) in
    if it_virt =? 0 then
      set_itm t (fun p => p <| it_virt_value := it_virt_incr (itab s t) |>) (signal_task SIGVTALRM t s)
    else set_itm t (fun p => p <| it_virt_value := it_virt |>) s
  else s.

Definition do_it_prof (t : tid) (s : times) : times :=
  let it_prof := it_prof_value (itab s t) in
  if negb (it_prof =? 0) then
    let it_prof := u32 (it_prof - 1) in
    if it_prof =? 0 then
      set_itm t (fun p => p <| it_prof_value := it_prof_incr (itab s t) |>) (signal_task SIGPROF t s)
    else set_itm t (fun p => p <| it_prof_value := it_prof |>) s
  else s.

Definition update_one_process (t : tid) (user system : Z) (s : times) : times :=
  let s0 := set_itm t (fun p => p <| per_cpu_utime ::= fun x => u32 (x + user) |>
                                  <| per_cpu_stime ::= fun x => u32 (x + system) |>) s in
  do_it_prof t (do_it_virt t user (do_process_times t user system s0)).

Definition update_process_times (in_irq : bool) (user_tick : Z) (s : times) : times :=
  let system := Z.lxor user_tick 1 in
  (update_one_process (me s) user_tick system s)
    <| sg ::= on_sched (scheduler_tick in_irq user_tick system) |>.

(** [do_timer], but for the bottom halves it marks. *)
Definition do_timer (in_irq : bool) (user_mode : bool) (s : times) : times :=
  update_process_times in_irq (if user_mode then 1 else 0)
    (s <| sg ::= on_sched (fun sc => sc <| jiffies ::= fun j => u32 (j + 1) |>) |>).
End signals.

(** ** Sleeping *)

Section sleep.
(** [schedule()] until the caller runs again: whatever the other tasks and the
    interrupts do. *)
Context (schedule : times -> times).

Definition set_my_state (st : Z) (s : times) : times :=
  s <| sg ::= set_stask (me s) (fun p => p <| t_state := st |>) |>.

Definition schedule_timeout (timeout : Z) (s : times) : times * Z :=
  if timeout =? MAX_SCHEDULE_TIMEOUT then (schedule s, timeout)
  else if timeout <? 0 then (set_my_state TASK_RUNNING s, 0)
  else
    let expire := u32 (timeout + now s) in
    let t := sleep_timer (me s) in
    let s1 := s <| wh ::= fun w => add_timer t (set_expires t expire (w <| linked ::= <[t := false]> |>)) |> in
    let s2 := schedule s1 in
    let s3 := s2 <| wh ::= fun w => fst (del_timer t w) |> in
    let left := s32 (expire - now s3) in
    (s3, if left <? 0 then 0 else left).

(** The time left is stored through [rmtp]; [udelay] is the busy wait of a number of microseconds. *)
Definition sys_nanosleep (udelay : Z -> times -> times) (rqtp : option (Z * Z)) (rmtp : user_out) (s : times) : times * Z * option (Z * Z) :=
  match rqtp with
  | None => (s, - EFAULT, None)
  | Some (sec, nsec) =>
      if (1000000000 <=? nsec) || (nsec <? 0) || (sec <? 0) then (s, - EINVAL, None)
      else if (sec =? 0) && (nsec <=? 2000000) && negb (t_policy (stask (sg s) (me s)) =? SCHED_OTHER)
      then (udelay ((nsec + 999) ÷ 1000) s, 0, None)
      else
        let expire := u32 (timespec_to_jiffies sec nsec + if negb (sec =? 0) || negb (nsec =? 0) then 1 else 0) in
        let '(s1, expire) := schedule_timeout (s32 expire) (set_my_state TASK_INTERRUPTIBLE s) in
        if negb (expire =? 0) then
          match rmtp with
          | None => (s1, - EINTR, None)
          | Some true => (s1, - EFAULT, None)
          | Some false => (s1, - EINTR, Some (jiffies_to_timespec expire))
          end
        else (s1, 0, None)
  end.
End sleep.
