(* ===== verification/ItimerTheorems.v ===== *)
(** * Interval timers and sleeping: results

    What a virtual or profiling timer sends over a number of ticks, when an alarm rings on
    the timer wheel, how long nanosleep sleeps, and what becomes of limits on processor time. *)
From stdpp Require Import base list functions relations.
From S2P Require Import Prelude PidHash Bitmap Sched SchedCalls Limits Timer TimerProofs TimerTheorems.
From S2P Require Import Sigset Signal SigCalls SigTheorems Itimer.

(** ** Counting down *)

(** A timer with value [v] and interval [i]: how often it expires in [n] ticks and its value
    afterwards. *)
Definition expirations (v i n : Z) : Z :=
  if (v =? 0) || (n <? v) then 0 else if i =? 0 then 1 else 1 + (n - v) `div` i.
Definition value_left (v i n : Z) : Z :=
  if v =? 0 then 0 else if n <? v then v - n else if i =? 0 then 0 else i - (n - v) `mod` i.

Lemma step_mod a i : 0 < i -> 0 <= a ->
  (a `mod` i = i - 1 -> (a + 1) `mod` i = 0 /\ (a + 1) `div` i = a `div` i + 1) /\
  (a `mod` i <> i - 1 -> (a + 1) `mod` i = a `mod` i + 1 /\ (a + 1) `div` i = a `div` i).
Proof.
  intros Hi Ha. pose proof (Z.div_mod a i ltac:(lia)) as E. pose proof (Z.mod_pos_bound a i Hi) as B. split; intros Hm.
  - split; [symmetry; apply (Z.mod_unique_pos _ _ (a `div` i + 1)); lia|symmetry; apply (Z.div_unique_pos _ _ _ 0); lia].
  - split; [symmetry; apply (Z.mod_unique_pos _ _ (a `div` i)); lia
           |symmetry; apply (Z.div_unique_pos _ _ _ (a `mod` i + 1)); lia].
Qed.

Lemma left_range v i n : 0 <= v < 2 ^ 32 -> 0 <= i < 2 ^ 32 -> 0 <= n -> 0 <= value_left v i n < 2 ^ 32.
Proof.
  intros Hv Hi Hn. unfold value_left. destruct (Z.eqb_spec v 0), (Z.ltb_spec n v), (Z.eqb_spec i 0); try lia.
  pose proof (Z.mod_pos_bound (n - v) i). lia.
Qed.

Lemma count_step v i n : 0 <= v -> 0 <= i -> 0 <= n ->
  value_left v i (n + 1) = (let l := value_left v i n in if l =? 0 then 0 else if l =? 1 then i else l - 1) /\
  expirations v i (n + 1) = expirations v i n + (if value_left v i n =? 1 then 1 else 0) /\ 0 <= expirations v i n.
Proof.
  intros Hv Hi Hn. unfold value_left, expirations. cbv zeta.
  destruct (Z.eqb_spec v 0); simpl orb; cbn iota; [by split_and!|].
  destruct (Z.ltb_spec n v) as [Hnv|Hnv].
  - destruct (Z.eqb_spec (v - n) 0); [lia|]. destruct (Z.ltb_spec (n + 1) v).
    + destruct (Z.eqb_spec (v - n) 1); lia.
    + replace (n + 1 - v) with 0 by lia. destruct (Z.eqb_spec (v - n) 1); [|lia].
      destruct (Z.eqb_spec i 0); [lia|]. rewrite Zmod_0_l, Zdiv_0_l. lia.
  - destruct (Z.ltb_spec (n + 1) v); [lia|]. destruct (Z.eqb_spec i 0) as [|Hi0]; [simpl; lia|].
    pose proof (Z.mod_pos_bound (n - v) i ltac:(lia)) as B. pose proof (Z.div_pos (n - v) i ltac:(lia) ltac:(lia)).
    destruct (step_mod (n - v) i ltac:(lia) ltac:(lia)) as [S1 S2].
    replace (n + 1 - v) with (n - v + 1) by lia.
    destruct (Z.eqb_spec (i - (n - v) `mod` i) 0); [lia|]. destruct (Z.eqb_spec (i - (n - v) `mod` i) 1) as [E|E].
    + destruct S1 as [-> ->]; [lia|]. lia.
    + destruct S2 as [-> ->]; [lia|]. lia.
Qed.

Section signals.
Context (sigqueue_alloc : sigs -> option siginfo).
Notation send sig t := (fun g => fst (send_sig sigqueue_alloc sig t 1 g)).

(** The state after some ticks of a timer whose value [put] stores: [k] signals were sent and
    the value is [l]. *)
Record ticked (sig : Z) (t : tid) (put : Z -> itm -> itm) (k : Z) (l : Z) (s s' : times) : Prop := Ticked {
  tk_signals : sg s' = Nat.iter (Z.to_nat k) (send sig t) (sg s);
  tk_value : itab s' t = put l (itab s t);
  tk_others : forall u, u <> t -> itab s' u = itab s u;
  tk_wheel : wh s' = wh s
}.

Lemma ticked_one sig t put l x s s1 s2 k :
  (forall i y z, put z (put y i) = put z i) ->
  ticked sig t put k l s s1 -> 0 <= k ->
  forall send_now : bool,
  sg s2 = (if send_now then fst (send_sig sigqueue_alloc sig t 1 (sg s1)) else sg s1) ->
  itab s2 t = put x (itab s1 t) -> (forall u, u <> t -> itab s2 u = itab s1 u) -> wh s2 = wh s1 ->
  ticked sig t put (k + if send_now then 1 else 0) x s s2.
Proof.
  intros Hput [T1 T2 T3 T4] Hk b E1 E2 E3 E4. split.
  - rewrite E1, T1. destruct b; [|by rewrite Z.add_0_r].
    replace (Z.to_nat (k + 1)) with (S (Z.to_nat k)) by lia. done.
  - by rewrite E2, T2, Hput.
  - intros u Hu. by rewrite E3, T3.
  - by rewrite E4.
Qed.

Definition put_virt (v : Z) (i : itm) : itm := i <| it_virt_value := v |>.
Definition put_prof (v : Z) (i : itm) : itm := i <| it_prof_value := v |>.

Lemma virt_one t s : 0 <= it_virt_value (itab s t) < 2 ^ 32 ->
  let v := it_virt_value (itab s t) in
  let s' := do_it_virt sigqueue_alloc t 1 s in
  sg s' = (if v =? 1 then fst (send_sig sigqueue_alloc SIGVTALRM t 1 (sg s)) else sg s) /\
  itab s' t = put_virt (if v =? 0 then 0 else if v =? 1 then it_virt_incr (itab s t) else v - 1) (itab s t) /\
  (forall u, u <> t -> itab s' u = itab s u) /\ wh s' = wh s.
Proof.
  intros Hv. cbv zeta. unfold do_it_virt. destruct (Z.eqb_spec (it_virt_value (itab s t)) 0) as [E|E]; simpl negb; cbn iota.
  - rewrite E. simpl. split_and!; try done. destruct (itab s t). simpl in *. by subst.
  - rewrite u32_small by lia.
    destruct (Z.eqb_spec (it_virt_value (itab s t) - 1) 0), (Z.eqb_spec (it_virt_value (itab s t)) 1); try lia; simpl;
      (split_and!; try done; [by rewrite fn_lookup_alter|intros u Hu; by rewrite fn_lookup_alter_ne]).
Qed.

Lemma prof_one t s : 0 <= it_prof_value (itab s t) < 2 ^ 32 ->
  let v := it_prof_value (itab s t) in
  let s' := do_it_prof sigqueue_alloc t s in
  sg s' = (if v =? 1 then fst (send_sig sigqueue_alloc SIGPROF t 1 (sg s)) else sg s) /\
  itab s' t = put_prof (if v =? 0 then 0 else if v =? 1 then it_prof_incr (itab s t) else v - 1) (itab s t) /\
  (forall u, u <> t -> itab s' u = itab s u) /\ wh s' = wh s.
Proof.
  intros Hv. cbv zeta. unfold do_it_prof. destruct (Z.eqb_spec (it_prof_value (itab s t)) 0) as [E|E]; simpl negb; cbn iota.
  - rewrite E. simpl. split_and!; try done. destruct (itab s t). simpl in *. by subst.
  - rewrite u32_small by lia.
    destruct (Z.eqb_spec (it_prof_value (itab s t) - 1) 0), (Z.eqb_spec (it_prof_value (itab s t)) 1); try lia; simpl;
      (split_and!; try done; [by rewrite fn_lookup_alter|intros u Hu; by rewrite fn_lookup_alter_ne]).
Qed.

(** A step that counts [val] down by one, with interval [incr], over [n] ticks. *)
Lemma ticks_of (val incr : itm -> Z) put sig t step :
  (forall i y z, put z (put y i) = put z i) -> (forall i y, val (put y i) = y) -> (forall i y, incr (put y i) = incr i) ->
  (forall i, put (val i) i = i) ->
  (forall s, 0 <= val (itab s t) < 2 ^ 32 ->
     let v := val (itab s t) in
     sg (step s) = (if v =? 1 then fst (send_sig sigqueue_alloc sig t 1 (sg s)) else sg s) /\
     itab (step s) t = put (if v =? 0 then 0 else if v =? 1 then incr (itab s t) else v - 1) (itab s t) /\
     (forall u, u <> t -> itab (step s) u = itab s u) /\ wh (step s) = wh s) ->
  forall n s, 0 <= val (itab s t) < 2 ^ 32 -> 0 <= incr (itab s t) < 2 ^ 32 ->
  ticked sig t put (expirations (val (itab s t)) (incr (itab s t)) (Z.of_nat n))
    (value_left (val (itab s t)) (incr (itab s t)) (Z.of_nat n)) s (Nat.iter n step s).
Proof.
  intros P1 P2 P3 P4 Hstep n s Hv Hi. set (v := val (itab s t)) in *. set (i := incr (itab s t)) in *.
  induction n as [|n IH].
  - cbn [Nat.iter nat_rect]. change (Z.of_nat 0) with 0.
    assert (E : value_left v i 0 = v).
    { unfold value_left. destruct (Z.eqb_spec v 0), (Z.ltb_spec 0 v); lia. }
    assert (E' : expirations v i 0 = 0).
    { unfold expirations. destruct (Z.eqb_spec v 0), (Z.ltb_spec 0 v); simpl; lia. }
    rewrite E, E'. split; try done. unfold v. by rewrite P4.
  - change (Nat.iter (S n) step s) with (step (Nat.iter n step s)).
    set (s1 := Nat.iter n step s) in *. clearbody s1. rewrite Nat2Z.inj_succ. unfold Z.succ.
    destruct (count_step v i (Z.of_nat n)) as (C1 & C2 & C3); [lia..|]. rewrite C1, C2. cbv zeta.
    pose proof (left_range v i (Z.of_nat n)) as Hl. destruct (Hstep s1) as (S1 & S2 & S3 & S4).
    { rewrite (tk_value _ _ _ _ _ _ _ IH), P2. lia. }
    cbv zeta in *. rewrite (tk_value _ _ _ _ _ _ _ IH), P2 in S1, S2. rewrite P3 in S2. fold i in S2.
    apply (ticked_one _ _ _ _ _ _ s1 _ _ P1 IH C3 (value_left v i (Z.of_nat n) =? 1)); [done| |done|done].
    rewrite S2. by rewrite (tk_value _ _ _ _ _ _ _ IH).
Qed.

Lemma tvtojiffies_range v : 0 <= tvtojiffies v < 2 ^ 32.
Proof. unfold tvtojiffies, ULONG_MAX. case_match; [lia|]. apply u32_range. Qed.

Lemma bump_spec j : 0 <= j < ULONG_MAX -> bump j = if j =? 0 then 0 else j + 1.
Proof.
  intros Hj. unfold bump, ULONG_MAX in *. destruct (Z.eqb_spec j 0) as [->|]; simpl; [done|]. rewrite u32_small; lia.
Qed.

(** What do_setitimer stores for the two timers that ticks count down. *)
Lemma set_virt i j s : tvtojiffies j < ULONG_MAX ->
  exists s', do_setitimer ITIMER_VIRTUAL (Itimerval i j) false s = (s', 0, None) /\ sg s' = sg s /\ wh s' = wh s /\
  itab s' (me s) = (itab s (me s)) <| it_virt_value := if tvtojiffies j =? 0 then 0 else tvtojiffies j + 1 |>
                                   <| it_virt_incr := tvtojiffies i |>.
Proof.
  intros Hj. eexists. split; [reflexivity|]. split; [done|]. split; [done|]. simpl. rewrite fn_lookup_alter.
  pose proof (tvtojiffies_range j). rewrite bump_spec by lia. done.
Qed.

Lemma set_prof i j s : tvtojiffies j < ULONG_MAX ->
  exists s', do_setitimer ITIMER_PROF (Itimerval i j) false s = (s', 0, None) /\ sg s' = sg s /\ wh s' = wh s /\
  itab s' (me s) = (itab s (me s)) <| it_prof_value := if tvtojiffies j =? 0 then 0 else tvtojiffies j + 1 |>
                                   <| it_prof_incr := tvtojiffies i |>.
Proof.
  intros Hj. eexists. split; [reflexivity|]. split; [done|]. split; [done|]. simpl. rewrite fn_lookup_alter.
  pose proof (tvtojiffies_range j). rewrite bump_spec by lia. done.
Qed.

(** A virtual or profiling timer set to a value of [j] jiffies and an interval of [i]
    sends its signal after [j + 1] ticks of the task and then after every [i]: after [n]
    ticks exactly [1 + (n - (j + 1)) / i] signals were sent, and the value read back is the
    number of ticks to the next one. *)
Theorem itimer_period i j s n : tvtojiffies j < ULONG_MAX ->
  let v := if tvtojiffies j =? 0 then 0 else tvtojiffies j + 1 in
  let k := expirations v (tvtojiffies i) (Z.of_nat n) in
  let l := value_left v (tvtojiffies i) (Z.of_nat n) in
  (exists s1, do_setitimer ITIMER_VIRTUAL (Itimerval i j) false s = (s1, 0, None) /\
     let s2 := Nat.iter n (do_it_virt sigqueue_alloc (me s) 1) s1 in
     sg s2 = Nat.iter (Z.to_nat k) (send SIGVTALRM (me s)) (sg s) /\
     it_virt_value (itab s2 (me s)) = l /\ it_virt_incr (itab s2 (me s)) = tvtojiffies i) /\
  (exists s1, do_setitimer ITIMER_PROF (Itimerval i j) false s = (s1, 0, None) /\
     let s2 := Nat.iter n (do_it_prof sigqueue_alloc (me s)) s1 in
     sg s2 = Nat.iter (Z.to_nat k) (send SIGPROF (me s)) (sg s) /\
     it_prof_value (itab s2 (me s)) = l /\ it_prof_incr (itab s2 (me s)) = tvtojiffies i).
Proof.
  intros Hj. cbv zeta. pose proof (tvtojiffies_range i) as Hi. pose proof (tvtojiffies_range j) as Hj0.
  set (v := if tvtojiffies j =? 0 then 0 else tvtojiffies j + 1).
  assert (Hv : 0 <= v < 2 ^ 32) by (subst v; unfold ULONG_MAX in Hj; destruct (tvtojiffies j =? 0); lia).
  split.
  - destruct (set_virt i j s Hj) as (s1 & E & Eg & _ & Ei). fold v in Ei. exists s1. split; [done|].
    pose proof (ticks_of it_virt_value it_virt_incr put_virt SIGVTALRM (me s) (do_it_virt sigqueue_alloc (me s) 1)) as H.
    specialize (H ltac:(done) ltac:(done) ltac:(done) ltac:(by intros []) (virt_one (me s)) n s1).
    rewrite Ei in H. destruct H as [T1 T2 _ _]; [done|done|]. rewrite T1, T2, Eg, Ei. done.
  - destruct (set_prof i j s Hj) as (s1 & E & Eg & _ & Ei). fold v in Ei. exists s1. split; [done|].
    pose proof (ticks_of it_prof_value it_prof_incr put_prof SIGPROF (me s) (do_it_prof sigqueue_alloc (me s))) as H.
    specialize (H ltac:(done) ltac:(done) ltac:(done) ltac:(by intros []) (prof_one (me s)) n s1).
    rewrite Ei in H. destruct H as [T1 T2 _ _]; [done|done|]. rewrite T1, T2, Eg, Ei. done.
Qed.
End signals.

(** ** Sleeping *)

(** The jiffies nanosleep asks for. *)
Definition sleep_jiffies (sec nsec : Z) : Z := 512 * sec + (nsec + 1953124) `div` 1953125 + 1.

Lemma sleep_request sec nsec : 0 <= sec < 4194303 -> 0 <= nsec < 1000000000 -> sec <> 0 \/ nsec <> 0 ->
  u32 (timespec_to_jiffies sec nsec + if negb (sec =? 0) || negb (nsec =? 0) then 1 else 0) = sleep_jiffies sec nsec /\
  1 <= sleep_jiffies sec nsec < 2 ^ 31 - 1 /\
  sec * 1000000000 + nsec <= (sleep_jiffies sec nsec - 1) * 1953125 < sec * 1000000000 + nsec + 1953125.
Proof.
  intros Hs Hn H0. unfold timespec_to_jiffies, sleep_jiffies.
  change (MAX_JIFFY_OFFSET / HZ) with 4194303. change (1000000000 ÷ HZ) with 1953125. unfold HZ.
  rewrite (u32_small sec) by lia. destruct (Z.leb_spec 4194303 sec); [lia|].
  rewrite Z.quot_div_nonneg by lia. replace (nsec + 1953125 - 1) with (nsec + 1953124) by lia.
  pose proof (Z.div_mod (nsec + 1953124) 1953125 ltac:(lia)) as E. pose proof (Z.mod_pos_bound (nsec + 1953124) 1953125 ltac:(lia)).
  assert ((nsec + 1953124) `div` 1953125 < 513) by (apply Z.div_lt_upper_bound; lia).
  assert (0 <= (nsec + 1953124) `div` 1953125) by (apply Z.div_pos; lia).
  replace (negb (sec =? 0) || negb (nsec =? 0)) with true.
  2:{ destruct (Z.eqb_spec sec 0), (Z.eqb_spec nsec 0); simpl; try done. lia. }
  rewrite (u32_small (512 * sec + _)) by lia. rewrite u32_small by lia. split; [done|]. split; lia.
Qed.

Lemma s32_diff a b n : - 2 ^ 31 <= n < 2 ^ 31 -> a - b = n -> s32 (u32 a - u32 b) = n.
Proof.
  intros Hn E. unfold s32, u32. rewrite <- Zplus_mod_idemp_l, <- Zminus_mod, Zplus_mod_idemp_l, E.
  rewrite Z.mod_small; lia.
Qed.

Lemma sleep_left schedule timeout s d : 0 <= timeout < 2 ^ 31 - 1 -> 0 <= d < 2 ^ 31 ->
  let '(s', rest) := schedule_timeout schedule timeout s in
  now s' = u32 (now s + d) -> rest = if timeout <? d then 0 else timeout - d.
Proof.
  intros Ht Hd. unfold schedule_timeout. change MAX_SCHEDULE_TIMEOUT with (2 ^ 31 - 1).
  destruct (Z.eqb_spec timeout (2 ^ 31 - 1)); [lia|]. destruct (Z.ltb_spec timeout 0); [lia|].
  set (s2 := schedule _). cbv zeta. change (now (s2 <| wh ::= _ |>)) with (now s2). intros ->.
  rewrite (s32_diff _ _ (timeout - d)) by lia. destruct (Z.ltb_spec (timeout - d) 0), (Z.ltb_spec timeout d); lia.
Qed.

(** C23. nanosleep does not return early, for any request and whatever happens meanwhile.  A request of
    up to 2 ms of a real-time task is a busy wait that rounds up to microseconds.  A request of nothing
    returns at once.  A request of less than 4194303 seconds that returns 0 has let the timer
    interrupts of at least the requested time pass, not counting the one in progress; when it is
    interrupted the time it reports as left and the time that passed add up to at least
    the request, and to at most one tick more.  A longer request sleeps without a timer until it is interrupted,
    and then reports the same 4194303.998 seconds whatever time has passed. *)
Theorem nanosleep_not_early schedule udelay sec nsec s d :
  0 <= sec < 2 ^ 31 -> 0 <= nsec < 1000000000 -> 0 <= d < 2 ^ 31 ->
  let '(s', r, rest) := sys_nanosleep schedule udelay (Some (sec, nsec)) (Some false) s in
  now s' = u32 (now s + d) ->
  if (sec =? 0) && (nsec <=? 2000000) && negb (t_policy (stask (sg s) (me s)) =? SCHED_OTHER) then
    r = 0 /\ rest = None /\ exists us, s' = udelay us s /\ nsec <= us * 1000 < nsec + 1000
  else if (sec =? 0) && (nsec =? 0) then r = 0 /\ rest = None
  else if sec <? 4194303 then
    r = 0 /\ rest = None /\ sec * 1000000000 + nsec <= (d - 1) * 1953125 \/
    exists lsec lnsec, r = - EINTR /\ rest = Some (lsec, lnsec) /\ 0 <= lsec /\ 0 <= lnsec < 1000000000 /\
      sec * 1000000000 + nsec <= (lsec * 1000000000 + lnsec) + (d - 1) * 1953125 < sec * 1000000000 + nsec + 1953125
  else r = - EINTR /\ rest = Some (4194303, 998046875).
Proof.
  intros Hs Hn Hd. unfold sys_nanosleep.
  destruct (Z.leb_spec 1000000000 nsec); [lia|]. destruct (Z.ltb_spec nsec 0); [lia|]. destruct (Z.ltb_spec sec 0); [lia|].
  simpl orb. cbn iota. destruct ((sec =? 0) && (nsec <=? 2000000) && _).
  { intros _. split; [done|]. split; [done|]. eexists. split; [done|]. rewrite Z.quot_div_nonneg by lia.
    pose proof (Z.div_mod (nsec + 999) 1000 ltac:(lia)). pose proof (Z.mod_pos_bound (nsec + 999) 1000 ltac:(lia)). lia. }
  destruct ((sec =? 0) && (nsec =? 0)) eqn:E0.
  { apply andb_true_iff in E0 as [->%Z.eqb_eq ->%Z.eqb_eq].
    pose proof (sleep_left schedule 0 (set_my_state TASK_INTERRUPTIBLE s) d ltac:(lia) Hd) as HL.
    change (s32 (u32 _)) with 0. destruct (schedule_timeout _ _ _) as [s1 rest]. change (now (set_my_state TASK_INTERRUPTIBLE s)) with (now s) in HL.
    destruct (Z.eqb_spec rest 0) as [E|E]; cbn [negb]; intros Hnow; [done|]. specialize (HL Hnow). destruct (Z.ltb_spec 0 d); lia. }
  assert (Hz : sec <> 0 \/ nsec <> 0) by lia. destruct (Z.ltb_spec sec 4194303) as [Hl|Hl].
  - destruct (sleep_request sec nsec) as (-> & R1 & R2); [lia|done|done|]. rewrite s32_small by lia.
    pose proof (sleep_left schedule (sleep_jiffies sec nsec) (set_my_state TASK_INTERRUPTIBLE s) d ltac:(lia) Hd) as HL.
    destruct (schedule_timeout _ _ _) as [s1 rest]. change (now (set_my_state TASK_INTERRUPTIBLE s)) with (now s) in HL.
    destruct (Z.eqb_spec rest 0) as [E|E]; simpl negb; cbn iota; intros Hnow; specialize (HL Hnow).
    + left. split; [done|]. split; [done|]. destruct (Z.ltb_spec (sleep_jiffies sec nsec) d); lia.
    + right. destruct (Z.ltb_spec (sleep_jiffies sec nsec) d); [lia|]. unfold jiffies_to_timespec.
      change (1000000000 ÷ HZ) with 1953125. unfold HZ.
      pose proof (Z.div_mod rest 512 ltac:(lia)). pose proof (Z.mod_pos_bound rest 512 ltac:(lia)).
      pose proof (Z.div_pos rest 512 ltac:(lia) ltac:(lia)).
      exists (rest `div` 512), (rest `mod` 512 * 1953125). split_and!; try done; lia.
  - assert (E : s32 (u32 (timespec_to_jiffies sec nsec + if negb (sec =? 0) || negb (nsec =? 0) then 1 else 0)) = MAX_SCHEDULE_TIMEOUT).
    { unfold timespec_to_jiffies. change (MAX_JIFFY_OFFSET / HZ) with 4194303. rewrite (u32_small sec) by lia. destruct (Z.leb_spec 4194303 sec); [|lia].
      destruct (Z.eqb_spec sec 0); [lia|]. reflexivity. }
    rewrite E. unfold schedule_timeout. rewrite Z.eqb_refl. change (MAX_SCHEDULE_TIMEOUT =? 0) with false. cbn [negb].
    change (jiffies_to_timespec MAX_SCHEDULE_TIMEOUT) with (4194303, 998046875). done.
Qed.

(** ** The real timer *)

Lemma seconds_to_jiffies n : 0 <= n < 8388607 -> tvtojiffies (n, 0) = 512 * n.
Proof.
  intros Hn. unfold tvtojiffies. cbn [fst snd]. change (ULONG_MAX ÷ HZ) with 8388607. rewrite (u32_small n) by lia.
  destruct (Z.ltb_spec 8388607 n); [lia|].
  change (u32 (u32 0 + (1000000 ÷ HZ - 1)) ÷ (1000000 ÷ HZ)) with 0. unfold HZ. rewrite u32_small; lia.
Qed.

(** The state after alarm, with its timer on the wheel. *)
Lemma alarm_state n s : 0 < n < 4194303 ->
  let s1 := fst (sys_alarm n s) in
  wh s1 = add_timer (real_timer (me s)) (set_expires (real_timer (me s)) (u32 (512 * n + now s))
            (fst (del_timer (real_timer (me s)) (wh s)))) /\
  it_real_incr (itab s1 (me s)) = 0 /\ me s1 = me s /\ now s1 = now s.
Proof.
  intros Hn. cbv zeta. unfold sys_alarm, do_setitimer.
  cbn [it_interval it_value]. destruct (do_getitimer ITIMER_REAL s) as [k old] eqn:E.
  assert (k = 0) as -> by (unfold do_getitimer in E; cbn [Z.eqb] in E; by injection E as <- _).
  change (0 <? 0) with false. change (ITIMER_REAL =? ITIMER_REAL) with true. cbv iota zeta.
  rewrite !seconds_to_jiffies by lia. destruct (Z.eqb_spec (512 * n) 0); [lia|].
  destruct (Z.ltb_spec LONG_MAX (512 * n)); [unfold LONG_MAX in *; lia|]. simpl fst.
  split_and!; try done. simpl. by rewrite fn_lookup_alter.
Qed.

Lemma own_ops s t u : it_real_incr (itab s t) = 0 -> Forall (fun o => touches (real_timer t) o = false) (timer_ops s u).
Proof.
  intros Hi. unfold timer_ops, it_real_ops. destruct (Z.even u) eqn:Eu; [|done]. apply Z.even_spec in Eu as [m ->].
  replace (2 * m) with (m * 2) by lia. rewrite Z.div_mul by lia.
  destruct (Z.eqb_spec (it_real_incr (itab s m)) 0); simpl negb; cbn iota; [done|].
  constructor; [|done]. simpl. apply Z.eqb_neq. unfold real_timer. intros E. by replace m with t in * by lia.
Qed.

Lemma linked_add t w : linked (add_timer t w) t = true /\ expires (add_timer t w) = expires w.
Proof.
  unfold add_timer. destruct (linked w t) eqn:E; [done|]. unfold internal_add_timer, add_tail. cbv zeta.
  repeat case_match; simpl; split; try done; by rewrite fn_lookup_insert.
Qed.

(** An alarm of [n] seconds rings after 512 * n jiffies: its timer runs in the turn of the
    wheel for that time and in no other, whatever other timers are pending, where it sends
    SIGALRM to the task; and a second call of alarm made at once returns [n]. *)
Theorem alarm_rings alloc n s s2 T due k m : 0 < n < 4194303 -> wheel_ok (wh s) T due -> now s = u32 (T - 1) ->
  512 * n <= Z.of_nat k < 2 ^ 31 -> 0 <= m ->
  wh s2 = wh (fst (sys_alarm n s)) -> itab s2 = itab (fst (sys_alarm n s)) -> now s2 = u32 (T + Z.of_nat k - 1) ->
  (exists w' ls, timer_bh alloc k s2 =
       Some (fold_left (fun s x => timer_effect alloc x s) (concat ls) (s2 <| wh := w' |>)) /\ length ls = k /\
     forall j l, ls !! j = Some l -> real_timer (me s) ∈ l <-> Z.of_nat j + 1 = 512 * n) /\
  (forall s', timer_effect alloc (real_timer (me s)) s' = signal_task alloc SIGALRM (me s) s') /\
  snd (sys_alarm m (fst (sys_alarm n s))) = n.
Proof.
  intros Hn Hw Hnow Hk Hm E1 E2 E3. destruct (alarm_state n s Hn) as (A1 & A2 & A3 & A4). split; [|split].
  - set (t := real_timer (me s)) in *. rewrite Hnow in A1.
    pose proof (rest_del (wh s) T due t Hw) as Hw0.
    destruct (add_and_run (timer_ops s2) _ T _ t (T - 1 + 512 * n) k Hw0) as (w' & ls & R1 & R2 & R3);
      [by rewrite fn_lookup_insert|intros u; apply own_ops; by rewrite E2|lia|lia|].
    assert (E0 : u32 (u32 (512 * n + u32 (T - 1))) = u32 (T - 1 + 512 * n)).
    { unfold u32. rewrite Zmod_mod, Zplus_mod_idemp_r. f_equal. lia. }
    exists w', ls. split; [|split; [done|]].
    + unfold timer_bh. rewrite E1, E3, A1. replace (set_expires t (u32 (512 * n + u32 (T - 1))) (fst (del_timer t (wh s))))
        with (set_expires t (T - 1 + 512 * n) (fst (del_timer t (wh s)))); [by rewrite R1|].
      unfold set_expires. rewrite <- E0. done.
    + intros j l Hj. rewrite (R3 j l Hj). lia.
  - intros s'. unfold timer_effect, real_timer. rewrite Z.even_mul. change (Z.even 2 || _) with true. cbv iota.
    unfold it_real_fn. by rewrite Z.mul_comm, Z.div_mul by lia.
  - set (s1 := fst (sys_alarm n s)) in *. clearbody s1. unfold sys_alarm, do_setitimer, do_getitimer.
    change (ITIMER_REAL =? ITIMER_REAL) with true. cbv iota zeta. rewrite A3, A4, A1.
    destruct (linked_add (real_timer (me s)) (set_expires (real_timer (me s)) (u32 (512 * n + now s))
                (fst (del_timer (real_timer (me s)) (wh s))))) as [-> ->].
    unfold set_expires at 1 2. simpl expires. rewrite fn_lookup_insert.
    assert (E : u32 (u32 (u32 (512 * n + now s)) - now s) = 512 * n).
    { unfold u32. rewrite Zmod_mod, Zminus_mod_idemp_l. replace (512 * n + now s - now s) with (512 * n) by lia.
      apply Z.mod_small. lia. }
    rewrite E, s32_small by lia. destruct (Z.leb_spec (512 * n) 0); [lia|]. change (0 <? 0) with false. cbv iota.
    destruct (_ =? 0); cbn [snd default it_value fst jiffiestotv]; unfold jiffiestotv; cbn [fst snd]; unfold HZ;
      rewrite ?Z.quot_div_nonneg, ?Z.rem_mod_nonneg by lia; rewrite (Z.mul_comm 512 n), Z.mod_mul, Z.div_mul by lia; simpl;
      apply u32_small; lia.
Qed.

(** A timer of 8388607 seconds, the longest that the conversion does not cut, with 997984 to
    999936 microseconds more, is no jiffies at all: the 32 bits of the product overflow,
    setitimer disarms the timer and reports success. *)
Theorem setitimer_overflow i usec s : 997984 <= usec <= 999936 ->
  exists s', sys_setitimer ITIMER_REAL (Some (Some (Itimerval i (8388607, usec)))) None s = (s', 0, None) /\
    linked (wh s') (real_timer (me s)) = false /\
    sys_setitimer ITIMER_REAL (Some (Some (Itimerval i (0, 0)))) None s =
      (set_itm (me s) (fun p => p <| it_real_value := 0 |> <| it_real_incr := tvtojiffies i |>)
         (s <| wh := wh s' |>), 0, None).
Proof.
  intros Hu. assert (E : tvtojiffies (8388607, usec) = 0).
  { unfold tvtojiffies. cbn [fst snd]. change (ULONG_MAX ÷ HZ <? u32 8388607) with false. cbv iota.
    change (1000000 ÷ HZ) with 1953. rewrite (u32_small usec), (u32_small (usec + _)) by lia.
    rewrite Z.quot_div_nonneg by lia. replace ((usec + (1953 - 1)) `div` 1953) with 512; [reflexivity|].
    apply (Z.div_unique _ _ _ (usec + 1952 - 1953 * 512)); lia. }
  unfold sys_setitimer, do_setitimer. cbv [mjoin option_join from_option id it_value it_interval]. rewrite bool_decide_false by auto.
  rewrite E. change (0 <? 0) with false. change (ITIMER_REAL =? ITIMER_REAL) with true. change (0 =? 0) with true.
  change (tvtojiffies (0, 0) =? 0) with true. cbv iota zeta. eexists. split; [reflexivity|]. split; [|reflexivity].
  simpl. unfold del_timer, detach_timer. destruct (linked (wh s) (real_timer (me s))); simpl; by rewrite fn_lookup_insert.
Qed.

(** ** Witnesses *)

Definition no_itimers : itm := Itm 0 0 0 0 0 0 (Limits (fun _ => Rlimit 0 0) None) 0 0.
Definition times0 : times :=
  Times (on_sched (fun sc => sc <| jiffies := 2 ^ 32 - 1 |>) sig_machine) wheel0 (fun _ => no_itimers).

Lemma itimer_period_witness :
  let j := (0, 5000) in let i := (0, 3000) in
  tvtojiffies j = 3 /\ tvtojiffies i = 2 /\ expirations 4 2 9 = 3 /\
  exists s1, do_setitimer ITIMER_VIRTUAL (Itimerval i j) false times0 = (s1, 0, None) /\
    it_virt_value (itab (Nat.iter 9 (do_it_virt fresh_entry (me times0) 1) s1) (me times0)) = 1.
Proof.
  cbv zeta. split; [reflexivity|]. split; [reflexivity|]. split; [reflexivity|].
  destruct (itimer_period fresh_entry (0, 3000) (0, 5000) times0 9) as [(s1 & E & _ & H & _) _]; [reflexivity|].
  exists s1. split; [exact E|exact H].
Defined.

(** Interrupted after 10 ticks of a request of 50 ms. *)
Lemma nanosleep_not_early_witness :
  let '(s', r, rest) := sys_nanosleep (fun s => s <| sg ::= on_sched (fun sc => sc <| jiffies := 9 |>) |>) (fun _ s => s)
                          (Some (0, 50000000)) (Some false) times0 in
  r = - EINTR /\ exists lsec lnsec, rest = Some (lsec, lnsec) /\
    50000000 <= (lsec * 1000000000 + lnsec) + (10 - 1) * 1953125 < 50000000 + 1953125.
Proof.
  pose proof (nanosleep_not_early (fun s => s <| sg ::= on_sched (fun sc => sc <| jiffies := 9 |>) |>) (fun _ s => s)
    0 50000000 times0 10 ltac:(lia) ltac:(lia) ltac:(lia)) as H.
  assert (E1 : now (fst (fst (sys_nanosleep (fun s => s <| sg ::= on_sched (fun sc => sc <| jiffies := 9 |>) |>) (fun _ s => s)
                          (Some (0, 50000000)) (Some false) times0))) = 9) by (vm_compute; reflexivity).
  assert (E2 : snd (fst (sys_nanosleep (fun s => s <| sg ::= on_sched (fun sc => sc <| jiffies := 9 |>) |>) (fun _ s => s)
                          (Some (0, 50000000)) (Some false) times0)) = - EINTR) by (vm_compute; reflexivity).
  destruct (sys_nanosleep _ _ _ _ _) as [[s' r] rest]. cbn [fst snd] in E1, E2. subst r. split; [reflexivity|].
  destruct H as [(H & _)|(lsec & lnsec & _ & H2 & _ & _ & H3)]; [rewrite E1; vm_compute; reflexivity|discriminate H|].
  exists lsec, lnsec. split; [exact H2|exact H3].
Defined.

Lemma alarm_rings_witness :
  let s1 := fst (sys_alarm 1 times0) in
  let s2 := s1 <| sg ::= on_sched (fun sc => sc <| jiffies := 511 |>) |> in
  exists w' ls, timer_bh fresh_entry 512 s2 =
      Some (fold_left (fun s x => timer_effect fresh_entry x s) (concat ls) (s2 <| wh := w' |>)) /\ length ls = 512%nat /\
    forall j l, ls !! j = Some l -> real_timer (me times0) ∈ l <-> Z.of_nat j + 1 = 512 * 1.
Proof.
  cbv zeta.
  assert (H : forall f (s : times), wh (s <| sg ::= f |>) = wh s /\ itab (s <| sg ::= f |>) = itab s) by done.
  assert (Hn : forall s : times, now (s <| sg ::= on_sched (fun sc => sc <| jiffies := 511 |>) |>) = 511) by done.
  apply (alarm_rings fresh_entry 1 times0
    ((fst (sys_alarm 1 times0)) <| sg ::= on_sched (fun sc => sc <| jiffies := 511 |>) |>) 0 (fun _ => None) 512 7);
    [lia|exact wheel0_ok|vm_compute; reflexivity|vm_compute; split; [discriminate|reflexivity]|lia|apply H|apply H|].
  rewrite Hn. vm_compute. reflexivity.
Defined.

Lemma setitimer_overflow_witness :
  exists s', sys_setitimer ITIMER_REAL (Some (Some (Itimerval (0, 0) (8388607, 998000)))) None times0 = (s', 0, None) /\
    linked (wh s') (real_timer (me times0)) = false.
Proof. destruct (setitimer_overflow (0, 0) 998000 times0) as (s' & H1 & H2 & _); [lia|]. exists s'. split; [exact H1|exact H2]. Defined.
