(* ===== verification/Ipc.v ===== *)
(** * Identifiers and permissions of System V IPC (ipc/util.c, ipc/util.h)

    A set of identifiers is an array of pointers to the objects, [entries]; the store of
    the objects belongs to the component that uses the set, which passes the key of a
    pointer to [ipc_findkey].  [ipc_alloc] is an argument where it can fail.  Permissions
    are checked against the credentials of [Cred]. *)
From stdpp Require Import base list.
From S2P Require Import Prelude PidHash Sched SchedCalls Proc User Cred.

Definition ENOENT : Z := 2.
Definition E2BIG : Z := 7.
Definition EEXIST : Z := 17.
Definition EFBIG : Z := 27.
Definition ENOSPC : Z := 28.
Definition ERANGE : Z := 34.
Definition EIDRM : Z := 43.
Definition IPCMNI : Z := 32768.
Definition SEQ_MULTIPLIER : Z := IPCMNI.
Definition USHRT_MAX : Z := 65535.
Definition INT_MAX : Z := 2147483647.
Definition IPC_64 : Z := 256.
Definition IPC_OLD : Z := 0.
Definition IPC_PRIVATE : Z := 0.
Definition IPC_CREAT : Z := 512.
Definition IPC_EXCL : Z := 1024.
Definition IPC_NOWAIT : Z := 2048.
Definition IPC_RMID : Z := 0.
Definition IPC_SET : Z := 1.
Definition IPC_STAT : Z := 2.
Definition IPC_INFO : Z := 3.
Definition CAP_IPC_OWNER : Z := 15.
Definition S_IRWXUGO : Z := 511.
Definition S_IRUGO : Z := 292.
Definition S_IWUGO : Z := 146.

Record kern_ipc_perm := KernIpcPerm {
  ip_key : Z;
  ip_uid : Z;
  ip_gid : Z;
  ip_cuid : Z;
  ip_cgid : Z;
  ip_mode : Z;
  ip_seq : Z
}.
#[export] Instance eta_kern_ipc_perm : Eta kern_ipc_perm := fun p =>
  KernIpcPerm (ip_key p) (ip_uid p) (ip_gid p) (ip_cuid p) (ip_cgid p) (ip_mode p) (ip_seq p).

Record ipc_ids := IpcIds {
  in_use : Z;
  max_id : Z;
  ids_seq : Z;
  seq_max : Z;
  entries : list (option Z)
}.
#[export] Instance eta_ipc_ids : Eta ipc_ids := fun i =>
  IpcIds (in_use i) (max_id i) (ids_seq i) (seq_max i) (entries i).

Definition ids_size (i : ipc_ids) : Z := Z.of_nat (length (entries i)).
(** [ids->entries[n].p] *)
Definition entry (i : ipc_ids) (n : Z) : option Z := mjoin (entries i !! Z.to_nat n).

Definition ipc_init_ids (size : Z) (alloc : bool) : ipc_ids :=
  let size := if IPCMNI <? size then IPCMNI else size in
  let seq_limit := INT_MAX ÷ SEQ_MULTIPLIER in
  IpcIds 0 (-1) 0 (if USHRT_MAX <? seq_limit then USHRT_MAX else seq_limit)
    (if alloc then replicate (Z.to_nat size) None else []).

(** The loop from [id] on, over the entries from there. *)
Fixpoint findkey_from (key_of : Z -> Z) (key id last : Z) (l : list (option Z)) : Z :=
  if last <? id then -1
  else match l with
  | [] => -1
  | Some p :: l' => if key =? key_of p then id else findkey_from key_of key (id + 1) last l'
  | None :: l' => findkey_from key_of key (id + 1) last l'
  end.
Definition ipc_findkey (key_of : Z -> Z) (i : ipc_ids) (key : Z) : Z :=
  findkey_from key_of key 0 (max_id i) (entries i).

Definition grow_ary (i : ipc_ids) (newsize : Z) (alloc : bool) : ipc_ids * Z :=
  let newsize := if IPCMNI <? newsize then IPCMNI else newsize in
  if newsize <=? ids_size i then (i, newsize)
  else if negb alloc then (i, ids_size i)
  else (i <| entries ::= fun e => e ++ replicate (Z.to_nat (newsize - ids_size i)) None |>, newsize).

(** The first free entry from [id] on, below [size]. *)
Fixpoint free_from (id size : Z) (l : list (option Z)) : option Z :=
  if size <=? id then None
  else match l with
  | [] => None
  | None :: _ => Some id
  | Some _ :: l' => free_from (id + 1) size l'
  end.

(** The identifier and the sequence number of the new object [p], or -1. *)
Definition ipc_addid (i : ipc_ids) (p size : Z) (alloc : bool) : ipc_ids * Z * Z :=
  let '(i, size) := grow_ary i size alloc in
  match free_from 0 size (entries i) with
  | None => (i, -1, 0)
  | Some id =>
      let seq := ids_seq i in
      let next := (seq + 1) `mod` 65536 in
      (i <| in_use ::= Z.succ |> <| max_id := if max_id i <? id then id else max_id i |>
         <| ids_seq := if seq_max i <? next then 0 else next |>
         <| entries ::= <[Z.to_nat id := Some p]> |>, id, seq)
  end.

(** The fields of the object that [ipc_addid] sets. *)
Definition owned_by (c : cred) (seq : Z) (p : kern_ipc_perm) : kern_ipc_perm :=
  p <| ip_cuid := c_euid c |> <| ip_uid := c_euid c |> <| ip_gid := c_egid c |> <| ip_cgid := c_egid c |>
    <| ip_seq := seq |>.

(** The [do ... while] from [lid] down, over the entries below it in reverse. *)
Fixpoint last_used (lid : Z) (below : list (option Z)) : Z :=
  match below with
  | [] => -1
  | None :: l => last_used (lid - 1) l
  | Some _ :: _ => lid - 1
  end.

(** [None] is [BUG()]. *)
Definition ipc_rmid (i : ipc_ids) (id : Z) : option (ipc_ids * Z) :=
  let lid := Z.rem id SEQ_MULTIPLIER in
  if ids_size i <=? lid then None
  else
    p ← entry i lid;
    let i := i <| entries ::= <[Z.to_nat lid := None]> |> <| in_use ::= Z.pred |> in
    let i := if lid =? max_id i
             then i <| max_id := last_used lid (reverse (take (Z.to_nat lid) (entries i))) |> else i in
    Some (i, p).

Definition ipc_get (i : ipc_ids) (id : Z) : option Z :=
  let lid := Z.rem id SEQ_MULTIPLIER in if ids_size i <=? lid then None else entry i lid.
Definition ipc_lock : ipc_ids -> Z -> option Z := ipc_get.

Definition ipc_buildid (id seq : Z) : Z := s32 (SEQ_MULTIPLIER * seq + id).
Definition ipc_checkid (p : kern_ipc_perm) (uid : Z) : bool := negb (uid ÷ SEQ_MULTIPLIER =? ip_seq p).

Definition s16 (x : Z) : Z := (x + 2 ^ 15) `mod` 2 ^ 16 - 2 ^ 15.

(** True when access is refused; the flag is a short. *)
Definition ipcperms (p : kern_ipc_perm) (flag : Z) (s : ck) : ck * bool :=
  let flag := s16 flag in
  let requested := Z.lor (Z.lor (Z.shiftr flag 6) (Z.shiftr flag 3)) flag in
  let c := me s in
  let granted := if (c_euid c =? ip_cuid p) || (c_euid c =? ip_uid p) then Z.shiftr (ip_mode p) 6
                 else if in_group_p (ip_cgid p) s || in_group_p (ip_gid p) s then Z.shiftr (ip_mode p) 3
                 else ip_mode p in
  lacks (negb (Z.land (Z.land requested (Z.lnot granted)) 7 =? 0)) CAP_IPC_OWNER s.

Definition high2low (overflow id : Z) : Z := if 65535 <? id then overflow `mod` 65536 else id.
(** [kernel_to_ipc64_perm]; the sequence number is an unsigned short, the mode too. *)
Definition kernel_to_ipc64_perm (p : kern_ipc_perm) : kern_ipc_perm :=
  p <| ip_seq ::= fun x => x `mod` 65536 |> <| ip_mode ::= fun x => x `mod` 65536 |>.
Definition ipc64_perm_to_ipc_perm (overflowuid overflowgid : Z) (p : kern_ipc_perm) : kern_ipc_perm :=
  p <| ip_uid ::= high2low overflowuid |> <| ip_gid ::= high2low overflowgid |>
    <| ip_cuid ::= high2low overflowuid |> <| ip_cgid ::= high2low overflowgid |>.
(** The command without its version, and the version. *)
Definition ipc_parse_version (cmd : Z) : Z * Z :=
  if negb (Z.land cmd IPC_64 =? 0) then (Z.lxor cmd IPC_64, IPC_64) else (cmd, IPC_OLD).
