(* ===== verification/IpcProofs.v ===== *)
(** * Identifiers of System V IPC: what adding and removing an object does

    [sum_ents h] adds up a quantity of the objects of a set. *)
From stdpp Require Import base list.
From S2P Require Import Prelude PidHash Sched SchedCalls Proc User Cred Ipc.

Lemma grow_spec i size alloc : let '(i', n) := grow_ary i size alloc in
  (forall j p, entries i' !! j = Some (Some p) <-> entries i !! j = Some (Some p)) /\
  (forall j, entries i !! j <> None -> entries i' !! j = entries i !! j).
Proof.
  unfold grow_ary. cbv zeta. destruct (_ <=? ids_size i); [done|]. destruct alloc; [|done]. cbn [negb]. simpl.
  split.
  - intros j p. rewrite lookup_app. destruct (entries i !! j) as [x|] eqn:E; [done|]. split; [|done].
    intros H. apply lookup_replicate in H as [? _]. done.
  - intros j Hj. rewrite lookup_app. by destruct (entries i !! j).
Qed.

Lemma free_spec l : forall id size k, free_from id size l = Some k -> exists j, k = id + Z.of_nat j /\ l !! j = Some None.
Proof.
  induction l as [|[x|] l IH]; intros id size k; simpl; (destruct (size <=? id); [done|]); [done| |].
  - intros H. apply IH in H as (j & -> & Hj). exists (S j). split; [lia|done].
  - intros [= <-]. exists 0%nat. split; [lia|done].
Qed.

(** Adding an object keeps those that are there. *)
Lemma addid_spec i p size alloc : let '(i', id, seq) := ipc_addid i p size alloc in
  (id = -1 /\ forall j q, entries i' !! j = Some (Some q) <-> entries i !! j = Some (Some q)) \/
  exists k, id = Z.of_nat k /\ (forall q, entries i !! k <> Some (Some q)) /\
    forall j q, entries i' !! j = Some (Some q) <-> j = k /\ q = p \/ j <> k /\ entries i !! j = Some (Some q).
Proof.
  unfold ipc_addid. pose proof (grow_spec i size alloc) as G. destruct (grow_ary i size alloc) as [i1 n]. destruct G as [G1 G2].
  destruct (free_from 0 n (entries i1)) as [id|] eqn:E; [|by left]. right.
  apply free_spec in E as (k & Ek & Hk). rewrite Z.add_0_l in Ek. subst id. exists k. split; [lia|]. split.
  { intros q Hq. rewrite <- G1 in Hq. congruence. }
  intros j q. simpl. rewrite Nat2Z.id.
  destruct (decide (k = j)) as [<-|Hne].
  - rewrite list_lookup_insert_eq by (by eapply lookup_lt_Some). split; [intros [= ->]; by left|]. intros [[_ ->]|[? _]]; done.
  - rewrite list_lookup_insert_ne by done. rewrite G1. split; [by right; auto|]. intros [[-> _]|[_ ?]]; done.
Qed.

(** Identifiers stay below IPCMNI. *)
Lemma addid_bound i p size alloc : snd (fst (ipc_addid i p size alloc)) < IPCMNI.
Proof.
  unfold ipc_addid. assert (B : snd (grow_ary i size alloc) <= IPCMNI).
  { unfold grow_ary. cbv zeta. set (n := if IPCMNI <? size then IPCMNI else size).
    assert (n <= IPCMNI) by (unfold n; destruct (Z.ltb_spec IPCMNI size); lia). destruct (Z.leb_spec n (ids_size i)), alloc; simpl; lia. }
  destruct (grow_ary i size alloc) as [i1 n]. simpl in B.
  destruct (free_from 0 n (entries i1)) as [id|] eqn:E; [|done]. simpl. enough (id < n) by lia.
  assert (F : forall l id0, free_from id0 n l = Some id -> id < n); [|by eapply F].
  intros l. induction l as [|[x|] l IH]; intros id0; simpl; (destruct (Z.leb_spec n id0); [done|]); [done|apply IH|by intros [= <-]].
Qed.

(** ipc_findkey finds an object, if one at all. *)
Lemma findkey_spec key_of i key : let id := ipc_findkey key_of i key in
  id = -1 \/ exists k p, id = Z.of_nat k /\ entries i !! k = Some (Some p) /\ key_of p = key.
Proof.
  unfold ipc_findkey. cbv zeta.
  assert (F : forall l id last, findkey_from key_of key id last l = -1 \/
    exists k p, findkey_from key_of key id last l = id + Z.of_nat k /\ l !! k = Some (Some p) /\ key_of p = key).
  { intros l. induction l as [|[x|] l IH]; intros id last; simpl; (destruct (last <? id); [by left|]); [by left| |].
    - destruct (Z.eqb_spec key (key_of x)) as [->|]; [right; exists 0%nat, x; split; [lia|done]|].
      destruct (IH (id + 1) last) as [|(k & p & E & H)]; [by left|right; exists (S k), p; split; [lia|done]].
    - destruct (IH (id + 1) last) as [|(k & p & E & H)]; [by left|right; exists (S k), p; split; [lia|done]]. }
  destruct (F (entries i) 0 (max_id i)) as [|(k & p & E & H)]; [by left|right; exists k, p; split; [lia|done]].
Qed.

Lemma ipc_lock_spec i id p : 0 <= id -> ipc_lock i id = Some p <-> entries i !! Z.to_nat (Z.rem id SEQ_MULTIPLIER) = Some (Some p).
Proof.
  intros Hid. unfold ipc_lock, ipc_get, entry, ids_size.
  assert (0 <= Z.rem id SEQ_MULTIPLIER) by (apply Z.rem_nonneg; [done|lia]).
  destruct (Z.leb_spec (Z.of_nat (length (entries i))) (Z.rem id SEQ_MULTIPLIER)) as [H1|H1].
  - rewrite lookup_ge_None_2 by lia. done.
  - destruct (entries i !! _) as [[q|]|]; simpl; split; congruence.
Qed.

Lemma rmid_spec i id ids p : 0 <= id -> ipc_rmid i id = Some (ids, p) ->
  let k := Z.to_nat (Z.rem id SEQ_MULTIPLIER) in
  entries i !! k = Some (Some p) /\ entries ids = <[k := None]> (entries i).
Proof.
  intros Hid. unfold ipc_rmid, entry. cbv zeta. destruct (_ <=? _); [done|].
  destruct (entries i !! _) as [[q|]|] eqn:E; simpl; [|done|done]. intros [= <- <-]. split; [done|].
  by destruct (_ =? max_id i).
Qed.

(** ** Sums *)

Fixpoint sumZ {A} (h : A -> Z) (l : list A) : Z := match l with [] => 0 | x :: l => h x + sumZ h l end.

Lemma sumZ_app {A} (h : A -> Z) l k : sumZ h (l ++ k) = sumZ h l + sumZ h k.
Proof. induction l; simpl; lia. Qed.
Lemma sumZ_ext {A} (h g : A -> Z) l : (forall x, x ∈ l -> h x = g x) -> sumZ h l = sumZ g l.
Proof.
  induction l as [|x l IH]; intros H; [done|]. simpl. rewrite (H x (list_elem_of_here _ _)), IH; [done|].
  intros y Hy. apply H. by apply elem_of_cons; right.
Qed.
Lemma sumZ_nonneg {A} (h : A -> Z) l : (forall x, x ∈ l -> 0 <= h x) -> 0 <= sumZ h l.
Proof.
  induction l as [|x l IH]; intros H; simpl; [lia|]. pose proof (H x (list_elem_of_here _ _)).
  specialize (IH ltac:(intros y Hy; apply H; by apply elem_of_cons; right)). lia.
Qed.
Lemma sumZ_insert {A} (h : A -> Z) l i x y : l !! i = Some x -> sumZ h (<[i := y]> l) = sumZ h l - h x + h y.
Proof. revert i. induction l as [|z l IH]; intros [|i] E; simpl in *; [done|done|injection E as ->; lia|rewrite (IH i E); lia]. Qed.
Lemma sumZ_delete {A} (h : A -> Z) l i x : l !! i = Some x -> sumZ h (delete i l) = sumZ h l - h x.
Proof. revert i. induction l as [|z l IH]; intros [|i] E; simpl in *; [done|done|injection E as ->; lia|rewrite (IH i E); lia]. Qed.

(** The quantity changes for one element of the list. *)
Lemma sumZ_change {A} (h g : A -> Z) l i x : l !! i = Some x -> (forall j y, j <> i -> l !! j = Some y -> h y = g y) ->
  sumZ g l = sumZ h l - h x + g x.
Proof.
  revert i. induction l as [|z l IH]; intros i E H; [done|]. destruct i as [|i]; simpl in E |- *.
  - injection E as ->. rewrite (sumZ_ext g h l); [lia|]. intros y (j & Hj)%list_elem_of_lookup. symmetry. by apply (H (S j)).
  - rewrite (IH i E); [rewrite (H 0%nat z ltac:(done) eq_refl); lia|]. intros j y Hj Hy. apply (H (S j)); [congruence|done].
Qed.

(** An element leaves the list. *)
Lemma sumZ_remove {A} `{EqDecision A} (h : A -> Z) l x : NoDup l -> x ∈ l -> sumZ h (filter (fun y => y <> x) l) = sumZ h l - h x.
Proof.
  induction l as [|z l IH]; intros N Hx; [by apply not_elem_of_nil in Hx|]. apply list.NoDup_cons in N as [Nz N].
  apply elem_of_cons in Hx as [->|Hx].
  - rewrite filter_cons_False by (intros ?; done). 
    assert (E : filter (fun y => y <> z) l = l).
    { clear - Nz. induction l as [|y l IH]; [done|]. rewrite not_elem_of_cons in Nz. destruct Nz as [N1 N2].
      rewrite filter_cons_True by done. by rewrite IH. }
    rewrite E. simpl. lia.
  - rewrite filter_cons_True by (intros ->; done). simpl. rewrite IH by done. lia.
Qed.

Definition ent (h : Z -> Z) (e : option Z) : Z := match e with Some p => h p | None => 0 end.
Definition sum_ents (h : Z -> Z) (i : ipc_ids) : Z := sumZ (ent h) (entries i).

Lemma sum_grow h i size alloc : sum_ents h (fst (grow_ary i size alloc)) = sum_ents h i.
Proof.
  unfold grow_ary. cbv zeta. destruct (_ <=? ids_size i); [done|]. destruct alloc; [|done]. unfold sum_ents. simpl. rewrite sumZ_app.
  match goal with |- context [replicate ?n _] => induction n; simpl in *; lia end.
Qed.

Lemma sum_addid h i p size alloc : let '(i', id, _) := ipc_addid i p size alloc in
  sum_ents h i' = sum_ents h i + if id =? -1 then 0 else h p.
Proof.
  unfold ipc_addid. pose proof (sum_grow h i size alloc) as G. destruct (grow_ary i size alloc) as [i1 n]. cbn [fst] in G.
  destruct (free_from 0 n (entries i1)) as [id|] eqn:E; [|rewrite G; simpl; lia]. apply free_spec in E as (k & Ek & Hk).
  destruct (Z.eqb_spec id (-1)); [lia|]. rewrite <- G. unfold sum_ents. cbn [entries]. assert (Z.to_nat id = k) as -> by lia.
  simpl. rewrite (sumZ_insert _ _ _ _ _ Hk). simpl. lia.
Qed.

Lemma sum_rmid h i id ids p : 0 <= id -> ipc_rmid i id = Some (ids, p) -> sum_ents h ids = sum_ents h i - h p.
Proof.
  intros Hid E. apply rmid_spec in E as [E1 E2]; [|done]. unfold sum_ents. rewrite E2, (sumZ_insert _ _ _ _ _ E1). simpl. lia.
Qed.

(** The quantity of one object changes; no object is there twice. *)
Lemma sum_object h g i k p : entries i !! k = Some (Some p) -> (forall j, entries i !! j = Some (Some p) -> j = k) ->
  (forall q, q <> p -> h q = g q) -> sum_ents g i = sum_ents h i - h p + g p.
Proof.
  intros Hk Hu Hg. unfold sum_ents. rewrite (sumZ_change (ent h) (ent g) _ _ _ Hk); [done|].
  intros j [q|] Hj Hy; [|done]. simpl. apply Hg. intros ->. by apply Hj, Hu.
Qed.
