(* ===== verification/Sem.v ===== *)
(** * System V semaphores (ipc/sem.c)

    Pointers are numbers, with stores for the semaphore sets ([sem_arrays]) and the undo
    structures ([undos]); the [sem_queue] on the stack of a sleeping task is found by the
    task ([queues]).  [semundo t] is the list of [t]'s undo structures, through
    [proc_next].  The semaphores of a set, and the adjustments of an undo structure, are
    lists.  A call that unlocks the set in the middle, to allocate memory or to copy from
    user space, takes [gap], what the other tasks do meanwhile; sys_semop is split
    where it sleeps.  Tasks are woken in the scheduler of [Sched]. *)
From stdpp Require Import base list functions.
From S2P Require Import Prelude PidHash Bitmap Sched SchedCalls Proc User Cred Ipc SigCalls.

Definition EINTR : Z := 4.
Definition CAP_SYS_ADMIN : Z := 21.
Definition SEM_UNDO : Z := 4096.
Definition GETPID : Z := 11.
Definition GETVAL : Z := 12.
Definition GETALL : Z := 13.
Definition GETNCNT : Z := 14.
Definition GETZCNT : Z := 15.
Definition SETVAL : Z := 16.
Definition SETALL : Z := 17.
Definition SEM_STAT : Z := 18.
Definition SEM_INFO : Z := 19.
Definition SEMMNI : Z := 128.
Definition SEMMSL : Z := 250.
Definition SEMMNS : Z := SEMMNI * SEMMSL.
Definition SEMOPM : Z := 32.
Definition SEMVMX : Z := 32767.
Definition SEMAEM : Z := SEMVMX.
Definition SEMUSZ : Z := 20.
Definition SEMMSL_FAST : Z := 256.
Definition SEMOPM_FAST : Z := 64.

Record sem := Sem { semval : Z; sempid : Z }.
#[export] Instance eta_sem : Eta sem := fun x => Sem (semval x) (sempid x).
Record sembuf := Sembuf { sem_num : Z; sem_op : Z; sem_flg : Z }.
#[export] Instance eta_sembuf : Eta sembuf := fun x => Sembuf (sem_num x) (sem_op x) (sem_flg x).

Record sem_array := SemArray {
  sem_perm : kern_ipc_perm;
  sem_otime : Z;
  sem_ctime : Z;
  sem_base : list sem;
  sem_pending : list tid;
  sem_undos : list Z
}.
#[export] Instance eta_sem_array : Eta sem_array := fun a =>
  SemArray (sem_perm a) (sem_otime a) (sem_ctime a) (sem_base a) (sem_pending a) (sem_undos a).
Definition sem_nsems (a : sem_array) : Z := Z.of_nat (length (sem_base a)).

(** [q_linked] says that [prev] is not NULL; [q_alters] is the variable [alter] of
    sys_semop, [q_alter] the field of that name. *)
Record sem_queue := SemQueue {
  q_undo : option Z;
  q_pid : Z;
  q_status : Z;
  q_sma : Z;
  q_id : Z;
  q_sops : list sembuf;
  q_alter : bool;
  q_linked : bool;
  q_alters : bool
}.
#[export] Instance eta_sem_queue : Eta sem_queue := fun q =>
  SemQueue (q_undo q) (q_pid q) (q_status q) (q_sma q) (q_id q) (q_sops q) (q_alter q) (q_linked q) (q_alters q).

Record sem_undo := SemUndo { un_semid : Z; semadj : list Z }.
#[export] Instance eta_sem_undo : Eta sem_undo := fun u => SemUndo (un_semid u) (semadj u).

Record sems := Sems {
  sem_ids : ipc_ids;
  sem_arrays : Z -> sem_array;
  undos : Z -> sem_undo;
  queues : tid -> sem_queue;
  semundo : tid -> list Z;
  semsleeping : tid -> bool;
  used_sems : Z;
  sem_ctls : Z * Z * Z * Z;
  s_cred : ck;
  s_sched : sched;
  CURRENT_TIME : Z
}.
#[export] Instance eta_sems : Eta sems := fun s =>
  Sems (sem_ids s) (sem_arrays s) (undos s) (queues s) (semundo s) (semsleeping s) (used_sems s) (sem_ctls s)
    (s_cred s) (s_sched s) (CURRENT_TIME s).

Definition sc_semmsl (s : sems) : Z := fst (fst (fst (sem_ctls s))).
Definition sc_semmns (s : sems) : Z := snd (fst (fst (sem_ctls s))).
Definition sc_semopm (s : sems) : Z := snd (fst (sem_ctls s)).
Definition sc_semmni (s : sems) : Z := snd (sem_ctls s).
Definition current (s : sems) : tid := ccur (s_cred s).
Definition my_cred (s : sems) : cred := me (s_cred s).
Definition set_array (p : Z) (f : sem_array -> sem_array) (s : sems) : sems := s <| sem_arrays ::= alter f p |>.
Definition set_queue (t : tid) (f : sem_queue -> sem_queue) (s : sems) : sems := s <| queues ::= alter f t |>.
Definition set_undo (u : Z) (f : sem_undo -> sem_undo) (s : sems) : sems := s <| undos ::= alter f u |>.
Definition wake (t : tid) (s : sems) : sems := s <| s_sched ::= fun sc => fst (wake_up_process t sc) |>.
Definition sem_perms (p : Z) (flag : Z) (s : sems) : sems * bool :=
  let '(c, refused) := ipcperms (sem_perm (sem_arrays s p)) flag (s_cred s) in (s <| s_cred := c |>, refused).
Definition sem_lock (id : Z) (s : sems) : option Z := ipc_lock (sem_ids s) id.
Definition sem_checkid (p semid : Z) (s : sems) : bool := ipc_checkid (sem_perm (sem_arrays s p)) semid.

(** [sem_init]; [alloc] says whether the array of identifiers could be allocated. *)
Definition sem_init (alloc : bool) (s : sems) : sems :=
  s <| used_sems := 0 |> <| sem_ids := ipc_init_ids (sc_semmni s) alloc |>.

(** ** Creating sets *)

(** [new] is the result of [ipc_alloc] for the set, [grow] that for a larger array of
    identifiers. *)
Definition newary (key nsems semflg : Z) (new : option Z) (grow : bool) (s : sems) : sems * Z :=
  if nsems =? 0 then (s, - EINVAL)
  else if sc_semmns s <? used_sems s + nsems then (s, - ENOSPC)
  else match new with
  | None => (s, - ENOMEM)
  | Some p =>
      let '(ids, id, seq) := ipc_addid (sem_ids s) p (sc_semmni s) grow in
      if id =? -1 then (s <| sem_ids := ids |>, - ENOSPC)
      else
        let perm := (owned_by (my_cred s) seq (KernIpcPerm 0 0 0 0 0 0 0))
                      <| ip_mode := Z.land semflg S_IRWXUGO |> <| ip_key := key |> in
        let a := SemArray perm 0 (CURRENT_TIME s) (replicate (Z.to_nat nsems) (Sem 0 0)) [] [] in
        (s <| sem_ids := ids |> <| sem_arrays ::= <[p := a]> |> <| used_sems ::= Z.add nsems |>,
         ipc_buildid id seq)
  end.


(** [None] is [BUG()]. *)
Definition sys_semget (key nsems semflg : Z) (new : option Z) (grow : bool) (s : sems) : option (sems * Z) :=
  if (nsems <? 0) || (sc_semmsl s <? nsems) then Some (s, - EINVAL)
  else if key =? IPC_PRIVATE then Some (newary key nsems semflg new grow s)
  else
    let id := ipc_findkey (fun p => ip_key (sem_perm (sem_arrays s p))) (sem_ids s) key in
    if id =? -1 then
      Some (if has semflg IPC_CREAT then newary key nsems semflg new grow s else (s, - ENOENT))
    else if has semflg IPC_CREAT && has semflg IPC_EXCL then Some (s, - EEXIST)
    else
      p ← sem_lock id s;
      if sem_nsems (sem_arrays s p) <? nsems then Some (s, - EINVAL)
      else
        let '(s1, refused) := sem_perms p semflg s in
        Some (s1, if refused then - EACCES else ipc_buildid id (ip_seq (sem_perm (sem_arrays s p)))).

(** 0 or an error. *)
Definition sem_revalidate (semid p nsems flg : Z) (s : sems) : sems * Z :=
  match sem_lock semid s with
  | None => (s, - EIDRM)
  | Some p' =>
      if negb (p' =? p) || sem_checkid p semid s || negb (sem_nsems (sem_arrays s p) =? nsems) then (s, - EIDRM)
      else let '(s1, refused) := sem_perms p flg s in (s1, if refused then - EACCES else 0)
  end.

(** ** The queue of a set *)

Definition append_to_queue (p : Z) (t : tid) (s : sems) : sems :=
  set_queue t (fun q => q <| q_linked := true |>) (set_array p (fun a => a <| sem_pending ::= fun l => l ++ [t] |>) s).
Definition prepend_to_queue (p : Z) (t : tid) (s : sems) : sems :=
  set_queue t (fun q => q <| q_linked := true |>) (set_array p (fun a => a <| sem_pending ::= fun l => t :: l |>) s).
Definition remove_from_queue (p : Z) (t : tid) (s : sems) : sems :=
  set_queue t (fun q => q <| q_linked := false |>)
    (set_array p (fun a => a <| sem_pending ::= filter (fun u => u <> t) |>) s).

(** ** A sequence of operations, all at once *)

Inductive verdict := Passes | WouldBlock (sop : sembuf) | OutOfRange.

Definition dflt_sem : sem := Sem 0 0.
Definition sem_at (base : list sem) (n : Z) : sem := default dflt_sem (base !! Z.to_nat n).
Definition adj_at (adj : list Z) (n : Z) : Z := default 0 (adj !! Z.to_nat n).
Definition set_at {A} (n : Z) (f : A -> A) (l : list A) : list A := alter f (Z.to_nat n) l.

(** The [for] loop: the verdict, the operations from [sop] back to the first, the
    semaphores and the adjustments. *)
Fixpoint semop_forward (pid : Z) (sops passed : list sembuf) (base : list sem) (adj : list Z)
  : verdict * list sembuf * list sem * list Z :=
  match sops with
  | [] => (Passes, passed, base, adj)
  | sop :: rest =>
      let n := sem_num sop in
      let op := sem_op sop in
      if (op =? 0) && negb (semval (sem_at base n) =? 0) then (WouldBlock sop, sop :: passed, base, adj)
      else
        let base1 := set_at n (fun c => Sem (semval c + op) (Z.lor (s32 (Z.shiftl (sempid c) 16)) pid)) base in
        let undo := adj_at adj n - op in
        if has (sem_flg sop) SEM_UNDO && ((undo <? - SEMAEM - 1) || (SEMAEM <? undo))
        then (OutOfRange, sop <| sem_flg ::= fun f => Z.land f (Z.lnot SEM_UNDO) |> :: passed, base1, adj)
        else
          let adj1 := if has (sem_flg sop) SEM_UNDO then set_at n (fun _ => undo) adj else adj in
          if semval (sem_at base1 n) <? 0 then (WouldBlock sop, sop :: passed, base1, adj1)
          else if SEMVMX <? semval (sem_at base1 n) then (OutOfRange, sop :: passed, base1, adj1)
          else semop_forward pid rest (sop :: passed) base1 adj1
  end.

(** The loop at [undo]. *)
Definition undo_op (st : list sem * list Z) (sop : sembuf) : list sem * list Z :=
  (set_at (sem_num sop) (fun c => Sem (semval c - sem_op sop) (Z.shiftr (sempid c) 16)) (fst st),
   if has (sem_flg sop) SEM_UNDO then set_at (sem_num sop) (fun x => x + sem_op sop) (snd st) else snd st).
Definition semop_undo (passed : list sembuf) (base : list sem) (adj : list Z) : list sem * list Z :=
  fold_left undo_op passed (base, adj).

(** The semaphores, the adjustments and the result. *)
Definition atomic_semop (sops : list sembuf) (pid : Z) (do_undo : bool) (base : list sem) (adj : list Z)
  : list sem * list Z * Z :=
  match semop_forward pid sops [] base adj with
  | (Passes, passed, b, a) => if do_undo then (semop_undo passed b a, 0) else (b, a, 0)
  | (OutOfRange, passed, b, a) => (semop_undo passed b a, - ERANGE)
  | (WouldBlock sop, passed, b, a) =>
      (semop_undo passed b a, if has (sem_flg sop) IPC_NOWAIT then - EAGAIN else 1)
  end.

Definition try_atomic_semop (p : Z) (sops : list sembuf) (un : option Z) (pid : Z) (do_undo : bool) (s : sems)
  : sems * Z :=
  let '(b, a, result) := atomic_semop sops pid do_undo (sem_base (sem_arrays s p))
                           (match un with Some u => semadj (undos s u) | None => [] end) in
  let s1 := set_array p (fun x => x <| sem_base := b |>) s in
  let s2 := match un with Some u => set_undo u (fun x => x <| semadj := a |>) s1 | None => s1 end in
  (if (result =? 0) && negb do_undo then set_array p (fun x => x <| sem_otime := CURRENT_TIME s |>) s2 else s2,
   result).

(** The loop over the queue; the entry at hand may leave it. *)
Fixpoint update_loop (p : Z) (l : list tid) (s : sems) : sems :=
  match l with
  | [] => s
  | t :: rest =>
      let q := queues s t in
      if q_status q =? 1 then update_loop p rest s
      else
        let '(s1, error) := try_atomic_semop p (q_sops q) (q_undo q) (q_pid q) (q_alter q) s in
        if error <=? 0 then
          let s2 := wake t s1 in
          if (error =? 0) && q_alter q then set_queue t (fun q => q <| q_status := 1 |>) s2
          else update_loop p rest (remove_from_queue p t (set_queue t (fun q => q <| q_status := error |>) s2))
        else update_loop p rest s1
  end.
Definition update_queue (p : Z) (s : sems) : sems := update_loop p (sem_pending (sem_arrays s p)) s.

Definition count_ops (f : sembuf -> bool) (semnum : Z) (p : Z) (s : sems) : Z :=
  Z.of_nat (length (filter (fun o => ((sem_num o =? semnum) && f o && negb (has (sem_flg o) IPC_NOWAIT)) = true)
    (concat (map (fun t => q_sops (queues s t)) (sem_pending (sem_arrays s p)))))).
Definition count_semncnt : Z -> Z -> sems -> Z := count_ops (fun o => sem_op o <? 0).
Definition count_semzcnt : Z -> Z -> sems -> Z := count_ops (fun o => sem_op o =? 0).

(** [None] is a [BUG()] of [ipc_rmid]. *)
Definition freeary (id : Z) (s : sems) : option sems :=
  r ← ipc_rmid (sem_ids s) id;
  let '(ids, p) := r in
  let a := sem_arrays s p in
  let s1 := s <| sem_ids := ids |> in
  let s2 := fold_left (fun s u => set_undo u (fun x => x <| un_semid := -1 |>) s) (sem_undos a) s1 in
  let s3 := fold_left (fun s t => wake t (set_queue t (fun q => q <| q_status := - EIDRM |> <| q_linked := false |>) s))
              (sem_pending a) s2 in
  Some (s3 <| used_sems ::= fun n => n - sem_nsems a |>).

(** ** semctl *)

(** What a call stores in user space. *)
Inductive semctl_out :=
  | NoOut
  | OutInfo (seminfo : list Z)
  | OutStat (perm : kern_ipc_perm) (otime ctime nsems : Z)
  | OutVals (vals : list Z).
(** The argument: a value, the words to read or [None] for a fault, the fields that
    IPC_SET reads, and whether stores fault. *)
Record semun := Semun {
  a_val : Z;
  a_array : option (Z -> Z);
  a_set : option (Z * Z * Z);
  a_fault : bool
}.

Section ctl.
Context (overflowuid overflowgid : Z).
(** What the other tasks do while the set is not locked, and whether memory is found. *)
Context (gap : sems -> sems) (alloc : bool).

Definition sem_stat (a : sem_array) (version : Z) : semctl_out :=
  let perm := kernel_to_ipc64_perm (sem_perm a) in
  if version =? IPC_64 then OutStat perm (sem_otime a) (sem_ctime a) (sem_nsems a)
  else OutStat (ipc64_perm_to_ipc_perm overflowuid overflowgid perm) (sem_otime a) (sem_ctime a)
         (sem_nsems a `mod` 65536).

Definition semctl_nolock (semid cmd version : Z) (arg : semun) (s : sems) : sems * Z * semctl_out :=
  if (cmd =? IPC_INFO) || (cmd =? SEM_INFO) then
    let '(usz, aem) := if cmd =? SEM_INFO then (in_use (sem_ids s), used_sems s) else (SEMUSZ, SEMAEM) in
    if a_fault arg then (s, - EFAULT, NoOut)
    else (s, if max_id (sem_ids s) <? 0 then 0 else max_id (sem_ids s),
          OutInfo [SEMMNS; sc_semmni s; sc_semmns s; SEMMNS; sc_semmsl s; sc_semopm s; SEMOPM; usz; SEMVMX; aem])
  else if cmd =? SEM_STAT then
    if ids_size (sem_ids s) <=? semid then (s, - EINVAL, NoOut)
    else match sem_lock semid s with
    | None => (s, - EINVAL, NoOut)
    | Some p =>
        let '(s1, refused) := sem_perms p S_IRUGO s in
        let a := sem_arrays s1 p in
        if refused then (s1, - EACCES, NoOut)
        else if a_fault arg then (s1, - EFAULT, NoOut)
        else (s1, ipc_buildid semid (ip_seq (sem_perm a)), sem_stat a version)
    end
  else (s, - EINVAL, NoOut).

Definition semvals (a : sem_array) : list Z := map (fun x => semval x `mod` 65536) (sem_base a).

Definition semctl_getall (semid p nsems : Z) (arg : semun) (s : sems) : sems * Z * semctl_out :=
  let '(s1, err) := if SEMMSL_FAST <? nsems then
                      let s0 := gap s in
                      if alloc then sem_revalidate semid p nsems S_IRUGO s0 else (s0, - ENOMEM)
                    else (s, 0) in
  if negb (err =? 0) then (s1, err, NoOut)
  else if a_fault arg then (s1, - EFAULT, NoOut) else (s1, 0, OutVals (semvals (sem_arrays s1 p))).

(** The loops over the undo structures of the set. *)
Definition clear_adj (p : Z) (f : list Z -> list Z) (s : sems) : sems :=
  fold_left (fun s u => set_undo u (fun x => x <| semadj ::= f |>) s) (sem_undos (sem_arrays s p)) s.

Definition semctl_setall (semid p nsems : Z) (arg : semun) (s : sems) : sems * Z :=
  let s0 := gap s in
  if (SEMMSL_FAST <? nsems) && negb alloc then (s0, - ENOMEM)
  else match a_array arg with
  | None => (s0, - EFAULT)
  | Some f =>
      let sem_io := map f (seqZ 0 nsems) in
      if existsb (fun v => SEMVMX <? v) sem_io then (s0, - ERANGE)
      else
        let '(s1, err) := sem_revalidate semid p nsems S_IWUGO s0 in
        if negb (err =? 0) then (s1, err)
        else
          let s2 := set_array p (fun a => a <| sem_base ::= fun b => zip_with (fun c v => c <| semval := v |>) b sem_io |>) s1 in
          let s3 := clear_adj p (map (fun _ => 0)) s2 in
          let s4 := set_array p (fun a => a <| sem_ctime := CURRENT_TIME s3 |>) s3 in
          (update_queue p s4, 0)
  end.

Definition semctl_setval (p semnum val : Z) (s : sems) : sems * Z :=
  if (SEMVMX <? val) || (val <? 0) then (s, - ERANGE)
  else
    let s1 := clear_adj p (set_at semnum (fun _ => 0)) s in
    let s2 := set_array p (fun a => a <| sem_base ::= set_at semnum (fun _ => Sem val (c_pid (my_cred s))) |>
                                      <| sem_ctime := CURRENT_TIME s |>) s1 in
    (update_queue p s2, 0).

Definition semctl_main (semid semnum cmd version : Z) (arg : semun) (s : sems) : sems * Z * semctl_out :=
  match sem_lock semid s with
  | None => (s, - EINVAL, NoOut)
  | Some p =>
      let nsems := sem_nsems (sem_arrays s p) in
      if sem_checkid p semid s then (s, - EIDRM, NoOut)
      else
        let '(s, refused) := sem_perms p (if (cmd =? SETVAL) || (cmd =? SETALL) then S_IWUGO else S_IRUGO) s in
        let a := sem_arrays s p in
        if refused then (s, - EACCES, NoOut)
        else if cmd =? GETALL then semctl_getall semid p nsems arg s
        else if cmd =? SETALL then (semctl_setall semid p nsems arg s, NoOut)
        else if cmd =? IPC_STAT then
          if a_fault arg then (s, - EFAULT, NoOut) else (s, 0, sem_stat a version)
        else if (semnum <? 0) || (nsems <=? semnum) then (s, - EINVAL, NoOut)
        else if cmd =? GETVAL then (s, semval (sem_at (sem_base a) semnum), NoOut)
        else if cmd =? GETPID then (s, Z.land (sempid (sem_at (sem_base a) semnum)) 65535, NoOut)
        else if cmd =? GETNCNT then (s, count_semncnt semnum p s, NoOut)
        else if cmd =? GETZCNT then (s, count_semzcnt semnum p s, NoOut)
        else if cmd =? SETVAL then (semctl_setval p semnum (a_val arg) s, NoOut)
        else (s, - EINVAL, NoOut)
  end.

(** [None] is a [BUG()]. *)
Definition semctl_down (semid cmd : Z) (arg : semun) (s : sems) : option (sems * Z) :=
  if (cmd =? IPC_SET) && bool_decide (a_set arg = None) then Some (s, - EFAULT)
  else match sem_lock semid s with
  | None => Some (s, - EINVAL)
  | Some p =>
      if sem_checkid p semid s then Some (s, - EIDRM)
      else
        let perm := sem_perm (sem_arrays s p) in
        let e := c_euid (my_cred s) in
        let '(c, refused) := lacks (negb (e =? ip_cuid perm) && negb (e =? ip_uid perm)) CAP_SYS_ADMIN (s_cred s) in
        let s1 := s <| s_cred := c |> in
        if refused then Some (s1, - EPERM)
        else if cmd =? IPC_RMID then s2 ← freeary semid s1; Some (s2, 0)
        else match a_set arg with
        | Some (uid, gid, mode) =>
            if cmd =? IPC_SET then
              Some (set_array p (fun a => a <| sem_perm := perm <| ip_uid := uid |> <| ip_gid := gid |>
                      <| ip_mode := Z.lor (Z.land (ip_mode perm) (Z.lnot S_IRWXUGO)) (Z.land mode S_IRWXUGO) |> |>
                      <| sem_ctime := CURRENT_TIME s |>) s1, 0)
            else Some (s1, - EINVAL)
        | None => Some (s1, - EINVAL)
        end
  end.

Definition sys_semctl (semid semnum cmd : Z) (arg : semun) (s : sems) : option (sems * Z * semctl_out) :=
  if semid <? 0 then Some (s, - EINVAL, NoOut)
  else
    let '(cmd, version) := ipc_parse_version cmd in
    if (cmd =? IPC_INFO) || (cmd =? SEM_INFO) || (cmd =? SEM_STAT) then Some (semctl_nolock semid cmd version arg s)
    else if (cmd =? GETALL) || (cmd =? GETVAL) || (cmd =? GETPID) || (cmd =? GETNCNT) || (cmd =? GETZCNT) ||
            (cmd =? IPC_STAT) || (cmd =? SETVAL) || (cmd =? SETALL)
    then Some (semctl_main semid semnum cmd version arg s)
    else if (cmd =? IPC_RMID) || (cmd =? IPC_SET) then r ← semctl_down semid cmd arg s; Some (r, NoOut)
    else Some (s, - EINVAL, NoOut).
End ctl.

(** ** semop *)

(** [freeundos]: the structure leaves the list of the current task and is freed; the
    rest of the list. *)
Definition freeundos (u : Z) (s : sems) : sems := s <| semundo ::= alter (filter (fun v => v <> u)) (current s) |>.

(** The search for the undo structure of the set along the list [l]. *)
Fixpoint find_undo (semid : Z) (l : list Z) (s : sems) : sems * option Z :=
  match l with
  | [] => (s, None)
  | u :: rest =>
      if un_semid (undos s u) =? semid then (s, Some u)
      else if un_semid (undos s u) =? -1 then find_undo semid rest (freeundos u s)
      else find_undo semid rest s
  end.

Section op.
Context (gap : sems -> sems).
(** [kmalloc] of an undo structure, and whether there is memory for a long array of
    operations. *)
Context (new_undo : sems -> option Z) (alloc : bool).

Definition alloc_undo (p semid : Z) (alters : bool) (s : sems) : sems * (Z + Z) :=
  let nsems := sem_nsems (sem_arrays s p) in
  let s := gap s in
  match new_undo s with
  | None => (s, inl (- ENOMEM))
  | Some u =>
      let '(s1, error) := sem_revalidate semid p nsems (if alters then S_IWUGO else S_IRUGO) s in
      if negb (error =? 0) then (s1, inl error)
      else
        (set_array p (fun a => a <| sem_undos ::= cons u |>)
           (s1 <| undos ::= <[u := SemUndo semid (replicate (Z.to_nat nsems) 0)]> |>
               <| semundo ::= alter (cons u) (current s1) |>), inr u)
  end.

(** The call ends with a result, or the task sleeps. *)
Inductive semop_end := Returns (error : Z) | Sleeps.

(** The top of the [for (;;)]. *)
Definition semop_sleep (t : tid) (s : sems) : sems :=
  (set_queue t (fun q => q <| q_status := - EINTR |>) s)
    <| s_sched ::= set_task t (fun x => x <| t_state := TASK_INTERRUPTIBLE |>) |>.

(** From [try_atomic_semop] on. *)
Definition semop_try (p semid : Z) (sops : list sembuf) (un : option Z) (decrease alters : bool) (s : sems)
  : sems * semop_end :=
  let t := current s in
  let pid := c_pid (my_cred s) in
  let '(s1, error) := try_atomic_semop p sops un pid false s in
  if error <=? 0 then (if alters then update_queue p s1 else s1, Returns error)
  else
    let q := SemQueue un pid 0 p semid sops decrease false alters in
    let s2 := s1 <| queues ::= <[t := q]> |> in
    let s3 := if alters then append_to_queue p t s2 else prepend_to_queue p t s2 in
    (semop_sleep t (s3 <| semsleeping ::= <[t := true]> |>), Sleeps).

Definition sys_semop (semid : Z) (tsops : option (list sembuf)) (nsops : Z) (s : sems) : sems * semop_end :=
  if (nsops <? 1) || (semid <? 0) then (s, Returns (- EINVAL))
  else if sc_semopm s <? nsops then (s, Returns (- E2BIG))
  else if (SEMOPM_FAST <? nsops) && negb alloc then (s, Returns (- ENOMEM))
  else match tsops with
  | None => (s, Returns (- EFAULT))
  | Some sops =>
      match sem_lock semid s with
      | None => (s, Returns (- EINVAL))
      | Some p =>
          if sem_checkid p semid s then (s, Returns (- EIDRM))
          else if existsb (fun o => sem_nsems (sem_arrays s p) <=? sem_num o) sops then (s, Returns (- EFBIG))
          else
            let undos := existsb (fun o => has (sem_flg o) SEM_UNDO) sops in
            let decrease := existsb (fun o => sem_op o <? 0) sops in
            let alters := existsb (fun o => 0 <? sem_op o) sops || decrease in
            let '(s1, refused) := sem_perms p (if alters then S_IWUGO else S_IRUGO) s in
            if refused then (s1, Returns (- EACCES))
            else if undos then
              let '(s2, un) := find_undo semid (semundo s1 (current s1)) s1 in
              match un with
              | Some u => semop_try p semid sops (Some u) decrease alters s2
              | None =>
                  let '(s3, r) := alloc_undo p semid alters s2 in
                  match r with
                  | inl error => (s3, Returns error)
                  | inr u => semop_try p semid sops (Some u) decrease alters s3
                  end
              end
            else semop_try p semid sops None decrease alters s1
      end
  end.

(** After [schedule]; [None] is [BUG()]. *)
Definition semop_resume (s : sems) : option (sems * semop_end) :=
  let t := current s in
  let q := queues s t in
  let awake := fun s => s <| semsleeping ::= <[t := false]> |> in
  match sem_lock (q_id q) s with
  | None => if q_linked q then None else Some (awake s, Returns (- EIDRM))
  | Some _ =>
      let finish s error :=
        let s1 := remove_from_queue (q_sma q) t (awake s) in
        Some (if q_alters q then update_queue (q_sma q) s1 else s1, Returns error) in
      if q_status q =? 1 then
        let '(s1, error) := try_atomic_semop (q_sma q) (q_sops q) (q_undo q) (q_pid q) false s in
        if error <=? 0 then finish s1 error else Some (semop_sleep t s1, Sleeps)
      else if q_linked q then finish s (q_status q)
      else Some (awake s, Returns (q_status q))
  end.
End op.

(** ** exit *)

(** The adjustments of one semaphore. *)
Definition adjust_sem (pid : Z) (c : sem) (adj : Z) : sem :=
  Sem (if semval c + adj <? 0 then 0 else semval c + adj) pid.

Definition exit_undo (u : Z) (s : sems) : sems :=
  let semid := un_semid (undos s u) in
  if semid =? -1 then s
  else match sem_lock semid s with
  | None => s
  | Some p =>
      if sem_checkid p semid s || negb (bool_decide (u ∈ sem_undos (sem_arrays s p))) then s
      else
        let pid := c_pid (my_cred s) in
        update_queue p (set_array p (fun a =>
          a <| sem_undos ::= filter (fun v => v <> u) |>
            <| sem_base ::= imap (fun i c => adjust_sem pid c (adj_at (semadj (undos s u)) (Z.of_nat i))) |>
            <| sem_otime := CURRENT_TIME s |>) s)
  end.

(** [None] is [BUG()]. *)
Definition sem_exit (s : sems) : option sems :=
  let t := current s in
  let q := queues s t in
  s1 ← (if semsleeping s t then
          let s0 := s <| semsleeping ::= <[t := false]> |> in
          if q_linked q then
            match sem_lock (q_id q) s with None => None | Some _ => Some (remove_from_queue (q_sma q) t s0) end
          else Some s0
        else Some s);
  Some ((fold_left (fun s u => exit_undo u s) (semundo s1 t) s1) <| semundo ::= <[t := []]> |>).
