(* ===== verification/SemOps.v ===== *)
(** * A sequence of semaphore operations is performed as a whole or not at all

    [spec_ops] performs the operations one after the other on the values of the
    semaphores and stops at the first that must wait or leaves the range.  The loops of
    try_atomic_semop, which go forward and then back over the operations, implement it. *)
From stdpp Require Import base list functions.
From S2P Require Import Prelude PidHash Bitmap Sched SchedCalls Proc User Cred Ipc SigCalls Sem.

(** ** The specification *)

Definition val_at (vals : list Z) (n : Z) : Z := default 0 (vals !! Z.to_nat n).

(** The result of a sequence that cannot go on at [sop]. *)
Definition blocked_at (sop : sembuf) : Z := if has (sem_flg sop) IPC_NOWAIT then - EAGAIN else 1.

Definition undo_range (sop : sembuf) (adj : list Z) : bool :=
  let undo := adj_at adj (sem_num sop) - sem_op sop in
  negb (has (sem_flg sop) SEM_UNDO && ((undo <? - SEMAEM - 1) || (SEMAEM <? undo))).

Definition adjust (sop : sembuf) (adj : list Z) : list Z :=
  if has (sem_flg sop) SEM_UNDO then set_at (sem_num sop) (fun x => x - sem_op sop) adj else adj.

(** The values and the adjustments after the operations, or why they cannot be done. *)
Fixpoint spec_ops (sops : list sembuf) (vals adj : list Z) : (list Z * list Z) + Z :=
  match sops with
  | [] => inl (vals, adj)
  | sop :: rest =>
      let v := val_at vals (sem_num sop) in
      if (sem_op sop =? 0) && negb (v =? 0) then inr (blocked_at sop)
      else if negb (undo_range sop adj) then inr (- ERANGE)
      else if v + sem_op sop <? 0 then inr (blocked_at sop)
      else if SEMVMX <? v + sem_op sop then inr (- ERANGE)
      else spec_ops rest (set_at (sem_num sop) (fun x => x + sem_op sop) vals) (adjust sop adj)
  end.

(** ** Lists *)

Lemma set_at_lookup {A} (f : A -> A) n l i :
  set_at n f l !! i = if decide (Z.to_nat n = i) then f <$> l !! i else l !! i.
Proof. unfold set_at. rewrite list_lookup_alter. by destruct (decide (Z.to_nat n = i)) as [<-|]. Qed.

Lemma set_at_map {A B} (g : A -> B) f f' n l : (forall x, g (f x) = f' (g x)) -> map g (set_at n f l) = set_at n f' (map g l).
Proof.
  intros H. apply list_eq. intros i. rewrite list_lookup_fmap, !set_at_lookup, list_lookup_fmap.
  destruct (decide (Z.to_nat n = i)), (l !! i); simpl; by rewrite ?H.
Qed.

Lemma set_at_length {A} (f : A -> A) n l : length (set_at n f l) = length l.
Proof. apply length_alter. Qed.

Lemma set_at_twice {A} (f g : A -> A) n l : set_at n f (set_at n g l) = set_at n (fun x => f (g x)) l.
Proof.
  apply list_eq. intros i. rewrite !set_at_lookup. destruct (decide (Z.to_nat n = i)), (l !! i); done.
Qed.

Lemma set_at_id {A} (f : A -> A) n l : (forall x, f x = x) -> set_at n f l = l.
Proof.
  intros H. apply list_eq. intros i. rewrite set_at_lookup.
  destruct (decide (Z.to_nat n = i)), (l !! i); simpl; by rewrite ?H.
Qed.

Lemma adj_set_const adj n c : set_at n (fun _ => adj_at adj n - c) adj = set_at n (fun x => x - c) adj.
Proof.
  unfold adj_at. apply list_eq. intros i. rewrite !set_at_lookup.
  destruct (decide (Z.to_nat n = i)) as [<-|]; [|done]. by destruct (adj !! Z.to_nat n).
Qed.

Lemma vals_at base n : val_at (map semval base) n = semval (sem_at base n).
Proof. unfold val_at, sem_at. rewrite list_lookup_fmap. by destruct (base !! Z.to_nat n). Qed.

Lemma sem_at_set base n f : 0 <= n < Z.of_nat (length base) -> sem_at (set_at n f base) n = f (sem_at base n).
Proof.
  intros Hn. unfold sem_at. rewrite set_at_lookup, decide_True by done.
  destruct (lookup_lt_is_Some_2 base (Z.to_nat n)) as [x ->]; [lia|done].
Qed.

(** ** Going back *)

(** The value and the adjustment of one operation taken back. *)
Definition back_val (vals : list Z) (sop : sembuf) : list Z := set_at (sem_num sop) (fun x => x - sem_op sop) vals.
Definition back_adj (adj : list Z) (sop : sembuf) : list Z :=
  if has (sem_flg sop) SEM_UNDO then set_at (sem_num sop) (fun x => x + sem_op sop) adj else adj.

Lemma undo_split passed : forall base adj,
  map semval (fst (semop_undo passed base adj)) = fold_left back_val passed (map semval base) /\
  snd (semop_undo passed base adj) = fold_left back_adj passed adj.
Proof.
  unfold semop_undo. induction passed as [|sop l IH]; intros base adj; [done|]. cbn [fold_left].
  destruct (IH (fst (undo_op (base, adj) sop)) (snd (undo_op (base, adj) sop))) as [I1 I2].
  rewrite <- surjective_pairing in I1, I2. rewrite I1, I2. split; [|done]. f_equal. unfold undo_op, back_val. simpl.
  by apply set_at_map.
Qed.

Lemma back_val_forward vals sop : back_val (set_at (sem_num sop) (fun x => x + sem_op sop) vals) sop = vals.
Proof. unfold back_val. rewrite set_at_twice. apply set_at_id. intros. lia. Qed.
Lemma back_adj_forward adj sop : back_adj (adjust sop adj) sop = adj.
Proof.
  unfold back_adj, adjust. destruct (has _ _); [|done]. rewrite set_at_twice. apply set_at_id. intros. lia.
Qed.

(** ** The loops implement the specification *)

Definition in_range (sops : list sembuf) (n : nat) : Prop := Forall (fun o => 0 <= sem_num o < Z.of_nat n) sops.

Definition result_of (v : verdict) : Z :=
  match v with Passes => 0 | OutOfRange => - ERANGE | WouldBlock sop => blocked_at sop end.

Lemma no_undo_flag f : has (Z.land f (Z.lnot SEM_UNDO)) SEM_UNDO = false.
Proof.
  unfold has. apply negb_false_iff, Z.eqb_eq. rewrite <- Z.land_assoc. rewrite (Z.land_comm (Z.lnot SEM_UNDO)).
  rewrite Z.land_lnot_diag. apply Z.land_0_r.
Qed.

Lemma forward_spec sops : forall pid passed base adj, in_range sops (length base) ->
  let '(v, passed', b, a) := semop_forward pid sops passed base adj in
  length b = length base /\
  match spec_ops sops (map semval base) adj with
  | inl (vals', adj') => v = Passes /\ map semval b = vals' /\ a = adj'
  | inr e => v <> Passes /\ result_of v = e
  end /\
  fold_left back_val passed' (map semval b) = fold_left back_val passed (map semval base) /\
  fold_left back_adj passed' a = fold_left back_adj passed adj.
Proof.
  induction sops as [|sop rest IH]; intros pid passed base adj Hr; [done|]. cbn [semop_forward spec_ops]. cbv zeta.
  apply list.Forall_cons in Hr as [Hn Hr]. rewrite vals_at. set (n := sem_num sop) in *. set (op := sem_op sop) in *.
  destruct ((op =? 0) && negb (semval (sem_at base n) =? 0)) eqn:E0.
  { b2p. split; [done|]. split; [done|]. cbn [fold_left]. split; f_equal.
    - unfold back_val. apply set_at_id. intros. fold op. lia.
    - unfold back_adj. destruct (has _ _); [|done]. apply set_at_id. intros. fold op. lia. }
  set (base1 := set_at n _ base).
  assert (Hv : map semval base1 = set_at n (fun x => x + op) (map semval base)) by by apply set_at_map.
  assert (Hs : semval (sem_at base1 n) = semval (sem_at base n) + op) by (unfold base1; by rewrite sem_at_set).
  assert (Hb : back_val (map semval base1) sop = map semval base) by (rewrite Hv; apply back_val_forward).
  assert (Hl : length base1 = length base) by apply set_at_length.
  unfold undo_range. cbv zeta. fold n op. rewrite negb_involutive.
  destruct (has (sem_flg sop) SEM_UNDO && _) eqn:Eu.
  { split; [done|]. split; [done|]. cbn [fold_left]. split; [by rewrite <- Hb|].
    f_equal. unfold back_adj. simpl. by rewrite no_undo_flag. }
  set (adj1 := if has (sem_flg sop) SEM_UNDO then _ else adj).
  assert (Ha : adj1 = adjust sop adj) by (unfold adj1, adjust; destruct (has _ _); [apply adj_set_const|done]).
  assert (Hab : back_adj adj1 sop = adj) by (rewrite Ha; apply back_adj_forward).
  rewrite Hs. clearbody base1 adj1.
  destruct (semval (sem_at base n) + op <? 0).
  { split; [done|]. split; [done|]. cbn [fold_left]. by rewrite Hb, Hab. }
  destruct (SEMVMX <? semval (sem_at base n) + op).
  { split; [done|]. split; [done|]. cbn [fold_left]. by rewrite Hb, Hab. }
  specialize (IH pid (sop :: passed) base1 adj1). rewrite Hl in IH. specialize (IH Hr).
  destruct (semop_forward pid rest (sop :: passed) base1 adj1) as [[[v passed'] b] a].
  cbn [fold_left] in IH. rewrite Hb, Hab, Hv, Ha in IH. done.
Qed.

(** The values of the semaphores and the adjustments, after [atomic_semop]. *)
Lemma atomic_spec sops pid do_undo base adj : in_range sops (length base) ->
  let '(b, a, result) := atomic_semop sops pid do_undo base adj in
  length b = length base /\
  match spec_ops sops (map semval base) adj with
  | inl (vals', adj') => result = 0 /\ if do_undo then map semval b = map semval base /\ a = adj
                                      else map semval b = vals' /\ a = adj'
  | inr e => result = e /\ map semval b = map semval base /\ a = adj
  end.
Proof.
  intros Hr. pose proof (forward_spec sops pid [] base adj Hr) as H. unfold atomic_semop.
  destruct (semop_forward pid sops [] base adj) as [[[v passed] b] a]. destruct H as (H1 & H2 & H3 & H4).
  cbn [fold_left] in H3, H4. destruct (undo_split passed b a) as [U1 U2]. rewrite H3 in U1. rewrite H4 in U2.
  assert (Hl : length (fst (semop_undo passed b a)) = length base).
  { rewrite <- (length_map semval), U1. apply length_map. }
  destruct (semop_undo passed b a) as [b' a'] eqn:Eu. simpl in U1, U2, Hl.
  destruct (spec_ops sops (map semval base) adj) as [[vals' adj']|e].
  - destruct H2 as (-> & E1 & E2). destruct do_undo; by split_and!.
  - destruct H2 as [Hv He]. destruct v; [done|by split_and!..].
Qed.
