(* ===== verification/SemInv.v ===== *)
(** * Pending semaphore operations: the invariant

    [sem_core] relates the queues, the undo structures and the identifiers; [wakeful s p]
    says that no task sleeps on the set [p] without need: either a task that was told to
    try again can go on, or every task that was not told so must wait. *)
From stdpp Require Import base sets list functions.
From S2P Require Import Prelude PidHash Bitmap Sched SchedCalls Proc User Cred Ipc SigCalls Sem SemOps.

Definition vals (s : sems) (p : Z) : list Z := map semval (sem_base (sem_arrays s p)).
Definition adj_of (s : sems) (un : option Z) : list Z := match un with Some u => semadj (undos s u) | None => [] end.
Definition outcome (s : sems) (p : Z) (q : sem_queue) : (list Z * list Z) + Z :=
  spec_ops (q_sops q) (vals s p) (adj_of s (q_undo q)).
Definition must_wait (s : sems) (p : Z) (t : tid) : Prop := outcome s p (queues s t) = inr 1.
Definition pending (s : sems) (p : Z) : list tid := sem_pending (sem_arrays s p).
Definition live (s : sems) (p : Z) : Prop := exists i, entries (sem_ids s) !! i = Some (Some p).

Definition wakeful (s : sems) (p : Z) : Prop :=
  (exists t, t ∈ pending s p /\ q_status (queues s t) = 1 /\ ~ must_wait s p t) \/
  (forall t, t ∈ pending s p -> q_status (queues s t) = 1 \/ must_wait s p t).

(** A request that does not decrease a semaphore only waits for zeros. *)
Definition plain (q : sem_queue) : Prop := q_alter q = false -> Forall (fun o => sem_op o = 0) (q_sops q).

Record request_ok (s : sems) (p : Z) (t : tid) : Prop := RequestOk {
  r_sma : q_sma (queues s t) = p;
  r_linked : q_linked (queues s t) = true;
  r_sleeping : semsleeping s t = true;
  r_range : in_range (q_sops (queues s t)) (length (sem_base (sem_arrays s p)));
  r_plain : plain (queues s t);
  r_alters : q_alter (queues s t) = true -> q_alters (queues s t) = true;
  r_again : q_status (queues s t) = 1 -> q_alter (queues s t) = true;
  r_undo : forall u, q_undo (queues s t) = Some u -> u ∈ semundo s t /\
             sem_lock (un_semid (undos s u)) s = Some p /\ 0 <= un_semid (undos s u)
}.

Record sem_core (s : sems) : Prop := SemCore {
  c_inj : forall i j p, entries (sem_ids s) !! i = Some (Some p) -> entries (sem_ids s) !! j = Some (Some p) -> i = j;
  c_nodup : forall p, live s p -> NoDup (pending s p);
  c_request : forall p t, live s p -> t ∈ pending s p -> request_ok s p t;
  c_linked : forall t, semsleeping s t = true -> q_linked (queues s t) = true \/ q_status (queues s t) = 1 ->
    live s (q_sma (queues s t)) /\ t ∈ pending s (q_sma (queues s t));
  c_owner : forall t t' u, u ∈ semundo s t -> u ∈ semundo s t' -> t = t';
  c_undo : forall p u, live s p -> u ∈ sem_undos (sem_arrays s p) ->
    sem_lock (un_semid (undos s u)) s = Some p /\ 0 <= un_semid (undos s u);
  c_vals : forall p, live s p -> Forall (fun v => 0 <= v) (vals s p)
}.

Definition sem_inv (s : sems) : Prop := sem_core s /\ forall p, live s p -> wakeful s p.

(** ** What an operation on one set leaves alone *)

Record frame (p : Z) (s s' : sems) : Prop := Frame {
  f_ids : sem_ids s' = sem_ids s;
  f_queues : queues s' = queues s;
  f_semundo : semundo s' = semundo s;
  f_sleeping : semsleeping s' = semsleeping s;
  f_semid : forall u, un_semid (undos s' u) = un_semid (undos s u);
  f_arrays : forall p', p' <> p -> sem_arrays s' p' = sem_arrays s p';
  f_pending : pending s' p = pending s p;
  f_undos : sem_undos (sem_arrays s' p) ⊆ sem_undos (sem_arrays s p);
  f_length : length (sem_base (sem_arrays s' p)) = length (sem_base (sem_arrays s p))
}.

Lemma sframe_refl p s : frame p s s.
Proof. by split. Qed.

Lemma live_frame p p' s s' : frame p s s' -> live s' p' <-> live s p'.
Proof. intros F. unfold live. by rewrite (f_ids _ _ _ F). Qed.
Lemma lock_frame p s s' id : frame p s s' -> sem_lock id s' = sem_lock id s.
Proof. intros F. unfold sem_lock. by rewrite (f_ids _ _ _ F). Qed.
Lemma pending_frame p p' s s' : frame p s s' -> pending s' p' = pending s p'.
Proof.
  intros F. unfold pending. destruct (decide (p' = p)) as [->|]; [apply (f_pending _ _ _ F)|].
  by rewrite (f_arrays _ _ _ F).
Qed.
Lemma undos_frame p p' s s' : frame p s s' -> sem_undos (sem_arrays s' p') ⊆ sem_undos (sem_arrays s p').
Proof.
  intros F. destruct (decide (p' = p)) as [->|]; [apply (f_undos _ _ _ F)|]. by rewrite (f_arrays _ _ _ F).
Qed.
Lemma length_frame p p' s s' : frame p s s' ->
  length (sem_base (sem_arrays s' p')) = length (sem_base (sem_arrays s p')).
Proof.
  intros F. destruct (decide (p' = p)) as [->|]; [apply (f_length _ _ _ F)|]. by rewrite (f_arrays _ _ _ F).
Qed.

Lemma request_frame p p' t s s' : frame p s s' -> request_ok s p' t -> request_ok s' p' t.
Proof.
  intros F [R1 R2 R3 R4 R5 R6 R7 R8]. pose proof (f_queues _ _ _ F) as Q.
  split; rewrite ?Q, ?(f_sleeping _ _ _ F), ?(length_frame p p' s s' F); try done.
  intros u Hu. rewrite (f_semundo _ _ _ F), (f_semid _ _ _ F), (lock_frame _ _ _ _ F). by apply R8.
Qed.

Lemma core_frame p s s' : frame p s s' -> (live s p -> Forall (fun v => 0 <= v) (vals s' p)) -> sem_core s -> sem_core s'.
Proof.
  intros F V [C1 C2 C3 C4 C5 C6 C7]. split.
  - rewrite (f_ids _ _ _ F). apply C1.
  - intros p'. rewrite (live_frame p p' s s' F), (pending_frame p p' s s' F). apply C2.
  - intros p' t. rewrite (live_frame p p' s s' F), (pending_frame p p' s s' F). intros. by eapply request_frame, C3.
  - intros t. rewrite (f_sleeping _ _ _ F), (f_queues _ _ _ F), (live_frame p _ s s' F), (pending_frame p _ s s' F). apply C4.
  - rewrite (f_semundo _ _ _ F). apply C5.
  - intros p' u. rewrite (live_frame p p' s s' F), (f_semid _ _ _ F), (lock_frame _ _ _ _ F).
    intros L Hu. apply C6; [done|]. by apply (undos_frame p p' s s' F).
  - intros p'. rewrite (live_frame p p' s s' F). intros L. destruct (decide (p' = p)) as [->|]; [auto|].
    unfold vals. rewrite (f_arrays _ _ _ F) by done. by apply C7.
Qed.

(** [wakeful] sees the queue of the set, its requests, its values and their adjustments. *)
Lemma wakeful_same s s' p : pending s' p = pending s p -> vals s' p = vals s p ->
  (forall t, t ∈ pending s p -> queues s' t = queues s t /\ adj_of s' (q_undo (queues s t)) = adj_of s (q_undo (queues s t))) ->
  wakeful s p -> wakeful s' p.
Proof.
  intros Hp Hv Hq. assert (Hw : forall t, t ∈ pending s p -> must_wait s' p t <-> must_wait s p t).
  { intros t Ht. destruct (Hq t Ht) as [E1 E2]. unfold must_wait, outcome. by rewrite E1, Hv, E2. }
  intros [(t & T1 & T2 & T3)|H].
  - left. exists t. rewrite Hp, Hw by done. split; [done|]. destruct (Hq t T1) as [-> _]. done.
  - right. intros t. rewrite Hp. intros Ht. rewrite Hw by done. destruct (Hq t Ht) as [-> _]. by apply H.
Qed.

(** No value and no adjustment changes. *)
Definition same_values (s s' : sems) : Prop :=
  (forall p, vals s' p = vals s p) /\ (forall u, semadj (undos s' u) = semadj (undos s u)).

Lemma same_adj s s' un : same_values s s' -> adj_of s' un = adj_of s un.
Proof. intros [_ H]. destruct un; simpl; auto. Qed.

(** ** try_atomic_semop *)

Definition result_value (r : (list Z * list Z) + Z) : Z := match r with inl _ => 0 | inr e => e end.

Lemma spec_errors sops : forall v a e, spec_ops sops v a = inr e -> e = 1 \/ e < 0.
Proof.
  assert (Hb : forall o, blocked_at o = 1 \/ blocked_at o < 0) by (intros o; unfold blocked_at; case_match; [by right|by left]).
  induction sops as [|o l IH]; intros v a e; [done|]. cbn [spec_ops]. cbv zeta.
  destruct (_ && _); [intros [= <-]; apply Hb|]. destruct (negb _); [intros [= <-]; by right|].
  destruct (_ <? 0); [intros [= <-]; apply Hb|]. destruct (SEMVMX <? _); [intros [= <-]; by right|]. apply IH.
Qed.

Lemma zero_ops sops : forall v a v' a', Forall (fun o => sem_op o = 0) sops -> spec_ops sops v a = inl (v', a') -> v' = v /\ a' = a.
Proof.
  induction sops as [|o l IH]; intros v a v' a' Hz; [intros [= <- <-]; done|]. apply list.Forall_cons in Hz as [Ho Hz].
  cbn [spec_ops]. cbv zeta. destruct (_ && _); [done|]. destruct (negb _); [done|].
  destruct (_ <? 0); [done|]. destruct (SEMVMX <? _); [done|].
  intros E. apply IH in E as [-> ->]; [|done]. unfold adjust. rewrite Ho.
  split; [apply set_at_id; intros; lia|]. destruct (has _ _); [|done]. apply set_at_id. intros. lia.
Qed.

Lemma try_spec p sops un pid do_undo s :
  in_range sops (length (sem_base (sem_arrays s p))) ->
  let '(s', r) := try_atomic_semop p sops un pid do_undo s in
  let out := spec_ops sops (vals s p) (adj_of s un) in
  frame p s s' /\ r = result_value out /\
  ((do_undo = true \/ r <> 0 \/ Forall (fun o => sem_op o = 0) sops) -> same_values s s') /\
  (forall u, un <> Some u -> semadj (undos s' u) = semadj (undos s u)) /\
  s_cred s' = s_cred s /\ s_sched s' = s_sched s /\
  (forall v a, out = inl (v, a) -> do_undo = false -> vals s' p = v).
Proof.
  intros Hr. unfold try_atomic_semop. fold (adj_of s un).
  pose proof (atomic_spec sops pid do_undo (sem_base (sem_arrays s p)) (adj_of s un) Hr) as H.
  destruct (atomic_semop sops pid do_undo (sem_base (sem_arrays s p)) (adj_of s un)) as [[b a] r]. fold (vals s p) in H.
  destruct H as [Hl H].
  set (s1 := set_array p (fun x => x <| sem_base := b |>) s).
  set (s2 := match un with Some u => set_undo u (fun x => x <| semadj := a |>) s1 | None => s1 end).
  set (s3 := if (r =? 0) && negb do_undo then _ else s2).
  assert (A : forall p', sem_arrays s3 p' = if decide (p' = p) then
      (sem_arrays s p) <| sem_base := b |> <| sem_otime := sem_otime (sem_arrays s3 p) |> else sem_arrays s p').
  { intros p'. assert (A1 : forall p', sem_arrays s1 p' = if decide (p' = p) then (sem_arrays s p) <| sem_base := b |> else sem_arrays s p').
    { intros x. subst s1. simpl. destruct (decide (x = p)) as [->|]; [by rewrite fn_lookup_alter|by rewrite fn_lookup_alter_ne]. }
    assert (A2 : sem_arrays s2 = sem_arrays s1) by (subst s2; by destruct un).
    subst s3. destruct ((r =? 0) && negb do_undo); simpl; rewrite A2.
    - destruct (decide (p' = p)) as [->|].
      + rewrite !fn_lookup_alter, A1, decide_True by done. done.
      + rewrite fn_lookup_alter_ne, A1, decide_False by done. done.
    - rewrite !A1. rewrite (decide_True (P := p = p)) by done. by destruct (decide (p' = p)). }
  assert (U : forall u, undos s3 u = if decide (un = Some u) then (undos s u) <| semadj := a |> else undos s u).
  { intros u. assert (U3 : undos s3 = undos s2) by (subst s3; by destruct (_ && _)). rewrite U3. subst s2.
    destruct un as [u'|]; simpl; [|done]. destruct (decide (Some u' = Some u)) as [[= ->]|Hne].
    - by rewrite fn_lookup_alter.
    - rewrite fn_lookup_alter_ne by congruence. done. }
  assert (O : sem_ids s3 = sem_ids s /\ queues s3 = queues s /\ semundo s3 = semundo s /\ semsleeping s3 = semsleeping s /\
    s_cred s3 = s_cred s /\ s_sched s3 = s_sched s).
  { subst s3 s2. destruct (_ && _), un; done. }
  destruct O as (O1 & O2 & O3 & O4 & O5 & O6). clearbody s3. clear s1 s2.
  split; [|split].
  - split; try done.
    + intros u. rewrite U. by destruct (decide (un = Some u)).
    + intros p' Hp. by rewrite A, decide_False.
    + unfold pending. by rewrite A, decide_True.
    + by rewrite A, decide_True.
    + by rewrite A, decide_True.
  - destruct (spec_ops sops (vals s p) (adj_of s un)) as [[v' a']|e]; tauto.
  - assert (V : vals s3 p = map semval b) by (unfold vals; by rewrite A, decide_True).
    split; [|split; [|split; [done|split; [done|]]]].
    + intros Hc. assert (Hsame : map semval b = vals s p /\ a = adj_of s un).
      { destruct (spec_ops sops (vals s p) (adj_of s un)) as [[v' a']|e] eqn:E; [|tauto].
        destruct H as [-> H]. destruct do_undo; [done|]. destruct Hc as [?|[?|Hz]]; [done..|].
        destruct (zero_ops _ _ _ _ _ Hz E) as [-> ->]. done. }
      destruct Hsame as [E1 E2]. split.
      * intros p'. unfold vals. rewrite A. destruct (decide (p' = p)) as [->|]; [exact E1|done].
      * intros u. rewrite U. destruct (decide (un = Some u)) as [->|]; [exact E2|done].
    + intros u Hu. by rewrite U, decide_False.
    + intros v a0 E ->. rewrite E in H. rewrite V. tauto.
Qed.

(** ** update_queue *)

(** What looking at the requests [l] of the set [p] may change: tasks leave the queue with
    their result, or are told to try again. *)
Record progress (p : Z) (l : list tid) (s s' : sems) : Prop := Progress {
  g_ids : sem_ids s' = sem_ids s;
  g_semundo : semundo s' = semundo s;
  g_sleeping : semsleeping s' = semsleeping s;
  g_cred : s_cred s' = s_cred s;
  g_values : same_values s s';
  g_semid : forall u, un_semid (undos s' u) = un_semid (undos s u);
  g_arrays : forall p', p' <> p -> sem_arrays s' p' = sem_arrays s p';
  g_undos : sem_undos (sem_arrays s' p) ⊆ sem_undos (sem_arrays s p);
  g_length : length (sem_base (sem_arrays s' p)) = length (sem_base (sem_arrays s p));
  g_queue : forall t, exists st lk, queues s' t = (queues s t) <| q_status := st |> <| q_linked := lk |>;
  g_other : forall t, t ∉ l -> queues s' t = queues s t;
  g_sub : sublist (pending s' p) (pending s p);
  g_gone : forall t, t ∈ pending s p -> t ∉ pending s' p ->
    t ∈ l /\ q_linked (queues s' t) = false /\ q_status (queues s' t) <> 1;
  g_kept : forall t, t ∈ pending s' p -> q_linked (queues s' t) = q_linked (queues s t) /\
    (q_status (queues s' t) = q_status (queues s t) \/ q_status (queues s' t) = 1 /\ q_alter (queues s t) = true)
}.

Lemma progress_frame p s s' : frame p s s' -> same_values s s' -> s_cred s' = s_cred s -> progress p [] s s'.
Proof.
  intros [F1 F2 F3 F4 F5 F6 F7 F8 F9] V C. split; try done; rewrite ?F2; try done.
  - intros t. exists (q_status (queues s t)), (q_linked (queues s t)). by destruct (queues s t).
  - by rewrite F7.
  - rewrite F7. intros t ? ?. done.
  - intros t _. split; [done|]. by left.
Qed.

Lemma values_trans s1 s2 s3 : same_values s1 s2 -> same_values s2 s3 -> same_values s1 s3.
Proof. intros [A1 A2] [B1 B2]. split; intros; congruence. Qed.

Lemma progress_trans p l1 l2 s1 s2 s3 : (forall t, t ∈ l1 -> t ∉ l2) ->
  progress p l1 s1 s2 -> progress p l2 s2 s3 -> progress p (l1 ++ l2) s1 s3.
Proof.
  intros D A B. split.
  - by rewrite (g_ids _ _ _ _ B), (g_ids _ _ _ _ A).
  - by rewrite (g_semundo _ _ _ _ B), (g_semundo _ _ _ _ A).
  - by rewrite (g_sleeping _ _ _ _ B), (g_sleeping _ _ _ _ A).
  - by rewrite (g_cred _ _ _ _ B), (g_cred _ _ _ _ A).
  - eapply values_trans; [apply A|apply B].
  - intros u. by rewrite (g_semid _ _ _ _ B), (g_semid _ _ _ _ A).
  - intros p' Hp. by rewrite (g_arrays _ _ _ _ B), (g_arrays _ _ _ _ A).
  - etrans; [apply B|apply A].
  - by rewrite (g_length _ _ _ _ B), (g_length _ _ _ _ A).
  - intros t. destruct (g_queue _ _ _ _ A t) as (a1 & a2 & E1). destruct (g_queue _ _ _ _ B t) as (b1 & b2 & E2).
    exists b1, b2. by rewrite E2, E1.
  - intros t Ht. rewrite (g_other _ _ _ _ B), (g_other _ _ _ _ A); set_solver.
  - etrans; [apply B|apply A].
  - intros t T1 T3. destruct (decide (t ∈ pending s2 p)) as [T2|T2].
    + destruct (g_gone _ _ _ _ B t T2 T3) as (? & ? & ?). set_solver.
    + destruct (g_gone _ _ _ _ A t T1 T2) as (G1 & G2 & G3). rewrite (g_other _ _ _ _ B) by auto. set_solver.
  - intros t T3. destruct (g_kept _ _ _ _ B t T3) as [B1 B2].
    assert (T2 : t ∈ pending s2 p) by (eapply elem_of_sublist; [exact T3|apply B]).
    destruct (g_kept _ _ _ _ A t T2) as [A1 A2]. destruct (g_queue _ _ _ _ A t) as (a1 & a2 & E1).
    split; [congruence|]. destruct B2 as [B2|[B2 B3]]; [rewrite B2; done|]. right. split; [done|]. by rewrite E1 in B3.
Qed.

Lemma progress_outcome p l s s' t p' : progress p l s s' -> must_wait s' p' t <-> must_wait s p' t.
Proof.
  intros G. unfold must_wait, outcome. destruct (g_queue _ _ _ _ G t) as (a & b & ->). simpl.
  by rewrite (proj1 (g_values _ _ _ _ G)), (same_adj _ _ _ (g_values _ _ _ _ G)).
Qed.

(** Telling [t] to try again. *)
Lemma progress_again p t s : q_alter (queues s t) = true ->
  progress p [t] s (set_queue t (fun q => q <| q_status := 1 |>) (wake t s)).
Proof.
  intros Ha. assert (Q : forall u, queues (set_queue t (fun q => q <| q_status := 1 |>) (wake t s)) u =
    if decide (u = t) then (queues s t) <| q_status := 1 |> else queues s u).
  { intros u. simpl. destruct (decide (u = t)) as [->|]; [by rewrite fn_lookup_alter|by rewrite fn_lookup_alter_ne]. }
  split; try done.
  - intros u. rewrite Q. destruct (decide (u = t)) as [->|].
    + exists 1, (q_linked (queues s t)). by destruct (queues s t).
    + exists (q_status (queues s u)), (q_linked (queues s u)). by destruct (queues s u).
  - intros u Hu. rewrite Q, decide_False; [done|set_solver].
  - intros u _. rewrite Q. destruct (decide (u = t)) as [->|]; simpl; auto.
Qed.

(** [t] leaves the queue with the result [e]. *)
Lemma progress_leave p t e s : e <> 1 ->
  progress p [t] s (remove_from_queue p t (set_queue t (fun q => q <| q_status := e |>) (wake t s))).
Proof.
  intros He. set (s' := remove_from_queue _ _ _).
  assert (Q : forall u, queues s' u = if decide (u = t) then (queues s t) <| q_status := e |> <| q_linked := false |> else queues s u).
  { intros u. subst s'. simpl. destruct (decide (u = t)) as [->|]; [by rewrite !fn_lookup_alter|by rewrite !fn_lookup_alter_ne]. }
  assert (A : forall p', sem_arrays s' p' = if decide (p' = p) then (sem_arrays s p) <| sem_pending ::= filter (fun u => u <> t) |> else sem_arrays s p').
  { intros p'. subst s'. simpl. destruct (decide (p' = p)) as [->|]; [by rewrite fn_lookup_alter|by rewrite fn_lookup_alter_ne]. }
  assert (P : pending s' p = filter (fun u => u <> t) (pending s p)) by (unfold pending; by rewrite A, decide_True).
  assert (O : sem_ids s' = sem_ids s /\ semundo s' = semundo s /\ semsleeping s' = semsleeping s /\ s_cred s' = s_cred s /\ undos s' = undos s) by done.
  destruct O as (O1 & O2 & O3 & O4 & O5). clearbody s'. split; try done.
  - split; [|by rewrite O5]. intros p'. unfold vals. rewrite A. by destruct (decide (p' = p)) as [->|].
  - by rewrite O5.
  - intros p' Hp. by rewrite A, decide_False.
  - by rewrite A, decide_True.
  - by rewrite A, decide_True.
  - intros u. rewrite Q. destruct (decide (u = t)) as [->|].
    + by exists e, false.
    + exists (q_status (queues s u)), (q_linked (queues s u)). by destruct (queues s u).
  - intros u Hu. rewrite Q, decide_False; [done|set_solver].
  - rewrite P. apply sublist_filter.
  - intros u U1. rewrite P, list_elem_of_filter. intros U2. destruct (decide (u = t)) as [->|]; [|tauto].
    rewrite Q, decide_True by done. simpl. set_solver.
  - intros u. rewrite P, list_elem_of_filter. intros [U1 U2]. rewrite Q, decide_False by done. auto.
Qed.

Definition looked_at (s : sems) (p : Z) (l : list tid) : Prop :=
  (exists t, t ∈ l /\ t ∈ pending s p /\ q_status (queues s t) = 1 /\ ~ must_wait s p t) \/
  (forall t, t ∈ l -> t ∈ pending s p -> q_status (queues s t) = 1 \/ must_wait s p t).

Lemma outcome_result s p q : let r := result_value (outcome s p q) in
  (r <= 0 -> outcome s p q <> inr 1) /\ (0 < r -> outcome s p q = inr 1).
Proof.
  cbv zeta. destruct (outcome s p q) as [[v a]|e] eqn:E; simpl; [split; [done|lia]|].
  destruct (spec_errors _ _ _ _ E) as [->|He]; split; try done; try lia. intros _ [= ->]. lia.
Qed.

(** The rest of the queue after [t], which [t]'s turn leaves alone. *)
Lemma looked_cons p t l s s1 s' : progress p [t] s s1 -> t ∉ l -> progress p l s1 s' -> looked_at s' p l ->
  (t ∈ pending s1 p -> q_status (queues s1 t) = 1 \/ must_wait s1 p t) -> looked_at s' p (t :: l).
Proof.
  intros G1 Hn G2 HL Ht. destruct HL as [(u & U1 & U2)|HL]; [left; exists u; set_solver|].
  right. intros u [->|Hu]%elem_of_cons; [|by apply HL]. intros Hp.
  rewrite (g_other _ _ _ _ G2) by done. rewrite (progress_outcome _ _ _ _ _ _ G2). apply Ht.
  eapply elem_of_sublist; [exact Hp|apply G2].
Qed.

Lemma progress_nil p t s s1 : progress p [] s s1 -> progress p [t] s s1.
Proof.
  intros G. destruct G. split; try done.
  - intros u Hu. apply g_other0. set_solver.
  - intros u U1 U2. destruct (g_gone0 u U1 U2) as [? _]. set_solver.
Qed.

Lemma progress_refl p l s : progress p l s s.
Proof.
  split; try done.
  - intros t. exists (q_status (queues s t)), (q_linked (queues s t)). by destruct (queues s t).
  - intros t _. auto.
Qed.

Lemma loop_spec p l : forall s, NoDup l ->
  (forall t, t ∈ l -> in_range (q_sops (queues s t)) (length (sem_base (sem_arrays s p))) /\ plain (queues s t) /\ t ∈ pending s p) ->
  progress p l s (update_loop p l s) /\ looked_at (update_loop p l s) p l.
Proof.
  induction l as [|t l IH]; intros s Hnd Hl.
  { split; [apply progress_refl|]. right. set_solver. }
  apply list.NoDup_cons in Hnd as [Hn Hnd]. destruct (Hl t ltac:(set_solver)) as (R1 & R2 & R3).
  (* The rest, from a state that [t]'s turn leads to. *)
  assert (Hrest : forall s1, progress p [t] s s1 -> (t ∈ pending s1 p -> q_status (queues s1 t) = 1 \/ must_wait s1 p t) ->
    progress p (t :: l) s (update_loop p l s1) /\ looked_at (update_loop p l s1) p (t :: l)).
  { intros s1 G Ht. destruct (IH s1 Hnd) as [I1 I2].
    { intros u Hu. destruct (Hl u ltac:(set_solver)) as (U1 & U2 & U3).
      assert (Hut : u ∉ [t]) by (intros ->%list_elem_of_singleton; done).
      rewrite (g_other _ _ _ _ G), (g_length _ _ _ _ G) by done. split_and!; [done..|].
      destruct (decide (u ∈ pending s1 p)) as [|Hg]; [done|]. by destruct (g_gone _ _ _ _ G u U3 Hg). }
    split; [apply (progress_trans p [t] l s s1); [set_solver|done..]|].
    eapply looked_cons; [exact G|done|exact I1|exact I2|exact Ht]. }
  cbn [update_loop]. cbv zeta. destruct (Z.eqb_spec (q_status (queues s t)) 1) as [E1|E1].
  { apply Hrest; [apply progress_refl|by left]. }
  pose proof (try_spec p (q_sops (queues s t)) (q_undo (queues s t)) (q_pid (queues s t)) (q_alter (queues s t)) s R1) as T.
  destruct (try_atomic_semop _ _ _ _ _ s) as [s1 r]. cbv zeta in T. destruct T as (T1 & T2 & T3 & _ & T5 & _).
  destruct (outcome_result s p (queues s t)) as [O1 O2]. unfold outcome in O1, O2. rewrite <- T2 in O1, O2.
  assert (Q : queues s1 t = queues s t) by (by rewrite (f_queues _ _ _ T1)).
  destruct (Z.leb_spec r 0) as [Hr|Hr].
  - destruct ((r =? 0) && q_alter (queues s t)) eqn:Ea.
    + apply andb_true_iff in Ea as [_ Ea].
      assert (G : progress p [] s s1) by (apply progress_frame; auto).
      assert (G' : progress p [t] s (set_queue t (fun q => q <| q_status := 1 |>) (wake t s1))).
      { apply (progress_trans p [] [t] s s1); [set_solver|done|]. apply progress_again. by rewrite Q. }
      split; [destruct G'; split; try done; [intros u Hu; apply g_other0; set_solver|]|].
      { intros u U1 U2. destruct (g_gone0 u U1 U2) as (? & ?). set_solver. }
      left. exists t. split; [set_solver|]. split; [|split].
      * change (t ∈ pending s1 p). by rewrite (f_pending _ _ _ T1).
      * simpl. by rewrite fn_lookup_alter.
      * rewrite (progress_outcome _ _ _ _ _ _ G'). by apply O1.
    + assert (V : same_values s s1).
      { apply T3. destruct (q_alter (queues s t)) eqn:Eq; [by left|right].
        destruct (Z.eqb_spec r 0); [right; by apply R2|by left]. }
      apply Hrest.
      * apply (progress_trans p [] [t] s s1); [set_solver|by apply progress_frame|]. apply progress_leave. lia.
      * unfold pending, remove_from_queue. simpl. rewrite fn_lookup_alter. simpl. rewrite list_elem_of_filter. tauto.
  - assert (V : same_values s s1) by (apply T3; right; left; lia).
    assert (G : progress p [t] s s1) by (by apply progress_nil, progress_frame).
    apply Hrest; [done|]. intros _. right. rewrite (progress_outcome _ _ _ _ _ _ G). by apply O2.
Qed.

Lemma progress_live p l s s' p' : progress p l s s' -> live s' p' <-> live s p'.
Proof. intros G. unfold live. by rewrite (g_ids _ _ _ _ G). Qed.

(** A task waits on one set only. *)
Lemma one_set s p p' t : sem_core s -> live s p -> live s p' -> t ∈ pending s p -> t ∈ pending s p' -> p = p'.
Proof. intros C L1 L2 T1 T2. by rewrite <- (r_sma _ _ _ (c_request _ C _ _ L1 T1)), (r_sma _ _ _ (c_request _ C _ _ L2 T2)). Qed.

Lemma progress_pending p l s s' p' : progress p l s s' -> p' <> p -> pending s' p' = pending s p'.
Proof. intros G Hp. unfold pending. by rewrite (g_arrays _ _ _ _ G). Qed.

Lemma progress_request p l s s' p' t : progress p l s s' -> l ⊆ pending s p -> live s p -> sem_core s -> live s p' ->
  t ∈ pending s' p' -> request_ok s' p' t.
Proof.
  intros G Hl L C L' Ht. assert (Ht0 : t ∈ pending s p').
  { destruct (decide (p' = p)) as [->|]; [eapply elem_of_sublist; [exact Ht|apply G]|]. by rewrite (progress_pending _ _ _ _ _ G) in Ht. }
  destruct (c_request _ C _ _ L' Ht0) as [R1 R2 R3 R4 R5 R6 R7 R8].
  destruct (g_queue _ _ _ _ G t) as (st & lk & E).
  assert (K : q_linked (queues s' t) = q_linked (queues s t) /\
    (q_status (queues s' t) = q_status (queues s t) \/ q_status (queues s' t) = 1 /\ q_alter (queues s t) = true)).
  { destruct (decide (p' = p)) as [->|Hp]; [by apply (g_kept _ _ _ _ G)|]. rewrite (g_other _ _ _ _ G); [auto|].
    intros Hin. apply Hp. symmetry. by apply (one_set s p p' t C L L'); [apply Hl|]. }
  destruct K as [K1 K2]. split.
  - by rewrite E.
  - by rewrite K1.
  - by rewrite (g_sleeping _ _ _ _ G).
  - rewrite E. simpl. destruct (decide (p' = p)) as [->|]; [by rewrite (g_length _ _ _ _ G)|by rewrite (g_arrays _ _ _ _ G)].
  - unfold plain. rewrite E. done.
  - rewrite E. done.
  - intros H1. rewrite E. simpl. destruct K2 as [K2|[_ K2]]; [apply R7; congruence|done].
  - intros u. rewrite E. simpl. rewrite (g_semundo _ _ _ _ G), (g_semid _ _ _ _ G). unfold sem_lock. rewrite (g_ids _ _ _ _ G).
    apply R8.
Qed.

Lemma progress_core p l s s' : progress p l s s' -> l ⊆ pending s p -> live s p -> sem_core s -> sem_core s'.
Proof.
  intros G Hl L C. split.
  - rewrite (g_ids _ _ _ _ G). apply (c_inj _ C).
  - intros p'. rewrite (progress_live _ _ _ _ _ G). intros L'. destruct (decide (p' = p)) as [->|Hp].
    + eapply sublist_NoDup; [|apply G]. by apply (c_nodup _ C).
    + rewrite (progress_pending _ _ _ _ _ G Hp). by apply (c_nodup _ C).
  - intros p' t. rewrite (progress_live _ _ _ _ _ G). intros. by eapply progress_request.
  - intros t. rewrite (g_sleeping _ _ _ _ G), (progress_live _ _ _ _ _ G). intros Hs Hq.
    destruct (g_queue _ _ _ _ G t) as (st & lk & E).
    assert (Esma : q_sma (queues s' t) = q_sma (queues s t)) by (by rewrite E). rewrite Esma.
    destruct (decide (t ∈ l)) as [Hin|Hin].
    + pose proof (c_request _ C _ _ L (Hl _ Hin)) as R. rewrite (r_sma _ _ _ R). split; [done|].
      destruct (decide (t ∈ pending s' p)) as [|Hg]; [done|]. destruct (g_gone _ _ _ _ G t (Hl _ Hin) Hg) as (_ & G1 & G2).
      destruct Hq; congruence.
    + rewrite (g_other _ _ _ _ G) in Hq by done. destruct (c_linked _ C t Hs Hq) as [L1 L2]. split; [done|].
      destruct (decide (q_sma (queues s t) = p)) as [Ep|Ep]; [|by rewrite (progress_pending _ _ _ _ _ G Ep)].
      rewrite Ep in *. destruct (decide (t ∈ pending s' p)) as [|Hg]; [done|].
      by destruct (g_gone _ _ _ _ G t L2 Hg).
  - rewrite (g_semundo _ _ _ _ G). apply (c_owner _ C).
  - intros p' u. rewrite (progress_live _ _ _ _ _ G), (g_semid _ _ _ _ G). unfold sem_lock. rewrite (g_ids _ _ _ _ G).
    intros L' Hu. apply (c_undo _ C); [done|].
    destruct (decide (p' = p)) as [->|]; [by apply (g_undos _ _ _ _ G)|by rewrite <- (g_arrays _ _ _ _ G)].
  - intros p'. rewrite (progress_live _ _ _ _ _ G), (proj1 (g_values _ _ _ _ G)). apply (c_vals _ C).
Qed.

(** The requests of the set were looked at: [wakeful] holds for it, and still for the others. *)
Lemma update_ok p s : sem_core s -> live s p -> (forall p', p' <> p -> live s p' -> wakeful s p') ->
  sem_inv (update_queue p s) /\ semsleeping (update_queue p s) = semsleeping s /\ sem_ids (update_queue p s) = sem_ids s /\
  s_cred (update_queue p s) = s_cred s /\ semundo (update_queue p s) = semundo s.
Proof.
  intros C L W. unfold update_queue. fold (pending s p). destruct (loop_spec p (pending s p) s) as [G HL].
  { by apply (c_nodup _ C). }
  { intros t Ht. pose proof (c_request _ C _ _ L Ht) as R. split; [apply R|split; [apply R|done]]. }
  split; [|split_and!; apply G]. split; [by eapply progress_core|]. intros p'. rewrite (progress_live _ _ _ _ _ G). intros L'.
  destruct (decide (p' = p)) as [->|Hp].
  - destruct HL as [(t & _ & T)|HL]; [left; by exists t|]. right. intros t Ht. apply HL; [|done].
    eapply elem_of_sublist; [exact Ht|apply G].
  - apply (wakeful_same s); [by apply (progress_pending _ _ _ _ _ G)|apply G| |by apply W].
    intros t Ht. split; [|apply same_adj, G]. apply (g_other _ _ _ _ G). intros Hin.
    apply Hp. symmetry. by apply (one_set s p p' t C L L').
Qed.
