(* ===== verification/SemSteps.v ===== *)
(** * Every semaphore operation keeps the invariant *)
From stdpp Require Import base sets list functions.
From S2P Require Import Prelude PidHash Bitmap Sched SchedCalls Proc User Cred Ipc IpcProofs SigCalls Sem SemOps SemInv.

(** ** Identifiers *)

Lemma lock_spec s id p : 0 <= id -> sem_lock id s = Some p <->
  entries (sem_ids s) !! Z.to_nat (Z.rem id SEQ_MULTIPLIER) = Some (Some p).
Proof. apply ipc_lock_spec. Qed.

Lemma lock_live s id p : 0 <= id -> sem_lock id s = Some p -> live s p.
Proof. intros Hid H. apply lock_spec in H; [|done]. by eexists. Qed.

(** ** Steps that touch no queue, value or adjustment *)

Lemma inv_frame p s s' : frame p s s' -> same_values s s' -> sem_inv s -> sem_inv s'.
Proof.
  intros F V [C W]. split; [apply (core_frame p s); [done| |done]; rewrite (proj1 V); apply (c_vals _ C)|]. intros p' L. rewrite (live_frame _ _ _ _ F) in L.
  apply (wakeful_same s); [by eapply pending_frame|apply V| |by apply W].
  intros t _. rewrite (f_queues _ _ _ F). split; [done|]. by apply same_adj.
Qed.

(** Credentials, the scheduler and the time may change in any way. *)
Lemma inv_other s c sc now : sem_inv s -> sem_inv (s <| s_cred := c |> <| s_sched := sc |> <| CURRENT_TIME := now |>).
Proof. apply (inv_frame 0); by split. Qed.

Lemma perms_inv p flag s : let s' := fst (sem_perms p flag s) in
  (sem_inv s -> sem_inv s') /\ sem_ids s' = sem_ids s /\ sem_arrays s' = sem_arrays s /\ semsleeping s' = semsleeping s /\
  semundo s' = semundo s /\ undos s' = undos s /\ queues s' = queues s /\ current s' = current s.
Proof.
  unfold sem_perms, ipcperms. cbv zeta. match goal with |- context [lacks ?g ?c ?x] => set (gd := g) end.
  unfold lacks, capable. destruct gd; [destruct (cap_raised _ _)|]; (split; [apply (inv_frame 0); by split|done]).
Qed.

(** The current task's list of undo structures may change while it does not sleep. *)
Lemma inv_semundo t l s : semsleeping s t = false -> (forall u t', u ∈ l -> u ∈ semundo s t' -> t = t') -> sem_inv s ->
  sem_inv (s <| semundo ::= <[t := l]> |>).
Proof.
  intros Hs Hl [[C1 C2 C3 C4 C5 C6 C7] W].
  assert (E : forall u, semundo (s <| semundo ::= <[t := l]> |>) u = if decide (u = t) then l else semundo s u).
  { intros u. simpl. destruct (decide (u = t)) as [->|]; [by rewrite fn_lookup_insert|by rewrite fn_lookup_insert_ne]. }
  split; [split; try done|].
  - intros p u L Hu. destruct (C3 p u L Hu) as [R1 R2 R3 R4 R5 R6 R7 R8]. split; try done. intros v Hv. rewrite E.
    destruct (decide (u = t)) as [->|]; [congruence|]. by apply R8.
  - intros a b u. rewrite !E. destruct (decide (a = t)) as [->|], (decide (b = t)) as [->|]; try done.
    + intros H1 H2. symmetry. symmetry. by apply (Hl u).
    + intros H1 H2. symmetry. by apply (Hl u).
    + apply C5.
  - intros p L. apply (wakeful_same s); try done. by apply W.
Qed.

(** ** semget *)

(** A set without requests joins, or only the array of identifiers grows. *)
Lemma inv_new s s1 p a : sem_pending a = [] -> sem_undos a = [] -> Forall (fun x => 0 <= semval x) (sem_base a) -> ~ live s p -> sem_inv s ->
  sem_arrays s1 = <[p := a]> (sem_arrays s) \/ sem_arrays s1 = sem_arrays s ->
  undos s1 = undos s -> queues s1 = queues s -> semundo s1 = semundo s -> semsleeping s1 = semsleeping s ->
  (forall j q, entries (sem_ids s1) !! j = Some (Some q) ->
     q = p /\ sem_arrays s1 = <[p := a]> (sem_arrays s) \/ entries (sem_ids s) !! j = Some (Some q)) ->
  (forall j q, entries (sem_ids s) !! j = Some (Some q) -> entries (sem_ids s1) !! j = Some (Some q)) ->
  (forall j j', entries (sem_ids s1) !! j = Some (Some p) -> entries (sem_ids s1) !! j' = Some (Some p) -> j = j') -> sem_inv s1.
Proof.
  intros Ap Au Av Hnew [[C1 C2 C3 C4 C5 C6 C7] W] HA HU HQ HM HS E1 E2 E3.
  assert (Ar : forall q, live s q -> sem_arrays s1 q = sem_arrays s q).
  { intros q Hq. assert (q <> p) by (intros ->; done). destruct HA as [-> | ->]; [by rewrite fn_lookup_insert_ne|done]. }
  assert (Ln : forall q, live s1 q -> live s q \/ pending s1 q = [] /\ sem_undos (sem_arrays s1 q) = [] /\ Forall (fun v => 0 <= v) (vals s1 q)).
  { intros q [j Hj]. apply E1 in Hj as [(-> & E)|Hj]; [|left; by exists j]. right. unfold pending, vals.
    rewrite E, fn_lookup_insert. split_and!; [done..|]. by apply Forall_fmap. }
  assert (Lk : forall x q, 0 <= x -> sem_lock x s = Some q -> sem_lock x s1 = Some q).
  { intros x q Hx H. apply lock_spec in H; [|done]. apply lock_spec; [done|]. auto. }
  assert (Pn : forall q, live s q -> pending s1 q = pending s q) by (intros q Lq; unfold pending; by rewrite Ar).
  split; [split|].
  - intros i j q Hi Hj. destruct (decide (q = p)) as [->|Hne]; [by apply E3|].
    apply E1 in Hi as [(? & _)|Hi]; [done|]. apply E1 in Hj as [(? & _)|Hj]; [done|]. by apply (C1 i j q).
  - intros q Lq. destruct (Ln q Lq) as [Lq'|[-> _]]; [rewrite Pn by done; auto|apply NoDup_nil_2].
  - intros q t Lq. destruct (Ln q Lq) as [Lq'|[-> _]]; [|set_solver]. rewrite Pn by done. intros Ht.
    destruct (C3 q t Lq' Ht) as [R1 R2 R3 R4 R5 R6 R7 R8]. split; rewrite ?HQ, ?HS, ?Ar by done; try done.
    intros u Hu. rewrite HM, HU. destruct (R8 u Hu) as (? & ? & ?). auto.
  - intros t. rewrite HS, HQ. intros H1 H2. destruct (C4 t H1 H2) as [L1 L2]. rewrite Pn by done.
    split; [|done]. destruct L1 as [j Hj]. exists j. auto.
  - rewrite HM. apply C5.
  - intros q u Lq. destruct (Ln q Lq) as [Lq'|(_ & -> & _)]; [|set_solver].
    rewrite Ar by done. intros Hu. rewrite HU. destruct (C6 q u Lq' Hu). auto.
  - intros q Lq. destruct (Ln q Lq) as [Lq'|(_ & _ & ?)]; [|done]. unfold vals. rewrite Ar by done. by apply C7.
  - intros q Lq. destruct (Ln q Lq) as [Lq'|[E _]]; [|right; rewrite E; set_solver].
    apply (wakeful_same s); [by apply Pn|unfold vals; by rewrite Ar| |by apply W].
    intros t _. rewrite HQ. split; [done|]. unfold adj_of. by rewrite HU.
Qed.

Lemma newary_ok key nsems semflg new grow s : (forall p, new = Some p -> ~ live s p) -> sem_inv s ->
  sem_inv (fst (newary key nsems semflg new grow s)).
Proof.
  intros Hnew Hi. unfold newary. destruct (nsems =? 0); [done|]. destruct (_ <? _); [done|].
  destruct new as [p|]; [|done]. specialize (Hnew p eq_refl).
  pose proof (addid_spec (sem_ids s) p (sc_semmni s) grow) as A.
  destruct (ipc_addid (sem_ids s) p (sc_semmni s) grow) as [[ids id] seq].
  set (a := SemArray _ _ _ _ _ _).
  assert (Ha : Forall (fun x => 0 <= semval x) (sem_base a)) by (by apply Forall_replicate).
  pose proof (inv_new s) as Hgen.
  destruct A as [[-> A]|(k & -> & A1 & A2)].
  - change (-1 =? -1) with true. cbv iota. apply (Hgen _ p a); try done; [by right|..].
    + intros j q Hj. right. by apply A.
    + intros j q Hj. by apply A.
    + intros j j' Hj. exfalso. apply Hnew. exists j. by apply A.
  - destruct (Z.eqb_spec (Z.of_nat k) (-1)); [lia|]. apply (Hgen _ p a); try done; [by left|..].
    + intros j q Hj. apply A2 in Hj as [[-> ->]|[_ Hj]]; [by left|by right].
    + intros j q Hj. apply A2. destruct (decide (j = k)) as [->|]; [by destruct (A1 q)|auto].
    + intros j j' Hj Hj'. apply A2 in Hj as [[-> _]|[_ Hj]]; [|exfalso; apply Hnew; by exists j].
      apply A2 in Hj' as [[-> _]|[_ Hj']]; [done|exfalso; apply Hnew; by exists j'].
Qed.

Lemma semget_ok key nsems semflg new grow s s' r : (forall p, new = Some p -> ~ live s p) -> sem_inv s ->
  sys_semget key nsems semflg new grow s = Some (s', r) -> sem_inv s'.
Proof.
  intros Hnew H. unfold sys_semget. destruct (_ || _); [by intros [= <- <-]|].
  destruct (key =? IPC_PRIVATE); [intros [= E]; replace s' with (fst (newary key nsems semflg new grow s)) by (by rewrite E); by apply newary_ok|].
  cbv zeta. destruct (_ =? -1).
  { destruct (has semflg IPC_CREAT); [|by intros [= <- <-]].
    intros [= E]. replace s' with (fst (newary key nsems semflg new grow s)) by (by rewrite E). by apply newary_ok. }
  destruct (_ && _); [by intros [= <- <-]|]. destruct (sem_lock _ s) as [p|]; [|done]. simpl.
  destruct (_ <? nsems); [by intros [= <- <-]|]. pose proof (perms_inv p semflg s) as P.
  destruct (sem_perms p semflg s) as [s1 refused]. intros [= <- <-]. by apply P.
Qed.

(** ** semctl *)

(** New values for the set [p], and adjustments that no request of another set uses. *)
Lemma inv_revalued p s s' : frame p s s' -> (live s p -> Forall (fun v => 0 <= v) (vals s' p)) -> sem_inv s ->
  (forall p' t u, p' <> p -> live s p' -> t ∈ pending s p' -> q_undo (queues s t) = Some u ->
     semadj (undos s' u) = semadj (undos s u)) ->
  sem_core s' /\ forall p', p' <> p -> live s' p' -> wakeful s' p'.
Proof.
  intros F V [C W] Hu. split; [by eapply core_frame|]. intros p' Hp L. rewrite (live_frame _ _ _ _ F) in L.
  apply (wakeful_same s); [by eapply pending_frame|unfold vals; by rewrite (f_arrays _ _ _ F)| |by apply W].
  intros t Ht. rewrite (f_queues _ _ _ F). split; [done|]. destruct (q_undo (queues s t)) as [u|] eqn:E; [|done].
  by apply (Hu p' t u).
Qed.

(** A structure of the set [p] serves no request of another set. *)
Lemma undo_apart s p p' t u : sem_core s -> live s p -> live s p' -> p' <> p -> u ∈ sem_undos (sem_arrays s p) ->
  t ∈ pending s p' -> q_undo (queues s t) <> Some u.
Proof.
  intros C L L' Hp Hu Ht E. destruct (c_undo _ C p u L Hu) as [E1 _].
  destruct (r_undo _ _ _ (c_request _ C p' t L' Ht) u E) as (_ & E2 & _). congruence.
Qed.

Lemma set_undos_spec (f : sem_undo -> sem_undo) l : forall s, let s' := fold_left (fun s u => set_undo u f s) l s in
  sem_ids s' = sem_ids s /\ sem_arrays s' = sem_arrays s /\ queues s' = queues s /\ semundo s' = semundo s /\
  semsleeping s' = semsleeping s /\ s_cred s' = s_cred s /\ CURRENT_TIME s' = CURRENT_TIME s /\
  (forall u, u ∉ l -> undos s' u = undos s u) /\
  ((forall x, un_semid (f x) = un_semid x) -> forall u, un_semid (undos s' u) = un_semid (undos s u)) /\
  (forall u n, u ∈ l -> (forall x, un_semid (f x) = n) -> un_semid (undos s' u) = n).
Proof.
  induction l as [|v l IH]; intros s; [by split_and!; try set_solver|]. cbn [fold_left].
  destruct (IH (set_undo v f s)) as (I1 & I2 & I3 & I4 & I5 & I6 & I7 & I8 & I9 & I10). split_and!; try done.
  - intros u Hu. rewrite I8 by set_solver. simpl. rewrite fn_lookup_alter_ne; [done|set_solver].
  - intros Hf u. rewrite I9 by done. simpl. destruct (decide (u = v)) as [->|]; [by rewrite fn_lookup_alter|by rewrite fn_lookup_alter_ne].
  - intros u n Hu Hf. destruct (decide (u ∈ l)) as [|Hl]; [by apply I10|]. rewrite I8 by done.
    assert (u = v) as -> by set_solver. simpl. by rewrite fn_lookup_alter.
Qed.

(** The queue is updated after a change of the values of the set and of its adjustments. *)
Lemma changed_ok p s s2 : frame p s s2 -> live s p -> Forall (fun v => 0 <= v) (vals s2 p) -> sem_inv s ->
  (forall u, u ∉ sem_undos (sem_arrays s p) -> semadj (undos s2 u) = semadj (undos s u)) ->
  sem_inv (update_queue p s2) /\ semsleeping (update_queue p s2) = semsleeping s /\
  s_cred (update_queue p s2) = s_cred s2 /\ semundo (update_queue p s2) = semundo s.
Proof.
  intros F L Hv Hi Hu. destruct (inv_revalued p s s2 F (fun _ => Hv) Hi) as [C W].
  { intros p' t u Hp L' Ht Eu. apply Hu. intros Hin. by eapply (undo_apart s p p' t u); [apply Hi|..]. }
  destruct (update_ok p s2 C) as (H1 & H2 & _ & H4 & H5); [by rewrite (live_frame _ _ _ _ F)|done|].
  by rewrite H2, H4, H5, (f_sleeping _ _ _ F), (f_semundo _ _ _ F).
Qed.

(** A change of the set only, and of adjustments only. *)
Lemma frame_array p g s : (forall a, length (sem_base (g a)) = length (sem_base a) /\ sem_pending (g a) = sem_pending a /\
    sem_undos (g a) ⊆ sem_undos a) -> frame p s (set_array p g s).
Proof.
  intros Hg. split; try done; unfold pending; simpl; rewrite ?fn_lookup_alter; try apply Hg.
  intros p' Hp. by rewrite fn_lookup_alter_ne.
Qed.

Lemma frame_clear p f s : frame p s (clear_adj p f s) /\ sem_arrays (clear_adj p f s) = sem_arrays s /\
  forall u, u ∉ sem_undos (sem_arrays s p) -> undos (clear_adj p f s) u = undos s u.
Proof.
  pose proof (set_undos_spec (fun x => x <| semadj ::= f |>) (sem_undos (sem_arrays s p)) s) as U.
  fold (clear_adj p f s) in U. destruct U as (U1 & U2 & U3 & U4 & U5 & U6 & _ & U8 & U9 & _).
  split; [|done]. split; try done; unfold pending; rewrite ?U2; try done. intros u. by apply U9.
Qed.

Lemma frame_trans p s1 s2 s3 : frame p s1 s2 -> frame p s2 s3 -> frame p s1 s3.
Proof.
  intros A B. split.
  - by rewrite (f_ids _ _ _ B), (f_ids _ _ _ A).
  - by rewrite (f_queues _ _ _ B), (f_queues _ _ _ A).
  - by rewrite (f_semundo _ _ _ B), (f_semundo _ _ _ A).
  - by rewrite (f_sleeping _ _ _ B), (f_sleeping _ _ _ A).
  - intros u. by rewrite (f_semid _ _ _ B), (f_semid _ _ _ A).
  - intros p' Hp. by rewrite (f_arrays _ _ _ B), (f_arrays _ _ _ A).
  - by rewrite (f_pending _ _ _ B), (f_pending _ _ _ A).
  - etrans; [apply B|apply A].
  - by rewrite (f_length _ _ _ B), (f_length _ _ _ A).
Qed.

Lemma set_at_Forall {A} (P : A -> Prop) n f l : Forall P l -> (forall x, P x -> P (f x)) -> Forall P (set_at n f l).
Proof. intros H Hf. apply Forall_alter; [done|]. intros. by apply Hf. Qed.

Lemma base_nonneg s p : sem_inv s -> live s p -> Forall (fun x => 0 <= semval x) (sem_base (sem_arrays s p)).
Proof. intros [C _] L. apply List.Forall_map. by apply (c_vals _ C). Qed.

Lemma setval_ok p semnum val s : live s p -> sem_inv s -> sem_inv (fst (semctl_setval p semnum val s)).
Proof.
  intros L H. unfold semctl_setval. destruct ((SEMVMX <? val) || (val <? 0)) eqn:Ev; [done|]. b2p. cbn [fst].
  destruct (frame_clear p (set_at semnum (fun _ => 0)) s) as (F & Fa & Hu). apply (changed_ok p s); [|done| |done|].
  - eapply frame_trans; [exact F|]. apply frame_array. intros a. simpl. by rewrite set_at_length.
  - unfold vals. simpl. rewrite fn_lookup_alter. simpl. apply List.Forall_map, set_at_Forall; [|done].
    rewrite Fa. by apply base_nonneg.
  - intros u Hin. simpl. by rewrite Hu.
Qed.

Lemma revalidate_ok semid p nsems flg s : sem_inv s -> 0 <= semid ->
  let '(s1, err) := sem_revalidate semid p nsems flg s in
  sem_inv s1 /\ semsleeping s1 = semsleeping s /\ current s1 = current s /\ semundo s1 = semundo s /\ sem_ids s1 = sem_ids s /\
  sem_arrays s1 = sem_arrays s /\ undos s1 = undos s /\ queues s1 = queues s /\
  (err = 0 -> sem_lock semid s1 = Some p /\ sem_nsems (sem_arrays s1 p) = nsems).
Proof.
  intros H Hid. unfold sem_revalidate. destruct (sem_lock semid s) as [p'|] eqn:E; [|done].
  destruct (negb _ || _ || negb _) eqn:Eb; [done|]. apply orb_false_iff in Eb as [Eb Hn]. apply orb_false_iff in Eb as [Hp _].
  apply negb_false_iff, Z.eqb_eq in Hp as ->. apply negb_false_iff, Z.eqb_eq in Hn.
  pose proof (perms_inv p flg s) as P. destruct (sem_perms p flg s) as [s1 refused]. simpl in P.
  destruct P as (P1 & P2 & P3 & P4 & P5 & P6 & P7 & P8). split_and!; try done; [auto|].
  intros _. unfold sem_lock. by rewrite P2, P3.
Qed.

Lemma zip_length {A B C} (f : A -> B -> C) l k : length k = length l -> length (zip_with f l k) = length l.
Proof. intros H. rewrite length_zip_with. lia. Qed.

Lemma unlink_all_spec l : forall s,
  let s' := fold_left (fun s t => wake t (set_queue t (fun q => q <| q_status := - EIDRM |> <| q_linked := false |>) s)) l s in
  sem_ids s' = sem_ids s /\ sem_arrays s' = sem_arrays s /\ undos s' = undos s /\ semundo s' = semundo s /\
  semsleeping s' = semsleeping s /\ s_cred s' = s_cred s /\
  forall t, queues s' t = if decide (t ∈ l) then (queues s t) <| q_status := - EIDRM |> <| q_linked := false |> else queues s t.
Proof.
  induction l as [|u l IH]; intros s; [done|]. cbn [fold_left]. set (s0 := wake u _).
  destruct (IH s0) as (I1 & I2 & I3 & I4 & I5 & I6 & I7). split_and!; try done. intros t. rewrite I7.
  assert (Q : queues s0 t = if decide (t = u) then (queues s t) <| q_status := - EIDRM |> <| q_linked := false |> else queues s t).
  { unfold s0. simpl. destruct (decide (t = u)) as [->|]; [by rewrite fn_lookup_alter|by rewrite fn_lookup_alter_ne]. }
  rewrite Q. destruct (decide (t ∈ l)), (decide (t ∈ u :: l)), (decide (t = u)); try done; set_solver.
Qed.

(** After the set [p] is gone: its tasks are unlinked, its undo structures void. *)
Lemma inv_removed s s' k p : sem_inv s -> entries (sem_ids s) !! k = Some (Some p) ->
  entries (sem_ids s') = <[k := None]> (entries (sem_ids s)) -> sem_arrays s' = sem_arrays s ->
  semundo s' = semundo s -> semsleeping s' = semsleeping s -> (forall u, semadj (undos s' u) = semadj (undos s u)) ->
  (forall u, u ∉ sem_undos (sem_arrays s p) -> un_semid (undos s' u) = un_semid (undos s u)) ->
  (forall t, queues s' t = if decide (t ∈ pending s p) then (queues s t) <| q_status := - EIDRM |> <| q_linked := false |> else queues s t) ->
  sem_inv s'.
Proof.
  intros [C W] Hk He HA HM HS HU1 HU2 HQ.
  assert (L : live s p) by by exists k.
  assert (E : forall j q, entries (sem_ids s') !! j = Some (Some q) <-> j <> k /\ entries (sem_ids s) !! j = Some (Some q)).
  { intros j q. rewrite He. destruct (decide (k = j)) as [<-|].
    - rewrite list_lookup_insert_eq by (by eapply lookup_lt_Some). split; [done|tauto].
    - rewrite list_lookup_insert_ne by done. split; [auto|tauto]. }
  assert (Ln : forall q, live s' q <-> live s q /\ q <> p).
  { intros q. split.
    - intros [j Hj]. apply E in Hj as [Hj1 Hj2]. split; [by exists j|]. intros ->. by destruct (c_inj _ C j k p Hj2 Hk).
    - intros [[j Hj] Hq]. exists j. apply E. split; [|done]. intros ->. congruence. }
  assert (Lk : forall x q, 0 <= x -> q <> p -> sem_lock x s = Some q -> sem_lock x s' = Some q).
  { intros x q Hx Hq H. apply lock_spec in H; [|done]. apply lock_spec; [done|]. apply E. split; [|done]. intros Ek. congruence. }
  assert (Pn : forall q, pending s' q = pending s q) by (intros q; unfold pending; by rewrite HA).
  assert (Qn : forall q t, live s q -> q <> p -> t ∈ pending s q -> queues s' t = queues s t).
  { intros q t Lq Hq Ht. rewrite HQ, decide_False; [done|]. intros Hin. apply Hq. by apply (one_set s q p t). }
  split; [split|].
  - intros i j q Hi Hj. apply E in Hi as [_ Hi]. apply E in Hj as [_ Hj]. by apply (c_inj _ C i j q).
  - intros q [Lq _]%Ln. rewrite Pn. by apply (c_nodup _ C).
  - intros q t [Lq Hq]%Ln. rewrite Pn. intros Ht. destruct (c_request _ C q t Lq Ht) as [R1 R2 R3 R4 R5 R6 R7 R8].
    pose proof (Qn q t Lq Hq Ht) as Q. split; rewrite ?Q, ?HS, ?HA; try done.
    intros u Hu. destruct (R8 u Hu) as (U1 & U2 & U3). rewrite HM.
    rewrite HU2 by (intros Hin; by apply (undo_apart s p q t u)). auto.
  - intros t. rewrite HS, HQ. destruct (decide (t ∈ pending s p)) as [Ht|Ht]; simpl; [intros _ [?|?]; done|].
    intros H1 H2. destruct (c_linked _ C t H1 H2) as [L1 L2]. rewrite Ln, Pn. split; [|done]. split; [done|]. intros Ep. by rewrite Ep in L2.
  - rewrite HM. apply (c_owner _ C).
  - intros q u [Lq Hq]%Ln. rewrite HA. intros Hu. destruct (c_undo _ C q u Lq Hu) as [U1 U2].
    rewrite HU2; [auto|]. intros Hin. destruct (c_undo _ C p u L Hin) as [U3 _]. congruence.
  - intros q [Lq _]%Ln. unfold vals. rewrite HA. by apply (c_vals _ C).
  - intros q [Lq Hq]%Ln. apply (wakeful_same s); [by rewrite Pn|unfold vals; by rewrite HA| |by apply W].
    intros t Ht. split; [by apply (Qn q)|]. unfold adj_of. destruct (q_undo (queues s t)); [apply HU1|done].
Qed.

Lemma freeary_ok id s s' : 0 <= id -> sem_inv s -> freeary id s = Some s' -> sem_inv s'.
Proof.
  intros Hid H. unfold freeary. destruct (ipc_rmid (sem_ids s) id) as [[ids p]|] eqn:E; [|done]. cbn [mbind option_bind]. cbv zeta.
  apply rmid_spec in E as [E1 E2]; [|done]. intros [= <-]. set (s1 := s <| sem_ids := ids |>).
  pose proof (set_undos_spec (fun x => x <| un_semid := -1 |>) (sem_undos (sem_arrays s p)) s1) as U. cbv zeta in U.
  set (s2 := fold_left (fun s u => set_undo u (fun x => x <| un_semid := -1 |>) s) (sem_undos (sem_arrays s p)) s1) in *.
  destruct U as (U1 & U2 & U3 & U4 & U5 & _ & _ & U8 & _ & _).
  pose proof (unlink_all_spec (sem_pending (sem_arrays s p)) s2) as V. cbv zeta in V.
  set (s3 := fold_left _ (sem_pending (sem_arrays s p)) s2) in *. destruct V as (V1 & V2 & V3 & V4 & V5 & _ & V7).
  assert (A : forall l s0 u, semadj (undos (fold_left (fun s u => set_undo u (fun x => x <| un_semid := -1 |>) s) l s0) u) = semadj (undos s0 u)).
  { intros l. induction l as [|v l IH]; intros s0 u; [done|]. cbn [fold_left]. rewrite IH. simpl.
    destruct (decide (u = v)) as [->|]; [by rewrite fn_lookup_alter|by rewrite fn_lookup_alter_ne]. }
  apply (inv_removed s _ (Z.to_nat (Z.rem id SEQ_MULTIPLIER)) p); try done.
  - change (entries (sem_ids s3) = <[Z.to_nat (Z.rem id SEQ_MULTIPLIER) := None]> (entries (sem_ids s))). by rewrite V1, U1.
  - exact (eq_trans V2 U2).
  - exact (eq_trans V4 U4).
  - exact (eq_trans V5 U5).
  - intros u. change (semadj (undos s3 u) = semadj (undos s u)). rewrite V3. exact (A _ s1 u).
  - intros u Hu. change (un_semid (undos s3 u) = un_semid (undos s u)). rewrite V3. by rewrite U8.
  - intros t. etrans; [exact (V7 t)|]. by rewrite U3.
Qed.

Lemma Forall_zip_with_snd (b : list sem) l : Forall (fun v => 0 <= v) l ->
  Forall (fun x => 0 <= semval x) (zip_with (fun c v => c <| semval := v |>) b l).
Proof. intros H. revert b. induction H as [|v l Hv _ IH]; intros [|c b]; simpl; constructor; auto. Qed.

Section gaps.
Context (gap : sems -> sems).
Hypothesis gap_inv : forall s, sem_inv s -> sem_inv (gap s).

Lemma setall_ok alloc semid p nsems arg s : 0 <= semid -> (forall f i, a_array arg = Some f -> 0 <= f i) -> sem_inv s ->
  sem_inv (fst (semctl_setall gap alloc semid p nsems arg s)).
Proof.
  intros Hid Hf H. unfold semctl_setall. pose proof (gap_inv s H) as H0. set (s0 := gap s) in *. clearbody s0.
  destruct (_ && negb alloc); [done|]. destruct (a_array arg) as [f|] eqn:Ea; [|done]. cbv zeta.
  destruct (existsb _ _); [done|]. pose proof (revalidate_ok semid p nsems S_IWUGO s0 H0 Hid) as R.
  destruct (sem_revalidate semid p nsems S_IWUGO s0) as [s1 err].
  destruct R as (R1 & _ & _ & _ & _ & _ & _ & _ & R2). destruct (Z.eqb_spec err 0) as [->|]; cbn [negb]; [|done].
  destruct (R2 eq_refl) as [L Hn]. apply lock_live in L; [|done]. cbn [fst].
  set (s2 := set_array p _ s1).
  assert (B : sem_base (sem_arrays s2 p) = zip_with (fun c v => c <| semval := v |>) (sem_base (sem_arrays s1 p)) (map f (seqZ 0 nsems)))
    by (unfold s2; simpl; by rewrite fn_lookup_alter).
  assert (F2 : frame p s1 s2).
  { split; try done; unfold pending; [intros p' Hp; unfold s2; simpl; by rewrite fn_lookup_alter_ne|..];
      try (unfold s2; simpl; by rewrite fn_lookup_alter).
    rewrite B. apply zip_length. rewrite length_map, length_seqZ. unfold sem_nsems in Hn. lia. }
  destruct (frame_clear p (map (fun _ => 0)) s2) as (F3 & A3 & U3).
  apply (changed_ok p s1); [|done| |done|].
  - eapply frame_trans; [exact F2|]. eapply frame_trans; [exact F3|]. by apply frame_array.
  - unfold vals. simpl. rewrite fn_lookup_alter. simpl. rewrite A3, B. apply List.Forall_map, Forall_zip_with_snd.
    apply List.Forall_map, Forall_forall. intros i _. by apply (Hf f).
  - intros u Hu. change (semadj (undos (clear_adj p (map (fun _ => 0)) s2) u) = semadj (undos s1 u)).
    rewrite U3; [done|]. intros Hin. apply Hu. by apply (f_undos _ _ _ F2).
Qed.

Lemma getall_ok alloc semid p nsems arg s : 0 <= semid -> sem_inv s ->
  sem_inv (fst (fst (semctl_getall gap alloc semid p nsems arg s))).
Proof.
  intros Hid H. unfold semctl_getall.
  assert (Hg : forall x : sems * Z, sem_inv (fst x) ->
    sem_inv (fst (fst (let '(s1, err) := x in if negb (err =? 0) then (s1, err, NoOut)
      else if a_fault arg then (s1, - EFAULT, NoOut) else (s1, 0, OutVals (semvals (sem_arrays s1 p))))))).
  { intros [s1 err] H1. destruct (negb _); [done|]. by destruct (a_fault arg). }
  apply Hg. destruct (SEMMSL_FAST <? nsems); [|done]. destruct alloc; [|by apply gap_inv].
  pose proof (revalidate_ok semid p nsems S_IRUGO (gap s) (gap_inv s H) Hid) as R. cbv zeta.
  destruct (sem_revalidate semid p nsems S_IRUGO (gap s)) as [s1 err]. apply R.
Qed.

Lemma ctl_main_ok overflowuid overflowgid alloc semid semnum cmd version arg s : 0 <= semid ->
  (forall f i, a_array arg = Some f -> 0 <= f i) -> sem_inv s ->
  sem_inv (fst (fst (semctl_main overflowuid overflowgid gap alloc semid semnum cmd version arg s))).
Proof.
  intros Hid Hf H. unfold semctl_main. destruct (sem_lock semid s) as [p|] eqn:L; [|done]. cbv zeta.
  destruct (sem_checkid p semid s); [done|]. apply lock_live in L; [|done].
  match goal with |- context [sem_perms p ?f s] => pose proof (perms_inv p f s) as P; destruct (sem_perms p f s) as [s1 refused] end.
  simpl in P. destruct P as (P1 & P2 & _). specialize (P1 H). assert (L1 : live s1 p) by (unfold live; by rewrite P2).
  destruct refused; [done|]. destruct (cmd =? GETALL); [by apply getall_ok|]. destruct (cmd =? SETALL); [by apply setall_ok|].
  destruct (cmd =? IPC_STAT); [by destruct (a_fault arg)|]. destruct (_ || _); [done|].
  destruct (cmd =? GETVAL); [done|]. destruct (cmd =? GETPID); [done|]. destruct (cmd =? GETNCNT); [done|].
  destruct (cmd =? GETZCNT); [done|]. destruct (cmd =? SETVAL); [by apply setval_ok|done].
Qed.

Lemma ctl_down_ok semid cmd arg s s' r : 0 <= semid -> sem_inv s -> semctl_down semid cmd arg s = Some (s', r) -> sem_inv s'.
Proof.
  intros Hid H. unfold semctl_down. destruct (_ && _); [by intros [= <- <-]|].
  destruct (sem_lock semid s) as [p|] eqn:L; [|by intros [= <- <-]]. destruct (sem_checkid p semid s); [by intros [= <- <-]|].
  cbv zeta. match goal with |- context [lacks ?g ?c ?x] => destruct (lacks g c x) as [c1 refused] end.
  set (s1 := s <| s_cred := c1 |>). assert (H1 : sem_inv s1) by (apply (inv_frame 0 s); [by split|by split|done]).
  destruct refused; [by intros [= <- <-]|]. destruct (cmd =? IPC_RMID).
  { destruct (freeary semid s1) as [s2|] eqn:E; [|done]. intros [= <- <-]. by apply (freeary_ok semid s1). }
  destruct (a_set arg) as [[[uid gid] mode]|]; [|by intros [= <- <-]]. destruct (cmd =? IPC_SET); [|by intros [= <- <-]].
  intros [= <- <-]. apply (inv_frame p s1); [by apply frame_array| |done]. split; [|done].
  intros p'. unfold vals. simpl. destruct (decide (p' = p)) as [->|]; [by rewrite fn_lookup_alter|by rewrite fn_lookup_alter_ne].
Qed.

Lemma semctl_ok overflowuid overflowgid alloc semid semnum cmd arg s s' r out :
  (forall f i, a_array arg = Some f -> 0 <= f i) -> sem_inv s ->
  sys_semctl overflowuid overflowgid gap alloc semid semnum cmd arg s = Some (s', r, out) -> sem_inv s'.
Proof.
  intros Hf H. unfold sys_semctl. destruct (Z.ltb_spec semid 0); [by intros [= <- <- <-]|].
  destruct (ipc_parse_version cmd) as [cmd' version]. destruct (_ || _ || _).
  { unfold semctl_nolock. destruct (_ || _).
    - destruct (if cmd' =? SEM_INFO then _ else _) as [a b]. destruct (a_fault arg); by intros [= <- <- <-].
    - destruct (cmd' =? SEM_STAT); [|by intros [= <- <- <-]]. destruct (_ <=? _); [by intros [= <- <- <-]|].
      destruct (sem_lock semid s) as [p|]; [|by intros [= <- <- <-]]. pose proof (perms_inv p S_IRUGO s) as P.
      destruct (sem_perms p S_IRUGO s) as [s1 refused]. cbv zeta. destruct refused, (a_fault arg); intros [= <- <- <-]; by apply P. }
  destruct (_ || _ || _ || _ || _ || _ || _ || _).
  { intros [= E]. replace s' with (fst (fst (semctl_main overflowuid overflowgid gap alloc semid semnum cmd' version arg s)))
      by (by rewrite E). by apply ctl_main_ok. }
  destruct (_ || _); [|by intros [= <- <- <-]]. destruct (semctl_down semid cmd' arg s) as [[s1 r1]|] eqn:E; [|done].
  intros [= <- <- <-]. by apply (ctl_down_ok semid cmd' arg s s1 r1).
Qed.
End gaps.
