(* ===== verification/SemCalls.v ===== *)
(** * semop and exit keep the invariant *)
From stdpp Require Import base sets list functions.
From S2P Require Import Prelude PidHash Bitmap Sched SchedCalls Proc User Cred Ipc IpcProofs SigCalls Sem SemOps SemInv SemSteps.

(** ** Undo structures *)

Lemma find_undo_ok semid l : forall s, 0 <= semid -> sem_inv s -> semsleeping s (current s) = false ->
  let '(s', un) := find_undo semid l s in
  sem_inv s' /\ sem_ids s' = sem_ids s /\ sem_arrays s' = sem_arrays s /\ undos s' = undos s /\ queues s' = queues s /\
  semsleeping s' = semsleeping s /\ s_cred s' = s_cred s /\
  (forall u, u ∈ semundo s (current s) -> un_semid (undos s u) <> -1 -> u ∈ semundo s' (current s)) /\
  (forall u, un = Some u -> u ∈ l /\ un_semid (undos s u) = semid).
Proof.
  induction l as [|v l IH]; intros s Hid H Hs; [done|]. cbn [find_undo].
  destruct (Z.eqb_spec (un_semid (undos s v)) semid) as [E|E].
  { split_and!; try done. intros u [= ->]. set_solver. }
  destruct (Z.eqb_spec (un_semid (undos s v)) (-1)) as [E1|E1].
  - set (s1 := freeundos v s). assert (Hm : semundo s1 = alter (filter (fun u => u <> v)) (current s) (semundo s)) by done.
    assert (H1 : sem_inv s1).
    { pose proof (inv_semundo (current s) (filter (fun u => u <> v) (semundo s (current s))) s Hs) as X.
      assert (S1 : sem_inv (s <| semundo ::= <[current s := filter (fun u => u <> v) (semundo s (current s))]> |>)).
      { apply X; [|done]. intros u t' [_ Hu]%list_elem_of_filter Hu'. by apply (c_owner _ (proj1 H) _ _ u). }
      exact S1. }
    specialize (IH s1 Hid H1 Hs). destruct (find_undo semid l s1) as [s' un].
    destruct IH as (I1 & I2 & I3 & I4 & I5 & I6 & I7 & I8 & I9). split_and!; try done.
    + intros u Hu Hne. apply I8; [|done]. rewrite Hm. change (current s1) with (current s). rewrite fn_lookup_alter.
      apply list_elem_of_filter. split; [|done]. intros ->. done.
    + intros u Hu. destruct (I9 u Hu). set_solver.
  - specialize (IH s Hid H Hs). destruct (find_undo semid l s) as [s' un].
    destruct IH as (I1 & I2 & I3 & I4 & I5 & I6 & I7 & I8 & I9). split_and!; try done. intros u Hu. destruct (I9 u Hu). set_solver.
Qed.

(** A new structure for the current task and the set [p]. *)
Lemma inv_new_undo p u semid n s : sem_inv s -> 0 <= semid -> sem_lock semid s = Some p -> semsleeping s (current s) = false ->
  (forall t, u ∉ semundo s t) -> (forall p', live s p' -> u ∉ sem_undos (sem_arrays s p')) ->
  sem_inv (set_array p (fun a => a <| sem_undos ::= cons u |>)
             (s <| undos ::= <[u := SemUndo semid n]> |> <| semundo ::= alter (cons u) (current s) |>)).
Proof.
  intros [C W] Hid Hlock Hs Hu1 Hu2. set (s' := set_array _ _ _).
  assert (L : live s p) by by eapply lock_live.
  assert (A : forall p', sem_arrays s' p' = if decide (p' = p) then (sem_arrays s p) <| sem_undos ::= cons u |> else sem_arrays s p').
  { intros p'. unfold s'. simpl. destruct (decide (p' = p)) as [->|]; [by rewrite fn_lookup_alter|by rewrite fn_lookup_alter_ne]. }
  assert (U : forall v, undos s' v = if decide (v = u) then SemUndo semid n else undos s v).
  { intros v. unfold s'. simpl. destruct (decide (v = u)) as [->|]; [by rewrite fn_lookup_insert|by rewrite fn_lookup_insert_ne]. }
  assert (M : forall t, semundo s' t = if decide (t = current s) then u :: semundo s t else semundo s t).
  { intros t. unfold s'. simpl. destruct (decide (t = current s)) as [->|]; [by rewrite fn_lookup_alter|by rewrite fn_lookup_alter_ne]. }
  assert (O : sem_ids s' = sem_ids s /\ queues s' = queues s /\ semsleeping s' = semsleeping s) by done.
  destruct O as (O1 & O2 & O3). clearbody s'.
  assert (Pn : forall p', pending s' p' = pending s p') by (intros p'; unfold pending; rewrite A; by destruct (decide (p' = p)) as [->|]).
  assert (Ln : forall p', live s' p' <-> live s p') by (intros p'; unfold live; by rewrite O1).
  assert (Lk : forall x, sem_lock x s' = sem_lock x s) by (intros x; unfold sem_lock; by rewrite O1).
  assert (Vn : forall p', vals s' p' = vals s p') by (intros p'; unfold vals; rewrite A; by destruct (decide (p' = p)) as [->|]).
  assert (Qu : forall p' t v, live s p' -> t ∈ pending s p' -> q_undo (queues s t) = Some v -> v <> u).
  { intros p' t v L' Ht Ev ->. destruct (r_undo _ _ _ (c_request _ C p' t L' Ht) u Ev) as [Hin _]. by apply (Hu1 t). }
  split; [split|].
  - rewrite O1. apply (c_inj _ C).
  - intros p'. rewrite Ln, Pn. apply (c_nodup _ C).
  - intros p' t. rewrite Ln, Pn. intros L' Ht. destruct (c_request _ C p' t L' Ht) as [R1 R2 R3 R4 R5 R6 R7 R8].
    split; rewrite ?O2, ?O3; try done.
    + rewrite A. by destruct (decide (p' = p)) as [->|].
    + intros v Hv. destruct (R8 v Hv) as (V1 & V2 & V3). rewrite U, decide_False by (by apply (Qu p' t)). rewrite Lk.
      split_and!; try done. rewrite M. destruct (decide (t = current s)); [set_solver|done].
  - intros t. rewrite O3, O2, Ln, Pn. apply (c_linked _ C).
  - intros t t' v. rewrite !M. pose proof (c_owner _ C t t' v). pose proof (Hu1 t). pose proof (Hu1 t').
    destruct (decide (t = current s)), (decide (t' = current s)); set_solver.
  - intros p' v. rewrite Ln, A, Lk. intros L'. destruct (decide (p' = p)) as [->|Hp]; simpl.
    + intros [->|Hv]%elem_of_cons; [rewrite U, decide_True by done; done|].
      rewrite U, decide_False by (intros ->; by apply (Hu2 p)). by apply (c_undo _ C).
    + intros Hv. rewrite U, decide_False by (intros ->; by apply (Hu2 p')). by apply (c_undo _ C).
  - intros p'. rewrite Ln, Vn. apply (c_vals _ C).
  - intros p'. rewrite Ln. intros L'. apply (wakeful_same s); [by rewrite Pn|by rewrite Vn| |by apply W].
    intros t Ht. rewrite O2. split; [done|]. destruct (q_undo (queues s t)) as [v|] eqn:Ev; [|done]. simpl.
    rewrite U, decide_False by (by apply (Qu p' t)). done.
Qed.

Section gaps.
Context (gap : sems -> sems) (new_undo : sems -> option Z).
Hypothesis gap_inv : forall s, sem_inv s -> sem_inv (gap s).
Hypothesis gap_me : forall s, current (gap s) = current s /\ semsleeping (gap s) (current s) = semsleeping s (current s).
(** A new structure is in nobody's list. *)
Hypothesis undo_fresh : forall s u, new_undo s = Some u ->
  (forall t, u ∉ semundo s t) /\ (forall p, live s p -> u ∉ sem_undos (sem_arrays s p)).

(** The current task can use the structure [un] for an operation on the set [p]. *)
Record may_use (s : sems) (p : Z) (un : option Z) : Prop := MayUse {
  mu_live : live s p;
  mu_awake : semsleeping s (current s) = false;
  mu_undo : forall u, un = Some u -> u ∈ semundo s (current s) /\ sem_lock (un_semid (undos s u)) s = Some p /\ 0 <= un_semid (undos s u)
}.

Lemma alloc_undo_ok p semid alters s : 0 <= semid -> sem_inv s -> semsleeping s (current s) = false ->
  let '(s', r) := alloc_undo gap new_undo p semid alters s in
  sem_inv s' /\ current s' = current s /\ semsleeping s' (current s) = false /\
  forall u, r = inr u -> may_use s' p (Some u) /\ sem_nsems (sem_arrays s' p) = sem_nsems (sem_arrays s p).
Proof.
  intros Hid H Hs. unfold alloc_undo. pose proof (gap_inv s H) as H0. destruct (gap_me s) as [M1 M2].
  set (s0 := gap s) in *. clearbody s0. cbv zeta.
  destruct (new_undo s0) as [u|] eqn:En; [|split_and!; [done|done|congruence|done]].
  destruct (undo_fresh s0 u En) as [F1 F2].
  match goal with |- context [sem_revalidate semid p ?n ?f s0] =>
    pose proof (revalidate_ok semid p n f s0 H0 Hid) as R; destruct (sem_revalidate semid p n f s0) as [s1 err] end.
  destruct R as (R1 & R2 & R3 & R4 & R5 & R6 & R7 & R8 & R9).
  assert (Hs1 : semsleeping s1 (current s1) = false) by (rewrite R2, R3, M1; congruence).
  destruct (Z.eqb_spec err 0) as [->|]; cbn [negb]; [|split_and!; [done|congruence|rewrite R2; congruence|done]].
  destruct (R9 eq_refl) as [E1 E2]. split; [|split; [|split]].
  - apply inv_new_undo; try done; [by rewrite R4|]. intros p' L'. rewrite R6. apply F2. unfold live in *. by rewrite <- R5.
  - change (current s1 = current s). congruence.
  - change (semsleeping s1 (current s) = false). rewrite R2. congruence.
  - intros v [= <-]. split.
    + split; [by eapply lock_live; [done|exact E1]|done|]. intros v [= <-]. simpl. rewrite fn_lookup_insert. simpl.
      split_and!; [|done|done]. change (current _) with (current s1). rewrite fn_lookup_alter. set_solver.
    + unfold sem_nsems in *. simpl. rewrite fn_lookup_alter. simpl. done.
Qed.
End gaps.

(** ** Trying and sleeping *)

(** Requests that can be queued are plain: with a decrement, only waits for zero, or only
    increments, which do not wait. *)
Definition unmixed (sops : list sembuf) : Prop :=
  existsb (fun o => sem_op o <? 0) sops = true \/ Forall (fun o => sem_op o = 0) sops \/ Forall (fun o => 0 < sem_op o) sops.

Lemma set_at_nonneg n op v : Forall (fun x => 0 <= x) v -> 0 <= val_at v n + op -> Forall (fun x => 0 <= x) (set_at n (fun x => x + op) v).
Proof.
  intros Hv H. apply Forall_alter; [done|]. intros x Hx _. unfold val_at in H. rewrite Hx in H. done.
Qed.

Lemma spec_nonneg sops : forall v a v' a', Forall (fun x => 0 <= x) v -> spec_ops sops v a = inl (v', a') -> Forall (fun x => 0 <= x) v'.
Proof.
  induction sops as [|o l IH]; intros v a v' a' Hv; [by intros [= <- <-]|]. cbn [spec_ops]. cbv zeta.
  destruct (_ && _); [done|]. destruct (negb _); [done|]. destruct (Z.ltb_spec (val_at v (sem_num o) + sem_op o) 0); [done|].
  destruct (SEMVMX <? _); [done|]. apply IH. by apply set_at_nonneg.
Qed.

Lemma val_nonneg v n : Forall (fun x => 0 <= x) v -> 0 <= val_at v n.
Proof.
  intros Hv. unfold val_at. destruct (v !! Z.to_nat n) as [x|] eqn:E; [|done]. simpl. by eapply (Forall_lookup_1 _ v).
Qed.

Lemma increments_never_wait sops : forall v a, Forall (fun x => 0 <= x) v -> Forall (fun o => 0 < sem_op o) sops -> spec_ops sops v a <> inr 1.
Proof.
  induction sops as [|o l IH]; intros v a Hv Ho; [done|]. apply list.Forall_cons in Ho as [Ho Hl]. cbn [spec_ops]. cbv zeta.
  destruct (Z.eqb_spec (sem_op o) 0); [lia|]. cbn [andb]. destruct (negb _); [done|].
  pose proof (val_nonneg v (sem_num o) Hv). destruct (Z.ltb_spec (val_at v (sem_num o) + sem_op o) 0); [lia|].
  destruct (SEMVMX <? _); [done|]. apply IH; [|done]. apply set_at_nonneg; [done|lia].
Qed.

(** The values stay nonnegative whatever the result. *)
Lemma try_nonneg p sops un pid do_undo s : in_range sops (length (sem_base (sem_arrays s p))) ->
  Forall (fun x => 0 <= x) (vals s p) -> Forall (fun x => 0 <= x) (vals (fst (try_atomic_semop p sops un pid do_undo s)) p).
Proof.
  intros Hr Hv. pose proof (try_spec p sops un pid do_undo s Hr) as T. destruct (try_atomic_semop _ _ _ _ _ s) as [s1 r].
  cbv zeta in T. destruct T as (_ & T2 & T3 & _ & _ & _ & T6). simpl.
  destruct (spec_ops sops (vals s p) (adj_of s un)) as [[v a]|e] eqn:E.
  - destruct do_undo; [rewrite (proj1 (T3 (or_introl eq_refl))); done|]. rewrite (T6 v a eq_refl eq_refl). by eapply spec_nonneg.
  - assert (Hne : r <> 0) by (rewrite T2; simpl; destruct (spec_errors _ _ _ _ E); lia).
    rewrite (proj1 (T3 (or_intror (or_introl Hne)))). done.
Qed.

(** The task [t], which did not sleep, joins the queue of [p] with a request that must wait. *)
Lemma inv_enqueue p t q s s' : sem_inv s -> live s p -> semsleeping s t = false ->
  sem_ids s' = sem_ids s -> undos s' = undos s -> semundo s' = semundo s ->
  (forall u, semsleeping s' u = if decide (u = t) then true else semsleeping s u) ->
  (forall u, queues s' u = if decide (u = t) then q else queues s u) ->
  (forall p', p' <> p -> sem_arrays s' p' = sem_arrays s p') ->
  sem_base (sem_arrays s' p) = sem_base (sem_arrays s p) -> sem_undos (sem_arrays s' p) = sem_undos (sem_arrays s p) ->
  (forall u, u ∈ pending s' p <-> u = t \/ u ∈ pending s p) -> (t ∉ pending s p -> NoDup (pending s p) -> NoDup (pending s' p)) ->
  q_sma q = p -> q_linked q = true -> q_status q <> 1 -> in_range (q_sops q) (length (sem_base (sem_arrays s p))) -> plain q ->
  (q_alter q = true -> q_alters q = true) -> outcome s p q = inr 1 ->
  (forall u, q_undo q = Some u -> u ∈ semundo s t /\ sem_lock (un_semid (undos s u)) s = Some p /\ 0 <= un_semid (undos s u)) ->
  sem_inv s'.
Proof.
  intros [C W] L Hs O1 O2 O3 HS HQ HA HB HU HP HN Q1 Q2 Q3 Q4 Q5 Q6 Q7 Q8.
  assert (Tn : forall p', live s p' -> t ∉ pending s p').
  { intros p' L' Hin. pose proof (r_sleeping _ _ _ (c_request _ C p' t L' Hin)). congruence. }
  assert (Ln : forall p', live s' p' <-> live s p') by (intros p'; unfold live; by rewrite O1).
  assert (Lk : forall x, sem_lock x s' = sem_lock x s) by (intros x; unfold sem_lock; by rewrite O1).
  assert (Bn : forall p', sem_base (sem_arrays s' p') = sem_base (sem_arrays s p')).
  { intros p'. destruct (decide (p' = p)) as [->|]; [done|by rewrite HA]. }
  assert (Vn : forall p', vals s' p' = vals s p') by (intros p'; unfold vals; by rewrite Bn).
  assert (Pn : forall p', p' <> p -> pending s' p' = pending s p') by (intros p' Hp; unfold pending; by rewrite HA).
  assert (Mw : forall p' u, u <> t -> must_wait s' p' u <-> must_wait s p' u).
  { intros p' u Hu. unfold must_wait, outcome, adj_of. by rewrite HQ, decide_False, Vn, O2. }
  assert (Mt : must_wait s' p t) by (unfold must_wait, outcome, adj_of in *; rewrite HQ, decide_True, Vn, O2; done).
  split; [split|].
  - rewrite O1. apply (c_inj _ C).
  - intros p'. rewrite Ln. intros L'. destruct (decide (p' = p)) as [->|Hp]; [apply HN; [auto|by apply (c_nodup _ C)]|].
    rewrite Pn by done. by apply (c_nodup _ C).
  - intros p' u. rewrite Ln. intros L' Hu. destruct (decide (u = t)) as [->|Hut].
    + destruct (decide (p' = p)) as [->|Hp]; [|rewrite Pn in Hu by done; by destruct (Tn p' L')].
      split; rewrite ?HQ, ?HS, ?decide_True by done; rewrite ?Bn; try done.
      intros v Hv. rewrite O3, O2, Lk. auto.
    + assert (Hu0 : u ∈ pending s p').
      { destruct (decide (p' = p)) as [->|Hp]; [apply HP in Hu as [?|?]; done|by rewrite Pn in Hu]. }
      destruct (c_request _ C p' u L' Hu0) as [R1 R2 R3 R4 R5 R6 R7 R8].
      split; rewrite ?HQ, ?HS, ?decide_False by done; rewrite ?Bn; try done. intros v Hv. rewrite O3, O2, Lk. auto.
  - intros u. rewrite HS, HQ, Ln. destruct (decide (u = t)) as [->|Hut].
    + intros _ _. rewrite Q1. split; [done|]. apply HP. by left.
    + intros H1 H2. destruct (c_linked _ C u H1 H2) as [L1 L2]. split; [done|].
      destruct (decide (q_sma (queues s u) = p)) as [Ep|Hp]; [rewrite Ep in *; apply HP; by right|by rewrite Pn].
  - rewrite O3. apply (c_owner _ C).
  - intros p' u. rewrite Ln, Lk, O2. intros L' Hu. apply (c_undo _ C); [done|].
    destruct (decide (p' = p)) as [->|]; [by rewrite <- HU|by rewrite <- HA].
  - intros p'. rewrite Ln, Vn. apply (c_vals _ C).
  - intros p'. rewrite Ln. intros L'. destruct (decide (p' = p)) as [->|Hp].
    + destruct (W p L) as [(u & U1 & U2 & U3)|Ha].
      * assert (u <> t) by (intros ->; by destruct (Tn p L)). left. exists u. rewrite HP, HQ, decide_False, Mw by done. auto.
      * right. intros u [->|Hu]%HP; [by right|]. assert (u <> t) by (intros ->; by destruct (Tn p L)).
        rewrite HQ, decide_False, Mw by done. auto.
    + apply (wakeful_same s); [by apply Pn|done| |by apply W]. intros u Hu.
      assert (u <> t) by (intros ->; by destruct (Tn p' L')). rewrite HQ, decide_False by done. split; [done|].
      unfold adj_of. by rewrite O2.
Qed.

Lemma existsb_zero sops : existsb (fun o => sem_op o <? 0) sops = false -> existsb (fun o => 0 <? sem_op o) sops = false ->
  Forall (fun o => sem_op o = 0) sops.
Proof.
  induction sops as [|o l IH]; intros H1 H2; [done|]. simpl in *. b2p. constructor; [lia|auto].
Qed.

(** The state after an operation of the current task that ended, before the queue is updated. *)
Lemma tried_ok p sops un pid s : sem_inv s -> may_use s p un -> in_range sops (length (sem_base (sem_arrays s p))) ->
  let s1 := fst (try_atomic_semop p sops un pid false s) in
  frame p s s1 /\ sem_core s1 /\ (forall p', p' <> p -> live s1 p' -> wakeful s1 p') /\ s_cred s1 = s_cred s.
Proof.
  intros H [M1 M2 M3] Hr. pose proof (try_nonneg p sops un pid false s Hr (c_vals _ (proj1 H) p M1)) as Hv.
  pose proof (try_spec p sops un pid false s Hr) as T. destruct (try_atomic_semop _ _ _ _ _ s) as [s1 r]. cbv zeta in *.
  destruct T as (T1 & _ & _ & T4 & T5 & _). simpl in *. split; [done|].
  enough (K : sem_core s1 /\ forall p', p' <> p -> live s1 p' -> wakeful s1 p') by (destruct K; done).
  apply (inv_revalued p s); [done|auto|done|]. intros p' t u Hp L' Ht Eu. apply T4. intros ->.
  destruct (M3 u eq_refl) as [U1 _]. pose proof (c_request _ (proj1 H) p' t L' Ht) as R.
  destruct (r_undo _ _ _ R u Eu) as [U2 _]. pose proof (r_sleeping _ _ _ R).
  rewrite (c_owner _ (proj1 H) _ _ u U1 U2) in M2. congruence.
Qed.

Lemma semop_try_ok p semid sops un s :
  let decrease := existsb (fun o => sem_op o <? 0) sops in
  let alters := existsb (fun o => 0 <? sem_op o) sops || decrease in
  sem_inv s -> may_use s p un -> in_range sops (length (sem_base (sem_arrays s p))) -> unmixed sops ->
  sem_inv (fst (semop_try p semid sops un decrease alters s)).
Proof.
  intros decrease alters H HM Hr Hmix. unfold semop_try. cbv zeta.
  destruct (tried_ok p sops un (c_pid (my_cred s)) s H HM Hr) as (F & C & W & _).
  pose proof (try_spec p sops un (c_pid (my_cred s)) false s Hr) as T.
  destruct (try_atomic_semop p sops un (c_pid (my_cred s)) false s) as [s1 r]. cbv zeta in T. simpl in F, C, W.
  destruct T as (_ & T2 & T3 & _). destruct HM as [M1 M2 M3]. destruct (Z.leb_spec r 0) as [Hle|Hgt].
  - destruct alters eqn:Ea; cbn [fst].
    + apply update_ok; [done|by rewrite (live_frame _ _ _ _ F)|done].
    + apply (inv_frame p s); [done| |done]. apply T3. right. right. apply orb_false_iff in Ea as [? ?]. by apply existsb_zero.
  - assert (V : same_values s s1) by (apply T3; right; left; lia). cbn [fst].
    assert (E1 : spec_ops sops (vals s p) (adj_of s un) = inr 1).
    { destruct (spec_ops sops (vals s p) (adj_of s un)) as [|e] eqn:E; simpl in T2; [lia|].
      destruct (spec_errors _ _ _ _ E) as [->|]; [done|lia]. }
    assert (H1 : sem_inv s1) by by apply (inv_frame p s). set (t := current s) in *.
    set (q := SemQueue un (c_pid (my_cred s)) (- EINTR) p semid sops decrease true alters).
    assert (Lb : length (sem_base (sem_arrays s1 p)) = length (sem_base (sem_arrays s p))) by apply F.
    apply (inv_enqueue p t q s1); simpl; try done.
    + by rewrite (live_frame _ _ _ _ F).
    + by rewrite (f_sleeping _ _ _ F).
    + by destruct alters.
    + by destruct alters.
    + by destruct alters.
    + intros u. destruct alters; simpl; (destruct (decide (u = t)) as [->|]; [by rewrite fn_lookup_insert|by rewrite fn_lookup_insert_ne]).
    + intros u. destruct alters; simpl; (destruct (decide (u = t)) as [->|];
        [by rewrite !fn_lookup_alter, fn_lookup_insert|by rewrite !fn_lookup_alter_ne, fn_lookup_insert_ne]).
    + intros p' Hp. destruct alters; simpl; by rewrite fn_lookup_alter_ne.
    + destruct alters; simpl; by rewrite fn_lookup_alter.
    + destruct alters; simpl; by rewrite fn_lookup_alter.
    + intros u. unfold pending. destruct alters; simpl; rewrite fn_lookup_alter; simpl; set_solver.
    + unfold pending. intros Hn Hd. destruct alters; simpl; rewrite fn_lookup_alter; simpl.
      * apply list.NoDup_app. split_and!; [done|set_solver|apply NoDup_singleton].
      * by apply list.NoDup_cons.
    + by rewrite Lb.
    + unfold plain. simpl. intros Ed. destruct Hmix as [Hd|[Hz|Hi]]; [unfold decrease in Ed; congruence|done|].
      exfalso. apply (increments_never_wait sops (vals s p) (adj_of s un)); [apply (c_vals _ (proj1 H) p M1)|done|done].
    + unfold alters. intros ->. apply orb_true_r.
    + unfold outcome. simpl. by rewrite (proj1 V), (same_adj _ _ _ V).
    + intros u Hu. rewrite (f_semundo _ _ _ F), (f_semid _ _ _ F), (lock_frame _ _ _ _ F). by apply M3.
Qed.

Lemma semop_ok gap new_undo alloc semid tsops nsops s :
  (forall s, sem_inv s -> sem_inv (gap s)) ->
  (forall s, current (gap s) = current s /\ semsleeping (gap s) (current s) = semsleeping s (current s)) ->
  (forall s u, new_undo s = Some u -> (forall t, u ∉ semundo s t) /\ (forall p, live s p -> u ∉ sem_undos (sem_arrays s p))) ->
  (forall sops, tsops = Some sops -> unmixed sops /\ Forall (fun o => 0 <= sem_num o) sops) ->
  sem_inv s -> semsleeping s (current s) = false -> sem_inv (fst (sys_semop gap new_undo alloc semid tsops nsops s)).
Proof.
  intros Hg1 Hg2 Hfr Hops H Hs. unfold sys_semop. destruct (Z.ltb_spec nsops 1), (Z.ltb_spec semid 0); try done.
  cbn [orb]. destruct (_ <? nsops); [done|]. destruct (_ && _); [done|]. destruct tsops as [sops|]; [|done].
  destruct (Hops sops eq_refl) as [Hmix Hpos]. destruct (sem_lock semid s) as [p|] eqn:L; [|done].
  destruct (sem_checkid p semid s); [done|]. destruct (existsb (fun o => _ <=? sem_num o) sops) eqn:Er; [done|]. cbv zeta.
  assert (Hr : in_range sops (length (sem_base (sem_arrays s p)))).
  { clear Hmix Hops. induction Hpos as [|o l Ho _ IH]; [constructor|]. simpl in Er. b2p. unfold sem_nsems in *.
    constructor; [lia|by apply IH]. }
  match goal with |- context [sem_perms p ?f s] => pose proof (perms_inv p f s) as P; destruct (sem_perms p f s) as [s1 refused] end.
  cbn [fst] in P. destruct P as (P1 & P2 & P3 & P4 & P5 & P6 & P7 & P8). specialize (P1 H). destruct refused; [done|].
  assert (L1 : sem_lock semid s1 = Some p) by (unfold sem_lock; by rewrite P2).
  assert (S1 : semsleeping s1 (current s1) = false) by (by rewrite P4, P8).
  destruct (existsb (fun o => has (sem_flg o) SEM_UNDO) sops).
  - pose proof (find_undo_ok semid (semundo s1 (current s1)) s1 ltac:(lia) P1 S1) as FU.
    destruct (find_undo semid (semundo s1 (current s1)) s1) as [s2 un].
    destruct FU as (U1 & U2 & U3 & U4 & U5 & U6 & U7 & U8 & U9).
    assert (C2 : current s2 = current s1) by (unfold current; by rewrite U7).
    destruct un as [u|].
    + destruct (U9 u eq_refl) as [V1 V2]. apply semop_try_ok; [done| |by rewrite U3, P3|done].
      split; [eapply lock_live; [|unfold sem_lock; rewrite U2; exact L1]; lia|by rewrite U6, C2|].
      intros v [= <-]. rewrite U4, C2, V2. split_and!; [|unfold sem_lock; by rewrite U2|lia].
      apply U8; [done|]. rewrite V2. lia.
    + pose proof (alloc_undo_ok gap new_undo Hg1 Hg2 Hfr p semid
        (existsb (fun o => 0 <? sem_op o) sops || existsb (fun o => sem_op o <? 0) sops) s2 ltac:(lia) U1) as A.
      rewrite U6, C2 in A. specialize (A S1). destruct (alloc_undo _ _ _ _ _ s2) as [s3 r].
      destruct A as (A1 & A2 & A3 & A4). destruct r as [error|u]; [done|]. destruct (A4 u eq_refl) as [B1 B2].
      apply semop_try_ok; [done|done| |done]. unfold sem_nsems in B2. apply Nat2Z.inj in B2. by rewrite B2, U3, P3.
  - apply semop_try_ok; [done| |by rewrite P3|done]. split; [eapply lock_live; [|exact L1]; lia|done|done].
Qed.

(** ** Waking up *)

Lemma inv_awake t s : (forall p, live s p -> t ∉ pending s p) -> sem_inv s -> sem_inv (s <| semsleeping ::= <[t := false]> |>).
Proof.
  intros Ht [C W]. set (s' := s <| semsleeping ::= _ |>).
  assert (S : forall u, semsleeping s' u = if decide (u = t) then false else semsleeping s u).
  { intros u. unfold s'. simpl. destruct (decide (u = t)) as [->|]; [by rewrite fn_lookup_insert|by rewrite fn_lookup_insert_ne]. }
  split; [|intros p L; apply (wakeful_same s); [done|done|done|by apply W]].
  destruct C as [C1 C2 C3 C4 C5 C6 C7]. split; try done.
  - intros p u L Hu. destruct (C3 p u L Hu) as [R1 R2 R3 R4 R5 R6 R7 R8]. split; try done.
    rewrite S, decide_False; [done|]. intros ->. by apply (Ht p).
  - intros u. rewrite S. destruct (decide (u = t)); [done|]. apply C4.
Qed.

(** The task [t] leaves the queue of the set and runs. *)
Lemma core_unqueue p t s : sem_core s -> live s p -> t ∈ pending s p ->
  let s' := remove_from_queue p t (s <| semsleeping ::= <[t := false]> |>) in
  sem_core s' /\ (forall p', live s' p' <-> live s p') /\ (forall p', p' <> p -> live s p' -> wakeful s p' -> wakeful s' p') /\
  (q_status (queues s t) <> 1 -> wakeful s p -> wakeful s' p).
Proof.
  intros C L Ht. cbv zeta. set (s' := remove_from_queue _ _ _).
  assert (S : forall u, semsleeping s' u = if decide (u = t) then false else semsleeping s u).
  { intros u. unfold s'. simpl. destruct (decide (u = t)) as [->|]; [by rewrite fn_lookup_insert|by rewrite fn_lookup_insert_ne]. }
  assert (Q : forall u, u <> t -> queues s' u = queues s u) by (intros u Hu; unfold s'; simpl; by rewrite fn_lookup_alter_ne).
  assert (A : forall p', sem_arrays s' p' = if decide (p' = p) then (sem_arrays s p) <| sem_pending ::= filter (fun u => u <> t) |> else sem_arrays s p').
  { intros p'. unfold s'. simpl. destruct (decide (p' = p)) as [->|]; [by rewrite fn_lookup_alter|by rewrite fn_lookup_alter_ne]. }
  assert (O : sem_ids s' = sem_ids s /\ undos s' = undos s /\ semundo s' = semundo s) by done. destruct O as (O1 & O2 & O3).
  clearbody s'.
  assert (P : forall p', live s p' -> pending s' p' = filter (fun u => u <> t) (pending s p')).
  { intros p' L'. unfold pending. rewrite A. destruct (decide (p' = p)) as [->|Hp]; [done|].
    symmetry. apply filter_out_not_in. intros Hin. apply Hp. symmetry. by apply (one_set s p p' t). }
  assert (Ln : forall p', live s' p' <-> live s p') by (intros p'; unfold live; by rewrite O1).
  assert (Lk : forall x, sem_lock x s' = sem_lock x s) by (intros x; unfold sem_lock; by rewrite O1).
  assert (V : forall p', vals s' p' = vals s p') by (intros p'; unfold vals; rewrite A; by destruct (decide (p' = p)) as [->|]).
  assert (Mw : forall p' u, u <> t -> must_wait s' p' u <-> must_wait s p' u).
  { intros p' u Hu. unfold must_wait, outcome, adj_of. by rewrite Q, V, O2. }
  assert (Wk : forall p', live s p' -> (p' = p -> q_status (queues s t) <> 1) -> wakeful s p' -> wakeful s' p').
  { intros p' L' Hst Hw. unfold wakeful. rewrite P by done. destruct Hw as [(u & U1 & U2 & U3)|Hw].
    - assert (u <> t).
      { intros ->. apply (Hst (one_set s p' p t C L' L U1 Ht)). done. }
      left. exists u. rewrite list_elem_of_filter, Q, Mw by done. auto.
    - right. intros u [Hu1 Hu2]%list_elem_of_filter. rewrite Q, Mw by done. auto. }
  split; [|split; [done|split; [intros p' Hp L'; by apply Wk|intros; by apply Wk]]].
  destruct C as [C1 C2 C3 C4 C5 C6 C7]. split.
  - by rewrite O1.
  - intros p'. rewrite Ln. intros L'. rewrite P by done. apply list.NoDup_filter; by apply C2.
  - intros p' u. rewrite Ln. intros L'. rewrite P by done. intros [Hu1 Hu2]%list_elem_of_filter.
    destruct (C3 p' u L' Hu2) as [R1 R2 R3 R4 R5 R6 R7 R8]. pose proof (Q u Hu1) as Qu. split; rewrite ?Qu; try done.
    + by rewrite S, decide_False.
    + rewrite A. by destruct (decide (p' = p)) as [->|].
    + intros v Hv. rewrite O3, O2, Lk. by apply R8.
  - intros u. rewrite S, Ln. destruct (decide (u = t)) as [->|Hu]; [done|]. rewrite Q by done.
    intros H1 H2. destruct (C4 u H1 H2) as [D1 D2]. split; [done|]. rewrite P by done. by apply list_elem_of_filter.
  - by rewrite O3.
  - intros p' u. rewrite Ln, Lk, O2. intros L' Hu. apply C6; [done|]. revert Hu. rewrite A. by destruct (decide (p' = p)) as [->|].
  - intros p'. rewrite Ln, V. apply C7.
Qed.

(** [t] was told to try again but must wait: it sleeps again. *)
Lemma again_sleep p t s : sem_inv s -> live s p -> t ∈ pending s p -> must_wait s p t -> sem_inv (semop_sleep t s).
Proof.
  intros [C W] L Ht Hw. unfold semop_sleep. set (s' := _ <| s_sched ::= _ |>).
  assert (Q : forall u, queues s' u = if decide (u = t) then (queues s t) <| q_status := - EINTR |> else queues s u).
  { intros u. unfold s'. simpl. destruct (decide (u = t)) as [->|]; [by rewrite fn_lookup_alter|by rewrite fn_lookup_alter_ne]. }
  assert (Mw : forall p' u, must_wait s' p' u <-> must_wait s p' u).
  { intros p' u. unfold must_wait, outcome. rewrite Q. by destruct (decide (u = t)) as [->|]. }
  split.
  - destruct C as [C1 C2 C3 C4 C5 C6 C7]. split; try done.
    + intros p' u L' Hu. destruct (C3 p' u L' Hu) as [R1 R2 R3 R4 R5 R6 R7 R8].
      split; rewrite ?Q; try done; destruct (decide (u = t)) as [->|]; try done.
    + intros u Hs. rewrite !Q. destruct (decide (u = t)) as [->|]; [|by apply C4].
      simpl. intros _. pose proof (r_sma _ _ _ (C3 p t L Ht)) as ->. done.
  - intros p' L'. destruct (W p' L') as [(u & U1 & U2 & U3)|Ha].
    + destruct (decide (u = t)) as [->|Hu].
      * exfalso. apply U3. by rewrite (one_set s p' p t C L' L U1 Ht).
      * left. exists u. rewrite Q, decide_False, Mw by done. done.
    + right. intros u Hu. rewrite Q, Mw. destruct (decide (u = t)) as [->|]; [|by apply Ha].
      right. by rewrite (one_set s p' p t C L' L Hu Ht).
Qed.

Lemma resume_ok s s' e : sem_inv s -> semsleeping s (current s) = true -> semop_resume s = Some (s', e) -> sem_inv s'.
Proof.
  intros H Hs. unfold semop_resume. cbv zeta. set (t := current s) in *. set (q := queues s t) in *.
  assert (Hout : q_linked q = false -> sem_inv (s <| semsleeping ::= <[t := false]> |>)).
  { intros Hl. apply inv_awake; [|done]. intros p L Hin. pose proof (r_linked _ _ _ (c_request _ (proj1 H) p t L Hin)). unfold q in *. congruence. }
  destruct (sem_lock (q_id q) s) as [p0|].
  2:{ destruct (q_linked q); [done|]. intros [= <- <-]. by apply Hout. }
  destruct (Z.eqb_spec (q_status q) 1) as [E1|E1].
  - destruct (c_linked _ (proj1 H) t Hs (or_intror E1)) as [L Hin]. fold q in L, Hin. set (p := q_sma q) in *.
    pose proof (c_request _ (proj1 H) p t L Hin) as R. pose proof (r_range _ _ _ R) as Hr. fold q in Hr.
    assert (Eal : q_alters q = true) by (apply (r_alters _ _ _ R), (r_again _ _ _ R), E1). rewrite Eal.
    pose proof (try_nonneg p (q_sops q) (q_undo q) (q_pid q) false s Hr (c_vals _ (proj1 H) p L)) as Hv.
    pose proof (try_spec p (q_sops q) (q_undo q) (q_pid q) false s Hr) as T.
    destruct (try_atomic_semop p (q_sops q) (q_undo q) (q_pid q) false s) as [s1 r]. cbv zeta in T. cbn [fst] in Hv.
    destruct T as (F & T2 & T3 & T4 & _). assert (Ln : live s1 p) by (by rewrite (live_frame _ _ _ _ F)).
    assert (Pn : t ∈ pending s1 p) by (by rewrite (pending_frame p p s s1 F)).
    destruct (Z.leb_spec r 0) as [Hle|Hgt].
    + destruct (inv_revalued p s s1 F (fun _ => Hv) H) as [C W].
      { intros p' u v Hp L' Hu Ev. apply T4. intros Eq. destruct (r_undo _ _ _ R v Eq) as [U1 _].
        destruct (r_undo _ _ _ (c_request _ (proj1 H) p' u L' Hu) v Ev) as [U2 _].
        assert (t = u) as <- by (by apply (c_owner _ (proj1 H) _ _ v)). apply Hp. by apply (one_set s p' p t (proj1 H)). }
      destruct (core_unqueue p t s1 C Ln Pn) as (C2 & L2 & W2 & _). intros [= <- <-].
      apply update_ok; [done|by apply L2|]. intros p' Hp L'. apply L2 in L'. apply W2; auto.
    + intros [= <- <-]. assert (V : same_values s s1) by (apply T3; right; left; lia).
      apply (again_sleep p t s1); [by apply (inv_frame p s)|done|done|].
      destruct (outcome_result s p q) as [_ O2]. unfold outcome in *. rewrite <- T2 in O2. unfold must_wait, outcome.
      rewrite (f_queues _ _ _ F), (proj1 V), (same_adj _ _ _ V). fold q. by apply O2.
  - destruct (q_linked q) eqn:El; [|intros [= <- <-]; by apply Hout].
    destruct (c_linked _ (proj1 H) t Hs (or_introl El)) as [L Hin]. fold q in L, Hin.
    destruct (core_unqueue (q_sma q) t s (proj1 H) L Hin) as (C2 & L2 & W2 & W3). destruct (q_alters q); intros [= <- <-].
    + apply update_ok; [done|by apply L2|]. intros p' Hp L'. apply L2 in L'. apply W2; [done|done|]. by apply (proj2 H).
    + split; [done|]. intros p' L'. apply L2 in L'. pose proof (proj2 H p' L') as Hw.
      destruct (decide (p' = q_sma q)) as [->|Hp]; [by apply W3|by apply W2].
Qed.

(** ** exit *)

Lemma exit_undo_ok u s : sem_inv s ->
  sem_inv (exit_undo u s) /\ semsleeping (exit_undo u s) = semsleeping s /\ current (exit_undo u s) = current s /\
  semundo (exit_undo u s) = semundo s.
Proof.
  intros H. unfold exit_undo. cbv zeta. destruct (_ =? -1); [done|].
  destruct (sem_lock (un_semid (undos s u)) s) as [p|] eqn:L; [|done].
  destruct (sem_checkid _ _ _); [done|]. cbn [orb]. destruct (bool_decide (u ∈ _)) eqn:B; cbn [negb]; [|done].
  apply bool_decide_eq_true in B. set (g := fun a : sem_array => _). set (s2 := set_array p g s).
  assert (Lp : live s p).
  { unfold sem_lock, ipc_lock, ipc_get, entry in L. destruct (_ <=? _); [done|].
    destruct (entries (sem_ids s) !! _) as [x|] eqn:E; [|done]. simpl in L. subst x. by eexists. }
  assert (Hc : sem_inv (update_queue p s2) /\ semsleeping (update_queue p s2) = semsleeping s /\
    s_cred (update_queue p s2) = s_cred s2 /\ semundo (update_queue p s2) = semundo s).
  { apply (changed_ok p s); [|done| |done|done].
    - apply frame_array. intros a. unfold g. simpl. split; [by rewrite length_imap|]. split; [done|].
      intros v [_ Hv]%list_elem_of_filter. done.
    - unfold vals, s2. simpl. rewrite fn_lookup_alter. unfold g. simpl. apply List.Forall_map.
      apply Forall_lookup. intros i x Hx. apply list_lookup_imap_Some in Hx as (c & _ & ->).
      unfold adjust_sem. simpl. destruct (Z.ltb_spec (semval c + adj_at (semadj (undos s u)) (Z.of_nat i)) 0); lia. }
  destruct Hc as (H1 & H2 & H3 & H4). split_and!; try done. unfold current. by rewrite H3.
Qed.

Lemma exit_undos_ok l : forall s, sem_inv s -> let s' := fold_left (fun s u => exit_undo u s) l s in
  sem_inv s' /\ semsleeping s' = semsleeping s /\ current s' = current s /\ semundo s' = semundo s.
Proof.
  induction l as [|u l IH]; intros s H; [done|]. cbn [fold_left]. destruct (exit_undo_ok u s H) as (E1 & E2 & E3 & E4).
  destruct (IH _ E1) as (I1 & I2 & I3 & I4). by rewrite I2, I3, I4.
Qed.

Lemma sem_exit_ok s : sem_inv s -> semsleeping s (current s) = false ->
  exists s', sem_exit s = Some s' /\ sem_inv s' /\ semsleeping s' (current s) = false /\ semundo s' (current s) = [].
Proof.
  intros H Hs. unfold sem_exit. rewrite Hs. simpl. eexists. split; [done|].
  destruct (exit_undos_ok (semundo s (current s)) s H) as (E1 & E2 & E3 & E4).
  split; [|split].
  - apply inv_semundo; [by rewrite E2|set_solver|done].
  - simpl. by rewrite E2.
  - simpl. by rewrite fn_lookup_insert.
Qed.
