(* ===== verification/SemTheorems.v ===== *)
(** * What semaphores promise

    A request is performed as a whole or not at all; in every history of semaphore calls
    no task sleeps on an operation that could be performed, unless a task that was told
    to try again can go on; what a task did with SEM_UNDO is undone when it exits. *)
From stdpp Require Import base sets list functions.
From S2P Require Import Prelude PidHash Bitmap Sched SchedInv SchedCalls SchedTheorems Proc User Cred Ipc SigCalls.
From S2P Require Import Sem SemOps SemInv SemSteps SemCalls.

(** ** All or nothing *)

Lemma spec_no_adj sops : forall v v' a', spec_ops sops v [] = inl (v', a') -> a' = [].
Proof.
  induction sops as [|o l IH]; intros v v' a'; [by intros [= <- <-]|]. cbn [spec_ops]. cbv zeta.
  destruct (_ && _); [done|]. destruct (negb _); [done|]. destruct (_ <? 0); [done|]. destruct (SEMVMX <? _); [done|].
  unfold adjust, set_at. destruct (has _ _); [|apply IH]. destruct (Z.to_nat (sem_num o)); apply IH.
Qed.

Lemma all_or_nothing p sops un pid do_undo s : in_range sops (length (sem_base (sem_arrays s p))) ->
  let '(s', r) := try_atomic_semop p sops un pid do_undo s in
  match spec_ops sops (vals s p) (adj_of s un) with
  | inl (v, a) => r = 0 /\ if do_undo then vals s' p = vals s p /\ adj_of s' un = adj_of s un
                           else vals s' p = v /\ adj_of s' un = a
  | inr e => r = e /\ vals s' p = vals s p /\ adj_of s' un = adj_of s un
  end /\
  (forall p', p' <> p -> vals s' p' = vals s p') /\ (forall u, un <> Some u -> undos s' u = undos s u).
Proof.
  intros Hr. unfold try_atomic_semop. fold (adj_of s un).
  pose proof (atomic_spec sops pid do_undo (sem_base (sem_arrays s p)) (adj_of s un) Hr) as H.
  destruct (atomic_semop sops pid do_undo (sem_base (sem_arrays s p)) (adj_of s un)) as [[b a] r]. fold (vals s p) in H.
  set (s2 := match un with Some u => _ | None => _ end).
  assert (A : adj_of s2 un = match un with Some _ => a | None => [] end /\ forall u, un <> Some u -> undos s2 u = undos s u).
  { destruct un as [u|]; [|done]. unfold s2. simpl. rewrite fn_lookup_alter. split; [done|].
    intros v Hv. rewrite fn_lookup_alter_ne; [done|congruence]. }
  assert (V : sem_base (sem_arrays s2 p) = b /\ forall p', p' <> p -> sem_arrays s2 p' = sem_arrays s p').
  { assert (E : sem_arrays s2 = alter (fun x => x <| sem_base := b |>) p (sem_arrays s)) by (by destruct un).
    rewrite E, fn_lookup_alter. split; [done|]. intros p' Hp. by rewrite fn_lookup_alter_ne. }
  clearbody s2. destruct A as [A1 A2], V as [V1 V2]. set (s3 := if _ && _ then _ else s2).
  assert (E : undos s3 = undos s2 /\ vals s3 p = map semval b /\ forall p', p' <> p -> vals s3 p' = vals s p').
  { unfold s3, vals. destruct (_ && _); [|rewrite V1; split_and!; [done|done|intros p' Hp; by rewrite V2]].
    simpl. rewrite fn_lookup_alter. simpl. rewrite V1. split_and!; [done|done|].
    intros p' Hp. rewrite fn_lookup_alter_ne by done. by rewrite V2. }
  clearbody s3. destruct E as (E1 & E2 & E3). rewrite E2, E1.
  assert (Ea : adj_of s3 un = adj_of s2 un) by (unfold adj_of; by rewrite E1). rewrite Ea, A1.
  split; [|done]. destruct H as [_ H]. clear - H.
  destruct un as [u|]; [exact H|]. fold (vals s p). simpl in H |- *.
  destruct (spec_ops sops (vals s p) []) as [[v' a']|e] eqn:E; [|naive_solver].
  assert (a' = []) as -> by (apply (spec_no_adj sops (vals s p) v' a' E)). destruct do_undo; naive_solver.
Qed.

(** C25. try_atomic_semop is equivalent to the one-pass specification [spec_ops] that
    works on values only: when every operation can be performed in turn the result is 0
    and the values and adjustments are those of the specification (or the old ones, when
    the caller asked for a trial); otherwise the result is the error of the first
    operation that cannot (EAGAIN, ERANGE, or 1 for sleeping) and every semaphore and
    adjustment has its old value, although the loop had changed some of them. *)
Theorem semop_all_or_nothing p sops un pid do_undo s : in_range sops (length (sem_base (sem_arrays s p))) ->
  let '(s', r) := try_atomic_semop p sops un pid do_undo s in
  match spec_ops sops (vals s p) (adj_of s un) with
  | inl (v, a) => r = 0 /\ if do_undo then vals s' p = vals s p /\ adj_of s' un = adj_of s un
                           else vals s' p = v /\ adj_of s' un = a
  | inr e => r = e /\ vals s' p = vals s p /\ adj_of s' un = adj_of s un
  end /\
  (forall p', p' <> p -> vals s' p' = vals s p') /\ (forall u, un <> Some u -> undos s' u = undos s u).
Proof. apply all_or_nothing. Qed.

(** ** Histories *)

Lemma init_inv alloc s : (forall t, semsleeping s t = false) -> (forall t, semundo s t = []) -> sem_inv (sem_init alloc s).
Proof.
  intros Hs Hu. assert (L : forall p, ~ live (sem_init alloc s) p).
  { intros p [i Hi]. unfold sem_init, ipc_init_ids in Hi. simpl in Hi. destruct alloc; [|done].
    apply lookup_replicate in Hi as [? _]. done. }
  split; [split|]; try (intros; exfalso; by eapply L).
  - intros i j p Hi. exfalso. apply (L p). by exists i.
  - intros t Ht. simpl in Ht. by rewrite Hs in Ht.
  - intros t t' u. simpl. rewrite Hu. set_solver.
Qed.

(** What can happen to the semaphores: the calls of the current task, which sleeps in
    sys_semop and then resumes, or does not; anything done to the other parts of the
    kernel, like a change of the current task.  [gap] is what the other tasks do while a
    call is unlocked: a history again, which leaves the caller where it is.  Memory that
    is allocated is not in use; the words that SETALL reads and the semaphore numbers are
    unsigned.  [R] says which requests semop is called with; any is accepted by the
    code. *)
Inductive mruns (R : list sembuf -> Prop) : sems -> sems -> Prop :=
  | m_refl s : mruns R s s
  | m_trans s1 s2 s3 : mruns R s1 s2 -> mruns R s2 s3 -> mruns R s1 s3
  | m_other s c sc now : mruns R s (s <| s_cred := c |> <| s_sched := sc |> <| CURRENT_TIME := now |>)
  | m_semget s key nsems semflg new grow s' r : (forall p, new = Some p -> ~ live s p) ->
      sys_semget key nsems semflg new grow s = Some (s', r) -> mruns R s s'
  | m_semctl s overflowuid overflowgid gap alloc semid semnum cmd arg s' r out :
      (forall s, mruns R s (gap s)) -> (forall f i, a_array arg = Some f -> 0 <= f i) ->
      sys_semctl overflowuid overflowgid gap alloc semid semnum cmd arg s = Some (s', r, out) -> mruns R s s'
  | m_semop s gap new_undo alloc semid tsops nsops :
      (forall s, mruns R s (gap s)) ->
      (forall s, current (gap s) = current s /\ semsleeping (gap s) (current s) = semsleeping s (current s)) ->
      (forall s u, new_undo s = Some u ->
         (forall t, u ∉ semundo s t) /\ (forall p, live s p -> u ∉ sem_undos (sem_arrays s p))) ->
      (forall sops, tsops = Some sops -> R sops /\ Forall (fun o => 0 <= sem_num o) sops) ->
      semsleeping s (current s) = false -> mruns R s (fst (sys_semop gap new_undo alloc semid tsops nsops s))
  | m_resume s s' e : semsleeping s (current s) = true -> semop_resume s = Some (s', e) -> mruns R s s'
  | m_exit s s' : semsleeping s (current s) = false -> sem_exit s = Some s' -> mruns R s s'.

Lemma mruns_inv s s' : mruns unmixed s s' -> sem_inv s -> sem_inv s'.
Proof.
  induction 1 as [| |s c sc now|s key nsems semflg new grow s' r Hn E|s ou og gap alloc semid semnum cmd arg s' r out _ IH Hf E
                 |s gap new_undo alloc semid tsops nsops _ IH Hme Hfr Hops Hs|s s' e Hs E|s s' Hs E]; intros Hi.
  - done.
  - auto.
  - by apply inv_other.
  - by eapply semget_ok.
  - by eapply semctl_ok.
  - by apply semop_ok.
  - by eapply resume_ok.
  - destruct (sem_exit_ok s Hi Hs) as (s1 & E1 & H1 & _). congruence.
Qed.

(** C24. No wakeup is lost and no value is negative, in every history of the semaphore
    calls from boot, however they interleave, in which every request is [unmixed]: it
    decreases some semaphore, or only waits for zero, or only increases.  A task that
    sleeps in semop and was not told to try again either sleeps with reason, its request
    cannot be performed on the present values, or a task waiting on the same set was told
    to try again and can go on, and will update the queue.  Every sleeping task whose
    request is linked, or was told to try again, is in the queue of its set, once.
    The code accepts other requests too, that wait for a zero and increase; the condition
    cannot be dropped: in the history of [mixed_request_loses_wakeup], with one such
    request, a task sleeps on although its request can be performed. *)
Theorem no_lost_wakeup alloc s0 s :
  (forall t, semsleeping s0 t = false) -> (forall t, semundo s0 t = []) -> mruns unmixed (sem_init alloc s0) s ->
  (forall p t, live s p -> t ∈ pending s p -> q_status (queues s t) <> 1 ->
     spec_ops (q_sops (queues s t)) (vals s p) (adj_of s (q_undo (queues s t))) = inr 1 \/
     exists u, u ∈ pending s p /\ q_status (queues s u) = 1 /\ ~ must_wait s p u) /\
  (forall p, live s p -> Forall (fun v => 0 <= v) (vals s p) /\ NoDup (pending s p)) /\
  (forall t, semsleeping s t = true -> q_linked (queues s t) = true \/ q_status (queues s t) = 1 ->
     live s (q_sma (queues s t)) /\ t ∈ pending s (q_sma (queues s t))).
Proof.
  intros Hs Hu Hr. destruct (mruns_inv _ _ Hr (init_inv alloc s0 Hs Hu)) as [C W]. split_and!.
  - intros p t L Ht Hq. destruct (W p L) as [|Ha]; [by right|]. left. by destruct (Ha t Ht).
  - intros p L. split; [by apply (c_vals _ C)|by apply (c_nodup _ C)].
  - apply (c_linked _ C).
Qed.

(** ** Undoing at exit *)

(** Operations with SEM_UNDO keep the sums of the values and the adjustments. *)
Lemma spec_sum sops : forall v a v' a', Forall (fun o => has (sem_flg o) SEM_UNDO = true) sops ->
  spec_ops sops v a = inl (v', a') -> zip_with Z.add v' a' = zip_with Z.add v a /\ length v' = length v /\ length a' = length a.
Proof.
  induction sops as [|o l IH]; intros v a v' a' Hf; [by intros [= <- <-]|]. apply list.Forall_cons in Hf as [Ho Hl].
  cbn [spec_ops]. cbv zeta. destruct (_ && _); [done|]. destruct (negb _); [done|]. destruct (_ <? 0); [done|].
  destruct (SEMVMX <? _); [done|]. intros E. apply IH in E as (-> & E2 & E3); [|done].
  rewrite set_at_length in E2. unfold adjust in *. rewrite Ho in *. rewrite set_at_length in E3. split; [|done].
  apply list_eq. intros i. rewrite !lookup_zip_with, !set_at_lookup. destruct (decide _); [|done].
  destruct (v !! i), (a !! i); simpl; try done. f_equal. lia.
Qed.

Definition same_marks (s s' : sems) : Prop := forall p,
  sem_perm (sem_arrays s' p) = sem_perm (sem_arrays s p) /\ sem_undos (sem_arrays s' p) = sem_undos (sem_arrays s p).

Lemma marks_array p g s : (forall a, sem_perm (g a) = sem_perm a /\ sem_undos (g a) = sem_undos a) -> same_marks s (set_array p g s).
Proof.
  intros Hg p'. simpl. destruct (decide (p' = p)) as [->|]; [rewrite fn_lookup_alter; apply Hg|by rewrite fn_lookup_alter_ne].
Qed.
Lemma marks_trans s1 s2 s3 : same_marks s1 s2 -> same_marks s2 s3 -> same_marks s1 s3.
Proof. intros A B p. destruct (A p), (B p). split; congruence. Qed.

Lemma try_marks p sops un pid do_undo s : same_marks s (fst (try_atomic_semop p sops un pid do_undo s)).
Proof.
  unfold try_atomic_semop. destruct (atomic_semop _ _ _ _ _) as [[b a] r]. cbn [fst].
  set (s1 := set_array p _ s). assert (M1 : same_marks s s1) by (by apply marks_array).
  set (s2 := match un with Some u => _ | None => s1 end). assert (M2 : same_marks s1 s2) by (by destruct un).
  destruct (_ && _); [|by eapply marks_trans]. eapply marks_trans; [|by apply marks_array]. by eapply marks_trans.
Qed.

Lemma loop_marks p l : forall s, same_marks s (update_loop p l s).
Proof.
  induction l as [|t l IH]; intros s; [done|]. cbn [update_loop]. cbv zeta. destruct (_ =? 1); [apply IH|].
  match goal with |- context [try_atomic_semop p ?a ?b ?c ?d s] =>
    pose proof (try_marks p a b c d s) as T; destruct (try_atomic_semop p a b c d s) as [s1 e] end.
  cbn [fst] in T. eapply marks_trans; [exact T|]. destruct (e <=? 0); [|apply IH]. destruct (_ && _); [done|].
  eapply marks_trans; [|apply IH]. change (same_marks s1 (set_array p (fun a => a <| sem_pending ::= filter (fun u => u <> t) |>) s1)).
  by apply marks_array.
Qed.

Lemma update_values p s : sem_core s -> live s p ->
  same_values s (update_queue p s) /\ same_marks s (update_queue p s) /\ sem_ids (update_queue p s) = sem_ids s /\
  (forall u, un_semid (undos (update_queue p s) u) = un_semid (undos s u)) /\ s_cred (update_queue p s) = s_cred s /\
  semundo (update_queue p s) = semundo s /\ semsleeping (update_queue p s) = semsleeping s.
Proof.
  intros C L. destruct (loop_spec p (pending s p) s) as [G _]; [by apply (c_nodup _ C)| |].
  { intros t Ht. pose proof (c_request _ C _ _ L Ht) as R. split; [apply R|split; [apply R|done]]. }
  split_and!; [apply G|apply loop_marks|apply G..].
Qed.

(** The structure [u] is in force for the set [p]: sem_exit adds its adjustments. *)
Record in_force (s : sems) (p u : Z) : Prop := InForce {
  if_semid : un_semid (undos s u) <> -1;
  if_lock : sem_lock (un_semid (undos s u)) s = Some p;
  if_check : sem_checkid p (un_semid (undos s u)) s = false;
  if_listed : u ∈ sem_undos (sem_arrays s p)
}.

(** The structures of the current task in force: one for a set, with an adjustment for
    each of its semaphores. *)
Record undos_fit (s : sems) (l : list Z) : Prop := UndosFit {
  fit_nodup : NoDup l;
  fit_one : forall p u v, u ∈ l -> v ∈ l -> in_force s p u -> in_force s p v -> u = v;
  fit_length : forall p u, u ∈ l -> in_force s p u -> length (semadj (undos s u)) = length (vals s p)
}.

Lemma exit_force s p u : sem_inv s -> in_force s p u ->
  (length (semadj (undos s u)) = length (vals s p) ->
    vals (exit_undo u s) p = zip_with (fun v a => Z.max 0 (v + a)) (vals s p) (semadj (undos s u))) /\
  (forall p', p' <> p -> vals (exit_undo u s) p' = vals s p') /\ length (vals (exit_undo u s) p) = length (vals s p) /\
  (forall p' v, v <> u -> in_force (exit_undo u s) p' v <-> in_force s p' v) /\
  (forall v, semadj (undos (exit_undo u s) v) = semadj (undos s v)).
Proof.
  intros H [I1 I2 I3 I4]. unfold exit_undo. cbv zeta. rewrite (proj2 (Z.eqb_neq _ _)) by done. rewrite I2, I3. cbn [orb].
  rewrite bool_decide_true by done. cbn [negb].
  assert (L : live s p).
  { destruct (c_undo _ (proj1 H) p u) as [_ ?]; [|done|by eapply lock_live].
    unfold sem_lock, ipc_lock, ipc_get, entry in I2. destruct (_ <=? _); [done|].
    destruct (entries (sem_ids s) !! _) as [x|] eqn:E; [|done]. simpl in I2. subst x. by eexists. }
  set (g := fun a : sem_array => _). set (s2 := set_array p g s).
  assert (V : forall p', vals s2 p' = if decide (p' = p)
    then map semval (imap (fun i c => adjust_sem (c_pid (my_cred s)) c (adj_at (semadj (undos s u)) (Z.of_nat i))) (sem_base (sem_arrays s p)))
    else vals s p').
  { intros p'. unfold vals, s2. simpl. destruct (decide (p' = p)) as [->|]; [by rewrite fn_lookup_alter|by rewrite fn_lookup_alter_ne]. }
  assert (N : Forall (fun x => 0 <= x) (vals s2 p)).
  { rewrite V, decide_True by done. apply List.Forall_map, Forall_lookup. intros i x Hx.
    apply list_lookup_imap_Some in Hx as (c & _ & ->). unfold adjust_sem. simpl.
    destruct (Z.ltb_spec (semval c + adj_at (semadj (undos s u)) (Z.of_nat i)) 0); lia. }
  destruct (inv_revalued p s s2) as [C _]; [|done|done|done|].
  { apply frame_array. intros a. unfold g. simpl. split; [by rewrite length_imap|]. split; [done|].
    intros v [_ Hv]%list_elem_of_filter. done. }
  destruct (update_values p s2 C L) as ([U1 U2] & U3 & U4 & U5 & _). rewrite U1. split_and!.
  - intros I5. rewrite V, decide_True by done. apply list_eq. intros i. unfold vals in *.
    rewrite list_lookup_fmap, list_lookup_imap, lookup_zip_with, list_lookup_fmap. unfold adj_at. rewrite Nat2Z.id.
    rewrite length_map in I5. destruct (sem_base (sem_arrays s p) !! i) as [c|] eqn:Ec; [|done]. simpl.
    apply lookup_lt_Some in Ec. destruct (lookup_lt_is_Some_2 (semadj (undos s u)) i) as [x ->]; [lia|]. simpl. f_equal.
    destruct (Z.ltb_spec (semval c + x) 0); lia.
  - intros p' Hp. by rewrite U1, V, decide_False.
  - rewrite V, decide_True by done. unfold vals. by rewrite !length_map, length_imap.
  - intros p' v Hv. assert (M : sem_perm (sem_arrays s2 p') = sem_perm (sem_arrays s p') /\
      (v ∈ sem_undos (sem_arrays s2 p') <-> v ∈ sem_undos (sem_arrays s p'))).
    { unfold s2. simpl. destruct (decide (p' = p)) as [->|]; [|by rewrite fn_lookup_alter_ne].
      rewrite fn_lookup_alter. simpl. rewrite list_elem_of_filter. naive_solver. }
    destruct M as [M1 M2]. destruct (U3 p') as [U6 U7].
    split; intros [J1 J2 J3 J4]; (split; [revert J1|revert J2|revert J3|revert J4]; unfold sem_lock, sem_checkid;
      rewrite ?U5, ?U4, ?U6, ?U7, ?M1, ?M2; done).
  - intros v. by rewrite U2.
Qed.

Lemma exit_idle s u : (forall p, ~ in_force s p u) -> exit_undo u s = s.
Proof.
  intros Hn. unfold exit_undo. cbv zeta. destruct (Z.eqb_spec (un_semid (undos s u)) (-1)); [done|].
  destruct (sem_lock _ s) as [p|] eqn:E; [|done]. destruct (sem_checkid _ _ _) eqn:K; [done|]. cbn [orb].
  destruct (bool_decide _) eqn:B; [|done]. apply bool_decide_eq_true in B. by destruct (Hn p).
Qed.

Lemma force_dec s u : (exists p, in_force s p u) \/ forall p, ~ in_force s p u.
Proof.
  destruct (decide (un_semid (undos s u) = -1)); [right; by intros p []|].
  destruct (sem_lock (un_semid (undos s u)) s) as [p|] eqn:E; [|right; intros p []; congruence].
  destruct (sem_checkid p (un_semid (undos s u)) s) eqn:K; [right; intros q []; congruence|].
  destruct (decide (u ∈ sem_undos (sem_arrays s p))); [left; by exists p|right; intros q []].
  by replace p with q in * by congruence.
Qed.

Lemma force_set s p q u : in_force s p u -> in_force s q u -> p = q.
Proof. intros [] []. congruence. Qed.

(** What the loop of sem_exit over the task's structures does to the values. *)
Lemma exit_loop_vals l : forall s, sem_inv s -> undos_fit s l -> let s' := fold_left (fun s u => exit_undo u s) l s in
  (forall p u, u ∈ l -> in_force s p u -> vals s' p = zip_with (fun v a => Z.max 0 (v + a)) (vals s p) (semadj (undos s u))) /\
  (forall p, (forall u, u ∈ l -> ~ in_force s p u) -> vals s' p = vals s p).
Proof.
  induction l as [|w l IH]; intros s H [Hn Ho Hl]; [split; [set_solver|done]|]. cbn [fold_left].
  apply list.NoDup_cons in Hn as [Hw Hn]. destruct (force_dec s w) as [[q Hq]|Hq].
  2:{ rewrite (exit_idle s w Hq). destruct (IH s H) as [I1 I2].
      { split; [done| |]; intros; [eapply Ho|eapply Hl]; try done; by right. }
      split; [intros p u [->|Hu]%elem_of_cons; [intros F; by destruct (Hq p)|by apply I1]|].
      intros p Hp. apply I2. intros u Hu. apply Hp. by right. }
  destruct (exit_force s q w H Hq) as (E1 & E2 & E3 & E4 & E5). destruct (exit_undo_ok w s H) as [H1 _].
  assert (F : forall p u, u ∈ l -> in_force (exit_undo w s) p u <-> in_force s p u) by (intros p u Hu; apply E4; by intros ->).
  assert (Q : forall u, u ∈ l -> ~ in_force (exit_undo w s) q u).
  { intros u Hu K%F; [|done]. assert (u = w) as -> by (eapply Ho; [by right|by left|done..]). done. }
  destruct (IH _ H1) as [I1 I2].
  { split; [done| |].
    - intros p u v Hu Hv K1%F K2%F; [|done..]. eapply Ho; [by right|by right|done..].
    - intros p u Hu K. rewrite E5. pose proof (proj1 (F p u Hu) K) as K'. rewrite (Hl p u) by (by try right).
      destruct (decide (p = q)) as [->|]; [by rewrite E3|by rewrite E2]. }
  split.
  - intros p u [->|Hu]%elem_of_cons K.
    + rewrite (force_set s p q w K Hq). rewrite I2 by done. apply E1, Hl; [by left|done].
    + rewrite (I1 p u Hu (proj2 (F p u Hu) K)), E5. rewrite E2; [done|]. intros ->. destruct (Q u Hu). by apply F.
  - intros p Hp. rewrite I2; [apply E2; intros ->; by apply (Hp w); [left|]|].
    intros u Hu K%F; [|done]. by apply (Hp u); [right|].
Qed.

(** The state after a request with SEM_UNDO that was performed. *)
Lemma tried_vals p semid sops u alters decrease s s1 : sem_inv s -> may_use s p (Some u) ->
  in_range sops (length (sem_base (sem_arrays s p))) -> Forall (fun o => has (sem_flg o) SEM_UNDO = true) sops ->
  semop_try p semid sops (Some u) decrease alters s = (s1, Returns 0) ->
  zip_with Z.add (vals s1 p) (semadj (undos s1 u)) = zip_with Z.add (vals s p) (semadj (undos s u)) /\
  (forall p', p' <> p -> vals s1 p' = vals s p') /\ same_marks s s1 /\ sem_ids s1 = sem_ids s /\
  (forall v, un_semid (undos s1 v) = un_semid (undos s v)) /\ length (semadj (undos s1 u)) = length (semadj (undos s u)) /\
  length (vals s1 p) = length (vals s p) /\ (forall v, v <> u -> semadj (undos s1 v) = semadj (undos s v)) /\
  s_cred s1 = s_cred s /\ semundo s1 = semundo s /\ semsleeping s1 = semsleeping s.
Proof.
  intros H HM Hr Hf. unfold semop_try. cbv zeta. destruct (tried_ok p sops (Some u) (c_pid (my_cred s)) s H HM Hr) as (F & C & _ & Hc).
  pose proof (all_or_nothing p sops (Some u) (c_pid (my_cred s)) false s Hr) as A.
  pose proof (try_marks p sops (Some u) (c_pid (my_cred s)) false s) as M.
  destruct (try_atomic_semop p sops (Some u) (c_pid (my_cred s)) false s) as [s2 r]. cbn [fst] in *.
  destruct (Z.leb_spec r 0); [|done]. intros [= <- ->]. destruct A as (A1 & A2 & A3).
  destruct (spec_ops sops (vals s p) (adj_of s (Some u))) as [[v a]|e] eqn:E.
  2:{ destruct A1 as [? _]. subst e. destruct (spec_errors _ _ _ _ E); lia. }
  destruct A1 as (_ & V1 & V2). simpl in V2. destruct (spec_sum _ _ _ _ _ Hf E) as (S1 & S2 & S3).
  assert (L : live s2 p) by (rewrite (live_frame _ _ _ _ F); apply HM).
  assert (K : forall s3, same_values s2 s3 -> same_marks s2 s3 -> sem_ids s3 = sem_ids s2 ->
    (forall u, un_semid (undos s3 u) = un_semid (undos s2 u)) ->
    s_cred s3 = s_cred s2 -> semundo s3 = semundo s2 -> semsleeping s3 = semsleeping s2 ->
    zip_with Z.add (vals s3 p) (semadj (undos s3 u)) = zip_with Z.add (vals s p) (semadj (undos s u)) /\
    (forall p', p' <> p -> vals s3 p' = vals s p') /\ same_marks s s3 /\ sem_ids s3 = sem_ids s /\
    (forall v, un_semid (undos s3 v) = un_semid (undos s v)) /\ length (semadj (undos s3 u)) = length (semadj (undos s u)) /\
    length (vals s3 p) = length (vals s p) /\ (forall v, v <> u -> semadj (undos s3 v) = semadj (undos s v)) /\
    s_cred s3 = s_cred s /\ semundo s3 = semundo s /\ semsleeping s3 = semsleeping s).
  { intros s3 [B1 B2] B3 B4 B5 B6 B7 B8. rewrite !B1, !B2, V1, V2, B6, B7, B8. split_and!; try done.
    - intros p' Hp. rewrite B1. auto.
    - by eapply marks_trans.
    - by rewrite B4, (f_ids _ _ _ F).
    - intros w. by rewrite B5, (f_semid _ _ _ F).
    - intros w Hv. rewrite B2, A3 by congruence. done.
    - apply F.
    - apply F. }
  destruct alters; [|by apply K]. destruct (update_values p s2 C L) as (U1 & U2 & U3 & U4 & U5 & U6 & U7). by apply K.
Qed.

Lemma zip_with_fmap_sum (f : Z -> Z) : forall l k, f <$> zip_with Z.add l k = zip_with (fun v a => f (Z.add v a)) l k.
Proof. intros l. induction l as [|v l IH]; intros [|a k]; [done..|]. simpl. by rewrite <- IH. Qed.

Lemma max_zero v : forall a, Forall (fun x => 0 <= x) v -> Forall (fun x => x = 0) a -> length v = length a ->
  zip_with (fun v a => Z.max 0 (v + a)) v a = v.
Proof.
  induction v as [|x v IH]; intros [|y a] Hv Ha Hl; try done. apply list.Forall_cons in Hv as [? ?], Ha as [-> ?].
  simpl in *. rewrite IH by (auto; lia). f_equal. lia.
Qed.

Lemma exit_vals s : sem_inv s -> semsleeping s (current s) = false -> undos_fit s (semundo s (current s)) ->
  exists s', sem_exit s = Some s' /\
    (forall p u, u ∈ semundo s (current s) -> in_force s p u ->
       vals s' p = zip_with (fun v a => Z.max 0 (v + a)) (vals s p) (semadj (undos s u))) /\
    (forall p, (forall u, u ∈ semundo s (current s) -> ~ in_force s p u) -> vals s' p = vals s p).
Proof.
  intros H Hs Hf. unfold sem_exit. rewrite Hs. eexists. split; [done|]. exact (exit_loop_vals _ s H Hf).
Qed.

Lemma one_in_force s p (l : list Z) : (exists u, u ∈ l /\ in_force s p u) \/ forall u, u ∈ l -> ~ in_force s p u.
Proof.
  induction l as [|u l [(v & V1 & V2)|IH]]; [right; set_solver|left; exists v; set_solver|].
  destruct (force_dec s u) as [[q Hq]|Hq].
  - destruct (decide (q = p)) as [->|Hne]; [left; exists u; set_solver|right].
    intros v [->|Hv]%elem_of_cons; [|by apply IH]. intros K. by destruct (Hne (force_set s q p u Hq K)).
  - right. intros v [->|Hv]%elem_of_cons; [apply Hq|by apply IH].
Qed.

(** C26. What was done with SEM_UNDO is taken back at exit.  A task with the undo
    structure [u] for the set [p] makes an [unmixed] request all of whose operations have
    SEM_UNDO, and it is performed at once (a request that slept is not covered); when the
    task exits then, sem_exit leaves every semaphore of every set with the value that it
    would have had if the task had exited before the request: with no earlier adjustments,
    the value before the request. *)
Theorem undo_taken_back p semid sops u s s1 :
  let decrease := existsb (fun o => sem_op o <? 0) sops in
  let alters := existsb (fun o => 0 <? sem_op o) sops || decrease in
  sem_inv s -> may_use s p (Some u) -> in_force s p u -> undos_fit s (semundo s (current s)) ->
  in_range sops (length (sem_base (sem_arrays s p))) -> unmixed sops ->
  Forall (fun o => has (sem_flg o) SEM_UNDO = true) sops ->
  semop_try p semid sops (Some u) decrease alters s = (s1, Returns 0) ->
  exists s2 s3, sem_exit s = Some s2 /\ sem_exit s1 = Some s3 /\
    forall p', vals s3 p' = vals s2 p' /\
      ((forall v, v ∈ semundo s (current s) -> in_force s p' v -> Forall (fun x => x = 0) (semadj (undos s v))) ->
       live s p' -> vals s3 p' = vals s p').
Proof.
  intros decrease alters H HM I Hfit Hr Hmix Hf Ht.
  pose proof (semop_try_ok p semid sops (Some u) s H HM Hr Hmix) as Hi. fold decrease in Hi. fold alters in Hi.
  rewrite Ht in Hi. cbn [fst] in Hi. destruct HM as [M1 M2 M3] eqn:EM.
  destruct (tried_vals p semid sops u alters decrease s s1 H HM Hr Hf Ht) as (T1 & T2 & T3 & T4 & T5 & T6 & T7 & T8 & T9 & T10 & T11).
  destruct (M3 u eq_refl) as [Hu _]. set (t := current s) in *.
  assert (Ec : current s1 = t) by (unfold current, t in *; unfold current; by rewrite T9).
  assert (F : forall q v, in_force s1 q v <-> in_force s q v).
  { intros q v. destruct (T3 q) as [P1 P2]. split; intros [J1 J2 J3 J4];
      (split; [revert J1|revert J2|revert J3|revert J4]; unfold sem_lock, sem_checkid; rewrite ?T5, ?T4, ?P1, ?P2; done). }
  assert (Hfit1 : undos_fit s1 (semundo s1 (current s1))).
  { rewrite Ec, T10. destruct Hfit as [N1 N2 N3]. split; [done| |].
    - intros q v w Hv Hw. rewrite !F. by apply N2.
    - intros q v Hv K%F. destruct (decide (v = u)) as [->|Hne].
      + rewrite (force_set s q p u K I). rewrite T6, T7. by apply N3.
      + rewrite T8, T2 by (try done; intros ->; apply Hne; by apply (N2 p)). by apply N3. }
  destruct (exit_vals s H M2 Hfit) as (s2 & X1 & X2 & X3).
  destruct (exit_vals s1 Hi) as (s3 & Y1 & Y2 & Y3); [by rewrite Ec, T11|done|]. rewrite Ec, T10 in Y2, Y3.
  exists s2, s3. split; [done|]. split; [done|]. fold t in X2, X3.
  assert (K : forall p', vals s3 p' = vals s2 p').
  { intros p'. destruct (decide (p' = p)) as [->|Hp].
    - rewrite (X2 p u Hu I), (Y2 p u Hu (proj2 (F p u) I)).
      change (fun v a => Z.max 0 (v + a)) with (fun v a => Z.max 0 (Z.add v a)). rewrite <- !(zip_with_fmap_sum (Z.max 0)). by rewrite T1.
    - destruct (one_in_force s p' (semundo s t)) as [(v & V1 & V2)|Hno].
      + rewrite (X2 p' v V1 V2), (Y2 p' v V1 (proj2 (F p' v) V2)), T2 by done. rewrite T8; [done|].
        intros ->. by apply Hp, (force_set s p' p u).
      + rewrite X3, Y3, T2 by (try done; intros v Hv; rewrite ?F; auto). done. }
  intros p'. split; [apply K|]. intros Hz L. rewrite K. destruct (one_in_force s p' (semundo s t)) as [(v & V1 & V2)|Hno]; [|by apply X3].
  rewrite (X2 p' v V1 V2). apply max_zero; [by apply (c_vals _ (proj1 H))|by apply Hz|symmetry; by apply (fit_length _ _ Hfit)].
Qed.

(** ** A set of two semaphores *)

Definition root_task : cred := Cred 0 0 0 0 0 0 0 0 0 [] 0 0 0 0 0 0 100 100 0.
Definition fresh_sems : sems :=
  Sems (IpcIds 0 0 0 0 []) (fun _ => SemArray (KernIpcPerm 0 0 0 0 0 0 0) 0 0 [] [] []) (fun _ => SemUndo 0 [])
    (fun _ => SemQueue None 0 0 0 0 [] false false false) (fun _ => []) (fun _ => false) 0 (250, 32000, 32, 4)
    (Ck (fun _ => root_task) [1; 2; 3] 1 (Tusers (Users (fun _ => UserStruct 0 0 0 0) (fun _ => []) []) ∅) (fun _ => 0) 0)
    (machine 0 0) 1000.
Definition made (s : sems) : sems :=
  match sys_semget IPC_PRIVATE 2 384 (Some 7) true s with Some (s', _) => s' | None => s end.
Definition pair : sems := made (sem_init true fresh_sems).
Definition as_task (t : tid) (s : sems) : sems := s <| s_cred ::= fun c => c <| ccur := t |> |>.
Definition op (sops : list sembuf) (s : sems) : sems :=
  fst (sys_semop (fun s => s) (fun _ => None) true 0 (Some sops) (Z.of_nat (length sops)) s).

Lemma pair_run R : mruns R (sem_init true fresh_sems) pair.
Proof.
  apply (m_semget R _ IPC_PRIVATE 2 384 (Some 7) true _ 0).
  - intros p _ [i Hi]. simpl in Hi. unfold ipc_init_ids in Hi. simpl in Hi. by destruct i as [|[|[|[|]]]].
  - reflexivity.
Qed.

Lemma op_run (R : list sembuf -> Prop) sops s : R sops -> Forall (fun o => 0 <= sem_num o) sops -> semsleeping s (current s) = false -> mruns R s (op sops s).
Proof. intros H1 H2 H3. apply m_semop; try done; [constructor|]. intros l [= <-]. done. Qed.

Lemma pair_inv : sem_inv pair.
Proof. apply (mruns_inv _ _ (pair_run unmixed)). by apply init_inv. Qed.

Lemma semop_all_or_nothing_witness :
  let '(s', r) := try_atomic_semop 7 [Sembuf 0 1 0; Sembuf 1 (-1) IPC_NOWAIT] None 100 false pair in r = - EAGAIN /\ vals s' 7 = [0; 0].
Proof.
  pose proof (semop_all_or_nothing 7 [Sembuf 0 1 0; Sembuf 1 (-1) IPC_NOWAIT] None 100 false pair) as H.
  destruct (try_atomic_semop 7 _ None 100 false pair) as [s' r].
  assert (R : in_range [Sembuf 0 1 0; Sembuf 1 (-1) IPC_NOWAIT] (length (sem_base (sem_arrays pair 7)))).
  { change (length (sem_base (sem_arrays pair 7))) with 2%nat. constructor; [simpl; lia|]. constructor; [simpl; lia|]. constructor. }
  destruct (H R) as [H1 _].
  assert (E : spec_ops [Sembuf 0 1 0; Sembuf 1 (-1) IPC_NOWAIT] (vals pair 7) (adj_of pair None) = inr (- EAGAIN)) by (vm_compute; reflexivity).
  rewrite E in H1. destruct H1 as (H1 & H2 & _). split; [exact H1|]. rewrite H2. vm_compute. reflexivity.
Defined.

(** A task sleeps until the first semaphore is positive. *)
Definition one_waits : sems := op [Sembuf 0 (-1) 0] pair.

Lemma no_lost_wakeup_witness :
  mruns unmixed (sem_init true fresh_sems) one_waits /\ pending one_waits 7 = [1] /\ Forall (fun v => 0 <= v) (vals one_waits 7).
Proof.
  assert (R : mruns unmixed (sem_init true fresh_sems) one_waits).
  { apply (m_trans _ _ pair); [exact (pair_run unmixed)|]. apply op_run; [by left|by repeat constructor|reflexivity]. }
  split; [exact R|]. split; [vm_compute; reflexivity|].
  apply (no_lost_wakeup true fresh_sems one_waits (fun _ => eq_refl) (fun _ => eq_refl) R). exists 0%nat. vm_compute. reflexivity.
Defined.

(** The task has an undo structure. *)
Definition with_undo : sems :=
  set_array 7 (fun a => a <| sem_undos ::= cons 9 |>)
    (pair <| undos ::= <[9 := SemUndo 0 [0; 0]]> |> <| semundo ::= alter (cons 9) (current pair) |>).

Lemma pair_live p : live pair p -> p = 7.
Proof.
  intros [i Hi]. assert (E : entries (sem_ids pair) = [Some 7; None; None; None]) by (vm_compute; reflexivity).
  rewrite E in Hi. destruct i as [|[|[|[|i]]]]; simpl in Hi; [|done..]. by injection Hi.
Qed.

Lemma with_undo_inv : sem_inv with_undo.
Proof.
  refine (inv_new_undo 7 9 0 [0; 0] pair pair_inv _ _ _ _ _); [done|vm_compute; reflexivity|vm_compute; reflexivity| |].
  - intros t. apply not_elem_of_nil.
  - intros p ->%pair_live. assert (E : sem_undos (sem_arrays pair 7) = []) by (vm_compute; reflexivity).
    rewrite E. apply not_elem_of_nil.
Qed.

Lemma with_undo_force : in_force with_undo 7 9.
Proof. split; [done|vm_compute; reflexivity|vm_compute; reflexivity|apply list_elem_of_here]. Qed.

Lemma undo_taken_back_witness :
  exists s1 s3, semop_try 7 0 [Sembuf 0 2 SEM_UNDO] (Some 9) false true with_undo = (s1, Returns 0) /\
    vals s1 7 = [2; 0] /\ sem_exit s1 = Some s3 /\ vals s3 7 = [0; 0].
Proof.
  set (x := semop_try 7 0 [Sembuf 0 2 SEM_UNDO] (Some 9) false true with_undo).
  assert (S : snd x = Returns 0) by (vm_compute; reflexivity).
  assert (E : x = (fst x, Returns 0)) by (rewrite <- S; apply surjective_pairing).
  pose proof with_undo_inv as I. assert (M : semundo with_undo (current with_undo) = [9]) by reflexivity.
  assert (L : live with_undo 7) by (exists 0%nat; vm_compute; reflexivity).
  destruct (undo_taken_back 7 0 [Sembuf 0 2 SEM_UNDO] 9 with_undo (fst x) I) as (s2 & s3 & _ & E3 & H).
  - split; [done|reflexivity|]. intros u [= <-]. split; [apply list_elem_of_here|]. split; [vm_compute; reflexivity|done].
  - exact with_undo_force.
  - rewrite M. split.
    + apply NoDup_singleton.
    + intros p u v ->%list_elem_of_singleton ->%list_elem_of_singleton. done.
    + intros p u ->%list_elem_of_singleton K. rewrite (force_set _ p 7 9 K with_undo_force). vm_compute. reflexivity.
  - by repeat constructor.
  - right. right. by repeat constructor.
  - by repeat constructor.
  - exact E.
  - exists (fst x), s3. split; [exact E|]. split; [vm_compute; reflexivity|]. split; [exact E3|].
    destruct (H 7) as [_ H7]. rewrite H7; [vm_compute; reflexivity| |exact L].
    rewrite M. intros v ->%list_elem_of_singleton _. by repeat constructor.
Defined.

(** ** A wakeup that is lost *)

(** Why requests are unmixed above.  In this history of calls task 1 waits to decrease the
    first semaphore, task 2 waits for the second to be zero and then increases the first;
    task 3 decreases the second to zero.  The queue is searched once: task 1 must still
    wait when it is looked at, task 2's request is then performed, by task 3, because it
    decreases nothing, and nobody looks at task 1 again: it sleeps although the first
    semaphore is 1. *)
Definition two_wait : sems :=
  op [Sembuf 1 0 0; Sembuf 0 1 0] (as_task 2 (op [Sembuf 0 (-1) 0] (op [Sembuf 1 1 0] pair))).
Definition mixed_run : sems := op [Sembuf 1 (-1) 0] (as_task 3 two_wait).
Definition mixed_done : sems := match semop_resume (as_task 2 mixed_run) with Some (s, _) => s | None => mixed_run end.

Lemma as_task_run R t s : mruns R s (as_task t s).
Proof. exact (m_other R s ((s_cred s) <| ccur := t |>) (s_sched s) (CURRENT_TIME s)). Qed.

Lemma mixed_history : mruns (fun _ => True) (sem_init true fresh_sems) mixed_done.
Proof.
  eapply m_trans; [apply pair_run|]. apply (m_trans _ _ mixed_run).
  - unfold mixed_run, two_wait.
    repeat first [eapply m_trans; [|apply op_run; [exact I|by repeat constructor|vm_compute; reflexivity]]
                 |eapply m_trans; [|apply as_task_run]|apply m_refl].
  - eapply m_trans; [apply (as_task_run _ 2)|]. unfold mixed_done.
    assert (X : snd <$> semop_resume (as_task 2 mixed_run) = Some (Returns 0)) by (vm_compute; reflexivity).
    destruct (semop_resume (as_task 2 mixed_run)) as [[s e]|] eqn:E; [|discriminate X].
    eapply m_resume; [vm_compute; reflexivity|exact E].
Qed.

Theorem mixed_request_loses_wakeup :
  mruns (fun _ => True) (sem_init true fresh_sems) mixed_done /\
  ~ unmixed [Sembuf 1 0 0; Sembuf 0 1 0] /\ (exists s, semop_resume (as_task 2 mixed_run) = Some (s, Returns 0)) /\
  vals mixed_done 7 = [1; 0] /\ pending mixed_done 7 = [1] /\ semsleeping mixed_done 1 = true /\
  q_status (queues mixed_done 1) = - EINTR /\ ~ must_wait mixed_done 7 1 /\ ~ wakeful mixed_done 7.
Proof.
  assert (P : pending mixed_done 7 = [1]) by (vm_compute; reflexivity).
  assert (Q : q_status (queues mixed_done 1) = - EINTR) by (vm_compute; reflexivity).
  assert (M : ~ must_wait mixed_done 7 1).
  { unfold must_wait. assert (E : outcome mixed_done 7 (queues mixed_done 1) = inl ([0; 0], [])) by (vm_compute; reflexivity). by rewrite E. }
  split; [exact mixed_history|].
  split; [|split; [|split; [vm_compute; reflexivity|split; [exact P|split; [vm_compute; reflexivity|split; [exact Q|split; [exact M|]]]]]]].
  - intros [H|[H|H]]; [discriminate H| |]; apply list.Forall_cons in H as [H1 H]; [|discriminate H1].
    apply list.Forall_cons in H as [H2 _]. discriminate H2.
  - assert (X : snd <$> semop_resume (as_task 2 mixed_run) = Some (Returns 0)) by (vm_compute; reflexivity).
    destruct (semop_resume (as_task 2 mixed_run)) as [[s e]|]; [|discriminate X]. exists s. simpl in X. injection X as ->. reflexivity.
  - intros [(t & T1 & T2 & _)|H].
    + rewrite P in T1. apply list_elem_of_singleton in T1 as ->. rewrite Q in T2. discriminate T2.
    + destruct (H 1) as [H1|H1]; [rewrite P; apply list_elem_of_here|rewrite Q in H1; discriminate H1|exact (M H1)].
Qed.
