(* ===== verification/Buddy.v ===== *)
(** * The buddy allocator of page frames (mm/page_alloc.c)

    A page is its number in [mem_map]; a zone is its index in [zone_table].  A list of
    pages is the list of their numbers from the head on, the bitmap of an order a
    function from bit numbers, of which [map_bits] exist; the lists and the bitmap are
    given for every order.  The pages of a zone that wait for a processor ([cpu_pages];
    there is one processor) are [pcp].  [None] is [BUG()], or an access outside the bitmap
    or outside [free_area]. *)
From stdpp Require Import base list functions.
From S2P Require Import Prelude Pages PidHash Bitmap Sched.

Definition PAGE_AGE_START : Z := 5.
Definition ZONE_SHIFT : Z := 24.
Definition PF_MEMALLOC : Z := 2048.
Definition PG_locked : Z := 0.
Definition PG_referenced : Z := 2.
Definition PG_dirty : Z := 4.
Definition PG_inactive_clean : Z := 5.
Definition PG_active : Z := 6.
Definition PG_inactive_dirty : Z := 7.
Definition PG_reserved : Z := 14.
Definition PG_lru : Z := 17.

Record page := Page {
  pg_flags : Z;
  pg_count : Z;
  pg_mapping : Z;
  pg_buffers : Z;
  pg_pte_chain : Z;
  pg_age : Z
}.
#[export] Instance eta_page : Eta page := fun p =>
  Page (pg_flags p) (pg_count p) (pg_mapping p) (pg_buffers p) (pg_pte_chain p) (pg_age p).

Record zone := Zone {
  nr_pages : Z;
  max_nr_pages : Z;
  pcp : list Z;
  free_pages : Z;
  active_pages : Z;
  inactive_dirty_pages : Z;
  inactive_clean_pages : Z;
  pages_min : Z;
  pages_low : Z;
  pages_high : Z;
  active_list : list Z;
  inactive_dirty_list : list Z;
  inactive_clean_list : list Z;
  free_list : Z -> list Z;
  free_map : Z -> Z -> bool;
  map_bits : Z -> Z;
  zone_start_mapnr : Z;
  zsize : Z;
  pages_plenty : Z;
  zone_start_paddr : Z;
  wait_table_size : Z;
  wait_table_shift : Z
}.
#[export] Instance eta_zone : Eta zone := fun z =>
  Zone (nr_pages z) (max_nr_pages z) (pcp z) (free_pages z) (active_pages z) (inactive_dirty_pages z)
    (inactive_clean_pages z) (pages_min z) (pages_low z) (pages_high z) (active_list z) (inactive_dirty_list z)
    (inactive_clean_list z) (free_list z) (free_map z) (map_bits z) (zone_start_mapnr z) (zsize z)
    (pages_plenty z) (zone_start_paddr z) (wait_table_size z) (wait_table_shift z).

Record mm := Mm {
  mem_map : Z -> page;
  zones : Z -> zone;
  max_mapnr : Z;
  nr_active_pages : Z;
  nr_inactive_dirty_pages : Z;
  nr_inactive_clean_pages : Z;
  mm_flags : Z
}.
#[export] Instance eta_mm : Eta mm := fun s =>
  Mm (mem_map s) (zones s) (max_mapnr s) (nr_active_pages s) (nr_inactive_dirty_pages s) (nr_inactive_clean_pages s)
    (mm_flags s).

Definition set_page (p : Z) (f : page -> page) (s : mm) : mm := s <| mem_map ::= alter f p |>.
Definition set_zone (zi : Z) (f : zone -> zone) (s : mm) : mm := s <| zones ::= alter f zi |>.
Definition page_flag (n p : Z) (s : mm) : bool := Z.testbit (pg_flags (mem_map s p)) n.
Definition clear_flag (n p : Z) : mm -> mm := set_page p (fun x => x <| pg_flags ::= fun f => Z.clearbit f n |>).

(** [page_zone] *)
Definition page_zone (p : Z) (s : mm) : Z := Z.shiftr (pg_flags (mem_map s p)) ZONE_SHIFT.

Definition BAD_RANGE (zi p : Z) (s : mm) : bool :=
  let z := zones s zi in
  (u32 (zone_start_mapnr z + zsize z) <=? u32 p) || (u32 p <? zone_start_mapnr z) || negb (page_zone p s =? zi).

(** ** The least recently used lists (include/linux/mm_inline.h, mm/swap.c) *)

Definition without (p : Z) : list Z -> list Z := filter (fun q => q <> p).

Definition del_page_from_active_list (p : Z) (s : mm) : mm :=
  clear_flag PG_active p (set_zone (page_zone p s) (fun z => z <| active_list ::= without p |> <| active_pages ::= Z.pred |>) s)
    <| nr_active_pages ::= Z.pred |>.
Definition del_page_from_inactive_dirty_list (p : Z) (s : mm) : mm :=
  clear_flag PG_inactive_dirty p
    (set_zone (page_zone p s) (fun z => z <| inactive_dirty_list ::= without p |> <| inactive_dirty_pages ::= Z.pred |>) s)
    <| nr_inactive_dirty_pages ::= Z.pred |>.
Definition del_page_from_inactive_clean_list (p : Z) (s : mm) : mm :=
  clear_flag PG_inactive_clean p
    (set_zone (page_zone p s) (fun z => z <| inactive_clean_list ::= without p |> <| inactive_clean_pages ::= Z.pred |>) s)
    <| nr_inactive_clean_pages ::= Z.pred |>.

Definition lru_cache_del (p : Z) (s : mm) : mm :=
  clear_flag PG_lru p
    (if page_flag PG_active p s then del_page_from_active_list p s
     else if page_flag PG_inactive_dirty p s then del_page_from_inactive_dirty_list p s
     else if page_flag PG_inactive_clean p s then del_page_from_inactive_clean_list p s
     else s).

(** ** Lists and bitmaps of a zone *)

Definition orders : list Z := seqZ 0 MAX_ORDER.

Definition memlist_add_head (zi o p : Z) : mm -> mm := set_zone zi (fun z => z <| free_list ::= alter (cons p) o |>).

(** [list_del] of a page in some list of the zone; [None]: it is in none. *)
Definition memlist_del (zi p : Z) (s : mm) : option mm :=
  let z := zones s zi in
  if bool_decide (p ∈ pcp z) || existsb (fun o => bool_decide (p ∈ free_list z o)) orders
  then Some (set_zone zi (fun z => z <| pcp ::= without p |> <| free_list ::= fun l o => without p (l o) |>) s)
  else None.

(** The old bit, after it was toggled. *)
Definition __test_and_change_bit (zi o nr : Z) (s : mm) : option (mm * bool) :=
  let z := zones s zi in
  if (nr <? 0) || (map_bits z o <=? nr) then None
  else Some (set_zone zi (fun z => z <| free_map ::= alter (alter negb nr) o |>) s, free_map z o nr).
Definition MARK_USED (zi index o : Z) (s : mm) : option mm :=
  fst <$> __test_and_change_bit zi o (Z.shiftr index (1 + o)) s.

(** ** Freeing *)

Definition zone_free_high (z : zone) : Z :=
  s32 (s32 (pages_high z) - s32 (free_pages z + inactive_clean_pages z)).

(** The [while] loop: the order and the index of the block to put on a list. *)
Fixpoint coalesce (fuel : nat) (zi mask o index page_idx : Z) (s : mm) : option (mm * Z * Z) :=
  match fuel with
  | O => None
  | S fuel =>
      if u32 (mask + Z.shiftl 1 (MAX_ORDER - 1)) =? 0 then Some (s, o, page_idx)
      else if MAX_ORDER <=? o then None
      else
        r ← __test_and_change_bit zi o index s;
        let '(s1, bit) := r in
        if negb bit then Some (s1, o, page_idx)
        else
          let base := zone_start_mapnr (zones s1 zi) in
          let buddy1 := base + Z.lxor page_idx (u32 (- mask)) in
          let buddy2 := base + page_idx in
          if BAD_RANGE zi buddy1 s1 || BAD_RANGE zi buddy2 s1 then None
          else
            s2 ← memlist_del zi buddy1 s1;
            let mask := u32 (Z.shiftl mask 1) in
            coalesce fuel zi mask (o + 1) (Z.shiftr index 1) (Z.land page_idx mask) s2
  end.

(** From [zone = page_zone(page)] on. *)
Definition free_block (p order : Z) (s : mm) : option mm :=
  let zi := page_zone p s in
  let z := zones s zi in
  let mask := u32 (Z.shiftl (-1) order) in
  let base := zone_start_mapnr z in
  let page_idx := u32 (p - base) in
  if negb (Z.land page_idx (u32 (Z.lnot mask)) =? 0) then None
  else
    let index := Z.shiftr page_idx (1 + order) in
    if (order =? 0) && (nr_pages z <? max_nr_pages z) && (zone_free_high z <=? 0) then
      Some (set_zone zi (fun z => z <| pcp ::= cons p |> <| nr_pages ::= Z.succ |>) s)
    else
      let s1 := set_zone zi (fun z => z <| free_pages ::= fun n => u32 (n - mask) |>) s in
      r ← coalesce (Z.to_nat MAX_ORDER) zi mask order index page_idx s1;
      let '(s2, o, idx) := r in
      Some (memlist_add_head zi o (base + idx) s2).

(** A page of the swap cache has a mapping, so that test is not made again. *)
Definition __free_pages_ok (p order : Z) (s : mm) : option mm :=
  let s := if page_flag PG_lru p s then lru_cache_del p s else s in
  if page_flag PG_reserved p s then Some s
  else if negb (pg_buffers (mem_map s p) =? 0) || negb (pg_mapping (mem_map s p) =? 0) then None
  else if negb (u32 p <? max_mapnr s) then None
  else if page_flag PG_locked p s || page_flag PG_active p s || page_flag PG_inactive_dirty p s ||
          page_flag PG_inactive_clean p s then None
  else if negb (pg_pte_chain (mem_map s p) =? 0) then None
  else
    free_block p order
      (set_page p (fun x => x <| pg_flags ::= fun f => Z.clearbit (Z.clearbit f PG_referenced) PG_dirty |>
                              <| pg_age := PAGE_AGE_START |>) s).

Definition __free_pages (p order : Z) (s : mm) : option mm :=
  let s := set_page p (fun x => x <| pg_count ::= Z.pred |>) s in
  if pg_count (mem_map s p) =? 0 then __free_pages_ok p order s else Some s.

(** ** Allocating *)

(** The loop with [high] = [low] + [k]. *)
Fixpoint expand (k : nat) (zi p index low : Z) (s : mm) : option (mm * Z) :=
  if BAD_RANGE zi p s then None
  else match k with
  | O => Some (s, p)
  | S k' =>
      let high := low + Z.of_nat k' in
      let size := Z.shiftl 1 high in
      s1 ← MARK_USED zi index high (memlist_add_head zi high p s);
      expand k' zi (p + size) (index + size) low s1
  end.

(** Whether a page is on a list of pages in use; [true] is [BUG()]. *)
Definition DEBUG_LRU_PAGE (p : Z) (s : mm) : bool :=
  page_flag PG_active p s || page_flag PG_inactive_dirty p s || page_flag PG_inactive_clean p s.

Definition set_page_count (p v : Z) : mm -> mm := set_page p (fun x => x <| pg_count := v |>).

(** The search from [curr_order] on, [n] orders below [MAX_ORDER]. *)
Fixpoint rmqueue_from (n : nat) (zi order curr_order : Z) (s : mm) : option (mm * option Z) :=
  match n with
  | O => Some (s, None)
  | S n =>
      let z := zones s zi in
      match free_list z curr_order with
      | p :: _ =>
          if BAD_RANGE zi p s then None
          else
            s1 ← memlist_del zi p s;
            let index := p - zone_start_mapnr z in
            s2 ← (if curr_order =? MAX_ORDER - 1 then Some s1 else MARK_USED zi index curr_order s1);
            let s3 := set_zone zi (fun z => z <| free_pages ::= fun m => u32 (m - Z.shiftl 1 order) |>) s2 in
            r ← expand (Z.to_nat (curr_order - order)) zi p index order s3;
            let '(s4, q) := r in
            let s5 := set_page_count q 1 s4 in
            if DEBUG_LRU_PAGE q s5 then None else Some (s5, Some q)
      | [] => rmqueue_from n zi order (curr_order + 1) s
      end
  end.

Definition rmqueue (zi order : Z) (s : mm) : option (mm * option Z) :=
  let z := zones s zi in
  let threshold := if Z.land (mm_flags s) PF_MEMALLOC =? 0 then max_nr_pages z ÷ 8 else 0 in
  if (order =? 0) && (threshold <? nr_pages z) then
    match pcp z with
    | [] => None
    | p :: l =>
        Some (set_page_count p 1 (set_zone zi (fun z => z <| pcp := l |> <| nr_pages ::= Z.pred |>) s), Some p)
    end
  else if MAX_ORDER <=? order then None
  else rmqueue_from (Z.to_nat (MAX_ORDER - order)) zi order order s.
