(* ===== verification/ZoneInit.v ===== *)
(** * Zones at boot (free_area_init_core and build_zonelists, mm/page_alloc.c)

    The arrays of page structures, bitmaps and wait queues come from the boot-time
    allocator, which clears what it returns.  [first] is [lmem_map - mem_map], 0 for the
    only node of this machine; [ratio] is [zone_balance_ratio], which the option memfrac=
    can change. *)
From stdpp Require Import base list functions.
From S2P Require Import Prelude Pages PidHash Bitmap Sched Buddy.

Definition MAX_NR_ZONES : Z := 3.
Definition ZONE_DMA : Z := 0.
Definition ZONE_NORMAL : Z := 1.
Definition ZONE_HIGHMEM : Z := 2.
Definition GFP_ZONEMASK : Z := 15.
Definition MAX_PER_CPU_PAGES : Z := 512.
Definition BITS_PER_LONG : Z := 32.
Definition PAGES_PER_WAITQUEUE : Z := 256.

Definition zone_balance_ratio (j : Z) : Z := 128.
Definition zone_balance_min (j : Z) : Z := 20.
Definition zone_balance_max (j : Z) : Z := 255.
Definition zone_extrafree_ratio (j : Z) : Z := if j =? 0 then 128 else if j =? 1 then 512 else 0.
Definition zone_extrafree_max (j : Z) : Z := if j =? 2 then 0 else 1024.

Record pgdat := Pgdat {
  node_size : Z;
  node_start_paddr : Z;
  node_start_mapnr : Z;
  nr_zones : Z;
  node_zonelists : Z -> list Z
}.
#[export] Instance eta_pgdat : Eta pgdat := fun d =>
  Pgdat (node_size d) (node_start_paddr d) (node_start_mapnr d) (nr_zones d) (node_zonelists d).

(** The loop that doubles [size]. *)
Fixpoint table_size (fuel : nat) (size pages : Z) : Z :=
  match fuel with
  | O => size
  | S fuel => if size <? pages then table_size fuel (Z.shiftl size 1) pages else size
  end.
Definition wait_table_size_of (pages : Z) : Z := Z.min (table_size 32 1 (pages / PAGES_PER_WAITQUEUE)) 4096.
(** [ffz(~size)], the lowest bit of [size]. *)
Definition wait_table_bits (size : Z) : Z := __ffs size.

Definition LONG_ALIGN (x : Z) : Z := Z.land (x + 3) (Z.lnot 3).
(** Bytes of the bitmap of the order. *)
Definition bitmap_size (size o : Z) : Z := LONG_ALIGN (Z.shiftr (size - 1) (o + 4) + 1) * 2.

Definition per_cpu_max (realsize : Z) : Z :=
  let m := realsize / 1 / 128 in
  if MAX_PER_CPU_PAGES <? m then MAX_PER_CPU_PAGES else if m =? 0 then 1 else m.

(** The fields that are set for every zone. *)
Definition empty_zone (size realsize : Z) (z : zone) : zone :=
  z <| zsize := size |> <| pcp := [] |> <| max_nr_pages := per_cpu_max realsize |> <| free_pages := 0 |>
    <| inactive_clean_pages := 0 |> <| inactive_dirty_pages := 0 |>
    <| active_list := [] |> <| inactive_dirty_list := [] |> <| inactive_clean_list := [] |>.

Definition watermarks (ratio : Z -> Z) (j realsize realtotalpages : Z) (z : zone) : zone :=
  let extrafree := if zone_extrafree_ratio j =? 0 then 0
                   else Z.min (realtotalpages / zone_extrafree_ratio j) (zone_extrafree_max j) in
  let extrafree := if extrafree <? zone_balance_max j then 0 else extrafree in
  let mask := realsize / ratio j in
  let mask := if mask <? zone_balance_min j then zone_balance_min j else mask in
  z <| pages_min := extrafree + Z.min mask (zone_balance_max j) |> <| pages_low := extrafree + mask * 2 |>
    <| pages_high := extrafree + mask * 3 |> <| pages_plenty := extrafree + mask * 6 |>.

(** The lists and bitmaps of the orders; the last has no bitmap. *)
Definition init_areas (size : Z) (z : zone) : zone :=
  z <| free_list ::= fun l o => if (0 <=? o) && (o <? MAX_ORDER) then [] else l o |>
    <| free_map ::= fun f o => if (0 <=? o) && (o <? MAX_ORDER - 1) then fun _ => false else f o |>
    <| map_bits ::= fun n o => if (0 <=? o) && (o <? MAX_ORDER - 1) then 8 * bitmap_size size o
                               else if o =? MAX_ORDER - 1 then 0 else n o |>.

Definition set_page_zone (zone_num f : Z) : Z := Z.lor (Z.land f (Z.ones ZONE_SHIFT)) (Z.shiftl zone_num ZONE_SHIFT).
Definition init_page (zone_num : Z) (x : page) : page :=
  x <| pg_flags ::= fun f => Z.setbit (set_page_zone zone_num f) PG_reserved |> <| pg_count := 0 |>.

(** One turn of the loop over the zones, with the offset and the address of the zone. *)
Definition init_zone (ratio zones_size zholes_size : Z -> Z) (nid realtotalpages j : Z) (st : mm * Z * Z * Z) : mm * Z * Z * Z :=
  let '(s, offset, paddr, nr) := st in
  let size := zones_size j in
  let realsize := size - zholes_size j in
  let s1 := set_zone j (empty_zone size realsize) s in
  if size =? 0 then (s1, offset, paddr, nr)
  else
    let wsize := wait_table_size_of size in
    let setup z := init_areas size ((watermarks ratio j realsize realtotalpages z)
      <| wait_table_size := wsize |> <| wait_table_shift := BITS_PER_LONG - wait_table_bits wsize |>
      <| zone_start_mapnr := offset |> <| zone_start_paddr := paddr |>) in
    let s2 := set_zone j setup s1 in
    (s2 <| mem_map ::= fun m p => if (offset <=? p) && (p <? offset + size) then init_page (nid * MAX_NR_ZONES + j) (m p) else m p |>,
     offset + size, paddr + size * PAGE_SIZE, j + 1).

(** The zones of the list for the mask [i], in the order of preference. *)
Definition zonelist (s : mm) (i : Z) : list Z :=
  let k := if negb (Z.land i __GFP_DMA =? 0) then ZONE_DMA
           else if negb (Z.land i __GFP_HIGHMEM =? 0) then ZONE_HIGHMEM else ZONE_NORMAL in
  filter (fun j => j <= k /\ zsize (zones s j) <> 0) [ZONE_HIGHMEM; ZONE_NORMAL; ZONE_DMA].
Definition build_zonelists (s : mm) (d : pgdat) : pgdat := d <| node_zonelists := zonelist s |>.

Definition free_area_init_core (ratio : Z -> Z) (nid first zone_start_paddr : Z) (zones_size zholes_size : Z -> Z) (s : mm) (d : pgdat)
  : option (mm * pgdat) :=
  if negb (Z.land zone_start_paddr (PAGE_SIZE - 1) =? 0) then None
  else
    let totalpages := zones_size 0 + zones_size 1 + zones_size 2 in
    let realtotalpages := totalpages - (zholes_size 0 + zholes_size 1 + zholes_size 2) in
    let '(s1, _, _, nr) := fold_left (fun st j => init_zone ratio zones_size zholes_size nid realtotalpages j st)
                             [ZONE_DMA; ZONE_NORMAL; ZONE_HIGHMEM] (s, first, zone_start_paddr, 0) in
    Some (s1, build_zonelists s1 (d <| node_size := totalpages |> <| node_start_paddr := zone_start_paddr |>
                                    <| node_start_mapnr := first |> <| nr_zones := nr |>)).
Definition free_area_init (ratio zones_size : Z -> Z) (s : mm) (d : pgdat) : option (mm * pgdat) :=
  free_area_init_core ratio 0 0 0 zones_size (fun _ => 0) s d.

(** [nr_free_pages] *)
Definition nr_free_pages (s : mm) : Z := u32 (free_pages (zones s 0) + free_pages (zones s 1) + free_pages (zones s 2)).
