(* ===== verification/BuddyInv.v ===== *)
(** * The free blocks of a zone: the invariant

    Pages are counted from the start of the zone here.  The block [b] of order [o] is made
    of the pages [i] with [i / 2 ^ o = b]; its buddy is the block that differs from [b] in
    the last bit.  [zone_ok d z] relates the lists and the bitmaps; the counter of free
    pages is [d] ahead of the lists while a block is taken out or put in. *)
From stdpp Require Import base list functions.
From S2P Require Import Prelude Pages PidHash Bitmap Sched Buddy.

Definition blk (z : zone) (o b : Z) : Prop := zone_start_mapnr z + b * 2 ^ o ∈ free_list z o.
(** The page [i] lies in a free block of order [o]; it is free. *)
Definition cov (z : zone) (o i : Z) : Prop := blk z o (i / 2 ^ o).
Definition free_page (z : zone) (i : Z) : Prop := exists o, ord o /\ cov z o i.
Definition buddy (b : Z) : Z := Z.lxor b 1.

(** Pages on the lists. *)
Definition fsum (z : zone) : Z := foldr (fun o n => 2 ^ o * Z.of_nat (length (free_list z o)) + n) 0 orders.

#[export] Instance blk_dec z o b : Decision (blk z o b).
Proof. unfold blk. apply _. Defined.

Record zone_ok (d : Z) (z : zone) : Prop := ZoneOk {
  zk_start : 0 <= zone_start_mapnr z;
  zk_size : 0 <= zsize z /\ zone_start_mapnr z + zsize z < 2 ^ 31;
  zk_block : forall o p, ord o -> p ∈ free_list z o ->
    exists b, p = zone_start_mapnr z + b * 2 ^ o /\ 0 <= b /\ (b + 1) * 2 ^ o <= zsize z;
  zk_nodup : forall o, ord o -> NoDup (free_list z o);
  zk_once : forall o o' i, ord o -> ord o' -> cov z o i -> cov z o' i -> o = o';
  zk_bits : forall o k, ord o -> o < MAX_ORDER - 1 -> 0 <= k ->
    free_map z o k = bool_decide (blk z o (2 * k)) || bool_decide (blk z o (2 * k + 1));
  zk_merged : forall o k, ord o -> o < MAX_ORDER - 1 -> 0 <= k -> blk z o (2 * k) -> blk z o (2 * k + 1) -> False;
  zk_map : forall o k, ord o -> o < MAX_ORDER - 1 -> 0 <= k -> k * 2 ^ (o + 1) < zsize z -> k < map_bits z o;
  zk_pcp : forall p, p ∈ pcp z -> zone_start_mapnr z <= p < zone_start_mapnr z + zsize z /\
    ~ free_page z (p - zone_start_mapnr z);
  zk_pcp_nodup : NoDup (pcp z);
  zk_nr : nr_pages z = Z.of_nat (length (pcp z)) /\ 0 <= max_nr_pages z;
  zk_free : free_pages z = u32 (fsum z + d)
}.

(** A block none of whose pages is free, or waits for the processor. *)
Record hole (z : zone) (o b : Z) : Prop := Hole {
  h_ord : ord o;
  h_range : 0 <= b /\ (b + 1) * 2 ^ o <= zsize z;
  h_used : forall i, i / 2 ^ o = b -> ~ free_page z i;
  h_pcp : forall p, p ∈ pcp z -> (p - zone_start_mapnr z) / 2 ^ o <> b
}.

(** ** Blocks *)

Lemma pow_pos o : 0 <= o -> 0 < 2 ^ o.
Proof. intros. by apply Z.pow_pos_nonneg. Qed.

Lemma ord_cases o : ord o -> o = 0 \/ o = 1 \/ o = 2 \/ o = 3 \/ o = 4 \/ o = 5 \/ o = 6 \/ o = 7 \/ o = 8 \/ o = 9.
Proof. unfold ord, MAX_ORDER. lia. Qed.

Ltac each_order o := let H := fresh in pose proof (ord_cases o ltac:(assumption)) as H;
  repeat (destruct H as [H|H]); subst o.

Lemma first_page o b : 0 <= o -> b * 2 ^ o / 2 ^ o = b.
Proof. intros. pose proof (pow_pos o). apply Z.div_mul. lia. Qed.

Lemma cov_first z o b : ord o -> cov z o (b * 2 ^ o) <-> blk z o b.
Proof. intros [? _]. unfold cov. by rewrite first_page. Qed.

Lemma halves o i b : 0 <= o -> i / 2 ^ (o + 1) = b <-> i / 2 ^ o = 2 * b \/ i / 2 ^ o = 2 * b + 1.
Proof.
  intros Ho. pose proof (pow_pos o Ho). rewrite Z.pow_add_r by lia. rewrite <- Z.div_div by lia. change (2 ^ 1) with 2.
  set (x := i / 2 ^ o). pose proof (Z.div_mod x 2 ltac:(lia)). pose proof (Z.mod_pos_bound x 2 ltac:(lia)). lia.
Qed.

Lemma buddy_cases b : 0 <= b -> exists k, 0 <= k /\ k = b / 2 /\ (b = 2 * k /\ buddy b = 2 * k + 1 \/ b = 2 * k + 1 /\ buddy b = 2 * k).
Proof.
  intros Hb. exists (b / 2). pose proof (Z.div_mod b 2 ltac:(lia)) as E. pose proof (Z.mod_pos_bound b 2 ltac:(lia)).
  assert (0 <= b / 2) by (apply Z.div_pos; lia). split; [done|]. split; [done|]. revert E. generalize dependent (b / 2). intros k ? ?.
  assert (b = 2 * k \/ b = 2 * k + 1) as [-> | ->] by lia; [left|right]; (split; [done|]).
  - unfold buddy. destruct k; [done|done|lia].
  - unfold buddy. destruct k; [done|done|lia].
Qed.

Lemma blk_range d z o b : zone_ok d z -> ord o -> blk z o b -> 0 <= b /\ (b + 1) * 2 ^ o <= zsize z.
Proof.
  intros K Ho Hb. destruct (zk_block _ _ K o _ Ho Hb) as (b' & E & H). pose proof (pow_pos o (proj1 Ho)).
  assert (b = b') as -> by nia. done.
Qed.

Lemma cov_blk d z o b i : zone_ok d z -> ord o -> blk z o b -> i / 2 ^ o = b -> free_page z i.
Proof. intros K Ho Hb Hi. exists o. split; [done|]. unfold cov. by rewrite Hi. Qed.

(** A page number stands for one free block. *)
Lemma blk_page d z o o' b b' : zone_ok d z -> ord o -> ord o' -> blk z o b ->
  zone_start_mapnr z + b' * 2 ^ o' = zone_start_mapnr z + b * 2 ^ o -> blk z o' b' -> o' = o /\ b' = b.
Proof.
  intros K Ho Ho' Hb E Hb'. assert (b' * 2 ^ o' = b * 2 ^ o) as E' by lia.
  assert (o' = o) as ->.
  { apply (zk_once _ _ K o' o (b' * 2 ^ o')); [done|done|by apply cov_first|]. rewrite E'. by apply cov_first. }
  split; [done|]. pose proof (pow_pos o (proj1 Ho)). nia.
Qed.

(** A free block lies within a block or has no page of it. *)
Lemma hole_not_blk z o b : hole z o b -> ~ blk z o b.
Proof.
  intros [Ho _ Hu _] Hb. apply (Hu (b * 2 ^ o)); [apply first_page, Ho|]. exists o. split; [done|]. by apply cov_first.
Qed.

(** ** Sums *)

Lemma fsum_change z z' o n : ord o -> (forall o', ord o' -> o' <> o -> length (free_list z' o') = length (free_list z o')) ->
  Z.of_nat (length (free_list z' o)) = Z.of_nat (length (free_list z o)) + n -> fsum z' = fsum z + 2 ^ o * n.
Proof.
  intros Ho H1 H2. unfold fsum. assert (E : orders = [0; 1; 2; 3; 4; 5; 6; 7; 8; 9]) by reflexivity. rewrite E. cbn [foldr].
  assert (R : forall o', ord o' -> Z.of_nat (length (free_list z' o')) =
    if decide (o' = o) then Z.of_nat (length (free_list z o)) + n else Z.of_nat (length (free_list z o'))).
  { intros o' Ho'. destruct (decide (o' = o)) as [->|]; [done|]. by rewrite H1. }
  rewrite !R by (unfold ord, MAX_ORDER; lia). clear E R H1 H2. each_order o;
    repeat match goal with |- context [decide (?a = ?b)] => destruct (decide (a = b)); [try discriminate|try lia] end; lia.
Qed.

Lemma without_length p l : NoDup l -> p ∈ l -> Z.of_nat (length (without p l)) = Z.of_nat (length l) - 1.
Proof.
  intros Hn Hp. unfold without. induction l as [|q l IH]; [by apply not_elem_of_nil in Hp|]. apply list.NoDup_cons in Hn as [Hq Hn].
  destruct (decide (q = p)) as [->|Hne].
  - rewrite filter_cons_False by naive_solver. rewrite filter_out_not_in by done. simpl. lia.
  - rewrite filter_cons_True by done. apply elem_of_cons in Hp as [->|Hp]; [done|]. simpl. specialize (IH Hn Hp). lia.
Qed.

(** ** Taking a block out, putting a block in *)

Definition zdel (p : Z) (z : zone) : zone := z <| pcp ::= without p |> <| free_list ::= fun l o => without p (l o) |>.
Definition zadd (o p : Z) (z : zone) : zone := z <| free_list ::= alter (cons p) o |>.
Definition zflip (o k : Z) (z : zone) : zone := z <| free_map ::= alter (alter negb k) o |>.
(** The bit of the pair of [b], where the order has a bitmap. *)
Definition zmark (o b : Z) (z : zone) : zone := if o <? MAX_ORDER - 1 then zflip o (b / 2) z else z.

Lemma flip_at (f : Z -> Z -> bool) (o k o' k' : Z) :
  alter (alter negb k) o f o' k' = if decide (o' = o /\ k' = k) then negb (f o k) else f o' k'.
Proof.
  destruct (decide (o' = o)) as [->|].
  - rewrite fn_lookup_alter. destruct (decide (k' = k)) as [->|].
    + rewrite fn_lookup_alter, decide_True by done. done.
    + rewrite fn_lookup_alter_ne, decide_False by naive_solver. done.
  - rewrite fn_lookup_alter_ne, decide_False by naive_solver. done.
Qed.

(** One block changes, and its bit with it. *)
Lemma zone_change d d' z z' o b : zone_ok d z -> ord o -> 0 <= b ->
  zone_start_mapnr z' = zone_start_mapnr z -> zsize z' = zsize z -> map_bits z' = map_bits z -> nr_pages z' = nr_pages z ->
  max_nr_pages z' = max_nr_pages z ->
  pcp z' = pcp z -> free_map z' = free_map (zmark o b z) -> free_pages z' = free_pages z ->
  (forall o' p, ord o' -> p ∈ free_list z' o' -> exists b', p = zone_start_mapnr z + b' * 2 ^ o' /\ 0 <= b' /\ (b' + 1) * 2 ^ o' <= zsize z) ->
  (forall o', ord o' -> NoDup (free_list z' o')) ->
  (forall o' b', ord o' -> o' <> o \/ b' <> b -> blk z' o' b' <-> blk z o' b') ->
  (blk z' o b <-> ~ blk z o b) ->
  (o < MAX_ORDER - 1 -> ~ blk z o (buddy b)) ->
  (forall o' i, ord o' -> o' <> o -> blk z' o b -> i / 2 ^ o = b -> ~ cov z o' i) ->
  (forall p, p ∈ pcp z -> blk z' o b -> (p - zone_start_mapnr z) / 2 ^ o <> b) ->
  fsum z' + d' = fsum z + d -> zone_ok d' z'.
Proof.
  intros K Ho Hb E1 E2 E3 E4 E8 E5 E6 E7 HL HN HB Hb' Hm Hc Hp HS.
  assert (C : forall o' i, ord o' -> o' <> o \/ i / 2 ^ o' <> b -> cov z' o' i <-> cov z o' i) by (intros; by apply HB).
  assert (HD : forall o' b', ord o' -> o' <> o \/ b' <> b -> bool_decide (blk z' o' b') = bool_decide (blk z o' b'))
    by (intros; by apply bool_decide_ext, HB).
  assert (Hx : bool_decide (blk z' o b) = negb (bool_decide (blk z o b)))
    by (rewrite <- bool_decide_not; by apply bool_decide_ext).
  split; rewrite ?E1, ?E2, ?E3, ?E4, ?E5, ?E8; try apply K; auto.
  - intros o1 o2 i H1 H2 C1 C2. destruct (decide (o1 = o /\ i / 2 ^ o1 = b)) as [[-> X1]|X1], (decide (o2 = o /\ i / 2 ^ o2 = b)) as [[-> X2]|X2]; try done.
    + destruct (decide (o2 = o)) as [|Hne]; [done|]. rewrite C in C2 by (auto; lia). exfalso.
      apply (Hc o2 i); auto. unfold cov in C1. by rewrite X1 in C1.
    + destruct (decide (o1 = o)) as [|Hne]; [done|]. rewrite C in C1 by (auto; lia). exfalso.
      apply (Hc o1 i); auto. unfold cov in C2. by rewrite X2 in C2.
    + rewrite C in C1 by (auto; lia). rewrite C in C2 by (auto; lia). by apply (zk_once _ _ K o1 o2 i).
  - intros o' k Ho' Hlt Hk. rewrite E6. unfold zmark. destruct (Z.ltb_spec o (MAX_ORDER - 1)) as [Hl|Hl].
    2:{ assert (o' <> o) by lia. rewrite !HD by auto. by apply (zk_bits _ _ K). }
    simpl. rewrite flip_at. destruct (buddy_cases b Hb) as (j & Hj & Ej & Hcase). rewrite <- Ej.
    destruct (decide (o' = o /\ k = j)) as [[-> ->]|Hne].
    + rewrite (zk_bits _ _ K) by done. specialize (Hm Hl). apply (bool_decide_eq_false_2 _) in Hm.
      destruct Hcase as [[-> Eb]|[-> Eb]]; rewrite Eb in Hm.
      * rewrite Hx, HD, Hm, !orb_false_r by (auto; right; lia). done.
      * rewrite Hx, HD, Hm, !orb_false_l by (auto; right; lia). done.
    + assert (o' <> o \/ 2 * k <> b /\ 2 * k + 1 <> b).
      { destruct (decide (o' = o)) as [->|]; [right; assert (k <> j) by naive_solver; lia|by left]. }
      rewrite !HD by (try done; lia). by apply (zk_bits _ _ K).
  - intros o' k Ho' Hlt Hk B1 B2. destruct (buddy_cases b Hb) as (j & Hj & Ej & Hcase).
    destruct (decide (o' = o /\ k = j)) as [[-> ->]|Hne].
    + specialize (Hm Hlt). destruct Hcase as [[-> Eb]|[-> Eb]]; rewrite Eb in Hm; apply Hm;
        [apply (HB o (2 * j + 1) Ho ltac:(right; lia))|apply (HB o (2 * j) Ho ltac:(right; lia))]; done.
    + assert (o' <> o \/ 2 * k <> b /\ 2 * k + 1 <> b).
      { destruct (decide (o' = o)) as [->|]; [right; assert (k <> j) by naive_solver; lia|by left]. }
      apply HB in B1; [|done|lia]. apply HB in B2; [|done|lia]. by apply (zk_merged _ _ K o' k).
  - intros p Hin. destruct (zk_pcp _ _ K p Hin) as [R N]. split; [done|]. intros (o' & Ho' & Hc').
    destruct (decide (o' = o /\ (p - zone_start_mapnr z) / 2 ^ o' = b)) as [[-> X]|X].
    + apply (Hp p Hin); [|done]. unfold cov in Hc'. by rewrite X in Hc'.
    + rewrite C in Hc' by (auto; lia). apply N. by exists o'.
  - rewrite E7, (zk_free _ _ K). unfold u32. f_equal. lia.
Qed.

Lemma elem_without p q l : q ∈ without p l <-> q ∈ l /\ q <> p.
Proof. unfold without. rewrite list_elem_of_filter. tauto. Qed.

Lemma not_merged d z o b : zone_ok d z -> ord o -> o < MAX_ORDER - 1 -> blk z o b -> ~ blk z o (buddy b).
Proof.
  intros K Ho Hl Hb Hb'. destruct (blk_range _ _ _ _ K Ho Hb) as [Hpos _].
  destruct (buddy_cases b Hpos) as (k & Hk & _ & [[-> E]|[-> E]]); rewrite E in Hb'; by apply (zk_merged _ _ K o k).
Qed.

(** A free block is taken off its list, and its bit changed. *)
Lemma take_ok d z o b : zone_ok d z -> ord o -> blk z o b ->
  let z' := zdel (zone_start_mapnr z + b * 2 ^ o) (zmark o b z) in
  zone_ok (d + 2 ^ o) z' /\ hole z' o b /\ (forall i, free_page z' i <-> free_page z i /\ i / 2 ^ o <> b) /\ pcp z' = pcp z.
Proof.
  intros K Ho Hb. cbv zeta. set (p := zone_start_mapnr z + b * 2 ^ o). set (z' := zdel p (zmark o b z)).
  destruct (blk_range _ _ _ _ K Ho Hb) as [Hpos Hend]. pose proof (pow_pos o (proj1 Ho)) as Hpow.
  assert (F : free_list z' = fun o' => without p (free_list z o')) by (unfold z', zdel, zmark; by destruct (_ <? _)).
  assert (Hpcp : pcp z' = pcp z).
  { assert (E : pcp z' = without p (pcp z)) by (unfold z', zdel, zmark; by destruct (_ <? _)). rewrite E.
    apply filter_out_not_in. intros Hin. apply (proj2 (zk_pcp _ _ K p Hin)). replace (p - zone_start_mapnr z) with (b * 2 ^ o) by lia.
    exists o. split; [done|]. by apply cov_first. }
  assert (Same : zone_start_mapnr z' = zone_start_mapnr z /\ zsize z' = zsize z /\ map_bits z' = map_bits z /\ nr_pages z' = nr_pages z /\
    max_nr_pages z' = max_nr_pages z /\ free_map z' = free_map (zmark o b z) /\ free_pages z' = free_pages z) by (unfold z', zdel, zmark; by destruct (_ <? _)).
  destruct Same as (E1 & E2 & E3 & E4 & E8 & E6 & E7). clearbody z'.
  assert (B : forall o' b', ord o' -> blk z' o' b' <-> blk z o' b' /\ ~ (o' = o /\ b' = b)).
  { intros o' b' Ho'. unfold blk. rewrite E1, F, elem_without. fold (blk z o' b'). split; (intros [B1 B2]; split; [done|]).
    - intros [-> ->]. by apply B2.
    - intros E. apply B2. by apply (blk_page d z o o' b b'). }
  assert (P : forall i, free_page z' i <-> free_page z i /\ i / 2 ^ o <> b).
  { intros i. split.
    - intros (o' & Ho' & [C1 C2]%B); [|done]. split; [by exists o'|]. intros Hi. apply C2.
      assert (o' = o) as -> by (apply (zk_once _ _ K o' o i); [done..|unfold cov; by rewrite Hi]). done.
    - intros [(o' & Ho' & Hc) Hi]. exists o'. split; [done|]. apply B; [done|]. split; [done|]. intros [-> E]. done. }
  split; [|split; [|split; [exact P|done]]].
  - apply (zone_change d (d + 2 ^ o) z z' o b); try done.
    + intros o' q Ho'. rewrite F. intros [Hq _]%elem_without. by apply (zk_block _ _ K).
    + intros o' Ho'. rewrite F. apply list.NoDup_filter, (zk_nodup _ _ K o' Ho').
    + intros o' b' Ho' Hne. rewrite B by done. split; [tauto|]. intros. split; [done|]. lia.
    + rewrite B by done. tauto.
    + intros Hl. by apply (not_merged d).
    + intros o' i _ _ Hx. apply B in Hx; [tauto|done].
    + intros q _ Hx. apply B in Hx; [tauto|done].
    + rewrite (fsum_change z z' o (-1) Ho); [lia| |].
      * intros o' Ho' Hne. rewrite F. unfold without. rewrite filter_out_not_in; [done|]. intros Hin.
        destruct (zk_block _ _ K o' p Ho' Hin) as (b' & E & _). apply Hne. eapply (blk_page d z o o' b b'); try done.
        unfold blk. by rewrite <- E.
      * rewrite F, without_length; [lia|by apply (zk_nodup _ _ K)|done].
  - split; [done|by rewrite E2| |].
    + intros i Hi Hf. by apply P in Hf as [_ ?].
    + intros q. rewrite Hpcp, E1. intros Hq Hi. apply (proj2 (zk_pcp _ _ K q Hq)). exists o. split; [done|]. unfold cov. by rewrite Hi.
Qed.

(** A block is put on the list of its order, and its bit changed. *)
Lemma put_ok d z o b : zone_ok d z -> hole z o b -> (o < MAX_ORDER - 1 -> ~ blk z o (buddy b)) ->
  let z' := zadd o (zone_start_mapnr z + b * 2 ^ o) (zmark o b z) in
  zone_ok (d - 2 ^ o) z' /\ (forall i, free_page z' i <-> free_page z i \/ i / 2 ^ o = b) /\ pcp z' = pcp z.
Proof.
  intros K Hh Hm. cbv zeta. set (p := zone_start_mapnr z + b * 2 ^ o). set (z' := zadd o p (zmark o b z)).
  pose proof (hole_not_blk z o b Hh) as Hnb. destruct Hh as [Ho [Hpos Hend] Hu Hp]. pose proof (pow_pos o (proj1 Ho)) as Hpow.
  assert (F : free_list z' = alter (cons p) o (free_list z)) by (unfold z', zadd, zmark; by destruct (_ <? _)).
  assert (Same : zone_start_mapnr z' = zone_start_mapnr z /\ zsize z' = zsize z /\ map_bits z' = map_bits z /\ nr_pages z' = nr_pages z /\
    max_nr_pages z' = max_nr_pages z /\ free_map z' = free_map (zmark o b z) /\ free_pages z' = free_pages z /\ pcp z' = pcp z) by (unfold z', zadd, zmark; by destruct (_ <? _)).
  destruct Same as (E1 & E2 & E3 & E4 & E8 & E6 & E7 & E5). clearbody z'.
  assert (L : forall o' q, q ∈ free_list z' o' <-> q ∈ free_list z o' \/ o' = o /\ q = p).
  { intros o' q. rewrite F. destruct (decide (o' = o)) as [->|]; [rewrite fn_lookup_alter, elem_of_cons; tauto|].
    rewrite fn_lookup_alter_ne by done. tauto. }
  assert (B : forall o' b', ord o' -> blk z' o' b' <-> blk z o' b' \/ o' = o /\ b' = b).
  { intros o' b' Ho'. unfold blk. rewrite E1, L. split; (intros [?|[-> E]]; [by left|right; split; [done|]]); [|by rewrite E].
    unfold p in E. nia. }
  split; [|split; [|done]].
  - apply (zone_change d (d - 2 ^ o) z z' o b); try done.
    + intros o' q Ho' [Hq|[-> ->]]%L; [by apply (zk_block _ _ K)|]. by exists b.
    + intros o' Ho'. rewrite F. destruct (decide (o' = o)) as [->|]; [|rewrite fn_lookup_alter_ne by done; by apply (zk_nodup _ _ K)].
      rewrite fn_lookup_alter. apply list.NoDup_cons. split; [done|by apply (zk_nodup _ _ K)].
    + intros o' b' Ho' Hne. rewrite B by done. split; [|by left]. intros [?|[? ?]]; [done|lia].
    + rewrite B by done. tauto.
    + intros o' i Ho' _ _ Hi Hc. apply (Hu i Hi). by exists o'.
    + intros q Hq _. by apply Hp.
    + rewrite (fsum_change z z' o 1 Ho); [lia| |].
      * intros o' Ho' Hne. by rewrite F, fn_lookup_alter_ne.
      * rewrite F, fn_lookup_alter. simpl. lia.
  - intros i. split.
    + intros (o' & Ho' & [Hc|[-> Hi]]%B); [|by right|done]. left. by exists o'.
    + intros [(o' & Ho' & Hc)|Hi]; [exists o'|exists o]; (split; [done|]; apply B; [done|]); [by left|by right].
Qed.

(** A hole and its free buddy make a hole of the next order. *)
Lemma hole_up d z o b : zone_ok d z -> hole z o b -> o < MAX_ORDER - 1 -> blk z o (buddy b) ->
  let z' := zdel (zone_start_mapnr z + buddy b * 2 ^ o) (zmark o b z) in
  zone_ok (d + 2 ^ o) z' /\ hole z' (o + 1) (b / 2) /\ (forall i, free_page z' i <-> free_page z i /\ i / 2 ^ o <> buddy b) /\ pcp z' = pcp z.
Proof.
  intros K Hh Hl Hb. cbv zeta. destruct Hh as [Ho [Hpos Hend] Hu Hp]. destruct (buddy_cases b Hpos) as (k & Hk & Ek & Hcase).
  assert (Eb : buddy b / 2 = b / 2).
  { rewrite <- Ek. destruct Hcase as [[_ ->]|[_ ->]]; [|by rewrite Z.mul_comm, Z.div_mul].
    rewrite Z.mul_comm, Z.div_add_l by lia. change (1 / 2) with 0. lia. }
  assert (Em : zmark o b z = zmark o (buddy b) z) by (unfold zmark; by rewrite Eb). rewrite Em.
  destruct (take_ok d z o (buddy b) K Ho Hb) as (K' & H' & P & Q). split; [done|]. split; [|done].
  destruct (blk_range _ _ _ _ K Ho Hb) as [_ Hend']. pose proof (pow_pos o (proj1 Ho)).
  assert (Hk2 : forall i, i / 2 ^ (o + 1) = b / 2 <-> i / 2 ^ o = b \/ i / 2 ^ o = buddy b).
  { intros i. rewrite halves by apply Ho. rewrite <- Ek. destruct Hcase as [[-> ->]|[-> ->]]; tauto. }
  split.
  - unfold ord, MAX_ORDER in *. lia.
  - rewrite <- Ek. split; [done|]. rewrite Z.pow_add_r by (unfold ord in Ho; lia). change (2 ^ 1) with 2.
    assert (E : zsize (zdel (zone_start_mapnr z + buddy b * 2 ^ o) (zmark o (buddy b) z)) = zsize z) by (unfold zdel, zmark; by destruct (_ <? _)).
    rewrite E. destruct Hcase as [[-> E']|[-> E']]; rewrite E' in Hend'; nia.
  - intros i [Hi|Hi]%Hk2 Hf; apply P in Hf as [Hf ?]; [by apply (Hu i)|done].
  - intros q Hq. rewrite Q in Hq. intros [Hi|Hi]%Hk2.
    + apply (Hp q Hq). unfold zdel, zmark in Hi. by destruct (_ <? _).
    + destruct H' as [_ _ _ H']. apply (H' q); [by rewrite Q|done].
Qed.

(** The lower half of a hole is put on its list; the upper half stays a hole. *)
Lemma hole_down d z o b : zone_ok d z -> ord o -> hole z (o + 1) b ->
  let z' := zadd o (zone_start_mapnr z + 2 * b * 2 ^ o) (zmark o (2 * b) z) in
  zone_ok (d - 2 ^ o) z' /\ hole z' o (2 * b + 1) /\ (forall i, free_page z' i <-> free_page z i \/ i / 2 ^ o = 2 * b) /\ pcp z' = pcp z.
Proof.
  intros K Ho [Ho1 [Hpos Hend] Hu Hp]. cbv zeta. pose proof (pow_pos o (proj1 Ho)).
  rewrite Z.pow_add_r in Hend by (unfold ord in *; lia). change (2 ^ 1) with 2 in Hend.
  assert (Hl : hole z o (2 * b)).
  { split; [done|split; [lia|nia]|intros i Hi; apply (Hu i); apply halves; [apply Ho|auto]|].
    intros p Hin Hi. apply (Hp p Hin). apply halves; [apply Ho|auto]. }
  assert (Hr : hole z o (2 * b + 1)).
  { split; [done|split; [lia|nia]|intros i Hi; apply (Hu i); apply halves; [apply Ho|auto]|].
    intros p Hin Hi. apply (Hp p Hin). apply halves; [apply Ho|auto]. }
  destruct (put_ok d z o (2 * b) K Hl) as (K' & P & Q).
  { intros _. destruct (buddy_cases (2 * b) ltac:(lia)) as (k & _ & _ & [[E ->]|[E _]]); [|lia].
    assert (k = b) as -> by lia. by apply hole_not_blk. }
  split; [done|]. split; [|done]. destruct Hr as [_ Hr1 Hr2 Hr3].
  set (z' := zadd _ _ _) in *. assert (Same : zone_start_mapnr z' = zone_start_mapnr z /\ zsize z' = zsize z)
    by (unfold z', zadd, zmark; by destruct (_ <? _)). destruct Same as [E1 E2]. clearbody z'. split; [done|by rewrite E2| |].
  - intros i Hi [Hf|Hf]%P; [by apply (Hr2 i)|lia].
  - intros p. rewrite Q, E1. apply Hr3.
Qed.

(** ** Masks *)

Lemma mask_last o : ord o -> (u32 (u32 (- 2 ^ o) + Z.shiftl 1 (MAX_ORDER - 1)) =? 0) = (o =? MAX_ORDER - 1).
Proof. intros Ho. by each_order o. Qed.
Lemma mask_neg o : ord o -> u32 (- u32 (- 2 ^ o)) = 2 ^ o.
Proof. intros Ho. by each_order o. Qed.
Lemma mask_up o : ord o -> u32 (Z.shiftl (u32 (- 2 ^ o)) 1) = u32 (- 2 ^ (o + 1)).
Proof. intros Ho. by each_order o. Qed.
Lemma mask_first o : ord o -> u32 (Z.shiftl (-1) o) = u32 (- 2 ^ o).
Proof. intros Ho. by each_order o. Qed.
Lemma mask_not o : ord o -> u32 (Z.lnot (u32 (- 2 ^ o))) = Z.ones o.
Proof. intros Ho. by each_order o. Qed.

Lemma land_mask x k : 0 <= x < 2 ^ 32 -> 0 <= k <= 32 -> Z.land x (u32 (- 2 ^ k)) = x / 2 ^ k * 2 ^ k.
Proof.
  intros Hx Hk. assert (E : u32 (- 2 ^ k) = Z.ldiff (Z.ones 32) (Z.ones k)).
  { unfold u32. apply Z.bits_inj'. intros n Hn. rewrite Z.ldiff_spec. destruct (Z.ltb_spec n 32).
    - rewrite Z.mod_pow2_bits_low, Z.ones_spec_low by lia.
      replace (- 2 ^ k) with (Z.lnot (Z.ones k)) by (rewrite Z.ones_equiv, <- Z.sub_1_r; unfold Z.lnot; lia).
      by rewrite Z.lnot_spec.
    - rewrite Z.mod_pow2_bits_high by lia. rewrite Z.ones_spec_high by lia. done. }
  rewrite E. rewrite <- Z.shiftr_div_pow2, <- Z.shiftl_mul_pow2 by lia. apply Z.bits_inj'. intros n Hn.
  rewrite Z.land_spec, Z.ldiff_spec, Z.shiftl_spec by done. destruct (Z.ltb_spec n k).
  - rewrite (Z.ones_spec_low k) by lia. rewrite andb_false_r, andb_false_r. by rewrite Z.testbit_neg_r by lia.
  - rewrite (Z.ones_spec_high k) by lia. rewrite Z.shiftr_spec by lia. replace (n - k + k) with n by lia. rewrite andb_true_r.
    destruct (Z.ltb_spec n 32); [rewrite Z.ones_spec_low by lia; by rewrite andb_true_r|].
    rewrite Z.ones_spec_high by lia. rewrite andb_false_r. symmetry.
    rewrite <- (Z.mod_small x (2 ^ 32)) by lia. apply Z.mod_pow2_bits_high. lia.
Qed.

Lemma lxor_buddy o b : 0 <= o -> Z.lxor (b * 2 ^ o) (2 ^ o) = buddy b * 2 ^ o.
Proof.
  intros Ho. rewrite <- !Z.shiftl_mul_pow2 by done. rewrite <- (Z.shiftl_1_l o). by rewrite <- Z.shiftl_lxor.
Qed.
