(* ===== verification/BuddySteps.v ===== *)
(** * Freeing and allocating keep the blocks of the zones in order *)
From stdpp Require Import base list functions.
From S2P Require Import Prelude Pages PidHash Bitmap Sched Buddy BuddyInv.

(** A change of the zone [zi] only. *)
Record only (zi : Z) (s s' : mm) : Prop := Only {
  on_zones : forall zj, zj <> zi -> zones s' zj = zones s zj;
  on_pages : mem_map s' = mem_map s;
  on_max : max_mapnr s' = max_mapnr s;
  on_flags : mm_flags s' = mm_flags s;
  on_start : zone_start_mapnr (zones s' zi) = zone_start_mapnr (zones s zi);
  on_size : zsize (zones s' zi) = zsize (zones s zi)
}.

(** The pages of the zone know their zone. *)
Definition placed (zi : Z) (s : mm) : Prop := forall p,
  zone_start_mapnr (zones s zi) <= p < zone_start_mapnr (zones s zi) + zsize (zones s zi) -> page_zone p s = zi.

Lemma only_refl zi s : only zi s s.
Proof. by split. Qed.
Lemma only_trans zi s1 s2 s3 : only zi s1 s2 -> only zi s2 s3 -> only zi s1 s3.
Proof.
  intros [A1 A2 A3 A4 A5 A6] [B1 B2 B3 B4 B5 B6]. split; try congruence. intros zj Hj. by rewrite B1, A1.
Qed.
Lemma placed_only zi s s' : only zi s s' -> placed zi s -> placed zi s'.
Proof. intros [A1 A2 A3 A4 A5 A6] P p. unfold page_zone. rewrite A2, A5, A6. apply P. Qed.

Lemma set_zone_same zi f s : zones (set_zone zi f s) zi = f (zones s zi).
Proof. simpl. by rewrite fn_lookup_alter. Qed.
Lemma set_zone_only zi f s : (forall z, zone_start_mapnr (f z) = zone_start_mapnr z) -> (forall z, zsize (f z) = zsize z) ->
  only zi s (set_zone zi f s).
Proof.
  intros H1 H2. split; try done; try (rewrite set_zone_same; auto).
  intros zj Hj. simpl. by rewrite fn_lookup_alter_ne.
Qed.

(** A page of the zone. *)
Lemma in_range zi s d i : zone_ok d (zones s zi) -> placed zi s -> 0 <= i < zsize (zones s zi) ->
  BAD_RANGE zi (zone_start_mapnr (zones s zi) + i) s = false.
Proof.
  intros K P Hi. pose proof (zk_start _ _ K). pose proof (zk_size _ _ K). unfold BAD_RANGE.
  rewrite !u32_small by lia. rewrite P by lia. rewrite Z.eqb_refl.
  destruct (Z.leb_spec (zone_start_mapnr (zones s zi) + zsize (zones s zi)) (zone_start_mapnr (zones s zi) + i)); [lia|].
  destruct (Z.ltb_spec (zone_start_mapnr (zones s zi) + i) (zone_start_mapnr (zones s zi))); [lia|done].
Qed.

Lemma block_in_range zi s d o b : zone_ok d (zones s zi) -> placed zi s -> ord o -> 0 <= b ->
  (b + 1) * 2 ^ o <= zsize (zones s zi) -> BAD_RANGE zi (zone_start_mapnr (zones s zi) + b * 2 ^ o) s = false.
Proof. intros K P [Ho _] Hb He. pose proof (pow_pos o Ho). apply (in_range zi s d); [done|done|nia]. Qed.

(** The bit of a pair, where there is one. *)
Lemma change_bit_spec zi o b s d : zone_ok d (zones s zi) -> ord o -> o < MAX_ORDER - 1 -> 0 <= b -> b * 2 ^ o < zsize (zones s zi) ->
  exists s', __test_and_change_bit zi o (b / 2) s = Some (s', free_map (zones s zi) o (b / 2)) /\ only zi s s' /\
    zones s' zi = zmark o b (zones s zi).
Proof.
  intros K Ho Hl Hb He. unfold __test_and_change_bit. assert (0 <= b / 2) by (apply Z.div_pos; lia).
  pose proof (pow_pos o (proj1 Ho)). destruct (Z.ltb_spec (b / 2) 0); [lia|].
  assert (b / 2 < map_bits (zones s zi) o).
  { apply (zk_map _ _ K); [done|done|done|]. rewrite Z.pow_add_r by (unfold ord in Ho; lia). change (2 ^ 1) with 2.
    pose proof (Z.mul_div_le b 2 ltac:(lia)). nia. }
  destruct (Z.leb_spec (map_bits (zones s zi) o) (b / 2)); [lia|]. cbn [orb]. eexists. split; [done|]. split.
  - by apply set_zone_only.
  - rewrite set_zone_same. unfold zmark. destruct (Z.ltb_spec o (MAX_ORDER - 1)); [done|lia].
Qed.

Lemma del_spec zi p s : p ∈ pcp (zones s zi) \/ (exists o, ord o /\ p ∈ free_list (zones s zi) o) ->
  exists s', memlist_del zi p s = Some s' /\ only zi s s' /\ zones s' zi = zdel p (zones s zi).
Proof.
  intros H. unfold memlist_del. cbv zeta.
  assert (E : bool_decide (p ∈ pcp (zones s zi)) || existsb (fun o => bool_decide (p ∈ free_list (zones s zi) o)) orders = true).
  { apply orb_true_iff. destruct H as [H|(o & Ho & H)]; [left; by apply bool_decide_eq_true|right].
    apply existsb_exists. exists o. split; [|by apply bool_decide_eq_true]. apply list_elem_of_In, elem_of_seqZ. unfold ord in Ho. lia. }
  rewrite E. eexists. split; [done|]. split; [by apply set_zone_only|]. by rewrite set_zone_same.
Qed.

(** ** Freeing *)

Lemma bit_buddy d z o b : zone_ok d z -> hole z o b -> o < MAX_ORDER - 1 -> free_map z o (b / 2) = bool_decide (blk z o (buddy b)).
Proof.
  intros K Hh Hl. pose proof (hole_not_blk z o b Hh) as Hn. destruct Hh as [Ho [Hpos _] _ _].
  destruct (buddy_cases b Hpos) as (k & Hk & <- & Hcase). rewrite (zk_bits _ _ K) by done.
  apply (bool_decide_eq_false_2 _) in Hn. destruct Hcase as [[-> ->]|[-> ->]]; rewrite Hn; [done|by rewrite orb_false_r].
Qed.

Lemma coalesce_ok zi fuel : forall o b s, zone_ok (2 ^ o) (zones s zi) -> hole (zones s zi) o b -> placed zi s ->
  MAX_ORDER - o <= Z.of_nat fuel ->
  exists s' o' b', coalesce fuel zi (u32 (- 2 ^ o)) o (b / 2) (b * 2 ^ o) s = Some (s', o', b' * 2 ^ o') /\ only zi s s' /\
    let z' := zadd o' (zone_start_mapnr (zones s zi) + b' * 2 ^ o') (zones s' zi) in
    zone_ok 0 z' /\ (forall i, free_page z' i <-> free_page (zones s zi) i \/ i / 2 ^ o = b) /\ pcp z' = pcp (zones s zi).
Proof.
  induction fuel as [|fuel IH]; intros o b s K Hh Hpl Hf; pose proof (h_ord _ _ _ Hh) as Ho; [unfold ord in Ho; lia|].
  cbn [coalesce]. rewrite mask_last by done. destruct (h_range _ _ _ Hh) as [Hpos Hend]. pose proof (pow_pos o (proj1 Ho)) as Hpow.
  destruct (Z.eqb_spec o (MAX_ORDER - 1)) as [->|Hne].
  { exists s, (MAX_ORDER - 1), b. split; [done|]. split; [apply only_refl|].
    destruct (put_ok _ _ _ _ K Hh) as (K' & P & Q); [intros; lia|]. by rewrite Z.sub_diag in K'. }
  assert (Hl : o < MAX_ORDER - 1) by (unfold ord in Ho; lia). destruct (Z.leb_spec MAX_ORDER o); [lia|].
  destruct (change_bit_spec zi o b s _ K Ho Hl Hpos ltac:(nia)) as (s1 & -> & O1 & Z1). cbn [mbind option_bind].
  rewrite (bit_buddy _ _ _ _ K Hh Hl). case_bool_decide as Hb; cbn [negb].
  2:{ exists s1, o, b. split; [done|]. split; [done|]. rewrite Z1.
      destruct (put_ok _ _ _ _ K Hh) as (K' & P & Q); [done|]. by rewrite Z.sub_diag in K'. }
  destruct (blk_range _ _ _ _ K Ho Hb) as [Bpos Bend].
  destruct (hole_up _ _ _ _ K Hh Hl Hb) as (K2 & H2 & P2 & Q2).
  rewrite mask_neg, lxor_buddy, mask_up by (done || apply Ho).
  assert (B : forall c, 0 <= c -> (c + 1) * 2 ^ o <= zsize (zones s zi) -> BAD_RANGE zi (zone_start_mapnr (zones s1 zi) + c * 2 ^ o) s1 = false).
  { intros c Hc Hce. rewrite (on_start _ _ _ O1). unfold BAD_RANGE. rewrite (on_start _ _ _ O1), (on_size _ _ _ O1).
    unfold page_zone. rewrite (on_pages _ _ _ O1). by apply (block_in_range zi s (2 ^ o) o c K). }
  rewrite !B by done. cbn [orb].
  destruct (del_spec zi (zone_start_mapnr (zones s1 zi) + buddy b * 2 ^ o) s1) as (s2 & -> & O2 & Z2).
  { right. exists o. split; [done|]. rewrite (on_start _ _ _ O1), Z1. unfold zmark. by destruct (_ <? _). }
  cbn [mbind option_bind]. rewrite (on_start _ _ _ O1), Z1 in Z2. rewrite <- Z2 in K2, H2, P2, Q2.
  assert (O3 : only zi s s2) by by eapply only_trans.
  replace (2 ^ o + 2 ^ o) with (2 ^ (o + 1)) in K2 by (rewrite Z.pow_add_r by (unfold ord in Ho; lia); lia).
  pose proof (zk_start _ _ K). pose proof (zk_size _ _ K). rewrite land_mask by (unfold ord, MAX_ORDER in Ho; nia).
  assert (E : b * 2 ^ o / 2 ^ (o + 1) = b / 2).
  { rewrite Z.pow_add_r by (unfold ord in Ho; lia). rewrite <- Z.div_div by lia. by rewrite Z.div_mul by lia. }
  rewrite E, Z.shiftr_div_pow2 by done. change (2 ^ 1) with 2.
  destruct (IH (o + 1) (b / 2) s2 K2 H2 (placed_only _ _ _ O3 Hpl) ltac:(lia)) as (s' & o' & b' & E' & O' & K' & P' & Q').
  exists s', o', b'. split; [exact E'|]. split; [by eapply only_trans|]. rewrite (on_start _ _ _ O3) in K', P', Q'.
  split; [done|]. split; [|congruence]. intros i. rewrite P', P2.
  destruct (buddy_cases b Hpos) as (k & Hk & Ek & Hcase). rewrite halves, <- Ek by apply Ho.
  assert (Hd : i / 2 ^ o = buddy b -> free_page (zones s zi) i) by (intros Hi; by eapply cov_blk).
  destruct Hcase as [[-> Eb]|[-> Eb]]; rewrite Eb in *; destruct (decide (i / 2 ^ o = 2 * k)), (decide (i / 2 ^ o = 2 * k + 1)); tauto.
Qed.

(** The page [i] can be allocated: it is in a free block or waits for the processor. *)
Definition avail (z : zone) (i : Z) : Prop := free_page z i \/ zone_start_mapnr z + i ∈ pcp z.

(** A single page is put on the processor's list. *)
Lemma cache_ok z b : zone_ok 0 z -> hole z 0 b ->
  let z' := z <| pcp ::= cons (zone_start_mapnr z + b) |> <| nr_pages ::= Z.succ |> in
  zone_ok 0 z' /\ forall i, avail z' i <-> avail z i \/ i / 2 ^ 0 = b.
Proof.
  intros K [Ho [Hpos Hend] Hu Hp]. cbv zeta. change (2 ^ 0) with 1 in *. split.
  - destruct K as [K1 K2 K3 K4 K5 K6 K7 K8 K9 K10 K11 K12]. split; try done.
    + intros p. simpl. intros [->|Hin]%elem_of_cons; [|by apply K9]. split; [lia|]. intros Hf. apply (Hu b); [apply Z.div_1_r|].
      replace (zone_start_mapnr z + b - zone_start_mapnr z) with b in Hf by lia. exact Hf.
    + simpl. apply list.NoDup_cons. split; [|done]. intros Hin. apply (Hp _ Hin). rewrite Z.div_1_r. lia.
    + simpl. destruct K11 as [-> ?]. split; [lia|done].
  - intros i. unfold avail. simpl. rewrite elem_of_cons, Z.div_1_r. change (free_page (z <| pcp ::= _ |> <| nr_pages ::= _ |>) i) with (free_page z i).
    split; [intros [?|[?|?]]; auto; right; lia|]. intros [[?|?]| ->]; auto.
Qed.

Lemma u32_sub_mask o n : ord o -> u32 (u32 n - u32 (- 2 ^ o)) = u32 (n + 2 ^ o).
Proof. intros Ho. unfold u32. rewrite Zminus_mod_idemp_l, Zminus_mod_idemp_r. f_equal. lia. Qed.

Lemma ahead d z o : ord o -> zone_ok d z -> zone_ok (d + 2 ^ o) (z <| free_pages ::= fun n => u32 (n - u32 (- 2 ^ o)) |>).
Proof.
  intros Ho [K1 K2 K3 K4 K5 K6 K7 K8 K9 K10 K11 K12]. split; try done. simpl. rewrite K12, u32_sub_mask by done.
  unfold fsum. simpl. f_equal. lia.
Qed.

Lemma free_block_ok zi o b s : zone_ok 0 (zones s zi) -> placed zi s -> hole (zones s zi) o b ->
  exists s', free_block (zone_start_mapnr (zones s zi) + b * 2 ^ o) o s = Some s' /\ only zi s s' /\ zone_ok 0 (zones s' zi) /\
    forall i, avail (zones s' zi) i <-> avail (zones s zi) i \/ i / 2 ^ o = b.
Proof.
  intros K Hpl Hh. pose proof (h_ord _ _ _ Hh) as Ho. destruct (h_range _ _ _ Hh) as [Hpos Hend].
  pose proof (pow_pos o (proj1 Ho)) as Hpow. pose proof (zk_start _ _ K). pose proof (zk_size _ _ K). unfold free_block. cbv zeta.
  rewrite Hpl by nia. set (st := zone_start_mapnr (zones s zi)). replace (st + b * 2 ^ o - st) with (b * 2 ^ o) by lia.
  rewrite u32_small by nia. rewrite mask_first, mask_not by done. rewrite Z.land_ones by apply Ho. rewrite Z.mod_mul by lia. cbn [Z.eqb negb].
  rewrite Z.shiftr_div_pow2 by (unfold ord in Ho; lia). rewrite Z.pow_add_r by (unfold ord in Ho; lia).
  rewrite (Z.mul_comm (2 ^ 1)), <- Z.div_div by lia. rewrite Z.div_mul by lia. change (2 ^ 1) with 2.
  destruct ((o =? 0) && (nr_pages (zones s zi) <? max_nr_pages (zones s zi)) && (zone_free_high (zones s zi) <=? 0)) eqn:Ec.
  - b2p. subst o. eexists. split; [done|]. split; [by apply set_zone_only|]. rewrite set_zone_same.
    replace (st + b * 2 ^ 0) with (st + b) by (change (2 ^ 0) with 1; lia). by apply cache_ok.
  - set (s1 := set_zone zi _ s). assert (O1 : only zi s s1) by by apply set_zone_only.
    assert (Z1 : zones s1 zi = (zones s zi) <| free_pages ::= fun n => u32 (n - u32 (- 2 ^ o)) |>) by apply set_zone_same.
    destruct (coalesce_ok zi (Z.to_nat MAX_ORDER) o b s1) as (s2 & o' & b' & E & O2 & K2 & P2 & Q2).
    + rewrite Z1. apply (ahead 0); done.
    + rewrite Z1. destruct Hh as [A1 A2 A3 A4]. by split.
    + by eapply placed_only.
    + unfold ord, MAX_ORDER in *. lia.
    + rewrite E. cbn [mbind option_bind]. eexists. split; [done|].
      assert (O3 : only zi s s2) by by eapply only_trans. split; [eapply only_trans; [exact O3|by apply set_zone_only]|].
      unfold memlist_add_head. rewrite set_zone_same. fold (zadd o' (st + b' * 2 ^ o') (zones s2 zi)).
      rewrite (on_start _ _ _ O1) in K2, P2, Q2. fold st in K2, P2, Q2. split; [done|]. intros i. unfold avail. rewrite P2, Q2, Z1.
      change (zone_start_mapnr (zadd o' (st + b' * 2 ^ o') (zones s2 zi))) with (zone_start_mapnr (zones s2 zi)).
      rewrite (on_start _ _ _ O3). change (free_page ((zones s zi) <| free_pages ::= fun n => u32 (n - u32 (- 2 ^ o)) |>) i) with (free_page (zones s zi) i).
      change (pcp ((zones s zi) <| free_pages ::= fun n => u32 (n - u32 (- 2 ^ o)) |>)) with (pcp (zones s zi)). tauto.
Qed.

(** ** Allocating *)

Lemma expand_ok zi low k : forall b s, ord low -> zone_ok (2 ^ (low + Z.of_nat k) - 2 ^ low) (zones s zi) ->
  hole (zones s zi) (low + Z.of_nat k) b -> placed zi s ->
  let h := low + Z.of_nat k in
  exists s' b', expand k zi (zone_start_mapnr (zones s zi) + b * 2 ^ h) (b * 2 ^ h) low s =
      Some (s', zone_start_mapnr (zones s zi) + b' * 2 ^ low) /\ only zi s s' /\ zone_ok 0 (zones s' zi) /\ hole (zones s' zi) low b' /\
    b' / 2 ^ Z.of_nat k = b /\ pcp (zones s' zi) = pcp (zones s zi) /\
    (forall i, free_page (zones s' zi) i <-> free_page (zones s zi) i \/ i / 2 ^ h = b /\ i / 2 ^ low <> b').
Proof.
  induction k as [|k IH]; intros b s Hl K Hh Hpl; cbv zeta; pose proof (h_ord _ _ _ Hh) as Ho; destruct (h_range _ _ _ Hh) as [Hpos Hend];
    cbn [expand]; rewrite (block_in_range zi s _ _ b K Hpl Ho Hpos Hend).
  - rewrite Z.add_0_r in *. exists s, b. rewrite Z.sub_diag in K. split; [done|]. split; [apply only_refl|].
    split; [done|]. split; [done|]. split; [by rewrite Z.div_1_r|]. split; [done|]. intros i. tauto.
  - set (h := low + Z.of_nat k). replace (low + Z.of_nat (S k)) with (h + 1) in * by lia.
    assert (Hh0 : ord h) by (unfold ord in *; lia). pose proof (pow_pos h (proj1 Hh0)) as Hpow.
    assert (Epow : 2 ^ (h + 1) = 2 * 2 ^ h) by (rewrite Z.pow_add_r by (unfold ord in Hh0; lia); lia).
    destruct (hole_down _ _ h b K Hh0 Hh) as (K1 & H1 & P1 & Q1).
    set (s1 := memlist_add_head zi h _ s). assert (O1 : only zi s s1) by by apply set_zone_only.
    assert (Z1 : zones s1 zi = zadd h (zone_start_mapnr (zones s zi) + b * 2 ^ (h + 1)) (zones s zi)) by apply set_zone_same.
    unfold MARK_USED. rewrite Z.shiftr_div_pow2 by (unfold ord in Hh0; lia). replace (1 + h) with (h + 1) by lia. rewrite first_page by (unfold ord in Hh0; lia).
    unfold __test_and_change_bit. assert (Hm : b < map_bits (zones s zi) h) by (apply (zk_map _ _ K); [done|unfold ord in *; lia|done|nia]).
    assert (Em : map_bits (zones s1 zi) h = map_bits (zones s zi) h) by (by rewrite Z1). cbv zeta. rewrite Em.
    destruct (Z.ltb_spec b 0); [lia|]. destruct (Z.leb_spec (map_bits (zones s zi) h) b); [lia|]. cbn [orb fmap option_fmap option_map mbind option_bind fst].
    set (s2 := set_zone zi _ s1). assert (O2 : only zi s s2) by (eapply only_trans; [exact O1|by apply set_zone_only]).
    assert (Z2 : zones s2 zi = zadd h (zone_start_mapnr (zones s zi) + 2 * b * 2 ^ h) (zmark h (2 * b) (zones s zi))).
    { unfold s2. rewrite set_zone_same, Z1. unfold zmark. rewrite (Z.mul_comm 2 b), Z.div_mul by lia.
      destruct (Z.ltb_spec h (MAX_ORDER - 1)); [|unfold ord in *; lia]. unfold zadd, zflip. rewrite Epow, (Z.mul_assoc b 2). done. }
    rewrite <- Z2 in K1, H1, P1, Q1. clearbody s2. rewrite Z.shiftl_1_l.
    replace (2 ^ (h + 1) - 2 ^ low - 2 ^ h) with (2 ^ h - 2 ^ low) in K1 by lia.
    destruct (IH (2 * b + 1) s2 Hl K1 H1 (placed_only _ _ _ O2 Hpl)) as (s' & b' & E' & O' & K' & H' & B' & Q' & P').
    fold h in E', P'. rewrite (on_start _ _ _ O2) in E'. exists s', b'.
    replace (zone_start_mapnr (zones s zi) + b * 2 ^ (h + 1) + 2 ^ h) with (zone_start_mapnr (zones s zi) + (2 * b + 1) * 2 ^ h) by lia.
    replace (b * 2 ^ (h + 1) + 2 ^ h) with ((2 * b + 1) * 2 ^ h) by lia. split; [exact E'|]. split; [by eapply only_trans|].
    split_and!; [done|done| |congruence|].
    + rewrite Nat2Z.inj_succ, Z.pow_succ_r by lia. rewrite (Z.mul_comm 2 (2 ^ Z.of_nat k)), <- Z.div_div by lia. rewrite B'.
      rewrite (Z.mul_comm 2 b), Z.div_add_l by lia. change (1 / 2) with 0. lia.
    + intros i. rewrite P', P1. rewrite halves by (unfold ord in Hh0; lia).
      assert (Hlow : i / 2 ^ low = b' -> i / 2 ^ h = 2 * b + 1).
      { intros Hi. unfold h. rewrite Z.pow_add_r by (unfold ord in *; lia). pose proof (pow_pos low (proj1 Hl)). rewrite <- Z.div_div by lia. by rewrite Hi. }
      destruct (decide (i / 2 ^ h = 2 * b)), (decide (i / 2 ^ h = 2 * b + 1)); try lia; intuition lia.
Qed.

(** If all pages of a block are free then a free block contains it: free buddies are merged. *)
Lemma merged_block d z o : zone_ok d z -> ord o -> forall b, 0 <= b -> (forall i, i / 2 ^ o = b -> free_page z i) ->
  exists o', o <= o' /\ ord o' /\ blk z o' (b * 2 ^ o / 2 ^ o').
Proof.
  intros K [Hpos Hlt]. revert o Hpos Hlt. apply (natlike_ind (fun o => o < MAX_ORDER -> forall b, 0 <= b ->
    (forall i, i / 2 ^ o = b -> free_page z i) -> exists o', o <= o' /\ ord o' /\ blk z o' (b * 2 ^ o / 2 ^ o'))).
  - intros _ b _ H. destruct (H b (Z.div_1_r b)) as (o' & Ho' & Hc). exists o'. change (2 ^ 0) with 1. rewrite Z.mul_1_r.
    split; [apply Ho'|done].
  - intros o Ho IH Hlt b Hb H. rewrite <- Z.add_1_r in *. pose proof (pow_pos o Ho) as Hpow.
    assert (Epow : 2 ^ (o + 1) = 2 * 2 ^ o) by (rewrite Z.pow_add_r by lia; lia).
    assert (Hh : forall c, c = 2 * b \/ c = 2 * b + 1 -> exists o', o <= o' /\ ord o' /\ blk z o' (c * 2 ^ o / 2 ^ o')).
    { intros c Hc. apply IH; [lia|lia|]. intros i Hi. apply H, halves; [done|]. lia. }
    assert (Up : forall c o', c = 2 * b \/ c = 2 * b + 1 -> o + 1 <= o' -> c * 2 ^ o / 2 ^ o' = b * 2 ^ (o + 1) / 2 ^ o').
    { intros c o' Hc Ho'. replace o' with (o + 1 + (o' - o - 1)) by lia. rewrite (Z.pow_add_r 2 (o + 1)) by lia.
      pose proof (pow_pos (o' - o - 1) ltac:(lia)). rewrite <- !Z.div_div by lia. rewrite first_page by lia. f_equal.
      apply halves; [done|]. rewrite first_page by done. done. }
    destruct (Hh (2 * b) (or_introl eq_refl)) as (o1 & L1 & O1 & B1), (Hh (2 * b + 1) (or_intror eq_refl)) as (o2 & L2 & O2 & B2).
    destruct (decide (o1 = o)) as [->|N1]; [|exists o1; rewrite Up in B1 by (auto; lia); split_and!; [lia|done|done]].
    destruct (decide (o2 = o)) as [->|N2]; [|exists o2; rewrite Up in B2 by (auto; lia); split_and!; [lia|done|done]].
    rewrite first_page in B1, B2 by done. exfalso. apply (zk_merged _ _ K o b); done || lia.
Qed.

Lemma behind_sub d z o : ord o -> zone_ok d z -> zone_ok (d - 2 ^ o) (z <| free_pages ::= fun n => u32 (n - Z.shiftl 1 o) |>).
Proof.
  intros Ho [K1 K2 K3 K4 K5 K6 K7 K8 K9 K10 K11 K12]. split; try done. simpl. rewrite K12, Z.shiftl_1_l. unfold u32.
  rewrite Zminus_mod_idemp_l. unfold fsum. simpl. f_equal. lia.
Qed.

(** What an allocation of a block of order [o] in the zone does. *)
Definition allocated (zi o : Z) (s s' : mm) (p : Z) : Prop :=
  (exists b, p = zone_start_mapnr (zones s zi) + b * 2 ^ o /\ hole (zones s' zi) o b /\
     (forall i, i / 2 ^ o = b -> avail (zones s zi) i) /\
     forall i, avail (zones s' zi) i <-> avail (zones s zi) i /\ i / 2 ^ o <> b) /\
  mem_map s' = alter (fun x => x <| pg_count := 1 |>) p (mem_map s).

(** The zone, but for the count of an allocated page. *)
Record only_count (zi : Z) (s s' : mm) : Prop := OnlyCount {
  oc_zones : forall zj, zj <> zi -> zones s' zj = zones s zj;
  oc_max : max_mapnr s' = max_mapnr s;
  oc_flags : mm_flags s' = mm_flags s;
  oc_start : zone_start_mapnr (zones s' zi) = zone_start_mapnr (zones s zi);
  oc_size : zsize (zones s' zi) = zsize (zones s zi)
}.

(** The pages of the zone that are available are on no list of pages in use. *)
Definition unlisted (zi : Z) (s : mm) : Prop := forall i, avail (zones s zi) i -> DEBUG_LRU_PAGE (zone_start_mapnr (zones s zi) + i) s = false.

Lemma found_ok zi o c p l s : ord o -> o <= c < MAX_ORDER -> zone_ok 0 (zones s zi) -> placed zi s -> unlisted zi s -> free_list (zones s zi) c = p :: l ->
  exists s' q, rmqueue_from 1 zi o c s = Some (s', Some q) /\ zone_ok 0 (zones s' zi) /\ only_count zi s s' /\ allocated zi o s s' q.
Proof.
  intros Ho Hc K Hpl Hun Hfl. assert (Oc : ord c) by (unfold ord in *; lia).
  assert (Hin : p ∈ free_list (zones s zi) c) by (rewrite Hfl; apply list_elem_of_here).
  destruct (zk_block _ _ K c p Oc Hin) as (b & Ep & Hpos & Hend). assert (Hb : blk (zones s zi) c b) by (unfold blk; by rewrite <- Ep).
  cbn [rmqueue_from]. rewrite Hfl, Ep. rewrite (block_in_range zi s 0 c b K Hpl Oc Hpos Hend).
  destruct (take_ok 0 _ c b K Oc Hb) as (K1 & H1 & P1 & Q1).
  destruct (del_spec zi (zone_start_mapnr (zones s zi) + b * 2 ^ c) s) as (s1 & -> & O1 & Z1); [right; exists c; by rewrite <- Ep|].
  cbn [mbind option_bind]. set (st := zone_start_mapnr (zones s zi)) in *. replace (st + b * 2 ^ c - st) with (b * 2 ^ c) by lia.
  assert (M : exists s2, (if c =? MAX_ORDER - 1 then Some s1 else MARK_USED zi (b * 2 ^ c) c s1) = Some s2 /\ only zi s s2 /\
    zones s2 zi = zdel (st + b * 2 ^ c) (zmark c b (zones s zi))).
  { destruct (Z.eqb_spec c (MAX_ORDER - 1)) as [E|E].
    - exists s1. split; [done|]. split; [done|]. rewrite Z1. unfold zmark. destruct (Z.ltb_spec c (MAX_ORDER - 1)); [lia|done].
    - pose proof (pow_pos c (proj1 Oc)). unfold MARK_USED, __test_and_change_bit. rewrite Z.shiftr_div_pow2 by (unfold ord in Oc; lia).
      assert (Eb : b * 2 ^ c / 2 ^ (1 + c) = b / 2).
      { rewrite Z.pow_add_r, Z.mul_comm by (unfold ord in Oc; lia). rewrite (Z.mul_comm (2 ^ c) b), (Z.mul_comm (2 ^ 1)), <- Z.div_div by lia. by rewrite Z.div_mul by lia. }
      rewrite Eb. cbv zeta. assert (Em : map_bits (zones s1 zi) = map_bits (zones s zi)) by (by rewrite Z1). rewrite Em.
      assert (0 <= b / 2) by (apply Z.div_pos; lia).
      assert (b / 2 < map_bits (zones s zi) c).
      { apply (zk_map _ _ K); [done|unfold ord in *; lia|done|]. rewrite Z.pow_add_r by (unfold ord in Oc; lia). change (2 ^ 1) with 2.
        pose proof (Z.mul_div_le b 2 ltac:(lia)). nia. }
      destruct (Z.ltb_spec (b / 2) 0); [lia|]. destruct (Z.leb_spec (map_bits (zones s zi) c) (b / 2)); [lia|].
      cbn [orb fmap option_fmap option_map fst]. eexists. split; [done|]. split; [eapply only_trans; [exact O1|by apply set_zone_only]|].
      rewrite set_zone_same, Z1. unfold zmark. destruct (Z.ltb_spec c (MAX_ORDER - 1)); [done|unfold ord in *; lia]. }
  destruct M as (s2 & -> & O2 & Z2). cbn [mbind option_bind]. rewrite <- Z2 in K1, H1, P1, Q1.
  set (s3 := set_zone zi _ s2). assert (O3 : only zi s s3) by (eapply only_trans; [exact O2|by apply set_zone_only]).
  assert (Z3 : zones s3 zi = (zones s2 zi) <| free_pages ::= fun n => u32 (n - Z.shiftl 1 o) |>) by apply set_zone_same.
  assert (Est : zone_start_mapnr (zones s3 zi) = st) by apply (on_start _ _ _ O3).
  destruct (expand_ok zi o (Z.to_nat (c - o)) b s3) as (s4 & b' & E4 & O4 & K4 & H4 & B4 & Q4 & P4); [done| | |by eapply placed_only|].
  - rewrite Z3. replace (o + Z.of_nat (Z.to_nat (c - o))) with c by lia. by apply behind_sub.
  - rewrite Z3. replace (o + Z.of_nat (Z.to_nat (c - o))) with c by lia. destruct H1 as [A1 A2 A3 A4]. by split.
  - replace (o + Z.of_nat (Z.to_nat (c - o))) with c in E4, P4 by lia. rewrite Est in E4. rewrite E4. cbn [mbind option_bind].
    assert (O5 : only zi s s4) by by eapply only_trans.
    assert (Hlow : forall i, i / 2 ^ o = b' -> i / 2 ^ c = b).
    { intros i Hi. replace c with (o + Z.of_nat (Z.to_nat (c - o))) by lia. rewrite Z.pow_add_r by (unfold ord in *; lia).
      pose proof (pow_pos o (proj1 Ho)). rewrite <- Z.div_div by lia. by rewrite Hi. }
    assert (Hb1 : forall i, i / 2 ^ c = b -> free_page (zones s zi) i) by (intros i Hi; by eapply cov_blk).
    assert (Hd : DEBUG_LRU_PAGE (st + b' * 2 ^ o) (set_page_count (st + b' * 2 ^ o) 1 s4) = false).
    { rewrite <- (Hun (b' * 2 ^ o)) by (left; apply Hb1, Hlow, Z.div_mul; pose proof (pow_pos o (proj1 Ho)); lia).
      unfold DEBUG_LRU_PAGE, page_flag, set_page_count, set_page. simpl. rewrite fn_lookup_alter. simpl. by rewrite (on_pages _ _ _ O5). }
    rewrite Hd. eexists _, _. split; [done|]. split; [exact K4|].
    split; [split; apply O5|]. split; [exists b'|simpl; by rewrite (on_pages _ _ _ O5)].
    change (zones (set_page_count (st + b' * 2 ^ o) 1 s4)) with (zones s4).
    split; [done|]. split; [done|]. split; [intros i Hi; left; auto|].
    intros i. unfold avail. rewrite P4, Q4, Z3, (on_start _ _ _ O5). fold st.
    change (free_page ((zones s2 zi) <| free_pages ::= fun n => u32 (n - Z.shiftl 1 o) |>) i) with (free_page (zones s2 zi) i).
    change (pcp ((zones s2 zi) <| free_pages ::= fun n => u32 (n - Z.shiftl 1 o) |>)) with (pcp (zones s2 zi)). rewrite P1, Q1.
    assert (Hpc : st + i ∈ pcp (zones s zi) -> i / 2 ^ c <> b).
    { intros Hp Hi. apply (proj2 (zk_pcp _ _ K _ Hp)). replace (st + i - zone_start_mapnr (zones s zi)) with i by (unfold st; lia). auto. }
    specialize (Hlow i). specialize (Hb1 i). destruct (decide (i / 2 ^ c = b)), (decide (i / 2 ^ o = b')); tauto.
Qed.

Lemma search_ok zi o n : forall c s, ord o -> o <= c -> c + Z.of_nat n = MAX_ORDER -> zone_ok 0 (zones s zi) -> placed zi s -> unlisted zi s ->
  (exists s' q, rmqueue_from n zi o c s = Some (s', Some q) /\ zone_ok 0 (zones s' zi) /\ only_count zi s s' /\ allocated zi o s s' q) \/
  rmqueue_from n zi o c s = Some (s, None) /\ forall c', c <= c' < MAX_ORDER -> free_list (zones s zi) c' = [].
Proof.
  induction n as [|n IH]; intros c s Ho Hc Hn K Hpl Hun.
  { right. split; [done|]. intros c' Hc'. lia. }
  destruct (free_list (zones s zi) c) as [|p l] eqn:E.
  - assert (Eq : rmqueue_from (S n) zi o c s = rmqueue_from n zi o (c + 1) s) by (cbn [rmqueue_from]; by rewrite E). rewrite Eq.
    destruct (IH (c + 1) s Ho ltac:(lia) ltac:(lia) K Hpl Hun) as [H|[H1 H2]]; [by left|right]. split; [done|].
    intros c' Hc'. destruct (decide (c' = c)) as [->|]; [done|apply H2; lia].
  - left. destruct (found_ok zi o c p l s Ho ltac:(lia) K Hpl Hun E) as (s' & q & H & R). exists s', q. split; [|done].
    rewrite <- H. cbn [rmqueue_from]. by rewrite E.
Qed.

(** No block of the order has all its pages in free blocks. *)
Definition exhausted (o : Z) (z : zone) : Prop := forall b, 0 <= b -> ~ forall i, i / 2 ^ o = b -> free_page z i.

Lemma empty_exhausted d z o : ord o -> zone_ok d z -> (forall c, o <= c < MAX_ORDER -> free_list z c = []) -> exhausted o z.
Proof.
  intros Ho K H b Hb Hf. destruct (merged_block d z o K Ho b Hb Hf) as (o' & L & Ho' & B). unfold blk in B.
  rewrite H in B by (unfold ord in Ho'; lia). by apply not_elem_of_nil in B.
Qed.

(** The first page of the processor's list is taken. *)
Lemma uncache_ok z p l : zone_ok 0 z -> pcp z = p :: l ->
  let z' := z <| pcp := l |> <| nr_pages ::= Z.pred |> in
  zone_ok 0 z' /\ hole z' 0 (p - zone_start_mapnr z) /\ avail z (p - zone_start_mapnr z) /\
  forall i, avail z' i <-> avail z i /\ i <> p - zone_start_mapnr z.
Proof.
  intros K Ep. cbv zeta. destruct (zk_pcp _ _ K p) as [R N]; [rewrite Ep; apply list_elem_of_here|].
  pose proof (zk_pcp_nodup _ _ K) as Nd. rewrite Ep in Nd. apply list.NoDup_cons in Nd as [Np Nd].
  set (i0 := p - zone_start_mapnr z) in *.
  assert (A : forall i, zone_start_mapnr z + i ∈ p :: l <-> i = i0 \/ zone_start_mapnr z + i ∈ l).
  { intros i. rewrite elem_of_cons. unfold i0. split; (intros [?|?]; [left; lia|by right]). }
  split; [|split; [|split]].
  - destruct K as [K1 K2 K3 K4 K5 K6 K7 K8 K9 K10 K11 K12]. split; try done.
    + intros q Hq. simpl in Hq. apply K9. rewrite Ep. apply elem_of_cons; by right.
    + simpl. rewrite Ep in K11. simpl in K11. destruct K11 as [-> ?]. split; [lia|done].
  - split; [done|simpl; unfold i0; change (2 ^ 0) with 1; lia|..]; change (2 ^ 0) with 1.
    + intros i. rewrite Z.div_1_r. intros ->. exact N.
    + intros q Hq. simpl in Hq |- *. rewrite Z.div_1_r. intros E. apply Np. replace p with q by (unfold i0 in E; lia). done.
  - right. rewrite Ep. apply A. by left.
  - intros i. unfold avail. simpl. change (free_page (z <| pcp := l |> <| nr_pages ::= Z.pred |>) i) with (free_page z i). rewrite Ep, A.
    split; [|tauto]. intros [Hf|Hl]; [split; [by left|intros ->; done]|]. split; [auto|]. intros ->. apply Np.
    replace (zone_start_mapnr z + i0) with p in Hl by (unfold i0; lia). done.
Qed.

Lemma rmqueue_ok zi o s : ord o -> zone_ok 0 (zones s zi) -> placed zi s -> unlisted zi s ->
  (exists s' q, rmqueue zi o s = Some (s', Some q) /\ zone_ok 0 (zones s' zi) /\ only_count zi s s' /\ allocated zi o s s' q) \/
  rmqueue zi o s = Some (s, None) /\ exhausted o (zones s zi).
Proof.
  intros Ho K Hpl Hun. unfold rmqueue. cbv zeta.
  match goal with |- context [if ?c then max_nr_pages _ ÷ 8 else 0] => set (cc := c) end.
  destruct ((o =? 0) && (_ <? nr_pages (zones s zi))) eqn:E.
  - left. b2p. subst o. destruct (zk_nr _ _ K) as [En Em].
    destruct (pcp (zones s zi)) as [|p l] eqn:Ep.
    { exfalso. rewrite En in H0. simpl in H0. destruct cc; [pose proof (Z.quot_pos (max_nr_pages (zones s zi)) 8 Em)|]; lia. }
    destruct (uncache_ok _ p l K Ep) as (K1 & H1 & A1 & P1). eexists _, _. split; [done|].
    assert (Z1 : forall f, zones (set_page_count p 1 (set_zone zi f s)) zi = f (zones s zi)) by (intros f; apply set_zone_same).
    rewrite Z1. split; [exact K1|]. split; [split; try done; rewrite ?Z1; try done; intros zj Hj; simpl; by rewrite fn_lookup_alter_ne|].
    split; [|done]. exists (p - zone_start_mapnr (zones s zi)). rewrite Z1. change (2 ^ 0) with 1. split; [lia|]. split; [done|]. split.
    + intros i. rewrite Z.div_1_r. intros ->. done.
    + intros i. rewrite Z.div_1_r. apply P1.
  - destruct (Z.leb_spec MAX_ORDER o); [unfold ord in Ho; lia|].
    destruct (search_ok zi o (Z.to_nat (MAX_ORDER - o)) o s Ho ltac:(lia) ltac:(lia) K Hpl Hun) as [H1|[H1 H2]]; [by left|right].
    split; [done|]. by apply (empty_exhausted 0).
Qed.
