(* ===== verification/BuddyPages.v ===== *)
(** * Pages: freeing and allocating on all zones

    The zones stand for a set of available pages, [page_avail]: allocation takes an
    aligned block out of it, freeing puts one in. *)
From stdpp Require Import base list functions.
From S2P Require Import Prelude Pages PidHash Bitmap Sched Buddy ZoneInit BuddyInv BuddySteps.

Definition znum (zi : Z) : Prop := 0 <= zi < MAX_NR_ZONES.
Definition in_zone (s : mm) (zi p : Z) : Prop :=
  zone_start_mapnr (zones s zi) <= p < zone_start_mapnr (zones s zi) + zsize (zones s zi).
#[export] Instance in_zone_dec s zi p : Decision (in_zone s zi p).
Proof. unfold in_zone. apply _. Defined.
Definition mm_ok (s : mm) : Prop := forall zi, znum zi -> zone_ok 0 (zones s zi) /\ placed zi s.

(** The abstract state. *)
Definition page_avail (s : mm) (p : Z) : Prop :=
  exists zi, znum zi /\ in_zone s zi p /\ avail (zones s zi) (p - zone_start_mapnr (zones s zi)).
(** A block of the zone at the place of a block of its order. *)
Definition is_block (s : mm) (zi p o : Z) : Prop :=
  ord o /\ zone_start_mapnr (zones s zi) <= p /\ p + 2 ^ o <= zone_start_mapnr (zones s zi) + zsize (zones s zi) /\
  (p - zone_start_mapnr (zones s zi)) `mod` 2 ^ o = 0.
Definition in_use (s : mm) (p o : Z) : Prop :=
  (exists zi, znum zi /\ is_block s zi p o) /\ forall q, in_block p o q -> ~ page_avail s q.

(** A page that nobody uses any more. *)
Definition freeable (p : Z) (s : mm) : Prop :=
  let x := mem_map s p in
  p < max_mapnr s /\ page_flag PG_reserved p s = false /\ page_flag PG_locked p s = false /\
  pg_buffers x = 0 /\ pg_mapping x = 0 /\ pg_pte_chain x = 0 /\
  (if page_flag PG_lru p s then
     (page_flag PG_active p s && page_flag PG_inactive_dirty p s = false) /\
     (page_flag PG_active p s && page_flag PG_inactive_clean p s = false) /\
     (page_flag PG_inactive_dirty p s && page_flag PG_inactive_clean p s = false)
   else page_flag PG_active p s = false /\ page_flag PG_inactive_dirty p s = false /\ page_flag PG_inactive_clean p s = false).

(** ** Blocks of page numbers *)

Lemma in_block_div st p o q b : 0 <= o -> p = st + b * 2 ^ o -> in_block p o q <-> (q - st) / 2 ^ o = b.
Proof.
  intros Ho ->. pose proof (pow_pos o Ho). unfold in_block. split.
  - intros Hq. symmetry. apply (Z.div_unique_pos _ _ _ (q - st - b * 2 ^ o)); lia.
  - intros <-. pose proof (Z.div_mod (q - st) (2 ^ o) ltac:(lia)). pose proof (Z.mod_pos_bound (q - st) (2 ^ o) ltac:(lia)). lia.
Qed.

Lemma block_number s zi p o : is_block s zi p o -> exists b, p = zone_start_mapnr (zones s zi) + b * 2 ^ o /\ 0 <= b /\
  (b + 1) * 2 ^ o <= zsize (zones s zi).
Proof.
  intros (Ho & H1 & H2 & H3). pose proof (pow_pos o (proj1 Ho)). set (st := zone_start_mapnr (zones s zi)) in *.
  exists ((p - st) / 2 ^ o). pose proof (Z.div_mod (p - st) (2 ^ o) ltac:(lia)). pose proof (Z.div_pos (p - st) (2 ^ o) ltac:(lia) ltac:(lia)).
  split; [lia|]. split; [done|nia].
Qed.

Lemma block_of_number s zi o b : ord o -> 0 <= b -> (b + 1) * 2 ^ o <= zsize (zones s zi) ->
  is_block s zi (zone_start_mapnr (zones s zi) + b * 2 ^ o) o.
Proof.
  intros Ho Hb He. pose proof (pow_pos o (proj1 Ho)). split; [done|]. split; [nia|]. split; [nia|].
  replace (zone_start_mapnr (zones s zi) + b * 2 ^ o - zone_start_mapnr (zones s zi)) with (b * 2 ^ o) by lia. by apply Z.mod_mul; lia.
Qed.

(** A page lies in one zone. *)
Lemma one_zone s zi zj p : mm_ok s -> znum zi -> znum zj -> in_zone s zi p -> in_zone s zj p -> zi = zj.
Proof. intros M Hi Hj Zi Zj. rewrite <- (proj2 (M zi Hi) p Zi). by apply (proj2 (M zj Hj) p). Qed.

Lemma avail_zone s zi p : mm_ok s -> znum zi -> in_zone s zi p ->
  page_avail s p <-> avail (zones s zi) (p - zone_start_mapnr (zones s zi)).
Proof.
  intros M Hi Zi. split; [|intros; by exists zi]. intros (zj & Hj & Zj & A). by rewrite (one_zone s zi zj p M Hi Hj Zi Zj).
Qed.

Lemma use_hole s zi p o b : mm_ok s -> znum zi -> is_block s zi p o -> p = zone_start_mapnr (zones s zi) + b * 2 ^ o ->
  (forall q, in_block p o q -> ~ page_avail s q) <-> hole (zones s zi) o b.
Proof.
  intros M Hi Hb Ep. destruct (block_number s zi p o Hb) as (b' & Ep' & Hpos & Hend). pose proof Hb as (Ho & H1 & H2 & _).
  pose proof (pow_pos o (proj1 Ho)). assert (b' = b) as -> by nia. destruct (M zi Hi) as [K _].
  assert (Q : forall q, in_block p o q <-> (q - zone_start_mapnr (zones s zi)) / 2 ^ o = b) by (intros q; by apply in_block_div; [apply Ho|]).
  assert (R : forall q, in_block p o q -> in_zone s zi q) by (intros q Hq; unfold in_block, in_zone in *; lia).
  split.
  - intros Hu. split; [done|done| |].
    + intros i Hbi Hf. apply (Hu (zone_start_mapnr (zones s zi) + i)); [apply Q; by replace (zone_start_mapnr (zones s zi) + i - zone_start_mapnr (zones s zi)) with i by lia|].
      apply (avail_zone s zi); [done|done|apply R, Q; by replace (zone_start_mapnr (zones s zi) + i - zone_start_mapnr (zones s zi)) with i by lia|].
      left. by replace (zone_start_mapnr (zones s zi) + i - zone_start_mapnr (zones s zi)) with i by lia.
    + intros q Hq Hqb. apply Q in Hqb. apply (Hu q Hqb). apply (avail_zone s zi); [done|done|by apply R|]. right.
      by replace (zone_start_mapnr (zones s zi) + (q - zone_start_mapnr (zones s zi))) with q by lia.
  - intros [_ _ Hu Hp] q Hq. rewrite (avail_zone s zi q M Hi (R q Hq)). apply Q in Hq. intros [Hf|Hc]; [by apply (Hu _ Hq)|].
    replace (zone_start_mapnr (zones s zi) + (q - zone_start_mapnr (zones s zi))) with q in Hc by lia. by apply (Hp q Hc).
Qed.

(** ** Changes of the pages *)

(** What the allocator sees of a zone. *)
Record same_lists (z z' : zone) : Prop := SameLists {
  sl_start : zone_start_mapnr z' = zone_start_mapnr z; sl_size : zsize z' = zsize z; sl_map : map_bits z' = map_bits z;
  sl_nr : nr_pages z' = nr_pages z; sl_max : max_nr_pages z' = max_nr_pages z; sl_pcp : pcp z' = pcp z;
  sl_list : free_list z' = free_list z; sl_bits : free_map z' = free_map z; sl_free : free_pages z' = free_pages z
}.

Lemma same_ok d z z' : same_lists z z' -> zone_ok d z -> zone_ok d z'.
Proof. destruct z, z'. intros [] K. simpl in *. subst. destruct K. by split. Qed.
Lemma same_avail z z' i : same_lists z z' -> avail z' i <-> avail z i.
Proof. destruct z, z'. intros []. simpl in *. subst. done. Qed.
Lemma same_hole z z' o b : same_lists z z' -> hole z o b -> hole z' o b.
Proof. destruct z, z'. intros [] K. simpl in *. subst. destruct K. by split. Qed.

(** Anything done to pages and to the lists of pages in use, keeping the zones of pages. *)
Record outside (s s' : mm) : Prop := Outside {
  os_zones : forall zi, same_lists (zones s zi) (zones s' zi);
  os_place : forall p, page_zone p s' = page_zone p s
}.

Lemma outside_ok s s' : outside s s' -> mm_ok s -> mm_ok s'.
Proof.
  intros [O1 O2] M zi Hi. destruct (M zi Hi) as [K P]. split; [by eapply same_ok|]. intros p. rewrite O2.
  rewrite (sl_start _ _ (O1 zi)), (sl_size _ _ (O1 zi)). apply P.
Qed.
Lemma outside_avail s s' p : outside s s' -> page_avail s' p <-> page_avail s p.
Proof.
  intros [O1 O2]. unfold page_avail, in_zone. split; intros (zi & Hi & Z & A); exists zi;
    rewrite ?(sl_start _ _ (O1 zi)), ?(sl_size _ _ (O1 zi)), ?(same_avail _ _ _ (O1 zi)) in *; done.
Qed.
Lemma outside_block s s' zi p o : outside s s' -> is_block s' zi p o <-> is_block s zi p o.
Proof. intros [O1 _]. unfold is_block. by rewrite (sl_start _ _ (O1 zi)), (sl_size _ _ (O1 zi)). Qed.
Lemma outside_use s s' p o : outside s s' -> in_use s' p o <-> in_use s p o.
Proof.
  intros O. unfold in_use. split; intros [(zi & Hi & B) U]; (split; [exists zi; by rewrite (outside_block s s' zi p o O) in *|]);
    intros q Hq; specialize (U q Hq); by rewrite (outside_avail s s' q O) in *.
Qed.
Lemma outside_trans s1 s2 s3 : outside s1 s2 -> outside s2 s3 -> outside s1 s3.
Proof.
  intros [A1 A2] [B1 B2]. split; [|intros; congruence]. intros zi. destruct (A1 zi), (B1 zi). split; congruence.
Qed.

Lemma zone_bits f n : 0 <= n < ZONE_SHIFT -> Z.shiftr (Z.clearbit f n) ZONE_SHIFT = Z.shiftr f ZONE_SHIFT.
Proof.
  intros Hn. apply Z.bits_inj'. intros k Hk. rewrite !Z.shiftr_spec by done. rewrite Z.clearbit_eqb by lia.
  destruct (Z.eqb_spec n (k + ZONE_SHIFT)); [lia|]. by rewrite andb_true_r.
Qed.

Lemma outside_page p f s : (forall x, Z.shiftr (pg_flags (f x)) ZONE_SHIFT = Z.shiftr (pg_flags x) ZONE_SHIFT) -> outside s (set_page p f s).
Proof.
  intros Hf. split; [by intros zi|]. intros q. unfold page_zone. simpl. destruct (decide (q = p)) as [->|].
  - by rewrite fn_lookup_alter.
  - by rewrite fn_lookup_alter_ne.
Qed.
Lemma outside_zone zi f s : (forall z, same_lists z (f z)) -> outside s (set_zone zi f s).
Proof.
  intros Hf. split; [|done]. intros zj. destruct (decide (zj = zi)) as [->|]; [rewrite set_zone_same; apply Hf|].
  simpl. by rewrite fn_lookup_alter_ne.
Qed.
Lemma outside_clear n p s : 0 <= n < ZONE_SHIFT -> outside s (clear_flag n p s).
Proof. intros Hn. apply outside_page. intros x. by apply zone_bits. Qed.

(** A page leaves one of the lists of pages in use; [g] counts it. *)
Lemma outside_take n p f (g : mm -> mm) s : 0 <= n < ZONE_SHIFT -> (forall z, same_lists z (f z)) ->
  (forall s, zones (g s) = zones s) -> (forall s, mem_map (g s) = mem_map s) ->
  outside s (clear_flag n p (g (set_zone (page_zone p s) f s))).
Proof.
  intros Hn Hf Hg1 Hg2. eapply outside_trans; [apply (outside_zone (page_zone p s) f s Hf)|].
  eapply outside_trans; [|by apply outside_clear]. split; [intros zi; by rewrite Hg1|]. intros q. unfold page_zone. by rewrite Hg2.
Qed.

Lemma outside_active p s : outside s (del_page_from_active_list p s).
Proof. by apply (outside_take PG_active p _ (fun s => s <| nr_active_pages ::= Z.pred |>)). Qed.
Lemma outside_dirty p s : outside s (del_page_from_inactive_dirty_list p s).
Proof. by apply (outside_take PG_inactive_dirty p _ (fun s => s <| nr_inactive_dirty_pages ::= Z.pred |>)). Qed.
Lemma outside_cleanlist p s : outside s (del_page_from_inactive_clean_list p s).
Proof. by apply (outside_take PG_inactive_clean p _ (fun s => s <| nr_inactive_clean_pages ::= Z.pred |>)). Qed.

Lemma outside_lru p s : outside s (lru_cache_del p s).
Proof.
  unfold lru_cache_del. eapply outside_trans; [|by apply outside_clear].
  destruct (page_flag PG_active p s); [apply outside_active|].
  destruct (page_flag PG_inactive_dirty p s); [apply outside_dirty|].
  destruct (page_flag PG_inactive_clean p s); [apply outside_cleanlist|by split].
Qed.

Lemma flag_clear n m p s : page_flag n p (clear_flag m p s) = page_flag n p s && negb (m =? n).
Proof. unfold page_flag, clear_flag. simpl. rewrite fn_lookup_alter. simpl. apply Z.clearbit_eqb. Qed.

Lemma clear_page m p s : let x := mem_map (clear_flag m p s) p in
  pg_buffers x = pg_buffers (mem_map s p) /\ pg_mapping x = pg_mapping (mem_map s p) /\ pg_pte_chain x = pg_pte_chain (mem_map s p).
Proof. simpl. by rewrite fn_lookup_alter. Qed.

(** Off the lists, the page has no flag that stops it from being freed. *)
Definition clean (p : Z) (s : mm) : Prop :=
  let x := mem_map s p in
  p < max_mapnr s /\ page_flag PG_reserved p s = false /\ page_flag PG_locked p s = false /\
  page_flag PG_active p s = false /\ page_flag PG_inactive_dirty p s = false /\ page_flag PG_inactive_clean p s = false /\
  pg_buffers x = 0 /\ pg_mapping x = 0 /\ pg_pte_chain x = 0.

Lemma lru_clean p s : freeable p s -> clean p (if page_flag PG_lru p s then lru_cache_del p s else s).
Proof.
  intros (H1 & H2 & H3 & H4 & H5 & H6 & H7). destruct (page_flag PG_lru p s); [|destruct H7 as (? & ? & ?); by split_and!].
  assert (Hc : forall m s1, max_mapnr s1 = max_mapnr s -> mem_map s1 = mem_map (clear_flag m p s) ->
    (page_flag PG_active p s && negb (m =? PG_active) = false) -> (page_flag PG_inactive_dirty p s && negb (m =? PG_inactive_dirty) = false) ->
    (page_flag PG_inactive_clean p s && negb (m =? PG_inactive_clean) = false) -> clean p (clear_flag PG_lru p s1)).
  { intros m s1 E1 E2 F1 F2 F3. destruct (clear_page PG_lru p s1) as (C1 & C2 & C3). destruct (clear_page m p s) as (D1 & D2 & D3).
    assert (E3 : forall n, page_flag n p s1 = page_flag n p s && negb (m =? n)) by (intros n; rewrite <- flag_clear; unfold page_flag; by rewrite E2).
    unfold clean. cbv zeta. rewrite !flag_clear, !E3, C1, C2, C3, E2, D1, D2, D3, H2, H3, F1, F2, F3.
    split; [simpl; lia|]. by split_and!. }
  destruct H7 as (X1 & X2 & X3). unfold lru_cache_del.
  destruct (page_flag PG_active p s) eqn:A; [|destruct (page_flag PG_inactive_dirty p s) eqn:B; [|destruct (page_flag PG_inactive_clean p s) eqn:C]].
  - cbn [andb] in X1, X2. apply (Hc PG_active); [done|done|done|by rewrite X1|by rewrite X2].
  - cbn [andb] in X3. apply (Hc PG_inactive_dirty); [done|done|done|done|by rewrite X3].
  - by apply (Hc PG_inactive_clean).
  - destruct (clear_page PG_lru p s) as (C1 & C2 & C3). unfold clean. cbv zeta. rewrite !flag_clear, C1, C2, C3, H2, H3, A, B, C. by split_and!.
Qed.

(** ** Freeing *)

Lemma only_ok zi s s' : znum zi -> mm_ok s -> only zi s s' -> zone_ok 0 (zones s' zi) -> mm_ok s'.
Proof.
  intros Hi M O K zj Hj. destruct (decide (zj = zi)) as [->|Hne]; [split; [done|by eapply placed_only, M]|].
  destruct (M zj Hj) as [Kj Pj]. rewrite (on_zones _ _ _ O) by done. split; [done|]. intros p.
  unfold page_zone. rewrite (on_zones _ _ _ O), (on_pages _ _ _ O) by done. apply Pj.
Qed.

Lemma only_avail zi s s' (P : Z -> Prop) : znum zi -> mm_ok s ->
  (forall zj, zj <> zi -> zones s' zj = zones s zj) -> zone_start_mapnr (zones s' zi) = zone_start_mapnr (zones s zi) ->
  zsize (zones s' zi) = zsize (zones s zi) -> (forall q, in_zone s zi q ->
    avail (zones s' zi) (q - zone_start_mapnr (zones s zi)) <-> P q) ->
  forall q, page_avail s' q <-> ~ in_zone s zi q /\ page_avail s q \/ in_zone s zi q /\ P q.
Proof.
  intros Hi M O1 O2 O3 HP q. unfold page_avail. split.
  - intros (zj & Hj & Zj & A). destruct (decide (zj = zi)) as [->|Hne].
    + right. unfold in_zone in Zj. rewrite O2, O3 in Zj. rewrite O2 in A. split; [done|]. by apply HP.
    + left. unfold in_zone in Zj. rewrite O1 in Zj, A by done. split; [|by exists zj]. intros Zi. apply Hne.
      by apply (one_zone s zj zi q).
  - intros [[Zi (zj & Hj & Zj & A)]|[Zi HQ]].
    + exists zj. assert (zj <> zi) by (intros ->; done). unfold in_zone. rewrite O1 by done. done.
    + exists zi. unfold in_zone. rewrite O2, O3. split; [done|]. split; [done|]. by apply HP.
Qed.

Lemma free_ok s p o : mm_ok s -> in_use s p o -> freeable p s ->
  exists s', __free_pages_ok p o s = Some s' /\ mm_ok s' /\ (forall q, page_avail s' q <-> page_avail s q \/ in_block p o q) /\
    forall zj p' o', is_block s' zj p' o' <-> is_block s zj p' o'.
Proof.
  intros M U F. pose proof (lru_clean p s F) as C. unfold __free_pages_ok. cbv zeta. set (s1 := if page_flag PG_lru p s then _ else s) in *.
  assert (O1 : outside s s1) by (unfold s1; destruct (page_flag PG_lru p s); [apply outside_lru|by split]).
  clearbody s1. destruct C as (C1 & C2 & C3 & C4 & C5 & C6 & C7 & C8 & C9). rewrite C2, C3, C4, C5, C6, C7, C8, C9. cbn [Z.eqb negb orb].
  pose proof (outside_ok s s1 O1 M) as M1. apply (outside_use s s1 p o O1) in U. destruct U as [(zi & Hi & B) U].
  destruct (M1 zi Hi) as [K1 P1]. destruct (block_number s1 zi p o B) as (b & Ep & Hpos & Hend).
  pose proof B as (Ho & B1 & B2 & _). pose proof (pow_pos o (proj1 Ho)). pose proof (zk_start _ _ K1). pose proof (zk_size _ _ K1).
  rewrite u32_small by lia. destruct (Z.ltb_spec p (max_mapnr s1)); [|lia]. cbn [negb].
  set (s2 := set_page p _ s1). assert (O2 : outside s1 s2).
  { apply outside_page. intros x. simpl. by rewrite !zone_bits. }
  assert (Z2 : zones s2 = zones s1) by done. assert (O3 : outside s s2) by by eapply outside_trans.
  pose proof (outside_ok s s2 O3 M) as M2. destruct (M2 zi Hi) as [K2 P2].
  assert (Hh : hole (zones s2 zi) o b) by (rewrite Z2; by apply (use_hole s1 zi p o b)).
  assert (Ep2 : p = zone_start_mapnr (zones s2 zi) + b * 2 ^ o) by (by rewrite Z2).
  destruct (free_block_ok zi o b s2 K2 P2 Hh) as (s' & E & O & K' & A'). rewrite <- Ep2 in E. clearbody s2.
  exists s'. split; [done|]. split; [by apply (only_ok zi s2)|]. split.
  2:{ intros zj p' o'. rewrite <- (outside_block s s2 zj p' o' O3). unfold is_block.
      destruct (decide (zj = zi)) as [->|]; [by rewrite (on_start _ _ _ O), (on_size _ _ _ O)|by rewrite (on_zones _ _ _ O)]. }
  intros q. rewrite (only_avail zi s2 s' (fun q => page_avail s2 q \/ in_block p o q) Hi M2 (on_zones _ _ _ O) (on_start _ _ _ O) (on_size _ _ _ O)).
  - rewrite <- (outside_avail s s2 q O3). split; [tauto|]. intros [Hq|Hq].
    + destruct (decide (in_zone s2 zi q)); [right|left]; tauto.
    + right. split; [|tauto]. unfold in_zone, in_block in *. rewrite Z2. lia.
  - intros q' Zq. rewrite A', (avail_zone s2 zi q' M2 Hi Zq), <- (in_block_div _ p o q' b (proj1 Ho) Ep2). done.
Qed.

(** ** Allocating *)

(** Available pages are on no list of pages in use. *)
Definition tidy (s : mm) : Prop := forall p, page_avail s p -> DEBUG_LRU_PAGE p s = false.

Lemma avail_range d z i : zone_ok d z -> avail z i -> 0 <= i < zsize z.
Proof.
  intros K [(o & Ho & Hc)|Hp].
  - destruct (blk_range d z o _ K Ho Hc) as [B1 B2]. pose proof (pow_pos o (proj1 Ho)).
    pose proof (Z.div_mod i (2 ^ o) ltac:(lia)). pose proof (Z.mod_pos_bound i (2 ^ o) ltac:(lia)). nia.
  - pose proof (proj1 (zk_pcp _ _ K _ Hp)). lia.
Qed.

Lemma tidy_unlisted s zi : mm_ok s -> znum zi -> tidy s -> unlisted zi s.
Proof.
  intros M Hi T i Hav. apply T. exists zi. split; [done|]. replace (zone_start_mapnr (zones s zi) + i - zone_start_mapnr (zones s zi)) with i by lia.
  split; [|done]. destruct (M zi Hi) as [K _]. pose proof (avail_range 0 _ i K Hav). unfold in_zone. lia.
Qed.

Lemma block_alloc_ok s zi o : mm_ok s -> tidy s -> znum zi -> ord o -> exists s' r, rmqueue zi o s = Some (s', r) /\ mm_ok s' /\
  match r with
  | Some p => is_block s zi p o /\ in_use s' p o /\ pg_count (mem_map s' p) = 1 /\ (forall q, in_block p o q -> page_avail s q) /\
      (forall q, page_avail s' q <-> page_avail s q /\ ~ in_block p o q) /\
      (forall zj p' o', is_block s' zj p' o' <-> is_block s zj p' o')
  | None => s' = s /\ exhausted o (zones s zi)
  end.
Proof.
  intros M T Hi Ho. destruct (M zi Hi) as [K P]. destruct (rmqueue_ok zi o s Ho K P (tidy_unlisted s zi M Hi T)) as [(s' & q & E & K' & O & A)|[E X]].
  2:{ exists s, None. done. }
  exists s', (Some q). split; [done|]. destruct A as [(b & Eq & Hh & Hb & Ha) Em]. destruct O as [O1 O2 O3 O4 O5].
  assert (Pz : forall p, page_zone p s' = page_zone p s).
  { intros p. unfold page_zone. rewrite Em. destruct (decide (p = q)) as [->|]; [by rewrite fn_lookup_alter|by rewrite fn_lookup_alter_ne]. }
  assert (M' : mm_ok s').
  { intros zj Hj. destruct (decide (zj = zi)) as [->|Hne]; [split; [done|]|].
    - intros p. rewrite Pz, O4, O5. apply P.
    - destruct (M zj Hj) as [Kj Pj]. rewrite O1 by done. split; [done|]. intros p. rewrite Pz, O1 by done. apply Pj. }
  assert (Bl : forall zj p' o', is_block s' zj p' o' <-> is_block s zj p' o').
  { intros zj p' o'. unfold is_block. destruct (decide (zj = zi)) as [->|Hne]; [by rewrite O4, O5|by rewrite O1]. }
  split; [done|]. destruct (h_range _ _ _ Hh) as [Hpos Hend]. rewrite O5 in Hend.
  assert (B : is_block s zi q o) by (rewrite Eq; by apply block_of_number).
  assert (Q : forall p, in_block q o p <-> (p - zone_start_mapnr (zones s zi)) / 2 ^ o = b) by (intros p; by apply in_block_div; [apply Ho|]).
  assert (R : forall p, in_block q o p -> in_zone s zi p) by (intros p Hp; pose proof B as (_ & ? & ? & _); unfold in_block, in_zone in *; lia).
  split; [done|]. split; [|split; [rewrite Em, fn_lookup_alter; done|split; [|split; [|done]]]].
  - split; [exists zi; by rewrite Bl|]. apply (use_hole s' zi q o b M' Hi); [by rewrite Bl|by rewrite O4|done].
  - intros p Hp. apply (avail_zone s zi p M Hi (R p Hp)). by apply Hb, Q.
  - intros p. rewrite (only_avail zi s s' (fun p => page_avail s p /\ ~ in_block q o p) Hi M O1 O4 O5).
    + split; [|destruct (decide (in_zone s zi p)); [right|left]; tauto].
      intros [[Zp A]|[_ ?]]; [|done]. split; [done|]. intros Hp. by apply Zp, R.
    + intros p' Zp. rewrite Ha, (avail_zone s zi p' M Hi Zp), Q. done.
Qed.

(** ** What freeing and allocating leave alone *)

(** Pages, flags, the lists of clean pages and the places of the zones are as before. *)
Definition sizes_kept (s s' : mm) : Prop :=
  forall zi, zsize (zones s' zi) = zsize (zones s zi) /\ zone_start_mapnr (zones s' zi) = zone_start_mapnr (zones s zi).
Lemma sizes_refl s : sizes_kept s s.
Proof. done. Qed.
Lemma sizes_trans s1 s2 s3 : sizes_kept s1 s2 -> sizes_kept s2 s3 -> sizes_kept s1 s3.
Proof. intros A B zi. destruct (A zi), (B zi). split; congruence. Qed.

Record lists_kept (s s' : mm) : Prop := ListsKept {
  lk_pages : mem_map s' = mem_map s;
  lk_max : max_mapnr s' = max_mapnr s;
  lk_flags : mm_flags s' = mm_flags s;
  lk_lists : forall zi, inactive_clean_list (zones s' zi) = inactive_clean_list (zones s zi);
  lk_sizes : sizes_kept s s'
}.
Lemma lists_refl s : lists_kept s s.
Proof. by split. Qed.
Lemma lists_trans s1 s2 s3 : lists_kept s1 s2 -> lists_kept s2 s3 -> lists_kept s1 s3.
Proof. intros [A1 A2 A3 A4 A5] [B1 B2 B3 B4 B5]. split; [congruence..| |by eapply sizes_trans]. intros zi. by rewrite B4. Qed.
Lemma lists_zone zi f s : (forall z, inactive_clean_list (f z) = inactive_clean_list z /\ zsize (f z) = zsize z /\ zone_start_mapnr (f z) = zone_start_mapnr z) ->
  lists_kept s (set_zone zi f s).
Proof.
  intros Hf. split; [done..| |]; intros zj; simpl; (destruct (decide (zj = zi)) as [->|]; [rewrite fn_lookup_alter|by rewrite fn_lookup_alter_ne]);
    by destruct (Hf (zones s zi)) as (? & ? & ?).
Qed.

Lemma change_kept zi o nr s s' v : __test_and_change_bit zi o nr s = Some (s', v) -> lists_kept s s'.
Proof. unfold __test_and_change_bit. destruct (_ || _); [done|]. intros [= <- _]. by apply lists_zone. Qed.
Lemma del_kept zi p s s' : memlist_del zi p s = Some s' -> lists_kept s s'.
Proof. unfold memlist_del. destruct (_ || _); [|done]. intros [= <-]. by apply lists_zone. Qed.

Lemma coalesce_kept fuel zi mask o index idx s s' o' idx' : coalesce fuel zi mask o index idx s = Some (s', o', idx') -> lists_kept s s'.
Proof.
  revert mask o index idx s. induction fuel as [|fuel IH]; intros mask o index idx s; simpl; [done|].
  destruct (_ =? 0); [intros [= <- _ _]; apply lists_refl|]. destruct (MAX_ORDER <=? o); [done|].
  destruct (__test_and_change_bit zi o index s) as [[s1 bit]|] eqn:E1; [|done]. cbn [mbind option_bind].
  apply change_kept in E1. destruct bit; cbn [negb]; [|by intros [= <- _ _]].
  destruct (_ || _); [done|]. destruct (memlist_del _ _ s1) as [s2|] eqn:E2; [|done]. cbn [mbind option_bind].
  apply del_kept in E2. intros E%IH. by eapply lists_trans, lists_trans.
Qed.

Lemma free_block_kept p o s s' : free_block p o s = Some s' -> lists_kept s s'.
Proof.
  unfold free_block. cbv zeta. destruct (negb _); [done|]. destruct (_ && _); [intros [= <-]; by apply lists_zone|].
  destruct (coalesce _ _ _ _ _ _ _) as [[[s2 o'] idx]|] eqn:E; [|done]. cbn [mbind option_bind]. intros [= <-].
  apply coalesce_kept in E. eapply lists_trans; [|by apply lists_zone]. eapply lists_trans; [|exact E]. by apply lists_zone.
Qed.

Lemma expand_kept k : forall zi p index low s s' q, expand k zi p index low s = Some (s', q) -> lists_kept s s'.
Proof.
  induction k as [|k IH]; intros zi p index low s s' q; simpl; (destruct (BAD_RANGE zi p s); [done|]); [intros [= <- _]; apply lists_refl|].
  unfold MARK_USED. destruct (__test_and_change_bit _ _ _ _) as [[s1 bit]|] eqn:E; [|done]. simpl. apply change_kept in E. intros H%IH.
  eapply lists_trans; [|exact H]. eapply lists_trans; [|exact E]. by apply lists_zone.
Qed.

Definition counted (r : option Z) (s : mm) : mm := match r with Some p => set_page_count p 1 s | None => s end.
Lemma search_kept n : forall zi o c s s' r, rmqueue_from n zi o c s = Some (s', r) -> exists s1, lists_kept s s1 /\ s' = counted r s1.
Proof.
  induction n as [|n IH]; intros zi o c s s' r; cbn [rmqueue_from]; [intros [= <- <-]; exists s; split; [apply lists_refl|done]|].
  destruct (free_list (zones s zi) c) as [|p l]; [apply IH|]. cbv zeta. destruct (BAD_RANGE zi p s); [done|].
  destruct (memlist_del zi p s) as [s1|] eqn:E1; [|done]. cbn [mbind option_bind]. apply del_kept in E1.
  assert (M : forall s2, (if c =? MAX_ORDER - 1 then Some s1 else MARK_USED zi (p - zone_start_mapnr (zones s zi)) c s1) = Some s2 -> lists_kept s1 s2).
  { intros s2. destruct (c =? _); [intros [= <-]; apply lists_refl|]. unfold MARK_USED. destruct (__test_and_change_bit _ _ _ _) as [[x v]|] eqn:E; [|done]. intros [= <-]. by eapply change_kept. }
  destruct (if c =? MAX_ORDER - 1 then _ else _) as [s2|] eqn:E2; [|done]. specialize (M s2 eq_refl). cbn [mbind option_bind].
  destruct (expand _ _ _ _ _ _) as [[s4 q]|] eqn:E4; [|done]. cbn [mbind option_bind]. apply expand_kept in E4. destruct (DEBUG_LRU_PAGE q _); [done|].
  intros [= <- <-]. exists s4. split; [|done]. eapply lists_trans; [exact E1|]. eapply lists_trans; [exact M|]. eapply lists_trans; [|exact E4]. by apply lists_zone.
Qed.

Lemma rmqueue_kept zi o s s' r : rmqueue zi o s = Some (s', r) -> exists s1, lists_kept s s1 /\ s' = counted r s1.
Proof.
  unfold rmqueue. cbv zeta. destruct (_ && _).
  - destruct (pcp (zones s zi)) as [|p l]; [done|]. intros [= <- <-]. eexists. split; [|done]. by apply lists_zone.
  - destruct (MAX_ORDER <=? o); [done|]. apply search_kept.
Qed.

Lemma counted_flags n q r s : page_flag n q (counted r s) = page_flag n q s.
Proof.
  destruct r as [p|]; [|done]. unfold counted, page_flag, set_page_count, set_page. simpl. destruct (decide (q = p)) as [->|]; [by rewrite fn_lookup_alter|by rewrite fn_lookup_alter_ne].
Qed.
Lemma counted_listed q r s : DEBUG_LRU_PAGE q (counted r s) = DEBUG_LRU_PAGE q s.
Proof. unfold DEBUG_LRU_PAGE. by rewrite !counted_flags. Qed.
Lemma kept_listed s s' q : lists_kept s s' -> DEBUG_LRU_PAGE q s' = DEBUG_LRU_PAGE q s.
Proof. intros K. unfold DEBUG_LRU_PAGE, page_flag. by rewrite (lk_pages _ _ K). Qed.

Lemma alloc_tidy s s' zi o p : rmqueue zi o s = Some (s', Some p) -> (forall q, page_avail s' q -> page_avail s q) -> tidy s -> tidy s'.
Proof.
  intros E A T q Hq. destruct (rmqueue_kept _ _ _ _ _ E) as (s1 & K & ->). rewrite counted_listed, (kept_listed s s1 q K). by apply T, A.
Qed.

(** Only the page [p] changes. *)
Definition else_same (p : Z) (s s' : mm) : Prop := (forall q, q <> p -> mem_map s' q = mem_map s q) /\ max_mapnr s' = max_mapnr s.
Lemma else_page p f s : else_same p s (set_page p f s).
Proof. split; [|done]. intros q Hq. simpl. by rewrite fn_lookup_alter_ne. Qed.
Lemma else_trans p s1 s2 s3 : else_same p s1 s2 -> else_same p s2 s3 -> else_same p s1 s3.
Proof. intros [A1 A2] [B1 B2]. split; [|congruence]. intros q Hq. by rewrite B1, A1. Qed.
Lemma else_lru p s : else_same p s (lru_cache_del p s).
Proof.
  unfold lru_cache_del. eapply else_trans; [|apply else_page].
  destruct (page_flag PG_active p s); [|destruct (page_flag PG_inactive_dirty p s); [|destruct (page_flag PG_inactive_clean p s); [|done]]];
    (split; [intros q Hq; simpl; by rewrite fn_lookup_alter_ne|done]).
Qed.

Lemma clean_eq p s s' : mem_map s' p = mem_map s p -> max_mapnr s' = max_mapnr s -> clean p s -> clean p s'.
Proof. intros E1 E2. unfold clean, page_flag. by rewrite E1, E2. Qed.

Lemma free_frame p o s s' : freeable p s -> __free_pages_ok p o s = Some s' -> else_same p s s' /\ clean p s'.
Proof.
  intros F. pose proof (lru_clean p s F) as C. unfold __free_pages_ok. cbv zeta. set (s1 := if page_flag PG_lru p s then _ else s) in *.
  assert (E1 : else_same p s s1) by (unfold s1; destruct (page_flag PG_lru p s); [apply else_lru|done]). clearbody s1.
  destruct C as (C1 & C2 & C3 & C4 & C5 & C6 & C7 & C8 & C9). rewrite C2. repeat (match goal with |- (if ?c then None else _) = _ -> _ => destruct c; [done|] end).
  set (s2 := set_page p _ s1). intros [K1 K2 _ _ _]%free_block_kept. split.
  - eapply else_trans; [exact E1|]. assert (E2 : else_same p s1 s2) by apply else_page. eapply else_trans; [exact E2|]. split; [intros q _; by rewrite K1|done].
  - apply (clean_eq p s2); [by rewrite K1|done|]. assert (Ef : forall n, page_flag n p s2 = page_flag n p s1 && negb (PG_referenced =? n) && negb (PG_dirty =? n)).
    { intros n. unfold page_flag, s2, set_page. simpl. rewrite fn_lookup_alter. simpl. by rewrite !Z.clearbit_eqb. }
    assert (Ex : pg_buffers (mem_map s2 p) = 0 /\ pg_mapping (mem_map s2 p) = 0 /\ pg_pte_chain (mem_map s2 p) = 0) by (unfold s2, set_page; simpl; by rewrite fn_lookup_alter).
    unfold clean. cbv zeta. rewrite !Ef, C2, C3, C4, C5, C6. destruct Ex as (-> & -> & ->). by split_and!.
Qed.

Lemma clean_listed p s : clean p s -> DEBUG_LRU_PAGE p s = false.
Proof. intros (_ & _ & _ & A & B & C & _). unfold DEBUG_LRU_PAGE. by rewrite A, B, C. Qed.

(** Besides the first, the pages of the block are on no list of pages in use. *)
Definition loose (p o : Z) (s : mm) : Prop := forall q, in_block p o q -> q <> p -> DEBUG_LRU_PAGE q s = false.
Lemma free_tidy p o s s' : freeable p s -> loose p o s -> __free_pages_ok p o s = Some s' ->
  (forall q, page_avail s' q <-> page_avail s q \/ in_block p o q) -> tidy s -> tidy s'.
Proof.
  intros F Lo E A T q Hq. destruct (free_frame p o s s' F E) as [[E1 _] C]. destruct (decide (q = p)) as [->|Hne]; [by apply clean_listed|].
  assert (X : DEBUG_LRU_PAGE q s' = DEBUG_LRU_PAGE q s) by (unfold DEBUG_LRU_PAGE, page_flag; by rewrite E1). rewrite X. apply A in Hq as [Hq|Hq]; auto.
Qed.

(** * The zones at boot *)

(** A zone before it is set up. *)
Record blank (z : zone) : Prop := Blank {
  bl_lists : forall o, free_list z o = []; bl_start : zone_start_mapnr z = 0; bl_nr : nr_pages z = 0;
  bl_map : forall o k, free_map z o k = false
}.

Lemma long_align x : 0 <= x -> x <= LONG_ALIGN x.
Proof.
  intros Hx. unfold LONG_ALIGN. rewrite <- Z.ldiff_land. change 3 with (Z.ones 2) at 2. rewrite Z.ldiff_ones_r by lia.
  rewrite Z.shiftl_mul_pow2, Z.shiftr_div_pow2 by lia. change (2 ^ 2) with 4. pose proof (Z.div_mod (x + 3) 4 ltac:(lia)).
  pose proof (Z.mod_pos_bound (x + 3) 4 ltac:(lia)). lia.
Qed.

(** The bitmap of an order has a bit for every pair. *)
Lemma bitmap_big size o k : 0 < size -> 0 <= o -> 0 <= k -> k * 2 ^ (o + 1) < size -> k < 8 * bitmap_size size o.
Proof.
  intros Hs Ho Hk H. unfold bitmap_size. rewrite Z.shiftr_div_pow2 by lia.
  assert (Hd : 0 <= (size - 1) / 2 ^ (o + 4)) by (apply Z.div_pos; [lia|apply Z.pow_pos_nonneg; lia]).
  pose proof (long_align ((size - 1) / 2 ^ (o + 4) + 1) ltac:(lia)).
  assert (E : (size - 1) / 2 ^ (o + 4) = (size - 1) / 2 ^ (o + 1) / 8).
  { replace (o + 4) with (o + 1 + 3) by lia. rewrite (Z.pow_add_r 2 (o + 1)) by lia. rewrite <- Z.div_div; [done|apply Z.pow_nonzero; lia|done]. }
  assert (k <= (size - 1) / 2 ^ (o + 1)) by (apply Z.div_le_lower_bound; [apply Z.pow_pos_nonneg; lia|lia]).
  rewrite E in *. pose proof (Z.div_mod ((size - 1) / 2 ^ (o + 1)) 8 ltac:(lia)). pose proof (Z.mod_pos_bound ((size - 1) / 2 ^ (o + 1)) 8 ltac:(lia)).
  lia.
Qed.

Lemma per_cpu_max_range n : 0 <= n -> 0 <= per_cpu_max n.
Proof.
  intros Hn. unfold per_cpu_max. rewrite Z.div_1_r. assert (0 <= n / 128) by (apply Z.div_pos; lia).
  destruct (MAX_PER_CPU_PAGES <? n / 128); [done|]. by destruct (n / 128 =? 0).
Qed.

(** A zone without free pages. *)
Lemma fresh_ok z : 0 <= zone_start_mapnr z -> 0 <= zsize z -> zone_start_mapnr z + zsize z < 2 ^ 31 ->
  (forall o, ord o -> free_list z o = []) -> (forall o k, ord o -> o < MAX_ORDER - 1 -> free_map z o k = false) ->
  (0 < zsize z -> forall o, ord o -> o < MAX_ORDER - 1 -> map_bits z o = 8 * bitmap_size (zsize z) o) ->
  pcp z = [] -> nr_pages z = 0 -> 0 <= max_nr_pages z -> free_pages z = 0 -> zone_ok 0 z /\ forall i, ~ avail z i.
Proof.
  intros H1 H2 H3 HL HB HM HP HN HX HF.
  assert (Hb : forall o b, ord o -> ~ blk z o b) by (intros o b Ho; unfold blk; rewrite HL by done; apply not_elem_of_nil).
  assert (Hf : forall i, ~ free_page z i) by (intros i (o & Ho & Hc); by apply (Hb o (i / 2 ^ o) Ho)).
  split; [|intros i [Hi|Hi]; [by apply (Hf i)|rewrite HP in Hi; by apply not_elem_of_nil in Hi]].
  split; try done.
  - intros o p Ho. rewrite HL by done. by intros ?%not_elem_of_nil.
  - intros o Ho. rewrite HL by done. apply NoDup_nil_2.
  - intros o o' i Ho _ Hc. by destruct (Hb o _ Ho Hc).
  - intros o k Ho Hl Hk. rewrite HB by done. rewrite !bool_decide_false by auto. done.
  - intros o k Ho _ _ Hx. by destruct (Hb o _ Ho Hx).
  - intros o k Ho Hl Hk H. pose proof (pow_pos (o + 1) ltac:(unfold ord in Ho; lia)). rewrite HM by (done || nia).
    apply bitmap_big; [nia|apply Ho|done|done].
  - intros p. rewrite HP. by intros ?%not_elem_of_nil.
  - rewrite HP. apply NoDup_nil_2.
  - rewrite HN, HP. done.
  - rewrite HF. unfold fsum. assert (E : orders = [0; 1; 2; 3; 4; 5; 6; 7; 8; 9]) by reflexivity. rewrite E. cbn [foldr].
    rewrite !HL by (unfold ord, MAX_ORDER; lia). done.
Qed.

Lemma init_page_zone j x : 0 <= j -> Z.shiftr (pg_flags (init_page j x)) ZONE_SHIFT = j.
Proof.
  intros Hj. simpl. unfold set_page_zone. apply Z.bits_inj'. intros k Hk. rewrite Z.shiftr_spec by done.
  rewrite Z.setbit_eqb by done. destruct (Z.eqb_spec PG_reserved (k + ZONE_SHIFT)) as [E|_]; [unfold PG_reserved, ZONE_SHIFT in E; lia|].
  cbn [orb]. rewrite Z.lor_spec, Z.land_spec, Z.ones_spec_high by (unfold ZONE_SHIFT; lia). rewrite andb_false_r. cbn [orb].
  rewrite Z.shiftl_spec by (unfold ZONE_SHIFT; lia). f_equal. lia.
Qed.

(** The first [n] zones are set up, below [offset]; the others are blank.  [s0]: before boot. *)
Record booting (s0 : mm) (n offset : Z) (s : mm) : Prop := Booting {
  bo_ok : forall zi, 0 <= zi < n -> zone_ok 0 (zones s zi) /\ placed zi s /\
    zone_start_mapnr (zones s zi) + zsize (zones s zi) <= offset /\ forall i, ~ avail (zones s zi) i;
  bo_rest : forall zi, n <= zi -> blank (zones s zi);
  bo_pages : forall p, 0 <= p < offset -> exists zi, 0 <= zi < n /\ in_zone s zi p /\ mem_map s p = init_page zi (mem_map s0 p);
  bo_raw : forall p, offset <= p -> mem_map s p = mem_map s0 p;
  bo_max : max_mapnr s = max_mapnr s0
}.

Lemma init_zone_ok s0 ratio sizes holes total j s offset paddr nr : 0 <= j -> 0 <= offset -> 0 <= sizes j -> 0 <= holes j <= sizes j ->
  offset + sizes j < 2 ^ 31 -> booting s0 j offset s ->
  let '(s', offset', _, _) := init_zone ratio sizes holes 0 total j (s, offset, paddr, nr) in
  offset' = offset + sizes j /\ booting s0 (j + 1) offset' s'.
Proof.
  intros Hj Hof Hs Hh Hb [B1 B2 B3 B4 B5]. pose proof (B2 j ltac:(lia)) as [L S N F]. unfold init_zone. cbv zeta.
  pose proof (per_cpu_max_range (sizes j - holes j) ltac:(lia)) as Hpc.
  destruct (Z.eqb_spec (sizes j) 0) as [E|E].
  - split; [lia|]. rewrite E. split.
    + intros zi Hz. destruct (decide (zi = j)) as [->|Hne].
      * rewrite set_zone_same. destruct (fresh_ok (empty_zone 0 (0 - holes j) (zones s j))) as [K A]; simpl.
        { by rewrite S. } { done. } { by rewrite S. } { by intros; rewrite L. } { by intros; rewrite F. } { intros; lia. } { done. }
        { done. } { by rewrite E in Hpc. } { done. }
        split; [done|]. split; [intros p; simpl; rewrite fn_lookup_alter; simpl; lia|]. simpl. rewrite S. split; [lia|done].
      * destruct (B1 zi ltac:(lia)) as (K & P & Hend & A). simpl. rewrite fn_lookup_alter_ne by done. split; [done|]. split; [|done].
        intros p. simpl. rewrite fn_lookup_alter_ne by done. apply P.
    + intros zi Hz. simpl. rewrite fn_lookup_alter_ne by lia. apply B2. lia.
    + intros p Hp. destruct (B3 p ltac:(lia)) as (zi & Hz & Zz & Em). exists zi. split; [lia|]. split; [|done].
      unfold in_zone. simpl. by rewrite fn_lookup_alter_ne by lia.
    + intros p Hp. apply B4. lia.
    + done.
  - split; [done|]. set (s2 := set_zone j _ (set_zone j _ s)).
    set (s3 := s2 <| mem_map ::= _ |>). assert (Z3 : zones s3 = zones s2) by done.
    assert (Zj : forall zi, zi <> j -> zones s2 zi = zones s zi) by (intros zi Hne; unfold s2; simpl; by rewrite !fn_lookup_alter_ne).
    assert (P3 : forall p, mem_map s3 p = if (offset <=? p) && (p <? offset + sizes j) then init_page (0 * MAX_NR_ZONES + j) (mem_map s p) else mem_map s p) by done.
    split.
    + intros zi Hz. rewrite Z3. destruct (decide (zi = j)) as [->|Hne].
      * assert (Zz : zone_start_mapnr (zones s2 j) = offset /\ zsize (zones s2 j) = sizes j)
          by (unfold s2; rewrite !set_zone_same; done). destruct Zz as [Z1 Z2].
        assert (KA : zone_ok 0 (zones s2 j) /\ forall i, ~ avail (zones s2 j) i).
        { apply fresh_ok; rewrite ?Z1, ?Z2; try done; try (unfold s2; rewrite !set_zone_same; simpl; first [done|exact N|exact Hpc|idtac]).
          - intros o [Ho1 Ho2]. destruct (Z.leb_spec 0 o); [|lia]. destruct (Z.ltb_spec o MAX_ORDER); [done|lia].
          - intros o k [Ho1 Ho2] Hl. destruct (Z.leb_spec 0 o); [|lia]. destruct (Z.ltb_spec o (MAX_ORDER - 1)); [done|lia].
          - intros _ o [Ho1 Ho2] Hl. destruct (Z.leb_spec 0 o); [|lia]. destruct (Z.ltb_spec o (MAX_ORDER - 1)); [done|lia]. }
        destruct KA as [K A].
        split; [done|]. split; [|rewrite Z1, Z2; split; [lia|done]].
        intros p. rewrite Z3, Z1, Z2. intros Hp. unfold page_zone. rewrite P3.
           destruct (Z.leb_spec offset p); [|lia]. destruct (Z.ltb_spec p (offset + sizes j)); [|lia]. cbn [andb].
           rewrite init_page_zone by lia. lia.
      * destruct (B1 zi ltac:(lia)) as (K & P & Hend & A). rewrite Zj by done. split; [done|]. split; [|split; [lia|done]].
        intros p. rewrite Z3, Zj by done. intros Hp. unfold page_zone. rewrite P3. destruct (Z.leb_spec offset p); [lia|]. by apply P.
    + intros zi Hz. rewrite Z3, Zj by lia. apply B2. lia.
    + intros p Hp. rewrite P3. destruct (Z.leb_spec offset p).
      * destruct (Z.ltb_spec p (offset + sizes j)); [|lia]. cbn [andb]. exists j. split; [lia|]. split; [|rewrite B4 by lia; f_equal; lia].
        unfold in_zone. rewrite Z3. unfold s2. rewrite !set_zone_same. simpl. lia.
      * cbn [andb]. destruct (B3 p ltac:(lia)) as (zi & Hz & Zz & Em). exists zi. split; [lia|]. split; [|done].
        unfold in_zone. rewrite Z3, Zj by lia. done.
    + intros p Hp. rewrite P3. destruct (Z.ltb_spec p (offset + sizes j)); [lia|]. rewrite andb_false_r. apply B4. lia.
    + done.
Qed.

(** The state after [free_area_init]: consistent, and no page available yet, every page reserved. *)
Lemma boot_ok ratio sizes s d : (forall zi, blank (zones s zi)) -> (forall j, 0 <= sizes j) -> sizes 0 + sizes 1 + sizes 2 < 2 ^ 31 ->
  exists s' d', free_area_init ratio sizes s d = Some (s', d') /\ mm_ok s' /\ (forall p, ~ page_avail s' p) /\
    max_mapnr s' = max_mapnr s /\
    forall p, 0 <= p < sizes 0 + sizes 1 + sizes 2 -> exists zi, znum zi /\ in_zone s' zi p /\ mem_map s' p = init_page zi (mem_map s p).
Proof.
  intros Hb Hs Ht. unfold free_area_init, free_area_init_core. cbn [Z.land Z.eqb negb]. cbv zeta.
  cbn [fold_left]. assert (B0 : booting s 0 0 s) by (split; [lia|auto|lia|done|done]). pose proof (Hs 0). pose proof (Hs 1). pose proof (Hs 2).
  match goal with |- context [init_zone ratio sizes ?h 0 ?t ZONE_DMA ?st] =>
    pose proof (init_zone_ok s ratio sizes h t ZONE_DMA s 0 0 0 ltac:(done) ltac:(done) (Hs _) ltac:(split; [done|apply Hs]) ltac:(unfold ZONE_DMA; lia) B0) as I0;
    destruct (init_zone ratio sizes h 0 t ZONE_DMA st) as [[[s0 o0] p0] n0] end. destruct I0 as [E0 B1].
  match goal with |- context [init_zone ratio sizes ?h 0 ?t ZONE_NORMAL ?st] =>
    pose proof (init_zone_ok s ratio sizes h t ZONE_NORMAL s0 o0 p0 n0 ltac:(done) ltac:(unfold ZONE_DMA in *; lia) (Hs _) ltac:(split; [done|apply Hs]) ltac:(unfold ZONE_DMA, ZONE_NORMAL in *; lia) B1) as I1;
    destruct (init_zone ratio sizes h 0 t ZONE_NORMAL st) as [[[s1 o1] p1] n1] end. destruct I1 as [E1 B2].
  match goal with |- context [init_zone ratio sizes ?h 0 ?t ZONE_HIGHMEM ?st] =>
    pose proof (init_zone_ok s ratio sizes h t ZONE_HIGHMEM s1 o1 p1 n1 ltac:(done) ltac:(unfold ZONE_DMA, ZONE_NORMAL in *; lia) (Hs _) ltac:(split; [done|apply Hs]) ltac:(unfold ZONE_DMA, ZONE_NORMAL, ZONE_HIGHMEM in *; lia) B2) as I2;
    destruct (init_zone ratio sizes h 0 t ZONE_HIGHMEM st) as [[[s2 o2] p2] n2] end. destruct I2 as [E2 [B3 _ B5 _ B6]].
  eexists _, _. split; [done|]. split.
  - intros zi Hz. destruct (B3 zi Hz) as (K & P & _). done.
  - split; [intros p (zi & Hz & _ & A); destruct (B3 zi Hz) as (_ & _ & _ & N); by apply (N _ A)|]. split; [done|].
    intros p Hp. apply B5. unfold ZONE_DMA, ZONE_NORMAL, ZONE_HIGHMEM in *. lia.
Qed.
