(* ===== verification/BuddyTheorems.v ===== *)
(** * What the page allocator promises

    Freeing and allocating refine operations on the set of available pages; two blocks that
    were allocated and not yet freed do not overlap; the counter of free pages counts
    the pages of the free blocks. *)
From stdpp Require Import base list functions.
From S2P Require Import Prelude Pages PidHash Bitmap Sched Buddy ZoneInit BuddyInv BuddySteps BuddyPages.

(** ** Refinement *)

(** C28. Freeing refines putting a block into the set of available pages.  If the zones are
    consistent, no page of the aligned block is available, and its first page is free of
    buffers, mappings and other users (it may be on a list of pages in use), then
    [__free_pages_ok] ends without [BUG()] or an access outside a bitmap, the zones are
    consistent again, free buddies merged, and exactly the pages of the block have become
    available. *)
Theorem free_refines s p o : mm_ok s -> in_use s p o -> freeable p s ->
  exists s', __free_pages_ok p o s = Some s' /\ mm_ok s' /\ forall q, page_avail s' q <-> page_avail s q \/ in_block p o q.
Proof. intros M U F. destruct (free_ok s p o M U F) as (s' & E & M' & A & _). by exists s'. Qed.

(** C29. Allocating refines taking a block out of the set of available pages.  On consistent
    zones, no available page being on a list of pages in use, [rmqueue] ends without [BUG()].  If it returns a page, that page starts an
    aligned block of the zone all of whose pages were available, they are in use now and
    every other page is as before, and the count of the page is 1.  If it returns nothing,
    nothing changed and no aligned block of the order has all its pages in free blocks:
    fragmentation is never the fault of unmerged buddies. *)
Theorem alloc_refines s zi o : mm_ok s -> tidy s -> znum zi -> ord o -> exists s' r, rmqueue zi o s = Some (s', r) /\ mm_ok s' /\ tidy s' /\
  match r with
  | Some p => is_block s zi p o /\ in_use s' p o /\ pg_count (mem_map s' p) = 1 /\ (forall q, in_block p o q -> page_avail s q) /\
      (forall q, page_avail s' q <-> page_avail s q /\ ~ in_block p o q)
  | None => s' = s /\ forall b, 0 <= b -> ~ forall i, i / 2 ^ o = b -> free_page (zones s zi) i
  end.
Proof.
  intros M T Hi Ho. destruct (block_alloc_ok s zi o M T Hi Ho) as (s' & r & E & M' & H). exists s', r. split; [done|]. split; [done|].
  destruct r as [p|]; [|split; [by destruct H as [-> _]|exact H]]. destruct H as (H1 & H2 & H3 & H4 & H5 & _). split; [|done].
  apply (alloc_tidy s s' zi o p E); [intros q Hq; by apply H5|done].
Qed.

(** ** Counting *)

(** The pages of the free blocks. *)
Definition pages_of (z : zone) (o : Z) : list Z := concat (map (fun p => seqZ (p - zone_start_mapnr z) (2 ^ o)) (free_list z o)).
Definition listed (z : zone) : list Z := concat (map (pages_of z) orders).

Lemma NoDup_concat {A B} (f : A -> list B) l : NoDup l -> (forall x, x ∈ l -> NoDup (f x)) ->
  (forall x y b, x ∈ l -> y ∈ l -> b ∈ f x -> b ∈ f y -> x = y) -> NoDup (concat (map f l)).
Proof.
  induction l as [|x l IH]; intros Hn Hf Hd; [apply NoDup_nil_2|]. apply list.NoDup_cons in Hn as [Hx Hn]. simpl.
  apply list.NoDup_app. split; [apply Hf, list_elem_of_here|]. split.
  - intros b Hb Hc. apply list_elem_of_In, in_concat in Hc as (k & Hk & Hb'). apply in_map_iff in Hk as (y & <- & Hy).
    apply list_elem_of_In in Hy. apply Hx. rewrite (Hd x y b); [done|apply list_elem_of_here|by apply elem_of_cons; right|done|by apply list_elem_of_In].
  - apply IH; [done|intros y Hy; apply Hf; by apply elem_of_cons; right|]. intros y y' b Hy Hy'. apply Hd; by apply elem_of_cons; right.
Qed.

Lemma elem_concat {A B} (f : A -> list B) l b : b ∈ concat (map f l) <-> exists x, x ∈ l /\ b ∈ f x.
Proof.
  rewrite list_elem_of_In, in_concat. split.
  - intros (k & Hk & Hb). apply in_map_iff in Hk as (x & <- & Hx). exists x. split; by apply list_elem_of_In.
  - intros (x & Hx & Hb). exists (f x). split; [|by apply list_elem_of_In]. apply in_map_iff. exists x. split; [done|by apply list_elem_of_In].
Qed.

Lemma elem_pages d z o i : zone_ok d z -> ord o -> i ∈ pages_of z o <-> cov z o i.
Proof.
  intros K Ho. unfold pages_of. rewrite elem_concat. pose proof (pow_pos o (proj1 Ho)). split.
  - intros (p & Hp & Hi). apply elem_of_seqZ in Hi. destruct (zk_block _ _ K o p Ho Hp) as (b & -> & _ & _).
    unfold cov, blk. assert (Ei : i / 2 ^ o = b); [|by rewrite Ei]. symmetry. apply (Z.div_unique_pos _ _ _ (i - b * 2 ^ o)); lia.
  - intros Hc. exists (zone_start_mapnr z + i / 2 ^ o * 2 ^ o). split; [done|]. apply elem_of_seqZ.
    pose proof (Z.div_mod i (2 ^ o) ltac:(lia)). pose proof (Z.mod_pos_bound i (2 ^ o) ltac:(lia)). lia.
Qed.

Lemma orders_elem o : o ∈ orders <-> ord o.
Proof. unfold orders. rewrite elem_of_seqZ. unfold ord. lia. Qed.

Lemma listed_spec d z : zone_ok d z -> NoDup (listed z) /\ (forall i, i ∈ listed z <-> free_page z i) /\ Z.of_nat (length (listed z)) = fsum z.
Proof.
  intros K. split; [|split].
  - apply NoDup_concat; [apply NoDup_seqZ| |].
    + intros o Ho%orders_elem. pose proof (pow_pos o (proj1 Ho)). apply NoDup_concat; [by apply (zk_nodup _ _ K)|intros; apply NoDup_seqZ|].
      intros p q i Hp Hq Hi Hj. apply elem_of_seqZ in Hi, Hj.
      destruct (zk_block _ _ K o p Ho Hp) as (b & -> & _), (zk_block _ _ K o q Ho Hq) as (c & -> & _).
      destruct (Z.lt_trichotomy b c) as [?|[->|?]]; [exfalso; nia|done|exfalso; nia].
    + intros o o' i Ho%orders_elem Ho'%orders_elem Hi Hj. rewrite (elem_pages d) in Hi, Hj by done. by apply (zk_once _ _ K o o' i).
  - intros i. unfold listed. rewrite elem_concat. split; intros (o & Ho & Hi); exists o; rewrite orders_elem, (elem_pages d) in *; done || apply Ho.
  - assert (L : forall o, 0 <= o -> Z.of_nat (length (pages_of z o)) = 2 ^ o * Z.of_nat (length (free_list z o))).
    { intros o Ho. pose proof (pow_pos o Ho). unfold pages_of. induction (free_list z o) as [|p l IH]; [simpl; lia|]. cbn [map concat length].
      rewrite length_app, Nat2Z.inj_add, IH, length_seqZ. lia. }
    unfold listed, fsum. assert (E : orders = [0; 1; 2; 3; 4; 5; 6; 7; 8; 9]) by reflexivity. rewrite E. cbn [map concat foldr].
    rewrite !length_app, !Nat2Z.inj_add, !L by lia. cbn [length]. lia.
Qed.

Lemma free_count z : zone_ok 0 z -> free_pages z = Z.of_nat (length (listed z)) /\ Z.of_nat (length (listed z)) <= zsize z.
Proof.
  intros K. destruct (listed_spec 0 z K) as (N & E & S). pose proof (zk_size _ _ K). pose proof (zk_start _ _ K).
  assert (B : Z.of_nat (length (listed z)) <= zsize z).
  { assert (Hs : listed z ⊆+ seqZ 0 (zsize z)).
    { apply NoDup_submseteq; [done|]. intros i Hi. apply E in Hi as (o & Ho & Hc). apply elem_of_seqZ.
      destruct (blk_range 0 z o _ K Ho Hc) as [B1 B2]. pose proof (pow_pos o (proj1 Ho)).
      pose proof (Z.div_mod i (2 ^ o) ltac:(lia)). pose proof (Z.mod_pos_bound i (2 ^ o) ltac:(lia)). nia. }
    apply submseteq_length in Hs. rewrite length_seqZ in Hs. lia. }
  split; [|done]. rewrite (zk_free _ _ K), S, Z.add_0_r. apply u32_small. rewrite <- S. lia.
Qed.

(** ** Histories *)

(** [held l s]: the state [s] can come about, with the blocks of [l] (first page, order)
    allocated and not yet freed.  Memory that boot reserved can be freed too; an
    allocated block can be split in two; the rest of the kernel does what it likes with
    pages, but for their zones, and for the lists of pages in use, where it puts no page that is
    available or, but for the first, in a block that is freed. *)
Inductive held : list (Z * Z) -> mm -> Prop :=
  | h_boot ratio sizes s d s' d' : (forall zi, blank (zones s zi)) -> (forall j, 0 <= sizes j) -> sizes 0 + sizes 1 + sizes 2 < 2 ^ 31 ->
      free_area_init ratio sizes s d = Some (s', d') -> held [] s'
  | h_alloc l s zi o s' p : held l s -> znum zi -> ord o -> rmqueue zi o s = Some (s', Some p) -> held ((p, o) :: l) s'
  | h_free l1 l2 s p o s' : held (l1 ++ (p, o) :: l2) s -> freeable p s -> loose p o s -> __free_pages_ok p o s = Some s' -> held (l1 ++ l2) s'
  | h_release l s p o s' : held l s -> in_use s p o -> disjoint_from p o l -> freeable p s -> loose p o s -> __free_pages_ok p o s = Some s' -> held l s'
  | h_split l1 l2 s p o : held (l1 ++ (p, o + 1) :: l2) s -> 0 <= o -> held (l1 ++ (p, o) :: (p + 2 ^ o, o) :: l2) s
  | h_outside l s s' : held l s -> outside s s' -> tidy s' -> held l s'.

(** No block stays in use that was not. *)
Lemma use_less s s' p o : (forall zj p' o', is_block s' zj p' o' <-> is_block s zj p' o') ->
  (forall q, in_block p o q -> page_avail s' q -> page_avail s q) -> in_use s p o -> in_use s' p o.
Proof.
  intros B A [(zi & Hi & Hb) U]. split; [exists zi; by rewrite B|]. intros q Hq Ha. by apply (U q Hq), A.
Qed.

Lemma use_half s p o : in_use s p (o + 1) -> 0 <= o -> in_use s p o /\ in_use s (p + 2 ^ o) o.
Proof.
  intros [(zi & Hi & Ho & H1 & H2 & H3) U] Hp. pose proof (pow_pos o Hp).
  assert (E : 2 ^ (o + 1) = 2 * 2 ^ o) by (rewrite Z.pow_add_r by lia; lia). rewrite E in *.
  assert (Oo : ord o) by (unfold ord in *; lia). set (x := p - zone_start_mapnr (zones s zi)) in *.
  assert (Ex : exists k, x = k * (2 * 2 ^ o)) by (exists (x / (2 * 2 ^ o)); pose proof (Z.div_mod x (2 * 2 ^ o) ltac:(lia)); lia).
  destruct Ex as [k Ek]. split; (split; [exists zi; split; [done|]; split; [done|]; split; [lia|]; split; [lia|]|intros q Hq; apply U; unfold in_block in *; lia]).
  - fold x. rewrite Ek. replace (k * (2 * 2 ^ o)) with (k * 2 * 2 ^ o) by lia. apply Z.mod_mul. lia.
  - replace (p + 2 ^ o - zone_start_mapnr (zones s zi)) with ((k * 2 + 1) * 2 ^ o) by (unfold x in Ek; lia). apply Z.mod_mul. lia.
Qed.

Lemma held_ok l s : held l s -> (mm_ok s /\ tidy s) /\ apart l /\ forall p o, (p, o) ∈ l -> in_use s p o.
Proof.
  induction 1 as [ratio sizes s d s' d' Hb Hs Ht E|l s zi o s' p _ IH Hi Ho E|l1 l2 s p o s' _ IH Hf Hlo E|l s p o s' _ IH Hu Hd Hf Hlo E
                 |l1 l2 s p o _ IH Hp|l s s' _ IH O Ht].
  - destruct (boot_ok ratio sizes s d Hb Hs Ht) as (s1 & d1 & E1 & M & N & _). assert (s1 = s') as -> by congruence.
    split; [split; [done|]; intros p Hp; by destruct (N p)|]. split; [done|]. intros p o ?%not_elem_of_nil. done.
  - destruct IH as ([M T] & A & U). destruct (block_alloc_ok s zi o M T Hi Ho) as (s1 & r & E1 & M1 & R). rewrite E in E1. injection E1 as <- <-.
    destruct R as (R1 & R2 & _ & R3 & R4 & R5). split; [split; [done|]; apply (alloc_tidy s s' zi o p E); [intros q Hq; by apply R4|done]|]. split.
    + split; [|done]. intros p' o' q Hin Hq Hq'. apply (proj2 (U p' o' Hin) q Hq'). by apply R3.
    + intros p' o' [[= -> ->]|Hin]%elem_of_cons; [done|]. apply (use_less s); [done|intros q _; rewrite R4; tauto|by apply U].
  - destruct IH as ([M T] & A & U). assert (Hin : (p, o) ∈ l1 ++ (p, o) :: l2) by (apply elem_of_app; right; apply list_elem_of_here).
    destruct (free_ok s p o M (U p o Hin) Hf) as (s1 & E1 & M1 & A1 & B1). assert (s1 = s') as -> by congruence. split; [split; [done|by apply (free_tidy p o s s')]|].
    apply apart_app in A as (A3 & [A4 A5] & A6). split.
    + apply apart_app. split_and!; [done|done|]. intros p' o' H' p'' o'' q H''. apply (A6 p' o' H' p'' o''). apply elem_of_cons. by right.
    + intros p' o' H'. apply (use_less s); [done| |apply U; apply elem_of_app; apply elem_of_app in H' as [?|?]; [by left|right; apply elem_of_cons; by right]].
      intros q Hq. rewrite A1. intros [?|Hq']; [done|]. exfalso. apply elem_of_app in H' as [H'|H'].
      * apply (A6 p' o' H' p o q); [apply list_elem_of_here|done|done].
      * by apply (A4 p' o' q H').
  - destruct IH as ([M T] & A & U). destruct (free_ok s p o M Hu Hf) as (s1 & E1 & M1 & A1 & B1). assert (s1 = s') as -> by congruence.
    split; [split; [done|by apply (free_tidy p o s s')]|]. split; [done|]. intros p' o' H'. apply (use_less s); [done| |by apply U].
    intros q Hq. rewrite A1. intros [?|Hq']; [done|]. by destruct (Hd p' o' q H').
  - destruct IH as (M & A & U). assert (Hin : (p, o + 1) ∈ l1 ++ (p, o + 1) :: l2) by (apply elem_of_app; right; apply list_elem_of_here).
    destruct (use_half s p o (U _ _ Hin) Hp) as [U1 U2]. pose proof (pow_pos o Hp).
    assert (E : 2 ^ (o + 1) = 2 * 2 ^ o) by (rewrite Z.pow_add_r by lia; lia). apply apart_app in A as (A3 & [A4 A5] & A6). split; [done|]. split.
    + apply apart_app. split_and!; [done| |].
      * split; [|split; [|done]].
        -- intros p' o' q [[= -> ->]|H']%elem_of_cons Hq Hq'; [unfold in_block in *; lia|]. apply (A4 p' o' q H'); [unfold in_block in *; lia|done].
        -- intros p' o' q H' Hq Hq'. apply (A4 p' o' q H'); [unfold in_block in *; lia|done].
      * intros p' o' H' p'' o'' q [[= -> ->]|[[= -> ->]|H'']%elem_of_cons]%elem_of_cons Hq Hq'.
        -- apply (A6 p' o' H' p (o + 1) q); [apply list_elem_of_here|done|unfold in_block in *; lia].
        -- apply (A6 p' o' H' p (o + 1) q); [apply list_elem_of_here|done|unfold in_block in *; lia].
        -- apply (A6 p' o' H' p'' o'' q); [apply elem_of_cons; by right|done|done].
    + intros p' o' [H'|[[= -> ->]|[[= -> ->]|H']%elem_of_cons]%elem_of_cons]%elem_of_app; try done;
        apply U; apply elem_of_app; [by left|right; apply elem_of_cons; by right].
  - destruct IH as ([M _] & A & U). split; [split; [by eapply outside_ok|done]|]. split; [done|]. intros p o Hin. apply (outside_use s s' p o O). by apply U.
Qed.

(** C27. In every history of the allocator from boot, however allocations, frees, splits and
    changes of pages by the rest of the kernel follow each other: two blocks that are
    allocated and not yet freed have no page in common and no page of them is available;
    the counter of free pages of each zone is exactly the number of pages in its free
    blocks, at most its size; an allocation in any zone, and the free of any allocated
    block whose first page is clean, end without [BUG()] and without an access outside
    the bitmaps. *)
Theorem allocations_disjoint l s : held l s ->
  apart l /\ (forall p o q, (p, o) ∈ l -> in_block p o q -> ~ page_avail s q) /\
  (forall zi, znum zi -> free_pages (zones s zi) = Z.of_nat (length (listed (zones s zi))) /\ NoDup (listed (zones s zi)) /\
     (forall i, i ∈ listed (zones s zi) <-> free_page (zones s zi) i) /\ free_pages (zones s zi) <= zsize (zones s zi)) /\
  (forall zi o, znum zi -> ord o -> rmqueue zi o s <> None) /\
  (forall p o, (p, o) ∈ l -> freeable p s -> __free_pages_ok p o s <> None).
Proof.
  intros H. destruct (held_ok l s H) as ([M T] & A & U). split_and!; [done| | | |].
  - intros p o q Hin. apply (U p o Hin).
  - intros zi Hi. destruct (M zi Hi) as [K _]. destruct (listed_spec 0 _ K) as (N & E & _). destruct (free_count _ K) as [F1 F2].
    rewrite F1. done.
  - intros zi o Hi Ho. destruct (block_alloc_ok s zi o M T Hi Ho) as (s' & r & -> & _). done.
  - intros p o Hin Hf. destruct (free_ok s p o M (U p o Hin) Hf) as (s' & -> & _). done.
Qed.

(** ** A machine of sixteen pages *)

Definition bss_zone : zone :=
  Zone 0 0 [] 0 0 0 0 0 0 0 [] [] [] (fun _ => []) (fun _ _ => false) (fun _ => 0) 0 0 0 0 0 0.
Definition bss : mm := Mm (fun _ => Page 0 0 0 0 0 0) (fun _ => bss_zone) 16 0 0 0 0.
Definition sixteen (j : Z) : Z := if j =? 0 then 16 else 0.
Definition booted : mm :=
  match free_area_init zone_balance_ratio sixteen bss (Pgdat 0 0 0 0 (fun _ => [])) with Some (s, _) => s | None => bss end.
(** The first page of the block [8, 16) is no longer reserved. *)
Definition handed_over : mm := clear_flag PG_reserved 8 booted.
Definition eight_free : mm := match __free_pages_ok 8 3 handed_over with Some s => s | None => handed_over end.

Lemma booted_run : free_area_init zone_balance_ratio sixteen bss (Pgdat 0 0 0 0 (fun _ => [])) =
  Some (booted, snd (default (bss, Pgdat 0 0 0 0 (fun _ => [])) (free_area_init zone_balance_ratio sixteen bss (Pgdat 0 0 0 0 (fun _ => []))))).
Proof. reflexivity. Qed.

Lemma booted_ok : mm_ok booted /\ forall p, ~ page_avail booted p.
Proof.
  destruct (boot_ok zone_balance_ratio sixteen bss (Pgdat 0 0 0 0 (fun _ => []))) as (s & d & E & M & A & _).
  - intros zi. by split.
  - intros j. unfold sixteen. by destruct (j =? 0).
  - done.
  - rewrite booted_run in E. injection E as <- _. done.
Qed.

Lemma handed_over_use : outside booted handed_over /\ in_use handed_over 8 3 /\ freeable 8 handed_over.
Proof.
  assert (O : outside booted handed_over) by by apply outside_clear. split; [done|]. split.
  - split; [exists 0; split; [done|]; split; [done|]; split_and!; vm_compute; done|].
    intros q _ Hq. apply (outside_avail booted handed_over q O) in Hq. by apply (proj2 booted_ok q).
  - split_and!; vm_compute; done.
Qed.

Lemma free_refines_witness : exists s', __free_pages_ok 8 3 handed_over = Some s' /\ page_avail s' 9 /\ ~ page_avail s' 7.
Proof.
  destruct handed_over_use as (O & U & F).
  destruct (free_refines handed_over 8 3 (outside_ok _ _ O (proj1 booted_ok)) U F) as (s' & E & _ & A).
  exists s'. split; [exact E|]. rewrite !A. split; [right; unfold in_block; lia|].
  intros [H|H]; [|unfold in_block in H; lia]. apply (outside_avail booted handed_over 7 O) in H. by apply (proj2 booted_ok 7).
Defined.

Lemma handed_over_tidy : tidy handed_over /\ loose 8 3 handed_over.
Proof.
  destruct handed_over_use as (O & U & F). split.
  - intros q Hq. apply (outside_avail booted handed_over q O) in Hq. by destruct (proj2 booted_ok q).
  - intros q Hq Hne. assert (X : forallb (fun q => negb (DEBUG_LRU_PAGE q handed_over)) (seqZ 8 8) = true) by (vm_compute; reflexivity).
    apply negb_true_iff, (proj1 (forallb_forall _ _) X), list_elem_of_In, elem_of_seqZ. unfold in_block in Hq. lia.
Qed.

Lemma eight_free_ok : __free_pages_ok 8 3 handed_over = Some eight_free /\ mm_ok eight_free /\ tidy eight_free.
Proof.
  destruct handed_over_use as (O & U & F). destruct handed_over_tidy as [T Lo]. destruct (free_ok handed_over 8 3 (outside_ok _ _ O (proj1 booted_ok)) U F) as (s' & E & M & A & _).
  unfold eight_free. rewrite E. split; [done|]. split; [done|]. by apply (free_tidy 8 3 handed_over s').
Qed.

Lemma alloc_refines_witness : exists s', rmqueue 0 1 eight_free = Some (s', Some 14) /\ page_avail eight_free 15 /\ ~ page_avail s' 15.
Proof.
  destruct (alloc_refines eight_free 0 1 (proj1 (proj2 eight_free_ok)) (proj2 (proj2 eight_free_ok)) ltac:(done) ltac:(done)) as (s' & r & E & M & _ & R).
  assert (r = Some 14) as ->.
  { assert (X : snd <$> rmqueue 0 1 eight_free = Some (Some 14)) by (vm_compute; reflexivity). rewrite E in X. by injection X. }
  destruct R as (_ & U & _ & R1 & R2). exists s'. split; [exact E|]. split; [apply R1; unfold in_block; lia|].
  rewrite R2. intros [_ H]. apply H. unfold in_block. lia.
Defined.

Definition after (zi o : Z) (s : mm) : mm := fst (default (bss, None) (rmqueue zi o s)).
Lemma taken zi o s p : snd <$> rmqueue zi o s = Some (Some p) -> rmqueue zi o s = Some (after zi o s, Some p).
Proof. unfold after. destruct (rmqueue zi o s) as [[s' x]|]; simpl; congruence. Qed.

Lemma eight_free_held : held [] eight_free.
Proof.
  destruct handed_over_use as (O & U & F). destruct handed_over_tidy as [T Lo]. apply (h_release [] handed_over 8 3); [|done| |done|done|apply eight_free_ok].
  - apply (h_outside [] booted); [|done|done]. eapply (h_boot zone_balance_ratio sixteen bss _ booted); [intros zi; by split| |done|exact booted_run].
    intros j. unfold sixteen. by destruct (j =? 0).
  - intros p' o' q ?%not_elem_of_nil. done.
Qed.

Lemma allocations_disjoint_witness :
  let s := after 0 1 (after 0 1 eight_free) in held [(12, 1); (14, 1)] s /\ apart [(12, 1); (14, 1)] /\ ~ page_avail s 13.
Proof.
  assert (X1 : snd <$> rmqueue 0 1 eight_free = Some (Some 14)) by (vm_compute; reflexivity).
  assert (X2 : snd <$> rmqueue 0 1 (after 0 1 eight_free) = Some (Some 12)) by (vm_compute; reflexivity).
  assert (Hz : znum 0) by (unfold znum, MAX_NR_ZONES; lia). assert (Ho : ord 1) by (unfold ord, MAX_ORDER; lia).
  cbv zeta. set (s := after 0 1 (after 0 1 eight_free)).
  assert (H : held [(12, 1); (14, 1)] s).
  { apply (h_alloc [(14, 1)] (after 0 1 eight_free) 0 1 s 12); [|exact Hz|exact Ho|exact (taken _ _ _ _ X2)].
    apply (h_alloc [] eight_free 0 1 (after 0 1 eight_free) 14); [exact eight_free_held|exact Hz|exact Ho|exact (taken _ _ _ _ X1)]. }
  destruct (allocations_disjoint _ s H) as (A & B & _). split; [exact H|]. split; [exact A|].
  apply (B 12 1 13); [apply list_elem_of_here|unfold in_block; lia].
Defined.
