(* ===== verification/AllocPages.v ===== *)
(** * The choice of pages (__alloc_pages, mm/page_alloc.c, and reclaim_page, mm/vmscan.c)

    [__alloc_pages] looks for pages in the zones of a list, under falling limits; it can take
    a clean page of a file from its cache, wake the daemon that frees memory, free memory
    itself and start again.  The daemon, the freeing of memory and what else runs while the task
    waits are the class [Pageout].  The caches of pages of files and the swap map, from which
    [reclaim_page] takes a page, are not part of the state, but for the field [pg_mapping]
    of the page.  [None] is [BUG()]. *)
From stdpp Require Import base list functions.
From S2P Require Import Prelude Pages PidHash Bitmap Sched Buddy ZoneInit.

Definition PG_launder : Z := 15.

Class Pageout := {
  wakeup_kswapd : Z -> mm -> mm;
  (** The flag is whether progress was made. *)
  try_to_free_pages : Z -> mm -> mm * bool;
  yield_cpu : mm -> mm
}.

(** ** Clean pages of files *)

Definition set_flag (n p : Z) : mm -> mm := set_page p (fun x => x <| pg_flags ::= fun f => Z.setbit f n |>).
Definition unlock_page (p : Z) (s : mm) : option mm :=
  if page_flag PG_locked p s then Some (clear_flag PG_locked p (clear_flag PG_launder p s)) else None.

Definition add_page_to_inactive_dirty_list (p : Z) (s : mm) : option mm :=
  if DEBUG_LRU_PAGE p s then None
  else Some ((set_zone (page_zone p s) (fun z => z <| inactive_dirty_list ::= cons p |> <| inactive_dirty_pages ::= Z.succ |>)
               (set_flag PG_inactive_dirty p s)) <| nr_inactive_dirty_pages ::= Z.succ |>).

(** The page cannot be reclaimed. *)
Definition page_busy (p : Z) (s : mm) : bool :=
  let x := mem_map s p in
  negb (pg_pte_chain x =? 0) || negb (pg_buffers x =? 0) || page_flag PG_referenced p s || page_flag PG_dirty p s ||
  (1 <? pg_count x) || page_flag PG_locked p s.

(** From [found_page] on. *)
Definition found_page (p : Z) (s : mm) : option (mm * option Z) :=
  let s1 := lru_cache_del p s in
  if DEBUG_LRU_PAGE p s1 then None
  else s2 ← unlock_page p s1; Some (set_page p (fun x => x <| pg_age := PAGE_AGE_START |>) s2, Some p).

Fixpoint reclaim_scan (maxscan : nat) (zi : Z) (s : mm) : option (mm * option Z) :=
  match maxscan with
  | O => Some (s, None)
  | S maxscan =>
      match list.last (inactive_clean_list (zones s zi)) with
      | None => Some (s, None)
      | Some p =>
          if negb (page_flag PG_inactive_clean p s) then
            reclaim_scan maxscan zi (set_zone (page_zone p s) (fun z => z <| inactive_clean_pages ::= Z.pred |>)
              (set_zone zi (fun z => z <| inactive_clean_list ::= without p |>) s))
          else if pg_count (mem_map s p) =? 0 then
            reclaim_scan maxscan zi (set_zone zi (fun z => z <| inactive_clean_list ::= fun l => p :: without p l |>) s)
          else if page_busy p s then
            let s1 := del_page_from_inactive_clean_list p s in
            if DEBUG_LRU_PAGE p s1 then None
            else s2 ← add_page_to_inactive_dirty_list p s1; reclaim_scan maxscan zi s2
          else
            let s1 := set_flag PG_locked p s in
            if negb (pg_mapping (mem_map s1 p) =? 0) then found_page p (set_page p (fun x => x <| pg_mapping := 0 |>) s1)
            else
              s2 ← unlock_page p (set_zone zi (fun z => z <| inactive_clean_list ::= without p |> <| inactive_clean_pages ::= Z.pred |>) s1);
              reclaim_scan maxscan zi s2
      end
  end.
Definition reclaim_page (zi : Z) (s : mm) : option (mm * option Z) := reclaim_scan (Z.to_nat (u32 (inactive_clean_pages (zones s zi)))) zi s.

(** ** Zones *)

Definition VM_MIN : Z := 0.
Definition VM_LOW : Z := 1.
Definition VM_HIGH : Z := 2.
Definition zone_free_limit (limit : Z) (z : zone) : Z :=
  let target := if limit =? VM_MIN then pages_min z else if limit =? VM_LOW then pages_low z else if limit =? VM_HIGH then pages_high z
                else pages_high z * 2 in
  s32 (s32 target - s32 (free_pages z + inactive_clean_pages z)).
(** [free_high(ALL_ZONES)] *)
Definition free_high (s : mm) : Z := foldl (fun n zi => s32 (n + zone_free_limit VM_HIGH (zones s zi))) 0 (seqZ 0 MAX_NR_ZONES).

Section alloc.
Context `{Pageout} (in_interrupt : bool).

(** The loop that moves clean pages to the free list; the fuel is the number of clean pages. *)
Fixpoint fixup_loop (fuel : nat) (zi : Z) (s : mm) : option mm :=
  match fuel with
  | O => None
  | S fuel =>
      r ← reclaim_page zi s;
      match r with
      | (s1, None) => Some s1
      | (s1, Some p) =>
          s2 ← __free_pages_ok p 0 s1;
          if free_pages (zones s2 zi) <=? pages_min (zones s2 zi) then fixup_loop fuel zi s2 else Some s2
      end
  end.
Definition clean_fuel (zi : Z) (s : mm) : nat := S (length (inactive_clean_list (zones s zi))).
Definition fixup_freespace (zi : Z) (direct_reclaim : bool) (s : mm) : option mm :=
  if direct_reclaim then fixup_loop (clean_fuel zi s) zi s else Some (wakeup_kswapd GFP_ATOMIC s).

Definition PAGES_KERNEL : Z := 0.
Definition PAGES_MIN : Z := 1.
Definition PAGES_LOW : Z := 2.
Definition PAGES_HIGH : Z := 3.

Definition water_mark (limit : Z) (z : zone) : Z :=
  if limit =? PAGES_KERNEL then pages_min z / 2 else if limit =? PAGES_MIN then pages_min z
  else if limit =? PAGES_LOW then pages_low z else pages_high z.

Fixpoint __alloc_pages_limit (zonelist : list Z) (order limit : Z) (direct_reclaim : bool) (s : mm) : option (mm * option Z) :=
  match zonelist with
  | [] => Some (s, None)
  | zi :: zonelist =>
      let z := zones s zi in
      if zsize z =? 0 then None
      else if water_mark limit z <=? u32 (free_pages z + inactive_clean_pages z) then
        r ← (if direct_reclaim then reclaim_page zi s else Some (s, None));
        match r with
        | (s1, Some p) => Some (s1, Some p)
        | (s1, None) =>
            r ← rmqueue zi order s1;
            match r with
            | (s2, Some p) => Some (s2, Some p)
            | (s2, None) => __alloc_pages_limit zonelist order limit direct_reclaim s2
            end
        end
      else __alloc_pages_limit zonelist order limit direct_reclaim s
  end.

(** The loop over zones with lots of free memory. *)
Fixpoint alloc_plenty (zonelist : list Z) (order min : Z) (direct_reclaim : bool) (s : mm) : option (mm * option Z) :=
  match zonelist with
  | [] => Some (s, None)
  | zi :: zonelist =>
      let z := zones s zi in
      if zsize z =? 0 then None
      else
        let min := u32 (min + pages_min z) in
        if min <? free_pages z then
          r ← rmqueue zi order s;
          match r with
          | (s1, Some p) => Some (s1, Some p)
          | (s1, None) => alloc_plenty zonelist order min direct_reclaim s1
          end
        else if free_pages z <? pages_min z then s1 ← fixup_freespace zi direct_reclaim s; alloc_plenty zonelist order min direct_reclaim s1
        else alloc_plenty zonelist order min direct_reclaim s
  end.

Definition memalloc (s : mm) : bool := negb (Z.land (mm_flags s) PF_MEMALLOC =? 0).

(** The final phase. *)
Fixpoint alloc_anything (zonelist : list Z) (order min : Z) (direct_reclaim : bool) (s : mm) : option (mm * option Z) :=
  match zonelist with
  | [] => Some (s, None)
  | zi :: zonelist =>
      r ← (if direct_reclaim then reclaim_page zi s else Some (s, None));
      match r with
      | (s1, Some p) => Some (s1, Some p)
      | (s1, None) =>
          let z := zones s1 zi in
          let min := u32 (min + pages_min z / 4) in
          if (min <? free_pages z) || (memalloc s1 && negb in_interrupt) then
            r ← rmqueue zi order s1;
            match r with
            | (s2, Some p) => Some (s2, Some p)
            | (s2, None) => alloc_anything zonelist order min direct_reclaim s2
            end
          else alloc_anything zonelist order min direct_reclaim s1
      end
  end.

(** Clean pages of one zone go to the free list until the allocation succeeds. *)
Fixpoint defrag_zone (fuel : nat) (zi order : Z) (s : mm) : option (mm * option Z) :=
  match fuel with
  | O => None
  | S fuel =>
      if inactive_clean_pages (zones s zi) =? 0 then Some (s, None)
      else
        r ← reclaim_page zi s;
        match r with
        | (s1, None) => Some (s1, None)
        | (s1, Some p) =>
            s2 ← __free_pages p 0 s1;
            r ← rmqueue zi order s2;
            match r with
            | (s3, Some q) => Some (s3, Some q)
            | (s3, None) => defrag_zone fuel zi order s3
            end
        end
  end.
Fixpoint defrag (zonelist : list Z) (order : Z) (s : mm) : option (mm * option Z) :=
  match zonelist with
  | [] => Some (s, None)
  | zi :: zonelist =>
      if zsize (zones s zi) =? 0 then defrag zonelist order s
      else
        r ← defrag_zone (clean_fuel zi s) zi order s;
        match r with
        | (s1, Some p) => Some (s1, Some p)
        | (s1, None) => defrag zonelist order s1
        end
  end.

(** [Again]: goto try_again. *)
Inductive verdict := Got (p : Z) | Failed | Again.
Definition orelse (r : option (mm * option Z)) (k : mm -> option (mm * verdict)) : option (mm * verdict) :=
  match r with
  | None => None
  | Some (s, Some p) => Some (s, Got p)
  | Some (s, None) => k s
  end.

(** From [defragment] on. *)
Definition defragment (gfp_mask order : Z) (zonelist : list Z) (s : mm) : option (mm * verdict) :=
  orelse (defrag zonelist order s) (fun s =>
    let flags := mm_flags s in
    let '(s1, _) := try_to_free_pages gfp_mask (s <| mm_flags ::= Z.lor PF_MEMALLOC |>) in
    let s2 := s1 <| mm_flags ::= fun f => Z.land f (Z.lor (Z.lnot PF_MEMALLOC) (Z.land flags PF_MEMALLOC)) |> in
    orelse (defrag zonelist order s2) (fun s => Some (s, Failed))).

(** From [try_again] to [goto try_again]. *)
Definition alloc_pass (gfp_mask order : Z) (zonelist : list Z) (direct_reclaim : bool) (s : mm) : option (mm * verdict) :=
  orelse (alloc_plenty zonelist order (Z.shiftl 1 order) direct_reclaim s) (fun s =>
  orelse (__alloc_pages_limit zonelist order PAGES_HIGH direct_reclaim s) (fun s =>
  orelse (__alloc_pages_limit zonelist order PAGES_LOW direct_reclaim s) (fun s =>
  orelse (__alloc_pages_limit zonelist order PAGES_MIN direct_reclaim (wakeup_kswapd gfp_mask s)) (fun s =>
  orelse (if has gfp_mask __GFP_HIGH then __alloc_pages_limit zonelist order PAGES_KERNEL direct_reclaim s else Some (s, None)) (fun s =>
  let anything s := orelse (alloc_anything zonelist order (Z.shiftl 1 order) direct_reclaim s) (fun s => Some (s, Failed)) in
  if memalloc s then anything s
  else if (0 <? order) && has gfp_mask __GFP_WAIT then defragment gfp_mask order zonelist s
  else if has gfp_mask __GFP_WAIT then
    let s1 := yield_cpu s in
    if (order =? 0) || (0 <=? free_high s1) then
      let '(s2, progress) := try_to_free_pages gfp_mask s1 in
      Some (s2, if progress || has gfp_mask __GFP_FS then Again else Failed)
    else anything s1
  else anything s))))).

(** At most [passes] passes; the verdict is [Again] when the allocation goes on trying. *)
Fixpoint alloc_passes (passes : nat) (gfp_mask order : Z) (zonelist : list Z) (direct_reclaim : bool) (s : mm) : option (mm * verdict) :=
  match passes with
  | O => Some (s, Again)
  | S passes =>
      match alloc_pass gfp_mask order zonelist direct_reclaim s with
      | Some (s1, Again) => alloc_passes passes gfp_mask order zonelist direct_reclaim s1
      | r => r
      end
  end.
Definition __alloc_pages (passes : nat) (gfp_mask order : Z) (zonelist : list Z) (s : mm) : option (mm * verdict) :=
  alloc_passes passes gfp_mask order zonelist ((order =? 0) && has gfp_mask __GFP_WAIT) s.

Definition _alloc_pages (passes : nat) (d : pgdat) (gfp_mask order : Z) (s : mm) : option (mm * verdict) :=
  __alloc_pages passes gfp_mask order (node_zonelists d (Z.land gfp_mask GFP_ZONEMASK)) s.
Definition alloc_pages (passes : nat) (d : pgdat) (gfp_mask order : Z) (s : mm) : option (mm * verdict) :=
  if MAX_ORDER <=? order then Some (s, Failed) else _alloc_pages passes d gfp_mask order s.
End alloc.

(** [free_pages], of the address of a page. *)
Definition free_pages_at (addr order : Z) (s : mm) : option mm := if negb (addr =? 0) then __free_pages (virt_to_page addr) order s else Some s.
