(* ===== verification/AllocTheorems.v ===== *)
(** * What the choice of pages promises

    [pool l s]: the blocks of [l] are allocated.  Every allocation of [AllocPages] keeps it, and
    gives a block that is disjoint from those of [l] that were not given back; with [free_pages] this makes the zones an
    allocator of pages in the sense of [Pages], on which the slab caches run. *)
From stdpp Require Import base list functions.
From S2P Require Import Prelude Pages PidHash Bitmap Sched Buddy ZoneInit BuddyInv BuddySteps BuddyPages BuddyTheorems AllocPages.

(** ** Pages that are free, allocated, or clean pages of files *)

Notation clean_list s zi := (inactive_clean_list (zones s zi)).

(** A page on the list of clean pages of the zone [zi]: it is in use, but in no block of [l]. *)
Record lru_page (l : list (Z * Z)) (s : mm) (zi p : Z) : Prop := LruPage {
  lp_zone : in_zone s zi p;
  lp_used : ~ page_avail s p;
  lp_apart : forall p' o', (p', o') ∈ l -> ~ in_block p' o' p;
  lp_max : p < max_mapnr s;
  lp_flags : page_flag PG_reserved p s = false /\ page_flag PG_active p s = false /\ page_flag PG_inactive_dirty p s = false;
  lp_count : 0 <= pg_count (mem_map s p)
}.

Record pool (l : list (Z * Z)) (s : mm) : Prop := Pool {
  po_mm : mm_ok s;
  po_avail : forall q, page_avail s q -> clean q s;
  po_apart : apart l;
  po_use : forall p o, (p, o) ∈ l -> in_use s p o;
  po_count : forall p o, (p, o) ∈ l -> pg_count (mem_map s p) = 1;
  po_clean : forall p o q, (p, o) ∈ l -> in_block p o q -> clean q s;
  po_nodup : forall zi, znum zi -> NoDup (clean_list s zi);
  po_lru : forall zi p, znum zi -> p ∈ clean_list s zi -> lru_page l s zi p
}.

Lemma pool_perm l l' s : l ≡ₚ l' -> pool l s -> pool l' s.
Proof.
  intros P [M A Ap U C K N L]. split; try done.
  - by apply (apart_perm l).
  - intros p o. rewrite <- P. apply U.
  - intros p o. rewrite <- P. apply C.
  - intros p o q. rewrite <- P. apply K.
  - intros zi p Hi Hp. destruct (L zi p Hi Hp) as [L1 L2 L3 L4 L5 L6]. split; try done. intros p' o'. rewrite <- P. apply L3.
Qed.

(** Nothing is allocated, and there are no clean pages of files. *)
Lemma pool_start s : mm_ok s -> (forall q, page_avail s q -> clean q s) -> (forall zi, znum zi -> clean_list s zi = []) -> pool [] s.
Proof.
  intros M A Z. split; [done|done|done| | | | |].
  - intros p o ?%not_elem_of_nil. done.
  - intros p o ?%not_elem_of_nil. done.
  - intros p o q ?%not_elem_of_nil. done.
  - intros zi Hi. rewrite Z by done. apply NoDup_nil_2.
  - intros zi p Hi. rewrite Z by done. intros ?%not_elem_of_nil. done.
Qed.

Lemma pool_tidy l s : pool l s -> tidy s.
Proof. intros P q Hq. by apply clean_listed, (po_avail _ _ P). Qed.

(** The flags of the task do not matter. *)
Lemma pool_flags l s f : pool l s -> pool l (s <| mm_flags := f |>).
Proof.
  intros [M A Ap U C K N L]. destruct s. split; try done. intros zi p Hi Hp. by destruct (L zi p Hi Hp).
Qed.

Lemma block_first s p o : in_use s p o -> in_block p o p.
Proof. intros [(zi & _ & Ho & _) _]. unfold in_block. pose proof (pow_pos o (proj1 Ho)). lia. Qed.

Lemma sizes_zone s s' zi p : sizes_kept s s' -> in_zone s' zi p <-> in_zone s zi p.
Proof. intros Z. unfold in_zone. by destruct (Z zi) as [-> ->]. Qed.
#[local] Hint Resolve sizes_refl sizes_trans : core.

(** ** Allocating and freeing blocks *)

Lemma pool_alloc l s zi o : pool l s -> znum zi -> ord o -> exists s' r, rmqueue zi o s = Some (s', r) /\ sizes_kept s s' /\ mm_flags s' = mm_flags s /\
  (forall zj, clean_list s' zj = clean_list s zj) /\ match r with Some p => pool ((p, o) :: l) s' | None => pool l s' end.
Proof.
  intros P Hi Ho. pose proof P as [M A Ap U C K N L]. pose proof (pool_tidy l s P) as T.
  destruct (block_alloc_ok s zi o M T Hi Ho) as (s' & r & E & M' & R). exists s', r. split; [done|].
  destruct (rmqueue_kept _ _ _ _ _ E) as (s1 & [K1 K2 K3 K4 K5] & Es).
  assert (Zk : sizes_kept s s') by (rewrite Es; by destruct r). split; [done|]. assert (Ez : forall zj, clean_list s' zj = clean_list s zj) by (intros zj; rewrite Es; destruct r; apply K4).
  split; [rewrite Es; by destruct r|]. split; [done|]. destruct r as [p|]; [|by destruct R as [-> _]].
  destruct R as (R1 & R2 & R3 & R4 & R5 & R6). simpl in Es.
  assert (Ep : forall q, q <> p -> mem_map s' q = mem_map s q) by (intros q Hq; rewrite Es; simpl; by rewrite fn_lookup_alter_ne, K1).
  assert (Ex : max_mapnr s' = max_mapnr s) by (by rewrite Es).
  assert (Ec : forall q, clean q s -> clean q s').
  { intros q. destruct (decide (q = p)) as [->|Hne]; [|apply clean_eq; auto]. unfold clean, page_flag. rewrite Es. simpl. rewrite fn_lookup_alter, K1, K2. done. }
  assert (Hne : forall p' o', (p', o') ∈ l -> p' <> p).
  { intros p' o' Hin ->. pose proof (U _ _ Hin) as Up. apply (proj2 Up p (block_first _ _ _ Up)), R4, (block_first s' p o R2). }
  split; try done.
  - intros q Hq. apply Ec, A. by apply R5.
  - split; [|done]. intros p' o' q Hin Hq Hq'. apply (proj2 (U p' o' Hin) q Hq'). by apply R4.
  - intros p' o' [[= -> ->]|Hin]%elem_of_cons; [done|]. apply (use_less s); [done|intros q _; rewrite R5; tauto|by apply U].
  - intros p' o' [[= -> ->]|Hin]%elem_of_cons; [done|]. rewrite Ep by (by eapply Hne). by eapply C.
  - intros p' o' q [[= -> ->]|Hin]%elem_of_cons Hq; apply Ec; [by apply A, R4|by eapply K].
  - intros zj Hj. rewrite Ez. auto.
  - intros zj q Hj. rewrite Ez. intros Hq. destruct (L zj q Hj Hq) as [L1 L2 L3 L4 L5 L6]. assert (Hnb : ~ in_block p o q) by (intros Hb; by apply L2, R4).
    assert (Hqp : q <> p) by (intros ->; by apply Hnb, (block_first s' p o R2)).
    split; [by apply (sizes_zone s)|rewrite R5; tauto| |by rewrite Ex|unfold page_flag in *; by rewrite Ep|by rewrite Ep].
    intros p' o' [[= -> ->]|Hin]%elem_of_cons; [done|by apply L3].
Qed.

Lemma clean_freeable p s : clean p s -> freeable p s.
Proof.
  intros (C1 & C2 & C3 & C4 & C5 & C6 & C7 & C8 & C9). unfold freeable. cbv zeta. rewrite C4, C5, C6. split_and!; try done. by destruct (page_flag PG_lru p s).
Qed.

Lemma free_lists p o s s' : clean p s -> __free_pages_ok p o s = Some s' ->
  (forall zi, clean_list s' zi = clean_list s zi) /\ mm_flags s' = mm_flags s /\ sizes_kept s s'.
Proof.
  intros (C1 & C2 & C3 & C4 & C5 & C6 & _). unfold __free_pages_ok. cbv zeta. set (s1 := if page_flag PG_lru p s then _ else s).
  assert (E : zones s1 = zones s /\ mm_flags s1 = mm_flags s) by (unfold s1, lru_cache_del; rewrite C4, C5, C6; by destruct (page_flag PG_lru p s)).
  clearbody s1. destruct E as [E1 E2]. destruct (page_flag PG_reserved p s1); [intros [= <-]; unfold sizes_kept; by rewrite E1, E2|].
  repeat (match goal with |- (if ?c then None else _) = _ -> _ => destruct c; [done|] end). intros [_ _ K3 K4 K5]%free_block_kept.
  split; [intros zi; rewrite K4; simpl; by rewrite E1|]. split; [rewrite K3; done|]. intros zi. destruct (K5 zi) as [-> ->]. simpl. by rewrite E1.
Qed.

(** A block that is in use, besides those of [l]. *)
Record taken (l : list (Z * Z)) (s : mm) (p o : Z) : Prop := Taken {
  tk_use : in_use s p o;
  tk_clean : forall q, in_block p o q -> clean q s;
  tk_apart : disjoint_from p o l;
  tk_lru : forall zi q, znum zi -> q ∈ clean_list s zi -> ~ in_block p o q
}.

Lemma pool_cons l s p o : pool ((p, o) :: l) s <-> pool l s /\ taken l s p o /\ pg_count (mem_map s p) = 1.
Proof.
  split.
  - intros [M A [Ap1 Ap] U C K N L]. assert (In : forall x, x ∈ l -> x ∈ (p, o) :: l) by (intros x Hx; apply elem_of_cons; by right). assert (Hin : (p, o) ∈ (p, o) :: l) by apply list_elem_of_here.
    split; [split; eauto|split; [split; eauto|by apply (C p o)]].
    + intros zi q Hi Hq. destruct (L zi q Hi Hq) as [L1 L2 L3 L4 L5 L6]. split; auto.
    + intros zi q Hi Hq. by apply (lp_apart _ _ _ _ (L zi q Hi Hq)).
  - intros ([M A Ap U C K N L] & [T1 T2 T3 T4] & Tc). split; try done.
    + intros p' o' [[= -> ->]|?]%elem_of_cons; auto.
    + intros p' o' [[= -> ->]|?]%elem_of_cons; eauto.
    + intros p' o' q [[= -> ->]|?]%elem_of_cons; eauto.
    + intros zi q Hi Hq. destruct (L zi q Hi Hq) as [L1 L2 L3 L4 L5 L6]. split; try done. intros p' o' [[= -> ->]|?]%elem_of_cons; [by eapply T4|auto].
Qed.

Lemma pool_free l s p o : pool l s -> taken l s p o -> exists s', __free_pages_ok p o s = Some s' /\ sizes_kept s s' /\ mm_flags s' = mm_flags s /\
  (forall zj, clean_list s' zj = clean_list s zj) /\ pool l s'.
Proof.
  intros [M A Ap U C K N L] [Up Kp Dp Lp]. pose proof (Kp p (block_first _ _ _ Up)) as Cp.
  destruct (free_ok s p o M Up (clean_freeable p s Cp)) as (s' & E & M' & A' & B').
  destruct (free_frame p o s s' (clean_freeable p s Cp) E) as [[E1 E2] C']. destruct (free_lists p o s s' Cp E) as (Ez & Ef & Zk).
  exists s'. split; [done|]. split; [done|]. split; [done|]. split; [done|].
  assert (Ec : forall q, clean q s -> clean q s') by (intros q Hq; destruct (decide (q = p)) as [->|Hne]; [done|apply (clean_eq q s); auto]).
  assert (Hne : forall p' o', (p', o') ∈ l -> p' <> p) by (intros p' o' Hp' ->; by apply (Dp p o' p Hp' (block_first _ _ _ Up)), (block_first s), U).
  split; try done.
  - intros q [Hq|Hq]%A'; apply Ec; auto.
  - intros p' o' Hp'. apply (use_less s); [done| |by apply U]. intros q Hq [?|Hq']%A'; [done|]. exfalso. by apply (Dp p' o' q Hp').
  - intros p' o' Hp'. rewrite E1 by (by eapply Hne). by apply (C p' o').
  - intros p' o' q Hp' Hq. by apply Ec, (K p' o' q).
  - intros zj Hj. rewrite Ez. auto.
  - intros zj q Hj. rewrite Ez. intros Hq. destruct (L zj q Hj Hq) as [L1 L2 L3 L4 L5 L6]. pose proof (Lp zj q Hj Hq) as Hnb. assert (Hqp : q <> p) by (intros ->; by apply Hnb, (block_first s)).
    split; [by apply (sizes_zone s)|rewrite A'; tauto|done|by rewrite E2|unfold page_flag in *; by rewrite E1|by rewrite E1].
Qed.

Lemma outside_sizes s s' : outside s s' -> sizes_kept s s'.
Proof. intros [O _] zi. by destruct (O zi). Qed.

(** A page in use, in no block of [l], and the lists of clean pages change. *)
Lemma pool_else l s s' p : pool l s -> outside s s' -> else_same p s s' -> ~ page_avail s p -> (forall p' o', (p', o') ∈ l -> ~ in_block p' o' p) ->
  (forall zi, znum zi -> NoDup (clean_list s' zi)) ->
  (forall zi q, znum zi -> q ∈ clean_list s' zi -> q ∈ clean_list s zi /\ (q = p -> lru_page l s zi p -> lru_page l s' zi p)) -> pool l s'.
Proof.
  intros [M A Ap U C K N L] O [E1 E2] Hp Hl N' L'.
  assert (Ec : forall q, q <> p -> clean q s -> clean q s') by (intros q Hq; apply clean_eq; auto).
  split; try done.
  - by apply (outside_ok s).
  - intros q Hq%(outside_avail s s' q O). apply Ec; [by intros ->|by apply A].
  - intros p' o' Hin. by apply (outside_use s s' p' o' O), U.
  - intros p' o' Hin. rewrite E1; [by apply (C p' o')|]. intros ->. by apply (Hl p o' Hin), (block_first s), U.
  - intros p' o' q Hin Hq. apply Ec; [intros ->; by apply (Hl p' o' Hin)|by apply (K p' o' q)].
  - intros zi q Hi Hq. destruct (L' zi q Hi Hq) as [Hq' X]. pose proof (L zi q Hi Hq') as Lq. destruct (decide (q = p)) as [->|Hne]; [auto|].
    destruct Lq as [L1 L2 L3 L4 L5 L6]. split; [by apply (sizes_zone s); [apply outside_sizes|]|by rewrite (outside_avail s s' q O)|done|by rewrite E2|unfold page_flag in *; by rewrite E1|by rewrite E1].
Qed.

(** [__free_pages], which drops the last reference. *)
Lemma pool_put l s p o : pool ((p, o) :: l) s -> exists s', __free_pages p o s = Some s' /\ sizes_kept s s' /\ mm_flags s' = mm_flags s /\
  (forall zj, clean_list s' zj = clean_list s zj) /\ pool l s'.
Proof.
  intros (P & [T1 T2 T3 T4] & Ec)%pool_cons. unfold __free_pages. set (s1 := set_page p _ s).
  assert (O : outside s s1) by (by apply outside_page). assert (El : else_same p s s1) by apply else_page.
  assert (Ep : pg_count (mem_map s1 p) = 0) by (unfold s1, set_page; simpl; rewrite fn_lookup_alter; simpl; by rewrite Ec).
  assert (Ek : forall q, clean q s -> clean q s1).
  { intros q. destruct (decide (q = p)) as [->|Hne]; [|apply clean_eq; [by apply El|done]]. unfold clean, page_flag, s1, set_page. simpl. by rewrite fn_lookup_alter. }
  pose proof (block_first s p o T1) as Hb.
  assert (P1 : pool l s1).
  { apply (pool_else l s s1 p P O El); [by apply T1|intros p' o' Hin Hq; by apply (T3 p' o' p Hin)|intros zi Hi; by apply (po_nodup _ _ P)|].
    intros zi q Hi Hq. split; [done|]. intros ->. by destruct (T4 zi p Hi Hq). }
  cbv zeta. rewrite Ep. cbn [Z.eqb]. destruct (pool_free l s1 p o P1) as (s' & E & Z & F & L & P'); [split; [by apply (outside_use s)|auto|done|exact T4]|].
  exists s'. split; [done|]. split; [intros zi; apply (sizes_trans s s1 s'); [by apply outside_sizes|done]|done].
Qed.

(** ** Reclaiming a clean page *)

Lemma flag_set n m p s : 0 <= m -> page_flag n p (set_flag m p s) = (m =? n) || page_flag n p s.
Proof. intros Hm. unfold page_flag, set_flag, set_page. simpl. rewrite fn_lookup_alter. simpl. by apply Z.setbit_eqb. Qed.
Lemma outside_set n p s : 0 <= n < ZONE_SHIFT -> outside s (set_flag n p s).
Proof.
  intros Hn. apply outside_page. intros x. simpl. apply Z.bits_inj'. intros k Hk. rewrite !Z.shiftr_spec, Z.setbit_eqb by lia.
  destruct (Z.eqb_spec n (k + ZONE_SHIFT)); [lia|done].
Qed.
Lemma clean_set_zone zi f s zj : clean_list (set_zone zi f s) zj = if decide (zj = zi) then inactive_clean_list (f (zones s zi)) else clean_list s zj.
Proof. simpl. case_decide as E; [subst; by rewrite fn_lookup_alter|by rewrite fn_lookup_alter_ne]. Qed.

(** The page [p] leaves the list of clean pages of the zone [zi]. *)
Record off_list (zi p : Z) (s s' : mm) : Prop := OffList {
  of_outside : outside s s';
  of_else : else_same p s s';
  of_flags : mm_flags s' = mm_flags s;
  of_lists : forall zj, clean_list s' zj = if decide (zj = zi) then without p (clean_list s zi) else clean_list s zj
}.

Lemma without_shorter (p : Z) (l : list Z) : p ∈ l -> (length (without p l) < length l)%nat.
Proof.
  induction l as [|x l IH]; intros Hp; [by apply not_elem_of_nil in Hp|]. unfold without in *. rewrite filter_cons. pose proof (length_filter (fun q => q <> p) l).
  case_decide as E; simpl; [|lia]. apply elem_of_cons in Hp as [->|Hp]; [done|]. specialize (IH Hp). lia.
Qed.

Lemma pool_off l s s' zi p : pool l s -> znum zi -> p ∈ clean_list s zi -> off_list zi p s s' ->
  pool l s' /\ (forall zj, znum zj -> p ∉ clean_list s' zj) /\ (length (clean_list s' zi) < length (clean_list s zi))%nat.
Proof.
  intros P Hi Hp [O El _ Ls]. pose proof (po_lru _ _ P zi p Hi Hp) as Lp.
  assert (Np : forall zj, znum zj -> p ∉ clean_list s' zj).
  { intros zj Hj. rewrite Ls. case_decide as E; [unfold without; rewrite list_elem_of_filter; tauto|]. intros Hq. apply E.
    apply (one_zone s zj zi p); [apply (po_mm _ _ P)|done|done|apply (po_lru _ _ P zj p Hj Hq)|apply Lp]. }
  split; [|split; [done|rewrite Ls, decide_True by done; by apply without_shorter]].
  apply (pool_else l s s' p P O El); [apply Lp|apply Lp| |].
  - intros zj Hj. rewrite Ls. case_decide as E; [subst; by apply list.NoDup_filter, (po_nodup _ _ P)|by apply (po_nodup _ _ P)].
  - intros zj q Hj Hq. split; [|intros ->; by destruct (Np zj Hj)]. rewrite Ls in Hq. case_decide as E; [|done]. subst. unfold without in Hq. by apply list_elem_of_filter in Hq as [_ Hq].
Qed.

Lemma off_trans zi p s1 s2 s3 : off_list zi p s1 s2 -> outside s2 s3 -> else_same p s2 s3 -> mm_flags s3 = mm_flags s2 -> (forall zj, clean_list s3 zj = clean_list s2 zj) ->
  off_list zi p s1 s3.
Proof. intros [A1 A2 A3 A4] B1 B2 B3 B4. split; [by eapply outside_trans|by eapply else_trans|congruence|]. intros zj. by rewrite B4. Qed.
Lemma off_after zi p s1 s2 s3 : outside s1 s2 -> else_same p s1 s2 -> mm_flags s2 = mm_flags s1 -> (forall zj, clean_list s2 zj = clean_list s1 zj) -> off_list zi p s2 s3 ->
  off_list zi p s1 s3.
Proof. intros B1 B2 B3 B4 [A1 A2 A3 A4]. split; [by eapply outside_trans|by eapply else_trans|congruence|]. intros zj. by rewrite A4, !B4. Qed.

Lemma off_zone zi p f s : (forall z, same_lists z (f z)) -> (forall z, inactive_clean_list (f z) = without p (inactive_clean_list z)) -> off_list zi p s (set_zone zi f s).
Proof.
  intros Hf Hl. split; [by apply outside_zone|by split|done|]. intros zj. rewrite clean_set_zone. case_decide; [apply Hl|done].
Qed.
Lemma off_del zi p s : page_zone p s = zi -> off_list zi p s (del_page_from_inactive_clean_list p s).
Proof.
  intros Ez. split; [apply outside_cleanlist| |done|].
  - split; [|done]. intros q Hq. simpl. by rewrite fn_lookup_alter_ne.
  - intros zj. unfold del_page_from_inactive_clean_list. rewrite Ez. exact (clean_set_zone zi (fun z => z <| inactive_clean_list ::= without p |> <| inactive_clean_pages ::= Z.pred |>) s zj).
Qed.

Lemma lists_zone_same zi f s zj : (forall z, inactive_clean_list (f z) = inactive_clean_list z) -> clean_list (set_zone zi f s) zj = clean_list s zj.
Proof. intros Hf. rewrite clean_set_zone. case_decide as E; [subst; apply Hf|done]. Qed.

Lemma lru_place l s zi p : pool l s -> znum zi -> lru_page l s zi p -> page_zone p s = zi.
Proof. intros P Hi Lp. destruct (po_mm _ _ P zi Hi) as [_ Pl]. apply Pl, Lp. Qed.

(** The three ways in which a page that cannot be reclaimed leaves the list. *)
Lemma wrong_off zi p s : off_list zi p s (set_zone (page_zone p s) (fun z => z <| inactive_clean_pages ::= Z.pred |>) (set_zone zi (fun z => z <| inactive_clean_list ::= without p |>) s)).
Proof. eapply off_trans; [by apply (off_zone zi p (fun z => z <| inactive_clean_list ::= without p |>))|by apply outside_zone|by split|done|]. intros zj. by apply lists_zone_same. Qed.

Lemma busy_off l zi p s : pool l s -> znum zi -> lru_page l s zi p -> page_flag PG_inactive_clean p s = true ->
  let s1 := del_page_from_inactive_clean_list p s in
  DEBUG_LRU_PAGE p s1 = false /\ exists s2, add_page_to_inactive_dirty_list p s1 = Some s2 /\ off_list zi p s s2.
Proof.
  intros P Hi Lp Hc s1. pose proof (off_del zi p s (lru_place l s zi p P Hi Lp)) as O1. fold s1 in O1. destruct (lp_flags _ _ _ _ Lp) as (F1 & F2 & F3).
  assert (Ef : forall n, page_flag n p s1 = page_flag n p s && negb (PG_inactive_clean =? n)) by (intros n; rewrite <- flag_clear; done).
  assert (Ed : DEBUG_LRU_PAGE p s1 = false) by (unfold DEBUG_LRU_PAGE; rewrite !Ef, F2, F3; by destruct (page_flag PG_inactive_clean p s)).
  split; [done|]. unfold add_page_to_inactive_dirty_list. rewrite Ed. eexists. split; [done|]. eapply off_trans; [exact O1| | |done|].
  - eapply outside_trans; [by apply (outside_set PG_inactive_dirty p s1)|]. pose proof (outside_zone (page_zone p s1) (fun z => z <| inactive_dirty_list ::= cons p |> <| inactive_dirty_pages ::= Z.succ |>) (set_flag PG_inactive_dirty p s1) ltac:(done)) as [X1 X2]. by split.
  - pose proof (else_page p (fun x => x <| pg_flags ::= fun f => Z.setbit f PG_inactive_dirty |>) s1) as [X1 X2]. by split.
  - intros zj. exact (lists_zone_same (page_zone p s1) (fun z => z <| inactive_dirty_list ::= cons p |> <| inactive_dirty_pages ::= Z.succ |>) (set_flag PG_inactive_dirty p s1) zj ltac:(done)).
Qed.

Lemma unlock_kept p s : page_flag PG_locked p s = true -> exists s', unlock_page p s = Some s' /\ outside s s' /\ else_same p s s' /\ mm_flags s' = mm_flags s /\ zones s' = zones s /\
  (forall n, page_flag n p s' = page_flag n p s && negb (PG_launder =? n) && negb (PG_locked =? n)) /\
  pg_count (mem_map s' p) = pg_count (mem_map s p) /\ pg_mapping (mem_map s' p) = pg_mapping (mem_map s p) /\ pg_buffers (mem_map s' p) = pg_buffers (mem_map s p) /\ pg_pte_chain (mem_map s' p) = pg_pte_chain (mem_map s p).
Proof.
  intros E. unfold unlock_page. rewrite E. eexists. split; [done|]. split; [eapply outside_trans; by apply outside_clear|]. split; [eapply else_trans; apply else_page|]. split; [done|]. split; [done|].
  split; [intros n; by rewrite !flag_clear|]. unfold clear_flag, set_page. simpl. by rewrite !fn_lookup_alter.
Qed.

Lemma unknown_off zi p s : exists s2, unlock_page p (set_zone zi (fun z => z <| inactive_clean_list ::= without p |> <| inactive_clean_pages ::= Z.pred |>) (set_flag PG_locked p s)) = Some s2 /\ off_list zi p s s2.
Proof.
  set (s1 := set_zone zi _ _). assert (O1 : off_list zi p s s1).
  { eapply (off_after zi p s (set_flag PG_locked p s)); [by apply outside_set|apply else_page|done|done|]. by apply (off_zone zi p (fun z => z <| inactive_clean_list ::= without p |> <| inactive_clean_pages ::= Z.pred |>)). }
  assert (Hl : page_flag PG_locked p s1 = true) by (change (page_flag PG_locked p (set_flag PG_locked p s) = true); by rewrite flag_set).
  destruct (unlock_kept p s1 Hl) as (s2 & E & U1 & U2 & U3 & U4 & _). exists s2. split; [done|]. eapply off_trans; [exact O1|done|done|done|]. intros zj. by rewrite U4.
Qed.

(** A page that was found is a block of one page. *)
Lemma page_found_ok l zi p s : pool l s -> znum zi -> p ∈ clean_list s zi -> page_flag PG_inactive_clean p s = true -> pg_count (mem_map s p) <> 0 -> page_busy p s = false ->
  exists s', found_page p (set_page p (fun x => x <| pg_mapping := 0 |>) (set_flag PG_locked p s)) = Some (s', Some p) /\ off_list zi p s s' /\ pool ((p, 0) :: l) s'.
Proof.
  intros P Hi Hp Hc Hn Hb. pose proof (po_lru _ _ P zi p Hi Hp) as Lp. destruct (lp_flags _ _ _ _ Lp) as (F1 & F2 & F3). unfold page_busy in Hb. cbv zeta in Hb.
  rewrite !orb_false_iff, !negb_false_iff, !Z.eqb_eq, Z.ltb_ge in Hb. destruct Hb as (((((B1 & B2) & B3) & B4) & B5) & B6). pose proof (lp_count _ _ _ _ Lp) as Hc0.
  set (s1 := set_page p _ (set_flag PG_locked p s)).
  assert (E1 : forall n, page_flag n p s1 = (PG_locked =? n) || page_flag n p s).
  { intros n. rewrite <- (flag_set n PG_locked p s) by done. unfold page_flag, s1, set_page. simpl. by rewrite !fn_lookup_alter. }
  assert (X1 : pg_count (mem_map s1 p) = 1 /\ pg_mapping (mem_map s1 p) = 0 /\ pg_buffers (mem_map s1 p) = 0 /\ pg_pte_chain (mem_map s1 p) = 0)
    by (unfold s1, set_flag, set_page; simpl; rewrite !fn_lookup_alter; simpl; split; [lia|done]).
  assert (O1 : outside s s1 /\ else_same p s s1) by (split; [eapply outside_trans; [by apply (outside_set PG_locked p s)|by apply outside_page]|eapply else_trans; apply else_page]).
  unfold found_page, lru_cache_del. rewrite !E1, F2, F3, Hc. cbn [PG_locked PG_active PG_inactive_dirty PG_inactive_clean Z.eqb orb].
  set (s2 := clear_flag PG_lru p _). assert (Ez : page_zone p s1 = zi) by (rewrite (os_place _ _ (proj1 O1)); by apply (lru_place l)).
  assert (O2 : off_list zi p s s2).
  { eapply (off_after zi p s s1); [apply O1|apply O1|done|done|]. eapply off_trans; [by apply off_del|by apply (outside_clear PG_lru)|apply else_page|done|done]. }
  assert (E2 : forall n, page_flag n p s2 = page_flag n p s1 && negb (PG_inactive_clean =? n) && negb (PG_lru =? n)) by (intros n; unfold s2; rewrite flag_clear; f_equal; rewrite <- flag_clear; done).
  assert (X2 : pg_count (mem_map s2 p) = 1 /\ pg_mapping (mem_map s2 p) = 0 /\ pg_buffers (mem_map s2 p) = 0 /\ pg_pte_chain (mem_map s2 p) = 0).
  { assert (X : forall t, let x := mem_map (clear_flag PG_lru p (del_page_from_inactive_clean_list p t)) p in let y := mem_map t p in
      pg_count x = pg_count y /\ pg_mapping x = pg_mapping y /\ pg_buffers x = pg_buffers y /\ pg_pte_chain x = pg_pte_chain y).
    { intros t. unfold del_page_from_inactive_clean_list, clear_flag, set_page. simpl. by rewrite !fn_lookup_alter. }
    destruct (X s1) as (Y1 & Y2 & Y3 & Y4). fold s2 in Y1, Y2, Y3, Y4. rewrite Y1, Y2, Y3, Y4. exact X1. }
  clearbody s2 s1. assert (Ed : DEBUG_LRU_PAGE p s2 = false) by (unfold DEBUG_LRU_PAGE; rewrite !E2, !E1, F2, F3; cbn; by rewrite andb_false_r).
  rewrite Ed. destruct (unlock_kept p s2) as (s3 & E3 & U1 & U2 & U3 & U4 & U5 & U6 & U7 & U8 & U9); [rewrite E2, E1; done|]. rewrite E3. cbn [mbind option_bind].
  set (s4 := set_page p _ s3). exists s4. split; [done|].
  assert (O4 : off_list zi p s s4).
  { eapply off_trans; [exact O2|eapply outside_trans; [exact U1|by apply outside_page]|eapply else_trans; [exact U2|apply else_page]|done|]. intros zj. change (clean_list s3 zj = clean_list s2 zj). by rewrite U4. }
  split; [done|]. destruct (pool_off l s s4 zi p P Hi Hp O4) as (P4 & N4 & _). apply pool_cons. split; [done|].
  assert (X4 : mem_map s4 p = (mem_map s3 p) <| pg_age := PAGE_AGE_START |>) by (unfold s4, set_page; simpl; by rewrite fn_lookup_alter).
  assert (Hin : forall q, in_block p 0 q -> q = p) by (unfold in_block; intros q; change (2 ^ 0) with 1; lia).
  destruct X2 as (Y1 & Y2 & Y3 & Y4). split; [split|rewrite X4; simpl; congruence].
  - split; [|intros q ->%Hin; rewrite (outside_avail s s4 p (of_outside _ _ _ _ O4)); apply Lp]. exists zi. split; [done|]. apply (outside_block s s4 zi p 0 (of_outside _ _ _ _ O4)).
    pose proof (lp_zone _ _ _ _ Lp) as Z. unfold in_zone in Z. split; [done|]. change (2 ^ 0) with 1. split; [lia|]. split; [lia|apply Z.mod_1_r].
  - intros q ->%Hin. unfold clean. cbv zeta. assert (E4 : forall n, page_flag n p s4 = page_flag n p s3) by (intros n; unfold page_flag; by rewrite X4). rewrite !E4, !U5, !E2, !E1, F1, F2, F3, X4. simpl. rewrite U7, U8, U9.
    pose proof (lp_max _ _ _ _ Lp). rewrite <- (proj2 (of_else _ _ _ _ O4)) in H. split_and!; try done. by rewrite andb_false_r.
  - intros p' o' q Hin' ->%Hin. by apply (lp_apart _ _ _ _ Lp).
  - intros zj q Hj Hq ->%Hin. by apply (N4 zj Hj).
Qed.

Definition attempt_ok (l : list (Z * Z)) (o : Z) (s s' : mm) (r : option Z) : Prop :=
  sizes_kept s s' /\ match r with Some p => pool ((p, o) :: l) s' | None => pool l s' end.

Lemma scan_ok l zi n : forall s, pool l s -> znum zi -> exists s' r, reclaim_scan n zi s = Some (s', r) /\ attempt_ok l 0 s s' r /\ mm_flags s' = mm_flags s /\
  (length (clean_list s' zi) <= length (clean_list s zi))%nat /\ (r <> None -> (length (clean_list s' zi) < length (clean_list s zi))%nat).
Proof.
  induction n as [|n IH]; intros s P Hi; cbn [reclaim_scan]; [exists s, None; done|].
  destruct (list.last (clean_list s zi)) as [p|] eqn:El; [|exists s, None; done].
  assert (Hp : p ∈ clean_list s zi) by (apply last_Some in El as (k & ->); apply elem_of_app; right; apply list_elem_of_here).
  pose proof (po_lru _ _ P zi p Hi Hp) as Lp.
  assert (Go : forall s1, off_list zi p s s1 -> exists s' r, reclaim_scan n zi s1 = Some (s', r) /\ attempt_ok l 0 s s' r /\ mm_flags s' = mm_flags s /\
    (length (clean_list s' zi) <= length (clean_list s zi))%nat /\ (r <> None -> (length (clean_list s' zi) < length (clean_list s zi))%nat)).
  { intros s1 O. destruct (pool_off l s s1 zi p P Hi Hp O) as (P1 & _ & Ln). destruct (IH s1 P1 Hi) as (s' & r & E & [Z Hr] & F & L1 & L2). exists s', r. split; [done|].
    split; [split; [|done]; apply (sizes_trans s s1 s'); [apply outside_sizes, O|done]|]. split; [rewrite F; apply O|]. split; [lia|]. intros Hn. specialize (L2 Hn). lia. }
  destruct (page_flag PG_inactive_clean p s) eqn:Hc; cbn [negb]; [|apply Go, wrong_off].
  destruct (Z.eqb_spec (pg_count (mem_map s p)) 0) as [Ec|Ec].
  - set (s1 := set_zone zi _ s). assert (Lz : forall zj, clean_list s1 zj = if decide (zj = zi) then p :: without p (clean_list s zi) else clean_list s zj) by (intros zj; apply clean_set_zone).
    assert (Nw : NoDup (p :: without p (clean_list s zi))) by (apply list.NoDup_cons; split; [unfold without; rewrite list_elem_of_filter; tauto|by apply list.NoDup_filter, (po_nodup _ _ P)]).
    assert (Sub : forall q, q ∈ p :: without p (clean_list s zi) -> q ∈ clean_list s zi) by (intros q [->|Hq]%elem_of_cons; [done|]; unfold without in Hq; by apply list_elem_of_filter in Hq as [_ ?]).
    assert (P1 : pool l s1).
    { apply (pool_else l s s1 p P); [by apply outside_zone|by split|apply Lp|apply Lp| |].
      - intros zj Hj. rewrite Lz. case_decide; [done|by apply (po_nodup _ _ P)].
      - intros zj q Hj. rewrite Lz. intros Hq. split; [case_decide as E; [subst; auto|done]|]. intros -> [L1 L2 L3 L4 L5 L6]. split; try done; [by apply (sizes_zone s); [apply outside_sizes, outside_zone|]|].
        by rewrite (outside_avail s s1 p) by (by apply outside_zone). }
    destruct (IH s1 P1 Hi) as (s' & r & E & [Z Hr] & F & L1 & L2). exists s', r. split; [done|].
    assert (Ll : (length (clean_list s1 zi) <= length (clean_list s zi))%nat) by (rewrite Lz, decide_True by done; simpl; pose proof (without_shorter p _ Hp); lia).
    split; [split; [|done]; apply (sizes_trans s s1 s'); [by apply outside_sizes, outside_zone|done]|]. split; [by rewrite F|]. split; [lia|]. intros Hn. specialize (L2 Hn). lia.
  - destruct (page_busy p s) eqn:Hb.
    + destruct (busy_off l zi p s P Hi Lp Hc) as (Ed & s2 & E2 & O2). cbv zeta. rewrite Ed, E2. cbn [mbind option_bind]. by apply Go.
    + cbv zeta. assert (Em : pg_mapping (mem_map (set_flag PG_locked p s) p) = pg_mapping (mem_map s p)) by (unfold set_flag, set_page; simpl; by rewrite fn_lookup_alter). rewrite Em.
      destruct (pg_mapping (mem_map s p) =? 0) eqn:Hm; cbn [negb].
      * destruct (unknown_off zi p s) as (s2 & E2 & O2). rewrite E2. cbn [mbind option_bind]. by apply Go.
      * destruct (page_found_ok l zi p s P Hi Hp Hc Ec Hb) as (s' & E & O & P'). rewrite E. exists s', (Some p). split; [done|]. destruct (pool_off l s s' zi p P Hi Hp O) as (_ & _ & Ln).
        split; [split; [apply outside_sizes, O|done]|]. split; [apply O|]. split; [lia|done].
Qed.

Lemma reclaim_ok l s zi : pool l s -> znum zi -> exists s' r, reclaim_page zi s = Some (s', r) /\ attempt_ok l 0 s s' r /\ mm_flags s' = mm_flags s /\
  (r <> None -> (length (clean_list s' zi) < length (clean_list s zi))%nat).
Proof. intros P Hi. destruct (scan_ok l zi (Z.to_nat (u32 (inactive_clean_pages (zones s zi)))) s P Hi) as (s' & r & E & A & F & _ & L). by exists s', r. Qed.

(** ** The searches *)

Lemma pool_less l1 l2 s : pool (l1 ++ l2) s -> pool l2 s.
Proof. induction l1 as [|[p o] l1 IH]; simpl; [done|]. intros (P & _)%pool_cons. auto. Qed.

(** [less theirs may l l']: of the blocks of [l] those of [l'] are left, the others were
    given back.  Only blocks of [theirs] are, and only if [may] is set. *)
Definition less (theirs : Z * Z -> Prop) (may : bool) (l l' : list (Z * Z)) : Prop :=
  exists given, l ≡ₚ given ++ l' /\ Forall theirs given /\ (may = false -> given = []).

Lemma less_refl theirs may l : less theirs may l l.
Proof. by exists []. Qed.
Lemma less_trans theirs may l1 l2 l3 : less theirs may l1 l2 -> less theirs may l2 l3 -> less theirs may l1 l3.
Proof.
  intros (g & P & F & N) (g' & P' & F' & N'). exists (g ++ g'). split; [by rewrite P, P', app_assoc|].
  split; [by apply Forall_app|]. intros Hm. by rewrite (N Hm), (N' Hm).
Qed.
Lemma less_may theirs may l l' : less theirs may l l' -> less theirs true l l'.
Proof. intros (g & P & F & _). by exists g. Qed.

(** What the daemon, the freeing of memory and other tasks do while the allocation waits.
    They can give back blocks of [theirs]: kmem_cache_reap, which try_to_free_pages and the
    daemon call, frees blocks of the slab caches, and other tasks free their own.
    The blocks of other owners are kept.  The daemon is only woken, and does not run,
    unless the caller may wait. *)
Class PageoutLaws (theirs : Z * Z -> Prop) `{Pageout} := {
  kswapd_law : forall l s m, pool l s -> exists l', less theirs (has m __GFP_WAIT) l l' /\
    pool l' (wakeup_kswapd m s) /\ sizes_kept s (wakeup_kswapd m s);
  try_law : forall l s m, pool l s -> exists l', less theirs true l l' /\
    pool l' (fst (try_to_free_pages m s)) /\ sizes_kept s (fst (try_to_free_pages m s));
  yield_law : forall l s, pool l s -> exists l', less theirs true l l' /\ pool l' (yield_cpu s) /\ sizes_kept s (yield_cpu s)
}.

(** The zones of a list exist and are not empty. *)
Definition good (zl : list Z) (s : mm) : Prop := forall zi, zi ∈ zl -> znum zi /\ zsize (zones s zi) <> 0.
Lemma good_kept zl s s' : sizes_kept s s' -> good zl s -> good zl s'.
Proof. intros Z G zi Hi. destruct (Z zi) as [-> _]. by apply G. Qed.
Lemma good_tail zi zl s : good (zi :: zl) s -> znum zi /\ (zsize (zones s zi) =? 0) = false /\ good zl s.
Proof. intros G. destruct (G zi (list_elem_of_here _ _)) as [Hz Hs]. split; [done|]. split; [by apply Z.eqb_neq|]. intros zj Hj. apply G, elem_of_cons. by right. Qed.

Section search.
Context {theirs : Z * Z -> Prop} `{PageoutLaws theirs} (irq : bool) (l : list (Z * Z)) (order : Z) (Ho : ord order).

Definition found (s : mm) (r : option (mm * option Z)) : Prop := exists s' x, r = Some (s', x) /\ attempt_ok l order s s' x.

Lemma found_after s s' r : sizes_kept s s' -> found s' r -> found s r.
Proof. intros Z (s2 & x & E & Z2 & X). exists s2, x. split; [done|]. split; [by apply (sizes_trans s s')|done]. Qed.

(** An allocation in a zone, and another search when it fails. *)
Lemma queue_then s zi k : pool l s -> znum zi -> (forall s', sizes_kept s s' -> pool l s' -> found s' (k s')) ->
  found s (r ← rmqueue zi order s; match r with (s', Some p) => Some (s', Some p) | (s', None) => k s' end).
Proof.
  intros P Hi Hk. destruct (pool_alloc l s zi order P Hi Ho) as (s' & r & -> & Z & _ & _ & R). simpl. destruct r as [p|]; [by exists s', (Some p)|].
  apply (found_after s s'); auto.
Qed.

(** Taking a clean page, for one page only, and another search when there is none. *)
Lemma direct_then s zi (d : bool) k : pool l s -> znum zi -> (d = true -> order = 0) -> (forall s', sizes_kept s s' -> pool l s' -> found s' (k s')) ->
  found s (r ← (if d then reclaim_page zi s else Some (s, None)); match r with (s', Some p) => Some (s', Some p) | (s', None) => k s' end).
Proof.
  intros P Hi Hd Hk. destruct d; [|simpl; apply Hk; [done|done]]. rewrite (Hd eq_refl) in *. destruct (reclaim_ok l s zi P Hi) as (s' & r & -> & [Z R] & _). simpl.
  destruct r as [p|]; [exists s', (Some p); split; [done|]; split; [done|by rewrite (Hd eq_refl)]|]. apply (found_after s s'); auto.
Qed.

Lemma fixup_loop_ok fuel zi : forall s, pool l s -> znum zi -> (length (clean_list s zi) < fuel)%nat -> exists s', fixup_loop fuel zi s = Some s' /\ sizes_kept s s' /\ pool l s'.
Proof.
  induction fuel as [|fuel IH]; intros s P Hi Hl; [lia|]. cbn [fixup_loop]. destruct (reclaim_ok l s zi P Hi) as (s1 & r & -> & [Z1 R] & _ & L1). cbn [mbind option_bind].
  destruct r as [p|]; [|by exists s1]. apply pool_cons in R as (P1 & T1 & _). destruct (pool_free l s1 p 0 P1 T1) as (s2 & -> & Z2 & _ & L2 & P2). cbn [mbind option_bind].
  assert (Z : sizes_kept s s2) by by apply (sizes_trans s s1). destruct (_ <=? _); [|by exists s2]. specialize (L1 ltac:(done)).
  destruct (IH s2 P2 Hi) as (s' & E & Z3 & P3); [rewrite L2; lia|]. exists s'. split; [done|]. split; [by apply (sizes_trans s s2)|done].
Qed.
Lemma fixup_ok s zi d : pool l s -> znum zi -> exists s', fixup_freespace zi d s = Some s' /\ sizes_kept s s' /\ pool l s'.
Proof.
  intros P Hi. unfold fixup_freespace, clean_fuel. destruct d; [apply fixup_loop_ok; [done|done|lia]|]. destruct (kswapd_law l s GFP_ATOMIC P) as (l' & (g & Pm & _ & Hg) & P' & Z').
  rewrite (Hg eq_refl) in Pm. eexists. split; [done|]. split; [done|]. by apply (pool_perm l').
Qed.

Lemma limit_ok zl limit d : (d = true -> order = 0) -> forall s, pool l s -> good zl s -> found s (__alloc_pages_limit zl order limit d s).
Proof.
  intros Hd. induction zl as [|zi zl IH]; intros s P G; cbn [__alloc_pages_limit]; [by exists s, None|]. destruct (good_tail _ _ _ G) as (Hi & -> & G'). cbv zeta.
  destruct (_ <=? _); [|by apply IH]. apply direct_then; [done|done|done|]. intros s1 Z1 P1. apply queue_then; [done|done|]. intros s2 Z2 P2. apply IH; [done|].
  by eapply good_kept, good_kept.
Qed.

Lemma plenty_ok zl d : forall min s, pool l s -> good zl s -> found s (alloc_plenty zl order min d s).
Proof.
  induction zl as [|zi zl IH]; intros min s P G; cbn [alloc_plenty]; [by exists s, None|]. destruct (good_tail _ _ _ G) as (Hi & -> & G'). cbv zeta.
  destruct (_ <? _); [apply queue_then; [done|done|]; intros s1 Z1 P1; apply IH; [done|by eapply good_kept]|].
  destruct (_ <? _); [|by apply IH]. destruct (fixup_ok s zi d P Hi) as (s1 & -> & Z1 & P1). simpl. apply (found_after s s1); [done|]. apply IH; [done|by eapply good_kept].
Qed.

Lemma anything_ok zl d : (d = true -> order = 0) -> forall min s, pool l s -> good zl s -> found s (alloc_anything irq zl order min d s).
Proof.
  intros Hd. induction zl as [|zi zl IH]; intros min s P G; cbn [alloc_anything]; [by exists s, None|]. destruct (good_tail _ _ _ G) as (Hi & _ & G').
  apply direct_then; [done|done|done|]. intros s1 Z1 P1. cbv zeta. pose proof (good_kept _ _ _ Z1 G') as G1.
  destruct (_ || _); [|by apply IH]. apply queue_then; [done|done|]. intros s2 Z2 P2. apply IH; [done|by eapply good_kept].
Qed.

Lemma defrag_zone_ok fuel zi : forall s, pool l s -> znum zi -> (length (clean_list s zi) < fuel)%nat -> found s (defrag_zone fuel zi order s).
Proof.
  induction fuel as [|fuel IH]; intros s P Hi Hl; [lia|]. cbn [defrag_zone]. destruct (_ =? 0); [by exists s, None|].
  destruct (reclaim_ok l s zi P Hi) as (s1 & r & -> & [Z1 R] & _ & L1). cbn [mbind option_bind]. destruct r as [p|]; [|by exists s1, None].
  destruct (pool_put l s1 p 0 R) as (s2 & -> & Z2 & _ & L2 & P2). cbn [mbind option_bind]. specialize (L1 ltac:(done)).
  apply (found_after s s2); [by apply (sizes_trans s s1)|]. destruct (pool_alloc l s2 zi order P2 Hi Ho) as (s3 & r & -> & Z3 & _ & L3 & R3). cbn [mbind option_bind].
  destruct r as [q|]; [by exists s3, (Some q)|]. apply (found_after s2 s3); [done|]. apply IH; [done|done|]. rewrite L3, L2. lia.
Qed.
Lemma defrag_ok zl : forall s, pool l s -> good zl s -> found s (defrag zl order s).
Proof.
  induction zl as [|zi zl IH]; intros s P G; cbn [defrag]; [by exists s, None|]. destruct (good_tail _ _ _ G) as (Hi & -> & G').
  destruct (defrag_zone_ok (clean_fuel zi s) zi s P Hi ltac:(unfold clean_fuel; lia)) as (s1 & r & -> & Z1 & R). cbn [mbind option_bind].
  destruct r as [p|]; [by exists s1, (Some p)|]. apply (found_after s s1); [done|]. apply IH; [done|by eapply good_kept].
Qed.

End search.

(** ** A pass *)

Section pass.
Context {theirs : Z * Z -> Prop} `{PageoutLaws theirs} (irq : bool) (order : Z) (Ho : ord order) (may : bool).

Definition pass_ok (l : list (Z * Z)) (s : mm) (r : option (mm * verdict)) : Prop := exists s' v l', r = Some (s', v) /\ sizes_kept s s' /\
  less theirs may l l' /\ match v with Got p => pool ((p, order) :: l') s' | _ => pool l' s' end.

Lemma pass_after l l' s s' r : sizes_kept s s' -> less theirs may l l' -> pass_ok l' s' r -> pass_ok l s r.
Proof.
  intros Z Ls (s2 & v & l2 & E & Z2 & L2 & X). exists s2, v, l2. split; [done|]. split; [by apply (sizes_trans s s')|].
  split; [by eapply less_trans|done].
Qed.

Lemma orelse_ok l s r k : found l order s r -> (forall s', sizes_kept s s' -> pool l s' -> pass_ok l s' (k s')) -> pass_ok l s (orelse r k).
Proof.
  intros (s' & x & -> & Z & X) Hk. destruct x as [p|]; simpl; [exists s', (Got p), l; split_and!; [done|done|apply less_refl|done]|].
  apply (pass_after l l s s'); [done|apply less_refl|auto].
Qed.

Lemma failed_ok l s : pool l s -> pass_ok l s (Some (s, Failed)).
Proof. intros P. exists s, Failed, l. split_and!; [done|done|apply less_refl|done]. Qed.

Lemma defragment_ok gfp l zl s : may = true -> pool l s -> good zl s -> pass_ok l s (defragment gfp order zl s).
Proof.
  intros Hm P G. unfold defragment. apply orelse_ok; [by apply defrag_ok|]. intros s1 Z1 P1. cbv zeta. set (s2 := s1 <| mm_flags ::= _ |>).
  assert (P2 : pool l s2) by (by apply (pool_flags l s1)). destruct (try_law l s2 gfp P2) as (l' & Ls & P3 & Z3).
  destruct (try_to_free_pages gfp s2) as [s3 b]. simpl in P3, Z3. set (s4 := s3 <| mm_flags ::= _ |>).
  assert (P4 : pool l' s4) by (by apply (pool_flags l' s3)). assert (Z4 : sizes_kept s1 s4) by exact Z3.
  apply (pass_after l l' s1 s4); [done|by rewrite Hm|].
  apply orelse_ok; [apply defrag_ok; [done|done|]|intros s5 _; apply failed_ok]. by eapply good_kept, good_kept.
Qed.

Lemma alloc_pass_ok gfp l zl d s : may = has gfp __GFP_WAIT -> (d = true -> order = 0) -> pool l s -> good zl s ->
  pass_ok l s (alloc_pass irq gfp order zl d s).
Proof.
  intros Hm Hd P G. unfold alloc_pass. apply orelse_ok; [by apply plenty_ok|]. intros s1 Z1 P1. pose proof (good_kept _ _ _ Z1 G) as G1.
  apply orelse_ok; [by apply limit_ok|]. intros s2 Z2 P2. pose proof (good_kept _ _ _ Z2 G1) as G2.
  apply orelse_ok; [by apply limit_ok|]. intros s3 Z3 P3. pose proof (good_kept _ _ _ Z3 G2) as G3.
  destruct (kswapd_law l s3 gfp P3) as (l4 & L4 & P4 & Z4). pose proof (good_kept _ _ _ Z4 G3) as G4.
  apply (pass_after l l4 s3 (wakeup_kswapd gfp s3)); [done|by rewrite Hm|]. set (s4 := wakeup_kswapd gfp s3) in *.
  apply orelse_ok; [by apply limit_ok|]. intros s5 Z5 P5. pose proof (good_kept _ _ _ Z5 G4) as G5.
  apply orelse_ok; [destruct (has gfp __GFP_HIGH); [by apply limit_ok|by exists s5, None]|]. intros s6 Z6 P6. pose proof (good_kept _ _ _ Z6 G5) as G6. cbv zeta.
  assert (Any : forall l s, pool l s -> good zl s -> pass_ok l s (orelse (alloc_anything irq zl order (Z.shiftl 1 order) d s) (fun s => Some (s, Failed)))).
  { intros l' t Pt Gt. apply orelse_ok; [by apply anything_ok|]. intros t' _. apply failed_ok. }
  destruct (memalloc s6); [by apply Any|]. destruct (has gfp __GFP_WAIT) eqn:Hw; [|rewrite andb_false_r; by apply Any].
  destruct (_ && _); [by apply defragment_ok|].
  destruct (yield_law l4 s6 P6) as (l7 & L7 & P7 & Z7). set (s7 := yield_cpu s6) in *. apply (pass_after l4 l7 s6 s7); [done|by rewrite Hm|].
  destruct (_ || _); [|apply Any; [done|by eapply good_kept]].
  destruct (try_law l7 s7 gfp P7) as (l8 & L8 & P8 & Z8). destruct (try_to_free_pages gfp s7) as [s8 b]. eexists s8, _, l8. split; [done|]. split; [done|].
  split; [by rewrite Hm|]. by destruct (b || _).
Qed.

Lemma passes_ok n gfp zl d : may = has gfp __GFP_WAIT -> forall l s, (d = true -> order = 0) -> pool l s -> good zl s ->
  pass_ok l s (alloc_passes irq n gfp order zl d s).
Proof.
  intros Hm. induction n as [|n IH]; intros l s Hd P G; cbn [alloc_passes]; [exists s, Again, l; split_and!; [done|done|apply less_refl|done]|].
  destruct (alloc_pass_ok gfp l zl d s Hm Hd P G) as (s' & v & l' & E & Z & Ls & X). rewrite E.
  destruct v as [p| |]; [by exists s', (Got p), l'|by exists s', Failed, l'|]. apply (pass_after l l' s s'); [done|done|]. apply IH; [done|done|by eapply good_kept].
Qed.
End pass.

(** ** When a search gives up, and when it goes on *)

Section outcome.
Context {theirs : Z * Z -> Prop} `{PageoutLaws theirs} (irq : bool).

Lemma anything_flags l order zl d : ord order -> (d = true -> order = 0) -> forall min s s' x, pool l s -> good zl s ->
  alloc_anything irq zl order min d s = Some (s', x) -> mm_flags s' = mm_flags s.
Proof.
  intros Ho Hd. induction zl as [|zi zl IH]; intros min s s' x P G; cbn [alloc_anything]; [by intros [= <- _]|]. destruct (good_tail _ _ _ G) as (Hi & _ & G').
  assert (R1 : exists s1 r, (if d then reclaim_page zi s else Some (s, None)) = Some (s1, r) /\ mm_flags s1 = mm_flags s /\ (r = None -> pool l s1 /\ sizes_kept s s1)).
  { destruct d; [|by exists s, None]. destruct (reclaim_ok l s zi P Hi) as (s1 & r & -> & [Z R] & F & _). exists s1, r. split; [done|]. split; [done|]. by intros ->. }
  destruct R1 as (s1 & r & -> & F1 & R1). cbn [mbind option_bind]. destruct r as [p|]; [by intros [= <- _]|]. destruct (R1 eq_refl) as [P1 Z1]. cbv zeta. pose proof (good_kept _ _ _ Z1 G') as G1.
  destruct (_ || _); [|intros E; rewrite <- F1; by apply (IH _ s1 s' x P1 G1 E)].
  destruct (pool_alloc l s1 zi order P1 Hi Ho) as (s2 & r & -> & Z2 & F2 & _ & R2). cbn [mbind option_bind]. destruct r as [p|]; [intros [= <- _]; congruence|].
  intros E. rewrite <- F1, <- F2. by apply (IH _ s2 s' x R2 (good_kept _ _ _ Z2 G1) E).
Qed.

(** The search starts again only to wait for one page. *)
Lemma pass_again gfp order zl d s s' : alloc_pass irq gfp order zl d s = Some (s', Again) -> has gfp __GFP_WAIT = true /\ order <= 0.
Proof.
  assert (Or : forall r k, orelse r k = Some (s', Again) -> exists t, k t = Some (s', Again)) by (intros [[t [p|]]|] k; simpl; [done|by exists t|done]).
  unfold alloc_pass. intros E. do 5 (apply Or in E as [? E]). cbv zeta in E.
  assert (Any : forall t, orelse (alloc_anything irq zl order (Z.shiftl 1 order) d t) (fun s => Some (s, Failed)) <> Some (s', Again)) by (intros t Ht; by apply Or in Ht as [? ?]).
  destruct (memalloc _); [by apply Any in E|]. destruct (Z.ltb_spec 0 order); cbn [andb] in E.
  - destruct (has gfp __GFP_WAIT); [|by apply Any in E]. exfalso. unfold defragment in E. apply Or in E as [t E]. cbv zeta in E. destruct (try_to_free_pages _ _). by apply Or in E as [? ?].
  - destruct (has gfp __GFP_WAIT); [done|by apply Any in E].
Qed.

(** One page for a task that can wait for I/O is refused only to a task that frees memory. *)
Lemma pass_failed l gfp zl d s s' : pool l s -> good zl s -> has gfp __GFP_WAIT = true -> has gfp __GFP_FS = true ->
  alloc_pass irq gfp 0 zl d s = Some (s', Failed) -> memalloc s' = true.
Proof.
  intros P G Hw Hf. assert (O0 : ord 0) by done. unfold alloc_pass.
  assert (Or : forall l s r k, pool l s -> good zl s -> found l 0 s r -> orelse r k = Some (s', Failed) -> exists t, pool l t /\ good zl t /\ k t = Some (s', Failed)).
  { intros l' t r k Pt Gt (t' & x & -> & Z & X). destruct x as [p|]; [done|]. intros E. exists t'. split; [done|]. split; [by eapply good_kept|done]. }
  intros E. apply (Or l s) in E as (s1 & P1 & G1 & E); [|done|done|by apply plenty_ok]. apply (Or l s1) in E as (s2 & P2 & G2 & E); [|done|done|by apply limit_ok].
  apply (Or l s2) in E as (s3 & P3 & G3 & E); [|done|done|by apply limit_ok]. destruct (kswapd_law l s3 gfp P3) as (l4 & _ & P4 & Z4). pose proof (good_kept _ _ _ Z4 G3) as G4. revert E. intros E.
  apply (Or l4 (wakeup_kswapd gfp s3)) in E as (s5 & P5 & G5 & E); [|done|done|by apply limit_ok].
  apply (Or l4 s5) in E as (s6 & P6 & G6 & E); [|done|done|destruct (has gfp __GFP_HIGH); [by apply limit_ok|by exists s5, None]]. cbv zeta in E.
  destruct (memalloc s6) eqn:Em.
  - destruct (alloc_anything irq zl 0 (Z.shiftl 1 0) d s6) as [[t [p|]]|] eqn:Ea; try done. injection E as ->. unfold memalloc in *. by rewrite (anything_flags l4 0 zl d O0 ltac:(done) _ _ _ _ P6 G6 Ea).
  - rewrite Hw in E. cbn [Z.ltb andb orb Z.eqb] in E. destruct (try_to_free_pages _ _) as [t b]. by rewrite Hf, orb_true_r in E.
Qed.
End outcome.

Lemma free_at_ok l s p o : pool ((p, o) :: l) s -> exists s', free_pages_at (page_address p) o s = Some s' /\ sizes_kept s s' /\ pool l s'.
Proof.
  intros P. destruct (pool_put l s p o P) as (s' & E & Z & _ & _ & P'). exists s'. split; [|done].
  unfold free_pages_at. pose proof (page_of_address p 0 ltac:(unfold PAGE_SIZE; lia)) as Ep. rewrite Z.add_0_r in Ep.
  destruct (po_use _ _ P p o (list_elem_of_here _ _)) as [(zi & Hi & _ & B1 & _) _]. destruct (po_mm _ _ P zi Hi) as [K _]. pose proof (zk_start _ _ K).
  rewrite (proj2 (Z.eqb_neq (page_address p) 0)) by (unfold page_address, PAGE_OFFSET, PAGE_SIZE; lia). cbn [negb]. by rewrite Ep.
Qed.

(** ** The theorems *)

Section theorems.
Context {theirs : Z * Z -> Prop} `{PageoutLaws theirs} (irq : bool) (d : pgdat).

Lemma alloc_pages_ok n l s gfp order : pool l s -> (forall i, good (node_zonelists d i) s) -> 0 <= order ->
  exists s' v l', alloc_pages irq n d gfp order s = Some (s', v) /\ sizes_kept s s' /\ less theirs (has gfp __GFP_WAIT) l l' /\
    match v with Got p => pool ((p, order) :: l') s' | _ => pool l' s' end.
Proof.
  intros P G Ho. unfold alloc_pages. destruct (Z.leb_spec MAX_ORDER order); [exists s, Failed, l; split_and!; [done|done|apply less_refl|done]|].
  unfold _alloc_pages, __alloc_pages. apply passes_ok; [unfold ord; lia|done| |done|apply G]. intros [E _]%andb_true_iff. by apply Z.eqb_eq.
Qed.

(** C39. Allocation and freeing of blocks of pages, from the zones and from the clean pages of files.  If the zones are
    consistent, the free pages are clean and the blocks of [l] are allocated, then alloc_pages, of any order and with any
    flags, ends without [BUG()] after any number of passes, whatever the daemon that frees memory, the freeing of
    memory and other tasks do in between within [PageoutLaws]: they may give back blocks of [theirs], those of the
    slab caches and of other tasks, and no others.  A block that is returned is an aligned block of one zone with a
    reference count of 1, has no page in common with a block of [l] that was not given back nor with a page that is
    still available, and its pages are free of mappings, buffers and locks.  The blocks of [l] that do not
    belong to [theirs] are all still allocated, and so are all of [l] if the caller may not wait.  free_pages of any
    allocated block succeeds.  In all cases the state is again as assumed, for the blocks that are left. *)
Theorem alloc_pages_safe n l s gfp order : pool l s -> (forall i, good (node_zonelists d i) s) -> 0 <= order ->
  (exists s' v given l', alloc_pages irq n d gfp order s = Some (s', v) /\ (forall i, good (node_zonelists d i) s') /\
     l ≡ₚ given ++ l' /\ Forall theirs given /\ (has gfp __GFP_WAIT = false -> given = []) /\ pool l' s' /\
     match v with
     | Got p => pool ((p, order) :: l') s' /\ disjoint_from p order l' /\ pg_count (mem_map s' p) = 1 /\ (exists zi, znum zi /\ is_block s' zi p order) /\
         forall q, in_block p order q -> ~ page_avail s' q /\ clean q s'
     | _ => True
     end) /\
  (forall l1 l2 p o, l = l1 ++ (p, o) :: l2 -> exists s', free_pages_at (page_address p) o s = Some s' /\ pool (l1 ++ l2) s').
Proof.
  intros P G Ho. split.
  - destruct (alloc_pages_ok n l s gfp order P G Ho) as (s' & v & l' & E & Z & (g & Pg & Fg & Ng) & X). exists s', v, g, l'. split; [done|].
    split; [intros i; by apply (good_kept _ s)|]. split; [done|]. split; [done|]. split; [done|]. destruct v as [p| |]; [|done|done].
    pose proof X as (X1 & [[T1 T4] T2 T3 _] & Tc)%pool_cons. split; [done|]. split; [done|]. split; [done|]. split; [done|]. split; [done|]. intros q Hq. auto.
  - intros l1 l2 p o ->. destruct (free_at_ok (l1 ++ l2) s p o) as (s' & E & _ & P'); [|by exists s']. eapply pool_perm; [symmetry; apply Permutation_middle|done].
Qed.

(** C40. When an allocation waits.  The search for pages starts again only for a single page, and only if the task may sleep; any
    other allocation is decided in one pass.  An allocation of one page by a task that may sleep and wait for
    files (GFP_KERNEL) never returns NULL, unless the task has become one that frees memory itself
    (PF_MEMALLOC): it goes on until there is a page. *)
Theorem single_page_waits n l s gfp order : pool l s -> (forall i, good (node_zonelists d i) s) -> 0 <= order ->
  exists s' v, alloc_pages irq (S n) d gfp order s = Some (s', v) /\
    (v = Again -> has gfp __GFP_WAIT = true /\ order = 0) /\
    (order = 0 -> has gfp __GFP_WAIT = true -> has gfp __GFP_FS = true -> v = Failed -> memalloc s' = true).
Proof.
  intros P G Ho. destruct (alloc_pages_ok (S n) l s gfp order P G Ho) as (s' & v & l0 & E & _). exists s', v. split; [done|]. revert E. unfold alloc_pages.
  destruct (Z.leb_spec MAX_ORDER order) as [Hm|Hm]; [intros [= <- <-]; split; [done|unfold MAX_ORDER in Hm; lia]|]. unfold _alloc_pages, __alloc_pages.
  set (zl := node_zonelists d _). set (dr := (order =? 0) && _). assert (Gz : good zl s) by apply G. assert (Hd : dr = true -> order = 0) by (intros [E _]%andb_true_iff; by apply Z.eqb_eq).
  assert (Oo : ord order) by (unfold ord; lia). clear G. clearbody zl dr. intros E. split.
  - intros ->. cbn [alloc_passes] in E. destruct (alloc_pass irq gfp order zl dr s) as [[s1 [p| |]]|] eqn:E1; try done. destruct (pass_again irq gfp order zl dr s s1 E1). split; [done|lia].
  - intros -> Hw Hf ->. clear l0. revert l s P Gz E. generalize (S n). intros m. induction m as [|m IH]; intros l s P Gz; cbn [alloc_passes]; [done|].
    destruct (alloc_pass_ok irq 0 Oo _ gfp l zl dr s eq_refl Hd P Gz) as (s1 & v & l1 & E1 & Z1 & _ & X). rewrite E1. destruct v as [p| |]; [done| |].
    + intros [= ->]. by eapply (pass_failed irq l gfp zl dr s).
    + apply (IH l1); [done|by eapply good_kept].
Qed.
End theorems.

(** ** The zones as an allocator of pages *)

(** For the slab caches.  That they are shrunk while the allocation waits is part of their
    own model (the argument [reclaim] of [Cache.kmem_getpages], before the pages are
    asked for), so the freeing of memory meant here, all that is not kmem_cache_reap,
    gives back no block of theirs. *)
Section zones.
Context `{Laws : PageoutLaws (fun _ => False)} (irq : bool) (d : pgdat).

(** A call that still waits after [passes] passes counts as refused. *)
Definition zone_pages (passes : nat) : Pages mm := {|
  get_pages := fun gfp order s =>
    match alloc_pages irq passes d gfp order s with Some (s', Got p) => (s', Some p) | Some (s', _) => (s', None) | None => (s, None) end;
  put_pages := fun p order s => free_pages_at (page_address p) order s
|}.

#[export] Instance zone_laws passes : @PagesLaws mm (zone_pages passes).
Proof.
  refine {| holds := fun l s => pool l s /\ forall i, good (node_zonelists d i) s : Prop |}.
  - intros l l' s P [Hp G]. split; [by apply (pool_perm l)|done].
  - intros l s [Hp _]. apply (po_apart _ _ Hp).
  - intros l s p o [Hp _] Hin. destruct (po_use _ _ Hp p o Hin) as [(zi & Hi & _ & B1 & _) _]. destruct (po_mm _ _ Hp zi Hi) as [K _]. pose proof (zk_start _ _ K). lia.
  - intros l s gfp o [Hp G] [Ho _]. unfold get_pages, zone_pages. destruct (alloc_pages_ok irq d passes l s gfp o Hp G Ho) as (s' & v & l' & -> & Z & (g & Pg & Fg & _) & X).
    assert (g = []) as -> by (destruct Fg as [|b g []]; done). simpl in Pg.
    destruct v as [p| |]; (split; [eapply pool_perm; [|exact X]; by rewrite Pg|]; intros i; by apply (good_kept _ s)).
  - intros l s p o [Hp G]. destruct (free_at_ok l s p o Hp) as (s' & E & Z & P'). exists s'. split; [done|]. split; [done|]. intros i. by apply (good_kept _ s).
Qed.
End zones.

(** ** The machine of sixteen pages *)

Definition node : pgdat := build_zonelists booted (Pgdat 16 0 0 1 (fun _ => [])).

(** Its upper half, given to the zone. *)
Definition unreserved : mm := foldl (fun s p => clear_flag PG_reserved p s) booted (seqZ 8 8).
Definition half_free : mm := default bss (__free_pages_ok 8 3 unreserved).

Lemma unreserved_use : outside booted unreserved /\ in_use unreserved 8 3 /\ freeable 8 unreserved.
Proof.
  assert (O : forall l s, outside s (foldl (fun s p => clear_flag PG_reserved p s) s l)).
  { induction l as [|p l IH]; intros s; simpl; [by split|]. eapply outside_trans; [by apply (outside_clear PG_reserved p s)|apply IH]. }
  assert (O1 : outside booted unreserved) by apply O. split; [done|]. split.
  - split; [exists 0; split; [done|]; split; [done|]; split_and!; vm_compute; done|].
    intros q _ Hq. apply (outside_avail booted unreserved q O1) in Hq. by apply (proj2 booted_ok q).
  - split_and!; vm_compute; done.
Qed.

Lemma node_good i : good (node_zonelists node i) half_free.
Proof.
  intros zi Hi. unfold node, build_zonelists, zonelist in Hi. cbn [node_zonelists] in Hi. apply list_elem_of_filter in Hi as [[_ Hs] Hi].
  assert (Ez : zsize (zones half_free 2) = zsize (zones booted 2) /\ zsize (zones half_free 1) = zsize (zones booted 1) /\ zsize (zones half_free 0) = zsize (zones booted 0)) by (vm_compute; done).
  rewrite !elem_of_cons in Hi. destruct Ez as (E2 & E1 & E0). unfold ZONE_HIGHMEM, ZONE_NORMAL, ZONE_DMA in Hi.
  destruct Hi as [->|[->|[->|[]%not_elem_of_nil]]]; (split; [unfold znum, MAX_NR_ZONES; lia|]); [rewrite E2|rewrite E1|rewrite E0]; exact Hs.
Qed.

Lemma half_clean q : 8 <= q < 16 -> clean q half_free.
Proof.
  intros Hq. assert (q = 8 \/ q = 9 \/ q = 10 \/ q = 11 \/ q = 12 \/ q = 13 \/ q = 14 \/ q = 15) as Hc by lia.
  repeat (destruct Hc as [->|Hc]; [unfold clean; cbv zeta; split_and!; vm_compute; reflexivity|]). subst q. unfold clean. cbv zeta. split_and!; vm_compute; reflexivity.
Qed.

Lemma half_pool : pool [] half_free.
Proof.
  destruct unreserved_use as (O & U & F). destruct (free_ok unreserved 8 3 (outside_ok _ _ O (proj1 booted_ok)) U F) as (s' & E & M & A & _).
  assert (s' = half_free) as -> by (unfold half_free; by rewrite E).
  apply pool_start; [exact M| |].
  - intros q [Hq|Hq]%A; [apply (outside_avail booted unreserved q O) in Hq; by destruct (proj2 booted_ok q)|]. apply half_clean. unfold in_block in Hq. lia.
  - intros zi Hi. unfold znum, MAX_NR_ZONES in Hi. assert (zi = 0 \/ zi = 1 \/ zi = 2) as [->|[->| ->]] by lia; vm_compute; reflexivity.
Qed.

(** All eight pages belong to a slab cache: [slab_full]. *)
Definition slab_full : mm := fst (default (half_free, None) (rmqueue 0 3 half_free)).

Lemma slab_pool : pool [(8, 3)] slab_full /\ (forall i, good (node_zonelists node i) slab_full).
Proof.
  destruct (pool_alloc [] half_free 0 3 half_pool ltac:(done) ltac:(done)) as (s' & r & E & Z & _ & _ & R).
  assert (X : snd <$> rmqueue 0 3 half_free = Some (Some 8)) by (vm_compute; reflexivity). rewrite E in X. injection X as ->.
  assert (s' = slab_full) as -> by (unfold slab_full; by rewrite E). split; [done|]. intros i. eapply good_kept; [exact Z|apply node_good].
Qed.

(** ** A cache that gives its block back *)

(** Page [q] is not available. *)
Definition unavailable (s : mm) (q : Z) : bool :=
  forallb (fun zi => let z := zones s zi in
    forallb (fun o => negb (bool_decide (zone_start_mapnr z + (q - zone_start_mapnr z) / 2 ^ o * 2 ^ o ∈ free_list z o))) (seqZ 0 MAX_ORDER) &&
    negb (bool_decide (q ∈ pcp z))) (seqZ 0 MAX_NR_ZONES).
Definition clean_b (q : Z) (s : mm) : bool :=
  let x := mem_map s q in
  (q <? max_mapnr s) && negb (page_flag PG_reserved q s) && negb (page_flag PG_locked q s) && negb (page_flag PG_active q s) &&
  negb (page_flag PG_inactive_dirty q s) && negb (page_flag PG_inactive_clean q s) && (pg_buffers x =? 0) && (pg_mapping x =? 0) && (pg_pte_chain x =? 0).

(** Pages 8 to 15 are a block of one owner, not in use by another. *)
Definition slab_there (s : mm) : bool :=
  (zone_start_mapnr (zones s 0) =? 0) && (16 <=? zsize (zones s 0)) && (pg_count (mem_map s 8) =? 1) &&
  forallb (fun q => (q =? 8) || negb (pg_count (mem_map s q) =? 1)) (seqZ 0 16) &&
  forallb (fun q => unavailable s q && clean_b q s && forallb (fun zi => negb (bool_decide (q ∈ clean_list s zi))) (seqZ 0 MAX_NR_ZONES)) (seqZ 8 8).

(** try_to_free_pages frees the block of the slab. *)
Definition reap_slab (s : mm) : mm * bool :=
  if slab_there s then match free_pages_at (page_address 8) 3 s with Some s' => (s', true) | None => (s, false) end else (s, false).
#[local] Instance reaping : Pageout := {| wakeup_kswapd := fun _ s => s; try_to_free_pages := fun _ s => reap_slab s; yield_cpu := fun s => s |}.

Lemma unavailable_ok s q : unavailable s q = true -> ~ page_avail s q.
Proof.
  unfold unavailable. rewrite forallb_forall. intros H (zi & Hz & Hi & Ha).
  assert (Iz : In zi (seqZ 0 MAX_NR_ZONES)) by (apply list_elem_of_In, elem_of_seqZ; unfold znum in Hz; lia).
  specialize (H zi Iz). cbv zeta in H. apply andb_true_iff in H as [H1 H2].
  apply negb_true_iff, bool_decide_eq_false in H2. rewrite forallb_forall in H1.
  destruct Ha as [(o & Ho & Hc)|Hp].
  - assert (Io : In o (seqZ 0 MAX_ORDER)) by (apply list_elem_of_In, elem_of_seqZ; unfold ord in Ho; lia).
    specialize (H1 o Io). apply negb_true_iff, bool_decide_eq_false in H1. by apply H1.
  - apply H2. by replace q with (zone_start_mapnr (zones s zi) + (q - zone_start_mapnr (zones s zi))) by lia.
Qed.

Lemma slab_there_taken l s : pool l s -> slab_there s = true -> pool ((8, 3) :: filter (fun b => fst b <> 8) l) s.
Proof.
  intros P H. unfold slab_there in H. rewrite !andb_true_iff, Z.eqb_eq, Z.leb_le, Z.eqb_eq, !forallb_forall in H. destruct H as ((((H1 & H2) & H3) & H4) & H5).
  assert (P0 : pool (filter (fun b => fst b <> 8) l) s).
  { apply (pool_less (filter (fun b => ~ fst b <> 8) l)). eapply pool_perm; [|exact P]. symmetry. rewrite (Permutation_app_comm (filter _ l)). apply filter_app_complement. }
  assert (K : forall q, 8 <= q < 16 -> ~ page_avail s q /\ clean q s /\ forall zi, znum zi -> q ∉ clean_list s zi).
  { intros q Hq. specialize (H5 q ltac:(apply list_elem_of_In, elem_of_seqZ; lia)). rewrite !andb_true_iff in H5. destruct H5 as ((X1 & X2) & X3).
    split; [by apply unavailable_ok|]. split.
    - unfold clean_b in X2. cbv zeta in X2. rewrite !andb_true_iff, !negb_true_iff, !Z.eqb_eq, Z.ltb_lt in X2. unfold clean. cbv zeta. tauto.
    - intros zi Hz. rewrite forallb_forall in X3. specialize (X3 zi ltac:(apply list_elem_of_In, elem_of_seqZ; unfold znum in Hz; lia)).
      by apply negb_true_iff, bool_decide_eq_false in X3. }
  apply pool_cons. split; [done|]. split; [|done]. unfold in_block. change (8 + 2 ^ 3) with 16. split.
  - split; [exists 0; split; [done|]; split; [done|]; rewrite H1; split_and!; [lia|simpl; lia|done]|]. intros q Hq. by apply K.
  - intros q Hq. by apply K.
  - intros p o q Hin Hq Hq'. apply list_elem_of_filter in Hin as [Hne Hin]. simpl in Hne. unfold in_block in Hq, Hq'. change (8 + 2 ^ 3) with 16 in Hq.
    destruct (po_use _ _ P p o Hin) as [(zi & Hi & _ & B1 & _) _]. destruct (po_mm _ _ P zi Hi) as [Kz _]. pose proof (zk_start _ _ Kz).
    specialize (H4 p ltac:(apply list_elem_of_In, elem_of_seqZ; lia)). rewrite (po_count _ _ P p o Hin) in H4. cbn [Z.eqb negb] in H4.
    rewrite orb_false_r in H4. by apply Z.eqb_eq in H4.
  - intros zi q Hi Hq Hb. unfold in_block in Hb. change (8 + 2 ^ 3) with 16 in Hb. by destruct (K q Hb) as (_ & _ & X); destruct (X zi Hi).
Qed.

#[local] Instance reaping_laws : PageoutLaws (fun b => fst b = 8).
Proof.
  split.
  - intros l s m P. exists l. split; [apply less_refl|done].
  - intros l s m P. unfold try_to_free_pages, reaping, reap_slab. destruct (slab_there s) eqn:E; [|exists l; split; [apply less_refl|done]].
    destruct (free_at_ok _ s 8 3 (slab_there_taken l s P E)) as (s' & -> & Z & P'). exists (filter (fun b => fst b <> 8) l). split; [|done].
    exists (filter (fun b => ~ fst b <> 8) l). split; [rewrite (Permutation_app_comm (filter _ l)); symmetry; apply filter_app_complement|].
    split; [|done]. apply list.Forall_forall. intros b [Hb _]%list_elem_of_filter. destruct (decide (fst b = 8)); [done|by destruct Hb].
  - intros l s P. exists l. split; [apply less_refl|done].
Qed.

(** The same with limits for a small machine. *)
Definition low_limits (s : mm) : mm := set_zone 0 (fun z => z <| pages_min := 1 |> <| pages_low := 2 |> <| pages_high := 3 |>) s.
Definition slab_low : mm := low_limits slab_full.

Lemma low_limits_lists s zi : clean_list (low_limits s) zi = clean_list s zi.
Proof. unfold low_limits. rewrite clean_set_zone. case_decide as E; [by subst|done]. Qed.
Lemma low_limits_outside s : outside s (low_limits s) /\ else_same 0 s (low_limits s).
Proof. split; [by apply outside_zone|by split]. Qed.

Lemma low_pool : pool [(8, 3)] slab_low /\ (forall i, good (node_zonelists node i) slab_low).
Proof.
  destruct slab_pool as [P G]. destruct (low_limits_outside slab_full) as [O El]. pose proof (low_limits_lists slab_full) as Lz.
  fold slab_low in O, El, Lz. split; [|intros i; eapply good_kept; [apply outside_sizes, O|apply G]].
  apply (pool_else [(8, 3)] slab_full slab_low 0 P O El); [apply unavailable_ok; vm_compute; reflexivity| | |].
  - intros p o [= -> ->]%list_elem_of_singleton. unfold in_block. lia.
  - intros zi Hi. rewrite Lz. by apply (po_nodup _ _ P).
  - intros zi q Hi. rewrite Lz. intros Hq. split; [done|]. intros -> _. exfalso. revert Hq. unfold znum, MAX_NR_ZONES in Hi.
    assert (zi = 0 \/ zi = 1 \/ zi = 2) as [->|[->| ->]] by lia; vm_compute; apply not_elem_of_nil.
Qed.

(** The caller waits; the block of the slab is given back, and a page of it is handed out. *)
Lemma alloc_pages_safe_witness : pool [(8, 3)] slab_low /\ exists s', alloc_pages false 3 node GFP_KERNEL 0 slab_low = Some (s', Got 15) /\
  pg_count (mem_map s' 15) = 1 /\ ~ page_avail s' 15.
Proof.
  destruct low_pool as [P G]. split; [exact P|].
  destruct (alloc_pages_safe false node 3 [(8, 3)] slab_low GFP_KERNEL 0 P G ltac:(lia)) as [(s' & v & g & l' & E & _ & _ & _ & _ & _ & X) _].
  assert (Ev : snd <$> alloc_pages false 3 node GFP_KERNEL 0 slab_low = Some (Got 15)) by (vm_compute; reflexivity). rewrite E in Ev. injection Ev as ->.
  exists s'. split; [exact E|]. destruct X as (_ & _ & Xc & _ & Xq). split; [exact Xc|]. apply Xq. unfold in_block. lia.
Defined.

Lemma single_page_waits_witness : exists s' v, alloc_pages false 1 node GFP_KERNEL 0 slab_low = Some (s', v) /\ (v = Failed -> memalloc s' = true).
Proof.
  destruct low_pool as [P G]. destruct (single_page_waits false node 0 [(8, 3)] slab_low GFP_KERNEL 0 P G ltac:(lia)) as (s' & v & E & _ & F).
  exists s', v. split; [exact E|]. apply F; reflexivity.
Defined.
