(* ===== verification/Bootmem.v ===== *)
(** * The boot-time allocator (mm/bootmem.c)

    A bitmap with a bit for every page of low memory, set for pages that are reserved or
    allocated.  [map_bytes] is the size of the bitmap; addresses are physical (phys_to_virt
    adds a constant).  [None] is [BUG()], or an access outside the bitmap. *)
From stdpp Require Import base list functions.
From S2P Require Import Prelude Pages PidHash Bitmap Sched Buddy ZoneInit.

Record bootmem_data := BootmemData {
  node_boot_start : Z;
  node_low_pfn : Z;
  node_bootmem_map : Z -> bool;
  map_bytes : Z;
  last_offset : Z;
  last_pos : Z
}.
#[export] Instance eta_bootmem_data : Eta bootmem_data := fun b =>
  BootmemData (node_boot_start b) (node_low_pfn b) (node_bootmem_map b) (map_bytes b) (last_offset b) (last_pos b).

Definition PAGE_MASK : Z := u32 (Z.lnot (PAGE_SIZE - 1)).

Definition bootmem_bootmap_pages (pages : Z) : Z :=
  let mapsize := u32 (pages + 7) / 8 in
  Z.shiftr (Z.land (mapsize + (PAGE_SIZE - 1)) PAGE_MASK) PAGE_SHIFT.

(** The size of the bitmap, which is at the page [mapstart]. *)
Definition init_bootmem_core (mapstart start last : Z) (b : bootmem_data) : bootmem_data * Z :=
  let mapsize := u32 (last - start + 7) / 8 in
  let mapsize := Z.land (mapsize + 3) (Z.lnot 3) in
  (b <| node_boot_start := Z.shiftl start PAGE_SHIFT |> <| node_low_pfn := last |>
     <| node_bootmem_map := fun i => (0 <=? i) && (i <? 8 * mapsize) |> <| map_bytes := mapsize |>, mapsize).

(** The bits from [sidx] to [eidx] - 1 get the value [v]. *)
Definition set_bits (v : bool) (sidx eidx : Z) (b : bootmem_data) : option bootmem_data :=
  if (sidx <? eidx) && (8 * map_bytes b <? eidx) then None
  else Some (b <| node_bootmem_map ::= fun m i => if (sidx <=? i) && (i <? eidx) then v else m i |>).

(** A page that is reserved twice is only reported. *)
Definition reserve_bootmem_core (addr size : Z) (b : bootmem_data) : option bootmem_data :=
  let sidx := u32 (addr - node_boot_start b) / PAGE_SIZE in
  let eidx := u32 (addr + size - node_boot_start b + PAGE_SIZE - 1) / PAGE_SIZE in
  let last := u32 (addr + size + PAGE_SIZE - 1) / PAGE_SIZE in
  if (size =? 0) || (eidx <=? sidx) || (node_low_pfn b <=? Z.shiftr addr PAGE_SHIFT) || (node_low_pfn b <? last) then None
  else set_bits true sidx eidx b.

Definition free_bootmem_core (addr size : Z) (b : bootmem_data) : option bootmem_data :=
  let eidx := u32 (addr + size - node_boot_start b) / PAGE_SIZE in
  let last := u32 (addr + size) / PAGE_SIZE in
  let start := u32 (addr + PAGE_SIZE - 1) / PAGE_SIZE in
  let sidx := u32 (start - node_boot_start b / PAGE_SIZE) in
  if (size =? 0) || (node_low_pfn b <? last) then None
  else if eidx <=? sidx then Some b
  else if negb (forallb (node_bootmem_map b) (seqZ sidx (eidx - sidx))) then None
  else set_bits false sidx eidx b.

(** ** Allocating *)

Definition page_run (map : Z -> bool) (i areasize eidx : Z) : bool :=
  negb (map i) && forallb (fun j => (j <? eidx) && negb (map j)) (seqZ (i + 1) (areasize - 1)).

(** The [for] loop at [restart_scan]. *)
Fixpoint scan_bitmap (fuel : nat) (map : Z -> bool) (i incr areasize eidx : Z) : option Z :=
  match fuel with
  | O => None
  | S fuel =>
      if i <? eidx then
        if page_run map i areasize eidx then Some i else scan_bitmap fuel map (i + incr) incr areasize eidx
      else None
  end.

(** The scans from [restart_scan] on, [turns] of them at most: [None] if the code goes on
    scanning after them, [Some None] if it gives up. *)
Fixpoint restart_scan (turns : nat) (map : Z -> bool) (preferred offset incr areasize eidx : Z) : option (option Z) :=
  match turns with
  | O => None
  | S turns =>
      match scan_bitmap (Z.to_nat eidx) map preferred incr areasize eidx with
      | Some start => Some (Some start)
      | None => if preferred =? 0 then Some None else restart_scan turns map offset offset incr areasize eidx
      end
  end.

(** The loop that reserves the area. *)
Definition take_bits (sidx eidx : Z) (b : bootmem_data) : option bootmem_data :=
  if existsb (node_bootmem_map b) (seqZ sidx (eidx - sidx)) then None else set_bits true sidx eidx b.

(** From [found] on; the bytes of the area, which are cleared, are not part of the state. *)
Definition place_area (start size align areasize : Z) (b : bootmem_data) : option (bootmem_data * Z) :=
  let merge := (align <=? PAGE_SIZE) && negb (last_offset b =? 0) && (u32 (last_pos b + 1) =? start) in
  if merge then
    let offset := Z.land (u32 (last_offset b + align - 1)) (Z.lnot (align - 1)) in
    if PAGE_SIZE <? offset then None
    else
      let remaining_size := PAGE_SIZE - offset in
      let ret := u32 (last_pos b * PAGE_SIZE + offset + node_boot_start b) in
      if size <? remaining_size then
        Some (b <| last_offset := Z.land (offset + size) (PAGE_SIZE - 1) |>, ret)
      else
        let remaining_size := size - remaining_size in
        let areasize := u32 (remaining_size + PAGE_SIZE - 1) / PAGE_SIZE in
        b1 ← take_bits start (start + areasize) b;
        Some (b1 <| last_pos := u32 (start + areasize - 1) |> <| last_offset := Z.land remaining_size (PAGE_SIZE - 1) |>, ret)
  else
    b1 ← take_bits start (start + areasize) b;
    Some (b1 <| last_pos := u32 (start + areasize - 1) |> <| last_offset := Z.land size (PAGE_SIZE - 1) |>,
          u32 (start * PAGE_SIZE + node_boot_start b)).

(** A null pointer, an address, or the bitmap is still being scanned after [turns] scans. *)
Inductive boot_end := Null | At (a : Z) | Scanning.

Definition __alloc_bootmem_core (turns : nat) (size align goal : Z) (b : bootmem_data) : option (bootmem_data * boot_end) :=
  let eidx := u32 (node_low_pfn b - Z.shiftr (node_boot_start b) PAGE_SHIFT) in
  if (size =? 0) || negb (Z.land align (align - 1) =? 0) then None
  else
    let low := Z.land (node_boot_start b) (align - 1) in
    let offset := Z.shiftr (if negb (align =? 0) && negb (low =? 0) then align - low else 0) PAGE_SHIFT in
    let preferred := if negb (goal =? 0) && (node_boot_start b <=? goal) && (Z.shiftr goal PAGE_SHIFT <? node_low_pfn b)
                     then goal - node_boot_start b else 0 in
    let preferred := Z.shiftr (Z.land (u32 (preferred + align - 1)) (Z.lnot (align - 1))) PAGE_SHIFT + offset in
    let areasize := u32 (size + PAGE_SIZE - 1) / PAGE_SIZE in
    let incr := if Z.shiftr align PAGE_SHIFT =? 0 then 1 else Z.shiftr align PAGE_SHIFT in
    match restart_scan turns (node_bootmem_map b) preferred offset incr areasize eidx with
    | None => Some (b, Scanning)
    | Some None => Some (b, Null)
    | Some (Some start) =>
        if eidx <=? start then None else r ← place_area start size align areasize b; let '(b1, ret) := r in Some (b1, At ret)
    end.

(** ** Handing the memory over *)

(** A page of the node, no longer reserved, is freed. *)
Definition release_page (p : Z) (s : mm) : option mm :=
  __free_pages p 0 (set_page_count p 1 (clear_flag PG_reserved p s)).

Fixpoint release_pages (l : list Z) (s : mm) : option mm :=
  match l with
  | [] => Some s
  | p :: l => s1 ← release_page p s; release_pages l s1
  end.

(** [first] is the first page of [node_mem_map], [map_page] that of the bitmap. *)
Definition free_all_bootmem_core (first map_page : Z) (b : bootmem_data) (s : mm) : option (mm * Z) :=
  let idx := u32 (node_low_pfn b - Z.shiftr (node_boot_start b) PAGE_SHIFT) in
  let free := filter (fun i => node_bootmem_map b i = false) (seqZ 0 idx) in
  s1 ← release_pages (map (Z.add first) free) s;
  let count := (idx / 8 + PAGE_SIZE - 1) / PAGE_SIZE in
  s2 ← release_pages (seqZ map_page count) s1;
  Some (s2, Z.of_nat (length free) + count).
