(* ===== verification/BootmemInv.v ===== *)
(** * What the boot-time allocator keeps

    [bm_ok l b]: the ranges of bytes of [l] (address, size) have been allocated from [b].
    Every byte of theirs is in a page whose bit is set, no two ranges have a byte in common,
    and the bytes of the last page from [last_offset] on are in no range. *)
From stdpp Require Import base list functions.
From S2P Require Import Prelude Pages PidHash Bitmap Sched Buddy ZoneInit Bootmem BuddyPages.

Definition in_bytes (r : Z * Z) (x : Z) : Prop := fst r <= x < fst r + snd r.
Definition page_of (b : bootmem_data) (x : Z) : Z := (x - node_boot_start b) / PAGE_SIZE.
Definition nr_low (b : bootmem_data) : Z := node_low_pfn b - node_boot_start b / PAGE_SIZE.
Fixpoint ranges_apart (l : list (Z * Z)) : Prop :=
  match l with [] => True | r :: l => (forall r' x, r' ∈ l -> in_bytes r x -> in_bytes r' x -> False) /\ ranges_apart l end.

Record bm_ok (l : list (Z * Z)) (b : bootmem_data) : Prop := BmOk {
  bm_aligned : node_boot_start b `mod` PAGE_SIZE = 0;
  bm_start : 0 <= node_boot_start b;
  bm_low : 0 <= nr_low b /\ node_low_pfn b <= 2 ^ 20 - 2;
  bm_map : nr_low b <= 8 * map_bytes b;
  bm_page : forall r x, r ∈ l -> in_bytes r x -> 0 <= page_of b x < nr_low b /\ node_bootmem_map b (page_of b x) = true;
  bm_apart : ranges_apart l;
  bm_offset : 0 <= last_offset b < PAGE_SIZE;
  bm_last : last_offset b <> 0 -> 0 <= last_pos b < nr_low b /\ node_bootmem_map b (last_pos b) = true /\
    (exists r x, r ∈ l /\ in_bytes r x /\ page_of b x = last_pos b) /\
    forall r x, r ∈ l -> in_bytes r x -> page_of b x = last_pos b -> (x - node_boot_start b) `mod` PAGE_SIZE < last_offset b
}.

Section Numbers.

Lemma start_multiple b : node_boot_start b `mod` PAGE_SIZE = 0 -> node_boot_start b = node_boot_start b / PAGE_SIZE * PAGE_SIZE.
Proof. intros H. pose proof (Z.div_mod (node_boot_start b) PAGE_SIZE ltac:(done)). lia. Qed.

Lemma page_of_add b k off : 0 <= off < PAGE_SIZE -> page_of b (k * PAGE_SIZE + off + node_boot_start b) = k.
Proof.
  intros H. unfold page_of. replace (k * PAGE_SIZE + off + node_boot_start b - node_boot_start b) with (off + k * PAGE_SIZE) by lia.
  rewrite Z.div_add by done. rewrite Z.div_small by done. lia.
Qed.

(** The page of a byte, from bounds. *)
Lemma page_of_bound b x k : k * PAGE_SIZE <= x - node_boot_start b -> k <= page_of b x.
Proof. intros H. apply Z.div_le_lower_bound; [done|lia]. Qed.
Lemma page_of_below b x k : x - node_boot_start b < k * PAGE_SIZE -> page_of b x < k.
Proof. intros H. apply Z.div_lt_upper_bound; [done|lia]. Qed.
Lemma page_of_split b x : x - node_boot_start b = page_of b x * PAGE_SIZE + (x - node_boot_start b) `mod` PAGE_SIZE /\
  0 <= (x - node_boot_start b) `mod` PAGE_SIZE < PAGE_SIZE.
Proof.
  pose proof (Z.div_mod (x - node_boot_start b) PAGE_SIZE ltac:(done)). unfold page_of.
  pose proof (Z.mod_pos_bound (x - node_boot_start b) PAGE_SIZE ltac:(done)). lia.
Qed.

(** Rounding up to pages. *)
Lemma round_up n : 0 <= n -> n <= (n + PAGE_SIZE - 1) / PAGE_SIZE * PAGE_SIZE < n + PAGE_SIZE.
Proof.
  intros Hn. pose proof (Z.div_mod (n + PAGE_SIZE - 1) PAGE_SIZE ltac:(done)).
  pose proof (Z.mod_pos_bound (n + PAGE_SIZE - 1) PAGE_SIZE ltac:(done)). lia.
Qed.

(** Rounding up to a power of two. *)
Lemma align_land x k : 0 <= k -> Z.land x (Z.lnot (2 ^ k - 1)) = x / 2 ^ k * 2 ^ k.
Proof.
  intros Hk. replace (2 ^ k - 1) with (Z.ones k) by (rewrite Z.ones_equiv; lia). rewrite <- Z.ldiff_land, Z.ldiff_ones_r by done.
  by rewrite Z.shiftl_mul_pow2, Z.shiftr_div_pow2.
Qed.
Lemma align_up x k : 0 <= k -> x <= Z.land (x + 2 ^ k - 1) (Z.lnot (2 ^ k - 1)) < x + 2 ^ k /\
  (Z.land (x + 2 ^ k - 1) (Z.lnot (2 ^ k - 1))) `mod` 2 ^ k = 0.
Proof.
  intros Hk. assert (0 < 2 ^ k) by (apply Z.pow_pos_nonneg; lia). rewrite align_land by done.
  pose proof (Z.div_mod (x + 2 ^ k - 1) (2 ^ k) ltac:(lia)). pose proof (Z.mod_pos_bound (x + 2 ^ k - 1) (2 ^ k) ltac:(lia)).
  split; [lia|]. by apply Z.mod_mul; lia.
Qed.

Lemma low_bits x k : 0 <= k -> Z.land x (2 ^ k - 1) = x `mod` 2 ^ k.
Proof. intros Hk. replace (2 ^ k - 1) with (Z.ones k) by (rewrite Z.ones_equiv; lia). by apply Z.land_ones. Qed.

Lemma page_bits x : Z.land x (PAGE_SIZE - 1) = x `mod` PAGE_SIZE.
Proof. by apply (low_bits x 12). Qed.

End Numbers.

(** ** Bits *)

Lemma set_bits_ok v i j b : j <= 8 * map_bytes b -> exists b', set_bits v i j b = Some b' /\
  b' = b <| node_bootmem_map ::= fun m k => if (i <=? k) && (k <? j) then v else m k |>.
Proof. intros H. unfold set_bits. destruct (Z.ltb_spec (8 * map_bytes b) j); [lia|]. rewrite andb_false_r. eauto. Qed.

Lemma take_bits_ok i j b : j <= 8 * map_bytes b -> (forall k, i <= k < j -> node_bootmem_map b k = false) ->
  take_bits i j b = Some (b <| node_bootmem_map ::= fun m k => if (i <=? k) && (k <? j) then true else m k |>).
Proof.
  intros H Hf. unfold take_bits. destruct (existsb _ _) eqn:E.
  - apply existsb_exists in E as (k & Hk%list_elem_of_In%elem_of_seqZ & Hs). rewrite Hf in Hs by lia. done.
  - by destruct (set_bits_ok true i j b H) as (b' & -> & ->).
Qed.

(** ** The search *)

Definition run_free (b : bootmem_data) (i n : Z) : Prop := 0 <= i /\ i + n <= nr_low b /\ forall k, i <= k < i + n -> node_bootmem_map b k = false.

Lemma page_run_spec b i n : 0 < n -> 0 <= i < nr_low b -> page_run (node_bootmem_map b) i n (nr_low b) = true <-> run_free b i n.
Proof.
  intros Hn Hi. unfold page_run, run_free. rewrite andb_true_iff, forallb_forall, negb_true_iff. split.
  - intros [H1 H2]. assert (H3 : forall k, i < k < i + n -> k < nr_low b /\ node_bootmem_map b k = false).
    { intros k Hk. specialize (H2 k). rewrite andb_true_iff, Z.ltb_lt, negb_true_iff in H2. apply H2, list_elem_of_In, elem_of_seqZ. lia. }
    split; [lia|]. split.
    + destruct (decide (n = 1)); [lia|]. pose proof (H3 (i + n - 1) ltac:(lia)). lia.
    + intros k Hk. destruct (decide (k = i)) as [->|]; [done|]. apply H3. lia.
  - intros (_ & H1 & H2). split; [apply H2; lia|]. intros k Hk%list_elem_of_In%elem_of_seqZ.
    rewrite andb_true_iff, Z.ltb_lt, negb_true_iff. split; [lia|apply H2; lia].
Qed.

Lemma scan_bitmap_spec fuel b i incr n : 0 < n -> 0 < incr -> 0 <= i -> nr_low b - i <= Z.of_nat fuel ->
  match scan_bitmap fuel (node_bootmem_map b) i incr n (nr_low b) with
  | Some st => run_free b st n /\ st < nr_low b /\ exists k, 0 <= k /\ st = i + k * incr
  | None => forall k, 0 <= k -> ~ run_free b (i + k * incr) n
  end.
Proof.
  intros Hn Hi. revert i. induction fuel as [|fuel IH]; intros i H0 Hf; simpl.
  - intros k Hk (_ & H & _). nia.
  - destruct (Z.ltb_spec i (nr_low b)); [|intros k Hk (_ & ? & _); nia].
    destruct (page_run (node_bootmem_map b) i n (nr_low b)) eqn:E.
    + apply page_run_spec in E; [|done|lia]. split; [done|]. split; [lia|]. exists 0. lia.
    + specialize (IH (i + incr) ltac:(lia) ltac:(lia)). destruct (scan_bitmap _ _ _ _ _ _) as [st|].
      * destruct IH as (H1 & H2 & k & Hk & ->). split; [done|]. split; [done|]. exists (k + 1). lia.
      * intros k Hk Hr. destruct (decide (k = 0)) as [->|].
        -- rewrite Z.mul_0_l, Z.add_0_r in Hr. apply (page_run_spec b i n Hn) in Hr; [congruence|lia].
        -- apply (IH (k - 1)); [lia|]. by replace (i + incr + (k - 1) * incr) with (i + k * incr) by lia.
Qed.

(** ** Placing the area *)

Lemma grow_ok l b b' r : bm_ok l b -> node_boot_start b' = node_boot_start b -> node_low_pfn b' = node_low_pfn b ->
  map_bytes b' = map_bytes b -> (forall k, node_bootmem_map b k = true -> node_bootmem_map b' k = true) ->
  (forall x, in_bytes r x -> 0 <= page_of b x < nr_low b /\ node_bootmem_map b' (page_of b x) = true) ->
  (forall r' x, r' ∈ l -> in_bytes r x -> in_bytes r' x -> False) -> 0 <= last_offset b' < PAGE_SIZE ->
  (last_offset b' <> 0 -> (exists x, in_bytes r x /\ page_of b x = last_pos b') /\
     forall r' x, r' ∈ r :: l -> in_bytes r' x -> page_of b x = last_pos b' -> (x - node_boot_start b) `mod` PAGE_SIZE < last_offset b') ->
  bm_ok (r :: l) b'.
Proof.
  intros [B1 B2 B3 B4 B5 B6 B7 B8] E1 E2 E3 Hm Hp Hd Ho Hl.
  assert (En : nr_low b' = nr_low b) by (unfold nr_low; by rewrite E1, E2).
  assert (Ep : forall x, page_of b' x = page_of b x) by (intros x; unfold page_of; by rewrite E1).
  split; rewrite ?E1, ?En, ?E2, ?E3; try done.
  - intros r' x [->|Hr]%elem_of_cons Hx; rewrite Ep; [by apply Hp|]. destruct (B5 r' x Hr Hx). split; [done|by apply Hm].
  - intros Hz. destruct (Hl Hz) as [(x & Hx & Ex) Hb]. destruct (Hp x Hx) as [P1 P2]. rewrite Ex in P1, P2.
    split; [done|]. split; [done|]. split; [exists r, x; rewrite Ep; split; [apply list_elem_of_here|done]|].
    intros r' y Hr Hy. rewrite Ep. by apply (Hb r').
Qed.

(** Bytes of free pages are in no range. *)
Lemma free_bytes l b r x : bm_ok l b -> node_bootmem_map b (page_of b x) = false -> r ∈ l -> in_bytes r x -> False.
Proof. intros B Hf Hr Hx. destruct (bm_page _ _ B r x Hr Hx). congruence. Qed.

Lemma place_fresh l b start size : bm_ok l b -> 0 < size < 2 ^ 32 - PAGE_SIZE -> let areasize := (size + PAGE_SIZE - 1) / PAGE_SIZE in
  run_free b start areasize -> let ret := u32 (start * PAGE_SIZE + node_boot_start b) in
  exists b1, take_bits start (start + areasize) b = Some b1 /\ ret = start * PAGE_SIZE + node_boot_start b /\
    bm_ok ((ret, size) :: l) (b1 <| last_pos := u32 (start + areasize - 1) |> <| last_offset := Z.land size (PAGE_SIZE - 1) |>).
Proof.
  intros B Hs areasize (R1 & R2 & R3) ret. pose proof (round_up size ltac:(lia)) as Hr. fold areasize in Hr.
  destruct (bm_low _ _ B) as [L1 L2]. pose proof (bm_map _ _ B). pose proof (bm_start _ _ B).
  pose proof (start_multiple b (bm_aligned _ _ B)) as Hm. assert (Ha : 0 < areasize) by (unfold PAGE_SIZE in *; lia).
  assert (Ht : node_boot_start b / PAGE_SIZE + nr_low b = node_low_pfn b) by (unfold nr_low; lia).
  assert (Hq : 0 <= node_boot_start b / PAGE_SIZE) by (by apply Z.div_pos).
  assert (Er : ret = start * PAGE_SIZE + node_boot_start b) by (unfold ret; apply u32_small; unfold PAGE_SIZE in *; lia).
  exists (b <| node_bootmem_map ::= fun m k => if (start <=? k) && (k <? start + areasize) then true else m k |>).
  split; [apply take_bits_ok; [lia|done]|]. split; [done|]. rewrite Er.
  assert (Hx : forall x, in_bytes (start * PAGE_SIZE + node_boot_start b, size) x -> start <= page_of b x < start + areasize).
  { intros x [X1 X2]. cbn [fst snd] in *. split; [apply page_of_bound|apply page_of_below]; lia. }
  eapply (grow_ok l b _ _ B); try reflexivity.
  - intros k Hk. simpl. by destruct ((start <=? k) && (k <? start + areasize)).
  - intros x Xx. specialize (Hx x Xx). simpl. split; [lia|]. destruct (Z.leb_spec start (page_of b x)); [|lia].
    destruct (Z.ltb_spec (page_of b x) (start + areasize)); [done|lia].
  - intros r' x Hr' Xx. apply (free_bytes l b r' x B); [|done]. apply R3, (Hx x Xx).
  - simpl. rewrite page_bits. by apply Z.mod_pos_bound.
  - simpl. rewrite page_bits. rewrite u32_small by lia. intros Hz. pose proof (Z.div_mod size PAGE_SIZE ltac:(done)) as Hd.
    pose proof (Z.mod_pos_bound size PAGE_SIZE ltac:(done)). assert (Ea : areasize = size / PAGE_SIZE + 1).
    { apply Z.le_antisymm; unfold PAGE_SIZE in *; lia. }
    split.
    + exists ((start + areasize - 1) * PAGE_SIZE + 0 + node_boot_start b). split; [|by apply page_of_add].
      unfold in_bytes. cbn [fst snd]. rewrite Ea. unfold PAGE_SIZE in *. lia.
    + intros r' x [->|Hr']%elem_of_cons Xx Ex.
      * destruct (page_of_split b x) as [S1 S2]. unfold in_bytes in Xx. cbn [fst snd] in Xx. rewrite Ex, Ea in S1. unfold PAGE_SIZE in *. lia.
      * exfalso. apply (free_bytes l b r' x B); [|done|done]. apply R3. lia.
Qed.

(** Bytes of the last page from [last_offset] on are in no range. *)
Lemma tail_bytes l b r x : bm_ok l b -> last_offset b <> 0 -> page_of b x = last_pos b -> last_offset b <= (x - node_boot_start b) `mod` PAGE_SIZE ->
  r ∈ l -> in_bytes r x -> False.
Proof. intros B Hz Hp Ho Hr Hx. destruct (bm_last _ _ B Hz) as (_ & _ & _ & H). specialize (H r x Hr Hx Hp). lia. Qed.

(** The range that starts in the last page of the allocation before, and ends in it. *)
Lemma merge_small l b offset size : bm_ok l b -> last_offset b <> 0 -> last_offset b <= offset -> 0 < size -> offset + size < PAGE_SIZE ->
  bm_ok ((last_pos b * PAGE_SIZE + offset + node_boot_start b, size) :: l) (b <| last_offset := Z.land (offset + size) (PAGE_SIZE - 1) |>).
Proof.
  intros B Hz Ho Hs Hb. pose proof (bm_offset _ _ B). destruct (bm_last _ _ B Hz) as (L1 & L2 & _ & L4).
  assert (Hx : forall x, in_bytes (last_pos b * PAGE_SIZE + offset + node_boot_start b, size) x -> page_of b x = last_pos b /\
    offset <= (x - node_boot_start b) `mod` PAGE_SIZE < offset + size).
  { intros x [X1 X2]. cbn [fst snd] in *. destruct (page_of_split b x) as [S1 S2].
    assert (page_of b x = last_pos b) as Ep by (unfold PAGE_SIZE in *; lia). split; [done|]. rewrite Ep in S1. lia. }
  eapply (grow_ok l b _ _ B); try reflexivity.
  - done.
  - intros x Xx. destruct (Hx x Xx) as [-> _]. done.
  - intros r' x Hr' Xx. destruct (Hx x Xx). apply (tail_bytes l b r' x); [done|done|done|lia|done].
  - simpl. rewrite page_bits. by apply Z.mod_pos_bound.
  - simpl. rewrite page_bits, Z.mod_small by lia. intros _. split.
    + exists (last_pos b * PAGE_SIZE + offset + node_boot_start b). split; [split; simpl; lia|apply page_of_add; lia].
    + intros r' x [->|Hr']%elem_of_cons Xx Ex; [destruct (Hx x Xx); lia|]. specialize (L4 r' x Hr' Xx Ex). lia.
Qed.

(** The range that goes on in the pages after it, which are free. *)
Lemma merge_big l b offset rest : bm_ok l b -> last_offset b <> 0 -> last_offset b <= offset <= PAGE_SIZE -> 0 <= rest < 2 ^ 32 - PAGE_SIZE ->
  0 < PAGE_SIZE - offset + rest -> let start := last_pos b + 1 in let areasize := (rest + PAGE_SIZE - 1) / PAGE_SIZE in
  start + areasize <= nr_low b -> (forall k, start <= k < start + areasize -> node_bootmem_map b k = false) ->
  exists b1, take_bits start (start + areasize) b = Some b1 /\
    bm_ok ((last_pos b * PAGE_SIZE + offset + node_boot_start b, PAGE_SIZE - offset + rest) :: l)
      (b1 <| last_pos := u32 (start + areasize - 1) |> <| last_offset := Z.land rest (PAGE_SIZE - 1) |>).
Proof.
  intros B Hz Ho Hr Hpos start areasize R2 R3. pose proof (round_up rest ltac:(lia)) as Hu. fold areasize in Hu.
  destruct (bm_low _ _ B) as [M1 M2]. pose proof (bm_map _ _ B). destruct (bm_last _ _ B Hz) as (L1 & L2 & _ & _).
  assert (Ha : 0 <= areasize) by (unfold PAGE_SIZE in *; lia). pose proof (bm_offset _ _ B).
  assert (Hn : nr_low b <= node_low_pfn b) by (unfold nr_low; pose proof (Z.div_pos (node_boot_start b) PAGE_SIZE (bm_start _ _ B) ltac:(done)); lia).
  exists (b <| node_bootmem_map ::= fun m k => if (start <=? k) && (k <? start + areasize) then true else m k |>).
  split; [apply take_bits_ok; [lia|done]|].
  assert (Hx : forall x, in_bytes (last_pos b * PAGE_SIZE + offset + node_boot_start b, PAGE_SIZE - offset + rest) x ->
    page_of b x = last_pos b /\ offset <= (x - node_boot_start b) `mod` PAGE_SIZE \/ start <= page_of b x < start + areasize).
  { intros x [X1 X2]. cbn [fst snd] in *. destruct (page_of_split b x) as [S1 S2]. unfold start in *.
    assert (last_pos b <= page_of b x) by (apply page_of_bound; lia).
    assert (page_of b x < last_pos b + 1 + areasize) by (apply page_of_below; lia).
    destruct (decide (page_of b x = last_pos b)) as [Ep|]; [left; rewrite Ep in S1; split; [done|lia]|right; lia]. }
  eapply (grow_ok l b _ _ B); try reflexivity.
  - intros k Hk. simpl. by destruct ((start <=? k) && (k <? start + areasize)).
  - intros x Xx. simpl. destruct (Hx x Xx) as [[-> _]|Hp].
    + split; [done|]. rewrite L2. by destruct ((start <=? last_pos b) && (last_pos b <? start + areasize)).
    + split; [lia|]. destruct (Z.leb_spec start (page_of b x)); [|lia]. destruct (Z.ltb_spec (page_of b x) (start + areasize)); [done|lia].
  - intros r' x Hr' Xx. destruct (Hx x Xx) as [[? ?]|Hp]; [apply (tail_bytes l b r' x); [done|done|done|lia|done]|].
    apply (free_bytes l b r' x B); [|done]. by apply R3.
  - simpl. rewrite page_bits. by apply Z.mod_pos_bound.
  - simpl. rewrite page_bits. rewrite u32_small by lia. intros Hzr. pose proof (Z.div_mod rest PAGE_SIZE ltac:(done)).
    pose proof (Z.mod_pos_bound rest PAGE_SIZE ltac:(done)). assert (Ea : areasize = rest / PAGE_SIZE + 1) by (unfold PAGE_SIZE in *; lia).
    assert (0 <= rest / PAGE_SIZE) by (by apply Z.div_pos; [lia|]). split.
    + exists ((start + areasize - 1) * PAGE_SIZE + 0 + node_boot_start b). split; [|by apply page_of_add].
      unfold in_bytes. cbn [fst snd]. unfold start. rewrite Ea. unfold PAGE_SIZE in *. lia.
    + intros r' x [->|Hr']%elem_of_cons Xx Ex.
      * destruct (page_of_split b x) as [S1 S2]. unfold in_bytes in Xx. cbn [fst snd] in Xx. rewrite Ex, Ea in S1. unfold start, PAGE_SIZE in *. lia.
      * exfalso. apply (free_bytes l b r' x B); [|done|done]. apply R3. lia.
Qed.

(** ** Alignment *)

Definition align_offset (start align : Z) : Z :=
  Z.shiftr (if negb (align =? 0) && negb (Z.land start (align - 1) =? 0) then align - Z.land start (align - 1) else 0) PAGE_SHIFT.
Definition align_incr (align : Z) : Z := if Z.shiftr align PAGE_SHIFT =? 0 then 1 else Z.shiftr align PAGE_SHIFT.

Lemma pow_split k : 12 <= k -> 2 ^ k = 2 ^ (k - 12) * PAGE_SIZE.
Proof. intros Hk. change PAGE_SIZE with (2 ^ 12). rewrite <- Z.pow_add_r by lia. f_equal. lia. Qed.
Lemma pow_divides k : 0 <= k < 12 -> exists m, 0 < m /\ PAGE_SIZE = m * 2 ^ k.
Proof.
  intros Hk. exists (2 ^ (12 - k)). split; [apply Z.pow_pos_nonneg; lia|]. change PAGE_SIZE with (2 ^ 12). rewrite <- Z.pow_add_r by lia. f_equal. lia.
Qed.
Lemma shift_page x : Z.shiftr x PAGE_SHIFT = x / PAGE_SIZE.
Proof. by rewrite Z.shiftr_div_pow2. Qed.

(** The pages at aligned addresses are those from the offset on, in steps of the increment. *)
Lemma slots start k : start `mod` PAGE_SIZE = 0 -> 0 <= k -> let off := align_offset start (2 ^ k) in let m := align_incr (2 ^ k) in
  0 < m /\ 0 <= off < m /\ (forall i, (i * PAGE_SIZE + start) `mod` 2 ^ k = 0 <-> exists t, i = off + t * m) /\
  forall x, 0 <= x -> exists t, 0 <= t /\ Z.shiftr (Z.land x (Z.lnot (2 ^ k - 1))) PAGE_SHIFT + off = off + t * m.
Proof.
  intros Hs Hk off m. assert (Hp : 0 < 2 ^ k) by (apply Z.pow_pos_nonneg; lia). set (q := start / PAGE_SIZE).
  assert (Eq : start = q * PAGE_SIZE) by (pose proof (Z.div_mod start PAGE_SIZE ltac:(done)); unfold q; lia). clearbody q.
  unfold off, m, align_offset, align_incr. rewrite !shift_page, low_bits by done.
  destruct (Z.eqb_spec (2 ^ k) 0); [lia|]. cbn [negb andb]. destruct (decide (k < 12)) as [Hlt|Hge].
  - destruct (pow_divides k ltac:(lia)) as (c & Hc & Ec).
    assert (Hz : start `mod` 2 ^ k = 0) by (rewrite Eq, Ec, Z.mul_assoc; apply Z.mod_mul; lia). rewrite Hz. cbn [Z.eqb negb].
    assert (E0 : 2 ^ k / PAGE_SIZE = 0) by (apply Z.div_small; change PAGE_SIZE with (2 ^ 12); split; [lia|apply Z.pow_lt_mono_r; lia]).
    rewrite E0. change (0 / PAGE_SIZE) with 0. cbn [Z.eqb]. split; [lia|]. split; [lia|]. split.
    + intros i. split; [intros _; exists i; lia|]. intros _. rewrite Eq, Ec. replace (i * (c * 2 ^ k) + q * (c * 2 ^ k)) with ((i * c + q * c) * 2 ^ k) by lia.
      apply Z.mod_mul. lia.
    + intros x Hx. rewrite shift_page, align_land by done. exists (x / 2 ^ k * 2 ^ k / PAGE_SIZE). split; [|lia].
      apply Z.div_pos; [|done]. pose proof (Z.div_pos x (2 ^ k) Hx Hp). nia.
  - pose proof (pow_split k ltac:(lia)) as Ep. set (c := 2 ^ (k - 12)) in *. assert (Hc : 0 < c) by (apply Z.pow_pos_nonneg; lia).
    assert (Em : start `mod` 2 ^ k = q `mod` c * PAGE_SIZE) by (rewrite Eq, Ep; by apply Z.mul_mod_distr_r; [lia|]).
    assert (Ed : 2 ^ k / PAGE_SIZE = c) by (rewrite Ep; by apply Z.div_mul).
    rewrite Ed, Em. destruct (Z.eqb_spec c 0); [lia|]. split; [lia|]. pose proof (Z.mod_pos_bound q c Hc) as Hm. pose proof (Z.div_mod q c ltac:(lia)) as Hd.
    assert (Eo : exists o, (if negb (q `mod` c * PAGE_SIZE =? 0) then 2 ^ k - q `mod` c * PAGE_SIZE else 0) / PAGE_SIZE = o /\ 0 <= o < c /\
      exists u, q + o = c * u).
    { destruct (Z.eqb_spec (q `mod` c * PAGE_SIZE) 0) as [E|E]; cbn [negb].
      - exists 0. split; [done|]. split; [lia|]. exists (q / c). unfold PAGE_SIZE in E. lia.
      - exists (c - q `mod` c). split; [rewrite Ep; rewrite <- Z.mul_sub_distr_r; by apply Z.div_mul|]. unfold PAGE_SIZE in E.
        split; [lia|]. exists (q / c + 1). lia. }
    destruct Eo as (o & -> & Ho & u & Hu). split; [done|]. split.
    + intros i. rewrite Eq, <- Z.mul_add_distr_r, Ep, Z.mul_mod_distr_r by (done || lia). split.
      * intros E. assert (E' : (i + q) `mod` c = 0) by (unfold PAGE_SIZE in E; lia). pose proof (Z.div_mod (i + q) c ltac:(lia)).
        exists ((i + q) / c - u). lia.
      * intros (t & ->). replace (o + t * c + q) with ((t + u) * c) by lia. by rewrite Z.mod_mul by lia.
    + intros x Hx. rewrite shift_page, align_land by done. exists (x / 2 ^ k). split; [by apply Z.div_pos|].
      rewrite Ep, Z.mul_assoc, Z.div_mul by done. lia.
Qed.

(** ** Allocating *)

Definition pages_for (size : Z) : Z := (size + PAGE_SIZE - 1) / PAGE_SIZE.

Lemma pages_less a c : a <= c -> pages_for a <= pages_for c.
Proof. intros H. apply Z.div_le_mono; [done|lia]. Qed.

Lemma place_ok l b start size k : bm_ok l b -> 0 < size < 2 ^ 32 - PAGE_SIZE -> 0 <= k <= 31 -> run_free b start (pages_for size) ->
  start < nr_low b -> (start * PAGE_SIZE + node_boot_start b) `mod` 2 ^ k = 0 ->
  exists b' ret, place_area start size (2 ^ k) (pages_for size) b = Some (b', ret) /\ bm_ok ((ret, size) :: l) b' /\ ret `mod` 2 ^ k = 0.
Proof.
  intros B Hs Hk R Hlt Ha. pose proof (bm_offset _ _ B) as Ho. destruct (bm_low _ _ B) as [M1 M2]. pose proof (bm_start _ _ B) as M3.
  pose proof (start_multiple b (bm_aligned _ _ B)) as Hm. assert (Hp : 0 < 2 ^ k) by (apply Z.pow_pos_nonneg; lia).
  assert (Ht : node_boot_start b / PAGE_SIZE + nr_low b = node_low_pfn b) by (unfold nr_low; lia).
  assert (Hq : 0 <= node_boot_start b / PAGE_SIZE) by (by apply Z.div_pos).
  unfold place_area. destruct ((2 ^ k <=? PAGE_SIZE) && _ && _) eqn:E.
  2:{ destruct (place_fresh l b start size B Hs R) as (b1 & E1 & E2 & B1). unfold pages_for in *. rewrite E1. cbn [mbind option_bind].
      eexists _, _. split; [done|]. split; [done|]. by rewrite E2. }
  apply andb_true_iff in E as [[E1%Z.leb_le E2]%andb_true_iff E3%Z.eqb_eq]. apply negb_true_iff, Z.eqb_neq in E2.
  destruct (bm_last _ _ B E2) as (L1 & _). rewrite u32_small in E3 by lia.
  rewrite (u32_small (last_offset b + 2 ^ k - 1)) by (unfold PAGE_SIZE in *; lia). destruct (align_up (last_offset b) k ltac:(lia)) as [A1 A2].
  set (offset := Z.land (last_offset b + 2 ^ k - 1) (Z.lnot (2 ^ k - 1))) in *. cbv zeta.
  assert (K12 : k <= 12) by (apply (Z.pow_le_mono_r_iff 2); [done|lia|exact E1]).
  assert (Hle : offset <= PAGE_SIZE).
  { assert (exists c, PAGE_SIZE = c * 2 ^ k) as [c Ec].
    { destruct (decide (k = 12)) as [->|]; [exists 1; done|]. destruct (pow_divides k ltac:(lia)) as (c & _ & Ec). eauto. }
    pose proof (Z.div_mod offset (2 ^ k) ltac:(lia)) as Hd. rewrite A2 in Hd. assert (offset / 2 ^ k < c + 1) by (apply (Z.mul_lt_mono_pos_r (2 ^ k)); lia).
    rewrite Hd, Ec. rewrite Z.add_0_r, Z.mul_comm. apply Z.mul_le_mono_nonneg_r; lia. }
  destruct (Z.ltb_spec PAGE_SIZE offset); [lia|].
  assert (Er : u32 (last_pos b * PAGE_SIZE + offset + node_boot_start b) = last_pos b * PAGE_SIZE + offset + node_boot_start b)
    by (apply u32_small; unfold PAGE_SIZE in *; lia).
  assert (Hal : (last_pos b * PAGE_SIZE + offset + node_boot_start b) `mod` 2 ^ k = 0).
  { replace (last_pos b * PAGE_SIZE + offset + node_boot_start b) with (offset + (start * PAGE_SIZE + node_boot_start b) - PAGE_SIZE) by lia.
    destruct (decide (k = 12)) as [->|].
    - change (2 ^ 12) with PAGE_SIZE in *. by rewrite Zminus_mod, Zplus_mod, A2, Ha.
    - destruct (pow_divides k ltac:(lia)) as (c & _ & Ec). rewrite Zminus_mod, Zplus_mod, A2, Ha, Ec, Z.mod_mul by lia. by rewrite Z.mod_0_l by lia. }
  rewrite Er. destruct (Z.ltb_spec size (PAGE_SIZE - offset)) as [Hsm|Hbg].
  - eexists _, _. split; [done|]. split; [|done]. apply merge_small; [done|done|lia|lia|lia].
  - destruct R as (R1 & R2 & R3). set (rest := size - (PAGE_SIZE - offset)). pose proof (pages_less rest size ltac:(lia)).
    rewrite (u32_small (rest + PAGE_SIZE - 1)) by (unfold PAGE_SIZE in *; lia). fold (pages_for rest).
    destruct (merge_big l b offset rest B E2 ltac:(lia) ltac:(lia) ltac:(lia)) as (b1 & X1 & X2);
      fold (pages_for rest) in *; [lia|intros j Hj; apply R3; lia|].
    rewrite <- E3. rewrite X1. cbn [mbind option_bind]. eexists _, _. split; [done|]. split; [|done].
    replace size with (PAGE_SIZE - offset + rest) by lia. done.
Qed.

(** Two scans tell the end of all: a start that is found, none although the whole map was
    scanned, or the scan of the whole map again and again. *)
Lemma restart_spec turns b t m off areasize : (2 <= turns)%nat -> 0 < areasize -> 0 < m -> 0 <= off -> 0 <= t ->
  let found := restart_scan turns (node_bootmem_map b) (off + t * m) off m areasize (nr_low b) in
  found = restart_scan 2 (node_bootmem_map b) (off + t * m) off m areasize (nr_low b) /\
  match found with
  | Some (Some st) => run_free b st areasize /\ st < nr_low b /\ exists u, st = off + u * m
  | Some None => off = 0 /\ forall u, 0 <= u -> ~ run_free b (off + u * m) areasize
  | None => off <> 0 /\ forall u, 0 <= u -> ~ run_free b (off + u * m) areasize
  end.
Proof.
  intros Ht Ha Hm Ho Ht0. cbv zeta. destruct turns as [|[|turns]]; [lia..|]. cbn [restart_scan].
  assert (W : forall i, 0 <= i -> nr_low b - i <= Z.of_nat (Z.to_nat (nr_low b))) by lia.
  assert (H0 : 0 <= off + t * m) by nia.
  pose proof (scan_bitmap_spec _ b (off + t * m) m areasize Ha Hm H0 (W _ H0)) as X.
  destruct (scan_bitmap _ _ (off + t * m) _ _ _) as [st|].
  { split; [done|]. destruct X as (X1 & X2 & u & Hu & ->). split; [done|]. split; [done|]. exists (t + u). lia. }
  destruct (Z.eqb_spec (off + t * m) 0) as [E0|E0].
  { split; [done|]. assert (off = 0 /\ t = 0) as [-> ->] by nia. split; [done|]. intros u Hu. by apply X. }
  pose proof (scan_bitmap_spec _ b off m areasize Ha Hm Ho (W _ Ho)) as Y.
  destruct (scan_bitmap _ _ off _ _ _) as [st|] eqn:Es.
  { split; [done|]. destruct Y as (Y1 & Y2 & u & _ & ->). eauto. }
  destruct (Z.eqb_spec off 0) as [E1|E1]; [done|].
  assert (R : forall n, restart_scan n (node_bootmem_map b) off off m areasize (nr_low b) = None).
  { intros n. induction n as [|n IH]; [done|]. cbn [restart_scan]. rewrite Es. by rewrite (proj2 (Z.eqb_neq _ _)). }
  by rewrite R.
Qed.

Lemma alloc_scans l b size k goal : bm_ok l b -> 0 < size < 2 ^ 32 - PAGE_SIZE -> 0 <= k <= 31 ->
  let off := align_offset (node_boot_start b) (2 ^ k) in let m := align_incr (2 ^ k) in
  exists t, 0 <= t /\ forall turns, __alloc_bootmem_core turns size (2 ^ k) goal b =
    match restart_scan turns (node_bootmem_map b) (off + t * m) off m (pages_for size) (nr_low b) with
    | None => Some (b, Scanning)
    | Some None => Some (b, Null)
    | Some (Some start) => if nr_low b <=? start then None
        else r ← place_area start size (2 ^ k) (pages_for size) b; let '(b1, ret) := r in Some (b1, At ret)
    end.
Proof.
  intros B Hs Hk. cbv zeta. destruct (bm_low _ _ B) as [M1 M2]. assert (Hp : 0 < 2 ^ k) by (apply Z.pow_pos_nonneg; lia).
  assert (Hn : nr_low b <= node_low_pfn b) by (unfold nr_low; pose proof (Z.div_pos (node_boot_start b) PAGE_SIZE (bm_start _ _ B) ltac:(done)); lia).
  destruct (slots (node_boot_start b) k (bm_aligned _ _ B) ltac:(lia)) as (_ & _ & _ & S4).
  set (pre := u32 ((if negb (goal =? 0) && (node_boot_start b <=? goal) && (Z.shiftr goal PAGE_SHIFT <? node_low_pfn b)
                     then goal - node_boot_start b else 0) + 2 ^ k - 1)).
  destruct (S4 pre (proj1 (u32_range _))) as (t & Ht & Epre). exists t. split; [done|]. intros turns.
  unfold __alloc_bootmem_core. cbv zeta. fold (align_offset (node_boot_start b) (2 ^ k)). fold (align_incr (2 ^ k)). fold pre.
  rewrite Epre, (shift_page (node_boot_start b)). fold (nr_low b). rewrite (u32_small (nr_low b)) by lia.
  rewrite low_bits by lia. rewrite Z.mod_same by lia. destruct (Z.eqb_spec size 0); [lia|]. cbn [Z.eqb negb orb].
  rewrite (u32_small (size + PAGE_SIZE - 1)) by (unfold PAGE_SIZE in *; lia). done.
Qed.

Lemma boot_alloc_ok l b size k goal : bm_ok l b -> 0 < size < 2 ^ 32 - PAGE_SIZE -> 0 <= k <= 31 ->
  exists b' r, (forall turns, (2 <= turns)%nat -> __alloc_bootmem_core turns size (2 ^ k) goal b = Some (b', r)) /\
  match r with
  | At a => bm_ok ((a, size) :: l) b' /\ a `mod` 2 ^ k = 0
  | Null => b' = b /\ align_offset (node_boot_start b) (2 ^ k) = 0 /\
      forall i, (i * PAGE_SIZE + node_boot_start b) `mod` 2 ^ k = 0 -> ~ run_free b i (pages_for size)
  | Scanning => b' = b /\ align_offset (node_boot_start b) (2 ^ k) <> 0 /\
      forall i, (i * PAGE_SIZE + node_boot_start b) `mod` 2 ^ k = 0 -> ~ run_free b i (pages_for size)
  end.
Proof.
  intros B Hs Hk. destruct (slots (node_boot_start b) k (bm_aligned _ _ B) ltac:(lia)) as (S1 & S2 & S3 & _).
  assert (Ha : 0 < pages_for size) by (unfold pages_for; pose proof (round_up size ltac:(lia)); unfold PAGE_SIZE in *; lia).
  destruct (alloc_scans l b size k goal B Hs Hk) as (t & Ht & E).
  set (off := align_offset (node_boot_start b) (2 ^ k)) in *. set (m := align_incr (2 ^ k)) in *. clearbody off m.
  assert (K : (forall u, 0 <= u -> ~ run_free b (off + u * m) (pages_for size)) ->
    forall i, (i * PAGE_SIZE + node_boot_start b) `mod` 2 ^ k = 0 -> ~ run_free b i (pages_for size)).
  { intros Hn i Hi R. apply S3 in Hi as (u & ->). apply (Hn u); [|done]. destruct R as (R & _). nia. }
  assert (R : forall turns, (2 <= turns)%nat -> __alloc_bootmem_core turns size (2 ^ k) goal b = __alloc_bootmem_core 2 size (2 ^ k) goal b).
  { intros turns H2. rewrite !E. by destruct (restart_spec turns b t m off (pages_for size) H2 Ha S1 (proj1 S2) Ht) as [-> _]. }
  destruct (restart_spec 2 b t m off (pages_for size) ltac:(lia) Ha S1 (proj1 S2) Ht) as [_ F].
  pose proof (E 2%nat) as E2. destruct (restart_scan 2 _ _ _ _ _ _) as [[st|]|].
  - destruct F as (F1 & F2 & u & Hu). destruct (Z.leb_spec (nr_low b) st); [lia|].
    destruct (place_ok l b st size k B Hs Hk F1 F2 (proj2 (S3 st) (ex_intro _ u Hu))) as (b' & ret & Ep & B' & A').
    rewrite Ep in E2. exists b', (At ret). split; [|done]. intros turns H2. by rewrite R.
  - destruct F as [F1 F2]. exists b, Null. split; [intros turns H2; by rewrite R|auto].
  - destruct F as [F1 F2]. exists b, Scanning. split; [intros turns H2; by rewrite R|auto].
Qed.

(** The offset is that of a node whose start is not aligned. *)
Lemma offset_zero start k : start `mod` PAGE_SIZE = 0 -> 0 <= k -> align_offset start (2 ^ k) = 0 <-> start `mod` 2 ^ k = 0.
Proof.
  intros Hs Hk. assert (Hp : 0 < 2 ^ k) by (apply Z.pow_pos_nonneg; lia).
  unfold align_offset. rewrite !shift_page, low_bits by done. destruct (Z.eqb_spec (2 ^ k) 0); [lia|].
  destruct (Z.eqb_spec (start `mod` 2 ^ k) 0) as [E|E]; cbn [negb andb]; [done|]. split; [|done]. intros H0. exfalso.
  destruct (Z.le_gt_cases 12 k) as [Hk'|Hk'].
  - assert (Ed : 2 ^ k = PAGE_SIZE * 2 ^ (k - 12)) by (change PAGE_SIZE with (2 ^ 12); rewrite <- Z.pow_add_r by lia; f_equal; lia).
    assert (Hq : 0 < 2 ^ (k - 12)) by (apply Z.pow_pos_nonneg; lia).
    pose proof (Z.mod_pos_bound start (2 ^ k) Hp). rewrite (Z.div_mod start PAGE_SIZE), Hs in E, H0, H by done.
    rewrite Z.add_0_r, Ed, Z.mul_mod_distr_l in E, H0, H by (unfold PAGE_SIZE; lia).
    rewrite <- Z.mul_sub_distr_l, Z.mul_comm, Z.div_mul in H0 by done. unfold PAGE_SIZE in *. lia.
  - destruct (pow_divides k ltac:(lia)) as (c & _ & Ec). apply E. apply Z.mod_divide; [lia|].
    exists (c * (start / PAGE_SIZE)). rewrite (Z.div_mod start PAGE_SIZE) at 1 by done. rewrite Hs, Ec. ring.
Qed.

(** An allocation does not move the memory. *)
Lemma take_frame i j b b' : take_bits i j b = Some b' -> node_boot_start b' = node_boot_start b /\ node_low_pfn b' = node_low_pfn b.
Proof. unfold take_bits, set_bits. destruct (existsb _ _); [done|]. destruct (_ && _); [done|]. by intros [= <-]. Qed.

Lemma place_frame start size align n b b' a : place_area start size align n b = Some (b', a) ->
  node_boot_start b' = node_boot_start b /\ node_low_pfn b' = node_low_pfn b.
Proof.
  unfold place_area. cbv zeta. destruct (_ && _).
  - destruct (_ <? _); [done|]. destruct (_ <? _); [by intros [= <- _]|]. destruct (take_bits _ _ b) as [b1|] eqn:E; [|done].
    cbn [mbind option_bind]. intros [= <- _]. by apply take_frame in E.
  - destruct (take_bits _ _ b) as [b1|] eqn:E; [|done]. cbn [mbind option_bind]. intros [= <- _]. by apply take_frame in E.
Qed.

Lemma alloc_frame turns size align goal b b' r : __alloc_bootmem_core turns size align goal b = Some (b', r) ->
  node_boot_start b' = node_boot_start b /\ node_low_pfn b' = node_low_pfn b.
Proof.
  unfold __alloc_bootmem_core. cbv zeta. destruct (_ || _); [done|].
  destruct (restart_scan _ _ _ _ _ _ _) as [[st|]|]; [|by intros [= <- _]..].
  destruct (_ <=? _); [done|]. destruct (place_area _ _ _ _ b) as [[b1 ret]|] eqn:E; [|done]. cbn [mbind option_bind]. intros [= <- _].
  by apply place_frame in E.
Qed.

(** * Placing and freeing ranges *)

Lemma init_bootmem_ok mapstart start last b : last_offset b = 0 -> 0 <= start <= last -> last <= 2 ^ 20 - 2 ->
  let b' := fst (init_bootmem_core mapstart start last b) in
  bm_ok [] b' /\ (forall k, 0 <= k < nr_low b' -> node_bootmem_map b' k = true).
Proof.
  intros Hz Hs Hl. cbn [init_bootmem_core fst]. assert (Es : Z.shiftl start PAGE_SHIFT = start * PAGE_SIZE) by (by rewrite Z.shiftl_mul_pow2).
  assert (Em : last - start <= 8 * Z.land (u32 (last - start + 7) / 8 + 3) (Z.lnot 3)).
  { rewrite u32_small by lia. pose proof (long_align ((last - start + 7) / 8) ltac:(apply Z.div_pos; lia)) as H. unfold LONG_ALIGN in H.
    pose proof (Z.div_mod (last - start + 7) 8 ltac:(lia)). pose proof (Z.mod_pos_bound (last - start + 7) 8 ltac:(lia)). lia. }
  match goal with |- context [bm_ok [] ?c] => set (b' := c) end.
  assert (En : nr_low b' = last - start) by (unfold nr_low; simpl; by rewrite Es, Z.div_mul). split.
  - split; rewrite ?En; simpl; rewrite ?Es, ?Hz; try done.
    + by apply Z.mod_mul.
    + unfold PAGE_SIZE; lia.
    + lia.
    + intros r x ?%not_elem_of_nil. done.
  - intros k Hk. rewrite En in Hk. simpl. destruct (Z.leb_spec 0 k); [|lia]. destruct (Z.ltb_spec k (8 * Z.land (u32 (last - start + 7) / 8 + 3) (Z.lnot 3))); [done|lia].
Qed.

(** The bits change, and those of allocated pages stay set. *)
Lemma bits_ok l b f : bm_ok l b ->
  (forall r x, r ∈ l -> in_bytes r x -> f (node_bootmem_map b) (page_of b x) = true) -> bm_ok l (b <| node_bootmem_map ::= f |>).
Proof.
  intros [B1 B2 B3 B4 B5 B6 B7 B8] Hf. split; try done.
  - intros r x Hr Hx. destruct (B5 r x Hr Hx) as [P1 P2]. split; [done|]. by apply (Hf r x).
  - simpl. intros Hz. destruct (B8 Hz) as (L1 & L2 & (r & x & Hr & Hx & Ex) & L4). split; [done|]. split; [rewrite <- Ex; by apply (Hf r x)|].
    split; [by exists r, x|done].
Qed.

Section Steps.
Context (l : list (Z * Z)) (b : bootmem_data) (B : bm_ok l b).
Context (addr size : Z).
Hypothesis Hlow : node_boot_start b <= addr.
Hypothesis Hsize : 0 < size.
Hypothesis Hhigh : addr + size <= node_low_pfn b * PAGE_SIZE.

(** A page with a byte in the range, and one with all its bytes in it. *)
Definition touched (k : Z) : Prop := exists x, in_bytes (addr, size) x /\ page_of b x = k.
Definition covered (k : Z) : Prop := forall x, page_of b x = k -> in_bytes (addr, size) x.

Lemma page_edges k : page_of b (node_boot_start b + k * PAGE_SIZE) = k /\ page_of b (node_boot_start b + (k + 1) * PAGE_SIZE - 1) = k.
Proof.
  split.
  - replace (node_boot_start b + k * PAGE_SIZE) with (k * PAGE_SIZE + 0 + node_boot_start b) by lia. by apply page_of_add.
  - replace (node_boot_start b + (k + 1) * PAGE_SIZE - 1) with (k * PAGE_SIZE + (PAGE_SIZE - 1) + node_boot_start b) by (unfold PAGE_SIZE; lia).
    by apply page_of_add.
Qed.

Lemma touched_bounds k : touched k <-> addr - node_boot_start b < (k + 1) * PAGE_SIZE /\ k * PAGE_SIZE < addr + size - node_boot_start b.
Proof.
  split.
  - intros (x & [X1 X2] & <-). destruct (page_of_split b x). simpl in *. lia.
  - intros [H1 H2]. exists (Z.max addr (node_boot_start b + k * PAGE_SIZE)). split; [split; simpl; unfold PAGE_SIZE in *; lia|].
    apply Z.le_antisymm; [|apply page_of_bound; lia]. assert (page_of b (Z.max addr (node_boot_start b + k * PAGE_SIZE)) < k + 1); [|lia].
    apply page_of_below. unfold PAGE_SIZE in *. lia.
Qed.

Lemma covered_bounds k : covered k <-> addr - node_boot_start b <= k * PAGE_SIZE /\ (k + 1) * PAGE_SIZE <= addr + size - node_boot_start b.
Proof.
  split.
  - intros H. destruct (page_edges k) as [E1 E2]. destruct (H _ E1) as [X1 X2]. destruct (H _ E2) as [Y1 Y2]. simpl in *. lia.
  - intros [H1 H2] x <-. destruct (page_of_split b x). unfold in_bytes. simpl. lia.
Qed.

Lemma steps_range : 0 <= node_boot_start b /\ node_low_pfn b <= 2 ^ 20 - 2 /\ node_boot_start b = node_boot_start b / PAGE_SIZE * PAGE_SIZE /\
  0 <= node_boot_start b / PAGE_SIZE /\ node_boot_start b / PAGE_SIZE + nr_low b = node_low_pfn b /\ nr_low b <= 8 * map_bytes b.
Proof using B.
  split; [apply B|]. split; [apply B|]. split; [apply start_multiple, B|]. split; [apply Z.div_pos; [apply B|done]|]. split; [unfold nr_low; lia|apply B].
Qed.

(** Every page the range touches is reserved, the others stay as they are. *)
Lemma reserve_ok : exists b', reserve_bootmem_core addr size b = Some b' /\ bm_ok l b' /\
  node_boot_start b' = node_boot_start b /\ node_low_pfn b' = node_low_pfn b /\
  forall k, node_bootmem_map b' k = true <-> node_bootmem_map b k = true \/ touched k.
Proof.
  destruct steps_range as (R1 & R2 & R3 & R4 & R5 & R6). unfold reserve_bootmem_core. cbv zeta.
  rewrite !u32_small by (unfold PAGE_SIZE in *; lia). rewrite shift_page.
  set (i := (addr - node_boot_start b) / PAGE_SIZE). set (j := (addr + size - node_boot_start b + PAGE_SIZE - 1) / PAGE_SIZE).
  assert (Ei : i * PAGE_SIZE <= addr - node_boot_start b < (i + 1) * PAGE_SIZE).
  { pose proof (Z.div_mod (addr - node_boot_start b) PAGE_SIZE ltac:(done)). pose proof (Z.mod_pos_bound (addr - node_boot_start b) PAGE_SIZE ltac:(done)). lia. }
  pose proof (round_up (addr + size - node_boot_start b) ltac:(lia)) as Ej. fold j in Ej. assert (Hij : i < j) by (unfold PAGE_SIZE in *; lia).
  assert (Hj : j <= nr_low b) by (unfold PAGE_SIZE in *; lia).
  assert (Ha : addr / PAGE_SIZE < node_low_pfn b) by (apply Z.div_lt_upper_bound; [done|lia]).
  assert (He : (addr + size + PAGE_SIZE - 1) / PAGE_SIZE <= node_low_pfn b) by (pose proof (round_up (addr + size) ltac:(lia)); unfold PAGE_SIZE in *; lia).
  destruct (Z.eqb_spec size 0); [lia|]. destruct (Z.leb_spec j i); [lia|]. destruct (Z.leb_spec (node_low_pfn b) (addr / PAGE_SIZE)); [lia|].
  destruct (Z.ltb_spec (node_low_pfn b) ((addr + size + PAGE_SIZE - 1) / PAGE_SIZE)); [lia|]. cbn [orb].
  destruct (set_bits_ok true i j b ltac:(lia)) as (b' & -> & ->). eexists. split; [done|]. split; [|split; [done|split; [done|]]].
  - apply bits_ok; [done|]. intros r x Hr Hx. destruct (bm_page _ _ B r x Hr Hx) as [_ ->]. by destruct ((i <=? _) && _).
  - intros k. rewrite touched_bounds. simpl. destruct (Z.leb_spec i k), (Z.ltb_spec k j); cbn [andb];
      (split; [intros ?; try (by left); right; unfold PAGE_SIZE in *; lia|intros [?|?]; [done|try done; exfalso; unfold PAGE_SIZE in *; lia]]).
Qed.

(** Every page the range covers, reserved before, is free; the others stay as they are. *)
Lemma free_bootmem_ok : (forall k, covered k -> node_bootmem_map b k = true) -> (forall r x, r ∈ l -> in_bytes r x -> ~ in_bytes (addr, size) x) ->
  exists b', free_bootmem_core addr size b = Some b' /\ bm_ok l b' /\
  node_boot_start b' = node_boot_start b /\ node_low_pfn b' = node_low_pfn b /\
  forall k, node_bootmem_map b' k = true <-> node_bootmem_map b k = true /\ ~ covered k.
Proof.
  intros Hset Hd. destruct steps_range as (R1 & R2 & R3 & R4 & R5 & R6). unfold free_bootmem_core. cbv zeta.
  pose proof (round_up addr ltac:(lia)) as Hr. set (st := (addr + PAGE_SIZE - 1) / PAGE_SIZE) in *.
  rewrite (u32_small (addr + size - node_boot_start b)), (u32_small (addr + size)), (u32_small (addr + PAGE_SIZE - 1)) by (unfold PAGE_SIZE in *; lia).
  fold st. rewrite (u32_small (st - node_boot_start b / PAGE_SIZE)) by (unfold PAGE_SIZE in *; lia).
  set (i := st - node_boot_start b / PAGE_SIZE). set (j := (addr + size - node_boot_start b) / PAGE_SIZE).
  assert (Ej : j * PAGE_SIZE <= addr + size - node_boot_start b < (j + 1) * PAGE_SIZE).
  { pose proof (Z.div_mod (addr + size - node_boot_start b) PAGE_SIZE ltac:(done)). pose proof (Z.mod_pos_bound (addr + size - node_boot_start b) PAGE_SIZE ltac:(done)). lia. }
  assert (Hj : j <= nr_low b) by (unfold PAGE_SIZE in *; lia).
  assert (He : (addr + size) / PAGE_SIZE <= node_low_pfn b) by (apply Z.div_le_upper_bound; [done|lia]).
  assert (C : forall k, covered k <-> i <= k < j) by (intros k; rewrite covered_bounds; unfold i, PAGE_SIZE in *; lia).
  destruct (Z.eqb_spec size 0); [lia|]. destruct (Z.ltb_spec (node_low_pfn b) ((addr + size) / PAGE_SIZE)); [lia|]. cbn [orb].
  destruct (Z.leb_spec j i).
  - exists b. split; [done|]. split; [done|]. split; [done|]. split; [done|]. intros k. rewrite C. split; [intros; split; [done|lia]|tauto].
  - assert (F : forallb (node_bootmem_map b) (seqZ i (j - i)) = true).
    { apply forallb_forall. intros k Hk%list_elem_of_In%elem_of_seqZ. apply Hset, C. lia. }
    rewrite F. cbn [negb]. destruct (set_bits_ok false i j b ltac:(lia)) as (b' & -> & ->). eexists. split; [done|]. split; [|split; [done|split; [done|]]].
    + apply bits_ok; [done|]. intros r x Hx Hr'. destruct (bm_page _ _ B r x Hx Hr') as [_ ->].
      destruct ((i <=? page_of b x) && (page_of b x <? j)) eqn:E; [|done]. apply andb_true_iff in E as [E1%Z.leb_le E2%Z.ltb_lt].
      exfalso. apply (Hd r x Hx Hr'). by apply (proj2 (C (page_of b x))).
    + intros k. rewrite C. simpl. destruct (Z.leb_spec i k), (Z.ltb_spec k j); cbn [andb]; split; intros; try done; try (split; [done|lia]); try tauto; lia.
Qed.
End Steps.
