(* ===== verification/BootHandover.v ===== *)
(** * From the boot-time allocator to the page allocator

    [free_all_bootmem] releases the pages of low memory that are not reserved, and those of
    its own bitmap; each becomes available, once. *)
From stdpp Require Import base list functions.
From S2P Require Import Prelude Pages PidHash Bitmap Sched Buddy ZoneInit BuddyInv BuddySteps BuddyPages BuddyTheorems.
From S2P Require Import Bootmem BootmemInv.

(** ** Releasing *)

(** A page that was never used; it can be reserved. *)
Definition unused (x : page) : Prop :=
  (forall n, 0 <= n < ZONE_SHIFT -> n <> PG_reserved -> Z.testbit (pg_flags x) n = false) /\ pg_buffers x = 0 /\ pg_mapping x = 0 /\ pg_pte_chain x = 0.
Definition idle (p : Z) (s : mm) : Prop := p < max_mapnr s /\ unused (mem_map s p).

Lemma idle_else p q s s' : else_same p s s' -> q <> p -> idle q s -> idle q s'.
Proof. intros [E1 E2] Hq [I1 I2]. split; [by rewrite E2|by rewrite E1]. Qed.

Lemma idle_freeable p s : idle p s -> page_flag PG_reserved p s = false -> freeable p s.
Proof.
  intros (I1 & I2 & I3 & I4 & I5) R. unfold freeable. cbv zeta. unfold page_flag in *. rewrite R, I3, I4, I5.
  rewrite (I2 PG_locked), (I2 PG_lru), (I2 PG_active), (I2 PG_inactive_dirty), (I2 PG_inactive_clean) by done. done.
Qed.

Lemma release_ok s p : held [] s -> in_use s p 0 -> idle p s ->
  exists s', release_page p s = Some s' /\ held [] s' /\ (forall q, page_avail s' q <-> page_avail s q \/ q = p) /\
    (forall zj p' o', is_block s' zj p' o' <-> is_block s zj p' o') /\ else_same p s s'.
Proof.
  intros H U I. unfold release_page, __free_pages. set (s1 := clear_flag PG_reserved p s).
  set (s3 := set_page p _ (set_page_count p 1 s1)). cbv zeta.
  assert (O : outside s s3).
  { eapply outside_trans; [by apply (outside_clear PG_reserved p s)|]. eapply outside_trans; by apply outside_page. }
  assert (Em : mem_map s3 p = (mem_map s p) <| pg_flags ::= fun f => Z.clearbit f PG_reserved |> <| pg_count := 0 |>).
  { unfold s3, s1, clear_flag, set_page_count, set_page. simpl. by rewrite !fn_lookup_alter. }
  assert (El : else_same p s s3) by (do 2 (eapply else_trans; [apply else_page|]); apply else_page). clearbody s3.
  assert (Ef : forall n, Z.testbit (pg_flags (mem_map s3 p)) n = Z.testbit (pg_flags (mem_map s p)) n && negb (PG_reserved =? n))
    by (intros n; rewrite Em; apply Z.clearbit_eqb).
  assert (Ec : pg_count (mem_map s3 p) = 0) by (by rewrite Em). pose proof I as (I1 & I2 & I3 & I4 & I5).
  assert (I' : idle p s3).
  { split; [by rewrite (proj2 El)|]. split; [intros n Hn Hr; rewrite Ef, I2 by done; done|by rewrite Em]. }
  assert (F : freeable p s3) by (apply idle_freeable; [done|unfold page_flag; by rewrite Ef, Z.eqb_refl, andb_false_r]).
  rewrite Ec. cbn [Z.eqb].
  assert (Lf : DEBUG_LRU_PAGE p s3 = false) by (unfold DEBUG_LRU_PAGE, page_flag; rewrite !Ef, !I2 by done; done).
  assert (T3 : tidy s3).
  { intros q Hq. apply (outside_avail s s3 q O) in Hq. destruct (decide (q = p)) as [->|Hne]; [done|].
    destruct (held_ok [] s H) as ([_ T] & _). rewrite <- (T q Hq). unfold DEBUG_LRU_PAGE, page_flag. by rewrite (proj1 El) by done. }
  assert (H3 : held [] s3) by (by eapply h_outside). destruct (held_ok [] s3 H3) as ([M _] & _). apply (outside_use s s3 p 0 O) in U.
  destruct (free_ok s3 p 0 M U F) as (s' & E & M' & A & Bl). exists s'. split; [done|].
  split; [apply (h_release [] s3 p 0 s' H3 U); [intros ? ? ? ?%not_elem_of_nil; done|done|intros q Hq Hne; unfold in_block in Hq; lia|done]|]. split; [|split].
  - intros q. rewrite A, (outside_avail s s3 q O). unfold in_block. split; intros [?|?]; auto; right; lia.
  - intros zj p' o'. by rewrite Bl, (outside_block s s3 zj p' o' O).
  - eapply else_trans; [done|]. by apply (free_frame p 0).
Qed.

Lemma release_pages_ok l s : held [] s -> NoDup l -> (forall p, p ∈ l -> in_use s p 0 /\ idle p s) ->
  exists s', release_pages l s = Some s' /\ held [] s' /\ (forall q, page_avail s' q <-> page_avail s q \/ q ∈ l) /\
    (forall zj p' o', is_block s' zj p' o' <-> is_block s zj p' o') /\ forall q, q ∉ l -> idle q s -> idle q s'.
Proof.
  revert s. induction l as [|p l IH]; intros s H N U; simpl.
  - exists s. split; [done|]. split; [done|]. split; [|done]. intros q. split; [tauto|]. intros [?|?%not_elem_of_nil]; done.
  - apply list.NoDup_cons in N as [Hp N]. destruct (U p (list_elem_of_here _ _)) as [Up Ip].
    destruct (release_ok s p H Up Ip) as (s1 & E1 & H1 & A1 & B1 & L1). rewrite E1. cbn [mbind option_bind].
    destruct (IH s1 H1 N) as (s' & E & H' & A & B & I).
    + intros q Hq. destruct (U q ltac:(by apply elem_of_cons; right)) as [Uq Iq]. assert (q <> p) by (intros ->; done).
      split; [|by apply (idle_else p q s)]. apply (use_less s); [done|intros x Hx; rewrite A1; unfold in_block in Hx; intros [?|?]; [done|lia]|done].
    + exists s'. split; [done|]. split; [done|]. split; [|split].
      * intros q. rewrite A, A1, elem_of_cons. tauto.
      * intros zj p' o'. by rewrite B, B1.
      * intros q Hq Iq. rewrite elem_of_cons in Hq. apply I; [tauto|]. apply (idle_else p q s); [done|tauto|done].
Qed.
