(* ===== verification/BootTheorems.v ===== *)
(** * What the boot-time allocator promises, and the hand-over *)
From stdpp Require Import base list functions.
From S2P Require Import Prelude Pages PidHash Bitmap Sched Buddy ZoneInit BuddyInv BuddySteps BuddyPages BuddyTheorems.
From S2P Require Import Bootmem BootmemInv BootHandover.

(** ** Histories *)

(** [boot_held l b]: the ranges of [l] have been allocated from [b].  Memory can be
    reserved, freed where nothing was allocated, and allocated with any alignment that
    is a power of two.  The code accepts two things more, that are left out because ranges
    then overlap: freeing what was allocated ([freed_page_reused] below) and the alignment
    0 ([alignment_zero_overlaps]). *)
Inductive boot_held : list (Z * Z) -> bootmem_data -> Prop :=
  | bh_init mapstart start last b : last_offset b = 0 -> 0 <= start <= last -> last <= 2 ^ 20 - 2 ->
      boot_held [] (fst (init_bootmem_core mapstart start last b))
  | bh_reserve l b addr size b' : boot_held l b -> node_boot_start b <= addr -> 0 < size -> addr + size <= node_low_pfn b * PAGE_SIZE ->
      reserve_bootmem_core addr size b = Some b' -> boot_held l b'
  | bh_free l b addr size b' : boot_held l b -> node_boot_start b <= addr -> 0 < size -> addr + size <= node_low_pfn b * PAGE_SIZE ->
      (forall k, covered b addr size k -> node_bootmem_map b k = true) -> (forall r x, r ∈ l -> in_bytes r x -> ~ in_bytes (addr, size) x) ->
      free_bootmem_core addr size b = Some b' -> boot_held l b'
  | bh_alloc l b size k goal b' a : boot_held l b -> 0 < size < 2 ^ 32 - PAGE_SIZE -> 0 <= k <= 31 ->
      __alloc_bootmem_core 2 size (2 ^ k) goal b = Some (b', At a) -> boot_held ((a, size) :: l) b'.

Lemma boot_held_ok l b : boot_held l b -> bm_ok l b.
Proof.
  induction 1 as [m st la b Hz Hs Hl|l b ad sz b' _ IH H1 H2 H3 E|l b ad sz b' _ IH H1 H2 H3 Hc Hd E|l b sz k g b' a _ IH Hs Hk E].
  - by apply init_bootmem_ok.
  - destruct (reserve_ok l b IH ad sz H1 H2 H3) as (b1 & E1 & B1 & _). congruence.
  - destruct (free_bootmem_ok l b IH ad sz H1 H2 H3 Hc Hd) as (b1 & E1 & B1 & _). congruence.
  - destruct (boot_alloc_ok l b sz k g IH Hs Hk) as (b1 & r & E1 & R). rewrite (E1 2%nat (le_n 2)) in E. injection E as -> ->. apply R.
Qed.

(** C30. In every history of the boot-time allocator that frees no allocated range and
    asks for no alignment 0 (see [boot_held]) the allocated ranges of bytes have no
    byte in common, also where they share a page, and lie in reserved pages of low memory.
    The next allocation, of whatever size below 4 gigabytes less a page, alignment and
    goal, ends without [BUG()].  It returns an aligned range of the size inside low
    memory that meets none of the earlier ones; or, when no run of free pages of that size
    starts at an aligned address, nothing has changed, and if the start of the node is
    aligned it returns NULL, if not it never returns: the bitmap is scanned again, however
    many scans are made. *)
Theorem boot_ranges_disjoint l b : boot_held l b -> ranges_apart l /\
  (forall r x, r ∈ l -> in_bytes r x -> 0 <= page_of b x < nr_low b /\ node_bootmem_map b (page_of b x) = true) /\
  forall size k goal, 0 < size < 2 ^ 32 - PAGE_SIZE -> 0 <= k <= 31 ->
  exists b' r, (forall turns, (2 <= turns)%nat -> __alloc_bootmem_core turns size (2 ^ k) goal b = Some (b', r)) /\
  match r with
  | At a => a `mod` 2 ^ k = 0 /\ node_boot_start b <= a /\ a + size <= node_low_pfn b * PAGE_SIZE /\
      forall r' x, r' ∈ l -> in_bytes (a, size) x -> ~ in_bytes r' x
  | Null => b' = b /\ node_boot_start b `mod` 2 ^ k = 0 /\
      forall i, (i * PAGE_SIZE + node_boot_start b) `mod` 2 ^ k = 0 -> ~ run_free b i (pages_for size)
  | Scanning => b' = b /\ node_boot_start b `mod` 2 ^ k <> 0 /\
      forall i, (i * PAGE_SIZE + node_boot_start b) `mod` 2 ^ k = 0 -> ~ run_free b i (pages_for size)
  end.
Proof.
  intros H. pose proof (boot_held_ok l b H) as B. split; [apply B|]. split; [apply (bm_page _ _ B)|]. intros size k goal Hs Hk.
  destruct (boot_alloc_ok l b size k goal B Hs Hk) as (b' & r & E & R). exists b', r. split; [done|].
  pose proof (offset_zero (node_boot_start b) k (bm_aligned _ _ B) ltac:(lia)) as Z.
  destruct r as [|a|]; [destruct R as (R1 & R2 & R3); by rewrite Z in R2| |destruct R as (R1 & R2 & R3); by rewrite Z in R2].
  destruct R as [B' Ha]. split; [done|]. destruct (alloc_frame _ _ _ _ _ _ _ (E 2%nat (le_n 2))) as [F1 F2].
  assert (P : forall x, in_bytes (a, size) x -> 0 <= page_of b x < nr_low b).
  { intros x Hx. destruct (bm_page _ _ B' (a, size) x (list_elem_of_here _ _) Hx) as [P _]. unfold page_of, nr_low in *. by rewrite F1, F2 in P. }
  destruct (steps_range l b B) as (_ & _ & R3 & _ & R5 & _).
  destruct (P a ltac:(split; simpl; lia)) as [P1 _]. destruct (P (a + size - 1) ltac:(split; simpl; lia)) as [_ P2].
  destruct (page_of_split b a) as [S1 S2]. destruct (page_of_split b (a + size - 1)) as [S3 S4]. split; [unfold PAGE_SIZE in *; lia|].
  split; [unfold PAGE_SIZE in *; lia|]. intros r' x Hr Hx Hx'. destruct (bm_apart _ _ B') as [D _]. by apply (D r' x).
Qed.

(** ** The hand-over *)

Lemma init_page_unused zi x : 0 <= zi -> unused x -> unused (init_page zi x).
Proof.
  intros Hz (U1 & U2). split; [|exact U2]. intros n Hn Hr. simpl. unfold set_page_zone.
  rewrite Z.setbit_eqb by (unfold PG_reserved; lia). destruct (Z.eqb_spec PG_reserved n); [congruence|]. cbn [orb].
  rewrite Z.lor_spec, Z.land_spec, U1 by done. rewrite Z.shiftl_spec_low by lia. done.
Qed.

(** The pages of the bitmap, and how many of them are given up: all, or all but the last
    when the bits in it are seven at most. *)
Definition bitmap_pages (b : bootmem_data) : Z := bootmem_bootmap_pages (nr_low b).
Definition given_up (b : bootmem_data) : Z :=
  if (1 <=? nr_low b `mod` 32768) && (nr_low b `mod` 32768 <=? 7) then bitmap_pages b - 1 else bitmap_pages b.

Lemma bootmap_pages_spec n : 0 <= n < 2 ^ 20 -> bootmem_bootmap_pages n = (n + 32767) / 32768.
Proof.
  intros Hn. unfold bootmem_bootmap_pages. cbv zeta. rewrite u32_small by lia. rewrite Z.shiftr_land.
  change (Z.shiftr PAGE_MASK PAGE_SHIFT) with (Z.ones 20). rewrite Z.land_ones, shift_page by lia.
  change PAGE_SIZE with 4096. change (2 ^ 20) with 1048576 in *. Z.to_euclidean_division_equations. lia.
Qed.

Lemma given_up_spec b : 0 <= nr_low b < 2 ^ 20 -> (nr_low b / 8 + PAGE_SIZE - 1) / PAGE_SIZE = given_up b /\ given_up b <= bitmap_pages b.
Proof.
  intros Hn. unfold given_up, bitmap_pages. rewrite bootmap_pages_spec by done. change PAGE_SIZE with 4096.
  destruct (Z.leb_spec 1 (nr_low b `mod` 32768)), (Z.leb_spec (nr_low b `mod` 32768) 7); cbn [andb];
    change (2 ^ 20) with 1048576 in *; Z.to_euclidean_division_equations; lia.
Qed.

Section Handover.
Context (ratio sizes : Z -> Z) (s : mm) (d : pgdat).
Hypothesis Hblank : forall zi, blank (zones s zi).
Hypothesis Hzero : forall p, unused (mem_map s p).
Hypothesis Hsizes : forall j, 0 <= sizes j.
Hypothesis Htotal : sizes 0 + sizes 1 + sizes 2 < 2 ^ 31.
Hypothesis Hmax : sizes 0 + sizes 1 + sizes 2 <= max_mapnr s.

(** After boot every page can be released. *)
Lemma boot_releasable : exists s' d', free_area_init ratio sizes s d = Some (s', d') /\ held [] s' /\ (forall p, ~ page_avail s' p) /\
  forall p, 0 <= p < sizes 0 + sizes 1 + sizes 2 -> in_use s' p 0 /\ idle p s'.
Proof using Hblank Hzero Hsizes Htotal Hmax.
  destruct (boot_ok ratio sizes s d Hblank Hsizes Htotal) as (s' & d' & E & M & A & Em & P). exists s', d'. split; [done|].
  split; [by eapply h_boot|]. split; [done|]. intros p Hp. destruct (P p Hp) as (zi & Hz & Zz & Ep). split.
  - split; [|intros q _; apply A]. exists zi. split; [done|]. split; [done|]. unfold in_zone in Zz. rewrite Z.pow_0_r, Z.mod_1_r. lia.
  - split; [rewrite Em; lia|]. rewrite Ep. apply init_page_unused; [apply Hz|apply Hzero].
Qed.

Lemma handover l b map_page s1 d1 : boot_held l b -> node_boot_start b = 0 -> nr_low b <= sizes 0 + sizes 1 + sizes 2 ->
  free_area_init ratio sizes s d = Some (s1, d1) ->
  (forall p, map_page <= p < map_page + given_up b -> 0 <= p < nr_low b /\ node_bootmem_map b p = true) ->
  exists s2 total, free_all_bootmem_core 0 map_page b s1 = Some (s2, total) /\ held [] s2 /\
    (forall p, page_avail s2 p <-> (0 <= p < nr_low b /\ node_bootmem_map b p = false) \/ map_page <= p < map_page + given_up b) /\
    total = Z.of_nat (length (filter (fun p => node_bootmem_map b p = false) (seqZ 0 (nr_low b)))) + given_up b.
Proof using Hblank Hzero Hsizes Htotal Hmax.
  intros Hb H0 Hn E Hmap. pose proof (boot_held_ok l b Hb) as B. destruct (steps_range l b B) as (_ & R2 & _ & _ & R5 & _).
  destruct (bm_low _ _ B) as [M1 _]. destruct boot_releasable as (s' & d' & E' & H & A & P). rewrite E in E'. injection E' as <- <-.
  unfold free_all_bootmem_core. cbv zeta. rewrite shift_page. fold (nr_low b). rewrite H0 in R5. change (0 / PAGE_SIZE) with 0 in R5.
  assert (Hs : 0 <= nr_low b < 2 ^ 20) by lia. rewrite (u32_small (nr_low b)) by lia.
  set (fr := filter _ (seqZ 0 (nr_low b))).
  assert (Ef : forall p, p ∈ map (Z.add 0) fr <-> 0 <= p < nr_low b /\ node_bootmem_map b p = false).
  { intros p. replace (map (Z.add 0) fr) with fr by (symmetry; by apply map_id). unfold fr. rewrite list_elem_of_filter, elem_of_seqZ. rewrite Z.add_0_l. tauto. }
  assert (Nf : NoDup (map (Z.add 0) fr)).
  { replace (map (Z.add 0) fr) with fr by (symmetry; by apply map_id). apply list.NoDup_filter, NoDup_seqZ. }
  destruct (release_pages_ok _ s1 H Nf) as (s2 & E2 & H2 & A2 & B2 & I2); [intros p Hp%Ef; apply P; lia|].
  rewrite E2. cbn [mbind option_bind]. rewrite (proj1 (given_up_spec b Hs)).
  assert (Em : forall p, p ∈ seqZ map_page (given_up b) <-> map_page <= p < map_page + given_up b) by (intros p; apply elem_of_seqZ).
  destruct (release_pages_ok (seqZ map_page (given_up b)) s2 H2 (NoDup_seqZ _ _)) as (s3 & E3 & H3 & A3 & _).
  - intros p Hp%Em. destruct (Hmap p Hp) as [Hp1 Hp2]. destruct (P p ltac:(lia)) as [Up Ip].
    assert (Hnot : p ∉ map (Z.add 0) fr) by (rewrite Ef; intros [_ ?]; congruence).
    split; [|by apply I2]. apply (use_less s1); [done|intros q Hq; rewrite A2; intros [?|Hq']; [done|]|done].
    assert (q = p) as -> by (unfold in_block in Hq; lia). done.
  - rewrite E3. cbn [mbind option_bind]. eexists _, _. split; [done|]. split; [done|]. split; [|done].
    intros p. rewrite A3, A2, Ef, Em. split; [intros [[X|X]|X]; [by destruct (A p)|tauto|tauto]|tauto].
Qed.
End Handover.

(** C31. At the end of boot, memory goes from one allocator to the other without loss of a
    reservation.  After [free_area_init] on zeroed page structures, and any history
    [boot_held] of the boot-time allocator of a node that starts at 0, with the pages of the
    bitmap, [bootmem_bootmap_pages] of them, reserved and free of allocations,
    [free_all_bootmem] ends without [BUG()]; a page is available to
    the page allocator just in case it is a page of low memory that is not reserved or one
    of the pages of the bitmap that are given up; the function returns their number.  All
    pages of the bitmap are given up, except that the last one stays reserved for ever when
    the number of pages is 32768n+1 to 32768n+7.  So no byte of a range allocated at boot is
    in an available page; and the state is one of a history of the page allocator with
    nothing allocated. *)
Theorem memory_handed_over ratio sizes s d l b map_page s1 d1 : (forall zi, blank (zones s zi)) -> (forall p, unused (mem_map s p)) ->
  (forall j, 0 <= sizes j) -> sizes 0 + sizes 1 + sizes 2 < 2 ^ 31 -> sizes 0 + sizes 1 + sizes 2 <= max_mapnr s ->
  boot_held l b -> node_boot_start b = 0 -> nr_low b <= sizes 0 + sizes 1 + sizes 2 -> free_area_init ratio sizes s d = Some (s1, d1) ->
  (forall p, map_page <= p < map_page + bootmem_bootmap_pages (nr_low b) -> 0 <= p < nr_low b /\ node_bootmem_map b p = true) ->
  (forall r x, r ∈ l -> in_bytes r x -> ~ (map_page <= page_of b x < map_page + bootmem_bootmap_pages (nr_low b))) ->
  exists s2 total given, free_all_bootmem_core 0 map_page b s1 = Some (s2, total) /\ held [] s2 /\
    (forall p, page_avail s2 p <-> (0 <= p < nr_low b /\ node_bootmem_map b p = false) \/ map_page <= p < map_page + given) /\
    (~ 1 <= nr_low b `mod` 32768 <= 7 -> given = bootmem_bootmap_pages (nr_low b)) /\
    (1 <= nr_low b `mod` 32768 <= 7 -> given = bootmem_bootmap_pages (nr_low b) - 1) /\
    total = Z.of_nat (length (filter (fun p => node_bootmem_map b p = false) (seqZ 0 (nr_low b)))) + given /\
    forall r x, r ∈ l -> in_bytes r x -> ~ page_avail s2 (page_of b x).
Proof.
  intros H1 H2 H3 H4 H5 Hb H6 H7 E Hm Ha. pose proof (boot_held_ok l b Hb) as B. destruct (bm_low _ _ B) as [M1 M2].
  assert (Hn : nr_low b = node_low_pfn b) by (unfold nr_low; rewrite H6; change (0 / PAGE_SIZE) with 0; lia).
  destruct (given_up_spec b ltac:(lia)) as [_ G]. unfold bitmap_pages in G.
  destruct (handover ratio sizes s d H1 H2 H3 H4 H5 l b map_page s1 d1 Hb H6 H7 E ltac:(intros; apply Hm; lia)) as (s2 & t & R1 & R2 & R3 & R4).
  exists s2, t, (given_up b). split; [done|]. split; [done|]. split; [done|].
  split; [|split; [|split; [done|]]].
  - unfold given_up. destruct (Z.leb_spec 1 (nr_low b `mod` 32768)), (Z.leb_spec (nr_low b `mod` 32768) 7); cbn [andb]; (done || lia).
  - unfold given_up. destruct (Z.leb_spec 1 (nr_low b `mod` 32768)), (Z.leb_spec (nr_low b `mod` 32768) 7); cbn [andb]; (done || lia).
  - intros r x Hr Hx. destruct (bm_page _ _ B r x Hr Hx) as [_ P]. rewrite R3. intros [[_ ?]|?]; [congruence|]. apply (Ha r x Hr Hx). lia.
Qed.

(** ** Sixteen pages of low memory, two of them reserved *)

Lemma ran {A} (x : A) (o : option A) : (if o then true else false) = true -> o = Some (default x o).
Proof. by destruct o. Qed.
Definition boot_next (size align goal : Z) (b : bootmem_data) : bootmem_data := fst (default (b, Null) (__alloc_bootmem_core 2 size align goal b)).
Lemma boot_ran size align goal b a : snd <$> __alloc_bootmem_core 2 size align goal b = Some (At a) ->
  __alloc_bootmem_core 2 size align goal b = Some (boot_next size align goal b, At a).
Proof. unfold boot_next. destruct (__alloc_bootmem_core 2 size align goal b) as [[b' x]|]; simpl; congruence. Qed.

Definition bdata : bootmem_data := BootmemData 0 0 (fun _ => false) 0 0 0.
Definition low16 : bootmem_data := fst (init_bootmem_core 1 0 16 bdata).
Definition low16_free : bootmem_data := default bdata (free_bootmem_core 0 65536 low16).
Definition low16_ready : bootmem_data := default bdata (reserve_bootmem_core 0 8192 low16_free).
(** Two allocations of a hundred bytes, in the same page. *)
Definition low16_one : bootmem_data := boot_next 100 (2 ^ 5) 0 low16_ready.
Definition low16_two : bootmem_data := boot_next 100 (2 ^ 5) 0 low16_one.

Lemma low16_ready_held : boot_held [] low16_ready.
Proof.
  assert (H0 : boot_held [] low16) by (apply (bh_init 1 0 16 bdata); [done|lia|lia]).
  assert (H1 : boot_held [] low16_free).
  { apply (bh_free [] low16 0 65536); [done|vm_compute; congruence|lia|vm_compute; congruence| | |apply ran; vm_compute; reflexivity].
    - intros k Hk. apply init_bootmem_ok; [done|lia|lia|]. change (nr_low _) with 16. destruct (page_edges low16 k) as [K1 K2].
      pose proof (Hk _ K1) as [X1 _]. pose proof (Hk _ K2) as [_ Y2]. cbn [fst snd] in X1, Y2. change (node_boot_start low16) with 0 in *. unfold PAGE_SIZE in *. lia.
    - intros r x ?%not_elem_of_nil. done. }
  apply (bh_reserve [] low16_free 0 8192); [done|vm_compute; congruence|lia|vm_compute; congruence|apply ran; vm_compute; reflexivity].
Qed.

Lemma low16_two_held : boot_held [(8320, 100); (8192, 100)] low16_two.
Proof.
  assert (X1 : snd <$> __alloc_bootmem_core 2 100 (2 ^ 5) 0 low16_ready = Some (At 8192)) by (vm_compute; reflexivity).
  assert (X2 : snd <$> __alloc_bootmem_core 2 100 (2 ^ 5) 0 low16_one = Some (At 8320)) by (vm_compute; reflexivity).
  apply (bh_alloc [(8192, 100)] low16_one 100 5 0); [|unfold PAGE_SIZE; lia|lia|exact (boot_ran _ _ _ _ _ X2)].
  apply (bh_alloc [] low16_ready 100 5 0); [exact low16_ready_held|unfold PAGE_SIZE; lia|lia|exact (boot_ran _ _ _ _ _ X1)].
Qed.

Lemma boot_ranges_disjoint_witness : ranges_apart [(8320, 100); (8192, 100)] /\
  exists b', __alloc_bootmem_core 2 8000 (2 ^ 12) 0 low16_two = Some (b', At 12288) /\ ~ in_bytes (8320, 100) 12288.
Proof.
  destruct (boot_ranges_disjoint _ _ low16_two_held) as (A & _ & N). split; [exact A|].
  destruct (N 8000 12 0 ltac:(unfold PAGE_SIZE; lia) ltac:(lia)) as (b' & r & E' & R). pose proof (E' 2%nat (le_n 2)) as E. assert (r = At 12288) as ->.
  { assert (X : snd <$> __alloc_bootmem_core 2 8000 (2 ^ 12) 0 low16_two = Some (At 12288)) by (vm_compute; reflexivity). rewrite E in X. by injection X. }
  exists b'. split; [exact E|]. destruct R as (_ & _ & _ & D). apply (D (8320, 100)); [apply list_elem_of_here|split; simpl; lia].
Defined.

Lemma memory_handed_over_witness : exists s2, free_all_bootmem_core 0 1 low16_two booted = Some (s2, 14) /\
  page_avail s2 1 /\ ~ page_avail s2 2 /\ page_avail s2 15.
Proof.
  assert (Hc : bootmem_bootmap_pages (nr_low low16_two) = 1) by (vm_compute; reflexivity). assert (Hn : nr_low low16_two = 16) by (vm_compute; reflexivity).
  assert (H1 : forall zi, blank (zones bss zi)) by (intros zi; by split).
  assert (H2 : forall p, unused (mem_map bss p)) by (intros p; split; [intros n _ _; exact (Z.testbit_0_l n)|split; [reflexivity|split; reflexivity]]).
  assert (H3 : forall j, 0 <= sixteen j) by (intros j; unfold sixteen; by destruct (j =? 0)).
  assert (H4 : sixteen 0 + sixteen 1 + sixteen 2 = 16) by (vm_compute; reflexivity).
  assert (H5 : node_boot_start low16_two = 0) by (vm_compute; reflexivity).
  assert (H6 : forall p, 1 <= p < 1 + bootmem_bootmap_pages (nr_low low16_two) -> 0 <= p < nr_low low16_two /\ node_bootmem_map low16_two p = true).
  { intros p Hp. rewrite Hc in Hp. assert (p = 1) as -> by lia. rewrite Hn. split; [lia|vm_compute; reflexivity]. }
  assert (H7 : forall r x, r ∈ [(8320, 100); (8192, 100)] -> in_bytes r x -> ~ (1 <= page_of low16_two x < 1 + bootmem_bootmap_pages (nr_low low16_two))).
  { intros r x Hr Hx. rewrite Hc. assert (8192 <= x) by (rewrite !elem_of_cons in Hr; destruct Hr as [->|[->|?%not_elem_of_nil]]; [| |contradiction]; unfold in_bytes in Hx; cbn [fst snd] in Hx; lia).
    assert (2 <= page_of low16_two x) by (apply page_of_bound; rewrite H5; unfold PAGE_SIZE; lia). lia. }
  destruct (memory_handed_over _ _ _ _ _ _ 1 _ _ H1 H2 H3 ltac:(rewrite H4; lia) ltac:(rewrite H4; vm_compute; congruence)
    low16_two_held H5 ltac:(rewrite Hn, H4; lia) booted_run H6 H7) as (s2 & t & g & E & _ & A & G & _ & T & _).
  assert (g = 1) as -> by (rewrite G; [exact Hc|rewrite Hn; vm_compute; intros [_ K]; apply K; reflexivity]).
  exists s2. assert (t = 14) as -> by (rewrite T; vm_compute; reflexivity). split; [exact E|]. rewrite !A, Hn.
  split; [right; lia|]. split.
  - intros [[_ H]|H]; [|lia]. vm_compute in H. congruence.
  - left. split; [lia|vm_compute; reflexivity].
Defined.

(** ** Where the code falls short *)

(** Freeing the page of the last allocation leaves [last_offset]: the next allocation is
    put into the freed page, which stays free in the bitmap, and the one after it, at the
    goal, overlaps it. *)
Theorem freed_page_reused : exists b1 b2 b3, free_bootmem_core 8192 PAGE_SIZE low16_one = Some b1 /\
  __alloc_bootmem_core 2 100 32 12288 b1 = Some (b2, At 8320) /\ __alloc_bootmem_core 2 4096 4096 0 b2 = Some (b3, At 8192).
Proof.
  set (b1 := default bdata (free_bootmem_core 8192 PAGE_SIZE low16_one)). exists b1.
  assert (X1 : snd <$> __alloc_bootmem_core 2 100 32 12288 b1 = Some (At 8320)) by (vm_compute; reflexivity). set (b2 := boot_next 100 32 12288 b1).
  assert (X2 : snd <$> __alloc_bootmem_core 2 4096 4096 0 b2 = Some (At 8192)) by (vm_compute; reflexivity).
  exists b2, (boot_next 4096 4096 0 b2). split; [apply ran; vm_compute; reflexivity|].
  split; [exact (boot_ran _ _ _ _ _ X1)|exact (boot_ran _ _ _ _ _ X2)].
Qed.

(** With alignment 0, which passes the tests, an allocation is put on top of the one before. *)
Theorem alignment_zero_overlaps : exists b', __alloc_bootmem_core 2 100 0 0 low16_one = Some (b', At 8192).
Proof. eexists. apply boot_ran. vm_compute. reflexivity. Qed.

(** With 32769 pages the bitmap takes two pages, and one is what the code gives up. *)
Theorem bitmap_page_lost : let b := fst (init_bootmem_core 1 0 32769 bdata) in
  nr_low b = 32769 /\ bootmem_bootmap_pages 32769 = 2 /\ (32769 / 8 + PAGE_SIZE - 1) / PAGE_SIZE = 1.
Proof. vm_compute. done. Qed.

(** A node from page 1 on, with no free page: an allocation at a multiple of two pages
    scans the bitmap for ever, where one of a page returns NULL. *)
Definition odd_node : bootmem_data := fst (init_bootmem_core 1 1 16 bdata).

Theorem unaligned_node_scans_forever : boot_held [] odd_node /\
  (forall turns, (2 <= turns)%nat -> __alloc_bootmem_core turns 100 8192 0 odd_node = Some (odd_node, Scanning)) /\
  __alloc_bootmem_core 2 100 4096 0 odd_node = Some (odd_node, Null).
Proof.
  assert (H : boot_held [] odd_node) by (apply (bh_init 1 1 16 bdata); [done|lia|lia]). split; [exact H|]. split; [|vm_compute; reflexivity].
  destruct (boot_alloc_ok [] odd_node 100 13 0 (boot_held_ok _ _ H) ltac:(unfold PAGE_SIZE; lia) ltac:(lia)) as (b' & r & E & _).
  intros turns Ht. change 8192 with (2 ^ 13). rewrite (E turns Ht), <- (E 2%nat (le_n 2)). vm_compute. reflexivity.
Qed.
