(* ===== verification/Msg.v ===== *)
(** * System V messages (ipc/msg.c)

    Queues are numbers with a store, [msg_queues]; a message is a value, held by one queue,
    one sleeping sender or one receiver at a time; [msg_blocks] counts the blocks of memory
    that hold messages.  The [msg_sender] and [msg_receiver] on the stack of a sleeping task,
    with the arguments of its call, are found by the task; [s_queue] and [r_queue] are the
    queue whose list the structure is linked into.  A call that sleeps ends with [Sleeping];
    [msgsnd_resume] and [msgrcv_resume] go on from there, [signalled] being signal_pending.
    User memory is a function from offsets to bytes, [None] where it cannot be read. *)
From stdpp Require Import base list functions.
From S2P Require Import Prelude PidHash Bitmap Sched SchedCalls Proc User Cred Ipc SigCalls Sem.

Definition ENOMSG : Z := 42.
Definition CAP_SYS_RESOURCE : Z := 24.
Definition MSG_STAT : Z := 11.
Definition MSG_INFO : Z := 12.
Definition MSG_NOERROR : Z := 4096.
Definition MSG_EXCEPT : Z := 8192.
Definition MSGMNI : Z := 16.
Definition MSGMAX : Z := 8192.
Definition MSGMNB : Z := 16384.
Definition MSGPOOL : Z := MSGMNI * MSGMNB ÷ 1024.
Definition MSGTQL : Z := MSGMNB.
Definition MSGMAP : Z := MSGMNB.
Definition MSGSSZ : Z := 16.
Definition MSGSEG : Z := Z.min (MSGPOOL * 1024 ÷ MSGSSZ) 65535.
(** A page without the header of a message, or of a segment. *)
Definition DATALEN_MSG : Z := 4096 - 20.
Definition DATALEN_SEG : Z := 4096 - 4.

Record msg_msg := MsgMsg { m_type : Z; m_ts : Z; m_first : list Z; m_segs : list (list Z) }.
#[export] Instance eta_msg_msg : Eta msg_msg := fun m => MsgMsg (m_type m) (m_ts m) (m_first m) (m_segs m).

Inductive search := SEARCH_ANY | SEARCH_EQUAL | SEARCH_NOTEQUAL | SEARCH_LESSEQUAL.
#[export] Instance search_eq_dec : EqDecision search.
Proof. solve_decision. Defined.

(** [r_msg] is a message or an error; then the arguments of the call. *)
Record msg_receiver := MsgReceiver {
  r_mode : search; r_msgtype : Z; r_maxsize : Z; r_msg : msg_msg + Z;
  r_queue : Z; r_msqid : Z; r_msgsz : Z; r_msgflg : Z
}.
#[export] Instance eta_msg_receiver : Eta msg_receiver := fun r =>
  MsgReceiver (r_mode r) (r_msgtype r) (r_maxsize r) (r_msg r) (r_queue r) (r_msqid r) (r_msgsz r) (r_msgflg r).

(** [s_linked] says that [list.next] is not NULL, [s_woken] that the task was woken. *)
Record msg_sender := MsgSender { s_linked : bool; s_woken : bool; s_queue : Z; s_msg : msg_msg; s_msqid : Z; s_msgflg : Z }.
#[export] Instance eta_msg_sender : Eta msg_sender := fun x =>
  MsgSender (s_linked x) (s_woken x) (s_queue x) (s_msg x) (s_msqid x) (s_msgflg x).

Record msg_queue := MsgQueue {
  q_perm : kern_ipc_perm;
  q_stime : Z; q_rtime : Z; q_ctime : Z;
  q_cbytes : Z; q_qnum : Z; q_qbytes : Z;
  q_lspid : Z; q_lrpid : Z;
  q_messages : list msg_msg;
  q_receivers : list tid;
  q_senders : list tid
}.
#[export] Instance eta_msg_queue : Eta msg_queue := fun q =>
  MsgQueue (q_perm q) (q_stime q) (q_rtime q) (q_ctime q) (q_cbytes q) (q_qnum q) (q_qbytes q) (q_lspid q) (q_lrpid q)
    (q_messages q) (q_receivers q) (q_senders q).

(** Where a task is in a call. *)
Inductive phase := Running | Sending | Receiving.

Record msgs := Msgs {
  msg_ids : ipc_ids;
  msg_queues : Z -> msg_queue;
  senders : tid -> msg_sender;
  receivers : tid -> msg_receiver;
  phases : tid -> phase;
  msg_bytes : Z;
  msg_hdrs : Z;
  msg_blocks : Z;
  msg_ctlmax : Z;
  msg_ctlmnb : Z;
  msg_ctlmni : Z;
  m_cred : ck;
  m_sched : sched;
  m_now : Z
}.
#[export] Instance eta_msgs : Eta msgs := fun s =>
  Msgs (msg_ids s) (msg_queues s) (senders s) (receivers s) (phases s) (msg_bytes s) (msg_hdrs s) (msg_blocks s)
    (msg_ctlmax s) (msg_ctlmnb s) (msg_ctlmni s) (m_cred s) (m_sched s) (m_now s).

Definition self (s : msgs) : tid := ccur (m_cred s).
Definition set_msq (p : Z) (f : msg_queue -> msg_queue) (s : msgs) : msgs := s <| msg_queues ::= alter f p |>.
Definition set_sender (t : tid) (f : msg_sender -> msg_sender) (s : msgs) : msgs := s <| senders ::= alter f t |>.
Definition set_receiver (t : tid) (f : msg_receiver -> msg_receiver) (s : msgs) : msgs := s <| receivers ::= alter f t |>.
Definition set_phase (t : tid) (x : phase) (s : msgs) : msgs := s <| phases ::= <[t := x]> |>.
Definition wake_task (t : tid) (s : msgs) : msgs := s <| m_sched ::= fun sc => fst (wake_up_process t sc) |>.
Definition interruptible (t : tid) (s : msgs) : msgs :=
  s <| m_sched ::= set_task t (fun x => x <| t_state := TASK_INTERRUPTIBLE |>) |>.
Definition awake (t : tid) (s : msgs) : msgs :=
  (set_phase t Running s) <| m_sched ::= set_task t (fun x => x <| t_state := TASK_RUNNING |>) |>.
Definition msg_perms (p flag : Z) (s : msgs) : msgs * bool :=
  let '(c, refused) := ipcperms (q_perm (msg_queues s p)) flag (m_cred s) in (s <| m_cred := c |>, refused).
Definition msg_lock (id : Z) (s : msgs) : option Z := ipc_lock (msg_ids s) id.
Definition msg_checkid (p msqid : Z) (s : msgs) : bool := ipc_checkid (q_perm (msg_queues s p)) msqid.

Definition msg_init (alloc : bool) (s : msgs) : msgs := s <| msg_ids := ipc_init_ids (msg_ctlmni s) alloc |>.

(** [new] is the result of kmalloc for the queue, [grow] that for a larger array of
    identifiers. *)
Definition newque (key msgflg : Z) (new : option Z) (grow : bool) (s : msgs) : msgs * Z :=
  match new with
  | None => (s, - ENOMEM)
  | Some p =>
      let '(ids, id, seq) := ipc_addid (msg_ids s) p (msg_ctlmni s) grow in
      if id =? -1 then (s <| msg_ids := ids |>, - ENOSPC)
      else
        let perm := (owned_by (me (m_cred s)) seq (KernIpcPerm 0 0 0 0 0 0 0))
                      <| ip_mode := Z.land msgflg S_IRWXUGO |> <| ip_key := key |> in
        let q := MsgQueue perm 0 0 (m_now s) 0 0 (u32 (msg_ctlmnb s)) 0 0 [] [] [] in
        (s <| msg_ids := ids |> <| msg_queues ::= <[p := q]> |>, ipc_buildid id seq)
  end.

(** ** The text of a message *)

Definition free_msg (m : msg_msg) (s : msgs) : msgs :=
  s <| msg_blocks ::= fun n => n - (1 + Z.of_nat (length (m_segs m))) |>.

Definition copy_from_user (usr : Z -> option Z) (off n : Z) : option (list Z) := mapM usr (seqZ off n).

(** The [while] loop, with the number of the next allocation: the segments that were linked,
    and an error or 0. *)
Fixpoint load_segs (fuel : nat) (usr : Z -> option Z) (alloc : nat -> bool) (k : nat) (off len : Z) (s : msgs)
  : msgs * list (list Z) * Z :=
  match fuel with
  | O => (s, [], 0)
  | S fuel =>
      if 0 <? len then
        let alen := if DATALEN_SEG <? len then DATALEN_SEG else len in
        if negb (alloc k) then (s, [], - ENOMEM)
        else
          let s1 := s <| msg_blocks ::= Z.succ |> in
          match copy_from_user usr off alen with
          | None => (s1, [[]], - EFAULT)
          | Some d =>
              let '(s2, segs, err) := load_segs fuel usr alloc (S k) (off + alen) (len - alen) s1 in (s2, d :: segs, err)
          end
      else (s, [], 0)
  end.

Definition load_msg (usr : Z -> option Z) (alloc : nat -> bool) (len : Z) (s : msgs) : msgs * (msg_msg + Z) :=
  let alen := if DATALEN_MSG <? len then DATALEN_MSG else len in
  if negb (alloc 0%nat) then (s, inr (- ENOMEM))
  else
    let s1 := s <| msg_blocks ::= Z.succ |> in
    match copy_from_user usr 0 alen with
    | None => (free_msg (MsgMsg 0 0 [] []) s1, inr (- EFAULT))
    | Some d =>
        let '(s2, segs, err) := load_segs (Z.to_nat len) usr alloc 1 alen (len - alen) s1 in
        let m := MsgMsg 0 0 d segs in
        if err =? 0 then (s2, inl m) else (free_msg m s2, inr err)
    end.

(** [Some (Some bytes)]: the bytes stored; [Some None]: a store faults; [None]: the text
    is not that long. *)
Definition copy_to_user (wr : Z -> bool) (off n : Z) (d : list Z) : option (option (list Z)) :=
  if Z.of_nat (length d) <? n then None
  else Some (if forallb wr (seqZ off n) then Some (take (Z.to_nat n) d) else None).

Fixpoint store_segs (wr : Z -> bool) (off len : Z) (segs : list (list Z)) : option (option (list Z)) :=
  if 0 <? len then
    match segs with
    | [] => None
    | d :: segs =>
        let alen := if DATALEN_SEG <? len then DATALEN_SEG else len in
        r ← copy_to_user wr off alen d;
        match r with
        | None => Some None
        | Some b => r2 ← store_segs wr (off + alen) (len - alen) segs; Some (option_map (app b) r2)
        end
    end
  else Some (Some []).

Definition store_msg (wr : Z -> bool) (m : msg_msg) (len : Z) : option (option (list Z)) :=
  let alen := if DATALEN_MSG <? len then DATALEN_MSG else len in
  r ← copy_to_user wr 0 alen (m_first m);
  match r with
  | None => Some None
  | Some b => r2 ← store_segs wr alen (len - alen) (m_segs m); Some (option_map (app b) r2)
  end.

(** ** Sleeping and waking *)

Definition ss_add (p : Z) (x : msg_sender) (s : msgs) : msgs :=
  let t := self s in
  set_msq p (fun q => q <| q_senders ::= fun l => l ++ [t] |>)
    ((interruptible t s) <| senders ::= <[t := x <| s_linked := true |> <| s_woken := false |> <| s_queue := p |>]> |>).

Definition ss_del (t : tid) (s : msgs) : msgs :=
  if s_linked (senders s t) then set_msq (s_queue (senders s t)) (fun q => q <| q_senders ::= filter (fun u => u <> t) |>) s
  else s.

Definition ss_wakeup (p : Z) (kill : bool) (s : msgs) : msgs :=
  fold_left (fun s t =>
    let s1 := if kill then set_sender t (fun x => x <| s_linked := false |>) s else s in
    wake_task t (set_sender t (fun x => x <| s_woken := true |>) s1)) (q_senders (msg_queues s p)) s.

Definition expunge_all (p res : Z) (s : msgs) : msgs :=
  fold_left (fun s t => wake_task t (set_receiver t (fun r => r <| r_msg := inr res |>) s)) (q_receivers (msg_queues s p)) s.

(** [None] is a [BUG()] of [ipc_rmid]. *)
Definition freeque (id : Z) (s : msgs) : option msgs :=
  r ← ipc_rmid (msg_ids s) id;
  let '(ids, p) := r in
  let s1 := ss_wakeup p true (expunge_all p (- EIDRM) (s <| msg_ids := ids |>)) in
  let q := msg_queues s1 p in
  let s2 := fold_left (fun s m => free_msg m (s <| msg_hdrs ::= fun n => s32 (n - 1) |>)) (q_messages q) s1 in
  Some (s2 <| msg_bytes ::= fun n => s32 (n - q_cbytes q) |>).

(** [None] is [BUG()]. *)
Definition sys_msgget (key msgflg : Z) (new : option Z) (grow : bool) (s : msgs) : option (msgs * Z) :=
  if key =? IPC_PRIVATE then Some (newque key msgflg new grow s)
  else
    let id := ipc_findkey (fun p => ip_key (q_perm (msg_queues s p))) (msg_ids s) key in
    if id =? -1 then Some (if has msgflg IPC_CREAT then newque key msgflg new grow s else (s, - ENOENT))
    else if has msgflg IPC_CREAT && has msgflg IPC_EXCL then Some (s, - EEXIST)
    else
      p ← msg_lock id s;
      let '(s1, refused) := msg_perms p msgflg s in
      Some (s1, if refused then - EACCES else ipc_buildid id (ip_seq (q_perm (msg_queues s p)))).

(** ** msgctl *)

(** What a call stores in user space: the fields of msqid64_ds, or of msqid_ds with its
    longer copies of the counts. *)
Inductive msgctl_out :=
  | MsgNoOut
  | MsgOutInfo (msginfo : list Z)
  | MsgOutStat (perm : kern_ipc_perm) (stime rtime ctime cbytes qnum qbytes lspid lrpid : Z) (long : option (Z * Z)).

(** What IPC_SET reads; [b_lqbytes] exists in the old structure only. *)
Record msqid_buf := MsqidBuf { b_qbytes : Z; b_lqbytes : Z; b_uid : Z; b_gid : Z; b_mode : Z }.
(** The buffer: whether it is NULL, what can be read from it, whether stores fault. *)
Record msgctl_arg := MsgctlArg { b_null : bool; b_read : option msqid_buf; b_fault : bool }.

Section msgctl.
Context (overflowuid overflowgid : Z).

Definition cap_ushort (x : Z) : Z := if USHRT_MAX <? x then USHRT_MAX else x.
Definition copy_msqid_to_user (q : msg_queue) (version : Z) : msgctl_out :=
  let perm := kernel_to_ipc64_perm (q_perm q) in
  if version =? IPC_64 then
    MsgOutStat perm (q_stime q) (q_rtime q) (q_ctime q) (q_cbytes q) (q_qnum q) (q_qbytes q) (q_lspid q) (q_lrpid q) None
  else
    MsgOutStat (ipc64_perm_to_ipc_perm overflowuid overflowgid perm) (q_stime q) (q_rtime q) (q_ctime q)
      (cap_ushort (q_cbytes q)) (cap_ushort (q_qnum q)) (cap_ushort (q_qbytes q))
      (q_lspid q `mod` 65536) (q_lrpid q `mod` 65536) (Some (q_cbytes q, q_qbytes q)).

Definition copy_msqid_from_user (b : msqid_buf) (version : Z) : Z * Z * Z * Z :=
  (if version =? IPC_64 then b_qbytes b else if b_qbytes b =? 0 then b_lqbytes b else b_qbytes b, b_uid b, b_gid b, b_mode b).

Definition msgctl_info (cmd : Z) (arg : msgctl_arg) (s : msgs) : Z * msgctl_out :=
  if b_null arg then (- EFAULT, MsgNoOut)
  else
    let '(pool, map, tql) := if cmd =? MSG_INFO then (in_use (msg_ids s), msg_hdrs s, msg_bytes s) else (MSGPOOL, MSGMAP, MSGTQL) in
    if b_fault arg then (- EFAULT, MsgNoOut)
    else (if max_id (msg_ids s) <? 0 then 0 else max_id (msg_ids s),
          MsgOutInfo [pool; map; msg_ctlmax s; msg_ctlmnb s; msg_ctlmni s; MSGSSZ; tql; MSGSEG]).

Definition msgctl_stat (msqid cmd version : Z) (arg : msgctl_arg) (s : msgs) : msgs * Z * msgctl_out :=
  if b_null arg then (s, - EFAULT, MsgNoOut)
  else if (cmd =? MSG_STAT) && (ids_size (msg_ids s) <=? msqid) then (s, - EINVAL, MsgNoOut)
  else match msg_lock msqid s with
  | None => (s, - EINVAL, MsgNoOut)
  | Some p =>
      if negb (cmd =? MSG_STAT) && msg_checkid p msqid s then (s, - EIDRM, MsgNoOut)
      else
        let success := if cmd =? MSG_STAT then ipc_buildid msqid (ip_seq (q_perm (msg_queues s p))) else 0 in
        let '(s1, refused) := msg_perms p S_IRUGO s in
        if refused then (s1, - EACCES, MsgNoOut)
        else if b_fault arg then (s1, - EFAULT, MsgNoOut)
        else (s1, success, copy_msqid_to_user (msg_queues s1 p) version)
  end.

(** The queue of [msqid] for IPC_SET and IPC_RMID, or an error. *)
Definition msgctl_owner (msqid : Z) (s : msgs) : msgs * (Z + Z) :=
  match msg_lock msqid s with
  | None => (s, inr (- EINVAL))
  | Some p =>
      if msg_checkid p msqid s then (s, inr (- EIDRM))
      else
        let perm := q_perm (msg_queues s p) in
        let e := c_euid (me (m_cred s)) in
        let '(c, refused) := lacks (negb (e =? ip_cuid perm) && negb (e =? ip_uid perm)) CAP_SYS_ADMIN (m_cred s) in
        (s <| m_cred := c |>, if refused then inr (- EPERM) else inl p)
  end.

Definition msgctl_set (p : Z) (setbuf : Z * Z * Z * Z) (s : msgs) : msgs * Z :=
  let '(qbytes, uid, gid, mode) := setbuf in
  let '(c, refused) := lacks (u32 (msg_ctlmnb s) <? qbytes) CAP_SYS_RESOURCE (m_cred s) in
  let s1 := s <| m_cred := c |> in
  if refused then (s1, - EPERM)
  else
    let s2 := set_msq p (fun q => q <| q_qbytes := qbytes |>
                <| q_perm ::= fun perm => perm <| ip_uid := uid |> <| ip_gid := gid |>
                     <| ip_mode ::= fun m => Z.lor (Z.land m (Z.lnot S_IRWXUGO)) (Z.land S_IRWXUGO mode) |> |>
                <| q_ctime := m_now s |>) s1 in
    (ss_wakeup p false (expunge_all p (- EAGAIN) s2), 0).

(** [None] is [BUG()]. *)
Definition sys_msgctl (msqid cmd : Z) (arg : msgctl_arg) (s : msgs) : option (msgs * Z * msgctl_out) :=
  if (msqid <? 0) || (cmd <? 0) then Some (s, - EINVAL, MsgNoOut)
  else
    let '(cmd, version) := ipc_parse_version cmd in
    if (cmd =? IPC_INFO) || (cmd =? MSG_INFO) then let '(r, out) := msgctl_info cmd arg s in Some (s, r, out)
    else if (cmd =? MSG_STAT) || (cmd =? IPC_STAT) then Some (msgctl_stat msqid cmd version arg s)
    else if cmd =? IPC_SET then
      match b_read arg with
      | None => Some (s, - EFAULT, MsgNoOut)
      | Some b =>
          if b_null arg then Some (s, - EFAULT, MsgNoOut)
          else match msgctl_owner msqid s with
          | (s1, inr e) => Some (s1, e, MsgNoOut)
          | (s1, inl p) => Some (msgctl_set p (copy_msqid_from_user b version) s1, MsgNoOut)
          end
      end
    else if cmd =? IPC_RMID then
      match msgctl_owner msqid s with
      | (s1, inr e) => Some (s1, e, MsgNoOut)
      | (s1, inl p) => s2 ← freeque msqid s1; Some (s2, 0, MsgNoOut)
      end
    else Some (s, - EINVAL, MsgNoOut).
End msgctl.

(** ** msgsnd *)

Definition testmsg (m : msg_msg) (type : Z) (mode : search) : bool :=
  match mode with
  | SEARCH_ANY => true
  | SEARCH_LESSEQUAL => m_type m <=? type
  | SEARCH_EQUAL => m_type m =? type
  | SEARCH_NOTEQUAL => negb (m_type m =? type)
  end.

(** The loop over the receivers from [l] on. *)
Fixpoint pipelined (p : Z) (m : msg_msg) (l : list tid) (s : msgs) : msgs * bool :=
  match l with
  | [] => (s, false)
  | t :: l =>
      let r := receivers s t in
      if testmsg m (r_msgtype r) (r_mode r) then
        let s1 := set_msq p (fun q => q <| q_receivers ::= filter (fun u => u <> t) |>) s in
        if r_maxsize r <? m_ts m then
          pipelined p m l (wake_task t (set_receiver t (fun r => r <| r_msg := inr (- E2BIG) |>) s1))
        else
          let s2 := set_receiver t (fun r => r <| r_msg := inl m |>) s1 in
          (wake_task t (set_msq p (fun q => q <| q_lrpid := c_pid (ctab (m_cred s) t) |> <| q_rtime := m_now s |>) s2), true)
      else pipelined p m l s
  end.
Definition pipelined_send (p : Z) (m : msg_msg) (s : msgs) : msgs * bool := pipelined p m (q_receivers (msg_queues s p)) s.

(** The call returns, or the task sleeps. *)
Inductive snd_end := Sent (result : Z) | SndSleeps.

Definition would_block (q : msg_queue) (msgsz : Z) : bool :=
  (q_qbytes q <? u32 (msgsz + q_cbytes q)) || (q_qbytes q <? u32 (1 + q_qnum q)).

Definition enqueue_msg (p : Z) (m : msg_msg) (s : msgs) : msgs :=
  (set_msq p (fun q => q <| q_messages ::= fun l => l ++ [m] |> <| q_cbytes ::= fun n => u32 (n + m_ts m) |>
                        <| q_qnum ::= fun n => u32 (n + 1) |>) s)
    <| msg_bytes ::= fun n => s32 (n + m_ts m) |> <| msg_hdrs ::= fun n => s32 (n + 1) |>.

(** From [retry] on. *)
Definition msgsnd_try (p msqid : Z) (m : msg_msg) (msgflg : Z) (s : msgs) : msgs * snd_end :=
  if msg_checkid p msqid s then (free_msg m s, Sent (- EIDRM))
  else
    let '(s, refused) := msg_perms p S_IWUGO s in
    if refused then (free_msg m s, Sent (- EACCES))
    else if would_block (msg_queues s p) (m_ts m) then
      if has msgflg IPC_NOWAIT then (free_msg m s, Sent (- EAGAIN))
      else (set_phase (self s) Sending (ss_add p (MsgSender false false 0 m msqid msgflg) s), SndSleeps)
    else
      let s1 := set_msq p (fun q => q <| q_lspid := c_pid (me (m_cred s)) |> <| q_stime := m_now s |>) s in
      let '(s2, sent) := pipelined_send p m s1 in
      (if sent then s2 else enqueue_msg p m s2, Sent 0).

(** [mtype] is what get_user reads. *)
Definition sys_msgsnd (msqid : Z) (mtype : option Z) (usr : Z -> option Z) (alloc : nat -> bool) (msgsz msgflg : Z) (s : msgs)
  : msgs * snd_end :=
  if (u32 (msg_ctlmax s) <? msgsz) || (s32 msgsz <? 0) || (msqid <? 0) then (s, Sent (- EINVAL))
  else match mtype with
  | None => (s, Sent (- EFAULT))
  | Some mtype =>
      if mtype <? 1 then (s, Sent (- EINVAL))
      else match load_msg usr alloc msgsz s with
      | (s1, inr err) => (s1, Sent err)
      | (s1, inl m) =>
          let m := m <| m_type := mtype |> <| m_ts := msgsz |> in
          match msg_lock msqid s1 with
          | None => (free_msg m s1, Sent (- EINVAL))
          | Some p => msgsnd_try p msqid m msgflg s1
          end
      end
  end.

(** After [schedule]. *)
Definition msgsnd_resume (signalled : bool) (s : msgs) : msgs * snd_end :=
  let t := self s in
  let x := senders s t in
  let s := awake t s in
  match msg_lock (s_msqid x) s with
  | None => (free_msg (s_msg x) s, Sent (- EIDRM))
  | Some p =>
      let s1 := ss_del t s in
      if signalled then (free_msg (s_msg x) s1, Sent (- EINTR))
      else msgsnd_try p (s_msqid x) (s_msg x) (s_msgflg x) s1
  end.

(** ** msgrcv *)

(** The type to look for, and how. *)
Definition convert_mode (msgtyp msgflg : Z) : Z * search :=
  if msgtyp =? 0 then (msgtyp, SEARCH_ANY)
  else if msgtyp <? 0 then (s32 (- msgtyp), SEARCH_LESSEQUAL)
  else if has msgflg MSG_EXCEPT then (msgtyp, SEARCH_NOTEQUAL)
  else (msgtyp, SEARCH_EQUAL).

(** The loop from the [i]-th message on. *)
Fixpoint find_msg (msgtyp : Z) (mode : search) (i : nat) (found : option nat) (l : list msg_msg) : option nat :=
  match l with
  | [] => found
  | m :: l =>
      if testmsg m msgtyp mode then
        if bool_decide (mode = SEARCH_LESSEQUAL) && negb (m_type m =? 1) then find_msg (m_type m - 1) mode (S i) (Some i) l
        else Some i
      else find_msg msgtyp mode (S i) found l
  end.

(** The call returns with what it stores in user space, or the task sleeps. *)
Inductive rcv_end := Received (result : Z) (out : option (Z * list Z)) | RcvSleeps.

Section msgrcv.
(** Whether the type can be stored, and the bytes of the text. *)
Context (put_type : bool) (wr : Z -> bool).

(** From [out_success] on; [None]: the text is shorter than the size of the message says. *)
Definition out_success (m : msg_msg) (msgsz : Z) (s : msgs) : option (msgs * rcv_end) :=
  let msgsz := if m_ts m <? msgsz then m_ts m else msgsz in
  if negb put_type then Some (free_msg m s, Received (- EFAULT) None)
  else
    r ← store_msg wr m msgsz;
    Some (free_msg m s, match r with
                        | None => Received (- EFAULT) None
                        | Some b => Received msgsz (Some (m_type m, b))
                        end).

(** The message [m] at the place [i] leaves the queue. *)
Definition take_msg (p : Z) (i : nat) (m : msg_msg) (s : msgs) : msgs :=
  let s1 := set_msq p (fun q => q <| q_messages ::= delete i |> <| q_qnum ::= fun n => u32 (n - 1) |> <| q_rtime := m_now s |>
                        <| q_lrpid := c_pid (me (m_cred s)) |> <| q_cbytes ::= fun n => u32 (n - m_ts m) |>) s in
  ss_wakeup p false (s1 <| msg_bytes ::= fun n => s32 (n - m_ts m) |> <| msg_hdrs ::= fun n => s32 (n - 1) |>).

(** From [retry] on. *)
Definition msgrcv_try (p msqid msgsz msgtyp : Z) (mode : search) (msgflg : Z) (s : msgs) : option (msgs * rcv_end) :=
  if msg_checkid p msqid s then Some (s, Received (- EIDRM) None)
  else
    let '(s, refused) := msg_perms p S_IRUGO s in
    if refused then Some (s, Received (- EACCES) None)
    else
      let l := q_messages (msg_queues s p) in
      match (i ← find_msg msgtyp mode 0 None l; m ← l !! i; Some (i, m)) with
      | Some (i, m) =>
          if (msgsz <? m_ts m) && negb (has msgflg MSG_NOERROR) then Some (s, Received (- E2BIG) None)
          else out_success m msgsz (take_msg p i m s)
      | None =>
          if has msgflg IPC_NOWAIT then Some (s, Received (- ENOMSG) None)
          else
            let t := self s in
            let r := MsgReceiver mode msgtyp (if has msgflg MSG_NOERROR then INT_MAX else msgsz) (inr (- EAGAIN)) p msqid msgsz msgflg in
            Some (set_phase t Receiving (interruptible t
                    ((set_msq p (fun q => q <| q_receivers ::= fun l => l ++ [t] |>) s) <| receivers ::= <[t := r]> |>)), RcvSleeps)
      end.

Definition sys_msgrcv (msqid msgsz msgtyp msgflg : Z) (s : msgs) : option (msgs * rcv_end) :=
  if (msqid <? 0) || (s32 msgsz <? 0) then Some (s, Received (- EINVAL) None)
  else
    let '(msgtyp, mode) := convert_mode msgtyp msgflg in
    match msg_lock msqid s with
    | None => Some (s, Received (- EINVAL) None)
    | Some p => msgrcv_try p msqid msgsz msgtyp mode msgflg s
    end.

(** After [schedule]; [None] is [BUG()]. *)
Definition msgrcv_resume (signalled : bool) (s : msgs) : option (msgs * rcv_end) :=
  let t := self s in
  let r := receivers s t in
  let s := awake t s in
  match r_msg r with
  | inl m => out_success m (r_msgsz r) s
  | inr err =>
      if err =? - EAGAIN then
        match msg_lock (r_msqid r) s with
        | None => None
        | Some _ =>
            let s1 := set_msq (r_queue r) (fun q => q <| q_receivers ::= filter (fun u => u <> t) |>) s in
            if signalled then Some (s1, Received (- EINTR) None)
            else msgrcv_try (r_queue r) (r_msqid r) (r_msgsz r) (r_msgtype r) (r_mode r) (r_msgflg r) s1
        end
      else Some (s, Received err None)
  end.
End msgrcv.
