(* ===== verification/MsgInv.v ===== *)
(** * Messages: the text of a message, and the invariant of queues and sleepers

    [load_msg] cuts the text into a first part and segments, each in a block of memory of its
    own; [store_msg] puts it together again. *)
From stdpp Require Import base sets list functions.
From S2P Require Import Prelude PidHash Bitmap Sched SchedCalls Proc User Cred Ipc SigCalls Sem Msg IpcProofs.

Definition nblocks (m : msg_msg) : Z := 1 + Z.of_nat (length (m_segs m)).
Definition text (m : msg_msg) : list Z := m_first m ++ concat (m_segs m).

(** The segments of a text of [len] bytes. *)
Fixpoint cut (len : Z) (segs : list (list Z)) : Prop :=
  match segs with
  | [] => len <= 0
  | d :: segs => 0 < len /\ Z.of_nat (length d) = Z.min len DATALEN_SEG /\ cut (len - Z.min len DATALEN_SEG) segs
  end.
Record msg_ok (m : msg_msg) : Prop := MsgOk {
  mo_type : 1 <= m_type m;
  mo_size : 0 <= m_ts m < 2 ^ 31;
  mo_first : Z.of_nat (length (m_first m)) = Z.min (m_ts m) DATALEN_MSG;
  mo_segs : cut (m_ts m - Z.min (m_ts m) DATALEN_MSG) (m_segs m)
}.

Definition add_blocks (n : Z) (s : msgs) : msgs := s <| msg_blocks ::= fun k => k + n |>.
Lemma add_blocks_add a b s : add_blocks b (add_blocks a s) = add_blocks (a + b) s.
Proof. unfold add_blocks. simpl. f_equal; lia. Qed.
Lemma add_blocks_0 s : add_blocks 0 s = s.
Proof. unfold add_blocks. destruct s. simpl. f_equal; lia. Qed.
Lemma free_blocks m s : free_msg m s = add_blocks (- nblocks m) s.
Proof. unfold free_msg, add_blocks, nblocks. simpl. f_equal; lia. Qed.

Lemma if_min a b : (if b <? a then b else a) = Z.min a b.
Proof. destruct (Z.ltb_spec b a); lia. Qed.

Lemma seqZ_split off a b : 0 <= a -> 0 <= b -> seqZ off (a + b) = seqZ off a ++ seqZ (off + a) b.
Proof. intros. by apply seqZ_app. Qed.

(** ** Loading *)

Definition reads (usr : Z -> option Z) (off len : Z) (b : list Z) : Prop := copy_from_user usr off len = Some b.

Lemma reads_app usr off a b x y : 0 <= a -> 0 <= b -> reads usr off a x -> reads usr (off + a) b y -> reads usr off (a + b) (x ++ y).
Proof.
  intros Ha Hb H1 H2. unfold reads, copy_from_user in *. rewrite seqZ_split by done. apply mapM_Some in H1, H2. apply mapM_Some.
  by apply Forall2_app.
Qed.
Lemma reads_length usr off len b : 0 <= len -> reads usr off len b -> Z.of_nat (length b) = len.
Proof. intros Hl H. apply mapM_Some, Forall2_length in H. rewrite length_seqZ in H. lia. Qed.
Lemma readable usr off len : (forall i, off <= i < off + len -> usr i <> None) -> copy_from_user usr off len <> None.
Proof.
  intros H E. apply mapM_None in E. apply Exists_exists in E as (i & Hi%list_elem_of_In%elem_of_seqZ & En). by apply (H i).
Qed.

Definition load_error (e : Z) : Prop := e = - ENOMEM \/ e = - EFAULT.

Lemma load_segs_ok fuel usr alloc : forall k off len s, len <= Z.of_nat fuel ->
  let '(s', segs, err) := load_segs fuel usr alloc k off len s in
  s' = add_blocks (Z.of_nat (length segs)) s /\ (err = 0 /\ cut len segs /\ reads usr off (Z.max 0 len) (concat segs) \/ load_error err) /\
  ((forall i, alloc i = true) -> (forall i, off <= i < off + len -> usr i <> None) -> err = 0).
Proof.
  assert (Z0 : forall off len, len <= 0 -> reads usr off (Z.max 0 len) []).
  { intros off len Hl. unfold reads, copy_from_user. by rewrite Z.max_l. }
  induction fuel as [|fuel IH]; intros k off len s Hf; cbn [load_segs].
  - rewrite add_blocks_0. split; [done|]. split; [left|done]. split; [done|]. split; [simpl; lia|]. apply Z0. lia.
  - destruct (Z.ltb_spec 0 len) as [Hl|Hl]; [|rewrite add_blocks_0; split; [done|]; split; [left; split; [done|]; split; [done|by apply Z0]|done]].
    cbv zeta. rewrite if_min. set (a := Z.min len DATALEN_SEG). assert (Ha : 0 < a <= len) by (unfold a, DATALEN_SEG; lia).
    destruct (alloc k) eqn:Ea; cbn [negb]; [|rewrite add_blocks_0; split; [done|]; split; [right; by left|intros Hall; by rewrite Hall in Ea]].
    destruct (copy_from_user usr off a) as [d|] eqn:Ed.
    + specialize (IH (S k) (off + a) (len - a) (s <| msg_blocks ::= Z.succ |>) ltac:(lia)).
      destruct (load_segs fuel usr alloc (S k) (off + a) (len - a) _) as [[s2 segs] err]. destruct IH as (-> & IH2 & IH3).
      split; [unfold add_blocks; simpl; f_equal; lia|]. split; [|intros Hall Hr; apply IH3; [done|intros i Hi; apply Hr; lia]].
      destruct IH2 as [(E & Hc & Hr)|He]; [left|by right]. split; [done|]. split.
      * simpl. split; [done|]. split; [by apply (reads_length usr off); [lia|]|done].
      * rewrite Z.max_r in Hr |- * by lia. replace len with (a + (len - a)) by lia. simpl. apply reads_app; [lia|lia|done|done].
    + split; [done|]. split; [right; by right|]. intros _ Hr. exfalso. apply (readable usr off a); [|done]. intros i Hi. apply Hr. lia.
Qed.

Lemma load_msg_ok usr alloc len s : 0 <= len < 2 ^ 31 ->
  match load_msg usr alloc len s with
  | (s', inl m) => s' = add_blocks (nblocks m) s /\ (forall ty, 1 <= ty -> msg_ok (m <| m_type := ty |> <| m_ts := len |>)) /\ reads usr 0 len (text m)
  | (s', inr e) => s' = s /\ load_error e /\ ~ ((forall i, alloc i = true) /\ forall i, 0 <= i < len -> usr i <> None)
  end.
Proof.
  intros Hl. unfold load_msg. cbv zeta. rewrite if_min. set (a := Z.min len DATALEN_MSG). assert (Ha : 0 <= a <= len) by (unfold a, DATALEN_MSG; lia).
  destruct (alloc 0%nat) eqn:E0; cbn [negb]; [|split; [done|]; split; [by left|intros [Hall _]; by rewrite Hall in E0]].
  destruct (copy_from_user usr 0 a) as [d|] eqn:Ed.
  2:{ split; [rewrite free_blocks; unfold add_blocks, nblocks; destruct s; simpl; f_equal; lia|]. split; [by right|].
      intros [_ Hr]. apply (readable usr 0 a); [|done]. intros i Hi. apply Hr. lia. }
  pose proof (load_segs_ok (Z.to_nat len) usr alloc 1 a (len - a) (s <| msg_blocks ::= Z.succ |>) ltac:(lia)) as H.
  destruct (load_segs _ _ _ _ _ _ _) as [[s2 segs] err]. destruct H as (-> & H2 & H3). destruct (Z.eqb_spec err 0) as [E|E].
  - split; [unfold add_blocks, nblocks; simpl; f_equal; lia|]. destruct H2 as [(_ & Hc & Hr)|[He|He]]; [|by rewrite He in E|by rewrite He in E].
    split; [intros ty Hty; split; simpl; [done|done|by apply (reads_length usr 0); [lia|]|done]|]. rewrite Z.max_r in Hr by lia.
    replace len with (a + (len - a)) by lia. apply reads_app; [lia|lia|done|done].
  - split; [rewrite free_blocks; unfold add_blocks, nblocks; destruct s; simpl; f_equal; lia|]. split; [by destruct H2 as [(? & _)|?]|].
    intros [Hall Hr]. apply E, H3; [done|]. intros i Hi. apply Hr. lia.
Qed.

(** ** Storing *)

Lemma copy_to_ok wr off n d : 0 <= n <= Z.of_nat (length d) ->
  copy_to_user wr off n d = Some (if forallb wr (seqZ off n) then Some (take (Z.to_nat n) d) else None).
Proof. intros H. unfold copy_to_user. by destruct (Z.ltb_spec (Z.of_nat (length d)) n); [lia|]. Qed.

(** What is stored of a text. *)
Definition stored (wr : Z -> bool) (off n : Z) (b : list Z) : option (list Z) :=
  if forallb wr (seqZ off n) then Some (take (Z.to_nat n) b) else None.

Lemma stored_app wr off a n x y : 0 <= a -> 0 <= n -> Z.of_nat (length x) = a ->
  stored wr off (a + n) (x ++ y) = match stored wr off a x with None => None | Some b => option_map (app b) (stored wr (off + a) n y) end.
Proof.
  intros Ha Hn Hx. unfold stored. rewrite seqZ_split, forallb_app by done. destruct (forallb wr (seqZ off a)); [|done]. cbn [andb].
  destruct (forallb wr (seqZ (off + a) n)); [|done]. simpl. f_equal. rewrite Z2Nat.inj_add by lia. rewrite <- Hx, Nat2Z.id.
  rewrite take_app_add, (take_ge x) by lia. done.
Qed.

Lemma store_segs_ok wr segs : forall off len n, cut len segs -> 0 <= n -> n <= Z.max 0 len ->
  store_segs wr off n segs = Some (stored wr off n (concat segs)).
Proof.
  assert (Z0 : forall off n b, n <= 0 -> stored wr off n b = Some []).
  { intros off n b Hn. unfold stored. rewrite (seqZ_nil off n) by lia. by replace (Z.to_nat n) with 0%nat by lia. }
  induction segs as [|d segs IH]; intros off len n Hc Hn Hm; cbn [store_segs].
  - simpl in Hc. destruct (Z.ltb_spec 0 n); [lia|]. rewrite Z0 by lia. done.
  - destruct Hc as (Hl & Hd & Hc). destruct (Z.ltb_spec 0 n); [|by rewrite Z0]. cbv zeta. rewrite if_min. set (a := Z.min n DATALEN_SEG).
    assert (0 < a <= n) by (unfold a, DATALEN_SEG; lia). rewrite copy_to_ok by lia. cbn [mbind option_bind]. fold (stored wr off a d).
    destruct (decide (n <= DATALEN_SEG)) as [Hs|Hs].
    + assert (a = n) as -> by lia. assert (E : stored wr off n (concat (d :: segs)) = stored wr off n d).
      { unfold stored. simpl. rewrite take_app_le by lia. done. }
      rewrite E. destruct (stored wr off n d) as [b|]; [|done].
      assert (E2 : store_segs wr (off + n) (n - n) segs = Some (Some [])) by (rewrite Z.sub_diag; by destruct segs).
      rewrite E2. simpl. by rewrite app_nil_r.
    + assert (Ea : Z.of_nat (length d) = a) by lia.
      rewrite (IH (off + a) (len - Z.min len DATALEN_SEG) (n - a)) by (done || lia). cbn [mbind option_bind].
      cbn [concat].
      assert (E : stored wr off n (d ++ concat segs) = stored wr off (a + (n - a)) (d ++ concat segs)) by (f_equal; lia).
      rewrite E, (stored_app wr off a (n - a)) by (done || lia). by destruct (stored wr off a d).
Qed.

Lemma store_msg_ok wr m n : msg_ok m -> 0 <= n <= m_ts m -> store_msg wr m n = Some (stored wr 0 n (text m)).
Proof.
  intros [_ [M1 _] M2 M3] Hn. unfold store_msg. cbv zeta. rewrite if_min. set (a := Z.min n DATALEN_MSG).
  assert (0 <= a <= n) by (unfold a, DATALEN_MSG; lia). rewrite copy_to_ok by lia. cbn [mbind option_bind]. fold (stored wr 0 a (m_first m)).
  unfold text. destruct (decide (n <= DATALEN_MSG)) as [Hs|Hs].
  - assert (a = n) as -> by lia. assert (E : stored wr 0 n (m_first m ++ concat (m_segs m)) = stored wr 0 n (m_first m)).
    { unfold stored. rewrite take_app_le by lia. done. }
    rewrite E. destruct (stored wr 0 n (m_first m)) as [b|]; [|done].
    assert (E2 : store_segs wr n (n - n) (m_segs m) = Some (Some [])) by (rewrite Z.sub_diag; by destruct (m_segs m)).
    rewrite E2. simpl. by rewrite app_nil_r.
  - assert (Ea : Z.of_nat (length (m_first m)) = a) by lia.
    rewrite (store_segs_ok wr (m_segs m) a (m_ts m - Z.min (m_ts m) DATALEN_MSG) (n - a)) by (done || lia). cbn [mbind option_bind].
    
    assert (E : stored wr 0 n (m_first m ++ concat (m_segs m)) = stored wr 0 (a + (n - a)) (m_first m ++ concat (m_segs m))) by (f_equal; lia).
    rewrite E, (stored_app wr 0 a (n - a)) by (done || lia). by destruct (stored wr 0 a (m_first m)).
Qed.

(** * The invariant of queues and sleepers *)

Definition qlive (s : msgs) (p : Z) : Prop := exists k, entries (msg_ids s) !! k = Some (Some p).
Definition text_bytes (q : msg_queue) : Z := sumZ m_ts (q_messages q).
Definition text_count (q : msg_queue) : Z := Z.of_nat (length (q_messages q)).
Definition text_blocks (q : msg_queue) : Z := sumZ nblocks (q_messages q).
Definition total (f : msg_queue -> Z) (s : msgs) : Z := sum_ents (fun p => f (msg_queues s p)) (msg_ids s).
(** The blocks a sleeping task holds. *)
Definition held_blocks (s : msgs) (t : tid) : Z :=
  match phases s t with
  | Running => 0
  | Sending => nblocks (s_msg (senders s t))
  | Receiving => match r_msg (receivers s t) with inl m => nblocks m | inr _ => 0 end
  end.

Record receiver_ok (s : msgs) (p : Z) (t : tid) : Prop := ReceiverOk {
  ro_phase : phases s t = Receiving;
  ro_queue : r_queue (receivers s t) = p;
  ro_msg : r_msg (receivers s t) = inr (- EAGAIN);
  ro_id : 0 <= r_msqid (receivers s t) /\ msg_lock (r_msqid (receivers s t)) s = Some p
}.
Record sender_ok (s : msgs) (p : Z) (t : tid) : Prop := SenderOk {
  so_phase : phases s t = Sending;
  so_linked : s_linked (senders s t) = true;
  so_queue : s_queue (senders s t) = p;
  so_id : 0 <= s_msqid (senders s t) /\ msg_lock (s_msqid (senders s t)) s = Some p
}.
Record count_ok (q : msg_queue) : Prop := CountOk {
  co_bytes : q_cbytes q = text_bytes q;
  co_num : q_qnum q = text_count q;
  co_small : text_bytes q < 2 ^ 31 /\ text_count q < 2 ^ 31;
  co_text : Forall msg_ok (q_messages q)
}.
Record task_held (s : msgs) (t : tid) : Prop := TaskHeld {
  th_sent : phases s t = Sending -> msg_ok (s_msg (senders s t)) /\ 0 <= s_msqid (senders s t);
  th_size : phases s t = Receiving -> 0 <= r_msgsz (receivers s t);
  th_received : phases s t = Receiving -> forall m, r_msg (receivers s t) = inl m -> msg_ok m;
  th_waits : phases s t = Receiving -> r_msg (receivers s t) = inr (- EAGAIN) ->
    qlive s (r_queue (receivers s t)) /\ t ∈ q_receivers (msg_queues s (r_queue (receivers s t)));
  th_linked : phases s t = Sending -> s_linked (senders s t) = true ->
    qlive s (s_queue (senders s t)) /\ t ∈ q_senders (msg_queues s (s_queue (senders s t)))
}.
Definition blocks_ok (d : Z) (s : msgs) : Prop := exists l, NoDup l /\ (forall t, t ∈ l <-> phases s t <> Running) /\
  msg_blocks s = d + total text_blocks s + sumZ (held_blocks s) l.

Record core (d : Z) (s : msgs) : Prop := Core {
  k_inj : (forall i j p, entries (msg_ids s) !! i = Some (Some p) -> entries (msg_ids s) !! j = Some (Some p) -> i = j) /\
    forall i p, entries (msg_ids s) !! i = Some (Some p) -> Z.of_nat i < IPCMNI;
  k_rcv : forall p t, qlive s p -> t ∈ q_receivers (msg_queues s p) -> receiver_ok s p t;
  k_snd : forall p t, qlive s p -> t ∈ q_senders (msg_queues s p) -> sender_ok s p t;
  k_once : forall p, qlive s p -> NoDup (q_receivers (msg_queues s p)) /\ NoDup (q_senders (msg_queues s p));
  k_count : forall p, qlive s p -> count_ok (msg_queues s p);
  k_held : forall t, task_held s t;
  k_bytes : msg_bytes s = s32 (total text_bytes s) /\ msg_hdrs s = s32 (total text_count s);
  k_blocks : blocks_ok d s
}.
Definition matched (s : msgs) (p : Z) : Prop := forall t m, t ∈ q_receivers (msg_queues s p) -> m ∈ q_messages (msg_queues s p) ->
  testmsg m (r_msgtype (receivers s t)) (r_mode (receivers s t)) = false.
Definition full (s : msgs) (p : Z) : Prop := forall t, t ∈ q_senders (msg_queues s p) -> s_woken (senders s t) = false ->
  would_block (msg_queues s p) (m_ts (s_msg (senders s t))) = true.
Definition msg_inv (d : Z) (s : msgs) : Prop := core d s /\ forall p, qlive s p -> matched s p /\ full s p.

(** ** Lookups *)

Lemma set_msq_at p f s q : msg_queues (set_msq p f s) q = if decide (q = p) then f (msg_queues s p) else msg_queues s q.
Proof. simpl. destruct (decide (q = p)) as [->|]; [by rewrite fn_lookup_alter|by rewrite fn_lookup_alter_ne]. Qed.
Lemma set_receiver_at t f s u : receivers (set_receiver t f s) u = if decide (u = t) then f (receivers s t) else receivers s u.
Proof. simpl. destruct (decide (u = t)) as [->|]; [by rewrite fn_lookup_alter|by rewrite fn_lookup_alter_ne]. Qed.
Lemma set_phase_at t x s u : phases (set_phase t x s) u = if decide (u = t) then x else phases s u.
Proof. simpl. destruct (decide (u = t)) as [->|]; [by rewrite fn_lookup_insert|by rewrite fn_lookup_insert_ne]. Qed.

Lemma mlock_spec s id p : 0 <= id -> msg_lock id s = Some p <-> entries (msg_ids s) !! Z.to_nat (Z.rem id SEQ_MULTIPLIER) = Some (Some p).
Proof. apply ipc_lock_spec. Qed.
Lemma mlock_live s id p : 0 <= id -> msg_lock id s = Some p -> qlive s p.
Proof. intros Hid H. apply mlock_spec in H; [|done]. by eexists. Qed.

(** The total after a change of one queue. *)
Lemma text_total_change f d s s' p : core d s -> qlive s p -> msg_ids s' = msg_ids s -> (forall q, q <> p -> msg_queues s' q = msg_queues s q) ->
  total f s' = total f s - f (msg_queues s p) + f (msg_queues s' p).
Proof.
  intros C (k & Hk) Hi Hq. unfold total. rewrite Hi. apply (sum_object (fun q => f (msg_queues s q)) (fun q => f (msg_queues s' q)) _ k p Hk); [|intros q Hne; by rewrite Hq].
  intros j Hj. by apply (proj1 (k_inj _ _ C) j k p).
Qed.
Lemma total_same f s s' : msg_ids s' = msg_ids s -> (forall p, qlive s p -> f (msg_queues s' p) = f (msg_queues s p)) -> total f s' = total f s.
Proof.
  intros Hi Hq. unfold total, sum_ents. rewrite Hi. apply sumZ_ext. intros [p|] Hp; [|done]. simpl. apply Hq.
  apply list_elem_of_lookup in Hp as (k & Hk). by exists k.
Qed.

(** ** Changes the invariant does not see *)

Definition qview (q : msg_queue) := (q_cbytes q, q_qnum q, q_qbytes q, q_messages q, q_receivers q, q_senders q).
Definition sview (x : msg_sender) := (s_linked x, s_queue x, s_msg x, s_msqid x).
Record alike (s s' : msgs) : Prop := Alike {
  al_ids : msg_ids s' = msg_ids s;
  al_queues : forall p, qview (msg_queues s' p) = qview (msg_queues s p);
  al_senders : forall t, sview (senders s' t) = sview (senders s t);
  al_receivers : forall t, receivers s' t = receivers s t;
  al_phases : phases s' = phases s;
  al_totals : msg_bytes s' = msg_bytes s /\ msg_hdrs s' = msg_hdrs s /\ msg_blocks s' = msg_blocks s
}.

Lemma core_alike d s s' : alike s s' -> core d s -> core d s'.
Proof.
  intros [A1 A2 A3 A4 A5 (A6 & A7 & A8)] [K1 K2 K3 K4 K5 K6 [K7 K8] K9].
  assert (Q : forall p, q_cbytes (msg_queues s' p) = q_cbytes (msg_queues s p) /\ q_qnum (msg_queues s' p) = q_qnum (msg_queues s p) /\
    q_messages (msg_queues s' p) = q_messages (msg_queues s p) /\ q_receivers (msg_queues s' p) = q_receivers (msg_queues s p) /\
    q_senders (msg_queues s' p) = q_senders (msg_queues s p)).
  { intros p. specialize (A2 p). unfold qview in A2. by injection A2. }
  assert (S : forall t, s_linked (senders s' t) = s_linked (senders s t) /\ s_queue (senders s' t) = s_queue (senders s t) /\
    s_msg (senders s' t) = s_msg (senders s t) /\ s_msqid (senders s' t) = s_msqid (senders s t)).
  { intros t. specialize (A3 t). unfold sview in A3. by injection A3. }
  assert (L : forall p, qlive s' p <-> qlive s p) by (intros p; unfold qlive; by rewrite A1).
  assert (T : forall f, (forall q q', q_messages q = q_messages q' -> f q = f q') -> total f s' = total f s).
  { intros f Hf. apply total_same; [done|]. intros p _. apply Hf, Q. }
  split.
  - by rewrite A1.
  - intros p t. rewrite L. destruct (Q p) as (_ & _ & _ & -> & _). intros H1 H2. destruct (K2 p t H1 H2) as [R1 R2 R3 R4].
    split; rewrite ?A4, ?A5; try done. unfold msg_lock. by rewrite A1.
  - intros p t. rewrite L. destruct (Q p) as (_ & _ & _ & _ & ->). intros H1 H2. destruct (K3 p t H1 H2) as [R1 R2 R3 R4].
    destruct (S t) as (S1 & S2 & _ & S4). split; [congruence|congruence|congruence|]. rewrite S4. unfold msg_lock. by rewrite A1.
  - intros p. rewrite L. destruct (Q p) as (_ & _ & _ & -> & ->). apply K4.
  - intros p. rewrite L. intros H. destruct (K5 p H) as [C1 C2 C3 C4]. destruct (Q p) as (Q1 & Q2 & Q3 & _).
    split; unfold text_bytes, text_count in *; rewrite ?Q1, ?Q2, ?Q3; done.
  - intros t. destruct (K6 t) as [T1 T2 T3 T4 T5]. destruct (S t) as (S1 & S2 & S3 & S4).
    split; rewrite ?A4, ?A5, ?S1, ?S2, ?S3, ?S4; try done.
    + rewrite L. destruct (Q (r_queue (receivers s t))) as (_ & _ & _ & -> & _). done.
    + rewrite L. destruct (Q (s_queue (senders s t))) as (_ & _ & _ & _ & ->). done.
  - rewrite A6, A7, !T; [done|intros q q' E; unfold text_count; by rewrite E|intros q q' E; unfold text_bytes; by rewrite E].
  - destruct K9 as (l & N & E & B). exists l. split; [done|]. rewrite A5. split; [done|]. rewrite A8, B, (T text_blocks) by (intros q q' Eq; unfold text_blocks; by rewrite Eq).
    f_equal. apply sumZ_ext. intros t _. unfold held_blocks. rewrite A5, A4. by destruct (S t) as (_ & _ & -> & _).
Qed.

Lemma alike_refl s : alike s s.
Proof. by split. Qed.
Lemma alike_trans s1 s2 s3 : alike s1 s2 -> alike s2 s3 -> alike s1 s3.
Proof.
  intros [A1 A2 A3 A4 A5 (A6 & A7 & A8)] [B1 B2 B3 B4 B5 (B6 & B7 & B8)].
  split; [congruence|intros; by rewrite B2, A2|intros; by rewrite B3, A3|intros; by rewrite B4, A4|congruence|split; [congruence|split; congruence]].
Qed.

Lemma matched_alike s s' p : alike s s' -> matched s p -> matched s' p.
Proof.
  intros A H t m. pose proof (al_queues _ _ A p) as Q. unfold qview in Q. injection Q as _ _ _ Q1 Q2 _. rewrite Q1, Q2, (al_receivers _ _ A). apply H.
Qed.
(** Tasks may have been woken. *)
Lemma full_alike s s' p : alike s s' -> (forall t, s_woken (senders s' t) = false -> s_woken (senders s t) = false) -> full s p -> full s' p.
Proof.
  intros A W H t. pose proof (al_queues _ _ A p) as Q. unfold qview in Q. injection Q as Q1 Q2 Q3 _ _ Q4.
  pose proof (al_senders _ _ A t) as S. unfold sview in S. injection S as _ _ S _. rewrite Q4, S. intros Ht Hw.
  specialize (H t Ht (W t Hw)). unfold would_block in *. by rewrite Q1, Q2, Q3.
Qed.

Lemma inv_alike d s s' : alike s s' -> (forall t, s_woken (senders s' t) = false -> s_woken (senders s t) = false) -> msg_inv d s -> msg_inv d s'.
Proof.
  intros A W [C H]. split; [by eapply core_alike|]. intros p (k & Hk). rewrite (al_ids _ _ A) in Hk.
  destruct (H p ltac:(by exists k)). split; [by eapply matched_alike|by eapply full_alike].
Qed.

(** ** Blocks *)

Lemma core_blocks d n s : core d s -> core (d + n) (add_blocks n s).
Proof.
  intros [K1 K2 K3 K4 K5 K6 K7 K8]. split; try done.
  - intros p t L Ht. destruct (K2 p t L Ht). by split.
  - intros p t L Ht. destruct (K3 p t L Ht). by split.
  - intros t. destruct (K6 t). by split.
  - destruct K8 as (l & N & E & B). exists l. split; [done|]. split; [done|].
    change (total text_blocks (add_blocks n s)) with (total text_blocks s).
    change (sumZ (held_blocks (add_blocks n s)) l) with (sumZ (held_blocks s) l). change (msg_blocks s + n = d + n + total text_blocks s + sumZ (held_blocks s) l). lia.
Qed.
Lemma inv_blocks d n s : msg_inv d s -> msg_inv (d + n) (add_blocks n s).
Proof. intros [C H]. split; [by apply core_blocks|done]. Qed.
Lemma inv_free d m s : msg_inv (d + nblocks m) s -> msg_inv d (free_msg m s).
Proof. intros H. rewrite free_blocks. replace d with (d + nblocks m + - nblocks m) by lia. by apply inv_blocks. Qed.

(** ** A change of one queue and one task *)

Lemma s32_add a b : s32 (s32 a + b) = s32 (a + b).
Proof.
  unfold s32. f_equal. replace ((a + 2 ^ 31) `mod` 2 ^ 32 - 2 ^ 31 + b + 2 ^ 31) with ((a + 2 ^ 31) `mod` 2 ^ 32 + b) by lia.
  rewrite Zplus_mod_idemp_l. f_equal. lia.
Qed.

#[export] Instance running_dec (x : phase) : Decision (x = Running).
Proof. destruct x; [by left|by right|by right]. Defined.

(** The tasks in a call, when [t] enters, stays or leaves. *)
Lemma tasks_change (s s' : msgs) (t : tid) l : NoDup l -> (forall u, u ∈ l <-> phases s u <> Running) ->
  (forall u, u <> t -> phases s' u = phases s u /\ held_blocks s' u = held_blocks s u) ->
  exists l', NoDup l' /\ (forall u, u ∈ l' <-> phases s' u <> Running) /\
    sumZ (held_blocks s') l' = sumZ (held_blocks s) l - held_blocks s t + held_blocks s' t.
Proof.
  intros N E H. assert (Z0 : forall x u, phases x u = Running -> held_blocks x u = 0) by (intros x u Hu; unfold held_blocks; by rewrite Hu).
  assert (X : forall k, t ∉ k -> sumZ (held_blocks s') k = sumZ (held_blocks s) k).
  { intros k Hk. apply sumZ_ext. intros u Hu. apply H. intros ->. done. }
  set (k := filter (fun u => u <> t) l). assert (Ek : forall u, u ∈ k <-> u <> t /\ phases s u <> Running) by (intros u; unfold k; rewrite list_elem_of_filter, E; done).
  assert (Nk : NoDup k) by (by apply list.NoDup_filter).
  assert (Sk : sumZ (held_blocks s) k = sumZ (held_blocks s) l - held_blocks s t).
  { destruct (decide (phases s t = Running)) as [Hr|Hr]; [|by apply sumZ_remove; [|apply E]].
    rewrite (Z0 s t Hr), Z.sub_0_r. unfold k. f_equal. assert (Ht : t ∉ l) by (rewrite E; tauto). clear - Ht.
    induction l as [|u l IH]; [done|]. rewrite not_elem_of_cons in Ht. destruct Ht. rewrite filter_cons_True by done. by rewrite IH. }
  assert (Tk : t ∉ k) by (rewrite Ek; tauto). clearbody k.
  destruct (decide (phases s' t = Running)) as [Hr|Hr].
  - exists k. split; [done|]. split; [|rewrite X, Sk, (Z0 s' t Hr) by done; lia]. intros u. rewrite Ek.
    destruct (decide (u = t)) as [->|Hne]; [tauto|]. destruct (H u Hne) as [-> _]. tauto.
  - exists (t :: k). split; [by apply list.NoDup_cons|]. split; [|simpl; rewrite X, Sk by done; lia]. intros u. rewrite elem_of_cons, Ek.
    destruct (decide (u = t)) as [->|Hne]; [tauto|]. destruct (H u Hne) as [-> _]. tauto.
Qed.

Section Local.
Context (d d' : Z) (s s' : msgs) (p : Z) (t : tid) (C : core d s) (L : qlive s p).
Hypothesis Hids : msg_ids s' = msg_ids s.
Hypothesis Hqueues : forall q, q <> p -> msg_queues s' q = msg_queues s q.
Hypothesis Htasks : forall u, u <> t -> senders s' u = senders s u /\ receivers s' u = receivers s u /\ phases s' u = phases s u.
Hypothesis Hrcv : forall u, u <> t -> u ∈ q_receivers (msg_queues s' p) <-> u ∈ q_receivers (msg_queues s p).
Hypothesis Hsnd : forall u, u <> t -> u ∈ q_senders (msg_queues s' p) <-> u ∈ q_senders (msg_queues s p).
Hypothesis Honce : NoDup (q_receivers (msg_queues s' p)) /\ NoDup (q_senders (msg_queues s' p)).
Hypothesis Hr_t : forall q, qlive s q -> t ∈ q_receivers (msg_queues s' q) -> receiver_ok s' q t.
Hypothesis Hs_t : forall q, qlive s q -> t ∈ q_senders (msg_queues s' q) -> sender_ok s' q t.
Hypothesis Hcount : count_ok (msg_queues s' p).
Hypothesis Hheld : task_held s' t.
Hypothesis Hbytes : msg_bytes s' = s32 (msg_bytes s + (text_bytes (msg_queues s' p) - text_bytes (msg_queues s p))).
Hypothesis Hhdrs : msg_hdrs s' = s32 (msg_hdrs s + (text_count (msg_queues s' p) - text_count (msg_queues s p))).
Hypothesis Hblocks : msg_blocks s' - d' - text_blocks (msg_queues s' p) - held_blocks s' t =
  msg_blocks s - d - text_blocks (msg_queues s p) - held_blocks s t.

Lemma core_local : core d' s'.
Proof using All.
  assert (Ll : forall q, qlive s' q <-> qlive s q) by (intros q; unfold qlive; by rewrite Hids).
  assert (Lk : forall id, msg_lock id s' = msg_lock id s) by (intros id; unfold msg_lock; by rewrite Hids).
  assert (Rq : forall q u, u <> t -> u ∈ q_receivers (msg_queues s' q) <-> u ∈ q_receivers (msg_queues s q)).
  { intros q u Hu. destruct (decide (q = p)) as [->|]; [by apply Hrcv|by rewrite Hqueues]. }
  assert (Sq : forall q u, u <> t -> u ∈ q_senders (msg_queues s' q) <-> u ∈ q_senders (msg_queues s q)).
  { intros q u Hu. destruct (decide (q = p)) as [->|]; [by apply Hsnd|by rewrite Hqueues]. }
  pose proof C as [K1 K2 K3 K4 K5 K6 [K7 K8] K9]. split.
  - by rewrite Hids.
  - intros q u Lq Hu. apply Ll in Lq. destruct (decide (u = t)) as [->|Hne]; [by apply Hr_t|]. apply Rq in Hu; [|done].
    destruct (K2 q u Lq Hu) as [R1 R2 R3 R4]. destruct (Htasks u Hne) as (T1 & T2 & T3). split; rewrite ?T2, ?T3, ?Lk; done.
  - intros q u Lq Hu. apply Ll in Lq. destruct (decide (u = t)) as [->|Hne]; [by apply Hs_t|]. apply Sq in Hu; [|done].
    destruct (K3 q u Lq Hu) as [R1 R2 R3 R4]. destruct (Htasks u Hne) as (T1 & T2 & T3). split; rewrite ?T1, ?T3, ?Lk; done.
  - intros q Lq. apply Ll in Lq. destruct (decide (q = p)) as [->|]; [done|]. rewrite Hqueues by done. by apply K4.
  - intros q Lq. apply Ll in Lq. destruct (decide (q = p)) as [->|]; [done|]. rewrite Hqueues by done. by apply K5.
  - intros u. destruct (decide (u = t)) as [->|Hne]; [done|]. destruct (K6 u) as [H1 H2 H3 H4 H5]. destruct (Htasks u Hne) as (T1 & T2 & T3).
    split; rewrite ?T1, ?T2, ?T3; try done; rewrite Ll, ?Rq, ?Sq; done.
  - rewrite Hbytes, Hhdrs, K7, K8, !s32_add. rewrite (text_total_change text_bytes d s s' p C L Hids Hqueues), (text_total_change text_count d s s' p C L Hids Hqueues).
    split; f_equal; lia.
  - destruct K9 as (l & N & E & B). destruct (tasks_change s s' t l N E) as (l' & N' & E' & S').
    { intros u Hne. destruct (Htasks u Hne) as (T1 & T2 & T3). split; [done|]. unfold held_blocks. by rewrite T1, T2, T3. }
    exists l'. split; [done|]. split; [done|]. rewrite S', (text_total_change text_blocks d s s' p C L Hids Hqueues). lia.
Qed.
End Local.

(** Only the messages of one queue change. *)
Lemma core_queue d d' s s' p : core d s -> qlive s p -> msg_ids s' = msg_ids s ->
  senders s' = senders s /\ receivers s' = receivers s /\ phases s' = phases s -> (forall q, q <> p -> msg_queues s' q = msg_queues s q) ->
  q_receivers (msg_queues s' p) = q_receivers (msg_queues s p) -> q_senders (msg_queues s' p) = q_senders (msg_queues s p) ->
  count_ok (msg_queues s' p) -> msg_bytes s' = s32 (msg_bytes s + (text_bytes (msg_queues s' p) - text_bytes (msg_queues s p))) ->
  msg_hdrs s' = s32 (msg_hdrs s + (text_count (msg_queues s' p) - text_count (msg_queues s p))) ->
  msg_blocks s' - d' - text_blocks (msg_queues s' p) = msg_blocks s - d - text_blocks (msg_queues s p) -> core d' s'.
Proof.
  intros C L Hi (S1 & S2 & S3) Hq Hr Hs Hc Hb Hh Hk.
  assert (Lk : forall id, msg_lock id s' = msg_lock id s) by (intros id; unfold msg_lock; by rewrite Hi).
  assert (Rq : forall q, q_receivers (msg_queues s' q) = q_receivers (msg_queues s q)) by (intros q; destruct (decide (q = p)) as [->|]; [done|by rewrite Hq]).
  assert (Sq : forall q, q_senders (msg_queues s' q) = q_senders (msg_queues s q)) by (intros q; destruct (decide (q = p)) as [->|]; [done|by rewrite Hq]).
  apply (core_local d d' s s' p 0 C L Hi Hq); rewrite ?S1, ?S2, ?S3, ?Rq, ?Sq; try done.
  - by apply (k_once _ _ C).
  - intros q Lq. rewrite Rq. intros Ht. destruct (k_rcv _ _ C q 0 Lq Ht). split; rewrite ?S2, ?S3, ?Lk; done.
  - intros q Lq. rewrite Sq. intros Ht. destruct (k_snd _ _ C q 0 Lq Ht). split; rewrite ?S1, ?S3, ?Lk; done.
  - destruct (k_held _ _ C 0) as [H1 H2 H3 H4 H5]. split; rewrite ?S1, ?S2, ?S3; try done; rewrite ?Rq, ?Sq; unfold qlive in *; rewrite Hi; done.
  - unfold held_blocks. rewrite S1, S2, S3. lia.
Qed.
