(* ===== verification/MsgSteps.v ===== *)
(** * Every message operation keeps the invariant *)
From stdpp Require Import base sets list functions.
From S2P Require Import Prelude PidHash Bitmap Sched SchedCalls Proc User Cred Ipc IpcProofs SigCalls Sem Msg MsgInv.

(** The value of a store at a place, after one place was changed. *)
Ltac at_queue := simpl; match goal with |- context [decide (?q = ?p)] =>
  destruct (decide (q = p)) as [->|]; [by rewrite fn_lookup_alter|by rewrite fn_lookup_alter_ne] end.

(** ** Permissions and wakeups *)

Lemma perms_frame p flag s : exists c, fst (msg_perms p flag s) = s <| m_cred := c |> /\ ccur c = ccur (m_cred s).
Proof.
  unfold msg_perms, ipcperms, lacks. cbv zeta. destruct (negb (Z.land _ 7 =? 0)); [|by exists (m_cred s)].
  unfold capable. destruct (cap_raised _ _); eexists; (split; [done|]); done.
Qed.

Lemma inv_cred d s c : msg_inv d s -> msg_inv d (s <| m_cred := c |>).
Proof. apply inv_alike; [by split|done]. Qed.

Lemma wakeup_spec l : forall s, let s' := fold_left (fun s t => wake_task t (set_sender t (fun x => x <| s_woken := true |>) s)) l s in
  alike s s' /\ msg_queues s' = msg_queues s /\ m_cred s' = m_cred s /\
  forall t, s_woken (senders s' t) = if decide (t ∈ l) then true else s_woken (senders s t).
Proof.
  induction l as [|u l IH]; intros s; [by split; [apply alike_refl|]|]. cbn [fold_left]. set (s0 := wake_task u _).
  assert (S : forall t, senders s0 t = if decide (t = u) then (senders s t) <| s_woken := true |> else senders s t).
  { intros t. unfold s0. simpl. destruct (decide (t = u)) as [->|]; [by rewrite fn_lookup_alter|by rewrite fn_lookup_alter_ne]. }
  assert (A0 : alike s s0) by (split; try done; intros t; rewrite S; by destruct (decide (t = u))).
  destruct (IH s0) as (I1 & I2 & I3 & I4). split; [by eapply alike_trans|]. split; [done|]. split; [done|]. intros t. rewrite I4, S.
  destruct (decide (t ∈ l)), (decide (t ∈ u :: l)), (decide (t = u)); try done; set_solver.
Qed.

(** Waking the senders of a queue. *)
Lemma inv_wakeup d p s : core d s -> (forall q, qlive s q -> matched s q /\ (q <> p -> full s q)) -> msg_inv d (ss_wakeup p false s).
Proof.
  intros C H. unfold ss_wakeup. destruct (wakeup_spec (q_senders (msg_queues s p)) s) as (A & Q & _ & W). set (s' := fold_left _ _ s) in *.
  split; [by eapply core_alike|]. intros q (k & Hk). rewrite (al_ids _ _ A) in Hk. destruct (H q ltac:(by exists k)) as [M F].
  split; [by eapply matched_alike|]. destruct (decide (q = p)) as [->|Hne].
  - intros t Ht Hw. rewrite Q in Ht. rewrite W in Hw. by destruct (decide (t ∈ q_senders (msg_queues s p))).
  - apply (full_alike s); [done| |by apply F]. intros t. rewrite W. by destruct (decide _).
Qed.

(** Receivers that were waiting anyway are told to try again. *)
Lemma expunge_spec a l : forall s, let s' := fold_left (fun s t => wake_task t (set_receiver t (fun r => r <| r_msg := a |>) s)) l s in
  msg_ids s' = msg_ids s /\ msg_queues s' = msg_queues s /\ senders s' = senders s /\ phases s' = phases s /\ m_cred s' = m_cred s /\
  msg_bytes s' = msg_bytes s /\ msg_hdrs s' = msg_hdrs s /\ msg_blocks s' = msg_blocks s /\
  forall t, receivers s' t = if decide (t ∈ l) then (receivers s t) <| r_msg := a |> else receivers s t.
Proof.
  induction l as [|u l IH]; intros s; [done|]. cbn [fold_left]. set (s0 := wake_task u _).
  assert (R : forall t, receivers s0 t = if decide (t = u) then (receivers s t) <| r_msg := a |> else receivers s t).
  { intros t. unfold s0. simpl. destruct (decide (t = u)) as [->|]; [by rewrite fn_lookup_alter|by rewrite fn_lookup_alter_ne]. }
  destruct (IH s0) as (I1 & I2 & I3 & I4 & I5 & I6 & I7 & I8 & I9). split_and!; try done. intros t. rewrite I9, R.
  destruct (decide (t ∈ l)), (decide (t ∈ u :: l)), (decide (t = u)); try done; set_solver.
Qed.

Lemma expunge_again d p s : core d s -> qlive s p -> alike s (expunge_all p (- EAGAIN) s) /\ senders (expunge_all p (- EAGAIN) s) = senders s.
Proof.
  intros C L. unfold expunge_all. destruct (expunge_spec (inr (- EAGAIN)) (q_receivers (msg_queues s p)) s) as (E1 & E2 & E3 & E4 & _ & E5 & E6 & E7 & E8).
  set (s' := fold_left _ _ s) in *. split; [|done]. split; [done|intros q; by rewrite E2|intros t; by rewrite E3| |done|done].
  intros t. rewrite E8. destruct (decide _) as [Ht|]; [|done]. destruct (k_rcv _ _ C p t L Ht) as [_ _ R _]. revert R. by destruct (receivers s t) as [? ? ? ? ? ? ? ?]; simpl; intros ->.
Qed.

(** ** A receiver gets its answer *)

Definition answer (p : Z) (t : tid) (a : msg_msg + Z) (s : msgs) : msgs :=
  set_receiver t (fun r => r <| r_msg := a |>) (set_msq p (fun q => q <| q_receivers ::= filter (fun u => u <> t) |>) s).
Definition ablocks (a : msg_msg + Z) : Z := match a with inl m => nblocks m | inr _ => 0 end.

Lemma answer_at p t a s : (forall q, msg_queues (answer p t a s) q =
    if decide (q = p) then (msg_queues s p) <| q_receivers ::= filter (fun u => u <> t) |> else msg_queues s q) /\
  (forall u, receivers (answer p t a s) u = if decide (u = t) then (receivers s t) <| r_msg := a |> else receivers s u).
Proof. split; [intros q; apply (set_msq_at p _ s)|intros u; unfold answer; by rewrite set_receiver_at]. Qed.

Lemma core_answer d s p t a : core d s -> qlive s p -> t ∈ q_receivers (msg_queues s p) -> a <> inr (- EAGAIN) ->
  (forall m, a = inl m -> msg_ok m) -> core (d - ablocks a) (answer p t a s).
Proof.
  intros C L Ht Ha Hm. destruct (answer_at p t a s) as [Q R]. destruct (k_rcv _ _ C p t L Ht) as [R1 R2 R3 R4].
  destruct (k_once _ _ C p L) as [N1 N2]. pose proof (k_count _ _ C p L) as Hc.
  set (s' := answer p t a s) in *. assert (Qp : msg_queues s' p = (msg_queues s p) <| q_receivers ::= filter (fun u => u <> t) |>) by (rewrite Q; by rewrite decide_True).
  assert (Rt : receivers s' t = (receivers s t) <| r_msg := a |>) by (rewrite R; by rewrite decide_True).
  assert (S : msg_ids s' = msg_ids s /\ senders s' = senders s /\ phases s' = phases s /\ msg_bytes s' = msg_bytes s /\ msg_hdrs s' = msg_hdrs s /\
    msg_blocks s' = msg_blocks s) by done. destruct S as (S1 & S2 & S3 & S4 & S5 & S6). clearbody s'.
  assert (Qm : q_messages (msg_queues s' p) = q_messages (msg_queues s p) /\ q_senders (msg_queues s' p) = q_senders (msg_queues s p) /\
    q_receivers (msg_queues s' p) = filter (fun u => u <> t) (q_receivers (msg_queues s p))) by (by rewrite Qp). destruct Qm as (Q1 & Q2 & Q3).
  apply (core_local d _ s s' p t C L S1).
  - intros q Hq. rewrite Q. by rewrite decide_False.
  - intros u Hu. rewrite S2, S3, R. by rewrite decide_False.
  - intros u Hu. rewrite Q3, list_elem_of_filter. tauto.
  - intros u Hu. by rewrite Q2.
  - rewrite Q2, Q3. split; [by apply list.NoDup_filter|done].
  - intros q Lq Hq. exfalso. destruct (decide (q = p)) as [->|Hne]; [rewrite Q3, list_elem_of_filter in Hq; tauto|].
    rewrite Q, decide_False in Hq by done. destruct (k_rcv _ _ C q t Lq Hq) as [_ R2' _ _]. congruence.
  - intros q Lq Hq. exfalso. assert (Hq' : t ∈ q_senders (msg_queues s q)) by (destruct (decide (q = p)) as [->|Hne]; [by rewrite <- Q2|by rewrite Q, decide_False in Hq]).
    destruct (k_snd _ _ C q t Lq Hq') as [X _ _ _]. congruence.
  - rewrite Qp. destruct Hc. by split.
  - pose proof (th_size _ _ (k_held _ _ C t) R1). split; rewrite ?S3, ?R1; [done|by rewrite Rt|intros _ m; rewrite Rt; apply Hm|intros _; rewrite Rt; done|done].
  - rewrite S4. unfold text_bytes. rewrite Q1. rewrite (proj1 (k_bytes _ _ C)). rewrite s32_add. f_equal. lia.
  - rewrite S5. unfold text_count. rewrite Q1. rewrite (proj2 (k_bytes _ _ C)). rewrite s32_add. f_equal. lia.
  - rewrite S6. unfold text_blocks. rewrite Q1. unfold held_blocks. rewrite S3, R1, Rt, R3. unfold ablocks. simpl. destruct a; lia.
Qed.

(** ** pipelined_send *)

(** Queues but for the receivers of [p] and the time stamps are as before. *)
Record piped (p : Z) (s s' : msgs) : Prop := Piped {
  pi_ids : msg_ids s' = msg_ids s; pi_senders : senders s' = senders s; pi_cred : m_cred s' = m_cred s;
  pi_queues : forall q, q <> p -> msg_queues s' q = msg_queues s q;
  pi_view : q_cbytes (msg_queues s' p) = q_cbytes (msg_queues s p) /\ q_qnum (msg_queues s' p) = q_qnum (msg_queues s p) /\
    q_qbytes (msg_queues s' p) = q_qbytes (msg_queues s p) /\ q_messages (msg_queues s' p) = q_messages (msg_queues s p) /\
    q_senders (msg_queues s' p) = q_senders (msg_queues s p);
  pi_less : q_receivers (msg_queues s' p) ⊆ q_receivers (msg_queues s p);
  pi_rest : forall t, t ∈ q_receivers (msg_queues s' p) \/ t ∉ q_receivers (msg_queues s p) -> receivers s' t = receivers s t;
  pi_phases : phases s' = phases s
}.
Lemma piped_refl p s : piped p s s.
Proof. by split. Qed.
Lemma piped_trans p s1 s2 s3 : piped p s1 s2 -> piped p s2 s3 -> piped p s1 s3.
Proof.
  intros [A1 A2 A3 A4 (A5 & A6 & A7 & A8 & A9) A10 A11 A12] [B1 B2 B3 B4 (B5 & B6 & B7 & B8 & B9) B10 B11 B12].
  split; [congruence|congruence|congruence|intros; by rewrite B4, A4|split_and!; congruence|set_solver| |congruence].
  intros t [Ht|Ht]; [rewrite B11 by (by left); apply A11; left; by apply B10|rewrite B11, A11; [done|by right|right; set_solver]].
Qed.

Lemma answer_piped p t a s : t ∈ q_receivers (msg_queues s p) -> piped p s (answer p t a s).
Proof.
  intros Ht. destruct (answer_at p t a s) as [Q R]. split; try done.
  - intros q Hq. rewrite Q. by rewrite decide_False.
  - rewrite Q. by rewrite decide_True.
  - rewrite Q, decide_True by done. simpl. intros u. rewrite list_elem_of_filter. tauto.
  - intros u. rewrite Q, R, decide_True by done. simpl. rewrite list_elem_of_filter. intros [[Hu _]|Hu]; rewrite decide_False; try done. intros ->. done.
Qed.

Lemma wake_alike t s : alike s (wake_task t s).
Proof. by split. Qed.
Lemma stamp_alike p f s : (forall q, qview (f q) = qview q) -> alike s (set_msq p f s).
Proof. intros H. split; try done. intros q. rewrite set_msq_at. destruct (decide (q = p)) as [->|]; [apply H|done]. Qed.
Lemma stamp_piped p f s : (forall q, qview (f q) = qview q) -> piped p s (set_msq p f s).
Proof.
  intros H. assert (Q : msg_queues (set_msq p f s) p = f (msg_queues s p)) by (rewrite set_msq_at; by rewrite decide_True).
  specialize (H (msg_queues s p)). unfold qview in H. injection H as H1 H2 H3 H4 H5 H6.
  split; try done; rewrite ?Q; [intros q Hq; rewrite set_msq_at; by rewrite decide_False|done|by rewrite H5].
Qed.

Lemma pipelined_ok p m l : forall d s, core d s -> qlive s p -> msg_ok m -> NoDup l -> l ⊆ q_receivers (msg_queues s p) ->
  let '(s', sent) := pipelined p m l s in
  core (d - if sent then nblocks m else 0) s' /\ piped p s s' /\
  (sent = false -> forall t, t ∈ l -> t ∈ q_receivers (msg_queues s' p) -> testmsg m (r_msgtype (receivers s' t)) (r_mode (receivers s' t)) = false).
Proof.
  induction l as [|t l IH]; intros d s C L Hm N Hl; cbn [pipelined].
  { rewrite Z.sub_0_r. split; [done|]. split; [apply piped_refl|]. intros _ u ?%not_elem_of_nil. done. }
  apply list.NoDup_cons in N as [Nt N]. assert (Ht : t ∈ q_receivers (msg_queues s p)) by (apply Hl, list_elem_of_here).
  assert (Hl' : l ⊆ q_receivers (msg_queues s p)) by (intros u Hu; apply Hl; by apply elem_of_cons; right).
  destruct (testmsg m (r_msgtype (receivers s t)) (r_mode (receivers s t))) eqn:E.
  2:{ specialize (IH d s C L Hm N Hl'). destruct (pipelined p m l s) as [s' sent]. destruct IH as (I1 & I2 & I3). split; [done|]. split; [done|].
      intros Hs u [->|Hu]%elem_of_cons Hin; [|by apply I3]. by rewrite (pi_rest _ _ _ I2) by (by left). }
  cbv zeta. destruct (r_maxsize (receivers s t) <? m_ts m).
  - fold (answer p t (inr (- E2BIG)) s). set (s1 := wake_task t (answer p t (inr (- E2BIG)) s)).
    assert (C1 : core d s1).
    { apply (core_alike d (answer p t (inr (- E2BIG)) s)); [apply wake_alike|]. replace d with (d - ablocks (inr (- E2BIG))) by (simpl; lia). by apply core_answer. }
    assert (P1 : piped p s s1) by (destruct (answer_piped p t (inr (- E2BIG)) s Ht); by split).
    specialize (IH d s1 C1 L Hm N). destruct (pipelined p m l s1) as [s' sent]. destruct IH as (I1 & I2 & I3).
    { intros u Hu. unfold s1. simpl. rewrite fn_lookup_alter. simpl. rewrite list_elem_of_filter. split; [intros ->; done|by apply Hl']. }
    split; [done|]. split; [by eapply piped_trans|]. intros Hs u [->|Hu]%elem_of_cons Hin; [|by apply I3].
    exfalso. apply (pi_less _ _ _ I2) in Hin. unfold s1 in Hin. simpl in Hin. rewrite fn_lookup_alter in Hin. simpl in Hin. rewrite list_elem_of_filter in Hin. tauto.
  - fold (answer p t (inl m) s). set (s2 := set_msq p _ (answer p t (inl m) s)).
    assert (A2 : alike (answer p t (inl m) s) s2) by (by apply stamp_alike). split; [|split; [|done]].
    + apply (core_alike _ s2); [apply wake_alike|]. eapply core_alike; [exact A2|]. apply (core_answer d s p t (inl m)); [done|done|done|done|]. by intros ? [= <-].
    + eapply piped_trans; [by apply (answer_piped p t (inl m) s)|]. assert (P2 : piped p (answer p t (inl m) s) s2) by (by apply stamp_piped).
      destruct P2. by split.
Qed.

(** ** Messages enter and leave a queue *)

Definition roomy (s : msgs) (p : Z) (m : msg_msg) : Prop :=
  text_bytes (msg_queues s p) + m_ts m < 2 ^ 31 /\ text_count (msg_queues s p) + 1 < 2 ^ 31.

Lemma count_small q : count_ok q -> 0 <= text_bytes q /\ 0 <= text_count q.
Proof.
  intros [_ _ _ H]. split; [|unfold text_count; lia]. apply sumZ_nonneg. intros m Hm. rewrite list.Forall_forall in H. apply (mo_size m), (H m Hm).
Qed.

Lemma queue_core_enqueue d s p m : core (d + nblocks m) s -> qlive s p -> msg_ok m -> roomy s p m -> core d (enqueue_msg p m s).
Proof.
  intros C L Hm [Hr1 Hr2]. pose proof (k_count _ _ C p L) as Hc. destruct (count_small _ Hc) as [Hp1 Hp2]. pose proof Hc as [C1 C2 C3 C4]. pose proof (mo_size m Hm).
  set (s' := enqueue_msg p m s). assert (Q : forall q, msg_queues s' q = if decide (q = p) then (msg_queues s p) <| q_messages ::= fun l => l ++ [m] |>
    <| q_cbytes ::= fun n => u32 (n + m_ts m) |> <| q_qnum ::= fun n => u32 (n + 1) |> else msg_queues s q) by (intros q; unfold s'; at_queue).
  assert (Qp : msg_queues s' p = (msg_queues s p) <| q_messages ::= fun l => l ++ [m] |> <| q_cbytes ::= fun n => u32 (n + m_ts m) |>
    <| q_qnum ::= fun n => u32 (n + 1) |>) by (rewrite Q; by rewrite decide_True).
  assert (T1 : text_bytes (msg_queues s' p) = text_bytes (msg_queues s p) + m_ts m) by (rewrite Qp; unfold text_bytes; simpl; rewrite sumZ_app; simpl; lia).
  assert (T2 : text_count (msg_queues s' p) = text_count (msg_queues s p) + 1) by (rewrite Qp; unfold text_count; simpl; rewrite length_app; simpl; lia).
  assert (T3 : text_blocks (msg_queues s' p) = text_blocks (msg_queues s p) + nblocks m) by (rewrite Qp; unfold text_blocks; simpl; rewrite sumZ_app; simpl; lia).
  apply (core_queue (d + nblocks m) d s s' p C L); try done.
  - intros q Hq. rewrite Q. by rewrite decide_False.
  - by rewrite Qp.
  - by rewrite Qp.
  - split; rewrite ?T1, ?T2; [| |lia|]; rewrite Qp; simpl.
    + rewrite C1. apply u32_small. lia.
    + rewrite C2. apply u32_small. lia.
    + apply Forall_app. split; [done|by apply Forall_singleton].
  - rewrite T1. change (msg_bytes s') with (s32 (msg_bytes s + m_ts m)). f_equal. lia.
  - rewrite T2. change (msg_hdrs s') with (s32 (msg_hdrs s + 1)). f_equal. lia.
  - rewrite T3. change (msg_blocks s') with (msg_blocks s). lia.
Qed.

(** Room only shrinks. *)
Lemma full_enqueue d s p m : core (d + nblocks m) s -> qlive s p -> msg_ok m -> roomy s p m -> full s p -> full (enqueue_msg p m s) p.
Proof.
  intros C L Hm [Hr1 Hr2] F t. pose proof (k_count _ _ C p L) as Hc. destruct (count_small _ Hc) as [Hp1 Hp2]. destruct Hc as [C1 C2 C3 C4]. pose proof (mo_size m Hm).
  assert (Q : msg_queues (enqueue_msg p m s) p = (msg_queues s p) <| q_messages ::= fun l => l ++ [m] |> <| q_cbytes ::= fun n => u32 (n + m_ts m) |>
    <| q_qnum ::= fun n => u32 (n + 1) |>) by (simpl; by rewrite fn_lookup_alter).
  rewrite Q. change (senders (enqueue_msg p m s)) with (senders s). cbn [q_senders update].
  intros Ht Hw. specialize (F t Ht Hw). destruct (k_snd _ _ C p t L Ht) as [P _ _ _]. destruct (th_sent _ _ (k_held _ _ C t) P) as [Hk _]. pose proof (mo_size _ Hk).
  unfold would_block in *. simpl. rewrite C1, C2 in *. rewrite orb_true_iff, !Z.ltb_lt in *.
  rewrite !(u32_small (text_bytes (msg_queues s p) + m_ts m)), !(u32_small (text_count (msg_queues s p) + 1)) by lia.
  rewrite !u32_small in F by lia. rewrite !u32_small by lia. lia.
Qed.
