(* ===== verification/MsgCalls.v ===== *)
(** * The message calls keep the invariant *)
From stdpp Require Import base sets list functions.
From S2P Require Import Prelude PidHash Bitmap Sched SchedCalls Proc User Cred Ipc IpcProofs SigCalls Sem Msg MsgInv MsgSteps.

(** ** A message leaves the queue *)

Lemma delete_messages i m q : q_messages q !! i = Some m -> count_ok q ->
  let q' := q <| q_messages ::= delete i |> in
  text_bytes q' = text_bytes q - m_ts m /\ text_count q' = text_count q - 1 /\ text_blocks q' = text_blocks q - nblocks m /\
  Forall msg_ok (q_messages q') /\ msg_ok m /\ m_ts m <= text_bytes q.
Proof.
  intros Hi [_ _ _ Ht]. cbv zeta. unfold text_bytes, text_count, text_blocks. simpl.
  assert (Hd : Forall msg_ok (delete i (q_messages q))) by (by apply Forall_delete).
  assert (Hm : msg_ok m) by (rewrite list.Forall_forall in Ht; apply Ht; by apply list_elem_of_lookup_2 in Hi).
  pose proof (sumZ_delete m_ts _ _ _ Hi) as E. assert (0 <= sumZ m_ts (delete i (q_messages q))).
  { apply sumZ_nonneg. intros x Hx. rewrite list.Forall_forall in Hd. apply (mo_size x), (Hd x Hx). }
  pose proof (lookup_lt_Some _ _ _ Hi) as Hl. split; [done|]. split; [rewrite length_delete by (by eexists); lia|].
  split; [by apply sumZ_delete|]. split; [done|]. split; [done|lia].
Qed.

Lemma take_msg_ok d s p i m : msg_inv d s -> qlive s p -> q_messages (msg_queues s p) !! i = Some m ->
  msg_inv (d + nblocks m) (take_msg p i m s) /\ msg_ok m /\ self (take_msg p i m s) = self s /\ phases (take_msg p i m s) = phases s.
Proof.
  intros [C H] L Hi. pose proof (k_count _ _ C p L) as Hc. destruct (delete_messages i m _ Hi Hc) as (T1 & T2 & T3 & T4 & Hm & Tm).
  destruct (count_small _ Hc) as [Hp1 Hp2]. destruct Hc as [C1 C2 C3 C4]. pose proof (mo_size m Hm). unfold take_msg. cbv zeta.
  set (s1 := (set_msq p _ s) <| msg_bytes ::= _ |> <| msg_hdrs ::= _ |>).
  assert (Hn : 0 <= text_count (msg_queues s p) - 1) by (rewrite <- T2; unfold text_count; lia).
  set (f := fun q => q <| q_messages ::= delete i |> <| q_qnum ::= fun n => u32 (n - 1) |> <| q_rtime := m_now s |>
    <| q_lrpid := c_pid (me (m_cred s)) |> <| q_cbytes ::= fun n => u32 (n - m_ts m) |>).
  assert (Q : forall q, msg_queues s1 q = if decide (q = p) then f (msg_queues s p) else msg_queues s q) by (intros q; unfold s1; at_queue).
  assert (Qp : msg_queues s1 p = f (msg_queues s p)) by (rewrite Q; by rewrite decide_True).
  assert (S : msg_ids s1 = msg_ids s /\ senders s1 = senders s /\ receivers s1 = receivers s /\ phases s1 = phases s /\ m_cred s1 = m_cred s) by done.
  destruct S as (S1 & S2 & S3 & S4 & S5).
  assert (F1 : text_bytes (msg_queues s1 p) = text_bytes (msg_queues s p) - m_ts m) by (rewrite Qp; exact T1).
  assert (F2 : text_count (msg_queues s1 p) = text_count (msg_queues s p) - 1) by (rewrite Qp; exact T2).
  assert (F3 : text_blocks (msg_queues s1 p) = text_blocks (msg_queues s p) - nblocks m) by (rewrite Qp; exact T3).
  assert (C' : core (d + nblocks m) s1).
  { apply (core_queue d _ s s1 p C L S1); [done|intros q Hq; rewrite Q; by rewrite decide_False|by rewrite Qp|by rewrite Qp| | | |].
    - split; rewrite ?F1, ?F2; [| |lia|]; rewrite Qp; [| |exact T4]; simpl.
      + rewrite C1. apply u32_small. lia.
      + rewrite C2. apply u32_small. lia.
    - rewrite F1. change (msg_bytes s1) with (s32 (msg_bytes s - m_ts m)). f_equal. lia.
    - rewrite F2. change (msg_hdrs s1) with (s32 (msg_hdrs s - 1)). f_equal. lia.
    - rewrite F3. change (msg_blocks s1) with (msg_blocks s). lia. }
  split; [|split; [done|]].
  - apply inv_wakeup; [done|]. intros q Lq. assert (Lq' : qlive s q) by done. destruct (H q Lq') as [M F]. split.
    + intros t x. rewrite S3, Q. destruct (decide (q = p)) as [->|]; [|apply M]. simpl. intros Ht Hx. apply M; [done|].
      apply list_elem_of_lookup in Hx as (j & Hj). rewrite list_lookup_delete in Hj. destruct (decide (j < i)%nat); eapply list_elem_of_lookup_2, Hj.
    + intros Hne t. rewrite S2, Q, decide_False by done. apply F.
  - clearbody s1. clear - S4 S5. unfold ss_wakeup. destruct (wakeup_spec (q_senders (msg_queues s1 p)) s1) as (A & _ & E & _).
    split; [unfold self; by rewrite E, S5|by rewrite (al_phases _ _ A)].
Qed.

(** ** Falling asleep *)

Lemma running_nowhere d s t q : core d s -> phases s t = Running -> qlive s q -> t ∉ q_receivers (msg_queues s q) /\ t ∉ q_senders (msg_queues s q).
Proof. intros C Hr L. split; intros Ht; [destruct (k_rcv _ _ C q t L Ht)|destruct (k_snd _ _ C q t L Ht)]; congruence. Qed.

Lemma NoDup_snoc {A} (l : list A) x : NoDup l -> x ∉ l -> NoDup (l ++ [x]).
Proof.
  intros N Hx. apply list.NoDup_app. split; [done|]. split; [intros y Hy ->%list_elem_of_singleton; done|]. apply NoDup_singleton.
Qed.

Lemma sleep_sender d s p m msqid flg : let t := self s in
  msg_inv (d + nblocks m) s -> 0 <= msqid -> msg_lock msqid s = Some p -> phases s t = Running -> msg_ok m -> would_block (msg_queues s p) (m_ts m) = true ->
  msg_inv d (set_phase t Sending (ss_add p (MsgSender false false 0 m msqid flg) s)).
Proof.
  intros t [C H] Hid Hl Hr Hm Hw. pose proof (mlock_live s msqid p Hid Hl) as L. set (s' := set_phase t Sending _).
  assert (Q : forall q, msg_queues s' q = if decide (q = p) then (msg_queues s p) <| q_senders ::= fun l => l ++ [t] |> else msg_queues s q) by (intros q; unfold s'; at_queue).
  assert (Qp : msg_queues s' p = (msg_queues s p) <| q_senders ::= fun l => l ++ [t] |>) by (rewrite Q; by rewrite decide_True).
  assert (X : senders s' t = MsgSender true false p m msqid flg) by (unfold s', ss_add; simpl; apply fn_lookup_insert).
  assert (Pt : phases s' t = Sending) by (unfold s'; rewrite set_phase_at; by rewrite decide_True).
  assert (Xo : forall u, u <> t -> senders s' u = senders s u /\ receivers s' u = receivers s u /\ phases s' u = phases s u).
  { intros u Hu. unfold s', ss_add. simpl. by rewrite !fn_lookup_insert_ne by done. }
  assert (S : msg_ids s' = msg_ids s /\ receivers s' = receivers s /\ msg_bytes s' = msg_bytes s /\ msg_hdrs s' = msg_hdrs s /\ msg_blocks s' = msg_blocks s) by done.
  destruct S as (S1 & S2 & S3 & S4 & S5). clearbody s'. pose proof (running_nowhere _ s t p C Hr L) as [Np1 Np2]. destruct (k_once _ _ C p L) as [N1 N2].
  split.
  - apply (core_local (d + nblocks m) d s s' p t C L S1).
    + intros q Hq. rewrite Q. by rewrite decide_False.
    + done.
    + intros u Hu. by rewrite Qp.
    + intros u Hu. rewrite Qp. simpl. rewrite elem_of_app, list_elem_of_singleton. tauto.
    + rewrite Qp. split; [done|]. simpl. by apply NoDup_snoc.
    + intros q Lq Hq. exfalso. rewrite Q in Hq. destruct (running_nowhere _ s t q C Hr Lq) as [Nq _]. destruct (decide (q = p)) as [->|]; done.
    + intros q Lq Hq. assert (q = p) as ->.
      { destruct (decide (q = p)) as [->|Hne]; [done|]. rewrite Q, decide_False in Hq by done. by destruct (running_nowhere _ s t q C Hr Lq). }
      split; [done|by rewrite X|by rewrite X|]. rewrite X. split; [done|]. unfold msg_lock in *. by rewrite S1.
    + rewrite Qp. destruct (k_count _ _ C p L). by split.
    + split; rewrite ?Pt, ?X; try done. simpl. intros _ _. split; [unfold qlive; by rewrite S1|]. rewrite Qp. simpl. apply elem_of_app. right. apply list_elem_of_here.
    + rewrite S3, (proj1 (k_bytes _ _ C)), Qp, s32_add. f_equal. unfold text_bytes. simpl. lia.
    + rewrite S4, (proj2 (k_bytes _ _ C)), Qp, s32_add. f_equal. unfold text_count. simpl. lia.
    + rewrite S5, Qp. unfold held_blocks. rewrite Pt, Hr, X. unfold text_blocks. simpl. lia.
  - intros q Lq. assert (Lq' : qlive s q) by (unfold qlive in *; by rewrite S1 in Lq). destruct (H q Lq') as [M F]. split.
    + intros u x. rewrite S2, Q. destruct (decide (q = p)) as [->|]; apply M.
    + intros u. destruct (decide (u = t)) as [->|Hne].
      * rewrite X. simpl. intros Hu _. assert (q = p) as ->.
        { destruct (decide (q = p)) as [->|Hq]; [done|]. rewrite Q, decide_False in Hu by done. by destruct (running_nowhere _ s t q C Hr Lq'). }
        by rewrite Qp.
      * destruct (Xo u Hne) as (-> & _). rewrite Q. destruct (decide (q = p)) as [->|]; [|apply F]. simpl. rewrite elem_of_app, list_elem_of_singleton.
        intros [Hu|?]; [by apply F|done].
Qed.

Lemma sleep_receiver d s p mode ty maxsize msqid msgsz flg : let t := self s in
  let r := MsgReceiver mode ty maxsize (inr (- EAGAIN)) p msqid msgsz flg in
  msg_inv d s -> 0 <= msqid -> msg_lock msqid s = Some p -> phases s t = Running -> 0 <= msgsz ->
  (forall m, m ∈ q_messages (msg_queues s p) -> testmsg m ty mode = false) ->
  msg_inv d (set_phase t Receiving (interruptible t
    ((set_msq p (fun q => q <| q_receivers ::= fun l => l ++ [t] |>) s) <| receivers ::= <[t := r]> |>))).
Proof.
  intros t r [C H] Hid Hl Hr Hsz Hno. pose proof (mlock_live s msqid p Hid Hl) as L. set (s' := set_phase t Receiving _).
  assert (Q : forall q, msg_queues s' q = if decide (q = p) then (msg_queues s p) <| q_receivers ::= fun l => l ++ [t] |> else msg_queues s q) by (intros q; unfold s'; at_queue).
  assert (Qp : msg_queues s' p = (msg_queues s p) <| q_receivers ::= fun l => l ++ [t] |>) by (rewrite Q; by rewrite decide_True).
  assert (X : receivers s' t = r) by (unfold s'; simpl; apply fn_lookup_insert).
  assert (Pt : phases s' t = Receiving) by (unfold s'; rewrite set_phase_at; by rewrite decide_True).
  assert (Xo : forall u, u <> t -> senders s' u = senders s u /\ receivers s' u = receivers s u /\ phases s' u = phases s u).
  { intros u Hu. unfold s'. simpl. by rewrite !fn_lookup_insert_ne by done. }
  assert (S : msg_ids s' = msg_ids s /\ senders s' = senders s /\ msg_bytes s' = msg_bytes s /\ msg_hdrs s' = msg_hdrs s /\ msg_blocks s' = msg_blocks s) by done.
  destruct S as (S1 & S2 & S3 & S4 & S5). clearbody s'. pose proof (running_nowhere _ s t p C Hr L) as [Np1 Np2]. destruct (k_once _ _ C p L) as [N1 N2].
  split.
  - apply (core_local d d s s' p t C L S1).
    + intros q Hq. rewrite Q. by rewrite decide_False.
    + done.
    + intros u Hu. rewrite Qp. simpl. rewrite elem_of_app, list_elem_of_singleton. tauto.
    + intros u Hu. by rewrite Qp.
    + rewrite Qp. split; [|done]. simpl. by apply NoDup_snoc.
    + intros q Lq Hq. assert (q = p) as ->.
      { destruct (decide (q = p)) as [->|Hne]; [done|]. rewrite Q, decide_False in Hq by done. by destruct (running_nowhere _ s t q C Hr Lq). }
      split; [done|by rewrite X|by rewrite X|]. rewrite X. split; [done|]. unfold msg_lock in *. by rewrite S1.
    + intros q Lq Hq. exfalso. rewrite Q in Hq. destruct (running_nowhere _ s t q C Hr Lq) as [_ Nq]. destruct (decide (q = p)) as [->|]; done.
    + rewrite Qp. destruct (k_count _ _ C p L). by split.
    + split; rewrite ?Pt, ?X; try done. simpl. intros _ _. split; [unfold qlive; by rewrite S1|]. rewrite Qp. simpl. apply elem_of_app. right. apply list_elem_of_here.
    + rewrite S3, (proj1 (k_bytes _ _ C)), Qp, s32_add. f_equal. unfold text_bytes. simpl. lia.
    + rewrite S4, (proj2 (k_bytes _ _ C)), Qp, s32_add. f_equal. unfold text_count. simpl. lia.
    + rewrite S5, Qp. unfold held_blocks. rewrite Pt, Hr, X. unfold text_blocks. simpl. lia.
  - intros q Lq. assert (Lq' : qlive s q) by (unfold qlive in *; by rewrite S1 in Lq). destruct (H q Lq') as [M F]. split.
    + intros u x. destruct (decide (u = t)) as [->|Hne].
      * rewrite X. intros Hu. assert (q = p) as ->.
        { destruct (decide (q = p)) as [->|Hq]; [done|]. rewrite Q, decide_False in Hu by done. by destruct (running_nowhere _ s t q C Hr Lq'). }
        rewrite Qp. apply Hno.
      * destruct (Xo u Hne) as (_ & -> & _). rewrite Q. destruct (decide (q = p)) as [->|]; [|apply M]. simpl. rewrite elem_of_app, list_elem_of_singleton.
        intros [Hu|?]; [by apply M|done].
    + intros u. rewrite S2, Q. destruct (decide (q = p)) as [->|]; apply F.
Qed.

(** ** Waking up *)

Lemma core_awake d s t : core d s -> (forall q, qlive s q -> t ∉ q_receivers (msg_queues s q) /\ t ∉ q_senders (msg_queues s q)) ->
  core (d + held_blocks s t) (awake t s).
Proof.
  intros C Hn. set (s' := awake t s). assert (P : forall u, phases s' u = if decide (u = t) then Running else phases s u) by (intros u; apply set_phase_at).
  assert (Po : forall u, u <> t -> phases s' u = phases s u) by (intros u Hu; rewrite P; by rewrite decide_False).
  assert (Pt : phases s' t = Running) by (rewrite P; by rewrite decide_True).
  pose proof C as [K1 K2 K3 K4 K5 K6 K7 K8].
  assert (S : msg_ids s' = msg_ids s /\ msg_queues s' = msg_queues s /\ senders s' = senders s /\ receivers s' = receivers s /\ msg_bytes s' = msg_bytes s /\
    msg_hdrs s' = msg_hdrs s /\ msg_blocks s' = msg_blocks s) by done.
  destruct S as (S1 & S2 & S3 & S4 & S5 & S6 & S7). clearbody s'.
  assert (T : forall f, total f s' = total f s) by (intros f; unfold total; by rewrite S1, S2).
  assert (L : forall q, qlive s' q <-> qlive s q) by (intros q; unfold qlive; by rewrite S1).
  split.
  - by rewrite S1.
  - intros q u Lq Hu. rewrite S2 in Hu. apply L in Lq. destruct (K2 q u Lq Hu) as [R1 R2 R3 R4].
    assert (u <> t) by (intros ->; by destruct (Hn q Lq)). split; rewrite ?S4, ?Po by done; try done. unfold msg_lock. by rewrite S1.
  - intros q u Lq Hu. rewrite S2 in Hu. apply L in Lq. destruct (K3 q u Lq Hu) as [R1 R2 R3 R4].
    assert (u <> t) by (intros ->; by destruct (Hn q Lq)). split; rewrite ?S3, ?Po by done; try done. unfold msg_lock. by rewrite S1.
  - intros q Lq. rewrite S2. by apply K4, L.
  - intros q Lq. rewrite S2. by apply K5, L.
  - intros u. destruct (decide (u = t)) as [->|Hne]; [split; by rewrite Pt|]. destruct (K6 u). split; rewrite ?Po, ?S2, ?S3, ?S4, ?L by done; done.
  - by rewrite S5, S6, !T.
  - destruct K8 as (l & N & E & Bk). destruct (tasks_change s s' t l N E) as (l' & N' & E' & S').
    { intros u Hne. split; [by apply Po|]. unfold held_blocks. by rewrite (Po u Hne), S3, S4. }
    exists l'. split; [done|]. split; [done|]. rewrite S', S7, T, Bk. assert (held_blocks s' t = 0) as -> by (unfold held_blocks; by rewrite Pt). lia.
Qed.

Lemma inv_awake_off d s t : msg_inv d s -> (forall q, qlive s q -> t ∉ q_receivers (msg_queues s q) /\ t ∉ q_senders (msg_queues s q)) ->
  msg_inv (d + held_blocks s t) (awake t s).
Proof. intros [C H] Hn. split; [by apply core_awake|done]. Qed.

(** The task leaves the lists of the queue it waited for. *)
Definition leaves (p : Z) (t : tid) (f : msg_queue -> msg_queue) (s : msgs) : msgs := set_msq p f (awake t s).

Lemma inv_leave d s p t f : msg_inv d s -> qlive s p -> phases s t <> Running ->
  (forall q, q_cbytes (f q) = q_cbytes q /\ q_qnum (f q) = q_qnum q /\ q_qbytes (f q) = q_qbytes q /\ q_messages (f q) = q_messages q) ->
  (forall u, u ∈ q_receivers (f (msg_queues s p)) <-> u <> t /\ u ∈ q_receivers (msg_queues s p)) ->
  (forall u, u ∈ q_senders (f (msg_queues s p)) <-> u <> t /\ u ∈ q_senders (msg_queues s p)) ->
  NoDup (q_receivers (f (msg_queues s p))) /\ NoDup (q_senders (f (msg_queues s p))) ->
  (forall q, qlive s q -> q <> p -> t ∉ q_receivers (msg_queues s q) /\ t ∉ q_senders (msg_queues s q)) ->
  msg_inv (d + held_blocks s t) (leaves p t f s).
Proof.
  intros [C H] L Hp Hf Hrl Hsl Hnd Ho. unfold leaves. set (s' := set_msq p f (awake t s)).
  assert (Q : forall q, msg_queues s' q = if decide (q = p) then f (msg_queues s p) else msg_queues s q) by (intros q; unfold s'; at_queue).
  assert (Qp : msg_queues s' p = f (msg_queues s p)) by (rewrite Q; by rewrite decide_True).
  assert (P : forall u, phases s' u = if decide (u = t) then Running else phases s u) by (intros u; apply (set_phase_at t Running s)).
  assert (Pt : phases s' t = Running) by (rewrite P; by rewrite decide_True).
  assert (S : msg_ids s' = msg_ids s /\ senders s' = senders s /\ receivers s' = receivers s /\ msg_bytes s' = msg_bytes s /\ msg_hdrs s' = msg_hdrs s /\
    msg_blocks s' = msg_blocks s) by done. destruct S as (S1 & S2 & S3 & S4 & S5 & S6). clearbody s'.
  destruct (Hf (msg_queues s p)) as (F1 & F2 & F3 & F4).
  assert (Tx : text_bytes (f (msg_queues s p)) = text_bytes (msg_queues s p) /\ text_count (f (msg_queues s p)) = text_count (msg_queues s p) /\
    text_blocks (f (msg_queues s p)) = text_blocks (msg_queues s p)) by (unfold text_bytes, text_count, text_blocks; by rewrite F4). destruct Tx as (T1 & T2 & T3).
  split.
  - apply (core_local d _ s s' p t C L S1).
    + intros q Hq. rewrite Q. by rewrite decide_False.
    + intros u Hu. rewrite S2, S3, P. by rewrite decide_False.
    + intros u Hu. rewrite Qp, Hrl. tauto.
    + intros u Hu. rewrite Qp, Hsl. tauto.
    + by rewrite Qp.
    + intros q Lq Hq. exfalso. destruct (decide (q = p)) as [->|Hne]; [rewrite Qp, Hrl in Hq; tauto|]. rewrite Q, decide_False in Hq by done. by destruct (Ho q Lq Hne).
    + intros q Lq Hq. exfalso. destruct (decide (q = p)) as [->|Hne]; [rewrite Qp, Hsl in Hq; tauto|]. rewrite Q, decide_False in Hq by done. by destruct (Ho q Lq Hne).
    + rewrite Qp. destruct (k_count _ _ C p L). split; rewrite ?T1, ?T2, ?F1, ?F2, ?F4; done.
    + split; by rewrite Pt.
    + rewrite S4, Qp, T1, (proj1 (k_bytes _ _ C)), s32_add. f_equal. lia.
    + rewrite S5, Qp, T2, (proj2 (k_bytes _ _ C)), s32_add. f_equal. lia.
    + rewrite S6, Qp, T3. assert (held_blocks s' t = 0) as -> by (unfold held_blocks; by rewrite Pt). lia.
  - intros q Lq. assert (Lq' : qlive s q) by (unfold qlive in *; by rewrite S1 in Lq). destruct (H q Lq') as [M F]. split.
    + intros u x. rewrite S3, Q. destruct (decide (q = p)) as [->|]; [|apply M]. rewrite F4, Hrl. intros [_ Hu]. by apply M.
    + intros u. rewrite S2, Q. destruct (decide (q = p)) as [->|]; [|apply F]. rewrite Hsl. intros [_ Hu] Hw. specialize (F u Hu Hw).
      unfold would_block in *. by rewrite F1, F2, F3.
Qed.

(** * Histories of message calls *)

(** ** Sending *)

Lemma send_ok d s p m : msg_inv (d + nblocks m) s -> qlive s p -> msg_ok m -> roomy s p m ->
  let '(s', sent) := pipelined_send p m s in msg_inv d (if sent then s' else enqueue_msg p m s').
Proof.
  intros [C H] L Hm Hr. unfold pipelined_send. destruct (k_once _ _ C p L) as [N _].
  pose proof (pipelined_ok p m (q_receivers (msg_queues s p)) (d + nblocks m) s C L Hm N ltac:(done)) as P.
  destruct (pipelined p m _ s) as [s' sent]. destruct P as (C' & [P1 P2 P3 P4 (P5 & P6 & P7 & P8 & P9) P10 P11 P12] & T).
  assert (Ll : forall q, qlive s' q <-> qlive s q) by (intros q; unfold qlive; by rewrite P1).
  assert (M : forall q, qlive s q -> matched s' q).
  { intros q Lq. destruct (H q Lq) as [Mq _]. destruct (decide (q = p)) as [->|Hne].
    - intros t x Ht Hx. rewrite P11 by (by left). rewrite P8 in Hx. apply Mq; [by apply P10|done].
    - intros t x. rewrite P4 by done. intros Ht. rewrite P11; [by apply Mq|]. right. intros Ht'.
      destruct (k_rcv _ _ C q t Lq Ht) as [_ X _ _]. destruct (k_rcv _ _ C p t L Ht') as [_ Y _ _]. congruence. }
  assert (F : forall q, qlive s q -> full s' q).
  { intros q Lq. destruct (H q Lq) as [_ Fq]. intros t. rewrite P2. destruct (decide (q = p)) as [->|Hne]; [|rewrite P4 by done; apply Fq].
    rewrite P9. intros Ht Hw. specialize (Fq t Ht Hw). unfold would_block in *. by rewrite P5, P6, P7. }
  destruct sent.
  - split; [by replace d with (d + nblocks m - nblocks m) by lia|]. intros q Lq. apply Ll in Lq. split; [by apply M|by apply F].
  - rewrite Z.sub_0_r in C'. assert (L' : qlive s' p) by (by apply Ll).
    assert (R' : roomy s' p m) by (unfold roomy, text_bytes, text_count in *; by rewrite P8).
    split; [by apply queue_core_enqueue|]. intros q Lq. assert (Lq' : qlive s q) by (by apply Ll). split.
    + intros t x. change (receivers (enqueue_msg p m s')) with (receivers s').
      assert (Q : msg_queues (enqueue_msg p m s') q = if decide (q = p) then (msg_queues s' p) <| q_messages ::= fun l => l ++ [m] |>
        <| q_cbytes ::= fun n => u32 (n + m_ts m) |> <| q_qnum ::= fun n => u32 (n + 1) |> else msg_queues s' q) by at_queue.
      rewrite Q. destruct (decide (q = p)) as [->|]; [|by apply M]. simpl. intros Ht [Hx| ->%list_elem_of_singleton]%elem_of_app; [by apply (M p)|].
      apply T; [done|by apply P10|done].
    + destruct (decide (q = p)) as [->|Hne]; [apply (full_enqueue d); [done|done|done|done|by apply F]|].
      intros t. change (senders (enqueue_msg p m s')) with (senders s').
      assert (Q : msg_queues (enqueue_msg p m s') q = msg_queues s' q) by (simpl; by rewrite fn_lookup_alter_ne). rewrite Q. by apply F.
Qed.

Lemma msgsnd_try_ok d s p msqid m flg : msg_inv (d + nblocks m) s -> 0 <= msqid -> msg_lock msqid s = Some p ->
  phases s (self s) = Running -> msg_ok m -> roomy s p m -> msg_inv d (fst (msgsnd_try p msqid m flg s)).
Proof.
  intros I Hid Hl Hr Hm Hroom. unfold msgsnd_try. destruct (msg_checkid p msqid s); [by apply inv_free|].
  destruct (perms_frame p S_IWUGO s) as (c & E & Ec). destruct (msg_perms p S_IWUGO s) as [s1 refused]. cbn [fst] in E. subst s1.
  apply (inv_cred _ s c) in I. set (s1 := s <| m_cred := c |>) in *.
  assert (Hs : self s1 = self s /\ phases s1 = phases s /\ msg_queues s1 = msg_queues s) by done. destruct Hs as (S1 & S2 & S3).
  assert (Hl1 : msg_lock msqid s1 = Some p) by done. clearbody s1.
  destruct refused; [by apply inv_free|]. destruct (would_block (msg_queues s1 p) (m_ts m)) eqn:W.
  - destruct (has flg IPC_NOWAIT); [by apply inv_free|]. cbn [fst]. apply sleep_sender; [done|done|done|by rewrite S1, S2|done|done].
  - set (s2 := set_msq p _ s1). assert (A : alike s1 s2) by (by apply stamp_alike). assert (I2 : msg_inv (d + nblocks m) s2) by (apply (inv_alike _ s1); [done|done|done]).
    pose proof (send_ok d s2 p m I2) as P. destruct (pipelined_send p m s2) as [s3 sent]. cbn [fst]. apply P; [|done|].
    + pose proof (mlock_live s1 msqid p Hid Hl1) as L. unfold qlive in *. by rewrite (al_ids _ _ A).
    + assert (Q : q_messages (msg_queues s2 p) = q_messages (msg_queues s1 p)) by (unfold s2; simpl; by rewrite fn_lookup_alter).
      unfold roomy, text_bytes, text_count in *. by rewrite Q, S3.
Qed.

(** The memory of the kernel is less than two gigabytes: there is room for the counts. *)
Definition memory_ok (s : msgs) (m : msg_msg) : Prop := forall p, qlive s p -> roomy s p m.

Lemma msgsnd_ok msqid mtype usr alloc msgsz flg s : msg_inv 0 s -> phases s (self s) = Running -> 0 <= msgsz < 2 ^ 32 ->
  (forall m, m_ts m = msgsz -> memory_ok s m) -> msg_inv 0 (fst (sys_msgsnd msqid mtype usr alloc msgsz flg s)).
Proof.
  intros I Hr Hsz Hmem. unfold sys_msgsnd. destruct (_ || _) eqn:G; [done|]. rewrite !orb_false_iff, !Z.ltb_ge in G. destruct G as [[_ G1] G2].
  assert (Hs2 : msgsz < 2 ^ 31).
  { destruct (Z.lt_ge_cases msgsz (2 ^ 31)); [done|]. exfalso. unfold s32 in G1.
    assert ((msgsz + 2 ^ 31) `mod` 2 ^ 32 = msgsz + 2 ^ 31 - 2 ^ 32) by (rewrite <- (Z.mod_add _ (-1) (2 ^ 32)) by lia; rewrite Z.mod_small; lia). lia. }
  destruct mtype as [ty|]; [|done]. destruct (Z.ltb_spec ty 1); [done|]. pose proof (load_msg_ok usr alloc msgsz s ltac:(lia)) as Lm.
  destruct (load_msg usr alloc msgsz s) as [s1 [m|e]]; [|by destruct Lm as (-> & _)]. destruct Lm as (-> & Hm & _). specialize (Hm ty ltac:(lia)).
  set (m' := m <| m_type := ty |> <| m_ts := msgsz |>) in *. assert (Eb : nblocks m' = nblocks m) by done. rewrite <- Eb.
  assert (Em : m_ts m' = msgsz) by done. clearbody m'.
  pose proof (inv_blocks 0 (nblocks m') s I) as I1.
  set (s1 := add_blocks (nblocks m') s) in *. destruct (msg_lock msqid s1) as [p|] eqn:E; [|cbn [fst]; apply (inv_free 0); done].
  apply (msgsnd_try_ok 0 s1 p); try done. apply (Hmem m' Em), (mlock_live s1 msqid p G2 E).
Qed.

Lemma unlisted d s t : core d s -> phases s t <> Running -> (phases s t = Sending -> s_linked (senders s t) = false) ->
  (phases s t = Receiving -> r_msg (receivers s t) <> inr (- EAGAIN)) ->
  forall q, qlive s q -> t ∉ q_receivers (msg_queues s q) /\ t ∉ q_senders (msg_queues s q).
Proof.
  intros C _ H1 H2 q Lq. split; intros Ht.
  - destruct (k_rcv _ _ C q t Lq Ht) as [P _ R _]. by apply (H2 P).
  - destruct (k_snd _ _ C q t Lq Ht) as [P S _ _]. rewrite (H1 P) in S. done.
Qed.

(** The list without the task. *)
Lemma without_list (l : list tid) (t : tid) : NoDup l -> NoDup (filter (fun u => u <> t) l) /\ forall u, u ∈ filter (fun u => u <> t) l <-> u <> t /\ u ∈ l.
Proof. intros N. split; [by apply list.NoDup_filter|]. intros u. by rewrite list_elem_of_filter. Qed.

Lemma snd_resume_ok signalled s : msg_inv 0 s -> phases s (self s) = Sending ->
  (forall p, qlive s p -> roomy s p (s_msg (senders s (self s)))) -> msg_inv 0 (fst (msgsnd_resume signalled s)).
Proof.
  intros I Hp Hroom. pose proof I as [C H]. set (t := self s) in *. destruct (th_sent _ _ (k_held _ _ C t) Hp) as [Hm Hid].
  unfold msgsnd_resume. fold t. cbv zeta. set (x := senders s t) in *. assert (Hb : held_blocks s t = nblocks (s_msg x)) by (unfold held_blocks; by rewrite Hp).
  change (msg_lock (s_msqid x) (awake t s)) with (msg_lock (s_msqid x) s).
  assert (J : msg_inv (0 + nblocks (s_msg x)) (ss_del t (awake t s)) /\ (s_linked x = true -> msg_lock (s_msqid x) s <> None) /\
    msg_ids (ss_del t (awake t s)) = msg_ids s /\ (forall q, q_messages (msg_queues (ss_del t (awake t s)) q) = q_messages (msg_queues s q))).
  { rewrite <- Hb. unfold ss_del. change (senders (awake t s) t) with x. destruct (s_linked x) eqn:Lk.
    - destruct (th_linked _ _ (k_held _ _ C t) Hp Lk) as [L Ht]. fold x in L, Ht. destruct (k_once _ _ C _ L) as [N1 N2].
      destruct (k_snd _ _ C _ t L Ht) as [_ _ _ [_ Lo]]. fold x in Lo. split; [|split; [intros _; by rewrite Lo|split; [done|]]].
      + apply (inv_leave 0 s (s_queue x) t); [done|done|congruence|done| |by apply without_list|split; [done|by apply without_list]|].
        * intros u. simpl. split; [|tauto]. intros Hu. split; [|done]. intros ->. destruct (k_rcv _ _ C _ t L Hu). congruence.
        * intros q Lq Hq. split; intros Hu; [destruct (k_rcv _ _ C q t Lq Hu); congruence|]. destruct (k_snd _ _ C q t Lq Hu) as [_ _ X _]. fold x in X. congruence.
      + intros q. rewrite set_msq_at. by destruct (decide (q = s_queue x)) as [->|].
    - split; [|done]. apply inv_awake_off; [done|]. apply (unlisted 0); [done|congruence|done|congruence]. }
  destruct J as (J1 & J2 & J3 & J4). destruct (msg_lock (s_msqid x) s) as [p|] eqn:E.
  2:{ destruct (s_linked x) eqn:Lk; [by destruct (J2 eq_refl)|]. cbn [fst]. apply inv_free. unfold ss_del in J1. change (senders (awake t s) t) with x in J1. by rewrite Lk in J1. }
  set (s1 := ss_del t (awake t s)) in *. assert (Hs1 : self s1 = t /\ phases s1 t = Running).
  { unfold s1, ss_del. destruct (s_linked _); (split; [done|]); apply fn_lookup_insert. }
  clearbody s1. destruct Hs1 as [Hs1 Hs2]. destruct signalled; [by apply inv_free|].
  apply msgsnd_try_ok; [done|done|unfold msg_lock in *; by rewrite J3|by rewrite Hs1|done|].
  unfold roomy, text_bytes, text_count in *. rewrite J4. apply Hroom, (mlock_live s (s_msqid x) p Hid E).
Qed.

(** ** Receiving *)

Lemma find_none ty mode l : forall i found, find_msg ty mode i found l = None -> found = None /\ forall m, m ∈ l -> testmsg m ty mode = false.
Proof.
  revert ty. induction l as [|m l IH]; intros ty i found; simpl; [intros ->; split; [done|intros m ?%not_elem_of_nil; done]|].
  destruct (testmsg m ty mode) eqn:E; [destruct (_ && _)|].
  - intros X. by apply IH in X as [? _].
  - done.
  - intros X. apply IH in X as [-> Y]. split; [done|]. intros x [->|Hx]%elem_of_cons; [done|by apply Y].
Qed.
Lemma find_some ty mode l : forall i found j, find_msg ty mode i found l = Some j -> found = Some j \/ exists k m, j = (i + k)%nat /\ l !! k = Some m.
Proof.
  revert ty. induction l as [|m l IH]; intros ty i found j; simpl; [by left|].
  assert (G : forall ty found, find_msg ty mode (S i) found l = Some j -> found = Some j \/ exists k x, j = (i + k)%nat /\ (m :: l) !! k = Some x).
  { intros ty' found' X. apply IH in X as [?|(k & x & -> & Hx)]; [by left|]. right. exists (S k), x. split; [lia|done]. }
  destruct (testmsg m ty mode); [destruct (_ && _)|].
  - intros X. apply G in X as [[= <-]|?]; right; [|done]. exists 0%nat, m. split; [lia|done].
  - intros [= <-]. right. exists 0%nat, m. split; [lia|done].
  - apply G.
Qed.

Lemma out_success_ok put_type wr d m msgsz s : msg_inv (d + nblocks m) s -> msg_ok m -> 0 <= msgsz ->
  exists s' e, out_success put_type wr m msgsz s = Some (s', e) /\ msg_inv d s'.
Proof.
  intros I Hm Hs. unfold out_success. cbv zeta. apply inv_free in I. destruct put_type; cbn [negb]; [|eauto].
  rewrite if_min, store_msg_ok by (done || (pose proof (mo_size m Hm); lia)). cbn [mbind option_bind]. eauto.
Qed.

Lemma msgrcv_try_ok put_type wr d s p msqid msgsz ty mode flg : msg_inv d s -> 0 <= msqid -> msg_lock msqid s = Some p ->
  phases s (self s) = Running -> 0 <= msgsz ->
  exists s' e, msgrcv_try put_type wr p msqid msgsz ty mode flg s = Some (s', e) /\ msg_inv d s'.
Proof.
  intros I Hid Hl Hr Hsz. unfold msgrcv_try. destruct (msg_checkid p msqid s); [eauto|].
  destruct (perms_frame p S_IRUGO s) as (c & E & Ec). destruct (msg_perms p S_IRUGO s) as [s1 refused]. cbn [fst] in E. subst s1.
  apply (inv_cred _ s c) in I. set (s1 := s <| m_cred := c |>) in *.
  assert (Hs : self s1 = self s /\ phases s1 = phases s) by done. destruct Hs as (S1 & S2).
  assert (Hl1 : msg_lock msqid s1 = Some p) by done. clearbody s1. destruct refused; [eauto|]. pose proof (mlock_live s1 msqid p Hid Hl1) as L.
  destruct (find_msg ty mode 0 None (q_messages (msg_queues s1 p))) as [i|] eqn:Ef; cbn [mbind option_bind].
  - apply find_some in Ef as [?|(k & m & -> & Hm)]; [done|]. rewrite Nat.add_0_l, Hm. cbn [mbind option_bind].
    destruct (_ && _); [eauto|]. destruct (take_msg_ok d s1 p k m I L Hm) as (I' & Hok & _). by apply out_success_ok.
  - apply find_none in Ef as [_ Hno]. destruct (has flg IPC_NOWAIT); [eauto|]. eexists _, _. split; [done|].
    apply sleep_receiver; [done|done|done|by rewrite S1, S2|done|done].
Qed.

Lemma msgrcv_ok put_type wr msqid msgsz msgtyp flg s : msg_inv 0 s -> phases s (self s) = Running -> 0 <= msgsz ->
  exists s' e, sys_msgrcv put_type wr msqid msgsz msgtyp flg s = Some (s', e) /\ msg_inv 0 s'.
Proof.
  intros I Hr Hs. unfold sys_msgrcv. destruct (_ || _) eqn:G; [eauto|]. rewrite !orb_false_iff, !Z.ltb_ge in G. destruct G as [G1 G2].
  destruct (convert_mode msgtyp flg) as [ty mode]. destruct (msg_lock msqid s) as [p|] eqn:E; [|eauto]. by apply msgrcv_try_ok.
Qed.

Lemma rcv_resume_ok put_type wr signalled s : msg_inv 0 s -> phases s (self s) = Receiving ->
  exists s' e, msgrcv_resume put_type wr signalled s = Some (s', e) /\ msg_inv 0 s'.
Proof.
  intros I Hp. pose proof I as [C H]. set (t := self s) in *. pose proof (th_size _ _ (k_held _ _ C t) Hp) as Hsz.
  unfold msgrcv_resume. fold t. cbv zeta. set (r := receivers s t) in *.
  assert (Off : r_msg r <> inr (- EAGAIN) -> msg_inv (0 + held_blocks s t) (awake t s)).
  { intros Hne. apply inv_awake_off; [done|]. apply (unlisted 0); [done|congruence|congruence|done]. }
  assert (Hb : held_blocks s t = match r_msg r with inl m => nblocks m | inr _ => 0 end) by (unfold held_blocks; by rewrite Hp).
  destruct (r_msg r) as [m|err] eqn:Er.
  - apply (out_success_ok _ _ 0); [rewrite <- Hb; by apply Off|by apply (th_received _ _ (k_held _ _ C t) Hp)|done].
  - destruct (Z.eqb_spec err (- EAGAIN)) as [->|Hne].
    2:{ eexists _, _. split; [done|]. rewrite Hb in Off. apply Off. congruence. }
    destruct (th_waits _ _ (k_held _ _ C t) Hp Er) as [L Ht]. fold r in L, Ht. destruct (k_rcv _ _ C _ t L Ht) as [_ _ _ [Hid Lo]]. fold r in Hid, Lo.
    change (msg_lock (r_msqid r) (awake t s)) with (msg_lock (r_msqid r) s). rewrite Lo. destruct (k_once _ _ C _ L) as [N1 N2].
    match goal with |- context [set_msq (r_queue r) ?g (awake t s)] => set (f := g) end.
    assert (J : msg_inv 0 (set_msq (r_queue r) f (awake t s))).
    { replace 0 with (0 + held_blocks s t) by lia. apply (inv_leave 0 s (r_queue r) t f); [done|done|congruence|done|by apply without_list| |split; [by apply without_list|done]|].
      - intros u. simpl. split; [|tauto]. intros Hu. split; [|done]. intros ->. destruct (k_snd _ _ C _ t L Hu). congruence.
      - intros q Lq Hq. split; intros Hu; [|destruct (k_snd _ _ C q t Lq Hu); congruence]. destruct (k_rcv _ _ C q t Lq Hu) as [_ X _ _]. fold r in X. congruence. }
    destruct signalled; [eauto|]. apply msgrcv_try_ok; [done|done|done| |done]. apply fn_lookup_insert.
Qed.
