(* ===== verification/MsgCtl.v ===== *)
(** * Creating, changing and removing message queues *)
From stdpp Require Import base sets list functions.
From S2P Require Import Prelude PidHash Bitmap Sched SchedCalls Proc User Cred Ipc IpcProofs SigCalls Sem Msg MsgInv MsgSteps MsgCalls.

(** ** Creating *)

(** The identifiers change; the objects that were there stay, and [p] may be added. *)
Lemma core_ids d s s' p q0 (added : bool) : core d s -> ~ qlive s p ->
  (forall f, total f s' = total f s + if added then f q0 else 0) ->
  (forall i q, entries (msg_ids s) !! i = Some (Some q) -> entries (msg_ids s') !! i = Some (Some q)) ->
  (forall q, qlive s' q -> qlive s q \/ added = true /\ q = p) ->
  (forall i j, entries (msg_ids s') !! i = Some (Some p) -> entries (msg_ids s') !! j = Some (Some p) -> i = j) ->
  (forall i, entries (msg_ids s') !! i = Some (Some p) -> Z.of_nat i < IPCMNI) ->
  (forall i q, q <> p -> entries (msg_ids s') !! i = Some (Some q) -> entries (msg_ids s) !! i = Some (Some q)) ->
  (forall q, q <> p -> msg_queues s' q = msg_queues s q) -> (added = true -> msg_queues s' p = q0) ->
  q_messages q0 = [] /\ q_receivers q0 = [] /\ q_senders q0 = [] /\ q_cbytes q0 = 0 /\ q_qnum q0 = 0 ->
  senders s' = senders s /\ receivers s' = receivers s /\ phases s' = phases s /\ msg_bytes s' = msg_bytes s /\ msg_hdrs s' = msg_hdrs s /\
  msg_blocks s' = msg_blocks s -> core d s'.
Proof.
  intros C Np HT He Hl Hi Hm Hb Hq Hp (E1 & E2 & E3 & E4 & E5) (S1 & S2 & S3 & S4 & S5 & S6). pose proof C as [[K1 K0] K2 K3 K4 K5 K6 [K7 K8] K9].
  assert (Lk : forall id q, 0 <= id -> msg_lock id s = Some q -> msg_lock id s' = Some q) by (intros id q Hid X; apply mlock_spec; [done|]; apply He, mlock_spec; done).
  assert (Lq : forall q, qlive s q -> qlive s' q /\ q <> p) by (intros q (k & Hk); split; [exists k; by apply He|intros ->; by apply Np; exists k]).
  assert (T0 : total text_bytes s' = total text_bytes s /\ total text_count s' = total text_count s /\ total text_blocks s' = total text_blocks s).
  { rewrite !HT. unfold text_bytes, text_count, text_blocks. rewrite E1. simpl. destruct added; lia. }
  destruct T0 as (T1 & T2 & T3). split.
  - split; [intros i j q X Y; destruct (decide (q = p)) as [->|Hne]; [by apply Hi|]; apply (K1 i j q); by apply Hb|].
    intros i q X. destruct (decide (q = p)) as [->|Hne]; [by apply Hm|by apply (K0 i q), Hb].
  - intros q t L Ht. destruct (Hl q L) as [L'|[Ha ->]]; [|rewrite (Hp Ha), E2 in Ht; by apply not_elem_of_nil in Ht].
    destruct (Lq q L') as [_ Hne]. rewrite Hq in Ht by done. destruct (K2 q t L' Ht) as [R1 R2 R3 [R4 R5]]. split; rewrite ?S2, ?S3; try done. split; [done|by apply Lk].
  - intros q t L Ht. destruct (Hl q L) as [L'|[Ha ->]]; [|rewrite (Hp Ha), E3 in Ht; by apply not_elem_of_nil in Ht].
    destruct (Lq q L') as [_ Hne]. rewrite Hq in Ht by done. destruct (K3 q t L' Ht) as [R1 R2 R3 [R4 R5]]. split; rewrite ?S1, ?S3; try done. split; [done|by apply Lk].
  - intros q L. destruct (Hl q L) as [L'|[Ha ->]]; [|rewrite (Hp Ha), E2, E3; split; apply NoDup_nil_2]. destruct (Lq q L') as [_ Hne]. rewrite Hq by done. by apply K4.
  - intros q L. destruct (Hl q L) as [L'|[Ha ->]]; [destruct (Lq q L') as [_ Hne]; rewrite Hq by done; by apply K5|].
    rewrite (Hp Ha). split; unfold text_bytes, text_count; rewrite ?E1, ?E4, ?E5; [done|done|done|apply Forall_nil_2].
  - intros t. destruct (K6 t) as [H1 H2 H3 H4 H5]. split; rewrite ?S1, ?S2, ?S3; try done.
    + intros X Y. destruct (H4 X Y) as [L Ht]. destruct (Lq _ L) as [L' Hne]. split; [done|by rewrite Hq].
    + intros X Y. destruct (H5 X Y) as [L Ht]. destruct (Lq _ L) as [L' Hne]. split; [done|by rewrite Hq].
  - by rewrite S4, S5, T1, T2.
  - destruct K9 as (l & N & E & B). exists l. rewrite S3, S6, T3, B. split; [done|]. split; [done|]. f_equal. apply sumZ_ext. intros t _. unfold held_blocks. by rewrite S1, S2, S3.
Qed.

Lemma inv_ids s s' p q0 added : core 0 s' -> msg_inv 0 s -> (forall q, qlive s' q -> qlive s q \/ added = true /\ q = p) -> ~ qlive s p ->
  (forall q, q <> p -> msg_queues s' q = msg_queues s q) -> (added = true -> msg_queues s' p = q0) -> q_receivers q0 = [] -> q_senders q0 = [] ->
  senders s' = senders s -> receivers s' = receivers s -> msg_inv 0 s'.
Proof.
  intros C' [C H] Hl Np Hq Hp E2 E3 S1 S2. split; [done|]. intros q L. destruct (Hl q L) as [L'|[Ha ->]].
  - assert (q <> p) by (intros ->; done). destruct (H q L') as [M F]. split; [intros t m|intros t]; rewrite ?S1, ?S2, Hq by done; [apply M|apply F].
  - split; [intros t m|intros t]; rewrite (Hp Ha), ?E2, ?E3; by intros ?%not_elem_of_nil.
Qed.

Lemma newque_ok key flg new grow s : (forall p, new = Some p -> ~ qlive s p) -> msg_inv 0 s -> msg_inv 0 (fst (newque key flg new grow s)).
Proof.
  intros Hn I. pose proof I as [C H]. unfold newque. destruct new as [p|]; [|done]. pose proof (Hn p eq_refl) as Np.
  pose proof (addid_spec (msg_ids s) p (msg_ctlmni s) grow) as A. pose proof (addid_bound (msg_ids s) p (msg_ctlmni s) grow) as Bd. pose proof (fun h => sum_addid h (msg_ids s) p (msg_ctlmni s) grow) as T.
  destruct (ipc_addid (msg_ids s) p (msg_ctlmni s) grow) as [[ids id] seq].
  assert (Same : forall s' : msgs, (forall q, q <> p -> msg_queues s' q = msg_queues s q) -> forall f, sum_ents (fun q => f (msg_queues s' q)) (msg_ids s) = total f s).
  { intros s' Hq f. unfold total, sum_ents. apply sumZ_ext. intros [q|] Hin; [|done]. simpl. rewrite Hq; [done|]. intros ->. apply Np.
    apply list_elem_of_lookup in Hin as (k & Hk). by exists k. }
  destruct A as [[-> A]|(k & -> & A1 & A2)].
  - cbn [Z.eqb]. cbn [fst]. set (s' := s <| msg_ids := ids |>).
    set (q0 := MsgQueue (KernIpcPerm 0 0 0 0 0 0 0) 0 0 0 0 0 0 0 0 [] [] []).
    assert (Ll : forall q, qlive s' q <-> qlive s q) by (intros q; unfold qlive; simpl; split; intros (j & Hj); exists j; by apply A).
    assert (C' : core 0 s').
    { apply (core_ids 0 s s' p q0 false C Np); try done.
      - intros f. pose proof (T (fun q => f (msg_queues s q))) as X. cbn [Z.eqb] in X. exact X.
      - intros i q X. by apply A.
      - intros q L. left. by apply Ll.
      - intros i j X. exfalso. apply Np, Ll. by exists i.
      - intros i X. exfalso. apply Np, Ll. by exists i.
      - intros i q _ X. by apply A. }
    apply (inv_ids s s' p q0 false); try done. intros q L. left. by apply Ll.
  - destruct (Z.eqb_spec (Z.of_nat k) (-1)); [lia|]. cbn [fst]. set (q0 := MsgQueue _ 0 0 (m_now s) 0 0 _ 0 0 [] [] []).
    set (s' := s <| msg_ids := ids |> <| msg_queues ::= <[p := q0]> |>).
    assert (Qp : msg_queues s' p = q0) by (apply fn_lookup_insert). assert (Qo : forall q, q <> p -> msg_queues s' q = msg_queues s q) by (intros q Hq; simpl; by rewrite fn_lookup_insert_ne).
    assert (Ll : forall q, qlive s' q -> qlive s q \/ true = true /\ q = p).
    { intros q (j & Hj). simpl in Hj. apply A2 in Hj as [[_ ->]|[_ Hj]]; [by right|left; by exists j]. }
    assert (C' : core 0 s').
    { apply (core_ids 0 s s' p q0 true C Np); try done.
      - intros f. pose proof (T (fun q => f (msg_queues s' q))) as X. rewrite (Same s' Qo f), Qp in X. exact X.
      - intros i q X. apply A2. right. split; [|done]. intros ->. by apply (A1 q).
      - intros i j X Y. simpl in X, Y. apply A2 in X as [[-> _]|[_ X]]; [|by destruct Np; exists i]. apply A2 in Y as [[-> _]|[_ Y]]; [done|by destruct Np; exists j].
      - intros i X. simpl in X. apply A2 in X as [[-> _]|[_ X]]; [exact Bd|by destruct Np; exists i].
      - intros i q Hq X. simpl in X. by apply A2 in X as [[_ ->]|[_ X]]. }
    by apply (inv_ids s s' p q0 true).
Qed.

Lemma msgget_ok key flg new grow s s' r : (forall p, new = Some p -> ~ qlive s p) -> msg_inv 0 s -> sys_msgget key flg new grow s = Some (s', r) -> msg_inv 0 s'.
Proof.
  intros Hn I. pose proof (newque_ok key flg new grow s Hn I) as P. unfold sys_msgget. destruct (key =? IPC_PRIVATE).
  - intros [= E]. by rewrite E in P.
  - destruct (_ =? -1).
    + destruct (has flg IPC_CREAT); [intros [= E]; by rewrite E in P|by intros [= <- _]].
    + destruct (_ && _); [by intros [= <- _]|]. destruct (msg_lock _ s) as [p|]; [|done]. cbn [mbind option_bind].
      destruct (perms_frame p flg s) as (c & E & _). destruct (msg_perms p flg s) as [s1 refused]. cbn [fst] in E. subst s1. intros [= <- _]. by apply inv_cred.
Qed.

(** ** Changing *)

Lemma core_limits d s p f : core d s -> qlive s p ->
  (forall q, q_cbytes (f q) = q_cbytes q /\ q_qnum (f q) = q_qnum q /\ q_messages (f q) = q_messages q /\ q_receivers (f q) = q_receivers q /\
     q_senders (f q) = q_senders q) -> core d (set_msq p f s).
Proof.
  intros C L Hf. destruct (Hf (msg_queues s p)) as (F1 & F2 & F3 & F4 & F5). set (s' := set_msq p f s).
  assert (Q : msg_queues s' p = f (msg_queues s p)) by (unfold s'; rewrite set_msq_at; by rewrite decide_True).
  assert (T : text_bytes (f (msg_queues s p)) = text_bytes (msg_queues s p) /\ text_count (f (msg_queues s p)) = text_count (msg_queues s p) /\
    text_blocks (f (msg_queues s p)) = text_blocks (msg_queues s p)) by (unfold text_bytes, text_count, text_blocks; by rewrite F3). destruct T as (T1 & T2 & T3).
  apply (core_queue d d s s' p C L); rewrite ?Q, ?F4, ?F5, ?T1, ?T2, ?T3; try done.
  - intros q Hq. unfold s'. rewrite set_msq_at. by rewrite decide_False.
  - destruct (k_count _ _ C p L). split; rewrite ?T1, ?T2, ?F1, ?F2, ?F3; done.
  - change (msg_bytes s') with (msg_bytes s). rewrite (proj1 (k_bytes _ _ C)), s32_add. f_equal. lia.
  - change (msg_hdrs s') with (msg_hdrs s). rewrite (proj2 (k_bytes _ _ C)), s32_add. f_equal. lia.
Qed.

Lemma msgctl_set_ok p b s : msg_inv 0 s -> qlive s p -> msg_inv 0 (fst (msgctl_set p b s)).
Proof.
  intros I L. unfold msgctl_set. destruct b as [[[qbytes uid] gid] mode]. destruct (lacks _ CAP_SYS_RESOURCE (m_cred s)) as [c refused].
  apply (inv_cred 0 s c) in I. set (s1 := s <| m_cred := c |>) in *. assert (L1 : qlive s1 p) by done. clearbody s1. destruct refused; [done|].
  cbn [fst]. destruct I as [C H]. set (s2 := set_msq p _ s1). assert (C2 : core 0 s2) by (by apply core_limits). assert (L2 : qlive s2 p) by done.
  destruct (expunge_again 0 p s2 C2 L2) as [A E]. set (s3 := expunge_all p (- EAGAIN) s2) in *.
  assert (Qo : forall q, q <> p -> msg_queues s2 q = msg_queues s1 q) by (intros q Hq; unfold s2; rewrite set_msq_at; by rewrite decide_False).
  assert (Qp : q_messages (msg_queues s2 p) = q_messages (msg_queues s1 p) /\ q_receivers (msg_queues s2 p) = q_receivers (msg_queues s1 p))
    by (unfold s2; rewrite set_msq_at; by rewrite decide_True). destruct Qp as [Q1 Q2].
  assert (S2 : receivers s2 = receivers s1 /\ senders s2 = senders s1 /\ msg_ids s2 = msg_ids s1) by done. destruct S2 as (S2 & S3 & S4). clearbody s2 s3.
  apply inv_wakeup; [by apply (core_alike 0 s2)|]. intros q Lq. assert (Lq1 : qlive s1 q) by (unfold qlive in *; rewrite (al_ids _ _ A), S4 in Lq; done).
  destruct (H q Lq1) as [M F]. split.
  - apply (matched_alike s2); [done|]. intros t m. rewrite S2. destruct (decide (q = p)) as [->|Hne]; [rewrite Q1, Q2; apply M|rewrite Qo by done; apply M].
  - intros Hne. apply (full_alike s2); [done|intros t; by rewrite E|]. intros t. rewrite S3, Qo by done. apply F.
Qed.

(** ** Removing *)

Lemma kill_spec l : forall s, let s' := fold_left (fun s t =>
    wake_task t (set_sender t (fun x => x <| s_woken := true |>) (set_sender t (fun x => x <| s_linked := false |>) s))) l s in
  msg_ids s' = msg_ids s /\ msg_queues s' = msg_queues s /\ receivers s' = receivers s /\ phases s' = phases s /\
  msg_bytes s' = msg_bytes s /\ msg_hdrs s' = msg_hdrs s /\ msg_blocks s' = msg_blocks s /\
  forall t, senders s' t = if decide (t ∈ l) then (senders s t) <| s_linked := false |> <| s_woken := true |> else senders s t.
Proof.
  induction l as [|u l IH]; intros s; [done|]. cbn [fold_left]. set (s0 := wake_task u _).
  assert (R : forall t, senders s0 t = if decide (t = u) then (senders s t) <| s_linked := false |> <| s_woken := true |> else senders s t).
  { intros t. unfold s0. simpl. destruct (decide (t = u)) as [->|]; [by rewrite !fn_lookup_alter|by rewrite !fn_lookup_alter_ne]. }
  destruct (IH s0) as (I1 & I2 & I3 & I4 & I5 & I6 & I7 & I8). split_and!; try done. intros t. rewrite I8, R.
  destruct (decide (t ∈ l)), (decide (t ∈ u :: l)), (decide (t = u)); try done; set_solver.
Qed.

Lemma free_all_spec l : forall s n, msg_hdrs s = s32 n ->
  let s' := fold_left (fun s m => free_msg m (s <| msg_hdrs ::= fun n => s32 (n - 1) |>)) l s in
  msg_ids s' = msg_ids s /\ msg_queues s' = msg_queues s /\ senders s' = senders s /\ receivers s' = receivers s /\ phases s' = phases s /\
  msg_bytes s' = msg_bytes s /\ msg_hdrs s' = s32 (n - Z.of_nat (length l)) /\ msg_blocks s' = msg_blocks s - sumZ nblocks l.
Proof.
  induction l as [|m l IH]; intros s n Hn; [simpl; rewrite !Z.sub_0_r; done|]. cbn [fold_left].
  set (s0 := free_msg m _). assert (H0 : msg_hdrs s0 = s32 (n - 1)).
  { change (msg_hdrs s0) with (s32 (msg_hdrs s - 1)). rewrite Hn. apply (s32_add n (-1)). }
  destruct (IH s0 (n - 1) H0) as (I1 & I2 & I3 & I4 & I5 & I6 & I7 & I8). split_and!; try done.
  - rewrite I7. f_equal. cbn [length]. lia.
  - rewrite I8. change (msg_blocks s0) with (msg_blocks s - (1 + Z.of_nat (length (m_segs m)))). cbn [sumZ]. unfold nblocks at 2. lia.
Qed.

(** The queue [p] at the place [k] is gone; its tasks were told. *)
Lemma inv_gone s s' k p : msg_inv 0 s -> entries (msg_ids s) !! k = Some (Some p) -> entries (msg_ids s') = <[k := None]> (entries (msg_ids s)) ->
  msg_queues s' = msg_queues s -> phases s' = phases s ->
  (forall t, receivers s' t = if decide (t ∈ q_receivers (msg_queues s p)) then (receivers s t) <| r_msg := inr (- EIDRM) |> else receivers s t) ->
  (forall t, senders s' t = if decide (t ∈ q_senders (msg_queues s p)) then (senders s t) <| s_linked := false |> <| s_woken := true |> else senders s t) ->
  msg_bytes s' = s32 (total text_bytes s - text_bytes (msg_queues s p)) -> msg_hdrs s' = s32 (total text_count s - text_count (msg_queues s p)) ->
  msg_blocks s' = msg_blocks s - text_blocks (msg_queues s p) -> msg_inv 0 s'.
Proof.
  intros [C H] Hk He Hq Hph HR HS Hb Hh Hbk. pose proof C as [[K1 K0] K2 K3 K4 K5 K6 _ K9]. assert (Lp : qlive s p) by (by exists k).
  assert (Kl : (k < length (entries (msg_ids s)))%nat) by (by eapply lookup_lt_Some).
  assert (En : forall i q, entries (msg_ids s') !! i = Some (Some q) <-> entries (msg_ids s) !! i = Some (Some q) /\ q <> p).
  { intros i q. rewrite He. destruct (decide (i = k)) as [->|Hne].
    - rewrite list_lookup_insert_eq by done. split; [done|]. intros [X Y]. congruence.
    - rewrite list_lookup_insert_ne by done. split; [|tauto]. intros X. split; [done|]. intros ->. by apply Hne, (K1 i k p). }
  assert (Ll : forall q, qlive s' q <-> qlive s q /\ q <> p).
  { intros q. unfold qlive. split; [intros (i & Hi); apply En in Hi as [Hi ?]; split; [by exists i|done]|intros [(i & Hi) ?]; exists i; by apply En]. }
  assert (Lk : forall id q, 0 <= id -> q <> p -> msg_lock id s = Some q -> msg_lock id s' = Some q).
  { intros id q Hid Hne X. apply mlock_spec; [done|]. apply En. split; [by apply mlock_spec|done]. }
  assert (Tt : forall f, total f s' = total f s - f (msg_queues s p)).
  { intros f. unfold total, sum_ents. rewrite He, Hq, (sumZ_insert _ _ _ _ _ Hk). simpl. lia. }
  assert (Ro : forall q t, qlive s q -> q <> p -> t ∈ q_receivers (msg_queues s q) -> receivers s' t = receivers s t).
  { intros q t Lq Hne Ht. rewrite HR, decide_False; [done|]. intros Ht'. destruct (K2 q t Lq Ht) as [_ X _ _]. destruct (K2 p t Lp Ht') as [_ Y _ _]. congruence. }
  assert (So : forall q t, qlive s q -> q <> p -> t ∈ q_senders (msg_queues s q) -> senders s' t = senders s t).
  { intros q t Lq Hne Ht. rewrite HS, decide_False; [done|]. intros Ht'. destruct (K3 q t Lq Ht) as [_ _ X _]. destruct (K3 p t Lp Ht') as [_ _ Y _]. congruence. }
  assert (Sm : forall t, s_msg (senders s' t) = s_msg (senders s t) /\ s_msqid (senders s' t) = s_msqid (senders s t) /\ s_queue (senders s' t) = s_queue (senders s t))
    by (intros t; rewrite HS; by destruct (decide _)).
  split; [split|].
  - split; [intros i j q X Y; apply En in X as [X _], Y as [Y _]; by apply (K1 i j q)|]. intros i q X. apply En in X as [X _]. by apply (K0 i q).
  - intros q t L Ht. apply Ll in L as [L Hne]. rewrite Hq in Ht. destruct (K2 q t L Ht) as [R1 R2 R3 [R4 R5]].
    split; rewrite ?Hph, ?(Ro q t L Hne Ht); try done. split; [done|by apply Lk].
  - intros q t L Ht. apply Ll in L as [L Hne]. rewrite Hq in Ht. destruct (K3 q t L Ht) as [R1 R2 R3 [R4 R5]].
    split; rewrite ?Hph, ?(So q t L Hne Ht); try done. split; [done|by apply Lk].
  - intros q L. apply Ll in L as [L _]. rewrite Hq. by apply K4.
  - intros q L. apply Ll in L as [L _]. rewrite Hq. by apply K5.
  - intros t. destruct (K6 t) as [H1 H2 H3 H4 H5]. destruct (Sm t) as (M1 & M2 & M3). split; rewrite ?Hph, ?M1, ?M2, ?M3; try done.
    + rewrite HR. by destruct (decide _).
    + rewrite HR. destruct (decide _); [done|apply H3].
    + rewrite HR. destruct (decide _) as [|Ht]; [done|]. intros X Y. destruct (H4 X Y) as [L Hin]. rewrite Hq. split; [|done]. apply Ll. split; [done|]. intros E. rewrite E in Hin. done.
    + rewrite HS. destruct (decide _) as [|Ht]; [done|]. intros X Y. destruct (H5 X Y) as [L Hin]. rewrite Hq. split; [|done]. apply Ll. split; [done|]. intros E. rewrite E in Hin. done.
  - by rewrite Hb, Hh, !Tt.
  - destruct K9 as (l & N & E & B). exists l. rewrite Hph. split; [done|]. split; [done|]. rewrite Hbk, B, Tt.
    assert (X : sumZ (held_blocks s') l = sumZ (held_blocks s) l).
    { apply sumZ_ext. intros t _. unfold held_blocks. rewrite Hph. destruct (Sm t) as (-> & _). rewrite HR.
      destruct (decide _) as [Ht|]; [|done]. destruct (K2 p t Lp Ht) as [_ _ R _]. simpl. by rewrite R. }
    rewrite X. lia.
  - intros q L. apply Ll in L as [L Hne]. destruct (H q L) as [M F]. split.
    + intros t m. rewrite Hq. intros Ht. rewrite (Ro q t L Hne Ht). by apply M.
    + intros t. rewrite Hq. intros Ht. rewrite (So q t L Hne Ht). by apply F.
Qed.

Lemma freeque_ok id s s' : 0 <= id -> msg_inv 0 s -> freeque id s = Some s' -> msg_inv 0 s'.
Proof.
  intros Hid I. pose proof I as [C H]. unfold freeque. destruct (ipc_rmid (msg_ids s) id) as [[ids p]|] eqn:E; [|done]. cbn [mbind option_bind].
  apply rmid_spec in E as [E1 E2]; [|done]. set (k := Z.to_nat _) in *. assert (Lp : qlive s p) by (by exists k).
  set (s0 := s <| msg_ids := ids |>). unfold expunge_all.
  destruct (expunge_spec (inr (- EIDRM)) (q_receivers (msg_queues s0 p)) s0) as (X1 & X2 & X3 & X4 & _ & X5 & X6 & X7 & X8). set (s1 := fold_left _ _ s0) in *.
  unfold ss_wakeup. destruct (kill_spec (q_senders (msg_queues s1 p)) s1) as (Y1 & Y2 & Y3 & Y4 & Y5 & Y6 & Y7 & Y8). cbn [negb] in *. set (s2 := fold_left _ _ s1) in *.
  assert (Hd : msg_hdrs s2 = s32 (total text_count s)) by (rewrite Y6, X6; apply (proj2 (k_bytes _ _ C))).
  destruct (free_all_spec (q_messages (msg_queues s2 p)) s2 _ Hd) as (Z1 & Z2 & Z3 & Z4 & Z5 & Z6 & Z7 & Z8). set (s3 := fold_left _ _ s2) in *.
  assert (Q : msg_queues s2 = msg_queues s) by (rewrite Y2, X2; done). intros [= <-].
  apply (inv_gone s _ k p I E1); simpl.
  - by rewrite Z1, Y1, X1.
  - by rewrite Z2, Q.
  - by rewrite Z5, Y4, X4.
  - intros t. rewrite Z4, Y3. apply X8.
  - intros t. rewrite Z3, Y8, X2, X3. done.
  - rewrite Z6, Y5, X5. change (msg_bytes s0) with (msg_bytes s). rewrite (proj1 (k_bytes _ _ C)), Q, (co_bytes _ (k_count _ _ C p Lp)).
    apply (s32_add _ (- text_bytes (msg_queues s p))).
  - rewrite Z7, Q. done.
  - rewrite Z8, Y7, X7, Q. done.
Qed.

Lemma msgctl_ok overflowuid overflowgid msqid cmd arg s s' r out : msg_inv 0 s ->
  sys_msgctl overflowuid overflowgid msqid cmd arg s = Some (s', r, out) -> msg_inv 0 s'.
Proof.
  intros I. unfold sys_msgctl. destruct (_ || _) eqn:G; [by intros [= <- _ _]|]. rewrite orb_false_iff, !Z.ltb_ge in G. destruct G as [G _].
  destruct (ipc_parse_version cmd) as [c v]. assert (O : msg_inv 0 (fst (msgctl_owner msqid s)) /\ forall p, snd (msgctl_owner msqid s) = inl p -> qlive (fst (msgctl_owner msqid s)) p).
  { unfold msgctl_owner. destruct (msg_lock msqid s) as [p|] eqn:E; [|done]. destruct (msg_checkid p msqid s); [done|].
    destruct (lacks _ CAP_SYS_ADMIN (m_cred s)) as [c' refused]. cbn [fst snd]. split; [by apply inv_cred|]. intros q. destruct refused; [done|].
    intros [= <-]. by apply (mlock_live s msqid p G). }
  destruct (_ || _); [destruct (msgctl_info c arg s) as [? ?]; by intros [= <- _ _]|]. destruct (_ || _).
  - intros [= E]. unfold msgctl_stat in E. destruct (b_null arg); [by injection E as <- _ _|]. destruct (_ && _); [by injection E as <- _ _|].
    destruct (msg_lock msqid s) as [p|]; [|by injection E as <- _ _]. destruct (_ && _); [by injection E as <- _ _|].
    destruct (perms_frame p S_IRUGO s) as (c' & Ec & _). destruct (msg_perms p S_IRUGO s) as [s1 refused]. cbn [fst] in Ec. subst s1.
    apply (inv_cred 0 s c') in I. destruct refused; [by injection E as <- _ _|]. destruct (b_fault arg); by injection E as <- _ _.
  - destruct (c =? IPC_SET).
    + destruct (b_read arg) as [b|]; [|by intros [= <- _ _]]. destruct (b_null arg); [by intros [= <- _ _]|].
      destruct (msgctl_owner msqid s) as [s1 [p|e]]; [|by intros [= <- _ _]; destruct O]. cbn [fst snd] in O. destruct O as [O1 O2].
      pose proof (msgctl_set_ok p (copy_msqid_from_user b v) s1 O1 (O2 p eq_refl)) as P. destruct (msgctl_set p _ s1) as [s2 r2]. by intros [= <- _ _].
    + destruct (c =? IPC_RMID); [|by intros [= <- _ _]]. destruct (msgctl_owner msqid s) as [s1 [p|e]]; [|by intros [= <- _ _]; destruct O].
      cbn [fst] in O. destruct O as [O1 _]. destruct (freeque msqid s1) as [s2|] eqn:E; [|done]. cbn [mbind option_bind]. intros [= <- _ _]. by eapply freeque_ok.
Qed.

(** ** No [BUG()] *)

Lemma msgget_runs d key flg new grow s : core d s -> sys_msgget key flg new grow s <> None.
Proof.
  intros C. unfold sys_msgget. destruct (key =? IPC_PRIVATE); [done|].
  pose proof (findkey_spec (fun p => ip_key (q_perm (msg_queues s p))) (msg_ids s) key) as F. cbv zeta in *.
  destruct (Z.eqb_spec (ipc_findkey (fun p => ip_key (q_perm (msg_queues s p))) (msg_ids s) key) (-1)) as [|Hne]; [done|].
  destruct (_ && _); [done|]. destruct F as [|(k & p & -> & Hk & _)]; [done|].
  assert (L : msg_lock (Z.of_nat k) s = Some p).
  { apply mlock_spec; [lia|]. pose proof (proj2 (k_inj _ _ C) k p Hk) as B. rewrite Z.rem_small by (unfold SEQ_MULTIPLIER; lia). by rewrite Nat2Z.id. }
  rewrite L. cbn [mbind option_bind]. by destruct (msg_perms p flg s).
Qed.

Lemma msgctl_runs overflowuid overflowgid msqid cmd arg s : sys_msgctl overflowuid overflowgid msqid cmd arg s <> None.
Proof.
  unfold sys_msgctl. destruct (_ || _); [done|]. destruct (ipc_parse_version cmd) as [c v].
  destruct (_ || _); [by destruct (msgctl_info c arg s)|]. destruct (_ || _); [done|].
  destruct (c =? IPC_SET).
  - destruct (b_read arg); [|done]. destruct (b_null arg); [done|]. by destruct (msgctl_owner msqid s) as [s1 [p|e]].
  - destruct (c =? IPC_RMID); [|done].
    assert (O : forall p, snd (msgctl_owner msqid s) = inl p -> msg_ids (fst (msgctl_owner msqid s)) = msg_ids s /\ msg_lock msqid s = Some p).
    { unfold msgctl_owner. intros p. destruct (msg_lock msqid s) as [q|]; [|done]. destruct (msg_checkid q msqid s); [done|].
      destruct (lacks _ CAP_SYS_ADMIN (m_cred s)) as [c' refused]. destruct refused; [done|]. by intros [= ->]. }
    destruct (msgctl_owner msqid s) as [s1 [p|e]]; [|done]. destruct (O p eq_refl) as [O1 O2]. cbn [fst] in O1.
    unfold freeque, ipc_rmid. rewrite O1. unfold msg_lock, ipc_lock, ipc_get in O2. cbv zeta.
    destruct (_ <=? _); [done|]. rewrite O2. done.
Qed.
