(* ===== verification/MsgTheorems.v ===== *)
(** * What message queues promise

    A receiver does not sleep while a message it asked for waits, nor a sender while there is
    room; counters and memory are exact; a receive takes the message the manual says, and
    its text is the one that was sent. *)
From stdpp Require Import base sets list functions.
From S2P Require Import Prelude PidHash Bitmap Sched SchedInv SchedCalls SchedTheorems Proc User Cred Ipc IpcProofs SigCalls Sem.
From S2P Require Import Msg MsgInv MsgSteps MsgCalls MsgCtl.

(** ** Histories *)

(** What can happen to the queues: the calls of the current task, which sleeps in msgsnd or
    msgrcv and goes on later; anything done to the other parts of the kernel, like a change
    of the current task or of a limit.  Memory for a queue is not in use.  A queue
    cannot come to hold 2^31 bytes or messages, for lack of memory. *)
Inductive nruns : msgs -> msgs -> Prop :=
  | n_refl s : nruns s s
  | n_trans s1 s2 s3 : nruns s1 s2 -> nruns s2 s3 -> nruns s1 s3
  | n_other s c sc now max mnb mni :
      nruns s (s <| m_cred := c |> <| m_sched := sc |> <| m_now := now |> <| msg_ctlmax := max |> <| msg_ctlmnb := mnb |> <| msg_ctlmni := mni |>)
  | n_get s key flg new grow s' r : (forall p, new = Some p -> ~ qlive s p) -> sys_msgget key flg new grow s = Some (s', r) -> nruns s s'
  | n_ctl s overflowuid overflowgid msqid cmd arg s' r out : sys_msgctl overflowuid overflowgid msqid cmd arg s = Some (s', r, out) -> nruns s s'
  | n_snd s msqid mtype usr alloc msgsz flg : phases s (self s) = Running -> 0 <= msgsz < 2 ^ 32 -> (forall m, m_ts m = msgsz -> memory_ok s m) ->
      nruns s (fst (sys_msgsnd msqid mtype usr alloc msgsz flg s))
  | n_snd_resume s signalled : phases s (self s) = Sending -> memory_ok s (s_msg (senders s (self s))) -> nruns s (fst (msgsnd_resume signalled s))
  | n_rcv s put_type wr msqid msgsz msgtyp flg s' e : phases s (self s) = Running -> 0 <= msgsz < 2 ^ 32 ->
      sys_msgrcv put_type wr msqid msgsz msgtyp flg s = Some (s', e) -> nruns s s'
  | n_rcv_resume s put_type wr signalled s' e : phases s (self s) = Receiving -> msgrcv_resume put_type wr signalled s = Some (s', e) -> nruns s s'.

Lemma nruns_inv s s' : nruns s s' -> msg_inv 0 s -> msg_inv 0 s'.
Proof.
  induction 1 as [| |s c sc now max mnb mni|s key flg new grow s' r Hn E|s ou og msqid cmd arg s' r out E|s msqid mtype usr alloc msgsz flg Hr Hs Hm
                 |s signalled Hr Hm|s pt wr msqid msgsz msgtyp flg s' e Hr Hs E|s pt wr signalled s' e Hr E]; intros I.
  - done.
  - auto.
  - apply (inv_alike 0 s); [by split|done|done].
  - by eapply msgget_ok.
  - by eapply msgctl_ok.
  - by apply msgsnd_ok.
  - by apply snd_resume_ok.
  - destruct (msgrcv_ok pt wr msqid msgsz msgtyp flg s I Hr (proj1 Hs)) as (s1 & e1 & E1 & I1). congruence.
  - destruct (rcv_resume_ok pt wr signalled s I Hr) as (s1 & e1 & E1 & I1). congruence.
Qed.

(** Before the first call. *)
Record quiet (s : msgs) : Prop := Quiet {
  qt_phases : forall t, phases s t = Running; qt_bytes : msg_bytes s = 0; qt_hdrs : msg_hdrs s = 0; qt_blocks : msg_blocks s = 0
}.

Lemma msg_init_inv alloc s : quiet s -> msg_inv 0 (msg_init alloc s).
Proof.
  intros [Q1 Q2 Q3 Q4]. set (s' := msg_init alloc s). assert (Hn : forall i p, entries (msg_ids s') !! i <> Some (Some p)).
  { intros i p Hi. unfold s', msg_init, ipc_init_ids in Hi. simpl in Hi. destruct alloc; [|done]. apply lookup_replicate in Hi as [? _]. done. }
  assert (L : forall p, ~ qlive s' p) by (intros p (i & Hi); by apply (Hn i p)).
  assert (T : forall f, total f s' = 0).
  { assert (Z0 : forall l : list (option Z), sumZ (fun _ => 0) l = 0) by (induction l as [|? ? IH]; [done|exact IH]).
    intros f. unfold total, sum_ents. rewrite (sumZ_ext _ (fun _ => 0)); [apply Z0|].
    intros [p|] Hp; [|done]. apply list_elem_of_lookup in Hp as (i & Hi). by destruct (Hn i p). }
  split; [|intros p Lp; by destruct (L p)]. split; try (intros; exfalso; by eapply L).
  - split; [intros i j p Hi; by destruct (Hn i p)|]. intros i p Hi. by destruct (Hn i p).
  - intros t. split; change (phases s' t) with (phases s t); by rewrite Q1.
  - rewrite !T. change (msg_bytes s') with (msg_bytes s). change (msg_hdrs s') with (msg_hdrs s). by rewrite Q2, Q3.
  - exists []. split; [apply NoDup_nil_2|]. change (phases s') with (phases s). change (msg_blocks s') with (msg_blocks s). rewrite T, Q4. split; [|done].
    intros t. rewrite Q1. split; [by intros ?%not_elem_of_nil|done].
Qed.

(** C32. In every history of message calls from boot, however they interleave: no message waits
    in a queue that a receiver on the queue's list asked for; a sender on the list that was not
    woken cannot send, its message does not fit; each sleeping task is on one list, once.
    The counts of bytes and messages of a queue, and of all queues, are those of the messages
    that are there, and the blocks of memory allocated for messages are those of the
    messages in queues and in the hands of sleeping tasks, so that no path leaks or frees
    twice.  No call ends in one of the [BUG()]s: that of msgget for a key whose queue is
    gone, those of ipc_rmid for an identifier out of range or not in use, that of a receiver
    that goes on for a queue that is gone; and no receive follows a text beyond its end. *)
Theorem no_message_waits alloc s0 s : quiet s0 -> nruns (msg_init alloc s0) s ->
  (forall p, qlive s p ->
     (forall t m, t ∈ q_receivers (msg_queues s p) -> m ∈ q_messages (msg_queues s p) -> testmsg m (r_msgtype (receivers s t)) (r_mode (receivers s t)) = false) /\
     (forall t, t ∈ q_senders (msg_queues s p) -> s_woken (senders s t) = false -> would_block (msg_queues s p) (m_ts (s_msg (senders s t))) = true) /\
     NoDup (q_receivers (msg_queues s p)) /\ NoDup (q_senders (msg_queues s p)) /\
     q_cbytes (msg_queues s p) = sumZ m_ts (q_messages (msg_queues s p)) /\ q_qnum (msg_queues s p) = Z.of_nat (length (q_messages (msg_queues s p)))) /\
  (msg_bytes s = s32 (total text_bytes s) /\ msg_hdrs s = s32 (total text_count s)) /\
  (exists l, NoDup l /\ (forall t, t ∈ l <-> phases s t <> Running) /\ msg_blocks s = total text_blocks s + sumZ (held_blocks s) l) /\
  (forall key flg new grow, sys_msgget key flg new grow s <> None) /\
  (forall overflowuid overflowgid msqid cmd arg, sys_msgctl overflowuid overflowgid msqid cmd arg s <> None) /\
  (forall put_type wr, (phases s (self s) = Running -> forall msqid msgsz msgtyp flg, 0 <= msgsz -> sys_msgrcv put_type wr msqid msgsz msgtyp flg s <> None) /\
     (phases s (self s) = Receiving -> forall signalled, msgrcv_resume put_type wr signalled s <> None)).
Proof.
  intros Hq Hr. pose proof (nruns_inv _ _ Hr (msg_init_inv alloc s0 Hq)) as I. pose proof I as [C H]. split; [|split; [|split; [|split; [|split]]]].
  - intros p L. destruct (H p L) as [M F]. destruct (k_once _ _ C p L). destruct (k_count _ _ C p L). done.
  - apply (k_bytes _ _ C).
  - destruct (k_blocks _ _ C) as (l & N & E & B). exists l. split; [done|]. split; [done|]. lia.
  - intros key flg new grow. by apply (msgget_runs 0).
  - intros. apply msgctl_runs.
  - intros pt wr. split.
    + intros Hp msqid msgsz msgtyp flg Hs. destruct (msgrcv_ok pt wr msqid msgsz msgtyp flg s I Hp Hs) as (s1 & e1 & -> & _). done.
    + intros Hp sg. destruct (rcv_resume_ok pt wr sg s I Hp) as (s1 & e1 & -> & _). done.
Qed.

(** ** Which message is received *)

(** What msgrcv(2) says of the type argument. *)
Definition wanted (msgtyp flg : Z) (m : msg_msg) : Prop :=
  if msgtyp =? 0 then True
  else if msgtyp <? 0 then m_type m <= - msgtyp
  else if has flg MSG_EXCEPT then m_type m <> msgtyp else m_type m = msgtyp.
(** The first message, or for a negative type the first of the least type. *)
Definition selects (msgtyp flg : Z) (l : list msg_msg) (i : nat) (m : msg_msg) : Prop :=
  l !! i = Some m /\ wanted msgtyp flg m /\ forall j x, l !! j = Some x -> wanted msgtyp flg x ->
    if msgtyp <? 0 then m_type m < m_type x \/ m_type m = m_type x /\ (i <= j)%nat else (i <= j)%nat.

Lemma convert_wanted msgtyp flg m : - 2 ^ 31 < msgtyp < 2 ^ 31 ->
  testmsg m (fst (convert_mode msgtyp flg)) (snd (convert_mode msgtyp flg)) = true <-> wanted msgtyp flg m.
Proof.
  intros Hr. unfold convert_mode, wanted. destruct (Z.eqb_spec msgtyp 0); [done|]. destruct (Z.ltb_spec msgtyp 0).
  - cbn [fst snd testmsg]. rewrite s32_small by lia. apply Z.leb_le.
  - destruct (has flg MSG_EXCEPT); cbn [fst snd testmsg]; [rewrite negb_true_iff; apply Z.eqb_neq|apply Z.eqb_eq].
Qed.
Lemma convert_least msgtyp flg : snd (convert_mode msgtyp flg) = SEARCH_LESSEQUAL <-> msgtyp < 0.
Proof.
  unfold convert_mode. destruct (Z.eqb_spec msgtyp 0); [split; [done|lia]|]. destruct (Z.ltb_spec msgtyp 0); [done|].
  destruct (has flg MSG_EXCEPT); (split; [done|lia]).
Qed.

Lemma find_first ty mode l : mode <> SEARCH_LESSEQUAL -> forall i j, find_msg ty mode i None l = Some j ->
  exists k m, j = (i + k)%nat /\ l !! k = Some m /\ testmsg m ty mode = true /\
    forall k' m', l !! k' = Some m' -> testmsg m' ty mode = true -> (k <= k')%nat.
Proof.
  intros Hm. induction l as [|x l IH]; intros i j; simpl; [done|]. destruct (testmsg x ty mode) eqn:E.
  - rewrite bool_decide_false by done. intros [= <-]. exists 0%nat, x. split; [lia|]. split; [done|]. split; [done|lia].
  - intros X. apply IH in X as (k & m & -> & H1 & H2 & H3). exists (S k), m. split; [lia|]. split; [done|]. split; [done|].
    intros [|k'] m' Hk Ht; simpl in Hk; [congruence|]. specialize (H3 k' m' Hk Ht). lia.
Qed.

Lemma find_least l : Forall (fun m => 1 <= m_type m) l -> forall ty i found j, find_msg ty SEARCH_LESSEQUAL i found l = Some j ->
  found = Some j /\ (forall m, m ∈ l -> ty < m_type m) \/
  exists k m, j = (i + k)%nat /\ l !! k = Some m /\ m_type m <= ty /\
    forall k' m', l !! k' = Some m' -> m_type m < m_type m' \/ m_type m = m_type m' /\ (k <= k')%nat.
Proof.
  induction l as [|x l IH]; intros Hl ty i found j; simpl.
  - intros ->. left. split; [done|]. by intros m ?%not_elem_of_nil.
  - apply list.Forall_cons in Hl as [Hx Hl]. destruct (Z.leb_spec (m_type x) ty) as [Hle|Hgt].
    + destruct (Z.eqb_spec (m_type x) 1) as [H1|H1]; cbn [andb negb].
      * intros [= <-]. right. exists 0%nat, x. split; [lia|]. split; [done|]. split; [done|]. intros k' m' Hk.
        assert (1 <= m_type m'); [|lia]. apply list_elem_of_lookup_2 in Hk. apply elem_of_cons in Hk as [->|Hk]; [done|]. by apply (proj1 (list.Forall_forall _ _) Hl).
      * intros X. right. apply (IH Hl) in X as [[[= <-] Hno]|(k & m & -> & H2 & H3 & H4)].
        -- exists 0%nat, x. split; [lia|]. split; [done|]. split; [done|]. intros [|k'] m' Hk; simpl in Hk; [injection Hk as <-; right; split; [done|lia]|].
           apply list_elem_of_lookup_2, Hno in Hk. lia.
        -- exists (S k), m. split; [lia|]. split; [done|]. split; [lia|]. intros [|k'] m' Hk; simpl in Hk; [injection Hk as <-; lia|].
           destruct (H4 k' m' Hk) as [?|[? ?]]; [by left|right; split; [done|lia]].
    + intros X. apply (IH Hl) in X as [[-> Hno]|(k & m & -> & H2 & H3 & H4)].
      * left. split; [done|]. intros m [->|Hm]%elem_of_cons; [done|by apply Hno].
      * right. exists (S k), m. split; [lia|]. split; [done|]. split; [done|]. intros [|k'] m' Hk; simpl in Hk; [injection Hk as <-; lia|].
        destruct (H4 k' m' Hk) as [?|[? ?]]; [by left|right; split; [done|lia]].
Qed.

(** The loop of msgrcv finds what the manual says. *)
Lemma find_selects msgtyp flg l : Forall (fun m => 1 <= m_type m) l -> - 2 ^ 31 < msgtyp < 2 ^ 31 ->
  match find_msg (fst (convert_mode msgtyp flg)) (snd (convert_mode msgtyp flg)) 0 None l with
  | Some i => exists m, selects msgtyp flg l i m
  | None => forall m, m ∈ l -> ~ wanted msgtyp flg m
  end.
Proof.
  intros Hl Hr. destruct (find_msg _ _ 0 None l) as [i|] eqn:E.
  - unfold selects. destruct (Z.ltb_spec msgtyp 0) as [Hn|Hn].
    + pose proof (proj2 (convert_least msgtyp flg) Hn) as Em. assert (Et : fst (convert_mode msgtyp flg) = - msgtyp).
      { unfold convert_mode. destruct (Z.eqb_spec msgtyp 0); [lia|]. destruct (Z.ltb_spec msgtyp 0); [|lia]. cbn [fst]. apply s32_small. lia. }
      rewrite Em, Et in E. apply find_least in E as [[? _]|(k & m & -> & H1 & H2 & H3)]; [done| |done]. rewrite Nat.add_0_l. exists m. split; [done|]. split.
      * unfold wanted. destruct (Z.eqb_spec msgtyp 0); [lia|]. destruct (Z.ltb_spec msgtyp 0); [done|lia].
      * intros j x Hj _. by apply H3.
    + apply find_first in E as (k & m & -> & H1 & H2 & H3); [|rewrite convert_least; lia]. rewrite Nat.add_0_l. exists m. split; [done|].
      split; [by apply convert_wanted|]. intros j x Hj Hw. apply (H3 j x Hj). by apply convert_wanted.
  - apply find_none in E as [_ Hno]. intros m Hm Hw. apply (convert_wanted msgtyp flg m Hr) in Hw. rewrite (Hno m Hm) in Hw. done.
Qed.

(** C33. What msgrcv does on a queue in order, for every type but -2147483648 (see
    [least_type_ignored]), when the caller may read the queue and the whole buffer can be
    written.  If a message is wanted, the first one is selected, for a negative type the first
    of the least type; wanted are then the types less than or equal to its absolute value, as
    msgrcv(2) says, and not only the lesser ones, as the comment on convert_mode says.  If it is longer than the buffer and MSG_NOERROR is not set the
    result is E2BIG and the message stays; otherwise exactly this message leaves the queue
    and the caller gets its type and as much of its text as fits.  If none is wanted the
    result is ENOMSG with IPC_NOWAIT, and the caller sleeps without it. *)
Theorem receive_takes d s p msqid msgsz msgtyp flg : msg_inv d s -> qlive s p -> msg_checkid p msqid s = false ->
  snd (msg_perms p S_IRUGO s) = false -> 0 <= msgsz -> - 2 ^ 31 < msgtyp < 2 ^ 31 ->
  let l := q_messages (msg_queues s p) in
  match msgrcv_try true (fun _ => true) p msqid msgsz (fst (convert_mode msgtyp flg)) (snd (convert_mode msgtyp flg)) flg s with
  | Some (s', Received n (Some (ty, b))) => exists i m, selects msgtyp flg l i m /\ (m_ts m <= msgsz \/ has flg MSG_NOERROR = true) /\
      q_messages (msg_queues s' p) = delete i l /\ ty = m_type m /\ n = Z.min msgsz (m_ts m) /\ b = take (Z.to_nat n) (text m)
  | Some (s', Received n None) => q_messages (msg_queues s' p) = l /\
      ((n = - E2BIG /\ exists i m, selects msgtyp flg l i m /\ msgsz < m_ts m /\ has flg MSG_NOERROR = false) \/
       (n = - ENOMSG /\ has flg IPC_NOWAIT = true /\ forall m, m ∈ l -> ~ wanted msgtyp flg m))
  | Some (s', RcvSleeps) => q_messages (msg_queues s' p) = l /\ has flg IPC_NOWAIT = false /\ forall m, m ∈ l -> ~ wanted msgtyp flg m
  | None => False
  end.
Proof.
  intros I L Hc Hp Hs Hr l. unfold msgrcv_try. rewrite Hc. destruct (perms_frame p S_IRUGO s) as (c & E & Ec).
  destruct (msg_perms p S_IRUGO s) as [s1 refused]. cbn [fst snd] in E, Hp. subst s1 refused. apply (inv_cred _ s c) in I. set (s1 := s <| m_cred := c |>) in *.
  change (msg_queues s1 p) with (msg_queues s p). fold l. assert (L1 : qlive s1 p) by done. pose proof (k_count _ _ (proj1 I) p L1) as Hk. change (msg_queues s1 p) with (msg_queues s p) in Hk.
  assert (Hty : Forall (fun m => 1 <= m_type m) l) by (apply list.Forall_forall; intros m Hm; apply (mo_type m), (proj1 (list.Forall_forall _ _) (co_text _ Hk) m Hm)).
  pose proof (find_selects msgtyp flg l Hty Hr) as F. destruct (find_msg _ _ 0 None l) as [i|]; cbn [mbind option_bind].
  - destruct F as (m & Fm). pose proof Fm as [Hi _]. rewrite Hi. cbn [mbind option_bind]. destruct (_ && _) eqn:G.
    + apply andb_true_iff in G as [G1%Z.ltb_lt G2%negb_true_iff]. split; [done|]. left. split; [done|]. by exists i, m.
    + destruct (take_msg_ok d s1 p i m I L1 Hi) as (_ & Hok & _). unfold out_success. cbn [negb]. rewrite if_min. pose proof (mo_size m Hok).
      rewrite store_msg_ok by (done || lia). cbn [mbind option_bind]. unfold stored.
      assert (W : forall n k, forallb (fun _ : Z => true) (seqZ n k) = true) by (intros; by apply forallb_forall). rewrite W. exists i, m. split; [done|]. split.
      * apply andb_false_iff in G as [G%Z.ltb_ge|G%negb_false_iff]; [by left|by right].
      * split; [|done]. unfold take_msg. cbv zeta. set (s2 := _ <| msg_hdrs ::= _ |>). set (s3 := ss_wakeup p false s2).
        assert (Q : msg_queues s3 = msg_queues s2) by (unfold s3, ss_wakeup; apply wakeup_spec). change (msg_queues (free_msg m s3) p) with (msg_queues s3 p).
        rewrite Q. unfold s2. simpl. by rewrite fn_lookup_alter.
  - destruct (has flg IPC_NOWAIT) eqn:Hn; [split; [done|]; by right|]. split; [|done]. simpl. by rewrite fn_lookup_alter.
Qed.

(** ** The text comes back *)

Lemma cut_count segs : forall len, cut len segs -> Z.of_nat (length segs) = (Z.max 0 len + DATALEN_SEG - 1) / DATALEN_SEG.
Proof.
  induction segs as [|d segs IH]; intros len; cbn [cut length]; [intros H; rewrite Z.max_l by done; done|]. intros (Hl & _ & Hc). rewrite Nat2Z.inj_succ, (IH _ Hc).
  rewrite (Z.max_r 0 len) by lia. destruct (Z.le_ge_cases len DATALEN_SEG).
  - rewrite (Z.min_l len) by done. rewrite Z.sub_diag. change ((Z.max 0 0 + DATALEN_SEG - 1) / DATALEN_SEG) with 0.
    apply (Z.div_unique_pos _ _ _ (len - 1)); unfold DATALEN_SEG in *; lia.
  - rewrite (Z.min_r len), Z.max_r by lia. replace (len + DATALEN_SEG - 1) with (len - DATALEN_SEG + DATALEN_SEG - 1 + 1 * DATALEN_SEG) by lia.
    rewrite Z.div_add by done. lia.
Qed.

(** Loading and storing are inverse.  For a text of any length [load_msg] takes one block and
    one more for each 4092 bytes beyond the first 4076, and [store_msg] stores the first [n]
    bytes of the text, for every [n] up to its length, unless a byte of the buffer cannot be
    written.  When an allocation fails or a byte of the text cannot be read the result is
    ENOMEM or EFAULT and every block has been freed; that is the only reason to fail. *)
Theorem message_roundtrip usr alloc len ty s : 0 <= len < 2 ^ 31 -> 1 <= ty ->
  match load_msg usr alloc len s with
  | (s', inl m) => exists b, copy_from_user usr 0 len = Some b /\
      msg_blocks s' = msg_blocks s + 1 + (Z.max 0 (len - DATALEN_MSG) + DATALEN_SEG - 1) / DATALEN_SEG /\
      forall wr n, 0 <= n <= len -> store_msg wr (m <| m_type := ty |> <| m_ts := len |>) n =
        Some (if forallb wr (seqZ 0 n) then Some (take (Z.to_nat n) b) else None)
  | (s', inr e) => msg_blocks s' = msg_blocks s /\ (e = - ENOMEM \/ e = - EFAULT) /\
      ~ ((forall i, alloc i = true) /\ forall i, 0 <= i < len -> usr i <> None)
  end.
Proof.
  intros Hl Ht. pose proof (load_msg_ok usr alloc len s Hl) as L. destruct (load_msg usr alloc len s) as [s' [m|e]].
  - destruct L as (-> & Hm & Hr). specialize (Hm ty Ht). exists (text m). split; [done|]. split.
    + unfold add_blocks, nblocks. simpl. pose proof (cut_count _ _ (mo_segs _ Hm)) as X. cbn [m_segs m_ts update] in X. simpl in X. rewrite X.
      replace (Z.max 0 (len - Z.min len DATALEN_MSG)) with (Z.max 0 (len - DATALEN_MSG)) by lia. lia.
    + intros wr n Hn. by rewrite store_msg_ok.
  - destruct L as (-> & He & Hno). done.
Qed.

(** ** Two tasks and a queue *)

Definition fresh_msgs : msgs :=
  Msgs (IpcIds 0 0 0 0 []) (fun _ => MsgQueue (KernIpcPerm 0 0 0 0 0 0 0) 0 0 0 0 0 0 0 0 [] [] [])
    (fun _ => MsgSender false false 0 (MsgMsg 0 0 [] []) 0 0) (fun _ => MsgReceiver SEARCH_ANY 0 0 (inr 0) 0 0 0 0) (fun _ => Running) 0 0 0 MSGMAX MSGMNB 4
    (Ck (fun _ => Cred 0 0 0 0 0 0 0 0 0 [] 0 0 0 0 0 0 100 100 0) [1; 2] 1 (Tusers (Users (fun _ => UserStruct 0 0 0 0) (fun _ => []) []) ∅) (fun _ => 0) 0)
    (machine 0 0) 1000.
Definition made_queue : msgs := match sys_msgget IPC_PRIVATE 384 (Some 7) true (msg_init true fresh_msgs) with Some (s, _) => s | None => fresh_msgs end.
Definition run_as (t : tid) (s : msgs) : msgs := s <| m_cred ::= fun c => c <| ccur := t |> |>.
Definition sends (ty : Z) (text : list Z) (s : msgs) : msgs :=
  fst (sys_msgsnd 0 (Some ty) (fun i => text !! Z.to_nat i) (fun _ => true) (Z.of_nat (length text)) 0 s).
(** Two messages, and a receiver that sleeps for a third type. *)
Definition two_queued : msgs := sends 3 [10; 11] (sends 5 [20; 21; 22] made_queue).
Definition one_sleeps : msgs := match sys_msgrcv true (fun _ => true) 0 100 9 0 (run_as 2 two_queued) with Some (s, _) => s | None => two_queued end.

Lemma made_queue_run : nruns (msg_init true fresh_msgs) made_queue.
Proof.
  apply (n_get _ IPC_PRIVATE 384 (Some 7) true _ 0); [|reflexivity]. intros p _ [i Hi]. simpl in Hi. unfold ipc_init_ids in Hi. simpl in Hi.
  by destruct i as [|[|[|[|]]]].
Qed.

Lemma sends_run ty text s : phases s (self s) = Running -> Z.of_nat (length text) < 2 ^ 20 ->
  (forall p, qlive s p -> text_bytes (msg_queues s p) < 2 ^ 20 /\ text_count (msg_queues s p) < 2 ^ 20) -> nruns s (sends ty text s).
Proof.
  intros Hp Hl Hs. apply n_snd; [done|lia|]. intros m Hm p L. destruct (Hs p L). unfold roomy. rewrite Hm. lia.
Qed.

Lemma run_as_run t s : nruns s (run_as t s).
Proof. exact (n_other s ((m_cred s) <| ccur := t |>) (m_sched s) (m_now s) (msg_ctlmax s) (msg_ctlmnb s) (msg_ctlmni s)). Qed.

Lemma only_seven s p : entries (msg_ids s) = [Some 7; None; None; None] -> qlive s p -> p = 7.
Proof. intros E [i Hi]. rewrite E in Hi. destruct i as [|[|[|[|i]]]]; simpl in Hi; [|done..]. by injection Hi. Qed.

Lemma two_queued_run : nruns (msg_init true fresh_msgs) two_queued.
Proof.
  apply (n_trans _ made_queue); [exact made_queue_run|]. apply (n_trans _ (sends 5 [20; 21; 22] made_queue)).
  - apply sends_run; [reflexivity|simpl; lia|]. intros p L. apply only_seven in L as ->; [|vm_compute; reflexivity].
    assert (E : q_messages (msg_queues made_queue 7) = []) by (vm_compute; reflexivity). unfold text_bytes, text_count. rewrite E. simpl. lia.
  - apply sends_run; [reflexivity|simpl; lia|]. intros p L. apply only_seven in L as ->; [|vm_compute; reflexivity].
    assert (E : q_messages (msg_queues (sends 5 [20; 21; 22] made_queue) 7) = [MsgMsg 5 3 [20; 21; 22] []]) by (vm_compute; reflexivity).
    unfold text_bytes, text_count. rewrite E. simpl. lia.
Qed.

Lemma fresh_quiet : quiet fresh_msgs.
Proof. by split. Qed.

Lemma no_message_waits_witness : nruns (msg_init true fresh_msgs) one_sleeps /\ q_receivers (msg_queues one_sleeps 7) = [2] /\
  q_cbytes (msg_queues one_sleeps 7) = 5 /\ testmsg (MsgMsg 5 3 [20; 21; 22] []) (r_msgtype (receivers one_sleeps 2)) (r_mode (receivers one_sleeps 2)) = false.
Proof.
  assert (R : nruns (msg_init true fresh_msgs) one_sleeps).
  { apply (n_trans _ two_queued); [exact two_queued_run|]. apply (n_trans _ (run_as 2 two_queued)).
    - apply run_as_run.
    - set (x := sys_msgrcv true (fun _ => true) 0 100 9 0 (run_as 2 two_queued)).
      assert (X : snd <$> x = Some RcvSleeps) by (vm_compute; reflexivity).
      assert (Y : x = Some (one_sleeps, RcvSleeps)).
      { unfold one_sleeps. fold x. destruct x as [[y e]|]; simpl in X; [|discriminate X]. injection X as ->. reflexivity. }
      eapply n_rcv; [| |exact Y]; [vm_compute; reflexivity|lia]. }
  split; [exact R|]. destruct (no_message_waits true fresh_msgs one_sleeps fresh_quiet R) as (H & _).
  assert (L : qlive one_sleeps 7) by (exists 0%nat; vm_compute; reflexivity). destruct (H 7 L) as (M & _ & _ & _ & B & _).
  assert (E1 : q_receivers (msg_queues one_sleeps 7) = [2]) by (vm_compute; reflexivity).
  assert (E2 : q_messages (msg_queues one_sleeps 7) = [MsgMsg 5 3 [20; 21; 22] []; MsgMsg 3 2 [10; 11] []]) by (vm_compute; reflexivity).
  split; [exact E1|]. split; [rewrite B, E2; reflexivity|]. apply M; [rewrite E1; apply list_elem_of_here|rewrite E2; apply list_elem_of_here].
Defined.

(** The least type up to 4 is taken, although it was sent last. *)
Lemma receive_takes_witness : exists s' n b, msgrcv_try true (fun _ => true) 7 0 100 4 SEARCH_LESSEQUAL 0 two_queued = Some (s', Received n (Some (3, b))) /\
  b = [10; 11] /\ exists i m, selects (-4) 0 (q_messages (msg_queues two_queued 7)) i m.
Proof.
  assert (I : msg_inv 0 two_queued) by (apply (nruns_inv _ _ two_queued_run), msg_init_inv, fresh_quiet).
  assert (L : qlive two_queued 7) by (exists 0%nat; vm_compute; reflexivity).
  assert (H1 : msg_checkid 7 0 two_queued = false) by (vm_compute; reflexivity). assert (H2 : snd (msg_perms 7 S_IRUGO two_queued) = false) by (vm_compute; reflexivity).
  pose proof (receive_takes 0 two_queued 7 0 100 (-4) 0 I L H1 H2 ltac:(lia) ltac:(lia)) as R. cbv zeta in R.
  change (fst (convert_mode (-4) 0)) with 4 in R. change (snd (convert_mode (-4) 0)) with SEARCH_LESSEQUAL in R.
  set (x := msgrcv_try true (fun _ => true) 7 0 100 4 SEARCH_LESSEQUAL 0 two_queued) in *.
  assert (X : snd <$> x = Some (Received 2 (Some (3, [10; 11])))) by (vm_compute; reflexivity).
  destruct x as [[s' e]|]; [|discriminate X]. simpl in X. injection X as ->. destruct R as (i & m & S & _). exists s', 2, [10; 11].
  split; [reflexivity|]. split; [reflexivity|]. exists i, m. exact S.
Defined.

Lemma message_roundtrip_witness : exists m, snd (load_msg (fun i => [20; 21; 22] !! Z.to_nat i) (fun _ => true) 3 fresh_msgs) = inl m /\
  store_msg (fun _ => true) (m <| m_type := 1 |> <| m_ts := 3 |>) 2 = Some (Some [20; 21]).
Proof.
  pose proof (message_roundtrip (fun i => [20; 21; 22] !! Z.to_nat i) (fun _ => true) 3 1 fresh_msgs ltac:(lia) ltac:(lia)) as H.
  assert (X : snd (load_msg (fun i => [20; 21; 22] !! Z.to_nat i) (fun _ => true) 3 fresh_msgs) = inl (MsgMsg 0 0 [20; 21; 22] [])) by (vm_compute; reflexivity).
  destruct (load_msg _ _ 3 fresh_msgs) as [s' r]. cbn [snd] in *. subst r. destruct H as (b & Hb & _ & Hs). eexists. split; [reflexivity|].
  rewrite Hs by lia. assert (E : b = [20; 21; 22]) by (vm_compute in Hb; injection Hb as <-; reflexivity). rewrite E. reflexivity.
Defined.

(** ** Where the code falls short *)

(** The type -2147483648 has no absolute value: msgrcv finds no message, not even of type 1. *)
Theorem least_type_ignored : convert_mode (- 2 ^ 31) 0 = (- 2 ^ 31, SEARCH_LESSEQUAL) /\
  wanted (- 2 ^ 31) 0 (MsgMsg 1 0 [] []) /\ find_msg (- 2 ^ 31) SEARCH_LESSEQUAL 0 None [MsgMsg 1 0 [] []] = None.
Proof. split; [reflexivity|]. split; [vm_compute; congruence|reflexivity]. Qed.
