(* ===== verification/Cache.v ===== *)
(** * The caches of objects behind kmalloc (mm/slab.c, one processor, no debugging)

    A cache carves blocks of pages, its slabs, into objects of one size.  A slab is a
    structure at an address: at the start of its pages, or an object of a general cache
    when the objects are large.  Its free objects are linked by index.  [None] is [BUG()],
    an access outside the array of indices or a dereference of NULL; 0 is NULL.

    Pages come from an allocator of the class [Pages].  While it waits for memory it can
    shrink the caches, which is the argument [reclaim].  Constructors and destructors are
    code of the owner of a cache; the model keeps which objects are constructed. *)
From stdpp Require Import base list functions strings pretty.
From S2P Require Import Prelude Pages.

Definition BYTES_PER_WORD : Z := 4.
Definition L1_CACHE_BYTES : Z := 32.
Definition L1_CACHE_ALIGN (x : Z) : Z := Z.land (x + (L1_CACHE_BYTES - 1)) (Z.lnot (L1_CACHE_BYTES - 1)).
Definition SLAB_LEVEL_MASK : Z := Z.lor __GFP_WAIT (Z.lor __GFP_HIGH (Z.lor __GFP_IO (Z.lor __GFP_HIGHIO __GFP_FS))).
Definition SLAB_DMA : Z := __GFP_DMA.
Definition SLAB_ATOMIC : Z := GFP_ATOMIC.
Definition SLAB_KERNEL : Z := GFP_KERNEL.
Definition SLAB_NO_GROW : Z := 4096.
Definition SLAB_NO_REAP : Z := 4096.
Definition SLAB_HWCACHE_ALIGN : Z := 8192.
Definition SLAB_CACHE_DMA : Z := 16384.
Definition SLAB_MUST_HWCACHE_ALIGN : Z := 32768.
Definition CREATE_MASK : Z := Z.lor SLAB_HWCACHE_ALIGN (Z.lor SLAB_NO_REAP (Z.lor SLAB_CACHE_DMA SLAB_MUST_HWCACHE_ALIGN)).
Definition CFLGS_OFF_SLAB : Z := 65536.
Definition CFLGS_OPTIMIZE : Z := 131072.
Definition DFLGS_GROWN : Z := 1.
Definition BUFCTL_END : Z := 4294967295.
Definition SLAB_LIMIT : Z := 4294967294.
Definition CACHE_NAMELEN : Z := 20.
Definition MAX_OBJ_ORDER : Z := 5.
Definition MAX_GFP_ORDER : Z := 5.
Definition BREAK_GFP_ORDER_HI : Z := 2.
Definition BREAK_GFP_ORDER_LO : Z := 1.
Definition REAP_SCANLEN : nat := 10.
Definition REAP_PERFECT : Z := 10.
Definition sizeof_slab : Z := 24.
Definition sizeof_bufctl : Z := 4.
Definition sizeof_cache : Z := 108.

(** [struct slab_s] with the array of indices behind it. *)
Record slab_t := SlabT { colouroff : Z; s_mem : Z; inuse : Z; sfree : Z; bufctl : Z -> Z }.
#[export] Instance eta_slab : Eta slab_t := fun x => SlabT (colouroff x) (s_mem x) (inuse x) (sfree x) (bufctl x).

Record kmem_cache := KmemCache {
  slabs_full : list Z;
  slabs_partial : list Z;
  slabs_free : list Z;
  objsize : Z;
  cflags : Z;
  num : Z;
  gfporder : Z;
  gfpflags : Z;
  colour : Z;
  colour_off : Z;
  colour_next : Z;
  slabp_cache : Z;
  growing : Z;
  dflags : Z;
  ctor : bool;
  dtor : bool;
  failures : Z;
  cname : string
}.
#[export] Instance eta_cache : Eta kmem_cache := fun k =>
  KmemCache (slabs_full k) (slabs_partial k) (slabs_free k) (objsize k) (cflags k) (num k) (gfporder k) (gfpflags k)
    (colour k) (colour_off k) (colour_next k) (slabp_cache k) (growing k) (dflags k) (ctor k) (dtor k) (failures k) (cname k).

(** The static cache of cache descriptions: its address is in the kernel image, on no page
    that is ever allocated. *)
Definition cache_cache : Z := 1.
Definition zero_cache : kmem_cache := KmemCache [] [] [] 0 0 0 0 0 0 0 0 0 0 0 false false 0 "".
Definition static_cache : kmem_cache :=
  zero_cache <| objsize := sizeof_cache |> <| cflags := SLAB_NO_REAP |> <| colour_off := L1_CACHE_BYTES |> <| cname := "kmem_cache"%string |>.

(** [page_cache] and [page_slab] are what SET_PAGE_CACHE and SET_PAGE_SLAB store in the list
    pointers of a page, [page_is_slab] is its flag PG_slab; [cache_chain] is the ring of the
    caches after [cache_cache]; [general] has the sizes of the general caches with the two caches of each. *)
Record kmem (A : Type) := Kmem {
  caches : Z -> kmem_cache;
  slabs : Z -> slab_t;
  page_cache : Z -> Z;
  page_slab : Z -> Z;
  page_is_slab : Z -> bool;
  constructed : Z -> bool;
  cache_chain : list Z;
  clock_searchp : Z;
  offslab_limit : Z;
  slab_break_gfp_order : Z;
  general : list (Z * Z * Z);
  pgs : A
}.
Arguments Kmem {A}. Arguments caches {A}. Arguments slabs {A}. Arguments page_cache {A}. Arguments page_slab {A}.
Arguments page_is_slab {A}. Arguments constructed {A}. Arguments cache_chain {A}. Arguments clock_searchp {A}.
Arguments offslab_limit {A}. Arguments slab_break_gfp_order {A}. Arguments general {A}. Arguments pgs {A}.
#[export] Instance eta_kmem A : Eta (kmem A) := fun s =>
  Kmem (caches s) (slabs s) (page_cache s) (page_slab s) (page_is_slab s) (constructed s) (cache_chain s) (clock_searchp s)
    (offslab_limit s) (slab_break_gfp_order s) (general s) (pgs s).

Definition OFF_SLAB (k : kmem_cache) : bool := has (cflags k) CFLGS_OFF_SLAB.

(** The loop that counts the objects that fit. *)
Fixpoint fit (fuel : nat) (i size base extra wastage : Z) : Z :=
  match fuel with
  | O => i
  | S fuel => if i * size + L1_CACHE_ALIGN (base + i * extra) <=? wastage then fit fuel (i + 1) size base extra wastage else i
  end.

(** The bytes left over and the number of objects of a slab. *)
Definition kmem_cache_estimate (order size flags : Z) : Z * Z :=
  let wastage := Z.shiftl PAGE_SIZE order in
  let '(base, extra) := if negb (has flags CFLGS_OFF_SLAB) then (sizeof_slab, sizeof_bufctl) else (0, 0) in
  let i := fit (S (Z.to_nat wastage)) 0 size base extra wastage in
  let i := if 0 <? i then i - 1 else i in
  let i := if SLAB_LIMIT <? i then SLAB_LIMIT else i in
  (wastage - i * size - L1_CACHE_ALIGN (base + i * extra), i).

(** The general caches of kmalloc: the first one of at least a size, 0 for NULL. *)
Definition kmem_find_general_cachep (size flags : Z) (cs : list (Z * Z * Z)) : Z :=
  match filter (fun x => size <= fst (fst x)) cs with
  | [] => 0
  | (_, c, dma) :: _ => if has flags __GFP_DMA then dma else c
  end.

Section cache.
Context {A : Type} `{Pages A} (reclaim : kmem A -> kmem A) (in_interrupt : bool).

Definition set_cache (c : Z) (f : kmem_cache -> kmem_cache) (s : kmem A) : kmem A := s <| caches ::= alter f c |>.
Definition set_slab (p : Z) (f : slab_t -> slab_t) (s : kmem A) : kmem A := s <| slabs ::= alter f p |>.

(** [list_del(&slabp->list)] *)
Definition unlink (p : Z) (k : kmem_cache) : kmem_cache :=
  k <| slabs_full ::= filter (fun q => q <> p) |> <| slabs_partial ::= filter (fun q => q <> p) |>
    <| slabs_free ::= filter (fun q => q <> p) |>.

(** ** Pages *)

Definition kmem_getpages (c flags : Z) (s : kmem A) : kmem A * Z :=
  let flags := Z.lor flags (gfpflags (caches s c)) in
  let s := if has flags __GFP_WAIT then reclaim s else s in
  match get_pages flags (gfporder (caches s c)) (pgs s) with
  | (a, None) => (s <| pgs := a |>, 0)
  | (a, Some p) => (s <| pgs := a |>, page_address p)
  end.

(** The pages of a slab. *)
Definition slab_pages (c addr : Z) (s : kmem A) : list Z := seqZ (virt_to_page addr) (2 ^ gfporder (caches s c)).

Definition kmem_freepages (c addr : Z) (s : kmem A) : option (kmem A) :=
  let s1 := s <| page_is_slab ::= fun f => foldl (fun f q => <[q := false]> f) f (slab_pages c addr s) |> in
  a ← put_pages (virt_to_page addr) (gfporder (caches s c)) (pgs s1);
  Some (s1 <| pgs := a |>).

(** ** Free *)

Definition kmem_cache_free_one (c objp : Z) (s : kmem A) : option (kmem A) :=
  let slabp := page_slab s (virt_to_page objp) in
  let k := caches s c in
  let sl := slabs s slabp in
  let objnr := u32 (objp - s_mem sl) / objsize k in
  if num k <=? objnr then None
  else
    let s1 := set_slab slabp (fun sl => sl <| bufctl ::= <[objnr := sfree sl]> |> <| sfree := objnr |> <| inuse ::= fun n => u32 (n - 1) |>) s in
    Some (if u32 (inuse sl - 1) =? 0 then set_cache c (fun k => (unlink slabp k) <| slabs_free ::= cons slabp |>) s1
          else if inuse sl =? num k then set_cache c (fun k => (unlink slabp k) <| slabs_partial ::= cons slabp |>) s1
          else s1).

Definition kmem_cache_free (c objp : Z) (s : kmem A) : option (kmem A) := kmem_cache_free_one c objp s.

Definition kfree (objp : Z) (s : kmem A) : option (kmem A) :=
  if objp =? 0 then Some s
  else kmem_cache_free_one (page_cache s (virt_to_page objp)) objp s.

(** The address of an object of a slab. *)
Definition obj_at (k : kmem_cache) (sl : slab_t) (i : Z) : Z := s_mem sl + objsize k * i.

Definition kmem_slab_destroy (c slabp : Z) (s : kmem A) : option (kmem A) :=
  let k := caches s c in
  let sl := slabs s slabp in
  let s1 := if dtor k then s <| constructed ::= fun f => foldl (fun f i => <[obj_at k sl i := false]> f) f (seqZ 0 (num k)) |> else s in
  s2 ← kmem_freepages c (s_mem sl - colouroff sl) s1;
  if OFF_SLAB k then kmem_cache_free (slabp_cache k) slabp s2 else Some s2.

(** ** Allocation *)

(** The management structure of a slab; [alloc] is kmem_cache_alloc. *)
Definition kmem_cache_slabmgmt (alloc : Z -> Z -> kmem A -> option (kmem A * Z)) (c objp colour_off local_flags : Z) (s : kmem A)
  : option (kmem A * Z) :=
  let k := caches s c in
  let finish p off s1 :=
    Some (set_slab p (fun sl => sl <| inuse := 0 |> <| colouroff := off |> <| s_mem := objp + off |>) s1, p) in
  if OFF_SLAB k then
    r ← alloc (slabp_cache k) local_flags s;
    let '(s1, p) := r in if p =? 0 then Some (s1, 0) else finish p colour_off s1
  else finish (objp + colour_off) (colour_off + L1_CACHE_ALIGN (num k * sizeof_bufctl + sizeof_slab)) s.

Definition kmem_cache_init_objs (c slabp : Z) (s : kmem A) : option (kmem A) :=
  let k := caches s c in
  let sl := slabs s slabp in
  if num k =? 0 then None
  else
    let idx := seqZ 0 (num k) in
    let s1 := if ctor k then s <| constructed ::= fun f => foldl (fun f i => <[obj_at k sl i := true]> f) f idx |> else s in
    Some (set_slab slabp (fun sl => sl <| bufctl ::= fun b => <[num k - 1 := BUFCTL_END]> (foldl (fun b i => <[i := i + 1]> b) b idx) |>
                                       <| sfree := 0 |>) s1).

Definition grow_failed (c : Z) (s : kmem A) : kmem A := set_cache c (fun k => k <| growing ::= Z.pred |>) s.

(** The flag is whether the cache has grown. *)
Definition kmem_cache_grow (alloc : Z -> Z -> kmem A -> option (kmem A * Z)) (c flags : Z) (s : kmem A) : option (kmem A * bool) :=
  if has flags (Z.lnot (Z.lor SLAB_DMA (Z.lor SLAB_LEVEL_MASK SLAB_NO_GROW))) then None
  else if has flags SLAB_NO_GROW then Some (s, false)
  else if in_interrupt && negb (Z.land flags SLAB_LEVEL_MASK =? SLAB_ATOMIC) then None
  else
    let local_flags := Z.land flags SLAB_LEVEL_MASK in
    let k := caches s c in
    let offset := colour_next k * colour_off k in
    let next := colour_next k + 1 in
    let s1 := set_cache c (fun k => k <| colour_next := if colour k <=? next then 0 else next |>
                                      <| dflags ::= Z.lor DFLGS_GROWN |> <| growing ::= Z.succ |>) s in
    let '(s2, objp) := kmem_getpages c flags s1 in
    if objp =? 0 then Some (grow_failed c s2, false)
    else
      r ← kmem_cache_slabmgmt alloc c objp offset local_flags s2;
      let '(s3, slabp) := r in
      if slabp =? 0 then s4 ← kmem_freepages c objp s3; Some (grow_failed c s4, false)
      else
        let pages := slab_pages c objp s3 in
        let s4 := s3 <| page_cache ::= fun f => foldl (fun f q => <[q := c]> f) f pages |>
                     <| page_slab ::= fun f => foldl (fun f q => <[q := slabp]> f) f pages |>
                     <| page_is_slab ::= fun f => foldl (fun f q => <[q := true]> f) f pages |> in
        s5 ← kmem_cache_init_objs c slabp s4;
        Some (set_cache c (fun k => k <| growing ::= Z.pred |> <| slabs_free ::= fun l => l ++ [slabp] |> <| failures := 0 |>) s5, true).

(** Whether the flags of a request fit the cache; [true] is [BUG()]. *)
Definition kmem_cache_alloc_head (c flags : Z) (s : kmem A) : bool :=
  if has flags SLAB_DMA then negb (has (gfpflags (caches s c)) __GFP_DMA) else has (gfpflags (caches s c)) __GFP_DMA.

Definition kmem_cache_alloc_one_tail (c slabp : Z) (s : kmem A) : option (kmem A * Z) :=
  let k := caches s c in
  let sl := slabs s slabp in
  if (0 <=? sfree sl) && (sfree sl <? num k) then
    let next := bufctl sl (sfree sl) in
    let s1 := set_slab slabp (fun sl => sl <| inuse ::= Z.succ |> <| sfree := next |>) s in
    let s2 := if next =? BUFCTL_END then set_cache c (fun k => (unlink slabp k) <| slabs_full ::= cons slabp |>) s1 else s1 in
    Some (s2, obj_at k sl (sfree sl))
  else None.

(** [Some None]: goto alloc_new_slab. *)
Definition kmem_cache_alloc_one (c : Z) (s : kmem A) : option (option (kmem A * Z)) :=
  let k := caches s c in
  match slabs_partial k with
  | slabp :: _ => Some <$> kmem_cache_alloc_one_tail c slabp s
  | [] =>
      match slabs_free k with
      | [] => Some None
      | slabp :: _ => Some <$> kmem_cache_alloc_one_tail c slabp (set_cache c (fun k => (unlink slabp k) <| slabs_partial ::= cons slabp |>) s)
      end
  end.

(** From [try_again] on.  The fuel bounds the passes and the allocations of management
    structures within them. *)
Fixpoint try_again (fuel : nat) (c flags : Z) (s : kmem A) : option (kmem A * Z) :=
  match fuel with
  | O => None
  | S fuel =>
      r ← kmem_cache_alloc_one c s;
      match r with
      | Some r => Some r
      | None =>
          let alloc c flags s := if c =? 0 then None else if kmem_cache_alloc_head c flags s then None else try_again fuel c flags s in
          match kmem_cache_grow alloc c flags s with
          | None => None
          | Some (s1, grown) => if grown then try_again fuel c flags s1 else Some (s1, 0)
          end
      end
  end.

Definition ALLOC_FUEL : nat := 3.
Definition __kmem_cache_alloc (c flags : Z) (s : kmem A) : option (kmem A * Z) :=
  if c =? 0 then None else if kmem_cache_alloc_head c flags s then None else try_again ALLOC_FUEL c flags s.
Definition kmem_cache_alloc (c flags : Z) (s : kmem A) : option (kmem A * Z) := __kmem_cache_alloc c flags s.

Definition kmalloc (size flags : Z) (s : kmem A) : option (kmem A * Z) :=
  match filter (fun x => size <= fst (fst x)) (general s) with
  | [] => Some (s, 0)
  | (_, c, dma) :: _ => __kmem_cache_alloc (if has flags __GFP_DMA then dma else c) flags s
  end.

(** ** Shrinking *)

(** The loop, with the number of slabs that were released. *)
Fixpoint shrink_loop (fuel : nat) (c : Z) (s : kmem A) : option (kmem A * Z) :=
  match fuel with
  | O => None
  | S fuel =>
      if negb (growing (caches s c) =? 0) then Some (s, 0)
      else match last (slabs_free (caches s c)) with
      | None => Some (s, 0)
      | Some slabp =>
          s1 ← kmem_slab_destroy c slabp (set_cache c (unlink slabp) s);
          r ← shrink_loop fuel c s1;
          let '(s2, n) := r in Some (s2, n + 1)
      end
  end.
Definition __kmem_cache_shrink_locked (c : Z) (s : kmem A) : option (kmem A * Z) :=
  shrink_loop (S (length (slabs_free (caches s c)))) c s.

Definition is_nil (l : list Z) : bool := match l with [] => true | _ => false end.

(** The flag is whether objects of the cache are left. *)
Definition __kmem_cache_shrink (c : Z) (s : kmem A) : option (kmem A * bool) :=
  r ← __kmem_cache_shrink_locked c s;
  let '(s1, _) := r in
  Some (s1, negb (is_nil (slabs_full (caches s1 c))) || negb (is_nil (slabs_partial (caches s1 c)))).

Definition kmem_cache_shrink (c : Z) (s : kmem A) : option (kmem A * Z) :=
  if (c =? 0) || in_interrupt then None
  else r ← __kmem_cache_shrink_locked c s; let '(s1, n) := r in Some (s1, Z.shiftl n (gfporder (caches s1 c))).

(** The cache after [c] on the ring. *)
Definition next_after (c : Z) (ring : list Z) : Z :=
  match list_find (fun x => x = c) ring with
  | Some (i, _) => default (default 0 (head ring)) (ring !! S i)
  | None => 0
  end.
Definition next_cache (c : Z) (s : kmem A) : Z := next_after c (cache_cache :: cache_chain s).

Definition kmem_cache_destroy (c : Z) (s : kmem A) : option (kmem A * Z) :=
  if (c =? 0) || in_interrupt || negb (growing (caches s c) =? 0) then None
  else
    let s1 := (if clock_searchp s =? c then s <| clock_searchp := next_cache c s |> else s)
                <| cache_chain ::= filter (fun x => x <> c) |> in
    r ← __kmem_cache_shrink c s1;
    let '(s2, busy) := r in
    if (busy : bool) then Some (s2 <| cache_chain ::= cons c |>, 1)
    else s3 ← kmem_cache_free cache_cache c s2; Some (s3, 0).

(** ** Reclaim *)

(** The pages a cache would give back, weighed. *)
Definition reap_pages (k : kmem_cache) (full_free : Z) : Z :=
  let pages := full_free * 2 ^ gfporder k in
  let pages := if ctor k then (pages * 4 + 1) / 5 else pages in
  if 0 <? gfporder k then (pages * 4 + 1) / 5 else pages.

(** The loop over at most [scan] caches from [searchp] on: the best cache so far with its
    number of free slabs and its weight; the clock moves on. *)
Fixpoint reap_scan (scan : nat) (searchp best best_len best_pages : Z) (s : kmem A) : kmem A * Z * Z :=
  match scan with
  | O => (s <| clock_searchp := searchp |>, best, best_len)
  | S scan =>
      let k := caches s searchp in
      let go (s : kmem A) (best best_len best_pages : Z) :=
        let next := next_cache searchp s in
        if next =? clock_searchp s then (s <| clock_searchp := next |>, best, best_len)
        else reap_scan scan next best best_len best_pages s in
      if has (cflags k) SLAB_NO_REAP then go s best best_len best_pages
      else if negb (growing k =? 0) then go s best best_len best_pages
      else if has (dflags k) DFLGS_GROWN then
        go (set_cache searchp (fun k => k <| dflags ::= fun d => Z.land d (Z.lnot DFLGS_GROWN) |>) s) best best_len best_pages
      else
        let full_free := Z.of_nat (length (slabs_free k)) in
        let pages := reap_pages k full_free in
        if best_pages <? pages then
          if REAP_PERFECT <=? pages then (s <| clock_searchp := next_cache searchp s |>, searchp, full_free)
          else go s searchp full_free pages
        else go s best best_len best_pages
  end.

(** The loop that frees at most [n] slabs. *)
Fixpoint reap_slabs (n : nat) (c : Z) (s : kmem A) : option (kmem A * Z) :=
  match n with
  | O => Some (s, 0)
  | S n =>
      if negb (growing (caches s c) =? 0) then Some (s, 0)
      else match last (slabs_free (caches s c)) with
      | None => Some (s, 0)
      | Some slabp =>
          s1 ← kmem_slab_destroy c slabp (set_cache c (unlink slabp) s);
          r ← reap_slabs n c s1;
          let '(s2, m) := r in Some (s2, m + 1)
      end
  end.

(** [locked]: whether the semaphore of the chain is taken. *)
Definition kmem_cache_reap (gfp_mask : Z) (locked : bool) (s : kmem A) : option (kmem A * Z) :=
  if negb (has gfp_mask __GFP_WAIT) && locked then Some (s, 0)
  else
    let '(s1, best, best_len) := reap_scan REAP_SCANLEN (clock_searchp s) 0 0 0 s in
    if best =? 0 then Some (s1, 0)
    else
      r ← reap_slabs (Z.to_nat ((best_len + 1) / 2)) best s1;
      let '(s2, n) := r in Some (s2, n * 2 ^ gfporder (caches s2 best)).

(** ** Creation *)

(** The loop that shrinks the alignment of small objects. *)
Fixpoint halve (fuel : nat) (size align : Z) : Z :=
  match fuel with
  | O => align
  | S fuel => if size <? align / 2 then halve fuel size (align / 2) else align
  end.

(** The loop that chooses the order of slabs, from [order] on: the order, the bytes left over
    and the number of objects. *)
Fixpoint choose_order (fuel : nat) (order size flags limit break : Z) : option (Z * Z * Z) :=
  match fuel with
  | O => None
  | S fuel =>
      let '(left_over, n) := kmem_cache_estimate order size flags in
      if MAX_GFP_ORDER <=? order then Some (order, left_over, n)
      else if n =? 0 then choose_order fuel (order + 1) size flags limit break
      else if has flags CFLGS_OFF_SLAB && (limit <? n) then
        if order =? 0 then None
        else let '(left_over, n) := kmem_cache_estimate (order - 1) size flags in Some (order - 1, left_over, n)
      else if break <=? order then Some (order, left_over, n)
      else if left_over * 8 <=? Z.shiftl PAGE_SIZE order then Some (order, left_over, n)
      else choose_order fuel (order + 1) size flags limit break
  end.

(** The description of a cache, from its size on; [None] is [BUG()]. *)
Definition describe (name : string) (size offset flags : Z) (has_ctor has_dtor : bool) (s : kmem A) : option kmem_cache :=
  let size := if has size (BYTES_PER_WORD - 1) then Z.land (size + (BYTES_PER_WORD - 1)) (Z.lnot (BYTES_PER_WORD - 1)) else size in
  let align := if has flags SLAB_HWCACHE_ALIGN then L1_CACHE_BYTES else BYTES_PER_WORD in
  let flags := if Z.shiftr PAGE_SIZE 3 <=? size then Z.lor flags CFLGS_OFF_SLAB else flags in
  let '(align, size) :=
    if has flags SLAB_HWCACHE_ALIGN then
      let align := halve 5 size align in (align, Z.land (size + align - 1) (Z.lnot (align - 1)))
    else (align, size) in
  r ← choose_order 6 0 size flags (offslab_limit s) (slab_break_gfp_order s);
  let '(order, left_over, n) := r in
  let slab_size := L1_CACHE_ALIGN (n * sizeof_bufctl + sizeof_slab) in
  let '(flags, left_over) :=
    if has flags CFLGS_OFF_SLAB && (slab_size <=? left_over) then (Z.land flags (Z.lnot CFLGS_OFF_SLAB), left_over - slab_size)
    else (flags, left_over) in
  let offset := Z.land (offset + (align - 1)) (Z.lnot (align - 1)) in
  let offset := if offset =? 0 then L1_CACHE_BYTES else offset in
  let flags := if (order =? 0) && negb (has flags CFLGS_OFF_SLAB) then Z.lor flags CFLGS_OPTIMIZE else flags in
  Some (KmemCache [] [] [] size flags n order (if has flags SLAB_CACHE_DMA then __GFP_DMA else 0) (left_over / offset) offset 0
          (if has flags CFLGS_OFF_SLAB then kmem_find_general_cachep slab_size 0 (general s) else 0) 0 0 has_ctor has_dtor 0 name).

Definition kmem_cache_create (name : string) (size offset flags : Z) (has_ctor has_dtor : bool) (s : kmem A) : option (kmem A * Z) :=
  if (CACHE_NAMELEN - 1 <=? Z.of_nat (String.length name)) || in_interrupt || (size <? BYTES_PER_WORD) ||
     (2 ^ MAX_OBJ_ORDER * PAGE_SIZE <? size) || (has_dtor && negb has_ctor) || (size <? offset) then None
  else if has flags (Z.lnot CREATE_MASK) then None
  else
    r ← kmem_cache_alloc cache_cache SLAB_KERNEL s;
    let '(s1, c) := r in
    if c =? 0 then Some (s1, 0)
    else
      k ← describe name size offset flags has_ctor has_dtor s1;
      if num k =? 0 then s2 ← kmem_cache_free cache_cache c s1; Some (s2, 0)
      else if existsb (fun x => bool_decide (cname (caches s1 x) = name)) (cache_chain s1) then None
      else Some (s1 <| caches ::= <[c := k]> |> <| cache_chain ::= cons c |>, c).

(** ** Boot *)

(** [None] is [BUG()]. *)
Definition kmem_cache_init (s : kmem A) : option (kmem A) :=
  let '(left_over, n) := kmem_cache_estimate 0 (objsize (caches s cache_cache)) 0 in
  if n =? 0 then None
  else Some (set_cache cache_cache (fun k => k <| num := n |> <| colour := left_over / colour_off k |> <| colour_next := 0 |>)
               (s <| cache_chain := [] |>)).

Definition SIZES : list Z := [32; 64; 128; 256; 512; 1024; 2048; 4096; 8192; 16384; 32768; 65536; 131072].

(** The loop, for the sizes from [sizes] on. *)
Fixpoint init_sizes (sizes : list Z) (s : kmem A) : option (kmem A) :=
  match sizes with
  | [] => Some s
  | sz :: sizes =>
      r ← kmem_cache_create ("size-" +:+ pretty sz) sz 0 SLAB_HWCACHE_ALIGN false false s;
      let '(s1, c) := r in
      if c =? 0 then None
      else
        let s2 := s1 <| general ::= map (fun x => if fst (fst x) =? sz then (sz, c, snd x) else x) |> in
        let s3 := if negb (OFF_SLAB (caches s2 c)) then s2 <| offslab_limit := (sz - sizeof_slab) / 2 |> else s2 in
        r ← kmem_cache_create ("size-" +:+ pretty sz +:+ "(DMA)") sz 0 (Z.lor SLAB_CACHE_DMA SLAB_HWCACHE_ALIGN) false false s3;
        let '(s4, d) := r in
        if d =? 0 then None
        else init_sizes sizes (s4 <| general ::= map (fun x => if fst (fst x) =? sz then (fst x, d) else x) |>)
  end.

Definition kmem_cache_sizes_init (num_physpages : Z) (s : kmem A) : option (kmem A) :=
  let s := if Z.shiftr (Z.shiftl 32 20) PAGE_SHIFT <? num_physpages then s <| slab_break_gfp_order := BREAK_GFP_ORDER_HI |> else s in
  init_sizes SIZES s.
End cache.
