(* ===== verification/CacheInv.v ===== *)
(** * Caches: the invariant of slabs, free lists, pages and objects

    Every slab of a cache lies on a block of pages of its own, which point back to it; its free
    objects form a list without repetition; the objects that are not free are exactly those
    handed out and those that describe caches and slabs. *)
From stdpp Require Import base list functions strings.
From S2P Require Import Prelude Pages Cache.

(** ** Free objects of a slab *)

Fixpoint freelist (fuel : nat) (b : Z -> Z) (i : Z) : list Z :=
  match fuel with
  | O => []
  | S fuel => if i =? BUFCTL_END then [] else i :: freelist fuel b (b i)
  end.
Definition free_objs (k : kmem_cache) (sl : slab_t) : list Z := freelist (Z.to_nat (num k)) (bufctl sl) (sfree sl).

Fixpoint chain (n : Z) (b : Z -> Z) (i : Z) (l : list Z) : Prop :=
  match l with [] => i = BUFCTL_END | x :: l => i = x /\ 0 <= x < n /\ chain n b (b x) l end.

Lemma chain_freelist n b l : n < BUFCTL_END -> forall i fuel, chain n b i l -> (length l <= fuel)%nat -> freelist fuel b i = l.
Proof.
  intros Hn. induction l as [|x l IH]; intros i fuel Hc Hl; simpl in Hc.
  - subst. by destruct fuel.
  - destruct Hc as (-> & Hx & Hc). destruct fuel as [|fuel]; simpl in Hl; [lia|]. simpl. rewrite (proj2 (Z.eqb_neq _ _)) by lia.
    f_equal. apply IH; [done|lia].
Qed.

Lemma links_insert n b i l x v : x ∉ l -> chain n (<[x := v]> b) i l <-> chain n b i l.
Proof.
  revert i. induction l as [|y l IH]; intros i Hx; simpl; [done|]. apply not_elem_of_cons in Hx as [Hne Hx].
  rewrite fn_lookup_insert_ne by done. by rewrite IH.
Qed.

Lemma chain_range n b l : forall i x, chain n b i l -> x ∈ l -> 0 <= x < n.
Proof.
  induction l as [|y l IH]; intros i x; simpl; [intros _ ?%not_elem_of_nil; done|]. intros (-> & Hy & Hc) [->|Hx]%elem_of_cons; [done|by eapply IH].
Qed.

(** Distinct indices below [n] are at most [n]. *)
Lemma index_count n (l : list Z) : 0 <= n -> NoDup l -> (forall x, x ∈ l -> 0 <= x < n) -> Z.of_nat (length l) <= n.
Proof.
  intros Hn Hd Hr. assert (S : l ⊆+ seqZ 0 n) by (apply NoDup_submseteq; [done|]; intros x Hx; apply elem_of_seqZ; by apply Hr).
  apply submseteq_length in S. rewrite length_seqZ in S. lia.
Qed.

Record list_ok (k : kmem_cache) (sl : slab_t) : Prop := ListOk {
  lo_chain : chain (num k) (bufctl sl) (sfree sl) (free_objs k sl);
  lo_nodup : NoDup (free_objs k sl);
  lo_inuse : inuse sl = num k - Z.of_nat (length (free_objs k sl))
}.

(** A description by the list alone. *)
Lemma list_ok_intro k sl l : 0 <= num k < BUFCTL_END -> chain (num k) (bufctl sl) (sfree sl) l -> NoDup l ->
  inuse sl = num k - Z.of_nat (length l) -> list_ok k sl /\ free_objs k sl = l.
Proof.
  intros Hn Hc Hd Hi. assert (E : free_objs k sl = l).
  { apply (chain_freelist (num k)); [lia|done|]. pose proof (index_count (num k) l ltac:(lia) Hd (fun x => chain_range _ _ _ _ x Hc)). lia. }
  split; [|done]. split; by rewrite E.
Qed.

(** ** Where a slab lies *)

(** What does not change in the life of a cache. *)
Definition static (k : kmem_cache) :=
  (objsize k, cflags k, num k, gfporder k, gfpflags k, colour k, colour_off k, slabp_cache k, ctor k, dtor k, cname k).
Definition slabs_of (k : kmem_cache) : list Z := slabs_full k ++ slabs_partial k ++ slabs_free k.
Definition slab_size (n : Z) : Z := L1_CACHE_ALIGN (n * sizeof_bufctl + sizeof_slab).
(** The room for the management structure at the start of the pages. *)
Definition mgmt (k : kmem_cache) : Z := if OFF_SLAB k then 0 else slab_size (num k).
Definition block_bytes (k : kmem_cache) : Z := PAGE_SIZE * 2 ^ gfporder k.
Definition frame (sl : slab_t) : Z := virt_to_page (s_mem sl - colouroff sl).

Section inv.
Context {A : Type} `{PagesLaws A}.

Record conf_ok (V : list Z) (s : kmem A) (k : kmem_cache) : Prop := ConfOk {
  cf_num : 1 <= num k < 2 ^ 31;
  cf_size : BYTES_PER_WORD <= objsize k;
  cf_order : 0 <= gfporder k <= MAX_GFP_ORDER;
  cf_colour : 0 <= colour k /\ 0 <= colour_off k;
  cf_fit : num k * objsize k + mgmt k + colour k * colour_off k <= block_bytes k;
  cf_off : OFF_SLAB k = true -> slabp_cache k ∈ V /\ OFF_SLAB (caches s (slabp_cache k)) = false /\
    has (gfpflags (caches s (slabp_cache k))) __GFP_DMA = false /\ slab_size (num k) <= objsize (caches s (slabp_cache k))
}.

(** A slab of the cache [c], at the address [p]. *)
Record geo_ok (s : kmem A) (c p : Z) : Prop := GeoOk {
  go_base : s_mem (slabs s p) - colouroff (slabs s p) = page_address (frame (slabs s p));
  go_off : mgmt (caches s c) <= colouroff (slabs s p);
  go_fit : colouroff (slabs s p) + num (caches s c) * objsize (caches s c) <= block_bytes (caches s c);
  go_place : OFF_SLAB (caches s c) = false -> p = s_mem (slabs s p) - mgmt (caches s c);
  go_pages : forall q, in_block (frame (slabs s p)) (gfporder (caches s c)) q ->
    page_cache s q = c /\ page_slab s q = p /\ page_is_slab s q = true
}.

Definition slab_of (s : kmem A) (c p : Z) : Prop := p ∈ slabs_of (caches s c).
Definition live (s : kmem A) (c o : Z) : Prop :=
  exists p i, slab_of s c p /\ 0 <= i < num (caches s c) /\ i ∉ free_objs (caches s c) (slabs s p) /\ o = obj_at (caches s c) (slabs s p) i.

(** The objects that describe caches and slabs, and the blocks of the slabs. *)
Definition descriptors (s : kmem A) (c : Z) : list (Z * Z) :=
  if OFF_SLAB (caches s c) then map (pair (slabp_cache (caches s c))) (slabs_of (caches s c)) else [].
Definition owned (V : list Z) (s : kmem A) : list (Z * Z) :=
  map (pair cache_cache) (filter (fun c => c <> cache_cache) V) ++ concat (map (descriptors s) V).
Definition cache_blocks (s : kmem A) (c : Z) : list (Z * Z) :=
  map (fun p => (frame (slabs s p), gfporder (caches s c))) (slabs_of (caches s c)).
Definition blocks (V : list Z) (s : kmem A) : list (Z * Z) := concat (map (cache_blocks s) V).

(** [V]: the caches; [B]: blocks of pages held for slabs to come. *)
Record shape (V : list Z) (B : list (Z * Z)) (s : kmem A) : Prop := Shape {
  sh_nodup : NoDup V;
  sh_cc : cache_cache ∈ V /\ OFF_SLAB (caches s cache_cache) = false;
  sh_null : 0 ∉ V;
  sh_conf : forall c, c ∈ V -> conf_ok V s (caches s c);
  sh_lists : forall c, c ∈ V -> NoDup (slabs_of (caches s c));
  sh_geo : forall c p, c ∈ V -> slab_of s c p -> geo_ok s c p;
  sh_ctor : forall c p i, c ∈ V -> slab_of s c p -> ctor (caches s c) = true -> 0 <= i < num (caches s c) ->
    constructed s (obj_at (caches s c) (slabs s p) i) = true;
  sh_pages : holds (B ++ blocks V s) (pgs s)
}.

(** A slab is on the list that its number of objects in use says. *)
Definition class_at (s : kmem A) (c p : Z) : Prop :=
  (p ∈ slabs_full (caches s c) -> inuse (slabs s p) = num (caches s c)) /\
  (p ∈ slabs_partial (caches s c) -> 0 < inuse (slabs s p) < num (caches s c)) /\
  (p ∈ slabs_free (caches s c) -> inuse (slabs s p) = 0).

(** [G]: the caches that are growing, once for each call; [L]: the objects handed out. *)
Record pre (V G : list Z) (B L : list (Z * Z)) (s : kmem A) : Prop := Pre {
  in_shape : shape V B s;
  in_colour : forall c, c ∈ V -> 0 <= colour_next (caches s c) < Z.max 1 (colour (caches s c));
  in_grow : forall c, c ∈ V -> growing (caches s c) = Z.of_nat (length (filter (fun x => x = c) G));
  in_list : forall c p, c ∈ V -> slab_of s c p -> list_ok (caches s c) (slabs s p);
  in_live : forall c o, c ∈ V -> live s c o <-> (c, o) ∈ L ++ owned V s;
  in_once : NoDup (L ++ owned V s);
  in_held : forall c o, (c, o) ∈ L -> c ∈ V
}.
Definition inv (V G : list Z) (B L : list (Z * Z)) (s : kmem A) : Prop := pre V G B L s /\ forall c p, c ∈ V -> class_at s c p.

(** ** Addresses *)

Lemma conf_bytes V s k : conf_ok V s k -> 0 < block_bytes k /\ 0 <= mgmt k /\ 0 < num k * objsize k.
Proof.
  intros [Hn Hs Ho Hc Hf _]. unfold BYTES_PER_WORD in *. split; [unfold block_bytes, PAGE_SIZE; pose proof (Z.pow_pos_nonneg 2 (gfporder k)); lia|].
  split; [|nia]. unfold mgmt. destruct (OFF_SLAB k); [done|]. unfold slab_size, L1_CACHE_ALIGN, sizeof_bufctl, sizeof_slab, L1_CACHE_BYTES.
  apply Z.land_nonneg. lia.
Qed.

(** An address in the pages of a slab leads back to it. *)
Lemma slab_page V B s c p a : shape V B s -> c ∈ V -> slab_of s c p ->
  page_address (frame (slabs s p)) <= a < page_address (frame (slabs s p)) + block_bytes (caches s c) ->
  page_cache s (virt_to_page a) = c /\ page_slab s (virt_to_page a) = p /\ in_block (frame (slabs s p)) (gfporder (caches s c)) (virt_to_page a).
Proof.
  intros Sh Hc Hp Ha. pose proof (cf_order _ _ _ (sh_conf _ _ _ Sh c Hc)) as Ho. set (f := frame (slabs s p)) in *.
  assert (Hb : in_block f (gfporder (caches s c)) (virt_to_page a)).
  { unfold in_block, virt_to_page, page_address, block_bytes, PAGE_SIZE, PAGE_OFFSET in *. pose proof (Z.pow_pos_nonneg 2 (gfporder (caches s c))).
    split; [apply Z.div_le_lower_bound; lia|apply Z.div_lt_upper_bound; lia]. }
  destruct (go_pages _ _ _ (sh_geo _ _ _ Sh c p Hc Hp) _ Hb) as (? & ? & _). done.
Qed.

Lemma obj_range V B s c p i : shape V B s -> c ∈ V -> slab_of s c p -> 0 <= i < num (caches s c) ->
  page_address (frame (slabs s p)) + mgmt (caches s c) <= obj_at (caches s c) (slabs s p) i /\
  obj_at (caches s c) (slabs s p) i + objsize (caches s c) <= page_address (frame (slabs s p)) + block_bytes (caches s c).
Proof.
  intros Sh Hc Hp Hi. destruct (sh_geo _ _ _ Sh c p Hc Hp) as [G1 G2 G3 _ _]. pose proof (cf_size _ _ _ (sh_conf _ _ _ Sh c Hc)) as Hs.
  unfold obj_at, BYTES_PER_WORD in *. nia.
Qed.

Lemma obj_page V B s c p i : shape V B s -> c ∈ V -> slab_of s c p -> 0 <= i < num (caches s c) ->
  page_cache s (virt_to_page (obj_at (caches s c) (slabs s p) i)) = c /\ page_slab s (virt_to_page (obj_at (caches s c) (slabs s p) i)) = p.
Proof.
  intros Sh Hc Hp Hi. pose proof (obj_range V B s c p i Sh Hc Hp Hi). pose proof (sh_conf _ _ _ Sh c Hc) as K. pose proof (conf_bytes V s _ K).
  pose proof (cf_size _ _ _ K) as Hs. unfold BYTES_PER_WORD in Hs.
  destruct (slab_page V B s c p (obj_at (caches s c) (slabs s p) i) Sh Hc Hp) as (? & ? & _); [lia|done].
Qed.

(** The slab determines the cache, and an object its slab and index. *)
Lemma slab_unique V B s c c' p : shape V B s -> c ∈ V -> c' ∈ V -> slab_of s c p -> slab_of s c' p -> c = c'.
Proof.
  intros Sh Hc Hc' Hp Hp'. pose proof (conf_bytes V s _ (sh_conf _ _ _ Sh c Hc)). pose proof (conf_bytes V s _ (sh_conf _ _ _ Sh c' Hc')).
  destruct (slab_page V B s c p (page_address (frame (slabs s p))) Sh Hc Hp) as (E & _); [lia|].
  destruct (slab_page V B s c' p (page_address (frame (slabs s p))) Sh Hc' Hp') as (E' & _); [lia|]. congruence.
Qed.

Lemma obj_unique V B s c p i c' p' i' : shape V B s -> c ∈ V -> c' ∈ V -> slab_of s c p -> slab_of s c' p' ->
  0 <= i < num (caches s c) -> 0 <= i' < num (caches s c') -> obj_at (caches s c) (slabs s p) i = obj_at (caches s c') (slabs s p') i' ->
  c = c' /\ p = p' /\ i = i'.
Proof.
  intros Sh Hc Hc' Hp Hp' Hi Hi' E. destruct (obj_page V B s c p i Sh Hc Hp Hi) as [E1 E2], (obj_page V B s c' p' i' Sh Hc' Hp' Hi') as [E3 E4].
  rewrite E in E1, E2. rewrite E1 in E3. rewrite E2 in E4. subst c' p'. split; [done|]. split; [done|].
  pose proof (cf_size _ _ _ (sh_conf _ _ _ Sh c Hc)) as Hs. unfold obj_at, BYTES_PER_WORD in *. nia.
Qed.

Lemma live_nonnull V B s c o : shape V B s -> c ∈ V -> live s c o -> 0 < o.
Proof.
  intros Sh Hc (p & i & Hp & Hi & _ & ->). pose proof (obj_range V B s c p i Sh Hc Hp Hi) as R. pose proof (conf_bytes V s _ (sh_conf _ _ _ Sh c Hc)).
  assert (0 <= frame (slabs s p)); [|unfold page_address, PAGE_OFFSET, PAGE_SIZE in *; lia].
  apply (holds_range (B ++ blocks V s) (pgs s) _ (gfporder (caches s c)) (sh_pages _ _ _ Sh)). apply elem_of_app. right.
  apply list_elem_of_In, in_concat. exists (cache_blocks s c). split; [apply in_map; by apply list_elem_of_In|].
  apply in_map_iff. exists p. split; [done|by apply list_elem_of_In].
Qed.

(** ** States that differ in lists and free objects only *)

Record alike (V : list Z) (s s' : kmem A) : Prop := Alike {
  al_static : forall c, c ∈ V -> static (caches s' c) = static (caches s c);
  al_slabs : forall c, c ∈ V -> slabs_of (caches s' c) ≡ₚ slabs_of (caches s c);
  al_geo : forall c p, c ∈ V -> slab_of s c p -> s_mem (slabs s' p) = s_mem (slabs s p) /\ colouroff (slabs s' p) = colouroff (slabs s p);
  al_page_cache : page_cache s' = page_cache s;
  al_page_slab : page_slab s' = page_slab s;
  al_page_is_slab : page_is_slab s' = page_is_slab s;
  al_constructed : constructed s' = constructed s;
  al_pgs : pgs s' = pgs s
}.

Lemma static_eqs k k' : static k' = static k -> objsize k' = objsize k /\ num k' = num k /\ gfporder k' = gfporder k /\ OFF_SLAB k' = OFF_SLAB k /\
  gfpflags k' = gfpflags k /\ colour k' = colour k /\ colour_off k' = colour_off k /\ slabp_cache k' = slabp_cache k /\ ctor k' = ctor k /\
  mgmt k' = mgmt k /\ block_bytes k' = block_bytes k.
Proof. intros [= E1 E2 E3 E4 E5 E6 E7 E8 E9 E10 E11]. unfold mgmt, block_bytes, OFF_SLAB. by rewrite E1, E2, E3, E4, E5, E6, E7, E8, E9. Qed.

Lemma conf_static V s s' k k' : (forall c, c ∈ V -> static (caches s' c) = static (caches s c)) -> static k' = static k -> conf_ok V s k -> conf_ok V s' k'.
Proof.
  intros Hs E [C1 C2 C3 C4 C5 C6]. apply static_eqs in E as (F1 & F2 & F3 & E1 & _ & F4 & F5 & E2 & _ & F6 & F7).
  split; rewrite ?E1, ?E2, ?F1, ?F2, ?F3, ?F4, ?F5, ?F6, ?F7; try done. intros Ho. destruct (C6 Ho) as (Hv & H1 & H2 & H3). pose proof (Hs _ Hv) as F. apply static_eqs in F as (-> & _ & _ & -> & -> & _).
  done.
Qed.

Lemma alike_slab V s s' c p : alike V s s' -> c ∈ V -> slab_of s' c p <-> slab_of s c p.
Proof. intros Al Hc. unfold slab_of. by rewrite (al_slabs _ _ _ Al c Hc). Qed.

Lemma alike_frame V s s' c p : alike V s s' -> c ∈ V -> slab_of s c p -> frame (slabs s' p) = frame (slabs s p).
Proof. intros Al Hc Hp. destruct (al_geo _ _ _ Al c p Hc Hp) as [E1 E2]. unfold frame. by rewrite E1, E2. Qed.

Lemma alike_obj V s s' c p i : alike V s s' -> c ∈ V -> slab_of s c p -> obj_at (caches s' c) (slabs s' p) i = obj_at (caches s c) (slabs s p) i.
Proof.
  intros Al Hc Hp. destruct (al_geo _ _ _ Al c p Hc Hp) as [E1 _]. pose proof (al_static _ _ _ Al c Hc) as E. apply static_eqs in E as (E & _).
  unfold obj_at. by rewrite E1, E.
Qed.

(** Lists over all caches. *)
Lemma concat_perm {X Y} (f g : X -> list Y) l : (forall x, x ∈ l -> f x ≡ₚ g x) -> concat (map f l) ≡ₚ concat (map g l).
Proof.
  induction l as [|x l IH]; intros E; [done|]. simpl. rewrite (E x (list_elem_of_here _ _)). apply Permutation_app_head, IH.
  intros y Hy. apply E. apply elem_of_cons. by right.
Qed.

Lemma alike_descriptors V s s' c : alike V s s' -> c ∈ V -> descriptors s' c ≡ₚ descriptors s c.
Proof.
  intros Al Hc. unfold descriptors. pose proof (al_static _ _ _ Al c Hc) as E. apply static_eqs in E as (_ & _ & _ & -> & _ & _ & _ & -> & _).
  destruct (OFF_SLAB _); [|done]. by apply Permutation_map, (al_slabs _ _ _ Al).
Qed.

Lemma alike_owned V s s' : alike V s s' -> owned V s' ≡ₚ owned V s.
Proof. intros Al. unfold owned. apply Permutation_app_head, concat_perm. intros c Hc. by apply (alike_descriptors V). Qed.

Lemma alike_blocks V s s' : alike V s s' -> blocks V s' ≡ₚ blocks V s.
Proof.
  intros Al. apply concat_perm. intros c Hc. unfold cache_blocks. pose proof (al_static _ _ _ Al c Hc) as E. apply static_eqs in E as (_ & _ & -> & _).
  rewrite (Permutation_map _ (al_slabs _ _ _ Al c Hc)). rewrite (map_ext_in _ (fun p => (frame (slabs s p), gfporder (caches s c)))); [done|]. intros p Hp%list_elem_of_In. by rewrite (alike_frame V s s' c p).
Qed.

Lemma shape_alike V B s s' : shape V B s -> alike V s s' -> shape V B s'.
Proof.
  intros [S1 S2 S3 S4 S5 S6 S7 S8] Al. pose proof (al_static _ _ _ Al) as St. split.
  - done.
  - destruct S2 as [Hc Ho]. split; [done|]. pose proof (St _ Hc) as E. apply static_eqs in E as (_ & _ & _ & -> & _). done.
  - done.
  - intros c Hc. apply (conf_static V s s' (caches s c)); auto.
  - intros c Hc. rewrite (al_slabs _ _ _ Al c Hc). auto.
  - intros c p Hc Hp. rewrite (alike_slab V s s') in Hp by done. destruct (S6 c p Hc Hp) as [G1 G2 G3 G4 G5]. destruct (al_geo _ _ _ Al c p Hc Hp) as [E1 E2].
    pose proof (St c Hc) as E. apply static_eqs in E as (E3 & E4 & E5 & E6 & _ & _ & _ & _ & _ & E7 & E8).
    split; unfold frame in *; rewrite ?E1, ?E2, ?E3, ?E4, ?E5, ?E6, ?E7, ?E8, ?(al_page_cache _ _ _ Al), ?(al_page_slab _ _ _ Al), ?(al_page_is_slab _ _ _ Al); done.
  - intros c p i Hc Hp. rewrite (alike_slab V s s') in Hp by done. rewrite (alike_obj V s s') by done. pose proof (St c Hc) as E.
    apply static_eqs in E as (_ & -> & _ & _ & _ & _ & _ & _ & -> & _). rewrite (al_constructed _ _ _ Al). auto.
  - rewrite (al_pgs _ _ _ Al). apply (holds_perm (B ++ blocks V s)); [|done]. apply Permutation_app_head. symmetry. by apply alike_blocks.
Qed.

Lemma in_conf V G B L s c : pre V G B L s -> c ∈ V -> conf_ok V s (caches s c).
Proof. intros I. apply (sh_conf _ _ _ (in_shape _ _ _ _ _ I)). Qed.

(** The order of the handed-out objects, of the blocks and of the growing caches does not matter. *)
Lemma inv_perm V G G' B B' L L' s : G ≡ₚ G' -> B ≡ₚ B' -> L ≡ₚ L' -> inv V G B L s -> inv V G' B' L' s.
Proof.
  intros PG PB PL [[[S1 S2 S3 S4 S5 S6 S7 S8] I2 I3 I4 I5 I6 I7] I8]. split; [|done]. split; [split; try done| | | | | |].
  - eapply holds_perm; [|done]. by rewrite PB.
  - done.
  - intros c Hc. rewrite (I3 c Hc). by rewrite PG.
  - done.
  - intros c o Hc. rewrite (I5 c o Hc). by rewrite PL.
  - by rewrite <- PL.
  - intros c o Ho. apply (I7 c o). by rewrite PL.
Qed.

(** The step of a slab: only the lists of its cache and its free objects change. *)
Record slab_step (s s' : kmem A) (c p : Z) : Prop := SlabStep {
  ss_static : static (caches s' c) = static (caches s c);
  ss_next : colour_next (caches s' c) = colour_next (caches s c);
  ss_growing : growing (caches s' c) = growing (caches s c);
  ss_slabs : slabs_of (caches s' c) ≡ₚ slabs_of (caches s c);
  ss_caches : forall c', c' <> c -> caches s' c' = caches s c';
  ss_other : forall q, q <> p -> slabs s' q = slabs s q;
  ss_geo : s_mem (slabs s' p) = s_mem (slabs s p) /\ colouroff (slabs s' p) = colouroff (slabs s p);
  ss_page_cache : page_cache s' = page_cache s;
  ss_page_slab : page_slab s' = page_slab s;
  ss_page_is_slab : page_is_slab s' = page_is_slab s;
  ss_constructed : constructed s' = constructed s;
  ss_pgs : pgs s' = pgs s
}.

Lemma step_alike V s s' c p : slab_step s s' c p -> alike V s s'.
Proof.
  intros [E1 E2 E3 E4 E5 E6 E7 E8 E9 E10 E11 E12]. split; try done.
  - intros c' _. destruct (decide (c' = c)) as [->|Hc]; [done|by rewrite E5].
  - intros c' _. destruct (decide (c' = c)) as [->|Hc]; [done|by rewrite E5].
  - intros c' q _ _. destruct (decide (q = p)) as [->|Hq]; [done|by rewrite E6].
Qed.

Lemma step_pre V G B L L' s s' c p : pre V G B L s -> c ∈ V -> slab_of s c p -> slab_step s s' c p -> list_ok (caches s' c) (slabs s' p) ->
  (forall i, 0 <= i < num (caches s c) -> i ∉ free_objs (caches s' c) (slabs s' p) <-> (c, obj_at (caches s c) (slabs s p) i) ∈ L' ++ owned V s) ->
  (forall c' o, (forall i, 0 <= i < num (caches s c) -> (c', o) <> (c, obj_at (caches s c) (slabs s p) i)) -> (c', o) ∈ L' <-> (c', o) ∈ L) ->
  NoDup (L' ++ owned V s) -> (forall c' o, (c', o) ∈ L' -> c' ∈ V) -> pre V G B L' s'.
Proof.
  intros [Sh I2 I3 I4 I5 I6 I7] Hc Hp St Hl Hin Hout Hn Hv. pose proof (step_alike V _ _ _ _ St) as Al. destruct St as [E1 E2 E3 E4 E5 E6 E7 _ _ _ _ _].
  pose proof (static_eqs _ _ E1) as (F1 & F2 & _ & _ & _ & F3 & _).
  assert (Same : forall c' q, c' ∈ V -> slab_of s c' q -> c' <> c \/ q <> p -> free_objs (caches s' c') (slabs s' q) = free_objs (caches s c') (slabs s q)).
  { intros c' q Hc' Hq [Hne|Hne].
    - rewrite (E5 c' Hne). rewrite E6; [done|]. intros ->. by rewrite (slab_unique V B s c' c p) in Hne.
    - rewrite (E6 q Hne). destruct (decide (c' = c)) as [->|Hd]; [|by rewrite (E5 c' Hd)]. unfold free_objs. by rewrite F2. }
  split.
  - by apply (shape_alike V B s).
  - intros c' Hc'. destruct (decide (c' = c)) as [->|Hd]; [rewrite E2, F3; auto|rewrite (E5 c' Hd); auto].
  - intros c' Hc'. destruct (decide (c' = c)) as [->|Hd]; [rewrite E3; auto|rewrite (E5 c' Hd); auto].
  - intros c' q Hc' Hq. rewrite (alike_slab V s s') in Hq by done. destruct (decide (q = p)) as [->|Hne].
    + assert (c' = c) as -> by (by apply (slab_unique V B s c' c p)). done.
    + destruct (I4 c' q Hc' Hq) as [K1 K2 K3]. rewrite <- (Same c' q) in K1, K2, K3 by auto. rewrite <- (E6 q Hne) in K1, K3.
      assert (En : num (caches s' c') = num (caches s c')) by (destruct (decide (c' = c)) as [->|Hd]; [done|by rewrite (E5 c' Hd)]).
      rewrite <- En in K1, K3. by split.
  - intros c' o Hc'. rewrite elem_of_app, (alike_owned V s s' Al), <- elem_of_app.
    assert (En : num (caches s' c') = num (caches s c')) by (destruct (decide (c' = c)) as [->|Hd]; [done|by rewrite (E5 c' Hd)]).
    assert (D : (exists i, 0 <= i < num (caches s c) /\ (c', o) = (c, obj_at (caches s c) (slabs s p) i)) \/
      ~ exists i, 0 <= i < num (caches s c) /\ (c', o) = (c, obj_at (caches s c) (slabs s p) i)).
    { assert (M : forall x, x ∈ map (fun i => (c, obj_at (caches s c) (slabs s p) i)) (seqZ 0 (num (caches s c))) <->
        exists i, 0 <= i < num (caches s c) /\ x = (c, obj_at (caches s c) (slabs s p) i)).
      { intros x. rewrite list_elem_of_In, in_map_iff. setoid_rewrite <- list_elem_of_In. setoid_rewrite elem_of_seqZ. split; intros (i & ? & ?); exists i; split; done || lia. }
      rewrite <- M. destruct (decide ((c', o) ∈ map (fun i => (c, obj_at (caches s c) (slabs s p) i)) (seqZ 0 (num (caches s c))))); tauto. }
    destruct D as [(i & Hi & [= -> ->])|Hno].
    + rewrite <- (Hin i Hi). split.
      * intros (q & j & Hq & Hj & Hf & Eo). rewrite (alike_slab V s s') in Hq by done. rewrite (alike_obj V s s') in Eo by done. rewrite En in Hj.
        destruct (obj_unique V B s c p i c q j Sh Hc Hc Hp Hq Hi Hj Eo) as (_ & -> & ->). done.
      * intros Hf. exists p, i. rewrite (alike_slab V s s'), (alike_obj V s s'), En by done. done.
    + rewrite elem_of_app, Hout, <- elem_of_app, <- (I5 c' o Hc') by (intros i Hi Ei; apply Hno; by exists i). unfold live.
      split; intros (q & i & Hq & Hi & Hf & Eo).
      * rewrite (alike_slab V s s') in Hq by done. rewrite (alike_obj V s s') in Eo by done. rewrite En in Hi. exists q, i. rewrite <- Same; [done..|].
        destruct (decide (c' = c)) as [->|?]; [|by left]. right. intros ->. apply Hno. exists i. by rewrite Eo.
      * exists q, i. rewrite (alike_slab V s s'), (alike_obj V s s'), En, Same by first [done|destruct (decide (c' = c)) as [->|?]; [|by left]; right; intros ->; apply Hno; exists i; by rewrite Eo].
        done.
  - by rewrite (alike_owned V s s' Al).
  - done.
Qed.
End inv.

(** * Taking an object and giving it back *)

Lemma filter_out_perm (p : Z) (l : list Z) : NoDup l -> p ∈ l -> p :: filter (fun q => q <> p) l ≡ₚ l.
Proof.
  induction l as [|x l IH]; intros Hn Hp; [by apply not_elem_of_nil in Hp|]. apply list.NoDup_cons in Hn as [Hx Hn].
  destruct (decide (x = p)) as [->|Hne].
  - rewrite filter_cons_False by tauto. by rewrite filter_out_not_in.
  - rewrite filter_cons_True by done. apply elem_of_cons in Hp as [?|Hp]; [congruence|]. rewrite Permutation_swap. f_equiv. auto.
Qed.

(** ** Lists of slabs *)

Lemma slabs_of_unlink p k : slabs_of (unlink p k) = filter (fun q => q <> p) (slabs_of k).
Proof. unfold slabs_of. simpl. by rewrite !filter_app. Qed.
Lemma slabs_of_full p k : slabs_of (k <| slabs_full ::= cons p |>) = p :: slabs_of k.
Proof. done. Qed.
Lemma slabs_of_partial p k : slabs_of (k <| slabs_partial ::= cons p |>) ≡ₚ p :: slabs_of k.
Proof. unfold slabs_of. simpl. symmetry. apply (Permutation_middle (slabs_full k) (slabs_partial k ++ slabs_free k) p). Qed.
Lemma slabs_of_free p k : slabs_of (k <| slabs_free ::= cons p |>) ≡ₚ p :: slabs_of k.
Proof. unfold slabs_of. simpl. rewrite !app_assoc. symmetry. apply Permutation_middle. Qed.

Lemma unlink_perm p k : NoDup (slabs_of k) -> p ∈ slabs_of k -> p :: slabs_of (unlink p k) ≡ₚ slabs_of k.
Proof. intros. rewrite slabs_of_unlink. by apply filter_out_perm. Qed.

(** A slab is on one list. *)
Lemma one_list k p : NoDup (slabs_of k) -> (p ∈ slabs_full k -> p ∉ slabs_partial k /\ p ∉ slabs_free k) /\
  (p ∈ slabs_partial k -> p ∉ slabs_full k /\ p ∉ slabs_free k) /\ (p ∈ slabs_free k -> p ∉ slabs_full k /\ p ∉ slabs_partial k).
Proof.
  unfold slabs_of. rewrite !list.NoDup_app. setoid_rewrite elem_of_app. intros (_ & H1 & _ & H2 & _).
  split_and!; intros Hp; split; intros Hq; first [by destruct (H1 p Hp); auto | by destruct (H1 p Hq); auto | by destruct (H2 p Hp); auto | by destruct (H2 p Hq); auto].
Qed.

Lemma in_unlink (q p : Z) (l : list Z) : q ∈ filter (fun q => q <> p) l <-> q <> p /\ q ∈ l.
Proof. rewrite list_elem_of_filter. tauto. Qed.

Section steps.
Context {A : Type} `{PagesLaws A}.

(** ** Allocation *)

(** The first free object of a slab of the partial list is taken. *)
Lemma alloc_tail_ok V G B L s c p : pre V G B L s -> c ∈ V -> p ∈ slabs_partial (caches s c) -> 0 <= inuse (slabs s p) < num (caches s c) ->
  (forall c' q, c' ∈ V -> c' <> c \/ q <> p -> class_at s c' q) ->
  exists s' o, kmem_cache_alloc_one_tail c p s = Some (s', o) /\ inv V G B ((c, o) :: L) s' /\ ~ live s c o /\ slab_step s s' c p.
Proof.
  intros P Hc Hp Hu Hcl. pose proof P as [Sh _ _ I4 I5 I6 I7]. pose proof (in_conf _ _ _ _ _ _ P Hc) as K. pose proof (cf_num _ _ _ K) as Hn.
  assert (Hs : slab_of s c p) by (unfold slab_of, slabs_of; rewrite !elem_of_app; auto).
  set (k := caches s c) in *. set (sl := slabs s p) in *. destruct (I4 c p Hc Hs) as [K1 K2 K3]. fold k sl in K1, K2, K3.
  destruct (free_objs k sl) as [|x fr] eqn:Ef; [simpl in K3; lia|]. destruct K1 as (Ex & Hx & K1). apply list.NoDup_cons in K2 as [K2 K4]. cbn [length] in K3.
  unfold kmem_cache_alloc_one_tail. fold k sl. rewrite Ex, (proj2 (Z.leb_le _ _)), (proj2 (Z.ltb_lt _ _)) by lia. cbn [andb].
  set (o := obj_at k sl x). set (f := fun y : slab_t => y <| inuse ::= Z.succ |> <| sfree := bufctl sl x |>). set (s1 := set_slab p f s).
  set (s2 := if bufctl sl x =? BUFCTL_END then _ else s1). exists s2, o. split; [done|].
  assert (Nl : ~ live s c o).
  { intros (q & i & Hq & Hi & Hf & Eo). destruct (obj_unique V B s c p x c q i Sh Hc Hc Hs Hq Hx Hi Eo) as (_ & <- & <-).
    apply Hf. fold k sl. rewrite Ef. apply list_elem_of_here. }
  assert (Esl : slabs s2 p = f sl) by (unfold s2; destruct (_ =? _); simpl; by rewrite fn_lookup_alter).
  assert (Lo : list_ok k (f sl) /\ free_objs k (f sl) = fr).
  { apply list_ok_intro; [unfold BUFCTL_END; lia|exact K1|done|simpl; lia]. }
  assert (Efr : bufctl sl x = BUFCTL_END <-> fr = []).
  { split; [|intros ->; exact K1]. destruct fr as [|y fr]; [done|]. destruct K1 as (E1 & E2 & _). unfold BUFCTL_END. lia. }
  pose proof (sh_lists _ _ _ Sh c Hc) as Hl. fold k in Hl.
  set (k2 := if bufctl sl x =? BUFCTL_END then (unlink p k) <| slabs_full ::= cons p |> else k).
  assert (Ek : caches s2 c = k2) by (unfold s2, k2; destruct (_ =? _); simpl; [by rewrite fn_lookup_alter|done]).
  assert (St : slab_step s s2 c p).
  { split; rewrite ?Ek, ?Esl; fold k sl; unfold k2.
    - by destruct (_ =? _).
    - by destruct (_ =? _).
    - by destruct (_ =? _).
    - destruct (_ =? _); [|done]. rewrite slabs_of_full. by apply unlink_perm.
    - intros c' Hc'. unfold s2. destruct (_ =? _); simpl; [by rewrite fn_lookup_alter_ne|done].
    - intros q Hq. unfold s2. destruct (_ =? _); simpl; by rewrite fn_lookup_alter_ne.
    - done.
    - unfold s2. by destruct (_ =? _).
    - unfold s2. by destruct (_ =? _).
    - unfold s2. by destruct (_ =? _).
    - unfold s2. by destruct (_ =? _).
    - unfold s2. by destruct (_ =? _). }
  assert (N2 : num k2 = num k) by (unfold k2; by destruct (_ =? _)).
  assert (F2 : free_objs k2 (f sl) = fr) by (rewrite <- (proj2 Lo); unfold free_objs; by rewrite N2).
  assert (Nin : (c, o) ∉ L ++ owned V s) by (by rewrite <- I5).
  split; [|done]. split.
  - apply (step_pre V G B L _ s s2 c p P Hc Hs St).
    + rewrite Ek, Esl. destruct Lo as [[L1 L2 L3] E]. rewrite E in *. split; rewrite F2, ?N2; done.
    + intros i Hi. rewrite Ek, Esl, F2. fold k sl. rewrite <- app_comm_cons, elem_of_cons, <- I5 by done. split.
      * intros Hf. destruct (decide (i = x)) as [->|Hne]; [by left|right]. exists p, i. split; [done|]. split; [done|]. split; [|done].
        fold k sl. rewrite Ef, not_elem_of_cons. done.
      * intros [[= E]|(q & j & Hq & Hj & Hf & Eo)].
        -- assert (i = x) as ->; [|done]. by apply (obj_unique V B s c p i c p x Sh).
        -- destruct (obj_unique V B s c p i c q j Sh Hc Hc Hs Hq Hi Hj Eo) as (_ & <- & <-). fold k sl in Hf. rewrite Ef, not_elem_of_cons in Hf. tauto.
    + intros c' o' Hno. rewrite elem_of_cons. split; [|by right]. intros [E|?]; [|done]. by destruct (Hno x Hx).
    + rewrite <- app_comm_cons. apply list.NoDup_cons. done.
    + intros c' o' [[= -> ->]|Ho']%elem_of_cons; [done|by eapply I7].
  - intros c' q Hc'. destruct (decide (q = p)) as [->|Hq].
    + destruct (decide (c' = c)) as [->|Hcc].
      * unfold class_at. rewrite Ek, Esl, N2. destruct (one_list k p Hl) as (_ & O & _). destruct (O Hp) as [O1 O2]. unfold k2.
        destruct (Z.eqb_spec (bufctl sl x) BUFCTL_END) as [Ee|Ee]; simpl.
        -- apply Efr in Ee as ->. split_and!; [simpl in K3; lia|rewrite in_unlink; tauto|rewrite in_unlink; tauto].
        -- assert (fr <> []) by tauto. destruct fr as [|y fr]; [done|]. cbn [length] in K3. split_and!; [done|lia|done].
      * destruct (Hcl c' p Hc') as (C1 & C2 & C3); [by left|]. unfold class_at. rewrite (ss_caches _ _ _ _ St c' Hcc).
        assert (Hno : ~ slab_of s c' p) by (intros Hx'; by apply Hcc, (slab_unique V B s c' c p)). unfold slab_of, slabs_of in Hno. rewrite !elem_of_app in Hno. tauto.
    + destruct (Hcl c' q Hc') as (C1 & C2 & C3); [by right|]. unfold class_at. rewrite (ss_other _ _ _ _ St q Hq).
      destruct (decide (c' = c)) as [->|Hcc]; [|by rewrite (ss_caches _ _ _ _ St c' Hcc)]. rewrite Ek, N2. fold k in C1, C2, C3.
      unfold k2. destruct (_ =? _); simpl; [|done]. rewrite elem_of_cons, !in_unlink. tauto.
Qed.

(** Some object of the cache is taken, or every slab is full. *)
Lemma alloc_one_ok V G B L s c : inv V G B L s -> c ∈ V -> exists r, kmem_cache_alloc_one c s = Some r /\
  match r with
  | Some (s', o) => inv V G B ((c, o) :: L) s' /\ ~ live s c o /\ exists p, slab_of s c p /\ slab_step s s' c p
  | None => slabs_partial (caches s c) = [] /\ slabs_free (caches s c) = []
  end.
Proof.
  intros [P Cl] Hc. unfold kmem_cache_alloc_one. pose proof (in_shape _ _ _ _ _ P) as Sh. pose proof (cf_num _ _ _ (in_conf _ _ _ _ _ _ P Hc)) as Hn.
  pose proof (sh_lists _ _ _ Sh c Hc) as Hl. destruct (slabs_partial (caches s c)) as [|p l] eqn:Ep.
  - destruct (slabs_free (caches s c)) as [|p l] eqn:Ef; [by exists None|]. assert (Hp : p ∈ slabs_free (caches s c)) by (rewrite Ef; apply list_elem_of_here).
    set (s1 := set_cache c _ s). set (k := caches s c) in *. assert (Ek : caches s1 c = (unlink p k) <| slabs_partial ::= cons p |>) by (unfold s1; simpl; by rewrite fn_lookup_alter).
    assert (Hs : slab_of s c p) by (unfold slab_of, slabs_of; fold k; rewrite !elem_of_app; auto).
    assert (St : slab_step s s1 c p).
    { split; rewrite ?Ek; fold k; try done.
      - rewrite slabs_of_partial. by apply unlink_perm.
      - intros c' Hc'. unfold s1. simpl. by rewrite fn_lookup_alter_ne. }
    assert (N1 : num (caches s1 c) = num k) by (by rewrite Ek).
    assert (F1 : free_objs (caches s1 c) (slabs s1 p) = free_objs k (slabs s p)) by (unfold free_objs; by rewrite N1).
    assert (P1 : pre V G B L s1).
    { pose proof P as [_ _ _ I4 I5 I6 I7]. apply (step_pre V G B L L s s1 c p P Hc Hs St); [|intros i Hi; rewrite F1|done|done|done].
      - destruct (I4 c p Hc Hs) as [K1 K2 K3]. split; rewrite F1, ?N1; done.
      - rewrite <- I5 by done. split; [intros Hf; by exists p, i|]. intros (q & j & Hq & Hj & Hf & Eo).
        destruct (obj_unique V B s c p i c q j Sh Hc Hc Hs Hq Hi Hj Eo) as (_ & <- & <-). done. }
    destruct (alloc_tail_ok V G B L s1 c p P1 Hc) as (s2 & o & E2 & I2 & N2 & St2).
    + rewrite Ek. simpl. apply list_elem_of_here.
    + rewrite N1. change (slabs s1 p) with (slabs s p). rewrite (proj2 (proj2 (Cl c p Hc)) Hp). lia.
    + intros c' q Hc' Hne. unfold class_at. change (slabs s1 q) with (slabs s q). destruct (decide (c' = c)) as [->|Hd]; [|rewrite (ss_caches _ _ _ _ St c' Hd); by apply Cl].
      destruct Hne as [?|Hq]; [done|]. destruct (Cl c q Hc) as (C1 & C2 & C3). fold k in C1, C2, C3. rewrite N1, Ek. simpl. rewrite elem_of_cons, !in_unlink. tauto.
    + rewrite E2. exists (Some (s2, o)). split; [done|]. split; [done|]. split.
      * intros Hlv. apply N2. destruct Hlv as (q & i & Hq & Hi & Hf & Eo). exists q, i. pose proof (step_alike V _ _ _ _ St) as Al.
        rewrite (alike_slab V s s1), (alike_obj V s s1), N1 by done. split; [done|]. split; [done|]. split; [|done]. unfold free_objs. by rewrite N1.
      * exists p. split; [done|]. destruct St as [A1 A2 A3 A4 A5 A6 A7 A8 A9 A10 A11 A12], St2 as [B1 B2 B3 B4 B5 B6 B7 B8 B9 B10 B11 B12].
        split; try congruence; [by rewrite B4|intros c' Hc'; rewrite B5, A5 by done; done|done|by destruct B7 as [-> ->]].
  - assert (Hp : p ∈ slabs_partial (caches s c)) by (rewrite Ep; apply list_elem_of_here).
    pose proof (proj1 (proj2 (Cl c p Hc)) Hp). destruct (alloc_tail_ok V G B L s c p P Hc Hp) as (s2 & o & E2 & I2 & N2 & St2); [lia|intros; by apply Cl|].
    rewrite E2. exists (Some (s2, o)). split; [done|]. split; [done|]. split; [done|]. exists p. split; [|done].
    unfold slab_of, slabs_of. rewrite !elem_of_app. auto.
Qed.

(** ** Free *)

Lemma live_slab V G B L s c o : pre V G B ((c, o) :: L) s -> exists p i, c ∈ V /\ slab_of s c p /\ 0 <= i < num (caches s c) /\
  i ∉ free_objs (caches s c) (slabs s p) /\ o = obj_at (caches s c) (slabs s p) i.
Proof.
  intros P. assert (Hin : (c, o) ∈ (c, o) :: L) by apply list_elem_of_here. pose proof (in_held _ _ _ _ _ P c o Hin) as Hc.
  destruct (proj2 (in_live _ _ _ _ _ P c o Hc)) as (p & i & ?); [apply elem_of_app; by left|]. by exists p, i.
Qed.

(** An object handed out goes to the front of the free objects of its slab. *)
Lemma free_one_ok V G B L s c o : inv V G B ((c, o) :: L) s -> exists s' p, kmem_cache_free_one c o s = Some s' /\ inv V G B L s' /\
  slab_of s c p /\ slab_step s s' c p.
Proof.
  intros [P Cl]. destruct (live_slab V G B L s c o P) as (p & x & Hc & Hs & Hx & Hf & Eo). pose proof P as [Sh _ _ I4 I5 I6 I7].
  pose proof (in_conf _ _ _ _ _ _ P Hc) as K. pose proof (cf_num _ _ _ K) as Hn. pose proof (cf_size _ _ _ K) as Hz. unfold BYTES_PER_WORD in Hz.
  destruct (obj_page V B s c p x Sh Hc Hs Hx) as [_ Ep]. rewrite <- Eo in Ep. pose proof (sh_lists _ _ _ Sh c Hc) as Hl.
  pose proof (cf_fit _ _ _ K) as Hfit. pose proof (conf_bytes V s _ K) as (_ & Hm & _). destruct (cf_colour _ _ _ K) as [Hk1 Hk2]. pose proof (cf_order _ _ _ K) as Ho.
  set (k := caches s c) in *. set (sl := slabs s p) in *. destruct (I4 c p Hc Hs) as [K1 K2 K3]. fold k sl in K1, K2, K3. set (fr := free_objs k sl) in *.
  assert (Ei : u32 (o - s_mem sl) / objsize k = x).
  { assert (Hb : block_bytes k <= 131072) by (unfold block_bytes, PAGE_SIZE; pose proof (Z.pow_le_mono_r 2 (gfporder k) 5); unfold MAX_GFP_ORDER in Ho; lia).
    rewrite Eo. unfold obj_at. replace (s_mem sl + objsize k * x - s_mem sl) with (x * objsize k) by lia. rewrite u32_small by nia. apply Z.div_mul. lia. }
  unfold kmem_cache_free_one. rewrite Ep. fold k sl. rewrite Ei. rewrite (proj2 (Z.leb_gt _ _)) by lia.
  assert (Hu : 1 <= inuse sl <= num k).
  { pose proof (index_count (num k) (x :: fr) ltac:(lia)) as X. cbn [length] in X. pose proof (X ltac:(by apply list.NoDup_cons)) as Y.
    assert (forall y, y ∈ x :: fr -> 0 <= y < num k) by (intros y [->|Hy]%elem_of_cons; [done|by eapply chain_range]). specialize (Y H1). lia. }
  rewrite (u32_small (inuse sl - 1)) by lia.
  set (f := fun y : slab_t => y <| bufctl ::= <[x := sfree y]> |> <| sfree := x |> <| inuse ::= fun n => u32 (n - 1) |>). set (s1 := set_slab p f s).
  set (s2 := if inuse sl - 1 =? 0 then _ else _). exists s2, p. split; [done|].
  assert (Esl : slabs s2 p = f sl) by (unfold s2; repeat destruct (_ =? _); simpl; by rewrite fn_lookup_alter).
  assert (Lo : list_ok k (f sl) /\ free_objs k (f sl) = x :: fr).
  { apply list_ok_intro; [unfold BUFCTL_END; lia| |by apply list.NoDup_cons|simpl; rewrite u32_small by lia; lia].
    simpl. split; [done|]. split; [done|]. rewrite fn_lookup_insert. by apply links_insert. }
  set (k2 := if inuse sl - 1 =? 0 then (unlink p k) <| slabs_free ::= cons p |>
             else if inuse sl =? num k then (unlink p k) <| slabs_partial ::= cons p |> else k).
  assert (Ek : caches s2 c = k2) by (unfold s2, k2; repeat destruct (_ =? _); simpl; [by rewrite fn_lookup_alter..|done]).
  assert (St : slab_step s s2 c p).
  { split; rewrite ?Ek, ?Esl; fold k sl; unfold k2.
    - by repeat destruct (_ =? _).
    - by repeat destruct (_ =? _).
    - by repeat destruct (_ =? _).
    - destruct (_ =? _); [rewrite slabs_of_free; by apply unlink_perm|]. destruct (_ =? _); [|done]. rewrite slabs_of_partial. by apply unlink_perm.
    - intros c' Hc'. unfold s2. repeat destruct (_ =? _); simpl; [by rewrite fn_lookup_alter_ne..|done].
    - intros q Hq. unfold s2. repeat destruct (_ =? _); simpl; by rewrite fn_lookup_alter_ne.
    - done.
    - unfold s2. by repeat destruct (_ =? _).
    - unfold s2. by repeat destruct (_ =? _).
    - unfold s2. by repeat destruct (_ =? _).
    - unfold s2. by repeat destruct (_ =? _).
    - unfold s2. by repeat destruct (_ =? _). }
  assert (N2 : num k2 = num k) by (unfold k2; by repeat destruct (_ =? _)).
  assert (F2 : free_objs k2 (f sl) = x :: fr) by (rewrite <- (proj2 Lo); unfold free_objs; by rewrite N2).
  rewrite <- app_comm_cons in I6. apply list.NoDup_cons in I6 as [Nin I6].
  split; [|done]. split.
  - apply (step_pre V G B ((c, o) :: L) _ s s2 c p P Hc Hs St).
    + rewrite Ek, Esl. destruct Lo as [[L1 L2 L3] E]. rewrite E in *. split; rewrite F2, ?N2; done.
    + intros i Hi. rewrite Ek, Esl, F2, not_elem_of_cons. fold k sl. pose proof (I5 c (obj_at k sl i) Hc) as Q. rewrite <- app_comm_cons, elem_of_cons in Q.
      assert (Ex : obj_at k sl i = o <-> i = x) by (rewrite Eo; split; [|by intros ->]; intros E; by apply (obj_unique V B s c p i c p x Sh)).
      assert (Lv : live s c (obj_at k sl i) <-> i ∉ fr).
      { split; [|intros Hi'; by exists p, i]. intros (q & j & Hq & Hj & Hf' & Eo'). destruct (obj_unique V B s c p i c q j Sh Hc Hc Hs Hq Hi Hj Eo') as (_ & <- & <-). done. }
      split.
      * intros [Hne Hfr]. apply Lv, Q in Hfr as [[= E]|?]; [by apply Ex in E|done].
      * intros Hin. split; [intros ->; apply Nin; by rewrite Eo|]. apply Lv, Q. by right.
    + intros c' o' Hno. rewrite elem_of_cons. split; [by right|]. intros [E|?]; [|done]. destruct (Hno x Hx). by rewrite E, Eo.
    + done.
    + intros c' o' Ho'. apply (I7 c' o'). apply elem_of_cons. by right.
  - intros c' q Hc'. destruct (decide (q = p)) as [->|Hq].
    + destruct (decide (c' = c)) as [->|Hcc].
      * unfold class_at. rewrite Ek, Esl, N2. destruct (one_list k p Hl) as (O1 & O2 & O3). unfold slab_of, slabs_of in Hs. fold k in Hs. rewrite !elem_of_app in Hs.
        destruct (Cl c p Hc) as (C1 & C2 & C3). fold k sl in C1, C2, C3. unfold k2. cbn [inuse update f]. unfold f. simpl. rewrite u32_small by lia.
        destruct (Z.eqb_spec (inuse sl - 1) 0) as [Ez|Ez]; [|destruct (Z.eqb_spec (inuse sl) (num k)) as [En|En]]; simpl; rewrite ?in_unlink.
        -- split_and!; [tauto|tauto|done].
        -- split_and!; [tauto|lia|tauto].
        -- split_and!; [intros Y; by destruct (En (C1 Y))|lia|intros Y; apply C3 in Y; lia].
      * destruct (Cl c' p Hc') as (C1 & C2 & C3). unfold class_at. rewrite (ss_caches _ _ _ _ St c' Hcc).
        assert (Hno : ~ slab_of s c' p) by (intros Hx'; by apply Hcc, (slab_unique V B s c' c p)). unfold slab_of, slabs_of in Hno. rewrite !elem_of_app in Hno. tauto.
    + destruct (Cl c' q Hc') as (C1 & C2 & C3). unfold class_at. rewrite (ss_other _ _ _ _ St q Hq).
      destruct (decide (c' = c)) as [->|Hcc]; [|by rewrite (ss_caches _ _ _ _ St c' Hcc)]. rewrite Ek, N2. fold k in C1, C2, C3.
      unfold k2. repeat destruct (_ =? _); simpl; rewrite ?elem_of_cons, ?in_unlink; tauto.
Qed.

(** The pages of a live object name its cache. *)
Lemma kfree_ok V G B L s c o : inv V G B ((c, o) :: L) s -> exists s' p, kfree o s = Some s' /\ inv V G B L s' /\ slab_of s c p /\ slab_step s s' c p.
Proof.
  intros I. pose proof (in_shape _ _ _ _ _ (proj1 I)) as Sh. destruct (live_slab V G B L s c o (proj1 I)) as (p & x & Hc & Hs & Hx & Hf & Eo).
  pose proof (live_nonnull V B s c o Sh Hc (ex_intro _ p (ex_intro _ x (conj Hs (conj Hx (conj Hf Eo)))))) as Hp. unfold kfree. rewrite (proj2 (Z.eqb_neq _ _)) by lia.
  destruct (obj_page V B s c p x Sh Hc Hs Hx) as [Ec _]. rewrite <- Eo in Ec. rewrite Ec. by apply free_one_ok.
Qed.
End steps.
