(* ===== verification/CacheGrow.v ===== *)
(** * Caches: slabs come and go *)
From stdpp Require Import base list functions strings.
From S2P Require Import Prelude Pages Cache CacheInv.

Lemma align_spec x : 0 <= x -> x <= L1_CACHE_ALIGN x < x + 32 /\ L1_CACHE_ALIGN x mod 32 = 0.
Proof.
  intros Hx. unfold L1_CACHE_ALIGN, L1_CACHE_BYTES. change (32 - 1) with (Z.ones 5). rewrite <- Z.ldiff_land, Z.ldiff_ones_r by lia.
  rewrite Z.shiftl_mul_pow2, Z.shiftr_div_pow2 by lia. change (2 ^ 5) with 32. change (Z.ones 5) with 31.
  pose proof (Z.div_mod (x + 31) 32 ltac:(lia)). pose proof (Z.mod_pos_bound (x + 31) 32 ltac:(lia)). split; [lia|]. apply Z.mod_mul. lia.
Qed.

Lemma mgmt_pos k : 0 <= num k -> OFF_SLAB k = false -> 24 <= mgmt k.
Proof. intros Hn E. unfold mgmt, slab_size, sizeof_bufctl, sizeof_slab. rewrite E. pose proof (align_spec (num k * 4 + 24)). lia. Qed.

(** Assignments over a list of places. *)
Lemma foldl_insert_in {B} (v : Z -> B) (l : list Z) : forall (f : Z -> B) x, NoDup l -> x ∈ l -> foldl (fun (f : Z -> B) q => <[q := v q]> f) f l x = v x.
Proof.
  induction l as [|y l IH]; intros f x Hn Hx; [by apply not_elem_of_nil in Hx|]. apply list.NoDup_cons in Hn as [Hy Hn]. simpl.
  apply elem_of_cons in Hx as [->|Hx]; [|by apply IH].
  assert (G : forall (g : Z -> B) k, y ∉ k -> foldl (fun (f : Z -> B) q => <[q := v q]> f) g k y = g y).
  { intros g k. revert g. induction k as [|z k IHk]; intros g Hk; [done|]. apply not_elem_of_cons in Hk as [Hz Hk]. simpl. rewrite IHk by done. by rewrite fn_lookup_insert_ne. }
  rewrite G by done. by rewrite fn_lookup_insert.
Qed.

Lemma foldl_insert_out {B} (h : Z -> Z) (v : Z -> B) (l : list Z) : forall (f : Z -> B) x, (forall q, q ∈ l -> h q <> x) -> foldl (fun (f : Z -> B) q => <[h q := v q]> f) f l x = f x.
Proof.
  induction l as [|y l IH]; intros f x Hx; [done|]. simpl. rewrite IH; [|intros q Hq; apply Hx, elem_of_cons; by right].
  rewrite fn_lookup_insert_ne; [done|]. apply Hx, list_elem_of_here.
Qed.

Lemma foldl_insert_const {B} (h : Z -> Z) (v : B) (l : list Z) : forall (f : Z -> B) x, (exists q, q ∈ l /\ h q = x) -> foldl (fun (f : Z -> B) q => <[h q := v]> f) f l x = v.
Proof.
  induction l as [|y l IH]; intros f x (q & Hq & Eq); [by apply not_elem_of_nil in Hq|]. simpl.
  destruct (decide (Exists (fun z => h z = x) l)) as [Ex|Ex].
  - apply IH. apply list.Exists_exists in Ex as (z & Hz & Ez). by exists z.
  - rewrite (foldl_insert_out h (fun _ => v)).
    + apply elem_of_cons in Hq as [->|Hq]; [rewrite Eq; by rewrite fn_lookup_insert|]. exfalso. apply Ex, list.Exists_exists. by exists q.
    + intros z Hz E. apply Ex, list.Exists_exists. by exists z.
Qed.

(** One place of a list of lists changes. *)
Lemma concat_one {X Y} `{EqDecision X} (f g : X -> list Y) x e l : NoDup l -> x ∈ l -> (forall y, y <> x -> f y = g y) -> f x ≡ₚ e ++ g x ->
  concat (map f l) ≡ₚ e ++ concat (map g l).
Proof.
  intros Hn Hx Ho E. induction l as [|y l IH]; [by apply not_elem_of_nil in Hx|]. apply list.NoDup_cons in Hn as [Hy Hn]. simpl.
  destruct (decide (y = x)) as [->|Hne].
  - rewrite E, <- app_assoc. f_equiv. f_equiv. apply concat_perm. intros z Hz. rewrite Ho; [done|]. by intros ->.
  - apply elem_of_cons in Hx as [?|Hx]; [congruence|]. rewrite (Ho y Hne), (IH Hn Hx). rewrite !app_assoc. f_equiv. apply Permutation_app_comm.
Qed.

Section grow.
Context {A : Type} `{PagesLaws A}.

(** Every object of a slab without an object in use is free. *)
Lemma all_free k sl : 0 <= num k -> list_ok k sl -> inuse sl = 0 -> forall i, 0 <= i < num k -> i ∈ free_objs k sl.
Proof.
  intros Hn [K1 K2 K3] Hu i Hi. assert (S : free_objs k sl ⊆+ seqZ 0 (num k)).
  { apply NoDup_submseteq; [done|]. intros x Hx. apply elem_of_seqZ. rewrite Z.add_0_l. by eapply chain_range. }
  assert (P : free_objs k sl ≡ₚ seqZ 0 (num k)) by (apply submseteq_length_Permutation; [done|rewrite length_seqZ; lia]).
  rewrite P. apply elem_of_seqZ. lia.
Qed.

(** The description of a slab outside its pages. *)
Definition desc_of (k : kmem_cache) (p : Z) : list (Z * Z) := if OFF_SLAB k then [(slabp_cache k, p)] else [].

(** The state [s'] lacks the slab [p] of [s]; their pages differ. *)
Record slab_gone (s s' : kmem A) (c p : Z) : Prop := SlabGone {
  sg_cache : caches s' c = unlink p (caches s c);
  sg_caches : forall c', c' <> c -> caches s' c' = caches s c';
  sg_slabs : slabs s' = slabs s;
  sg_page_cache : page_cache s' = page_cache s;
  sg_page_slab : page_slab s' = page_slab s;
  sg_page_is_slab : forall q, ~ in_block (frame (slabs s p)) (gfporder (caches s c)) q -> page_is_slab s' q = page_is_slab s q;
  sg_constructed : forall a, (forall i, 0 <= i < num (caches s c) -> a <> obj_at (caches s c) (slabs s p) i) -> constructed s' a = constructed s a
}.

Lemma blocks_apart V B s c p c' p' q : shape V B s -> c ∈ V -> c' ∈ V -> slab_of s c p -> slab_of s c' p' ->
  in_block (frame (slabs s p)) (gfporder (caches s c)) q -> in_block (frame (slabs s p')) (gfporder (caches s c')) q -> p = p'.
Proof.
  intros Sh Hc Hc' Hp Hp' Hq Hq'. destruct (go_pages _ _ _ (sh_geo _ _ _ Sh c p Hc Hp) q Hq) as (_ & E & _).
  destruct (go_pages _ _ _ (sh_geo _ _ _ Sh c' p' Hc' Hp') q Hq') as (_ & E' & _). congruence.
Qed.

Lemma gone_slab s s' c p c' q : slab_gone s s' c p -> slab_of s' c' q <-> slab_of s c' q /\ (c' <> c \/ q <> p).
Proof.
  intros Go. unfold slab_of. destruct (decide (c' = c)) as [->|Hne]; [|rewrite (sg_caches _ _ _ _ Go c' Hne); tauto].
  rewrite (sg_cache _ _ _ _ Go), slabs_of_unlink, in_unlink. tauto.
Qed.

Lemma gone_static s s' c p c' : slab_gone s s' c p -> static (caches s' c') = static (caches s c').
Proof. intros Go. destruct (decide (c' = c)) as [->|Hne]; [by rewrite (sg_cache _ _ _ _ Go)|by rewrite (sg_caches _ _ _ _ Go c' Hne)]. Qed.

Lemma gone_num s s' c p c' : slab_gone s s' c p -> num (caches s' c') = num (caches s c') /\ objsize (caches s' c') = objsize (caches s c').
Proof. intros Go. destruct (static_eqs _ _ (gone_static s s' c p c' Go)) as (? & ? & _). done. Qed.

Lemma gone_blocks V B s s' c p : shape V B s -> c ∈ V -> slab_of s c p -> slab_gone s s' c p ->
  blocks V s ≡ₚ (frame (slabs s p), gfporder (caches s c)) :: blocks V s'.
Proof.
  intros Sh Hc Hp Go. apply (concat_one (cache_blocks s) (cache_blocks s') c [_]); [apply (sh_nodup _ _ _ Sh)|done| |].
  - intros c' Hne. unfold cache_blocks. by rewrite (sg_slabs _ _ _ _ Go), (sg_caches _ _ _ _ Go c' Hne).
  - unfold cache_blocks. rewrite (sg_slabs _ _ _ _ Go), (sg_cache _ _ _ _ Go). simpl gfporder.
    rewrite <- (unlink_perm p (caches s c)) at 1; [done|apply (sh_lists _ _ _ Sh c Hc)|done].
Qed.

Lemma gone_owned V B s s' c p : shape V B s -> c ∈ V -> slab_of s c p -> slab_gone s s' c p -> owned V s ≡ₚ desc_of (caches s c) p ++ owned V s'.
Proof.
  intros Sh Hc Hp Go. unfold owned. rewrite (concat_one (descriptors s) (descriptors s') c (desc_of (caches s c) p)); [|apply (sh_nodup _ _ _ Sh)|done| |].
  - rewrite !app_assoc. f_equiv. apply Permutation_app_comm.
  - intros c' Hne. unfold descriptors. by rewrite (sg_caches _ _ _ _ Go c' Hne).
  - unfold descriptors, desc_of. rewrite (sg_cache _ _ _ _ Go). change (OFF_SLAB (unlink p (caches s c))) with (OFF_SLAB (caches s c)).
    destruct (OFF_SLAB _); [|done]. rewrite <- (unlink_perm p (caches s c)) at 1; [done|apply (sh_lists _ _ _ Sh c Hc)|done].
Qed.

Lemma gone_shape V B s s' c p : shape V B s -> c ∈ V -> slab_of s c p -> slab_gone s s' c p -> holds (B ++ blocks V s') (pgs s') -> shape V B s'.
Proof.
  intros Sh Hc Hp Go Hpg. pose proof Sh as [S1 S2 S3 S4 S5 S6 S7 S8]. pose proof (gone_static s s' c p) as St. split; try done.
  - destruct S2 as [? Ho]. split; [done|]. by destruct (static_eqs _ _ (St cache_cache Go)) as (_ & _ & _ & -> & _).
  - intros c' Hc'. apply (conf_static V s s' (caches s c')); auto.
  - intros c' Hc'. destruct (decide (c' = c)) as [->|Hne]; [|rewrite (sg_caches _ _ _ _ Go c' Hne); auto].
    rewrite (sg_cache _ _ _ _ Go), slabs_of_unlink. apply list.NoDup_filter. auto.
  - intros c' q Hc' Hq. apply (gone_slab s s' c p) in Hq as [Hq Hd]; [|done]. destruct (S6 c' q Hc' Hq) as [G1 G2 G3 G4 G5].
    destruct (static_eqs _ _ (St c' Go)) as (E3 & E4 & E5 & E6 & _ & _ & _ & _ & _ & E7 & E8).
    split; rewrite ?(sg_slabs _ _ _ _ Go), ?E3, ?E4, ?E5, ?E6, ?E7, ?E8, ?(sg_page_cache _ _ _ _ Go), ?(sg_page_slab _ _ _ _ Go); try done.
    intros r Hr. rewrite (sg_page_is_slab _ _ _ _ Go); [by apply G5|]. intros Hr'. assert (p = q) as -> by (by apply (blocks_apart V B s c p c' q r)).
    destruct Hd as [Hd|?]; [|done]. by apply Hd, (slab_unique V B s c' c q).
  - intros c' q i Hc' Hq Ht Hi. apply (gone_slab s s' c p) in Hq as [Hq Hd]; [|done]. destruct (static_eqs _ _ (St c' Go)) as (E3 & E4 & _ & _ & _ & _ & _ & _ & E9 & _).
    rewrite E9 in Ht. rewrite E4 in Hi. unfold obj_at. rewrite (sg_slabs _ _ _ _ Go), E3. fold (obj_at (caches s c') (slabs s q) i).
    rewrite (sg_constructed _ _ _ _ Go); [by apply S7|]. intros j Hj E. destruct (obj_unique V B s c' q i c p j Sh Hc' Hc Hq Hp Hi Hj E) as (-> & -> & _). tauto.
Qed.

(** Without a slab that is free as a whole, its description is an object handed out. *)
Lemma gone_ok V G B L s s' c p : inv V G B L s -> c ∈ V -> p ∈ slabs_free (caches s c) -> slab_gone s s' c p -> holds (B ++ blocks V s') (pgs s') ->
  inv V G B (desc_of (caches s c) p ++ L) s'.
Proof.
  intros [P Cl] Hc Hpf Go Hpg. pose proof P as [Sh I2 I3 I4 I5 I6 I7]. assert (Hp : slab_of s c p) by (unfold slab_of, slabs_of; rewrite !elem_of_app; auto).
  pose proof (gone_owned V B s s' c p Sh Hc Hp Go) as Eo. pose proof (sg_slabs _ _ _ _ Go) as Es.
  assert (Efree : forall c' q, free_objs (caches s' c') (slabs s q) = free_objs (caches s c') (slabs s q)).
  { intros c' q. unfold free_objs. by destruct (gone_num s s' c p c' Go) as [-> _]. }
  assert (Perm : (desc_of (caches s c) p ++ L) ++ owned V s' ≡ₚ L ++ owned V s).
  { rewrite Eo, !app_assoc. f_equiv. apply Permutation_app_comm. }
  assert (Dyn : forall c', colour_next (caches s' c') = colour_next (caches s c') /\ growing (caches s' c') = growing (caches s c') /\ colour (caches s' c') = colour (caches s c')).
  { intros c'. destruct (decide (c' = c)) as [->|Hne]; [by rewrite (sg_cache _ _ _ _ Go)|by rewrite (sg_caches _ _ _ _ Go c' Hne)]. }
  split; [split|].
  - by apply (gone_shape V B s s' c p).
  - intros c' Hc'. destruct (Dyn c') as (-> & _ & ->). auto.
  - intros c' Hc'. destruct (Dyn c') as (_ & -> & _). auto.
  - intros c' q Hc' Hq. apply (gone_slab s s' c p) in Hq as [Hq _]; [|done]. destruct (I4 c' q Hc' Hq) as [K1 K2 K3].
    destruct (gone_num s s' c p c' Go) as [En _]. split; rewrite ?Es, ?Efree, ?En; done.
  - intros c' o Hc'. rewrite Perm, <- (I5 c' o Hc'). destruct (gone_num s s' c p c' Go) as [En Ez]. unfold live, obj_at. rewrite En, Ez, Es.
    split; intros (q & i & Hq & Hi & Hf & E); exists q, i; rewrite Efree in *; [apply (gone_slab s s' c p) in Hq as [Hq _]; done|].
    split; [|done]. apply (gone_slab s s' c p); [done|]. split; [done|]. destruct (decide (c' = c)) as [->|?]; [|by left]. right. intros ->.
    apply Hf, all_free; [pose proof (cf_num _ _ _ (in_conf _ _ _ _ _ _ P Hc)); lia|by apply I4|by apply (Cl c p Hc)|done].
  - by rewrite Perm.
  - intros c' o [Ho|Ho]%elem_of_app; [|by eapply I7]. unfold desc_of in Ho. destruct (OFF_SLAB _) eqn:Ef; [|by apply not_elem_of_nil in Ho].
    apply list_elem_of_singleton in Ho as [= -> ->]. apply (cf_off _ _ _ (in_conf _ _ _ _ _ _ P Hc) Ef).
  - intros c' q Hc'. unfold class_at. rewrite Es. destruct (Cl c' q Hc') as (C1 & C2 & C3). destruct (decide (c' = c)) as [->|Hne]; [|by rewrite (sg_caches _ _ _ _ Go c' Hne)].
    rewrite (sg_cache _ _ _ _ Go). simpl. rewrite !in_unlink. tauto.
Qed.

(** The clock of the reclaim points to a cache. *)
Definition on_ring (s : kmem A) : Prop := clock_searchp s ∈ cache_cache :: cache_chain s.

(** What no operation but creation and destruction of a cache changes. *)
Record kept (s s' : kmem A) : Prop := Kept {
  kp_static : forall c, static (caches s' c) = static (caches s c);
  kp_chain : cache_chain s' = cache_chain s;
  kp_general : general s' = general s;
  kp_limit : offslab_limit s' = offslab_limit s;
  kp_break : slab_break_gfp_order s' = slab_break_gfp_order s;
  kp_clock : on_ring s -> on_ring s'
}.

Lemma kept_refl s : kept s s.
Proof. by split. Qed.
Lemma kept_trans s1 s2 s3 : kept s1 s2 -> kept s2 s3 -> kept s1 s3.
Proof. intros [A1 A2 A3 A4 A5 A6] [B1 B2 B3 B4 B5 B6]. split; [intros c; by rewrite B1|congruence..|auto]. Qed.

Lemma pages_elem f o q : q ∈ seqZ f (2 ^ o) <-> in_block f o q.
Proof. by rewrite elem_of_seqZ. Qed.

Lemma free_one_kept c o s s' : kmem_cache_free_one c o s = Some s' -> kept s s'.
Proof.
  unfold kmem_cache_free_one. destruct (_ <=? _); [done|]. intros [= <-]. repeat destruct (_ =? _); split; try done; intros c'; simpl;
    (destruct (decide (c' = c)) as [->|?]; [by rewrite fn_lookup_alter|by rewrite fn_lookup_alter_ne]).
Qed.

(** A slab without objects in use is destroyed; only a cache of descriptions changes besides. *)
Lemma destroy_ok V G B L s c p : inv V G B L s -> c ∈ V -> p ∈ slabs_free (caches s c) ->
  exists s', kmem_slab_destroy c p (set_cache c (unlink p) s) = Some s' /\ inv V G B L s' /\ kept s s' /\
    slabs_of (caches s' c) ≡ₚ slabs_of (unlink p (caches s c)) /\ slabs_free (caches s' c) = slabs_free (unlink p (caches s c)).
Proof.
  intros I Hc Hp. pose proof (in_shape _ _ _ _ _ (proj1 I)) as Sh. assert (Hs : slab_of s c p) by (unfold slab_of, slabs_of; rewrite !elem_of_app; auto).
  unfold kmem_slab_destroy. set (s1 := set_cache c (unlink p) s). assert (Ek : caches s1 c = unlink p (caches s c)) by (unfold s1; simpl; by rewrite fn_lookup_alter).
  rewrite Ek. change (slabs s1 p) with (slabs s p). set (s2 := if dtor _ then _ else s1). unfold kmem_freepages. fold (frame (slabs s p)).
  change (OFF_SLAB (unlink p (caches s c))) with (OFF_SLAB (caches s c)). change (slabp_cache (unlink p (caches s c))) with (slabp_cache (caches s c)).
  assert (Ek2 : caches s2 = caches s1) by (unfold s2; by destruct (dtor _)). assert (Ep2 : pgs s2 = pgs s) by (unfold s2; by destruct (dtor _)).
  unfold slab_pages. fold (frame (slabs s p)). rewrite Ek2, Ek. change (gfporder (unlink p (caches s c))) with (gfporder (caches s c)).
  set (s3 := s2 <| page_is_slab ::= _ |>). change (pgs s3) with (pgs s2). rewrite Ep2.
  assert (Go : forall a, slab_gone s (s3 <| pgs := a |>) c p).
  { intros a. split; try (unfold s3, s2; by destruct (dtor _)).
    - intros c' Hne. simpl. rewrite Ek2. unfold s1. simpl. by rewrite fn_lookup_alter_ne.
    - intros q Hq. simpl. rewrite (foldl_insert_out (fun q => q) (fun _ => false)); [unfold s2; by destruct (dtor _)|]. intros r Hr ->. by apply Hq, pages_elem.
    - intros x Hx. simpl. unfold s2. destruct (dtor _); [|done]. simpl. apply (foldl_insert_out (obj_at _ _) (fun _ => false)).
      intros i Hi E. apply elem_of_seqZ in Hi. apply (Hx i); [simpl in Hi; lia|]. by rewrite <- E. }
  assert (Hh : holds ((frame (slabs s p), gfporder (caches s c)) :: B ++ blocks V (s3 <| pgs := pgs s |>)) (pgs s)).
  { eapply holds_perm; [|apply (sh_pages _ _ _ Sh)]. rewrite (gone_blocks V B s _ c p Sh Hc Hs (Go (pgs s))). symmetry. apply Permutation_middle. }
  destruct (put_law _ _ _ _ Hh) as (a & Ea & Ha). rewrite Ea. cbn [mbind option_bind]. set (s4 := s3 <| pgs := a |>).
  pose proof (gone_ok V G B L s s4 c p I Hc Hp (Go a) Ha) as I4.
  assert (K4 : kept s s4).
  { split; [|unfold s4, s3, s2; by destruct (dtor _)..]. intros c'. unfold s4, s3. simpl. rewrite Ek2. unfold s1. simpl.
    destruct (decide (c' = c)) as [->|?]; [by rewrite fn_lookup_alter|by rewrite fn_lookup_alter_ne]. }
  assert (E4 : caches s4 c = unlink p (caches s c)) by (unfold s4, s3; simpl; rewrite Ek2; exact Ek).
  unfold desc_of in I4. destruct (OFF_SLAB (caches s c)) eqn:Ef.
  - destruct (free_one_ok V G B L s4 (slabp_cache (caches s c)) p I4) as (s5 & q & E5 & I5 & _ & St). unfold kmem_cache_free.
    rewrite E5. exists s5. split; [done|]. split; [done|]. split; [apply (kept_trans s s4); [done|by eapply free_one_kept]|].
    assert (slabp_cache (caches s c) <> c) as Hne.
    { intros E. destruct (cf_off _ _ _ (sh_conf _ _ _ Sh c Hc) Ef) as (_ & Ho & _). rewrite E, Ef in Ho. done. }
    rewrite (ss_caches _ _ _ _ St c) by done. by rewrite E4.
  - exists s4. split; [done|]. split; [done|]. split; [done|]. by rewrite E4.
Qed.
End grow.

(** * A new slab *)

Section alloc.
Context {A : Type} `{PagesLaws A}.

(** ** A new slab *)

Lemma block_in V (s : kmem A) c p : c ∈ V -> slab_of s c p -> (frame (slabs s p), gfporder (caches s c)) ∈ blocks V s.
Proof.
  intros Hc Hp. apply list_elem_of_In, in_concat. exists (cache_blocks s c). split; [apply in_map; by apply list_elem_of_In|].
  apply in_map_iff. exists p. split; [done|by apply list_elem_of_In].
Qed.

Lemma block_old V B s f o c p q : shape V ((f, o) :: B) s -> c ∈ V -> slab_of s c p -> in_block (frame (slabs s p)) (gfporder (caches s c)) q -> ~ in_block f o q.
Proof.
  intros Sh Hc Hp Hq Hf. pose proof (holds_apart _ _ (sh_pages _ _ _ Sh)) as [D _]. apply (D (frame (slabs s p)) (gfporder (caches s c)) q); [|done|exact Hq].
  apply elem_of_app. right. by apply block_in.
Qed.

(** The description of a slab lies on the pages of a slab. *)
Lemma slab_home V G B L s c p : pre V G B L s -> c ∈ V -> slab_of s c p ->
  (OFF_SLAB (caches s c) = false /\ page_slab s (virt_to_page p) = p /\ in_block (frame (slabs s p)) (gfporder (caches s c)) (virt_to_page p)) \/
  (OFF_SLAB (caches s c) = true /\ (slabp_cache (caches s c), p) ∈ owned V s /\ live s (slabp_cache (caches s c)) p).
Proof.
  intros P Hc Hp. pose proof (in_shape _ _ _ _ _ P) as Sh. pose proof (sh_conf _ _ _ Sh c Hc) as K. destruct (OFF_SLAB (caches s c)) eqn:Ef; [right|left].
  - assert (Hin : (slabp_cache (caches s c), p) ∈ owned V s).
    { apply elem_of_app. right. apply list_elem_of_In, in_concat. exists (descriptors s c). split; [apply in_map; by apply list_elem_of_In|].
      unfold descriptors. rewrite Ef. apply in_map. by apply list_elem_of_In. }
    split; [done|]. split; [done|]. destruct (cf_off _ _ _ K Ef) as [Hv _]. apply (in_live _ _ _ _ _ P _ _ Hv). apply elem_of_app. by right.
  - destruct (sh_geo _ _ _ Sh c p Hc Hp) as [G1 G2 G3 G4 _]. pose proof (mgmt_pos (caches s c) ltac:(pose proof (cf_num _ _ _ K); lia) Ef) as Hm.
    pose proof (G4 Ef) as Ep. destruct (conf_bytes V s _ K) as (_ & _ & ?).
    destruct (slab_page V B s c p p Sh Hc Hp) as (_ & E1 & E2); [lia|]. done.
Qed.

Record slab_new (s s' : kmem A) (c p f : Z) : Prop := SlabNew {
  sn_cache : caches s' c = (caches s c) <| growing ::= Z.pred |> <| slabs_free ::= fun l => l ++ [p] |> <| failures := 0 |>;
  sn_caches : forall c', c' <> c -> caches s' c' = caches s c';
  sn_slabs : forall q, q <> p -> slabs s' q = slabs s q;
  sn_base : s_mem (slabs s' p) = page_address f + colouroff (slabs s' p);
  sn_off : mgmt (caches s c) <= colouroff (slabs s' p) /\ colouroff (slabs s' p) + num (caches s c) * objsize (caches s c) <= block_bytes (caches s c);
  sn_place : OFF_SLAB (caches s c) = false -> p = s_mem (slabs s' p) - mgmt (caches s c);
  sn_list : list_ok (caches s c) (slabs s' p) /\ inuse (slabs s' p) = 0;
  sn_pages : forall q, in_block f (gfporder (caches s c)) q -> page_cache s' q = c /\ page_slab s' q = p /\ page_is_slab s' q = true;
  sn_others : forall q, ~ in_block f (gfporder (caches s c)) q ->
    page_cache s' q = page_cache s q /\ page_slab s' q = page_slab s q /\ page_is_slab s' q = page_is_slab s q;
  sn_ctor : ctor (caches s c) = true -> forall i, 0 <= i < num (caches s c) -> constructed s' (obj_at (caches s c) (slabs s' p) i) = true;
  sn_constructed : forall a, constructed s a = true -> constructed s' a = true;
  sn_pgs : pgs s' = pgs s
}.

(** Its description is not that of another slab. *)
Lemma new_fresh V G B L s s' c p f c' : pre V G ((f, gfporder (caches s c)) :: B) (desc_of (caches s c) p ++ L) s -> c ∈ V ->
  slab_new s s' c p f -> c' ∈ V -> ~ slab_of s c' p.
Proof.
  intros P Hc N Hc' Hp. pose proof P as [Sh _ _ _ I5 I6 _]. pose proof (sh_conf _ _ _ Sh c Hc) as K. destruct (OFF_SLAB (caches s c)) eqn:Ef.
  - unfold desc_of in *. rewrite Ef in *. set (c2 := slabp_cache (caches s c)) in *. destruct (cf_off _ _ _ K Ef) as [Hv _]. fold c2 in Hv.
    assert (Hl : live s c2 p) by (apply I5; [done|]; simpl; apply list_elem_of_here).
    assert (Ec : page_cache s (virt_to_page p) = c2 /\ page_slab s (virt_to_page p) <> p).
    { destruct Hl as (q & i & Hq & Hi & _ & Eo). destruct (obj_page V _ s c2 q i Sh Hv Hq Hi) as [E1 E2]. rewrite <- Eo in E1, E2. split; [done|]. rewrite E2. intros ->.
      destruct (sh_geo _ _ _ Sh c2 p Hv Hq) as [_ _ _ G4 _]. destruct (cf_off _ _ _ K Ef) as (_ & Eo2 & _). fold c2 in Eo2. pose proof (G4 Eo2) as Ep.
      pose proof (sh_conf _ _ _ Sh c2 Hv) as K2. pose proof (mgmt_pos (caches s c2) ltac:(pose proof (cf_num _ _ _ K2); lia) Eo2).
      pose proof (cf_size _ _ _ K2). unfold obj_at, BYTES_PER_WORD in *. nia. }
    destruct (slab_home V _ _ _ s c' p P Hc' Hp) as [(_ & E & _)|(Ef' & Hin & Hl')]; [by apply Ec|].
    assert (E2 : slabp_cache (caches s c') = c2).
    { destruct Hl' as (q & i & Hq & Hi & _ & Eo). destruct (cf_off _ _ _ (sh_conf _ _ _ Sh c' Hc') Ef') as [Hv' _].
      destruct (obj_page V _ s _ q i Sh Hv' Hq Hi) as [E1 _]. rewrite <- Eo in E1. destruct Ec as [Ec _]. congruence. }
    rewrite E2 in Hin. simpl in I6. apply list.NoDup_cons in I6 as [I6 _]. apply I6, elem_of_app. by right.
  - assert (Hf : in_block f (gfporder (caches s c)) (virt_to_page p)).
    { pose proof (sn_place _ _ _ _ _ N Ef) as Ep. pose proof (sn_base _ _ _ _ _ N) as Eb. destruct (sn_off _ _ _ _ _ N) as [O1 O2].
      pose proof (mgmt_pos (caches s c) ltac:(pose proof (cf_num _ _ _ K); lia) Ef). destruct (conf_bytes V s _ K) as (? & _ & ?).
      pose proof (cf_order _ _ _ K). pose proof (Z.pow_pos_nonneg 2 (gfporder (caches s c))). unfold in_block, virt_to_page, page_address, block_bytes, PAGE_SIZE, PAGE_OFFSET in *.
      split; [apply Z.div_le_lower_bound; lia|apply Z.div_lt_upper_bound; lia]. }
    destruct (slab_home V _ _ _ s c' p P Hc' Hp) as [(_ & _ & E)|(Ef' & _ & (q & i & Hq & Hi & _ & Eo))].
    + by apply (block_old V B s f (gfporder (caches s c)) c' p (virt_to_page p)).
    + destruct (cf_off _ _ _ (sh_conf _ _ _ Sh c' Hc') Ef') as [Hv' _]. set (c2 := slabp_cache (caches s c')) in *.
      pose proof (obj_range V _ s c2 q i Sh Hv' Hq Hi) as R. rewrite <- Eo in R. pose proof (sh_conf _ _ _ Sh c2 Hv') as K2. pose proof (conf_bytes V s _ K2).
      pose proof (cf_size _ _ _ K2) as Hz. unfold BYTES_PER_WORD in Hz. destruct (slab_page V _ s c2 q p Sh Hv' Hq) as (_ & _ & Hb); [lia|].
      by apply (block_old V B s f (gfporder (caches s c)) c2 q (virt_to_page p)).
Qed.

Lemma new_static s s' c p f c' : slab_new s s' c p f -> static (caches s' c') = static (caches s c').
Proof. intros N. destruct (decide (c' = c)) as [->|Hne]; [by rewrite (sn_cache _ _ _ _ _ N)|by rewrite (sn_caches _ _ _ _ _ N c' Hne)]. Qed.

Lemma new_slabs s s' c p f : slab_new s s' c p f -> slabs_of (caches s' c) ≡ₚ p :: slabs_of (caches s c).
Proof.
  intros N. rewrite (sn_cache _ _ _ _ _ N). unfold slabs_of. simpl. rewrite !app_assoc. symmetry. apply Permutation_cons_append.
Qed.

Lemma new_slab_of s s' c p f c' q : slab_new s s' c p f -> slab_of s' c' q <-> slab_of s c' q \/ (c' = c /\ q = p).
Proof.
  intros N. unfold slab_of. destruct (decide (c' = c)) as [->|Hne]; [rewrite (new_slabs s s' c p f N), elem_of_cons; tauto|rewrite (sn_caches _ _ _ _ _ N c' Hne); tauto].
Qed.

Section new.
Context (V G : list Z) (B L : list (Z * Z)) (s s' : kmem A) (c p f : Z).
Context (I : inv V (c :: G) ((f, gfporder (caches s c)) :: B) (desc_of (caches s c) p ++ L) s) (Hc : c ∈ V) (N : slab_new s s' c p f).

Let P := proj1 I.
Let Sh := in_shape _ _ _ _ _ P.

Lemma new_other c' q : c' ∈ V -> slab_of s c' q -> q <> p /\ slabs s' q = slabs s q.
Proof. intros Hc' Hq. assert (q <> p) by (intros ->; by apply (new_fresh V _ B L s s' c p f c' P)). split; [done|by apply (sn_slabs _ _ _ _ _ N)]. Qed.

Lemma new_blocks : blocks V s' ≡ₚ (f, gfporder (caches s c)) :: blocks V s.
Proof.
  assert (Eb : forall c', c' ∈ V -> c' <> c -> cache_blocks s' c' = cache_blocks s c').
  { intros c' Hc' Hne. unfold cache_blocks. rewrite (sn_caches _ _ _ _ _ N c' Hne). apply map_ext_in. intros q Hq%list_elem_of_In. by rewrite (proj2 (new_other c' q Hc' Hq)). }
  set (g := fun c' => if decide (c' = c) then (f, gfporder (caches s c)) :: cache_blocks s c else cache_blocks s c').
  unfold blocks. rewrite (concat_perm (cache_blocks s') g).
  - apply (concat_one g (cache_blocks s) c [_]); [apply (sh_nodup _ _ _ Sh)|done| |].
    + intros c' Hne. unfold g. by rewrite decide_False.
    + unfold g. by rewrite decide_True.
  - intros c' Hc'. unfold g. destruct (decide (c' = c)) as [->|Hne]; [|by rewrite Eb]. unfold cache_blocks.
    rewrite (Permutation_map _ (new_slabs s s' c p f N)). simpl. destruct (static_eqs _ _ (new_static s s' c p f c N)) as (_ & _ & -> & _).
    assert (Ef : frame (slabs s' p) = f).
    { unfold frame. rewrite (sn_base _ _ _ _ _ N). replace (_ - _) with (page_address f + 0) by lia. by apply page_of_address. }
    rewrite Ef. f_equiv. rewrite (map_ext_in _ (fun p => (frame (slabs s p), gfporder (caches s c)))); [done|].
    intros q Hq%list_elem_of_In. by rewrite (proj2 (new_other c q Hc Hq)).
Qed.

Lemma new_owned : owned V s' ≡ₚ desc_of (caches s c) p ++ owned V s.
Proof.
  unfold owned. rewrite (concat_one (descriptors s') (descriptors s) c (desc_of (caches s c) p)); [|apply (sh_nodup _ _ _ Sh)|done| |].
  - rewrite !app_assoc. f_equiv. apply Permutation_app_comm.
  - intros c' Hne. unfold descriptors. by rewrite (sn_caches _ _ _ _ _ N c' Hne).
  - unfold descriptors, desc_of. destruct (static_eqs _ _ (new_static s s' c p f c N)) as (_ & _ & _ & -> & _ & _ & _ & -> & _).
    destruct (OFF_SLAB _); [|done]. by rewrite (Permutation_map _ (new_slabs s s' c p f N)).
Qed.

Lemma new_shape : shape V B s'.
Proof.
  pose proof Sh as [S1 S2 S3 S4 S5 S6 S7 S8]. pose proof (fun c' => new_static s s' c p f c' N) as St. split; try done.
  - destruct S2 as [? Ho]. split; [done|]. by destruct (static_eqs _ _ (St cache_cache)) as (_ & _ & _ & -> & _).
  - intros c' Hc'. apply (conf_static V s s' (caches s c')); auto.
  - intros c' Hc'. destruct (decide (c' = c)) as [->|Hne]; [|rewrite (sn_caches _ _ _ _ _ N c' Hne); auto].
    rewrite (new_slabs s s' c p f N). apply list.NoDup_cons. split; [|auto]. by apply (new_fresh V _ B L s s' c p f c P).
  - intros c' q Hc' Hq. destruct (static_eqs _ _ (St c')) as (E3 & E4 & E5 & E6 & _ & _ & _ & _ & _ & E7 & E8).
    apply (new_slab_of s s' c p f) in Hq as [Hq|[-> ->]]; [| |done].
    + destruct (S6 c' q Hc' Hq) as [G1 G2 G3 G4 G5]. destruct (new_other c' q Hc' Hq) as [_ Es].
      split; rewrite ?Es, ?E3, ?E4, ?E5, ?E6, ?E7, ?E8; try done. intros r Hr. destruct (sn_others _ _ _ _ _ N r) as (-> & -> & ->); [|by apply G5].
      by apply (block_old V B s f (gfporder (caches s c)) c' q r).
    + destruct (sn_off _ _ _ _ _ N) as [O1 O2]. assert (Eb : s_mem (slabs s' p) - colouroff (slabs s' p) = page_address f) by (rewrite (sn_base _ _ _ _ _ N); lia).
      assert (Ef : frame (slabs s' p) = f) by (unfold frame; rewrite Eb; replace (page_address f) with (page_address f + 0) by lia; by apply page_of_address).
      split; rewrite ?Ef, ?E3, ?E4, ?E5, ?E6, ?E7, ?E8; try done; [apply (sn_place _ _ _ _ _ N)|apply (sn_pages _ _ _ _ _ N)].
  - intros c' q i Hc' Hq Ht Hi. destruct (static_eqs _ _ (St c')) as (E3 & E4 & _ & _ & _ & _ & _ & _ & E9 & _). rewrite E9 in Ht. rewrite E4 in Hi.
    unfold obj_at. rewrite E3. apply (new_slab_of s s' c p f) in Hq as [Hq|[-> ->]]; [| |done].
    + rewrite (proj2 (new_other c' q Hc' Hq)). apply (sn_constructed _ _ _ _ _ N). by apply S7.
    + by apply (sn_ctor _ _ _ _ _ N).
  - rewrite (sn_pgs _ _ _ _ _ N). eapply holds_perm; [|exact S8]. rewrite new_blocks. simpl. apply Permutation_middle.
Qed.

Lemma new_ok : inv V G B L s'.
Proof.
  pose proof I as [_ Cl]. pose proof P as [_ I2 I3 I4 I5 I6 I7]. pose proof (fun c' => new_static s s' c p f c' N) as St.
  pose proof (cf_num _ _ _ (sh_conf _ _ _ Sh c Hc)) as Hn. destruct (sn_list _ _ _ _ _ N) as [Lo Lu].
  assert (Efree : forall c' sl, free_objs (caches s' c') sl = free_objs (caches s c') sl).
  { intros c' sl. unfold free_objs. by destruct (static_eqs _ _ (St c')) as (_ & -> & _). }
  assert (Perm : L ++ owned V s' ≡ₚ (desc_of (caches s c) p ++ L) ++ owned V s).
  { rewrite new_owned, !app_assoc. f_equiv. apply Permutation_app_comm. }
  split; [split|].
  - apply new_shape.
  - intros c' Hc'. destruct (decide (c' = c)) as [->|Hne]; [|rewrite (sn_caches _ _ _ _ _ N c' Hne); auto]. rewrite (sn_cache _ _ _ _ _ N). simpl. auto.
  - intros c' Hc'. specialize (I3 c' Hc'). destruct (decide (c' = c)) as [->|Hne].
    + rewrite (sn_cache _ _ _ _ _ N). simpl. rewrite filter_cons_True in I3 by done. cbn [length] in I3. lia.
    + rewrite (sn_caches _ _ _ _ _ N c' Hne). rewrite filter_cons_False in I3 by congruence. done.
  - intros c' q Hc' Hq. destruct (static_eqs _ _ (St c')) as (_ & En & _). apply (new_slab_of s s' c p f) in Hq as [Hq|[-> ->]]; [| |done].
    + rewrite (proj2 (new_other c' q Hc' Hq)). destruct (I4 c' q Hc' Hq) as [K1 K2 K3]. split; rewrite Efree, ?En; done.
    + destruct Lo as [K1 K2 K3]. split; rewrite Efree, ?En; done.
  - intros c' o Hc'. rewrite Perm, <- (I5 c' o Hc'). destruct (static_eqs _ _ (St c')) as (Ez & En & _). unfold live, obj_at. rewrite En, Ez.
    split; intros (q & i & Hq & Hi & Hf & E); exists q, i; rewrite Efree in *.
    + apply (new_slab_of s s' c p f) in Hq as [Hq|[-> ->]]; [| |done]; [rewrite (proj2 (new_other c' q Hc' Hq)) in *; done|].
      exfalso. apply Hf, all_free; [lia|done|done|done].
    + rewrite (proj2 (new_other c' q Hc' Hq)). split; [|done]. apply (new_slab_of s s' c p f); [done|]. by left.
  - by rewrite Perm.
  - intros c' o Ho. apply (I7 c' o), elem_of_app. by right.
  - intros c' q Hc'. destruct (static_eqs _ _ (St c')) as (_ & En & _). unfold class_at. rewrite En. destruct (Cl c' q Hc') as (C1 & C2 & C3).
    destruct (decide (q = p)) as [->|Hq].
    + destruct (decide (c' = c)) as [->|Hne].
      * rewrite (sn_cache _ _ _ _ _ N). simpl. pose proof (new_fresh V _ B L s s' c p f c P Hc N Hc) as Nf. unfold slab_of, slabs_of in Nf. rewrite !elem_of_app in Nf. tauto.
      * rewrite (sn_caches _ _ _ _ _ N c' Hne). pose proof (new_fresh V _ B L s s' c p f c' P Hc N Hc') as Nf. unfold slab_of, slabs_of in Nf. rewrite !elem_of_app in Nf. tauto.
    + rewrite (sn_slabs _ _ _ _ _ N q Hq). destruct (decide (c' = c)) as [->|Hne]; [|by rewrite (sn_caches _ _ _ _ _ N c' Hne)].
      rewrite (sn_cache _ _ _ _ _ N). simpl. rewrite elem_of_app, list_elem_of_singleton. tauto.
Qed.
End new.
End alloc.
