(* ===== verification/CacheCalls.v ===== *)
(** * Caches: every call on caches keeps the invariant *)
From stdpp Require Import base list functions strings.
From S2P Require Import Prelude Pages Cache CacheInv CacheGrow.

(** ** Flags of a request *)

Definition flags_ok (irq : bool) (flags : Z) : Prop :=
  has flags (Z.lnot (Z.lor SLAB_DMA (Z.lor SLAB_LEVEL_MASK SLAB_NO_GROW))) = false /\ (irq = true -> Z.land flags SLAB_LEVEL_MASK = SLAB_ATOMIC).

Lemma local_flags_ok irq flags : flags_ok irq flags -> flags_ok irq (Z.land flags SLAB_LEVEL_MASK) /\ has (Z.land flags SLAB_LEVEL_MASK) SLAB_DMA = false.
Proof.
  intros [_ Hi]. unfold flags_ok, has. rewrite <- !Z.land_assoc. change (Z.land SLAB_LEVEL_MASK (Z.lnot _)) with 0. change (Z.land SLAB_LEVEL_MASK SLAB_DMA) with 0.
  rewrite Z.land_0_r, Z.land_diag. done.
Qed.

(** The free objects of a new slab. *)
Lemma init_chain n b : 1 <= n -> (forall i, 0 <= i < n - 1 -> b i = i + 1) -> b (n - 1) = BUFCTL_END -> chain n b 0 (seqZ 0 n).
Proof.
  intros Hn Hb He. assert (X : forall k i, 0 <= i -> i + Z.of_nat k = n -> (0 < k)%nat -> chain n b i (seqZ i (Z.of_nat k))).
  { induction k as [|k IH]; intros i Hi Hk Hp; [lia|]. rewrite seqZ_cons by lia. replace (Z.pred (Z.of_nat (S k))) with (Z.of_nat k) by lia. simpl. split; [done|]. split; [lia|].
    destruct k as [|k]; [simpl; by replace i with (n - 1) by lia|]. rewrite Hb by lia. change (i + 1) with (Z.succ i). apply IH; lia. }
  specialize (X (Z.to_nat n) 0). rewrite Z2Nat.id in X by lia. apply X; lia.
Qed.

Section calls.
Context {A : Type} `{PagesLaws A}.

(** ** Changes of a cache besides its slabs *)

Lemma pgs_ok V G B B' L s a : inv V G B L s -> holds (B' ++ blocks V s) a -> inv V G B' L (s <| pgs := a |>).
Proof.
  intros [[[S1 S2 S3 S4 S5 S6 S7 S8] I2 I3 I4 I5 I6 I7] Cl] Ha. split; [|exact Cl]. split; [|done..]. split; try done.
  - intros c Hc. apply (conf_static V s _ (caches s c)); [done|done|auto].
  - intros c p Hc Hp. by destruct (S6 c p Hc Hp).
Qed.

Lemma dyn_ok V G G' B L s c g : inv V G B L s -> static (g (caches s c)) = static (caches s c) ->
  slabs_full (g (caches s c)) = slabs_full (caches s c) -> slabs_partial (g (caches s c)) = slabs_partial (caches s c) ->
  slabs_free (g (caches s c)) = slabs_free (caches s c) -> 0 <= colour_next (g (caches s c)) < Z.max 1 (colour (caches s c)) ->
  growing (g (caches s c)) = Z.of_nat (length (filter (fun x => x = c) G')) ->
  (forall c', c' <> c -> filter (fun x => x = c') G' = filter (fun x => x = c') G) -> inv V G' B L (set_cache c g s).
Proof.
  intros [P Cl] E1 E2 E3 E4 E5 E6 E7. pose proof P as [Sh I2 I3 I4 I5 I6 I7]. set (s' := set_cache c g s).
  assert (Ec : caches s' c = g (caches s c)) by (unfold s'; simpl; by rewrite fn_lookup_alter).
  assert (Eo : forall c', c' <> c -> caches s' c' = caches s c') by (intros c' Hne; unfold s'; simpl; by rewrite fn_lookup_alter_ne).
  assert (Esl : forall c', slabs_of (caches s' c') = slabs_of (caches s c')).
  { intros c'. destruct (decide (c' = c)) as [->|Hne]; [|by rewrite Eo]. unfold slabs_of. by rewrite Ec, E2, E3, E4. }
  assert (St : forall c', static (caches s' c') = static (caches s c')) by (intros c'; destruct (decide (c' = c)) as [->|Hne]; [by rewrite Ec|by rewrite Eo]).
  assert (Al : alike V s s') by (split; try done; intros c' _; by rewrite Esl).
  assert (Efree : forall c' sl, free_objs (caches s' c') sl = free_objs (caches s c') sl).
  { intros c' sl. unfold free_objs. by destruct (static_eqs _ _ (St c')) as (_ & -> & _). }
  split; [split|].
  - by apply (shape_alike V B s).
  - intros c' Hc'. destruct (decide (c' = c)) as [->|Hne]; [|rewrite (Eo c' Hne); auto]. destruct (static_eqs _ _ (St c)) as (_ & _ & _ & _ & _ & -> & _). by rewrite Ec.
  - intros c' Hc'. destruct (decide (c' = c)) as [->|Hne]; [by rewrite Ec|]. rewrite (Eo c' Hne), E7 by done. auto.
  - intros c' q Hc' Hq. rewrite (alike_slab V s s') in Hq by done. destruct (I4 c' q Hc' Hq) as [K1 K2 K3]. destruct (static_eqs _ _ (St c')) as (_ & En & _).
    split; rewrite Efree, ?En; done.
  - intros c' o Hc'. rewrite elem_of_app, (alike_owned V s s' Al), <- elem_of_app, <- (I5 c' o Hc'). destruct (static_eqs _ _ (St c')) as (Ez & En & _).
    unfold live, slab_of, obj_at. rewrite En, Ez, Esl. split; intros (q & i & Hq & Hi & Hf & E); exists q, i; rewrite Efree in *; done.
  - by rewrite (alike_owned V s s' Al).
  - done.
  - intros c' q Hc'. destruct (Cl c' q Hc') as (C1 & C2 & C3). unfold class_at. destruct (static_eqs _ _ (St c')) as (_ & -> & _).
    destruct (decide (c' = c)) as [->|Hne]; [rewrite Ec, E2, E3, E4; done|rewrite (Eo c' Hne); done].
Qed.

Lemma set_cache_kept c g (s : kmem A) : static (g (caches s c)) = static (caches s c) -> kept s (set_cache c g s).
Proof. intros E. split; try done. intros c'. simpl. destruct (decide (c' = c)) as [->|?]; [by rewrite fn_lookup_alter|by rewrite fn_lookup_alter_ne]. Qed.

(** ** Linking a new slab *)

(** The last part of kmem_cache_grow, on the pages [f] with the management structure at [p]. *)
Definition link_slab (c objp p off : Z) (s : kmem A) : option (kmem A) :=
  let s1 := set_slab p (fun sl => sl <| inuse := 0 |> <| colouroff := off |> <| s_mem := objp + off |>) s in
  let pages := slab_pages c objp s1 in
  let s2 := s1 <| page_cache ::= fun f => foldl (fun f q => <[q := c]> f) f pages |>
               <| page_slab ::= fun f => foldl (fun f q => <[q := p]> f) f pages |>
               <| page_is_slab ::= fun f => foldl (fun f q => <[q := true]> f) f pages |> in
  s3 ← kmem_cache_init_objs c p s2;
  Some (set_cache c (fun k => k <| growing ::= Z.pred |> <| slabs_free ::= fun l => l ++ [p] |> <| failures := 0 |>) s3).

Lemma link_new V G B L s c p f off : inv V (c :: G) ((f, gfporder (caches s c)) :: B) L s -> c ∈ V ->
  mgmt (caches s c) <= off -> off + num (caches s c) * objsize (caches s c) <= block_bytes (caches s c) ->
  (OFF_SLAB (caches s c) = false -> p = page_address f + off - mgmt (caches s c)) ->
  exists s', link_slab c (page_address f) p off s = Some s' /\ slab_new s s' c p f /\ kept s s'.
Proof.
  intros [P _] Hc O1 O2 Hpl. pose proof (cf_num _ _ _ (in_conf _ _ _ _ _ _ P Hc)) as Hn. unfold link_slab, kmem_cache_init_objs. set (k := caches s c) in *.
  set (s1 := set_slab p _ s). set (s2 := s1 <| page_cache ::= _ |> <| page_slab ::= _ |> <| page_is_slab ::= _ |>).
  change (caches s2 c) with k. rewrite (proj2 (Z.eqb_neq _ _)) by lia. cbn [mbind option_bind].
  assert (Epg : slab_pages c (page_address f) s1 = seqZ f (2 ^ gfporder k)).
  { unfold slab_pages. change (caches s1 c) with k. f_equal. replace (page_address f) with (page_address f + 0) by lia. by apply page_of_address. }
  set (s3 := if ctor k then _ else s2). set (h := fun sl : slab_t => sl <| bufctl ::= _ |> <| sfree := 0 |>). set (s' := set_cache c _ _). exists s'. split; [done|].
  assert (Esl : slabs s' p = h (slabs s1 p)) by (unfold s', s3; destruct (ctor k); simpl; by rewrite fn_lookup_alter).
  assert (Es1 : slabs s1 p = (slabs s p) <| inuse := 0 |> <| colouroff := off |> <| s_mem := page_address f + off |>) by (unfold s1; simpl; by rewrite fn_lookup_alter).
  assert (Eca : caches s3 = caches s) by (unfold s3; by destruct (ctor k)).
  assert (Lo : list_ok k (slabs s' p) /\ free_objs k (slabs s' p) = seqZ 0 (num k)).
  { rewrite Esl. apply list_ok_intro; [unfold BUFCTL_END; lia| |apply NoDup_seqZ|rewrite Es1; simpl; rewrite length_seqZ; lia].
    apply init_chain; [lia| |simpl; by rewrite fn_lookup_insert]. intros i Hi. simpl. rewrite fn_lookup_insert_ne by lia.
    apply (foldl_insert_in (fun i => i + 1)); [apply NoDup_seqZ|]. apply elem_of_seqZ. lia. }
  assert (Pin : forall q, in_block f (gfporder k) q -> exists r, r ∈ seqZ f (2 ^ gfporder k) /\ r = q) by (intros q Hq; exists q; split; [by apply pages_elem|done]).
  assert (Pout : forall q, ~ in_block f (gfporder k) q -> forall r, r ∈ seqZ f (2 ^ gfporder k) -> r <> q) by (intros q Hq r Hr ->; by apply Hq, pages_elem).
  split.
  - split; fold k.
    + unfold s'. simpl. by rewrite fn_lookup_alter, Eca.
    + intros c' Hne. unfold s'. simpl. by rewrite fn_lookup_alter_ne, Eca.
    + intros q Hq. unfold s', s3. destruct (ctor k); simpl; by rewrite !fn_lookup_alter_ne.
    + rewrite Esl, Es1. done.
    + rewrite Esl, Es1. done.
    + intros Ef. rewrite Esl, Es1. simpl. auto.
    + split; [apply Lo|]. by rewrite Esl, Es1.
    + intros q Hq. unfold s', s3. destruct (ctor k); simpl; rewrite Epg, !(foldl_insert_const (fun q => q)) by auto; done.
    + intros q Hq. assert (E : forall (B0 : Type) (v : B0) g, foldl (fun (f : Z -> B0) q => <[q := v]> f) g (seqZ f (2 ^ gfporder k)) q = g q)
        by (intros B0 v g; apply (foldl_insert_out (fun q => q) (fun _ => v)); auto).
      unfold s', s3. destruct (ctor k); simpl; rewrite Epg, !E; done.
    + intros Ht i Hi. assert (Ect : constructed s' = foldl (fun f i => <[obj_at k (slabs s2 p) i := true]> f) (constructed s) (seqZ 0 (num k))) by (unfold s', s3; by rewrite Ht).
      rewrite Ect. apply (foldl_insert_const (obj_at k (slabs s2 p))). exists i. split; [apply elem_of_seqZ; lia|]. by rewrite Esl.
    + intros a Ha. unfold s', s3. destruct (ctor k); [|done]. simpl.
      destruct (decide (Exists (fun i => obj_at k (slabs s2 p) i = a) (seqZ 0 (num k)))) as [Ex|Ex].
      * apply (foldl_insert_const (obj_at k (slabs s2 p))). apply list.Exists_exists in Ex as (i & Hi & E). by exists i.
      * rewrite (foldl_insert_out (obj_at k (slabs s2 p)) (fun _ => true)); [done|]. intros i Hi E. apply Ex, list.Exists_exists. by exists i.
    + unfold s', s3. by destruct (ctor k).
  - split; try (unfold s', s3; by destruct (ctor k)). intros c'. unfold s'. simpl.
    destruct (decide (c' = c)) as [->|?]; [by rewrite fn_lookup_alter, Eca|by rewrite fn_lookup_alter_ne, Eca].
Qed.

(** Pages that did not become a slab go back. *)
Lemma freepages_ok V G B L s c f : inv V G ((f, gfporder (caches s c)) :: B) L s ->
  exists s', kmem_freepages c (page_address f) s = Some s' /\ inv V G B L s' /\ kept s s'.
Proof.
  intros I. pose proof I as [[Sh I2 I3 I4 I5 I6 I7] Cl]. pose proof Sh as [S1 S2 S3 S4 S5 S6 S7 S8]. simpl in S8. destruct (put_law _ _ _ _ S8) as (a & Ea & Ha).
  unfold kmem_freepages, slab_pages. assert (Ep : virt_to_page (page_address f) = f) by (replace (page_address f) with (page_address f + 0) by lia; by apply page_of_address).
  rewrite Ep. cbn [pgs update]. simpl. rewrite Ea. simpl. eexists. split; [done|]. split; [|by split]. split; [|exact Cl]. split; [|done..]. split; try done.
  - intros c' Hc'. apply (conf_static V s _ (caches s c')); [done|done|auto].
  - intros c' p Hc' Hp. destruct (S6 c' p Hc' Hp) as [G1 G2 G3 G4 G5]. split; [done..|]. intros q Hq. simpl. rewrite (foldl_insert_out (fun q => q) (fun _ => false)); [by apply G5|].
    intros r Hr ->. apply pages_elem in Hr. by apply (block_old V B s f (gfporder (caches s c)) c' p q).
Qed.

Section reclaiming.
Context (reclaim : kmem A -> kmem A) (irq : bool).
(** What the reclaim of memory may do to the caches. *)
Definition ring (V : list Z) (s : kmem A) : Prop := V = cache_cache :: cache_chain s /\ on_ring s.
Context (Hre : forall V G B L s, inv V G B L s -> ring V s -> inv V G B L (reclaim s) /\ kept s (reclaim s)).

Lemma ring_kept V s s' : ring V s -> kept s s' -> ring V s'.
Proof. intros [-> R] K. split; [by rewrite (kp_chain _ _ K)|by apply (kp_clock _ _ K)]. Qed.

(** The state in which [kmem_cache_grow] asks for pages, and that it gets none. *)
Definition started (c : Z) (s : kmem A) : kmem A :=
  let k := caches s c in
  set_cache c (fun k0 => k0 <| colour_next := if colour k <=? colour_next k + 1 then 0 else colour_next k + 1 |>
                            <| dflags ::= Z.lor DFLGS_GROWN |> <| growing ::= Z.succ |>) s.
Definition no_pages (c flags : Z) (s : kmem A) : Prop := snd (kmem_getpages reclaim c flags (started c s)) = 0.
(** Why a request to a cache whose slabs describe themselves gets no object. *)
Definition starved (c flags : Z) (s : kmem A) : Prop :=
  slabs_partial (caches s c) = [] /\ slabs_free (caches s c) = [] /\ (has flags SLAB_NO_GROW = true \/ no_pages c flags s).
(** Why a cache does not grow: it may not, it gets no pages for the slab, or after that no
    object, of the cache for them, for the description of the slab. *)
Definition grow_refused (c flags : Z) (s : kmem A) : Prop :=
  has flags SLAB_NO_GROW = true \/ no_pages c flags s \/
  OFF_SLAB (caches s c) = true /\
    starved (slabp_cache (caches s c)) (Z.land flags SLAB_LEVEL_MASK) (fst (kmem_getpages reclaim c flags (started c s))).
(** Why a request gets no object. *)
Definition refused (c flags : Z) (s : kmem A) : Prop :=
  slabs_partial (caches s c) = [] /\ slabs_free (caches s c) = [] /\ grow_refused c flags s.

Lemma getpages_ok V G B L s c flags : inv V G B L s -> ring V s -> c ∈ V -> exists s' r, kmem_getpages reclaim c flags s = (s', r) /\ kept s s' /\
  ((r = 0 /\ inv V G B L s') \/ exists f, r = page_address f /\ r <> 0 /\ inv V G ((f, gfporder (caches s' c)) :: B) L s').
Proof.
  intros I R Hc. unfold kmem_getpages. set (s1 := if has _ _ then _ else s). assert (X : inv V G B L s1 /\ kept s s1) by (unfold s1; destruct (has _ _); [auto|by split; [|apply kept_refl]]).
  destruct X as [I1 K1]. pose proof (in_shape _ _ _ _ _ (proj1 I1)) as Sh. pose proof (cf_order _ _ _ (sh_conf _ _ _ Sh c Hc)) as Ho. unfold MAX_GFP_ORDER in Ho.
  assert (Hord : ord (gfporder (caches s1 c))) by (unfold ord, MAX_ORDER; lia).
  pose proof (get_law _ _ (Z.lor flags (gfpflags (caches s c))) _ (sh_pages _ _ _ Sh) Hord) as Hg.
  assert (Kp : forall a, kept s (s1 <| pgs := a |>)) by (intros a; destruct K1; by split).
  destruct (get_pages _ _ _) as [a [f|]] eqn:Ea.
  - eexists _, _. split; [done|]. split; [apply Kp|]. right. exists f. split; [done|]. split; [|apply (pgs_ok V G B); [done|exact Hg]].
    assert (0 <= f) by (apply (holds_range _ _ _ _ Hg (list_elem_of_here _ _))). unfold page_address, PAGE_OFFSET, PAGE_SIZE. lia.
  - eexists _, _. split; [done|]. split; [apply Kp|]. left. split; [done|]. by apply (pgs_ok V G B).
Qed.

(** The promise of an allocation from a cache whose slabs describe themselves. *)
Definition alloc_ok (V : list Z) (alloc : Z -> Z -> kmem A -> option (kmem A * Z)) : Prop := forall G B L s c flags, inv V G B L s -> ring V s -> c ∈ V ->
  OFF_SLAB (caches s c) = false -> has (gfpflags (caches s c)) __GFP_DMA = false -> flags_ok irq flags -> has flags SLAB_DMA = false ->
  exists s' o, alloc c flags s = Some (s', o) /\ kept s s' /\
    ((o = 0 /\ starved c flags s /\ inv V G B L s') \/ (o <> 0 /\ ~ starved c flags s /\ inv V G B ((c, o) :: L) s')).

Lemma grow_failed_ok V G B L s c : inv V (c :: G) B L s -> c ∈ V -> inv V G B L (grow_failed c s) /\ kept s (grow_failed c s).
Proof.
  intros I Hc. pose proof I as [P _]. split; [|by apply set_cache_kept]. apply (dyn_ok V (c :: G)); simpl; try done.
  - by apply (in_colour _ _ _ _ _ P).
  - rewrite (in_grow _ _ _ _ _ P c Hc), filter_cons_True by done. cbn [length]. lia.
  - intros c' Hne. rewrite filter_cons_False by congruence. done.
Qed.

Lemma kept_static_eqs (s s' : kmem A) c : kept s s' -> static (caches s' c) = static (caches s c).
Proof. intros K. apply (kp_static _ _ K). Qed.

(** A slab fits where the colour puts it. *)
Lemma colour_fits V (s : kmem A) k : conf_ok V s k -> 0 <= colour_next k < Z.max 1 (colour k) ->
  0 <= colour_next k * colour_off k /\ colour_next k * colour_off k + mgmt k + num k * objsize k <= block_bytes k.
Proof. intros K Hn. destruct (cf_colour _ _ _ K) as [H1 H2]. pose proof (cf_fit _ _ _ K). split; [nia|]. destruct (Z.eq_dec (colour k) 0) as [E|E]; nia. Qed.

Lemma cache_grow_ok V G B L s c flags alloc : inv V G B L s -> ring V s -> c ∈ V -> flags_ok irq flags -> (OFF_SLAB (caches s c) = true -> alloc_ok V alloc) ->
  exists s' b, kmem_cache_grow reclaim irq alloc c flags s = Some (s', b) /\ kept s s' /\ inv V G B L s' /\
    (if b then slabs_free (caches s' c) <> [] /\ ~ grow_refused c flags s else grow_refused c flags s).
Proof.
  intros I R Hc Fl Hal. pose proof I as [P _]. destruct Fl as [F1 F2]. unfold kmem_cache_grow. rewrite F1. destruct (has flags SLAB_NO_GROW) eqn:Eng; [exists s, false; split; [done|]; split; [apply kept_refl|]; by split; [|left]|].
  assert (Hirq : irq && negb (Z.land flags SLAB_LEVEL_MASK =? SLAB_ATOMIC) = false) by (destruct irq; [|done]; rewrite F2 by done; by rewrite Z.eqb_refl).
  rewrite Hirq. pose proof (in_conf _ _ _ _ _ _ P Hc) as K. pose proof (in_colour _ _ _ _ _ P c Hc) as Hcol. destruct (colour_fits V s _ K Hcol) as [O1 O2].
  set (k := caches s c) in *. set (off := colour_next k * colour_off k) in *. set (g := fun k0 : kmem_cache => _). set (s1 := set_cache c g s).
  assert (Es1 : s1 = started c s) by done.
  assert (I1 : inv V (c :: G) B L s1).
  { apply (dyn_ok V G); fold k; try done; simpl.
    - destruct (Z.leb_spec (colour k) (colour_next k + 1)); lia.
    - unfold k. rewrite (in_grow _ _ _ _ _ P c Hc), filter_cons_True by done. cbn [length]. lia.
    - intros c' Hne. rewrite filter_cons_False by congruence. done. }
  assert (K1 : kept s s1) by (by apply set_cache_kept). pose proof (ring_kept V s s1 R K1) as R1. destruct (getpages_ok V (c :: G) B L s1 c flags I1 R1 Hc) as (s2 & r & E2 & K2 & D2). rewrite E2.
  destruct D2 as [(-> & I2)|(f & -> & Hr & I2)].
  - assert (Np : no_pages c flags s) by (unfold no_pages; by rewrite <- Es1, E2). simpl. destruct (grow_failed_ok V G B L s2 c I2 Hc) as [I3 K3]. eexists _, false. split; [done|]. split; [by eapply kept_trans; [eapply kept_trans|]|]. split; [done|]. right. by left.
  - assert (Np : ~ no_pages c flags s) by (unfold no_pages; by rewrite <- Es1, E2).
    assert (E2s : fst (kmem_getpages reclaim c flags (started c s)) = s2) by (by rewrite <- Es1, E2).
    rewrite (proj2 (Z.eqb_neq _ _) Hr). pose proof (kept_trans _ _ _ K1 K2) as K12. pose proof (kept_static_eqs _ _ c K12) as St. fold k in St.
    destruct (static_eqs _ _ St) as (E3 & E4 & E5 & E6 & _ & _ & _ & E7 & _ & E8 & E9). unfold kmem_cache_slabmgmt. rewrite E6.
    assert (Fin : forall sb p, inv V (c :: G) ((f, gfporder (caches sb c)) :: B) (desc_of (caches sb c) p ++ L) sb -> kept s sb ->
      (OFF_SLAB k = false -> p = page_address f + off) -> exists s', link_slab c (page_address f) p (off + mgmt k) sb = Some s' /\ kept s s' /\ inv V G B L s' /\ slabs_free (caches s' c) <> []).
    { intros sb p Ib Kb Hpl. destruct (static_eqs _ _ (kept_static_eqs _ _ c Kb)) as (B3 & B4 & B5 & B6 & _ & _ & _ & B7 & _ & B8 & B9). fold k in B3, B4, B5, B6, B7, B8, B9.
      destruct (link_new V G B _ sb c p f (off + mgmt k) Ib Hc) as (s' & E' & N' & K'); [lia|rewrite B4, B3, B9; lia|rewrite B6, B8; intros Ef; rewrite (Hpl Ef); lia|].
      exists s'. split; [done|]. split; [by eapply kept_trans|]. split; [by apply (new_ok V G B L sb s' c p f)|].
      rewrite (sn_cache _ _ _ _ _ N'). simpl. by destruct (slabs_free _). }
    destruct (OFF_SLAB k) eqn:Ef.
    + destruct (cf_off _ _ _ K Ef) as (Hv & Ho1 & Ho2 & _). destruct (local_flags_ok irq flags (conj F1 F2)) as [Lf Ld]. rewrite E7.
      destruct (static_eqs _ _ (kept_static_eqs _ _ (slabp_cache k) K12)) as (_ & _ & _ & C6 & C7 & _).
      destruct (Hal eq_refl (c :: G) _ L s2 (slabp_cache k) (Z.land flags SLAB_LEVEL_MASK) I2 (ring_kept V _ _ R K12) Hv) as (s3 & p & E3' & K3 & D3); [by rewrite C6|by rewrite C7|done|done|].
      pose proof (kept_trans _ _ _ K12 K3) as K13. destruct (static_eqs _ _ (kept_static_eqs _ _ c K3)) as (_ & _ & X5 & _). destruct (static_eqs _ _ (kept_static_eqs _ _ c K13)) as (_ & _ & _ & X6 & _ & _ & _ & X7 & _).
      rewrite E3'. cbn [mbind option_bind]. destruct D3 as [(-> & Rf & I3)|(Hp & Rf & I3)].
      * simpl. rewrite <- X5 in I3. destruct (freepages_ok V (c :: G) B L s3 c f I3) as (s4 & E4' & I4 & K4). rewrite E4'. simpl.
        destruct (grow_failed_ok V G B L s4 c I4 Hc) as [I5 K5]. eexists _, false. split; [done|]. split; [by eapply kept_trans; [eapply kept_trans|]|]. split; [done|]. right. right. fold k. by rewrite E2s.
      * rewrite (proj2 (Z.eqb_neq _ _) Hp). cbn [mbind option_bind]. rewrite (proj2 (Z.eqb_neq _ _) Hp).
        destruct (Fin s3 p) as (s' & E' & K' & I' & Ne); [|done|done|].
        { rewrite X5. unfold desc_of. fold k in X6, X7. by rewrite X6, X7, Ef. }
        unfold link_slab in E'. unfold mgmt in E'. rewrite Ef in E'. replace (off + 0) with off in E' by lia.
        destruct (kmem_cache_init_objs _ _ _) as [s5|]; [|done]. simpl in E'. injection E' as <-. simpl. eexists _, true. split; [done|].
        split; [done|]. split; [done|]. split; [done|]. unfold grow_refused. fold k. rewrite Eng, E2s. intros [?|[?|[_ ?]]]; done.
    + assert (Hp : page_address f + off <> 0).
      { assert (0 <= f) by (apply (holds_range _ _ _ _ (sh_pages _ _ _ (in_shape _ _ _ _ _ (proj1 I2))) (list_elem_of_here _ _))). unfold page_address, PAGE_OFFSET, PAGE_SIZE. lia. }
      cbn [mbind option_bind]. rewrite (proj2 (Z.eqb_neq _ _) Hp). rewrite E4. fold (slab_size (num k)). replace (slab_size (num k)) with (mgmt k) by (unfold mgmt; by rewrite Ef).
      destruct (Fin s2 (page_address f + off)) as (s' & E' & K' & I' & Ne); [|done|done|].
      { unfold desc_of. by rewrite E6. }
      unfold link_slab in E'. destruct (kmem_cache_init_objs _ _ _) as [s5|]; [|done]. simpl in E'. injection E' as <-. simpl. eexists _, true. split; [done|].
      split; [done|]. split; [done|]. split; [done|]. unfold grow_refused. fold k. rewrite Eng, Ef. intros [?|[?|[? _]]]; done.
Qed.
End reclaiming.
End calls.

(** * Shrinking, reclaim and allocation *)

Section runs.
Context {A : Type} `{PagesLaws A}.

(** ** Slabs are given back *)

Lemma last_in {X} (l : list X) x : last l = Some x -> x ∈ l.
Proof. intros (l' & ->)%last_Some. apply elem_of_app. right. apply list_elem_of_here. Qed.

Lemma unlink_length (p : Z) (l : list Z) : NoDup l -> p ∈ l -> length l = S (length (filter (fun q => q <> p) l)).
Proof. intros Hn Hp. pose proof (Permutation_length (filter_out_perm p l Hn Hp)) as E. simpl in E. lia. Qed.

Lemma free_nodup V B (s : kmem A) c : shape V B s -> c ∈ V -> NoDup (slabs_free (caches s c)).
Proof. intros Sh Hc. pose proof (sh_lists _ _ _ Sh c Hc) as Hn. unfold slabs_of in Hn. apply list.NoDup_app in Hn as (_ & _ & Hn). by apply list.NoDup_app in Hn as (_ & _ & Hn). Qed.

(** The loop destroys all free slabs, unless the cache is growing. *)
Lemma shrink_loop_ok V G B L c fuel : forall s, inv V G B L s -> c ∈ V -> (length (slabs_free (caches s c)) < fuel)%nat ->
  exists s' n, shrink_loop fuel c s = Some (s', n) /\ inv V G B L s' /\ kept s s' /\
    (growing (caches s c) = 0 -> slabs_free (caches s' c) = [] /\ n = Z.of_nat (length (slabs_free (caches s c))) /\
       slabs_of (caches s c) ≡ₚ slabs_free (caches s c) ++ slabs_of (caches s' c)).
Proof.
  induction fuel as [|fuel IH]; intros s I Hc Hf; [lia|]. cbn [shrink_loop]. destruct (Z.eqb_spec (growing (caches s c)) 0) as [Eg|Eg]; simpl;
    [|exists s, 0; split; [done|]; split; [done|]; split; [apply kept_refl|done]].
  destruct (last (slabs_free (caches s c))) as [p|] eqn:El.
  - pose proof (last_in _ _ El) as Hp. destruct (destroy_ok V G B L s c p I Hc Hp) as (s1 & E1 & I1 & K1 & P1 & F1). rewrite E1. cbn [mbind option_bind].
    pose proof (in_shape _ _ _ _ _ (proj1 I)) as Sh. pose proof (unlink_length p _ (free_nodup V B s c Sh Hc) Hp) as Hlen.
    assert (Hg : growing (caches s1 c) = growing (caches s c)) by (by rewrite (in_grow _ _ _ _ _ (proj1 I) c Hc), (in_grow _ _ _ _ _ (proj1 I1) c Hc)).
    cbn [slabs_free unlink update] in F1. simpl in F1. destruct (IH s1 I1 Hc) as (s2 & n & E2 & I2 & K2 & X2); [rewrite F1; lia|]. rewrite E2. simpl. exists s2, (n + 1).
    split; [done|]. split; [done|]. split; [by eapply kept_trans|]. intros _. rewrite Hg in X2. destruct (X2 Eg) as (X3 & X4 & X5). split; [done|]. split; [rewrite X4, F1, Hlen; lia|].
    rewrite <- (unlink_perm p (caches s c)) at 1; [|apply (sh_lists _ _ _ Sh c Hc)|unfold slabs_of; rewrite !elem_of_app; auto].
    rewrite <- P1, X5, F1, app_comm_cons. f_equiv. apply filter_out_perm; [apply (free_nodup V B s c Sh Hc)|done].
  - apply last_None in El. rewrite El. exists s, 0. split; [done|]. split; [done|]. split; [apply kept_refl|done].
Qed.

Lemma reap_slabs_ok V G B L c n : forall s, inv V G B L s -> c ∈ V -> exists s' m, reap_slabs n c s = Some (s', m) /\ inv V G B L s' /\ kept s s'.
Proof.
  induction n as [|n IH]; intros s I Hc; cbn [reap_slabs]; [exists s, 0; split; [done|]; by split; [|apply kept_refl]|].
  destruct (negb _); [exists s, 0; split; [done|]; by split; [|apply kept_refl]|]. destruct (last _) as [p|] eqn:El; [|exists s, 0; split; [done|]; by split; [|apply kept_refl]].
  destruct (destroy_ok V G B L s c p I Hc (last_in _ _ El)) as (s1 & E1 & I1 & K1 & _). rewrite E1. cbn [mbind option_bind].
  destruct (IH s1 I1 Hc) as (s2 & m & E2 & I2 & K2). rewrite E2. simpl. exists s2, (m + 1). split; [done|]. split; [done|]. by eapply kept_trans.
Qed.

(** ** Reclaim *)

Lemma next_after_in c l : c ∈ l -> next_after c l ∈ l.
Proof.
  intros Hc. unfold next_after. destruct (list_find_elem_of (fun x => x = c) l c Hc eq_refl) as [[i x] E]. rewrite E.
  destruct (l !! S i) as [y|] eqn:Ey; simpl; [by eapply list_elem_of_lookup_2|]. destruct l as [|z l]; [by apply not_elem_of_nil in Hc|apply list_elem_of_here].
Qed.

(** The fields that the invariant does not mention. *)
Lemma caches_frame V G B L (s s' : kmem A) : inv V G B L s -> caches s' = caches s -> slabs s' = slabs s -> page_cache s' = page_cache s ->
  page_slab s' = page_slab s -> page_is_slab s' = page_is_slab s -> constructed s' = constructed s -> pgs s' = pgs s -> inv V G B L s'.
Proof.
  intros [[Sh I2 I3 I4 I5 I6 I7] Cl] E1 E2 E3 E4 E5 E6 E7. assert (Al : alike V s s') by (split; try done; intros; by rewrite ?E1, ?E2).
  pose proof (shape_alike V B s s' Sh Al) as Sh'. destruct s, s'. simpl in *. subst. by split.
Qed.

Lemma reap_scan_ok V G B L scan : forall searchp best len pages s, inv V G B L s -> ring V s -> searchp ∈ V -> best ∈ 0 :: V ->
  match reap_scan scan searchp best len pages s with (s', b, _) => inv V G B L s' /\ kept s s' /\ b ∈ 0 :: V end.
Proof.
  assert (End : forall x best (s : kmem A), inv V G B L s -> ring V s -> x ∈ V -> best ∈ 0 :: V -> inv V G B L (s <| clock_searchp := x |>) /\ kept s (s <| clock_searchp := x |>) /\ best ∈ 0 :: V).
  { intros x best s I [Ev Ro] Hx Hb. split; [by apply (caches_frame V G B L s)|]. split; [|done]. split; try done. intros _. unfold on_ring. simpl. by rewrite <- Ev. }
  induction scan as [|scan IH]; intros x best len pages s I R Hx Hb; cbn [reap_scan]; [by apply End|].
  assert (Hn : forall s', kept s s' -> next_cache x s' ∈ V).
  { intros s' K. destruct (ring_kept V s s' R K) as [Ev _]. unfold next_cache. rewrite <- Ev. by apply next_after_in. }
  assert (Go : forall s' b l p, inv V G B L s' -> kept s s' -> b ∈ 0 :: V -> match (if next_cache x s' =? clock_searchp s' then (s' <| clock_searchp := next_cache x s' |>, b, l) else reap_scan scan (next_cache x s') b l p s') with (s2, b2, _) => inv V G B L s2 /\ kept s s2 /\ b2 ∈ 0 :: V end).
  { intros s' b l p I' K' Hb'. pose proof (ring_kept V s s' R K') as R'. destruct (_ =? _).
    - destruct (End (next_cache x s') b s' I' R' (Hn s' K') Hb') as (H1 & H2 & H3). split; [done|]. split; [by eapply kept_trans|done].
    - specialize (IH (next_cache x s') b l p s' I' R' (Hn s' K') Hb'). destruct (reap_scan _ _ _ _ _ _) as [[s2 b2] l2]. destruct IH as (H1 & H2 & H3). split; [done|]. split; [by eapply kept_trans|done]. }
  destruct (has _ SLAB_NO_REAP); [by apply Go; [|apply kept_refl|]|]. destruct (negb _); [by apply Go; [|apply kept_refl|]|]. destruct (has _ DFLGS_GROWN).
  - apply Go; [|by apply set_cache_kept|done]. pose proof (proj1 I) as P. apply (dyn_ok V G); simpl; try done; [by apply (in_colour _ _ _ _ _ P)|by apply (in_grow _ _ _ _ _ P)].
  - destruct (_ <? _); [|by apply Go; [|apply kept_refl|]]. destruct (_ <=? _).
    + apply End; [done|done|apply Hn, kept_refl|apply elem_of_cons; by right].
    + apply Go; [done|apply kept_refl|apply elem_of_cons; by right].
Qed.

Lemma reap_ok V G B L s mask locked : inv V G B L s -> ring V s -> exists s' n, kmem_cache_reap mask locked s = Some (s', n) /\ inv V G B L s' /\ kept s s'.
Proof.
  intros I R. unfold kmem_cache_reap. destruct (_ && _); [exists s, 0; split; [done|]; by split; [|apply kept_refl]|].
  assert (Hc : clock_searchp s ∈ V) by (destruct R as [-> R]; exact R). pose proof (reap_scan_ok V G B L REAP_SCANLEN (clock_searchp s) 0 0 0 s I R Hc (list_elem_of_here _ _)) as X.
  destruct (reap_scan _ _ _ _ _ _) as [[s1 b] l]. destruct X as (I1 & K1 & Hb). destruct (Z.eqb_spec b 0) as [->|Hne]; [by exists s1, 0|].
  apply elem_of_cons in Hb as [?|Hb]; [done|]. destruct (reap_slabs_ok V G B L b (Z.to_nat ((l + 1) / 2)) s1 I1 Hb) as (s2 & m & E2 & I2 & K2). rewrite E2. simpl.
  eexists s2, _. split; [done|]. split; [done|]. by eapply kept_trans.
Qed.

(** ** Allocation *)

Section alloc.
Context (reclaim : kmem A -> kmem A) (irq : bool).
Context (Hre : forall V G B L s, inv V G B L s -> ring V s -> inv V G B L (reclaim s) /\ kept s (reclaim s)).

(** The result of an allocation from [c] in the state [s]; NULL just when no object of the
    cache is free and it may not grow or gets no pages in this call. *)
Definition alloc_result (V G : list Z) (B L : list (Z * Z)) (c flags : Z) (s s' : kmem A) (o : Z) : Prop :=
  kept s s' /\ ((o = 0 /\ refused reclaim c flags s /\ inv V G B L s') \/
    (0 < o /\ ~ refused reclaim c flags s /\ inv V G B ((c, o) :: L) s')).

Lemma object_pos V G B L s c o : inv V G B ((c, o) :: L) s -> 0 < o.
Proof.
  intros [P _]. destruct (live_slab V G B L s c o P) as (p & i & Hc & Hs & Hi & Hf & Eo).
  apply (live_nonnull V B s c o (in_shape _ _ _ _ _ P) Hc). by exists p, i.
Qed.

Lemma take_one_ok V G B L s c flags : inv V G B L s -> c ∈ V -> exists r, kmem_cache_alloc_one c s = Some r /\
  match r with Some (s', o) => alloc_result V G B L c flags s s' o | None => slabs_partial (caches s c) = [] /\ slabs_free (caches s c) = [] end.
Proof.
  intros I Hc. destruct (alloc_one_ok V G B L s c I Hc) as (r & E & X). exists r. split; [done|]. destruct r as [[s' o]|]; [|done]. destruct X as (I' & _ & p & _ & St).
  assert (Nr : ~ refused reclaim c flags s).
  { intros (N1 & N2 & _). unfold kmem_cache_alloc_one in E. by rewrite N1, N2 in E. }
  split; [|right; split; [by eapply object_pos|done]]. assert (Eq : cache_chain s' = cache_chain s /\ clock_searchp s' = clock_searchp s /\ general s' = general s /\
    offslab_limit s' = offslab_limit s /\ slab_break_gfp_order s' = slab_break_gfp_order s).
  { unfold kmem_cache_alloc_one, kmem_cache_alloc_one_tail in E. destruct (slabs_partial _) as [|q l]; [destruct (slabs_free _) as [|q l]; [done|]|];
      destruct (_ && _); try done; injection E as <- _; by destruct (_ =? _). }
  destruct Eq as (E1 & E2 & E3 & E4 & E5). split; try done.
  - intros c'. destruct (decide (c' = c)) as [->|Hne]; [apply (ss_static _ _ _ _ St)|by rewrite (ss_caches _ _ _ _ St)].
  - unfold on_ring. by rewrite E1, E2.
Qed.

(** Two passes are enough, when descriptions of slabs can be alloc_result. *)
Lemma pass_ok V G B L s c flags n : inv V G B L s -> ring V s -> c ∈ V -> flags_ok irq flags ->
  (OFF_SLAB (caches s c) = true -> alloc_ok reclaim irq V (fun c flags s => if c =? 0 then None else if kmem_cache_alloc_head c flags s then None else try_again reclaim irq (S n) c flags s)) ->
  exists s' o, try_again reclaim irq (S (S n)) c flags s = Some (s', o) /\ alloc_result V G B L c flags s s' o.
Proof.
  intros I R Hc Fl Hal. cbn [try_again]. destruct (take_one_ok V G B L s c flags I Hc) as (r & E & X). rewrite E. cbn [mbind option_bind]. destruct r as [[s' o]|]; [by exists s', o|].
  destruct (cache_grow_ok reclaim irq Hre V G B L s c flags _ I R Hc Fl Hal) as (s1 & b & E1 & K1 & I1 & Hb). cbn [try_again] in E1. rewrite E1. destruct b.
  - destruct (take_one_ok V G B L s1 c flags I1 Hc) as (r & E2 & X2). rewrite E2. cbn [mbind option_bind]. destruct r as [[s2 o]|]; [|destruct X2 as [_ X2]; by destruct Hb].
    destruct Hb as [Hb Hn]. exists s2, o. split; [done|]. destruct X2 as [K2 [(_ & (_ & Ef & _) & _)|(Ho & _ & I2)]]; [by destruct Hb|].
    split; [by eapply kept_trans|]. right. split; [done|]. split; [|done]. intros (_ & _ & Hr). done.
  - exists s1, 0. split; [done|]. split; [done|]. left. destruct X as [X1 X2]. split; [done|]. split; [|done]. by split_and!.
Qed.

Lemma nested_ok V n : alloc_ok reclaim irq V (fun c flags s => if c =? 0 then None else if kmem_cache_alloc_head c flags s then None else try_again reclaim irq (S (S n)) c flags s).
Proof.
  intros G B L s c flags I R Hc Ho Hd Fl Hf. rewrite (proj2 (Z.eqb_neq _ _)) by (intros ->; by apply (sh_null _ _ _ (in_shape _ _ _ _ _ (proj1 I)))).
  unfold kmem_cache_alloc_head. rewrite Hf, Hd. destruct (pass_ok V G B L s c flags n I R Hc Fl) as (s' & o & E & K & D); [congruence|].
  assert (Eq : refused reclaim c flags s <-> starved reclaim c flags s) by (unfold refused, starved, grow_refused; rewrite Ho; naive_solver).
  exists s', o. split; [done|]. split; [done|]. rewrite <- Eq. destruct D as [(-> & Rf & I')|(Hp & Rf & I')]; [by left|right]. split; [lia|done].
Qed.

Definition dma_fits (s : kmem A) (c flags : Z) : Prop := has flags SLAB_DMA = has (gfpflags (caches s c)) __GFP_DMA.

Lemma cache_alloc_ok V G B L s c flags : inv V G B L s -> ring V s -> c ∈ V -> flags_ok irq flags -> dma_fits s c flags ->
  exists s' o, kmem_cache_alloc reclaim irq c flags s = Some (s', o) /\ alloc_result V G B L c flags s s' o.
Proof.
  intros I R Hc Fl Hd. unfold kmem_cache_alloc, __kmem_cache_alloc. rewrite (proj2 (Z.eqb_neq _ _)) by (intros ->; by apply (sh_null _ _ _ (in_shape _ _ _ _ _ (proj1 I)))).
  assert (Eh : kmem_cache_alloc_head c flags s = false) by (unfold kmem_cache_alloc_head; rewrite Hd; by destruct (has _ _)). rewrite Eh.
  apply pass_ok; try done. intros _. apply nested_ok.
Qed.
End alloc.
End runs.
