(* ===== verification/CacheCreate.v ===== *)
(** * Caches: the layout of slabs that kmem_cache_create chooses, creation and destruction *)
From stdpp Require Import base list functions strings.
From S2P Require Import Prelude Pages Cache CacheInv CacheGrow CacheCalls.

(** ** How many objects fit *)

Section fit.
Context (size base extra w : Z).
Let fits (i : Z) : Prop := i * size + L1_CACHE_ALIGN (base + i * extra) <= w.

Lemma fit_spec fuel : forall i, i <= fit fuel i size base extra w <= i + Z.of_nat fuel /\
  (forall x, i <= x < fit fuel i size base extra w -> fits x) /\
  (fit fuel i size base extra w < i + Z.of_nat fuel -> ~ fits (fit fuel i size base extra w)).
Proof.
  induction fuel as [|fuel IH]; intros i; cbn [fit]; [split; [lia|]; split; intros; lia|].
  destruct (Z.leb_spec (i * size + L1_CACHE_ALIGN (base + i * extra)) w) as [Hf|Hf].
  - destruct (IH (i + 1)) as (H1 & H2 & H3). split; [lia|]. split; [|intros; apply H3; lia].
    intros x Hx. destruct (Z.eq_dec x i) as [->|?]; [exact Hf|apply H2; lia].
  - split; [lia|]. split; [intros; lia|]. intros _ Hn. unfold fits in Hn. lia.
Qed.
End fit.

(** The room for management in a slab of [n] objects. *)
Definition room (flags n : Z) : Z := if has flags CFLGS_OFF_SLAB then 0 else slab_size n.

Lemma slab_size_bound n : 0 <= n -> 4 * n + 24 <= slab_size n < 4 * n + 56.
Proof. intros Hn. unfold slab_size, sizeof_bufctl, sizeof_slab. pose proof (align_spec (n * 4 + 24)). lia. Qed.

Lemma estimate_ok order size flags : 0 <= order <= 5 -> 4 <= size ->
  match kmem_cache_estimate order size flags with (lf, n) =>
    0 <= n /\ 4 * n <= 131072 /\ lf = 4096 * 2 ^ order - n * size - room flags n /\ 0 <= lf /\
    4096 * 2 ^ order < (n + 1) * size + room flags (n + 1) end.
Proof.
  intros Ho Hs. unfold kmem_cache_estimate. rewrite Z.shiftl_mul_pow2 by lia. change PAGE_SIZE with 4096. set (w := 4096 * 2 ^ order).
  assert (Hw : 4096 <= w <= 131072) by (unfold w; pose proof (Z.pow_le_mono_r 2 0 order); pose proof (Z.pow_le_mono_r 2 order 5); lia).
  set (be := if negb (has flags CFLGS_OFF_SLAB) then (sizeof_slab, sizeof_bufctl) else (0, 0)).
  assert (Er : forall n, L1_CACHE_ALIGN (fst be + n * snd be) = room flags n).
  { intros n. unfold be, room. destruct (has flags CFLGS_OFF_SLAB); simpl; [by rewrite Z.mul_0_r|]. unfold slab_size. f_equal. lia. }
  destruct be as [base extra]. cbn [fst snd] in Er. destruct (fit_spec size base extra w (S (Z.to_nat w)) 0) as (H1 & H2 & H3).
  set (j := fit (S (Z.to_nat w)) 0 size base extra w) in *. rewrite Nat2Z.inj_succ, Z2Nat.id in H1, H3 by lia. setoid_rewrite Er in H2. rewrite Er in H3.
  assert (R : forall n, 0 <= n -> 0 <= room flags n < 4 * n + 56) by (intros n Hn; unfold room; pose proof (slab_size_bound n Hn); destruct (has _ _); lia).
  assert (Hj : 1 <= j).
  { destruct (Z.eq_dec j 0) as [Ej|?]; [|lia]. exfalso. apply H3; [lia|]. rewrite Ej. pose proof (R 0 ltac:(lia)). lia. }
  assert (Hf : (j - 1) * size + room flags (j - 1) <= w) by (apply H2; lia). pose proof (R (j - 1) ltac:(lia)) as Rj.
  rewrite (proj2 (Z.ltb_lt 0 j)) by lia. unfold SLAB_LIMIT. rewrite (proj2 (Z.ltb_ge _ (j - 1))) by nia. rewrite Er. replace (j - 1 + 1) with j by lia.
  split; [lia|]. split; [nia|]. split; [done|]. split; [lia|]. assert (~ j * size + room flags j <= w) by (apply H3; nia). lia.
Qed.

(** ** The order of slabs *)

(** Small objects share a page with the description of the slab; of large ones at most 32 share a slab. *)
Lemma choose_order_ok fuel : forall order size flags limit break, 4 <= size <= 131072 -> 1 <= break <= 2 -> 0 <= order <= 5 -> 5 - order < Z.of_nat fuel ->
  (has flags CFLGS_OFF_SLAB = true -> 512 <= size /\ 32 <= limit) -> (has flags CFLGS_OFF_SLAB = false -> size <= 512) ->
  (3 <= order -> 16384 < size) ->
  exists o lf n, choose_order fuel order size flags limit break = Some (o, lf, n) /\ order <= o <= 5 /\ 1 <= n /\ 4 * n <= 131072 /\ 0 <= lf /\
    lf = 4096 * 2 ^ o - n * size - room flags n /\ (has flags CFLGS_OFF_SLAB = true -> n <= 32).
Proof.
  induction fuel as [|fuel IH]; intros order size flags limit break Hs Hb Ho Hf Hoff Hon Hbig; [lia|]. cbn [choose_order].
  pose proof (estimate_ok order size flags Ho ltac:(lia)) as E. destruct (kmem_cache_estimate order size flags) as [lf n]. destruct E as (E1 & E2 & E3 & E4 & E5).
  pose proof (Z.pow_pos_nonneg 2 order ltac:(lia) ltac:(lia)) as Hp.
  assert (Hn1 : n = 0 -> has flags CFLGS_OFF_SLAB = true /\ 4096 * 2 ^ order < size).
  { intros ->. unfold room in E5. destruct (has flags CFLGS_OFF_SLAB); [split; [done|lia]|]. specialize (Hon eq_refl). pose proof (slab_size_bound (0 + 1)). lia. }
  assert (Hn32 : has flags CFLGS_OFF_SLAB = true -> n <= 32).
  { intros Ef. destruct (Hoff Ef) as [H512 _]. unfold room in E3. rewrite Ef in E3. destruct (Z.le_gt_cases 3 order) as [H3|H3].
    - pose proof (Z.pow_le_mono_r 2 order 5). pose proof (Hbig H3). nia.
    - pose proof (Z.pow_le_mono_r 2 order 2). nia. }
  assert (Hok : n <> 0 -> exists o lf0 n0, Some (order, lf, n) = Some (o, lf0, n0) /\ order <= o <= 5 /\ 1 <= n0 /\ 4 * n0 <= 131072 /\ 0 <= lf0 /\
    lf0 = 4096 * 2 ^ o - n0 * size - room flags n0 /\ (has flags CFLGS_OFF_SLAB = true -> n0 <= 32)).
  { intros Hn. exists order, lf, n. split; [done|]. split_and!; [lia|lia|lia|done|done|done|done]. }
  assert (Hrec : order < 5 -> (3 <= order + 1 -> 16384 < size) -> exists o lf0 n0, choose_order fuel (order + 1) size flags limit break = Some (o, lf0, n0) /\ order <= o <= 5 /\ 1 <= n0 /\ 4 * n0 <= 131072 /\ 0 <= lf0 /\
    lf0 = 4096 * 2 ^ o - n0 * size - room flags n0 /\ (has flags CFLGS_OFF_SLAB = true -> n0 <= 32)).
  { intros Ho5 Hb3. destruct (IH (order + 1) size flags limit break) as (o & l0 & n0 & X & X1 & X2); try done; try lia. exists o, l0, n0. split; [done|]. split; [lia|done]. }
  unfold MAX_GFP_ORDER. destruct (Z.leb_spec 5 order) as [H5|H5].
  - assert (order = 5) as -> by lia. apply Hok. intros E0. apply Hn1 in E0 as [_ ?]. lia.
  - destruct (Z.eqb_spec n 0) as [En|En].
    + apply Hrec; [lia|]. intros H3. destruct (Hn1 En) as [_ Hl]. destruct (Z.le_gt_cases 3 order); [by apply Hbig|]. assert (order = 2) as -> by lia. lia.
    + assert (Elim : has flags CFLGS_OFF_SLAB && (limit <? n) = false).
      { destruct (has flags CFLGS_OFF_SLAB); [|done]. destruct (Hoff eq_refl). specialize (Hn32 eq_refl). apply Z.ltb_ge. lia. }
      rewrite Elim. destruct (Z.leb_spec break order); [by apply Hok|]. destruct (_ <=? _); [by apply Hok|]. apply Hrec; lia.
Qed.

(** ** Rounding and flags *)

Lemma mask_round_up x k : 0 <= x -> 0 <= k -> let r := Z.land (x + (2 ^ k - 1)) (Z.lnot (2 ^ k - 1)) in
  x <= r /\ 0 <= r /\ (forall m, 0 <= m -> x <= m * 2 ^ k -> r <= m * 2 ^ k).
Proof.
  intros Hx Hk r. assert (Er : r = (x + (2 ^ k - 1)) / 2 ^ k * 2 ^ k).
  { unfold r. replace (2 ^ k - 1) with (Z.ones k) at 2 by (rewrite Z.ones_equiv; lia). rewrite <- Z.ldiff_land, Z.ldiff_ones_r by lia. by rewrite Z.shiftl_mul_pow2, Z.shiftr_div_pow2 by lia. }
  pose proof (Z.pow_pos_nonneg 2 k ltac:(lia) Hk) as Hp. pose proof (Z.div_mod (x + (2 ^ k - 1)) (2 ^ k) ltac:(lia)) as D. pose proof (Z.mod_pos_bound (x + (2 ^ k - 1)) (2 ^ k) ltac:(lia)) as Mb.
  rewrite Er. set (q := (x + (2 ^ k - 1)) / 2 ^ k) in *. split; [nia|]. split; [nia|]. intros m Hm Hxm. assert (q <= m); [|nia]. unfold q. apply Z.lt_succ_r, Z.div_lt_upper_bound; nia.
Qed.

Lemma has_lor a b m : has (Z.lor a b) m = has a m || has b m.
Proof.
  unfold has. rewrite Z.land_lor_distr_l. destruct (Z.eqb_spec (Z.land a m) 0) as [->|Ha]; [by rewrite Z.lor_0_l|]. apply negb_true_iff, Z.eqb_neq. intros E. by apply Z.lor_eq_0_iff in E as [? _].
Qed.

Lemma has_sub flags m w : Z.land w m = m -> has flags w = false -> has flags m = false.
Proof.
  unfold has. intros Ew E%negb_false_iff%Z.eqb_eq. apply negb_false_iff, Z.eqb_eq. by rewrite <- Ew, Z.land_assoc, E, Z.land_0_l.
Qed.

Lemma has_clear flags m : has (Z.land flags (Z.lnot m)) m = false.
Proof. unfold has. rewrite <- Z.land_assoc, (Z.land_comm _ m), Z.land_lnot_diag, Z.land_0_r. done. Qed.

Lemma halve_cases size : 4 <= size -> exists k, 3 <= k <= 5 /\ halve 5 size 32 = 2 ^ k.
Proof.
  intros Hs. cbn [halve]. change (32 / 2) with 16. change (16 / 2) with 8. change (8 / 2) with 4.
  destruct (Z.ltb_spec size 16); [|by exists 5]. destruct (Z.ltb_spec size 8); [|by exists 4]. destruct (Z.ltb_spec size 4); [lia|by exists 3].
Qed.

(** The size in words. *)
Lemma word_round size : 4 <= size <= 131072 ->
  let r := if has size (BYTES_PER_WORD - 1) then Z.land (size + (BYTES_PER_WORD - 1)) (Z.lnot (BYTES_PER_WORD - 1)) else size in
  size <= r <= 131072 /\ (512 <= r -> 508 < size).
Proof.
  intros Hs. unfold BYTES_PER_WORD. destruct (has size (4 - 1)); [|cbv zeta; lia]. destruct (mask_round_up size 2 ltac:(lia) ltac:(lia)) as (R1 & _ & R2).
  change (2 ^ 2) with 4 in *. pose proof (R2 32768 ltac:(lia) ltac:(lia)). cbv zeta. split; [lia|]. intros. destruct (Z.le_gt_cases size 508); [|lia].
  specialize (R2 127 ltac:(lia) ltac:(lia)). lia.
Qed.

(** The size in parts of a cache line. *)
Lemma line_round flags size : 4 <= size <= 131072 ->
  let align := if has flags SLAB_HWCACHE_ALIGN then L1_CACHE_BYTES else BYTES_PER_WORD in
  let r := if has flags SLAB_HWCACHE_ALIGN then let a := halve 5 size align in (a, Z.land (size + a - 1) (Z.lnot (a - 1))) else (align, size) in
  exists k, 2 <= k <= 5 /\ fst r = 2 ^ k /\ size <= snd r <= 131072 /\ (size < 512 -> snd r <= 512).
Proof.
  intros Hs. destruct (has flags SLAB_HWCACHE_ALIGN); [|exists 2; unfold BYTES_PER_WORD; simpl; lia].
  destruct (halve_cases size ltac:(lia)) as (k & Hk & Ea). change L1_CACHE_BYTES with 32. cbv zeta. rewrite Ea. cbn [fst snd]. exists k. split; [lia|]. split; [done|].
  replace (size + 2 ^ k - 1) with (size + (2 ^ k - 1)) by lia. destruct (mask_round_up size k ltac:(lia) ltac:(lia)) as (R1 & _ & R2).
  assert (E : forall m, 5 <= m -> 2 ^ (m - k) * 2 ^ k = 2 ^ m) by (intros m Hm; rewrite <- Z.pow_add_r by lia; f_equal; lia).
  pose proof (R2 (2 ^ (17 - k)) ltac:(apply Z.pow_nonneg; lia)) as X. rewrite E in X by lia. pose proof (R2 (2 ^ (9 - k)) ltac:(apply Z.pow_nonneg; lia)) as Y. rewrite E in Y by lia.
  change (2 ^ 17) with 131072 in X. change (2 ^ 9) with 512 in Y. lia.
Qed.

(** A description that fits moves back on the slab. *)
Lemma back_on_slab flags n lf bytes : 0 <= lf -> lf = bytes - room flags n ->
  let r := if has flags CFLGS_OFF_SLAB && (slab_size n <=? lf) then (Z.land flags (Z.lnot CFLGS_OFF_SLAB), lf - slab_size n) else (flags, lf) in
  0 <= snd r /\ snd r = bytes - room (fst r) n /\ (has (fst r) CFLGS_OFF_SLAB = true -> has flags CFLGS_OFF_SLAB = true) /\
  has (fst r) SLAB_CACHE_DMA = has flags SLAB_CACHE_DMA.
Proof.
  intros Hl El. destruct (has flags CFLGS_OFF_SLAB) eqn:Eo; simpl; [|rewrite Eo; done]. destruct (Z.leb_spec (slab_size n) lf); simpl; [|rewrite Eo; done].
  unfold room in *. rewrite has_clear, Eo in *. split; [lia|]. split; [lia|]. split; [done|].
  unfold has. rewrite <- Z.land_assoc. done.
Qed.

Section describe.
Context {A : Type} `{PagesLaws A}.

(** General caches for the descriptions of slabs of at most 32 objects. *)
Definition small_general (V : list Z) (s : kmem A) : Prop := forall n, 0 <= n <= 32 -> let c := kmem_find_general_cachep (slab_size n) 0 (general s) in
  c ∈ V /\ OFF_SLAB (caches s c) = false /\ has (gfpflags (caches s c)) __GFP_DMA = false /\ slab_size n <= objsize (caches s c).

Lemma describe_ok V name size offset flags ct dt s : 4 <= size <= 131072 -> 0 <= offset -> has flags (Z.lnot CREATE_MASK) = false ->
  1 <= slab_break_gfp_order s <= 2 -> (508 < size -> 32 <= offslab_limit s /\ small_general V s) ->
  exists k, describe name size offset flags ct dt s = Some k /\ conf_ok V s k /\ slabs_of k = [] /\ growing k = 0 /\ colour_next k = 0 /\
    size <= objsize k /\ (size <= 508 -> OFF_SLAB k = false) /\ has (gfpflags k) __GFP_DMA = has flags SLAB_CACHE_DMA /\ cname k = name /\
    (OFF_SLAB k = true -> exists n, 0 <= n <= 32 /\ slabp_cache k = kmem_find_general_cachep (slab_size n) 0 (general s)).
Proof.
  intros Hs Hoff Hf Hb Hg. unfold describe. set (size1 := if has size _ then _ else size).
  assert (S1 : size <= size1 <= 131072 /\ (512 <= size1 -> 508 < size)) by (by apply word_round).
  set (flags1 := if Z.shiftr PAGE_SIZE 3 <=? size1 then Z.lor flags CFLGS_OFF_SLAB else flags).
  assert (Foff : has flags CFLGS_OFF_SLAB = false) by (by apply (has_sub _ _ (Z.lnot CREATE_MASK))).
  assert (F1 : has flags1 CFLGS_OFF_SLAB = (512 <=? size1)).
  { unfold flags1. change (Z.shiftr PAGE_SIZE 3) with 512. destruct (512 <=? size1); [rewrite has_lor, Foff|]; done. }
  assert (Eh : has flags1 SLAB_HWCACHE_ALIGN = has flags SLAB_HWCACHE_ALIGN /\ has flags1 SLAB_CACHE_DMA = has flags SLAB_CACHE_DMA).
  { unfold flags1. destruct (_ <=? _); [|done]. rewrite !has_lor. by rewrite !orb_false_r. }
  destruct Eh as [Eh Ed]. rewrite Eh. pose proof (line_round flags size1 ltac:(lia)) as S2. cbv zeta in S2.
  set (as2 := if has flags SLAB_HWCACHE_ALIGN then (halve _ _ _, _) else _) in *.
  destruct as2 as [align size2]. cbn [fst snd] in S2. destruct S2 as (ka & Hka & -> & S2 & S3).
  destruct (choose_order_ok 6 0 size2 flags1 (offslab_limit s) (slab_break_gfp_order s)) as (o & lf & n & E & Ho & Hn & Hn2 & Hl & El & Hn3); try done; try lia.
  { intros Eo. rewrite F1 in Eo. apply Z.leb_le in Eo. split; [lia|]. apply Hg. lia. }
  { intros Eo. rewrite F1 in Eo. apply Z.leb_gt in Eo. lia. }
  rewrite E. cbn [mbind option_bind]. fold (slab_size n). set (fl := if has flags1 CFLGS_OFF_SLAB && (slab_size n <=? lf) then _ else (flags1, lf)).
  pose proof (back_on_slab flags1 n lf (4096 * 2 ^ o - n * size2) Hl El) as Fl. cbv zeta in Fl. fold fl in Fl. rewrite F1, Ed in Fl.
  destruct fl as [flags2 lf2]. cbn [fst snd] in Fl. destruct Fl as (L1 & L2 & L3 & L4). setoid_rewrite Z.leb_le in L3.
  set (off2 := if _ =? 0 then L1_CACHE_BYTES else _). assert (Hoff2 : 0 < off2).
  { unfold off2. destruct (mask_round_up offset ka Hoff ltac:(lia)) as (_ & R & _). destruct (Z.eqb_spec (Z.land (offset + (2 ^ ka - 1)) (Z.lnot (2 ^ ka - 1))) 0); [done|lia]. }
  set (flags3 := if (o =? 0) && _ then _ else flags2).
  assert (F3 : has flags3 CFLGS_OFF_SLAB = has flags2 CFLGS_OFF_SLAB /\ has flags3 SLAB_CACHE_DMA = has flags2 SLAB_CACHE_DMA).
  { unfold flags3. destruct (_ && _); [|done]. rewrite !has_lor. change (has CFLGS_OPTIMIZE CFLGS_OFF_SLAB) with false. change (has CFLGS_OPTIMIZE SLAB_CACHE_DMA) with false. by rewrite !orb_false_r. }
  destruct F3 as [F3 F4]. eexists. split; [done|]. set (k := KmemCache _ _ _ _ _ _ _ _ _ _ _ _ _ _ _ _ _ _).
  assert (Eoff : OFF_SLAB k = has flags2 CFLGS_OFF_SLAB) by (unfold OFF_SLAB, k; simpl; exact F3).
  assert (Em : mgmt k = room flags2 n) by (unfold mgmt, room; rewrite Eoff; done).
  assert (H32 : has flags2 CFLGS_OFF_SLAB = true -> 0 <= n <= 32) by (intros Eo; split; [lia|]; apply Hn3; rewrite F1; apply Z.leb_le; by apply L3).
  split_and!; [|done|done|done|simpl; lia| | |done|].
  - split.
    + simpl. lia.
    + simpl. unfold BYTES_PER_WORD. lia.
    + simpl. unfold MAX_GFP_ORDER. lia.
    + simpl. split; [apply Z.div_pos; lia|lia].
    + rewrite Em. unfold block_bytes, PAGE_SIZE. simpl. pose proof (Z.mul_div_le lf2 off2 Hoff2). lia.
    + rewrite Eoff. intros Eo. destruct Hg as [_ Hg]; [by apply S1, L3|]. simpl. rewrite F3, Eo. by apply (Hg n), H32.
  - intros Hsz. rewrite Eoff. destruct (has flags2 CFLGS_OFF_SLAB) eqn:Eo; [|done]. specialize (L3 eq_refl). lia.
  - simpl. rewrite F4, L4. by destruct (has flags SLAB_CACHE_DMA).
  - rewrite Eoff. intros Eo. exists n. split; [by apply H32|]. simpl. by rewrite F3, Eo.
Qed.
End describe.

(** * The set of caches, creation and destruction *)

Lemma filter_none (c : Z) (l : list Z) : c ∉ l -> filter (fun x => x = c) l = [].
Proof. induction l as [|x l IH]; [done|]. intros [Hx Hl]%not_elem_of_cons. rewrite filter_cons_False by congruence. auto. Qed.

Section create.
Context {A : Type} `{PagesLaws A}.

(** ** The set of caches *)

Lemma inv_caches V V' G B L s : V ≡ₚ V' -> inv V G B L s -> inv V' G B L s.
Proof.
  intros PV [[[S1 S2 S3 S4 S5 S6 S7 S8] I2 I3 I4 I5 I6 I7] Cl]. assert (In : forall c, c ∈ V' -> c ∈ V) by (intros c; by rewrite PV).
  assert (Po : owned V' s ≡ₚ owned V s) by (unfold owned; by rewrite PV). assert (Pb : blocks V' s ≡ₚ blocks V s) by (unfold blocks; by rewrite PV).
  split; [split; [split| | | | | |]|].
  - by rewrite <- PV.
  - by rewrite <- PV.
  - by rewrite <- PV.
  - intros c Hc. destruct (S4 c (In c Hc)) as [C1 C2 C3 C4 C5 C6]. split; try done. by rewrite <- PV.
  - auto.
  - auto.
  - eauto.
  - eapply holds_perm; [|done]. by rewrite Pb.
  - auto.
  - auto.
  - auto.
  - intros c o Hc. rewrite (I5 c o (In c Hc)), !elem_of_app. by rewrite Po.
  - by rewrite Po.
  - intros c o Ho. rewrite <- PV. by eapply I7.
  - auto.
Qed.

Definition others (c : Z) (V : list Z) : list Z := filter (fun x => x <> c) V.

Lemma owned_others V (s : kmem A) c : NoDup V -> c ∈ V -> c <> cache_cache -> slabs_of (caches s c) = [] -> owned V s ≡ₚ (cache_cache, c) :: owned (others c V) s.
Proof.
  intros Hn Hc Hcc Es. unfold owned. pose proof (filter_out_perm c V Hn Hc) as PV. fold (others c V) in PV. rewrite <- PV at 1 2. rewrite filter_cons_True by done. simpl.
  f_equiv. f_equiv. unfold descriptors at 1. rewrite Es. by destruct (OFF_SLAB _).
Qed.

Lemma blocks_others V (s : kmem A) c : NoDup V -> c ∈ V -> slabs_of (caches s c) = [] -> blocks V s ≡ₚ blocks (others c V) s.
Proof.
  intros Hn Hc Es. unfold blocks. pose proof (filter_out_perm c V Hn Hc) as PV. fold (others c V) in PV. rewrite <- PV at 1. simpl. unfold cache_blocks at 1. by rewrite Es.
Qed.

(** No slab is described by an object of [c]. *)
Definition unused_general (V : list Z) (s : kmem A) (c : Z) : Prop := forall c', c' ∈ V -> OFF_SLAB (caches s c') = true -> slabp_cache (caches s c') <> c.

(** A cache without slabs goes; its description is an object handed out. *)
Lemma drop_ok V G B L s c : inv V G B L s -> c ∈ V -> c <> cache_cache -> slabs_of (caches s c) = [] -> unused_general V s c ->
  inv (others c V) G B ((cache_cache, c) :: L) s.
Proof.
  intros [[[S1 S2 S3 S4 S5 S6 S7 S8] I2 I3 I4 I5 I6 I7] Cl] Hc Hcc Es Hu.
  assert (In : forall c', c' ∈ others c V <-> c' <> c /\ c' ∈ V) by (intros c'; apply in_unlink).
  pose proof (owned_others V s c S1 Hc Hcc Es) as Po. pose proof (blocks_others V s c S1 Hc Es) as Pb.
  assert (Perm : ((cache_cache, c) :: L) ++ owned (others c V) s ≡ₚ L ++ owned V s) by (rewrite Po; simpl; apply Permutation_middle).
  split; [split; [split| | | | | |]|].
  - by apply list.NoDup_filter.
  - split; [|apply S2]. apply In. split; [done|apply S2].
  - rewrite In. tauto.
  - intros c' [Hne Hc']%In. destruct (S4 c' Hc') as [C1 C2 C3 C4 C5 C6]. split; try done. intros Eo. destruct (C6 Eo) as (X & Y). split; [|done]. apply In. split; [by apply Hu|done].
  - intros c' [_ Hc']%In. auto.
  - intros c' p [_ Hc']%In. auto.
  - intros c' p i [_ Hc']%In. eauto.
  - eapply holds_perm; [|done]. by rewrite Pb.
  - intros c' [_ Hc']%In. auto.
  - intros c' [_ Hc']%In. auto.
  - intros c' p [_ Hc']%In. auto.
  - intros c' o [_ Hc']%In. rewrite Perm. auto.
  - by rewrite Perm.
  - intros c' o [[= -> ->]|Ho]%elem_of_cons; apply In; [split; [done|apply S2]|]. split; [|by eapply I7]. intros ->.
    destruct (proj2 (I5 c o Hc)) as (p & _ & Hp & _); [apply elem_of_app; by left|]. unfold slab_of in Hp. rewrite Es in Hp. by apply not_elem_of_nil in Hp.
  - intros c' p [_ Hc']%In. auto.
Qed.

(** A cache comes, whose description is an object that was handed out. *)
Lemma add_ok V G B L s c k : inv V G B ((cache_cache, c) :: L) s -> c ∉ G -> conf_ok V s k -> slabs_of k = [] -> growing k = 0 -> colour_next k = 0 ->
  c ∉ V /\ inv (c :: V) G B L (s <| caches ::= <[c := k]> |>).
Proof.
  intros [P Cl] HG Kk Es Eg En. pose proof P as [[S1 S2 S3 S4 S5 S6 S7 S8] I2 I3 I4 I5 I6 I7]. set (s' := s <| caches ::= <[c := k]> |>).
  simpl in I6. apply list.NoDup_cons in I6 as [I6 I6'].
  assert (Hv : cache_cache ∈ V) by apply S2. assert (Hlv : live s cache_cache c) by (apply I5; [done|]; simpl; apply list_elem_of_here).
  assert (Hpos : PAGE_OFFSET <= c).
  { destruct Hlv as (p & i & Hp & Hi & _ & ->). pose proof (obj_range V B s cache_cache p i (in_shape _ _ _ _ _ P) Hv Hp Hi) as R. pose proof (conf_bytes V s _ (S4 _ Hv)).
    pose proof (holds_range _ _ _ _ S8 (proj2 (elem_of_app _ _ _) (or_intror (block_in V s cache_cache p Hv Hp)))). unfold page_address, PAGE_SIZE in *. lia. }
  assert (Hc : c ∉ V).
  { intros Hc. apply I6, elem_of_app. right. apply elem_of_app. left. apply list_elem_of_In, in_map, list_elem_of_In, list_elem_of_filter. split; [|done]. unfold cache_cache, PAGE_OFFSET in *. lia. }
  split; [done|]. assert (Ek : caches s' c = k) by (unfold s'; simpl; by rewrite fn_lookup_insert).
  assert (Eo : forall c', c' ∈ V -> caches s' c' = caches s c') by (intros c' Hc'; unfold s'; simpl; rewrite fn_lookup_insert_ne; [done|congruence]).
  assert (Po : owned (c :: V) s' ≡ₚ (cache_cache, c) :: owned V s).
  { unfold owned. rewrite filter_cons_True by (unfold cache_cache, PAGE_OFFSET in *; lia). simpl. f_equiv. f_equiv.
    assert (E0 : descriptors s' c = []) by (unfold descriptors; rewrite Ek, Es; by destruct (OFF_SLAB k)). rewrite E0. simpl.
    apply concat_perm. intros c' Hc'. unfold descriptors. by rewrite Eo. }
  assert (Pb : blocks (c :: V) s' ≡ₚ blocks V s).
  { unfold blocks. simpl. unfold cache_blocks at 1. rewrite Ek, Es. simpl. apply concat_perm. intros c' Hc'. unfold cache_blocks. by rewrite Eo. }
  assert (Perm : L ++ owned (c :: V) s' ≡ₚ ((cache_cache, c) :: L) ++ owned V s) by (rewrite Po; simpl; symmetry; apply Permutation_middle).
  assert (Cf : forall k', conf_ok V s k' -> conf_ok (c :: V) s' k').
  { intros k' [C1 C2 C3 C4 C5 C6]. split; try done. intros Ef. destruct (C6 Ef) as (X & Y). rewrite (Eo _ X). split; [apply elem_of_cons; by right|done]. }
  assert (Sl : forall c' p, c' ∈ c :: V -> slab_of s' c' p -> c' ∈ V /\ slab_of s c' p).
  { intros c' p [->|Hc']%elem_of_cons Hp; unfold slab_of in *; [rewrite Ek, Es in Hp; by apply not_elem_of_nil in Hp|]. by rewrite (Eo c' Hc') in Hp. }
  split; [split; [split| | | | | |]|].
  - by apply list.NoDup_cons.
  - split; [apply elem_of_cons; by right|]. rewrite (Eo _ Hv). apply S2.
  - apply not_elem_of_cons. split; [unfold PAGE_OFFSET in *; lia|done].
  - intros c' [->|Hc']%elem_of_cons; [rewrite Ek|rewrite (Eo c' Hc')]; auto.
  - intros c' [->|Hc']%elem_of_cons; [rewrite Ek, Es; apply NoDup_nil_2|rewrite (Eo c' Hc'); auto].
  - intros c' p Hc' Hp. destruct (Sl c' p Hc' Hp) as [Hc2 Hp2]. destruct (S6 c' p Hc2 Hp2) as [G1 G2 G3 G4 G5]. split; rewrite (Eo c' Hc2) || idtac; done.
  - intros c' p i Hc' Hp. destruct (Sl c' p Hc' Hp) as [Hc2 Hp2]. rewrite (Eo c' Hc2). by apply S7.
  - eapply holds_perm; [|exact S8]. by rewrite Pb.
  - intros c' [->|Hc']%elem_of_cons; [rewrite Ek, En; lia|rewrite (Eo c' Hc'); auto].
  - intros c' [->|Hc']%elem_of_cons; [|rewrite (Eo c' Hc'); auto]. by rewrite Ek, Eg, filter_none.
  - intros c' p Hc' Hp. destruct (Sl c' p Hc' Hp) as [Hc2 Hp2]. rewrite (Eo c' Hc2). by apply I4.
  - intros c' o [->|Hc']%elem_of_cons; rewrite Perm.
    + split; [intros (p & _ & Hp & _); unfold slab_of in Hp; rewrite Ek, Es in Hp; by apply not_elem_of_nil in Hp|].
      rewrite elem_of_app, elem_of_cons. intros [[[= E _]|Ho]|Ho]; exfalso; [apply Hc; by rewrite E|by apply Hc, (I7 c o), elem_of_cons; right|].
      apply elem_of_app in Ho as [Ho|Ho]; apply list_elem_of_In in Ho; [apply in_map_iff in Ho as (x & [= E _] & _); apply Hc; by rewrite <- E|].
      apply in_concat in Ho as (l & Hl & Ho). apply in_map_iff in Hl as (c2 & <- & Hc2%list_elem_of_In). unfold descriptors in Ho. destruct (OFF_SLAB (caches s c2)) eqn:Ef; [|destruct Ho].
      apply in_map_iff in Ho as (x & [= E _] & _). apply Hc. rewrite <- E. apply (cf_off _ _ _ (S4 c2 Hc2) Ef).
    + rewrite <- (I5 c' o Hc'). unfold live, slab_of. by rewrite (Eo c' Hc').
  - rewrite Perm. simpl. by apply list.NoDup_cons.
  - intros c' o Ho. apply elem_of_cons. right. apply (I7 c' o), elem_of_cons. by right.
  - intros c' p [->|Hc']%elem_of_cons; unfold class_at; [|rewrite (Eo c' Hc'); by apply Cl]. rewrite Ek. unfold slabs_of in Es. apply app_eq_nil in Es as [-> Es]. apply app_eq_nil in Es as [-> ->].
    split_and!; intros Hx; by apply not_elem_of_nil in Hx.
Qed.

(** ** Shrinking and destruction *)

Lemma shrink_ok V G B L s c : inv V G B L s -> c ∈ V -> exists s' n, kmem_cache_shrink false c s = Some (s', n) /\ inv V G B L s' /\ kept s s' /\
  (c ∉ G -> slabs_free (caches s' c) = [] /\ n = Z.of_nat (length (slabs_free (caches s c))) * 2 ^ gfporder (caches s c)).
Proof.
  intros I Hc. unfold kmem_cache_shrink, __kmem_cache_shrink_locked. rewrite (proj2 (Z.eqb_neq c 0)) by (intros ->; by apply (sh_null _ _ _ (in_shape _ _ _ _ _ (proj1 I)))). cbn [orb].
  destruct (shrink_loop_ok V G B L c (S (length (slabs_free (caches s c)))) s I Hc ltac:(lia)) as (s' & n & E & I' & K & X). rewrite E. simpl. eexists s', _. split; [done|]. split; [done|]. split; [done|].
  intros HG. destruct X as (X1 & -> & _); [rewrite (in_grow _ _ _ _ _ (proj1 I) c Hc); by rewrite filter_none|]. split; [done|].
  destruct (static_eqs _ _ (kp_static _ _ K c)) as (_ & _ & -> & _). apply Z.shiftl_mul_pow2. apply (cf_order _ _ _ (in_conf _ _ _ _ _ _ (proj1 I) Hc)).
Qed.

Lemma next_after_other c l : NoDup (cache_cache :: l) -> c ∈ l -> next_after c (cache_cache :: l) <> c.
Proof.
  intros Hn Hc. assert (Hcc : cache_cache <> c) by (apply list.NoDup_cons in Hn as [Hn _]; congruence). unfold next_after.
  destruct (list_find (fun x => x = c) (cache_cache :: l)) as [[i x]|] eqn:E; [|apply list_find_None in E; rewrite list.Forall_forall in E; destruct (E c); [apply elem_of_cons; by right|done]].
  apply list_find_Some in E as (E1 & -> & _). destruct ((cache_cache :: l) !! S i) as [y|] eqn:Ey; simpl; [|done]. intros ->.
  pose proof (proj1 (list.NoDup_alt _) Hn i (S i) c E1 Ey). lia.
Qed.

(** The slabs with objects in use are those with objects that were handed out. *)
Lemma busy_held V G B L s c : inv V G B L s -> c ∈ V -> c <> cache_cache -> unused_general V s c ->
  (slabs_full (caches s c) = [] /\ slabs_partial (caches s c) = []) \/ exists o, (c, o) ∈ L.
Proof.
  intros [P Cl] Hc Hcc Hu. assert (Hb : forall p, slab_of s c p -> 0 < inuse (slabs s p) -> exists o, (c, o) ∈ L).
  { intros p Hp Hin. destruct (in_list _ _ _ _ _ P c p Hc Hp) as [K1 K2 K3]. pose proof (cf_num _ _ _ (in_conf _ _ _ _ _ _ P Hc)) as Hn.
    destruct (decide (Forall (fun i => i ∈ free_objs (caches s c) (slabs s p)) (seqZ 0 (num (caches s c))))) as [F|F].
    - exfalso. assert (S : seqZ 0 (num (caches s c)) ⊆+ free_objs (caches s c) (slabs s p)) by (apply NoDup_submseteq; [apply NoDup_seqZ|]; intros i Hi; by apply (proj1 (list.Forall_forall _ _) F)).
      apply submseteq_length in S. rewrite length_seqZ in S. lia.
    - apply not_Forall_Exists in F; [|apply _]. apply list.Exists_exists in F as (i & Hi & Hf). apply elem_of_seqZ in Hi.
      assert (Hl : live s c (obj_at (caches s c) (slabs s p) i)) by (exists p, i; split; [done|]; split; [lia|]; split; [exact Hf|done]).
      apply (in_live _ _ _ _ _ P c _ Hc) in Hl. apply elem_of_app in Hl as [Hl|Hl]; [by eexists|]. exfalso. apply elem_of_app in Hl as [Hl|Hl]; apply list_elem_of_In in Hl.
      + apply in_map_iff in Hl as (x & [= E _] & _). by rewrite E in Hcc.
      + apply in_concat in Hl as (l & Hl2 & Hl). apply in_map_iff in Hl2 as (c2 & <- & Hc2%list_elem_of_In). unfold descriptors in Hl.
        destruct (OFF_SLAB (caches s c2)) eqn:Ef; [|destruct Hl]. apply in_map_iff in Hl as (x & [= E _] & _). by apply (Hu c2 Hc2 Ef). }
  assert (Hin : forall p, slab_of s c p <-> p ∈ slabs_full (caches s c) \/ p ∈ slabs_partial (caches s c) \/ p ∈ slabs_free (caches s c)) by (intros p; unfold slab_of, slabs_of; by rewrite !elem_of_app).
  assert (Cases : forall l : list Z, l = [] \/ exists p, p ∈ l) by (intros [|p l]; [by left|right; exists p; apply list_elem_of_here]).
  destruct (Cases (slabs_full (caches s c))) as [E1|[p Hp]]; [destruct (Cases (slabs_partial (caches s c))) as [E2|[p Hp]]; [by left|]|]; right; apply (Hb p).
  - apply Hin. tauto.
  - by apply (Cl c p Hc).
  - apply Hin. tauto.
  - rewrite (proj1 (Cl c p Hc) Hp). pose proof (cf_num _ _ _ (in_conf _ _ _ _ _ _ P Hc)). lia.
Qed.

(** What stays the same for the other caches. *)
Record same_caches (V : list Z) (s s' : kmem A) : Prop := SameCaches {
  sc_static : forall c, c ∈ V -> static (caches s' c) = static (caches s c);
  sc_general : general s' = general s;
  sc_limit : offslab_limit s' = offslab_limit s;
  sc_break : slab_break_gfp_order s' = slab_break_gfp_order s
}.
Lemma kept_same V s s' : kept s s' -> same_caches V s s'.
Proof. intros [K1 K2 K3 K4 K5 _]. by split. Qed.
Lemma same_trans V s1 s2 s3 : same_caches V s1 s2 -> same_caches V s2 s3 -> same_caches V s1 s3.
Proof. intros [A1 A2 A3 A4] [B1 B2 B3 B4]. split; [|congruence..]. intros c Hc. by rewrite B1, A1. Qed.

Lemma destroy_cache_ok V G B L s c : inv V G B L s -> ring V s -> c ∈ V -> c <> cache_cache -> unused_general V s c -> c ∉ G ->
  exists s' r, kmem_cache_destroy false c s = Some (s', r) /\ same_caches V s s' /\
    ((r = 0 /\ (forall o, (c, o) ∉ L) /\ inv (others c V) G B L s' /\ ring (others c V) s') \/
     (r = 1 /\ (exists o, (c, o) ∈ L) /\ exists V', V' ≡ₚ V /\ inv V' G B L s' /\ ring V' s')).
Proof.
  intros I [Ev Ro] Hc Hcc Hu HG. unfold kmem_cache_destroy. pose proof (in_shape _ _ _ _ _ (proj1 I)) as Sh.
  assert (Eg : growing (caches s c) = 0) by (rewrite (in_grow _ _ _ _ _ (proj1 I) c Hc); by rewrite filter_none).
  rewrite Eg, (proj2 (Z.eqb_neq c 0)) by (intros ->; by apply (sh_null _ _ _ Sh)). cbn [orb negb Z.eqb]. set (s1 := (if _ =? _ then _ else s) <| cache_chain ::= _ |>).
  assert (Ec1 : caches s1 = caches s) by (unfold s1; by destruct (_ =? _)).
  assert (I1 : inv V G B L s1) by (apply (caches_frame V G B L s); [done|unfold s1; by destruct (_ =? _)..]).
  assert (Hch : c ∈ cache_chain s) by (rewrite Ev in Hc; apply elem_of_cons in Hc as [?|?]; [congruence|done]).
  assert (R1 : ring (others c V) s1).
  { split; [rewrite Ev; unfold others; rewrite filter_cons_True by congruence; unfold s1; by destruct (_ =? _)|]. unfold on_ring. assert (Ech : cache_chain s1 = others c (cache_chain s)) by (unfold s1; by destruct (_ =? _)).
    rewrite Ech. assert (Hr : clock_searchp s1 ∈ cache_cache :: cache_chain s /\ clock_searchp s1 <> c).
    { unfold s1. destruct (Z.eqb_spec (clock_searchp s) c) as [E|E]; simpl; [|done]. unfold next_cache. split; [apply next_after_in, elem_of_cons; by right|].
      apply next_after_other; [rewrite <- Ev; apply (sh_nodup _ _ _ Sh)|done]. }
    destruct Hr as [[->|Hr]%elem_of_cons Hne]; [apply list_elem_of_here|]. apply elem_of_cons. right. by apply in_unlink. }
  unfold __kmem_cache_shrink, __kmem_cache_shrink_locked. destruct (shrink_loop_ok V G B L c (S (length (slabs_free (caches s1 c)))) s1 I1 Hc ltac:(lia)) as (s2 & n & E & I2 & K2 & X).
  rewrite E. cbn [mbind option_bind]. rewrite Ec1 in X. destruct (X Eg) as (X1 & _ & _).
  assert (Same : same_caches V s s1) by (split; [by rewrite Ec1|unfold s1; by destruct (_ =? _)..]). pose proof (same_trans V s s1 s2 Same (kept_same V s1 s2 K2)) as Same2.
  assert (Hu2 : unused_general V s2 c).
  { intros c' Hc'. destruct (static_eqs _ _ (sc_static _ _ _ Same2 c' Hc')) as (_ & _ & _ & -> & _ & _ & _ & -> & _). by apply Hu. }
  destruct (busy_held V G B L s2 c I2 Hc Hcc Hu2) as [[B1 B2]|[o Ho]].
  - rewrite B1, B2. cbn [is_nil negb orb]. assert (Es : slabs_of (caches s2 c) = []) by (unfold slabs_of; by rewrite B1, B2, X1).
    pose proof (drop_ok V G B L s2 c I2 Hc Hcc Es Hu2) as I3. destruct (free_one_ok _ _ _ _ _ _ _ I3) as (s3 & p & E3 & I4 & _). unfold kmem_cache_free. rewrite E3. simpl.
    pose proof (free_one_kept _ _ _ _ E3) as K3. exists s3, 0. split; [done|]. split; [apply (same_trans V s s2 s3 Same2), kept_same, K3|]. left. split; [done|]. split.
    + intros o Ho. destruct (proj2 (in_live _ _ _ _ _ (proj1 I2) c o Hc)) as (q & _ & Hq & _); [apply elem_of_app; by left|]. unfold slab_of in Hq. rewrite Es in Hq. by apply not_elem_of_nil in Hq.
    + split; [done|]. by apply (ring_kept _ s2), K3; apply (ring_kept _ s1).
  - assert (Eb : negb (is_nil (slabs_full (caches s2 c))) || negb (is_nil (slabs_partial (caches s2 c))) = true).
    { destruct (proj2 (in_live _ _ _ _ _ (proj1 I2) c o Hc)) as (p & i & Hp & Hi & Hf & _); [apply elem_of_app; by left|]. unfold slab_of, slabs_of in Hp. rewrite X1, app_nil_r in Hp.
      destruct (slabs_full (caches s2 c)); [|done]. destruct (slabs_partial (caches s2 c)); [by apply not_elem_of_nil in Hp|done]. }
    rewrite Eb. eexists _, 1. split; [done|]. split; [by destruct Same2; split|]. right. split; [done|]. split; [by exists o|].
    pose proof (ring_kept _ _ _ R1 K2) as [Er2 Ro2]. exists (cache_cache :: c :: cache_chain s2).
    assert (PV : V ≡ₚ cache_cache :: c :: cache_chain s2) by (rewrite <- (filter_out_perm c V (sh_nodup _ _ _ Sh) Hc); fold (others c V); rewrite Er2; apply Permutation_swap).
    split; [done|]. split; [apply (caches_frame _ _ _ _ s2); [by apply (inv_caches V)|done..]|]. split; [done|]. unfold on_ring in *. simpl. apply elem_of_cons in Ro2 as [->|?]; [apply list_elem_of_here|]. apply elem_of_cons. right. apply elem_of_cons. by right.
Qed.
End create.
