(* ===== verification/CacheBoot.v ===== *)
(** * Caches: the general caches at boot, and the state after it *)
From stdpp Require Import base list functions strings pretty.
From S2P Require Import Prelude Pages Cache CacheInv CacheGrow CacheCalls CacheCreate.

Section boot.
Context {A : Type} `{PagesLaws A} (reclaim : kmem A -> kmem A).
Context (Hre : forall V G B L s, inv V G B L s -> ring V s -> inv V G B L (reclaim s) /\ kept s (reclaim s)).

(** ** Creation *)

(** The arguments that kmem_cache_create accepts. *)
Record create_args (name : string) (size offset flags : Z) (ct dt : bool) : Prop := CreateArgs {
  ca_name : Z.of_nat (String.length name) < 19;
  ca_size : 4 <= size <= 131072;
  ca_offset : 0 <= offset <= size;
  ca_ctor : dt = true -> ct = true;
  ca_flags : has flags (Z.lnot CREATE_MASK) = false
}.

Definition no_dma (s : kmem A) (c : Z) : Prop := has (gfpflags (caches s c)) __GFP_DMA = false.

Lemma small_general_same V (s s' : kmem A) : same_caches V s s' -> small_general V s -> small_general V s'.
Proof.
  intros Sm Sg n Hn. destruct (Sg n Hn) as (S1 & S2 & S3 & S4). cbv zeta. rewrite (sc_general _ _ _ Sm). split; [done|].
  destruct (static_eqs _ _ (sc_static _ _ _ Sm _ S1)) as (-> & _ & _ & -> & -> & _). done.
Qed.

Lemma create_ok V L s name size offset flags ct dt : inv V [] [] L s -> ring V s -> no_dma s cache_cache -> create_args name size offset flags ct dt ->
  1 <= slab_break_gfp_order s <= 2 -> (508 < size -> 32 <= offslab_limit s /\ small_general V s) ->
  (forall x, x ∈ cache_chain s -> cname (caches s x) <> name) ->
  exists s' c, kmem_cache_create reclaim false name size offset flags ct dt s = Some (s', c) /\ same_caches V s s' /\
    ((c = 0 /\ refused reclaim cache_cache SLAB_KERNEL s /\ inv V [] [] L s' /\ ring V s') \/
     (0 < c /\ c ∉ V /\ inv (cache_cache :: c :: cache_chain s) [] [] L s' /\ ring (cache_cache :: c :: cache_chain s) s' /\
      cname (caches s' c) = name /\ size <= objsize (caches s' c) /\ (size <= 508 -> OFF_SLAB (caches s' c) = false) /\
      has (gfpflags (caches s' c)) __GFP_DMA = has flags SLAB_CACHE_DMA /\
      (OFF_SLAB (caches s' c) = true -> exists n, 0 <= n <= 32 /\ slabp_cache (caches s' c) = kmem_find_general_cachep (slab_size n) 0 (general s)))).
Proof.
  intros I R Hd [A1 A2 A3 A4 A5] Hb Hg Hn. unfold kmem_cache_create. unfold CACHE_NAMELEN, BYTES_PER_WORD, MAX_OBJ_ORDER, PAGE_SIZE. change (2 ^ 5 * 4096) with 131072.
  rewrite (proj2 (Z.leb_gt (20 - 1) _)), (proj2 (Z.ltb_ge size 4)), (proj2 (Z.ltb_ge 131072 size)), (proj2 (Z.ltb_ge size offset)) by lia. rewrite A5.
  assert (Ed : dt && negb ct = false) by (destruct dt; [by rewrite A4|done]). rewrite Ed. cbn [orb].
  assert (Hcc : cache_cache ∈ V) by apply (sh_cc _ _ _ (in_shape _ _ _ _ _ (proj1 I))).
  destruct (cache_alloc_ok reclaim false Hre V [] [] L s cache_cache SLAB_KERNEL I R Hcc) as (s1 & c & E1 & K1 & D1); [split; [reflexivity|done]|unfold dma_fits; rewrite Hd; reflexivity|].
  rewrite E1. cbn [mbind option_bind]. pose proof (kept_same V s s1 K1) as Sm1. pose proof (ring_kept V s s1 R K1) as R1. destruct D1 as [(-> & Rf & I1)|(Hc & _ & I1)].
  - exists s1, 0. split; [done|]. split; [done|]. by left.
  - rewrite (proj2 (Z.eqb_neq c 0)) by lia. destruct (describe_ok V name size offset flags ct dt s1) as (k & E2 & Kc & Es & Eg & En & Esz & Eoff & Edma & Ecn & Esp); [done|lia|done|by rewrite (kp_break _ _ K1)| |].
    { rewrite (kp_limit _ _ K1). intros Hs. destruct (Hg Hs) as [? Sg]. split; [done|]. by apply (small_general_same V s). }
    rewrite E2. cbn [mbind option_bind]. pose proof (cf_num _ _ _ Kc). rewrite (proj2 (Z.eqb_neq (num k) 0)) by lia.
    assert (Ename : existsb (fun x => bool_decide (cname (caches s1 x) = name)) (cache_chain s1) = false).
    { apply not_true_iff_false. intros (x & Hx%list_elem_of_In & Ex%bool_decide_eq_true)%existsb_exists. rewrite (kp_chain _ _ K1) in Hx. apply (Hn x Hx).
      rewrite <- Ex. pose proof (kp_static _ _ K1 x) as St. unfold static in St. congruence. }
    rewrite Ename. eexists _, c. split; [done|]. destruct (add_ok V [] [] L s1 c k I1 ltac:(apply not_elem_of_nil) Kc Es Eg En) as [Nc I2].
    assert (Eo : forall c', c' ∈ V -> (<[c := k]> (caches s1)) c' = caches s1 c') by (intros c' Hc'; rewrite fn_lookup_insert_ne; [done|congruence]).
    destruct R as [Ev _]. destruct R1 as [_ Ro1]. split.
    + apply (same_trans V s s1 _ Sm1). split; try done. intros c' Hc'. simpl. by rewrite (Eo c' Hc').
    + right. simpl. rewrite fn_lookup_insert. split; [done|]. split; [done|]. split.
      * apply (inv_caches (c :: V)); [rewrite Ev; apply Permutation_swap|]. eapply caches_frame; [exact I2|done..].
      * split; [|split_and!; try done; by rewrite <- (kp_general _ _ K1)].
        -- split; [simpl; by rewrite (kp_chain _ _ K1)|]. unfold on_ring in *. simpl. apply elem_of_cons in Ro1 as [->|?]; [apply list_elem_of_here|]. apply elem_of_cons. right. apply elem_of_cons. by right.
Qed.

(** ** The loop over the sizes *)

(** Everything but the general caches. *)
Record base (L : list (Z * Z)) (s : kmem A) : Prop := Base {
  ba_inv : inv (cache_cache :: cache_chain s) [] [] L s;
  ba_ring : on_ring s;
  ba_cc : no_dma s cache_cache;
  ba_break : 1 <= slab_break_gfp_order s <= 2
}.

(** A size with its two caches. *)
Record entry_ok (s : kmem A) (x : Z * Z * Z) : Prop := EntryOk {
  en_cache : snd (fst x) ∈ cache_chain s /\ no_dma s (snd (fst x)) /\ fst (fst x) <= objsize (caches s (snd (fst x)));
  en_dma : snd x ∈ cache_chain s /\ has (gfpflags (caches s (snd x))) __GFP_DMA = true /\ fst (fst x) <= objsize (caches s (snd x));
  en_small : fst (fst x) <= 508 -> OFF_SLAB (caches s (snd (fst x))) = false
}.

Lemma small_of_entries (s : kmem A) g rest : general s = g ++ rest -> (exists g', map (fun x => fst (fst x)) g = [32; 64; 128; 256] ++ g') ->
  (forall x, x ∈ g -> fst (fst x) <= 508 -> snd (fst x) ∈ cache_chain s /\ no_dma s (snd (fst x)) /\ fst (fst x) <= objsize (caches s (snd (fst x))) /\ OFF_SLAB (caches s (snd (fst x))) = false) ->
  small_general (cache_cache :: cache_chain s) s /\ (forall n, 0 <= n <= 32 -> exists sz d, (sz, kmem_find_general_cachep (slab_size n) 0 (general s), d) ∈ g).
Proof.
  intros Eg [g' Em] He. assert (X : forall n, 0 <= n <= 32 -> exists x, x ∈ g /\ slab_size n <= fst (fst x) <= 508 /\ kmem_find_general_cachep (slab_size n) 0 (general s) = snd (fst x)).
  { intros n Hn. pose proof (slab_size_bound n ltac:(lia)) as Hs. generalize dependent (slab_size n). intros z Hs. rewrite Eg. destruct g as [|[[s1 c1] d1] [|[[s2 c2] d2] [|[[s3 c3] d3] [|[[s4 c4] d4] g]]]]; try discriminate Em. simpl in Em. injection Em as -> -> -> -> _.
    unfold kmem_find_general_cachep. simpl. rewrite !filter_cons. simpl.
    destruct (decide (z <= 32)); [exists (32, c1, d1); rewrite !elem_of_cons; simpl; split; [auto|split; [lia|done]]|].
    destruct (decide (z <= 64)); [exists (64, c2, d2); rewrite !elem_of_cons; simpl; split; [auto|split; [lia|done]]|].
    destruct (decide (z <= 128)); [exists (128, c3, d3); rewrite !elem_of_cons; simpl; split; [auto|split; [lia|done]]|].
    destruct (decide (z <= 256)); [exists (256, c4, d4); rewrite !elem_of_cons; simpl; split; [auto 6|split; [lia|done]]|lia]. }
  split.
  - intros n Hn. destruct (X n Hn) as (x & Hx & Hs & E). cbv zeta. rewrite E. destruct (He x Hx ltac:(lia)) as (E1 & E2 & E3 & E4). split; [apply elem_of_cons; by right|]. split; [done|]. split; [done|lia].
  - intros n Hn. destruct (X n Hn) as ([[sz c] d] & Hx & _ & E). exists sz, d. by rewrite E.
Qed.

Lemma create_base L s name size offset flags ct dt : base L s -> create_args name size offset flags ct dt ->
  (508 < size -> 32 <= offslab_limit s /\ small_general (cache_cache :: cache_chain s) s) -> name ∉ map (fun c => cname (caches s c)) (cache_chain s) ->
  exists s' c, kmem_cache_create reclaim false name size offset flags ct dt s = Some (s', c) /\ same_caches (cache_cache :: cache_chain s) s s' /\ base L s' /\
    ((c = 0 /\ refused reclaim cache_cache SLAB_KERNEL s /\ cache_chain s' = cache_chain s) \/
     (0 < c /\ c ∉ cache_cache :: cache_chain s /\ cache_chain s' = c :: cache_chain s /\ cname (caches s' c) = name /\ size <= objsize (caches s' c) /\
      (size <= 508 -> OFF_SLAB (caches s' c) = false) /\ has (gfpflags (caches s' c)) __GFP_DMA = has flags SLAB_CACHE_DMA /\
      (OFF_SLAB (caches s' c) = true -> exists n, 0 <= n <= 32 /\ slabp_cache (caches s' c) = kmem_find_general_cachep (slab_size n) 0 (general s)))).
Proof.
  intros [I R Hd Hb] Ca Hg Hn. destruct (create_ok _ L s name size offset flags ct dt I (conj eq_refl R) Hd Ca Hb Hg) as (s' & c & E & Sm & D).
  { intros x Hx Ex. apply Hn, list_elem_of_In, in_map_iff. exists x. split; [done|by apply list_elem_of_In]. }
  assert (Hcc : no_dma s' cache_cache) by (unfold no_dma; destruct (static_eqs _ _ (sc_static _ _ _ Sm cache_cache (list_elem_of_here _ _))) as (_ & _ & _ & _ & -> & _); done).
  assert (Hb' : 1 <= slab_break_gfp_order s' <= 2) by (by rewrite (sc_break _ _ _ Sm)). exists s', c. split; [done|]. split; [done|].
  destruct D as [(-> & Rf & I' & [Ev Ro])|(Hc & Nc & I' & [Ev Ro] & D)]; injection Ev as Ev.
  - split; [split; [by rewrite <- Ev|done..]|]. by left.
  - split; [split; [by rewrite <- Ev|done..]|]. right. split; [done|]. split; [done|]. split; [done|]. exact D.
Qed.

Lemma entry_same s s' x : same_caches (cache_cache :: cache_chain s) s s' -> (forall c, c ∈ cache_chain s -> c ∈ cache_chain s') -> entry_ok s x -> entry_ok s' x.
Proof.
  intros Sm Hc [(E1 & E2 & E3) (E4 & E5 & E6) E7].
  destruct (static_eqs _ _ (sc_static _ _ _ Sm _ (list_elem_of_further _ _ _ E1))) as (Fo & _ & _ & Ff & Fg & _).
  destruct (static_eqs _ _ (sc_static _ _ _ Sm _ (list_elem_of_further _ _ _ E4))) as (Fo' & _ & _ & Ff' & Fg' & _).
  split; unfold no_dma in *; rewrite ?Fo, ?Ff, ?Fg, ?Fo', ?Ff', ?Fg'; auto.
Qed.

Definition plain_name (sz : Z) : string := "size-" +:+ pretty sz.
Definition dma_name (sz : Z) : string := "size-" +:+ pretty sz +:+ "(DMA)".
Definition names (l : list Z) : list string := foldl (fun acc sz => dma_name sz :: plain_name sz :: acc) [] l.

Lemma sizes_ok i sz : SIZES !! i = Some sz -> plain_name sz ∉ names (take i SIZES) /\ dma_name sz ∉ plain_name sz :: names (take i SIZES) /\
  create_args (plain_name sz) sz 0 SLAB_HWCACHE_ALIGN false false /\ create_args (dma_name sz) sz 0 (Z.lor SLAB_CACHE_DMA SLAB_HWCACHE_ALIGN) false false /\
  sz ∉ take i SIZES /\ sz ∉ drop (S i) SIZES /\ (508 < sz -> (4 <= i)%nat) /\ ((2 <= i)%nat -> 128 <= sz) /\ (sz = 128 -> i = 2%nat).
Proof.
  intros E. do 13 (destruct i as [|i]; [injection E as <-; split_and!;
    [apply (bool_decide_unpack _); vm_compute; exact I|apply (bool_decide_unpack _); vm_compute; exact I|split; first [done|lia|reflexivity]|split; first [done|lia|reflexivity]
    |apply (bool_decide_unpack _); vm_compute; exact I|apply (bool_decide_unpack _); vm_compute; exact I|lia|lia|lia]|]). done.
Qed.

Lemma map_other (h : Z * Z * Z -> Z * Z * Z) sz g : sz ∉ map (fun x => fst (fst x)) g -> map (fun x => if fst (fst x) =? sz then h x else x) g = g.
Proof.
  induction g as [|x g IH]; [done|]. simpl. intros [Hx Hg]%not_elem_of_cons. rewrite (proj2 (Z.eqb_neq _ _)) by congruence. by rewrite IH.
Qed.

(** The general caches of [g] exist, and describe the slabs outside of pages. *)
Record making (g : list (Z * Z * Z)) (s : kmem A) : Prop := Making {
  mk_base : base [] s;
  mk_general : exists rest, general s = g ++ rest;
  mk_entries : forall x, x ∈ g -> entry_ok s x;
  mk_slabp : forall c, c ∈ cache_cache :: cache_chain s -> OFF_SLAB (caches s c) = true -> exists sz d, (sz, slabp_cache (caches s c), d) ∈ g
}.
Definition cache_names (s : kmem A) : list string := map (fun c => cname (caches s c)) (cache_chain s).

(** A change of the rest of the general caches and of the limit. *)
Lemma making_frame g s s' : making g s -> s' <| general := general s |> <| offslab_limit := offslab_limit s |> = s -> (exists rest, general s' = g ++ rest) -> making g s'.
Proof.
  intros [[I R Hd Hb] _ He Hp] E Hg. destruct s as [a1 a2 a3 a4 a5 a6 a7 a8 a9 a10 a11 a12], s' as [b1 b2 b3 b4 b5 b6 b7 b8 b9 b10 b11 b12]. simpl in E. injection E as -> -> -> -> -> -> -> -> -> ->.
  split; [|done| |done].
  - split; [|done..]. by eapply caches_frame; [exact I|done..].
  - intros x Hx. by destruct (He x Hx).
Qed.

Lemma make_cache g s name sz flags : making g s -> create_args name sz 0 flags false false -> name ∉ cache_names s ->
  (508 < sz -> 32 <= offslab_limit s /\ exists g', map (fun x => fst (fst x)) g = [32; 64; 128; 256] ++ g') ->
  exists s' c, kmem_cache_create reclaim false name sz 0 flags false false s = Some (s', c) /\
    ((c = 0 /\ refused reclaim cache_cache SLAB_KERNEL s) \/
     (0 < c /\ making g s' /\ cache_chain s' = c :: cache_chain s /\ cache_names s' = name :: cache_names s /\ same_caches (cache_cache :: cache_chain s) s s' /\
      sz <= objsize (caches s' c) /\ (sz <= 508 -> OFF_SLAB (caches s' c) = false) /\ has (gfpflags (caches s' c)) __GFP_DMA = has flags SLAB_CACHE_DMA)).
Proof.
  intros [Ba [rest Eg] He Hp] Ca Hn Hs.
  assert (Sg : 508 < sz -> small_general (cache_cache :: cache_chain s) s /\ (forall n, 0 <= n <= 32 -> exists sz d, (sz, kmem_find_general_cachep (slab_size n) 0 (general s), d) ∈ g)).
  { intros H5. apply (small_of_entries s g rest Eg); [by apply Hs|]. intros x Hx Hx5. destruct (He x Hx) as [(? & ? & ?) _ ?]. auto. }
  destruct (create_base [] s name sz 0 flags false false Ba Ca) as (s' & c & E & Sm & Ba' & D); [intros H5; split; [by apply Hs|by apply Sg]|done|].
  exists s', c. split; [done|]. destruct D as [(-> & Rf & _)|(Hc & Nc & Ec & En & Eo & Ef & Ed & Es)]; [by left|]. right. split; [done|].
  assert (Hc' : forall y, y ∈ cache_chain s -> y ∈ cache_chain s') by (intros y Hy; rewrite Ec; apply elem_of_cons; by right).
  split; [split; [done|exists rest; by rewrite (sc_general _ _ _ Sm)|intros x Hx; apply (entry_same s s'); auto|]|].
  - rewrite Ec. intros x Hx Ho. destruct (decide (x = c)) as [->|Hne].
    + destruct (Es Ho) as (n & Hn32 & ->). apply Sg; [|done]. destruct (Z.le_gt_cases sz 508) as [H5|H5]; [rewrite (Ef H5) in Ho; done|lia].
    + assert (Hx' : x ∈ cache_cache :: cache_chain s) by (rewrite !elem_of_cons in *; tauto). destruct (static_eqs _ _ (sc_static _ _ _ Sm x Hx')) as (_ & _ & _ & E1 & _ & _ & _ & -> & _).
      rewrite E1 in Ho. by apply Hp.
  - split; [done|]. split; [|done]. unfold cache_names. rewrite Ec. simpl. rewrite En. f_equal. apply map_ext_in. intros x Hx%list_elem_of_In.
    pose proof (sc_static _ _ _ Sm x (list_elem_of_further _ _ _ Hx)) as St. unfold static in St. congruence.
Qed.

(** The loop has made the caches of [i] sizes. *)
Record booting (i : nat) (s : kmem A) : Prop := Booting {
  bo_making : exists g, making g s /\ general s = g ++ map (fun sz => (sz, 0, 0)) (drop i SIZES) /\ map (fun x => fst (fst x)) g = take i SIZES;
  bo_names : cache_names s = names (take i SIZES);
  bo_limit : (3 <= i)%nat -> 52 <= offslab_limit s
}.

Lemma keys_small i (g : list (Z * Z * Z)) : map (fun x => fst (fst x)) g = take i SIZES -> (4 <= i)%nat -> exists g', map (fun x => fst (fst x)) g = [32; 64; 128; 256] ++ g'.
Proof.
  intros Ek Hi. rewrite Ek. exists (drop 4 (take i SIZES)). rewrite <- (take_drop 4 (take i SIZES)) at 1. f_equal. by rewrite take_take, Nat.min_l by lia.
Qed.

(** The two caches of one size. *)
Lemma size_step i sz s : booting i s -> SIZES !! i = Some sz ->
  (exists s', booting (S i) s' /\ forall rest, init_sizes reclaim false (sz :: rest) s = init_sizes reclaim false rest s') \/
  ((exists s1, refused reclaim cache_cache SLAB_KERNEL s1) /\ forall rest, init_sizes reclaim false (sz :: rest) s = None).
Proof.
  intros [(g & Mk & Eg & Ek) Bn Bl] Ei. destruct (sizes_ok i sz Ei) as (N1 & N2 & A1 & A2 & K1 & K2 & X1 & X2 & X3).
  rewrite (drop_S _ _ _ Ei) in Eg. cbn [map] in Eg. set (rest' := map (fun sz => (sz, 0, 0)) (drop (S i) SIZES)) in *.
  assert (Krest : sz ∉ map (fun x => fst (fst x)) rest') by (unfold rest'; rewrite map_map; simpl; by rewrite map_id).
  cbn [init_sizes]. fold (plain_name sz) (dma_name sz).
  destruct (make_cache g s (plain_name sz) sz SLAB_HWCACHE_ALIGN Mk A1 ltac:(by rewrite Bn)) as (s1 & c & E1 & D1).
  { intros H5. specialize (X1 H5). split; [specialize (Bl ltac:(lia)); lia|by eapply keys_small]. }
  rewrite E1. cbn [mbind option_bind]. destruct D1 as [[-> Rf]|(Hc & Mk1 & Ec1 & En1 & Sm1 & Eo1 & Ef1 & Ed1)]; [right; split; [by eexists|done]|]. rewrite (proj2 (Z.eqb_neq c 0)) by lia.
  set (s2 := s1 <| general ::= _ |>). change (caches s2 c) with (caches s1 c). set (s3 := if negb (OFF_SLAB (caches s1 c)) then _ else s2).
  assert (Eg3 : general s3 = g ++ (sz, c, 0) :: rest').
  { assert (general s3 = general s2) as -> by (unfold s3; by destruct (negb _)). unfold s2. simpl. rewrite (sc_general _ _ _ Sm1), Eg, map_app. simpl.
    rewrite Z.eqb_refl. rewrite !(map_other (fun x => (sz, c, snd x))); [done|done|by rewrite Ek]. }
  assert (Mk3 : making g s3) by (apply (making_frame g s1); [done|unfold s3, s2; destruct s1; by destruct (negb _)|by eexists]).
  assert (Ec3 : caches s3 = caches s1 /\ cache_chain s3 = cache_chain s1) by (unfold s3; by destruct (negb _)). destruct Ec3 as [Ec3 Ech3].
  assert (Lim : (2 <= i)%nat -> 52 <= offslab_limit s3).
  { intros H2. specialize (X2 H2). assert (O3 : offslab_limit s3 = if negb (OFF_SLAB (caches s1 c)) then (sz - sizeof_slab) / 2 else offslab_limit s1) by (unfold s3; by destruct (negb _)).
    rewrite O3. unfold sizeof_slab. destruct (OFF_SLAB (caches s1 c)) eqn:Eo; simpl; [|apply Z.div_le_lower_bound; lia]. rewrite (sc_limit _ _ _ Sm1). apply Bl.
    destruct (Nat.eq_dec i 2%nat) as [->|?]; [|lia]. injection Ei as <-. discriminate Ef1. lia. }
  destruct (make_cache g s3 (dma_name sz) sz _ Mk3 A2) as (s4 & d & E4 & D4).
  { unfold cache_names. rewrite Ec3, Ech3. fold (cache_names s1). by rewrite En1, Bn. }
  { intros H5. specialize (X1 H5). split; [specialize (Lim ltac:(lia)); lia|by eapply keys_small]. }
  rewrite E4. cbn [mbind option_bind]. destruct D4 as [[-> Rf]|(Hd & Mk4 & Ec4 & En4 & Sm4 & Eo4 & Ef4 & Ed4)]; [right; split; [by eexists|done]|]. rewrite (proj2 (Z.eqb_neq d 0)) by lia.
  left. set (s5 := s4 <| general ::= _ |>). exists s5. split; [|done].
  assert (Eg5 : general s5 = (g ++ [(sz, c, d)]) ++ rest').
  { unfold s5. simpl. rewrite (sc_general _ _ _ Sm4), Eg3, map_app. simpl. rewrite Z.eqb_refl. rewrite !(map_other (fun x => (fst x, d))); [by rewrite <- app_assoc|done|by rewrite Ek]. }
  assert (Mk5 : making g s5) by (apply (making_frame g s4); [done|unfold s5; by destruct s4|eexists; by rewrite Eg5, <- app_assoc]).
  split.
  - exists (g ++ [(sz, c, d)]). split; [|split; [done|by rewrite map_app, Ek, (take_S_r _ _ _ Ei)]]. destruct Mk5 as [Ba5 _ He5 Hp5]. split; [done|by eexists| |].
    + intros x [Hx|Hx%list_elem_of_singleton]%elem_of_app; [by apply He5|]. subst x.
      assert (Ecd : c ∈ cache_chain s3) by (rewrite Ech3, Ec1; apply list_elem_of_here). destruct (static_eqs _ _ (sc_static _ _ _ Sm4 c (list_elem_of_further _ _ _ Ecd))) as (Fo & _ & _ & Ff & Fg & _).
      split; cbn [fst snd]; unfold no_dma; change (caches s5) with (caches s4); change (cache_chain s5) with (cache_chain s4); rewrite ?Ec4, ?Fo, ?Ff, ?Fg, ?Ec3.
      * split; [apply elem_of_cons; by right|by rewrite Ed1].
      * split; [apply list_elem_of_here|by rewrite Ed4].
      * done.
    + intros x Hx Ho. destruct (Hp5 x Hx Ho) as (z & e & Hz). exists z, e. apply elem_of_app. by left.
  - change (cache_names s5) with (cache_names s4). rewrite En4, (take_S_r _ _ _ Ei). unfold names. rewrite foldl_snoc. f_equal. unfold cache_names. rewrite Ec3, Ech3. fold (cache_names s1). by rewrite En1, Bn.
  - intros H3. change (offslab_limit s5) with (offslab_limit s4). rewrite (sc_limit _ _ _ Sm4). apply Lim. lia.
Qed.

(** ** Boot *)

(** The state of the caches in the kernel image. *)
Record pristine (s : kmem A) : Prop := Pristine {
  pr_cache : caches s cache_cache = static_cache;
  pr_general : general s = map (fun sz => (sz, 0, 0)) SIZES;
  pr_clock : clock_searchp s = cache_cache;
  pr_break : slab_break_gfp_order s = BREAK_GFP_ORDER_LO;
  pr_pages : holds [] (pgs s)
}.

Lemma init_ok s : pristine s -> exists s', kmem_cache_init s = Some s' /\ booting 0 s'.
Proof.
  intros [P1 P2 P3 P4 P5]. unfold kmem_cache_init. rewrite P1. change (kmem_cache_estimate 0 (objsize static_cache) 0) with (16, 36). cbn [Z.eqb]. set (s' := set_cache _ _ _).
  exists s'. split; [done|]. set (k := static_cache <| num := 36 |> <| colour := 0 |> <| colour_next := 0 |>).
  assert (Ek : caches s' cache_cache = k) by (unfold s'; simpl; rewrite fn_lookup_alter, P1; done).
  assert (In : forall c, c ∈ [cache_cache] -> c = cache_cache) by (intros c; by rewrite list_elem_of_singleton).
  assert (Hi : inv [cache_cache] [] [] [] s').
  { assert (Ns : forall c p, c ∈ [cache_cache] -> ~ slab_of s' c p) by (intros c p ->%In; unfold slab_of; rewrite Ek; apply not_elem_of_nil).
    assert (Ow : owned [cache_cache] s' = [] /\ blocks [cache_cache] s' = []).
    { assert (D : descriptors s' cache_cache = [] /\ cache_blocks s' cache_cache = []) by (unfold descriptors, cache_blocks; rewrite Ek; done).
      destruct D as [D1 D2]. unfold owned, blocks. rewrite filter_cons_False by tauto. cbn [map concat]. by rewrite D1, D2. }
    destruct Ow as [Ow Ob]. split; [split; [split| | | | | |]|].
    - apply NoDup_singleton.
    - split; [apply list_elem_of_here|]. by rewrite Ek.
    - rewrite list_elem_of_singleton. done.
    - intros c ->%In. rewrite Ek. split; vm_compute; done.
    - intros c ->%In. rewrite Ek. apply NoDup_nil_2.
    - intros c p Hc Hp. by destruct (Ns c p Hc).
    - intros c p i Hc Hp. by destruct (Ns c p Hc).
    - by rewrite Ob.
    - intros c ->%In. rewrite Ek. done.
    - intros c ->%In. by rewrite Ek.
    - intros c p Hc Hp. by destruct (Ns c p Hc).
    - intros c o Hc. rewrite Ow. split; [intros (p & _ & Hp & _); by destruct (Ns c p Hc)|intros ?%not_elem_of_nil; done].
    - rewrite Ow. apply NoDup_nil_2.
    - intros c o ?%not_elem_of_nil. done.
    - intros c p ->%In. unfold class_at. rewrite Ek. split_and!; intros ?%not_elem_of_nil; done. }
  split; [|done|lia]. exists []. split; [|done]. split; [|by eexists|intros x ?%not_elem_of_nil; done|].
  - split; [done|unfold on_ring; change (clock_searchp s') with (clock_searchp s); rewrite P3; apply list_elem_of_here|unfold no_dma; by rewrite Ek|].
    change (slab_break_gfp_order s') with (slab_break_gfp_order s). by rewrite P4.
  - intros c ->%In. by rewrite Ek.
Qed.

(** The state after boot. *)
Record ready (L : list (Z * Z)) (s : kmem A) : Prop := Ready {
  rd_base : base L s;
  rd_sizes : map (fun x => fst (fst x)) (general s) = SIZES;
  rd_entries : forall x, x ∈ general s -> entry_ok s x;
  rd_slabp : forall c, c ∈ cache_cache :: cache_chain s -> OFF_SLAB (caches s c) = true -> exists sz d, (sz, slabp_cache (caches s c), d) ∈ general s;
  rd_limit : 32 <= offslab_limit s
}.

Lemma sizes_init_ok num_physpages s : booting 0 s ->
  (exists s', kmem_cache_sizes_init reclaim false num_physpages s = Some s' /\ ready [] s') \/ (kmem_cache_sizes_init reclaim false num_physpages s = None /\ exists s1, refused reclaim cache_cache SLAB_KERNEL s1).
Proof.
  intros B0. unfold kmem_cache_sizes_init. set (s1 := if _ <? _ then _ else s).
  assert (B1 : booting 0 s1).
  { destruct (_ <? _); [|done]. unfold s1. clear s1. destruct B0 as [(g & [[I R Hd Hb] Hg He Hp] & Eg & Ek) Bn Bl]. split; [|done|done]. exists g. split; [|done]. split; [|done| |done].
    - split; [|done|done|done]. by eapply caches_frame; [exact I|done..].
    - intros x Hx. by destruct (He x Hx). }
  clearbody s1. assert (Loop : forall rest i s, drop i SIZES = rest -> booting i s ->
    (exists s', init_sizes reclaim false rest s = Some s' /\ booting (i + length rest) s') \/ (init_sizes reclaim false rest s = None /\ exists s1, refused reclaim cache_cache SLAB_KERNEL s1)).
  { clear - Hre. induction rest as [|sz rest IH]; intros i s Ei B; [left; exists s; split; [done|]; by rewrite Nat.add_0_r|].
    assert (Es : SIZES !! i = Some sz) by (rewrite <- (Nat.add_0_r i), <- lookup_drop, Ei; done). destruct (size_step i sz s B Es) as [(s' & B' & E)|[Rf E]]; [|right; by rewrite E].
    rewrite E. destruct (IH (S i) s') as [(s2 & E2 & B2)|?]; [rewrite (drop_S _ _ _ Es) in Ei; by injection Ei|done| |by right].
    left. exists s2. split; [done|]. cbn [length]. by rewrite Nat.add_succ_r. }
  destruct (Loop SIZES 0%nat s1 eq_refl B1) as [(s' & E & B)|?]; [|by right]. left. exists s'. split; [done|]. destruct B as [(g & [Ba _ He Hp] & Eg & Ek) _ Bl]. simpl in Eg. rewrite app_nil_r in Eg. subst g.
  split; [done|exact Ek|done|done|]. simpl in Bl. specialize (Bl ltac:(lia)). lia.
Qed.
End boot.
