(* ===== verification/CacheTheorems.v ===== *)
(** * What the slab caches promise

    From boot on, however calls on caches follow each other: objects handed out never overlap
    each other or the structures of the caches, no call ends in [BUG()], and kmalloc and kfree
    implement the heap of [Slab], against which the process policy is proved. *)
From stdpp Require Import base gmap list functions strings.
From S2P Require Import Prelude Slab Pages Cache CacheInv CacheGrow CacheCalls CacheCreate CacheBoot.

Section histories.
Context {A : Type} `{PagesLaws A} (reclaim : kmem A -> kmem A).
Context (Hre : forall V G B L s, inv V G B L s -> ring V s -> inv V G B L (reclaim s) /\ kept s (reclaim s)).

Definition all_caches (s : kmem A) : list Z := cache_cache :: cache_chain s.
(** Neither of the two general caches of a size. *)
Definition not_general (s : kmem A) (c : Z) : Prop := forall x, x ∈ general s -> c <> snd (fst x) /\ c <> snd x.
(** The objects in use, once [o] was returned for the cache [c]. *)
Definition add_obj (c o : Z) (L : list (Z * Z)) : list (Z * Z) := if o =? 0 then L else (c, o) :: L.

(** [heap_run L s]: the state [s] can come about, with the objects of [L] (cache, address)
    handed out and not yet freed.  [irq]: the call is made in an interrupt. *)
Inductive heap_run : list (Z * Z) -> kmem A -> Prop :=
  | hr_boot n s s1 s2 : pristine s -> kmem_cache_init s = Some s1 -> kmem_cache_sizes_init reclaim false n s1 = Some s2 -> heap_run [] s2
  | hr_alloc L s irq c flags s' o : heap_run L s -> c ∈ cache_chain s -> flags_ok irq flags -> dma_fits s c flags ->
      kmem_cache_alloc reclaim irq c flags s = Some (s', o) -> heap_run (add_obj c o L) s'
  | hr_kmalloc L s irq size flags s' o : heap_run L s -> flags_ok irq flags -> Cache.kmalloc reclaim irq size flags s = Some (s', o) ->
      heap_run (add_obj (kmem_find_general_cachep size flags (general s)) o L) s'
  | hr_free L1 L2 s c o s' : heap_run (L1 ++ (c, o) :: L2) s -> kmem_cache_free c o s = Some s' -> heap_run (L1 ++ L2) s'
  | hr_kfree L1 L2 s c o s' : heap_run (L1 ++ (c, o) :: L2) s -> Cache.kfree o s = Some s' -> heap_run (L1 ++ L2) s'
  | hr_create L s name size offset flags ct dt s' c : heap_run L s -> create_args name size offset flags ct dt -> name ∉ cache_names s ->
      kmem_cache_create reclaim false name size offset flags ct dt s = Some (s', c) -> heap_run L s'
  | hr_destroy L s c s' r : heap_run L s -> c ∈ cache_chain s -> not_general s c -> kmem_cache_destroy false c s = Some (s', r) -> heap_run L s'
  | hr_shrink L s c s' n : heap_run L s -> c ∈ all_caches s -> kmem_cache_shrink false c s = Some (s', n) -> heap_run L s'
  | hr_reap L s mask locked s' n : heap_run L s -> kmem_cache_reap mask locked s = Some (s', n) -> heap_run L s'.

(** ** Each call keeps the state ready *)

Lemma ready_inv L s : ready L s -> inv (all_caches s) [] [] L s /\ ring (all_caches s) s.
Proof. intros [[I R _ _] _ _ _ _]. by split. Qed.

Lemma ready_kept L L' s s' : ready L s -> kept s s' -> inv (all_caches s) [] [] L' s' -> ready L' s'.
Proof.
  intros [[I R Hd Hb] Es He Hp Hl] K I'. pose proof (kept_same (all_caches s) s s' K) as Sm.
  assert (Ec : all_caches s' = all_caches s) by (unfold all_caches; by rewrite (kp_chain _ _ K)).
  assert (St : forall c, OFF_SLAB (caches s' c) = OFF_SLAB (caches s c) /\ slabp_cache (caches s' c) = slabp_cache (caches s c) /\ gfpflags (caches s' c) = gfpflags (caches s c))
    by (intros c; by destruct (static_eqs _ _ (kp_static _ _ K c)) as (_ & _ & _ & ? & ? & _ & _ & ? & _)).
  split; [split| | | |].
  - fold (all_caches s'). by rewrite Ec.
  - by apply (kp_clock _ _ K).
  - unfold no_dma. by rewrite (proj2 (proj2 (St cache_cache))).
  - by rewrite (kp_break _ _ K).
  - by rewrite (kp_general _ _ K).
  - intros x. rewrite (kp_general _ _ K). intros Hx. apply (entry_same s); [done|by rewrite (kp_chain _ _ K)|by apply He].
  - intros c. rewrite (kp_chain _ _ K), (kp_general _ _ K). destruct (St c) as (-> & -> & _). apply Hp.
  - by rewrite (kp_limit _ _ K).
Qed.

Lemma ready_perm L L' s : L ≡ₚ L' -> ready L s -> ready L' s.
Proof. intros P R. apply (ready_kept L L' s s R (kept_refl s)). eapply inv_perm; [done|done|exact P|by apply ready_inv]. Qed.

Lemma ready_free L s c o : ready ((c, o) :: L) s -> exists s', kmem_cache_free c o s = Some s' /\ Cache.kfree o s = Some s' /\ ready L s'.
Proof.
  intros R. destruct (ready_inv _ _ R) as [I _]. destruct (free_one_ok _ _ _ _ _ _ _ I) as (s' & p & E & I' & _). exists s'. split; [done|]. split.
  - destruct (kfree_ok _ _ _ _ _ _ _ I) as (s2 & p2 & E2 & _). unfold Cache.kfree in *. rewrite (proj2 (Z.eqb_neq o 0)) in * by (pose proof (object_pos _ _ _ _ _ _ _ I); lia).
    destruct (live_slab _ _ _ _ _ _ _ (proj1 I)) as (q & i & Hc & Hq & Hi & _ & Eo).
    destruct (obj_page _ _ s c q i (in_shape _ _ _ _ _ (proj1 I)) Hc Hq Hi) as [Ep _]. by rewrite Eo, Ep, <- Eo.
  - by apply (ready_kept _ _ _ _ R (free_one_kept _ _ _ _ E)).
Qed.

(** The outcome of an allocation. *)
Definition alloc_outcome (L : list (Z * Z)) (c flags : Z) (s s' : kmem A) (o : Z) : Prop :=
  kept s s' /\ ready (add_obj c o L) s' /\ 0 <= o /\
  (o = 0 <-> refused reclaim c flags s).

Lemma ready_alloc L s irq c flags : ready L s -> c ∈ cache_chain s -> flags_ok irq flags -> dma_fits s c flags ->
  exists s' o, kmem_cache_alloc reclaim irq c flags s = Some (s', o) /\ alloc_outcome L c flags s s' o.
Proof.
  intros R Hc Hf Hd. destruct (ready_inv _ _ R) as [I Ri].
  destruct (cache_alloc_ok reclaim irq Hre _ _ _ L s c flags I Ri (list_elem_of_further _ _ _ Hc) Hf Hd) as (s' & o & E & K & D).
  exists s', o. split; [done|]. split; [done|]. unfold add_obj. destruct D as [(-> & Rf & I')|(Ho & Rf & I')].
  - cbn [Z.eqb]. split; [by apply (ready_kept L L s)|]. by split.
  - rewrite (proj2 (Z.eqb_neq o 0)) by lia. split; [by apply (ready_kept L _ s)|]. split; [lia|]. split; [lia|done].
Qed.

Lemma find_entry size flags (s : kmem A) : match filter (fun x => size <= fst (fst x)) (general s) with
  | [] => kmem_find_general_cachep size flags (general s) = 0 /\ forall x, x ∈ general s -> fst (fst x) < size
  | x :: _ => x ∈ general s /\ size <= fst (fst x) /\ kmem_find_general_cachep size flags (general s) = if has flags __GFP_DMA then snd x else snd (fst x)
  end.
Proof.
  unfold kmem_find_general_cachep. destruct (filter _ (general s)) as [|[[sz c] d] l] eqn:E.
  - split; [done|]. intros x Hx. apply Z.lt_nge. intros Hs. assert (X : x ∈ filter (fun x => size <= fst (fst x)) (general s)) by by apply list_elem_of_filter.
    rewrite E in X. by apply not_elem_of_nil in X.
  - assert (X : (sz, c, d) ∈ filter (fun x => size <= fst (fst x)) (general s)) by (rewrite E; apply list_elem_of_here).
    apply list_elem_of_filter in X as [X1 X2]. done.
Qed.

(** kmalloc allocates from the general cache it finds. *)
Lemma general_cases L s irq size flags : ready L s -> flags_ok irq flags ->
  let c := kmem_find_general_cachep size flags (general s) in
  (131072 < size /\ Cache.kmalloc reclaim irq size flags s = Some (s, 0)) \/
  (size <= 131072 /\ c ∈ cache_chain s /\ dma_fits s c flags /\ size <= objsize (caches s c) /\
   Cache.kmalloc reclaim irq size flags s = kmem_cache_alloc reclaim irq c flags s).
Proof.
  intros R Hf c. pose proof (find_entry size flags s) as F. unfold Cache.kmalloc. destruct (filter _ (general s)) as [|[[sz c1] d] l].
  - left. split; [|done]. destruct F as [_ F]. assert (X : 131072 ∈ map (fun x => fst (fst x)) (general s)) by (rewrite (rd_sizes _ _ R); apply list_elem_of_In; vm_compute; tauto).
    apply list_elem_of_In, in_map_iff in X as (x & <- & Hx). apply F. by apply list_elem_of_In.
  - right. destruct F as (F1 & F2 & F3). simpl in F2. unfold c. rewrite F3. cbn [fst snd]. destruct (rd_entries _ _ R _ F1) as [(E1 & E2 & E3) (E4 & E5 & E6) _]. cbn [fst snd] in *.
    assert (Hz : sz <= 131072).
    { assert (X : sz ∈ SIZES) by (rewrite <- (rd_sizes _ _ R); apply list_elem_of_In, in_map_iff; exists (sz, c1, d); split; [done|by apply list_elem_of_In]).
      unfold SIZES in X. rewrite !elem_of_cons in X. destruct X as [X|X]; [lia|]. repeat (destruct X as [X|X]; [lia|]). by apply not_elem_of_nil in X. }
    unfold dma_fits, no_dma, SLAB_DMA in *. destruct (has flags __GFP_DMA); (split; [lia|]; split; [done|]; split; [congruence|]; split; [lia|done]).
Qed.

Lemma ready_create L s name size offset flags ct dt : ready L s -> create_args name size offset flags ct dt -> name ∉ cache_names s ->
  exists s' c, kmem_cache_create reclaim false name size offset flags ct dt s = Some (s', c) /\ ready L s' /\ same_caches (all_caches s) s s' /\
    ((c = 0 /\ refused reclaim cache_cache SLAB_KERNEL s /\ cache_chain s' = cache_chain s) \/
     (0 < c /\ c ∉ all_caches s /\ cache_chain s' = c :: cache_chain s /\ cname (caches s' c) = name /\ size <= objsize (caches s' c))).
Proof.
  intros [Ba Es He Hp Hl] Ca Hn.
  assert (Sg : small_general (all_caches s) s /\ forall n, 0 <= n <= 32 -> exists sz d, (sz, kmem_find_general_cachep (slab_size n) 0 (general s), d) ∈ general s).
  { apply (small_of_entries s (general s) []); [by rewrite app_nil_r|exists (drop 4 SIZES); by rewrite Es|].
    intros x Hx Hx5. destruct (He x Hx) as [(? & ? & ?) _ ?]. auto. }
  destruct (create_base reclaim Hre L s name size offset flags ct dt Ba Ca) as (s' & c & E & Sm & Ba' & D); [by split; [|apply Sg]|done|].
  exists s', c. split; [done|].
  assert (Hch : forall y, y ∈ cache_chain s -> y ∈ cache_chain s').
  { destruct D as [(_ & _ & ->)|(_ & _ & -> & _)]; [done|]. intros y Hy. apply elem_of_cons. by right. }
  split; [|split; [done|destruct D as [D|(D1 & D2 & D3 & D4 & D5 & _)]; [by left|by right]]]. split; [done|by rewrite (sc_general _ _ _ Sm)| | |by rewrite (sc_limit _ _ _ Sm)].
  - intros x. rewrite (sc_general _ _ _ Sm). intros Hx. apply (entry_same s); auto.
  - intros x Hx Ho. rewrite (sc_general _ _ _ Sm). destruct (decide (x ∈ all_caches s)) as [Hx'|Hx'].
    + destruct (static_eqs _ _ (sc_static _ _ _ Sm x Hx')) as (_ & _ & _ & E1 & _ & _ & _ & E2 & _). rewrite E2. rewrite E1 in Ho. by apply Hp.
    + destruct D as [(_ & _ & D)|(_ & _ & D & _ & _ & _ & _ & D2)]; rewrite D in Hx; [done|]. assert (x = c) as ->.
      { unfold all_caches in Hx'. rewrite !elem_of_cons in *. tauto. }
      destruct (D2 Ho) as (n & Hn32 & ->). by apply Sg.
Qed.

Lemma ready_destroy L s c : ready L s -> c ∈ cache_chain s -> not_general s c ->
  exists s' r, kmem_cache_destroy false c s = Some (s', r) /\ ready L s' /\ same_caches (all_caches s) s s' /\
    ((r = 0 /\ (forall o, (c, o) ∉ L) /\ cache_chain s' = filter (fun x => x <> c) (cache_chain s)) \/
     (r = 1 /\ (exists o, (c, o) ∈ L) /\ cache_chain s' ≡ₚ cache_chain s)).
Proof.
  intros R Hc Hg. destruct (ready_inv _ _ R) as [I Ri]. pose proof R as [[_ _ Hd Hb] Es He Hp Hl].
  assert (Hcc : c <> cache_cache) by (intros ->; pose proof (sh_nodup _ _ _ (in_shape _ _ _ _ _ (proj1 I))) as N; unfold all_caches in N; by apply list.NoDup_cons in N as [N _]).
  assert (Hu : unused_general (all_caches s) s c) by (intros c' Hc' Ho Eq; destruct (Hp c' Hc' Ho) as (sz & d & X); destruct (Hg _ X) as [G _]; by rewrite <- Eq in G).
  destruct (destroy_cache_ok _ [] [] L s c I Ri (list_elem_of_further _ _ _ Hc) Hcc Hu ltac:(apply not_elem_of_nil)) as (s' & r & E & Sm & D).
  exists s', r. split; [done|].
  assert (X : inv (all_caches s') [] [] L s' /\ on_ring s' /\ (forall x, x ∈ cache_chain s' -> x ∈ cache_chain s) /\ (forall x, x <> c -> x ∈ cache_chain s -> x ∈ cache_chain s') /\
    ((r = 0 /\ (forall o, (c, o) ∉ L) /\ cache_chain s' = filter (fun x => x <> c) (cache_chain s)) \/ (r = 1 /\ (exists o, (c, o) ∈ L) /\ cache_chain s' ≡ₚ cache_chain s))).
  { destruct D as [(-> & Hn & I' & [Ev Ro])|(-> & Ho & V' & PV & I' & [Ev Ro])].
    - assert (Ec : cache_chain s' = filter (fun x => x <> c) (cache_chain s)) by (unfold others, all_caches in Ev; rewrite filter_cons_True in Ev by congruence; by injection Ev).
      split; [unfold all_caches; by rewrite <- Ev|]. split; [done|]. split; [|split; [|by left]]; intros x; rewrite Ec, list_elem_of_filter; tauto.
    - rewrite Ev in PV. apply Permutation.Permutation_cons_inv in PV. split; [unfold all_caches; by rewrite <- Ev|]. split; [done|]. split; [|split; [|by right]]; intros x; by rewrite PV. }
  destruct X as (I' & Ro & H1 & H2 & X). split; [|done].
  assert (Hin : forall x, x ∈ all_caches s' -> x ∈ all_caches s) by (intros x; unfold all_caches; rewrite !elem_of_cons; intros [?|?]; auto).
  split; [split; [done|done| |by rewrite (sc_break _ _ _ Sm)]|by rewrite (sc_general _ _ _ Sm)| | |by rewrite (sc_limit _ _ _ Sm)].
  - unfold no_dma. by destruct (static_eqs _ _ (sc_static _ _ _ Sm cache_cache (list_elem_of_here _ _))) as (_ & _ & _ & _ & -> & _).
  - intros x. rewrite (sc_general _ _ _ Sm). intros Hx. destruct (Hg x Hx) as [G1 G2]. destruct (He x Hx) as [(E1 & E2 & E3) (E4 & E5 & E6) E7].
    destruct (static_eqs _ _ (sc_static _ _ _ Sm _ (list_elem_of_further _ _ _ E1))) as (Fo & _ & _ & Ff & Fg & _).
    destruct (static_eqs _ _ (sc_static _ _ _ Sm _ (list_elem_of_further _ _ _ E4))) as (Fo' & _ & _ & Ff' & Fg' & _).
    split; unfold no_dma in *; rewrite ?Fo, ?Ff, ?Fg, ?Fo', ?Ff', ?Fg'; auto.
  - intros x Hx Ho. destruct (static_eqs _ _ (sc_static _ _ _ Sm x (Hin x Hx))) as (_ & _ & _ & E1 & _ & _ & _ & E2 & _). rewrite E2, (sc_general _ _ _ Sm). rewrite E1 in Ho. auto.
Qed.

Lemma run_ready L s : heap_run L s -> ready L s.
Proof.
  induction 1 as [n s s1 s2 P E1 E2|L s irq c flags s' o _ R Hc Hf Hd E|L s irq size flags s' o _ R Hf E|L1 L2 s c o s' _ R E|L1 L2 s c o s' _ R E
                 |L s name size offset flags ct dt s' c _ R Ca Hn E|L s c s' r _ R Hc Hg E|L s c s' n _ R Hc E|L s mask locked s' n _ R E].
  - destruct (init_ok s P) as (x & X1 & B). rewrite E1 in X1. injection X1 as <-.
    destruct (sizes_init_ok reclaim Hre n s1 B) as [(y & Y1 & Y2)|[Y _]]; rewrite E2 in *; [by injection Y1 as <-|done].
  - destruct (ready_alloc L s irq c flags R Hc Hf Hd) as (x & y & X & _ & R' & _). rewrite E in X. by injection X as <- <-.
  - destruct (general_cases L s irq size flags R Hf) as [[_ X]|(_ & Hc & Hd & _ & X)]; rewrite E in X; [by injection X as -> ->|].
    destruct (ready_alloc L s irq _ flags R Hc Hf Hd) as (x & y & Y & _ & R' & _). rewrite <- X in Y. by injection Y as <- <-.
  - destruct (ready_free (L1 ++ L2) s c o) as (x & X & _ & R'); [by eapply ready_perm; [symmetry; apply Permutation_middle|]|]. rewrite E in X. by injection X as <-.
  - destruct (ready_free (L1 ++ L2) s c o) as (x & _ & X & R'); [by eapply ready_perm; [symmetry; apply Permutation_middle|]|]. rewrite E in X. by injection X as <-.
  - destruct (ready_create L s name size offset flags ct dt R Ca Hn) as (x & y & X & R' & _). rewrite E in X. by injection X as <- <-.
  - destruct (ready_destroy L s c R Hc Hg) as (x & y & X & R' & _). rewrite E in X. by injection X as <- <-.
  - destruct (ready_inv _ _ R) as [I _]. destruct (shrink_ok _ _ _ _ s c I Hc) as (x & y & X & I' & K & _). rewrite E in X. injection X as <- <-. by apply (ready_kept L L s).
  - destruct (ready_inv _ _ R) as [I Ri]. destruct (reap_ok _ _ _ _ s mask locked I Ri) as (x & y & X & I' & K). rewrite E in X. injection X as <- <-. by apply (ready_kept L L s).
Qed.

(** ** Addresses of live objects *)

Lemma live_range V B (s : kmem A) c o : shape V B s -> c ∈ V -> live s c o -> exists p, slab_of s c p /\
  page_address (frame (slabs s p)) + mgmt (caches s c) <= o /\ o + objsize (caches s c) <= page_address (frame (slabs s p)) + block_bytes (caches s c) /\
  (OFF_SLAB (caches s c) = false -> p + mgmt (caches s c) <= o).
Proof.
  intros Sh Hc (p & i & Hp & Hi & _ & ->). destruct (obj_range V B s c p i Sh Hc Hp Hi). exists p. split; [done|]. split; [done|]. split; [done|].
  intros Ho. pose proof (go_place _ _ _ (sh_geo _ _ _ Sh c p Hc Hp) Ho). pose proof (cf_size _ _ _ (sh_conf _ _ _ Sh c Hc)). unfold obj_at, BYTES_PER_WORD in *. nia.
Qed.

Lemma live_apart V B (s : kmem A) c o c' o' : shape V B s -> c ∈ V -> c' ∈ V -> live s c o -> live s c' o' -> (c, o) <> (c', o') ->
  o + objsize (caches s c) <= o' \/ o' + objsize (caches s c') <= o.
Proof.
  intros Sh Hc Hc' (p & i & Hp & Hi & _ & Eo) (p' & i' & Hp' & Hi' & _ & Eo') Hne.
  pose proof (obj_range V B s c p i Sh Hc Hp Hi) as R. pose proof (obj_range V B s c' p' i' Sh Hc' Hp' Hi') as R'. rewrite <- Eo in R. rewrite <- Eo' in R'.
  pose proof (conf_bytes V s _ (sh_conf _ _ _ Sh c Hc)). pose proof (conf_bytes V s _ (sh_conf _ _ _ Sh c' Hc')).
  pose proof (cf_size _ _ _ (sh_conf _ _ _ Sh c Hc)) as Hs. pose proof (cf_size _ _ _ (sh_conf _ _ _ Sh c' Hc')) as Hs'. unfold BYTES_PER_WORD in Hs, Hs'.
  destruct (decide (p = p')) as [<-|Hpp].
  - pose proof (slab_unique V B s c c' p Sh Hc Hc' Hp Hp') as <-. assert (i <> i') by (intros <-; apply Hne; by rewrite Eo, Eo'). unfold obj_at in *. nia.
  - destruct (Z.le_gt_cases (o + objsize (caches s c)) o') as [?|Ha]; [by left|]. destruct (Z.le_gt_cases (o' + objsize (caches s c')) o) as [?|Hb]; [by right|]. exfalso. apply Hpp.
    destruct (slab_page V B s c p (Z.max o o') Sh Hc Hp) as (_ & E & _); [lia|]. destruct (slab_page V B s c' p' (Z.max o o') Sh Hc' Hp') as (_ & E' & _); [lia|]. congruence.
Qed.

Lemma mgmt_apart V B (s : kmem A) c o c' p' : shape V B s -> c ∈ V -> c' ∈ V -> live s c o -> slab_of s c' p' -> OFF_SLAB (caches s c') = false ->
  p' + mgmt (caches s c') <= o \/ o + objsize (caches s c) <= p'.
Proof.
  intros Sh Hc Hc' (p & i & Hp & Hi & _ & Eo) Hp' Hof. pose proof (obj_range V B s c p i Sh Hc Hp Hi) as R. rewrite <- Eo in R.
  pose proof (conf_bytes V s _ (sh_conf _ _ _ Sh c Hc)) as (N1 & N2 & N3). pose proof (conf_bytes V s _ (sh_conf _ _ _ Sh c' Hc')) as (M1 & M2 & M3).
  destruct (sh_geo _ _ _ Sh c' p' Hc' Hp') as [G1 G2 G3 G4 _]. specialize (G4 Hof). pose proof (cf_size _ _ _ (sh_conf _ _ _ Sh c Hc)) as Hs. unfold BYTES_PER_WORD in Hs.
  destruct (decide (p = p')) as [<-|Hpp].
  - pose proof (slab_unique V B s c c' p Sh Hc Hc' Hp Hp') as <-. left. unfold obj_at in Eo. nia.
  - destruct (Z.le_gt_cases (p' + mgmt (caches s c')) o) as [?|Ha]; [by left|]. destruct (Z.le_gt_cases (o + objsize (caches s c)) p') as [?|Hb]; [by right|]. exfalso. apply Hpp.
    destruct (slab_page V B s c p (Z.max o p') Sh Hc Hp) as (_ & E & _); [lia|]. destruct (slab_page V B s c' p' (Z.max o p') Sh Hc' Hp') as (_ & E' & _); [lia|]. congruence.
Qed.

(** Every object handed out, and every description of a cache or a slab, is a live object. *)
Lemma held_live L s c o : ready L s -> (c, o) ∈ L ++ owned (all_caches s) s -> c ∈ all_caches s /\ live s c o.
Proof.
  intros R Ho. destruct (ready_inv _ _ R) as [[P _] _]. assert (Hc : c ∈ all_caches s); [|split; [done|by apply (in_live _ _ _ _ _ P c o Hc)]].
  apply elem_of_app in Ho as [Ho|Ho]; [by apply (in_held _ _ _ _ _ P c o)|]. apply elem_of_app in Ho as [Ho|Ho]; apply list_elem_of_In in Ho.
  - apply in_map_iff in Ho as (x & [= <- _] & _). apply list_elem_of_here.
  - apply in_concat in Ho as (l & Hl & Ho). apply in_map_iff in Hl as (c2 & <- & Hc2%list_elem_of_In). unfold descriptors in Ho. destruct (OFF_SLAB (caches s c2)) eqn:Ef; [|destruct Ho].
    apply in_map_iff in Ho as (x & [= <- _] & _). apply (cf_off _ _ _ (sh_conf _ _ _ (in_shape _ _ _ _ _ P) c2 Hc2) Ef).
Qed.

(** ** The theorems *)

(** C34. In every history of the slab caches from boot, whatever calls of kmem_cache_alloc,
    kmalloc, kmem_cache_free, kfree, kmem_cache_create, kmem_cache_destroy, kmem_cache_shrink
    and kmem_cache_reap follow each other: no object is handed out twice; an object handed out lies
    within pages that the cache holds and that are allocated; it has no byte in common with
    another object handed out, with the description of a cache or a slab that lies in a cache, or
    with the management structure at the start of a slab; and if its cache has a
    constructor, it is constructed. *)
Theorem objects_disjoint L s : heap_run L s ->
  NoDup (L ++ owned (all_caches s) s) /\ holds (blocks (all_caches s) s) (pgs s) /\
  (forall c o, (c, o) ∈ L -> exists f k, (f, k) ∈ blocks (all_caches s) s /\ page_address f <= o /\ o + objsize (caches s c) <= page_address f + PAGE_SIZE * 2 ^ k) /\
  (forall c o c' o', (c, o) ∈ L -> (c', o') ∈ L ++ owned (all_caches s) s -> (c, o) <> (c', o') ->
     o + objsize (caches s c) <= o' \/ o' + objsize (caches s c') <= o) /\
  (forall c o c' p, (c, o) ∈ L -> c' ∈ all_caches s -> slab_of s c' p -> OFF_SLAB (caches s c') = false ->
     p + slab_size (num (caches s c')) <= o \/ o + objsize (caches s c) <= p) /\
  (forall c o, (c, o) ∈ L -> ctor (caches s c) = true -> constructed s o = true).
Proof.
  intros Hr. pose proof (run_ready L s Hr) as R. destruct (ready_inv _ _ R) as [[P _] _]. pose proof (in_shape _ _ _ _ _ P) as Sh.
  assert (HL : forall c o, (c, o) ∈ L -> c ∈ all_caches s /\ live s c o) by (intros c o Ho; apply (held_live L s c o R), elem_of_app; by left).
  split; [apply (in_once _ _ _ _ _ P)|]. split; [apply (sh_pages _ _ _ Sh)|]. split_and!.
  - intros c o Ho. destruct (HL c o Ho) as [Hc Hl]. destruct (live_range _ _ s c o Sh Hc Hl) as (p & Hp & R1 & R2 & _). pose proof (conf_bytes _ _ _ (sh_conf _ _ _ Sh c Hc)).
    exists (frame (slabs s p)), (gfporder (caches s c)). split; [by apply block_in|]. unfold block_bytes in R2. lia.
  - intros c o c' o' Ho Ho' Hne. destruct (HL c o Ho), (held_live L s c' o' R Ho'). by apply (live_apart (all_caches s) [] s).
  - intros c o c' p Ho Hc' Hp Hof. destruct (HL c o Ho). pose proof (mgmt_apart (all_caches s) [] s c o c' p) as X. unfold mgmt in X. rewrite Hof in X. by apply X.
  - intros c o Ho Hct. destruct (HL c o Ho) as [Hc (p & i & Hp & Hi & _ & ->)]. by apply (sh_ctor _ _ _ Sh).
Qed.

(** C36. After every history from boot each cache is well formed: its objects, the management structure
    and the colours fit in the pages of a slab; an object that describes a slab
    outside of its pages is large enough for it; no slab is on two lists; a slab is on the list of full,
    partly used or free slabs that its counter says; the counter is the number of objects that are not
    on its free list, which holds each index at most once and ends properly; and every page of a slab
    leads back to the slab and its cache, which is what kfree relies on. *)
Theorem caches_well_formed L s c : heap_run L s -> c ∈ all_caches s ->
  let k := caches s c in
  1 <= num k /\ BYTES_PER_WORD <= objsize k /\ 0 <= gfporder k <= MAX_GFP_ORDER /\
  num k * objsize k + mgmt k + colour k * colour_off k <= PAGE_SIZE * 2 ^ gfporder k /\
  (OFF_SLAB k = true -> slabp_cache k ∈ all_caches s /\ slab_size (num k) <= objsize (caches s (slabp_cache k))) /\
  NoDup (slabs_full k ++ slabs_partial k ++ slabs_free k) /\
  forall p, p ∈ slabs_full k ++ slabs_partial k ++ slabs_free k ->
    let sl := slabs s p in
    inuse sl = num k - Z.of_nat (length (free_objs k sl)) /\ NoDup (free_objs k sl) /\ chain (num k) (bufctl sl) (sfree sl) (free_objs k sl) /\
    (p ∈ slabs_full k <-> inuse sl = num k) /\ (p ∈ slabs_partial k <-> 0 < inuse sl < num k) /\ (p ∈ slabs_free k <-> inuse sl = 0) /\
    forall q, in_block (frame sl) (gfporder k) q -> page_cache s q = c /\ page_slab s q = p /\ page_is_slab s q = true.
Proof.
  intros Hr Hc k. pose proof (run_ready L s Hr) as R. destruct (ready_inv _ _ R) as [[P Cl] _]. pose proof (in_shape _ _ _ _ _ P) as Sh.
  destruct (sh_conf _ _ _ Sh c Hc) as [C1 C2 C3 C4 C5 C6]. fold k in C1, C2, C3, C4, C5, C6. split; [lia|]. split; [done|]. split; [done|]. split; [done|].
  split; [intros Ho; destruct (C6 Ho) as (X1 & _ & _ & X2); done|]. split; [apply (sh_lists _ _ _ Sh c Hc)|].
  intros p Hp. cbv zeta. pose proof (in_list _ _ _ _ _ P c p Hc Hp) as [K1 K2 K3]. fold k in K1, K2, K3. split; [done|]. split; [done|]. split; [done|].
  destruct (Cl c p Hc) as (X1 & X2 & X3). fold k in X1, X2, X3. rewrite !elem_of_app in Hp. split_and!.
  - split; [done|]. intros E. destruct Hp as [?|[Hp|Hp]]; [done|specialize (X2 Hp); lia|specialize (X3 Hp); lia].
  - split; [done|]. intros E. destruct Hp as [Hp|[?|Hp]]; [specialize (X1 Hp); lia|done|specialize (X3 Hp); lia].
  - split; [done|]. intros E. destruct Hp as [Hp|[Hp|?]]; [specialize (X1 Hp); lia|specialize (X2 Hp); lia|done].
  - intros q Hq. apply (go_pages _ _ _ (sh_geo _ _ _ Sh c p Hc ltac:(unfold slab_of, slabs_of; by rewrite !elem_of_app)) q Hq).
Qed.

(** C37. After every history from boot no call on caches ends in [BUG()] or follows a wild pointer.  An allocation
    with valid flags, in an interrupt too, returns an object or NULL, and NULL exactly if it is [refused]: the
    cache has no free object and may not grow, or in this very call kmem_getpages gets no pages for a slab, or
    it gets them and then an object to describe the slab cannot be had for the same reasons.  kmalloc fails besides exactly
    for more than 131072 bytes, and what it returns has at least the bytes asked for; an object handed out can be
    freed by kmem_cache_free and by kfree; caches can be created with valid arguments and a new
    name, which gives NULL only if no object for its description is had; caches that are not general ones can be
    destroyed, and caches can be shrunk and reclaimed from. *)
Theorem caches_never_bug L s : heap_run L s ->
  (forall irq c flags, c ∈ cache_chain s -> flags_ok irq flags -> dma_fits s c flags -> exists s' o, kmem_cache_alloc reclaim irq c flags s = Some (s', o) /\
     (o = 0 <-> refused reclaim c flags s)) /\
  (forall irq size flags, flags_ok irq flags -> exists s' o, Cache.kmalloc reclaim irq size flags s = Some (s', o) /\
     (o = 0 <-> 131072 < size \/ refused reclaim (kmem_find_general_cachep size flags (general s)) flags s) /\
     (o <> 0 -> size <= objsize (caches s' (page_cache s' (virt_to_page o))))) /\
  (forall c o, (c, o) ∈ L -> kmem_cache_free c o s <> None /\ Cache.kfree o s <> None) /\
  (forall name size offset flags ct dt, create_args name size offset flags ct dt -> name ∉ cache_names s ->
     exists s' c, kmem_cache_create reclaim false name size offset flags ct dt s = Some (s', c) /\
       (c = 0 -> refused reclaim cache_cache SLAB_KERNEL s)) /\
  (forall c, c ∈ cache_chain s -> not_general s c -> kmem_cache_destroy false c s <> None) /\
  (forall c, c ∈ all_caches s -> kmem_cache_shrink false c s <> None) /\
  (forall mask locked, kmem_cache_reap mask locked s <> None).
Proof.
  intros Hr. pose proof (run_ready L s Hr) as R. destruct (ready_inv _ _ R) as [I Ri]. split_and!.
  - intros irq c flags Hc Hf Hd. destruct (ready_alloc L s irq c flags R Hc Hf Hd) as (s' & o & E & _ & _ & _ & N). by exists s', o.
  - intros irq size flags Hf. destruct (general_cases L s irq size flags R Hf) as [[Hs E]|(Hz & Hc & Hd & Hs & E)]; [exists s, 0; split; [done|]; split; [split; [by left|done]|done]|].
    destruct (ready_alloc L s irq _ flags R Hc Hf Hd) as (s' & o & E' & K & R' & _ & N). rewrite <- E in E'. exists s', o. split; [done|]. split; [rewrite N; split; [by right|intros [?|?]; [lia|done]]|].
    intros Ho. unfold add_obj in R'. rewrite (proj2 (Z.eqb_neq _ _) Ho) in R'. destruct (ready_inv _ _ R') as [[P _] _]. destruct (live_slab _ _ _ _ _ _ _ P) as (p & i & Hc' & Hp & Hi & _ & Eo).
    destruct (obj_page _ _ s' _ p i (in_shape _ _ _ _ _ P) Hc' Hp Hi) as [Ep _]. rewrite Eo, Ep. by destruct (static_eqs _ _ (kp_static _ _ K (kmem_find_general_cachep size flags (general s)))) as (-> & _).
  - intros c o (L1 & L2 & ->)%list_elem_of_split. destruct (ready_free (L1 ++ L2) s c o) as (s' & E1 & E2 & _); [by eapply ready_perm; [symmetry; apply Permutation_middle|]|]. by rewrite E1, E2.
  - intros name size offset flags ct dt Ca Hn. destruct (ready_create L s name size offset flags ct dt R Ca Hn) as (s' & c & E & _ & _ & D). exists s', c. split; [done|].
    intros ->. by destruct D as [(_ & Rf & _)|(? & _)].
  - intros c Hc Hg. destruct (ready_destroy L s c R Hc Hg) as (s' & r & -> & _). done.
  - intros c Hc. destruct (shrink_ok _ _ _ _ s c I Hc) as (s' & n & -> & _). done.
  - intros mask locked. destruct (reap_ok _ _ _ _ s mask locked I Ri) as (s' & n & -> & _). done.
Qed.

(** ** What destroying a cache leaves alone *)










(** *** The heap of [Slab] *)

Section heap.
Context {O : Type}.

(** The live objects of the heap are those that the caches have handed out. *)
Definition heap_of (h : kheap O) (L : list (Z * Z)) : Prop := forall a, is_Some (objs h !! a) <-> exists c, (c, a) ∈ L.
(** The answer of the caches to one request. *)
Definition answer (a : Z) : Slab O := fun _ _ => if a =? 0 then None else Some a.

Lemma fresh_object L s c a c' : ready ((c, a) :: L) s -> (c', a) ∉ L.
Proof.
  intros R Ho. destruct (ready_inv _ _ R) as [[P _] _]. pose proof (in_shape _ _ _ _ _ P) as Sh.
  destruct (held_live _ s c a R) as [Hc Hl]; [apply list_elem_of_here|]. destruct (held_live _ s c' a R) as [Hc' Hl']; [apply elem_of_app; left; apply elem_of_cons; by right|].
  pose proof (cf_size _ _ _ (sh_conf _ _ _ Sh c Hc)). pose proof (cf_size _ _ _ (sh_conf _ _ _ Sh c' Hc')). unfold BYTES_PER_WORD in *.
  destruct (decide ((c, a) = (c', a))) as [[= <-]|Hne]; [|destruct (live_apart (all_caches s) [] s c a c' a Sh Hc Hc' Hl Hl' Hne); lia].
  pose proof (in_once _ _ _ _ _ P) as N. simpl in N. apply list.NoDup_cons in N as [N _]. apply N, elem_of_app. by left.
Qed.

Lemma heap_add h L c a x : a <> 0 -> heap_of h L -> heap_of (h <| epoch ::= S |> <| objs ::= <[a := x]> |>) (add_obj c a L).
Proof.
  intros Ha Hh b. unfold add_obj. rewrite (proj2 (Z.eqb_neq _ _) Ha). simpl. destruct (decide (b = a)) as [->|Hne].
  - rewrite lookup_insert_eq. split; [intros _; exists c; apply list_elem_of_here|done].
  - rewrite lookup_insert_ne by done. rewrite (Hh b). split; intros (c' & Hc'); exists c'; [apply elem_of_cons; by right|]. by apply elem_of_cons in Hc' as [[= _ ->]|?].
Qed.

Lemma heap_delete h L1 c a L2 s : ready (L1 ++ (c, a) :: L2) s -> heap_of h (L1 ++ (c, a) :: L2) -> heap_of (h <| objs ::= delete a |>) (L1 ++ L2).
Proof.
  intros R Hh b. simpl. apply (ready_perm _ ((c, a) :: L1 ++ L2)) in R; [|symmetry; apply Permutation_middle]. destruct (decide (b = a)) as [->|Hne].
  - rewrite lookup_delete_eq. split; [intros [? [=]]|]. intros (c' & Hc'). by destruct (fresh_object _ s c a c' R).
  - rewrite lookup_delete_ne by done. rewrite (Hh b). split; intros (c' & Hc'); exists c'; rewrite elem_of_app in *; [|by destruct Hc'; [left|right; apply elem_of_cons; right]].
    destruct Hc' as [?|[[= _ ->]|?]%elem_of_cons]; [by left|done|by right].
Qed.

Lemma refine_malloc L s h irq size flags x : heap_run L s -> heap_of h L -> flags_ok irq flags ->
  exists s' a, Cache.kmalloc reclaim irq size flags s = Some (s', a) /\
    let L' := add_obj (kmem_find_general_cachep size flags (general s)) a L in
    heap_run L' s' /\ (a <> 0 -> 0 < a /\ objs h !! a = None) /\
    exists h', @Slab.kmalloc O (answer a) size x h = (a, h') /\ heap_of h' L'.
Proof.
  intros Hr Hh Hf. pose proof (run_ready L s Hr) as R. destruct (general_cases L s irq size flags R Hf) as [[Hs E]|(Hs & Hc & Hd & _ & E)].
  - exists s, 0. split; [done|]. cbv zeta. split; [by apply (hr_kmalloc L s irq size flags)|]. split; [done|]. exists h. split; [|done]. by apply kmalloc_too_big.
  - destruct (ready_alloc L s irq _ flags R Hc Hf Hd) as (s' & a & E' & _ & R' & Ha & _). rewrite <- E in E'. exists s', a. split; [done|]. cbv zeta. split; [by apply (hr_kmalloc L s irq size flags)|].
    assert (Ep : exists z, pick_cache size cache_sizes = Some z).
    { assert (G : forall l, (exists z, z ∈ l /\ size <= z) -> exists z, pick_cache size l = Some z).
      { induction l as [|y l IH]; intros (z & Hz & Hle); [by apply not_elem_of_nil in Hz|]. simpl. destruct (Z.ltb_spec y size) as [Hy|Hy]; [|by exists y].
        apply IH. exists z. split; [|done]. apply elem_of_cons in Hz as [->|?]; [lia|done]. }
      apply G. exists 131072. split; [apply list_elem_of_In; vm_compute; tauto|done]. }
    destruct Ep as [z Ep]. unfold Slab.kmalloc, slab_alloc, answer. rewrite Ep. unfold add_obj in R'. destruct (Z.eqb_spec a 0) as [->|Ha0].
    + split; [done|]. eexists. split; [done|exact Hh].
    + split.
      * intros _. split; [lia|]. destruct (objs h !! a) eqn:Eh; [|done]. exfalso. destruct (proj1 (Hh a)) as [c' Hc']; [by rewrite Eh|]. by apply (fresh_object _ _ _ _ c' R').
      * eexists. split; [done|]. by apply heap_add.
Qed.

Lemma refine_free L s h a h' : heap_run L s -> heap_of h L -> Slab.kfree a h = Some h' ->
  exists s' L', Cache.kfree a s = Some s' /\ heap_run L' s' /\ heap_of h' L'.
Proof.
  intros Hr Hh. unfold Slab.kfree. destruct (Z.eqb_spec a 0) as [->|Ha]; [intros [= <-]; exists s, L; done|]. destruct (objs h !! a) as [y|] eqn:E; [|done]. intros [= <-].
  destruct (proj1 (Hh a)) as [c Hc]; [by rewrite E|]. apply list_elem_of_split in Hc as (L1 & L2 & ->). pose proof (run_ready _ s Hr) as R.
  destruct (ready_free (L1 ++ L2) s c a) as (s' & _ & E2 & _); [by eapply ready_perm; [symmetry; apply Permutation_middle|]|].
  exists s', (L1 ++ L2). split; [done|]. split; [by eapply hr_kfree|by eapply heap_delete].
Qed.

(** C35. The caches implement the heap that [Slab] describes and the process policy uses.  If the live objects of
    a heap are the objects handed out, then kmalloc on the caches returns what kmalloc on the heap
    returns when its allocator gives the answer of the caches; that answer is not NULL and not the address of
    a live object, as [SlabLaws] asks; the live objects are again those
    handed out.  Whenever kfree is defined on the heap, kfree on the caches succeeds, and both
    lose the same object. *)
Theorem kmalloc_refines L s (h : kheap O) : heap_run L s -> heap_of h L ->
  (forall irq size flags x, flags_ok irq flags -> exists s' a h', Cache.kmalloc reclaim irq size flags s = Some (s', a) /\
     @Slab.kmalloc O (answer a) size x h = (a, h') /\ (a <> 0 -> objs h !! a = None) /\
     exists L', heap_run L' s' /\ heap_of h' L') /\
  (forall a h', Slab.kfree a h = Some h' -> exists s' L', Cache.kfree a s = Some s' /\ heap_run L' s' /\ heap_of h' L').
Proof.
  intros Hr Hh. split; [|intros a h'; by apply (refine_free L s h)]. intros irq size flags x Hf.
  destruct (refine_malloc L s h irq size flags x Hr Hh Hf) as (s' & a & E & Hr' & Hn & h' & E' & Hh'). exists s', a, h'. split; [done|]. split; [done|]. split; [|by eexists].
  intros Ha. by apply Hn.
Qed.
End heap.
End histories.

(** ** Reclaim is kmem_cache_reap *)

(** What the search for pages does to the caches, when it waits: kmem_cache_reap. *)
Definition reap_waiting {A} `{Pages A} (s : kmem A) : kmem A := match kmem_cache_reap GFP_KERNEL false s with Some (s', _) => s' | None => s end.

Lemma reap_reclaims {A} `{PagesLaws A} V G B L (s : kmem A) : inv V G B L s -> ring V s -> inv V G B L (reap_waiting s) /\ kept s (reap_waiting s).
Proof. intros I R. destruct (reap_ok V G B L s GFP_KERNEL false I R) as (s' & n & E & I' & K). unfold reap_waiting. by rewrite E. Qed.

(** ** A run *)

(** An allocator of pages that never runs out: the state is the next page. *)
#[local] Instance next_pages : Pages Z := {| get_pages := fun _ o a => (a + 2 ^ o, Some a); put_pages := fun _ _ a => Some a |}.
#[local] Instance next_laws : PagesLaws Z.
Proof.
  refine {| holds := fun l a => 0 <= a /\ apart l /\ forall p o, (p, o) ∈ l -> 0 <= p /\ p + 2 ^ o <= a |}.
  - intros l l' a P (Ha & Hl & Hb). split; [done|]. split; [by apply (apart_perm l)|]. intros p o. rewrite <- P. apply Hb.
  - tauto.
  - intros l a p o (_ & _ & Hb) Hp. by apply (Hb p o).
  - intros l a f o (Ha & Hl & Hb) Ho. simpl. assert (0 < 2 ^ o) by (apply Z.pow_pos_nonneg; [lia|apply Ho]). split; [lia|]. split.
    + split; [|done]. intros p' o' q Hp Hq Hq'. destruct (Hb p' o' Hp). unfold in_block in *. lia.
    + intros p' o' [[= -> ->]|Hp]%elem_of_cons; [lia|]. destruct (Hb p' o' Hp). lia.
  - intros l a p o (Ha & [_ Hl] & Hb). exists a. split; [done|]. split; [done|]. split; [done|]. intros p' o' Hp. apply Hb. apply elem_of_cons. by right.
Defined.

Definition image : kmem Z :=
  Kmem (<[cache_cache := static_cache]> (fun _ => zero_cache)) (fun _ => SlabT 0 0 0 0 (fun _ => 0)) (fun _ => 0) (fun _ => 0) (fun _ => false) (fun _ => false) []
    cache_cache 0 BREAK_GFP_ORDER_LO (map (fun sz => (sz, 0, 0)) SIZES) 1024.
Definition set_up : kmem Z := default image (kmem_cache_init image).
Definition up : kmem Z := default image (kmem_cache_sizes_init reap_waiting false 30000 set_up).
(** A request of 1000 bytes, one of 100 bytes in an interrupt, and the first is freed. *)
Definition malloc (irq : bool) (size flags : Z) (s : kmem Z) : kmem Z * Z := default (image, 0) (Cache.kmalloc reap_waiting irq size flags s).
Definition one : kmem Z := fst (malloc false 1000 GFP_KERNEL up).
Definition two : kmem Z := fst (malloc true 100 GFP_ATOMIC one).

Lemma defined {X} (o : option X) d : bool_decide (is_Some o) = true -> o = Some (default d o).
Proof. intros H%bool_decide_eq_true. by destruct H as [x ->]. Qed.
Ltac runs := apply defined; vm_compute; reflexivity.

Lemma up_run : heap_run reap_waiting [] up.
Proof.
  apply (hr_boot reap_waiting 30000 image set_up up); [|unfold set_up; runs|unfold up; runs].
  split; try done. split; [done|]. split; [done|]. intros p o ?%not_elem_of_nil. done.
Qed.

Lemma malloc_run L irq size flags s : heap_run reap_waiting L s -> flags_ok irq flags -> bool_decide (is_Some (Cache.kmalloc reap_waiting irq size flags s)) = true ->
  heap_run reap_waiting (add_obj (kmem_find_general_cachep size flags (general s)) (snd (malloc irq size flags s)) L) (fst (malloc irq size flags s)).
Proof.
  intros Hr Hf E. apply (hr_kmalloc reap_waiting L s irq size flags); [done|done|]. rewrite <- surjective_pairing. by apply defined.
Qed.

Definition of_1024 : Z * Z := (3225421048, 3225423872).
Definition of_128 : Z * Z := (3225420400, 3225432224).

Lemma one_run : heap_run reap_waiting [of_1024] one.
Proof.
  assert (E : [of_1024] = add_obj (kmem_find_general_cachep 1000 GFP_KERNEL (general up)) (snd (malloc false 1000 GFP_KERNEL up)) []) by (vm_compute; reflexivity).
  rewrite E. apply malloc_run; [exact up_run|by split|vm_compute; reflexivity].
Qed.

Lemma two_run : heap_run reap_waiting [of_128; of_1024] two.
Proof.
  assert (E : [of_128; of_1024] = add_obj (kmem_find_general_cachep 100 GFP_ATOMIC (general one)) (snd (malloc true 100 GFP_ATOMIC one)) [of_1024]) by (vm_compute; reflexivity).
  rewrite E. apply malloc_run; [exact one_run|by split|vm_compute; reflexivity].
Qed.

Lemma objects_disjoint_witness : heap_run reap_waiting [of_128; of_1024] two /\ NoDup [of_128; of_1024] /\
  (snd of_128 + 128 <= snd of_1024 \/ snd of_1024 + 1024 <= snd of_128).
Proof.
  destruct (objects_disjoint reap_waiting reap_reclaims _ two two_run) as (N & _ & _ & D & _). split; [exact two_run|]. split.
  - apply list.NoDup_app in N as [N _]. exact N.
  - assert (E1 : objsize (caches two (fst of_128)) = 128) by (vm_compute; reflexivity). assert (E2 : objsize (caches two (fst of_1024)) = 1024) by (vm_compute; reflexivity).
    destruct (D (fst of_128) (snd of_128) (fst of_1024) (snd of_1024)) as [X|X].
    + exact (list_elem_of_here _ _).
    + apply elem_of_app. left. exact (list_elem_of_further _ _ _ (list_elem_of_here _ _)).
    + discriminate.
    + left. rewrite E1 in X. exact X.
    + right. rewrite E2 in X. exact X.
Defined.

Lemma caches_well_formed_witness : fst of_1024 ∈ all_caches two /\ let k := caches two (fst of_1024) in
  num k * objsize k + mgmt k + colour k * colour_off k <= PAGE_SIZE * 2 ^ gfporder k.
Proof.
  assert (Hc : fst of_1024 ∈ all_caches two) by (apply (bool_decide_unpack _); vm_compute; exact I). split; [exact Hc|].
  destruct (caches_well_formed reap_waiting reap_reclaims _ two _ two_run Hc) as (_ & _ & _ & X & _). exact X.
Defined.

Lemma caches_never_bug_witness : flags_ok true GFP_ATOMIC /\ exists s' o, Cache.kmalloc reap_waiting true 5000 GFP_ATOMIC two = Some (s', o) /\
  5000 <= objsize (caches s' (page_cache s' (virt_to_page o))).
Proof.
  assert (Hf : flags_ok true GFP_ATOMIC) by (split; reflexivity). split; [exact Hf|].
  destruct (caches_never_bug reap_waiting reap_reclaims _ two two_run) as (_ & K & _). destruct (K true 5000 GFP_ATOMIC Hf) as (s' & o & E & _ & X). exists s', o. split; [exact E|]. apply X.
  intros ->. assert (Y : (snd <$> Cache.kmalloc reap_waiting true 5000 GFP_ATOMIC two) <> Some 0) by (vm_compute; discriminate). rewrite E in Y. by apply Y.
Defined.




(** A heap with the two objects, of one byte each. *)
Definition two_heap : kheap Z := KHeap {[ snd of_128 := 7; snd of_1024 := 8 ]} 2.
Lemma two_heap_of : heap_of two_heap [of_128; of_1024].
Proof.
  intros a. unfold two_heap. simpl. rewrite lookup_insert_is_Some, lookup_singleton_is_Some. split.
  - intros [<-|[_ <-]]; [exists (fst of_128); exact (list_elem_of_here _ _)|exists (fst of_1024); exact (list_elem_of_further _ _ _ (list_elem_of_here _ _))].
  - intros [c Hc]. rewrite !elem_of_cons in Hc. destruct Hc as [[= _ ->]|[[= _ ->]|[]%not_elem_of_nil]]; [by left|right]. by split.
Qed.

Lemma kmalloc_refines_witness : exists s' L' h', Slab.kfree (snd of_1024) two_heap = Some h' /\ Cache.kfree (snd of_1024) two = Some s' /\
  heap_run reap_waiting L' s' /\ heap_of h' L'.
Proof.
  destruct (kmalloc_refines reap_waiting reap_reclaims _ two two_heap two_run two_heap_of) as [_ F].
  assert (E : exists h', Slab.kfree (snd of_1024) two_heap = Some h') by (eexists; reflexivity). destruct E as [h' E].
  destruct (F _ h' E) as (s' & L' & X). exists s', L', h'. split; [exact E|exact X].
Defined.
